(* ===== verification/_CoqProject ===== *)
-Q . S2P
Prelude.v
GoBytes.v
GoText.v
GoFloat.v
GoUnquote.v
GoValue.v
Rbe.v
Ladder.v
StLexer.v
StSyntax.v
StParser.v
StRoundtrip.v
StCodegen.v
ModbusCodec.v
ModbusClient.v
ModbusStore.v
ModbusServer.v
ChannelBus.v
Topics.v
StoreForward.v
Wire.v
Dcp.v
IoData.v
PnioBlocks.v
PnioAr.v
PnioRpc.v
PnioCyclic.v
PnController.v
PnHandshake.v
PnScanner.v
Sparkplug.v
SparkplugNode.v
PlcTypes.v
PlcVariables.v
PlcLadder.v
PlcEquivalence.v
PlcEngine.v
GatewayConfig.v
GatewayUdt.v
Gateway.v
GatewayRouting.v
GatewayScanners.v
ModbusScanner.v
ModbusPolling.v
Host.v
Orchestrator.v
OrchestratorSweep.v
OrchestratorTasks.v
OrchestratorUnits.v
OrchestratorVersions.v
PlcRuntime.v
PlcPublisher.v
PlcBridge.v
PlcDelivery.v
PlcPipeline.v
PlcExamples.v
PlcLadderText.v
MqttBridge.v
MqttDelivery.v
GatewayDelivery.v
Manifest.v
ManifestRoundtrip.v
Gitops.v
GitopsText.v
GitopsFiles.v
GitopsSync.v
GitopsExamples.v
Network.v
Firewall.v
FirewallFacts.v
FirewallExamples.v
ApiGateway.v
ApiGatewayFacts.v
ApiInterfaces.v
ApiBrowse.v
ApiExamples.v
