(* ===== verification/Prelude.v ===== *)
(** * Verification of the Tentacle gateway

    Tentacle is an industrial gateway written in Go: protocol scanners read field
    devices, a message bus connects the modules, a soft PLC runs Structured Text and
    ladder programs, and bridges publish values to MQTT Sparkplug and to a Modbus TCP
    server. This library models the parts with logic of their own and proves what makes
    them correct. It follows the code file by file; a definition has the name of the Go
    function or type it translates where Rocq allows it.

    ** The program and the files

    - Values on every path are Go [interface{}] values. [GoBytes] has machine integers
      with their wrap-around, byte slices and bounds-checked reads; [GoText] strings,
      UTF-8 decoding, [strings] and [strconv]; [GoFloat] IEEE-754 floats as bit
      patterns; [GoValue] dynamic values, their formatting and their comparison. This
      file has the result type [outcome] (a value, an error, a panic), generic lemmas
      and tactics.
    - [Rbe]: report by exception. Module [Internal] is internal/rbe/rbe.go, used by the
      MQTT bridge for every metric; module [Plc] is plc/rbe.go, the variant of the PLC
      library; module [Types] the deadband settings of types/common.go.
    - [Ladder]: plc/ladder. Elements are an inductive type, [evaluate] runs one element
      on a machine (tags, timers, counters, and the number of clock readings taken; the
      clock is a function of that number), [scan] is one call of the program function
      that [CreateProgram] returns.
    - [StLexer], [StSyntax], [StParser], [StCodegen]: internal/plc/st, the compiler from
      Structured Text to Starlark; [StRoundtrip] has the printers and the theorems that
      parsing inverts them.
    - [ModbusCodec], [ModbusClient], [ModbusScanner]: internal/modbus, the Modbus TCP
      scanner's codec, frames, request loop, block reads and read plan; its devices with
      their poll loops (a position and a step function), subscriptions, change detection and
      commands. [ModbusPolling] proves what the scanner achieves.
    - [ModbusStore], [ModbusServer]: internal/modbusserver, the register store and the
      server's request handlers, framing and connection loop. Their theorems meet the
      client's, and [ModbusPolling] runs the scanner against the server.
    - [ChannelBus]: internal/bus/channel.go, the in-process bus: subject matching,
      subscriptions, publish, request, and key-value buckets with watchers, whose operations
      are cut where they give up the lock: the saves and the handler calls come after it, in
      any order.
    - [Topics]: internal/topics/topics.go and the subscription patterns of gateway, PLC
      and Modbus server, matched by the bus's [matchSubject].
    - [StoreForward]: internal/mqtt/storeforward.go, the buffer in front of the broker.
    - [Sparkplug] is internal/sparkplug (datatypes, metrics, templates, payloads against
      the generated message types); [SparkplugNode] internal/mqtt/node.go, the session of
      the edge node with births, sequence numbers and the primary host; [PlcTypes] the bus
      messages of types/data.go and common.go; [MqttBridge] bridge.go, one transition
      system of bridge, buffer and node; [MqttDelivery] follows values through it.
    - The gateway of internal/gateway: [GatewayConfig] has the configuration records and
      the scanners' requests of types/gateway.go; [GatewayUdt] udt.go, the assembler of
      structured variables with its timer; [Gateway] gateway.go. [GatewayRouting] proves
      what happens to values, [GatewayScanners] to subscriptions and requests,
      [GatewayDelivery] runs the gateway between a scanner and the MQTT bridge.
    - The soft PLC of internal/plc: [PlcVariables] has its configuration, the variable store
      (variables.go) and the publisher; [PlcLadder] the ladder instructions
      (builtins_ladder.go) as code over the store, the clock and the task's state;
      [PlcEngine] the other built-in functions and engine.go; [PlcRuntime] the scanner
      bridge, tasks and the module (plc.go). [PlcEquivalence] relates the instructions to
      [Ladder]; [PlcPublisher] runs the publisher among writers; [PlcBridge] has what the
      bridge asks for and hears; [PlcDelivery] the module's state; [PlcPipeline] follows a
      value through it; [PlcExamples] runs them. [PlcLadderText] is parser.go, the text of
      ladder programs, over [GoUnquote].
    - The PROFINET IO device of internal/profinet. [Wire] has the big-endian reads and
      appends every frame uses; [Dcp] is dcp.go and dcp_responder.go (discovery and
      station naming); [IoData] iodata.go and the configuration types with their
      validation (packing tag values into the cyclic image); [PnioBlocks] pnio_blocks.go
      (the blocks of the acyclic services); [PnioAr] ar.go, the application relation and
      its submodule and connection set-up; [PnioRpc] rpc.go, the datagram dispatcher;
      [PnioCyclic] cyclic.go and frame.go, the provider and consumer frames.
    - The PROFINET IO controller of internal/profinetcontroller. [PnController] builds the
      requests and parses the answers (rpc_client.go, dcp_client.go, types.go);
      [PnHandshake] runs its connection sequence (ar.go) against the device's dispatcher
      of [PnioRpc]; [PnScanner] is controller_cyclic.go and scanner.go, the cyclic
      exchange, the subscriptions and the locks they take.
    - The orchestrator of internal/orchestrator. [Host] is the computer it runs on: a file
      system with the functions of the package os, and the interface through which commands
      and web servers are called. [Orchestrator] has desired services, the registry of
      modules and their reconciliation as goroutines of one process; [OrchestratorSweep]
      proves what a sweep achieves; [OrchestratorTasks] cuts the same operations at their
      locks and interleaves them. [OrchestratorUnits] is the mode in which modules are systemd
      units (download.go, systemd.go, self_update.go, reconcileModule, commands), as actions
      on the host; [OrchestratorVersions] has its theorems.
    - The manifests of internal/manifest: [Manifest] has the resources that describe a
      machine, their validation, application, export and comparison, over the buckets;
      [ManifestRoundtrip] what they keep and what they start. [Gitops] is internal/gitops
      with the text of manifests: the files in the clone of a git repository, the commands
      of git, and the loops that commit and pull. [GitopsText] proves that a resource's text
      is read back, [GitopsFiles] what the files hold,
      [GitopsSync] what one machine makes of the files of another and what the loops skip;
      [GitopsExamples] applies the theorems to concrete machines.
    - [Network] is internal/network, the interfaces of a machine with their netplan files,
      and [Firewall] internal/nftables, the NAT rules, whose addresses it gives to the
      network module; together they are the peers of the manifests. [FirewallFacts] has
      their theorems, [FirewallExamples] a machine with both.
    - The HTTP API's part with state of its own, internal/api: [ApiGateway] has the handlers
      that change a gateway's configuration and the call that shows it (gateway.go,
      network.go, modulestatus.go), as functions between two moments of the bucket;
      [ApiGatewayFacts] what they keep and lose; [ApiInterfaces] follows the interfaces of
      the machine from the network module through the API to the gateway; [ApiBrowse] is the
      browsing of devices (scanner.go) as steps of one state; [ApiExamples] runs them.

    ** What the theorems show

    - Rbe: publications are never closer than the minimum interval nor further apart
      than the maximum; what subscribers hold stays within the deadband; the PLC
      library's variant panics on structured values.
    - Ladder: timers and counters compute their delays and counts over any number of
      scans, rungs compute their boolean functions, a scan changes nothing else; the
      count-down instruction never counts down from its preset.
    - Soft PLC: its ladder instructions and the ladder library compute the same over any
      history of inputs and times, for rungs whose conditions come first and tags without a
      dot, and differ beyond; the publisher loses no value that can be encoded however it
      interleaves with writers; the module's state follows its configuration; a field value goes through a
      rung to the bus; ladder text reads back as the program without comments. The scan rate
      that brings the process down and the device names whose inputs stay deaf are pinned down.
    - Structured Text: lexing and parsing terminate on every text and invert printing;
      the generated code is a well-formed block tree; later CASE labels are lost.
    - Modbus: encoding, framing and stream reassembly round trips; the read plan covers
      every tag; the server answers every request in order however the bytes are cut,
      registers and coils written are those read; the scanner refines a table of
      subscriptions, follows its configuration bucket, publishes the changes of each tag,
      and publishes a server's variable; the inputs that crash or wedge either side are
      pinned down.
    - Bus: delivery to direct and queue subscribers, buckets as maps with expiry and
      revisions; a watcher is called once for every change, from which the bucket can be
      rebuilt when calls take their turns, and not when puts overlap; modules receive their
      own subjects only.
    - PROFINET: discovery and naming answer the requests meant for the station, and the
      controller reads the address two bytes late; IO images and blocks decode to what was
      encoded; the application relation refines a three-state automaton that owes the starts
      of its exchanges, one of which can come after the release; controller and
      device, run against each other, reach data exchange and understand the same
      submodules; values packed on one side are those read on the other; the tag table
      follows the subscriptions; the datagrams that crash the device, the frame loop that
      deadlocks with two devices and the frames it gives to the wrong one.
    - Store and forward: a bounded queue without loss or reordering beyond the counted
      evictions, draining that terminates, and the publish-rate window.
    - MQTT: payloads decode to what was encoded; while publishes succeed the bridge's stream
      keeps the session's sequence and birth-death numbers (an automaton over the messages
      sent); values, births and
      buffered records arrive with their names, types and order; the session follows the
      primary host; the start that never connects, data sent before its birth, records
      lost while draining and negative commands are pinned down.
    - Orchestrator: a sweep makes the process what the desired services ask for, whatever the
      order of maps, where no dependency has to be installed, and a second one changes nothing; taken in turns, reconciliations lose no
      module; restarting one loses it for good, and stopping one that has just ended can end
      the process. The highest offline version, the active version through its link, and why
      no module of the registry can be installed or migrated on bare metal.
    - Manifests and GitOps: exporting the configuration and applying it changes nothing;
      a service's manifest makes its module run; a machine that reads the files of
      another wants the same services and has the same configuration but for secrets; what
      passes validation is closed, and a gateway with devices of its own does not pass; a
      change from git leaves the commit loop as it was while its record is there, what waits
      is committed; firewall rules next to a network never reach git, deleted services come back, gateways lose their passwords.
    - Firewall: a manifest of rules that was applied is exported as it was, its script is the
      one nft accepted, and the addresses of the interfaces change by the aliases that are new
      or gone against the record, where ip succeeds; the script has one line for each rule;
      refused rules stay in the configuration and an alias that failed is never added.
    - HTTP API: requests keep the references of a configuration, deleting a device takes
      what is its own and no more, looking at a gateway settles in any order of its sources, and
      the interfaces' values become members of structured variables; of two requests at a time
      one is lost, a look brings back what was deleted during it and makes the manifests
      invalid. A browse ends once and its result is kept; one without an answer never ends.

    ** Bounds and fuel

    The lexer's, parser's and server's loops take fuel computed from the length of their
    input; [Lex_some], [Parse_total] and [connection_serves_requests] prove that it is
    enough. The digit loop of [intToString] has the 20 steps of its buffer. Integers wrap
    at their Go width ([wraps], [wrapu]); counters that only grow are bounded in the
    theorems by the number of operations. Time is an integer, passed to each operation.

    ** Parameters

    [FloatConv] is Go's conversion of a float to an integer type outside the range the
    language defines; [FloatText] formatting and parsing of floats; [UnicodeTables] the
    Unicode tables beyond ASCII; [Protobuf] the wire format of messages (decoding inverts
    encoding); [JsonNumber] the reading of a JSON number; [Starlark] the interpreter (a
    program is the tree of its calls of built-in functions) with its unpacking of arguments,
    [StarlarkSyntax] its parser, [GoMath] square root and power, [System] what commands and
    web servers do, [Peers] what the modules nftables and network answer ([module_peers] is
    what they do), [NetworkService] the network module as the firewall sees it,
    [ManifestCodec], [SpecJson], [NetworkText], [FirewallText] and [BrowseText] the encoders
    of JSON and YAML ([YamlReads]: yaml.v3 reads the tree it wrote). Each is a class with a concrete
    instance that the witnesses use. [token_error] is the broker's answer to the n-th
    publication.
    The controller's network is an argument [call], which [PnHandshake] instantiates with
    the device's dispatcher; where Go ranges over a map, the order is an argument.

    ** Not modelled

    Sockets, goroutine scheduling in general (an operation gives the handler calls it starts,
    in no order; the steps of the orchestrator, of the bus's buckets, of the Modbus poll loops
    and of the start of a PROFINET exchange are interleaved), file modes, JSON, NATS, the MQTT
    client library, the Starlark interpreter, and the device protocols that third-party
    libraries implement (OPC UA, SNMP, EtherNet/IP). Write errors of the
    server's connections, listening and accepting are left out; so are the PROFINET
    device's start-up, its LLDP announcements and the GSDML document.

    ** Plan

    Next: PROFINET device management and its documents, and the other scanners'
    bookkeeping. *)

From Stdlib Require Export ZArith Lia.
From stdpp Require Export base tactics list strings gmap numbers option.

#[export] Set Default Goal Selector "!".

(** ** Results of Go functions

    A Go function of this repository either returns a value, returns a
    non-nil [error] (we keep the message), or panics (an out-of-range index or
    slice, a negative [make], a comparison of uncomparable interface values).
    [outcome] keeps the three apart, because "it returns an error" and "it
    brings the process down" are different promises. *)
Inductive outcome (A : Type) : Type :=
  | Ok (a : A)
  | Err (msg : string)
  | Panic.
Arguments Ok {A} _.
Arguments Err {A} _.
Arguments Panic {A}.

#[export] Instance outcome_ret : MRet outcome := λ A, Ok.
#[export] Instance outcome_bind : MBind outcome := λ A B f m,
  match m with Ok a => f a | Err e => Err e | Panic => Panic end.

Definition is_ok {A} (m : outcome A) : bool :=
  match m with Ok _ => true | _ => false end.

Definition is_err {A} (m : outcome A) : bool :=
  match m with Err _ => true | _ => false end.

Definition is_panic {A} (m : outcome A) : bool :=
  match m with Panic => true | _ => false end.

(** [from_outcome o] is the result as an option, for comparing two codecs. *)
Definition from_outcome {A} (m : outcome A) : option A :=
  match m with Ok a => Some a | _ => None end.

Lemma Ok_inj {A} (a b : A) : Ok a = Ok b → a = b.
Proof. congruence. Qed.

Lemma bind_Ok {A B} (m : outcome A) (f : A → outcome B) b :
  (m ≫= f) = Ok b ↔ ∃ a, m = Ok a ∧ f a = Ok b.
Proof. split; [destruct m; cbn; eauto; discriminate|]. by intros (a & -> & ?). Qed.

Lemma bind_not_panic {A B} (m : outcome A) (f : A → outcome B) :
  is_panic m = false → (∀ a, m = Ok a → is_panic (f a) = false) →
  is_panic (m ≫= f) = false.
Proof. destruct m; cbn; eauto. Qed.

(** ** Generic list lemmas *)

Lemma Forall_take_drop {A} (P : A → Prop) (l : list A) i j :
  Forall P l → Forall P (take j (drop i l)).
Proof. intros H. apply Forall_take, Forall_drop, H. Qed.

Lemma drop_take_app {A} (l1 l2 l3 : list A) :
  take (length l2) (drop (length l1) (l1 ++ l2 ++ l3)) = l2.
Proof. by rewrite drop_app_length, take_app_length. Qed.

Lemma concat_map_perm {A B} (f : A → list B) l1 l2 :
  l1 ≡ₚ l2 → concat (map f l1) ≡ₚ concat (map f l2).
Proof. rewrite <- !flat_map_concat_map. apply Permutation_flat_map. Qed.

(** ** Automation

    [crush] is the closing tactic for the goals the components share: case
    analysis on the conditionals and matches of executable definitions, then
    arithmetic or first-order reasoning. *)
Ltac case_if :=
  match goal with
  | |- context [if ?b then _ else _] =>
      lazymatch type of b with
      | bool => let E := fresh "E" in destruct b eqn:E
      | _ => case_decide
      end
  | H : context [if ?b then _ else _] |- _ =>
      lazymatch type of b with
      | bool => let E := fresh "E" in destruct b eqn:E
      | _ => case_decide
      end
  end.

Ltac case_ifs := repeat case_if.

(** Turns boolean comparisons of [Z] and [nat] in the context into arithmetic. *)
Ltac bool_to_prop :=
  repeat match goal with
  | H : (_ && _)%bool = true |- _ => apply andb_prop in H as [? ?]
  | H : (_ || _)%bool = false |- _ => apply orb_false_elim in H as [? ?]
  | H : (_ && _)%bool = false |- _ => apply andb_false_iff in H
  | H : (_ || _)%bool = true |- _ => apply orb_prop in H
  | H : negb _ = true |- _ => apply negb_true_iff in H
  | H : negb _ = false |- _ => apply negb_false_iff in H
  | H : Z.ltb _ _ = true |- _ => apply Z.ltb_lt in H
  | H : Z.ltb _ _ = false |- _ => apply Z.ltb_ge in H
  | H : Z.leb _ _ = true |- _ => apply Z.leb_le in H
  | H : Z.leb _ _ = false |- _ => apply Z.leb_gt in H
  | H : Z.eqb _ _ = true |- _ => apply Z.eqb_eq in H
  | H : Z.eqb _ _ = false |- _ => apply Z.eqb_neq in H
  | H : Nat.ltb _ _ = true |- _ => apply Nat.ltb_lt in H
  | H : Nat.ltb _ _ = false |- _ => apply Nat.ltb_ge in H
  | H : Nat.leb _ _ = true |- _ => apply Nat.leb_le in H
  | H : Nat.leb _ _ = false |- _ => apply Nat.leb_gt in H
  | H : Nat.eqb _ _ = true |- _ => apply Nat.eqb_eq in H
  | H : Nat.eqb _ _ = false |- _ => apply Nat.eqb_neq in H
  | H : bool_decide _ = true |- _ => apply bool_decide_eq_true in H
  | H : bool_decide _ = false |- _ => apply bool_decide_eq_false in H
  end.

Ltac crush := repeat (case_if; simplify_eq/=); bool_to_prop; try lia; eauto.

Create HintDb go discriminated.
#[export] Hint Resolve Forall_take Forall_drop Forall_take_drop : go.

(** ** The order in which Go ranges over a map

    It is unspecified and may differ from one range to the next. *)
Record ranging := {
  range :> ∀ A, gmap string A → list (string * A);
  range_perm : ∀ A (m : gmap string A), range A m ≡ₚ map_to_list m;
}.

Definition map_order : ranging := {| range := λ A m, map_to_list m; range_perm := λ A m, Permutation_refl _ |}.

Lemma range_lookup (o : ranging) {A} (m : gmap string A) k x : (k, x) ∈ o A m ↔ m !! k = Some x.
Proof. by rewrite (range_perm o), elem_of_map_to_list. Qed.

Lemma range_NoDup (o : ranging) {A} (m : gmap string A) : NoDup (o A m).*1.
Proof. rewrite (range_perm o). apply NoDup_fst_map_to_list. Qed.
