(* ===== verification/GoBytes.v ===== *)
(** Bytes, slices and machine integers of Go.

    A byte slice is a [list Z] whose elements are in [0, 256) ([is_bytes]);
    machine integers are [Z] with the wrap-around written out ([wrapu], [wraps]).
    Reads outside a slice are [Panic], as in Go; the capacity of a slice is taken
    to be its length, which is what the [make] calls of the modelled code give. *)

From S2P Require Export Prelude.

#[local] Open Scope Z_scope.

(** ** Fixed-width integers *)

(** [wrapu w z] is the value of an unsigned [w]-bit conversion of [z]. *)
Definition wrapu (w z : Z) : Z := z mod 2 ^ w.

(** [wraps w z] is the value of a signed [w]-bit conversion of [z] (two's complement). *)
Definition wraps (w z : Z) : Z := (z + 2 ^ (w - 1)) mod 2 ^ w - 2 ^ (w - 1).

Definition in_u (w z : Z) : Prop := 0 ≤ z < 2 ^ w.
Definition in_s (w z : Z) : Prop := - 2 ^ (w - 1) ≤ z < 2 ^ (w - 1).

#[export] Instance in_u_dec w z : Decision (in_u w z).
Proof. unfold in_u. apply _. Defined.
#[export] Instance in_s_dec w z : Decision (in_s w z).
Proof. unfold in_s. apply _. Defined.

(** ** Bytes and slices *)

Definition is_byte (b : Z) : Prop := in_u 8 b.
Definition is_bytes (l : list Z) : Prop := Forall is_byte l.

#[export] Instance is_byte_dec b : Decision (is_byte b).
Proof. unfold is_byte. apply _. Defined.
#[export] Instance is_bytes_dec l : Decision (is_bytes l).
Proof. unfold is_bytes. apply _. Defined.

(** The index expression [b[i]]. *)
Definition index {A} (b : list A) (i : nat) : outcome A :=
  match b !! i with Some x => Ok x | None => Panic end.

(** The slice expression [b[i:j]]. *)
Definition slice {A} (b : list A) (i j : nat) : outcome (list A) :=
  if decide (i ≤ j ∧ j ≤ length b)%nat then Ok (take (j - i) (drop i b)) else Panic.

(** [make([]byte, n)]: a negative length panics. *)
Definition make_bytes (n : Z) : outcome (list Z) :=
  if 0 <=? n then Ok (replicate (Z.to_nat n) 0) else Panic.

(** [copy(dst, src)] from the start of [dst]. *)
Definition copy_into (dst src : list Z) : list Z :=
  take (length dst) src ++ drop (length src) dst.

(** Big-endian value of a byte list and the [n]-byte big-endian encoding. *)
Definition be_value (l : list Z) : Z := fold_left (λ acc b, acc * 256 + b) l 0.

Fixpoint be_bytes (n : nat) (v : Z) : list Z :=
  match n with
  | O => []
  | S n' => (v / 2 ^ (8 * Z.of_nat n')) mod 256 :: be_bytes n' v
  end.

(** [binary.BigEndian.Uint16/32/64 (b[off:])], with Go's bounds check. *)
Definition get_be (n : nat) (b : list Z) (off : nat) : outcome Z :=
  if decide (off + n ≤ length b)%nat then Ok (be_value (take n (drop off b))) else Panic.

Abbreviation get_u16 := (get_be 2).
Abbreviation get_u32 := (get_be 4).
Abbreviation get_u64 := (get_be 8).
Abbreviation put_u16 := (be_bytes 2).
Abbreviation put_u32 := (be_bytes 4).
Abbreviation put_u64 := (be_bytes 8).

(** ** Lemmas on machine integers *)

Lemma wrapu_small w z : in_u w z → wrapu w z = z.
Proof. apply Z.mod_small. Qed.

Lemma wrapu_range w z : 0 ≤ w → in_u w (wrapu w z).
Proof. intros. apply Z.mod_pos_bound. by apply Z.pow_pos_nonneg. Qed.

Lemma wraps_small w z : in_s w z → 0 < w → wraps w z = z.
Proof.
  unfold wraps, in_s. intros H Hw.
  assert (2 ^ w = 2 * 2 ^ (w - 1)) by (rewrite <- Z.pow_succ_r by lia; f_equal; lia).
  rewrite Z.mod_small; lia.
Qed.

Lemma wraps_range w z : 0 < w → in_s w (wraps w z).
Proof.
  unfold wraps, in_s. intros Hw.
  assert (2 ^ w = 2 * 2 ^ (w - 1)) by (rewrite <- Z.pow_succ_r by lia; f_equal; lia).
  assert (0 < 2 ^ (w - 1)) by (apply Z.pow_pos_nonneg; lia).
  pose proof (Z.mod_pos_bound (z + 2 ^ (w - 1)) (2 ^ w)). lia.
Qed.

(** Sign reinterpretation of the unsigned image of a signed integer. *)
Lemma wraps_wrapu w z : 0 < w → wraps w (wrapu w z) = wraps w z.
Proof.
  intros Hw. unfold wraps, wrapu. f_equal.
  rewrite Zplus_mod_idemp_l. done.
Qed.

Lemma wrapu_wraps w z : 0 < w → wrapu w (wraps w z) = wrapu w z.
Proof.
  intros Hw. unfold wraps, wrapu.
  rewrite Zminus_mod_idemp_l. f_equal. lia.
Qed.

(** ** Lemmas on bytes and slices *)

Lemma length_be_bytes n v : length (be_bytes n v) = n.
Proof. induction n; cbn; congruence. Qed.

Lemma is_byte_mod z : is_byte (z mod 256).
Proof. apply (Z.mod_pos_bound z 256). lia. Qed.

Lemma is_bytes_be_bytes n v : is_bytes (be_bytes n v).
Proof. induction n; cbn; constructor; [apply is_byte_mod|done]. Qed.

Lemma be_value_acc l a : fold_left (λ acc b, acc * 256 + b) l a =
  a * 2 ^ (8 * Z.of_nat (length l)) + be_value l.
Proof.
  unfold be_value. revert a. induction l as [|b l IH]; intros a; [cbn; lia|].
  cbn [fold_left length]. rewrite IH, (IH (0 * 256 + b)).
  replace (8 * Z.of_nat (S (length l))) with (8 * Z.of_nat (length l) + 8) by lia.
  rewrite Z.pow_add_r by lia. lia.
Qed.

Lemma be_value_cons b l :
  be_value (b :: l) = b * 2 ^ (8 * Z.of_nat (length l)) + be_value l.
Proof. unfold be_value at 1. cbn [fold_left]. rewrite be_value_acc. lia. Qed.

Lemma be_value_range l : is_bytes l → 0 ≤ be_value l < 2 ^ (8 * Z.of_nat (length l)).
Proof.
  induction 1 as [|b l Hb _ IH]; [by cbn|].
  rewrite be_value_cons. unfold is_byte, in_u in Hb.
  change (length (b :: l)) with (S (length l)).
  replace (8 * Z.of_nat (S (length l))) with (8 + 8 * Z.of_nat (length l)) by lia.
  rewrite Z.pow_add_r by lia. nia.
Qed.

Lemma be_value_bytes n v : be_value (be_bytes n v) = v mod 2 ^ (8 * Z.of_nat n).
Proof.
  induction n as [|n IH]; [by rewrite Z.mod_1_r|].
  cbn [be_bytes]. rewrite be_value_cons, IH, length_be_bytes.
  set (k := 2 ^ (8 * Z.of_nat n)).
  replace (8 * Z.of_nat (S n)) with (8 * Z.of_nat n + 8) by lia.
  rewrite Z.pow_add_r by lia. fold k. change (2 ^ 8) with 256.
  rewrite Z.rem_mul_r by (subst k; nia). lia.
Qed.

Lemma be_bytes_value l : is_bytes l → be_bytes (length l) (be_value l) = l.
Proof.
  induction 1 as [|b l Hb Hl IH]; [done|].
  cbn [length be_bytes]. rewrite be_value_cons.
  pose proof (be_value_range l Hl). unfold is_byte, in_u in Hb.
  set (k := 2 ^ (8 * Z.of_nat (length l))) in *.
  f_equal.
  - rewrite Z.div_add_l, Z.div_small, Z.add_0_r, Z.mod_small by lia. done.
  - assert (Hm : ∀ n v m, be_bytes n (m * 2 ^ (8 * Z.of_nat n) + v) = be_bytes n v).
    { clear. induction n as [|n IHn]; intros v m; [done|]. cbn [be_bytes].
      replace (8 * Z.of_nat (S n)) with (8 + 8 * Z.of_nat n) by lia.
      rewrite Z.pow_add_r by lia. f_equal.
      - rewrite Z.mul_assoc, Z.div_add_l by lia. change (2 ^ 8) with 256.
        by rewrite Z.add_comm, Z.mod_add by lia.
      - by rewrite Z.mul_assoc, IHn. }
    by rewrite Hm.
Qed.

Lemma be_bytes_inj n v w : in_u (8 * Z.of_nat n) v → in_u (8 * Z.of_nat n) w →
  be_bytes n v = be_bytes n w → v = w.
Proof.
  intros Hv Hw H. apply (f_equal be_value) in H.
  rewrite !be_value_bytes in H. unfold in_u in *.
  by rewrite !Z.mod_small in H by lia.
Qed.

(** The value read back by [get_be] where [be_bytes] was written. *)
Lemma get_be_app n l1 v l2 off : off = length l1 →
  get_be n (l1 ++ be_bytes n v ++ l2) off = Ok (v mod 2 ^ (8 * Z.of_nat n)).
Proof.
  intros ->. unfold get_be. rewrite !length_app, length_be_bytes.
  rewrite decide_True by lia. do 2 f_equal.
  rewrite <- be_value_bytes. f_equal.
  rewrite <- (length_be_bytes n v) at 1. apply drop_take_app.
Qed.

Lemma get_be_ok n b off : (off + n ≤ length b)%nat →
  get_be n b off = Ok (be_value (take n (drop off b))).
Proof. intros. unfold get_be. by rewrite decide_True. Qed.

Lemma get_be_range n b off v : is_bytes b → get_be n b off = Ok v →
  0 ≤ v < 2 ^ (8 * Z.of_nat n).
Proof.
  unfold get_be. intros Hb H. case_decide; simplify_eq.
  pose proof (be_value_range (take n (drop off b))
    (Forall_take _ _ _ (Forall_drop _ _ _ Hb))) as Hr.
  rewrite length_take, length_drop, Nat.min_l in Hr by lia. done.
Qed.

Lemma get_be_panic n b off : is_panic (get_be n b off) = false ↔ (off + n ≤ length b)%nat.
Proof. unfold get_be. case_decide; cbn; split; intros; try done; lia. Qed.

Lemma index_ok {A} (b : list A) i : (i < length b)%nat → ∃ x, index b i = Ok x ∧ b !! i = Some x.
Proof. intros H. unfold index. destruct (lookup_lt_is_Some_2 b i H) as [x ->]. eauto. Qed.

Lemma index_app_length {A} (l1 : list A) x l2 i : i = length l1 →
  index (l1 ++ x :: l2) i = Ok x.
Proof. intros ->. unfold index. by rewrite list_lookup_middle. Qed.

Lemma slice_ok {A} (b : list A) i j : (i ≤ j)%nat → (j ≤ length b)%nat →
  slice b i j = Ok (take (j - i) (drop i b)).
Proof. intros. unfold slice. by rewrite decide_True. Qed.

Lemma slice_app {A} (l1 l2 l3 : list A) i j : i = length l1 → j = (i + length l2)%nat →
  slice (l1 ++ l2 ++ l3) i j = Ok l2.
Proof.
  intros -> ->. rewrite slice_ok; [|lia|rewrite !length_app; lia].
  f_equal. replace (length l1 + length l2 - length l1)%nat with (length l2) by lia.
  apply drop_take_app.
Qed.

Lemma length_copy_into dst src : length (copy_into dst src) = length dst.
Proof. unfold copy_into. rewrite length_app, length_take, length_drop. lia. Qed.

Lemma copy_into_same dst src : length dst = length src → copy_into dst src = src.
Proof.
  intros H. unfold copy_into. rewrite H, firstn_all, drop_ge by lia. by rewrite app_nil_r.
Qed.

#[export] Hint Resolve is_byte_mod is_bytes_be_bytes wrapu_range wraps_range : go.
Create Rewrite HintDb go_len.
#[export] Hint Rewrite length_be_bytes length_copy_into @length_app @length_replicate
  @length_take @length_drop : go_len.
