(* ===== verification/GoText.v ===== *)
(** Go strings and the parts of [strings], [strconv] and [unicode/utf8] that the
    modelled code uses.

    A Go string is a [string] of bytes. The Unicode tables behind
    [unicode.ToUpper] and [strconv.IsPrint] beyond Latin-1 are the parameter
    [UnicodeTables]; everything computed from them (UTF-8 decoding, [ToUpper],
    [Quote]) is defined here. *)

From S2P Require Export Prelude GoBytes.
From stdpp Require Export pretty.
From Stdlib Require Export Ascii.

#[local] Open Scope Z_scope.

(** The Unicode tables: printability of the runes above U+00FF and the upper
    case of the runes above U+007F. *)
Class UnicodeTables := {
  rune_is_print : Z → bool;
  rune_to_upper : Z → Z;
}.

(** ** Bytes of strings *)

Definition byte_of (c : ascii) : Z := Z.of_N (N_of_ascii c).
Definition char_of (b : Z) : ascii := ascii_of_N (Z.to_N b).

Definition chars (s : string) : list ascii := String.list_ascii_of_string s.
Definition str (l : list ascii) : string := String.string_of_list_ascii l.
Definition string_bytes (s : string) : list Z := byte_of <$> chars s.
Definition bytes_string (l : list Z) : string := str (char_of <$> l).

(** [len(s)] *)
Definition str_len (s : string) : nat := String.length s.

(** ** UTF-8, as in unicode/utf8 *)

Definition rune_error : Z := 0xFFFD.

Definition in_range (lo hi b : Z) : bool := (lo <=? b) && (b <=? hi).
Definition is_cont (b : Z) : bool := in_range 0x80 0xBF b.

(** [utf8.DecodeRune] on a non-empty byte list: the rune and its width; an
    invalid encoding gives [rune_error] and width 1. *)
Definition decode_rune (l : list Z) : Z * nat :=
  match l with
  | [] => (rune_error, 0%nat)
  | b0 :: l1 =>
      if b0 <? 0x80 then (b0, 1%nat)
      else if in_range 0xC2 0xDF b0 then
        match l1 with
        | b1 :: _ => if is_cont b1 then ((b0 - 0xC0) * 64 + (b1 - 0x80), 2%nat)
                     else (rune_error, 1%nat)
        | _ => (rune_error, 1%nat)
        end
      else if in_range 0xE0 0xEF b0 then
        let lo := if b0 =? 0xE0 then 0xA0 else 0x80 in
        let hi := if b0 =? 0xED then 0x9F else 0xBF in
        match l1 with
        | b1 :: b2 :: _ =>
            if in_range lo hi b1 && is_cont b2
            then ((b0 - 0xE0) * 4096 + (b1 - 0x80) * 64 + (b2 - 0x80), 3%nat)
            else (rune_error, 1%nat)
        | _ => (rune_error, 1%nat)
        end
      else if in_range 0xF0 0xF4 b0 then
        let lo := if b0 =? 0xF0 then 0x90 else 0x80 in
        let hi := if b0 =? 0xF4 then 0x8F else 0xBF in
        match l1 with
        | b1 :: b2 :: b3 :: _ =>
            if in_range lo hi b1 && is_cont b2 && is_cont b3
            then ((b0 - 0xF0) * 262144 + (b1 - 0x80) * 4096 + (b2 - 0x80) * 64
                  + (b3 - 0x80), 4%nat)
            else (rune_error, 1%nat)
        | _ => (rune_error, 1%nat)
        end
      else (rune_error, 1%nat)
  end.

(** [utf8.AppendRune]. *)
Definition encode_rune (r : Z) : list Z :=
  let r := if (r <? 0) || (0x10FFFF <? r) || in_range 0xD800 0xDFFF r
           then rune_error else r in
  if r <? 0x80 then [r]
  else if r <? 0x800 then [0xC0 + r / 64; 0x80 + r mod 64]
  else if r <? 0x10000 then [0xE0 + r / 4096; 0x80 + (r / 64) mod 64; 0x80 + r mod 64]
  else [0xF0 + r / 262144; 0x80 + (r / 4096) mod 64; 0x80 + (r / 64) mod 64;
        0x80 + r mod 64].

(** The runes of a string with the bytes they were decoded from ([for range s]). *)
Fixpoint runes_go (fuel : nat) (l : list Z) : list (Z * list Z) :=
  match fuel, l with
  | S n, _ :: _ =>
      let '(r, w) := decode_rune l in
      (r, take w l) :: runes_go n (drop w l)
  | _, _ => []
  end.
Definition runes (s : string) : list (Z * list Z) :=
  runes_go (str_len s) (string_bytes s).

(** ** strings.ToUpper, TrimSpace, HasSuffix, TrimSuffix, SplitN, Split, Join *)

Definition is_ascii (s : string) : bool := forallb (λ b, b <? 0x80) (string_bytes s).

Definition upper_byte (b : Z) : Z := if in_range 97 122 b then b - 32 else b.

Section Upper.
Context `{UnicodeTables}.

Definition upper_rune (r : Z) : Z :=
  if r <? 0x80 then upper_byte r else rune_to_upper r.

Definition to_upper (s : string) : string :=
  if is_ascii s then bytes_string (upper_byte <$> string_bytes s)
  else bytes_string (concat ((λ '(r, _), encode_rune (upper_rune r)) <$> runes s)).

End Upper.

(** [unicode.IsSpace]. *)
Definition rune_is_space (r : Z) : bool :=
  in_range 9 13 r || (r =? 0x20) || (r =? 0x85) || (r =? 0xA0) || (r =? 0x1680)
  || in_range 0x2000 0x200A r || (r =? 0x2028) || (r =? 0x2029) || (r =? 0x202F)
  || (r =? 0x205F) || (r =? 0x3000).

Fixpoint drop_space (l : list (Z * list Z)) : list (Z * list Z) :=
  match l with
  | (r, b) :: l' => if rune_is_space r then drop_space l' else l
  | [] => []
  end.

Definition trim_space (s : string) : string :=
  bytes_string (concat (snd <$> rev (drop_space (rev (drop_space (runes s)))))).

Definition has_suffix (s suf : string) : bool :=
  (str_len suf <=? str_len s)%nat &&
  (String.substring (str_len s - str_len suf) (str_len suf) s =? suf)%string.

Definition trim_suffix (s suf : string) : string :=
  if has_suffix s suf then String.substring 0 (str_len s - str_len suf) s else s.

(** [strings.Split(s, ".")] for a one-byte separator, and [strings.SplitN(s, sep, 2)]. *)
Fixpoint split_chars (sep : ascii) (l : list ascii) : list (list ascii) :=
  match l with
  | [] => [[]]
  | c :: l' =>
      if Ascii.eqb c sep then [] :: split_chars sep l'
      else match split_chars sep l' with
           | t :: ts => (c :: t) :: ts
           | [] => [[c]]
           end
  end.
Definition split (sep : ascii) (s : string) : list string :=
  str <$> split_chars sep (chars s).

Fixpoint cut_chars (sep : ascii) (l : list ascii) : option (list ascii * list ascii) :=
  match l with
  | [] => None
  | c :: l' =>
      if Ascii.eqb c sep then Some ([], l')
      else '(a, b) ← cut_chars sep l'; Some (c :: a, b)
  end.
Definition split_n2 (sep : ascii) (s : string) : list string :=
  match cut_chars sep (chars s) with
  | Some (a, b) => [str a; str b]
  | None => [s]
  end.

(** [strings.SplitN(s, sep, n)] for n > 0: at most n parts, the last one unsplit. *)
Fixpoint split_chars_n (sep : ascii) (n : nat) (l : list ascii) : list (list ascii) :=
  match n with
  | O => []
  | S n' =>
      match n', cut_chars sep l with
      | S _, Some (a, b) => a :: split_chars_n sep n' b
      | _, _ => [l]
      end
  end.
Definition split_n (sep : ascii) (n : nat) (s : string) : list string := str <$> split_chars_n sep n (chars s).

(** [strings.Cut] at the first occurrence, which is also what [strings.Index] is used for. *)
Definition cut (sep : ascii) (s : string) : option (string * string) :=
  '(a, b) ← cut_chars sep (chars s); Some (str a, str b).

Definition str_join (sep : string) (l : list string) : string := String.concat sep l.

Lemma cut_chars_spec sep l : match cut_chars sep l with
  | Some (a, b) => split_chars sep l = a :: split_chars sep b
  | None => split_chars sep l = [l]
  end.
Proof.
  induction l as [|c l IH]; [done|]. cbn [cut_chars split_chars]. destruct (Ascii.eqb c sep); [done|].
  destruct (cut_chars sep l) as [[a b]|]; cbn [mbind option_bind]; by rewrite IH.
Qed.

(** A string with few enough parts is split as by [split]. *)
Lemma split_n_split sep n s : (length (split sep s) ≤ n)%nat → (0 < n)%nat → split_n sep n s = split sep s.
Proof.
  unfold split_n, split. rewrite length_fmap. intros Hl Hn. f_equal. revert Hl Hn. generalize (chars s) as l. clear s.
  induction n as [|n IH]; intros l Hl Hn; [lia|]. cbn [split_chars_n]. pose proof (cut_chars_spec sep l) as Hc.
  destruct n as [|n].
  - destruct (cut_chars sep l) as [[a b]|]; [|by rewrite Hc]. rewrite Hc in Hl. cbn in Hl.
    destruct (split_chars sep b) as [|t ts] eqn:E; [|cbn in Hl; lia]. exfalso.
    destruct b as [|x b]; [done|]. cbn in E. destruct (Ascii.eqb x sep); [done|]. by destruct (split_chars sep b).
  - destruct (cut_chars sep l) as [[a b]|]; [|by rewrite Hc]. rewrite Hc in *. f_equal. apply IH; [cbn in Hl; lia|lia].
Qed.

(** ** strconv.Atoi and Itoa *)

(** [strconv.Itoa] and the verb [%d]. *)
Definition itoa (z : Z) : string := pretty z.

Inductive num_error : Set := NumOK | NumSyntax | NumRange.

Definition is_digit_byte (b : Z) : bool := in_range 48 57 b.

(** The digit loop of [strconv.ParseUint(s, 10, 64)]: an overflow is reported at
    the digit where it happens, before later bytes are looked at. *)
Fixpoint parse_uint_go (l : list Z) (n : Z) : Z * num_error :=
  match l with
  | [] => (n, NumOK)
  | b :: l' =>
      if is_digit_byte b then
        let n1 := n * 10 + (b - 48) in
        if 2 ^ 64 - 1 <? n1 then (2 ^ 64 - 1, NumRange) else parse_uint_go l' n1
      else (0, NumSyntax)
  end.
Definition parse_uint (l : list Z) : Z * num_error :=
  match l with [] => (0, NumSyntax) | _ => parse_uint_go l 0 end.

(** [strconv.Atoi]: the returned value and the error; the value is what the code
    uses when it ignores the error. *)
Definition atoi (s : string) : Z * num_error :=
  let l := string_bytes s in
  let '(neg, digits) :=
    match l with
    | b :: l' => if b =? 43 then (false, l') else if b =? 45 then (true, l') else (false, l)
    | [] => (false, [])
    end in
  match parse_uint digits with
  | (_, NumSyntax) => (0, NumSyntax)
  | (un, e) =>
      if neg
      then if 2 ^ 63 <? un then (- 2 ^ 63, NumRange) else (- un, e)
      else if 2 ^ 63 <=? un then (2 ^ 63 - 1, NumRange) else (un, e)
  end.

(** ** strconv.Quote and the verb [%q] *)

Definition hex_digit (z : Z) : ascii :=
  char_of (if z <? 10 then 48 + z else 87 + z).

Fixpoint hex (n : nat) (z : Z) : list ascii :=
  match n with
  | O => []
  | S n' => hex_digit ((z / 16 ^ Z.of_nat n') mod 16) :: hex n' z
  end.

Definition dquote : ascii := "034"%char.
Definition backslash : ascii := "092"%char.

Section Quote.
Context `{UnicodeTables}.

(** [strconv.IsPrint]. *)
Definition is_print (r : Z) : bool :=
  if r <=? 0xFF then
    in_range 0x20 0x7E r || (in_range 0xA1 0xFF r && negb (r =? 0xAD))
  else rune_is_print r.

Definition escape_rune (r : Z) : list ascii :=
  if (r =? 34) || (r =? 92) then [backslash; char_of r]
  else if is_print r then char_of <$> encode_rune r
  else if r =? 7 then [backslash; "a"%char]
  else if r =? 8 then [backslash; "b"%char]
  else if r =? 12 then [backslash; "f"%char]
  else if r =? 10 then [backslash; "n"%char]
  else if r =? 13 then [backslash; "r"%char]
  else if r =? 9 then [backslash; "t"%char]
  else if r =? 11 then [backslash; "v"%char]
  else if (r <? 32) || (r =? 0x7F) then backslash :: "x"%char :: hex 2 r
  else if r <? 0x10000 then backslash :: "u"%char :: hex 4 r
  else backslash :: "U"%char :: hex 8 r.

Definition escape (rb : Z * list Z) : list ascii :=
  match rb with
  | (r, [b]) => if (0x80 <=? b) && (r =? rune_error)
                then backslash :: "x"%char :: hex 2 b
                else escape_rune r
  | (r, _) => escape_rune r
  end.

Definition quote (s : string) : string :=
  str (dquote :: concat (escape <$> runes s) ++ [dquote]).

End Quote.

(** Tables for runs over ASCII text: no rune above U+00FF is printable and no
    rune above U+007F has an upper case. *)
Definition ascii_tables : UnicodeTables :=
  {| rune_is_print := λ _, false; rune_to_upper := λ r, r |}.

(** ** Lemmas *)

Lemma str_chars s : str (chars s) = s.
Proof. apply String.string_of_list_ascii_of_string. Qed.
Lemma chars_str l : chars (str l) = l.
Proof. apply String.list_ascii_of_string_of_list_ascii. Qed.
Lemma str_inj l1 l2 : str l1 = str l2 → l1 = l2.
Proof. intros H%(f_equal chars). by rewrite !chars_str in H. Qed.
Lemma length_chars s : length (chars s) = str_len s.
Proof. unfold chars, str_len. induction s; cbn; congruence. Qed.

Lemma chars_app s1 s2 : chars (s1 +:+ s2) = chars s1 ++ chars s2.
Proof. induction s1 as [|c s1 IH]; [done|]. by apply (f_equal (cons c)). Qed.

Lemma byte_of_range c : is_byte (byte_of c).
Proof.
  unfold is_byte, in_u, byte_of. pose proof (N_ascii_bounded c). lia.
Qed.
Lemma is_bytes_string s : is_bytes (string_bytes s).
Proof. apply Forall_fmap, Forall_true. intros. apply byte_of_range. Qed.

Lemma char_of_byte_of c : char_of (byte_of c) = c.
Proof. unfold char_of, byte_of. rewrite N2Z.id. apply ascii_N_embedding. Qed.
Lemma byte_of_char_of b : is_byte b → byte_of (char_of b) = b.
Proof.
  unfold is_byte, in_u, char_of, byte_of. intros ?.
  rewrite N_ascii_embedding by lia. lia.
Qed.

Lemma bytes_string_bytes s : bytes_string (string_bytes s) = s.
Proof.
  unfold bytes_string, string_bytes. rewrite <- list_fmap_compose.
  rewrite (list_fmap_ext _ id) by (intros; apply char_of_byte_of).
  by rewrite list_fmap_id, str_chars.
Qed.

Lemma string_bytes_string l : is_bytes l → string_bytes (bytes_string l) = l.
Proof.
  intros Hl. unfold bytes_string, string_bytes. rewrite chars_str.
  induction Hl as [|b l Hb _ IH]; cbn; [done|]. by rewrite byte_of_char_of, IH.
Qed.

Lemma length_string_bytes s : length (string_bytes s) = str_len s.
Proof. unfold string_bytes. by rewrite length_fmap, length_chars. Qed.

Lemma str_app l1 l2 : str (l1 ++ l2) = str l1 +:+ str l2.
Proof. induction l1 as [|c l1 IH]; [done|]. by apply (f_equal (String c)). Qed.

Lemma string_app_assoc (a b c : string) : a +:+ b +:+ c = (a +:+ b) +:+ c.
Proof. induction a as [|x a IH]; [done|]. by apply (f_equal (String x)). Qed.

Lemma string_app_nil_r (a : string) : a +:+ "" = a.
Proof. induction a as [|x a IH]; [done|]. by apply (f_equal (String x)). Qed.

Lemma split_chars_not_nil sep l : split_chars sep l ≠ [].
Proof. destruct l as [|c l]; cbn; [done|]. destruct (Ascii.eqb c sep); [done|]. by case_match. Qed.

(** *** Decimal numbers *)

Definition dstep (a b : Z) : Z := a * 10 + (b - 48).
Definition is_digit (c : ascii) : Prop := is_digit_byte (byte_of c) = true.

(** [digits_of ds n]: the digits [ds] are the decimal writing of [n]. *)
Definition digits_of (ds : list ascii) (n : Z) : Prop :=
  Forall is_digit ds ∧ fold_left dstep (map byte_of ds) 0 = n ∧ ds ≠ [].

Lemma pretty_N_char_digit x : (x < 10)%N →
  is_digit (pretty_N_char x) ∧ byte_of (pretty_N_char x) = 48 + Z.of_N x.
Proof.
  intros Hx. assert (x = 0 ∨ x = 1 ∨ x = 2 ∨ x = 3 ∨ x = 4 ∨ x = 5 ∨ x = 6 ∨ x = 7 ∨ x = 8 ∨ x = 9)%N
    as Hc by lia. naive_solver.
Qed.

Lemma pretty_N_go_digits x s : ∃ ds, chars (pretty_N_go x s) = ds ++ chars s
  ∧ Forall is_digit ds ∧ fold_left dstep (map byte_of ds) 0 = Z.of_N x ∧ ((0 < x)%N → ds ≠ []).
Proof.
  revert s. induction (N.lt_wf_0 x) as [x _ IH]; intros s.
  destruct (decide (x = 0)%N) as [->|Hx].
  { exists []. rewrite pretty_N_go_0. split_and!; [done|constructor|done|lia]. }
  rewrite pretty_N_go_step by lia.
  destruct (IH (x `div` 10)%N ltac:(apply N.div_lt; lia) (String (pretty_N_char (x `mod` 10)) s))
    as (ds & -> & Hd & Hv & _).
  destruct (pretty_N_char_digit (x `mod` 10)) as [Hc Hb]; [by apply N.mod_lt|].
  exists (ds ++ [pretty_N_char (x `mod` 10)]). split_and!.
  - by rewrite <- app_assoc.
  - apply Forall_app. split; [done|]. by constructor.
  - rewrite map_app, fold_left_app, Hv. cbn. unfold dstep. rewrite Hb.
    rewrite (N.div_mod x 10) at 3 by lia. lia.
  - intros _. by destruct ds.
Qed.

Lemma pretty_pos_digits p : digits_of (chars (pretty p)) (Z.pos p).
Proof.
  destruct (pretty_N_go_digits (N.pos p) "") as (ds & Hc & Hd & Hv & Hne).
  change (chars (pretty p)) with (chars (pretty_N_go (N.pos p) "")). rewrite Hc. cbn. rewrite app_nil_r.
  split_and!; [done|done|apply Hne; lia].
Qed.

Lemma itoa_digits n : 0 ≤ n → digits_of (chars (itoa n)) n.
Proof.
  destruct n as [|p|p]; intros Hn; [|apply pretty_pos_digits|lia].
  split_and!; [repeat constructor|done|done].
Qed.

Lemma fold_dstep_mono l a : Forall (λ b, is_digit_byte b = true) l → 0 ≤ a →
  a ≤ fold_left dstep l a.
Proof.
  intros Hl. revert a. induction Hl as [|b l Hb _ IH]; intros a Ha; cbn; [lia|].
  unfold is_digit_byte, in_range in Hb. bool_to_prop.
  etransitivity; [|apply IH]; unfold dstep; lia.
Qed.

Lemma parse_uint_go_digits l a : Forall (λ b, is_digit_byte b = true) l → 0 ≤ a →
  fold_left dstep l a < 2 ^ 64 → parse_uint_go l a = (fold_left dstep l a, NumOK).
Proof.
  intros Hl. revert a. induction Hl as [|b l Hb Hl IH]; intros a Ha Hlt; [done|].
  cbn [parse_uint_go fold_left] in *. rewrite Hb.
  pose proof Hb as Hb'. unfold is_digit_byte, in_range in Hb'. bool_to_prop.
  assert (0 ≤ dstep a b) by (unfold dstep; lia).
  pose proof (fold_dstep_mono l (dstep a b) Hl ltac:(lia)).
  change (a * 10 + (b - 48)) with (dstep a b).
  rewrite (proj2 (Z.ltb_ge _ _)) by lia. by apply IH.
Qed.

Lemma digit_not_sign b : is_digit_byte b = true → (b =? 43) = false ∧ (b =? 45) = false.
Proof. unfold is_digit_byte, in_range. intros H. bool_to_prop. split; apply Z.eqb_neq; lia. Qed.

Lemma parse_uint_digits ds n : digits_of ds n → n < 2 ^ 64 →
  parse_uint (map byte_of ds) = (n, NumOK).
Proof.
  intros (Hd & <- & Hne) Hn. unfold parse_uint.
  destruct ds as [|c ds]; [done|]. cbn [map].
  apply (parse_uint_go_digits (byte_of c :: map byte_of ds)); [|lia|done].
  change (byte_of c :: map byte_of ds) with (byte_of <$> c :: ds). by apply Forall_fmap.
Qed.

Lemma atoi_digits s n : digits_of (chars s) n → n < 2 ^ 63 → atoi s = (n, NumOK).
Proof.
  intros Hd Hn. pose proof (parse_uint_digits _ _ Hd ltac:(lia)) as Hp.
  unfold atoi. change (string_bytes s) with (map byte_of (chars s)).
  destruct Hd as (Hd & Hv & Hne). destruct (chars s) as [|c ds]; [done|].
  apply Forall_cons in Hd as [Hc Hd]. destruct (digit_not_sign _ Hc) as [H1 H2].
  cbn [map] in *. rewrite H1, H2, Hp. by rewrite (proj2 (Z.leb_gt _ _)).
Qed.

(** [strconv.Atoi] is the inverse of [strconv.Itoa]. *)
Lemma atoi_itoa n : in_s 64 n → atoi (itoa n) = (n, NumOK).
Proof.
  unfold in_s. intros Hn. destruct n as [|p|p]; [done| |].
  - apply atoi_digits; [apply itoa_digits; lia|lia].
  - pose proof (parse_uint_digits _ _ (pretty_pos_digits p) ltac:(lia)) as Hp.
    unfold atoi. change (string_bytes (itoa (Z.neg p))) with (45 :: map byte_of (chars (pretty p))).
    cbn [Z.eqb Pos.eqb]. rewrite Hp. rewrite (proj2 (Z.ltb_ge _ _)) by lia. done.
Qed.

(** A byte that is no digit after a number is a syntax error. *)
Lemma parse_uint_go_syntax l b l' a : Forall (λ b, is_digit_byte b = true) l → 0 ≤ a →
  fold_left dstep l a < 2 ^ 64 → is_digit_byte b = false →
  parse_uint_go (l ++ b :: l') a = (0, NumSyntax).
Proof.
  intros Hl. revert a. induction Hl as [|x l Hx Hl IH]; intros a Ha Hlt Hb; cbn [app parse_uint_go].
  - by rewrite Hb.
  - cbn [fold_left] in Hlt. rewrite Hx.
    pose proof Hx as Hx'. unfold is_digit_byte, in_range in Hx'. bool_to_prop.
    assert (0 ≤ dstep a x) by (unfold dstep; lia).
    pose proof (fold_dstep_mono l (dstep a x) Hl ltac:(lia)).
    change (a * 10 + (x - 48)) with (dstep a x).
    rewrite (proj2 (Z.ltb_ge _ _)) by lia. by apply IH.
Qed.

Lemma atoi_syntax s ds n c l : digits_of ds n → n < 2 ^ 63 → ¬ is_digit c →
  chars s = ds ++ c :: l → atoi s = (0, NumSyntax).
Proof.
  intros (Hd & Hv & Hne) Hn Hc Hs. unfold atoi. change (string_bytes s) with (map byte_of (chars s)).
  rewrite Hs, map_app. cbn [map].
  destruct ds as [|d ds]; [done|]. apply Forall_cons in Hd as [Hd1 Hd].
  destruct (digit_not_sign _ Hd1) as [H1 H2]. cbn [map app]. rewrite H1, H2.
  unfold parse_uint. change (byte_of d :: map byte_of ds ++ byte_of c :: map byte_of l)
    with ((byte_of <$> d :: ds) ++ byte_of c :: map byte_of l).
  rewrite parse_uint_go_syntax; [done| |lia| |].
  - apply Forall_fmap. by constructor.
  - change (byte_of <$> d :: ds) with (map byte_of (d :: ds)). lia.
  - unfold is_digit in Hc. by destruct (is_digit_byte (byte_of c)).
Qed.

(** *** Suffixes and blanks *)

Lemma substring_app_l a b : String.substring 0 (str_len a) (a +:+ b) = a.
Proof. induction a as [|x a IH]; [by destruct b|]. by apply (f_equal (String x)). Qed.

Lemma substring_all b : String.substring 0 (str_len b) b = b.
Proof. induction b as [|x b IH]; [done|]. by apply (f_equal (String x)). Qed.

Lemma substring_app_r a b : String.substring (str_len a) (str_len b) (a +:+ b) = b.
Proof. induction a as [|x a IH]; [apply substring_all|exact IH]. Qed.

Lemma str_len_app a b : str_len (a +:+ b) = (str_len a + str_len b)%nat.
Proof. induction a as [|x a IH]; [done|]. by apply (f_equal S). Qed.

Lemma has_suffix_app a b : has_suffix (a +:+ b) b = true.
Proof.
  unfold has_suffix. rewrite str_len_app.
  replace (str_len a + str_len b - str_len b)%nat with (str_len a) by lia.
  rewrite substring_app_r, String.eqb_refl, andb_true_r. apply Nat.leb_le. lia.
Qed.

Lemma trim_suffix_app a b : trim_suffix (a +:+ b) b = a.
Proof.
  unfold trim_suffix. rewrite has_suffix_app, str_len_app.
  replace (str_len a + str_len b - str_len b)%nat with (str_len a) by lia.
  apply substring_app_l.
Qed.

Lemma substring_split s n m : (n + m = str_len s)%nat →
  s = String.substring 0 n s +:+ String.substring n m s.
Proof.
  revert n m. induction s as [|c s IH]; intros n m Hl.
  - by destruct n, m.
  - change (str_len (String c s)) with (S (str_len s)) in Hl. destruct n as [|n].
    + cbn [Nat.add] in Hl. subst m. apply (f_equal (String c)). symmetry. apply substring_all.
    + apply (f_equal (String c)). apply IH. lia.
Qed.

Lemma has_suffix_spec s b : has_suffix s b = true → ∃ a, s = a +:+ b.
Proof.
  unfold has_suffix. intros [Hl Hb]%andb_prop. apply Nat.leb_le in Hl. apply String.eqb_eq in Hb.
  exists (String.substring 0 (str_len s - str_len b) s).
  pose proof (substring_split s (str_len s - str_len b) (str_len b) ltac:(lia)) as E.
  by rewrite Hb in E.
Qed.

(** Printable ASCII bytes are runes of their own. *)
Definition plain (c : ascii) : Prop := 33 ≤ byte_of c ≤ 126.

Lemma runes_plain s : Forall plain (chars s) → runes s = map (λ c, (byte_of c, [byte_of c])) (chars s).
Proof.
  unfold runes. change (string_bytes s) with (map byte_of (chars s)). rewrite <- length_chars.
  induction 1 as [|c l Hc _ IH]; [done|]. cbn [length map runes_go].
  unfold plain in Hc. unfold decode_rune. rewrite (proj2 (Z.ltb_lt _ _)) by lia.
  simpl. by rewrite drop_0, IH.
Qed.

Lemma drop_space_plain l : Forall plain l →
  drop_space (map (λ c, (byte_of c, [byte_of c])) l) = map (λ c, (byte_of c, [byte_of c])) l.
Proof.
  destruct 1 as [|c l Hc _]; [done|]. cbn [map drop_space].
  assert (rune_is_space (byte_of c) = false) as ->; [|done].
  unfold plain in Hc. unfold rune_is_space, in_range.
  repeat (apply orb_false_intro); try (apply Z.eqb_neq; lia);
    apply andb_false_iff; rewrite !Z.leb_gt; lia.
Qed.

Lemma trim_space_plain s : Forall plain (chars s) → trim_space s = s.
Proof.
  intros Hs. unfold trim_space. rewrite runes_plain, drop_space_plain by done.
  rewrite <- map_rev, drop_space_plain by by apply Forall_rev.
  rewrite <- map_rev, rev_involutive. transitivity (bytes_string (string_bytes s)); [|apply bytes_string_bytes].
  unfold bytes_string. do 2 f_equal. change (string_bytes s) with (map byte_of (chars s)).
  induction (chars s) as [|c l IH]; [done|]. cbn. f_equal. apply IH. by inversion Hs.
Qed.

Lemma digit_plain c : is_digit c → plain c.
Proof. unfold is_digit, is_digit_byte, in_range, plain. intros H. bool_to_prop. lia. Qed.

Example quote_ex : let _ := ascii_tables in
  chars (quote "a b") = [dquote; "a"%char; " "%char; "b"%char; dquote].
Proof. vm_compute. reflexivity. Qed.
Example atoi_ex : (atoi "-12", atoi "4x", atoi "9223372036854775808", atoi "")
  = ((-12, NumOK), (0, NumSyntax), (2 ^ 63 - 1, NumRange), (0, NumSyntax)).
Proof. reflexivity. Qed.
Example trim_ex : trim_space "  5s " = "5s".
Proof. reflexivity. Qed.
Example upper_ex : let _ := ascii_tables in to_upper "end_If" = "END_IF".
Proof. reflexivity. Qed.
