(* ===== verification/GoFloat.v ===== *)
(** IEEE-754 [float64] and [float32] of Go.

    A Go float is represented by its bit pattern, so [math.Float64bits] and
    [math.Float64frombits] are the identity and NaN payloads survive storage.
    Arithmetic goes through the Standard Library's [spec_float]. *)

From S2P Require Export Prelude GoBytes.
From Stdlib Require Export SpecFloat.

#[local] Open Scope Z_scope.

(** Bit patterns: [float64] in [0, 2^64), [float32] in [0, 2^32). *)
Definition float64 := Z.
Definition float32 := Z.

(** ** Decoding and encoding of a binary format

    [mw] is the number of stored mantissa bits and [ew] of exponent bits; the
    precision is [mw + 1] and the largest exponent [2 ^ (ew - 1)]. *)
Definition sf_of_bits (mw ew : Z) (b : Z) : spec_float :=
  let m := b mod 2 ^ mw in
  let e := (b / 2 ^ mw) mod 2 ^ ew in
  let s := Z.odd (b / 2 ^ (mw + ew)) in
  let emin := 3 - 2 ^ (ew - 1) - (mw + 1) in
  if e =? 2 ^ ew - 1 then
    if m =? 0 then S754_infinity s else S754_nan
  else if e =? 0 then
    match m with Zpos p => S754_finite s p emin | _ => S754_zero s end
  else
    match m + 2 ^ mw with
    | Zpos p => S754_finite s p (e - 1 + emin)
    | _ => S754_nan
    end.

(** The canonical quiet NaN has the top mantissa bit set. *)
Definition bits_of_sf (mw ew : Z) (x : spec_float) : Z :=
  let emin := 3 - 2 ^ (ew - 1) - (mw + 1) in
  let sgn (s : bool) := (if s then 1 else 0) * 2 ^ (mw + ew) in
  match x with
  | S754_zero s => sgn s
  | S754_infinity s => sgn s + (2 ^ ew - 1) * 2 ^ mw
  | S754_nan => (2 ^ ew - 1) * 2 ^ mw + 2 ^ (mw - 1)
  | S754_finite s m e =>
      if Zpos m <? 2 ^ mw then sgn s + Zpos m
      else sgn s + (e - emin + 1) * 2 ^ mw + (Zpos m - 2 ^ mw)
  end.

Definition sf64 (f : float64) : spec_float := sf_of_bits 52 11 f.
Definition f64 (x : spec_float) : float64 := bits_of_sf 52 11 x.
Definition sf32 (f : float32) : spec_float := sf_of_bits 23 8 f.
Definition f32 (x : spec_float) : float32 := bits_of_sf 23 8 x.

(** ** Operations on float64 used by the code *)

Definition f64_zero : float64 := 0.
Definition f64_is_nan (f : float64) : bool :=
  match sf64 f with S754_nan => true | _ => false end.
Definition f64_sub (a b : float64) : float64 := f64 (SFsub 53 1024 (sf64 a) (sf64 b)).
Definition f64_mul (a b : float64) : float64 := f64 (SFmul 53 1024 (sf64 a) (sf64 b)).
Definition f64_div (a b : float64) : float64 := f64 (SFdiv 53 1024 (sf64 a) (sf64 b)).
Definition f64_abs (a : float64) : float64 := a mod 2 ^ 63.
Definition f64_eqb (a b : float64) : bool := SFeqb (sf64 a) (sf64 b).
Definition f64_ltb (a b : float64) : bool := SFltb (sf64 a) (sf64 b).
(** [a > b] *)
Definition f64_gtb (a b : float64) : bool := f64_ltb b a.
Definition f32_eqb (a b : float32) : bool := SFeqb (sf32 a) (sf32 b).

(** ** Conversions *)

(** [float64(n)] for an integer [n]: rounded to nearest even. *)
Definition f64_of_Z (n : Z) : float64 := f64 (binary_normalize 53 1024 n 0 false).

(** [float64(x)] for a float32: exact; a NaN keeps its sign and payload and
    becomes quiet. *)
Definition f64_of_f32 (b : float32) : float64 :=
  match sf32 b with
  | S754_nan =>
      Z.lor ((if Z.odd (b / 2 ^ 31) then 1 else 0) * 2 ^ 63 + 2047 * 2 ^ 52
             + (b mod 2 ^ 23) * 2 ^ 29) (2 ^ 51)
  | S754_finite s m e => f64 (binary_normalize 53 1024 (cond_Zopp s (Zpos m)) e s)
  | x => f64 x
  end.

(** [float32(x)] for a float64: rounded to nearest even; a NaN keeps its sign and
    the top of its payload and becomes quiet. *)
Definition f32_of_f64 (b : float64) : float32 :=
  wrapu 32
    match sf64 b with
    | S754_nan =>
        Z.lor ((if Z.odd (b / 2 ^ 63) then 1 else 0) * 2 ^ 31 + 255 * 2 ^ 23
               + (b mod 2 ^ 52) / 2 ^ 29) (2 ^ 22)
    | S754_finite s m e => f32 (binary_normalize 24 128 (cond_Zopp s (Zpos m)) e s)
    | x => f32 x
    end.

(** The integer part of a finite float, truncated toward zero. *)
Definition sf_trunc (x : spec_float) : option Z :=
  match x with
  | S754_zero _ => Some 0
  | S754_finite s m e =>
      let a := if 0 <=? e then Zpos m * 2 ^ e else Zpos m / 2 ^ (- e) in
      Some (if s then - a else a)
  | _ => None
  end.

(** A float-to-integer conversion whose truncated value does not fit the target
    type is implementation-dependent in Go; [conv_overflow w signed f] is what
    the platform returns. *)
Class FloatConv := {
  conv_overflow : Z → bool → float64 → Z;
  conv_overflow_range : ∀ (w : Z) (s : bool) (f : float64), 0 < w → if s then in_s w (conv_overflow w s f)
                                 else in_u w (conv_overflow w s f);
}.

Section Conv.
Context `{FloatConv}.

(** [intN(f)] and [uintN(f)]. *)
Definition to_int (w : Z) (f : float64) : Z :=
  match sf_trunc (sf64 f) with
  | Some z => if decide (in_s w z) then z else conv_overflow w true f
  | None => conv_overflow w true f
  end.

Definition to_uint (w : Z) (f : float64) : Z :=
  match sf_trunc (sf64 f) with
  | Some z => if decide (in_u w z) then z else conv_overflow w false f
  | None => conv_overflow w false f
  end.

End Conv.

(** A platform whose out-of-range conversions give zero. *)
Lemma conv_zero_range w (s : bool) (f : float64) : 0 < w → if s then in_s w 0 else in_u w 0.
Proof.
  intros Hw. assert (0 < 2 ^ (w - 1)) by (apply Z.pow_pos_nonneg; lia).
  assert (0 < 2 ^ w) by (apply Z.pow_pos_nonneg; lia).
  destruct s; unfold in_s, in_u; lia.
Qed.
Definition conv_zero : FloatConv :=
  {| conv_overflow := λ _ _ _, 0; conv_overflow_range := conv_zero_range |}.

(** ** Lemmas *)

Lemma digits2_pos_spec m :
  2 ^ (Zpos (digits2_pos m) - 1) ≤ Zpos m < 2 ^ Zpos (digits2_pos m).
Proof.
  induction m as [m IH|m IH|]; cbn [digits2_pos]; [..|cbn; lia];
    rewrite Pos2Z.inj_succ; unfold Z.succ;
    replace (Zpos (digits2_pos m) + 1 - 1) with (Zpos (digits2_pos m) - 1 + 1) by lia;
    rewrite !Z.pow_add_r by lia; change (2 ^ 1) with 2; lia.
Qed.

Lemma digits2_pos_iter m k : digits2_pos (Pos.iter xO m k) = (digits2_pos m + k)%positive.
Proof.
  induction k as [|k IH] using Pos.peano_ind; [cbn; lia|].
  rewrite Pos.iter_succ. cbn [digits2_pos]. rewrite IH. lia.
Qed.

Lemma Zpos_iter_xO m k : Zpos (Pos.iter xO m k) = Zpos m * 2 ^ Zpos k.
Proof.
  induction k as [|k IH] using Pos.peano_ind; [cbn; lia|].
  rewrite Pos.iter_succ, Pos2Z.inj_xO, IH, Pos2Z.inj_succ, Z.pow_succ_r by lia. lia.
Qed.

(** A finite binary64 value survives encoding and decoding. *)
Lemma sf64_f64_finite s m e :
  bounded 53 1024 m e = true → sf64 (f64 (S754_finite s m e)) = S754_finite s m e.
Proof.
  unfold bounded, canonical_mantissa, fexp, SpecFloat.emin. intros H.
  apply andb_prop in H as [H1 H2]. apply Z.eqb_eq in H1. apply Z.leb_le in H2.
  pose proof (digits2_pos_spec m) as Hm.
  set (d := Zpos (digits2_pos m)) in *.
  unfold sf64, f64, sf_of_bits, bits_of_sf.
  change (3 - 2 ^ (11 - 1) - (52 + 1)) with (-1074).
  change (2 ^ 52) with 4503599627370496. change (2 ^ (52 + 11)) with 9223372036854775808.
  change (2 ^ 11) with 2048.
  set (sg := if s then 1 else 0).
  assert (Hsg : 0 ≤ sg ≤ 1) by (subst sg; destruct s; lia).
  assert (Hodd : Z.odd sg = s) by (by subst sg; destruct s).
  assert (Hd : (d = 53 ∧ -1074 ≤ e ≤ 971) ∨ (d < 53 ∧ e = -1074)) by lia.
  assert (Hd53 : d = 53 ∧ -1074 ≤ e ≤ 971 ∧ 4503599627370496 ≤ Zpos m < 9007199254740992
    ∨ e = -1074 ∧ Zpos m < 4503599627370496).
  { destruct Hd as [[-> ?]|[Hd ->]]; [left; cbn in Hm; lia|right].
    split; [done|]. destruct Hm as [_ Hm]. eapply Z.lt_le_trans; [exact Hm|].
    change 4503599627370496 with (2 ^ 52). apply Z.pow_le_mono_r; lia. }
  clearbody sg. clear Hm Hd H1.
  destruct Hd53 as [(_ & He & Hm)|[-> Hm]].
  - destruct (Z.ltb_spec (Zpos m) 4503599627370496) as [?|_]; [lia|].
    set (b := _ + _ + _).
    assert (Hb : b = (sg * 2048 + (e + 1075)) * 4503599627370496 + (Zpos m - 4503599627370496))
      by (subst b; lia).
    assert (Hb63 : b = sg * 9223372036854775808
      + ((e + 1075) * 4503599627370496 + (Zpos m - 4503599627370496))) by lia.
    assert (b mod 4503599627370496 = Zpos m - 4503599627370496) as ->
      by (rewrite Hb, Z.add_comm, Z.mod_add, Z.mod_small; lia).
    assert (b / 4503599627370496 = sg * 2048 + (e + 1075)) as ->
      by (rewrite Hb, Z.div_add_l, Z.div_small; lia).
    assert (b / 9223372036854775808 = sg) as ->
      by (rewrite Hb63, Z.div_add_l, Z.div_small; lia).
    assert ((sg * 2048 + (e + 1075)) mod 2048 = e + 1075) as ->
      by (rewrite Z.add_comm, Z.mod_add, Z.mod_small; lia).
    destruct (Z.eqb_spec (e + 1075) (2048 - 1)); [lia|].
    destruct (Z.eqb_spec (e + 1075) 0); [lia|].
    rewrite Hodd.
    replace (Zpos m - 4503599627370496 + 4503599627370496) with (Zpos m) by lia.
    f_equal. lia.
  - destruct (Z.ltb_spec (Zpos m) 4503599627370496) as [_|?]; [|lia].
    set (b := _ + _).
    assert (Hb : b = (sg * 2048) * 4503599627370496 + Zpos m) by (subst b; lia).
    assert (b mod 4503599627370496 = Zpos m) as ->
      by (rewrite Hb, Z.add_comm, Z.mod_add, Z.mod_small; lia).
    assert (b / 4503599627370496 = sg * 2048) as ->
      by (rewrite Hb, Z.div_add_l, Z.div_small; lia).
    assert (b / 9223372036854775808 = sg) as ->
      by (subst b; rewrite Z.div_add_l, Z.div_small; lia).
    rewrite Z.mod_mul by lia. cbn. by rewrite Hodd.
Qed.

(** [m * 2 ^ 0] with at most 53 bits is rounded to itself. *)
Lemma binary_round_exact s m : (digits2_pos m <= 53)%positive →
  ∃ m' k, binary_round 53 1024 s m 0 = S754_finite s m' (- k) ∧ 0 ≤ k ≤ 52
    ∧ Zpos m' = Zpos m * 2 ^ k ∧ bounded 53 1024 m' (- k) = true.
Proof.
  intros Hd. unfold binary_round.
  pose proof (digits2_pos_spec m) as Hm.
  set (d := digits2_pos m) in *.
  assert (fexp 53 1024 (Zpos d + 0) = Zpos d - 53) as Hf.
  { unfold fexp, SpecFloat.emin. lia. }
  rewrite Hf. unfold shl_align. rewrite Z.sub_0_r.
  assert (∃ mz, (match Zpos d - 53 with
     | Zneg d0 => (Pos.iter xO m d0, Zpos d - 53) | _ => (m, 0) end) = (mz, Zpos d - 53)
     ∧ Zpos mz = Zpos m * 2 ^ (53 - Zpos d) ∧ digits2_pos mz = 53%positive)
    as (mz & -> & Hmz & Hdz).
  { destruct (Zpos d - 53) as [|p|p] eqn:E.
    - exists m. replace (53 - Zpos d) with 0 by lia. repeat split; [lia|]. fold d. lia.
    - lia.
    - exists (Pos.iter xO m p). split; [done|]. split.
      + rewrite Zpos_iter_xO. f_equal. f_equal. lia.
      + rewrite digits2_pos_iter. fold d. lia. }
  exists mz, (53 - Zpos d). split_and!; [|lia|lia|done|].
  - unfold binary_round_aux, shr_fexp, Zdigits2. rewrite Hdz.
    assert (fexp 53 1024 (53 + (Zpos d - 53)) - (Zpos d - 53) = 0) as ->.
    { unfold fexp, SpecFloat.emin. lia. }
    cbn [shr shr_record_of_loc loc_of_shr_record shr_m round_nearest_even].
    cbn [Zdigits2]. rewrite Hdz.
    assert (fexp 53 1024 (53 + (Zpos d - 53)) - (Zpos d - 53) = 0) as ->.
    { unfold fexp, SpecFloat.emin. lia. }
    cbn [shr shr_record_of_loc loc_of_shr_record shr_m].
    destruct (Z.leb_spec (Zpos d - 53) (1024 - 53)) as [_|?]; [|lia].
    f_equal. lia.
  - unfold bounded, canonical_mantissa. rewrite Hdz.
    apply andb_true_intro. split; [apply Z.eqb_eq|apply Z.leb_le]; [|lia].
    unfold fexp, SpecFloat.emin. lia.
Qed.

(** Integers of at most 53 bits survive the trip through float64. *)
Lemma f64_of_Z_trunc n : - 2 ^ 53 < n < 2 ^ 53 → sf_trunc (sf64 (f64_of_Z n)) = Some n.
Proof.
  intros Hn. unfold f64_of_Z, binary_normalize.
  assert (Hdig : ∀ p, Zpos p < 2 ^ 53 → (digits2_pos p <= 53)%positive).
  { intros p Hp. pose proof (digits2_pos_spec p) as [Hlo _].
    destruct (decide (digits2_pos p <= 53)%positive) as [?|Hgt]; [done|].
    assert (2 ^ 53 ≤ 2 ^ (Zpos (digits2_pos p) - 1)) by (apply Z.pow_le_mono_r; lia). lia. }
  assert (Htr : ∀ s p, Zpos p < 2 ^ 53 →
    sf_trunc (sf64 (f64 (binary_round 53 1024 s p 0))) = Some (cond_Zopp s (Zpos p))).
  { intros s p Hp. destruct (binary_round_exact s p (Hdig p Hp)) as (m' & k & -> & Hk & Hm' & Hb).
    rewrite sf64_f64_finite by done. cbn [sf_trunc].
    destruct (Z.leb_spec 0 (- k)) as [Hk0|Hk0].
    - assert (k = 0) by lia. subst k. rewrite Hm'. cbn. f_equal. destruct s; cbn; lia.
    - rewrite Z.opp_involutive, Hm', Z.div_mul by lia. by destruct s. }
  destruct n as [|p|p]; [done|apply (Htr false p); lia|].
  rewrite Htr by lia. done.
Qed.

Lemma to_int_of_Z `{FloatConv} w n : in_s w n → - 2 ^ 53 < n < 2 ^ 53 →
  to_int w (f64_of_Z n) = n.
Proof. intros. unfold to_int. rewrite f64_of_Z_trunc by done. by rewrite decide_True. Qed.

Lemma to_uint_of_Z `{FloatConv} w n : in_u w n → n < 2 ^ 53 →
  to_uint w (f64_of_Z n) = n.
Proof.
  intros Hn ?. unfold to_uint. rewrite f64_of_Z_trunc by (unfold in_u in Hn; lia).
  by rewrite decide_True.
Qed.

Lemma to_int_range `{FloatConv} w f : 0 < w → in_s w (to_int w f).
Proof.
  intros. unfold to_int.
  repeat case_match; try done; apply (conv_overflow_range w true f); done.
Qed.
Lemma to_uint_range `{FloatConv} w f : 0 < w → in_u w (to_uint w f).
Proof.
  intros. unfold to_uint.
  repeat case_match; try done; apply (conv_overflow_range w false f); done.
Qed.
#[export] Hint Resolve to_int_range to_uint_range : go.

Example f64_third : f64_div (f64_of_Z 1) (f64_of_Z 3) = 0x3FD5555555555555.
Proof. vm_compute. reflexivity. Qed.
Example f64_tenth_f32 : f64_of_f32 0x3DCCCCCD = 0x3FB99999A0000000.
Proof. vm_compute. reflexivity. Qed.
Example f32_tenth : f32_of_f64 0x3FB999999999999A = 0x3DCCCCCD.
Proof. vm_compute. reflexivity. Qed.
Example f64_sub_ex : f64_sub (f64_of_Z 5) (f64_of_Z 7) = f64_of_Z (-2).
Proof. vm_compute. reflexivity. Qed.
