(* ===== verification/GoUnquote.v ===== *)
(** Go's [strconv.Unquote], and that it undoes [strconv.Quote] on ASCII text. *)

From S2P Require Export Prelude GoBytes GoText.

#[local] Open Scope Z_scope.

Definition squote : ascii := "'"%char.
Definition backquote : ascii := "`"%char.
Definition newline : ascii := "010"%char.

Definition unhex (c : ascii) : option Z :=
  let b := byte_of c in
  if in_range 48 57 b then Some (b - 48)
  else if in_range 97 102 b then Some (b - 97 + 10)
  else if in_range 65 70 b then Some (b - 65 + 10)
  else None.

(** [n] hexadecimal digits. *)
Fixpoint unhex_n (n : nat) (s : list ascii) (v : Z) : option (Z * list ascii) :=
  match n with
  | O => Some (v, s)
  | S n' => match s with
            | [] => None
            | c :: s' => match unhex c with Some x => unhex_n n' s' (Z.lor (Z.shiftl v 4) x) | None => None end
            end
  end.

Definition octal (c : ascii) : option Z := let b := byte_of c in if in_range 48 55 b then Some (b - 48) else None.

(** [utf8.ValidRune]. *)
Definition valid_rune (r : Z) : bool := ((0 <=? r) && (r <? 0xD800)) || ((0xDFFF <? r) && (r <=? 0x10FFFF)).

(** The escapes after a backslash. *)
Definition unescape (q c : ascii) (s : list ascii) : option (Z * bool * list ascii) :=
  if Ascii.eqb c "a" then Some (7, false, s)
  else if Ascii.eqb c "b" then Some (8, false, s)
  else if Ascii.eqb c "f" then Some (12, false, s)
  else if Ascii.eqb c "n" then Some (10, false, s)
  else if Ascii.eqb c "r" then Some (13, false, s)
  else if Ascii.eqb c "t" then Some (9, false, s)
  else if Ascii.eqb c "v" then Some (11, false, s)
  else if Ascii.eqb c "x" then
    match unhex_n 2 s 0 with Some (v, s') => Some (v, false, s') | None => None end
  else if Ascii.eqb c "u" then
    match unhex_n 4 s 0 with Some (v, s') => if valid_rune v then Some (v, true, s') else None | None => None end
  else if Ascii.eqb c "U" then
    match unhex_n 8 s 0 with Some (v, s') => if valid_rune v then Some (v, true, s') else None | None => None end
  else if Ascii.eqb c backslash then Some (92, false, s)
  else if Ascii.eqb c squote || Ascii.eqb c dquote then
    if Ascii.eqb c q then Some (byte_of c, false, s) else None
  else match octal c, s with
       | Some v, c1 :: c2 :: s' =>
           match octal c1, octal c2 with
           | Some x, Some y =>
               let v := Z.lor (Z.shiftl (Z.lor (Z.shiftl v 3) x) 3) y in
               if 255 <? v then None else Some (v, false, s')
           | _, _ => None
           end
       | _, _ => None
       end.

(** [UnquoteChar]: the character, whether it needs more than a byte, and the rest. *)
Definition unquote_char (q : ascii) (s : list ascii) : option (Z * bool * list ascii) :=
  match s with
  | [] => None
  | c :: s1 =>
      if Ascii.eqb c q && (Ascii.eqb q squote || Ascii.eqb q dquote) then None
      else if 0x80 <=? byte_of c then
        let '(r, size) := decode_rune (byte_of <$> s) in Some (r, true, drop size s)
      else if negb (Ascii.eqb c backslash) then Some (byte_of c, false, s1)
      else match s1 with [] => None | c1 :: s2 => unescape q c1 s2 end
  end.

(** The loop over the characters up to the closing quote; one character at most between
    single quotes. *)
Fixpoint unquote_loop (fuel : nat) (q : ascii) (s buf : list ascii) : option (list ascii * list ascii) :=
  match fuel with
  | O => None
  | S fuel' =>
      match s with
      | [] => Some (buf, s)
      | c :: _ =>
          if Ascii.eqb c q then Some (buf, s)
          else match unquote_char q s with
               | None => None
               | Some (r, multibyte, rest) =>
                   if Ascii.eqb c newline then None
                   else
                     let buf := buf ++ (if (r <? 0x80) || negb multibyte then [char_of r] else char_of <$> encode_rune r) in
                     if Ascii.eqb q squote then Some (buf, rest) else unquote_loop fuel' q rest buf
               end
      end
  end.

(** [Unquote]; [None] is [ErrSyntax]. Every turn of the loop consumes a byte. *)
Definition unquote (s : string) : option string :=
  match chars s with
  | q :: ((_ :: _) as l) =>
      if Ascii.eqb q backquote then
        match cut_chars backquote l with
        | Some (body, []) => Some (str (filter (λ c, c ≠ "013"%char) body))
        | _ => None
        end
      else if Ascii.eqb q dquote || Ascii.eqb q squote then
        match unquote_loop (S (length l)) q l [] with
        | Some (buf, [c]) => if Ascii.eqb c q then Some (str buf) else None
        | _ => None
        end
      else None
  | _ => None
  end.

Example unquote_ex : unquote (str (dquote :: chars "a\x41\n\u00e9" ++ [dquote])) = Some ("aA" +:+ str ["010"; "195"; "169"]%char).
Proof. vm_compute. reflexivity. Qed.

(** ** Quoting ASCII *)

Definition ascii_char (c : ascii) : Prop := byte_of c < 0x80.
#[export] Instance ascii_char_dec c : Decision (ascii_char c).
Proof. unfold ascii_char. apply _. Defined.

Section Quote.
Context `{UnicodeTables}.

Lemma runes_ascii s : Forall ascii_char (chars s) → runes s = map (λ c, (byte_of c, [byte_of c])) (chars s).
Proof.
  unfold runes. change (string_bytes s) with (map byte_of (chars s)). rewrite <- length_chars.
  induction 1 as [|c l Hc _ IH]; [done|]. cbn [length map runes_go].
  unfold ascii_char in Hc. unfold decode_rune. rewrite (proj2 (Z.ltb_lt _ _)) by lia.
  simpl. by rewrite drop_0, IH.
Qed.

(** One quoted character is read back. *)
Lemma unquote_escape c rest fuel buf : ascii_char c →
  unquote_loop (S fuel) dquote (escape (byte_of c, [byte_of c]) ++ rest) buf = unquote_loop fuel dquote rest (buf ++ [c]).
Proof.
  unfold ascii_char. destruct c as [[] [] [] [] [] [] [] []]; intros Hc; try (vm_compute in Hc; discriminate Hc); reflexivity.
Qed.

Lemma escape_length c : ascii_char c → (1 ≤ length (escape (byte_of c, [byte_of c])))%nat.
Proof.
  unfold ascii_char. destruct c as [[] [] [] [] [] [] [] []]; intros Hc; try (vm_compute in Hc; discriminate Hc); apply Nat.leb_le; reflexivity.
Qed.

Lemma unquote_escapes l : ∀ fuel buf, Forall ascii_char l → (length l < fuel)%nat →
  unquote_loop fuel dquote (concat (map (λ c, escape (byte_of c, [byte_of c])) l) ++ [dquote]) buf = Some (buf ++ l, [dquote]).
Proof.
  induction l as [|c l IH]; intros fuel buf Hl Hf; (destruct fuel as [|fuel]; [cbn in Hf; lia|]).
  - cbn. by rewrite app_nil_r.
  - apply Forall_cons in Hl as [Hc Hl]. cbn [map concat]. rewrite <- app_assoc, unquote_escape by done.
    rewrite IH by (done || (cbn in Hf; lia)). by rewrite <- app_assoc.
Qed.

Lemma unquote_quote s : Forall ascii_char (chars s) → unquote (quote s) = Some s.
Proof.
  intros Hs. unfold unquote, quote. rewrite chars_str, runes_ascii by done.
  change (escape <$> map ?f ?l) with (map escape (map f l)). rewrite map_map.
  set (body := concat (map (λ c, escape (byte_of c, [byte_of c])) (chars s))).
  assert (length (chars s) ≤ length body)%nat as Hlen.
  { unfold body. clear body. induction Hs as [|c l Hc _ IH]; [done|]. cbn [map concat]. rewrite length_app.
    pose proof (escape_length c Hc). cbn [length]. lia. }
  pose proof (unquote_escapes (chars s) (S (length (body ++ [dquote]))) [] Hs) as Hu. fold body in Hu.
  rewrite length_app in Hu. specialize (Hu ltac:(cbn; lia)).
  destruct (body ++ [dquote]) as [|c l] eqn:E; [by destruct body|].
  change (Ascii.eqb dquote backquote) with false. change (Ascii.eqb dquote dquote) with true. cbn [orb].
  rewrite <- E. rewrite <- length_app in Hu. rewrite E in Hu |- *. rewrite Hu. cbn [app]. by rewrite str_chars.
Qed.

End Quote.
