(* ===== verification/GoValue.v ===== *)
(** Go's [interface{}] values as the modules exchange them: decoded JSON, PLC
    variables, register values; their conversions, comparison with [==] and
    formatting with [%v]. *)

From S2P Require Export Prelude GoBytes GoText GoFloat.
From stdpp Require Export sorting.

#[local] Open Scope Z_scope.

(** The integer types that occur in type switches. *)
Inductive int_kind : Set :=
  | KInt | KInt8 | KInt16 | KInt32 | KInt64
  | KUint | KUint8 | KUint16 | KUint32 | KUint64.

#[export] Instance int_kind_eq_dec : EqDecision int_kind.
Proof. solve_decision. Defined.

Definition kind_width (k : int_kind) : Z :=
  match k with
  | KInt | KInt64 | KUint | KUint64 => 64
  | KInt8 | KUint8 => 8
  | KInt16 | KUint16 => 16
  | KInt32 | KUint32 => 32
  end.

Definition kind_signed (k : int_kind) : bool :=
  match k with
  | KInt | KInt8 | KInt16 | KInt32 | KInt64 => true
  | _ => false
  end.

(** A dynamic value: [VNil] is the nil interface, [VJsonNumber] a [json.Number],
    [VSlice] a [[]interface{}] and [VMap] a [map[string]interface{}]. *)
Inductive value : Type :=
  | VNil
  | VBool (b : bool)
  | VInt (k : int_kind) (z : Z)
  | VFloat64 (f : float64)
  | VFloat32 (f : float32)
  | VString (s : string)
  | VJsonNumber (s : string)
  | VSlice (l : list value)
  | VMap (m : list (string * value)).

(** Text form of floats: the shortest decimal of [%v] and [strconv.ParseFloat]
    (None when it reports an error). *)
Class FloatText := {
  fmt_float64 : float64 → string;
  fmt_float32 : float32 → string;
  parse_float : string → option float64;
}.

(** Floats are never formatted or parsed in runs over these tables. *)
Definition no_float_text : FloatText :=
  {| fmt_float64 := λ _, ""; fmt_float32 := λ _, ""; parse_float := λ _, None |}.

(** [Float64] of a [json.Number], used without looking at its error. *)
Class JsonNumber := { number_Float64 : string → float64 }.
Definition number_zero : JsonNumber := {| number_Float64 := λ _, f64_zero |}.

Section Fmt.
Context `{FloatText}.

(** [fmt.Sprintf("%v", v)]; map keys are printed in sorted order. *)
Fixpoint fmt_v (v : value) : string :=
  match v with
  | VNil => "<nil>"
  | VBool b => if b then "true" else "false"
  | VInt _ z => itoa z
  | VFloat64 f => fmt_float64 f
  | VFloat32 f => fmt_float32 f
  | VString s | VJsonNumber s => s
  | VSlice l => "[" +:+ str_join " " (map fmt_v l) +:+ "]"
  | VMap m =>
      let entries := map (λ kv, (kv.1, fmt_v kv.2)) m in
      let sorted := merge_sort (λ a b, String.le a.1 b.1) entries in
      "map[" +:+ str_join " " (map (λ kv, kv.1 +:+ ":" +:+ kv.2) sorted) +:+ "]"
  end.

End Fmt.

(** The comparison [a == b] of two interface values: values of different dynamic
    types differ, and two values of the same uncomparable type panic. *)
Definition iface_eq (a b : value) : outcome bool :=
  match a, b with
  | VNil, VNil => Ok true
  | VBool x, VBool y => Ok (Bool.eqb x y)
  | VInt k x, VInt k' y => Ok (bool_decide (k = k') && (x =? y))
  | VFloat64 x, VFloat64 y => Ok (f64_eqb x y)
  | VFloat32 x, VFloat32 y => Ok (f32_eqb x y)
  | VString x, VString y => Ok (String.eqb x y)
  | VJsonNumber x, VJsonNumber y => Ok (String.eqb x y)
  | VSlice _, VSlice _ | VMap _, VMap _ => Panic
  | _, _ => Ok false
  end.

Definition is_nil (v : value) : bool := match v with VNil => true | _ => false end.

(** Values whose dynamic type is comparable. *)
Definition comparable (v : value) : bool :=
  match v with VSlice _ | VMap _ => false | _ => true end.

(** [json.Marshal] fails for a value with a float that is not finite. *)
Definition f64_is_finite (f : float64) : bool := f64_abs f <? 0x7FF0000000000000.
Fixpoint json_ok (v : value) : bool :=
  match v with
  | VFloat64 f => f64_is_finite f
  | VFloat32 f => f64_is_finite (f64_of_f32 f)
  | VSlice l => forallb json_ok l
  | VMap m => forallb (λ kv, json_ok kv.2) m
  | _ => true
  end.

Lemma iface_eq_comparable a b : comparable a = true → ∃ r, iface_eq a b = Ok r.
Proof. destruct a, b; cbn; try discriminate; eauto. Qed.

Lemma fmt_v_string `{FloatText} s : fmt_v (VString s) = s.
Proof. done. Qed.

Example fmt_map : let _ := no_float_text in
  fmt_v (VMap [("b", VInt KInt 2); ("a", VSlice [VBool true; VNil])])
  = "map[a:[true <nil>] b:2]".
Proof. vm_compute. reflexivity. Qed.
