(* ===== verification/Rbe.v ===== *)
(** Report by exception: internal/rbe/rbe.go (gateway, Sparkplug bridge, history)
    and plc/rbe.go (the PLC library), which are two separate implementations.

    [State] is the tracking record of a variable; [ShouldPublish] and
    [RecordPublish] are used as a pair by the callers ([observe]). The trace
    theorems follow a variable through a sequence of timestamped updates. *)

From S2P Require Export Prelude GoValue.

#[local] Open Scope Z_scope.

(** types/common.go *)
Module Types.

Record DeadBandConfig := {
  Value : float64;
  MinTime : Z; (* ms *)
  MaxTime : Z; (* ms, 0 = disabled *)
}.

Record DeadBandOverride := {
  oValue : option float64;
  oMinTime : option Z;
  oMaxTime : option Z;
}.

(** [DeadBandOverride.Merge]. *)
Definition Merge (o : DeadBandOverride) (base : DeadBandConfig) : DeadBandConfig :=
  let result := base in
  let result := match oValue o with
    | Some v => {| Value := v; MinTime := MinTime result; MaxTime := MaxTime result |}
    | None => result end in
  let result := match oMinTime o with
    | Some v => {| Value := Value result; MinTime := v; MaxTime := MaxTime result |}
    | None => result end in
  match oMaxTime o with
  | Some v => {| Value := Value result; MinTime := MinTime result; MaxTime := v |}
  | None => result
  end.

End Types.
Import Types.

(** ** internal/rbe *)
Module Internal.
Section Internal.
Context `{FloatText}.

Record State := { LastValue : value; LastTime : Z }.

(** [ToFloat64]: the type switch over the numeric types. *)
Definition ToFloat64 (v : value) : option float64 :=
  match v with
  | VFloat64 n => Some n
  | VFloat32 n => Some (f64_of_f32 n)
  | VInt _ n => Some (f64_of_Z n)
  | VJsonNumber s => parse_float s
  | VBool b => Some (if b then f64_of_Z 1 else f64_of_Z 0)
  | _ => None
  end.

Definition ValuesEqual (a b : value) : bool :=
  if is_nil a && is_nil b then true
  else if is_nil a || is_nil b then false
  else match ToFloat64 a, ToFloat64 b with
       | Some af, Some bf => f64_eqb af bf
       | _, _ => String.eqb (fmt_v a) (fmt_v b)
       end.

Definition ShouldPublish (state : State) (newValue : value) (nowMs : Z)
    (deadband : option DeadBandConfig) (disableRBE : bool) : bool :=
  if disableRBE then true
  else if LastTime state =? 0 then true
  else match deadband with
  | None => negb (ValuesEqual (LastValue state) newValue)
  | Some db =>
      let elapsed := wraps 64 (nowMs - LastTime state) in
      if (0 <? MaxTime db) && (MaxTime db <=? elapsed) then true
      else if (0 <? MinTime db) && (elapsed <? MinTime db) then false
      else match ToFloat64 (LastValue state), ToFloat64 newValue with
           | Some oldFloat, Some newFloat =>
               f64_gtb (f64_abs (f64_sub newFloat oldFloat)) (Value db)
           | _, _ => negb (ValuesEqual (LastValue state) newValue)
           end
  end.

Definition RecordPublish (state : State) (v : value) (nowMs : Z) : State :=
  {| LastValue := v; LastTime := nowMs |}.

(** The pair of calls every caller makes (internal/mqtt/bridge.go,
    internal/gateway/gateway.go): publish and record when it should. *)
Definition observe (db : option DeadBandConfig) (dis : bool)
    (st : State) (u : value * Z) : bool * State :=
  if ShouldPublish st u.1 u.2 db dis
  then (true, RecordPublish st u.1 u.2) else (false, st).

(** The publications of a run over timestamped updates. *)
Fixpoint run (db : option DeadBandConfig) (dis : bool) (st : State)
    (us : list (value * Z)) : list (value * Z) * State :=
  match us with
  | [] => ([], st)
  | u :: us' =>
      let '(p, st') := observe db dis st u in
      let '(ps, st'') := run db dis st' us' in
      (if p then u :: ps else ps, st'')
  end.

Definition fresh : State := {| LastValue := VNil; LastTime := 0 |}.

End Internal.
End Internal.

(** ** plc/rbe.go *)
Module Plc.

(** [rbeState]; [lastTime] is [None] for the zero [time.Time], otherwise
    nanoseconds. *)
Record rbeState := {
  lastValue : value;
  lastTime : option Z;
  config : option DeadBandConfig;
}.

(** [a.Sub(b)] saturates at the ends of [time.Duration]. *)
Definition time_sub (a b : Z) : Z := Z.max (- 2 ^ 63) (Z.min (2 ^ 63 - 1) (a - b)).
(** [Duration.Milliseconds()]. *)
Definition milliseconds (d : Z) : Z := Z.quot d 1000000.

Definition toFloat64 (v : value) : option float64 :=
  match v with
  | VFloat64 n => Some n
  | VFloat32 n => Some (f64_of_f32 n)
  | VInt (KInt | KInt64 | KInt32 | KUint | KUint64 | KUint32) n => Some (f64_of_Z n)
  | _ => None
  end.

Definition exceedsDeadband (old new : value) (threshold : float64) : outcome bool :=
  if f64_eqb threshold f64_zero then iface_eq old new ≫= λ e, Ok (negb e)
  else match toFloat64 old, toFloat64 new with
       | Some oldF, Some newF => Ok (f64_gtb (f64_abs (f64_sub newF oldF)) threshold)
       | _, _ => iface_eq old new ≫= λ e, Ok (negb e)
       end.

Definition record (r : rbeState) (newVal : value) (now : Z) : rbeState :=
  {| lastValue := newVal; lastTime := Some now; config := config r |}.

(** [shouldPublish], with the reading of [time.Now()] as an argument. *)
Definition shouldPublish (r : rbeState) (newVal : value) (now : Z)
    : outcome (bool * rbeState) :=
  match config r with
  | None => Ok (true, record r newVal now)
  | Some cfg =>
      let elapsed := match lastTime r with
        | Some t => Some (milliseconds (time_sub now t))
        | None => None end in
      let max_hit := match elapsed with
        | Some e => (0 <? MaxTime cfg) && (MaxTime cfg <=? e)
        | None => false end in
      let min_hit := match elapsed with
        | Some e => (0 <? MinTime cfg) && (e <? MinTime cfg)
        | None => false end in
      if max_hit then Ok (true, record r newVal now)
      else if min_hit then Ok (false, r)
      else exceeds ← exceedsDeadband (lastValue r) newVal (Value cfg);
           if negb exceeds then Ok (false, r) else Ok (true, record r newVal now)
  end.

(** The state [publishVariable] (plc/nats.go) creates for a variable. *)
Definition newState (cfg : option DeadBandConfig) : rbeState :=
  {| lastValue := VNil; lastTime := None; config := cfg |}.

Record RBERule := { Pattern : string; Deadband : DeadBandConfig }.

(** The fields of [VariableConfig] (plc/variables.go) that [ResolveDeadband] reads. *)
Record VariableConfig := {
  cfgDeadband : option DeadBandConfig;
  DisableRBE : bool;
}.

(** Byte strings as Go slices them: [pattern[n-1]] and [pattern[:n-1]]. *)
Definition matchGlob (pattern s : string) : bool :=
  if String.eqb pattern "*" then true
  else
    let n := str_len pattern in
    if (0 <? n)%nat && bool_decide (String.get (n - 1) pattern = Some "*"%char) then
      let prefix := String.substring 0 (n - 1) pattern in
      (str_len prefix <=? str_len s)%nat
      && String.eqb (String.substring 0 (str_len prefix) s) prefix
    else String.eqb pattern s.

Fixpoint firstMatch (rules : list RBERule) (variableID : string) : option DeadBandConfig :=
  match rules with
  | [] => None
  | rule :: rules' =>
      if matchGlob (Pattern rule) variableID then Some (Deadband rule)
      else firstMatch rules' variableID
  end.

Definition ResolveDeadband (variableID : string) (cfg : VariableConfig)
    (rules : list RBERule) (defaultDB : option DeadBandConfig) : option DeadBandConfig :=
  if DisableRBE cfg then None
  else match cfgDeadband cfg with
       | Some db => Some db
       | None => match firstMatch rules variableID with
                 | Some db => Some db
                 | None => defaultDB
                 end
       end.

End Plc.

(** A deadband of 2 with both intervals, for the examples. *)
Definition db_ex : DeadBandConfig := {| Value := f64_of_Z 2; MinTime := 100; MaxTime := 1000 |}.

(** ** Properties of internal/rbe *)
Module InternalFacts.
Import Internal.
Section Facts.
Context `{FloatText}.

Lemma SFcompare_antisym x y :
  SFcompare y x = match SFcompare x y with Some c => Some (CompOpp c) | None => None end.
Proof.
  destruct x as [sx|sx| |sx mx ex], y as [sy|sy| |sy my ey]; try destruct sx;
    try destruct sy; try done; cbn.
  all: rewrite (Z.compare_antisym ex ey); destruct (Z.compare ex ey); cbn; try done.
  all: rewrite <- !Pos.compare_cont_spec || idtac.
  all: change (Pos.compare_cont Eq my mx) with (Pos.compare my mx);
       change (Pos.compare_cont Eq mx my) with (Pos.compare mx my);
       rewrite (Pos.compare_antisym mx my); done.
Qed.

Lemma f64_eqb_sym a b : f64_eqb a b = f64_eqb b a.
Proof.
  unfold f64_eqb, SFeqb. rewrite (SFcompare_antisym (sf64 b)).
  by destruct (SFcompare (sf64 b) (sf64 a)) as [[]|].
Qed.

Lemma SFeqb_refl x : x ≠ S754_nan → SFeqb x x = true.
Proof.
  unfold SFeqb. destruct x as [[]|[]| |[] m e]; cbn; intros; try done;
    rewrite Z.compare_refl;
    change (Pos.compare_cont Eq m m) with (Pos.compare m m); by rewrite Pos.compare_refl.
Qed.

(** Timestamps are positive and far from the ends of int64. *)
Definition time_ok (u : value * Z) : Prop := 0 < u.2 < 2 ^ 62.

Lemma elapsed_exact t now : 0 < t < 2 ^ 62 → 0 < now < 2 ^ 62 → wraps 64 (now - t) = now - t.
Proof. intros. apply wraps_small; [|lia]. unfold in_s. change (64 - 1) with 63. lia. Qed.

(** [spaced_from d t l]: the timestamps of [l] start at least [d] after [t] and
    are at least [d] apart. *)
Fixpoint spaced_from (d t : Z) (l : list (value * Z)) : Prop :=
  match l with
  | [] => True
  | u :: l' => t + d ≤ u.2 ∧ spaced_from d u.2 l'
  end.

Lemma observe_true db dis st u st' :
  observe db dis st u = (true, st') → st' = {| LastValue := u.1; LastTime := u.2 |}.
Proof. unfold observe. case_if; naive_solver. Qed.

Lemma observe_false db dis st u st' :
  observe db dis st u = (false, st') →
  st' = st ∧ ShouldPublish st u.1 u.2 db dis = false.
Proof. unfold observe. case_if; naive_solver. Qed.

Lemma run_app db dis st us vs :
  run db dis st (us ++ vs) =
  let '(ps, st') := run db dis st us in
  let '(qs, st'') := run db dis st' vs in (ps ++ qs, st'').
Proof.
  revert st. induction us as [|u us IH]; intros st; cbn.
  - by destruct (run db dis st vs).
  - destruct (observe db dis st u) as [p st1]. rewrite IH.
    destruct (run db dis st1 us) as [ps st2], (run db dis st2 vs) as [qs st3].
    by destruct p.
Qed.

Lemma run_last_time db dis st us :
  Forall time_ok us → (LastTime st = 0 ∨ 0 < LastTime st < 2 ^ 62) →
  let st' := (run db dis st us).2 in LastTime st' = 0 ∨ 0 < LastTime st' < 2 ^ 62.
Proof.
  intros Hus. revert st. induction Hus as [|u us Hu _ IH]; intros st Hst; [done|].
  cbn. destruct (observe db dis st u) as [[] st1] eqn:E.
  - apply observe_true in E as ->.
    specialize (IH {| LastValue := u.1; LastTime := u.2 |} (or_intror Hu)).
    by destruct (run db dis _ us).
  - apply observe_false in E as [-> _]. specialize (IH st Hst). by destruct (run db dis st us).
Qed.

Lemma spacing_step db st u : 0 < LastTime st < 2 ^ 62 → time_ok u →
  (0 < MinTime db) → (MaxTime db ≤ 0 ∨ MinTime db ≤ MaxTime db) →
  ShouldPublish st u.1 u.2 (Some db) false = true → LastTime st + MinTime db ≤ u.2.
Proof.
  intros Hst Hu Hmin Hmax. unfold ShouldPublish.
  rewrite (proj2 (Z.eqb_neq _ _)) by lia. rewrite elapsed_exact by done.
  intros Hp. crush.
Qed.

Lemma run_spaced db st us : Forall time_ok us → 0 < LastTime st < 2 ^ 62 →
  (0 < MinTime db) → (MaxTime db ≤ 0 ∨ MinTime db ≤ MaxTime db) →
  spaced_from (MinTime db) (LastTime st) (run (Some db) false st us).1.
Proof.
  intros Hus. revert st. induction Hus as [|u us Hu _ IH]; intros st Hst Hmin Hmax; [done|].
  cbn. unfold observe.
  destruct (ShouldPublish st u.1 u.2 (Some db) false) eqn:E.
  - specialize (IH (RecordPublish st u.1 u.2) Hu Hmin Hmax).
    destruct (run (Some db) false _ us) as [ps st2]. cbn in *.
    split; [|done]. by eapply spacing_step.
  - specialize (IH st Hst Hmin Hmax). by destruct (run (Some db) false st us).
Qed.

Lemma run_snoc_state db st us u :
  (run db false st (us ++ [u])).2 = (observe db false (run db false st us).2 u).2.
Proof.
  rewrite run_app. destruct (run db false st us) as [ps st1]. cbn.
  by destruct (observe db false st1 u).
Qed.

(** publications of one variable are never closer than MinTime: over any
    sequence of updates, the first publication aside, every publication comes at
    least [MinTime] ms after the one before it, whatever values arrive (provided
    [MaxTime] is disabled or not below [MinTime]). *)
Theorem rbe_min_spacing (db : DeadBandConfig) (us : list (value * Z)) :
  Forall time_ok us → 0 < MinTime db → (MaxTime db ≤ 0 ∨ MinTime db ≤ MaxTime db) →
  match (run (Some db) false fresh us).1 with
  | [] => True
  | u :: ps => spaced_from (MinTime db) u.2 ps
  end.
Proof.
  intros Hus Hmin Hmax. destruct Hus as [|u us Hu Hus]; [done|].
  cbn. unfold observe, ShouldPublish. cbn.
  pose proof (run_spaced db (RecordPublish fresh u.1 u.2) us Hus Hu Hmin Hmax).
  by destruct (run (Some db) false _ us).
Qed.

(** a variable that keeps being updated never stays silent past MaxTime:
    after any sequence of updates, the last publication is less than [MaxTime] ms
    older than the last update. *)
Theorem rbe_max_silence (db : DeadBandConfig) (us : list (value * Z)) (u : value * Z) :
  Forall time_ok (us ++ [u]) → 0 < MaxTime db →
  let st := (run (Some db) false fresh (us ++ [u])).2 in
  0 < LastTime st ∧ u.2 - LastTime st < MaxTime db.
Proof.
  intros [Hus Hu]%Forall_app Hmax. rewrite Forall_singleton in Hu.
  cbn zeta. rewrite run_snoc_state.
  pose proof (run_last_time (Some db) false fresh us Hus (or_introl eq_refl)) as Hst.
  cbn zeta in Hst. set (st1 := (run (Some db) false fresh us).2) in *.
  unfold time_ok in Hu.
  destruct (observe (Some db) false st1 u) as [[] st2] eqn:E; cbn [snd].
  - apply observe_true in E as ->. cbn [LastTime]. split; lia.
  - apply observe_false in E as [-> Hnp]. unfold ShouldPublish in Hnp.
    destruct (Z.eqb_spec (LastTime st1) 0); [done|].
    destruct Hst as [?|Hst]; [done|]. rewrite elapsed_exact in Hnp by done.
    destruct (Z.ltb_spec 0 (MaxTime db)); [|lia].
    destruct (Z.leb_spec (MaxTime db) (u.2 - LastTime st1)); [done|]. lia.
Qed.

(** what subscribers hold tracks the variable: after any sequence of updates
    ending in a numeric value, the last published value either is the current one,
    or differs from it by no more than the deadband, or the current value arrived
    within MinTime of the last publication. The comparison is always against the
    published value, so suppressed changes cannot accumulate. *)
Theorem rbe_tracking (db : DeadBandConfig) (us : list (value * Z)) (u : value * Z)
    (fnew : float64) :
  Forall time_ok (us ++ [u]) → ToFloat64 u.1 = Some fnew →
  let st := (run (Some db) false fresh (us ++ [u])).2 in
  LastValue st = u.1
  ∨ u.2 - LastTime st < MinTime db
  ∨ (∃ fold, ToFloat64 (LastValue st) = Some fold
       ∧ f64_gtb (f64_abs (f64_sub fnew fold)) (Value db) = false)
  ∨ (ToFloat64 (LastValue st) = None ∧ ValuesEqual (LastValue st) u.1 = true).
Proof.
  intros [Hus Hu]%Forall_app Hf. rewrite Forall_singleton in Hu.
  cbn zeta. rewrite run_snoc_state.
  pose proof (run_last_time (Some db) false fresh us Hus (or_introl eq_refl)) as Hst.
  cbn zeta in Hst. set (st1 := (run (Some db) false fresh us).2) in *.
  destruct (observe (Some db) false st1 u) as [[] st2] eqn:E; cbn.
  - apply observe_true in E as ->. by left.
  - apply observe_false in E as [-> Hnp]. right. unfold ShouldPublish in Hnp.
    destruct (Z.eqb_spec (LastTime st1) 0); [done|].
    destruct Hst as [?|Hst]; [done|]. rewrite elapsed_exact, Hf in Hnp by done.
    case_if; [done|]. case_if; [bool_to_prop; lia|]. right.
    destruct (ToFloat64 (LastValue st1)) as [fold|].
    + left. eauto.
    + right. split; [done|]. by apply negb_false_iff in Hnp.
Qed.

(** [ValuesEqual] does not depend on the order of its arguments, and a value
    that is not a NaN equals itself, so an unchanged value is never republished
    without a deadband. *)
Theorem rbe_values_equal_sym_refl (a b : value) :
  ValuesEqual a b = ValuesEqual b a
  ∧ (match ToFloat64 a with Some f => f64_is_nan f = false | None => True end →
     ValuesEqual a a = true).
Proof.
  split.
  - unfold ValuesEqual. rewrite (andb_comm (is_nil a)), (orb_comm (is_nil a)).
    do 2 (case_if; [done|]).
    destruct (ToFloat64 a), (ToFloat64 b); try (apply String.eqb_sym).
    apply f64_eqb_sym.
  - unfold ValuesEqual. intros Hn. destruct (is_nil a); [done|]. cbn.
    destruct (ToFloat64 a) as [f|]; [|apply String.eqb_refl].
    apply SFeqb_refl. unfold f64_is_nan in Hn. by destruct (sf64 f).
Qed.

End Facts.

(** [ValuesEqual] is not transitive: the boolean true equals the integer 1
    (both are the number 1), 1 equals the string "1" (same text), but true does
    not equal "1". *)
Theorem rbe_values_equal_not_transitive `{FloatText} :
  ValuesEqual (VBool true) (VInt KInt 1) = true
  ∧ ValuesEqual (VInt KInt 1) (VString "1") = true
  ∧ ValuesEqual (VBool true) (VString "1") = false.
Proof. split_and!; vm_compute; reflexivity. Qed.

(** with a deadband configured and no MaxTime, a variable that turns into a NaN
    after a number was published is suppressed for as long as it stays a NaN. *)
Theorem rbe_nan_suppressed `{FloatText} (db : DeadBandConfig) (st : State)
    (f g : float64) (now : Z) :
  LastTime st ≠ 0 → MaxTime db ≤ 0 → LastValue st = VFloat64 f → f64_is_nan g = true →
  ShouldPublish st (VFloat64 g) now (Some db) false = false.
Proof.
  intros Ht Hmax Hl Hg. unfold ShouldPublish. rewrite (proj2 (Z.eqb_neq _ _)) by done.
  rewrite Hl. cbn. destruct (Z.ltb_spec 0 (MaxTime db)); [lia|]. cbn.
  case_if; [done|]. unfold f64_gtb, f64_ltb, f64_sub, f64_is_nan in *.
  destruct (sf64 g); try done.
  assert (Hnan : sf64 (f64_abs (f64 S754_nan)) = S754_nan) by (vm_compute; reflexivity).
  replace (SFsub 53 1024 S754_nan (sf64 f)) with S754_nan by done.
  rewrite Hnan. unfold SFltb. by destruct (sf64 (Value db)).
Qed.

(** *** Witnesses *)

#[local] Existing Instance no_float_text.

Definition us_ex : list (value * Z) :=
  [(VFloat64 (f64_of_Z 10), 1000); (VFloat64 (f64_of_Z 20), 1050);
   (VFloat64 (f64_of_Z 20), 1100); (VFloat64 (f64_of_Z 21), 1500);
   (VFloat64 (f64_of_Z 21), 2200)].

Example run_ex : (snd <$> (run (Some db_ex) false fresh us_ex).1) = [1000; 1100; 2200].
Proof. vm_compute. reflexivity. Qed.

Lemma us_ex_ok : Forall time_ok us_ex.
Proof. repeat constructor; vm_compute; done. Qed.

Lemma rbe_min_spacing_witness : spaced_from 100 1000 [(VFloat64 (f64_of_Z 20), 1100);
    (VFloat64 (f64_of_Z 21), 2200)].
Proof.
  exact (rbe_min_spacing db_ex us_ex us_ex_ok ltac:(done) ltac:(right; done)).
Defined.

Lemma rbe_max_silence_witness :
  let st := (run (Some db_ex) false fresh us_ex).2 in
  0 < LastTime st ∧ 2200 - LastTime st < 1000.
Proof.
  exact (rbe_max_silence db_ex (take 4 us_ex) (VFloat64 (f64_of_Z 21), 2200) us_ex_ok
    ltac:(done)).
Defined.

Lemma rbe_tracking_witness :
  let st := (run (Some db_ex) false fresh (take 4 us_ex)).2 in
  LastValue st = VFloat64 (f64_of_Z 21)
  ∨ 1500 - LastTime st < 100
  ∨ (∃ fold, ToFloat64 (LastValue st) = Some fold
       ∧ f64_gtb (f64_abs (f64_sub (f64_of_Z 21) fold)) (f64_of_Z 2) = false)
  ∨ (ToFloat64 (LastValue st) = None
       ∧ ValuesEqual (LastValue st) (VFloat64 (f64_of_Z 21)) = true).
Proof.
  exact (rbe_tracking db_ex (take 3 us_ex) (VFloat64 (f64_of_Z 21), 1500) (f64_of_Z 21)
    ltac:(repeat constructor; vm_compute; done) eq_refl).
Defined.

Lemma rbe_values_equal_sym_refl_witness :
  ValuesEqual (VInt KInt 5) (VInt KInt 5) = true.
Proof.
  apply (proj2 (rbe_values_equal_sym_refl (VInt KInt 5) VNil)). vm_compute. reflexivity.
Defined.

Lemma rbe_nan_suppressed_witness :
  ShouldPublish {| LastValue := VFloat64 (f64_of_Z 7); LastTime := 5 |}
    (VFloat64 0x7FF8000000000001) 100000
    (Some {| Value := f64_of_Z 1; MinTime := 0; MaxTime := 0 |}) false = false.
Proof.
  apply (rbe_nan_suppressed _ _ (f64_of_Z 7)); [done|done|done|vm_compute; reflexivity].
Defined.

End InternalFacts.

(** ** Properties of plc/rbe.go *)
Module PlcFacts.
Import Plc.

(** The PLC library's filter brings the process down on a structured variable: a
    UDT or array value with a deadband panics at the second publication, when
    [old != new] compares two uncomparable values. *)
Definition structured (v : value) : bool :=
  match v with VMap _ | VSlice _ => true | _ => false end.

Definition same_shape (a b : value) : bool :=
  match a, b with
  | VMap _, VMap _ | VSlice _, VSlice _ => true
  | _, _ => false
  end.

(** a PLC variable holding a UDT (or array) with a deadband and no minimum or
    maximum interval is published once; the next update panics in the comparison
    of the old and the new value. *)
Theorem plc_rbe_structured_panics (thr : float64) (v w : value) (t0 t1 : Z) :
  structured v = true → same_shape v w = true →
  let r0 := newState (Some {| Value := thr; MinTime := 0; MaxTime := 0 |}) in
  ∃ r1, shouldPublish r0 v t0 = Ok (true, r1) ∧ shouldPublish r1 w t1 = Panic.
Proof.
  intros Hv Hw. cbn zeta. unfold shouldPublish, exceedsDeadband.
  set (r0 := newState _). exists (record r0 v t0).
  destruct v, w; try done; destruct (f64_eqb thr f64_zero) eqn:E;
    split; cbn; rewrite E; reflexivity.
Qed.

(** on comparable values the filter never panics, leaves the state alone when it
    suppresses and records the value and the time when it publishes. *)
Theorem plc_rbe_total (r : rbeState) (v : value) (now : Z) :
  comparable v = true ∨ comparable (lastValue r) = true →
  ∃ p r', shouldPublish r v now = Ok (p, r')
    ∧ (p = true → lastValue r' = v ∧ lastTime r' = Some now)
    ∧ (p = false → r' = r) ∧ config r' = config r.
Proof.
  intros Hc. unfold shouldPublish. destruct (config r) as [cfg|] eqn:Ecfg;
    [|do 2 eexists; split_and!; try done; cbn; auto].
  case_if; [do 2 eexists; split_and!; try done; cbn; auto|].
  case_if; [do 2 eexists; split_and!; try done; cbn; auto|].
  assert (∃ e, iface_eq (lastValue r) v = Ok e) as [e He].
  { destruct Hc; [destruct v, (lastValue r)|destruct (lastValue r), v];
      try discriminate; cbn; eauto. }
  assert (∃ x, exceedsDeadband (lastValue r) v (Value cfg) = Ok x) as [x ->].
  { unfold exceedsDeadband. rewrite He. cbn. repeat case_match; eauto. }
  cbn. destruct x; cbn; do 2 eexists; split_and!; try done; cbn; auto.
Qed.

Lemma substring_prefix n s : String.substring 0 n s = str (take n (chars s)).
Proof.
  revert s. induction n as [|n IH]; intros [|c s]; try done.
  cbn. f_equal. apply IH.
Qed.

Lemma get_chars n s : String.get n s = chars s !! n.
Proof. revert n. induction s as [|c s IH]; intros [|n]; cbn; done || apply IH. Qed.

Lemma str_eqb_iff a b : String.eqb a b = true ↔ a = b.
Proof. apply String.eqb_eq. Qed.

Lemma take_prefix_iff {A} (p l : list A) : take (length p) l = p ↔ ∃ rest, l = p ++ rest.
Proof.
  split; [|intros [rest ->]; by rewrite take_app_length].
  intros H. exists (drop (length p) l). by rewrite <- H at 1; rewrite take_drop.
Qed.

Lemma matchGlob_star (p : list ascii) (s : string) :
  matchGlob (str (p ++ ["*"%char])) s = true ↔ ∃ rest, chars s = p ++ rest.
Proof.
  unfold matchGlob. destruct (String.eqb_spec (str (p ++ ["*"%char])) "*") as [E|E].
  - apply (f_equal chars) in E. rewrite chars_str in E. cbn in E.
    assert (p = []) as -> by (destruct p as [|? [|]]; [done|discriminate..]).
    split; [intros _; by exists (chars s)|done].
  - rewrite <- length_chars, chars_str, length_app, get_chars, chars_str. cbn [length].
    replace (length p + 1 - 1)%nat with (length p) by lia.
    rewrite list_lookup_middle by done. rewrite bool_decide_true by done.
    rewrite (proj2 (Nat.ltb_lt _ _)) by lia. cbn [andb].
    rewrite !substring_prefix, !chars_str, take_app_length.
    rewrite <- !length_chars, chars_str.
    rewrite andb_true_iff, Nat.leb_le, str_eqb_iff, <- take_prefix_iff. split.
    + intros [_ H%str_inj]. done.
    + intros H. rewrite H. split; [|done].
      apply (f_equal length) in H. rewrite length_take in H. lia.
Qed.

Lemma matchGlob_plain (p : list ascii) (s : string) :
  last p ≠ Some "*"%char → matchGlob (str p) s = true ↔ s = str p.
Proof.
  intros Hp. unfold matchGlob. destruct (String.eqb_spec (str p) "*") as [E|E].
  { apply (f_equal chars) in E. rewrite chars_str in E. by subst p. }
  rewrite bool_decide_false.
  { rewrite andb_false_r, str_eqb_iff. naive_solver. }
  rewrite get_chars, <- length_chars, !chars_str. by rewrite Nat.sub_1_r, <- last_lookup.
Qed.

(** glob matching has its documented meaning: a pattern ending in a star
    matches exactly the strings that start with what precedes the star (everything
    for the star alone), any other pattern matches itself only. *)
Theorem plc_match_glob_spec (p : list ascii) (s : string) :
  (matchGlob (str (p ++ ["*"%char])) s = true ↔ ∃ rest, chars s = p ++ rest)
  ∧ (last p ≠ Some "*"%char → matchGlob (str p) s = true ↔ s = str p).
Proof. split; [apply matchGlob_star|apply matchGlob_plain]. Qed.

(** *** Witnesses *)

Lemma plc_rbe_structured_panics_witness :
  let r0 := newState (Some {| Value := f64_of_Z 1; MinTime := 0; MaxTime := 0 |}) in
  ∃ r1, shouldPublish r0 (VMap [("speed", VInt KInt 1)]) 10 = Ok (true, r1)
    ∧ shouldPublish r1 (VMap [("speed", VInt KInt 2)]) 20 = Panic.
Proof. apply plc_rbe_structured_panics; reflexivity. Defined.

Lemma plc_rbe_total_witness :
  ∃ p r', shouldPublish (newState (Some db_ex)) (VFloat64 (f64_of_Z 3)) 7 = Ok (p, r')
    ∧ (p = true → lastValue r' = VFloat64 (f64_of_Z 3) ∧ lastTime r' = Some 7)
    ∧ (p = false → r' = newState (Some db_ex)) ∧ config r' = Some db_ex.
Proof. apply (plc_rbe_total (newState (Some db_ex))). left. reflexivity. Defined.

Lemma plc_match_glob_spec_witness : matchGlob "temp" "temp" = true.
Proof.
  apply (proj2 (plc_match_glob_spec ["t"; "e"; "m"; "p"]%char "temp")); done.
Defined.

End PlcFacts.
