(* ===== verification/Ladder.v ===== *)
(** Ladder logic: plc/ladder/ladder.go and plc/ladder/state.go.

    Elements are the instructions; [evaluate] threads the rung power and the
    runtime state through them. [time.Now()] is read once by every timer
    evaluation: the readings are the sequence [now 0, now 1, ...] and a [Machine]
    carries the number of readings consumed. *)

From S2P Require Export Prelude GoValue.

#[local] Open Scope Z_scope.

(** ** state.go *)

(** A [time.Time] in nanoseconds; [None] is the zero time. *)
Definition gotime := option Z.

(** [t.Sub(u)] for a reading [t]; it saturates at the ends of [time.Duration]. *)
Definition time_sub (t : Z) (u : gotime) : Z :=
  match u with
  | Some u => Z.max (- 2 ^ 63) (Z.min (2 ^ 63 - 1) (t - u))
  | None => 2 ^ 63 - 1
  end.

Record timerState := {
  tPreset : Z;
  tACC : Z;
  tDN : bool;
  tEN : bool;
  tTT : bool;
  lastTick : gotime;
  tprevEN : bool;
}.

Record counterState := {
  cPreset : Z;
  cACC : Z;
  cDN : bool;
  cprevEN : bool;
}.

Record State := {
  tags : gmap string bool;
  timers : gmap string timerState;
  counters : gmap string counterState;
}.

Definition NewState : State := {| tags := ∅; timers := ∅; counters := ∅ |}.

(** [getTag]: plain tags first, then the sub-tags of timers and counters. *)
Definition getTag (s : State) (tag : string) : bool :=
  match tags s !! tag with
  | Some v => v
  | None =>
      match split_n2 "."%char tag with
      | [base; field] =>
          let from_counter :=
            match counters s !! base with
            | Some c => if String.eqb field "DN" then cDN c else false
            | None => false
            end in
          match timers s !! base with
          | Some t =>
              if String.eqb field "DN" then tDN t
              else if String.eqb field "EN" then tEN t
              else if String.eqb field "TT" then tTT t
              else from_counter
          | None => from_counter
          end
      | _ => false
      end
  end.

Definition setTag (s : State) (tag : string) (v : bool) : State :=
  {| tags := <[tag := v]> (tags s); timers := timers s; counters := counters s |}.

Definition newTimer (preset : Z) : timerState :=
  {| tPreset := preset; tACC := 0; tDN := false; tEN := false; tTT := false;
     lastTick := None; tprevEN := false |}.

(** [getTimer]: the preset is applied only when the timer is created. The caller
    mutates the timer through the returned pointer, which is [setTimer] here. *)
Definition getTimer (s : State) (tag : string) (preset : Z) : timerState :=
  match timers s !! tag with Some t => t | None => newTimer preset end.

Definition setTimer (s : State) (tag : string) (t : timerState) : State :=
  {| tags := tags s; timers := <[tag := t]> (timers s); counters := counters s |}.

Definition newCounter (preset : Z) : counterState :=
  {| cPreset := preset; cACC := 0; cDN := false; cprevEN := false |}.

Definition getCounter (s : State) (tag : string) (preset : Z) : counterState :=
  match counters s !! tag with Some c => c | None => newCounter preset end.

Definition setCounter (s : State) (tag : string) (c : counterState) : State :=
  {| tags := tags s; timers := timers s; counters := <[tag := c]> (counters s) |}.

(** ** ladder.go *)

Inductive Element : Type :=
  | NO (tag : string)
  | NC (tag : string)
  | OTE (tag : string)
  | OTL (tag : string)
  | OTU (tag : string)
  | TON (tag : string) (preset : Z)
  | TOF (tag : string) (preset : Z)
  | CTU (tag : string) (preset : Z)
  | CTD (tag : string) (preset : Z)
  | RES (tag : string)
  | Branch (paths : list (list Element))
  | Series (elements : list Element).

(** The ladder state and the number of clock readings taken so far. *)
Record Machine := { mstate : State; mreads : nat }.

Definition with_state (m : Machine) (s : State) : Machine :=
  {| mstate := s; mreads := mreads m |}.

(** [tonTimer.evaluate] on the timer's record. *)
Definition ton_step (t : timerState) (rungIn : bool) (nw : Z) : timerState :=
  if rungIn then
    if negb (tDN t) then
      (* Start or continue timing. *)
      let tick := if tTT t then lastTick t else Some nw in
      let acc := wraps 64 (tACC t + time_sub nw tick) in
      if tPreset t <=? acc
      then {| tPreset := tPreset t; tACC := acc; tDN := true; tEN := true; tTT := false;
              lastTick := Some nw; tprevEN := tprevEN t |}
      else {| tPreset := tPreset t; tACC := acc; tDN := false; tEN := true; tTT := true;
              lastTick := Some nw; tprevEN := tprevEN t |}
    else {| tPreset := tPreset t; tACC := tACC t; tDN := tDN t; tEN := true; tTT := tTT t;
            lastTick := Some nw; tprevEN := tprevEN t |}
  else {| tPreset := tPreset t; tACC := 0; tDN := false; tEN := false; tTT := false;
          lastTick := lastTick t; tprevEN := tprevEN t |}.

(** [tofTimer.evaluate] on the timer's record. *)
Definition tof_step (t : timerState) (rungIn : bool) (nw : Z) : timerState :=
  if rungIn then
    {| tPreset := tPreset t; tACC := 0; tDN := true; tEN := true; tTT := false;
       lastTick := Some nw; tprevEN := true |}
  else
    (* Falling edge: start off-delay timing. *)
    let '(timing, tick) := if tprevEN t then (true, Some nw) else (tTT t, lastTick t) in
    if (timing : bool) then
      let acc := wraps 64 (tACC t + time_sub nw tick) in
      if tPreset t <=? acc
      then {| tPreset := tPreset t; tACC := acc; tDN := false; tEN := false; tTT := false;
              lastTick := Some nw; tprevEN := false |}
      else {| tPreset := tPreset t; tACC := acc; tDN := tDN t; tEN := tEN t; tTT := true;
              lastTick := Some nw; tprevEN := false |}
    else {| tPreset := tPreset t; tACC := tACC t; tDN := tDN t; tEN := tEN t; tTT := false;
            lastTick := tick; tprevEN := false |}.

(** [ctuCounter.evaluate] and [ctdCounter.evaluate] on the counter's record. *)
Definition ctu_step (c : counterState) (rungIn : bool) : counterState :=
  let acc := if rungIn && negb (cprevEN c) then wraps 64 (cACC c + 1) else cACC c in
  {| cPreset := cPreset c; cACC := acc; cDN := (cPreset c <=? acc) || cDN c;
     cprevEN := rungIn |}.

Definition ctd_step (c : counterState) (rungIn : bool) : counterState :=
  let acc := if rungIn && negb (cprevEN c) then wraps 64 (cACC c - 1) else cACC c in
  {| cPreset := cPreset c; cACC := acc; cDN := (acc <=? 0) || cDN c;
     cprevEN := rungIn |}.

Definition res_counter (c : counterState) : counterState :=
  {| cPreset := cPreset c; cACC := 0; cDN := false; cprevEN := cprevEN c |}.
Definition res_timer (t : timerState) : timerState :=
  {| tPreset := tPreset t; tACC := 0; tDN := false; tEN := false; tTT := false;
     lastTick := lastTick t; tprevEN := tprevEN t |}.

(** [resElement.evaluate]: only existing counters and timers are reset. *)
Definition res_step (s : State) (tag : string) (rungIn : bool) : State :=
  if rungIn then
    let s1 := match counters s !! tag with
              | Some c => setCounter s tag (res_counter c) | None => s end in
    match timers s1 !! tag with
    | Some t => setTimer s1 tag (res_timer t) | None => s1 end
  else s.

Section Evaluate.
Variable now : nat → Z.

Definition eval_timer (step : timerState → bool → Z → timerState) (tag : string)
    (preset : Z) (rungIn : bool) (m : Machine) : bool * Machine :=
  let t := step (getTimer (mstate m) tag preset) rungIn (now (mreads m)) in
  (tDN t, {| mstate := setTimer (mstate m) tag t; mreads := S (mreads m) |}).

Definition eval_counter (step : counterState → bool → counterState) (tag : string)
    (preset : Z) (rungIn : bool) (m : Machine) : bool * Machine :=
  let c := step (getCounter (mstate m) tag preset) rungIn in
  (cDN c, with_state m (setCounter (mstate m) tag c)).

(** [Element.evaluate]. *)
Fixpoint evaluate (e : Element) (rungIn : bool) (m : Machine) {struct e} : bool * Machine :=
  match e with
  | NO tag => (rungIn && getTag (mstate m) tag, m)
  | NC tag => (rungIn && negb (getTag (mstate m) tag), m)
  | OTE tag => (rungIn, with_state m (setTag (mstate m) tag rungIn))
  | OTL tag =>
      (rungIn, if rungIn then with_state m (setTag (mstate m) tag true) else m)
  | OTU tag =>
      (rungIn, if rungIn then with_state m (setTag (mstate m) tag false) else m)
  | TON tag preset => eval_timer ton_step tag preset rungIn m
  | TOF tag preset => eval_timer tof_step tag preset rungIn m
  | CTU tag preset => eval_counter ctu_step tag preset rungIn m
  | CTD tag preset => eval_counter ctd_step tag preset rungIn m
  | RES tag => (rungIn, with_state m (res_step (mstate m) tag rungIn))
  | Branch paths =>
      (fix eval_paths (ps : list (list Element)) (result : bool) (m : Machine) :=
         match ps with
         | [] => (result, m)
         | path :: ps' =>
             let '(pathResult, m') :=
               (fix eval_path (es : list Element) (r : bool) (m : Machine) :=
                  match es with
                  | [] => (r, m)
                  | e' :: es' => let '(r', m') := evaluate e' r m in eval_path es' r' m'
                  end) path rungIn m in
             eval_paths ps' (if pathResult then true else result) m'
         end) paths false m
  | Series elements =>
      (fix eval_path (es : list Element) (r : bool) (m : Machine) :=
         match es with
         | [] => (r, m)
         | e' :: es' => let '(r', m') := evaluate e' r m in eval_path es' r' m'
         end) elements rungIn m
  end.

(** The loop [for _, elem := range elements] of a path or a rung. *)
Fixpoint eval_seq (es : list Element) (r : bool) (m : Machine) : bool * Machine :=
  match es with
  | [] => (r, m)
  | e :: es' => let '(r', m') := evaluate e r m in eval_seq es' r' m'
  end.

(** The loop over the paths of a branch. *)
Fixpoint eval_paths (ps : list (list Element)) (rungIn result : bool) (m : Machine)
    : bool * Machine :=
  match ps with
  | [] => (result, m)
  | path :: ps' =>
      let '(pathResult, m') := eval_seq path rungIn m in
      eval_paths ps' rungIn (if pathResult then true else result) m'
  end.

(** *** CreateProgram *)

(** [plc.Variable] (plc/variables.go) and its [BoolValue]. *)
Record Variable' := { vvalue : value; vdatatype : string }.

Definition BoolValue (v : Variable') : bool :=
  match vvalue v with VBool b => b | _ => false end.

(** [Variable.set] through the [update] closure of plc.Create (plc/plc.go): an
    unknown variable is ignored. Publishing the value to NATS is not part of the
    variable's state. *)
Definition update (vars : gmap string Variable') (id : string) (v : value)
    : gmap string Variable' :=
  match vars !! id with
  | Some old => <[id := {| vvalue := v; vdatatype := vdatatype old |}]> vars
  | None => vars
  end.

(** Sync PLC variables into ladder tags. *)
Definition sync_in (vars : gmap string Variable') (s : State) : State :=
  map_fold (λ id v s, setTag s id (BoolValue v)) s vars.

(** Evaluate all rungs; every rung starts energized. *)
Fixpoint eval_rungs (rungs : list (list Element)) (m : Machine) : Machine :=
  match rungs with
  | [] => m
  | elements :: rungs' => eval_rungs rungs' (eval_seq elements true m).2
  end.

(** Sync ladder tags back to PLC variables. *)
Definition sync_out (s : State) (vars : gmap string Variable') : gmap string Variable' :=
  map_fold (λ id _ acc,
    match tags s !! id with
    | Some val => update acc id (VBool val)
    | None => acc
    end) vars vars.

(** One call of the function [CreateProgram] returns: a scan. *)
Definition scan (rungs : list (list Element)) (vars : gmap string Variable') (m : Machine)
    : gmap string Variable' * Machine :=
  let m1 := with_state m (sync_in vars (mstate m)) in
  let m2 := eval_rungs rungs m1 in
  (sync_out (mstate m2) vars, m2).

End Evaluate.

(** A fresh program: an empty state and no clock reading taken. *)
Definition machine0 : Machine := {| mstate := NewState; mreads := 0 |}.

(** ** Structural lemmas *)
Section Facts.
Variable now : nat → Z.
Implicit Types (m : Machine) (e : Element).

Lemma evaluate_Series es r m : evaluate now (Series es) r m = eval_seq now es r m.
Proof.
  cbn. revert r m. induction es as [|e es IH]; intros r m; [done|].
  cbn. destruct (evaluate now e r m) as [r' m']. apply IH.
Qed.

Lemma evaluate_Branch ps r m :
  evaluate now (Branch ps) r m = eval_paths now ps r false m.
Proof.
  cbn. generalize false. revert m. induction ps as [|es ps IH]; intros m res; [done|].
  cbn. pose proof (evaluate_Series es r m) as H. cbn in H. rewrite H. clear H.
  destruct (eval_seq now es r m) as [r' m']. apply IH.
Qed.

Lemma eval_seq_app es fs r m :
  eval_seq now (es ++ fs) r m
  = let '(r', m') := eval_seq now es r m in eval_seq now fs r' m'.
Proof.
  revert r m. induction es as [|e es IH]; intros r m; [done|]. cbn.
  destruct (evaluate now e r m) as [r' m']. apply IH.
Qed.

(** Induction over elements with hypotheses for the nested lists. *)
Lemma Element_ind' (P : Element → Prop) :
  (∀ t, P (NO t)) → (∀ t, P (NC t)) → (∀ t, P (OTE t)) → (∀ t, P (OTL t)) →
  (∀ t, P (OTU t)) → (∀ t p, P (TON t p)) → (∀ t p, P (TOF t p)) →
  (∀ t p, P (CTU t p)) → (∀ t p, P (CTD t p)) → (∀ t, P (RES t)) →
  (∀ ps, Forall (Forall P) ps → P (Branch ps)) → (∀ es, Forall P es → P (Series es)) →
  ∀ e, P e.
Proof.
  intros HNO HNC HOTE HOTL HOTU HTON HTOF HCTU HCTD HRES HB HS.
  fix IH 1. intros [t|t|t|t|t|t p|t p|t p|t p|t|ps|es];
    [apply HNO|apply HNC|apply HOTE|apply HOTL|apply HOTU|apply HTON|apply HTOF
    |apply HCTU|apply HCTD|apply HRES|..].
  - apply HB. induction ps as [|es ps IHps]; constructor; [|done].
    induction es as [|e es IHes]; constructor; [apply IH|done].
  - apply HS. induction es as [|e es IHes]; constructor; [apply IH|done].
Qed.

(** *** Frame: an element writes only the tags of its coils *)

Fixpoint coils (e : Element) : list string :=
  match e with
  | OTE t | OTL t | OTU t => [t]
  | Branch ps => concat (map (λ es, concat (map coils es)) ps)
  | Series es => concat (map coils es)
  | _ => []
  end.

Definition seq_coils (es : list Element) : list string := concat (map coils es).

(** A predicate on the state that survives timer and counter updates and the
    writes to a set of tags. *)
Definition stable (P : State → Prop) (ts : list string) : Prop :=
  (∀ s t x, P s → P (setTimer s t x)) ∧ (∀ s t x, P s → P (setCounter s t x))
  ∧ ∀ s t b, t ∈ ts → P s → P (setTag s t b).

Lemma stable_app P ts us : stable P (ts ++ us) → stable P ts ∧ stable P us.
Proof. unfold stable. set_solver. Qed.

Lemma res_step_stable P ts s tag r : stable P ts → P s → P (res_step s tag r).
Proof.
  intros (Ht & Hc & _) HP. unfold res_step. destruct r; [|done].
  destruct (counters s !! tag); cbn;
    match goal with |- context [match ?o with _ => _ end] => destruct o end; auto.
Qed.

Lemma eval_seq_stable P es r m :
  Forall (λ e, ∀ r m, stable P (coils e) → P (mstate m) →
    P (mstate (evaluate now e r m).2)) es →
  stable P (seq_coils es) → P (mstate m) → P (mstate (eval_seq now es r m).2).
Proof.
  intros H. revert r m. induction H as [|e es He _ IH]; intros r m Hst HP; [done|].
  apply stable_app in Hst as [H1 H2]. specialize (He r m H1 HP). cbn.
  destruct (evaluate now e r m) as [r' m']. by apply IH.
Qed.

Lemma evaluate_stable P e r m :
  stable P (coils e) → P (mstate m) → P (mstate (evaluate now e r m).2).
Proof.
  revert r m. induction e as [tg|tg|tg|tg|tg|tg p|tg p|tg p|tg p|tg|ps IH|es IH]
    using Element_ind'; intros r m Hst HP; try (destruct Hst as (Ht & Hc & Hs); cbn; auto; fail).
  - destruct Hst as (Ht & Hc & Hs). cbn. apply Hs; [set_solver|done].
  - destruct Hst as (Ht & Hc & Hs). destruct r; [|done]. cbn. apply Hs; [set_solver|done].
  - destruct Hst as (Ht & Hc & Hs). destruct r; [|done]. cbn. apply Hs; [set_solver|done].
  - change (P (res_step (mstate m) tg r)). by eapply res_step_stable.
  - rewrite evaluate_Branch. generalize false. cbn in Hst. revert m Hst HP.
    induction IH as [|es ps Hes _ IHps]; intros m Hst HP res; [done|].
    apply stable_app in Hst as [H1 H2]. cbn.
    pose proof (eval_seq_stable P es r m Hes H1 HP) as Hf.
    destruct (eval_seq now es r m) as [r' m']. by apply IHps.
  - rewrite evaluate_Series. by apply eval_seq_stable.
Qed.

Lemma eval_rungs_stable P rungs m :
  stable P (concat (map seq_coils rungs)) → P (mstate m) →
  P (mstate (eval_rungs now rungs m)).
Proof.
  revert m. induction rungs as [|es rungs IH]; intros m Hst HP; [done|].
  apply stable_app in Hst as [H1 H2]. cbn. apply IH; [done|].
  apply eval_seq_stable; [|done..]. apply Forall_true. intros. by apply evaluate_stable.
Qed.

Lemma eval_rungs_frame t rungs m :
  t ∉ concat (map seq_coils rungs) →
  tags (mstate (eval_rungs now rungs m)) !! t = tags (mstate m) !! t.
Proof.
  intros Hnot. apply (eval_rungs_stable (λ s, tags s !! t = tags (mstate m) !! t));
    [|done]. split_and!; [done|done|]. intros s t' b Hin Hs. cbn.
  rewrite lookup_insert_ne; [done|]. by intros ->.
Qed.

Lemma eval_rungs_defined t rungs m :
  is_Some (tags (mstate m) !! t) → is_Some (tags (mstate (eval_rungs now rungs m)) !! t).
Proof.
  apply (eval_rungs_stable (λ s, is_Some (tags s !! t))).
  split_and!; [done|done|]. intros s t' b _ Hs. cbn.
  destruct (decide (t' = t)) as [->|]; [rewrite lookup_insert_eq; eauto|].
  by rewrite lookup_insert_ne.
Qed.

(** *** Contact networks as boolean functions *)

Fixpoint contact_only (e : Element) : bool :=
  match e with
  | NO _ | NC _ => true
  | Branch ps => forallb (forallb contact_only) ps
  | Series es => forallb contact_only es
  | _ => false
  end.

(** The boolean function a network of contacts denotes: contacts in series are a
    conjunction, branches a disjunction. *)
Fixpoint denote (s : State) (e : Element) : bool :=
  match e with
  | NO t => getTag s t
  | NC t => negb (getTag s t)
  | Branch ps => existsb (forallb (denote s)) ps
  | Series es => forallb (denote s) es
  | _ => true
  end.

Lemma eval_seq_contacts es m :
  Forall (λ e, contact_only e = true →
    ∀ r, evaluate now e r m = (r && denote (mstate m) e, m)) es →
  forallb contact_only es = true →
  ∀ r, eval_seq now es r m = (r && forallb (denote (mstate m)) es, m).
Proof.
  induction 1 as [|e es He _ IH]; intros Hc r; cbn in *.
  - by rewrite andb_true_r.
  - apply andb_prop in Hc as [Hc1 Hc2]. rewrite (He Hc1), (IH Hc2).
    by rewrite andb_assoc.
Qed.

Lemma eval_contacts e m : contact_only e = true →
  ∀ r, evaluate now e r m = (r && denote (mstate m) e, m).
Proof.
  induction e as [tg|tg|tg|tg|tg|tg p|tg p|tg p|tg p|tg|ps IH|es IH]
    using Element_ind'; intros Hc r; try done.
  - rewrite evaluate_Branch. cbn in Hc |- *.
    enough (Hp : ∀ res, eval_paths now ps r res m
      = (res || (r && existsb (forallb (denote (mstate m))) ps), m)) by apply Hp.
    induction IH as [|es ps Hes _ IHps]; intros res; cbn in *.
    + by rewrite andb_false_r, orb_false_r.
    + apply andb_prop in Hc as [Hc1 Hc2].
      rewrite (eval_seq_contacts es m Hes Hc1), (IHps Hc2).
      f_equal. destruct r, res, (forallb (denote (mstate m)) es); done.
  - rewrite evaluate_Series. by apply eval_seq_contacts.
Qed.

(** *** Timers and counters in isolation *)

(** [scans e r n m]: the machine after [n] scans of [e] with rung power [r]. *)
Fixpoint scans (e : Element) (r : bool) (n : nat) (m : Machine) : Machine :=
  match n with
  | O => m
  | S n' => (evaluate now e r (scans e r n' m)).2
  end.

(** The clock readings do not go backwards and stay within the int64 range. *)
Definition clock_ok : Prop :=
  (∀ i, 0 ≤ now i < 2 ^ 62) ∧ (∀ i j, (i ≤ j)%nat → now i ≤ now j).

Lemma scans_reads step tag p e r n m :
  (∀ m, evaluate now e r m = eval_timer now step tag p r m) →
  mreads (scans e r n m) = (n + mreads m)%nat.
Proof.
  intros He. induction n as [|n IH]; [done|]. cbn [scans]. rewrite He. cbn. lia.
Qed.

Lemma elapsed_small a b : 0 ≤ a < 2 ^ 62 → 0 ≤ b < 2 ^ 62 → time_sub a (Some b) = a - b.
Proof. intros. cbn. lia. Qed.

Lemma eval_timer_get step tag p q r m :
  getTimer (mstate (eval_timer now step tag p r m).2) tag q
  = step (getTimer (mstate m) tag p) r (now (mreads m)).
Proof. cbn. unfold getTimer at 1, setTimer. cbn. by rewrite lookup_insert_eq. Qed.

Lemma eval_timer_result step tag p r m :
  (eval_timer now step tag p r m).1
  = tDN (step (getTimer (mstate m) tag p) r (now (mreads m))).
Proof. done. Qed.

(** One more scan of a timing TON whose last tick was at [a], now at [b]. *)
Lemma ton_step_timing t p a b start :
  0 ≤ a < 2 ^ 62 → 0 ≤ b < 2 ^ 62 → 0 ≤ start < 2 ^ 62 →
  tPreset t = p → tDN t = false → (if tTT t then lastTick t = Some a else a = b) →
  tACC t = a - start →
  let t' := ton_step t true b in
  tPreset t' = p ∧ lastTick t' = Some b
  ∧ (if tDN t' then p ≤ b - start else tTT t' = true ∧ tACC t' = b - start ∧ b - start < p).
Proof.
  intros Ha Hb Hs <- Hdn Htt Hacc. unfold ton_step. rewrite Hdn, Hacc. cbn [negb].
  assert (wraps 64 (a - start + time_sub b (if tTT t then lastTick t else Some b))
    = b - start) as ->.
  { destruct (tTT t); [rewrite Htt|subst a]; rewrite elapsed_small by done;
      (rewrite wraps_small; [lia|unfold in_s; lia|lia]). }
  destruct (Z.leb_spec (tPreset t) (b - start)); cbn; split_and!; auto.
Qed.

Lemma ton_invariant tag p m n :
  clock_ok → timers (mstate m) !! tag = None →
  let t := getTimer (mstate (scans (TON tag p) true (S n) m)) tag p in
  let dt := now (n + mreads m) - now (mreads m) in
  tPreset t = p ∧ lastTick t = Some (now (n + mreads m))
  ∧ (if tDN t then p ≤ dt else tTT t = true ∧ tACC t = dt ∧ dt < p).
Proof.
  intros [Hr Hm] Hfresh. cbn zeta. induction n as [|n IH].
  - cbn [scans evaluate]. rewrite eval_timer_get. unfold getTimer. rewrite Hfresh.
    apply (ton_step_timing _ _ (now (mreads m))); try apply Hr; try done. cbn. lia.
  - set (m1 := scans (TON tag p) true (S n) m) in *.
    change (scans (TON tag p) true (S (S n)) m) with (eval_timer now ton_step tag p true m1).2.
    rewrite eval_timer_get.
    assert (mreads m1 = (S n + mreads m)%nat) as ->
      by (apply (scans_reads ton_step tag p); done).
    set (t := getTimer (mstate m1) tag p) in *. destruct IH as (Hp & Htick & Hst).
    destruct (tDN t) eqn:Edn.
    + unfold ton_step. rewrite Edn. cbn. rewrite Hp. split_and!; try done.
      pose proof (Hm (n + mreads m)%nat (S (n + mreads m)) ltac:(lia)). lia.
    + destruct Hst as (Htt & Hacc & Hlt).
      apply (ton_step_timing _ _ (now (n + mreads m))); try apply Hr; try done.
      by rewrite Htt.
Qed.

(** A TOF that lost its power at reading [start] and was last seen at [a]. *)
Lemma tof_step_timing t p a b start :
  0 ≤ a < 2 ^ 62 → 0 ≤ b < 2 ^ 62 → 0 ≤ start < 2 ^ 62 →
  tPreset t = p → tDN t = true → tACC t = a - start →
  (if tprevEN t then a = b else tTT t = true ∧ lastTick t = Some a) →
  let t' := tof_step t false b in
  tPreset t' = p ∧ tprevEN t' = false
  ∧ (if tDN t' then tTT t' = true ∧ lastTick t' = Some b ∧ tACC t' = b - start ∧ b - start < p
     else tTT t' = false ∧ p ≤ b - start).
Proof.
  intros Ha Hb Hs <- Hdn Hacc Hen. unfold tof_step. cbn [negb].
  assert (wraps 64 (a - start + time_sub b (Some a)) = b - start) as Hw.
  { rewrite elapsed_small by done. rewrite wraps_small; [lia|unfold in_s; lia|lia]. }
  destruct (tprevEN t); [subst a|destruct Hen as [-> ->]];
    rewrite Hacc, Hw; destruct (Z.leb_spec (tPreset t) (b - start));
    cbn; rewrite ?Hdn; split_and!; auto.
Qed.

Lemma tof_invariant tag p m n :
  clock_ok → tPreset (getTimer (mstate m) tag p) = p →
  let m1 := (evaluate now (TOF tag p) true m).2 in
  let t := getTimer (mstate (scans (TOF tag p) false (S n) m1)) tag p in
  let dt := now (n + mreads m1) - now (mreads m1) in
  tPreset t = p ∧ tprevEN t = false
  ∧ (if tDN t then tTT t = true ∧ lastTick t = Some (now (n + mreads m1))
       ∧ tACC t = dt ∧ dt < p
     else tTT t = false ∧ p ≤ dt).
Proof.
  intros [Hr Hm] Hp m1. cbn zeta.
  assert (Hm1 : ∀ q, getTimer (mstate m1) tag q
    = tof_step (getTimer (mstate m) tag p) true (now (mreads m)))
    by (intros q; unfold m1; cbn [evaluate]; apply eval_timer_get).
  clearbody m1.
  induction n as [|n IH].
  - cbn [scans evaluate]. rewrite eval_timer_get, Hm1.
    apply (tof_step_timing _ _ (now (mreads m1))); try apply Hr; try done. cbn. lia.
  - set (m2 := scans (TOF tag p) false (S n) m1) in *.
    change (scans (TOF tag p) false (S (S n)) m1)
      with (eval_timer now tof_step tag p false m2).2.
    rewrite eval_timer_get.
    assert (mreads m2 = (S n + mreads m1)%nat) as ->
      by (apply (scans_reads tof_step tag p); done).
    set (t := getTimer (mstate m2) tag p) in *. destruct IH as (Hpt & Hen & Hst).
    destruct (tDN t) eqn:Edn.
    + destruct Hst as (Htt & Htick & Hacc & Hlt).
      pose proof (tof_step_timing t p (now (n + mreads m1)) (now (S n + mreads m1))
        (now (mreads m1)) (Hr _) (Hr _) (Hr _) Hpt Edn Hacc) as Hst.
      rewrite Hen in Hst. specialize (Hst (conj Htt Htick)).
      cbn zeta in Hst. destruct (tDN (tof_step t false (now (S n + mreads m1)))); tauto.
    + destruct Hst as (Htt & Hle). unfold tof_step. rewrite Hen, Htt. cbn.
      rewrite Hpt, Edn. split_and!; try done.
      pose proof (Hm (n + mreads m1)%nat (S (n + mreads m1)) ltac:(lia)). lia.
Qed.

(** [drive es m]: evaluates elements one after the other, each with the given power. *)
Fixpoint drive (es : list (Element * bool)) (m : Machine) : Machine :=
  match es with
  | [] => m
  | (e, r) :: es' => drive es' (evaluate now e r m).2
  end.

Lemma drive_app es fs m : drive (es ++ fs) m = drive fs (drive es m).
Proof. revert m. induction es as [|[e r] es IH]; intros m; cbn; auto. Qed.

(** The rising edges of a power history, given the power before it. *)
Fixpoint edges (prev : bool) (rs : list bool) : Z :=
  match rs with
  | [] => 0
  | r :: rs' => (if r && negb prev then 1 else 0) + edges r rs'
  end.

Lemma edges_bound prev rs : 0 ≤ edges prev rs ≤ Z.of_nat (length rs).
Proof. revert prev. induction rs as [|r rs IH]; intros prev; cbn; [lia|].
  specialize (IH r). case_if; lia. Qed.

Lemma eval_counter_get step tag p q r m :
  getCounter (mstate (eval_counter step tag p r m).2) tag q
  = step (getCounter (mstate m) tag p) r.
Proof. cbn. unfold getCounter at 1, setCounter. cbn. by rewrite lookup_insert_eq. Qed.

Lemma ctu_counts tag p rs m :
  cPreset (getCounter (mstate m) tag p) = p →
  0 ≤ cACC (getCounter (mstate m) tag p) →
  cACC (getCounter (mstate m) tag p) + Z.of_nat (length rs) < 2 ^ 63 →
  (cDN (getCounter (mstate m) tag p) = true → p ≤ cACC (getCounter (mstate m) tag p)) →
  let c := getCounter (mstate m) tag p in
  let c' := getCounter (mstate (drive ((λ r, (CTU tag p, r)) <$> rs) m)) tag p in
  cPreset c' = p ∧ cACC c' = cACC c + edges (cprevEN c) rs
  ∧ (rs ≠ [] → cDN c' = (p <=? cACC c')).
Proof.
  revert m. induction rs as [|r rs IH]; intros m Hp Hpos Hb Hdn; cbn zeta.
  { cbn. split_and!; [done|lia|done]. }
  cbn [fmap list_fmap drive fst snd evaluate edges length] in *.
  set (m' := (eval_counter ctu_step tag p r m).2).
  assert (Hc : getCounter (mstate m') tag p = ctu_step (getCounter (mstate m) tag p) r)
    by apply eval_counter_get.
  set (c := getCounter (mstate m) tag p) in *.
  assert (Hacc : cACC (ctu_step c r) = cACC c + (if r && negb (cprevEN c) then 1 else 0)).
  { unfold ctu_step. cbn. case_if; [|lia]. apply wraps_small; [unfold in_s; lia|lia]. }
  assert (Hdn' : cDN (ctu_step c r) = (p <=? cACC (ctu_step c r))).
  { unfold ctu_step in *. cbn in *. rewrite Hp, Hacc.
    destruct (cDN c); [|apply orb_false_r]. rewrite orb_true_r.
    specialize (Hdn eq_refl). symmetry. apply Z.leb_le. case_if; lia. }
  specialize (IH m'). rewrite Hc in IH. cbn zeta in IH.
  destruct IH as (IH1 & IH2 & IH3).
  { unfold ctu_step. done. }
  { rewrite Hacc. case_if; lia. }
  { rewrite Hacc. case_if; lia. }
  { rewrite Hdn'. apply Z.leb_le. }
  split_and!; [done| |].
  - rewrite IH2, Hacc. unfold ctu_step. cbn. lia.
  - intros _. destruct rs as [|r' rs]; [|by apply IH3].
    cbn [fmap list_fmap drive]. by rewrite Hc.
Qed.

(** A count-down counter driven by CTD and RES never holds a positive value. *)
Definition ctd_ops (tag : string) (e : Element) : Prop :=
  match e with CTD t _ => t = tag | RES t => t = tag | _ => False end.

Lemma ctd_op_step tag e r m :
  ctd_ops tag e →
  let ACC m := cACC (getCounter (mstate m) tag 0) in
  - 2 ^ 63 < ACC m ≤ 0 → ACC m - 1 ≤ ACC (evaluate now e r m).2 ≤ 0.
Proof.
  cbn zeta. intros He Hm. assert (Hq : ∀ q s, cACC (getCounter s tag q) = cACC (getCounter s tag 0)).
  { intros q s. unfold getCounter. by destruct (counters s !! tag). }
  destruct e; cbn in He; try done; subst.
  - cbn [evaluate]. rewrite eval_counter_get. unfold ctd_step. cbn. rewrite (Hq preset).
    case_if; [|lia]. rewrite wraps_small; [lia|unfold in_s; lia|lia].
  - cbn. unfold res_step. destruct r; [|lia].
    enough (H : cACC (getCounter (match counters (mstate m) !! tag with
        | Some c => setCounter (mstate m) tag (res_counter c) | None => mstate m end) tag 0) = 0).
    { repeat case_match; unfold getCounter, setTimer in *; cbn in *; lia. }
    unfold getCounter. destruct (counters (mstate m) !! tag) as [c|] eqn:E.
    + cbn. by rewrite lookup_insert_eq.
    + by rewrite E.
Qed.

Lemma ctd_nonpositive tag ops m :
  let ACC m := cACC (getCounter (mstate m) tag 0) in
  Forall (λ er, ctd_ops tag er.1) ops → - 2 ^ 63 + Z.of_nat (length ops) < ACC m ≤ 0 →
  - 2 ^ 63 < ACC (drive ops m) ≤ 0.
Proof.
  cbn zeta. intros Hops. revert m.
  induction Hops as [|[e r] ops He _ IH]; intros m Hm; [cbn in *; lia|].
  cbn [drive length fst] in *. pose proof (ctd_op_step tag e r m He) as Hs. cbn zeta in Hs.
  apply IH. lia.
Qed.

End Facts.

(** ** The scan cycle *)

Lemma sync_in_lookup vars s id :
  tags (sync_in vars s) !! id =
  match vars !! id with Some v => Some (BoolValue v) | None => tags s !! id end.
Proof.
  unfold sync_in. revert id.
  apply (map_fold_weak_ind (λ s' vars, ∀ id, tags s' !! id =
    match vars !! id with Some v => Some (BoolValue v) | None => tags s !! id end));
    [intros id; by rewrite lookup_empty|].
  intros i x vs r Hi IH id. cbn. destruct (decide (i = id)) as [->|Hne].
  - by rewrite !lookup_insert_eq.
  - by rewrite !lookup_insert_ne by done.
Qed.

Lemma sync_out_lookup s vars id :
  sync_out s vars !! id =
  match vars !! id, tags s !! id with
  | Some v, Some b => Some {| vvalue := VBool b; vdatatype := vdatatype v |}
  | o, _ => o
  end.
Proof.
  unfold sync_out. set (f := λ id (_ : Variable') acc, _).
  enough (H : ∀ id, map_fold f vars vars !! id = match vars !! id with
    | Some _ => match vars !! id, tags s !! id with
       | Some v, Some b => Some {| vvalue := VBool b; vdatatype := vdatatype v |}
       | o, _ => o end
    | None => vars !! id end).
  { rewrite H. by destruct (vars !! id). }
  apply (map_fold_weak_ind (λ acc vs, ∀ id, acc !! id = match vs !! id with
    | Some _ => match vars !! id, tags s !! id with
       | Some v, Some b => Some {| vvalue := VBool b; vdatatype := vdatatype v |}
       | o, _ => o end
    | None => vars !! id end));
    [intros i; by rewrite lookup_empty|].
  clear id. intros i x vs r Hi IH id. unfold f, update.
  pose proof (IH i) as IHi. rewrite Hi in IHi.
  destruct (decide (i = id)) as [->|Hne].
  - rewrite lookup_insert_eq. destruct (tags s !! id) as [b|]; rewrite ?IHi.
    + destruct (vars !! id); [by rewrite lookup_insert_eq|done].
    + by destruct (vars !! id).
  - rewrite lookup_insert_ne, <- IH by done.
    destruct (tags s !! i); [|done]. destruct (r !! i); [|done]. by rewrite lookup_insert_ne.
Qed.

(** ** Properties *)
Section Properties.
Variable now : nat → Z.

(** on-delay timer. With power held on from scan to scan, a fresh TON turns its
    output on exactly at the first scan whose clock reading is at least the preset
    after the reading of the first scan. *)
Theorem ton_on_delay (tag : string) (preset : Z) (m : Machine) (n : nat) :
  clock_ok now → timers (mstate m) !! tag = None →
  (evaluate now (TON tag preset) true (scans now (TON tag preset) true n m)).1
  = (preset <=? now (n + mreads m)%nat - now (mreads m)).
Proof.
  intros Hclk Hfresh.
  pose proof (ton_invariant now tag preset m n Hclk Hfresh) as (_ & _ & Hdn).
  cbn [scans] in Hdn. cbn [evaluate] in *. rewrite eval_timer_get in Hdn.
  rewrite eval_timer_result. symmetry.
  destruct (tDN _); [apply Z.leb_le; lia|apply Z.leb_gt; lia].
Qed.

(** losing power resets an on-delay timer at once: the output is off, nothing is
    accumulated, and a later rising edge starts timing from zero. *)
Theorem ton_power_loss_resets (tag : string) (preset : Z) (m : Machine) :
  let '(out, m') := evaluate now (TON tag preset) false m in
  let t := getTimer (mstate m') tag preset in
  out = false ∧ tACC t = 0 ∧ tEN t = false ∧ tTT t = false
  ∧ ∀ nw, tACC (ton_step t true nw) = 0.
Proof.
  pose proof (eval_timer_get now ton_step tag preset preset false m) as H.
  cbn [evaluate]. destruct (eval_timer now ton_step tag preset false m) as [out m'] eqn:E.
  cbn [snd] in H. cbn zeta. rewrite H. apply (f_equal fst) in E. cbn in E. subst out.
  split_and!; try done. intros nw. unfold ton_step. cbn.
  replace (nw - nw) with 0 by lia. case_if; done.
Qed.

(** off-delay timer. After a scan with power, and power off from then on, the
    output of a TOF stays on exactly until the first scan whose clock reading is at
    least the preset after the reading of the first scan without power. *)
Theorem tof_off_delay (tag : string) (preset : Z) (m : Machine) (n : nat) :
  clock_ok now → tPreset (getTimer (mstate m) tag preset) = preset →
  let m1 := (evaluate now (TOF tag preset) true m).2 in
  (evaluate now (TOF tag preset) true m).1 = true ∧
  (evaluate now (TOF tag preset) false (scans now (TOF tag preset) false n m1)).1
  = (now (n + mreads m1)%nat - now (mreads m1) <? preset).
Proof.
  intros Hclk Hp m1. split; [done|].
  pose proof (tof_invariant now tag preset m n Hclk Hp) as (_ & _ & Hdn).
  fold m1 in Hdn. cbn [scans] in Hdn.
  change (evaluate now (TOF tag preset) false (scans now (TOF tag preset) false n m1))
    with (eval_timer now tof_step tag preset false (scans now (TOF tag preset) false n m1)) in *.
  rewrite eval_timer_get in Hdn. rewrite eval_timer_result. symmetry.
  destruct (tDN _); [apply Z.ltb_lt; lia|apply Z.ltb_ge; lia].
Qed.

(** count up. A fresh CTU counts the rising edges of its power, whatever the
    scan pattern, and its output is on exactly when the count has reached the
    preset. *)
Theorem ctu_counts_rising_edges (tag : string) (preset : Z) (m : Machine)
    (rs : list bool) (r : bool) :
  counters (mstate m) !! tag = None → Z.of_nat (length rs) < 2 ^ 62 →
  let m' := drive now ((λ r, (CTU tag preset, r)) <$> rs) m in
  (evaluate now (CTU tag preset) r m').1 = (preset <=? edges false (rs ++ [r]))
  ∧ cACC (getCounter (mstate m') tag preset) = edges false rs.
Proof.
  intros Hfresh Hl. cbn zeta.
  assert (Hc : getCounter (mstate m) tag preset = newCounter preset)
    by (unfold getCounter; by rewrite Hfresh).
  assert (Hrun : ∀ rs', Z.of_nat (length rs') < 2 ^ 63 →
    let c' := getCounter (mstate (drive now ((λ r, (CTU tag preset, r)) <$> rs') m)) tag preset in
    cACC c' = edges false rs' ∧ (rs' ≠ [] → cDN c' = (preset <=? edges false rs'))).
  { intros rs' Hl'. pose proof (ctu_counts now tag preset rs' m) as H.
    rewrite Hc in H. cbn in H. cbn zeta.
    destruct H as (_ & H1 & H2); [done|lia|lia|done|]. split; [lia|]. intros Hn. rewrite (H2 Hn). f_equal. lia. }
  split; [|apply Hrun; lia].
  destruct (Hrun (rs ++ [r])) as [_ H]; [rewrite length_app; cbn; lia|].
  rewrite <- H by (by destruct rs). rewrite fmap_app, drive_app. cbn [fmap list_fmap drive].
  by rewrite (eval_counter_get ctd_step) || (cbn [evaluate]; rewrite eval_counter_get).
Qed.

(** the count-down instruction never counts down from its preset: in a program
    where only CTD and RES touch the counter, every CTD evaluation reports done,
    from the very first scan and whatever the preset, because the accumulator
    starts at zero and is never loaded. *)
Theorem ctd_always_done (tag : string) (preset : Z) (m : Machine)
    (ops : list (Element * bool)) (r : bool) :
  counters (mstate m) !! tag = None → Forall (λ er, ctd_ops tag er.1) ops →
  Z.of_nat (length ops) < 2 ^ 62 →
  (evaluate now (CTD tag preset) r (drive now ops m)).1 = true.
Proof.
  intros Hfresh Hops Hl.
  assert (H0 : cACC (getCounter (mstate m) tag 0) = 0)
    by (unfold getCounter; by rewrite Hfresh).
  pose proof (ctd_nonpositive now tag ops m Hops ltac:(cbn zeta; lia)) as Hm.
  cbn zeta in Hm. cbn [evaluate eval_counter fst].
  assert (Hq : cACC (getCounter (mstate (drive now ops m)) tag preset)
    = cACC (getCounter (mstate (drive now ops m)) tag 0))
    by (unfold getCounter; by destruct (counters (mstate (drive now ops m)) !! tag)).
  unfold ctd_step. cbn. rewrite Hq. apply orb_true_intro. left. apply Z.leb_le.
  case_if; [|lia]. rewrite wraps_small; [lia|unfold in_s; lia|lia].
Qed.

(** a network of contacts computes its boolean function: series is conjunction,
    branch is disjunction, for any nesting, and evaluating it changes nothing. *)
Theorem contacts_are_boolean (e : Element) (r : bool) (m : Machine) :
  contact_only e = true → evaluate now e r m = (r && denote (mstate m) e, m).
Proof. intros. by apply eval_contacts. Qed.

(** a scan writes no tag but those of its coils and of the PLC variables it
    reads: any other tag keeps its value across the whole scan. *)
Theorem scan_frame (rungs : list (list Element)) (vars : gmap string Variable')
    (m : Machine) (t : string) :
  t ∉ concat (map seq_coils rungs) → vars !! t = None →
  tags (mstate (scan now rungs vars m).2) !! t = tags (mstate m) !! t.
Proof.
  intros Hnot Hv. unfold scan. cbn [snd].
  rewrite (eval_rungs_frame now t rungs _ Hnot). cbn.
  by rewrite sync_in_lookup, Hv.
Qed.

(** a scan turns every PLC variable into a boolean: a number, string or UDT that
    no coil writes is overwritten with false when the tags are copied back. *)
Theorem scan_overwrites_non_booleans (rungs : list (list Element))
    (vars : gmap string Variable') (m : Machine) (id : string) (v : Variable') :
  vars !! id = Some v →
  (∃ b, (scan now rungs vars m).1 !! id = Some {| vvalue := VBool b; vdatatype := vdatatype v |})
  ∧ (id ∉ concat (map seq_coils rungs) →
     (scan now rungs vars m).1 !! id
     = Some {| vvalue := VBool (BoolValue v); vdatatype := vdatatype v |}).
Proof.
  intros Hv. unfold scan. cbn [fst]. rewrite sync_out_lookup, Hv. split.
  - destruct (tags (mstate (eval_rungs now rungs _)) !! id) as [b|] eqn:E; [by exists b|].
    destruct (eval_rungs_defined now id rungs (with_state m (sync_in vars (mstate m))))
      as [b Hb]; [cbn; rewrite sync_in_lookup, Hv; eauto|]. congruence.
  - intros Hnot. rewrite (eval_rungs_frame now id rungs _ Hnot). cbn.
    by rewrite sync_in_lookup, Hv.
Qed.

(** a rung of contacts ending in a coil computes a variable: one scan sets the
    variable to the boolean function of the contacts at the values the variables
    had before the scan, which is how a seal-in circuit works. *)
Theorem coil_rung_computes (es : list Element) (vars : gmap string Variable')
    (m : Machine) (t : string) (v : Variable') :
  contact_only (Series es) = true → vars !! t = Some v →
  (scan now [es ++ [OTE t]] vars m).1 !! t
  = Some {| vvalue := VBool (denote (sync_in vars (mstate m)) (Series es));
            vdatatype := vdatatype v |}
  ∧ ∀ id w, vars !! id = Some w → getTag (sync_in vars (mstate m)) id = BoolValue w.
Proof.
  intros Hc Hv. split.
  - unfold scan. cbn [fst eval_rungs]. rewrite sync_out_lookup, Hv.
    rewrite eval_seq_app, <- evaluate_Series, (eval_contacts now _ _ Hc). cbn.
    by rewrite lookup_insert_eq.
  - intros id w Hw. unfold getTag. by rewrite sync_in_lookup, Hw.
Qed.

End Properties.

(** ** Witnesses *)
Section Witnesses.

(** A clock that advances by 10 time units per reading. *)
Definition clock10 (i : nat) : Z := Z.min (10 * Z.of_nat i) 1000000.

Lemma clock10_ok : clock_ok clock10.
Proof. unfold clock10. split; intros; lia. Qed.

Lemma ton_on_delay_witness :
  (evaluate clock10 (TON "t" 25) true (scans clock10 (TON "t" 25) true 3 machine0)).1
  = (25 <=? 30).
Proof. exact (ton_on_delay clock10 "t" 25 machine0 3 clock10_ok eq_refl). Defined.

Lemma tof_off_delay_witness :
  let m1 := (evaluate clock10 (TOF "t" 25) true machine0).2 in
  (evaluate clock10 (TOF "t" 25) true machine0).1 = true ∧
  (evaluate clock10 (TOF "t" 25) false (scans clock10 (TOF "t" 25) false 2 m1)).1
  = (20 <? 25).
Proof. exact (tof_off_delay clock10 "t" 25 machine0 2 clock10_ok eq_refl). Defined.

Lemma ctu_counts_rising_edges_witness :
  let m' := drive clock10 ((λ r, (CTU "c" 2, r)) <$> [true; true; false]) machine0 in
  (evaluate clock10 (CTU "c" 2) true m').1 = true
  ∧ cACC (getCounter (mstate m') "c" 2) = 1.
Proof.
  exact (ctu_counts_rising_edges clock10 "c" 2 machine0 [true; true; false] true eq_refl
    ltac:(cbn; lia)).
Defined.

Lemma ctd_always_done_witness :
  (evaluate clock10 (CTD "c" 5) false
    (drive clock10 [(CTD "c" 5, true); (RES "c", true)] machine0)).1 = true.
Proof.
  exact (ctd_always_done clock10 "c" 5 machine0 [(CTD "c" 5, true); (RES "c", true)] false
    eq_refl ltac:(repeat constructor) ltac:(cbn; lia)).
Defined.

Lemma contacts_are_boolean_witness :
  evaluate clock10 (Series [NC "a"; Branch [[NO "b"]; [NC "c"]]]) true machine0
  = (true, machine0).
Proof. exact (contacts_are_boolean clock10 (Series [NC "a"; Branch [[NO "b"]; [NC "c"]]]) true machine0 eq_refl). Defined.

Definition boolVar (b : bool) : Variable' := {| vvalue := VBool b; vdatatype := "boolean" |}.

Definition motor_vars : gmap string Variable' :=
  {[ "start" := boolVar true; "stop" := boolVar false; "motor" := boolVar false;
     "speed" := {| vvalue := VFloat64 4636737291354636288; vdatatype := "number" |} ]}.

Definition motor_contacts : list Element :=
  [Branch [[NO "start"]; [NO "motor"]]; NC "stop"].

Lemma scan_frame_witness :
  tags (mstate (scan clock10 [motor_contacts ++ [OTE "motor"]] motor_vars machine0).2) !! "x"
  = None.
Proof.
  exact (scan_frame clock10 [motor_contacts ++ [OTE "motor"]] motor_vars machine0 "x"
    ltac:(vm_compute; set_solver) eq_refl).
Defined.

Lemma scan_overwrites_non_booleans_witness :
  (scan clock10 [motor_contacts ++ [OTE "motor"]] motor_vars machine0).1 !! "speed"
  = Some {| vvalue := VBool false; vdatatype := "number" |}.
Proof.
  exact (proj2 (scan_overwrites_non_booleans clock10 [motor_contacts ++ [OTE "motor"]]
    motor_vars machine0 "speed" _ eq_refl) ltac:(vm_compute; set_solver)).
Defined.

Lemma coil_rung_computes_witness :
  (scan clock10 [motor_contacts ++ [OTE "motor"]] motor_vars machine0).1 !! "motor"
  = Some (boolVar true).
Proof.
  exact (proj1 (coil_rung_computes clock10 motor_contacts motor_vars machine0 "motor" _
    eq_refl eq_refl)).
Defined.

End Witnesses.
