(* ===== verification/StLexer.v ===== *)
(** Structured Text tokens and lexer: internal/plc/st/token.go and lexer.go.

    [lx_rest] is [l.input[l.pos:]]; advancing drops from it, so [l.pos] itself
    needs no field. The loops run on fuel and return [None] when it is exhausted,
    which [Lex_some] excludes. *)

From S2P Require Export Prelude GoText.

#[local] Open Scope Z_scope.

(** ** token.go *)

Inductive TokenType : Set :=
  | TokenEOF | TokenIdent | TokenNumber | TokenString | TokenTimeLiteral
  | TokenProgram | TokenEndProgram | TokenVar | TokenVarInput | TokenVarOutput
  | TokenEndVar | TokenIf | TokenThen | TokenElsif | TokenElse | TokenEndIf
  | TokenFor | TokenTo | TokenBy | TokenDo | TokenEndFor | TokenWhile
  | TokenEndWhile | TokenRepeat | TokenUntil | TokenEndRepeat | TokenCase
  | TokenOf | TokenEndCase | TokenReturn | TokenTrue | TokenFalse | TokenAnd
  | TokenOr | TokenNot | TokenXor | TokenMod
  | TokenInt | TokenReal | TokenBool | TokenStringType | TokenDint | TokenLreal
  | TokenAssign | TokenEqual | TokenNotEqual | TokenLess | TokenLessEq
  | TokenGreater | TokenGreaterEq | TokenPlus | TokenMinus | TokenStar
  | TokenSlash | TokenLParen | TokenRParen | TokenSemicolon | TokenColon
  | TokenComma | TokenDot | TokenHash.

(** All token types in the order of the [iota] declaration. *)
Definition token_types : list TokenType :=
  [TokenEOF; TokenIdent; TokenNumber; TokenString; TokenTimeLiteral;
   TokenProgram; TokenEndProgram; TokenVar; TokenVarInput; TokenVarOutput;
   TokenEndVar; TokenIf; TokenThen; TokenElsif; TokenElse; TokenEndIf;
   TokenFor; TokenTo; TokenBy; TokenDo; TokenEndFor; TokenWhile;
   TokenEndWhile; TokenRepeat; TokenUntil; TokenEndRepeat; TokenCase;
   TokenOf; TokenEndCase; TokenReturn; TokenTrue; TokenFalse; TokenAnd;
   TokenOr; TokenNot; TokenXor; TokenMod;
   TokenInt; TokenReal; TokenBool; TokenStringType; TokenDint; TokenLreal;
   TokenAssign; TokenEqual; TokenNotEqual; TokenLess; TokenLessEq;
   TokenGreater; TokenGreaterEq; TokenPlus; TokenMinus; TokenStar;
   TokenSlash; TokenLParen; TokenRParen; TokenSemicolon; TokenColon;
   TokenComma; TokenDot; TokenHash].

(** The integer value of a token type, which error messages print. *)
Definition token_num (t : TokenType) : nat :=
  match t with
  | TokenEOF => 0 | TokenIdent => 1 | TokenNumber => 2 | TokenString => 3
  | TokenTimeLiteral => 4 | TokenProgram => 5 | TokenEndProgram => 6 | TokenVar => 7
  | TokenVarInput => 8 | TokenVarOutput => 9 | TokenEndVar => 10 | TokenIf => 11
  | TokenThen => 12 | TokenElsif => 13 | TokenElse => 14 | TokenEndIf => 15
  | TokenFor => 16 | TokenTo => 17 | TokenBy => 18 | TokenDo => 19 | TokenEndFor => 20
  | TokenWhile => 21 | TokenEndWhile => 22 | TokenRepeat => 23 | TokenUntil => 24
  | TokenEndRepeat => 25 | TokenCase => 26 | TokenOf => 27 | TokenEndCase => 28
  | TokenReturn => 29 | TokenTrue => 30 | TokenFalse => 31 | TokenAnd => 32
  | TokenOr => 33 | TokenNot => 34 | TokenXor => 35 | TokenMod => 36 | TokenInt => 37
  | TokenReal => 38 | TokenBool => 39 | TokenStringType => 40 | TokenDint => 41
  | TokenLreal => 42 | TokenAssign => 43 | TokenEqual => 44 | TokenNotEqual => 45
  | TokenLess => 46 | TokenLessEq => 47 | TokenGreater => 48 | TokenGreaterEq => 49
  | TokenPlus => 50 | TokenMinus => 51 | TokenStar => 52 | TokenSlash => 53
  | TokenLParen => 54 | TokenRParen => 55 | TokenSemicolon => 56 | TokenColon => 57
  | TokenComma => 58 | TokenDot => 59 | TokenHash => 60
  end%nat.

Lemma token_types_num t : token_types !! token_num t = Some t.
Proof. by destruct t. Qed.

#[export] Instance token_num_inj : Inj (=) (=) token_num.
Proof.
  intros t u H. pose proof (token_types_num t) as Ht. rewrite H, token_types_num in Ht.
  congruence.
Qed.

Definition tt_eqb (t u : TokenType) : bool := (token_num t =? token_num u)%nat.

#[export] Instance TokenType_eq_dec : EqDecision TokenType.
Proof.
  intros t u. destruct (decide (token_num t = token_num u)) as [H|H].
  - left. by apply token_num_inj.
  - right. congruence.
Defined.

Lemma tt_eqb_spec t u : reflect (t = u) (tt_eqb t u).
Proof.
  unfold tt_eqb. destruct (Nat.eqb_spec (token_num t) (token_num u)); constructor.
  - by apply token_num_inj.
  - congruence.
Qed.

Record Token := mkToken {
  Type_ : TokenType;
  Literal : string;
  Line : Z;
  Col : Z;
}.

Definition keywords : list (string * TokenType) :=
  [("PROGRAM", TokenProgram); ("END_PROGRAM", TokenEndProgram); ("VAR", TokenVar);
   ("VAR_INPUT", TokenVarInput); ("VAR_OUTPUT", TokenVarOutput); ("END_VAR", TokenEndVar);
   ("IF", TokenIf); ("THEN", TokenThen); ("ELSIF", TokenElsif); ("ELSE", TokenElse);
   ("END_IF", TokenEndIf); ("FOR", TokenFor); ("TO", TokenTo); ("BY", TokenBy);
   ("DO", TokenDo); ("END_FOR", TokenEndFor); ("WHILE", TokenWhile);
   ("END_WHILE", TokenEndWhile); ("REPEAT", TokenRepeat); ("UNTIL", TokenUntil);
   ("END_REPEAT", TokenEndRepeat); ("CASE", TokenCase); ("OF", TokenOf);
   ("END_CASE", TokenEndCase); ("RETURN", TokenReturn); ("TRUE", TokenTrue);
   ("FALSE", TokenFalse); ("AND", TokenAnd); ("OR", TokenOr); ("NOT", TokenNot);
   ("XOR", TokenXor); ("MOD", TokenMod); ("INT", TokenInt); ("REAL", TokenReal);
   ("BOOL", TokenBool); ("STRING", TokenStringType); ("DINT", TokenDint);
   ("LREAL", TokenLreal)].

(** The map lookup [keywords[upper]]. *)
Definition keyword (upper : string) : option TokenType :=
  '(_, (_, ty)) ← list_find (λ kv, kv.1 = upper) keywords; Some ty.

(** ** lexer.go *)

Record Lexer := mkLexer {
  lx_rest : list ascii;
  lx_line : Z;
  lx_col : Z;
  lx_tokens : list Token;
}.

Definition nl : ascii := "010"%char.
Definition squote : ascii := "039"%char.

Definition isDigit (ch : ascii) : bool := in_range 48 57 (byte_of ch).

(** [unicode.IsLetter] on the Latin-1 rune of one byte. *)
Definition is_letter (ch : ascii) : bool :=
  let b := byte_of ch in
  in_range 65 90 b || in_range 97 122 b || (b =? 0xAA) || (b =? 0xB5) || (b =? 0xBA)
  || in_range 0xC0 0xD6 b || in_range 0xD8 0xF6 b || in_range 0xF8 0xFF b.

Definition isIdentStart (ch : ascii) : bool := is_letter ch || Ascii.eqb ch "_".
Definition isIdentPart (ch : ascii) : bool :=
  is_letter ch || isDigit ch || Ascii.eqb ch "_".

(** [l.peek(1)]: a zero byte beyond the end. *)
Definition lpeek1 (rest : list ascii) : ascii := nth 1 rest "000"%char.

Definition ladvance (l : Lexer) (n : nat) : Lexer :=
  mkLexer (drop n (lx_rest l)) (lx_line l) (lx_col l + Z.of_nat n) (lx_tokens l).

Definition push (l : Lexer) (tt : TokenType) (lit : string) : Lexer :=
  mkLexer (lx_rest l) (lx_line l) (lx_col l)
    (lx_tokens l ++ [mkToken tt lit (lx_line l) (lx_col l)]).

Definition emit (l : Lexer) (tt : TokenType) (lit : string) (width : nat) : Lexer :=
  ladvance (push l tt lit) width.

(** The body of a block comment: the loop stops at the last byte of the input
    when the comment is not closed. *)
Fixpoint skip_block (rest : list ascii) (line col : Z) : list ascii * Z * Z :=
  match rest with
  | c1 :: ((c2 :: r2) as r1) =>
      if Ascii.eqb c1 "*" && Ascii.eqb c2 ")" then (r2, line, col + 2)
      else if Ascii.eqb c1 nl then skip_block r1 (line + 1) 1
      else skip_block r1 line (col + 1)
  | _ => (rest, line, col)
  end.

(** The longest prefix whose bytes satisfy [p], and what follows it. *)
Fixpoint span (p : ascii → bool) (l : list ascii) : list ascii * list ascii :=
  match l with
  | c :: l' => if p c then let '(a, b) := span p l' in (c :: a, b) else ([], l)
  | [] => ([], [])
  end.

(** A loop [for l.pos < len(l.input) && p(l.input[l.pos]) { l.advance(1) }] and
    the bytes it passed. *)
Definition advance_while (p : ascii → bool) (l : Lexer) : list ascii * Lexer :=
  let lit := (span p (lx_rest l)).1 in (lit, ladvance l (length lit)).

Fixpoint skipWhitespaceAndComments (fuel : nat) (l : Lexer) : option Lexer :=
  match fuel with
  | O => None
  | S n =>
      match lx_rest l with
      | [] => Some l
      | ch :: rest' =>
          if Ascii.eqb ch " " || Ascii.eqb ch "009" || Ascii.eqb ch "013" then
            skipWhitespaceAndComments n (ladvance l 1)
          else if Ascii.eqb ch nl then
            skipWhitespaceAndComments n (mkLexer rest' (lx_line l + 1) 1 (lx_tokens l))
          else if Ascii.eqb ch "(" && Ascii.eqb (lpeek1 (lx_rest l)) "*" then
            let l1 := ladvance l 2 in
            let '(rest, line, col) := skip_block (lx_rest l1) (lx_line l1) (lx_col l1) in
            skipWhitespaceAndComments n (mkLexer rest line col (lx_tokens l))
          else if Ascii.eqb ch "/" && Ascii.eqb (lpeek1 (lx_rest l)) "/" then
            skipWhitespaceAndComments n (advance_while (λ c, negb (Ascii.eqb c nl)) l).2
          else Some l
      end
  end.

Definition lexString (l : Lexer) : Lexer :=
  let '(lit, l1) := advance_while (λ c, negb (Ascii.eqb c squote)) (ladvance l 1) in
  let l2 := match lx_rest l1 with [] => l1 | _ => ladvance l1 1 end in
  push l2 TokenString (str lit).

(** The optional exponent of a number. *)
Definition lexExponent (l : Lexer) : list ascii * Lexer :=
  match lx_rest l with
  | e :: rest' =>
      if Ascii.eqb e "e" || Ascii.eqb e "E" then
        let l1 := ladvance l 1 in
        let '(sgn, l2) :=
          match lx_rest l1 with
          | s :: _ => if Ascii.eqb s "+" || Ascii.eqb s "-" then ([s], ladvance l1 1)
                      else ([], l1)
          | [] => ([], l1)
          end in
        let '(ds, l3) := advance_while isDigit l2 in
        (e :: sgn ++ ds, l3)
      else ([], l)
  | [] => ([], l)
  end.

Definition lexNumber (l : Lexer) : Lexer :=
  let '(m, l1) := advance_while (λ c, isDigit c || Ascii.eqb c ".") l in
  let '(e, l2) := lexExponent l1 in
  push l2 TokenNumber (str (m ++ e)).

Section Lex.
Context `{UnicodeTables}.

Definition lexIdentOrKeyword (l : Lexer) : Lexer :=
  let '(lit, l1) := advance_while isIdentPart l in
  let upper := to_upper (str lit) in
  let plain :=
    match keyword upper with
    | Some ty => push l1 ty (str lit)
    | None => push l1 TokenIdent (str lit)
    end in
  match lx_rest l1 with
  | c :: _ =>
      if String.eqb upper "T" && Ascii.eqb c "#" then
        let '(tlit, l2) := advance_while (λ c, isDigit c || isIdentPart c) (ladvance l1 1) in
        push l2 TokenTimeLiteral (str tlit)
      else plain
  | [] => plain
  end.

(** The [switch] of [lex] on the next byte. *)
Definition lex_token (l : Lexer) (ch : ascii) : Lexer :=
  let nx := lpeek1 (lx_rest l) in
  if Ascii.eqb ch ":" && Ascii.eqb nx "=" then emit l TokenAssign ":=" 2
  else if Ascii.eqb ch "<" && Ascii.eqb nx ">" then emit l TokenNotEqual "<>" 2
  else if Ascii.eqb ch "<" && Ascii.eqb nx "=" then emit l TokenLessEq "<=" 2
  else if Ascii.eqb ch ">" && Ascii.eqb nx "=" then emit l TokenGreaterEq ">=" 2
  else if Ascii.eqb ch "<" then emit l TokenLess "<" 1
  else if Ascii.eqb ch ">" then emit l TokenGreater ">" 1
  else if Ascii.eqb ch "=" then emit l TokenEqual "=" 1
  else if Ascii.eqb ch "+" then emit l TokenPlus "+" 1
  else if Ascii.eqb ch "-" then emit l TokenMinus "-" 1
  else if Ascii.eqb ch "*" then emit l TokenStar "*" 1
  else if Ascii.eqb ch "/" then emit l TokenSlash "/" 1
  else if Ascii.eqb ch "(" then emit l TokenLParen "(" 1
  else if Ascii.eqb ch ")" then emit l TokenRParen ")" 1
  else if Ascii.eqb ch ";" then emit l TokenSemicolon ";" 1
  else if Ascii.eqb ch ":" then emit l TokenColon ":" 1
  else if Ascii.eqb ch "," then emit l TokenComma "," 1
  else if Ascii.eqb ch "." then emit l TokenDot "." 1
  else if Ascii.eqb ch "#" then emit l TokenHash "#" 1
  else if Ascii.eqb ch squote then lexString l
  else if isDigit ch then lexNumber l
  else if isIdentStart ch then lexIdentOrKeyword l
  else ladvance l 1.

(** The loop of [lex]. *)
Fixpoint lex_loop (fuel : nat) (l : Lexer) : option Lexer :=
  match fuel with
  | O => None
  | S n =>
      match lx_rest l with
      | [] => Some l
      | _ =>
          l1 ← skipWhitespaceAndComments (S (length (lx_rest l))) l;
          match lx_rest l1 with
          | [] => Some l1
          | ch :: _ => lex_loop n (lex_token l1 ch)
          end
      end
  end.

Definition Lex (input : string) : option (list Token) :=
  l ← lex_loop (S (str_len input)) (mkLexer (chars input) 1 1 []);
  Some (lx_tokens l ++ [mkToken TokenEOF "" (lx_line l) (lx_col l)]).

End Lex.

Example Lex_ex : let _ := ascii_tables in
  (map (λ t, (Type_ t, Literal t, Line t, Col t)) <$>
    Lex ("x := T#5s; (* c *) // d" +:+ str [nl] +:+ "IF a<>1.5e3 Then"))
  = Some [(TokenIdent, "x", 1, 2); (TokenAssign, ":=", 1, 3);
          (TokenTimeLiteral, "5s", 1, 10); (TokenSemicolon, ";", 1, 10);
          (TokenIf, "IF", 2, 3); (TokenIdent, "a", 2, 5); (TokenNotEqual, "<>", 2, 5);
          (TokenNumber, "1.5e3", 2, 12); (TokenThen, "Then", 2, 17); (TokenEOF, "", 2, 17)].
Proof. vm_compute. reflexivity. Qed.

(** ** Every step consumes input and appends tokens *)

(** [advances l l']: [l'] follows [l] after consuming at least one byte and
    appending tokens other than the end of file. *)
Definition advances (l l' : Lexer) : Prop :=
  (length (lx_rest l') < length (lx_rest l))%nat ∧
  ∃ ts, lx_tokens l' = lx_tokens l ++ ts ∧ Forall (λ t, Type_ t ≠ TokenEOF) ts.

Lemma span_app p l : (span p l).1 ++ (span p l).2 = l.
Proof.
  induction l as [|c l IH]; [done|]. cbn. destruct (p c); [|done].
  destruct (span p l) as [a b]. cbn in *. by rewrite IH.
Qed.

Lemma span_drop p l : drop (length (span p l).1) l = (span p l).2.
Proof. rewrite <- (span_app p l) at 2. by rewrite drop_app_length. Qed.

Lemma span_stop p a c b : Forall (λ x, p x = true) a → p c = false →
  span p (a ++ c :: b) = (a, c :: b).
Proof.
  intros Ha Hc. induction Ha as [|x a Hx _ IH]; cbn; [by rewrite Hc|]. by rewrite Hx, IH.
Qed.

Lemma keyword_not_eof s ty : keyword s = Some ty → ty ≠ TokenEOF.
Proof.
  unfold keyword. destruct (list_find _ keywords) as [[i [k ty']]|] eqn:E; cbn; [|done].
  intros [= ->] ->. apply list_find_Some in E as (E & _ & _).
  assert (H : Forall (λ kv, kv.2 ≠ TokenEOF) keywords) by (vm_compute; repeat constructor; done).
  rewrite Forall_lookup in H. by apply (H _ _ E).
Qed.

Lemma advance_while_rest p l : lx_rest (advance_while p l).2 = (span p (lx_rest l)).2.
Proof. apply span_drop. Qed.

Lemma length_advance_while p l :
  (length (lx_rest (advance_while p l).2) ≤ length (lx_rest l))%nat.
Proof. cbn. rewrite length_drop. lia. Qed.

Lemma skip_block_length rest line col :
  (length (skip_block rest line col).1.1 ≤ length rest)%nat.
Proof.
  enough (H : (length (skip_block rest line col).1.1 ≤ length rest)%nat ∧
    ∀ c, (length (skip_block (c :: rest) line col).1.1 ≤ length (c :: rest))%nat) by apply H.
  revert line col. induction rest as [|c2 rest IH]; intros line col; [by cbn; split; intros; cbn|].
  split; [apply (IH line col)|]. intros c. cbn [skip_block]. destruct (_ && _); cbn [fst length]; [lia|].
  destruct (Ascii.eqb c nl).
  - destruct (IH (line + 1) 1) as [_ H]. specialize (H c2). cbn [length] in *.
    etransitivity; [apply H|]. lia.
  - destruct (IH line (col + 1)) as [_ H]. specialize (H c2). cbn [length] in *.
    etransitivity; [apply H|]. lia.
Qed.

Lemma skip_some fuel l : (length (lx_rest l) < fuel)%nat →
  ∃ l', skipWhitespaceAndComments fuel l = Some l'
    ∧ (length (lx_rest l') ≤ length (lx_rest l))%nat ∧ lx_tokens l' = lx_tokens l.
Proof.
  revert l. induction fuel as [|n IH]; intros l Hl; [lia|]. cbn.
  destruct (lx_rest l) as [|ch rest'] eqn:Er; [exists l; rewrite Er; done|]. cbn [length] in *.
  assert (Hgo : ∀ l', (length (lx_rest l') ≤ length rest')%nat → lx_tokens l' = lx_tokens l →
    ∃ l'', skipWhitespaceAndComments n l' = Some l''
      ∧ (length (lx_rest l'') ≤ S (length rest'))%nat ∧ lx_tokens l'' = lx_tokens l).
  { intros l' Hl' Ht. destruct (IH l') as (l'' & -> & ? & ?); [lia|].
    exists l''. split_and!; [done|lia|congruence]. }
  destruct (_ || _); [apply Hgo; [cbn; rewrite Er; done|done]|].
  destruct (Ascii.eqb ch nl); [apply Hgo; done|].
  destruct (_ && _).
  { pose proof (skip_block_length (drop 2 (ch :: rest')) (lx_line l) (lx_col l + 2)) as Hs.
    rewrite length_drop in Hs. destruct (skip_block _ _ _) as [[r ln] co].
    apply Hgo; [|done]. cbn in *. lia. }
  destruct (_ && _) eqn:E.
  { apply Hgo; [|done]. cbn [lx_rest ladvance]. rewrite Er, span_drop. apply andb_prop in E as [E _].
    apply Ascii.eqb_eq in E as ->. cbn.
    pose proof (f_equal length (span_app (λ c, negb (Ascii.eqb c nl)) rest')) as Hs.
    rewrite length_app in Hs. destruct (span _ rest') as [a b]. cbn in *. lia. }
  exists l. rewrite Er. done.
Qed.

Section LexFacts.
Context `{UnicodeTables}.

Lemma advances_push l l1 ty lit :
  (length (lx_rest l1) < length (lx_rest l))%nat → lx_tokens l1 = lx_tokens l →
  ty ≠ TokenEOF → advances l (push l1 ty lit).
Proof.
  intros Hl Ht Hty. split; [done|]. cbn. rewrite Ht. eexists. split; [done|].
  by repeat constructor.
Qed.

Lemma advances_emit l ty lit n : lx_rest l ≠ [] → (0 < n)%nat → ty ≠ TokenEOF →
  advances l (emit l ty lit n).
Proof.
  intros Hr Hn Hty. unfold emit. split.
  - cbn. rewrite length_drop. destruct (lx_rest l); [done|]. cbn. lia.
  - cbn. eexists. split; [done|]. by repeat constructor.
Qed.

Lemma length_ladvance l n : (length (lx_rest (ladvance l n)) ≤ length (lx_rest l))%nat.
Proof. cbn. rewrite length_drop. lia. Qed.

Lemma length_ladvance_S l n : lx_rest l ≠ [] →
  (length (lx_rest (ladvance l (S n))) < length (lx_rest l))%nat.
Proof. intros Hr. cbn. destruct (lx_rest l); [done|]. cbn. rewrite length_drop. lia. Qed.

Lemma advances_string l : lx_rest l ≠ [] → advances l (lexString l).
Proof.
  intros Hr. unfold lexString. cbn [advance_while].
  match goal with |- advances _ (push ?x _ _) => assert (Hx : (length (lx_rest x) < length (lx_rest l))%nat ∧ lx_tokens x = lx_tokens l) end.
  { pose proof (length_ladvance (ladvance l 1)) as H1. pose proof (length_ladvance_S l 0 Hr) as H2.
    case_match; (split; [|done]).
    - eapply Nat.le_lt_trans; [apply H1|done].
    - eapply Nat.le_lt_trans; [apply length_ladvance|].
      eapply Nat.le_lt_trans; [apply H1|done]. }
  destruct Hx. by apply advances_push.
Qed.

Lemma lexExponent_spec l :
  (length (lx_rest (lexExponent l).2) ≤ length (lx_rest l))%nat
  ∧ lx_tokens (lexExponent l).2 = lx_tokens l.
Proof.
  unfold lexExponent. destruct (lx_rest l) as [|e r] eqn:Er; [cbn; rewrite Er; done|].
  case_if; [|cbn; rewrite Er; done].
  set (p := match lx_rest (ladvance l 1) with | [] => _ | _ => _ end).
  assert (Hp : (length (lx_rest p.2) ≤ length (lx_rest (ladvance l 1)))%nat
    ∧ lx_tokens p.2 = lx_tokens l).
  { unfold p. destruct (lx_rest (ladvance l 1)) as [|s r1] eqn:E1; [cbn [snd]; rewrite E1; done|].
    case_if; cbn [snd]; (split; [|done]); [|by rewrite E1]. rewrite <- E1. apply length_ladvance. }
  pose proof (length_ladvance l 1) as H1. rewrite Er in H1.
  destruct p as [sgn l2]. cbn [advance_while snd] in *. destruct Hp as [Hp1 Hp2].
  split; [|done]. etransitivity; [apply length_ladvance|]. lia.
Qed.

Lemma advances_number l c r : lx_rest l = c :: r → isDigit c = true → advances l (lexNumber l).
Proof.
  intros Hr Hc. unfold lexNumber. cbn [advance_while].
  set (l1 := ladvance l _).
  assert (Hl1 : (length (lx_rest l1) < length (lx_rest l))%nat).
  { unfold l1. cbn. rewrite Hr. cbn. rewrite Hc. cbn. destruct (span _ r). cbn.
    rewrite length_drop. lia. }
  destruct (lexExponent_spec l1) as [H1 H2].
  destruct (lexExponent l1) as [e l2]. cbn in *. apply advances_push; [lia|done|done].
Qed.

Lemma advances_ident l c r : lx_rest l = c :: r → isIdentPart c = true →
  advances l (lexIdentOrKeyword l).
Proof.
  intros Hr Hc. unfold lexIdentOrKeyword. cbn [advance_while].
  set (l1 := ladvance l _).
  assert (Hl1 : (length (lx_rest l1) < length (lx_rest l))%nat).
  { unfold l1. cbn. rewrite Hr. cbn. rewrite Hc. cbn. destruct (span _ r). cbn.
    rewrite length_drop. lia. }
  assert (Hp : ∀ up lit, advances l (match keyword up with
      | Some ty => push l1 ty lit | None => push l1 TokenIdent lit end)).
  { intros up lit. destruct (keyword up) eqn:E; apply advances_push; try done.
    by apply keyword_not_eof in E. }
  destruct (lx_rest l1) eqn:E1; [apply Hp|]. destruct (_ && _); [|apply Hp].
  apply advances_push; [|done|done]. rewrite <- E1 in Hl1.
  eapply Nat.le_lt_trans; [apply length_ladvance|]. eapply Nat.le_lt_trans; [apply length_ladvance|done].
Qed.

Lemma lex_token_advances l ch r : lx_rest l = ch :: r → advances l (lex_token l ch).
Proof.
  intros Hr. assert (Hne : lx_rest l ≠ []) by congruence. unfold lex_token.
  repeat (case_if; [by (apply advances_emit; [done|lia|done]) || by apply advances_string
    || by eapply advances_number|]).
  destruct (isIdentStart ch) eqn:Hs.
  - eapply advances_ident; [done|]. unfold isIdentStart, isIdentPart in *.
    destruct (is_letter ch); [done|]. cbn in *. rewrite Hs. apply orb_true_r.
  - split; [|exists []; cbn; rewrite app_nil_r; done]. cbn. rewrite Hr. cbn. rewrite drop_0. lia.
Qed.

Lemma lex_loop_some fuel l : (length (lx_rest l) < fuel)%nat →
  ∃ l', lex_loop fuel l = Some l' ∧
  ∃ ts, lx_tokens l' = lx_tokens l ++ ts ∧ Forall (λ t, Type_ t ≠ TokenEOF) ts.
Proof.
  revert l. induction fuel as [|n IH]; intros l Hl; [lia|]. cbn [lex_loop].
  destruct (lx_rest l) as [|c r] eqn:Er.
  { exists l. split; [done|]. exists []. by rewrite app_nil_r. }
  rewrite <- Er in *. destruct (skip_some (S (length (lx_rest l))) l) as (l1 & -> & Hl1 & Ht); [lia|].
  cbn. destruct (lx_rest l1) as [|ch r1] eqn:E1.
  { exists l1. split; [done|]. exists []. by rewrite app_nil_r. }
  destruct (lex_token_advances l1 ch r1 E1) as [Hlt (ts & Hts & Hne)].
  destruct (IH (lex_token l1 ch)) as (l' & -> & ts' & Hts' & Hne');
    [rewrite E1 in Hlt; lia|].
  exists l'. split; [done|]. exists (ts ++ ts').
  rewrite Hts', Hts, Ht, app_assoc. split; [done|]. by apply Forall_app.
Qed.

Lemma Lex_defined (input : string) :
  ∃ ts eof, Lex input = Some (ts ++ [eof]) ∧ Type_ eof = TokenEOF
    ∧ Forall (λ t, Type_ t ≠ TokenEOF) ts.
Proof.
  unfold Lex. destruct (lex_loop_some (S (str_len input)) (mkLexer (chars input) 1 1 []))
    as (l & -> & ts & Hts & Hne); [cbn; rewrite length_chars; lia|].
  cbn. rewrite Hts. eauto.
Qed.

(** the lexer is total: every source text is tokenised within the fuel, and the
    result ends with the only end-of-file token. *)
Theorem Lex_some (input : string) :
  ∃ ts eof, Lex input = Some (ts ++ [eof]) ∧ Type_ eof = TokenEOF
    ∧ Forall (λ t, Type_ t ≠ TokenEOF) ts.
Proof. apply Lex_defined. Qed.

End LexFacts.

(** ** Printing tokens and reading them back *)

Definition operators : list (TokenType * string) :=
  [(TokenAssign, ":="); (TokenEqual, "="); (TokenNotEqual, "<>"); (TokenLess, "<");
   (TokenLessEq, "<="); (TokenGreater, ">"); (TokenGreaterEq, ">="); (TokenPlus, "+");
   (TokenMinus, "-"); (TokenStar, "*"); (TokenSlash, "/"); (TokenLParen, "(");
   (TokenRParen, ")"); (TokenSemicolon, ";"); (TokenColon, ":"); (TokenComma, ",");
   (TokenDot, "."); (TokenHash, "#")].

Definition is_num_char (c : ascii) : bool := isDigit c || Ascii.eqb c ".".

Definition ident_shape (l : list ascii) : bool :=
  match l with c :: l' => isIdentStart c && forallb isIdentPart l' | [] => false end.

Definition exponent_shape (l : list ascii) : bool :=
  match l with
  | [] => true
  | e :: l' =>
      (Ascii.eqb e "e" || Ascii.eqb e "E") &&
      match l' with
      | s :: l'' => if Ascii.eqb s "+" || Ascii.eqb s "-" then forallb isDigit l''
                    else forallb isDigit l'
      | [] => true
      end
  end.

Definition number_shape (l : list ascii) : bool :=
  match l with c :: _ => isDigit c | [] => false end
  && exponent_shape (span is_num_char l).2.

Section Print.
Context `{UnicodeTables}.

(** The tokens that can be written down: their literal is a spelling of their type. *)
Definition spelled (t : TokenType * string) : bool :=
  let '(ty, lit) := t in
  match ty with
  | TokenEOF => false
  | TokenString => forallb (λ c, negb (Ascii.eqb c squote)) (chars lit)
  | TokenTimeLiteral => forallb isIdentPart (chars lit)
  | TokenNumber => number_shape (chars lit)
  | TokenIdent => ident_shape (chars lit) && bool_decide (keyword (to_upper lit) = None)
  | _ =>
      match list_find (λ op, op.1 = ty) operators with
      | Some (_, (_, text)) => String.eqb lit text
      | None => ident_shape (chars lit) && bool_decide (keyword (to_upper lit) = Some ty)
      end
  end.

Definition token_text (t : TokenType * string) : list ascii :=
  let '(ty, lit) := t in
  match ty with
  | TokenString => squote :: chars lit ++ [squote]
  | TokenTimeLiteral => "T"%char :: "#"%char :: chars lit
  | _ => chars lit
  end.

(** Tokens are printed with one space after each. *)
Definition print_tokens (ts : list (TokenType * string)) : list ascii :=
  concat (map (λ t, token_text t ++ [" "%char]) ts).

End Print.

Section PrintFacts.
Context `{UnicodeTables}.

(** [reads l t r]: one step of [lex] on [l] appends token [t] and leaves [r]. *)
Definition reads (l : Lexer) (t : TokenType * string) (r : list ascii) : Prop :=
  ∃ c rest, lx_rest l = c :: rest ∧
    lx_rest (lex_token l c) = r ∧
    ∃ ln co, lx_tokens (lex_token l c) = lx_tokens l ++ [mkToken t.1 t.2 ln co].

Lemma ident_start_token c l : isIdentStart c = true → lex_token l c = lexIdentOrKeyword l.
Proof. destruct c as [[] [] [] [] [] [] [] []]; intros Hc; (discriminate Hc || reflexivity). Qed.

Lemma digit_token c l : isDigit c = true → lex_token l c = lexNumber l.
Proof. destruct c as [[] [] [] [] [] [] [] []]; intros Hc; (discriminate Hc || reflexivity). Qed.

Lemma ident_start_part c : isIdentStart c = true → isIdentPart c = true.
Proof.
  unfold isIdentStart, isIdentPart. destruct (is_letter c); [done|]. cbn. intros ->.
  apply orb_true_r.
Qed.

Lemma advance_while_stop p a c b l :
  Forall (λ x, p x = true) a → p c = false → lx_rest l = a ++ c :: b →
  advance_while p l = (a, ladvance l (length a)) ∧ lx_rest (ladvance l (length a)) = c :: b.
Proof.
  intros Ha Hc Hr. unfold advance_while. rewrite Hr, span_stop by done. cbn.
  by rewrite Hr, drop_app_length.
Qed.

Lemma forallb_Forall' {A} (p : A → bool) l : forallb p l = true → Forall (λ x, p x = true) l.
Proof. rewrite forallb_forall, Forall_forall. setoid_rewrite <- list_elem_of_In. done. Qed.

Lemma reads_word l ty lit r :
  ident_shape (chars lit) = true →
  (match keyword (to_upper lit) with Some ty => ty | None => TokenIdent end) = ty →
  lx_rest l = chars lit ++ " "%char :: r → reads l (ty, lit) (" "%char :: r).
Proof.
  intros Hs Hk Hr.
  destruct (chars lit) as [|c cs] eqn:Ec; [done|]. cbn in Hs. apply andb_prop in Hs as [Hc Hcs].
  exists c, (cs ++ " "%char :: r). split; [done|]. rewrite ident_start_token by done.
  unfold lexIdentOrKeyword.
  destruct (advance_while_stop isIdentPart (c :: cs) " "%char r l) as [-> Hr'];
    [constructor; [by apply ident_start_part|by apply forallb_Forall']|done|done|].
  rewrite Hr', andb_false_r. rewrite <- Ec, str_chars.
  destruct (keyword (to_upper lit)); subst; cbn; rewrite <- Ec in *; (split; [done|]); eauto.
Qed.

Lemma reads_string l lit r :
  forallb (λ c, negb (Ascii.eqb c squote)) (chars lit) = true →
  lx_rest l = squote :: chars lit ++ squote :: " "%char :: r →
  reads l (TokenString, lit) (" "%char :: r).
Proof.
  intros Hs Hr. exists squote. eexists. split; [done|].
  change (lex_token l squote) with (lexString l). unfold lexString.
  destruct (advance_while_stop (λ c, negb (Ascii.eqb c squote)) (chars lit) squote
    (" "%char :: r) (ladvance l 1)) as [-> Hr'];
    [by apply forallb_Forall'|done|cbn; by rewrite Hr|].
  rewrite Hr'. unfold push, ladvance at 1. cbn [lx_rest lx_tokens]. rewrite Hr'.
  split; [done|]. cbn. rewrite str_chars. eauto.
Qed.

Lemma upper_T : to_upper (str ["T"%char]) = "T".
Proof. reflexivity. Qed.

Lemma reads_time l lit r :
  forallb isIdentPart (chars lit) = true →
  lx_rest l = "T"%char :: "#"%char :: chars lit ++ " "%char :: r →
  reads l (TokenTimeLiteral, lit) (" "%char :: r).
Proof.
  intros Hs Hr. exists "T"%char. eexists. split; [done|]. rewrite ident_start_token by done.
  unfold lexIdentOrKeyword.
  destruct (advance_while_stop isIdentPart ["T"%char] "#"%char (chars lit ++ " "%char :: r) l)
    as [-> Hr1]; [by constructor|done|done|].
  rewrite Hr1, upper_T. cbn [String.eqb Ascii.eqb andb Bool.eqb].
  destruct (advance_while_stop (λ c, isDigit c || isIdentPart c) (chars lit) " "%char r
    (ladvance (ladvance l (length ["T"%char])) 1)) as [-> Hr2].
  - apply forallb_Forall' in Hs. eapply Forall_impl; [done|]. cbn. intros c ->. apply orb_true_r.
  - done.
  - unfold ladvance at 1. cbn [lx_rest]. by rewrite Hr1.
  - split; [exact Hr2|]. cbn. rewrite str_chars. eauto.
Qed.

Lemma span_Forall p l : Forall (λ x, p x = true) (span p l).1.
Proof.
  induction l as [|c l IH]; cbn; [done|]. destruct (p c) eqn:E; [|done].
  destruct (span p l). by constructor.
Qed.

Lemma lexExponent_stop l e r : exponent_shape e = true →
  lx_rest l = e ++ " "%char :: r →
  (lexExponent l).1 = e ∧ lx_rest (lexExponent l).2 = " "%char :: r
  ∧ lx_tokens (lexExponent l).2 = lx_tokens l.
Proof.
  intros He Hr. split_and!; [| |apply lexExponent_spec].
  all: unfold lexExponent; rewrite Hr; destruct e as [|x e]; [done|].
  all: cbn [app]; cbn in He; apply andb_prop in He as [-> He].
  all: assert (H1 : lx_rest (ladvance l 1) = e ++ " "%char :: r) by (cbn; by rewrite Hr).
  all: rewrite H1; destruct e as [|s e]; cbn [app].
  all: try match goal with |- context [Ascii.eqb " " "+"] =>
    cbn [Ascii.eqb Bool.eqb orb];
    destruct (advance_while_stop isDigit [] " "%char r (ladvance l 1)) as [-> H2]; done end.
  all: destruct (_ || _).
  all: try (destruct (advance_while_stop isDigit e " "%char r (ladvance (ladvance l 1) 1))
    as [-> H2]; [by apply forallb_Forall'|done|unfold ladvance at 1; cbn [lx_rest]; by rewrite H1|done]).
  all: destruct (advance_while_stop isDigit (s :: e) " "%char r (ladvance l 1)) as [-> H2];
    [by apply forallb_Forall'|done|done|done].
Qed.

Lemma reads_number l lit r :
  number_shape (chars lit) = true → lx_rest l = chars lit ++ " "%char :: r →
  reads l (TokenNumber, lit) (" "%char :: r).
Proof.
  intros Hs Hr. unfold number_shape in Hs. apply andb_prop in Hs as [Hd He].
  destruct (chars lit) as [|c cs] eqn:Ec; [done|]. exists c. eexists. split; [done|].
  rewrite digit_token by done. unfold lexNumber. change (λ c0 : ascii, isDigit c0 || Ascii.eqb c0 ".") with is_num_char.
  set (m := (span is_num_char (c :: cs)).1). set (e := (span is_num_char (c :: cs)).2) in *.
  assert (Hme : c :: cs = m ++ e) by (symmetry; apply span_app).
  assert (Hsp : advance_while is_num_char l = (m, ladvance l (length m))
    ∧ lx_rest (ladvance l (length m)) = e ++ " "%char :: r).
  { rewrite Hme, <- app_assoc in Hr. destruct e as [|x e'] eqn:Ee.
    - apply advance_while_stop; [apply span_Forall|done|done].
    - apply (advance_while_stop _ _ x (e' ++ " "%char :: r)); [apply span_Forall| |done].
      cbn in He. apply andb_prop in He as [Hx _]. apply orb_prop in Hx as [Hx|Hx];
      apply Ascii.eqb_eq in Hx as ->; done. }
  destruct Hsp as [-> Hr1].
  destruct (lexExponent_stop _ e r He Hr1) as (H1 & H2 & H3).
  destruct (lexExponent (ladvance l (length m))) as [e' l2]. cbn in H1, H2, H3. subst e'.
  split; [done|]. cbn. rewrite H3. cbn. rewrite <- Hme, <- Ec, str_chars. eauto.
Qed.

Lemma reads_operator l ty text r :
  In (ty, text) operators → lx_rest l = chars text ++ " "%char :: r →
  reads l (ty, text) (" "%char :: r).
Proof.
  intros Hin Hr. destruct l as [rest ln co toks]. cbn in Hr. subst rest. cbn in Hin.
  repeat (destruct Hin as [[= <- <-]|Hin];
    [eexists _, _; split; [reflexivity|]; split; [reflexivity|]; cbn; eauto|]).
  destruct Hin.
Qed.

(** The text of a token starts with a byte that [lex] does not skip. *)
Definition starts (l : list ascii) : Prop :=
  ∃ c l', l = c :: l' ∧
    (Ascii.eqb c " " || Ascii.eqb c "009" || Ascii.eqb c "013" || Ascii.eqb c nl
     || Ascii.eqb c "(" && Ascii.eqb (lpeek1 l) "*"
     || Ascii.eqb c "/" && Ascii.eqb (lpeek1 l) "/") = false.

Lemma part_starts c l : isIdentPart c = true ∨ c = squote → starts (c :: l).
Proof.
  intros Hc. exists c, l. split; [done|].
  destruct Hc as [Hc| ->]; [|done].
  destruct c as [[] [] [] [] [] [] [] []]; (discriminate Hc || reflexivity).
Qed.

Lemma reads_token l t r : spelled t = true → lx_rest l = token_text t ++ " "%char :: r →
  starts (token_text t ++ " "%char :: r) ∧ reads l t (" "%char :: r).
Proof.
  destruct t as [ty lit]. intros Hs Hr.
  assert (Hword : ident_shape (chars lit) = true → token_text (ty, lit) = chars lit →
    starts (token_text (ty, lit) ++ " "%char :: r)).
  { intros Hi ->. destruct (chars lit) as [|c cs]; [done|]. apply part_starts. left.
    cbn in Hi. apply andb_prop in Hi as [Hi _]. by apply ident_start_part. }
  destruct (list_find (λ op, op.1 = ty) operators) as [[i [ty' text]]|] eqn:Eop.
  - pose proof Eop as Ef. apply list_find_Some in Eop as (Eop & Ht & _). cbn in Ht. subst ty'.
    apply list_elem_of_lookup_2, list_elem_of_In in Eop.
    assert (Hl : lit = text ∧ token_text (ty, lit) = chars text).
    { unfold spelled in Hs. destruct ty; try (exfalso; clear - Eop; cbn in Eop; naive_solver);
        rewrite Ef in Hs; apply String.eqb_eq in Hs as ->; done. }
    destruct Hl as [-> Ht]. rewrite Ht in *. split; [|by apply reads_operator].
    clear - Eop. cbn in Eop.
    repeat (destruct Eop as [[= <- <-]|Eop]; [eexists _, _; split; reflexivity|]). destruct Eop.
  - unfold spelled in Hs. destruct ty; try discriminate; rewrite ?Eop in Hs.
    all: try (apply andb_prop in Hs as [Hs Hk]; apply bool_decide_eq_true in Hk;
      split; [by apply Hword|apply reads_word; [done|by rewrite Hk|done]]).
    + split; [|by apply reads_number]. cbn. unfold number_shape in Hs.
      destruct (chars lit) as [|c cs]; [done|]. apply andb_prop in Hs as [Hd _].
      apply part_starts. left. unfold isIdentPart. rewrite Hd. by destruct (is_letter c).
    + cbn in Hr. rewrite <- app_assoc in Hr. split; [|by apply reads_string].
      apply part_starts. by right.
    + split; [|by apply reads_time]. apply part_starts. by left.
Qed.

Lemma skip_starts n l : starts (lx_rest l) → skipWhitespaceAndComments (S n) l = Some l.
Proof.
  intros (c & l' & Hr & Hc). cbn. rewrite Hr in *.
  apply orb_false_elim in Hc as [Hc ->]. apply orb_false_elim in Hc as [Hc ->].
  apply orb_false_elim in Hc as [-> ->]. done.
Qed.

Lemma skip_space n l r : lx_rest l = " "%char :: r →
  skipWhitespaceAndComments (S n) l = skipWhitespaceAndComments n (ladvance l 1).
Proof. intros Hr. cbn. by rewrite Hr. Qed.

Lemma print_tokens_cons t ts :
  print_tokens (t :: ts) = token_text t ++ " "%char :: print_tokens ts.
Proof. unfold print_tokens. cbn. by rewrite <- app_assoc. Qed.

(** What a token list says, positions aside. *)
Definition spelling (t : Token) : TokenType * string := (Type_ t, Literal t).

Lemma lex_loop_print ts fuel l :
  Forall (λ t, spelled t = true) ts → (length (lx_rest l) < fuel)%nat →
  lx_rest l = print_tokens ts ∨ lx_rest l = " "%char :: print_tokens ts →
  ∃ l' us, lex_loop fuel l = Some l' ∧ lx_tokens l' = lx_tokens l ++ us
    ∧ map spelling us = ts.
Proof.
  intros Hts. revert fuel l. induction Hts as [|t ts Ht _ IH]; intros fuel l Hf Hr.
  { destruct fuel as [|fuel]; [lia|]. exists (match lx_rest l with [] => l | _ => ladvance l 1 end), [].
    rewrite app_nil_r. destruct Hr as [Hr|Hr]; cbn [lex_loop]; rewrite Hr; [done|].
    cbn [length print_tokens concat map]. rewrite (skip_space _ _ _ Hr).
    assert (Hr1 : lx_rest (ladvance l 1) = []) by (cbn; by rewrite Hr).
    cbn [skipWhitespaceAndComments]. rewrite Hr1. cbn [mbind option_bind]. by rewrite Hr1. }
  rewrite print_tokens_cons in Hr.
  set (X := token_text t ++ " "%char :: print_tokens ts) in *.
  assert (Hskip : ∃ l1, skipWhitespaceAndComments (S (length (lx_rest l))) l = Some l1
    ∧ lx_rest l1 = X ∧ lx_tokens l1 = lx_tokens l).
  { destruct Hr as [Hr|Hr].
    - exists l. split_and!; [|done..]. apply skip_starts. rewrite Hr.
      by apply (reads_token l t).
    - exists (ladvance l 1). assert (Hr1 : lx_rest (ladvance l 1) = X) by (cbn; by rewrite Hr).
      split_and!; [|done..]. rewrite (skip_space _ _ _ Hr), Hr. cbn [length].
      apply skip_starts. rewrite Hr1. by apply (reads_token (ladvance l 1) t). }
  destruct Hskip as (l1 & Hsk & Hr1 & Ht1).
  destruct (reads_token l1 t _ Ht Hr1) as [_ (c & rest & Hc & Hrest & ln & co & Htok)].
  assert (Hlt : (length (lx_rest (lex_token l1 c)) < length (lx_rest l1))%nat)
    by (by eapply lex_token_advances).
  destruct fuel as [|fuel]; [lia|].
  assert (Hlen : (length (lx_rest l1) ≤ length (lx_rest l))%nat)
    by (rewrite Hr1; destruct Hr as [-> | ->]; cbn; lia).
  destruct (IH fuel (lex_token l1 c)) as (l' & us & Hl' & Hus & Hmap); [lia|by right|].
  exists l', (mkToken t.1 t.2 ln co :: us). cbn [lex_loop map].
  destruct (lx_rest l) as [|c0 r0] eqn:E0; [cbn in Hlen; lia|]. rewrite <- E0 in *.
  rewrite Hsk. cbn. rewrite Hc, Hl', Hus, Htok, Ht1, <- app_assoc. split_and!; try done.
  cbn. rewrite Hmap. by destruct t.
Qed.

Lemma Lex_printed (ts : list (TokenType * string)) :
  Forall (λ t, spelled t = true) ts →
  map spelling <$> Lex (str (print_tokens ts)) = Some (ts ++ [(TokenEOF, "")]).
Proof.
  intros Hts. unfold Lex. rewrite chars_str.
  destruct (lex_loop_print ts (S (str_len (str (print_tokens ts))))
    (mkLexer (print_tokens ts) 1 1 []) Hts) as (l' & us & -> & Hus & Hmap);
    [cbn; rewrite <- length_chars, chars_str; lia|by left|].
  cbn. rewrite Hus. cbn. by rewrite map_app, Hmap.
Qed.

(** lexing is the inverse of printing: a list of tokens written with a space after
    each is read back as the same types and literals, followed by the end of file. *)
Theorem Lex_print_tokens (ts : list (TokenType * string)) :
  Forall (λ t, spelled t = true) ts →
  map spelling <$> Lex (str (print_tokens ts)) = Some (ts ++ [(TokenEOF, "")]).
Proof. apply Lex_printed. Qed.

End PrintFacts.

Lemma Lex_print_tokens_witness : let _ := ascii_tables in
  let ts := [(TokenIf, "If"); (TokenIdent, "tank_1"); (TokenLessEq, "<="); (TokenNumber, "1.5e-3");
             (TokenString, "a b"); (TokenTimeLiteral, "5s"); (TokenLParen, "(")] in
  map spelling <$> Lex (str (print_tokens ts)) = Some (ts ++ [(TokenEOF, "")]).
Proof.
  exact (@Lex_print_tokens ascii_tables
    [(TokenIf, "If"); (TokenIdent, "tank_1"); (TokenLessEq, "<="); (TokenNumber, "1.5e-3");
     (TokenString, "a b"); (TokenTimeLiteral, "5s"); (TokenLParen, "(")]
    ltac:(repeat constructor)).
Defined.
