(* ===== verification/StSyntax.v ===== *)
(** Structured Text syntax trees: internal/plc/st/ast.go.

    The interfaces [Expression] and [Statement] are inductive types with one
    constructor per node type; a nil [Expression] or [Statement] is [None]. *)

From S2P Require Export Prelude GoText.

(** ** Expressions *)

Inductive Expression : Type :=
  | NumberLit (Value : string)
  | StringLit (Value : string)
  | BoolLit (Value : bool)
  | IdentExpr (Name : string)
  | BinaryExpr (Left : Expression) (Op : string) (Right : Expression)
  | UnaryExpr (Op : string) (Operand : Expression)
  | CallExpr (Name : string) (Args : list Expression)
  | MemberExpr (Object : Expression) (Member : string)
  | TimeLit (Raw : string).

(** ** Statements *)

Inductive Statement : Type :=
  | AssignStmt (Target : string) (Value : Expression)
  | IfStmt (Condition : Expression) (Then : list Statement)
      (ElsIfs : list (Expression * list Statement)) (Else : list Statement)
  | ForStmt (Variable_ : string) (Start End_ : Expression) (Step : option Expression)
      (Body : list Statement)
  | WhileStmt (Condition : Expression) (Body : list Statement)
  | RepeatStmt (Body : list Statement) (Condition : Expression)
  | CaseStmt (Expr : Expression) (Cases : list (list Expression * list Statement))
      (Else : list Statement)
  | CallStmt (Name : string) (Args : list Expression)
  | ReturnStmt.

(** ** Top level *)

Record VarDecl := mkVarDecl {
  vdName : string;
  vdDatatype : string;
  vdInitial : option Expression;
}.

Record VarBlock := mkVarBlock {
  vbKind : string;
  vbVariables : list VarDecl;
}.

Record Program := mkProgram {
  progName : string;
  VarBlocks : list VarBlock;
  Statements : list Statement;
}.

(** ** Induction with hypotheses for nested lists *)

Lemma Expression_ind' (P : Expression → Prop) :
  (∀ v, P (NumberLit v)) → (∀ v, P (StringLit v)) → (∀ b, P (BoolLit b)) →
  (∀ n, P (IdentExpr n)) → (∀ l o r, P l → P r → P (BinaryExpr l o r)) →
  (∀ o e, P e → P (UnaryExpr o e)) → (∀ n args, Forall P args → P (CallExpr n args)) →
  (∀ o m, P o → P (MemberExpr o m)) → (∀ r, P (TimeLit r)) → ∀ e, P e.
Proof.
  intros HN HS HB HI HBin HU HC HM HT. fix IH 1. intros [v|v|b|n|l o r|o e|n args|o m|r].
  - apply HN.
  - apply HS.
  - apply HB.
  - apply HI.
  - apply HBin; apply IH.
  - apply HU, IH.
  - apply HC. induction args as [|a args IHa]; constructor; [apply IH|exact IHa].
  - apply HM, IH.
  - apply HT.
Qed.

Lemma Statement_ind' (P : Statement → Prop) :
  (∀ t v, P (AssignStmt t v)) →
  (∀ c th ei el, Forall P th → Forall (λ x, Forall P x.2) ei → Forall P el →
    P (IfStmt c th ei el)) →
  (∀ v s e st b, Forall P b → P (ForStmt v s e st b)) →
  (∀ c b, Forall P b → P (WhileStmt c b)) →
  (∀ b c, Forall P b → P (RepeatStmt b c)) →
  (∀ e cs el, Forall (λ x, Forall P x.2) cs → Forall P el → P (CaseStmt e cs el)) →
  (∀ n args, P (CallStmt n args)) → P ReturnStmt → ∀ s, P s.
Proof.
  intros HA HI HF HW HR HC HCall HRet. fix IH 1.
  assert (IHs : ∀ l : list Statement, Forall P l)
    by (fix IHl 1; intros [|x l]; constructor; [apply IH|apply IHl]).
  intros [t v|c th ei el|v s e st b|c b|b c|e cs el|n args|].
  - apply HA.
  - apply HI; [apply IHs| |apply IHs].
    induction ei as [|[x l] ei IHe]; constructor; [apply IHs|exact IHe].
  - apply HF, IHs.
  - apply HW, IHs.
  - apply HR, IHs.
  - apply HC; [|apply IHs].
    induction cs as [|[x l] cs IHc]; constructor; [apply IHs|exact IHc].
  - apply HCall.
  - apply HRet.
Qed.
