(* ===== verification/StParser.v ===== *)
(** Recursive-descent parser of Structured Text: internal/plc/st/parser.go.

    A parser takes the tokens [p.tokens[p.pos:]] and returns a node with the tokens
    that are left, an error, or [PFuel]. Recursion and loops run on fuel taken from
    the number of tokens; [Parse_total] shows that [PFuel] never happens. *)

From S2P Require Export Prelude GoText StLexer StSyntax.

(** ** Parsers *)

Inductive presult (A : Type) : Type :=
  | POk (a : A) (rest : list Token)
  | PErr (msg : string)
  | PFuel.
Arguments POk {A} _ _.
Arguments PErr {A} _.
Arguments PFuel {A}.

Definition parser (A : Type) : Type := list Token → presult A.

Definition presult_bind {A B} (r : presult A) (f : A → parser B) : presult B :=
  match r with POk a rest => f a rest | PErr e => PErr e | PFuel => PFuel end.

#[export] Instance parser_ret : MRet parser := λ A a ts, POk a ts.
#[export] Instance parser_bind : MBind parser := λ A B f p ts, presult_bind (p ts) f.

(** [p.peek()], [p.advance()], [p.expect] and [p.match]. *)
Definition peek_token (ts : list Token) : Token :=
  match ts with t :: _ => t | [] => mkToken TokenEOF "" 0 0 end.

Definition peek : parser Token := λ ts, POk (peek_token ts) ts.
Definition peekType : parser TokenType := λ ts, POk (Type_ (peek_token ts)) ts.
Definition advance : parser Token := λ ts, POk (peek_token ts) (tail ts).
Definition fail {A} (msg : string) : parser A := λ _, PErr msg.

(** [match_]: whether the token was there, and consumed. *)
Definition match_ (ty : TokenType) : parser bool := λ ts,
  if tt_eqb (Type_ (peek_token ts)) ty then POk true (tail ts) else POk false ts.

(** The context [fmt.Errorf("prefix: %w", err)] adds to an error. *)
Definition wrap {A} (prefix : string) (p : parser A) : parser A := λ ts,
  match p ts with PErr e => PErr (prefix +:+ ": " +:+ e) | r => r end.

(** A [for] loop: the body returns [inl] to go on and [inr] to leave the loop.
    Every iteration that goes on consumes a token, so the number of tokens bounds
    the iterations. *)
Fixpoint loop {S} (fuel : nat) (body : S → parser (S + S)) (s : S) : parser S :=
  match fuel with
  | O => λ _, PFuel
  | S n => c ← body s; match c with inl s' => loop n body s' | inr s' => mret s' end
  end.

(** [if !cond { break }] at the end of an iteration. *)
Definition continue_if {S} (cond : bool) (s : S) : S + S :=
  if cond then inl s else inr s.

Definition for_loop {S} (body : S → parser (S + S)) (s : S) : parser S :=
  λ ts, loop (Datatypes.S (length ts)) body s ts.

Section Parser.
Context `{UnicodeTables}.

Definition expect (ty : TokenType) : parser Token :=
  tok ← advance;
  if tt_eqb (Type_ tok) ty then mret tok
  else fail ("line " +:+ itoa (Line tok) +:+ ": expected " +:+ itoa (Z.of_nat (token_num ty))
             +:+ ", got " +:+ quote (Literal tok)).

(** ** Expressions *)

(** [for p.peek().Type == TokenDot]: the dotted name after its first segment. *)
Fixpoint members (name : string) (ts : list Token) : string * list Token :=
  match ts with
  | d :: ts' =>
      if tt_eqb (Type_ d) TokenDot then
        match ts' with
        | m :: ts'' => members (name +:+ "." +:+ Literal m) ts''
        | [] => (name +:+ ".", [])
        end
      else (name, ts)
  | [] => (name, [])
  end.
Definition parseMembers (name : string) : parser string :=
  λ ts, let '(n, rest) := members name ts in POk n rest.

(** The loop of a left-associative level over the operators [op_of] accepts. *)
Definition binary_loop (op_of : Token → option string) (sub : parser Expression)
    (left : Expression) : parser Expression :=
  for_loop (λ left : Expression,
    tok ← peek;
    match op_of tok with
    | Some op =>
        _ ← advance;
        right ← sub;
        mret (inl (BinaryExpr left op right))
    | None => mret (inr left)
    end) left.

Definition or_op (t : Token) : option string :=
  if tt_eqb (Type_ t) TokenOr then Some "OR" else None.
Definition xor_op (t : Token) : option string :=
  if tt_eqb (Type_ t) TokenXor then Some "XOR" else None.
Definition and_op (t : Token) : option string :=
  if tt_eqb (Type_ t) TokenAnd then Some "AND" else None.
Definition cmp_op (t : Token) : option string :=
  match Type_ t with
  | TokenEqual => Some "="
  | TokenNotEqual => Some "<>"
  | TokenLess => Some "<"
  | TokenLessEq => Some "<="
  | TokenGreater => Some ">"
  | TokenGreaterEq => Some ">="
  | _ => None
  end.
Definition add_op (t : Token) : option string :=
  match Type_ t with
  | TokenPlus | TokenMinus => Some (Literal t)
  | _ => None
  end.
Definition mul_op (t : Token) : option string :=
  match Type_ t with
  | TokenStar | TokenSlash => Some (Literal t)
  | TokenMod => Some "MOD"
  | _ => None
  end.

Section Expressions.
(** [p.parseExpression], called back for parentheses and arguments. *)
Variable parseExpression : parser Expression.

(** The arguments: [p.expect(TokenLParen)] and [p.expect(TokenRParen)] ignore their
    error, so each consumes one token, whatever it is. *)
Definition parseArgs : parser (list Expression) :=
  _ ← advance;
  args ← for_loop (λ args : list Expression,
    ty ← peekType;
    if tt_eqb ty TokenRParen || tt_eqb ty TokenEOF then mret (inr args)
    else
      arg ← parseExpression;
      more ← match_ TokenComma;
      mret (continue_if more (args ++ [arg]))) [];
  _ ← advance;
  mret args.

Definition parsePrimary : parser Expression :=
  tok ← peek;
  match Type_ tok with
  | TokenNumber => _ ← advance; mret (NumberLit (Literal tok))
  | TokenString => _ ← advance; mret (StringLit (Literal tok))
  | TokenTrue => _ ← advance; mret (BoolLit true)
  | TokenFalse => _ ← advance; mret (BoolLit false)
  | TokenTimeLiteral => _ ← advance; mret (TimeLit (Literal tok))
  | TokenLParen =>
      _ ← advance;
      expr ← parseExpression;
      _ ← advance;
      mret expr
  | TokenIdent =>
      _ ← advance;
      name ← parseMembers (Literal tok);
      ty ← peekType;
      if tt_eqb ty TokenLParen then
        args ← parseArgs;
        mret (CallExpr name args)
      else mret (IdentExpr name)
  | _ => fail ("line " +:+ itoa (Line tok) +:+ ": unexpected token " +:+ quote (Literal tok))
  end.

Fixpoint parseUnary (ts : list Token) : presult Expression :=
  match ts with
  | tok :: ts' =>
      if tt_eqb (Type_ tok) TokenNot then
        presult_bind (parseUnary ts') (λ operand, mret (UnaryExpr "NOT" operand))
      else if tt_eqb (Type_ tok) TokenMinus then
        presult_bind (parsePrimary ts') (λ operand, mret (UnaryExpr "-" operand))
      else parsePrimary ts
  | [] => parsePrimary []
  end.

Definition parseMultiplication : parser Expression :=
  left ← (parseUnary : parser Expression); binary_loop mul_op parseUnary left.
Definition parseAddition : parser Expression :=
  left ← parseMultiplication; binary_loop add_op parseMultiplication left.
Definition parseComparison : parser Expression :=
  left ← parseAddition; binary_loop cmp_op parseAddition left.
Definition parseAnd : parser Expression :=
  left ← parseComparison; binary_loop and_op parseComparison left.
Definition parseXor : parser Expression :=
  left ← parseAnd; binary_loop xor_op parseAnd left.
Definition parseOr : parser Expression :=
  left ← parseXor; binary_loop or_op parseXor left.

End Expressions.

(** Nesting is bounded by the tokens: every nested call follows a consumed token. *)
Fixpoint parseExpression_fuel (fuel : nat) : parser Expression :=
  match fuel with
  | O => λ _, PFuel
  | S n => parseOr (parseExpression_fuel n)
  end.
Definition parseExpression : parser Expression :=
  λ ts, parseExpression_fuel (S (length ts)) ts.

(** ** Statements *)

Section Statements.
(** [p.parseStatement], called back by the statement blocks. *)
Variable parseStatement : parser (option Statement).

Definition parseStatementBlock (terminators : list TokenType) : parser (list Statement) :=
  for_loop (λ stmts : list Statement,
    ty ← peekType;
    if tt_eqb ty TokenEOF || existsb (tt_eqb ty) terminators then mret (inr stmts)
    else
      stmt ← parseStatement;
      mret (inl (stmts ++ option_list stmt))) [].

Definition parseAssignOrCall : parser (option Statement) :=
  nameTok ← advance;
  fullName ← parseMembers (Literal nameTok);
  ty ← peekType;
  if tt_eqb ty TokenAssign then
    _ ← advance;
    val ← parseExpression;
    _ ← match_ TokenSemicolon;
    mret (Some (AssignStmt fullName val))
  else if tt_eqb ty TokenLParen then
    args ← parseArgs parseExpression;
    _ ← match_ TokenSemicolon;
    mret (Some (CallStmt fullName args))
  else
    _ ← match_ TokenSemicolon;
    mret (Some (AssignStmt fullName (IdentExpr fullName))).

Definition parseIfStmt : parser (option Statement) :=
  _ ← advance;
  cond ← parseExpression;
  _ ← expect TokenThen;
  then_ ← parseStatementBlock [TokenElsif; TokenElse; TokenEndIf];
  elsifs ← for_loop (λ elsifs : list (Expression * list Statement),
    ty ← peekType;
    if tt_eqb ty TokenElsif then
      _ ← advance;
      elsifCond ← parseExpression;
      _ ← advance;
      body ← parseStatementBlock [TokenElsif; TokenElse; TokenEndIf];
      mret (inl (elsifs ++ [(elsifCond, body)]))
    else mret (inr elsifs)) [];
  ty ← peekType;
  else_ ← (if tt_eqb ty TokenElse
           then _ ← advance; parseStatementBlock [TokenEndIf]
           else mret []);
  _ ← match_ TokenEndIf;
  _ ← match_ TokenSemicolon;
  mret (Some (IfStmt cond then_ elsifs else_)).

Definition parseForStmt : parser (option Statement) :=
  _ ← advance;
  varTok ← expect TokenIdent;
  _ ← advance;
  start ← parseExpression;
  _ ← advance;
  end_ ← parseExpression;
  ty ← peekType;
  step ← (if tt_eqb ty TokenBy
          then _ ← advance; step ← parseExpression; mret (Some step)
          else mret None);
  _ ← advance;
  body ← parseStatementBlock [TokenEndFor];
  _ ← match_ TokenEndFor;
  _ ← match_ TokenSemicolon;
  mret (Some (ForStmt (Literal varTok) start end_ step body)).

Definition parseWhileStmt : parser (option Statement) :=
  _ ← advance;
  cond ← parseExpression;
  _ ← advance;
  body ← parseStatementBlock [TokenEndWhile];
  _ ← match_ TokenEndWhile;
  _ ← match_ TokenSemicolon;
  mret (Some (WhileStmt cond body)).

Definition parseRepeatStmt : parser (option Statement) :=
  _ ← advance;
  body ← parseStatementBlock [TokenUntil];
  _ ← advance;
  cond ← parseExpression;
  _ ← match_ TokenEndRepeat;
  _ ← match_ TokenSemicolon;
  mret (Some (RepeatStmt body cond)).

Definition parseCaseValues : parser (list Expression) :=
  for_loop (λ values : list Expression,
    val ← parseExpression;
    more ← match_ TokenComma;
    mret (continue_if more (values ++ [val]))) [].

Definition case_over (ty : TokenType) : bool :=
  tt_eqb ty TokenEndCase || tt_eqb ty TokenElse || tt_eqb ty TokenEOF.

Definition parseCaseStmt : parser (option Statement) :=
  _ ← advance;
  expr ← parseExpression;
  _ ← advance;
  cases ← for_loop (λ cases : list (list Expression * list Statement),
    ty ← peekType;
    if case_over ty then mret (inr cases)
    else
      values ← parseCaseValues;
      _ ← advance;
      body ← parseStatementBlock [TokenEndCase; TokenElse];
      ty ← peekType;
      mret (continue_if (negb (case_over ty)) (cases ++ [(values, body)]))) [];
  ty ← peekType;
  else_ ← (if tt_eqb ty TokenElse
           then _ ← advance; parseStatementBlock [TokenEndCase]
           else mret []);
  _ ← match_ TokenEndCase;
  _ ← match_ TokenSemicolon;
  mret (Some (CaseStmt expr cases else_)).

Definition statement : parser (option Statement) :=
  ty ← peekType;
  match ty with
  | TokenIf => parseIfStmt
  | TokenFor => parseForStmt
  | TokenWhile => parseWhileStmt
  | TokenRepeat => parseRepeatStmt
  | TokenCase => parseCaseStmt
  | TokenReturn => _ ← advance; _ ← match_ TokenSemicolon; mret (Some ReturnStmt)
  | TokenSemicolon => _ ← advance; mret None
  | TokenIdent => parseAssignOrCall
  | _ => _ ← advance; mret None
  end.

End Statements.

Fixpoint parseStatement_fuel (fuel : nat) : parser (option Statement) :=
  match fuel with
  | O => λ _, PFuel
  | S n => statement (parseStatement_fuel n)
  end.
Definition parseStatement : parser (option Statement) :=
  λ ts, parseStatement_fuel (S (length ts)) ts.

(** ** Top level *)

Definition parseVarDecl : parser VarDecl :=
  nameTok ← wrap "var decl" (expect TokenIdent);
  _ ← wrap "var decl" (expect TokenColon);
  dtTok ← advance;
  ty ← peekType;
  init ← (if tt_eqb ty TokenAssign
          then _ ← advance; e ← wrap "var decl initial" parseExpression; mret (Some e)
          else mret None);
  _ ← match_ TokenSemicolon;
  mret (mkVarDecl (Literal nameTok) (to_upper (Literal dtTok)) init).

Definition parseVarBlock : parser VarBlock :=
  kindTok ← advance;
  variables ← for_loop (λ vs : list VarDecl,
    ty ← peekType;
    if tt_eqb ty TokenEndVar || tt_eqb ty TokenEOF then mret (inr vs)
    else decl ← parseVarDecl; mret (inl (vs ++ [decl]))) [];
  _ ← match_ TokenEndVar;
  mret (mkVarBlock (to_upper (Literal kindTok)) variables).

Definition isVarBlockStart (ty : TokenType) : bool :=
  tt_eqb ty TokenVar || tt_eqb ty TokenVarInput || tt_eqb ty TokenVarOutput.

(** The loop of [parseProgram] up to the token types that end it. *)
Definition parseItems (stop : TokenType → bool) : parser (list VarBlock * list Statement) :=
  for_loop (λ '((vbs, stmts) : list VarBlock * list Statement),
    ty ← peekType;
    if stop ty then mret (inr (vbs, stmts))
    else if isVarBlockStart ty then
      vb ← parseVarBlock; mret (inl (vbs ++ [vb], stmts))
    else
      stmt ← parseStatement; mret (inl (vbs, stmts ++ option_list stmt))) ([], []).

Definition parseProgram : parser Program :=
  ty ← peekType;
  if tt_eqb ty TokenProgram then
    _ ← advance;
    nameTok ← advance;
    items ← parseItems (λ ty, tt_eqb ty TokenEndProgram || tt_eqb ty TokenEOF);
    _ ← match_ TokenEndProgram;
    mret (mkProgram (Literal nameTok) items.1 items.2)
  else
    items ← parseItems (λ ty, tt_eqb ty TokenEOF);
    mret (mkProgram "main" items.1 items.2).

(** [Parse]; [None] and [PFuel] are the exhausted fuels of the two loops. *)
Definition Parse (source : string) : presult Program :=
  match Lex source with
  | Some tokens => parseProgram tokens
  | None => PFuel
  end.

End Parser.

Definition presult_value {A} (r : presult A) : option A :=
  match r with POk a _ => Some a | _ => None end.

Example Parse_ex : let _ := ascii_tables in
  presult_value (Parse "IF a.b + 2*x >= 1 AND NOT f(1, y) THEN z := -3; ELSE g(T#5s); END_IF")
  = Some (mkProgram "main" []
      [IfStmt (BinaryExpr
          (BinaryExpr (BinaryExpr (IdentExpr "a.b") "+" (BinaryExpr (NumberLit "2") "*" (IdentExpr "x")))
             ">=" (NumberLit "1"))
          "AND" (UnaryExpr "NOT" (CallExpr "f" [NumberLit "1"; IdentExpr "y"])))
        [AssignStmt "z" (UnaryExpr "-" (NumberLit "3"))] []
        [CallStmt "g" [TimeLit "5s"]]]).
Proof. vm_compute. reflexivity. Qed.

(** ** Progress and termination *)

(** [runs b r ts]: the result [r] of a parser on [ts] is not [PFuel], and when it is a
    node at least [b] tokens of [ts] are consumed. *)
Definition runs {A} (b : nat) (r : presult A) (ts : list Token) : Prop :=
  match r with
  | POk _ rest => (length rest + b ≤ length ts)%nat
  | PErr _ => True
  | PFuel => False
  end.

(** [Runs b N p]: so does [p] on every list of fewer than [N] tokens. *)
Definition Runs {A} (b N : nat) (p : parser A) : Prop :=
  ∀ ts, (length ts < N)%nat → runs b (p ts) ts.

Section Progress.

Lemma peekType_bind {A} (f : TokenType → parser A) ts :
  (peekType ≫= f) ts = f (Type_ (peek_token ts)) ts.
Proof. reflexivity. Qed.

Lemma Runs_weaken {A} b N (p : parser A) : Runs b N p → Runs 0 N p.
Proof. intros H ts Hts. specialize (H ts Hts). destruct (p ts); cbn in *; [lia|done..]. Qed.

Lemma Runs_bind {A B} b N (p : parser A) (f : A → parser B) :
  Runs b N p → (∀ a, Runs 0 N (f a)) → Runs b N (p ≫= f).
Proof.
  intros Hp Hf ts Hts. specialize (Hp ts Hts). unfold mbind, parser_bind.
  destruct (p ts) as [a rest|e|]; cbn in *; [|done..].
  specialize (Hf a rest ltac:(lia)). destruct (f a rest); cbn in *; [lia|done..].
Qed.

Lemma Runs_bind0 {A B} N (p : parser A) (f : A → parser B) :
  Runs 0 N p → (∀ a, Runs 0 N (f a)) → Runs 0 N (p ≫= f).
Proof. apply Runs_bind. Qed.

Lemma Runs_ret {A} N (a : A) : Runs 0 N (mret a : parser A).
Proof. intros ts _. cbn. lia. Qed.
Lemma Runs_fail {A} b N msg : Runs b N (fail msg : parser A).
Proof. done. Qed.
Lemma Runs_peek N : Runs 0 N peek.
Proof. intros ts _. cbn. lia. Qed.
Lemma Runs_peekType N : Runs 0 N peekType.
Proof. intros ts _. cbn. lia. Qed.
Lemma Runs_advance N : Runs 0 N advance.
Proof. intros [|t ts] _; cbn; lia. Qed.
Lemma Runs_match N ty : Runs 0 N (match_ ty).
Proof. intros ts _. unfold match_. case_if; cbn; [destruct ts; cbn; lia|lia]. Qed.
Lemma Runs_wrap {A} b N s (p : parser A) : Runs b N p → Runs b N (wrap s p).
Proof. intros H ts Hts. specialize (H ts Hts). unfold wrap. destruct (p ts); done. Qed.

(** A parser that starts by advancing over an existing token. *)
Lemma runs_advance {A} b N t ts (f : Token → parser A) :
  (length ts < N)%nat → Runs b N (f t) → runs (S b) ((advance ≫= f) (t :: ts)) (t :: ts).
Proof.
  intros Hl Hf. specialize (Hf ts Hl). unfold mbind, parser_bind, advance. cbn [presult_bind peek_token tail].
  destruct (f t ts); cbn in *; [lia|done..].
Qed.

(** What a loop body must do on short lists: consume a token when it goes on. *)
Definition body_runs {S} (N : nat) (body : S → parser (S + S)) : Prop :=
  ∀ s ts, (length ts < N)%nat →
    match body s ts with
    | POk (inl _) rest => (length rest < length ts)%nat
    | POk (inr _) rest => (length rest ≤ length ts)%nat
    | PErr _ => True
    | PFuel => False
    end.

Lemma runs_loop_fuel {S} N (body : S → parser (S + S)) f s ts :
  body_runs N body → (length ts < f)%nat → (length ts < N)%nat →
  runs 0 (loop f body s ts) ts.
Proof.
  intros Hb. revert s ts. induction f as [|f IH]; intros s ts Hf Hts; [lia|]. cbn [loop].
  specialize (Hb s ts Hts). unfold mbind, parser_bind.
  destruct (body s ts) as [[s'|s'] rest|e|]; cbn in *; [|lia|done..].
  specialize (IH s' rest ltac:(lia) ltac:(lia)).
  destruct (loop f body s' rest); cbn in *; [lia|done..].
Qed.

Lemma Runs_loop {S} N (body : S → parser (S + S)) :
  body_runs N body → ∀ s, Runs 0 N (for_loop body s).
Proof. intros Hb s ts Hts. apply (runs_loop_fuel N); [done|lia|done]. Qed.

Lemma strict_body_runs {S} N (body : S → parser (S + S)) :
  (∀ s, Runs 1 N (body s)) → body_runs N body.
Proof.
  intros Hb s ts Hts. specialize (Hb s ts Hts).
  destruct (body s ts) as [[s'|s'] rest|e|]; cbn in *; lia || done.
Qed.

(** A loop whose first iteration always consumes. *)
Lemma Runs_loop_first {S} N (body : S → parser (S + S)) s :
  body_runs N body → Runs 1 N (body s) → Runs 1 N (for_loop body s).
Proof.
  intros Hb Hs ts Hts. specialize (Hs ts Hts). unfold for_loop. cbn [loop].
  unfold mbind, parser_bind. destruct (body s ts) as [[s'|s'] rest|e|]; cbn in *; [|lia|done..].
  pose proof (runs_loop_fuel N body (length ts) s' rest Hb ltac:(lia) ltac:(lia)).
  destruct (loop (length ts) body s' rest); cbn in *; [lia|done..].
Qed.

(** A loop whose body peeks, and consumes when it goes on. *)
Lemma Runs_loop_consume {S} N (body : S → parser (S + S)) :
  (∀ s ts, (length ts < N)%nat → (∃ s' ts', body s ts = POk (inr s') ts' ∧ ts' = ts) ∨ runs 1 (body s ts) ts) →
  ∀ s, Runs 0 N (for_loop body s).
Proof.
  intros Hb. apply Runs_loop. intros s ts Hts.
  destruct (Hb s ts Hts) as [(s' & ts' & -> & ->)|H]; [done|].
  destruct (body s ts) as [[s'|s'] rest|e|]; cbn in *; lia || done.
Qed.

Context `{UnicodeTables}.

Lemma Runs_expect N ty : Runs 0 N (expect ty).
Proof.
  apply Runs_bind0; [apply Runs_advance|]. intros t. case_if; [apply Runs_ret|apply Runs_fail].
Qed.

Lemma Runs_expect1 N ty : ty ≠ TokenEOF → Runs 1 N (expect ty).
Proof.
  intros Hty [|t ts] _.
  - unfold expect, mbind, parser_bind. cbn [advance presult_bind peek_token tail Type_]. destruct (tt_eqb_spec TokenEOF ty); [by subst|done].
  - unfold expect, mbind, parser_bind. cbn [advance presult_bind peek_token tail].
    case_if; cbn; [lia|done].
Qed.

Lemma members_length name ts : (length (members name ts).2 ≤ length ts)%nat.
Proof.
  enough (Hp : (length (members name ts).2 ≤ length ts)%nat ∧
    ∀ t name, (length (members name (t :: ts)).2 ≤ S (length ts))%nat) by apply Hp.
  revert name. induction ts as [|t ts IH]; intros name; split.
  - done.
  - intros t name'. cbn. case_if; cbn; lia.
  - by apply (IH name).
  - intros t' name'. cbn [members]. case_if; [|done].
    destruct (IH (name' +:+ "." +:+ Literal t)) as [H1 _]. cbn [length]. lia.
Qed.

Lemma Runs_members N name : Runs 0 N (parseMembers name).
Proof.
  intros ts _. unfold parseMembers. pose proof (members_length name ts).
  destruct (members name ts). cbn in *. lia.
Qed.

Lemma Runs_binary_loop N op sub left :
  (∀ ts s, op (peek_token ts) = Some s → ts ≠ []) → Runs 0 N sub →
  Runs 0 N (binary_loop op sub left).
Proof.
  intros Hop Hsub. apply Runs_loop_consume. clear left. intros left ts Hts.
  unfold mbind, parser_bind. cbn. destruct (op (peek_token ts)) as [o|] eqn:E; [|left; eauto].
  right. destruct ts as [|t ts]; [by apply Hop in E|]. cbn in Hts. specialize (Hsub ts ltac:(lia)).
  cbn. destruct (sub ts); cbn in *; [lia|done..].
Qed.

Section ExprRuns.
Variable pe : parser Expression.
Variable N : nat.
Hypothesis Hpe : Runs 1 N pe.

Lemma Runs_args : Runs 0 N (parseArgs pe).
Proof.
  apply Runs_bind0; [apply Runs_advance|]. intros _. apply Runs_bind0.
  - apply Runs_loop_consume. intros args ts Hts.
    unfold mbind, parser_bind. cbn. case_if; [left; eauto|right].
    apply (Runs_bind 1 N pe (λ arg, _)); [done| |done].
    intros arg. apply Runs_bind0; [apply Runs_match|]. intros. apply Runs_ret.
  - intros args. apply Runs_bind0; [apply Runs_advance|]. intros. apply Runs_ret.
Qed.

Lemma Runs_primary : Runs 1 (S N) (parsePrimary pe).
Proof.
  intros [|t ts] Hts; [done|]. cbn in Hts. unfold parsePrimary.
  change (runs 1 (presult_bind (peek (t :: ts)) ?f) ?l) with (runs 1 (f t (t :: ts)) l).
  unfold mbind at 1, parser_bind at 1. cbn [presult_bind peek peek_token].
  destruct (Type_ t); try done.
  all: apply (runs_advance 0 N); [lia|]; try apply Runs_ret.
  - apply Runs_bind0; [apply Runs_members|]. intros name. apply Runs_bind0; [apply Runs_peekType|].
    intros ty. case_if; [|apply Runs_ret]. apply Runs_bind0; [apply Runs_args|].
    intros. apply Runs_ret.
  - apply Runs_bind0; [by eapply Runs_weaken|]. intros e.
    apply Runs_bind0; [apply Runs_advance|]. intros. apply Runs_ret.
Qed.

Lemma Runs_unary : Runs 1 (S N) (parseUnary pe).
Proof.
  intros ts. induction ts as [|t ts IH]; intros Hts; [done|]. cbn [parseUnary length] in *.
  case_if; [|case_if].
  - specialize (IH ltac:(lia)). destruct (parseUnary pe ts); cbn in *; [lia|done..].
  - pose proof (Runs_primary ts ltac:(lia)) as Hp.
    destruct (parsePrimary pe ts); cbn in *; [lia|done..].
  - by apply Runs_primary.
Qed.

Lemma Runs_or : Runs 1 (S N) (parseOr pe).
Proof.
  assert (Hlvl : ∀ op sub, (∀ ts s, op (peek_token ts) = Some s → ts ≠ []) → Runs 1 (S N) sub →
    Runs 1 (S N) (left ← sub; binary_loop op sub left)).
  { intros op sub Hop Hsub. apply Runs_bind; [done|]. intros left.
    apply Runs_binary_loop; [done|by eapply Runs_weaken]. }
  do 6 (apply Hlvl; [by intros [|t ts] s|]). apply Runs_unary.
Qed.

End ExprRuns.

Lemma Runs_expression_fuel n : Runs 1 n (parseExpression_fuel n).
Proof. induction n as [|n IH]; [by intros ts Hts; lia|]. by apply Runs_or. Qed.

Lemma Runs_expression b N : (b ≤ 1)%nat → Runs b N parseExpression.
Proof.
  intros Hb ts _. pose proof (Runs_expression_fuel (S (length ts)) ts ltac:(lia)) as H1.
  unfold parseExpression. destruct (parseExpression_fuel _ ts); cbn in *; [lia|done..].
Qed.

End Progress.

(** Goals [Runs 0 N p] for a parser composed of the pieces above. *)
Create HintDb runs discriminated.
#[export] Hint Resolve Runs_ret Runs_fail Runs_peek Runs_peekType Runs_advance Runs_match
  Runs_expect Runs_members Runs_wrap Runs_args : runs.
#[export] Hint Extern 1 (Runs _ _ parseExpression) => apply Runs_expression; lia : runs.

Ltac runs :=
  repeat first
    [ solve [eauto with runs]
    | apply Runs_bind0
    | case_if
    | match goal with |- ∀ _, _ => intro end ].

Section StatementRuns.
Context `{UnicodeTables}.

Lemma Runs_args_expression N : Runs 0 N (parseArgs parseExpression).
Proof. apply Runs_args, Runs_expression; lia. Qed.
Hint Resolve Runs_args_expression : runs.

Variable ps : parser (option Statement).
Variable N : nat.
Hypothesis Hps : ∀ ts, (length ts < N)%nat → ts ≠ [] → runs 1 (ps ts) ts.

Lemma Runs_block terms : Runs 0 N (parseStatementBlock ps terms).
Proof.
  apply Runs_loop_consume. intros stmts ts Hts. unfold mbind, parser_bind. cbn.
  destruct ts as [|t ts]; [left; cbn; eauto|]. cbn [peek_token].
  case_if; [left; eauto|right]. specialize (Hps (t :: ts) Hts ltac:(done)).
  destruct (ps (t :: ts)); done.
Qed.
Hint Resolve Runs_block : runs.

Lemma Runs_case_values b : (b ≤ 1)%nat → Runs b N parseCaseValues.
Proof.
  intros Hb. assert (H1 : ∀ values, Runs 1 N (val ← parseExpression;
      more ← match_ TokenComma; mret (continue_if more (values ++ [val])))).
  { intros values. apply Runs_bind; [apply Runs_expression; lia|]. runs. }
  enough (Runs 1 N parseCaseValues) by (destruct b as [|[|]]; [by eapply Runs_weaken|done|lia]).
  by apply Runs_loop_first; [apply strict_body_runs|].
Qed.
Hint Extern 1 (Runs _ _ parseCaseValues) => apply Runs_case_values; lia : runs.

(** A statement started by its keyword consumes it. *)
Lemma runs_keyword {A} t ts (f : Token → parser A) :
  (length ts < N)%nat → Runs 0 N (f t) → runs 1 ((advance ≫= f) (t :: ts)) (t :: ts).
Proof. apply runs_advance. Qed.

Lemma runs_if t ts : (length ts < N)%nat → runs 1 (parseIfStmt ps (t :: ts)) (t :: ts).
Proof.
  intros Hts. apply runs_keyword; [done|]. runs.
  apply Runs_loop_consume. intros elsifs us Hus. rewrite peekType_bind. destruct us as [|u us]; [left; cbn; eauto|]. cbn [peek_token].
  case_if; [right|left; eauto]. apply runs_keyword; [cbn in Hus; lia|]. runs.
Qed.

Lemma runs_case t ts : (length ts < N)%nat → runs 1 (parseCaseStmt ps (t :: ts)) (t :: ts).
Proof.
  intros Hts. apply runs_keyword; [done|]. runs.
  apply Runs_loop_consume. intros cases us Hus. rewrite peekType_bind. case_if; [left; eauto|right].
  apply (Runs_bind 1 N parseCaseValues (λ values, _)); [apply Runs_case_values; lia|runs|done].
Qed.

Lemma runs_statement ts : (length ts < S N)%nat → ts ≠ [] → runs 1 (statement ps ts) ts.
Proof.
  intros Hts Hne. destruct ts as [|t ts]; [done|]. cbn in Hts.
  unfold statement. rewrite peekType_bind. cbn [peek_token].
  assert (Hskip : runs 1 ((_ ← advance; mret (None : option Statement)) (t :: ts)) (t :: ts))
    by (apply runs_keyword; [lia|runs]).
  destruct (Type_ t); try exact Hskip.
  - apply runs_keyword; [lia|runs].
  - apply runs_if; lia.
  - apply runs_keyword; [lia|runs].
  - apply runs_keyword; [lia|runs].
  - apply runs_keyword; [lia|runs].
  - apply runs_case; lia.
  - apply runs_keyword; [lia|runs].
Qed.

End StatementRuns.

Section Totality.
Context `{UnicodeTables}.
#[local] Hint Resolve Runs_args_expression : runs.

Lemma runs_statement_fuel n ts : (length ts < n)%nat → ts ≠ [] →
  runs 1 (parseStatement_fuel n ts) ts.
Proof.
  revert ts. induction n as [|n IH]; intros ts Hts Hne; [lia|]. by apply (runs_statement _ n).
Qed.

Lemma runs_parseStatement ts : ts ≠ [] → runs 1 (parseStatement ts) ts.
Proof. intros. apply runs_statement_fuel; [lia|done]. Qed.

Lemma runs_var_block t ts : runs 1 (parseVarBlock (t :: ts)) (t :: ts).
Proof.
  apply (runs_advance 0 (S (length ts))); [lia|]. set (N := S (length ts)). runs.
  apply Runs_loop_consume. intros vs us Hus. rewrite peekType_bind. destruct us as [|u us]; [left; cbn; eauto|]. cbn [peek_token].
  case_if; [left; eauto|right].
  apply (Runs_bind 1 N parseVarDecl (λ decl, _)); [|runs|done].
  apply Runs_bind; [by apply Runs_wrap, Runs_expect1|runs].
Qed.

Lemma Runs_items N stop : stop TokenEOF = true → Runs 0 N (parseItems stop).
Proof.
  intros Hstop. apply Runs_loop_consume. intros [vbs stmts] ts Hts.
  rewrite peekType_bind.
  destruct ts as [|t ts]; [cbn; rewrite Hstop; left; eauto|]. cbn [peek_token].
  destruct (stop (Type_ t)); [left; eauto|right]. unfold mbind, parser_bind. case_if.
  - pose proof (runs_var_block t ts). destruct (parseVarBlock (t :: ts)); done.
  - pose proof (runs_parseStatement (t :: ts) ltac:(done)).
    destruct (parseStatement (t :: ts)); done.
Qed.

(** C40: the parser terminates on every source text, with a program or an error: neither
    the nesting of expressions and statements nor any of its loops runs out of
    fuel, because every one of them consumes tokens. *)
Theorem Parse_total (source : string) :
  (∃ prog rest, Parse source = POk prog rest) ∨ ∃ msg, Parse source = PErr msg.
Proof.
  unfold Parse. destruct (Lex_defined source) as (ts & eof & -> & _).
  assert (Hp : ∀ us, runs 0 (parseProgram us) us).
  { intros us. unfold parseProgram. apply (Runs_bind0 (S (length us)) peekType (λ ty, _)); [runs| |lia].
    intros ty. case_if; runs; apply Runs_items; done. }
  specialize (Hp (ts ++ [eof])). destruct (parseProgram _); eauto; done.
Qed.

End Totality.
