(* ===== verification/StRoundtrip.v ===== *)
(** Printing Structured Text and parsing it back: the parser of StParser.v respects
    the precedence and associativity of the operators and the shape of every
    statement.

    [print_expr k e] is the minimal text of [e] at precedence level [k]: operators
    of level 0 (OR) to 5 (multiplication), unary operators (6) and primaries (7). *)

From S2P Require Export StParser.

(** ** Printer *)

Definition spell : Type := TokenType * string.

(** The level and the token of a binary operator. *)
Definition binop (op : string) : option (nat * spell) :=
  match list_find (λ e : string * (nat * spell), e.1 = op)
    [("OR", (0, (TokenOr, "OR"))); ("XOR", (1, (TokenXor, "XOR"))); ("AND", (2, (TokenAnd, "AND")));
     ("=", (3, (TokenEqual, "="))); ("<>", (3, (TokenNotEqual, "<>"))); ("<", (3, (TokenLess, "<")));
     ("<=", (3, (TokenLessEq, "<="))); (">", (3, (TokenGreater, ">")));
     (">=", (3, (TokenGreaterEq, ">="))); ("+", (4, (TokenPlus, "+"))); ("-", (4, (TokenMinus, "-")));
     ("*", (5, (TokenStar, "*"))); ("/", (5, (TokenSlash, "/"))); ("MOD", (5, (TokenMod, "MOD")))]
  with Some (_, (_, r)) => Some r | None => None end.

Definition elevel (e : Expression) : nat :=
  match e with
  | BinaryExpr _ op _ => match binop op with Some (k, _) => k | None => 7 end
  | UnaryExpr _ _ => 6
  | _ => 7
  end.

Definition ident_tokens (name : string) : list spell :=
  match split "." name with
  | s :: ss => (TokenIdent, s) :: concat (map (λ x, [(TokenDot, "."); (TokenIdent, x)]) ss)
  | [] => []
  end.

Definition comma : spell := (TokenComma, ",").
Fixpoint commas (l : list (list spell)) : list spell :=
  match l with
  | [] => []
  | [x] => x
  | x :: l' => x ++ comma :: commas l'
  end.

Definition parens (b : bool) (l : list spell) : list spell :=
  if b then (TokenLParen, "(") :: l ++ [(TokenRParen, ")")] else l.

Fixpoint print_expr (k : nat) (e : Expression) {struct e} : list spell :=
  parens (elevel e <? k)%nat
    match e with
    | NumberLit v => [(TokenNumber, v)]
    | StringLit v => [(TokenString, v)]
    | BoolLit b => [if b then (TokenTrue, "TRUE") else (TokenFalse, "FALSE")]
    | TimeLit r => [(TokenTimeLiteral, r)]
    | IdentExpr n => ident_tokens n
    | BinaryExpr l op r =>
        match binop op with
        | Some (j, t) => print_expr j l ++ t :: print_expr (S j) r
        | None => []
        end
    | UnaryExpr op o =>
        if String.eqb op "NOT" then (TokenNot, "NOT") :: print_expr 6 o
        else (TokenMinus, "-") :: print_expr 7 o
    | CallExpr n args =>
        ident_tokens n ++ parens true (commas (map (print_expr 0) args))
    | MemberExpr _ _ => []
    end.

(** The expressions the parser can produce: it knows the operators and builds
    dotted names, never member nodes. *)
Fixpoint printable (e : Expression) : bool :=
  match e with
  | BinaryExpr l op r => bool_decide (is_Some (binop op)) && printable l && printable r
  | UnaryExpr op o => (String.eqb op "NOT" || String.eqb op "-") && printable o
  | CallExpr _ args => forallb printable args
  | MemberExpr _ _ => false
  | _ => true
  end.

(** ** Levels of the parser *)

Definition level_op (k : nat) : Token → option string :=
  match k with
  | 0 => or_op | 1 => xor_op | 2 => and_op | 3 => cmp_op | 4 => add_op | _ => mul_op
  end.

Section Levels.
Context `{UnicodeTables}.

Definition parse_lvl (pe : parser Expression) (k : nat) : parser Expression :=
  match k with
  | 0 => parseOr pe | 1 => parseXor pe | 2 => parseAnd pe | 3 => parseComparison pe
  | 4 => parseAddition pe | 5 => parseMultiplication pe | 6 => parseUnary pe
  | _ => parsePrimary pe
  end.

Lemma parse_lvl_binary pe k : (k ≤ 5)%nat →
  parse_lvl pe k = (left ← parse_lvl pe (S k); binary_loop (level_op k) (parse_lvl pe (S k)) left).
Proof. intros Hk. do 6 (destruct k as [|k]; [done|]). lia. Qed.

Lemma level_op_some k ts s : level_op k (peek_token ts) = Some s → ts ≠ [].
Proof. destruct ts; [|done]. by do 6 (destruct k as [|k]; [done|]). Qed.

Lemma Runs_lvl pe N k : Runs 1 N pe → Runs 1 (S N) (parse_lvl pe k).
Proof.
  intros Hpe. destruct (decide (7 ≤ k)) as [Hk|Hk].
  { destruct k as [|[|[|[|[|[|[|k]]]]]]]; [lia..|]. by apply Runs_primary. }
  assert (H6 : Runs 1 (S N) (parse_lvl pe 6)) by (by apply Runs_unary).
  assert (Hd : ∀ d, (d ≤ 6)%nat → Runs 1 (S N) (parse_lvl pe (6 - d))).
  { induction d as [|d IH]; intros Hd; [done|]. rewrite parse_lvl_binary by lia.
    replace (S (6 - S d)) with (6 - d)%nat by lia.
    apply Runs_bind; [apply IH; lia|]. intros left.
    apply Runs_binary_loop; [apply level_op_some|]. apply (Runs_weaken 1), IH. lia. }
  replace k with (6 - (6 - k))%nat by lia. apply Hd. lia.
Qed.

(** *** Loops do not depend on their fuel *)

Lemma loop_fuel {S} (body : S → parser (S + S)) f g s ts :
  body_runs (Datatypes.S (length ts)) body → (length ts < f)%nat → (length ts < g)%nat →
  loop f body s ts = loop g body s ts.
Proof.
  revert g s ts. induction f as [|f IH]; intros [|g] s ts Hb Hf Hg; [lia..|]. cbn.
  pose proof (Hb s ts ltac:(lia)) as H1. unfold mbind, parser_bind.
  destruct (body s ts) as [[s'|s'] rest|e|]; cbn; try done.
  apply IH; [|lia..]. intros s'' ts' Hts. apply Hb. lia.
Qed.

Lemma for_loop_unfold {S} (body : S → parser (S + S)) s ts :
  body_runs (Datatypes.S (length ts)) body →
  for_loop body s ts =
  presult_bind (body s ts) (λ c, match c with inl s' => for_loop body s' | inr s' => mret s' end).
Proof.
  intros Hb. unfold for_loop at 1. cbn [loop]. unfold mbind, parser_bind.
  pose proof (Hb s ts ltac:(lia)) as H1.
  destruct (body s ts) as [[s'|s'] rest|e|]; cbn; try done.
  change (loop (length ts) body s' rest = loop (Datatypes.S (length rest)) body s' rest). apply loop_fuel; [|lia..]. intros s'' ts' Hts. apply Hb. lia.
Qed.

Lemma consume_body_runs {S} N (body : S → parser (S + S)) :
  (∀ s ts, (length ts < N)%nat → (∃ s' ts', body s ts = POk (inr s') ts' ∧ ts' = ts) ∨ runs 1 (body s ts) ts) →
  body_runs N body.
Proof.
  intros Hb s ts Hts. destruct (Hb s ts Hts) as [(s' & ts' & -> & ->)|H1]; [done|].
  destruct (body s ts) as [[s'|s'] rest|e|]; cbn in *; lia || done.
Qed.

Lemma binary_loop_stop op sub left ts :
  op (peek_token ts) = None → binary_loop op sub left ts = POk left ts.
Proof. intros Hop. unfold binary_loop, for_loop. cbn. unfold mbind, parser_bind. cbn. by rewrite Hop. Qed.

Lemma binary_loop_step N k sub left t ts o :
  Runs 0 N sub → (length ts < N)%nat → level_op k t = Some o →
  binary_loop (level_op k) sub left (t :: ts)
  = presult_bind (sub ts) (λ right, binary_loop (level_op k) sub (BinaryExpr left o right)).
Proof.
  intros Hsub Hts Ho. unfold binary_loop at 1. rewrite for_loop_unfold.
  - unfold mbind, parser_bind. cbn [peek presult_bind peek_token]. rewrite Ho. cbn.
    by destruct (sub ts).
  - apply consume_body_runs. intros left' us Hus. unfold mbind, parser_bind.
    cbn [peek presult_bind]. destruct (level_op k (peek_token us)) as [o'|] eqn:E; [|left; cbn; eauto].
    right. destruct us as [|u us]; [by apply level_op_some in E|]. cbn in Hus.
    specialize (Hsub us ltac:(lia)). cbn. destruct (sub us); cbn in *; [lia|done..].
Qed.

(** *** What may follow an expression *)

(** The level at which a token would continue the expression before it. *)
Definition binding (ty : TokenType) : option nat :=
  match ty with
  | TokenOr => Some 0 | TokenXor => Some 1 | TokenAnd => Some 2
  | TokenEqual | TokenNotEqual | TokenLess | TokenLessEq | TokenGreater
  | TokenGreaterEq => Some 3
  | TokenPlus | TokenMinus => Some 4
  | TokenStar | TokenSlash | TokenMod => Some 5
  | TokenDot | TokenLParen => Some 8
  | _ => None
  end.

(** [stops k ts]: an expression of level [k] ends before [ts]. *)
Definition stops (k : nat) (ts : list Token) : Prop :=
  match binding (Type_ (peek_token ts)) with Some l => (l < k)%nat | None => True end.

Lemma stops_le j k ts : (j ≤ k)%nat → stops j ts → stops k ts.
Proof. unfold stops. case_match; [lia|done]. Qed.

Lemma stops_level_op j k ts : (j ≤ k)%nat → (k ≤ 5)%nat → stops j ts → level_op k (peek_token ts) = None.
Proof.
  unfold stops. intros Hj Hk Hs. set (t := peek_token ts) in *. clearbody t.
  destruct (level_op k t) as [o|] eqn:E; [|done]. exfalso.
  assert (Hb : binding (Type_ t) = Some k).
  { do 6 (destruct k as [|k]; [cbn in E; unfold or_op, xor_op, and_op, cmp_op, add_op, mul_op in E;
      destruct (Type_ t); done|]). lia. }
  rewrite Hb in Hs. lia.
Qed.

Lemma stops_primary k ts : (k ≤ 7)%nat → stops k ts →
  tt_eqb (Type_ (peek_token ts)) TokenDot = false ∧ tt_eqb (Type_ (peek_token ts)) TokenLParen = false.
Proof.
  unfold stops. intros Hk Hs. destruct (Type_ (peek_token ts)); try done; cbn in Hs; lia.
Qed.

(** ** Round trip of expressions *)

(** [Pk e k]: the parser of level [k] reads the text of [e] at level [k], whatever
    the positions of its tokens, and leaves what follows. *)
Definition Pk (e : Expression) (k : nat) : Prop :=
  ∀ n ts rest, map spelling ts = print_expr k e → stops k rest →
    (length (ts ++ rest) ≤ n)%nat →
    parse_lvl (parseExpression_fuel n) k (ts ++ rest) = POk e rest.

(** [Qk e k]: when an operator of level [k] may follow, it goes on with [e] as the
    left operand. *)
Definition Qk (e : Expression) (k : nat) : Prop :=
  ∀ n ts rest, map spelling ts = print_expr k e → stops (S k) rest →
    (length (ts ++ rest) ≤ n)%nat →
    parse_lvl (parseExpression_fuel n) k (ts ++ rest)
    = binary_loop (level_op k) (parse_lvl (parseExpression_fuel n) (S k)) e rest.

Lemma Q_to_P e k : (k ≤ 5)%nat → Qk e k → Pk e k.
Proof.
  intros Hk HQ n ts rest Hts Hs Hn. rewrite HQ; [|done|by eapply stops_le; [|done]; lia|done].
  apply binary_loop_stop. by eapply stops_level_op.
Qed.

Lemma P_to_Q e k : (k ≤ 5)%nat → print_expr k e = print_expr (S k) e → Pk e (S k) → Qk e k.
Proof.
  intros Hk Hp HP n ts rest Hts Hs Hn. rewrite parse_lvl_binary by done.
  unfold mbind, parser_bind. rewrite HP; [done|by rewrite <- Hp|done|done].
Qed.

Lemma print_expr_parens k e :
  print_expr k e = parens (elevel e <? k)%nat (print_expr 0 e).
Proof. destruct e; cbn; try done; by destruct (_ <? k)%nat. Qed.

Lemma elevel_le e : (elevel e ≤ 7)%nat.
Proof.
  destruct e; cbn; try lia. unfold binop. destruct (list_find _ _) as [[i [o r]]|] eqn:E; [|lia].
  apply list_find_Some in E as (E & _ & _). apply list_elem_of_lookup_2, list_elem_of_In in E.
  cbn in E. destruct r as [j t]. naive_solver lia.
Qed.

(** A token list printed as [x :: l]. *)
Lemma spelling_cons ts x l : map spelling ts = x :: l →
  ∃ t ts', ts = t :: ts' ∧ Type_ t = x.1 ∧ Literal t = x.2 ∧ map spelling ts' = l.
Proof. destruct ts as [|t ts]; [done|]. intros [= <- <-]. by exists t, ts. Qed.

Lemma spelling_app ts l1 l2 : map spelling ts = l1 ++ l2 →
  ∃ ts1 ts2, ts = ts1 ++ ts2 ∧ map spelling ts1 = l1 ∧ map spelling ts2 = l2.
Proof. intros Hm. apply map_eq_app in Hm as (a & b & -> & <- & <-). eauto. Qed.

Lemma spelling_parens ts l : map spelling ts = parens true l →
  ∃ t1 ts' t2, ts = t1 :: ts' ++ [t2] ∧ Type_ t1 = TokenLParen ∧ Type_ t2 = TokenRParen
    ∧ map spelling ts' = l.
Proof.
  intros Hm. apply spelling_cons in Hm as (t1 & ts' & -> & H1 & _ & Hm).
  apply spelling_app in Hm as (ts1 & ts2 & -> & Hm1 & Hm2).
  apply spelling_cons in Hm2 as (t2 & ts3 & -> & H2 & _ & Hm3).
  destruct ts3; [|done]. by exists t1, ts1, t2.
Qed.

Lemma P_parens e : (elevel e < 7)%nat → Pk e 0 → Pk e 7.
Proof.
  intros He HP n ts rest Hts Hs Hn. rewrite print_expr_parens in Hts.
  rewrite (proj2 (Nat.ltb_lt _ _) He) in Hts.
  apply spelling_parens in Hts as (t1 & ts' & t2 & -> & H1 & H2 & Hts).
  cbn [app length] in *. rewrite <- app_assoc in *. cbn [app] in *.
  destruct n as [|n]; [lia|]. cbn [parse_lvl]. unfold parsePrimary.
  unfold mbind at 1, parser_bind at 1. cbn [peek presult_bind peek_token]. rewrite H1.
  unfold mbind, parser_bind. cbn [advance presult_bind tail].
  change (parseExpression_fuel (S n) (ts' ++ t2 :: rest))
    with (parse_lvl (parseExpression_fuel n) 0 (ts' ++ t2 :: rest)).
  rewrite HP; [done|done| |lia]. unfold stops. cbn. by rewrite H2.
Qed.

(** *** Names *)

Definition dotted (n : string) (ss : list string) : string :=
  fold_left (λ n s, n +:+ "." +:+ s) ss n.

#[local] Arguments str : simpl never.
#[local] Arguments dotted : simpl never.

Lemma dotted_app a n ss : dotted (a +:+ n) ss = a +:+ dotted n ss.
Proof.
  revert n. induction ss as [|s ss IH]; intros n; [done|].
  change (dotted ((a +:+ n) +:+ "." +:+ s) ss = a +:+ dotted (n +:+ "." +:+ s) ss).
  by rewrite <- string_app_assoc, IH.
Qed.

Lemma split_dotted name :
  match split "." name with s :: ss => dotted s ss = name | [] => False end.
Proof.
  enough (Hl : ∀ l, match str <$> split_chars "." l with
    | s :: ss => dotted s ss = str l | [] => False end).
  { specialize (Hl (chars name)). by rewrite str_chars in Hl. }
  induction l as [|c l IH]; [done|].
  cbn [split_chars]. destruct (Ascii.eqb c ".") eqn:E.
  - apply Ascii.eqb_eq in E as ->. destruct (split_chars "." l) as [|t ts]; [done|].
    change (dotted ("." +:+ str t) (str <$> ts) = "." +:+ str l).
    rewrite dotted_app. by rewrite <- IH.
  - destruct (split_chars "." l) as [|t ts]; [done|].
    change (dotted (str [c] +:+ str t) (str <$> ts) = str [c] +:+ str l).
    rewrite dotted_app. by rewrite <- IH.
Qed.

Lemma members_dotted n ss ts rest :
  map spelling ts = concat (map (λ x, [(TokenDot, "."); (TokenIdent, x)]) ss) →
  tt_eqb (Type_ (peek_token rest)) TokenDot = false →
  members n (ts ++ rest) = (dotted n ss, rest).
Proof.
  revert n ts. induction ss as [|s ss IH]; intros n ts Hts Hd.
  - cbn in Hts. destruct ts; [|done]. cbn. destruct rest as [|r rest]; [done|].
    cbn in *. by rewrite Hd.
  - cbn in Hts. apply spelling_cons in Hts as (t1 & ts1 & -> & H1 & _ & Hts).
    apply spelling_cons in Hts as (t2 & ts2 & -> & _ & H2 & Hts). cbn in *.
    rewrite H1, H2. cbn. by apply IH.
Qed.

(** The tokens of a name followed by anything but a dot are read as the name. *)
Lemma ident_tokens_parse name ts rest :
  map spelling ts = ident_tokens name →
  tt_eqb (Type_ (peek_token rest)) TokenDot = false →
  ∃ t ts', ts = t :: ts' ∧ Type_ t = TokenIdent
    ∧ parseMembers (Literal t) (ts' ++ rest) = POk name rest.
Proof.
  intros Hts Hd. unfold ident_tokens in Hts. pose proof (split_dotted name) as Hsp.
  destruct (split "." name) as [|s ss]; [done|].
  apply spelling_cons in Hts as (t & ts' & -> & H1 & H2 & Hts). cbn in H1, H2.
  exists t, ts'. split_and!; [done..|]. unfold parseMembers.
  rewrite (members_dotted _ ss) by done. by rewrite H2, Hsp.
Qed.

(** *** Descending through the levels *)

Lemma ident_tokens_head name : ∃ s l, ident_tokens name = (TokenIdent, s) :: l.
Proof.
  unfold ident_tokens. pose proof (split_dotted name).
  destruct (split "." name); [done|]. eauto.
Qed.

Lemma primary_head e : printable e = true →
  ∃ x l, print_expr 7 e = x :: l ∧ x.1 ≠ TokenNot ∧ x.1 ≠ TokenMinus.
Proof.
  intros Hp. rewrite print_expr_parens. destruct (elevel e <? 7)%nat eqn:E; [cbn; eauto 6|].
  apply Nat.ltb_ge in E. destruct e; cbn in *; eauto 6; try lia; try done.
  - destruct Value; eauto 6.
  - destruct (ident_tokens_head Name) as (s & l & ->). cbn. eauto 6.
  - destruct (binop Op) as [[j t]|] eqn:Eb; [|by rewrite bool_decide_eq_false_2 in Hp by (by intros []) ].
    exfalso. pose proof (elevel_le (BinaryExpr (NumberLit "") Op (NumberLit ""))) as Hle. cbn in Hle. rewrite Eb in Hle.
    unfold binop in Eb. destruct (list_find _ _) as [[i [o r]]|] eqn:Ef; [|done].
    apply list_find_Some in Ef as (Ef & _ & _). apply list_elem_of_lookup_2, list_elem_of_In in Ef.
    cbn in Ef. naive_solver lia.
  - destruct (ident_tokens_head Name) as (s & l & ->). cbn. eauto 6.
Qed.

Lemma P_unary e : printable e = true → print_expr 6 e = print_expr 7 e → Pk e 7 → Pk e 6.
Proof.
  intros Hpr Hp HP n ts rest Hts Hs Hn. specialize (HP n ts rest).
  rewrite <- Hp in HP. specialize (HP Hts ltac:(by eapply stops_le; [|done]; lia) Hn).
  destruct (primary_head e Hpr) as (x & l & Hx & Hn1 & Hn2). rewrite Hp, Hx in Hts.
  apply spelling_cons in Hts as (t & ts' & -> & H1 & _ & _). cbn in *.
  destruct (tt_eqb_spec (Type_ t) TokenNot); [congruence|].
  destruct (tt_eqb_spec (Type_ t) TokenMinus); [congruence|]. done.
Qed.

Lemma descend e k : printable e = true → (k ≤ 6)%nat →
  print_expr k e = print_expr (S k) e → Pk e (S k) → Pk e k ∧ ((k ≤ 5)%nat → Qk e k).
Proof.
  intros Hpr Hk Hp HP. destruct (decide (k = 6)) as [->|Hne].
  - split; [by apply P_unary|lia].
  - assert (HQ : Qk e k) by (apply P_to_Q; [lia|done..]). split; [apply Q_to_P; [lia|done]|done].
Qed.

(** From a level [j] down to level [i] when no parentheses come in between. *)
Lemma descend_range e i j : printable e = true → (j ≤ 7)%nat →
  (∀ k, (i ≤ k < j)%nat → print_expr k e = print_expr (S k) e) → Pk e j →
  ∀ k, (i ≤ k < j)%nat → Pk e k ∧ ((k ≤ 5)%nat → Qk e k).
Proof.
  intros Hpr Hj Heq HP.
  assert (Hd : ∀ d, (1 ≤ d)%nat → (i + d ≤ j)%nat → Pk e (j - d) ∧ ((j - d ≤ 5)%nat → Qk e (j - d))).
  { induction d as [|d IH]; intros H1 Hd; [lia|]. destruct (decide (d = 0)) as [->|Hne].
    - apply descend; [done|lia| |by replace (S (j - 1)) with j by lia]. apply Heq. lia.
    - destruct IH as [IH _]; [lia..|]. apply descend; [done|lia|apply Heq; lia|].
      by replace (S (j - S d)) with (j - d)%nat by lia. }
  intros k Hk. replace k with (j - (j - k))%nat by lia. apply Hd; lia.
Qed.

(** If the own level of [e] is read back, every level is. *)
Lemma all_levels e : printable e = true →
  Pk e (elevel e) → ((elevel e ≤ 5)%nat → Qk e (elevel e)) →
  ∀ k, (k ≤ 7)%nat → Pk e k ∧ ((k ≤ 5)%nat → Qk e k).
Proof.
  intros Hpr HP HQ. pose proof (elevel_le e) as Hle.
  assert (Hlow : ∀ k, (k ≤ elevel e)%nat → Pk e k ∧ ((k ≤ 5)%nat → Qk e k)).
  { intros k Hk. destruct (decide (k = elevel e)) as [->|]; [done|].
    apply (descend_range e 0 (elevel e)); [done|done| |done|lia].
    intros k' Hk'. rewrite (print_expr_parens k'), (print_expr_parens (S k')).
    rewrite !(proj2 (Nat.ltb_ge _ _)) by lia. done. }
  intros k Hk. destruct (decide (k ≤ elevel e)) as [Hke|Hke]; [by apply Hlow|].
  assert (H7 : Pk e 7) by (apply P_parens; [lia|apply Hlow; lia]).
  destruct (decide (k = 7)) as [->|]; [split; [done|lia]|].
  apply (descend_range e (S (elevel e)) 7); [done|done| |done|lia].
  intros k' Hk'. rewrite (print_expr_parens k'), (print_expr_parens (S k')).
  rewrite !(proj2 (Nat.ltb_lt _ _)) by lia. done.
Qed.

Lemma bind_POk {A B} (p : parser A) (f : A → parser B) ts a rest :
  p ts = POk a rest → (p ≫= f) ts = f a rest.
Proof. intros Hp. unfold mbind, parser_bind. by rewrite Hp. Qed.

Lemma match_hit ty t ts : Type_ t = ty → match_ ty (t :: ts) = POk true ts.
Proof. intros Ht. unfold match_. cbn [peek_token]. rewrite Ht. by destruct (tt_eqb_spec ty ty). Qed.

Lemma match_miss ty ts : Type_ (peek_token ts) ≠ ty → match_ ty ts = POk false ts.
Proof. intros Ht. unfold match_. by destruct (tt_eqb_spec (Type_ (peek_token ts)) ty). Qed.

Lemma advance_bind {A} (f : Token → parser A) t ts : (advance ≫= f) (t :: ts) = f t ts.
Proof. done. Qed.

Lemma parser_bind_assoc {A B C} (p : parser A) (f : A → parser B) (g : B → parser C) ts :
  ((p ≫= f) ≫= g) ts = (p ≫= λ a, f a ≫= g) ts.
Proof. unfold mbind, parser_bind. by destruct (p ts). Qed.

Lemma parser_ret_bind {A B} (a : A) (f : A → parser B) ts : (mret a ≫= f) ts = f a ts.
Proof. done. Qed.

(** The tokens an expression starts with. *)
Definition expr_start (ty : TokenType) : bool :=
  match ty with
  | TokenNumber | TokenString | TokenTrue | TokenFalse | TokenTimeLiteral | TokenLParen
  | TokenIdent | TokenNot | TokenMinus => true
  | _ => false
  end.

Lemma expr_head e : printable e = true →
  ∀ k, ∃ x l, print_expr k e = x :: l ∧ expr_start x.1 = true.
Proof.
  induction e as [v|v|b|n|l o r IHl _|o e _|n args _|e m _|r] using Expression_ind';
    intros Hp k; rewrite print_expr_parens; (destruct (elevel _ <? k)%nat; [cbn; eauto|]);
    cbn in *; eauto; try done.
  - destruct b; eauto.
  - destruct (ident_tokens_head n) as (s & l & ->). eauto.
  - destruct (binop o) as [[j t]|]; [|by rewrite bool_decide_eq_false_2 in Hp by (by intros [])].
    apply andb_prop in Hp as [Hp _]. apply andb_prop in Hp as [_ Hp].
    destruct (IHl Hp j) as (x & l' & -> & Hx). cbn. eauto.
  - destruct (String.eqb o "NOT"); eauto.
  - destruct (ident_tokens_head n) as (s & l & ->). cbn. eauto.
Qed.

(** *** Arguments *)

(** [pe] reads the text of [e] on lists of at most [M] tokens. *)
Definition reads_expr (pe : parser Expression) (M : nat) (e : Expression) : Prop :=
  ∀ ts rest, map spelling ts = print_expr 0 e → stops 0 rest →
    (length (ts ++ rest) ≤ M)%nat → pe (ts ++ rest) = POk e rest.

Lemma commas_cons x y l : commas (x :: y :: l) = x ++ comma :: commas (y :: l).
Proof. done. Qed.

Definition args_body (pe : parser Expression) (args : list Expression)
    : parser (list Expression + list Expression) :=
  ty ← peekType;
  if tt_eqb ty TokenRParen || tt_eqb ty TokenEOF then mret (inr args)
  else arg ← pe; more ← match_ TokenComma; mret (continue_if more (args ++ [arg])).

Lemma args_body_runs pe N : Runs 1 N pe → body_runs N (args_body pe).
Proof.
  intros Hpe. apply consume_body_runs. intros args ts Hts. unfold args_body.
  rewrite peekType_bind. case_if; [left; eauto|right].
  apply (Runs_bind 1 N pe (λ arg, _)); [done|runs|done].
Qed.

Lemma args_loop pe M args : Runs 1 (S M) pe → Forall (reads_expr pe M) args →
  Forall (λ e, printable e = true) args →
  ∀ acc ts rp rest, map spelling ts = commas (map (print_expr 0) args) →
    Type_ rp = TokenRParen → (length (ts ++ rp :: rest) ≤ M)%nat →
    for_loop (args_body pe) acc (ts ++ rp :: rest) = POk (acc ++ args) (rp :: rest).
Proof.
  intros Hpe Hargs Hpr. induction Hargs as [|a args Ha Hargs IH];
    intros acc ts rp rest Hts Hrp Hl.
  { destruct ts; [|done]. cbn [app]. rewrite app_nil_r. unfold for_loop. cbn [loop].
    unfold mbind at 1, parser_bind. unfold args_body. rewrite peekType_bind. cbn. by rewrite Hrp. }
  apply Forall_cons in Hpr as [Hpa Hpr].
  destruct (expr_head a Hpa 0) as (x & l & Hx & Hst).
  assert (Hbody : ∀ ts1 rest1, map spelling ts1 = print_expr 0 a → stops 0 rest1 →
    (length (ts1 ++ rest1) ≤ M)%nat →
    args_body pe acc (ts1 ++ rest1)
    = (more ← match_ TokenComma; mret (continue_if more (acc ++ [a]))) rest1).
  { intros ts1 rest1 Hts1 Hs Hl1. unfold args_body. rewrite peekType_bind.
    pose proof Hts1 as Hts1'. rewrite Hx in Hts1'.
    apply spelling_cons in Hts1' as (t & ts' & -> & Ht & _ & _). cbn [app peek_token] in *. rewrite Ht.
    assert (Hno : tt_eqb x.1 TokenRParen || tt_eqb x.1 TokenEOF = false)
      by (destruct x.1; done).
    rewrite Hno. unfold mbind at 1, parser_bind at 1.
    change (t :: ts' ++ rest1) with ((t :: ts') ++ rest1). by rewrite Ha. }
  destruct args as [|b args].
  - cbn in Hts. rewrite for_loop_unfold.
    + rewrite Hbody; [|done|unfold stops; cbn; by rewrite Hrp|done].
      unfold mbind, parser_bind, match_. cbn. by rewrite Hrp.
    + intros s' us Hus. apply (args_body_runs pe (S M)); [done|]. lia.
  - cbn [map] in Hts. rewrite commas_cons in Hts.
    apply spelling_app in Hts as (ts1 & ts2 & -> & Hts1 & Hts2).
    apply spelling_cons in Hts2 as (c & ts3 & -> & Hc & _ & Hts3). cbn in Hc.
    rewrite <- app_assoc in *. cbn [app] in *. rewrite for_loop_unfold.
    + rewrite Hbody; [|done|unfold stops; cbn; by rewrite Hc|done].
      rewrite (bind_POk _ _ _ _ _ (match_hit _ _ _ Hc)). cbn [mret parser_ret continue_if presult_bind].
      rewrite (IH Hpr (acc ++ [a]) ts3); [by rewrite <- app_assoc|done..|].
      rewrite length_app in Hl. cbn [length] in Hl. lia.
    + intros s' us Hus. apply (args_body_runs pe (S M)); [done|]. lia.
Qed.

Lemma parseArgs_eq pe : parseArgs pe =
  (_ ← advance; args ← for_loop (args_body pe) []; _ ← advance; mret args).
Proof. reflexivity. Qed.

Lemma parseArgs_ok pe M args ts rest : Runs 1 (S M) pe → Forall (reads_expr pe M) args →
  Forall (λ e, printable e = true) args →
  map spelling ts = parens true (commas (map (print_expr 0) args)) →
  (length (ts ++ rest) ≤ S M)%nat → parseArgs pe (ts ++ rest) = POk args rest.
Proof.
  intros Hpe Hargs Hpr Hts Hl.
  apply spelling_parens in Hts as (t1 & ts' & t2 & -> & H1 & H2 & Hts).
  cbn [app length] in *. rewrite <- app_assoc in *. cbn [app] in *.
  rewrite parseArgs_eq, advance_bind.
  rewrite (bind_POk _ _ _ _ _ (args_loop pe M args Hpe Hargs Hpr [] ts' t2 rest Hts H2 ltac:(lia))).
  done.
Qed.

(** *** The round trip *)

Lemma reads_expr_fuel n e : Pk e 0 → reads_expr (parseExpression_fuel (S n)) n e.
Proof. intros HP ts rest Hts Hs Hl. by apply (HP n). Qed.

Lemma P_atom e ty lit : print_expr 7 e = [(ty, lit)] →
  (∀ n t rest, Type_ t = ty → Literal t = lit →
    parsePrimary (parseExpression_fuel n) (t :: rest) = POk e rest) → Pk e 7.
Proof.
  intros Hp Hpar n ts rest Hts Hs Hn. rewrite Hp in Hts.
  apply spelling_cons in Hts as (t & ts' & -> & H1 & H2 & Hts). destruct ts'; [|done].
  by apply Hpar.
Qed.

Lemma P_ident name : Pk (IdentExpr name) 7.
Proof.
  intros n ts rest Hts Hs Hn. cbn in Hts. destruct (stops_primary 7 rest ltac:(lia) Hs) as [Hd Hl].
  destruct (ident_tokens_parse name ts rest Hts Hd) as (t & ts' & -> & Ht & Hm).
  cbn [parse_lvl app]. unfold parsePrimary. unfold mbind, parser_bind.
  cbn [peek presult_bind peek_token]. rewrite Ht. cbn [advance presult_bind tail].
  rewrite Hm. cbn [presult_bind peekType]. by rewrite Hl.
Qed.

Lemma P_call name args : Forall (λ e, Pk e 0) args → Forall (λ e, printable e = true) args →
  Pk (CallExpr name args) 7.
Proof.
  intros Hargs Hpr n ts rest Hts Hs Hn. cbn [print_expr elevel Nat.ltb Nat.leb parens] in Hts.
  change (map spelling ts = ident_tokens name ++ parens true (commas (map (print_expr 0) args))) in Hts.
  apply spelling_app in Hts as (ts1 & ts2 & -> & Hts1 & Hts2).
  pose proof Hts2 as Hp2. apply spelling_cons in Hp2 as (t2 & ts2' & -> & Ht2 & _ & _).
  rewrite <- app_assoc in *. cbn in Ht2.
  destruct (ident_tokens_parse name ts1 ((t2 :: ts2') ++ rest) Hts1) as (t & ts' & -> & Ht & Hm);
    [cbn; by rewrite Ht2|].
  cbn [parse_lvl app] in *. unfold parsePrimary. unfold mbind, parser_bind.
  cbn [peek presult_bind peek_token]. rewrite Ht. cbn [advance presult_bind tail].
  rewrite Hm. cbn [presult_bind peekType peek_token]. rewrite Ht2.
  cbn [tt_eqb token_num Nat.eqb]. cbn [length] in Hn. rewrite length_app in Hn. cbn [length] in Hn.
  destruct n as [|[|n]]; [lia..|].
  change (t2 :: ts2' ++ rest) with ((t2 :: ts2') ++ rest).
  rewrite (parseArgs_ok _ (S n) args); [done| | |done|done|cbn; lia].
  - apply Runs_expression_fuel.
  - eapply Forall_impl; [exact Hargs|]. intros e He. by apply reads_expr_fuel.
Qed.

Lemma binop_level op j tk t : binop op = Some (j, tk) → Type_ t = tk.1 → Literal t = tk.2 →
  level_op j t = Some op ∧ binding (Type_ t) = Some j ∧ (j ≤ 5)%nat.
Proof.
  unfold binop. destruct (list_find _ _) as [[i [o r]]|] eqn:Ef; [|done].
  apply list_find_Some in Ef as (Ef & Ho & _). cbn in Ho. subst o.
  apply list_elem_of_lookup_2, list_elem_of_In in Ef.
  intros [= ->] H1 H2. destruct tk as [ty lit]. cbn in H1, H2. cbn in Ef.
  repeat (destruct Ef as [[= <- <- <- <-]|Ef];
    [unfold level_op, or_op, xor_op, and_op, cmp_op, add_op, mul_op; rewrite H1, ?H2;
     split_and!; [done|done|lia]|]).
  destruct Ef.
Qed.

Lemma Q_binary l op r j tk : printable (BinaryExpr l op r) = true → binop op = Some (j, tk) →
  Qk l j → Pk r (S j) → Qk (BinaryExpr l op r) j.
Proof.
  intros Hpr Hb Ql Pr n ts rest Hts Hs Hn.
  assert (Hts' : map spelling ts = print_expr j l ++ tk :: print_expr (S j) r).
  { rewrite Hts. cbn [print_expr elevel]. rewrite Hb. unfold parens. by rewrite Nat.ltb_irrefl. }
  apply spelling_app in Hts' as (ts1 & ts2 & -> & Hts1 & Hts2).
  apply spelling_cons in Hts2 as (t & ts3 & -> & H1 & H2 & Hts3).
  destruct (binop_level op j tk t Hb H1 H2) as (Ho & Hbd & Hj).
  rewrite <- app_assoc in *. cbn [app] in *.
  assert (Hn' : (length (ts3 ++ rest) ≤ n)%nat) by (rewrite length_app in Hn; cbn [length] in Hn; lia).
  rewrite Ql; [|done|unfold stops; cbn [peek_token]; rewrite Hbd; lia|done].
  rewrite (binary_loop_step (S n) _ _ _ _ _ op);
    [|apply (Runs_weaken 1), Runs_lvl, Runs_expression_fuel|lia|done].
  by rewrite (Pr n ts3 rest Hts3 Hs Hn').
Qed.

Lemma P_unary_not o : Pk o 6 → Pk (UnaryExpr "NOT" o) 6.
Proof.
  intros HP n ts rest Hts Hs Hn. cbn in Hts.
  apply spelling_cons in Hts as (t & ts' & -> & H1 & _ & Hts). cbn [parse_lvl app parseUnary].
  rewrite H1. cbn [tt_eqb token_num Nat.eqb fst].
  cbn [app length] in Hn. specialize (HP n ts' rest Hts Hs ltac:(lia)). cbn [parse_lvl] in HP.
  by rewrite HP.
Qed.

Lemma P_unary_minus o : Pk o 7 → Pk (UnaryExpr "-" o) 6.
Proof.
  intros HP n ts rest Hts Hs Hn. cbn in Hts.
  apply spelling_cons in Hts as (t & ts' & -> & H1 & _ & Hts). cbn [parse_lvl app parseUnary].
  rewrite H1. cbn [tt_eqb token_num Nat.eqb fst].
  cbn [app length] in Hn.
  specialize (HP n ts' rest Hts ltac:(by eapply stops_le; [|done]; lia) ltac:(lia)).
  cbn [parse_lvl] in HP. by rewrite HP.
Qed.

Lemma read_back e : printable e = true →
  ∀ k, (k ≤ 7)%nat → Pk e k ∧ ((k ≤ 5)%nat → Qk e k).
Proof.
  assert (Hatom : ∀ e ty lit, print_expr 7 e = [(ty, lit)] → printable e = true →
    elevel e = 7 → (∀ pe t rest, Type_ t = ty → Literal t = lit →
      parsePrimary pe (t :: rest) = POk e rest) →
    ∀ k, (k ≤ 7)%nat → Pk e k ∧ ((k ≤ 5)%nat → Qk e k)).
  { intros e' ty lit Hp Hpr Hlvl Hpar. apply all_levels; rewrite ?Hlvl; [done| |lia].
    apply (P_atom _ ty lit); [done|]. intros. by apply Hpar. }
  induction e as [v|v|b|n|l op r IHl IHr|op o IHo|n args IHargs|o m _|r] using Expression_ind';
    intros Hpr; try done;
    try (eapply Hatom; [reflexivity|done|done|]; intros pe t rest H1 H2;
      unfold parsePrimary, mbind, parser_bind; cbn; by rewrite H1, ?H2).
  - destruct b; (eapply Hatom; [reflexivity|done|done|]; intros pe t rest H1 H2;
      unfold parsePrimary, mbind, parser_bind; cbn; by rewrite H1).
  - apply all_levels; [done|apply P_ident|cbn; lia].
  - pose proof Hpr as Hpr'. cbn in Hpr'. apply andb_prop in Hpr' as [Hpr' Hpr2].
    apply andb_prop in Hpr' as [Hop Hpr1]. apply bool_decide_eq_true in Hop as [[j tk] Hb].
    assert (Hj : (j ≤ 5)%nat)
      by (apply (binop_level op j tk (mkToken tk.1 tk.2 0 0) Hb); done).
    assert (Hlvl : elevel (BinaryExpr l op r) = j) by (cbn; by rewrite Hb).
    assert (HQ : Qk (BinaryExpr l op r) j).
    { eapply Q_binary; [done|done| |]; [apply (IHl Hpr1 j)|apply (IHr Hpr2 (S j))]; lia. }
    apply all_levels; rewrite ?Hlvl; [done|by apply Q_to_P|done].
  - pose proof Hpr as Hpr'. cbn in Hpr'. apply andb_prop in Hpr' as [Hop Ho].
    apply all_levels; [done| |cbn; lia].
    apply orb_prop in Hop as [Hop|Hop]; apply String.eqb_eq in Hop as ->;
      [apply P_unary_not|apply P_unary_minus]; apply (IHo Ho); lia.
  - pose proof Hpr as Hpr'. cbn in Hpr'. apply forallb_Forall' in Hpr'.
    apply all_levels; [done| |cbn; lia]. apply P_call; [|done].
    rewrite Forall_forall in *. intros e He. apply (IHargs e He (Hpr' e He) 0). lia.
Qed.

Lemma parseExpression_ok e ts rest :
  printable e = true → map spelling ts = print_expr 0 e → stops 0 rest →
  parseExpression (ts ++ rest) = POk e rest.
Proof.
  intros Hpr Hts Hs. unfold parseExpression.
  by apply (read_back e Hpr 0 ltac:(lia)).
Qed.

(** operator precedence and associativity: the parser reads back every expression
    from its minimal text, where parentheses stand only around operands of a lower
    level (OR < XOR < AND < comparison < addition < multiplication < unary), and
    stops at a following token that does not continue an expression. *)
Theorem parseExpression_print (e : Expression) (ts rest : list Token) :
  printable e = true → map spelling ts = print_expr 0 e → stops 0 rest →
  parseExpression (ts ++ rest) = POk e rest.
Proof. apply parseExpression_ok. Qed.

End Levels.

(** ** Statements *)

Definition kw (ty : TokenType) (lit : string) : spell := (ty, lit).
Definition semi : spell := (TokenSemicolon, ";").
Definition assign : spell := (TokenAssign, ":=").

Fixpoint print_stmt (s : Statement) : list spell :=
  match s with
  | AssignStmt t v => ident_tokens t ++ assign :: print_expr 0 v ++ [semi]
  | CallStmt n args =>
      ident_tokens n ++ parens true (commas (map (print_expr 0) args)) ++ [semi]
  | ReturnStmt => [(TokenReturn, "RETURN"); semi]
  | IfStmt c th ei el =>
      (TokenIf, "IF") :: print_expr 0 c ++ (TokenThen, "THEN") :: concat (map print_stmt th)
      ++ concat (map (λ '(c', b), (TokenElsif, "ELSIF") :: print_expr 0 c'
           ++ (TokenThen, "THEN") :: concat (map print_stmt b)) ei)
      ++ (TokenElse, "ELSE") :: concat (map print_stmt el) ++ [(TokenEndIf, "END_IF"); semi]
  | ForStmt v s e st b =>
      (TokenFor, "FOR") :: (TokenIdent, v) :: assign :: print_expr 0 s
      ++ (TokenTo, "TO") :: print_expr 0 e
      ++ match st with Some x => (TokenBy, "BY") :: print_expr 0 x | None => [] end
      ++ (TokenDo, "DO") :: concat (map print_stmt b) ++ [(TokenEndFor, "END_FOR"); semi]
  | WhileStmt c b =>
      (TokenWhile, "WHILE") :: print_expr 0 c
      ++ (TokenDo, "DO") :: concat (map print_stmt b) ++ [(TokenEndWhile, "END_WHILE"); semi]
  | RepeatStmt b c =>
      (TokenRepeat, "REPEAT") :: concat (map print_stmt b)
      ++ (TokenUntil, "UNTIL") :: print_expr 0 c ++ [(TokenEndRepeat, "END_REPEAT"); semi]
  | CaseStmt e cs el =>
      (TokenCase, "CASE") :: print_expr 0 e
      ++ (TokenOf, "OF") :: concat (map (λ '(vs, b), commas (map (print_expr 0) vs)
           ++ (TokenColon, ":") :: concat (map print_stmt b)) cs)
      ++ (TokenElse, "ELSE") :: concat (map print_stmt el) ++ [(TokenEndCase, "END_CASE"); semi]
  end.

Definition print_block (b : list Statement) : list spell := concat (map print_stmt b).

(** The statements that can be read back: a CASE has at most one clause (see
    [case_swallows_later_labels] for two). *)
Fixpoint printable_stmt (s : Statement) : bool :=
  match s with
  | AssignStmt _ v => printable v
  | CallStmt _ args => forallb printable args
  | ReturnStmt => true
  | IfStmt c th ei el =>
      printable c && forallb printable_stmt th
      && forallb (λ '(c', b), printable c' && forallb printable_stmt b) ei
      && forallb printable_stmt el
  | ForStmt _ s e st b =>
      printable s && printable e
      && match st with Some x => printable x | None => true end
      && forallb printable_stmt b
  | WhileStmt c b => printable c && forallb printable_stmt b
  | RepeatStmt b c => forallb printable_stmt b && printable c
  | CaseStmt e cs el =>
      printable e && (length cs <=? 1)%nat
      && forallb (λ '(vs, b), negb (match vs with [] => true | _ => false end)
                              && forallb printable vs && forallb printable_stmt b) cs
      && forallb printable_stmt el
  end.

Section Statements.
Context `{UnicodeTables}.

Definition stmt_start (ty : TokenType) : bool :=
  match ty with
  | TokenIdent | TokenReturn | TokenIf | TokenFor | TokenWhile | TokenRepeat | TokenCase => true
  | _ => false
  end.

Lemma stmt_head s : ∃ x l, print_stmt s = x :: l ∧ stmt_start x.1 = true.
Proof.
  destruct s; cbn; eauto;
  match goal with |- context [ident_tokens ?n] =>
    destruct (ident_tokens_head n) as (x & l & ->); cbn; eauto end.
Qed.

(** [reads_stmt ps M s]: [ps] reads the text of [s] on lists of at most [M] tokens. *)
Definition reads_stmt (ps : parser (option Statement)) (M : nat) (s : Statement) : Prop :=
  ∀ ts rest, map spelling ts = print_stmt s → (length (ts ++ rest) ≤ M)%nat →
    ps (ts ++ rest) = POk (Some s) rest.

Definition block_body (ps : parser (option Statement)) (terms : list TokenType)
    (stmts : list Statement) : parser (list Statement + list Statement) :=
  ty ← peekType;
  if tt_eqb ty TokenEOF || existsb (tt_eqb ty) terms then mret (inr stmts)
  else stmt ← ps; mret (inl (stmts ++ option_list stmt)).

Lemma block_eq ps terms : parseStatementBlock ps terms = for_loop (block_body ps terms) [].
Proof. reflexivity. Qed.

Definition progress (ps : parser (option Statement)) (N : nat) : Prop :=
  ∀ ts, (length ts < N)%nat → ts ≠ [] → runs 1 (ps ts) ts.

Lemma block_body_runs ps N terms : progress ps N → body_runs N (block_body ps terms).
Proof.
  intros Hps. apply consume_body_runs. intros stmts ts Hts. unfold block_body.
  rewrite peekType_bind. destruct ts as [|t ts]; [left; cbn; eauto|]. cbn [peek_token].
  case_if; [left; eauto|right]. specialize (Hps (t :: ts) Hts ltac:(done)).
  unfold mbind, parser_bind. destruct (ps (t :: ts)); done.
Qed.

(** The loop of a block passes over printed statements. *)
Lemma block_steps ps M terms b ts rest :
  progress ps (S M) → Forall (reads_stmt ps M) b →
  Forall (λ ty, stmt_start ty = false) terms →
  map spelling ts = print_block b → (length (ts ++ rest) ≤ M)%nat →
  ∀ acc, for_loop (block_body ps terms) acc (ts ++ rest)
         = for_loop (block_body ps terms) (acc ++ b) rest.
Proof.
  intros Hps Hb Hterms. revert ts. induction Hb as [|s b Hs Hb IH]; intros ts Hts Hl acc.
  - destruct ts; [|done]. by rewrite app_nil_r.
  - cbn in Hts. apply spelling_app in Hts as (ts1 & ts2 & -> & Hts1 & Hts2).
    rewrite <- app_assoc in *. rewrite for_loop_unfold.
    2: { intros s' us Hus. apply (block_body_runs ps (S M)); [done|]. lia. }
    assert (block_body ps terms acc (ts1 ++ ts2 ++ rest) = POk (inl (acc ++ [s])) (ts2 ++ rest)) as ->.
    { unfold block_body. rewrite peekType_bind.
      destruct (stmt_head s) as (x & l & Hx & Hst). pose proof Hts1 as Hts1'. rewrite Hx in Hts1'.
      apply spelling_cons in Hts1' as (t & ts' & -> & Ht & _ & _). cbn [app peek_token]. rewrite Ht.
      assert (tt_eqb x.1 TokenEOF = false) as -> by (by destruct x.1).
      assert (existsb (tt_eqb x.1) terms = false) as ->.
      { apply not_true_iff_false. intros (ty & Hty & He)%existsb_exists.
        apply list_elem_of_In in Hty. rewrite Forall_forall in Hterms. specialize (Hterms ty Hty).
        destruct (tt_eqb_spec x.1 ty); congruence. }
      cbn [orb]. change (t :: ts' ++ ts2 ++ rest) with ((t :: ts') ++ ts2 ++ rest).
      by rewrite (bind_POk _ _ _ _ _ (Hs (t :: ts') (ts2 ++ rest) Hts1 Hl)). }
    cbn [presult_bind]. rewrite IH; [by rewrite <- app_assoc|done|].
    rewrite length_app in Hl. lia.
Qed.

(** It ends at a terminator. *)
Lemma block_stop ps terms acc rest : In (Type_ (peek_token rest)) terms →
  for_loop (block_body ps terms) acc rest = POk acc rest.
Proof.
  intros Hin. unfold for_loop. cbn [loop].
  rewrite (bind_POk _ _ _ (inr acc) rest); [done|]. unfold block_body. rewrite peekType_bind.
  assert (existsb (tt_eqb (Type_ (peek_token rest))) terms = true) as ->.
  { apply existsb_exists. exists (Type_ (peek_token rest)). split; [done|].
    by destruct (tt_eqb_spec (Type_ (peek_token rest)) (Type_ (peek_token rest))). }
  by rewrite orb_true_r.
Qed.

(** Statement blocks: the terminators are not the start of a statement, and one of
    them follows. *)
Lemma block_ok ps M terms b ts rest :
  progress ps (S M) → Forall (reads_stmt ps M) b →
  Forall (λ ty, stmt_start ty = false) terms → In (Type_ (peek_token rest)) terms →
  map spelling ts = print_block b → (length (ts ++ rest) ≤ M)%nat →
  parseStatementBlock ps terms (ts ++ rest) = POk b rest.
Proof.
  intros. rewrite block_eq. rewrite (block_steps ps M terms b) by done. by apply block_stop.
Qed.

Lemma expect_hit ty t ts : Type_ t = ty → expect ty (t :: ts) = POk t ts.
Proof.
  intros Ht. unfold expect. rewrite advance_bind, Ht. by destruct (tt_eqb_spec ty ty).
Qed.

End Statements.

(** Cuts a printed token list along the shape of its text. *)
Ltac pieces :=
  repeat match goal with
  | H : map spelling _ = _ :: _ |- _ =>
      let t := fresh "t" in let ts := fresh "ts" in let Ht := fresh "Ht" in
      let Hlit := fresh "Hlit" in
      apply spelling_cons in H as (t & ts & -> & Ht & Hlit & H); cbn [fst snd semi assign comma] in Ht, Hlit
  | H : map spelling _ = _ ++ _ |- _ =>
      let ts1 := fresh "us" in let ts2 := fresh "us" in
      let H1 := fresh "Hus" in let H2 := fresh "Hus" in
      apply spelling_app in H as (ts1 & ts2 & -> & H1 & H2)
  | H : map spelling ?ts = [] |- _ => destruct ts; [clear H|discriminate H]
  end; cbn [app] in *; repeat (rewrite <- app_assoc in *; cbn [app] in *).

Ltac head_type := unfold stops; cbn [peek_token app]; repeat match goal with
  | H : Type_ ?t = _ |- context [Type_ ?t] => rewrite H end.

Lemma Forall_true_bool (terms : list TokenType) :
  forallb (λ ty, negb (stmt_start ty)) terms = true → Forall (λ ty, stmt_start ty = false) terms.
Proof.
  intros Ht. apply forallb_Forall' in Ht. eapply Forall_impl; [exact Ht|]. cbn.
  intros ty. apply negb_true_iff.
Qed.

Lemma length_cons' {A} (x : A) l : length (x :: l) = S (length l).
Proof. done. Qed.
Create Rewrite HintDb st_len.
#[export] Hint Rewrite @length_app @length_cons' : st_len.
Ltac lens := autorewrite with st_len in *; lia.

(** One step of a statement parser on a printed statement. *)
Ltac pstep :=
  first
    [ rewrite advance_bind
    | rewrite parser_bind_assoc
    | rewrite parser_ret_bind
    | rewrite peekType_bind; head_type; cbn [tt_eqb token_num Nat.eqb orb]
    | erewrite bind_POk; [|apply match_hit; eassumption]
    | erewrite bind_POk; [|apply expect_hit; eassumption]
    | erewrite bind_POk; [|apply parseExpression_ok; [|eassumption|]; [eassumption|by head_type]]
    | erewrite bind_POk; [|eapply block_ok; [eassumption| |by apply Forall_true_bool
        | |eassumption|lens]; [eassumption|head_type; cbn; tauto]] ].

Section StatementForms.
Context `{UnicodeTables}.
Variable ps : parser (option Statement).
Variable M : nat.
Hypothesis Hps : progress ps (S M).

(** The text of a compound statement whose keyword has been read by [statement]. *)
Lemma while_ok c b ts rest :
  printable c = true → Forall (reads_stmt ps M) b →
  map spelling ts = print_stmt (WhileStmt c b) → (length (ts ++ rest) ≤ S M)%nat →
  parseWhileStmt ps (ts ++ rest) = POk (Some (WhileStmt c b)) rest.
Proof.
  intros Hc Hb Hts Hl. cbn [print_stmt] in Hts. fold (print_block b) in Hts. pieces.
  unfold parseWhileStmt. repeat pstep. done.
Qed.

Lemma repeat_ok b c ts rest :
  printable c = true → Forall (reads_stmt ps M) b →
  map spelling ts = print_stmt (RepeatStmt b c) → (length (ts ++ rest) ≤ S M)%nat →
  parseRepeatStmt ps (ts ++ rest) = POk (Some (RepeatStmt b c)) rest.
Proof.
  intros Hc Hb Hts Hl. cbn [print_stmt] in Hts. fold (print_block b) in Hts. pieces.
  unfold parseRepeatStmt. repeat pstep. done.
Qed.

Lemma for_ok v s e st b ts rest :
  printable s = true → printable e = true →
  match st with Some x => printable x = true | None => True end → Forall (reads_stmt ps M) b →
  map spelling ts = print_stmt (ForStmt v s e st b) → (length (ts ++ rest) ≤ S M)%nat →
  parseForStmt ps (ts ++ rest) = POk (Some (ForStmt v s e st b)) rest.
Proof.
  intros Hs He Hst Hb Hts Hl. cbn [print_stmt] in Hts. fold (print_block b) in Hts.
  destruct st as [x|]; pieces; unfold parseForStmt.
  all: repeat pstep; by subst.
Qed.

(** *** IF *)

Definition print_elsif (cb : Expression * list Statement) : list spell :=
  let '(c, b) := cb in
  (TokenElsif, "ELSIF") :: print_expr 0 c ++ (TokenThen, "THEN") :: print_block b.

Definition elsif_body (elsifs : list (Expression * list Statement))
    : parser (list (Expression * list Statement) + list (Expression * list Statement)) :=
  ty ← peekType;
  if tt_eqb ty TokenElsif then
    _ ← advance;
    elsifCond ← parseExpression;
    _ ← advance;
    body ← parseStatementBlock ps [TokenElsif; TokenElse; TokenEndIf];
    mret (inl (elsifs ++ [(elsifCond, body)]))
  else mret (inr elsifs).

Lemma elsif_body_runs : body_runs (S M) elsif_body.
Proof.
  apply consume_body_runs. intros elsifs ts Hts. unfold elsif_body. rewrite peekType_bind.
  destruct ts as [|t ts]; [left; cbn; eauto|]. cbn [peek_token].
  case_if; [right|left; eauto]. cbn in Hts. apply (runs_advance 0 (S M)); [lia|]. runs.
  by apply Runs_block.
Qed.

Definition reads_clause {A} (p : A → bool) (x : A * list Statement) : Prop :=
  p x.1 = true ∧ Forall (reads_stmt ps M) x.2.

Lemma elsif_loop ei : Forall (reads_clause printable) ei → ∀ acc ts t rest,
  map spelling ts = concat (map print_elsif ei) → Type_ t = TokenElse →
  (length (ts ++ t :: rest) ≤ M)%nat →
  for_loop elsif_body acc (ts ++ t :: rest) = POk (acc ++ ei) (t :: rest).
Proof.
  induction 1 as [|[c b] ei [Hc Hb] Hei IH]; intros acc ts t rest Hts Ht Hl.
  { destruct ts; [|done]. cbn [app]. rewrite app_nil_r. unfold for_loop. cbn [loop].
    rewrite (bind_POk _ _ _ (inr acc) (t :: rest)); [done|]. unfold elsif_body.
    rewrite peekType_bind. cbn [peek_token]. by rewrite Ht. }
  cbn [map concat print_elsif] in Hts. cbn [fst snd] in Hc, Hb.
  rewrite for_loop_unfold by (intros s us Hus; apply elsif_body_runs; lia).
  assert (Hstep : ∃ ts', map spelling ts' = concat (map print_elsif ei) ∧
    (length (ts' ++ t :: rest) ≤ M)%nat ∧
    elsif_body acc (ts ++ t :: rest) = POk (inl (acc ++ [(c, b)])) (ts' ++ t :: rest)).
  { rewrite <- app_comm_cons, <- app_assoc in Hts. pieces.
    exists us2. split_and!; [done|lens|]. unfold elsif_body.
    assert (Hnext : In (Type_ (peek_token (us2 ++ t :: rest))) [TokenElsif; TokenElse; TokenEndIf]).
    { destruct ei as [|[c' b'] ei']; cbn [map concat print_elsif] in *; pieces; cbn; [rewrite Ht; tauto|].
      match goal with H : Type_ ?x = TokenElsif |- context [Type_ ?x] => rewrite H end; tauto. }
    do 4 pstep.
    erewrite bind_POk; [|eapply block_ok; [done|exact Hb|by apply Forall_true_bool|exact Hnext|done|lens]].
    done. }
  destruct Hstep as (ts' & Hts' & Hl' & ->). cbn [presult_bind].
  rewrite IH by done. by rewrite <- app_assoc.
Qed.

Lemma if_ok c th ei el ts rest :
  printable c = true → Forall (reads_stmt ps M) th → Forall (reads_clause printable) ei →
  Forall (reads_stmt ps M) el →
  map spelling ts = print_stmt (IfStmt c th ei el) → (length (ts ++ rest) ≤ S M)%nat →
  parseIfStmt ps (ts ++ rest) = POk (Some (IfStmt c th ei el)) rest.
Proof.
  intros Hc Hth Hei Hel Hts Hl.
  change (print_stmt (IfStmt c th ei el)) with
    ((TokenIf, "IF") :: print_expr 0 c ++ (TokenThen, "THEN") :: print_block th
     ++ concat (map print_elsif ei)
     ++ (TokenElse, "ELSE") :: print_block el ++ [(TokenEndIf, "END_IF"); semi]) in Hts.
  pieces. match goal with H : map spelling ?u = concat (map print_elsif ei) |- _ =>
    rename u into tei end.
  assert (Hnext : ∀ r, In (Type_ (peek_token (tei ++ t1 :: r))) [TokenElsif; TokenElse; TokenEndIf]).
  { intros r. destruct ei as [|[c' b'] ei']; cbn [map concat print_elsif] in *; pieces; cbn;
      match goal with H : Type_ ?x = _ |- context [Type_ ?x] => rewrite H end; tauto. }
  unfold parseIfStmt. do 3 pstep.
  erewrite bind_POk; [|eapply block_ok; [done|exact Hth|by apply Forall_true_bool|apply Hnext|done|lens]].
  erewrite bind_POk; [|apply (elsif_loop ei Hei []); [done|done|lens]].
  repeat pstep. done.
Qed.

(** *** CASE with one clause *)

Definition values_body (values : list Expression)
    : parser (list Expression + list Expression) :=
  val ← parseExpression; more ← match_ TokenComma; mret (continue_if more (values ++ [val])).

Lemma values_body_runs N : body_runs N values_body.
Proof.
  apply strict_body_runs. intros values. apply Runs_bind; [apply Runs_expression; lia|]. runs.
Qed.

Lemma values_loop vs : vs ≠ [] → Forall (λ e, printable e = true) vs →
  ∀ acc ts t rest, map spelling ts = commas (map (print_expr 0) vs) → Type_ t = TokenColon →
  for_loop values_body acc (ts ++ t :: rest) = POk (acc ++ vs) (t :: rest).
Proof.
  intros Hne Hvs. induction Hvs as [|v vs Hv Hvs IH]; [done|]. clear Hne.
  intros acc ts t rest Hts Ht. rewrite for_loop_unfold by apply values_body_runs.
  destruct vs as [|w vs].
  - cbn in Hts. unfold values_body. pstep.
    rewrite (bind_POk _ _ _ _ _ (match_miss TokenComma (t :: rest) ltac:(by head_type))). done.
  - cbn [map] in Hts. rewrite commas_cons in Hts.
    change (print_expr 0 w :: map (print_expr 0) vs) with (map (print_expr 0) (w :: vs)) in Hts.
    unfold comma in Hts. pieces. unfold values_body. do 2 pstep.
    cbn [mret parser_ret continue_if presult_bind].
    change (for_loop _ _ ?l) with (for_loop values_body (acc ++ [v]) l).
    rewrite IH by done. by rewrite <- app_assoc.
Qed.

Definition print_clause (vb : list Expression * list Statement) : list spell :=
  let '(vs, b) := vb in
  commas (map (print_expr 0) vs) ++ (TokenColon, ":") :: print_block b.

Definition case_body (cases : list (list Expression * list Statement))
    : parser (list (list Expression * list Statement) + list (list Expression * list Statement)) :=
  ty ← peekType;
  if case_over ty then mret (inr cases)
  else
    values ← parseCaseValues;
    _ ← advance;
    body ← parseStatementBlock ps [TokenEndCase; TokenElse];
    ty ← peekType;
    mret (continue_if (negb (case_over ty)) (cases ++ [(values, body)])).

(** The clause list of a CASE with at most one clause, up to its ELSE. *)
Lemma case_loop cs ts t rest :
  (length cs ≤ 1)%nat →
  Forall (reads_clause (λ vs, negb (match vs with [] => true | _ => false end)
                              && forallb printable vs)) cs →
  map spelling ts = concat (map print_clause cs) → Type_ t = TokenElse →
  (length (ts ++ t :: rest) ≤ M)%nat →
  for_loop case_body [] (ts ++ t :: rest) = POk cs (t :: rest).
Proof.
  intros Hlen Hcs Hts Ht Hl. unfold for_loop. cbn [loop].
  destruct cs as [|[vs b] [|? ?]]; [| |cbn in Hlen; lia].
  - destruct ts; [|done]. cbn [app]. rewrite (bind_POk _ _ _ (inr []) (t :: rest)); [done|].
    unfold case_body. rewrite peekType_bind. cbn [peek_token]. by rewrite Ht.
  - cbn [map concat print_clause] in Hts. rewrite app_nil_r in Hts. apply Forall_cons in Hcs as [[Hv Hb] _].
    cbn [fst snd] in Hv, Hb. apply andb_prop in Hv as [Hne Hv]. apply forallb_Forall' in Hv.
    pieces. rename us into tvs.
    rewrite (bind_POk _ _ _ (inr [(vs, b)]) (t :: rest)); [done|].
    unfold case_body. rewrite peekType_bind.
    assert (Hover : case_over (Type_ (peek_token (tvs ++ t0 :: ts ++ t :: rest))) = false).
    { destruct vs as [|v vs]; [done|]. apply Forall_cons in Hv as [Hv _].
      destruct (expr_head v Hv 0) as (x & l & Hx & Hst).
      assert (Hh : ∃ l', map spelling tvs = x :: l').
      { destruct vs; cbn in Hus; rewrite Hx in Hus; eauto. }
      destruct Hh as [l' Hh]. apply spelling_cons in Hh as (t' & tvs' & -> & Ht' & _ & _).
      cbn [app peek_token]. rewrite Ht'. by destruct x.1. }
    rewrite Hover.
    erewrite bind_POk; [|apply (values_loop vs) with (acc := []); [by destruct vs|done|done|done]].
    do 2 pstep. rewrite peekType_bind. cbn [peek_token]. by rewrite Ht.
Qed.

Lemma case_ok e cs el ts rest :
  printable e = true → (length cs ≤ 1)%nat →
  Forall (reads_clause (λ vs, negb (match vs with [] => true | _ => false end)
                              && forallb printable vs)) cs →
  Forall (reads_stmt ps M) el →
  map spelling ts = print_stmt (CaseStmt e cs el) → (length (ts ++ rest) ≤ S M)%nat →
  parseCaseStmt ps (ts ++ rest) = POk (Some (CaseStmt e cs el)) rest.
Proof.
  intros He Hlen Hcs Hel Hts Hl.
  change (print_stmt (CaseStmt e cs el)) with
    ((TokenCase, "CASE") :: print_expr 0 e ++ (TokenOf, "OF") :: concat (map print_clause cs)
     ++ (TokenElse, "ELSE") :: print_block el ++ [(TokenEndCase, "END_CASE"); semi]) in Hts.
  pieces. unfold parseCaseStmt. do 3 pstep.
  erewrite bind_POk; [|apply (case_loop cs); [done|done|done|done|lens]].
  repeat pstep. done.
Qed.

(** *** Assignments and calls *)

Lemma assign_ok t v ts rest :
  printable v = true → map spelling ts = print_stmt (AssignStmt t v) →
  parseAssignOrCall (ts ++ rest) = POk (Some (AssignStmt t v)) rest.
Proof.
  intros Hv Hts. cbn [print_stmt] in Hts.
  apply spelling_app in Hts as (tn & tr & -> & Htn & Htr).
  apply spelling_cons in Htr as (ta & te & -> & Hta & _ & Hte). cbn in Hta.
  apply spelling_app in Hte as (tv & tsm & -> & Htv & Hsm).
  destruct (ident_tokens_parse t tn (ta :: tv ++ tsm ++ rest) Htn) as (x & us' & -> & Hx & Hm);
    [cbn [peek_token]; by rewrite Hta|]. pieces.
  unfold parseAssignOrCall. cbn [app]. pstep. erewrite bind_POk; [|exact Hm].
  repeat pstep. done.
Qed.

Lemma call_ok n args ts rest :
  forallb printable args = true → map spelling ts = print_stmt (CallStmt n args) →
  parseAssignOrCall (ts ++ rest) = POk (Some (CallStmt n args)) rest.
Proof.
  intros Hargs Hts. cbn [print_stmt] in Hts.
  apply spelling_app in Hts as (ts1 & ts2 & -> & Hts1 & Hts2).
  apply spelling_app in Hts2 as (ts3 & ts4 & -> & Hts3 & Hts4). pieces.
  pose proof Hts3 as Hp. apply spelling_cons in Hp as (tl & ts3' & -> & Htl & _ & _). cbn in Htl.
  destruct (ident_tokens_parse n ts1 ((tl :: ts3') ++ t :: rest) Hts1) as (x & us' & -> & Hx & Hm);
    [cbn; by rewrite Htl|].
  unfold parseAssignOrCall. cbn [app]. rewrite advance_bind. erewrite bind_POk; [|exact Hm].
  rewrite peekType_bind. cbn [app peek_token]. rewrite Htl. cbn [tt_eqb token_num Nat.eqb].
  change (tl :: ts3' ++ t :: rest) with ((tl :: ts3') ++ t :: rest).
  apply forallb_Forall' in Hargs.
  erewrite bind_POk; [|apply (parseArgs_ok _ (length ((tl :: ts3') ++ t :: rest)) args)].
  - repeat pstep. done.
  - apply Runs_expression. lia.
  - eapply Forall_impl; [exact Hargs|]. intros e He us rest' Hus Hs _. by apply parseExpression_ok.
  - done.
  - done.
  - lia.
Qed.

End StatementForms.

(** *** All statements *)

Section Programs.
Context `{UnicodeTables}.

Lemma statement_fuel_progress n : progress (parseStatement_fuel n) n.
Proof. intros ts. apply runs_statement_fuel. Qed.

Lemma forallb_impl_Forall {A} (p : A → bool) (P : A → Prop) l :
  Forall (λ x, p x = true → P x) l → forallb p l = true → Forall P l.
Proof.
  intros Hl Hp. apply forallb_Forall' in Hp. rewrite Forall_forall in *. eauto.
Qed.

(** The first token of a statement decides its form. *)
Definition stmt_type (s : Statement) : TokenType :=
  match s with
  | AssignStmt _ _ | CallStmt _ _ => TokenIdent
  | IfStmt _ _ _ _ => TokenIf
  | ForStmt _ _ _ _ _ => TokenFor
  | WhileStmt _ _ => TokenWhile
  | RepeatStmt _ _ => TokenRepeat
  | CaseStmt _ _ _ => TokenCase
  | ReturnStmt => TokenReturn
  end.

Lemma stmt_type_head s : ∃ lit l, print_stmt s = (stmt_type s, lit) :: l.
Proof.
  destruct s; cbn; eauto;
  match goal with |- context [ident_tokens ?n] =>
    destruct (ident_tokens_head n) as (x & l & ->); cbn; eauto end.
Qed.

Lemma first_type s ts rest : map spelling ts = print_stmt s →
  Type_ (peek_token (ts ++ rest)) = stmt_type s.
Proof.
  destruct (stmt_type_head s) as (lit & l & ->). intros Hts.
  by apply spelling_cons in Hts as (t & ts' & -> & Ht & _ & _).
Qed.

Lemma print_stmt_length s ts : map spelling ts = print_stmt s → (1 ≤ length ts)%nat.
Proof.
  destruct (stmt_type_head s) as (lit & l & ->). intros Hts.
  apply spelling_cons in Hts as (t & ts' & -> & _). cbn. lia.
Qed.

Definition read_back_stmt (s : Statement) : Prop :=
  printable_stmt s = true → ∀ n, reads_stmt (parseStatement_fuel (S n)) n s.

Lemma block_reads n b : Forall read_back_stmt b → forallb printable_stmt b = true →
  Forall (reads_stmt (parseStatement_fuel (S n)) n) b.
Proof.
  intros Hb. apply forallb_impl_Forall. eapply Forall_impl; [exact Hb|]. unfold read_back_stmt. eauto.
Qed.

Lemma clauses_read {A} n (p : A → bool) cs :
  Forall (λ x, Forall read_back_stmt x.2) cs →
  forallb (λ '(x, b), p x && forallb printable_stmt b) cs = true →
  Forall (reads_clause (parseStatement_fuel (S n)) n p) cs.
Proof.
  intros Hcs. apply forallb_impl_Forall. eapply Forall_impl; [exact Hcs|].
  intros [x b] Hb Hp. apply andb_prop in Hp as [Hx Hp]. split; [done|].
  by apply block_reads.
Qed.

Lemma read_stmt s : read_back_stmt s.
Proof.
  induction s as [t v|c th ei el IHth IHei IHel|v a e st b IHb|c b IHb|b c IHb|e cs el IHcs IHel|f args|]
    using Statement_ind'; intros Hp n ts rest Hts Hl; cbn [printable_stmt] in Hp.
  all: pose proof (first_type _ _ rest Hts) as Hty.
  all: destruct n as [|n]; [by apply print_stmt_length in Hts; rewrite length_app in Hl; lia|].
  all: cbn [parseStatement_fuel]; unfold statement; rewrite peekType_bind, Hty; clear Hty.
  all: repeat match goal with H : _ && _ = true |- _ => apply andb_prop in H as [? ?] end.
  all: pose proof (statement_fuel_progress (S n)) as Hprog.
  - by apply assign_ok.
  - apply (if_ok _ n); try done.
    + by apply block_reads.
    + by apply clauses_read.
    + by apply block_reads.
  - apply (for_ok _ n); try done; [by destruct st|]. by apply block_reads.
  - apply (while_ok _ n); try done. by apply block_reads.
  - apply (repeat_ok _ n); try done. by apply block_reads.
  - apply (case_ok _ n); try done; [by apply Nat.leb_le| |by apply block_reads].
    by apply clauses_read.
  - by apply call_ok.
  - cbn [print_stmt] in Hts. pieces. cbn [stmt_type]. repeat pstep. done.
Qed.

(** ** Programs *)

Definition dt_spell (dt : string) : spell :=
  (match keyword dt with Some ty => ty | None => TokenIdent end, dt).

Definition print_decl (d : VarDecl) : list spell :=
  (TokenIdent, vdName d) :: (TokenColon, ":") :: dt_spell (vdDatatype d)
  :: match vdInitial d with Some e => assign :: print_expr 0 e | None => [] end ++ [semi].

Definition kind_type (kind : string) : option TokenType :=
  if String.eqb kind "VAR" then Some TokenVar
  else if String.eqb kind "VAR_INPUT" then Some TokenVarInput
  else if String.eqb kind "VAR_OUTPUT" then Some TokenVarOutput
  else None.

Definition print_varblock (vb : VarBlock) : list spell :=
  (default TokenVar (kind_type (vbKind vb)), vbKind vb)
  :: concat (map print_decl (vbVariables vb)) ++ [(TokenEndVar, "END_VAR")].

Definition print_program (p : Program) : list spell :=
  (TokenProgram, "PROGRAM") :: (TokenIdent, progName p)
  :: concat (map print_varblock (VarBlocks p)) ++ print_block (Statements p)
  ++ [(TokenEndProgram, "END_PROGRAM")].

Definition printable_decl (d : VarDecl) : bool :=
  bool_decide (to_upper (vdDatatype d) = vdDatatype d)
  && match vdInitial d with Some e => printable e | None => true end.

Definition printable_varblock (vb : VarBlock) : bool :=
  bool_decide (is_Some (kind_type (vbKind vb))) && forallb printable_decl (vbVariables vb).

Definition printable_program (p : Program) : bool :=
  forallb printable_varblock (VarBlocks p) && forallb printable_stmt (Statements p).

Lemma wrap_POk {A} s (p : parser A) ts a rest : p ts = POk a rest → wrap s p ts = POk a rest.
Proof. unfold wrap. by intros ->. Qed.

Lemma decl_ok d ts rest : printable_decl d = true → map spelling ts = print_decl d →
  parseVarDecl (ts ++ rest) = POk d rest.
Proof.
  destruct d as [name dt init]. unfold printable_decl, print_decl, dt_spell. cbn [vdName vdDatatype vdInitial].
  intros [Hdt Hinit]%andb_prop Hts. apply bool_decide_eq_true in Hdt.
  destruct init as [e|]; pieces; unfold parseVarDecl.
  all: erewrite bind_POk; [|apply wrap_POk, expect_hit; eassumption].
  all: erewrite bind_POk; [|apply wrap_POk, expect_hit; eassumption].
  all: do 2 pstep.
  - do 3 pstep. erewrite bind_POk;
      [|apply wrap_POk, parseExpression_ok; [exact Hinit|eassumption|by head_type]].
    repeat pstep. unfold mret, parser_ret. by subst; rewrite Hdt.
  - repeat pstep. unfold mret, parser_ret. by subst; rewrite Hdt.
Qed.

Definition decls_body (vs : list VarDecl) : parser (list VarDecl + list VarDecl) :=
  ty ← peekType;
  if tt_eqb ty TokenEndVar || tt_eqb ty TokenEOF then mret (inr vs)
  else decl ← parseVarDecl; mret (inl (vs ++ [decl])).

Lemma Runs_decl N : Runs 1 N parseVarDecl.
Proof.
  apply Runs_bind; [by apply Runs_wrap, Runs_expect1|runs].
Qed.

Lemma decls_body_runs N : body_runs N decls_body.
Proof.
  apply consume_body_runs. intros vs ts Hts. unfold decls_body. rewrite peekType_bind.
  case_if; [left; eauto|right]. apply (Runs_bind 1 N parseVarDecl (λ decl, _)); [apply Runs_decl|runs|done].
Qed.

Lemma decls_loop vs : forallb printable_decl vs = true → ∀ acc ts t rest,
  map spelling ts = concat (map print_decl vs) → Type_ t = TokenEndVar →
  for_loop decls_body acc (ts ++ t :: rest) = POk (acc ++ vs) (t :: rest).
Proof.
  induction vs as [|d vs IH]; intros Hp acc ts t rest Hts Ht; cbn in Hp.
  - destruct ts; [|done]. cbn [app]. rewrite app_nil_r. unfold for_loop. cbn [loop].
    rewrite (bind_POk _ _ _ (inr acc) (t :: rest)); [done|]. unfold decls_body.
    rewrite peekType_bind. cbn [peek_token]. by rewrite Ht.
  - apply andb_prop in Hp as [Hd Hp]. cbn [map concat] in Hts.
    apply spelling_app in Hts as (td & tvs & -> & Htd & Htvs). rewrite <- app_assoc.
    rewrite for_loop_unfold by apply decls_body_runs.
    assert (Hty : Type_ (peek_token (td ++ tvs ++ t :: rest)) = TokenIdent).
    { pose proof Htd as H'. apply spelling_cons in H' as (x & l & -> & Hx & _). done. }
    assert (decls_body acc (td ++ tvs ++ t :: rest) = POk (inl (acc ++ [d])) (tvs ++ t :: rest)) as ->.
    { unfold decls_body. rewrite peekType_bind, Hty. cbn [tt_eqb token_num Nat.eqb orb].
      by rewrite (bind_POk _ _ _ _ _ (decl_ok d td _ Hd Htd)). }
    cbn [presult_bind]. rewrite IH by done. by rewrite <- app_assoc.
Qed.

Lemma kind_type_ok k ty : kind_type k = Some ty →
  isVarBlockStart ty = true ∧ to_upper k = k ∧ ty ≠ TokenEndProgram ∧ ty ≠ TokenEOF.
Proof.
  unfold kind_type. repeat (case_if; [match goal with H : String.eqb _ _ = true |- _ =>
    apply String.eqb_eq in H as -> end; by intros [= <-]|]). done.
Qed.

Lemma varblock_ok vb ts rest : printable_varblock vb = true →
  map spelling ts = print_varblock vb → parseVarBlock (ts ++ rest) = POk vb rest.
Proof.
  destruct vb as [k vs]. unfold printable_varblock, print_varblock. cbn [vbKind vbVariables].
  intros [Hk Hvs]%andb_prop Hts. apply bool_decide_eq_true in Hk as [ty Hk].
  destruct (kind_type_ok k ty Hk) as (_ & Hup & _).
  apply spelling_cons in Hts as (tk & ts' & -> & _ & Hlit & Hts). pieces.
  unfold parseVarBlock. pstep. change (for_loop _ ?s) with (for_loop decls_body s).
  erewrite bind_POk; [|apply (decls_loop vs Hvs []); done]. pstep.
  unfold mret, parser_ret. cbn in Hlit. by rewrite Hlit, Hup.
Qed.

Definition items_body (stop : TokenType → bool) (s : list VarBlock * list Statement)
    : parser (list VarBlock * list Statement + list VarBlock * list Statement) :=
  let '(vbs, stmts) := s in
  ty ← peekType;
  if stop ty then mret (inr (vbs, stmts))
  else if isVarBlockStart ty then
    vb ← parseVarBlock; mret (inl (vbs ++ [vb], stmts))
  else stmt ← parseStatement; mret (inl (vbs, stmts ++ option_list stmt)).

Lemma items_eq stop : parseItems stop = for_loop (items_body stop) ([], []).
Proof. reflexivity. Qed.

Definition program_stop (ty : TokenType) : bool :=
  tt_eqb ty TokenEndProgram || tt_eqb ty TokenEOF.

Lemma items_body_runs N : body_runs N (items_body program_stop).
Proof.
  apply consume_body_runs. intros [vbs stmts] ts Hts. unfold items_body. rewrite peekType_bind.
  destruct ts as [|t ts]; [left; cbn; eauto|]. cbn [peek_token].
  destruct (program_stop (Type_ t)); [left; eauto|right]. unfold mbind, parser_bind. case_if.
  - pose proof (runs_var_block t ts). destruct (parseVarBlock (t :: ts)); done.
  - pose proof (runs_parseStatement (t :: ts) ltac:(done)).
    destruct (parseStatement (t :: ts)); done.
Qed.

Lemma items_stmts b : forallb printable_stmt b = true → ∀ vbs acc ts t rest,
  map spelling ts = print_block b → Type_ t = TokenEndProgram →
  for_loop (items_body program_stop) (vbs, acc) (ts ++ t :: rest)
  = POk (vbs, acc ++ b) (t :: rest).
Proof.
  induction b as [|s b IH]; intros Hp vbs acc ts t rest Hts Ht; cbn in Hp.
  - destruct ts; [|done]. cbn [app]. rewrite app_nil_r. unfold for_loop. cbn [loop].
    rewrite (bind_POk _ _ _ (inr (vbs, acc)) (t :: rest)); [done|]. unfold items_body.
    rewrite peekType_bind. cbn [peek_token]. by rewrite Ht.
  - apply andb_prop in Hp as [Hs Hp]. cbn in Hts.
    apply spelling_app in Hts as (t1 & t2 & -> & Ht1 & Ht2). rewrite <- app_assoc.
    rewrite for_loop_unfold by apply items_body_runs.
    assert (items_body program_stop (vbs, acc) (t1 ++ t2 ++ t :: rest)
      = POk (inl (vbs, acc ++ [s])) (t2 ++ t :: rest)) as ->.
    { unfold items_body. rewrite peekType_bind, (first_type s) by done.
      assert (program_stop (stmt_type s) = false ∧ isVarBlockStart (stmt_type s) = false)
        as [-> ->] by (by destruct s).
      rewrite (bind_POk _ _ _ (Some s) (t2 ++ t :: rest)); [done|]. unfold parseStatement.
      by apply (read_stmt s Hs (length (t1 ++ t2 ++ t :: rest))). }
    cbn [presult_bind]. rewrite IH by done. by rewrite <- app_assoc.
Qed.

Lemma items_all vbs b : forallb printable_varblock vbs = true → forallb printable_stmt b = true →
  ∀ acc ts t rest, map spelling ts = concat (map print_varblock vbs) ++ print_block b →
  Type_ t = TokenEndProgram →
  for_loop (items_body program_stop) (acc, []) (ts ++ t :: rest)
  = POk (acc ++ vbs, b) (t :: rest).
Proof.
  intros Hvbs Hb. induction vbs as [|vb vbs IH]; intros acc ts t rest Hts Ht; cbn in Hvbs.
  - rewrite app_nil_r. by apply (items_stmts b Hb acc []).
  - apply andb_prop in Hvbs as [Hvb Hvbs]. cbn [map concat] in Hts. rewrite <- app_assoc in Hts.
    apply spelling_app in Hts as (t1 & t2 & -> & Ht1 & Ht2). rewrite <- app_assoc.
    rewrite for_loop_unfold by apply items_body_runs.
    assert (items_body program_stop (acc, []) (t1 ++ t2 ++ t :: rest)
      = POk (inl (acc ++ [vb], [])) (t2 ++ t :: rest)) as ->.
    { unfold items_body. rewrite peekType_bind.
      pose proof Ht1 as H'. apply spelling_cons in H' as (x & l & -> & Hx & _).
      cbn [app peek_token]. pose proof Hvb as Hk. apply andb_prop in Hk as [Hk _].
      apply bool_decide_eq_true in Hk as [ty Hk].
      assert (Type_ x = ty) as -> by (rewrite Hx; cbn; by rewrite Hk).
      destruct (kind_type_ok _ _ Hk) as (Hst & _ & Hn1 & Hn2).
      assert (program_stop ty = false) as ->.
      { unfold program_stop. destruct (tt_eqb_spec ty TokenEndProgram), (tt_eqb_spec ty TokenEOF); done. }
      rewrite Hst. change (x :: l ++ t2 ++ t :: rest) with ((x :: l) ++ t2 ++ t :: rest).
      by rewrite (bind_POk _ _ _ _ _ (varblock_ok vb _ _ Hvb Ht1)). }
    cbn [presult_bind]. rewrite IH by done. by rewrite <- app_assoc.
Qed.

(** C2: parsing is the inverse of printing for whole programs: the text of any program
    of variable blocks and statements (expressions with minimal parentheses, nested
    IF/ELSIF/ELSE, FOR, WHILE, REPEAT, calls, assignments, CASE of at most one
    clause) is lexed and parsed to that very program, up to the end of the file. *)
Theorem Parse_print_program (p : Program) :
  printable_program p = true → forallb spelled (print_program p) = true →
  ∃ eof, Type_ eof = TokenEOF ∧ Parse (str (print_tokens (print_program p))) = POk p [eof].
Proof.
  intros [Hvbs Hb]%andb_prop Hsp%forallb_Forall'. pose proof (Lex_printed _ Hsp) as Hlex. unfold Parse.
  destruct (Lex _) as [tokens|]; [|done]. apply (inj Some) in Hlex.
  unfold print_program in Hlex. destruct p as [name vbs b]. cbn [VarBlocks Statements progName] in *.
  apply spelling_app in Hlex as (ts & tl & -> & Hts & Htl).
  apply spelling_cons in Htl as (eof & tl' & -> & Heof & _ & Htl). destruct tl'; [|done].
  exists eof. split; [done|].
  apply spelling_cons in Hts as (t1 & ts1 & -> & H1 & _ & Hts).
  apply spelling_cons in Hts as (t2 & ts2 & -> & H2 & Hl2 & Hts).
  rewrite app_assoc in Hts. apply spelling_app in Hts as (ts3 & ts4 & -> & Hts3 & Hts4).
  apply spelling_cons in Hts4 as (t5 & ts5 & -> & H5 & _ & Hts5). destruct ts5; [|done].
  cbn [app fst snd] in *. rewrite <- app_assoc. cbn [app]. unfold parseProgram.
  rewrite peekType_bind. cbn [peek_token]. rewrite H1. cbn [tt_eqb token_num Nat.eqb].
  do 2 rewrite advance_bind. rewrite items_eq. fold program_stop.
  erewrite bind_POk; [|apply (items_all vbs b Hvbs Hb [] ts3 t5 [eof] Hts3 H5)].
  erewrite bind_POk; [|by apply match_hit]. unfold mret, parser_ret. by rewrite Hl2.
Qed.

(** A token that starts no statement is passed over. *)
Lemma block_skip ps M terms acc t rest :
  progress ps (S M) → (length (t :: rest) ≤ M)%nat → ps (t :: rest) = POk None rest →
  tt_eqb (Type_ t) TokenEOF || existsb (tt_eqb (Type_ t)) terms = false →
  for_loop (block_body ps terms) acc (t :: rest) = for_loop (block_body ps terms) acc rest.
Proof.
  intros Hps HM Ht Hterms.
  rewrite for_loop_unfold; [|intros s us Hus; apply (block_body_runs ps (S M)); [done|lia]].
  unfold block_body at 1. rewrite peekType_bind. cbn [peek_token]. rewrite Hterms.
  rewrite (bind_POk _ _ _ _ _ Ht). cbn [mret parser_ret presult_bind option_list].
  by rewrite app_nil_r.
Qed.

Lemma skip_number n t rest : Type_ t = TokenNumber → parseStatement_fuel (S n) (t :: rest) = POk None rest.
Proof. intros Ht. cbn [parseStatement_fuel]. unfold statement. rewrite peekType_bind. cbn. by rewrite Ht. Qed.

Lemma skip_colon n t rest : Type_ t = TokenColon → parseStatement_fuel (S n) (t :: rest) = POk None rest.
Proof. intros Ht. cbn [parseStatement_fuel]. unfold statement. rewrite peekType_bind. cbn. by rewrite Ht. Qed.

Lemma read_block n b : forallb printable_stmt b = true →
  Forall (reads_stmt (parseStatement_fuel (S n)) n) b.
Proof. intros Hb. apply block_reads; [|done]. apply Forall_true. intros s. apply read_stmt. Qed.

(** a CASE statement keeps only its first label: the label of the next clause is a
    number and a colon, which the statement block of the first clause skips as
    unknown tokens, so the statements of both clauses run for the first label and the
    second label is lost. *)
Theorem case_swallows_later_labels (e : Expression) (n1 n2 : string)
    (b1 b2 : list Statement) (ts rest : list Token) :
  printable e = true → forallb printable_stmt b1 = true → forallb printable_stmt b2 = true →
  map spelling ts = (TokenCase, "CASE") :: print_expr 0 e ++ (TokenOf, "OF")
    :: (TokenNumber, n1) :: (TokenColon, ":") :: print_block b1
    ++ (TokenNumber, n2) :: (TokenColon, ":") :: print_block b2
    ++ [(TokenEndCase, "END_CASE"); semi] →
  parseStatement (ts ++ rest) = POk (Some (CaseStmt e [([NumberLit n1], b1 ++ b2)] [])) rest.
Proof.
  intros He Hb1 Hb2 Hts. unfold parseStatement.
  assert (Hl : (length (ts ++ rest) ≤ length (ts ++ rest))%nat) by lia. revert Hl.
  generalize (length (ts ++ rest)) at 2 3. intros n Hl. pieces.
  destruct n as [|n]; [cbn in Hl; lia|]. cbn [parseStatement_fuel]. unfold statement at 1.
  rewrite peekType_bind. cbn [peek_token]. rewrite Ht.
  set (ps := parseStatement_fuel (S n)).
  change (statement (parseStatement_fuel n)) with ps.
  assert (Hps : progress ps (S n)) by apply statement_fuel_progress.
  assert (Hr1 := read_block n b1 Hb1). assert (Hr2 := read_block n b2 Hb2). fold ps in Hr1, Hr2.
  assert (Hterms : Forall (λ ty, stmt_start ty = false) [TokenEndCase; TokenElse])
    by (by apply Forall_true_bool).
  set (tail_ := t5 :: t6 :: rest).
  assert (Hblock : parseStatementBlock ps [TokenEndCase; TokenElse]
    (us0 ++ t3 :: t4 :: us1 ++ tail_) = POk (b1 ++ b2) tail_).
  { assert (Hl' : (length (us0 ++ t3 :: t4 :: us1 ++ tail_) ≤ n)%nat) by (unfold tail_; lens).
    rewrite block_eq, (block_steps ps n _ b1) by done.
    rewrite (block_skip ps n); [|done|lens|by apply skip_number|by rewrite Ht3].
    rewrite (block_skip ps n); [|done|lens|by apply skip_colon|by rewrite Ht4].
    rewrite (block_steps ps n _ b2) by (done || lens).
    apply block_stop. unfold tail_. cbn [peek_token]. rewrite Ht5. by left. }
  unfold parseCaseStmt. do 3 pstep.
  rewrite (bind_POk _ _ _ [([NumberLit n1], b1 ++ b2)] tail_).
  - unfold tail_. repeat pstep. done.
  - change (for_loop _ ?s) with (for_loop (case_body ps) s). unfold for_loop. cbn [loop].
    rewrite (bind_POk _ _ _ (inr [([NumberLit n1], b1 ++ b2)]) tail_); [done|].
    unfold case_body. rewrite peekType_bind. cbn [peek_token]. rewrite Ht1. cbn [case_over].
    change (case_over TokenNumber) with false. cbn iota.
    assert (Hv : parseCaseValues (t1 :: t2 :: us0 ++ t3 :: t4 :: us1 ++ tail_)
      = POk [NumberLit n1] (t2 :: us0 ++ t3 :: t4 :: us1 ++ tail_)).
    { refine (values_loop [NumberLit n1] _ _ [] [t1] t2 (us0 ++ t3 :: t4 :: us1 ++ tail_) _ Ht2);
        [done|by repeat constructor|]. cbn. unfold spelling. by rewrite Ht1, Hlit1. }
    rewrite (bind_POk _ _ _ _ _ Hv), advance_bind, (bind_POk _ _ _ _ _ Hblock), peekType_bind.
    unfold tail_. cbn [peek_token]. by rewrite Ht5.
Qed.

End Programs.

(** ** Witnesses *)

Definition sample_program : Program :=
  mkProgram "tank" [mkVarBlock "VAR" [mkVarDecl "level" "REAL" (Some (NumberLit "0.0"));
                                     mkVarDecl "n" "INT" None]]
    [IfStmt (BinaryExpr (IdentExpr "level") ">" (BinaryExpr (NumberLit "2") "*"
               (BinaryExpr (IdentExpr "cfg.max") "-" (NumberLit "1"))))
       [AssignStmt "valve.open" (BoolLit false)]
       [(UnaryExpr "NOT" (CallExpr "ready" [IdentExpr "n"; TimeLit "5s"]), [ReturnStmt])]
       [WhileStmt (BinaryExpr (IdentExpr "n") "<" (NumberLit "3"))
          [AssignStmt "n" (BinaryExpr (IdentExpr "n") "+" (NumberLit "1"))]];
     CaseStmt (IdentExpr "n") [([NumberLit "1"; NumberLit "2"], [CallStmt "alarm" []])] [];
     ForStmt "i" (NumberLit "1") (NumberLit "9") (Some (NumberLit "2")) [];
     RepeatStmt [ReturnStmt] (BoolLit true)].

Lemma Parse_print_program_witness : let _ := ascii_tables in
  ∃ eof, Type_ eof = TokenEOF
    ∧ Parse (str (print_tokens (print_program sample_program))) = POk sample_program [eof].
Proof.
  exact (@Parse_print_program ascii_tables sample_program
    ltac:(vm_compute; reflexivity) ltac:(vm_compute; reflexivity)).
Defined.

(** [a - (b - c) * -d] *)
Definition sample_expr : Expression :=
  BinaryExpr (IdentExpr "a") "-"
    (BinaryExpr (BinaryExpr (IdentExpr "b") "-" (IdentExpr "c")) "*" (UnaryExpr "-" (IdentExpr "d"))).

Definition at_line (t : spell) : Token := mkToken t.1 t.2 1 1.

Lemma parseExpression_print_witness : let _ := ascii_tables in
  parseExpression (map at_line (print_expr 0 sample_expr) ++ [at_line semi])
  = POk sample_expr [at_line semi].
Proof.
  exact (@parseExpression_print ascii_tables sample_expr
    (map at_line (print_expr 0 sample_expr)) [at_line semi] eq_refl eq_refl I).
Defined.

Definition two_labels : list spell :=
  [(TokenCase, "CASE"); (TokenIdent, "n"); (TokenOf, "OF");
   (TokenNumber, "1"); (TokenColon, ":"); (TokenReturn, "RETURN"); semi;
   (TokenNumber, "2"); (TokenColon, ":"); (TokenReturn, "RETURN"); semi;
   (TokenEndCase, "END_CASE"); semi].

Lemma case_swallows_later_labels_witness : let _ := ascii_tables in
  parseStatement (map at_line two_labels ++ [])
  = POk (Some (CaseStmt (IdentExpr "n") [([NumberLit "1"], [ReturnStmt; ReturnStmt])] [])) [].
Proof.
  exact (@case_swallows_later_labels ascii_tables (IdentExpr "n") "1" "2" [ReturnStmt] [ReturnStmt]
    (map at_line two_labels) [] eq_refl eq_refl eq_refl eq_refl).
Defined.
