(* ===== verification/StCodegen.v ===== *)
(** Starlark code generation: internal/plc/st/codegen.go.

    The generator's buffer and indentation are threaded through the functions that
    write. The emitted text is shown to be the rendering of a tree of indented
    blocks. *)

From S2P Require Export StParser.


Definition maxLoopIterations : Z := 10000.

Record generator := mkGen { buf : string; indent : nat }.

Section Codegen.
Context `{UnicodeTables}.

Definition write (g : generator) (s : string) : generator :=
  mkGen (buf g +:+ s) (indent g).

Fixpoint write_indent (n : nat) (g : generator) : generator :=
  match n with O => g | S n' => write_indent n' (write g "    ") end.

Definition newline : string := str [nl].

Definition writeLine (g : generator) (s : string) : generator :=
  write (write (write_indent (indent g) g) s) newline.

Definition indent_more (g : generator) : generator := mkGen (buf g) (S (indent g)).
Definition indent_less (g : generator) : generator := mkGen (buf g) (pred (indent g)).

Definition mapOp (op : string) : string :=
  if String.eqb op "=" then "=="
  else if String.eqb op "<>" then "!="
  else if String.eqb op "AND" then "and"
  else if String.eqb op "OR" then "or"
  else if String.eqb op "NOT" then "not"
  else if String.eqb op "XOR" then "^"
  else if String.eqb op "MOD" then "%"
  else op.

Fixpoint memberPath (object : Expression) (member : string) : string :=
  match object with
  | MemberExpr o m => memberPath o m +:+ "." +:+ member
  | IdentExpr n => n +:+ "." +:+ member
  | _ => member
  end.

(** [n * k] in Go's 64-bit [int]. *)
Definition mul64 (n k : Z) : Z := wraps 64 (n * k).

Definition parseTimeMs (raw : string) : Z :=
  let raw := trim_space raw in
  if has_suffix raw "ms" then (atoi (trim_suffix raw "ms")).1
  else if has_suffix raw "s" then mul64 (atoi (trim_suffix raw "s")).1 1000
  else if has_suffix raw "m" then mul64 (atoi (trim_suffix raw "m")).1 60000
  else if has_suffix raw "h" then mul64 (atoi (trim_suffix raw "h")).1 3600000
  else (atoi raw).1.

Fixpoint expr (e : Expression) : string :=
  match e with
  | NumberLit v => v
  | StringLit v => quote v
  | BoolLit b => if b then "True" else "False"
  | IdentExpr n => "get_var(" +:+ quote n +:+ ")"
  | BinaryExpr l op r => "(" +:+ expr l +:+ " " +:+ mapOp op +:+ " " +:+ expr r +:+ ")"
  | UnaryExpr op o => mapOp op +:+ " " +:+ expr o
  | CallExpr n args => n +:+ "(" +:+ str_join ", " (map expr args) +:+ ")"
  | MemberExpr o m => "get_var(" +:+ quote (memberPath o m) +:+ ")"
  | TimeLit r => itoa (parseTimeMs r)
  end.

(** The loop over the statements of a non-empty block. *)
Definition stmtBlock_with (stmt : Statement → generator → generator)
    (stmts : list Statement) (g : generator) : generator :=
  match stmts with
  | [] => writeLine g "pass"
  | _ => fold_left (λ g s, stmt s g) stmts g
  end.

Fixpoint stmt (s : Statement) (g : generator) : generator :=
  let stmtBlock := stmtBlock_with stmt in
  match s with
  | AssignStmt t v =>
      writeLine g ("set_var(" +:+ quote t +:+ ", " +:+ expr v +:+ ")")
  | IfStmt c th ei el =>
      let g := writeLine g ("if " +:+ expr c +:+ ":") in
      let g := indent_less (stmtBlock th (indent_more g)) in
      let g := fold_left (λ g elsif,
                 let g := writeLine g ("elif " +:+ expr elsif.1 +:+ ":") in
                 indent_less (stmtBlock elsif.2 (indent_more g))) ei g in
      match el with
      | [] => g
      | _ => indent_less (stmtBlock el (indent_more (writeLine g "else:")))
      end
  | ForStmt v s e st b =>
      let startExpr := expr s in
      let endExpr := expr e +:+ " + 1" in
      let g := match st with
               | Some x => writeLine g ("for " +:+ v +:+ " in range(" +:+ startExpr +:+ ", "
                             +:+ endExpr +:+ ", " +:+ expr x +:+ "):")
               | None => writeLine g ("for " +:+ v +:+ " in range(" +:+ startExpr +:+ ", "
                             +:+ endExpr +:+ "):")
               end in
      indent_less (stmtBlock b (indent_more g))
  | WhileStmt c b =>
      let g := indent_more (writeLine g ("for _ in range(" +:+ itoa maxLoopIterations +:+ "):")) in
      let g := indent_more (writeLine g ("if not (" +:+ expr c +:+ "):")) in
      let g := indent_less (writeLine g "break") in
      indent_less (stmtBlock b g)
  | RepeatStmt b c =>
      let g := indent_more (writeLine g ("for _ in range(" +:+ itoa maxLoopIterations +:+ "):")) in
      let g := stmtBlock b g in
      let g := indent_more (writeLine g ("if " +:+ expr c +:+ ":")) in
      indent_less (indent_less (writeLine g "break"))
  | CaseStmt e cs el =>
      let exprStr := expr e in
      let g := (fold_left (λ ig c,
                 let keyword := if (0 <? ig.1)%nat then "elif" else "if" in
                 let conds := map (λ v, exprStr +:+ " == " +:+ expr v) c.1 in
                 let g := writeLine ig.2 (keyword +:+ " " +:+ str_join " or " conds +:+ ":") in
                 (S ig.1, indent_less (stmtBlock c.2 (indent_more g)))) cs (0%nat, g)).2 in
      match el with
      | [] => g
      | _ => indent_less (stmtBlock el (indent_more (writeLine g "else:")))
      end
  | CallStmt n args => writeLine g (expr (CallExpr n args))
  | ReturnStmt => writeLine g "return"
  end.

Definition stmtBlock : list Statement → generator → generator := stmtBlock_with stmt.

(** The assignments of initial values, in declaration order. *)
Definition init_decl (g : generator) (v : VarDecl) : generator :=
  match vdInitial v with
  | Some e => writeLine g ("set_var(" +:+ quote (vdName v) +:+ ", " +:+ expr e +:+ ")")
  | None => g
  end.

Definition generate (prog : Program) (g : generator) : generator :=
  let name := if String.eqb (progName prog) "" then "main" else progName prog in
  let g := indent_more (writeLine g ("def " +:+ name +:+ "():")) in
  let g := fold_left (λ g vb, fold_left init_decl (vbVariables vb) g) (VarBlocks prog) g in
  let g := match Statements prog, VarBlocks prog with [], [] => writeLine g "pass" | _, _ => g end in
  let g := fold_left (λ g s, stmt s g) (Statements prog) g in
  indent_less g.

(** [Transpile]: the Starlark source and the variable declarations. *)
Definition Transpile (source : string) : outcome (string * list VarDecl) :=
  match Parse source with
  | POk prog _ =>
      Ok (buf (generate prog (mkGen "" 0)), concat (map vbVariables (VarBlocks prog)))
  | PErr e => Err ("st transpile: " +:+ e)
  | PFuel => Panic
  end.

End Codegen.

Example Transpile_ex : let _ := ascii_tables in
  Transpile "x := 1; IF a > 2 THEN f(x); END_IF"
  = Ok ("def main():" +:+ newline +:+ "    set_var(" +:+ quote "x" +:+ ", 1)" +:+ newline
        +:+ "    if (get_var(" +:+ quote "a" +:+ ") > 2):" +:+ newline
        +:+ "        f(get_var(" +:+ quote "x" +:+ "))" +:+ newline, []).
Proof. vm_compute. reflexivity. Qed.

(** ** The emitted text as a tree of blocks *)

Inductive pkw : Set := KIf | KElif | KElse | KFor | KDef.

Inductive pnode : Type :=
  | PLine (text : string)
  | PBlock (kw : pkw) (head : string) (body : list pnode).

Definition kw_text (k : pkw) : string :=
  match k with
  | KIf => "if " | KElif => "elif " | KElse => "else" | KFor => "for " | KDef => "def "
  end.

Fixpoint spaces (n : nat) : string :=
  match n with O => "" | S n' => "    " +:+ spaces n' end.

Definition text_line (n : nat) (s : string) : string := spaces n +:+ s +:+ newline.

Definition concat_str (l : list string) : string := foldr (λ a b, a +:+ b) "" l.

Fixpoint render (n : nat) (p : pnode) : string :=
  match p with
  | PLine s => text_line n s
  | PBlock k h b => text_line n (kw_text k +:+ h +:+ ":") +:+ concat_str (map (render (S n)) b)
  end.

Definition render_all (n : nat) (l : list pnode) : string := concat_str (map (render n) l).

(** Block structure of Starlark: every header has a non-empty body, and [elif] and
    [else] directly follow an [if] or [elif] of the same level. *)
Definition opens_else (p : pnode) : bool :=
  match p with PBlock KIf _ _ | PBlock KElif _ _ => true | _ => false end.

Fixpoint wf_node (after_if : bool) (p : pnode) {struct p} : bool :=
  match p with
  | PLine _ => true
  | PBlock k _ b =>
      match k with KElif | KElse => after_if | _ => true end
      && match b with [] => false | _ => true end
      && (fix go (after_if : bool) (l : list pnode) : bool :=
            match l with
            | [] => true
            | p' :: l' => wf_node after_if p' && go (opens_else p') l'
            end) false b
  end.

Fixpoint wf_nodes (after_if : bool) (l : list pnode) : bool :=
  match l with
  | [] => true
  | p :: l' => wf_node after_if p && wf_nodes (opens_else p) l'
  end.

(** ** Compilation to a tree *)

Section Trees.
Context `{UnicodeTables}.

Definition block_with (compile : Statement → list pnode) (l : list Statement) : list pnode :=
  match l with [] => [PLine "pass"] | _ => concat (map compile l) end.

Definition else_with (compile : Statement → list pnode) (l : list Statement) : list pnode :=
  match l with [] => [] | _ => [PBlock KElse "" (block_with compile l)] end.

Definition case_head (e : Expression) (vs : list Expression) : string :=
  str_join " or " (map (λ v, expr e +:+ " == " +:+ expr v) vs).

Fixpoint compile (s : Statement) : list pnode :=
  match s with
  | AssignStmt t v => [PLine ("set_var(" +:+ quote t +:+ ", " +:+ expr v +:+ ")")]
  | IfStmt c th ei el =>
      PBlock KIf (expr c) (block_with compile th)
      :: map (λ x, PBlock KElif (expr x.1) (block_with compile x.2)) ei
      ++ else_with compile el
  | ForStmt v s e st b =>
      [PBlock KFor
         (v +:+ " in range(" +:+ expr s +:+ ", " +:+ expr e +:+ " + 1"
          +:+ match st with Some x => ", " +:+ expr x | None => "" end +:+ ")")
         (block_with compile b)]
  | WhileStmt c b =>
      [PBlock KFor ("_ in range(" +:+ itoa maxLoopIterations +:+ ")")
         (PBlock KIf ("not (" +:+ expr c +:+ ")") [PLine "break"] :: block_with compile b)]
  | RepeatStmt b c =>
      [PBlock KFor ("_ in range(" +:+ itoa maxLoopIterations +:+ ")")
         (block_with compile b ++ [PBlock KIf (expr c) [PLine "break"]])]
  | CaseStmt e cs el =>
      match cs with
      | [] => []
      | c :: cs' =>
          PBlock KIf (case_head e c.1) (block_with compile c.2)
          :: map (λ x, PBlock KElif (case_head e x.1) (block_with compile x.2)) cs'
      end ++ else_with compile el
  | CallStmt n args => [PLine (expr (CallExpr n args))]
  | ReturnStmt => [PLine "return"]
  end.

(** The tree of a program: one function with the initial values and the statements. *)
Definition init_nodes (v : VarDecl) : list pnode :=
  match vdInitial v with
  | Some e => [PLine ("set_var(" +:+ quote (vdName v) +:+ ", " +:+ expr e +:+ ")")]
  | None => []
  end.

Definition program_nodes (prog : Program) : list pnode :=
  concat (map (λ vb, concat (map init_nodes (vbVariables vb))) (VarBlocks prog))
  ++ match Statements prog, VarBlocks prog with [], [] => [PLine "pass"] | _, _ => [] end
  ++ concat (map compile (Statements prog)).

Definition program_tree (prog : Program) : pnode :=
  PBlock KDef ((if String.eqb (progName prog) "" then "main" else progName prog) +:+ "()")
    (program_nodes prog).

(** ** The generator renders the tree *)

(** [appends g g' s]: [g'] is [g] with [s] written, at the same indentation. *)
Definition appends (g g' : generator) (s : string) : Prop :=
  g' = mkGen (buf g +:+ s) (indent g).

Lemma appends_nil g : appends g g "".
Proof. unfold appends. rewrite string_app_nil_r. by destruct g. Qed.

Lemma appends_trans g1 g2 g3 s t :
  appends g1 g2 s → appends g2 g3 t → appends g1 g3 (s +:+ t).
Proof. unfold appends. intros -> ->. cbn. by rewrite string_app_assoc. Qed.

Lemma write_indent_appends n g : appends g (write_indent n g) (spaces n).
Proof.
  revert g. induction n as [|n IH]; intros g; cbn [write_indent spaces]; [apply appends_nil|].
  by apply (appends_trans g (write g "    ")).
Qed.

Lemma writeLine_appends g s : appends g (writeLine g s) (text_line (indent g) s).
Proof.
  unfold writeLine, text_line. eapply appends_trans; [apply write_indent_appends|].
  set (g1 := write_indent (indent g) g). by apply (appends_trans g1 (write g1 s)).
Qed.

(** What is written one level deeper. *)
Lemma indented g g' s : appends (indent_more g) g' s → appends g (indent_less g') s.
Proof. unfold appends, indent_less. by intros ->. Qed.

Lemma concat_str_app l1 l2 : concat_str (l1 ++ l2) = concat_str l1 +:+ concat_str l2.
Proof.
  induction l1 as [|a l1 IH]; [done|].
  change (a +:+ concat_str (l1 ++ l2) = (a +:+ concat_str l1) +:+ concat_str l2).
  by rewrite IH, string_app_assoc.
Qed.

Lemma render_all_app n l1 l2 : render_all n (l1 ++ l2) = render_all n l1 +:+ render_all n l2.
Proof. unfold render_all. by rewrite map_app, concat_str_app. Qed.

Lemma render_all_single n p : render_all n [p] = render n p.
Proof. unfold render_all. cbn. apply string_app_nil_r. Qed.

Lemma render_all_cons n p l : render_all n (p :: l) = render n p +:+ render_all n l.
Proof. done. Qed.

(** A header followed by its body. *)
Lemma block_appends g g' k h b :
  appends (indent_more (writeLine g (kw_text k +:+ h +:+ ":"))) g' (render_all (S (indent g)) b) →
  appends g (indent_less g') (render (indent g) (PBlock k h b)).
Proof.
  intros Hb. cbn [render]. eapply appends_trans; [apply writeLine_appends|].
  apply indented in Hb. done.
Qed.

Definition gen_ok (s : Statement) : Prop :=
  ∀ g, appends g (stmt s g) (render_all (indent g) (compile s)).

(** A loop over the elements of a list, each of which appends its rendering. *)
Lemma fold_appends {A} (f : generator → A → generator) (c : A → list pnode) l :
  Forall (λ x, ∀ g, appends g (f g x) (render_all (indent g) (c x))) l →
  ∀ g, appends g (fold_left f l g) (render_all (indent g) (concat (map c l))).
Proof.
  induction 1 as [|x l Hx _ IH]; intros g; [apply appends_nil|]. cbn [fold_left map concat].
  rewrite render_all_app. eapply appends_trans; [apply Hx|]. specialize (Hx g).
  specialize (IH (f g x)). rewrite Hx in IH |- *. exact IH.
Qed.

Lemma block_gen l : Forall gen_ok l →
  ∀ g, appends g (stmtBlock_with stmt l g) (render_all (indent g) (block_with compile l)).
Proof.
  intros Hl g. destruct l as [|s l].
  - cbn [stmtBlock_with block_with]. rewrite render_all_single. apply writeLine_appends.
  - by apply (fold_appends (λ g s, stmt s g)).
Qed.

(** A header with a statement block. *)
Lemma header_gen k h l g : Forall gen_ok l →
  appends g (indent_less (stmtBlock_with stmt l (indent_more (writeLine g (kw_text k +:+ h +:+ ":")))))
    (render (indent g) (PBlock k h (block_with compile l))).
Proof.
  intros Hl. apply block_appends.
  pose proof (block_gen l Hl (indent_more (writeLine g (kw_text k +:+ h +:+ ":")))) as Hb.
  rewrite (writeLine_appends g) in Hb |- *. exact Hb.
Qed.

Lemma else_gen l g : Forall gen_ok l →
  appends g (match l with [] => g | _ => indent_less (stmtBlock_with stmt l (indent_more (writeLine g "else:"))) end)
    (render_all (indent g) (else_with compile l)).
Proof.
  intros Hl. destruct l as [|s l]; [apply appends_nil|].
  unfold else_with. rewrite render_all_single. apply (header_gen KElse "" (s :: l) g Hl).
Qed.

Lemma appends_indent g g' s : appends g g' s → indent g' = indent g.
Proof. unfold appends. by intros ->. Qed.

Lemma concat_singletons {A B} (f : A → B) l : concat (map (λ x, [f x]) l) = map f l.
Proof. induction l as [|x l IH]; [done|]. cbn. by rewrite IH. Qed.

Lemma header_gen_single k h l g : Forall gen_ok l →
  appends g (indent_less (stmtBlock_with stmt l (indent_more (writeLine g (kw_text k +:+ h +:+ ":")))))
    (render_all (indent g) [PBlock k h (block_with compile l)]).
Proof. rewrite render_all_single. apply header_gen. Qed.

(** [if] .. [elif] chains. *)
Lemma elsif_gen {A} (head : A → string) (ei : list (A * list Statement)) g :
  Forall (λ x, Forall gen_ok x.2) ei →
  appends g (fold_left (λ g x,
      indent_less (stmtBlock_with stmt x.2 (indent_more (writeLine g ("elif " +:+ head x.1 +:+ ":"))))) ei g)
    (render_all (indent g) (map (λ x, PBlock KElif (head x.1) (block_with compile x.2)) ei)).
Proof.
  intros Hei. rewrite <- concat_singletons.
  refine (fold_appends _ (λ x, [PBlock KElif (head x.1) (block_with compile x.2)]) ei _ g).
  eapply Forall_impl; [exact Hei|]. intros x Hx g'.
  apply (header_gen_single KElif (head x.1) x.2 g' Hx).
Qed.

(** The clauses after the first one of a CASE. *)
Lemma case_gen e cs i g : Forall (λ x, Forall gen_ok x.2) cs →
  (fold_left (λ ig c,
     let keyword := if (0 <? ig.1)%nat then "elif" else "if" in
     let conds := map (λ v, expr e +:+ " == " +:+ expr v) c.1 in
     let g := writeLine ig.2 (keyword +:+ " " +:+ str_join " or " conds +:+ ":") in
     (S ig.1, indent_less (stmtBlock_with stmt c.2 (indent_more g)))) cs (S i, g)).2
  = fold_left (λ g x, indent_less (stmtBlock_with stmt x.2 (indent_more
      (writeLine g ("elif " +:+ case_head e x.1 +:+ ":"))))) cs g.
Proof.
  intros Hcs. revert i g. induction Hcs as [|[vs b] cs Hb _ IH]; intros i g; [done|].
  cbn [fold_left fst snd]. rewrite IH. done.
Qed.

(** The exit of the bounded loops that stand for WHILE and REPEAT. *)
Lemma indent_header g s : indent (indent_more (writeLine g s)) = S (indent g).
Proof. cbn. f_equal. by rewrite (appends_indent _ _ _ (write_indent_appends (indent g) g)). Qed.

Lemma break_gen h g :
  appends g (indent_less (writeLine (indent_more (writeLine g ("if " +:+ h +:+ ":"))) "break"))
    (render (indent g) (PBlock KIf h [PLine "break"])).
Proof.
  apply (block_appends g _ KIf h). rewrite render_all_single, <- (indent_header g (kw_text KIf +:+ h +:+ ":")).
  apply writeLine_appends.
Qed.

Lemma stmt_gen s : gen_ok s.
Proof.
  induction s as [t v|c th ei el IHth IHei IHel|v a e st b IHb|c b IHb|b c IHb|e cs el IHcs IHel|f args|]
    using Statement_ind'; intros g; cbn [stmt compile].
  - rewrite render_all_single. apply writeLine_appends.
  - rewrite render_all_cons, render_all_app.
    eapply appends_trans; [apply (header_gen KIf (expr c) th g IHth)|].
    set (g1 := indent_less _). assert (Hg1 : indent g1 = indent g).
    { by apply (appends_indent _ _ _ (header_gen KIf (expr c) th g IHth)). }
    rewrite <- Hg1. eapply appends_trans; [apply (elsif_gen expr ei g1 IHei)|].
    rewrite <- (appends_indent _ _ _ (elsif_gen expr ei g1 IHei)). by apply else_gen.
  - rewrite render_all_single. destruct st as [x|].
    + replace ("for " +:+ v +:+ _) with (kw_text KFor +:+ (v +:+ " in range(" +:+ expr a +:+ ", "
        +:+ expr e +:+ " + 1" +:+ (", " +:+ expr x) +:+ ")") +:+ ":")
        by (cbn [kw_text]; by rewrite <- !string_app_assoc).
      by apply header_gen.
    + replace ("for " +:+ v +:+ _) with (kw_text KFor +:+ (v +:+ " in range(" +:+ expr a +:+ ", "
        +:+ expr e +:+ " + 1" +:+ "" +:+ ")") +:+ ":")
        by (cbn [kw_text]; by rewrite <- !string_app_assoc).
      by apply header_gen.
  - rewrite render_all_single.
    change ("for _ in range(" +:+ itoa maxLoopIterations +:+ "):")
      with (kw_text KFor +:+ ("_ in range(" +:+ itoa maxLoopIterations +:+ ")") +:+ ":").
    apply block_appends. set (G := indent_more _).
    replace (S (indent g)) with (indent G) by apply indent_header.
    replace ("if not (" +:+ expr c +:+ "):") with ("if " +:+ ("not (" +:+ expr c +:+ ")") +:+ ":")
      by (by rewrite <- !string_app_assoc).
    rewrite render_all_cons. eapply appends_trans; [apply break_gen|].
    rewrite <- (appends_indent _ _ _ (break_gen ("not (" +:+ expr c +:+ ")") G)). by apply block_gen.
  - rewrite render_all_single.
    change ("for _ in range(" +:+ itoa maxLoopIterations +:+ "):")
      with (kw_text KFor +:+ ("_ in range(" +:+ itoa maxLoopIterations +:+ ")") +:+ ":").
    apply block_appends. set (G := indent_more _).
    replace (S (indent g)) with (indent G) by apply indent_header.
    rewrite render_all_app. eapply appends_trans; [by apply block_gen|].
    rewrite <- (appends_indent _ _ _ (block_gen b IHb G)).
    rewrite render_all_single. apply break_gen.
  - rewrite render_all_app. set (g1 := snd _).
    assert (H1 : appends g g1 (render_all (indent g) match cs with
      | [] => [] | c :: cs' => PBlock KIf (case_head e c.1) (block_with compile c.2)
          :: map (λ x, PBlock KElif (case_head e x.1) (block_with compile x.2)) cs' end)).
    { unfold g1. clear g1. destruct cs as [|c cs]; [apply appends_nil|].
      apply Forall_cons in IHcs as [Hc Hcs]. cbn [fold_left fst snd].
      rewrite (case_gen e cs 0 _ Hcs). rewrite render_all_cons.
      eapply appends_trans; [apply (header_gen KIf (case_head e c.1) c.2 g Hc)|].
      rewrite <- (appends_indent _ _ _ (header_gen KIf (case_head e c.1) c.2 g Hc)).
      by apply (elsif_gen (case_head e) cs). }
    eapply appends_trans; [exact H1|]. rewrite <- (appends_indent _ _ _ H1). by apply else_gen.
  - rewrite render_all_single. apply writeLine_appends.
  - rewrite render_all_single. apply writeLine_appends.
Qed.

(** ** The tree is well-formed *)

(** Every CASE has a clause. *)
Fixpoint case_ok (s : Statement) : bool :=
  match s with
  | IfStmt _ th ei el =>
      forallb case_ok th && forallb (λ x, forallb case_ok x.2) ei && forallb case_ok el
  | ForStmt _ _ _ _ b | WhileStmt _ b | RepeatStmt b _ => forallb case_ok b
  | CaseStmt _ cs el =>
      match cs with [] => false | _ => true end
      && forallb (λ x, forallb case_ok x.2) cs && forallb case_ok el
  | _ => true
  end.

Lemma wf_node_block af k h b :
  wf_node af (PBlock k h b)
  = match k with KElif | KElse => af | _ => true end
    && match b with [] => false | _ => true end && wf_nodes false b.
Proof.
  reflexivity.
Qed.

Lemma wf_nodes_app af l1 l2 :
  wf_nodes af l1 = true → (∀ af, wf_nodes af l2 = true) → wf_nodes af (l1 ++ l2) = true.
Proof.
  revert af. induction l1 as [|p l1 IH]; intros af H1 H2; [apply H2|]. cbn in *.
  apply andb_prop in H1 as [-> H1]. by apply IH.
Qed.

(** What [compile] gives for one statement. *)
Definition wf_stmt (s : Statement) : Prop :=
  case_ok s = true → compile s ≠ [] ∧ ∀ af, wf_nodes af (compile s) = true.

Lemma wf_concat l af : Forall wf_stmt l → forallb case_ok l = true →
  wf_nodes af (concat (map compile l)) = true.
Proof.
  intros Hl. revert af. induction Hl as [|s l Hs _ IH]; intros af Hc; [done|].
  cbn in *. apply andb_prop in Hc as [Hc1 Hc2]. apply wf_nodes_app; [by apply Hs|eauto].
Qed.

Lemma wf_block l : Forall wf_stmt l → forallb case_ok l = true →
  block_with compile l ≠ [] ∧ ∀ af, wf_nodes af (block_with compile l) = true.
Proof.
  intros Hl Hc. destruct l as [|s l]; [done|]. split; [|intros; by apply wf_concat].
  apply Forall_cons in Hl as [Hs _]. cbn in Hc. apply andb_prop in Hc as [Hc _].
  destruct (Hs Hc) as [Hne _]. cbn. by destruct (compile s).
Qed.

Lemma wf_header af k h l : Forall wf_stmt l → forallb case_ok l = true →
  match k with KElif | KElse => af | _ => true end = true →
  wf_node af (PBlock k h (block_with compile l)) = true.
Proof.
  intros Hl Hc Hk. rewrite wf_node_block, Hk. destruct (wf_block l Hl Hc) as [Hne ->].
  by destruct (block_with compile l).
Qed.

Lemma wf_else l : Forall wf_stmt l → forallb case_ok l = true →
  wf_nodes true (else_with compile l) = true.
Proof.
  intros Hl Hc. destruct l as [|s l]; [done|]. cbn [else_with wf_nodes].
  rewrite wf_header by done. done.
Qed.

Lemma wf_chain {A} (head : A → string) (ei : list (A * list Statement)) el :
  Forall (λ x, Forall wf_stmt x.2) ei → forallb (λ x, forallb case_ok x.2) ei = true →
  Forall wf_stmt el → forallb case_ok el = true →
  wf_nodes true (map (λ x, PBlock KElif (head x.1) (block_with compile x.2)) ei
                 ++ else_with compile el) = true.
Proof.
  intros Hei Hc Hel Hcl. induction Hei as [|x ei Hx _ IH]; [by apply wf_else|].
  cbn in Hc. apply andb_prop in Hc as [Hc1 Hc2]. cbn [map app wf_nodes].
  rewrite wf_header by done. cbn. auto.
Qed.

Lemma stmt_wf s : wf_stmt s.
Proof.
  induction s as [t v|c th ei el IHth IHei IHel|v a e st b IHb|c b IHb|b c IHb|e cs el IHcs IHel|f args|]
    using Statement_ind'; intros Hc; cbn [case_ok] in Hc; cbn [compile]; try done.
  - apply andb_prop in Hc as [Hc Hc3]. apply andb_prop in Hc as [Hc1 Hc2].
    split; [done|]. intros af. cbn [wf_nodes]. rewrite wf_header by done. by apply wf_chain.
  - split; [done|]. intros af. cbn [wf_nodes]. by rewrite wf_header.
  - split; [done|]. intros af. cbn [wf_nodes]. rewrite wf_node_block. cbn [wf_nodes andb].
    destruct (wf_block b IHb Hc) as [_ ->]. done.
  - split; [done|]. intros af. cbn [wf_nodes]. rewrite wf_node_block.
    destruct (wf_block b IHb Hc) as [Hne Hb]. rewrite wf_nodes_app by done.
    by destruct (block_with compile b).
  - apply andb_prop in Hc as [Hc Hc3]. apply andb_prop in Hc as [Hc1 Hc2].
    destruct cs as [|c cs]; [done|]. cbn in Hc2. apply andb_prop in Hc2 as [Hc2 Hc2'].
    apply Forall_cons in IHcs as [IHc IHcs].
    split; [done|]. intros af. cbn [app wf_nodes]. rewrite wf_header by done.
    by apply (wf_chain (case_head e)).
Qed.

(** ** Programs *)

Definition has_initial (v : VarDecl) : bool :=
  match vdInitial v with Some _ => true | None => false end.

(** The function that is generated has a body: a statement, an initial value, or no
    variable block at all (then [pass] is written). *)
Definition has_body (prog : Program) : bool :=
  match Statements prog with
  | _ :: _ => true
  | [] => match VarBlocks prog with
          | [] => true
          | vbs => existsb (λ vb, existsb has_initial (vbVariables vb)) vbs
          end
  end.

Lemma generate_tree prog :
  buf (generate prog (mkGen "" 0)) = render 0 (program_tree prog).
Proof.
  unfold generate, program_tree. set (name := if String.eqb _ _ then _ else _).
  set (g0 := mkGen "" 0).
  change ("def " +:+ name +:+ "():") with (kw_text KDef +:+ name +:+ "()" +:+ ":").
  rewrite (string_app_assoc name "()" ":").
  set (G := indent_more (writeLine g0 _)).
  enough (Hb : appends G (fold_left (λ g s, stmt s g) (Statements prog)
      match Statements prog, VarBlocks prog with
      | [], [] => writeLine (fold_left (λ g vb, fold_left init_decl (vbVariables vb) g) (VarBlocks prog) G) "pass"
      | _, _ => fold_left (λ g vb, fold_left init_decl (vbVariables vb) g) (VarBlocks prog) G end)
    (render_all (indent G) (program_nodes prog))).
  { apply (block_appends g0 _ KDef (name +:+ "()") (program_nodes prog)) in Hb.
    by rewrite Hb. }
  unfold program_nodes. rewrite !render_all_app.
  assert (Hinit : appends G (fold_left (λ g vb, fold_left init_decl (vbVariables vb) g) (VarBlocks prog) G)
    (render_all (indent G) (concat (map (λ vb, concat (map init_nodes (vbVariables vb))) (VarBlocks prog))))).
  { apply (fold_appends (λ g vb, fold_left init_decl (vbVariables vb) g)
      (λ vb, concat (map init_nodes (vbVariables vb)))).
    apply Forall_true. intros vb g. apply (fold_appends init_decl init_nodes).
    apply Forall_true. intros v g'. unfold init_decl, init_nodes.
    destruct (vdInitial v); [rewrite render_all_single; apply writeLine_appends|apply appends_nil]. }
  eapply appends_trans; [exact Hinit|]. set (G1 := fold_left _ (VarBlocks prog) G) in *.
  rewrite <- (appends_indent _ _ _ Hinit).
  assert (Hpass : appends G1 match Statements prog, VarBlocks prog with
      | [], [] => writeLine G1 "pass" | _, _ => G1 end
    (render_all (indent G1) match Statements prog, VarBlocks prog with
      | [], [] => [PLine "pass"] | _, _ => [] end)).
  { destruct (Statements prog), (VarBlocks prog); try apply appends_nil.
    rewrite render_all_single. apply writeLine_appends. }
  eapply appends_trans; [exact Hpass|]. rewrite <- (appends_indent _ _ _ Hpass).
  apply (fold_appends (λ g s, stmt s g)). apply Forall_true. intros s. apply stmt_gen.
Qed.

Lemma wf_lines l l2 : Forall (λ p, ∃ t, p = PLine t) l → (∀ af, wf_nodes af l2 = true) →
  ∀ af, wf_nodes af (l ++ l2) = true.
Proof.
  intros Hl H2. induction Hl as [|p l [t ->] _ IH]; intros af; [apply H2|]. cbn. apply IH.
Qed.

Lemma program_wf prog : forallb case_ok (Statements prog) = true → has_body prog = true →
  wf_node false (program_tree prog) = true.
Proof.
  intros Hc Hb. unfold program_tree. rewrite wf_node_block. apply andb_true_intro. split.
  - enough (Hne : program_nodes prog ≠ []) by (by destruct (program_nodes prog)).
    unfold has_body, program_nodes in *. destruct (Statements prog) as [|s ss] eqn:Es.
    + destruct (VarBlocks prog) as [|vb vbs] eqn:Ev; [done|]. rewrite <- Ev in *. clear Ev.
      apply existsb_exists in Hb as (vb' & Hin & Hex). apply existsb_exists in Hex as (v & Hv & Hi).
      unfold has_initial in Hi. destruct (vdInitial v) as [e|] eqn:E; [|done].
      intros [El _]%app_eq_nil.
      assert (Hn : ∀ x, ¬ In x (concat (map (λ vb, concat (map init_nodes (vbVariables vb))) (VarBlocks prog))))
        by (rewrite El; auto).
      apply (Hn (PLine ("set_var(" +:+ quote (vdName v) +:+ ", " +:+ expr e +:+ ")"))).
      apply in_concat. eexists. split; [by apply in_map|].
      apply in_concat. eexists. split; [by apply in_map|]. unfold init_nodes. rewrite E. by left.
    + cbn in Hc. apply andb_prop in Hc as [Hc _]. destruct (stmt_wf s Hc) as [Hne _].
      intros [_ [_ El]%app_eq_nil]%app_eq_nil. cbn in El. by apply app_eq_nil in El as [El _].
  - unfold program_nodes. apply wf_lines.
    + apply Forall_concat, Forall_fmap, Forall_true. intros vb.
      apply Forall_concat, Forall_fmap, Forall_true. intros v. unfold init_nodes. cbn.
      destruct (vdInitial v) as [e|]; constructor; [by eexists|constructor].
    + intros af. destruct (Statements prog) as [|s ss] eqn:Es, (VarBlocks prog);
        cbn [app]; try done; apply wf_concat; try done; apply Forall_true; intros; apply stmt_wf.
Qed.

End Trees.

(** ** Time literals *)

Lemma last_digit_not (d : string) (c : ascii) (u v : string) :
  Forall is_digit (chars d) → chars v = [c] → ¬ is_digit c →
  ∀ w, chars u = chars w ++ [c] → chars w ≠ [] → Forall (λ c, ¬ is_digit c) (chars w) →
  has_suffix (d +:+ v) u = false.
Proof.
  intros Hd Hv Hc w Hu Hw Hnw. destruct (has_suffix (d +:+ v) u) eqn:E; [|done].
  apply has_suffix_spec in E as [a Ha]. apply (f_equal chars) in Ha.
  rewrite !chars_app, Hv, Hu, app_assoc in Ha. apply app_inj_tail in Ha as [Ha _]. exfalso.
  rewrite Ha in Hd. apply Forall_app in Hd as [_ Hd].
  destruct (chars w) as [|x l]; [done|]. apply Forall_cons in Hd as [Hx _].
  by apply Forall_cons in Hnw as [Hnx _].
Qed.

Lemma suffix_single (d : string) (c x : ascii) : c ≠ x →
  has_suffix (d +:+ str [c]) (str [x]) = false.
Proof.
  intros Hc. destruct (has_suffix _ _) eqn:E; [|done].
  apply has_suffix_spec in E as [a Ha]. apply (f_equal chars) in Ha.
  rewrite !chars_app, !chars_str in Ha. apply app_inj_tail in Ha as [_ Ha]. done.
Qed.

(** A suffix whose last byte is not a digit does not end a decimal number. *)
Lemma suffix_digits (d : string) (p : list ascii) (x : ascii) :
  Forall is_digit (chars d) → ¬ is_digit x → has_suffix d (str (p ++ [x])) = false.
Proof.
  intros Hd Hx. destruct (has_suffix _ _) eqn:E; [|done].
  apply has_suffix_spec in E as [a Ha]. apply (f_equal chars) in Ha.
  rewrite chars_app, chars_str, app_assoc in Ha. rewrite Ha in Hd.
  apply Forall_app in Hd as [_ Hd]. by apply Forall_cons in Hd as [Hd _].
Qed.

Section Theorems.
Context `{UnicodeTables}.

(** C35: the generator emits well-formed Starlark blocks: for every program whose CASE
    statements have a clause and whose function has a body, the emitted source is the
    rendering of a tree of blocks in which each header is followed by a non-empty body
    one level deeper, and each [elif] or [else] directly follows its [if] chain. *)
Theorem Transpile_block_structure (source : string) (prog : Program) (rest : list Token) :
  Parse source = POk prog rest → forallb case_ok (Statements prog) = true →
  has_body prog = true →
  Transpile source
  = Ok (render 0 (program_tree prog), concat (map vbVariables (VarBlocks prog)))
  ∧ wf_node false (program_tree prog) = true.
Proof.
  intros Hp Hc Hb. split; [|by apply program_wf].
  unfold Transpile. by rewrite Hp, generate_tree.
Qed.

(** a statement leaves the indentation as it found it, whatever it nests, and only
    appends to the buffer. *)
Theorem stmt_restores_indent (s : Statement) (g : generator) :
  indent (stmt s g) = indent g
  ∧ buf (stmt s g) = buf g +:+ render_all (indent g) (compile s).
Proof. by rewrite (stmt_gen s g). Qed.

(** a CASE without clauses is miscompiled after an IF: its ELSE statements are
    emitted as the [else] branch of that IF, so they run when the IF condition is
    false instead of always. *)
Theorem case_else_captured_by_if (c e : Expression) (th el : list Statement) (g : generator) :
  stmtBlock [IfStmt c th [] []; CaseStmt e [] el] g = stmtBlock [IfStmt c th [] el] g.
Proof. done. Qed.

(** a program that only declares variables without initial values is compiled to a
    function without a body, which Starlark does not accept: [pass] is written only
    when there is no variable block at all. *)
Theorem declarations_only_empty_function (name : string) (vbs : list VarBlock) :
  vbs ≠ [] → name ≠ "" →
  forallb (λ vb, forallb (λ v, negb (has_initial v)) (vbVariables vb)) vbs = true →
  buf (generate (mkProgram name vbs []) (mkGen "" 0)) = "def " +:+ name +:+ "():" +:+ newline.
Proof.
  intros Hne Hname Hinit. rewrite generate_tree. unfold program_tree. cbn [progName].
  rewrite (proj2 (String.eqb_neq _ _) Hname).
  assert (Hn : program_nodes (mkProgram name vbs []) = []).
  { unfold program_nodes. cbn [Statements VarBlocks]. destruct vbs as [|vb0 vbs0]; [done|].
    set (vbs := vb0 :: vbs0) in *. rewrite !app_nil_r. clearbody vbs. clear Hne.
    induction vbs as [|vb vbs IH]; [done|]. cbn in Hinit |- *. apply andb_prop in Hinit as [H1 H2].
    rewrite IH by done. rewrite app_nil_r. clear - H1. induction (vbVariables vb) as [|v vs IHv]; [done|].
    cbn in *. apply andb_prop in H1 as [H1 H2]. rewrite IHv by done. unfold init_nodes, has_initial in *.
    by destruct (vdInitial v). }
  cbn [render]. rewrite Hn. unfold text_line. cbn [map concat_str foldr spaces kw_text].
  change ("" +:+ ?x) with x. rewrite string_app_nil_r.
  by rewrite <- !string_app_assoc.
Qed.

(** time literals: a number of milliseconds, seconds, minutes or hours (or without
    a unit, milliseconds) is converted to milliseconds, wrapping at 64 bits. *)
Theorem parseTimeMs_units (n : Z) : (0 ≤ n < 2 ^ 63)%Z →
  parseTimeMs (itoa n +:+ "ms") = n
  ∧ parseTimeMs (itoa n +:+ "s") = wraps 64 (n * 1000)%Z
  ∧ parseTimeMs (itoa n +:+ "m") = wraps 64 (n * 60000)%Z
  ∧ parseTimeMs (itoa n +:+ "h") = wraps 64 (n * 3600000)%Z
  ∧ parseTimeMs (itoa n) = n.
Proof.
  intros Hn. pose proof (itoa_digits n ltac:(lia)) as Hd.
  pose proof (atoi_digits (itoa n) n Hd ltac:(lia)) as Ha. destruct Hd as (Hd & _ & _).
  assert (Htrim : ∀ u, Forall plain (chars u) → trim_space (itoa n +:+ u) = itoa n +:+ u).
  { intros u Hu. apply trim_space_plain. rewrite chars_app. apply Forall_app. split; [|done].
    eapply Forall_impl; [exact Hd|apply digit_plain]. }
  assert (Hms : ∀ c, c ≠ "s"%char → has_suffix (itoa n +:+ str [c]) "ms" = false).
  { intros c Hc. destruct (has_suffix _ _) eqn:E; [|done].
    apply has_suffix_spec in E as [a E]. apply (f_equal chars) in E.
    rewrite !chars_app, chars_str in E. change (chars "ms") with (["m"%char] ++ ["s"%char]) in E.
    rewrite app_assoc in E. by apply app_inj_tail in E as [_ E]. }
  unfold parseTimeMs, mul64. split_and!.
  - rewrite Htrim by (repeat constructor; done). by rewrite has_suffix_app, trim_suffix_app, Ha.
  - rewrite Htrim by (repeat constructor; done).
    rewrite (last_digit_not _ "s"%char "ms" "s" Hd eq_refl ltac:(done) "m" eq_refl);
      [|done|by repeat constructor].
    by rewrite has_suffix_app, trim_suffix_app, Ha.
  - rewrite Htrim by (repeat constructor; done). rewrite (Hms "m"%char ltac:(done) : has_suffix (itoa n +:+ "m") "ms" = false).
    rewrite (suffix_single (itoa n) "m" "s" ltac:(done) : has_suffix (itoa n +:+ "m") "s" = false).
    by rewrite has_suffix_app, trim_suffix_app, Ha.
  - rewrite Htrim by (repeat constructor; done). rewrite (Hms "h"%char ltac:(done) : has_suffix (itoa n +:+ "h") "ms" = false).
    rewrite (suffix_single (itoa n) "h" "s" ltac:(done) : has_suffix (itoa n +:+ "h") "s" = false).
    rewrite (suffix_single (itoa n) "h" "m" ltac:(done) : has_suffix (itoa n +:+ "h") "m" = false).
    by rewrite has_suffix_app, trim_suffix_app, Ha.
  - pose proof (Htrim "" ltac:(constructor)) as Ht. rewrite string_app_nil_r in Ht. rewrite Ht.
    rewrite (suffix_digits (itoa n) ["m"%char] "s" Hd ltac:(done) : has_suffix (itoa n) "ms" = false).
    rewrite (suffix_digits (itoa n) [] "s" Hd ltac:(done) : has_suffix (itoa n) "s" = false).
    rewrite (suffix_digits (itoa n) [] "m" Hd ltac:(done) : has_suffix (itoa n) "m" = false).
    rewrite (suffix_digits (itoa n) [] "h" Hd ltac:(done) : has_suffix (itoa n) "h" = false).
    by rewrite Ha.
Qed.

(** a compound duration is lost: the lexer accepts T#1h30m as one time literal, but
    it converts to zero milliseconds whatever its parts, because the digits before the
    last unit are not a number and the conversion error is ignored. *)
Theorem parseTimeMs_compound (h m : Z) : (0 ≤ h < 2 ^ 63)%Z → (0 ≤ m)%Z →
  parseTimeMs (itoa h +:+ "h" +:+ itoa m +:+ "m") = 0%Z.
Proof.
  intros Hh Hm. pose proof (itoa_digits h ltac:(lia)) as Hd1.
  pose proof (itoa_digits m ltac:(lia)) as Hd2.
  set (d := itoa h +:+ "h" +:+ itoa m).
  assert (Hs : itoa h +:+ "h" +:+ itoa m +:+ "m" = d +:+ str ["m"%char]).
  { unfold d. by rewrite <- !string_app_assoc. }
  rewrite Hs. clear Hs. unfold parseTimeMs. rewrite trim_space_plain.
  2: { unfold d. rewrite !chars_app. destruct Hd1 as [Hd1 _], Hd2 as [Hd2 _].
       repeat (apply Forall_app; split); try (by repeat constructor);
         (eapply Forall_impl; [eassumption|apply digit_plain]). }
  assert (has_suffix (d +:+ str ["m"%char]) "ms" = false) as ->.
  { destruct (has_suffix _ _) eqn:E; [|done].
    apply has_suffix_spec in E as [a E]. apply (f_equal chars) in E.
    rewrite !chars_app, chars_str in E. change (chars "ms") with (["m"%char] ++ ["s"%char]) in E.
    rewrite app_assoc in E. by apply app_inj_tail in E as [_ E]. }
  rewrite (suffix_single d "m" "s" ltac:(done) : has_suffix (d +:+ str ["m"%char]) "s" = false).
  rewrite (has_suffix_app d "m" : has_suffix (d +:+ str ["m"%char]) "m" = true).
  rewrite (trim_suffix_app d "m" : trim_suffix (d +:+ str ["m"%char]) "m" = d).
  rewrite (atoi_syntax d (chars (itoa h)) h "h" (chars (itoa m)) Hd1 ltac:(lia) ltac:(done)); [done|].
  unfold d. by rewrite !chars_app.
Qed.

End Theorems.

(** ** Witnesses *)

Definition sample_source : string :=
  "VAR n : INT := 0; END_VAR IF n > 3 THEN n := 0; ELSIF NOT f(n) THEN n := n + 1; END_IF "
  +:+ "WHILE n < 9 DO n := n + 2; END_WHILE CASE n OF 1: g(); ELSE RETURN; END_CASE".

Definition sample_parsed : Program :=
  Eval vm_compute in default (mkProgram "" [] [])
    (presult_value (@Parse ascii_tables sample_source)).

Lemma Transpile_block_structure_witness : let _ := ascii_tables in
  Transpile sample_source
  = Ok (render 0 (program_tree sample_parsed), concat (map vbVariables (VarBlocks sample_parsed)))
  ∧ wf_node false (program_tree sample_parsed) = true.
Proof.
  refine (@Transpile_block_structure ascii_tables sample_source sample_parsed _ _ eq_refl eq_refl).
  vm_compute. reflexivity.
Defined.

Lemma declarations_only_empty_function_witness : let _ := ascii_tables in
  buf (generate (mkProgram "main" [mkVarBlock "VAR" [mkVarDecl "x" "INT" None]] []) (mkGen "" 0))
  = "def main():" +:+ newline.
Proof.
  exact (@declarations_only_empty_function ascii_tables "main"
    [mkVarBlock "VAR" [mkVarDecl "x" "INT" None]] ltac:(discriminate) ltac:(discriminate) eq_refl).
Defined.

Lemma parseTimeMs_units_witness :
  parseTimeMs "90s" = 90000%Z ∧ parseTimeMs "250ms" = 250%Z.
Proof.
  split.
  - exact (proj1 (proj2 (parseTimeMs_units 90 ltac:(lia)))).
  - exact (proj1 (parseTimeMs_units 250 ltac:(lia))).
Defined.

Lemma parseTimeMs_compound_witness : parseTimeMs "1h30m" = 0%Z.
Proof. exact (parseTimeMs_compound 1 30 ltac:(lia) ltac:(lia)). Defined.

Example case_else_captured_source : let _ := ascii_tables in
  fst <$> from_outcome (Transpile "IF a THEN b := 1; END_IF CASE n OF ELSE c := 2; END_CASE")
  = fst <$> from_outcome (Transpile "IF a THEN b := 1; ELSE c := 2; END_IF").
Proof. vm_compute. reflexivity. Qed.
