(* ===== verification/ModbusCodec.v ===== *)
(** Modbus value and frame encoding: internal/modbus/decode.go and protocol.go.

    Registers travel as big-endian bytes; [arrangeBytes] reorders them for the four
    byte orders. *)

From S2P Require Export Prelude GoBytes GoText GoFloat GoValue.

#[local] Open Scope Z_scope.

(** ** decode.go *)

(** [registerCount] (the same function is in internal/modbusserver/store.go). *)
Definition registerCount (datatype : string) : nat :=
  if String.eqb datatype "boolean" || String.eqb datatype "int16"
     || String.eqb datatype "uint16" then 1
  else if String.eqb datatype "int32" || String.eqb datatype "uint32"
          || String.eqb datatype "float32" then 2
  else if String.eqb datatype "float64" then 4
  else 1.

(** Swap bytes within each 16-bit word; the last byte of an odd length stays zero. *)
Fixpoint swap_pairs (data : list Z) : list Z :=
  match data with
  | a :: b :: data' => b :: a :: swap_pairs data'
  | [_] => [0]
  | [] => []
  end.

Definition arrangeBytes (data : list Z) (order : string) : list Z :=
  if String.eqb order "BADC" then swap_pairs data
  else if String.eqb order "CDAB" then
    match data with
    | [a; b; c; d] => [c; d; a; b]
    | [a; b; c; d; e; f; g; h] => [g; h; e; f; c; d; a; b]
    | _ => data
    end
  else if String.eqb order "DCBA" then rev data
  else data.

Section Values.
Context `{FloatConv} `{FloatText}.

Definition toBool (v : value) : option bool :=
  match v with
  | VBool b => Some b
  | VFloat64 f => Some (negb (f64_eqb f f64_zero))
  | VFloat32 f => Some (negb (f32_eqb f 0))
  | VInt KInt n | VInt KInt64 n => Some (negb (n =? 0))
  | VJsonNumber s =>
      match parse_float s with
      | Some f => Some (negb (f64_eqb f f64_zero))
      | None => None
      end
  | _ => None
  end.

(** [json.Number.Int64] is [strconv.ParseInt(s, 10, 64)]. *)
Definition toInt64 (v : value) : option Z :=
  match v with
  | VFloat64 f => Some (to_int 64 f)
  | VFloat32 f => Some (to_int 64 (f64_of_f32 f))
  | VInt (KInt | KInt64 | KInt32 | KUint32 | KUint16) n => Some n
  | VJsonNumber s =>
      match atoi s with
      | (i, NumOK) => Some i
      | _ => match parse_float s with Some f => Some (to_int 64 f) | None => None end
      end
  | _ => None
  end.

Definition toFloat64 (v : value) : option float64 :=
  match v with
  | VFloat64 f => Some f
  | VFloat32 f => Some (f64_of_f32 f)
  | VInt (KInt | KInt64 | KInt32 | KUint32 | KUint16) n => Some (f64_of_Z n)
  | VJsonNumber s => parse_float s
  | _ => None
  end.

(** The [switch datatype] of [decodeRegisters] on the arranged bytes. *)
Definition decode_raw (raw : list Z) (datatype : string) : outcome value :=
  if String.eqb datatype "boolean" then
    b0 ← index raw 0; b1 ← index raw 1; Ok (VBool (negb (b0 =? 0) || negb (b1 =? 0)))
  else if String.eqb datatype "int16" then
    n ← get_u16 raw 0; Ok (VInt KInt64 (wraps 16 n))
  else if String.eqb datatype "uint16" then
    n ← get_u16 raw 0; Ok (VInt KInt64 n)
  else if String.eqb datatype "int32" then
    n ← get_u32 raw 0; Ok (VInt KInt64 (wraps 32 n))
  else if String.eqb datatype "uint32" then
    n ← get_u32 raw 0; Ok (VInt KInt64 n)
  else if String.eqb datatype "float32" then
    n ← get_u32 raw 0; Ok (VFloat64 (f64_of_f32 n))
  else if String.eqb datatype "float64" then
    n ← get_u64 raw 0; Ok (VFloat64 n)
  else n ← get_u16 raw 0; Ok (VInt KInt64 n).

Definition decodeRegisters (data : list Z) (datatype byteOrder : string) : outcome value :=
  let needed := (registerCount datatype * 2)%nat in
  if (length data <? needed)%nat then
    Err ("need " +:+ itoa (Z.of_nat needed) +:+ " bytes for " +:+ datatype +:+ ", got "
         +:+ itoa (Z.of_nat (length data)))
  else
    data' ← slice data 0 needed;
    decode_raw (arrangeBytes data' byteOrder) datatype.

Definition decodeBoolFromCoils (data : list Z) (bitOffset : nat) : outcome bool :=
  let byteIdx := (bitOffset / 8)%nat in
  let bitIdx := (bitOffset mod 8)%nat in
  if (length data <=? byteIdx)%nat then Ok false
  else b ← index data byteIdx; Ok (negb (Z.land b (Z.shiftl 1 (Z.of_nat bitIdx)) =? 0)).

Definition cannot_convert {A} (v : value) (datatype : string) : outcome A :=
  Err ("cannot convert " +:+ fmt_v v +:+ " to " +:+ datatype).

(** The register bytes of a value, before the byte order is applied. *)
Definition encode_raw (v : value) (datatype : string) : outcome (list Z) :=
  if String.eqb datatype "boolean" then
    match toBool v with
    | Some b => Ok (if b then put_u16 1 else [0; 0])
    | None => cannot_convert v "boolean"
    end
  else if String.eqb datatype "int16" then
    match toInt64 v with
    | Some n => Ok (put_u16 (wrapu 16 (wraps 16 n)))
    | None => cannot_convert v "int16"
    end
  else if String.eqb datatype "uint16" then
    match toInt64 v with
    | Some n => Ok (put_u16 (wrapu 16 n))
    | None => cannot_convert v "uint16"
    end
  else if String.eqb datatype "int32" then
    match toInt64 v with
    | Some n => Ok (put_u32 (wrapu 32 (wraps 32 n)))
    | None => cannot_convert v "int32"
    end
  else if String.eqb datatype "uint32" then
    match toInt64 v with
    | Some n => Ok (put_u32 (wrapu 32 n))
    | None => cannot_convert v "uint32"
    end
  else if String.eqb datatype "float32" then
    match toFloat64 v with
    | Some f => Ok (put_u32 (f32_of_f64 f))
    | None => cannot_convert v "float32"
    end
  else if String.eqb datatype "float64" then
    match toFloat64 v with
    | Some f => Ok (put_u64 f)
    | None => cannot_convert v "float64"
    end
  else
    match toInt64 v with
    | Some n => Ok (put_u16 (wrapu 16 n))
    | None => cannot_convert v datatype
    end.

Definition encodeValue (v : value) (datatype byteOrder : string) : outcome (list Z * nat) :=
  raw ← encode_raw v datatype;
  Ok (arrangeBytes raw byteOrder, registerCount datatype).

End Values.

(** ** protocol.go *)

Definition mbapHeaderSize : nat := 7.

Record MBAPFrame := mkFrame {
  TransactionID : Z;
  ProtocolID : Z;
  UnitID : Z;
  FunctionCode : Z;
  Data : list Z;
}.

Definition encodeMBAPRequest (txnID unitID : Z) (pdu : list Z) : list Z :=
  put_u16 txnID ++ put_u16 0 ++ put_u16 (wrapu 16 (Z.of_nat (length pdu) + 1))
  ++ [unitID] ++ pdu.

(** The frame and the number of bytes consumed. *)
Definition decodeMBAPResponse (buf : list Z) : outcome (MBAPFrame * nat) :=
  if (length buf <? mbapHeaderSize)%nat then
    Err ("incomplete MBAP header: have " +:+ itoa (Z.of_nat (length buf)) +:+ " bytes")
  else
    txnID ← get_u16 buf 0;
    protoID ← get_u16 buf 2;
    len ← get_u16 buf 4;
    unitID ← index buf 6;
    let totalLen := (6 + Z.to_nat len)%nat in
    if (length buf <? totalLen)%nat then
      Err ("incomplete frame: need " +:+ itoa (Z.of_nat totalLen) +:+ " bytes, have "
           +:+ itoa (Z.of_nat (length buf)))
    else if len <? 2 then Err "invalid MBAP length"
    else
      fc ← index buf 7;
      src ← slice buf 8 totalLen;
      dst ← make_bytes (len - 2);
      Ok (mkFrame txnID protoID unitID fc (copy_into dst src), totalLen).

Definition buildReadPDU (fc startAddr quantity : Z) : list Z :=
  [fc] ++ put_u16 startAddr ++ put_u16 quantity.

Definition buildWriteSingleCoilPDU (addr : Z) (v : bool) : list Z :=
  [5] ++ put_u16 addr ++ (if v then [0xFF; 0] else [0; 0]).

Definition buildWriteSingleRegisterPDU (addr v : Z) : list Z :=
  [6] ++ put_u16 addr ++ put_u16 v.

Definition buildWriteMultipleRegistersPDU (addr : Z) (values : list Z) : list Z :=
  let regCount := Z.of_nat (length values / 2) in
  [16] ++ put_u16 addr ++ put_u16 (wrapu 16 regCount)
  ++ [wrapu 8 (Z.of_nat (length values))] ++ values.

Definition isExceptionResponse (fc : Z) : bool := negb (Z.land fc 0x80 =? 0).

Definition exceptionMessage (code : Z) : string :=
  if code =? 1 then "illegal function"
  else if code =? 2 then "illegal data address"
  else if code =? 3 then "illegal data value"
  else if code =? 4 then "server device failure"
  else if code =? 5 then "acknowledge"
  else if code =? 6 then "server device busy"
  else "unknown exception code " +:+ itoa code.

Definition fcNameToCode (name : string) : Z :=
  if String.eqb name "coil" then 1
  else if String.eqb name "discrete" then 2
  else if String.eqb name "holding" then 3
  else if String.eqb name "input" then 4
  else 3.

Definition fcIsCoilOrDiscrete (fc : Z) : bool := (fc =? 1) || (fc =? 2).

Example mbap_ex : encodeMBAPRequest 1 17 (buildReadPDU 3 107 3)
  = [0; 1; 0; 0; 0; 6; 17; 3; 0; 107; 0; 3].
Proof. reflexivity. Qed.
Example encode_ex : let _ := conv_zero in let _ := no_float_text in
  encodeValue (VInt KInt (-2)) "int32" "CDAB" = Ok ([0xFF; 0xFE; 0xFF; 0xFF], 2%nat).
Proof. vm_compute. reflexivity. Qed.

(** ** Byte orders *)

Lemma swap_pairs_length data : length (swap_pairs data) = length data.
Proof.
  enough (H : length (swap_pairs data) = length data ∧
    ∀ a, length (swap_pairs (a :: data)) = S (length data)) by apply H.
  induction data as [|b data [IH1 IH2]]; [done|]. split; [apply IH2|].
  intros a. cbn. by rewrite IH1.
Qed.

Lemma swap_pairs_involutive data : Nat.even (length data) = true →
  swap_pairs (swap_pairs data) = data.
Proof.
  enough (H : (Nat.even (length data) = true → swap_pairs (swap_pairs data) = data) ∧
    ∀ a, Nat.even (S (length data)) = true → swap_pairs (swap_pairs (a :: data)) = a :: data)
    by apply H.
  induction data as [|b data [IH1 IH2]]; [done|]. split; [apply IH2|].
  intros a Ha. cbn in *. by rewrite IH1.
Qed.

Lemma arrangeBytes_length data order : length (arrangeBytes data order) = length data.
Proof.
  unfold arrangeBytes. repeat case_if; [apply swap_pairs_length| |apply length_rev|done].
  do 9 (destruct data as [|? data]; [done|]). done.
Qed.

Lemma arrangeBytes_self_inverse data order : Nat.even (length data) = true →
  arrangeBytes (arrangeBytes data order) order = data.
Proof.
  intros He. unfold arrangeBytes. repeat case_if; [by apply swap_pairs_involutive| |apply rev_involutive|done].
  do 9 (destruct data as [|? data]; [done|]). done.
Qed.

Lemma registerCount_range dt : (1 ≤ registerCount dt ≤ 4)%nat.
Proof. unfold registerCount. repeat case_if; lia. Qed.

(** ** Properties *)

(** every byte order undoes itself on whole registers, and loses no byte: applying
    the same order twice gives the original data back. *)
Theorem arrangeBytes_involutive (data : list Z) (order : string) :
  Nat.even (length data) = true →
  arrangeBytes (arrangeBytes data order) order = data
  ∧ length (arrangeBytes data order) = length data.
Proof. intros He. split; [by apply arrangeBytes_self_inverse|apply arrangeBytes_length]. Qed.

(** the comment on [arrangeBytes] promises this for any data, but a trailing odd
    byte is overwritten with zero by the order BADC. *)
Theorem arrangeBytes_odd_lossy (data : list Z) (b : Z) : Nat.even (length data) = true →
  arrangeBytes (arrangeBytes (data ++ [b]) "BADC") "BADC" = data ++ [0].
Proof.
  intros He. unfold arrangeBytes. cbn [String.eqb Ascii.eqb Bool.eqb].
  enough (H : (Nat.even (length data) = true → swap_pairs (swap_pairs (data ++ [b])) = data ++ [0]) ∧
    ∀ a, Nat.even (S (length data)) = true →
      swap_pairs (swap_pairs (a :: data ++ [b])) = a :: data ++ [0]) by by apply H.
  clear He. induction data as [|c data [IH1 IH2]]; [done|]. split; [apply IH2|].
  intros a Ha. cbn in *. by rewrite IH1.
Qed.

Section Roundtrip.
Context `{FloatConv} `{FloatText}.

(** The value a register block of type [datatype] holds after [v] was written to it. *)
Definition stored_value (v : value) (datatype : string) : value :=
  let n := default 0 (toInt64 v) in
  let f := default f64_zero (toFloat64 v) in
  if String.eqb datatype "boolean" then VBool (default false (toBool v))
  else if String.eqb datatype "int16" then VInt KInt64 (wraps 16 n)
  else if String.eqb datatype "uint16" then VInt KInt64 (wrapu 16 n)
  else if String.eqb datatype "int32" then VInt KInt64 (wraps 32 n)
  else if String.eqb datatype "uint32" then VInt KInt64 (wrapu 32 n)
  else if String.eqb datatype "float32" then VFloat64 (f64_of_f32 (f32_of_f64 f))
  else if String.eqb datatype "float64" then VFloat64 (wrapu 64 f)
  else VInt KInt64 (wrapu 16 n).

Lemma get_be_bytes n v : get_be n (be_bytes n v) 0 = Ok (v mod 2 ^ (8 * Z.of_nat n)).
Proof.
  pose proof (get_be_app n [] v [] 0 eq_refl) as Hg. by rewrite app_nil_r in Hg.
Qed.

Lemma encode_raw_spec v dt raw : encode_raw v dt = Ok raw →
  length raw = (registerCount dt * 2)%nat ∧ decode_raw raw dt = Ok (stored_value v dt).
Proof.
  unfold encode_raw, registerCount, decode_raw, stored_value.
  assert (H16 : ∀ z, get_u16 (put_u16 (wrapu 16 z)) 0 = Ok (wrapu 16 z)).
  { intros z. rewrite get_be_bytes. f_equal. change (8 * Z.of_nat 2) with 16.
    apply Z.mod_mod. done. }
  assert (H32 : ∀ z, get_u32 (put_u32 (wrapu 32 z)) 0 = Ok (wrapu 32 z)).
  { intros z. rewrite get_be_bytes. f_equal. change (8 * Z.of_nat 4) with 32.
    apply Z.mod_mod. done. }
  destruct (String.eqb dt "boolean"); cbn [orb].
  { destruct (toBool v) as [[]|]; [intros <-%Ok_inj; done..|done]. }
  destruct (String.eqb dt "int16"); cbn [orb].
  { destruct (toInt64 v) as [n|]; [intros <-%Ok_inj|done]. split; [by rewrite length_be_bytes|].
    rewrite H16. cbn. do 2 f_equal. rewrite !wraps_wrapu by lia. apply wraps_small; [|lia]. apply wraps_range. lia. }
  destruct (String.eqb dt "uint16"); cbn [orb].
  { destruct (toInt64 v) as [n|]; [intros <-%Ok_inj|done]. split; [by rewrite length_be_bytes|].
    by rewrite H16. }
  destruct (String.eqb dt "int32"); cbn [orb].
  { destruct (toInt64 v) as [n|]; [intros <-%Ok_inj|done]. split; [by rewrite length_be_bytes|].
    rewrite H32. cbn. do 2 f_equal. rewrite !wraps_wrapu by lia. apply wraps_small; [|lia]. apply wraps_range. lia. }
  destruct (String.eqb dt "uint32"); cbn [orb].
  { destruct (toInt64 v) as [n|]; [intros <-%Ok_inj|done]. split; [by rewrite length_be_bytes|].
    by rewrite H32. }
  destruct (String.eqb dt "float32"); cbn [orb].
  { destruct (toFloat64 v) as [f|]; [intros <-%Ok_inj|done]. split; [by rewrite length_be_bytes|].
    unfold f32_of_f64 at 1. rewrite H32. done. }
  destruct (String.eqb dt "float64"); cbn [orb].
  { destruct (toFloat64 v) as [f|]; [intros <-%Ok_inj|done]. split; [by rewrite length_be_bytes|].
    rewrite get_be_bytes. done. }
  destruct (toInt64 v) as [n|]; [intros <-%Ok_inj|done]. split; [by rewrite length_be_bytes|].
  by rewrite H16.
Qed.

(** C38: writing a value and reading the registers back gives the value as its datatype
    stores it (wrapped to the width of the integer type, rounded to the float type),
    for every datatype and byte order, with the number of registers announced; bytes
    after the value do not matter. *)
Theorem decode_encode (v : value) (datatype byteOrder : string) (bs rest : list Z) (n : nat) :
  encodeValue v datatype byteOrder = Ok (bs, n) →
  length bs = (2 * n)%nat
  ∧ decodeRegisters (bs ++ rest) datatype byteOrder = Ok (stored_value v datatype).
Proof.
  unfold encodeValue. intros Henc. apply bind_Ok in Henc as (raw & Hraw & Hbs).
  apply Ok_inj in Hbs. injection Hbs as <- <-. apply encode_raw_spec in Hraw as [Hlen Hdec].
  rewrite arrangeBytes_length. split; [lia|].
  unfold decodeRegisters. rewrite length_app, arrangeBytes_length.
  rewrite (proj2 (Nat.ltb_ge _ _)) by lia. rewrite slice_ok; [|lia|rewrite length_app, arrangeBytes_length; lia].
  cbn [mbind outcome_bind]. rewrite drop_0, Nat.sub_0_r.
  rewrite take_app_le by (rewrite arrangeBytes_length; lia).
  rewrite take_ge by (rewrite arrangeBytes_length; lia).
  rewrite arrangeBytes_self_inverse; [done|].
  rewrite Hlen, Nat.even_mul. by rewrite orb_true_r.
Qed.

Lemma decode_raw_ok raw datatype : length raw = (registerCount datatype * 2)%nat →
  ∃ v, decode_raw raw datatype = Ok v.
Proof.
  intros Hraw. unfold decode_raw, registerCount in *.
  destruct (String.eqb datatype "boolean"); cbn [orb] in *.
  { destruct raw as [|b0 [|b1 raw]]; [cbn in Hraw; lia|cbn in Hraw; lia|]. cbn. eauto. }
  repeat (destruct (String.eqb datatype _); cbn [orb] in *;
    [rewrite get_be_ok by lia; cbn; eauto|]).
  rewrite get_be_ok by lia. cbn. eauto.
Qed.

(** decoding never panics: short data is an error, and everything else a value. *)
Theorem decodeRegisters_total (data : list Z) (datatype byteOrder : string) :
  is_panic (decodeRegisters data datatype byteOrder) = false
  ∧ is_err (decodeRegisters data datatype byteOrder)
    = (length data <? 2 * registerCount datatype)%nat.
Proof.
  unfold decodeRegisters. rewrite (Nat.mul_comm 2).
  destruct (Nat.ltb_spec (length data) (registerCount datatype * 2)) as [?|Hl]; [done|].
  rewrite slice_ok by lia. cbn [mbind outcome_bind].
  set (raw := arrangeBytes _ _).
  assert (Hraw : length raw = (registerCount datatype * 2)%nat).
  { unfold raw. rewrite arrangeBytes_length, length_take, length_drop. lia. }
  clearbody raw. destruct (decode_raw_ok raw datatype Hraw) as [v ->]. done.
Qed.

End Roundtrip.

(** ** Frames *)

Definition frame_ok (f : MBAPFrame) : Prop :=
  in_u 16 (TransactionID f) ∧ in_u 16 (ProtocolID f) ∧ Z.of_nat (length (Data f)) < 65534.

(** The wire form of a decoded frame. *)
Definition frame_bytes (f : MBAPFrame) : list Z :=
  put_u16 (TransactionID f) ++ put_u16 (ProtocolID f)
  ++ put_u16 (Z.of_nat (length (Data f)) + 2) ++ [UnitID f; FunctionCode f] ++ Data f.

Lemma length_frame_bytes f : length (frame_bytes f) = (8 + length (Data f))%nat.
Proof. unfold frame_bytes. autorewrite with go_len. cbn. lia. Qed.

Lemma encode_frame_bytes txn unit fc data : Z.of_nat (length data) < 65534 →
  encodeMBAPRequest txn unit (fc :: data) = frame_bytes (mkFrame txn 0 unit fc data).
Proof.
  intros Hl. unfold encodeMBAPRequest, frame_bytes. cbn [TransactionID ProtocolID UnitID FunctionCode Data].
  do 3 f_equal. rewrite wrapu_small; [|unfold in_u; cbn [length]; lia]. f_equal. cbn [length]. lia.
Qed.

Lemma decode_frame_bytes f rest : frame_ok f →
  decodeMBAPResponse (frame_bytes f ++ rest) = Ok (f, (8 + length (Data f))%nat).
Proof.
  intros (Ht & Hp & Hd). unfold decodeMBAPResponse.
  pose proof (length_frame_bytes f) as Hlen.
  rewrite length_app, Hlen. rewrite (proj2 (Nat.ltb_ge _ mbapHeaderSize)) by (unfold mbapHeaderSize; lia).
  set (L := Z.of_nat (length (Data f)) + 2).
  assert (Hsplit : ∀ a b, frame_bytes f = a ++ b → frame_bytes f ++ rest = a ++ b ++ rest)
    by (intros a b ->; by rewrite app_assoc).
  assert (H0 : get_u16 (frame_bytes f ++ rest) 0 = Ok (TransactionID f)).
  { unfold frame_bytes. rewrite <- app_assoc.
    etransitivity; [by apply (get_be_app 2 [] (TransactionID f))|]. f_equal. by apply Z.mod_small. }
  assert (H2 : get_u16 (frame_bytes f ++ rest) 2 = Ok (ProtocolID f)).
  { unfold frame_bytes. rewrite <- !app_assoc.
    etransitivity; [by apply (get_be_app 2 (put_u16 (TransactionID f)) (ProtocolID f))|].
    f_equal. by apply Z.mod_small. }
  assert (H4 : get_u16 (frame_bytes f ++ rest) 4 = Ok L).
  { unfold frame_bytes. rewrite <- !app_assoc, (app_assoc (put_u16 _)).
    etransitivity; [by apply (get_be_app 2 (put_u16 (TransactionID f) ++ put_u16 (ProtocolID f)) L)|].
    f_equal. apply Z.mod_small. unfold L. lia. }
  rewrite H0, H2, H4. cbn [mbind outcome_bind].
  set (hdr := put_u16 (TransactionID f) ++ put_u16 (ProtocolID f) ++ put_u16 L).
  assert (H6 : index (frame_bytes f ++ rest) 6 = Ok (UnitID f))
    by (by apply (index_app_length hdr (UnitID f) (FunctionCode f :: Data f ++ rest))).
  assert (H7 : index (frame_bytes f ++ rest) 7 = Ok (FunctionCode f))
    by (by apply (index_app_length (hdr ++ [UnitID f]) (FunctionCode f) (Data f ++ rest))).
  rewrite H6. cbn [mbind outcome_bind].
  replace (6 + Z.to_nat L)%nat with (8 + length (Data f))%nat by (unfold L; lia).
  rewrite (proj2 (Nat.ltb_ge _ _)) by lia. rewrite (proj2 (Z.ltb_ge L 2)) by (unfold L; lia).
  rewrite H7. cbn [mbind outcome_bind].
  assert (Hs : slice (frame_bytes f ++ rest) 8 (8 + length (Data f)) = Ok (Data f)).
  { unfold frame_bytes. rewrite !app_assoc. rewrite <- (app_assoc _ (Data f) rest).
    by apply slice_app. }
  rewrite Hs. cbn [mbind outcome_bind]. unfold make_bytes.
  rewrite (proj2 (Z.leb_le _ _)) by (unfold L; lia). cbn [mbind outcome_bind].
  rewrite copy_into_same by (rewrite length_replicate; unfold L; lia).
  by destruct f.
Qed.

Lemma is_bytes_2 x y : is_byte x → is_byte y → is_bytes [x; y].
Proof. intros Hx Hy. constructor; [done|]. constructor; [done|constructor]. Qed.

(** The two ways [decodeMBAPResponse] can end. *)
Lemma decode_cases buf : is_bytes buf →
  (∃ f n rest, decodeMBAPResponse buf = Ok (f, n) ∧ frame_ok f ∧ n = (8 + length (Data f))%nat
     ∧ buf = frame_bytes f ++ rest)
  ∨ is_err (decodeMBAPResponse buf) = true.
Proof.
  intros Hb. destruct (decodeMBAPResponse buf) as [[f n]|e|] eqn:E; [left|by right|exfalso].
  - unfold decodeMBAPResponse in E. case_if; [done|]. bool_to_prop. unfold mbapHeaderSize in *.
    rewrite !get_be_ok in E by lia. cbn [mbind outcome_bind] in E.
    destruct buf as [|b0 [|b1 [|b2 [|b3 [|b4 [|b5 [|b6 data]]]]]]]; try (cbn in *; lia).
    cbn [index lookup list_lookup take drop] in E. cbn [mbind outcome_bind] in E.
    set (L := be_value [b4; b5]) in *.
    assert (HL : 0 ≤ L < 65536).
    { apply (be_value_range [b4; b5]). do 4 apply Forall_cons in Hb as [_ Hb].
      apply Forall_cons in Hb as [H4 Hb]. apply Forall_cons in Hb as [H5 _].
      by apply is_bytes_2. }
    case_if; [done|]. case_if; [done|]. bool_to_prop.
    destruct data as [|fc data]; [cbn in *; lia|].
    cbn [index lookup list_lookup mbind outcome_bind] in E.
    rewrite slice_ok in E; [|lia|cbn in *; lia]. cbn [mbind outcome_bind drop] in E.
    unfold make_bytes in E. rewrite (proj2 (Z.leb_le _ _)) in E by lia. cbn [mbind outcome_bind] in E.
    apply Ok_inj in E. injection E as <- <-.
    set (d := take (6 + Z.to_nat L - 8) data). cbn [length] in *.
    assert (Hd : length d = Z.to_nat (L - 2)) by (unfold d; rewrite length_take; lia).
    rewrite copy_into_same by (by rewrite length_replicate).
    assert (Hv : ∀ x y, is_byte x → is_byte y → put_u16 (be_value [x; y]) = [x; y]).
    { intros x y Hx Hy. apply (be_bytes_value [x; y]). by apply is_bytes_2. }
    pose proof Hb as Hb'. do 7 (apply Forall_cons in Hb' as [?Hb0 Hb']).
    exists (mkFrame (be_value [b0; b1]) (be_value [b2; b3]) b6 fc d), (6 + Z.to_nat L)%nat,
      (drop (6 + Z.to_nat L - 8) data).
    split_and!; [done| | |].
    + split_and!; [apply (be_value_range [b0; b1]); by apply is_bytes_2
        |apply (be_value_range [b2; b3]); by apply is_bytes_2|cbn [Data]; lia].
    + cbn [Data]. lia.
    + unfold frame_bytes. cbn [TransactionID ProtocolID UnitID FunctionCode Data].
      replace (Z.of_nat (length d) + 2) with L by lia. unfold L.
      rewrite !Hv by done. cbn. do 8 f_equal. unfold d. by rewrite take_drop.
  - unfold decodeMBAPResponse in E. case_if; [done|]. bool_to_prop. unfold mbapHeaderSize in *.
    rewrite !get_be_ok in E by lia. cbn [mbind outcome_bind] in E.
    destruct (index_ok buf 6) as (u & Hu & _); [lia|]. rewrite Hu in E. cbn [mbind outcome_bind] in E.
    case_if; [done|]. case_if; [done|]. bool_to_prop.
    destruct (index_ok buf 7) as (c & Hc & _); [lia|]. rewrite Hc in E. cbn [mbind outcome_bind] in E.
    rewrite slice_ok in E by lia. cbn [mbind outcome_bind] in E.
    unfold make_bytes in E. by rewrite (proj2 (Z.leb_le _ _)) in E by lia.
Qed.

(** a Modbus TCP frame survives the wire: what [encodeMBAPRequest] writes is decoded
    to the same transaction, unit, function and data, consuming exactly its bytes,
    whatever follows. *)
Theorem mbap_roundtrip (txn unit fc : Z) (data rest : list Z) :
  in_u 16 txn → Z.of_nat (length data) < 65534 →
  decodeMBAPResponse (encodeMBAPRequest txn unit (fc :: data) ++ rest)
  = Ok (mkFrame txn 0 unit fc data, length (encodeMBAPRequest txn unit (fc :: data))).
Proof.
  intros Ht Hl. rewrite encode_frame_bytes by done. rewrite length_frame_bytes.
  by apply decode_frame_bytes.
Qed.

(** decoding a response is safe and exact on any received bytes: it never panics,
    and when it accepts a frame the consumed prefix is exactly the wire form of that
    frame. *)
Theorem decodeMBAP_exact (buf : list Z) : is_bytes buf →
  is_panic (decodeMBAPResponse buf) = false
  ∧ ∀ f n, decodeMBAPResponse buf = Ok (f, n) → take n buf = frame_bytes f ∧ (n ≤ length buf)%nat.
Proof.
  intros Hb. destruct (decode_cases buf Hb) as [(f & n & rest & Hd & Hf & Hn & Hbuf)|Herr].
  - rewrite Hd. split; [done|]. intros f' n' [= <- <-].
    rewrite Hn, Hbuf, <- length_frame_bytes. split; [apply take_app_length|].
    rewrite length_app. lia.
  - destruct (decodeMBAPResponse buf); done.
Qed.

(** ** Witnesses *)

Lemma arrangeBytes_involutive_witness :
  arrangeBytes (arrangeBytes [1; 2; 3; 4] "CDAB") "CDAB" = [1; 2; 3; 4].
Proof. exact (proj1 (arrangeBytes_involutive [1; 2; 3; 4] "CDAB" eq_refl)). Defined.

Lemma arrangeBytes_odd_lossy_witness :
  arrangeBytes (arrangeBytes [1; 2; 3] "BADC") "BADC" = [1; 2; 0].
Proof. exact (arrangeBytes_odd_lossy [1; 2] 3 eq_refl). Defined.

Lemma decode_encode_witness : let _ := conv_zero in let _ := no_float_text in
  decodeRegisters [0xFF; 0xFE; 0xFF; 0xFF; 7] "int32" "CDAB" = Ok (VInt KInt64 (-2)).
Proof.
  exact (proj2 (@decode_encode conv_zero no_float_text (VInt KInt (-2)) "int32" "CDAB"
    [0xFF; 0xFE; 0xFF; 0xFF] [7] 2 eq_refl)).
Defined.

Lemma mbap_roundtrip_witness :
  decodeMBAPResponse (encodeMBAPRequest 258 17 [3; 2; 0; 5] ++ [9; 9])
  = Ok (mkFrame 258 0 17 3 [2; 0; 5], 11%nat).
Proof. exact (mbap_roundtrip 258 17 3 [2; 0; 5] [9; 9] ltac:(unfold in_u; lia) ltac:(cbn; lia)). Defined.

Lemma decodeMBAP_exact_witness :
  is_panic (decodeMBAPResponse [0; 1; 0; 0; 0; 0; 17]) = false.
Proof.
  exact (proj1 (decodeMBAP_exact [0; 1; 0; 0; 0; 0; 17]
    ltac:(apply (bool_decide_unpack _); vm_compute; exact I))).
Defined.
