(* ===== verification/ModbusClient.v ===== *)
(** Modbus TCP client: internal/modbus/client.go, types.go, and the read plan of
    scanner.go.

    A connection is the list of chunks its successive reads return, followed by a
    read error, and possibly a write error. Setting the deadlines of a connected
    socket is taken to succeed. *)

From S2P Require Export Prelude GoBytes GoText GoValue ModbusCodec.
From stdpp Require Export gmap.

#[local] Open Scope Z_scope.

(** ** types.go *)

(** The part of [DeviceState] the client works on. *)
Record DeviceState := mkDevice {
  dUnitID : Z;
  ByteOrder : string;
  txnID : Z;
  readBuf : list Z;
}.

(** The scan rate in milliseconds over the rates of the subscribers, in the order of
    the map iteration. *)
Definition effectiveScanRate (rates : list Z) : Z :=
  let min := fold_left (λ min r, if (min =? 0) || (r <? min) then r else min) rates 0 in
  if min <=? 0 then 1000 else min.

(** The backoff in milliseconds; the shift is done in 64-bit [int]. *)
Definition backoffDuration (failures : Z) : Z :=
  if failures <=? 0 then 0
  else
    let ms := wraps 64 (1000 * 2 ^ failures) in
    if 60000 <? ms then 60000 else ms.

Record ModbusTagConfig := mkTag {
  ID : string;
  Address : Z;
  tagFunctionCode : string;
  Datatype : string;
  tagByteOrder : string;
  Writable : bool;
}.

Record TagInBlock := mkTIB { Tag : ModbusTagConfig; Offset : Z }.

Record ReadBlock := mkBlock {
  bFunctionCode : Z;
  StartAddr : Z;
  Count : Z;
  Tags : list TagInBlock;
}.

(** ** client.go *)

Record Conn := mkConn {
  writeError : option string;
  incoming : list (list Z);
  readError : string;
}.

Definition with_buf (d : DeviceState) (buf : list Z) : DeviceState :=
  mkDevice (dUnitID d) (ByteOrder d) (txnID d) buf.

(** [nextTxnID]: a [uint16] that wraps around. *)
Definition nextTxnID (d : DeviceState) : Z * DeviceState :=
  (txnID d, mkDevice (dUnitID d) (ByteOrder d) (wrapu 16 (txnID d + 1)) (readBuf d)).

(** What the loop does when a complete frame was parsed from the buffer. *)
Definition finish (resp : MBAPFrame) : outcome MBAPFrame :=
  if isExceptionResponse (FunctionCode resp) then
    let excCode := match Data resp with c :: _ => c | [] => 0 end in
    Err ("modbus exception FC" +:+ itoa (Z.land (FunctionCode resp) 0x7F) +:+ ": "
         +:+ exceptionMessage excCode)
  else Ok resp.

(** The receive loop of [sendAndReceive]: parse a frame from the buffer, or read
    another chunk; every decoding error falls through to reading. *)
Fixpoint receive (d : DeviceState) (chunks : list (list Z)) (readErr : string)
    : outcome MBAPFrame * DeviceState * list (list Z) :=
  let more :=
    match chunks with
    | [] => (Err ("read: " +:+ readErr), d, [])
    | chunk :: chunks' => receive (with_buf d (readBuf d ++ chunk)) chunks' readErr
    end in
  if (mbapHeaderSize <=? length (readBuf d))%nat then
    match decodeMBAPResponse (readBuf d) with
    | Ok (resp, consumed) =>
        match slice (readBuf d) consumed (length (readBuf d)) with
        | Ok rest => (finish resp, with_buf d rest, chunks)
        | _ => (Panic, d, chunks)
        end
    | Err _ => more
    | Panic => (Panic, d, chunks)
    end
  else more.

(** The frame that was written, the outcome, and what is left. *)
Definition sendAndReceive (d : DeviceState) (pdu : list Z) (c : Conn)
    : list Z * (outcome MBAPFrame * DeviceState * Conn) :=
  let '(txn, d1) := nextTxnID d in
  let frame := encodeMBAPRequest txn (dUnitID d1) pdu in
  match writeError c with
  | Some e => (frame, (Err ("write: " +:+ e), d1, c))
  | None =>
      let '(r, d2, chunks) := receive d1 (incoming c) (readError c) in
      (frame, (r, d2, mkConn None chunks (readError c)))
  end.

(** [readRegisters] and [readCoils] have the same body. *)
Definition payload (resp : MBAPFrame) : outcome (list Z) :=
  match Data resp with
  | [] => Err "empty response data"
  | bc :: _ =>
      let byteCount := Z.to_nat bc in
      if (length (Data resp) <? 1 + byteCount)%nat then
        Err ("truncated response: expected " +:+ itoa bc +:+ " bytes, got "
             +:+ itoa (Z.of_nat (length (Data resp)) - 1))
      else slice (Data resp) 1 (1 + byteCount)
  end.

Definition readRegisters (d : DeviceState) (fc startAddr quantity : Z) (c : Conn)
    : outcome (list Z) * DeviceState * Conn :=
  let '(_, (r, d', c')) := sendAndReceive d (buildReadPDU fc startAddr quantity) c in
  (r ≫= payload, d', c').

Definition wrapErr {A} (prefix : string) (r : outcome A) : outcome unit :=
  match r with Ok _ => Ok tt | Err e => Err (prefix +:+ ": " +:+ e) | Panic => Panic end.

Definition writeSingleCoil (d : DeviceState) (addr : Z) (v : bool) (c : Conn) :=
  let '(_, (r, d', c')) := sendAndReceive d (buildWriteSingleCoilPDU addr v) c in
  (wrapErr ("write single coil addr " +:+ itoa addr) r, d', c').

Definition writeSingleRegister (d : DeviceState) (addr v : Z) (c : Conn) :=
  let '(_, (r, d', c')) := sendAndReceive d (buildWriteSingleRegisterPDU addr v) c in
  (wrapErr ("write single register addr " +:+ itoa addr) r, d', c').

Definition writeMultipleRegisters (d : DeviceState) (addr : Z) (data : list Z) (c : Conn) :=
  let '(_, (r, d', c')) := sendAndReceive d (buildWriteMultipleRegistersPDU addr data) c in
  (wrapErr ("write multiple registers addr " +:+ itoa addr) r, d', c').

Section ReadBlock.
Context `{FloatConv} `{FloatText}.

Definition tag_order (d : DeviceState) (t : ModbusTagConfig) : string :=
  let order := if String.eqb (tagByteOrder t) "" then ByteOrder d else tagByteOrder t in
  if String.eqb order "" then "ABCD" else order.

(** The loops over the tags of a block; a decode error is logged and skipped. A
    negative slice index is out of range. *)
Fixpoint decode_coils (data : list Z) (tags : list TagInBlock) (results : gmap string value)
    : outcome (gmap string value) :=
  match tags with
  | [] => Ok results
  | t :: tags' =>
      v ← decodeBoolFromCoils data (Z.to_nat (Offset t));
      decode_coils data tags' (<[ID (Tag t) := VBool v]> results)
  end.

Fixpoint decode_words (d : DeviceState) (data : list Z) (tags : list TagInBlock)
    (results : gmap string value) : outcome (gmap string value) :=
  match tags with
  | [] => Ok results
  | t :: tags' =>
      rest ← slice data (Z.to_nat (Offset t * 2)) (length data);
      match decodeRegisters rest (Datatype (Tag t)) (tag_order d (Tag t)) with
      | Ok v => decode_words d data tags' (<[ID (Tag t) := v]> results)
      | Err _ => decode_words d data tags' results
      | Panic => Panic
      end
  end.

Definition readBlock (d : DeviceState) (block : ReadBlock) (c : Conn)
    : outcome (gmap string value) * DeviceState * Conn :=
  let '(r, d', c') := readRegisters d (wrapu 8 (bFunctionCode block))
    (wrapu 16 (StartAddr block)) (wrapu 16 (Count block)) c in
  (data ← r;
   if fcIsCoilOrDiscrete (bFunctionCode block) then decode_coils data (Tags block) ∅
   else decode_words d' data (Tags block) ∅, d', c').

End ReadBlock.

(** ** The read plan (scanner.go) *)

Definition maxGap : Z := 10.

Definition regSize (fc : Z) (t : ModbusTagConfig) : Z :=
  if fcIsCoilOrDiscrete fc then 1 else Z.of_nat (registerCount (Datatype t)).

Definition single_block (fc : Z) (t : ModbusTagConfig) : ReadBlock :=
  mkBlock fc (Address t) (regSize fc t) [mkTIB t 0].

(** One iteration of the merging loop: the finished blocks and the current one. *)
Definition merge_step (fc : Z) (st : list ReadBlock * option ReadBlock) (t : ModbusTagConfig)
    : list ReadBlock * option ReadBlock :=
  match st with
  | (blocks, None) => (blocks, Some (single_block fc t))
  | (blocks, Some current) =>
      let endOfCurrent := StartAddr current + Count current in
      let gap := Address t - endOfCurrent in
      if gap <=? maxGap then
        let offset := Address t - StartAddr current in
        let newEnd := Address t + regSize fc t in
        let count := if Count current <? newEnd - StartAddr current
                     then newEnd - StartAddr current else Count current in
        (blocks, Some (mkBlock (bFunctionCode current) (StartAddr current) count
                         (Tags current ++ [mkTIB t offset])))
      else (blocks ++ [current], Some (single_block fc t))
  end.

(** The blocks of one function code, from its entries sorted by address. *)
Definition merge_blocks (fc : Z) (entries : list ModbusTagConfig) : list ReadBlock :=
  let '(blocks, current) := fold_left (merge_step fc) entries ([], None) in
  blocks ++ option_list current.

(** [sort.Slice] by address. Tags of equal address may come in any order; here they
    keep the order of the iteration. *)
Definition addr_le (a b : ModbusTagConfig) : Prop := Address a ≤ Address b.
#[export] Instance addr_le_dec a b : Decision (addr_le a b).
Proof. unfold addr_le. apply _. Defined.

(** [buildReadBlocks] for an iteration order of the tag map: the groups by function
    code, each sorted and merged. *)
Definition buildReadBlocks (tags : list ModbusTagConfig) : list ReadBlock :=
  concat (map (λ fc,
    merge_blocks fc (merge_sort addr_le
      (filter (λ t, fcNameToCode (tagFunctionCode t) = fc) tags)))
    (remove_dups (map (λ t, fcNameToCode (tagFunctionCode t)) tags))).

Definition modbusToNatsDatatype (dt : string) : string :=
  if String.eqb dt "boolean" then "boolean" else "number".

(** ** Receiving *)

Lemma receive_bytes_eq d chunks e :
  receive d chunks e =
  let more :=
    match chunks with
    | [] => (Err ("read: " +:+ e), d, [])
    | chunk :: chunks' => receive (with_buf d (readBuf d ++ chunk)) chunks' e
    end in
  if (mbapHeaderSize <=? length (readBuf d))%nat then
    match decodeMBAPResponse (readBuf d) with
    | Ok (resp, consumed) =>
        match slice (readBuf d) consumed (length (readBuf d)) with
        | Ok rest => (finish resp, with_buf d rest, chunks)
        | _ => (Panic, d, chunks)
        end
    | Err _ => more
    | Panic => (Panic, d, chunks)
    end
  else more.
Proof. by destruct chunks. Qed.

(** Two frames that start the same bytes are the same frame. *)
Lemma frame_bytes_inj f g r s : frame_ok f → frame_ok g →
  frame_bytes f ++ r = frame_bytes g ++ s → f = g ∧ r = s.
Proof.
  intros Hf Hg Heq. pose proof (decode_frame_bytes f r Hf) as H1.
  rewrite Heq, (decode_frame_bytes g s Hg) in H1. apply Ok_inj in H1. injection H1 as ->.
  split; [done|]. by apply app_inv_head in Heq.
Qed.

Lemma slice_rest {A} (a b : list A) : slice (a ++ b) (length a) (length (a ++ b)) = Ok b.
Proof.
  rewrite slice_ok; [|rewrite length_app; lia|lia]. rewrite drop_app_length. f_equal.
  apply take_ge. rewrite length_app. lia.
Qed.

(** A complete frame is received from any chunks. *)
Lemma receive_frame f rest chunks e : frame_ok f → is_bytes (frame_bytes f ++ rest) →
  ∀ d, readBuf d ++ concat chunks = frame_bytes f ++ rest →
  ∃ buf chunks', receive d chunks e = (finish f, with_buf d buf, chunks')
    ∧ buf ++ concat chunks' = rest.
Proof.
  intros Hf Hb. induction chunks as [|chunk chunks IH]; intros d Heq; rewrite receive_bytes_eq; cbn zeta.
  all: assert (Hbuf : is_bytes (readBuf d)) by (rewrite <- Heq in Hb; by apply Forall_app in Hb as [? _]).
  all: assert (Hok : ∀ g n r, decodeMBAPResponse (readBuf d) = Ok (g, n) → frame_ok g →
    readBuf d = frame_bytes g ++ r → g = f ∧ r ++ concat _ = rest)
    by (intros g n r _ Hg Hr; rewrite Hr, <- app_assoc in Heq; by apply frame_bytes_inj).
  - rewrite app_nil_r in Heq. rewrite Heq, decode_frame_bytes by done.
    rewrite (proj2 (Nat.leb_le _ _)) by (rewrite length_app, length_frame_bytes; unfold mbapHeaderSize; lia).
    rewrite <- length_frame_bytes, slice_rest. exists rest, []. by rewrite app_nil_r.
  - assert (Hmore : ∃ buf chunks', receive (with_buf d (readBuf d ++ chunk)) chunks e
        = (finish f, with_buf d buf, chunks') ∧ buf ++ concat chunks' = rest).
    { destruct (IH (with_buf d (readBuf d ++ chunk))) as (buf & cs & Hr & Hc);
        [by cbn; rewrite <- app_assoc|]. exists buf, cs. by rewrite Hr. }
    case_if; [|done].
    destruct (decode_cases (readBuf d) Hbuf) as [(g & n & r & Hd & Hg & Hn & Hr)|Herr].
    + rewrite Hd. destruct (Hok g n r Hd Hg Hr) as [-> Hrest].
      rewrite Hn, Hr, <- length_frame_bytes, slice_rest. exists r, (chunk :: chunks). done.
    + destruct (decodeMBAPResponse (readBuf d)); done.
Qed.

(** stream reassembly: however TCP cuts the bytes into chunks, the client receives
    the frame that was sent, and the bytes after it stay in the buffer for the next
    response. *)
Theorem receive_reassembles (f : MBAPFrame) (d : DeviceState) (chunks : list (list Z))
    (rest : list Z) (readErr : string) :
  frame_ok f → is_bytes (frame_bytes f ++ rest) →
  readBuf d ++ concat chunks = frame_bytes f ++ rest →
  ∃ buf chunks', receive d chunks readErr = (finish f, with_buf d buf, chunks')
    ∧ buf ++ concat chunks' = rest.
Proof. intros. by apply receive_frame. Qed.

Lemma decode_short_length buf txn proto unit rest len : is_bytes buf →
  (len = 0 ∨ len = 1) → in_u 16 txn → in_u 16 proto →
  buf = put_u16 txn ++ put_u16 proto ++ put_u16 len ++ unit :: rest →
  decodeMBAPResponse buf = Err "invalid MBAP length".
Proof.
  intros _ Hlen Ht Hp ->. unfold decodeMBAPResponse, mbapHeaderSize.
  autorewrite with go_len. cbn [length]. rewrite (proj2 (Nat.ltb_ge _ _)) by lia.
  assert (Hg : get_u16 (put_u16 txn ++ put_u16 proto ++ put_u16 len ++ unit :: rest) 4 = Ok len).
  { rewrite app_assoc. etransitivity; [by apply (get_be_app 2 (put_u16 txn ++ put_u16 proto) len)|].
    f_equal. apply Z.mod_small. lia. }
  rewrite !(get_be_ok 2 _ 0), !(get_be_ok 2 _ 2), Hg by (autorewrite with go_len; cbn [length]; lia).
  cbn [mbind outcome_bind].
  assert (Hi : index (put_u16 txn ++ put_u16 proto ++ put_u16 len ++ unit :: rest) 6 = Ok unit)
    by (by apply (index_app_length (put_u16 txn ++ put_u16 proto ++ put_u16 len) unit rest)).
  rewrite Hi. cbn [mbind outcome_bind]. rewrite (proj2 (Nat.ltb_ge _ _)) by lia.
  by rewrite (proj2 (Z.ltb_lt _ _)) by lia.
Qed.

(** a response header with a length field below two is never consumed: the error
    does not leave the receive loop, which reads on until the connection fails, so
    nothing received after it, however valid, is ever delivered. *)
Theorem invalid_length_wedges (txn proto len unit : Z) (rest : list Z) (d : DeviceState)
    (chunks : list (list Z)) (readErr : string) :
  in_u 16 txn → in_u 16 proto → len = 0 ∨ len = 1 →
  readBuf d = put_u16 txn ++ put_u16 proto ++ put_u16 len ++ unit :: rest →
  is_bytes (readBuf d) → Forall is_bytes chunks →
  receive d chunks readErr
  = (Err ("read: " +:+ readErr), with_buf d (readBuf d ++ concat chunks), []).
Proof.
  intros Ht Hp Hlen Hbuf Hb Hchunks. revert rest d Hbuf Hb.
  induction Hchunks as [|chunk chunks Hc _ IH]; intros rest d Hbuf Hb; rewrite receive_bytes_eq; cbn zeta.
  all: rewrite (decode_short_length _ txn proto unit rest len) by done.
  all: destruct (mbapHeaderSize <=? length (readBuf d))%nat.
  1, 2: cbn; rewrite app_nil_r; by destruct d.
  all: rewrite (IH (rest ++ chunk)); cbn [readBuf with_buf];
    [by rewrite <- app_assoc|rewrite Hbuf, <- !app_assoc; done|by apply Forall_app].
Qed.

(** ** Backoff *)

(** the exponential backoff doubles from two seconds to the cap of one minute, but
    the shift overflows: from the 54th consecutive failure on (except the 59th) the
    delay is not positive, so the client reconnects in a busy loop. *)
Theorem backoff_overflow (failures : Z) :
  (1 ≤ failures ≤ 5 → backoffDuration failures = 1000 * 2 ^ failures)
  ∧ (6 ≤ failures ≤ 53 → backoffDuration failures = 60000)
  ∧ (54 ≤ failures → failures ≠ 59 → backoffDuration failures ≤ 0).
Proof.
  split_and!; intros Hf.
  - assert (failures = 1 ∨ failures = 2 ∨ failures = 3 ∨ failures = 4 ∨ failures = 5) as Hc by lia.
    destruct Hc as [->|[->|[->|[->| ->]]]]; done.
  - unfold backoffDuration. rewrite (proj2 (Z.leb_gt _ _)) by lia.
    assert (Hlo : 2 ^ 6 ≤ 2 ^ failures) by (apply Z.pow_le_mono_r; lia).
    assert (Hhi : 2 ^ failures ≤ 2 ^ 53) by (apply Z.pow_le_mono_r; lia).
    rewrite wraps_small; [|unfold in_s; lia|lia].
    by rewrite (proj2 (Z.ltb_lt _ _)) by lia.
  - intros Hne. destruct (decide (failures ≤ 60)) as [Hle|Hgt].
    + assert (failures = 54 ∨ failures = 55 ∨ failures = 56 ∨ failures = 57 ∨ failures = 58
        ∨ failures = 60) as Hc by lia.
      destruct Hc as [->|[->|[->|[->|[->| ->]]]]]; vm_compute; done.
    + unfold backoffDuration. rewrite (proj2 (Z.leb_gt _ _)) by lia.
      replace (1000 * 2 ^ failures) with (125 * 2 ^ (failures - 61) * 2 ^ 64).
      * unfold wraps. rewrite Z.add_comm, Z.mod_add by lia. done.
      * replace failures with ((failures - 61) + 61) at 2 by lia. rewrite Z.pow_add_r by lia. lia.
Qed.

(** ** The read plan *)

Lemma regSize_pos fc t : 1 ≤ regSize fc t.
Proof.
  unfold regSize. pose proof (registerCount_range (Datatype t)). case_if; lia.
Qed.

(** A block reads what its tags need: each tag sits at its offset, inside the block. *)
Definition block_ok (fc : Z) (b : ReadBlock) : Prop :=
  bFunctionCode b = fc ∧
  Forall (λ x, StartAddr b + Offset x = Address (Tag x) ∧ 0 ≤ Offset x
               ∧ Offset x + regSize fc (Tag x) ≤ Count b) (Tags b).

(** The next block starts more than [maxGap] registers after the end of this one. *)
Definition apart (a b : ReadBlock) : Prop := StartAddr a + Count a + maxGap < StartAddr b.

(** What holds after some entries were merged: the last address is [top]. *)
Definition plan_inv (fc : Z) (entries : list ModbusTagConfig) (top : Z)
    (st : list ReadBlock * option ReadBlock) : Prop :=
  let all := st.1 ++ option_list st.2 in
  concat (map (λ b, map Tag (Tags b)) all) = entries
  ∧ Forall (block_ok fc) all
  ∧ (∀ i a b, all !! i = Some a → all !! S i = Some b → apart a b)
  ∧ match st.2 with Some cur => StartAddr cur ≤ top ∧ st.1 ++ [cur] ≠ [] | None => st.1 = [] end.

Lemma single_ok fc t : block_ok fc (single_block fc t).
Proof.
  split; [done|]. cbn. constructor; [cbn; lia|constructor].
Qed.

(** Replacing or appending the last block keeps the others apart. *)
Lemma apart_last (l : list ReadBlock) a b :
  (∀ i x y, (l ++ [a]) !! i = Some x → (l ++ [a]) !! S i = Some y → apart x y) →
  StartAddr b = StartAddr a →
  ∀ i x y, (l ++ [b]) !! i = Some x → (l ++ [b]) !! S i = Some y → apart x y.
Proof.
  intros H Hab i x y Hx Hy.
  assert (Hi : (i < length l)%nat).
  { apply lookup_lt_Some in Hy. rewrite length_app in Hy. cbn in Hy. lia. }
  rewrite lookup_app_l in Hx by done. destruct (decide (S i < length l)%nat) as [Hlt|Hge].
  - rewrite lookup_app_l in Hy by done. apply (H i); by rewrite lookup_app_l.
  - assert (S i = length l) as Hl by lia.
    rewrite Hl, list_lookup_middle in Hy by done. injection Hy as <-.
    unfold apart in *. rewrite Hab. apply (H i x a); [by rewrite lookup_app_l|].
    by rewrite Hl, list_lookup_middle.
Qed.

Lemma apart_snoc (l : list ReadBlock) a b :
  (∀ i x y, (l ++ [a]) !! i = Some x → (l ++ [a]) !! S i = Some y → apart x y) →
  apart a b →
  ∀ i x y, ((l ++ [a]) ++ [b]) !! i = Some x → ((l ++ [a]) ++ [b]) !! S i = Some y → apart x y.
Proof.
  intros H Hab i x y Hx Hy. destruct (decide (S i < length (l ++ [a]))%nat) as [Hlt|Hge].
  - rewrite lookup_app_l in Hx, Hy by lia. by apply (H i).
  - assert (S i = length (l ++ [a])) as Hl.
    { apply lookup_lt_Some in Hy. rewrite length_app in Hy. cbn in Hy. lia. }
    rewrite Hl, list_lookup_middle in Hy by done. injection Hy as <-.
    rewrite lookup_app_l in Hx by lia. rewrite length_app in Hl. cbn in Hl.
    assert (i = length l) as -> by lia. rewrite list_lookup_middle in Hx by done.
    by injection Hx as <-.
Qed.

Lemma merge_step_inv fc entries top st t :
  plan_inv fc entries top st → top ≤ Address t →
  plan_inv fc (entries ++ [t]) (Address t) (merge_step fc st t).
Proof.
  intros (Htags & Hok & Hap & Hst) Htop. destruct st as [blocks [cur|]]; cbn [fst snd option_list] in *.
  - cbn [merge_step]. pose proof (regSize_pos fc t).
    apply Forall_app in Hok as [Hokb Hokc]. apply Forall_cons in Hokc as [[Hfc Hcur] _].
    rewrite map_app, concat_app in Htags. cbn in Htags. rewrite app_nil_r in Htags.
    case_if; bool_to_prop; unfold plan_inv; cbn [fst snd option_list].
    + set (cnt := if Count cur <? _ then _ else _).
      assert (Hcnt : Count cur ≤ cnt ∧ Address t + regSize fc t - StartAddr cur ≤ cnt).
      { unfold cnt. case_if; bool_to_prop; lia. }
      split_and!.
      * rewrite map_app, concat_app. cbn. rewrite app_nil_r, map_app, app_assoc, Htags. done.
      * apply Forall_app. split; [done|]. constructor; [|constructor]. split; [done|]. cbn.
        apply Forall_app. split.
        -- eapply Forall_impl; [exact Hcur|]. cbn. lia.
        -- constructor; [cbn; lia|constructor].
      * eapply apart_last; [exact Hap|done].
      * cbn. lia.
      * by destruct blocks.
    + split_and!.
      * rewrite map_app, concat_app, map_app, concat_app. cbn. rewrite app_nil_r. by rewrite Htags.
      * apply Forall_app. split; [|constructor; [apply single_ok|constructor]].
        apply Forall_app. split; [done|]. by constructor.
      * apply apart_snoc; [done|]. unfold apart. cbn. unfold maxGap in *. lia.
      * cbn. lia.
      * by destruct (blocks ++ [cur]).
  - subst blocks. cbn in *. subst entries. unfold plan_inv. cbn. split_and!; [done| | |cbn; lia|done].
    + constructor; [apply single_ok|constructor].
    + intros i a b Ha Hb. destruct i; done.
Qed.

Lemma fold_inv fc entries : ∀ done_ top st,
  plan_inv fc done_ top st → StronglySorted addr_le entries →
  Forall (λ t, top ≤ Address t) entries →
  ∃ top', plan_inv fc (done_ ++ entries) top' (fold_left (merge_step fc) entries st).
Proof.
  induction entries as [|t entries IH]; intros done_ top st Hinv Hs Htop.
  - exists top. by rewrite app_nil_r.
  - inversion Hs as [|? ? Hs' Ht]; subst. apply Forall_cons in Htop as [Ht1 Htop].
    destruct (IH (done_ ++ [t]) (Address t) (merge_step fc st t)) as [top' H'].
    + by apply (merge_step_inv fc done_ top).
    + done.
    + eapply Forall_impl; [exact Ht|]. done.
    + exists top'. by rewrite <- app_assoc in H'.
Qed.

Lemma merge_blocks_ok fc entries : StronglySorted addr_le entries →
  concat (map (λ b, map Tag (Tags b)) (merge_blocks fc entries)) = entries
  ∧ Forall (block_ok fc) (merge_blocks fc entries)
  ∧ (∀ i a b, merge_blocks fc entries !! i = Some a → merge_blocks fc entries !! S i = Some b →
       apart a b).
Proof.
  intros Hs. unfold merge_blocks.
  set (top := match entries with t :: _ => Address t | [] => 0 end).
  destruct (fold_inv fc entries [] top ([], None)) as [top' Hinv]; [|done| |].
  - unfold plan_inv. cbn. split_and!; [done|constructor|done|done].
  - unfold top. destruct Hs as [|t l Hs Ht]; [constructor|]. constructor; [lia|]. exact Ht.
  - destruct (fold_left (merge_step fc) entries ([], None)) as [blocks cur].
    destruct Hinv as (H1 & H2 & H3 & _). done.
Qed.

(** the read plan of one function code covers its tags: for entries sorted by
    address, every tag appears exactly once and in order, at its offset and inside its
    block, and consecutive blocks are more than [maxGap] registers apart. *)
Theorem merge_blocks_correct (fc : Z) (entries : list ModbusTagConfig) :
  StronglySorted addr_le entries →
  concat (map (λ b, map Tag (Tags b)) (merge_blocks fc entries)) = entries
  ∧ Forall (block_ok fc) (merge_blocks fc entries)
  ∧ (∀ i a b, merge_blocks fc entries !! i = Some a → merge_blocks fc entries !! S i = Some b →
       StartAddr a + Count a + maxGap < StartAddr b).
Proof. apply merge_blocks_ok. Qed.

Lemma filter_mem_cons {A} (f : A → Z) c cs (l : list A) : c ∉ cs →
  filter (λ t, f t = c) l ++ filter (λ t, f t ∈ cs) l ≡ₚ filter (λ t, f t ∈ c :: cs) l.
Proof.
  intros Hc. induction l as [|t l IH]; [done|]. rewrite !filter_cons.
  destruct (decide (f t = c)) as [Heq|Hne].
  - rewrite (decide_False (P := f t ∈ cs)) by (by rewrite Heq).
    rewrite (decide_True (P := f t ∈ c :: cs)) by (rewrite Heq; left). cbn. by rewrite IH.
  - destruct (decide (f t ∈ cs)) as [Hin|Hin].
    + rewrite (decide_True (P := f t ∈ c :: cs)) by (by right).
      rewrite <- Permutation_middle. by rewrite IH.
    + rewrite (decide_False (P := f t ∈ c :: cs)); [done|]. intros Hin'. set_solver.
Qed.

Lemma concat_groups {A} (f : A → Z) cs (l : list A) : NoDup cs →
  concat (map (λ c, filter (λ t, f t = c) l) cs) ≡ₚ filter (λ t, f t ∈ cs) l.
Proof.
  induction 1 as [|c cs Hc _ IH]; cbn.
  - induction l as [|t l IH]; [done|]. rewrite filter_cons_False; [done|]. apply not_elem_of_nil.
  - rewrite IH. by apply filter_mem_cons.
Qed.

Lemma concat_map_pointwise {A B} (f g : A → list B) l :
  (∀ x, f x ≡ₚ g x) → concat (map f l) ≡ₚ concat (map g l).
Proof. intros H. induction l as [|x l IH]; cbn; [done|]. by rewrite H, IH. Qed.

Lemma concat_map_concat {A B C} (f : B → list C) (g : A → list B) l :
  concat (map f (concat (map g l))) = concat (map (λ x, concat (map f (g x))) l).
Proof. induction l as [|x l IH]; [done|]. cbn. by rewrite map_app, concat_app, IH. Qed.

Lemma filter_true {A} (P : A → Prop) `{∀ x, Decision (P x)} (l : list A) :
  (∀ x, x ∈ l → P x) → filter P l = l.
Proof.
  induction l as [|x l IH]; intros HP; [done|]. rewrite filter_cons_True by (apply HP; left).
  f_equal. apply IH. intros y Hy. apply HP. by right.
Qed.

Lemma addr_le_total : Total addr_le.
Proof. intros a b. unfold addr_le. lia. Qed.
Lemma addr_le_trans : Transitive addr_le.
Proof. intros a b c. unfold addr_le. lia. Qed.

(** the read plan of a device covers all its tags, whatever the order in which the
    tag map is iterated: every tag is read exactly once, by a block of its own
    function code that contains its registers. *)
Theorem buildReadBlocks_covers (tags : list ModbusTagConfig) :
  concat (map (λ b, map Tag (Tags b)) (buildReadBlocks tags)) ≡ₚ tags
  ∧ Forall (λ b, block_ok (bFunctionCode b) b
                 ∧ Forall (λ x, fcNameToCode (tagFunctionCode (Tag x)) = bFunctionCode b) (Tags b))
      (buildReadBlocks tags).
Proof.
  set (codes := remove_dups (map (λ t, fcNameToCode (tagFunctionCode t)) tags)).
  set (group := λ fc, merge_sort addr_le (filter (λ t, fcNameToCode (tagFunctionCode t) = fc) tags)).
  assert (Hm : ∀ fc, concat (map (λ b, map Tag (Tags b)) (merge_blocks fc (group fc))) = group fc
    ∧ Forall (block_ok fc) (merge_blocks fc (group fc))).
  { intros fc. destruct (merge_blocks_ok fc (group fc)) as (H1 & H2 & _); [|done].
    apply StronglySorted_merge_sort; [apply addr_le_trans|apply addr_le_total]. }
  change (buildReadBlocks tags) with (concat (map (λ fc, merge_blocks fc (group fc)) codes)). split.
  - rewrite (concat_map_concat (λ b, map Tag (Tags b))).
    rewrite (map_ext _ group) by (intros fc; apply Hm).
    rewrite (concat_map_pointwise group (λ fc, filter (λ t, fcNameToCode (tagFunctionCode t) = fc) tags))
      by (intros fc; apply merge_sort_Permutation).
    rewrite concat_groups by apply NoDup_remove_dups.
    rewrite filter_true; [done|]. intros t Ht. unfold codes. rewrite elem_of_remove_dups.
    apply list_elem_of_In, (in_map (λ t, fcNameToCode (tagFunctionCode t))), list_elem_of_In, Ht.
  - apply Forall_concat, Forall_fmap, Forall_true. intros fc. cbn.
    destruct (Hm fc) as [Hc Hok]. rewrite Forall_forall in Hok |- *. intros b Hb.
    pose proof (Hok b Hb) as [Hfc Hall]. rewrite Hfc. split; [by split|].
    apply Forall_forall. intros x Hx.
    assert (Hin : Tag x ∈ group fc).
    { rewrite <- Hc. apply list_elem_of_In, in_concat. eexists. split.
      - apply (in_map (λ b, map Tag (Tags b))), list_elem_of_In, Hb.
      - apply (in_map Tag), list_elem_of_In, Hx. }
    unfold group in Hin. rewrite merge_sort_Permutation in Hin.
    by apply list_elem_of_filter in Hin as [Hin _].
Qed.

(** ** Reading a block *)

Section ReadBlockFacts.
Context `{FloatConv} `{FloatText}.

(** The tag starts beyond the received registers. *)
Definition beyond (data : list Z) (t : TagInBlock) : bool :=
  Z.of_nat (length data) <? 2 * Offset t.

Lemma decodeRegisters_no_panic data dt order : is_panic (decodeRegisters data dt order) = false.
Proof.
  unfold decodeRegisters. destruct (Nat.ltb_spec (length data) (registerCount dt * 2)) as [?|Hl]; [done|].
  rewrite slice_ok by lia. cbn [mbind outcome_bind].
  set (raw := arrangeBytes _ _).
  assert (Hraw : length raw = (registerCount dt * 2)%nat).
  { unfold raw. rewrite arrangeBytes_length, length_take, length_drop. lia. }
  clearbody raw. destruct (decode_raw_ok raw dt Hraw) as [v ->]. done.
Qed.

Lemma decode_words_panics d data tags : ∀ results, Forall (λ x, 0 ≤ Offset x) tags →
  is_panic (decode_words d data tags results) = existsb (beyond data) tags.
Proof.
  induction tags as [|t tags IH]; intros results Ht; [done|].
  apply Forall_cons in Ht as [Ho Ht]. cbn [decode_words existsb]. unfold beyond at 1.
  destruct (Z.ltb_spec (Z.of_nat (length data)) (2 * Offset t)) as [Hlt|Hge].
  - unfold slice. rewrite decide_False by lia. done.
  - rewrite slice_ok by lia. cbn [mbind outcome_bind]. set (rest := take _ _).
    pose proof (decodeRegisters_no_panic rest (Datatype (Tag t)) (tag_order d (Tag t))) as Hnp.
    destruct (decodeRegisters rest _ _); [by apply IH..|done].
Qed.

(** A response that carries [data] as its register bytes. *)
Definition data_response (f : MBAPFrame) (data : list Z) : Prop :=
  frame_ok f ∧ is_bytes (frame_bytes f) ∧ isExceptionResponse (FunctionCode f) = false
  ∧ Data f = Z.of_nat (length data) :: data.

(** a short response crashes the reader: when the device answers a register read
    with fewer bytes than requested, [readBlock] panics exactly when some tag of the
    block starts beyond the bytes received; the byte count of the response is never
    compared with the quantity requested. *)
Theorem readBlock_short_response (d : DeviceState) (block : ReadBlock) (f : MBAPFrame)
    (data : list Z) (readErr : string) :
  readBuf d = [] → data_response f data →
  fcIsCoilOrDiscrete (bFunctionCode block) = false → Forall (λ x, 0 ≤ Offset x) (Tags block) →
  is_panic (readBlock d block (mkConn None [frame_bytes f] readErr)).1.1
  = existsb (beyond data) (Tags block).
Proof.
  intros Hbuf (Hf & Hb & Hex & Hdata) Hfc Hoff.
  unfold readBlock, readRegisters, sendAndReceive. cbn [nextTxnID writeError incoming readError].
  set (d1 := mkDevice _ _ _ _).
  destruct (receive_frame f [] [frame_bytes f] readErr Hf ltac:(by rewrite app_nil_r) d1)
    as (buf & chunks' & -> & _); [cbn; by rewrite Hbuf, !app_nil_r|].
  unfold finish. rewrite Hex. cbn [fst mbind outcome_bind].
  unfold payload. rewrite Hdata, Nat2Z.id. cbn [length].
  rewrite (proj2 (Nat.ltb_ge _ _)) by lia.
  rewrite slice_ok by (cbn [length]; lia). cbn [mbind outcome_bind drop].
  replace (1 + length data - 1)%nat with (length data) by lia. rewrite firstn_all, Hfc.
  by apply decode_words_panics.
Qed.

End ReadBlockFacts.

(** ** Witnesses *)

Definition sample_device : DeviceState := mkDevice 1 "ABCD" 0 [].
Definition sample_frame : MBAPFrame := mkFrame 0 0 1 3 [2; 0; 7].

Lemma sample_frame_ok : frame_ok sample_frame.
Proof. unfold frame_ok, in_u. cbn. lia. Qed.

Lemma receive_reassembles_witness :
  ∃ buf chunks', receive sample_device [[0; 0; 0]; [0; 0; 5; 1; 3; 2]; [0; 7; 9]] "EOF"
    = (Ok sample_frame, with_buf sample_device buf, chunks') ∧ buf ++ concat chunks' = [9].
Proof.
  exact (receive_reassembles sample_frame sample_device [[0; 0; 0]; [0; 0; 5; 1; 3; 2]; [0; 7; 9]]
    [9] "EOF" sample_frame_ok ltac:(apply (bool_decide_unpack _); vm_compute; exact I) eq_refl).
Defined.

Lemma invalid_length_wedges_witness :
  let d := with_buf sample_device [0; 0; 0; 0; 0; 1; 1] in
  receive d [frame_bytes sample_frame] "timeout"
  = (Err "read: timeout", with_buf d ([0; 0; 0; 0; 0; 1; 1] ++ frame_bytes sample_frame), []).
Proof.
  exact (invalid_length_wedges 0 0 1 1 [] (with_buf sample_device [0; 0; 0; 0; 0; 1; 1])
    [frame_bytes sample_frame] "timeout" ltac:(unfold in_u; lia) ltac:(unfold in_u; lia)
    (or_intror eq_refl) eq_refl ltac:(apply (bool_decide_unpack _); vm_compute; exact I)
    ltac:(apply (bool_decide_unpack _); vm_compute; exact I)).
Defined.

Definition sample_tag (name fc dt : string) (addr : Z) : ModbusTagConfig :=
  mkTag name addr fc dt "" false.

Lemma merge_blocks_correct_witness :
  concat (map (λ b, map Tag (Tags b)) (merge_blocks 3
    [sample_tag "a" "holding" "float32" 0; sample_tag "b" "holding" "int16" 12;
     sample_tag "c" "holding" "int16" 40]))
  = [sample_tag "a" "holding" "float32" 0; sample_tag "b" "holding" "int16" 12;
     sample_tag "c" "holding" "int16" 40].
Proof.
  exact (proj1 (merge_blocks_correct 3
    [sample_tag "a" "holding" "float32" 0; sample_tag "b" "holding" "int16" 12;
     sample_tag "c" "holding" "int16" 40] ltac:(repeat constructor; unfold addr_le; cbn; lia))).
Defined.

Lemma readBlock_short_response_witness :
  is_panic (readBlock sample_device
    (mkBlock 3 0 11 [mkTIB (sample_tag "a" "holding" "int16" 0) 0;
                     mkTIB (sample_tag "b" "holding" "int16" 10) 10])
    (mkConn None [frame_bytes sample_frame] "EOF")).1.1 = true.
Proof.
  refine (readBlock_short_response sample_device
    (mkBlock 3 0 11 [mkTIB (sample_tag "a" "holding" "int16" 0) 0;
                     mkTIB (sample_tag "b" "holding" "int16" 10) 10])
    sample_frame [0; 7] "EOF" eq_refl _ eq_refl _).
  - split; [apply sample_frame_ok|]. split; [apply (bool_decide_unpack _); vm_compute; exact I|].
    split; reflexivity.
  - repeat constructor; cbn; lia.
Defined.
