(* ===== verification/ModbusStore.v ===== *)
(** The register store of the Modbus TCP server: internal/modbusserver/store.go.

    A Go map with default reads is a [gmap] read with [lookup_total]-style defaults
    ([word_at], [bit_at]). *)

From S2P Require Export Prelude GoBytes GoText GoFloat GoValue ModbusCodec ModbusClient.
From stdpp Require Export gmap.

#[local] Open Scope Z_scope.

Record RegisterStore := mkStore {
  coils : gmap Z bool;
  discretes : gmap Z bool;
  holding : gmap Z Z;
  input : gmap Z Z;
  tagsByVariable : gmap string ModbusTagConfig;
  tagsByAddress : gmap string ModbusTagConfig;
}.

Definition NewRegisterStore : RegisterStore := mkStore ∅ ∅ ∅ ∅ ∅ ∅.

Definition bit_at (m : gmap Z bool) (a : Z) : bool := default false (m !! a).
Definition word_at (m : gmap Z Z) (a : Z) : Z := default 0 (m !! a).

Definition set_coils (s : RegisterStore) (m : gmap Z bool) : RegisterStore :=
  mkStore m (discretes s) (holding s) (input s) (tagsByVariable s) (tagsByAddress s).
Definition set_discretes (s : RegisterStore) (m : gmap Z bool) : RegisterStore :=
  mkStore (coils s) m (holding s) (input s) (tagsByVariable s) (tagsByAddress s).
Definition set_holding (s : RegisterStore) (m : gmap Z Z) : RegisterStore :=
  mkStore (coils s) (discretes s) m (input s) (tagsByVariable s) (tagsByAddress s).
Definition set_input (s : RegisterStore) (m : gmap Z Z) : RegisterStore :=
  mkStore (coils s) (discretes s) (holding s) m (tagsByVariable s) (tagsByAddress s).

(** ** Keys *)

(** The digit loop of [intToString] over a buffer filled from its end. *)
Fixpoint digits_loop (fuel : nat) (n : Z) (buf : list ascii) : list ascii :=
  match fuel with
  | O => buf
  | S f => if 0 <? n then digits_loop f (n / 10) (char_of (48 + n mod 10) :: buf) else buf
  end.

(** The buffer of 20 bytes holds every 64-bit number. *)
Definition intToString (n : Z) : string :=
  if n =? 0 then "0"
  else
    let '(neg, n) := if n <? 0 then (true, wraps 64 (- n)) else (false, n) in
    let buf := digits_loop 20 n [] in
    str (if neg then "-"%char :: buf else buf).

Definition fcAddressKey (fc : string) (address : Z) : string :=
  fc +:+ ":" +:+ intToString address.

(** ** Word order *)

Definition word_bytes (w : Z) : list Z := [wrapu 8 (Z.shiftr w 8); wrapu 8 (Z.land w 0xff)].

Fixpoint words_of (bs : list Z) : list Z :=
  match bs with
  | a :: b :: bs' => Z.lor (Z.shiftl a 8) b :: words_of bs'
  | _ => []
  end.

(** Swap the 16-bit halves of each 4-byte group; a remainder is copied. *)
Fixpoint swap_quads (raw : list Z) : list Z :=
  match raw with
  | a :: b :: c :: d :: raw' => c :: d :: a :: b :: swap_quads raw'
  | _ => raw
  end.

Definition arrangeWords (words : list Z) (byteOrder : string) : list Z :=
  if String.eqb byteOrder "ABCD" then words
  else
    let raw := concat (map word_bytes words) in
    if String.eqb byteOrder "DCBA" then words_of (rev raw)
    else if String.eqb byteOrder "BADC" then words_of (swap_pairs raw)
    else if String.eqb byteOrder "CDAB" then words_of (swap_quads raw)
    else words.

(** ** Conversions *)

Module Conv.
Definition toBool (v : value) : bool :=
  match v with
  | VBool b => b
  | VFloat64 f => negb (f64_eqb f f64_zero)
  | VFloat32 f => negb (f32_eqb f 0)
  | VInt (KInt | KInt64 | KInt32 | KUint64) n => negb (n =? 0)
  | _ => false
  end.

Definition toFloat64 (v : value) : float64 :=
  match v with
  | VFloat64 f => f
  | VFloat32 f => f64_of_f32 f
  | VInt KUint _ => f64_zero
  | VInt _ n => f64_of_Z n
  | VBool b => if b then f64_of_Z 1 else f64_zero
  | _ => f64_zero
  end.
End Conv.

Section Store.
Context `{FloatConv}.

(** The register bytes of a number, before the word order. *)
Definition number_bytes (v : float64) (datatype : string) : list Z :=
  if String.eqb datatype "boolean" then
    put_u16 (if negb (f64_eqb v f64_zero) then 1 else 0)
  else if String.eqb datatype "int16" then put_u16 (wrapu 16 (to_int 16 v))
  else if String.eqb datatype "uint16" then put_u16 (to_uint 16 v)
  else if String.eqb datatype "int32" then put_u32 (wrapu 32 (to_int 32 v))
  else if String.eqb datatype "uint32" then put_u32 (to_uint 32 v)
  else if String.eqb datatype "float32" then put_u32 (f32_of_f64 v)
  else if String.eqb datatype "float64" then put_u64 v
  else put_u16 (to_uint 16 v).

(** The [count] big-endian words of a byte list. *)
Fixpoint be_words (count : nat) (raw : list Z) : list Z :=
  match count with
  | O => []
  | S n => be_value (take 2 raw) :: be_words n (drop 2 raw)
  end.

Definition encodeToRegisters (v : float64) (datatype byteOrder : string) : list Z :=
  arrangeWords (be_words (registerCount datatype) (number_bytes v datatype)) byteOrder.

Definition decodeFromRegisters (words : list Z) (datatype byteOrder : string) : outcome value :=
  let arranged := arrangeWords words byteOrder in
  let raw := concat (map put_u16 arranged) in
  if String.eqb datatype "boolean" then
    w ← index words 0; Ok (VBool (negb (w =? 0)))
  else if String.eqb datatype "int16" then
    n ← get_u16 raw 0; Ok (VFloat64 (f64_of_Z (wraps 16 n)))
  else if String.eqb datatype "uint16" then
    n ← get_u16 raw 0; Ok (VFloat64 (f64_of_Z n))
  else if String.eqb datatype "int32" then
    n ← get_u32 raw 0; Ok (VFloat64 (f64_of_Z (wraps 32 n)))
  else if String.eqb datatype "uint32" then
    n ← get_u32 raw 0; Ok (VFloat64 (f64_of_Z n))
  else if String.eqb datatype "float32" then
    n ← get_u32 raw 0; Ok (VFloat64 (f64_of_f32 n))
  else if String.eqb datatype "float64" then
    n ← get_u64 raw 0; Ok (VFloat64 n)
  else n ← get_u16 raw 0; Ok (VFloat64 (f64_of_Z n)).

(** ** Operations *)

Definition RegisterTag (s : RegisterStore) (tag : ModbusTagConfig) : RegisterStore :=
  mkStore (coils s) (discretes s) (holding s) (input s)
    (<[ID tag := tag]> (tagsByVariable s))
    (<[fcAddressKey (tagFunctionCode tag) (Address tag) := tag]> (tagsByAddress s)).

(** [for i, w := range words { store[addr+i] = w }] *)
Fixpoint put_words (m : gmap Z Z) (addr : Z) (words : list Z) : gmap Z Z :=
  match words with
  | [] => m
  | w :: words' => put_words (<[addr := w]> m) (addr + 1) words'
  end.

Definition default_order (tag : ModbusTagConfig) : string :=
  if String.eqb (tagByteOrder tag) "" then "ABCD" else tagByteOrder tag.

Definition UpdateFromVariable (s : RegisterStore) (variableID : string) (v : value)
    : bool * RegisterStore :=
  match tagsByVariable s !! variableID with
  | None => (false, s)
  | Some tag =>
      let fc := tagFunctionCode tag in
      if String.eqb fc "coil" || String.eqb fc "discrete" then
        let boolVal := Conv.toBool v in
        if String.eqb fc "coil"
        then (true, set_coils s (<[Address tag := boolVal]> (coils s)))
        else (true, set_discretes s (<[Address tag := boolVal]> (discretes s)))
      else
        let numVal := Conv.toFloat64 v in
        let words := encodeToRegisters numVal (Datatype tag) (default_order tag) in
        if String.eqb fc "input"
        then (true, set_input s (put_words (input s) (Address tag) words))
        else (true, set_holding s (put_words (holding s) (Address tag) words))
  end.

Record ReadResult := mkResult {
  VariableID : string;
  Value : value;
  rWritable : bool;
}.

(** The words at [addr], [addr + 1], ... *)
Definition get_words (m : gmap Z Z) (addr : Z) (count : nat) : list Z :=
  map (λ i, word_at m (addr + Z.of_nat i)) (seq 0 count).

Definition ReadTypedValue (s : RegisterStore) (fc : string) (address : Z)
    : outcome (option ReadResult) :=
  match tagsByAddress s !! fcAddressKey fc address with
  | None => Ok None
  | Some tag =>
      if String.eqb fc "coil" || String.eqb fc "discrete" then
        let store := if String.eqb fc "discrete" then discretes s else coils s in
        Ok (Some (mkResult (ID tag) (VBool (bit_at store address)) (Writable tag)))
      else
        let store := if String.eqb fc "input" then input s else holding s in
        let words := get_words store address (registerCount (Datatype tag)) in
        v ← decodeFromRegisters words (Datatype tag) (default_order tag);
        Ok (Some (mkResult (ID tag) v (Writable tag)))
  end.

Definition ReadCoil (s : RegisterStore) (a : Z) : bool := bit_at (coils s) a.
Definition ReadDiscrete (s : RegisterStore) (a : Z) : bool := bit_at (discretes s) a.
Definition ReadHolding (s : RegisterStore) (a : Z) : Z := word_at (holding s) a.
Definition ReadInput (s : RegisterStore) (a : Z) : Z := word_at (input s) a.

Definition WriteCoil (s : RegisterStore) (a : Z) (v : bool) : RegisterStore :=
  set_coils s (<[a := v]> (coils s)).
Definition WriteHolding (s : RegisterStore) (a v : Z) : RegisterStore :=
  set_holding s (<[a := v]> (holding s)).

End Store.

Example key_ex : fcAddressKey "holding" 40001 = "holding:40001" ∧ intToString (-120) = "-120".
Proof. split; reflexivity. Qed.

(** ** Properties *)

Lemma digits_loop_pretty f n s : 0 ≤ n < 10 ^ Z.of_nat f →
  str (digits_loop f n (chars s)) = pretty_N_go (Z.to_N n) s.
Proof.
  revert n s. induction f as [|f IH]; intros n s Hn.
  { assert (n = 0) as -> by (cbn in Hn; lia). cbn. by rewrite str_chars. }
  cbn [digits_loop]. destruct (Z.ltb_spec 0 n) as [Hp|Hz].
  - rewrite pretty_N_go_step by lia.
    rewrite Nat2Z.inj_succ, Z.pow_succ_r in Hn by lia.
    replace (char_of (48 + n mod 10) :: chars s)
      with (chars (String (pretty_N_char (Z.to_N n `mod` 10)) s)).
    + rewrite IH; [|split; [apply Z.div_pos; lia|apply Z.div_lt_upper_bound; lia]].
      f_equal. by rewrite Z2N.inj_div by lia.
    + change (chars (String ?c ?t)) with (c :: chars t). f_equal.
      destruct (pretty_N_char_digit (Z.to_N n `mod` 10)) as [_ Hb]; [by apply N.mod_lt|].
      rewrite <- (char_of_byte_of (pretty_N_char _)), Hb. f_equal.
      rewrite N2Z.inj_mod, Z2N.id by lia. done.
  - assert (n = 0) as -> by lia. cbn. by rewrite str_chars.
Qed.

Lemma intToString_itoa n : - 2 ^ 63 < n < 2 ^ 63 → intToString n = itoa n.
Proof.
  intros Hn. unfold intToString. destruct (Z.eqb_spec n 0) as [->|Hne]; [done|].
  assert (Hp : ∀ p, Zpos p < 2 ^ 63 → str (digits_loop 20 (Zpos p) []) = pretty p).
  { intros p Hp. exact (digits_loop_pretty 20 (Zpos p) "" ltac:(lia)). }
  destruct (Z.ltb_spec n 0) as [Hlt|Hge].
  - destruct n as [|p|p]; [lia|lia|].
    rewrite wraps_small by (unfold in_s; lia).
    transitivity ("-" +:+ str (digits_loop 20 (Zpos p) [])); [done|]. by rewrite Hp by lia.
  - destruct n as [|p|p]; [lia| |lia]. by rewrite Hp by lia.
Qed.

(** the hand-written [intToString] agrees with [strconv.Itoa] on every 64-bit
    number but the smallest, whose negation overflows and leaves only the sign. *)
Theorem intToString_spec (n : Z) :
  (- 2 ^ 63 < n < 2 ^ 63 → intToString n = itoa n) ∧ intToString (- 2 ^ 63) = "-".
Proof. split; [apply intToString_itoa|reflexivity]. Qed.

(** *** Words and bytes *)

Lemma word_bytes_be w : word_bytes w = put_u16 w.
Proof.
  unfold word_bytes, wrapu. cbn [be_bytes Z.of_nat Z.mul]. f_equal; [|f_equal].
  - rewrite Z.shiftr_div_pow2 by lia. done.
  - change 255 with (Z.ones 8). rewrite Z.land_ones by lia.
    rewrite Z.mod_mod by done. cbn. by rewrite Z.div_1_r.
Qed.

Lemma lor_shift8 a b : is_byte a → is_byte b → Z.lor (Z.shiftl a 8) b = a * 256 + b.
Proof.
  unfold is_byte, in_u. intros Ha Hb. rewrite Z.shiftl_mul_pow2 by lia.
  pose proof (Z.add_lor_land (a * 2 ^ 8) b) as Hs.
  enough (Z.land (a * 2 ^ 8) b = 0) by (change (2 ^ 8) with 256 in *; lia).
  apply Z.bits_inj'. intros i Hi. rewrite Z.land_spec, Z.bits_0.
  destruct (Z.ltb_spec i 8); [rewrite Z.mul_pow2_bits_low by lia; done|].
  replace b with (b mod 2 ^ 8) by (apply Z.mod_small; lia).
  by rewrite Z.mod_pow2_bits_high, andb_false_r by lia.
Qed.

Lemma words_of_cons w l : in_u 16 w → words_of (put_u16 w ++ l) = w :: words_of l.
Proof.
  intros Hw. unfold in_u in Hw. cbn [be_bytes app words_of]. f_equal.
  rewrite lor_shift8 by apply is_byte_mod.
  change (be_value (put_u16 w) = w). rewrite be_value_bytes. by apply Z.mod_small.
Qed.

Lemma words_of_put ws : Forall (in_u 16) ws → words_of (concat (map put_u16 ws)) = ws.
Proof.
  induction 1 as [|w ws Hw _ IH]; [done|].
  change (concat (map put_u16 (w :: ws))) with (put_u16 w ++ concat (map put_u16 ws)).
  by rewrite words_of_cons, IH.
Qed.

Lemma put_words_of bs : is_bytes bs → Nat.even (length bs) = true →
  concat (map put_u16 (words_of bs)) = bs.
Proof.
  enough (Hg : ∀ n bs, (length bs ≤ n)%nat → is_bytes bs → Nat.even (length bs) = true →
    concat (map put_u16 (words_of bs)) = bs) by (intros; by eapply Hg).
  clear bs. induction n as [|n IH]; intros [|a [|b bs]] Hn Hb He; try done; [cbn in Hn; lia|].
  apply Forall_cons in Hb as [Ha Hb]. apply Forall_cons in Hb as [Hb Hbs].
  change (put_u16 (Z.lor (Z.shiftl a 8) b) ++ concat (map put_u16 (words_of bs)) = a :: b :: bs).
  rewrite IH; [|cbn in Hn; lia|done|done].
  rewrite lor_shift8 by done. pose proof (be_bytes_value [a; b] (is_bytes_2 a b Ha Hb)) as E.
  change (put_u16 (a * 256 + b) = [a; b]) in E. by rewrite E.
Qed.

Lemma words_of_range bs : is_bytes bs → Forall (in_u 16) (words_of bs).
Proof.
  enough (Hg : ∀ n bs, (length bs ≤ n)%nat → is_bytes bs → Forall (in_u 16) (words_of bs))
    by (intros; by eapply Hg).
  clear bs. induction n as [|n IH]; intros [|a [|b bs]] Hn Hb; try constructor; try (cbn in Hn; lia).
  - apply Forall_cons in Hb as [Ha Hb]. apply Forall_cons in Hb as [Hb _].
    rewrite lor_shift8 by done. unfold is_byte, in_u in *. lia.
  - apply IH; [cbn in Hn; lia|]. apply Forall_cons in Hb as [_ Hb]. by apply Forall_cons in Hb as [_ Hb].
Qed.

Lemma length_words_of bs n : length bs = (2 * n)%nat → length (words_of bs) = n.
Proof.
  revert bs. induction n as [|n IH]; intros [|a [|b bs]] Hn; cbn in Hn; try lia; [done|].
  cbn. by rewrite IH by lia.
Qed.

Lemma length_put_words ws : length (concat (map put_u16 ws)) = (2 * length ws)%nat.
Proof. induction ws as [|w ws IH]; [done|]. cbn in *. rewrite IH. lia. Qed.

Lemma is_bytes_put_words ws : is_bytes (concat (map put_u16 ws)).
Proof.
  induction ws as [|w ws IH]; [constructor|].
  apply Forall_app; split; [apply is_bytes_be_bytes|apply IH].
Qed.

Lemma even_put_words ws : Nat.even (length (concat (map put_u16 ws))) = true.
Proof. rewrite length_put_words. by rewrite Nat.even_mul. Qed.

(** The byte permutation behind a word order. *)
Definition byte_order (order : string) (raw : list Z) : list Z :=
  if String.eqb order "DCBA" then rev raw
  else if String.eqb order "BADC" then swap_pairs raw
  else if String.eqb order "CDAB" then swap_quads raw
  else raw.

Lemma arrangeWords_bytes ws order : Forall (in_u 16) ws →
  arrangeWords ws order = words_of (byte_order order (concat (map put_u16 ws))).
Proof.
  intros Hws. unfold arrangeWords, byte_order.
  rewrite (map_ext word_bytes put_u16) by apply word_bytes_be.
  destruct (String.eqb_spec order "ABCD") as [->|].
  - symmetry. by apply words_of_put.
  - repeat case_if; try done. symmetry. by apply words_of_put.
Qed.

Lemma swap_quads_spec raw : length (swap_quads raw) = length raw
  ∧ swap_quads (swap_quads raw) = raw ∧ (is_bytes raw → is_bytes (swap_quads raw)).
Proof.
  enough (Hg : ∀ n raw, (length raw ≤ n)%nat → length (swap_quads raw) = length raw
    ∧ swap_quads (swap_quads raw) = raw ∧ (is_bytes raw → is_bytes (swap_quads raw)))
    by by eapply Hg.
  clear raw. induction n as [|n IH]; intros [|a [|b [|c [|d raw]]]] Hn; try done; [cbn in Hn; lia|].
  cbn [swap_quads length]. destruct (IH raw) as (-> & -> & Hb); [cbn in Hn; lia|].
  split_and!; [done..|]. unfold is_bytes. rewrite !Forall_cons. intuition.
Qed.

Lemma is_bytes_swap_pairs raw : Nat.even (length raw) = true → is_bytes raw → is_bytes (swap_pairs raw).
Proof.
  enough (Hg : ∀ n raw, (length raw ≤ n)%nat → Nat.even (length raw) = true → is_bytes raw →
    is_bytes (swap_pairs raw)) by by eapply Hg.
  clear raw. induction n as [|n IH]; intros [|a [|b raw]] Hn He Hb; try done; [cbn in Hn; lia|].
  cbn [swap_pairs]. unfold is_bytes in *. rewrite !Forall_cons in *.
  destruct Hb as (Ha & Hb & Hr). split_and!; [done..|]. apply IH; [cbn in Hn; lia|done|done].
Qed.

Lemma byte_order_spec order raw : is_bytes raw → Nat.even (length raw) = true →
  length (byte_order order raw) = length raw
  ∧ byte_order order (byte_order order raw) = raw ∧ is_bytes (byte_order order raw).
Proof.
  intros Hb He. unfold byte_order. repeat case_if.
  - split_and!; [apply length_rev|apply rev_involutive|by apply List.Forall_rev].
  - split_and!; [apply swap_pairs_length|by apply swap_pairs_involutive|by apply is_bytes_swap_pairs].
  - destruct (swap_quads_spec raw) as (? & ? & ?). auto.
  - done.
Qed.

Lemma arrange_words_bytes ws order : Forall (in_u 16) ws →
  concat (map put_u16 (arrangeWords ws order)) = byte_order order (concat (map put_u16 ws)).
Proof.
  intros Hws. rewrite arrangeWords_bytes by done.
  destruct (byte_order_spec order _ (is_bytes_put_words ws) (even_put_words ws)) as (Hl & _ & Hb).
  apply put_words_of; [done|]. rewrite Hl. apply even_put_words.
Qed.

Lemma arrangeWords_range ws order : Forall (in_u 16) ws →
  Forall (in_u 16) (arrangeWords ws order) ∧ length (arrangeWords ws order) = length ws.
Proof.
  intros Hws. rewrite arrangeWords_bytes by done.
  destruct (byte_order_spec order _ (is_bytes_put_words ws) (even_put_words ws)) as (Hl & _ & Hb).
  split; [by apply words_of_range|]. apply length_words_of. rewrite Hl. apply length_put_words.
Qed.

Lemma arrangeWords_self_inverse ws order : Forall (in_u 16) ws →
  arrangeWords (arrangeWords ws order) order = ws.
Proof.
  intros Hws. rewrite (arrangeWords_bytes (arrangeWords ws order)) by by apply arrangeWords_range.
  rewrite arrange_words_bytes by done.
  destruct (byte_order_spec order _ (is_bytes_put_words ws) (even_put_words ws)) as (_ & -> & _).
  by apply words_of_put.
Qed.

(** every word order of the server is its own inverse on 16-bit registers, and keeps
    both the number of registers and their range. *)
Theorem arrangeWords_involutive (words : list Z) (byteOrder : string) :
  Forall (in_u 16) words →
  arrangeWords (arrangeWords words byteOrder) byteOrder = words
  ∧ length (arrangeWords words byteOrder) = length words
  ∧ Forall (in_u 16) (arrangeWords words byteOrder).
Proof.
  intros Hw. destruct (arrangeWords_range words byteOrder Hw).
  split_and!; [by apply arrangeWords_self_inverse|done..].
Qed.

(** *** Typed values *)

Lemma be_words_words_of n raw : length raw = (2 * n)%nat → is_bytes raw → be_words n raw = words_of raw.
Proof.
  revert raw. induction n as [|n IH]; intros [|a [|b raw]] Hn Hb; cbn in Hn; try lia; [done|].
  apply Forall_cons in Hb as [Ha Hb]. apply Forall_cons in Hb as [Hb Hr].
  change (be_value [a; b] :: be_words n raw = Z.lor (Z.shiftl a 8) b :: words_of raw).
  rewrite IH; [|lia|done]. by rewrite lor_shift8.
Qed.

Section Typed.
Context `{FloatConv}.

Lemma number_bytes_spec v dt :
  is_bytes (number_bytes v dt) ∧ length (number_bytes v dt) = (2 * registerCount dt)%nat.
Proof.
  unfold number_bytes, registerCount.
  repeat match goal with |- context [String.eqb dt ?s] => destruct (String.eqb dt s); cbn [orb] end;
    (split; [apply is_bytes_be_bytes|by rewrite length_be_bytes]).
Qed.

Lemma encode_words v dt order :
  Forall (in_u 16) (encodeToRegisters v dt order)
  ∧ length (encodeToRegisters v dt order) = registerCount dt
  ∧ concat (map put_u16 (encodeToRegisters v dt order)) = byte_order order (number_bytes v dt)
  ∧ concat (map put_u16 (arrangeWords (encodeToRegisters v dt order) order)) = number_bytes v dt.
Proof.
  destruct (number_bytes_spec v dt) as [Hb Hl]. unfold encodeToRegisters.
  rewrite be_words_words_of by done.
  assert (Hr := words_of_range _ Hb). assert (Hlw := length_words_of _ _ Hl).
  assert (Hp : concat (map put_u16 (words_of (number_bytes v dt))) = number_bytes v dt).
  { apply put_words_of; [done|]. by rewrite Hl, Nat.even_mul. }
  destruct (arrangeWords_range _ order Hr) as [Ha Hla].
  split_and!; [done|congruence|by rewrite arrange_words_bytes, Hp|].
  by rewrite arrangeWords_self_inverse.
Qed.

(** The value a register block of type [dt] reads back as, after [v] was stored. *)
Definition served_value (v : float64) (dt : string) : value :=
  if String.eqb dt "boolean" then VBool (negb (f64_eqb v f64_zero))
  else if String.eqb dt "int16" then VFloat64 (f64_of_Z (to_int 16 v))
  else if String.eqb dt "uint16" then VFloat64 (f64_of_Z (to_uint 16 v))
  else if String.eqb dt "int32" then VFloat64 (f64_of_Z (to_int 32 v))
  else if String.eqb dt "uint32" then VFloat64 (f64_of_Z (to_uint 32 v))
  else if String.eqb dt "float32" then VFloat64 (f64_of_f32 (f32_of_f64 v))
  else if String.eqb dt "float64" then VFloat64 (wrapu 64 v)
  else VFloat64 (f64_of_Z (to_uint 16 v)).

Lemma get_put_int w n f : (8 * Z.of_nat n = w) → 0 < w →
  get_be n (be_bytes n (wrapu w (to_int w f))) 0 = Ok (wrapu w (to_int w f))
  ∧ wraps w (wrapu w (to_int w f)) = to_int w f.
Proof.
  intros <- Hw. split.
  - rewrite get_be_bytes. f_equal. apply Z.mod_mod. unfold wrapu. lia.
  - rewrite wraps_wrapu by done. apply wraps_small; [by apply to_int_range|done].
Qed.

Lemma get_put_uint w n f : (8 * Z.of_nat n = w) → 0 < w →
  get_be n (be_bytes n (to_uint w f)) 0 = Ok (to_uint w f).
Proof.
  intros <- Hw. rewrite get_be_bytes. f_equal. apply Z.mod_small. by apply to_uint_range.
Qed.

Lemma bool_word (b : bool) order : index (arrangeWords (be_words 1 (put_u16 (if b then 1 else 0))) order) 0
  = Ok (if b then (if String.eqb order "DCBA" || String.eqb order "BADC" then 256 else 1) else 0).
Proof.
  unfold arrangeWords.
  destruct (String.eqb_spec order "ABCD") as [->|]; [by destruct b|].
  destruct (String.eqb order "DCBA"); [by destruct b|].
  destruct (String.eqb order "BADC"); [by destruct b|].
  destruct (String.eqb order "CDAB"); by destruct b.
Qed.

Lemma decode_encode_words v dt order :
  decodeFromRegisters (encodeToRegisters v dt order) dt order = Ok (served_value v dt).
Proof.
  destruct (encode_words v dt order) as (_ & _ & _ & Hraw).
  unfold decodeFromRegisters, served_value. cbn zeta. rewrite Hraw. clear Hraw.
  destruct (String.eqb_spec dt "boolean") as [->|Hnb].
  { unfold encodeToRegisters. change (registerCount "boolean") with 1%nat.
    change (number_bytes v "boolean") with (put_u16 (if negb (f64_eqb v f64_zero) then 1 else 0)).
    rewrite bool_word. destruct (negb (f64_eqb v f64_zero)); [|done].
    by destruct (String.eqb order "DCBA" || String.eqb order "BADC"). }
  unfold number_bytes. rewrite (proj2 (String.eqb_neq dt "boolean") Hnb).
  assert (Hi16 := get_put_int 16 2 v eq_refl ltac:(done)).
  assert (Hi32 := get_put_int 32 4 v eq_refl ltac:(done)).
  assert (Hu16 := get_put_uint 16 2 v eq_refl ltac:(done)).
  assert (Hu32 := get_put_uint 32 4 v eq_refl ltac:(done)).
  destruct (String.eqb dt "int16"); [rewrite (proj1 Hi16); cbn; by rewrite (proj2 Hi16)|].
  destruct (String.eqb dt "uint16"); [by rewrite Hu16|].
  destruct (String.eqb dt "int32"); [rewrite (proj1 Hi32); cbn; by rewrite (proj2 Hi32)|].
  destruct (String.eqb dt "uint32"); [by rewrite Hu32|].
  destruct (String.eqb dt "float32").
  { rewrite get_be_bytes. cbn -[f64_of_f32 f32_of_f64]. do 3 f_equal. unfold f32_of_f64 at 1.
    apply Z.mod_small. by apply (wrapu_range 32). }
  destruct (String.eqb dt "float64"); [by rewrite get_be_bytes|].
  by rewrite Hu16.
Qed.

(** *** Register arrays *)

Lemma put_words_lookup m addr ws a : put_words m addr ws !! a =
  if decide (addr ≤ a < addr + Z.of_nat (length ws)) then ws !! Z.to_nat (a - addr) else m !! a.
Proof.
  revert m addr. induction ws as [|w ws IH]; intros m addr.
  { cbn. by rewrite decide_False by lia. }
  cbn [put_words]. rewrite IH. change (length (w :: ws)) with (S (length ws)).
  destruct (decide (a = addr)) as [->|Hne].
  - rewrite decide_False by lia. rewrite decide_True by lia.
    rewrite lookup_insert_eq. by replace (addr - addr) with 0 by lia.
  - rewrite lookup_insert_ne by done.
    destruct (decide (addr + 1 ≤ a < addr + 1 + Z.of_nat (length ws))).
    + rewrite decide_True by lia.
      replace (Z.to_nat (a - addr)) with (S (Z.to_nat (a - (addr + 1)))) by lia. done.
    + by rewrite decide_False by lia.
Qed.

Lemma get_put_words m addr ws : get_words (put_words m addr ws) addr (length ws) = ws.
Proof.
  apply list_eq. intros i. unfold get_words. rewrite list_lookup_fmap.
  destruct (decide (i < length ws)%nat) as [Hi|Hi].
  - rewrite lookup_seq_lt by done. cbn [fmap option_fmap option_map]. unfold word_at.
    rewrite put_words_lookup, decide_True by lia.
    replace (Z.to_nat (addr + Z.of_nat (0 + i) - addr)) with i by lia.
    by destruct (lookup_lt_is_Some_2 ws i Hi) as [w ->].
  - rewrite lookup_seq_ge, lookup_ge_None_2 by lia. done.
Qed.

Lemma word_at_outside m addr ws a : a < addr ∨ addr + Z.of_nat (length ws) ≤ a →
  word_at (put_words m addr ws) a = word_at m a.
Proof. intros. unfold word_at. rewrite put_words_lookup, decide_False by lia. done. Qed.
End Typed.

(** *** Properties of the store *)

Section StoreProps.
Context `{FloatConv} `{FloatText}.

Definition is_bit_space (fc : string) : bool := String.eqb fc "coil" || String.eqb fc "discrete".

(** What the tag [tag] serves after its variable took the value [v]. *)
Definition tag_value (tag : ModbusTagConfig) (v : value) : value :=
  if is_bit_space (tagFunctionCode tag) then VBool (Conv.toBool v)
  else served_value (Conv.toFloat64 v) (Datatype tag).

Definition outside (tag : ModbusTagConfig) (a : Z) : Prop :=
  a < Address tag ∨ Address tag + Z.of_nat (registerCount (Datatype tag)) ≤ a.

Definition same_cell (s s' : RegisterStore) (a : Z) : Prop :=
  ReadCoil s' a = ReadCoil s a ∧ ReadDiscrete s' a = ReadDiscrete s a
  ∧ ReadHolding s' a = ReadHolding s a ∧ ReadInput s' a = ReadInput s a.

Lemma bit_at_insert m a b c : bit_at (<[a := b]> m) c = if decide (c = a) then b else bit_at m c.
Proof.
  unfold bit_at. case_decide as E; [subst; by rewrite lookup_insert_eq|by rewrite lookup_insert_ne].
Qed.

(** what a PLC variable publishes is what a Modbus client reads: after a tag is
    registered and its variable updated, the tag's address serves the variable's value
    (as the datatype stores it) in every register space, datatype and byte order, and no
    register outside the tag's block changes. *)
Theorem update_then_read (s : RegisterStore) (tag : ModbusTagConfig) (v : value) :
  let s1 := RegisterTag s tag in
  let s2 := snd (UpdateFromVariable s1 (ID tag) v) in
  fst (UpdateFromVariable s1 (ID tag) v) = true
  ∧ ReadTypedValue s2 (tagFunctionCode tag) (Address tag)
    = Ok (Some (mkResult (ID tag) (tag_value tag v) (Writable tag)))
  ∧ ∀ a, outside tag a → same_cell s s2 a.
Proof.
  cbn zeta. unfold UpdateFromVariable, ReadTypedValue, tag_value, is_bit_space, outside, same_cell,
    ReadCoil, ReadDiscrete, ReadHolding, ReadInput.
  change (tagsByVariable (RegisterTag s tag)) with (<[ID tag := tag]> (tagsByVariable s)).
  rewrite lookup_insert_eq. pose proof (registerCount_range (Datatype tag)) as Hc.
  destruct (encode_words (Conv.toFloat64 v) (Datatype tag) (default_order tag)) as (_ & Hl & _).
  destruct (String.eqb (tagFunctionCode tag) "coil" || _) eqn:Hbit.
  - destruct (String.eqb_spec (tagFunctionCode tag) "coil") as [Hcoil|Hcoil]; cbn;
      rewrite lookup_insert_eq; cbn.
    + rewrite Hcoil. cbn. rewrite bit_at_insert, decide_True by done.
      split_and!; [done..|]. intros a Ha. by rewrite bit_at_insert, decide_False by lia.
    + cbn in Hbit. rewrite Hbit. rewrite bit_at_insert, decide_True by done.
      split_and!; [done..|]. intros a Ha. by rewrite bit_at_insert, decide_False by lia.
  - assert (Hdec := decode_encode_words (Conv.toFloat64 v) (Datatype tag) (default_order tag)).
    set (ws := encodeToRegisters _ _ _) in *.
    destruct (String.eqb (tagFunctionCode tag) "input") eqn:Hin; cbn -[get_words orb];
      rewrite lookup_insert_eq; cbn -[get_words orb]; rewrite <- Hl, get_put_words, Hdec;
      (split_and!; [done..|]); intros a Ha; by rewrite word_at_outside.
Qed.

(** *** The server's words against the client's bytes *)

Lemma arrangeBytes_byte_order raw order (n : nat) : (n = 1%nat ∨ n = 2%nat ∨ order ≠ "CDAB") → length raw = (2 * n)%nat →
  arrangeBytes raw order = byte_order order raw.
Proof.
  intros Hn Hl. unfold arrangeBytes, byte_order.
  destruct (String.eqb_spec order "BADC") as [->|]; [done|].
  destruct (String.eqb_spec order "CDAB") as [->|]; [|done].
  destruct Hn as [->|[->|?]]; [| |done].
  - destruct raw as [|a [|b [|c raw]]]; cbn in Hl; lia || done.
  - destruct raw as [|a [|b [|c [|d [|e raw]]]]]; cbn in Hl; lia || done.
Qed.

(** The value the client decodes for [v], in its own representation of integers. *)
Definition client_value (v : float64) (dt : string) : value :=
  if String.eqb dt "boolean" then VBool (negb (f64_eqb v f64_zero))
  else if String.eqb dt "int16" then VInt KInt64 (to_int 16 v)
  else if String.eqb dt "uint16" then VInt KInt64 (to_uint 16 v)
  else if String.eqb dt "int32" then VInt KInt64 (to_int 32 v)
  else if String.eqb dt "uint32" then VInt KInt64 (to_uint 32 v)
  else if String.eqb dt "float32" then VFloat64 (f64_of_f32 (f32_of_f64 v))
  else if String.eqb dt "float64" then VFloat64 (wrapu 64 v)
  else VInt KInt64 (to_uint 16 v).

Lemma decode_raw_number_bytes v dt : decode_raw (number_bytes v dt) dt = Ok (client_value v dt).
Proof.
  unfold decode_raw, number_bytes, client_value.
  assert (Hi16 := get_put_int 16 2 v eq_refl ltac:(done)).
  assert (Hi32 := get_put_int 32 4 v eq_refl ltac:(done)).
  assert (Hu16 := get_put_uint 16 2 v eq_refl ltac:(done)).
  assert (Hu32 := get_put_uint 32 4 v eq_refl ltac:(done)).
  destruct (String.eqb dt "boolean"); [by destruct (negb (f64_eqb v f64_zero))|].
  destruct (String.eqb dt "int16"); [rewrite (proj1 Hi16); cbn; by rewrite (proj2 Hi16)|].
  destruct (String.eqb dt "uint16"); [by rewrite Hu16|].
  destruct (String.eqb dt "int32"); [rewrite (proj1 Hi32); cbn; by rewrite (proj2 Hi32)|].
  destruct (String.eqb dt "uint32"); [by rewrite Hu32|].
  destruct (String.eqb dt "float32").
  { rewrite get_be_bytes. cbn -[f64_of_f32 f32_of_f64]. do 3 f_equal. unfold f32_of_f64 at 1.
    apply Z.mod_small. by apply (wrapu_range 32). }
  destruct (String.eqb dt "float64"); [by rewrite get_be_bytes|].
  by rewrite Hu16.
Qed.

Lemma decodeRegisters_whole raw dt order : length raw = (2 * registerCount dt)%nat →
  decodeRegisters raw dt order = decode_raw (arrangeBytes raw order) dt.
Proof.
  intros Hl. unfold decodeRegisters. cbn zeta. rewrite (proj2 (Nat.ltb_ge _ _)) by lia.
  rewrite slice_ok by lia. rewrite drop_0, Nat.sub_0_r, firstn_all2 by lia. done.
Qed.

(** the gateway's own client understands the gateway's own server: the registers the
    server computes for a number decode, in the client, to that number as the datatype
    holds it, for every datatype and byte order except float64 in word-swapped order. *)
Theorem client_reads_server (v : float64) (dt order : string) :
  dt ≠ "float64" ∨ order ≠ "CDAB" →
  decodeRegisters (concat (map put_u16 (encodeToRegisters v dt order))) dt order
  = Ok (client_value v dt).
Proof.
  intros Hne. destruct (encode_words v dt order) as (Hr & Hl & Hb & _).
  destruct (number_bytes_spec v dt) as [Hnb Hnl].
  rewrite decodeRegisters_whole by (rewrite length_put_words; lia).
  rewrite (arrangeBytes_byte_order _ _ (registerCount dt)); [| |rewrite length_put_words; lia].
  - rewrite Hb. destruct (byte_order_spec order (number_bytes v dt) Hnb) as (_ & -> & _);
      [by rewrite Hnl, Nat.even_mul|]. apply decode_raw_number_bytes.
  - destruct Hne as [Hdt|]; [|by right; right]. unfold registerCount.
    rewrite (proj2 (String.eqb_neq dt "float64") Hdt). repeat case_if; auto.
Qed.

(** in word-swapped order the server swaps words within each half of a float64 while
    the client reverses all four words, so the client reads the two 32-bit halves of the
    number exchanged. *)
Theorem cdab_float64_halves_exchanged (v : float64) : in_u 64 v →
  decodeRegisters (concat (map put_u16 (encodeToRegisters v "float64" "CDAB"))) "float64" "CDAB"
  = Ok (VFloat64 ((v mod 2 ^ 32) * 2 ^ 32 + v / 2 ^ 32)).
Proof.
  intros Hv. destruct (encode_words v "float64" "CDAB") as (_ & Hl & Hb & _).
  rewrite decodeRegisters_whole by (rewrite length_put_words, Hl; done). rewrite Hb. clear Hl Hb.
  change (number_bytes v "float64") with (put_u64 v).
  assert (Hsplit : put_u64 v = put_u32 (v / 2 ^ 32) ++ put_u32 (v mod 2 ^ 32)).
  { unfold in_u in Hv. rewrite <- (be_bytes_value (put_u32 (v / 2 ^ 32) ++ put_u32 (v mod 2 ^ 32)));
      [|apply Forall_app; split; apply is_bytes_be_bytes].
    rewrite length_app, !length_be_bytes. f_equal. unfold be_value. rewrite fold_left_app, be_value_acc.
    change (fold_left _ (put_u32 (v / 2 ^ 32)) 0) with (be_value (put_u32 (v / 2 ^ 32))).
    rewrite !be_value_bytes, length_be_bytes. change (8 * Z.of_nat 4) with 32.
    rewrite (Z.mod_small (v / _)), Z.mod_mod by (done || (split; [by apply Z.div_pos; lia|by apply Z.div_lt_upper_bound; lia])).
    pose proof (Z.div_mod v (2 ^ 32)). lia. }
  rewrite Hsplit.
  assert (Hq : ∀ a b c d e f g h, arrangeBytes (byte_order "CDAB" ([a; b; c; d] ++ [e; f; g; h])) "CDAB"
    = [e; f; g; h] ++ [a; b; c; d]) by done.
  assert (Hlow : arrangeBytes (byte_order "CDAB" (put_u32 (v / 2 ^ 32) ++ put_u32 (v mod 2 ^ 32))) "CDAB"
    = put_u32 (v mod 2 ^ 32) ++ put_u32 (v / 2 ^ 32)) by apply Hq.
  rewrite Hlow.
  change (decode_raw ?r "float64") with (n ← get_u64 r 0; Ok (VFloat64 n)).
  unfold get_be. rewrite length_app, !length_be_bytes, decide_True by done.
  cbn [mbind outcome_bind]. do 2 f_equal. unfold be_value. rewrite drop_0, firstn_all2
    by (rewrite length_app, !length_be_bytes; done).
  rewrite fold_left_app, be_value_acc.
  change (fold_left _ (put_u32 (v mod 2 ^ 32)) 0) with (be_value (put_u32 (v mod 2 ^ 32))).
  rewrite !be_value_bytes, length_be_bytes. change (8 * Z.of_nat 4) with 32.
  unfold in_u in Hv.
  rewrite Z.mod_mod, (Z.mod_small (v / _)) by (done || (split; [by apply Z.div_pos; lia|by apply Z.div_lt_upper_bound; lia])).
  done.
Qed.
End StoreProps.

(** *** Keys are unambiguous *)

Lemma last_sep_unique {A} (x : A) (l1 l2 r1 r2 : list A) : x ∉ r1 → x ∉ r2 →
  l1 ++ x :: r1 = l2 ++ x :: r2 → l1 = l2 ∧ r1 = r2.
Proof.
  revert l2. induction l1 as [|a l1 IH]; intros [|b l2] H1 H2 E; cbn in E.
  - by injection E as ->.
  - injection E as -> ->. exfalso. apply H1, elem_of_app. right. by left.
  - injection E as <- <-. exfalso. apply H2, elem_of_app. right. by left.
  - injection E as -> E. by destruct (IH l2 H1 H2 E) as [-> ->].
Qed.

Lemma itoa_no_colon n : ":"%char ∉ chars (itoa n).
Proof.
  assert (Hd : ∀ l, Forall is_digit l → ":"%char ∉ l).
  { intros l Hl Hin. rewrite Forall_forall in Hl. by apply Hl in Hin. }
  destruct (decide (0 ≤ n)) as [Hn|Hn].
  - apply Hd. apply (itoa_digits n Hn).
  - replace (itoa n) with ("-" +:+ itoa (- n)) by (destruct n; [lia|lia|done]).
    rewrite chars_app. intros [Hx|Hx]%elem_of_app.
    + change (chars "-") with ["-"%char] in Hx. by apply list_elem_of_singleton in Hx.
    + revert Hx. apply Hd, (itoa_digits (- n)). lia.
Qed.

(** two tags share an address key only if they share the register space and the
    address, whatever the space is called. *)
Theorem fcAddressKey_injective (fc fc' : string) (a a' : Z) :
  - 2 ^ 63 < a < 2 ^ 63 → - 2 ^ 63 < a' < 2 ^ 63 →
  fcAddressKey fc a = fcAddressKey fc' a' → fc = fc' ∧ a = a'.
Proof.
  intros Ha Ha' E. unfold fcAddressKey in E. rewrite !intToString_itoa in E by done.
  apply (f_equal chars) in E. rewrite !chars_app in E.
  apply last_sep_unique in E as [E1 E2]; [|apply itoa_no_colon..].
  apply (f_equal str) in E1, E2. rewrite !str_chars in E1, E2. split; [done|].
  by apply (inj pretty) in E2.
Qed.

(** ** Witnesses *)

Lemma intToString_spec_witness : intToString 502 = "502".
Proof. exact (proj1 (intToString_spec 502) ltac:(lia)). Defined.

Lemma arrangeWords_involutive_witness :
  arrangeWords (arrangeWords [0x0102; 0x0304] "BADC") "BADC" = [0x0102; 0x0304].
Proof.
  exact (proj1 (arrangeWords_involutive [0x0102; 0x0304] "BADC"
    ltac:(apply (bool_decide_unpack _); vm_compute; exact I))).
Defined.

Lemma client_reads_server_witness : let _ := conv_zero in let _ := no_float_text in
  decodeRegisters (concat (map put_u16 (encodeToRegisters (f64_of_Z (-5)) "int32" "CDAB"))) "int32" "CDAB"
  = Ok (VInt KInt64 (-5)).
Proof.
  exact (@client_reads_server conv_zero (f64_of_Z (-5)) "int32" "CDAB" ltac:(by left)).
Defined.

Lemma cdab_float64_halves_exchanged_witness : let _ := conv_zero in let _ := no_float_text in
  decodeRegisters (concat (map put_u16 (encodeToRegisters (f64_of_Z 1) "float64" "CDAB"))) "float64" "CDAB"
  = Ok (VFloat64 0x3FF00000).
Proof.
  exact (@cdab_float64_halves_exchanged conv_zero (f64_of_Z 1)
    ltac:(apply (bool_decide_unpack _); vm_compute; exact I)).
Defined.

Lemma fcAddressKey_injective_witness : 3 = 3 ∧ "coil" = "coil".
Proof.
  destruct (fcAddressKey_injective "coil" "coil" 3 3 ltac:(lia) ltac:(lia) eq_refl).
  split; assumption.
Defined.
