(* ===== verification/ModbusServer.v ===== *)
(** The Modbus TCP server: internal/modbusserver/server.go, with the write callback of
    manager.go.

    A handler takes the request PDU and the register store and gives the response PDU,
    the new store and the calls of the write callback, in order. A connection is the list
    of chunks its reads return; writing a response is taken to succeed. *)

From S2P Require Export Prelude GoBytes GoText GoFloat GoValue ModbusCodec ModbusClient ModbusStore.
From stdpp Require Export gmap.

#[local] Open Scope Z_scope.

(** A call [onWrite(fc, address)]. *)
Definition event : Type := string * Z.

Record TCPServer := mkServer {
  unitID : Z;
  hasOnWrite : bool;
}.

Definition reply : Type := list Z * RegisterStore * list event.

(** [if s.onWrite != nil { ... }] *)
Definition notify (srv : TCPServer) (evs : list event) : list event :=
  if hasOnWrite srv then evs else [].

(** ** Handlers *)

(** The bit loop of [handleReadBits] over a response buffer. *)
Fixpoint fill_bits (m : gmap Z bool) (addr : Z) (i : nat) (n : nat) (resp : list Z) : list Z :=
  match n with
  | O => resp
  | S n' =>
      let resp' :=
        if bit_at m (addr + Z.of_nat i)
        then alter (λ b, Z.lor b (Z.shiftl 1 (Z.of_nat (i mod 8)))) (2 + i / 8)%nat resp
        else resp in
      fill_bits m addr (S i) n' resp'
  end.

Definition handleReadBits (s : RegisterStore) (pdu : list Z) (isCoil : bool) : outcome (list Z) :=
  if (length pdu <? 5)%nat then
    fc ← index pdu 0; Ok [Z.lor fc 0x80; 3]
  else
    fc ← index pdu 0;
    addr ← get_u16 pdu 1;
    count ← get_u16 pdu 3;
    let byteCount := (count + 7) / 8 in
    let resp := fc :: wrapu 8 byteCount :: replicate (Z.to_nat byteCount) 0 in
    Ok (fill_bits (if isCoil then coils s else discretes s) addr 0 (Z.to_nat count) resp).

Definition handleReadWords (s : RegisterStore) (pdu : list Z) (isHolding : bool) : outcome (list Z) :=
  if (length pdu <? 5)%nat then
    fc ← index pdu 0; Ok [Z.lor fc 0x80; 3]
  else
    fc ← index pdu 0;
    addr ← get_u16 pdu 1;
    count ← get_u16 pdu 3;
    let words := get_words (if isHolding then holding s else input s) addr (Z.to_nat count) in
    Ok (fc :: wrapu 8 (count * 2) :: concat (map put_u16 words)).

Definition handleWriteSingleCoil (srv : TCPServer) (s : RegisterStore) (pdu : list Z) : outcome reply :=
  if (length pdu <? 5)%nat then Ok ([0x85; 3], s, [])
  else
    addr ← get_u16 pdu 1;
    raw ← get_u16 pdu 3;
    let s' := WriteCoil s addr (raw =? 0xFF00) in
    Ok ([5] ++ put_u16 (wrapu 16 addr) ++ put_u16 raw, s', notify srv [("coil", addr)]).

Definition handleWriteSingleRegister (srv : TCPServer) (s : RegisterStore) (pdu : list Z) : outcome reply :=
  if (length pdu <? 5)%nat then Ok ([0x86; 3], s, [])
  else
    addr ← get_u16 pdu 1;
    v ← get_u16 pdu 3;
    let s' := WriteHolding s addr v in
    Ok ([6] ++ put_u16 (wrapu 16 addr) ++ put_u16 v, s', notify srv [("holding", addr)]).

(** The coil loop of [handleWriteMultipleCoils]; it stops where the data ends. *)
Fixpoint store_coils (pdu : list Z) (addr : Z) (i n : nat) (m : gmap Z bool) : outcome (gmap Z bool) :=
  match n with
  | O => Ok m
  | S n' =>
      let byteIdx := (6 + i / 8)%nat in
      if (length pdu <=? byteIdx)%nat then Ok m
      else
        b ← index pdu byteIdx;
        let val := Z.land (Z.shiftr b (Z.of_nat (i mod 8))) 1 in
        store_coils pdu addr (S i) n' (<[addr + Z.of_nat i := (val =? 1)]> m)
  end.

Definition handleWriteMultipleCoils (srv : TCPServer) (s : RegisterStore) (pdu : list Z) : outcome reply :=
  if (length pdu <? 6)%nat then Ok ([0x8F; 3], s, [])
  else
    addr ← get_u16 pdu 1;
    count ← get_u16 pdu 3;
    nbytes ← index pdu 5;
    if (length pdu <? 6 + Z.to_nat nbytes)%nat then Ok ([0x8F; 3], s, [])
    else
      m ← store_coils pdu addr 0 (Z.to_nat count) (coils s);
      let evs := map (λ i, ("coil", addr + Z.of_nat i)) (seq 0 (Z.to_nat count)) in
      Ok ([0x0F] ++ put_u16 (wrapu 16 addr) ++ put_u16 (wrapu 16 count),
          set_coils s m, notify srv evs).

(** The register loop of [handleWriteMultipleRegisters]. *)
Fixpoint store_words (pdu : list Z) (addr : Z) (i n : nat) (m : gmap Z Z) : outcome (gmap Z Z) :=
  match n with
  | O => Ok m
  | S n' =>
      word ← get_u16 pdu (6 + i * 2);
      store_words pdu addr (S i) n' (<[addr + Z.of_nat i := word]> m)
  end.

Definition handleWriteMultipleRegisters (srv : TCPServer) (s : RegisterStore) (pdu : list Z) : outcome reply :=
  if (length pdu <? 6)%nat then Ok ([0x90; 3], s, [])
  else
    addr ← get_u16 pdu 1;
    count ← get_u16 pdu 3;
    if (length pdu <? 6 + Z.to_nat count * 2)%nat then Ok ([0x90; 3], s, [])
    else
      m ← store_words pdu addr 0 (Z.to_nat count) (holding s);
      Ok ([0x10] ++ put_u16 (wrapu 16 addr) ++ put_u16 (wrapu 16 count),
          set_holding s m, notify srv [("holding", addr)]).

(** A read leaves the store and makes no callback. *)
Definition read_reply (s : RegisterStore) (r : outcome (list Z)) : outcome reply :=
  resp ← r; Ok (resp, s, []).

Definition handlePDU (srv : TCPServer) (s : RegisterStore) (pdu : list Z) : outcome reply :=
  match pdu with
  | [] => Ok ([0x81; 1], s, [])
  | fc :: _ =>
      if fc =? 1 then read_reply s (handleReadBits s pdu true)
      else if fc =? 2 then read_reply s (handleReadBits s pdu false)
      else if fc =? 3 then read_reply s (handleReadWords s pdu true)
      else if fc =? 4 then read_reply s (handleReadWords s pdu false)
      else if fc =? 5 then handleWriteSingleCoil srv s pdu
      else if fc =? 6 then handleWriteSingleRegister srv s pdu
      else if fc =? 0x0F then handleWriteMultipleCoils srv s pdu
      else if fc =? 0x10 then handleWriteMultipleRegisters srv s pdu
      else Ok ([Z.lor fc 0x80; 1], s, [])
  end.

(** ** The connection loop *)

Record ConnState := mkCS {
  csBuf : list Z;
  csStore : RegisterStore;
  csOut : list (list Z);
  csEvents : list event;
}.

Definition response_frame (txID reqUnitID : Z) (response : list Z) : list Z :=
  put_u16 txID ++ put_u16 0 ++ put_u16 (wrapu 16 (1 + Z.of_nat (length response)))
  ++ [reqUnitID] ++ response.

(** The frame loop of [handleConnection] on the buffered bytes. Every iteration
    consumes at least seven bytes, so a fuel of the buffer's length is enough. *)
Fixpoint serve (fuel : nat) (srv : TCPServer) (c : ConnState) : outcome ConnState :=
  match fuel with
  | O => Ok c
  | S fuel' =>
      let buf := csBuf c in
      if (length buf <? 7)%nat then Ok c
      else
        txID ← get_u16 buf 0;
        mbapLength ← get_u16 buf 4;
        let totalLen := 6 + mbapLength in
        if Z.of_nat (length buf) <? totalLen then Ok c
        else
          reqUnitID ← index buf 6;
          pdu0 ← make_bytes (totalLen - 7);
          src ← slice buf 7 (Z.to_nat totalLen);
          let pdu := copy_into pdu0 src in
          buf' ← slice buf (Z.to_nat totalLen) (length buf);
          if negb (reqUnitID =? unitID srv) && negb (reqUnitID =? 0) then
            serve fuel' srv (mkCS buf' (csStore c) (csOut c) (csEvents c))
          else
            '(response, s', evs) ← handlePDU srv (csStore c) pdu;
            serve fuel' srv (mkCS buf' s' (csOut c ++ [response_frame txID reqUnitID response])
              (csEvents c ++ evs))
  end.

(** Reads until the connection ends. *)
Fixpoint handleConnection (srv : TCPServer) (c : ConnState) (chunks : list (list Z)) : outcome ConnState :=
  match chunks with
  | [] => Ok c
  | chunk :: chunks' =>
      let buf := csBuf c ++ chunk in
      c' ← serve (length buf) srv (mkCS buf (csStore c) (csOut c) (csEvents c));
      handleConnection srv c' chunks'
  end.

(** ** The write callback (manager.go)

    The command published for a write, if any: the variable and its new value. *)
Section Manager.
Context `{FloatConv}.

Definition onWrite (store : RegisterStore) (fc : string) (address : Z) : outcome (option (string * value)) :=
  result ← ReadTypedValue store fc address;
  match result with
  | None => Ok None
  | Some r => if rWritable r then Ok (Some (VariableID r, Value r)) else Ok None
  end.
End Manager.

Example read_words_ex :
  let s := WriteHolding (WriteHolding NewRegisterStore 5 0x1234) 6 7 in
  handlePDU (mkServer 1 true) s (buildReadPDU 3 5 2)
  = Ok ([3; 4; 0x12; 0x34; 0; 7], s, []).
Proof. vm_compute. reflexivity. Qed.
Example read_bits_ex :
  let s := WriteCoil (WriteCoil NewRegisterStore 5 true) 14 true in
  handlePDU (mkServer 1 true) s (buildReadPDU 1 5 10) = Ok ([1; 2; 1; 2], s, []).
Proof. vm_compute. reflexivity. Qed.

(** ** Every request is answered *)

Lemma store_coils_ok pdu addr n : ∀ i m, ∃ m', store_coils pdu addr i n m = Ok m'.
Proof.
  induction n as [|n IH]; intros i m; [by eexists|]. cbn [store_coils].
  destruct (length pdu <=? 6 + i / 8)%nat eqn:Hl; [by eexists|].
  apply Nat.leb_gt in Hl. destruct (index_ok pdu (6 + i / 8) Hl) as (b & -> & _). apply IH.
Qed.

Lemma store_words_ok pdu addr n : ∀ i m, (6 + (i + n) * 2 ≤ length pdu)%nat →
  ∃ m', store_words pdu addr i n m = Ok m'.
Proof.
  induction n as [|n IH]; intros i m Hl; [by eexists|]. cbn [store_words].
  rewrite get_be_ok by lia. apply IH. lia.
Qed.

(** Where the bits go, below the header of two bytes. *)
Fixpoint fill_data (m : gmap Z bool) (addr : Z) (i n : nat) (data : list Z) : list Z :=
  match n with
  | O => data
  | S n' =>
      let data' :=
        if bit_at m (addr + Z.of_nat i)
        then alter (λ b, Z.lor b (Z.shiftl 1 (Z.of_nat (i mod 8)))) (i / 8)%nat data
        else data in
      fill_data m addr (S i) n' data'
  end.

Lemma fill_bits_header m addr n a b : ∀ i data,
  fill_bits m addr i n (a :: b :: data) = a :: b :: fill_data m addr i n data.
Proof.
  induction n as [|n IH]; intros i data; [done|]. cbn [fill_bits fill_data].
  rewrite <- IH. by destruct (bit_at m (addr + Z.of_nat i)).
Qed.

(** The two kinds of reply: a normal one repeats the function code, an exception sets
    its high bit, carries one code, and has changed nothing. *)
Definition well_formed_reply (fc : Z) (s : RegisterStore) (r : reply) : Prop :=
  let '(resp, s', evs) := r in
  (∃ data, resp = fc :: data) ∨ (∃ code, resp = [Z.lor fc 0x80; code] ∧ s' = s ∧ evs = []).

Ltac answer :=
  match goal with
  | |- context [index ?l ?i] =>
      let b := fresh "b" in destruct (index_ok l i) as (b & -> & _); [lia|]
  | |- context [get_be ?n ?l ?i] => rewrite (get_be_ok n l i) by lia
  end; cbn [mbind outcome_bind].

Lemma handlePDU_ok srv s fc rest :
  ∃ r, handlePDU srv s (fc :: rest) = Ok r ∧ well_formed_reply fc s r.
Proof.
  assert (Hbad : ∀ code, well_formed_reply fc s ([Z.lor fc 0x80; code], s, [])) by (intros; right; eauto).
  assert (Hfc : index (fc :: rest) 0 = Ok fc) by done.
  unfold handlePDU.
  assert (Hrb : ∀ b, ∃ r, read_reply s (handleReadBits s (fc :: rest) b) = Ok r ∧ well_formed_reply fc s r).
  { intros b. unfold handleReadBits, read_reply. rewrite Hfc. case_if; [eauto|].
    apply Nat.ltb_ge in E. cbn [mbind outcome_bind]. repeat answer. eexists; split; [done|]. left.
    rewrite fill_bits_header. eauto. }
  assert (Hrw : ∀ b, ∃ r, read_reply s (handleReadWords s (fc :: rest) b) = Ok r ∧ well_formed_reply fc s r).
  { intros b. unfold handleReadWords, read_reply. rewrite Hfc. case_if; [eauto|].
    apply Nat.ltb_ge in E. cbn [mbind outcome_bind]. repeat answer. eexists; split; [done|]. left. eauto. }
  destruct (fc =? 1); [by auto|]. destruct (fc =? 2); [by auto|].
  destruct (fc =? 3); [by auto|]. destruct (fc =? 4); [by auto|].
  destruct (Z.eqb_spec fc 5) as [->|].
  { unfold handleWriteSingleCoil. case_if; [eauto|]. apply Nat.ltb_ge in E. repeat answer.
    eexists; split; [done|]. left. by eexists. }
  destruct (Z.eqb_spec fc 6) as [->|].
  { unfold handleWriteSingleRegister. case_if; [eauto|]. apply Nat.ltb_ge in E. repeat answer.
    eexists; split; [done|]. left. by eexists. }
  destruct (Z.eqb_spec fc 15) as [->|].
  { unfold handleWriteMultipleCoils. case_if; [eauto|]. apply Nat.ltb_ge in E. repeat answer.
    case_if; [eauto|]. edestruct store_coils_ok as [m ->].
    eexists; split; [done|]. left. by eexists. }
  destruct (Z.eqb_spec fc 16) as [->|]; [|eauto].
  unfold handleWriteMultipleRegisters. case_if; [eauto|]. apply Nat.ltb_ge in E. repeat answer.
  case_if; [eauto|]. apply Nat.ltb_ge in E0. edestruct store_words_ok as [m ->]; [apply E0|].
  eexists; split; [done|]. left. by eexists.
Qed.

(** every request PDU is answered, whatever its bytes: the handlers never panic, a
    normal reply repeats the function code, and an exception reply leaves the register
    store untouched and makes no callback. *)
Theorem handlePDU_replies (srv : TCPServer) (s : RegisterStore) (fc : Z) (rest : list Z) :
  ∃ r, handlePDU srv s (fc :: rest) = Ok r ∧ well_formed_reply fc s r.
Proof. apply handlePDU_ok. Qed.

(** ** Framing *)

(** A request on the wire: transaction, unit and PDU. *)
Record request := mkReq { rqTx : Z; rqUnit : Z; rqPDU : list Z }.

Definition request_ok (r : request) : Prop :=
  in_u 16 (rqTx r) ∧ Z.of_nat (length (rqPDU r)) < 65535.

Definition wire (r : request) : list Z := encodeMBAPRequest (rqTx r) (rqUnit r) (rqPDU r).
Definition wires (rs : list request) : list Z := concat (map wire rs).

(** What one request does to the connection: requests for other units are skipped. *)
Definition answer_one (srv : TCPServer) (c : ConnState) (r : request) : ConnState :=
  if negb (rqUnit r =? unitID srv) && negb (rqUnit r =? 0) then c
  else
    match handlePDU srv (csStore c) (rqPDU r) with
    | Ok (response, s', evs) =>
        mkCS (csBuf c) s' (csOut c ++ [response_frame (rqTx r) (rqUnit r) response])
          (csEvents c ++ evs)
    | _ => c
    end.

Definition with_csbuf (c : ConnState) (buf : list Z) : ConnState :=
  mkCS buf (csStore c) (csOut c) (csEvents c).

Lemma handlePDU_total srv s pdu : ∃ r, handlePDU srv s pdu = Ok r.
Proof.
  destruct pdu as [|fc rest]; [by eexists|]. destruct (handlePDU_ok srv s fc rest) as (r & ? & _). eauto.
Qed.

Lemma length_wire r : length (wire r) = (7 + length (rqPDU r))%nat.
Proof. unfold wire, encodeMBAPRequest. autorewrite with go_len. cbn. lia. Qed.

(** Reading a header field needs only the bytes received so far. *)
Lemma get_be_prefix n (b t : list Z) off : (off + n ≤ length b)%nat →
  get_be n (b ++ t) off = get_be n b off.
Proof.
  intros Hl. rewrite !get_be_ok; [|done|rewrite length_app; lia]. f_equal. f_equal.
  rewrite drop_app_le by lia. rewrite take_app_le by (rewrite length_drop; lia). done.
Qed.

Lemma wire_fields r t : request_ok r →
  get_u16 (wire r ++ t) 0 = Ok (rqTx r)
  ∧ get_u16 (wire r ++ t) 4 = Ok (Z.of_nat (length (rqPDU r)) + 1)
  ∧ index (wire r ++ t) 6 = Ok (rqUnit r)
  ∧ slice (wire r ++ t) 7 (7 + length (rqPDU r)) = Ok (rqPDU r)
  ∧ slice (wire r ++ t) (7 + length (rqPDU r)) (length (wire r ++ t)) = Ok t.
Proof.
  destruct r as [tx u pdu]. unfold request_ok, wire, encodeMBAPRequest, in_u. cbn [rqTx rqUnit rqPDU].
  intros [Htx Hl]. unfold wrapu. rewrite (Z.mod_small (_ + 1)) by lia.
  set (len := Z.of_nat (length pdu) + 1). rewrite <- !app_assoc. split_and!.
  - etransitivity; [by apply (get_be_app 2 [] tx)|]. f_equal. by apply Z.mod_small.
  - rewrite app_assoc. etransitivity; [by apply (get_be_app 2 (put_u16 tx ++ put_u16 0) len)|].
    f_equal. apply Z.mod_small. lia.
  - rewrite !app_assoc. rewrite <- (app_assoc _ [u]), <- app_assoc.
    by apply (index_app_length ((put_u16 tx ++ put_u16 0) ++ put_u16 len) u (pdu ++ t)).
  - rewrite !app_assoc. rewrite <- (app_assoc _ pdu t). apply slice_app; autorewrite with go_len; done.
  - rewrite !app_assoc. rewrite slice_ok; [|autorewrite with go_len; cbn; lia|lia].
    set (w := (((put_u16 tx ++ put_u16 0) ++ put_u16 len) ++ [u]) ++ pdu).
    assert (Hw : length w = (7 + length pdu)%nat) by (subst w; autorewrite with go_len; cbn; lia).
    rewrite <- Hw, drop_app_length. f_equal. apply take_ge. rewrite length_app. lia.
Qed.

Lemma serve_request fuel srv c r t : request_ok r → csBuf c = wire r ++ t →
  serve (S fuel) srv c = serve fuel srv (answer_one srv (with_csbuf c t) r).
Proof.
  intros Hr Hb. destruct (wire_fields r t Hr) as (H0 & H4 & H6 & H7 & Ht).
  cbn [serve]. rewrite Hb. pose proof (length_wire r) as Hlw. rewrite H0, H4, H6. cbn [mbind outcome_bind].
  rewrite (proj2 (Nat.ltb_ge _ _)) by (rewrite length_app; lia).
  rewrite (proj2 (Z.ltb_ge _ _)) by (rewrite length_app; lia).
  unfold make_bytes. rewrite (proj2 (Z.leb_le _ _)) by lia. cbn [mbind outcome_bind].
  replace (Z.to_nat (6 + (Z.of_nat (length (rqPDU r)) + 1))) with (7 + length (rqPDU r))%nat by lia.
  rewrite H7, Ht. cbn [mbind outcome_bind]. unfold answer_one.
  destruct (negb (rqUnit r =? unitID srv) && negb (rqUnit r =? 0)); [done|].
  rewrite copy_into_same by (rewrite length_replicate; lia).
  cbn [csStore with_csbuf]. destruct (handlePDU_total srv (csStore c) (rqPDU r)) as [[[resp s'] evs] ->].
  done.
Qed.

(** With less than a frame in the buffer the loop waits. *)
Lemma serve_partial fuel srv c r t b : request_ok r → csBuf c ++ b = wire r ++ t →
  (length (csBuf c) < length (wire r))%nat → serve fuel srv c = Ok c.
Proof.
  intros Hr Hb Hl. destruct fuel as [|fuel]; [done|]. cbn [serve].
  destruct (Nat.ltb_spec (length (csBuf c)) 7) as [|H7]; [done|].
  destruct (wire_fields r t Hr) as (_ & H4 & _). rewrite <- Hb, get_be_prefix in H4 by lia.
  rewrite (get_be_ok 2 _ 0), H4 by lia. cbn [mbind outcome_bind].
  rewrite (proj2 (Z.ltb_lt _ _)); [done|]. rewrite length_wire in Hl. lia.
Qed.

Lemma serve_stream srv rs : Forall request_ok rs → ∀ fuel c t,
  csBuf c ++ t = wires rs → (length (csBuf c) ≤ fuel)%nat →
  ∃ rs1 rs2 p, rs = rs1 ++ rs2 ∧ p ++ t = wires rs2 ∧ (t = [] → p = [] ∧ rs2 = [])
    ∧ serve fuel srv c = Ok (with_csbuf (fold_left (answer_one srv) rs1 c) p).
Proof.
  assert (Hbuf : ∀ r c b, answer_one srv (with_csbuf c b) r = with_csbuf (answer_one srv c r) b).
  { intros r c b. unfold answer_one. case_if; [done|]. cbn [csStore with_csbuf].
    by destruct (handlePDU_total srv (csStore c) (rqPDU r)) as [[[? ?] ?] ->]. }
  induction 1 as [|r rs Hr Hrs IH]; intros fuel c t Hb Hf.
  - apply app_nil in Hb as [Hb ->]. exists [], [], []. split_and!; try done.
    destruct fuel; cbn; [|rewrite Hb; cbn]; by destruct c; cbn in Hb; subst.
  - change (wires (r :: rs)) with (wire r ++ wires rs) in Hb.
    destruct (decide (length (csBuf c) < length (wire r))%nat) as [Hlt|Hge].
    + exists [], (r :: rs), (csBuf c). split_and!; [done|done| |].
      * intros ->. rewrite app_nil_r in Hb. rewrite Hb, length_app in Hlt. lia.
      * rewrite (serve_partial fuel srv c r (wires rs) t) by done. by destruct c.
    + assert (∃ b, csBuf c = wire r ++ b ∧ b ++ t = wires rs) as (b & Hc & Hbt).
      { apply app_eq_inv in Hb as [(k & E1 & E2)|(k & E1 & E2)].
        - exists k. split; [done|]. done.
        - exists []. assert (k = []) as ->.
          { apply (f_equal length) in E1. rewrite length_app in E1. destruct k; [done|cbn [length] in E1; lia]. }
          rewrite app_nil_r in E1 |- *. by rewrite E2. }
      rewrite Hc, length_app, length_wire in Hf. destruct fuel as [|fuel]; [lia|].
      rewrite (serve_request fuel srv c r b Hr Hc), Hbuf.
      destruct (IH fuel (with_csbuf (answer_one srv c r) b) t) as (rs1 & rs2 & p & -> & Hp & Ht & Hs);
        [done|cbn; lia|].
      exists (r :: rs1), rs2, p. split_and!; [done..|]. rewrite Hs. cbn [fold_left].
      f_equal. clear -Hbuf. generalize (answer_one srv c r) as c0. intros c0.
      revert c0. induction rs1 as [|r1 rs1 IH]; intros c0; [done|]. cbn [fold_left].
      by rewrite Hbuf, IH.
Qed.

Lemma answer_one_buf srv c b r :
  answer_one srv (with_csbuf c b) r = with_csbuf (answer_one srv c r) b.
Proof.
  unfold answer_one. case_if; [done|]. cbn [csStore with_csbuf].
  by destruct (handlePDU_total srv (csStore c) (rqPDU r)) as [[[? ?] ?] ->].
Qed.

Lemma answer_buf srv rs b : ∀ c,
  fold_left (answer_one srv) rs (with_csbuf c b) = with_csbuf (fold_left (answer_one srv) rs c) b.
Proof.
  induction rs as [|r rs IH]; intros c; [done|]. cbn [fold_left]. by rewrite answer_one_buf, IH.
Qed.

Lemma connection_stream srv chunks : ∀ c rs, Forall request_ok rs →
  csBuf c ++ concat chunks = wires rs → (concat chunks = [] → csBuf c = []) →
  handleConnection srv c chunks = Ok (with_csbuf (fold_left (answer_one srv) rs c) []).
Proof.
  induction chunks as [|chunk chunks IH]; intros c rs Hrs Hb He.
  - specialize (He eq_refl). cbn in Hb. rewrite He in Hb. cbn in Hb.
    destruct rs as [|r rs].
    + cbn. destruct c. cbn in He. by subst.
    + apply (f_equal length) in Hb. change (wires (r :: rs)) with (wire r ++ wires rs) in Hb.
      rewrite length_app, length_wire in Hb. cbn in Hb. lia.
  - cbn [handleConnection]. cbn [concat] in Hb. rewrite app_assoc in Hb.
    destruct (serve_stream srv rs Hrs (length (csBuf c ++ chunk)) (with_csbuf c (csBuf c ++ chunk))
      (concat chunks)) as (rs1 & rs2 & p & -> & Hp & Ht & Hs); [done|done|].
    unfold with_csbuf in Hs at 1. rewrite Hs. cbn [mbind outcome_bind].
    apply Forall_app in Hrs as [_ Hrs2]. rewrite answer_buf.
    rewrite (IH _ rs2 Hrs2); [|done|by intros [? _]%Ht].
    f_equal. rewrite fold_left_app. change (with_csbuf (with_csbuf ?c ?a) ?b) with (with_csbuf c b).
    by rewrite answer_buf.
Qed.

(** C1: the server answers the requests on a connection one by one and in order, each on
    the store its predecessors left, however TCP cuts the bytes into reads: nothing is
    lost, answered twice or left in the buffer, and requests for other units get no
    answer. *)
Theorem connection_serves_requests (srv : TCPServer) (s : RegisterStore) (rs : list request)
    (chunks : list (list Z)) :
  Forall request_ok rs → concat chunks = wires rs →
  handleConnection srv (mkCS [] s [] []) chunks
  = Ok (fold_left (answer_one srv) rs (mkCS [] s [] [])).
Proof.
  intros Hrs Hc. rewrite (connection_stream srv chunks _ rs Hrs) by done.
  f_equal. rewrite <- answer_buf. done.
Qed.

Lemma serve_zero_length fuel srv c tx proto unit rest :
  csBuf c = put_u16 tx ++ put_u16 proto ++ put_u16 0 ++ unit :: rest →
  serve (S fuel) srv c = Panic.
Proof.
  intros Hb. cbn [serve]. rewrite Hb.
  rewrite (proj2 (Nat.ltb_ge _ _)) by (autorewrite with go_len; cbn [length]; lia).
  rewrite (get_be_ok 2 _ 0) by (autorewrite with go_len; cbn [length]; lia).
  assert (H4 : get_u16 (put_u16 tx ++ put_u16 proto ++ put_u16 0 ++ unit :: rest) 4 = Ok 0).
  { rewrite app_assoc. by apply (get_be_app 2 (put_u16 tx ++ put_u16 proto) 0). }
  assert (H6 : index (put_u16 tx ++ put_u16 proto ++ put_u16 0 ++ unit :: rest) 6 = Ok unit)
    by by apply (index_app_length (put_u16 tx ++ put_u16 proto ++ put_u16 0) unit rest).
  rewrite H4, H6. cbn [mbind outcome_bind].
  rewrite (proj2 (Z.ltb_ge _ _)) by (autorewrite with go_len; cbn [length]; lia). done.
Qed.

(** a seven-byte header whose length field is zero brings the server down: the
    length of the request to allocate becomes minus one. No valid request has to
    precede it, and no unit has to match. *)
Theorem zero_length_panics (srv : TCPServer) (s : RegisterStore) (tx proto unit : Z)
    (rest : list Z) (chunks : list (list Z)) :
  handleConnection srv (mkCS [] s [] [])
    ((put_u16 tx ++ put_u16 proto ++ put_u16 0 ++ unit :: rest) :: chunks) = Panic.
Proof.
  set (b := put_u16 tx ++ put_u16 proto ++ put_u16 0 ++ unit :: rest).
  change (handleConnection srv (mkCS [] s [] []) (b :: chunks)) with
    (c' ← serve (length b) srv (mkCS b s [] []); handleConnection srv c' chunks).
  assert (Hl : length b = S (6 + length rest))
    by (subst b; autorewrite with go_len; cbn [length]; lia).
  rewrite Hl, (serve_zero_length _ srv (mkCS b s [] []) tx proto unit rest) by done. done.
Qed.

(** ** Registers: what was written is what is read *)

Lemma store_words_put pdu addr n : ∀ i m, (6 + (i + n) * 2 ≤ length pdu)%nat →
  store_words pdu addr i n m = Ok (put_words m (addr + Z.of_nat i) (be_words n (drop (6 + i * 2) pdu))).
Proof.
  induction n as [|n IH]; intros i m Hl; [done|]. cbn [store_words be_words put_words].
  rewrite get_be_ok by lia. cbn [mbind outcome_bind]. rewrite IH by lia.
  rewrite drop_drop. do 2 f_equal; [lia|]. do 2 f_equal. lia.
Qed.

Lemma length_be_words n bs : length (be_words n bs) = n.
Proof. revert bs. induction n as [|n IH]; intros bs; [done|]. cbn. by rewrite IH. Qed.

Lemma put_be_words n bs : is_bytes bs → length bs = (2 * n)%nat →
  concat (map put_u16 (be_words n bs)) = bs.
Proof.
  intros Hb Hl. rewrite be_words_words_of by done. apply put_words_of; [done|].
  by rewrite Hl, Nat.even_mul.
Qed.

(** A request header: function code, and two big-endian numbers. *)
Lemma pdu_header fc a n rest : in_u 16 a → in_u 16 n →
  let pdu := [fc] ++ put_u16 a ++ put_u16 n ++ rest in
  get_u16 pdu 1 = Ok a ∧ get_u16 pdu 3 = Ok n ∧ index pdu 0 = Ok fc
  ∧ length pdu = (5 + length rest)%nat.
Proof.
  intros Ha Hn. cbn zeta. split_and!; [| |done|autorewrite with go_len; cbn; lia].
  - etransitivity; [by apply (get_be_app 2 [fc] a)|]. f_equal. by apply Z.mod_small.
  - rewrite app_assoc. etransitivity; [by apply (get_be_app 2 ([fc] ++ put_u16 a) n)|].
    f_equal. by apply Z.mod_small.
Qed.

Lemma handle_read_words srv s addr n (isHolding : bool) : in_u 16 addr → in_u 16 n →
  handlePDU srv s (buildReadPDU (if isHolding then 3 else 4) addr n) =
  Ok ((if isHolding then 3 else 4) :: wrapu 8 (n * 2) ::
    concat (map put_u16 (get_words (if isHolding then holding s else input s) addr (Z.to_nat n))), s, []).
Proof.
  intros Ha Hn. pose proof (pdu_header (if isHolding then 3 else 4) addr n [] Ha Hn) as H.
  cbn zeta in H. rewrite app_nil_r in H. destruct H as (H1 & H3 & H0 & Hl).
  unfold buildReadPDU. unfold handlePDU.
  assert (Hw : handleReadWords s ([if isHolding then 3 else 4] ++ put_u16 addr ++ put_u16 n) isHolding
    = Ok ((if isHolding then 3 else 4) :: wrapu 8 (n * 2) ::
    concat (map put_u16 (get_words (if isHolding then holding s else input s) addr (Z.to_nat n))))).
  { unfold handleReadWords. rewrite (proj2 (Nat.ltb_ge _ _)) by (rewrite Hl; lia).
    by rewrite H0, H1, H3. }
  destruct isHolding; cbn [app Z.eqb Pos.eqb] in *; unfold read_reply; by rewrite Hw.
Qed.

Lemma handle_write_words srv s addr values n : in_u 16 addr →
  length values = (2 * n)%nat → Z.of_nat n < 65536 →
  handlePDU srv s (buildWriteMultipleRegistersPDU addr values) =
  Ok ([16] ++ put_u16 addr ++ put_u16 (Z.of_nat n),
    set_holding s (put_words (holding s) addr (be_words n values)), notify srv [("holding", addr)]).
Proof.
  intros Ha Hl Hn. unfold buildWriteMultipleRegistersPDU.
  replace (length values / 2)%nat with n by (rewrite Hl, Nat.mul_comm, Nat.div_mul; lia).
  assert (Hn16 : in_u 16 (Z.of_nat n)) by (unfold in_u; lia).
  rewrite (wrapu_small 16 (Z.of_nat n)) by done. cbn zeta.
  destruct (pdu_header 16 addr (Z.of_nat n) ([wrapu 8 (Z.of_nat (length values))] ++ values) Ha Hn16)
    as (H1 & H3 & _ & Hlen).
  set (pdu := [16] ++ put_u16 addr ++ _) in *.
  change (handlePDU srv s pdu) with (handleWriteMultipleRegisters srv s pdu).
  rewrite length_app in Hlen. cbn [length] in Hlen.
  unfold handleWriteMultipleRegisters. rewrite H1, H3.
  rewrite (proj2 (Nat.ltb_ge _ _)) by lia. cbn [mbind outcome_bind]. rewrite Nat2Z.id.
  rewrite (proj2 (Nat.ltb_ge _ _)) by lia. rewrite store_words_put by lia.
  cbn [mbind outcome_bind]. rewrite !wrapu_small by done. rewrite Z.add_0_r. done.
Qed.

(** end to end: the registers a client writes with function 16 are acknowledged, and
    reading them back with function 3 returns the bytes written, in a response from
    which the client extracts exactly those bytes; no other register changes. Up to 127
    registers, where the one-byte count still holds the number of bytes. *)
Theorem write_then_read_registers (srv : TCPServer) (s : RegisterStore) (addr : Z)
    (values : list Z) (n : nat) (txn unit : Z) :
  in_u 16 addr → is_bytes values → length values = (2 * n)%nat → (n ≤ 127)%nat →
  ∃ s', handlePDU srv s (buildWriteMultipleRegistersPDU addr values)
      = Ok ([16] ++ put_u16 addr ++ put_u16 (Z.of_nat n), s', notify srv [("holding", addr)])
    ∧ handlePDU srv s' (buildReadPDU 3 addr (Z.of_nat n))
      = Ok (3 :: Z.of_nat (length values) :: values, s', [])
    ∧ payload (mkFrame txn 0 unit 3 (Z.of_nat (length values) :: values)) = Ok values
    ∧ ∀ a, a < addr ∨ addr + Z.of_nat n ≤ a → ReadHolding s' a = ReadHolding s a.
Proof.
  intros Ha Hb Hl Hn. eexists; split_and!.
  - apply handle_write_words; [done|done|lia].
  - rewrite (handle_read_words srv _ addr (Z.of_nat n) true) by (unfold in_u in *; lia).
    rewrite Nat2Z.id. cbn [holding set_holding].
    pose proof (get_put_words (holding s) addr (be_words n values)) as Hg.
    rewrite length_be_words in Hg. rewrite Hg, put_be_words by done.
    rewrite wrapu_small by (unfold in_u; lia).
    by replace (Z.of_nat n * 2) with (Z.of_nat (length values)) by lia.
  - unfold payload. cbn [Data]. rewrite Nat2Z.id.
    rewrite (proj2 (Nat.ltb_ge _ _)) by (cbn [length]; lia).
    rewrite slice_ok; [|lia|cbn [length]; lia]. f_equal.
    replace (1 + length values - 1)%nat with (length values) by lia. by apply firstn_all2.
  - intros a Hout. unfold ReadHolding. cbn [holding set_holding].
    apply word_at_outside. by rewrite length_be_words.
Qed.

(** ** Coils *)

Lemma testbit_land_shift b k : 0 ≤ k → negb (Z.land b (Z.shiftl 1 k) =? 0) = Z.testbit b k.
Proof.
  intros Hk. destruct (Z.testbit b k) eqn:Hb.
  - apply negb_true_iff, Z.eqb_neq. intros H0. apply (f_equal (λ z, Z.testbit z k)) in H0.
    rewrite Z.land_spec, Hb, Z.shiftl_spec, Z.sub_diag, Z.bits_0 in H0 by lia. done.
  - apply negb_false_iff, Z.eqb_eq. apply Z.bits_inj'. intros i Hi.
    rewrite Z.land_spec, Z.shiftl_spec, Z.bits_0 by lia.
    destruct (Z.eq_dec i k) as [->|Hne]; [by rewrite Hb|].
    destruct (Z.ltb_spec i k).
    + rewrite (Z.testbit_neg_r 1) by lia. apply andb_false_r.
    + change 1 with (2 ^ 0). rewrite Z.pow2_bits_false by lia. apply andb_false_r.
Qed.

Lemma testbit_shift_land b k : 0 ≤ k → (Z.land (Z.shiftr b k) 1 =? 1) = Z.testbit b k.
Proof.
  intros Hk. change 1 with (Z.ones 1) at 1. rewrite Z.land_ones by lia.
  change (2 ^ 1) with 2. by rewrite <- Z.bit0_eqb, Z.shiftr_spec, Z.add_0_l by lia.
Qed.

Lemma length_fill_data m addr n : ∀ i data, length (fill_data m addr i n data) = length data.
Proof.
  induction n as [|n IH]; intros i data; [done|]. cbn [fill_data]. rewrite IH.
  case_if; [apply length_alter|done].
Qed.

Lemma index_divmod (i k b : nat) : (b < 8)%nat → (i = 8 * k + b)%nat → (i / 8 = k)%nat ∧ (i mod 8 = b)%nat.
Proof.
  intros Hb ->. rewrite Nat.mul_comm. split.
  - rewrite Nat.div_add_l, Nat.div_small by lia. lia.
  - rewrite Nat.add_comm, Nat.Div0.mod_add, Nat.mod_small by lia. done.
Qed.

(** The bits of the response data: byte [k], bit [b] is coil [addr + 8 k + b]. *)
Lemma fill_data_spec m addr n : ∀ i data k (b : nat), (b < 8)%nat → (k < length data)%nat →
  ∃ old new, data !! k = Some old ∧ fill_data m addr i n data !! k = Some new
    ∧ Z.testbit new (Z.of_nat b) = Z.testbit old (Z.of_nat b)
      || (bool_decide (i ≤ 8 * k + b < i + n)%nat && bit_at m (addr + Z.of_nat (8 * k + b))).
Proof.
  induction n as [|n IH]; intros i data k b Hb Hk.
  - destruct (lookup_lt_is_Some_2 data k Hk) as [old Ho]. exists old, old.
    rewrite bool_decide_eq_false_2 by lia. by rewrite orb_false_r.
  - cbn [fill_data]. destruct (lookup_lt_is_Some_2 data k Hk) as [old Ho].
    set (data' := if bit_at m (addr + Z.of_nat i) then _ else data).
    assert (Hl : length data' = length data) by (subst data'; case_if; [apply length_alter|done]).
    destruct (IH (S i) data' k b Hb ltac:(lia)) as (mid & new & Hm & Hn & Ht).
    exists old, new. split_and!; [done|done|]. rewrite Ht.
    assert (Hmid : Z.testbit mid (Z.of_nat b) = Z.testbit old (Z.of_nat b)
      || (bool_decide (i = 8 * k + b)%nat && bit_at m (addr + Z.of_nat i))).
    { subst data'. destruct (bit_at m (addr + Z.of_nat i)) eqn:Hbit.
      - rewrite andb_true_r. destruct (decide (i / 8 = k)%nat) as [Hik|Hik].
        + subst k. rewrite list_lookup_alter_eq, Ho in Hm. apply (inj Some) in Hm as <-.
          rewrite Z.lor_spec. f_equal. rewrite Z.shiftl_1_l, Z.pow2_bits_eqb by lia.
          pose proof (Nat.div_mod_eq i 8).
          destruct (Z.eqb_spec (Z.of_nat (i mod 8)) (Z.of_nat b));
            [rewrite bool_decide_eq_true_2|rewrite bool_decide_eq_false_2]; lia || done.
        + rewrite list_lookup_alter_ne in Hm by done. rewrite Ho in Hm. injection Hm as ->.
          rewrite bool_decide_eq_false_2; [by rewrite orb_false_r|].
          intros ->. by destruct (index_divmod (8 * k + b) k b Hb eq_refl).
      - rewrite andb_false_r, orb_false_r. congruence. }
    rewrite Hmid, <- orb_assoc. f_equal.
    destruct (decide (i = 8 * k + b)%nat) as [->|Hne].
    + rewrite (bool_decide_eq_true_2 (_ = _)) by done. rewrite (bool_decide_eq_true_2 (_ ≤ _ < _ + S n)%nat) by lia.
      rewrite (bool_decide_eq_false_2 (S _ ≤ _ < _)%nat) by lia. by rewrite orb_false_r.
    + rewrite (bool_decide_eq_false_2 (_ = _)) by done. cbn [andb orb]. f_equal.
      apply bool_decide_ext. lia.
Qed.

Lemma handle_read_bits srv s addr n (isCoil : bool) : in_u 16 addr → in_u 16 n →
  handlePDU srv s (buildReadPDU (if isCoil then 1 else 2) addr n) =
  Ok ((if isCoil then 1 else 2) :: wrapu 8 ((n + 7) / 8) ::
    fill_data (if isCoil then coils s else discretes s) addr 0 (Z.to_nat n)
      (replicate (Z.to_nat ((n + 7) / 8)) 0), s, []).
Proof.
  intros Ha Hn. pose proof (pdu_header (if isCoil then 1 else 2) addr n [] Ha Hn) as H.
  cbn zeta in H. rewrite app_nil_r in H. destruct H as (H1 & H3 & H0 & Hl).
  unfold buildReadPDU. unfold handlePDU.
  assert (Hw : handleReadBits s ([if isCoil then 1 else 2] ++ put_u16 addr ++ put_u16 n) isCoil
    = Ok ((if isCoil then 1 else 2) :: wrapu 8 ((n + 7) / 8) ::
    fill_data (if isCoil then coils s else discretes s) addr 0 (Z.to_nat n)
      (replicate (Z.to_nat ((n + 7) / 8)) 0))).
  { unfold handleReadBits. rewrite (proj2 (Nat.ltb_ge _ _)) by (rewrite Hl; lia).
    rewrite H0, H1, H3. cbn [mbind outcome_bind]. by rewrite fill_bits_header. }
  destruct isCoil; cbn [app Z.eqb Pos.eqb] in *; unfold read_reply; by rewrite Hw.
Qed.

(** the packed bits the server sends for a range of coils or discrete inputs are
    unpacked by the client to the stored states, each at its own offset; the response is
    one the client's length check accepts. Up to 2040 points, where the one-byte count
    still holds the number of bytes. *)
Theorem read_bits_unpacked (srv : TCPServer) (s : RegisterStore) (addr : Z) (n : nat)
    (isCoil : bool) (txn unit : Z) :
  in_u 16 addr → (1 ≤ n ≤ 2040)%nat →
  ∃ bits,
    handlePDU srv s (buildReadPDU (if isCoil then 1 else 2) addr (Z.of_nat n))
      = Ok ((if isCoil then 1 else 2) :: Z.of_nat (length bits) :: bits, s, [])
    ∧ payload (mkFrame txn 0 unit (if isCoil then 1 else 2) (Z.of_nat (length bits) :: bits)) = Ok bits
    ∧ ∀ j, (j < n)%nat → decodeBoolFromCoils bits j
      = Ok (bit_at (if isCoil then coils s else discretes s) (addr + Z.of_nat j)).
Proof.
  intros Ha Hn. set (m := if isCoil then coils s else discretes s).
  set (bc := Z.to_nat ((Z.of_nat n + 7) / 8)).
  assert (Hbc : (n ≤ 8 * bc ∧ bc ≤ 255)%nat).
  { subst bc. pose proof (Z.div_mod (Z.of_nat n + 7) 8). pose proof (Z.mod_pos_bound (Z.of_nat n + 7) 8). lia. }
  set (bits := fill_data m addr 0 n (replicate bc 0)).
  assert (Hlen : length bits = bc) by (subst bits; by rewrite length_fill_data, length_replicate).
  exists bits. split_and!.
  - rewrite handle_read_bits by (unfold in_u in *; lia). rewrite Nat2Z.id.
    rewrite wrapu_small by (unfold in_u; subst bc; lia). rewrite Hlen. fold m bc.
    replace ((Z.of_nat n + 7) / 8) with (Z.of_nat bc); [done|].
    subst bc. rewrite Z2Nat.id; [done|]. apply Z.div_pos; lia.
  - unfold payload. cbn [Data]. rewrite Nat2Z.id.
    rewrite (proj2 (Nat.ltb_ge _ _)) by (cbn [length]; lia).
    rewrite slice_ok; [|lia|cbn [length]; lia]. f_equal.
    replace (1 + length bits - 1)%nat with (length bits) by lia. by apply firstn_all2.
  - intros j Hj. unfold decodeBoolFromCoils. pose proof (Nat.div_mod_eq j 8) as Hdm.
    pose proof (Nat.mod_upper_bound j 8 ltac:(lia)) as Hmod.
    rewrite (proj2 (Nat.leb_gt _ _)) by lia.
    destruct (fill_data_spec m addr n 0 (replicate bc 0) (j / 8) (j mod 8) Hmod) as (old & new & Ho & Hnew & Ht);
      [rewrite length_replicate; lia|].
    unfold index, bits. rewrite Hnew. cbn [mbind outcome_bind]. rewrite testbit_land_shift by lia.
    rewrite Ht, <- Hdm. apply lookup_replicate in Ho as [-> _]. rewrite Z.testbit_0_l.
    rewrite bool_decide_eq_true_2 by lia. done.
Qed.

(** Coil [j] of the packed data of a write request. *)
Definition coil_bit (data : list Z) (j : nat) : bool :=
  match data !! (j / 8)%nat with
  | Some b => Z.testbit b (Z.of_nat (j mod 8))
  | None => false
  end.

Lemma store_coils_spec hdr data addr n : length hdr = 6%nat → ∀ i m,
  ∃ m', store_coils (hdr ++ data) addr i n m = Ok m'
    ∧ ∀ a, bit_at m' a =
      if decide (addr + Z.of_nat i ≤ a < addr + Z.of_nat (i + n) ∧ a < addr + 8 * Z.of_nat (length data))
      then coil_bit data (Z.to_nat (a - addr)) else bit_at m a.
Proof.
  intros Hh. induction n as [|n IH]; intros i m.
  - exists m. split; [done|]. intros a. by rewrite decide_False by lia.
  - cbn [store_coils]. rewrite length_app, Hh. pose proof (Nat.div_mod_eq i 8) as Hdm.
    pose proof (Nat.mod_upper_bound i 8 ltac:(lia)) as Hmod.
    destruct (Nat.leb_spec (6 + length data) (6 + i / 8)) as [Hle|Hgt].
    + exists m. split; [done|]. intros a. by rewrite decide_False by lia.
    + destruct (lookup_lt_is_Some_2 data (i / 8)) as [b Hb]; [lia|].
      assert (Hi : index (hdr ++ data) (6 + i / 8) = Ok b).
      { unfold index. rewrite lookup_app_r by lia.
        replace (6 + i / 8 - length hdr)%nat with (i / 8)%nat by lia. by rewrite Hb. }
      rewrite Hi. cbn [mbind outcome_bind]. rewrite testbit_shift_land by lia.
      destruct (IH (S i) (<[addr + Z.of_nat i := Z.testbit b (Z.of_nat (i mod 8))]> m)) as (m' & -> & Hm').
      exists m'. split; [done|]. intros a. rewrite Hm', bit_at_insert.
      destruct (decide (a = addr + Z.of_nat i)) as [->|Hne].
      * rewrite decide_False by lia. rewrite decide_True by lia.
        replace (Z.to_nat (addr + Z.of_nat i - addr)) with i by lia. unfold coil_bit. by rewrite Hb.
      * apply decide_ext. lia.
Qed.

(** function 15 stores coil by coil what the packed data says, for the coils the
    data covers, and leaves every other coil alone; but the acknowledgement and the
    callbacks always claim all [count] coils, also those past the end of the data. *)
Theorem write_coils_spec (srv : TCPServer) (s : RegisterStore) (addr count : Z) (data : list Z) :
  in_u 16 addr → in_u 16 count → (length data ≤ 255)%nat →
  ∃ s',
    handlePDU srv s ([15] ++ put_u16 addr ++ put_u16 count ++ [Z.of_nat (length data)] ++ data)
      = Ok ([15] ++ put_u16 addr ++ put_u16 count, s',
            notify srv (map (λ i, ("coil", addr + Z.of_nat i)) (seq 0 (Z.to_nat count))))
    ∧ ∀ a, ReadCoil s' a =
      if decide (addr ≤ a < addr + count ∧ a < addr + 8 * Z.of_nat (length data))
      then coil_bit data (Z.to_nat (a - addr)) else ReadCoil s a.
Proof.
  intros Ha Hc Hl.
  destruct (pdu_header 15 addr count ([Z.of_nat (length data)] ++ data) Ha Hc) as (H1 & H3 & _ & Hlen).
  set (hdr := [15] ++ put_u16 addr ++ put_u16 count ++ [Z.of_nat (length data)]).
  assert (Hpdu : [15] ++ put_u16 addr ++ put_u16 count ++ [Z.of_nat (length data)] ++ data = hdr ++ data)
    by (subst hdr; by rewrite <- !app_assoc).
  assert (Hh : length hdr = 6%nat) by done.
  destruct (store_coils_spec hdr data addr (Z.to_nat count) Hh 0 (coils s)) as (m & Hm & Hspec).
  exists (set_coils s m). rewrite Hpdu in *. clear Hpdu.
  change (handlePDU srv s (hdr ++ data)) with (handleWriteMultipleCoils srv s (hdr ++ data)).
  unfold in_u in *. split.
  - unfold handleWriteMultipleCoils. rewrite H1, H3.
    assert (H5 : index (hdr ++ data) 5 = Ok (Z.of_nat (length data))) by done.
    rewrite H5. rewrite length_app, Hh. rewrite (proj2 (Nat.ltb_ge _ _)) by lia.
    cbn [mbind outcome_bind]. rewrite Nat2Z.id. rewrite (proj2 (Nat.ltb_ge _ _)) by lia.
    rewrite Hm. cbn [mbind outcome_bind]. by rewrite !wrapu_small.
  - intros a. unfold ReadCoil. cbn [coils set_coils]. rewrite Hspec. apply decide_ext. lia.
Qed.

(** ** Writes to a read-only tag *)

Section ReadOnly.
Context `{FloatConv}.

Lemma arrangeWords_length ws order : length (arrangeWords ws order) = length ws.
Proof.
  assert (Hr : length (concat (map word_bytes ws)) = (2 * length ws)%nat).
  { induction ws as [|w ws IH]; [done|]. cbn [map concat]. rewrite length_app, IH. cbn [length word_bytes]. lia. }
  unfold arrangeWords. repeat case_if; try done; apply length_words_of; rewrite <- Hr.
  - apply length_rev.
  - apply swap_pairs_length.
  - apply swap_quads_spec.
Qed.

Lemma decodeFromRegisters_total ws dt order : length ws = registerCount dt →
  ∃ v, decodeFromRegisters ws dt order = Ok v.
Proof.
  intros Hl. pose proof (registerCount_range dt) as Hr.
  assert (Hraw : length (concat (map put_u16 (arrangeWords ws order))) = (2 * registerCount dt)%nat)
    by by rewrite length_put_words, arrangeWords_length, Hl.
  unfold decodeFromRegisters. cbn zeta. set (raw := concat _) in *. clearbody raw.
  unfold registerCount in *.
  destruct (String.eqb dt "boolean"); cbn [orb] in *.
  { destruct (index_ok ws 0 ltac:(lia)) as (w & -> & _). by eexists. }
  destruct (String.eqb dt "int16"); cbn [orb] in *; [rewrite get_be_ok by lia; by eexists|].
  destruct (String.eqb dt "uint16"); cbn [orb] in *; [rewrite get_be_ok by lia; by eexists|].
  destruct (String.eqb dt "int32"); cbn [orb] in *; [rewrite get_be_ok by lia; by eexists|].
  destruct (String.eqb dt "uint32"); cbn [orb] in *; [rewrite get_be_ok by lia; by eexists|].
  destruct (String.eqb dt "float32"); cbn [orb] in *; [rewrite get_be_ok by lia; by eexists|].
  destruct (String.eqb dt "float64"); cbn [orb] in *; rewrite get_be_ok by lia; by eexists.
Qed.

(** A mapped tag is decoded without a panic. *)
Lemma ReadTypedValue_total s fc a tag : tagsByAddress s !! fcAddressKey fc a = Some tag →
  ∃ v, ReadTypedValue s fc a = Ok (Some (mkResult (ID tag) v (Writable tag))).
Proof.
  intros Ht. unfold ReadTypedValue. rewrite Ht. case_if; [by eexists|].
  set (ws := get_words _ _ _).
  destruct (decodeFromRegisters_total ws (Datatype tag) (default_order tag)) as [v ->]; [|by eexists].
  unfold ws, get_words. by rewrite length_map, length_seq.
Qed.

Lemma handle_write_single srv s addr v : in_u 16 addr → in_u 16 v →
  handlePDU srv s (buildWriteSingleRegisterPDU addr v)
  = Ok ([6] ++ put_u16 addr ++ put_u16 v, WriteHolding s addr v, notify srv [("holding", addr)]).
Proof.
  intros Ha Hv. pose proof (pdu_header 6 addr v [] Ha Hv) as H'. cbn zeta in H'.
  rewrite app_nil_r in H'. destruct H' as (H1 & H3 & _ & Hl). unfold buildWriteSingleRegisterPDU.
  change (handlePDU srv s ([6] ++ put_u16 addr ++ put_u16 v))
    with (handleWriteSingleRegister srv s ([6] ++ put_u16 addr ++ put_u16 v)).
  unfold handleWriteSingleRegister. rewrite H1, H3. rewrite (proj2 (Nat.ltb_ge _ _)) by (rewrite Hl; lia).
  cbn [mbind outcome_bind]. by rewrite wrapu_small.
Qed.

(** a write to a holding register is acknowledged, stored, and signalled; the
    callback publishes a command with the tag's variable exactly when the tag is
    writable. So a write to a read-only tag, logged as rejected, is still acknowledged
    to the client and served from the register, until the variable is next published. *)
Theorem single_write_callback (srv : TCPServer) (s : RegisterStore) (addr v : Z)
    (tag : ModbusTagConfig) :
  in_u 16 addr → in_u 16 v → tagsByAddress s !! fcAddressKey "holding" addr = Some tag →
  ∃ s' nv, handlePDU srv s (buildWriteSingleRegisterPDU addr v)
      = Ok ([6] ++ put_u16 addr ++ put_u16 v, s', notify srv [("holding", addr)])
    ∧ ReadHolding s' addr = v
    ∧ onWrite s' "holding" addr = Ok (if Writable tag then Some (ID tag, nv) else None).
Proof.
  intros Ha Hv Ht. destruct (ReadTypedValue_total (WriteHolding s addr v) "holding" addr tag Ht) as [nv Hr].
  exists (WriteHolding s addr v), nv. split_and!.
  - by apply handle_write_single.
  - unfold ReadHolding, WriteHolding, word_at. cbn. by rewrite lookup_insert_eq.
  - unfold onWrite. rewrite Hr. cbn [mbind outcome_bind rWritable VariableID Value].
    by destruct (Writable tag).
Qed.
End ReadOnly.

(** ** Witnesses *)

Definition demo_server : TCPServer := mkServer 1 true.

Lemma connection_serves_requests_witness :
  let s := WriteHolding NewRegisterStore 5 77 in
  handleConnection demo_server (mkCS [] s [] [])
    [[0; 1; 0; 0; 0; 6; 1; 3; 0]; [5; 0; 1; 0; 2; 0; 0; 0; 1; 9]]
  = Ok (mkCS [] s [[0; 1; 0; 0; 0; 5; 1; 3; 2; 0; 77]] []).
Proof.
  exact (connection_serves_requests demo_server (WriteHolding NewRegisterStore 5 77)
    [mkReq 1 1 [3; 0; 5; 0; 1]; mkReq 2 9 []]
    [[0; 1; 0; 0; 0; 6; 1; 3; 0]; [5; 0; 1; 0; 2; 0; 0; 0; 1; 9]]
    ltac:(repeat constructor; done) eq_refl).
Defined.

Lemma write_then_read_registers_witness :
  ∃ s', handlePDU demo_server s' (buildReadPDU 3 7 2) = Ok ([3; 4; 1; 2; 3; 4], s', []).
Proof.
  destruct (write_then_read_registers demo_server NewRegisterStore 7 [1; 2; 3; 4] 2 0 0
    ltac:(unfold in_u; lia) ltac:(apply (bool_decide_unpack _); vm_compute; exact I) eq_refl ltac:(lia))
    as (s' & _ & Hr & _).
  exists s'. exact Hr.
Defined.

Lemma read_bits_unpacked_witness : ∃ bits,
  decodeBoolFromCoils bits 9 = Ok (bit_at (coils (WriteCoil NewRegisterStore 14 true)) 14).
Proof.
  destruct (read_bits_unpacked demo_server (WriteCoil NewRegisterStore 14 true) 5 10 true 0 0
    ltac:(unfold in_u; lia) ltac:(lia)) as (bits & _ & _ & H).
  exists bits. exact (H 9%nat ltac:(lia)).
Defined.

Lemma write_coils_spec_witness : ∃ s', ReadCoil s' 6 = true ∧ ReadCoil s' 20 = false.
Proof.
  destruct (write_coils_spec demo_server NewRegisterStore 5 100 [2]
    ltac:(unfold in_u; lia) ltac:(unfold in_u; lia) ltac:(cbn; lia)) as (s' & _ & H).
  exists s'. split; [exact (H 6)|exact (H 20)].
Defined.

Definition readonly_tag : ModbusTagConfig := mkTag "speed" 3 "holding" "uint16" "ABCD" false.

Lemma single_write_callback_witness :
  ∃ s', ReadHolding s' 3 = 42 ∧ onWrite s' "holding" 3 = Ok None.
Proof.
  destruct (single_write_callback demo_server (RegisterTag NewRegisterStore readonly_tag) 3 42
    readonly_tag ltac:(unfold in_u; lia) ltac:(unfold in_u; lia) eq_refl) as (s' & nv & _ & H1 & H2).
  exists s'. split; [exact H1|exact H2].
Defined.
