(* ===== verification/ChannelBus.v ===== *)
(** The in-process message bus: internal/bus/channel.go, with the options of bus.go.

    Handlers run in goroutines of their own, so an operation's effect outside the bus is
    the list of handler calls it starts; the order they run in is not determined. Handlers
    are values of an arbitrary type. Maps are iterated in an order the caller of a
    definition chooses ([order] or a [ranging]). Time is in nanoseconds.

    An operation on a bucket has the bucket's lock only while it changes it: saving the
    bucket and starting the handlers come after, and other operations may come in between.
    [bucket_put], [bucket_delete], [bucket_expire] and [bucket_watch] are the parts under the
    lock and return what is left to do ([kvJob]); [kv_step] interleaves such parts, the steps
    of [save] and the rounds of the loops that start the handlers. *)

From S2P Require Export Prelude GoBytes GoText.
From stdpp Require Export gmap.

#[local] Open Scope Z_scope.

(** ** Subjects *)

Definition dot : ascii := ".".

(** The loop of [matchSubject] over the pattern's tokens and the remaining subject
    tokens. *)
Fixpoint match_tokens (pattern subject : list string) : bool :=
  match pattern with
  | [] => match subject with [] => true | _ => false end
  | pp :: pattern' =>
      if String.eqb pp ">" then match subject with [] => false | _ => true end
      else
        match subject with
        | [] => false
        | sp :: subject' =>
            if negb (String.eqb pp "*") && negb (String.eqb pp sp) then false
            else match_tokens pattern' subject'
        end
  end.

Definition matchSubject (pattern subject : string) : bool :=
  match_tokens (GoText.split dot pattern) (GoText.split dot subject).

(** ** Subscriptions and delivery *)

Section Delivery.
Context {H : Type}.

Record channelSub := mkSub {
  id : string;
  pattern : string;
  queue : string;
  handler : H;
  active : bool;
}.


(** [subscribe]: the identifier is a fresh UUID, chosen by the caller here. *)
Definition subscribe (subs : gmap string (list channelSub)) (uuid subject q : string) (h : H) : channelSub * gmap string (list channelSub) :=
  let s := mkSub uuid subject q h true in
  (s, <[subject := default [] (subs !! subject) ++ [s]]> subs).

Definition Subscribe (subs : gmap string (list channelSub)) (uuid subject : string) (h : H) :=
  subscribe subs uuid subject "" h.
Definition QueueSubscribe (subs : gmap string (list channelSub)) (uuid subject q : string) (h : H) :=
  subscribe subs uuid subject q h.

(** The first subscription with this identifier leaves the list. *)
Fixpoint remove_id (i : string) (l : list channelSub) : list channelSub :=
  match l with
  | [] => []
  | s :: l' => if String.eqb (id s) i then l' else s :: remove_id i l'
  end.

(** [removeSub]; clearing the [active] flag of the removed object is not visible in the
    table, which no longer holds it. *)
Definition removeSub (subs : gmap string (list channelSub)) (s : channelSub) : gmap string (list channelSub) :=
  match subs !! pattern s with
  | None => subs
  | Some l => <[pattern s := remove_id (id s) l]> subs
  end.

Definition gathered : Type := list channelSub * gmap string (list channelSub).

Definition gather_sub (acc : gathered) (s : channelSub) : gathered :=
  let '(direct, groups) := acc in
  if negb (active s) then acc
  else if negb (String.eqb (queue s) "")
  then (direct, <[queue s := default [] (groups !! queue s) ++ [s]]> groups)
  else (direct ++ [s], groups).

(** The two nested loops of [Publish]. *)
Definition gather (order : list (string * list channelSub)) (subject : string) : gathered :=
  fold_left (λ acc ps, if negb (matchSubject (fst ps) subject) then acc
                       else fold_left gather_sub (snd ps) acc) order ([], ∅).

(** The subscribers whose handlers [Publish] starts, without a reply function. *)
Definition Publish (order : list (string * list channelSub)) (subject : string) : list channelSub :=
  let '(direct, groups) := gather order subject in
  direct ++ concat (map (λ g, take 1 (snd g)) (map_to_list groups)).

(** The subscribers whose handlers [Request] starts, with a reply function that
    publishes to the inbox [replySubject]. *)
Definition Request (order : list (string * list channelSub)) (replySubject subject : string)
    : outcome (list channelSub) :=
  let matched := concat (map (λ ps : string * list channelSub,
    if String.eqb (fst ps) replySubject then []
    else if negb (matchSubject (fst ps) subject) then []
    else filter (λ s, active s = true) (snd ps)) order) in
  match matched with
  | [] => Err "no responders"
  | _ => Ok matched
  end.

End Delivery.
Arguments channelSub : clear implicits.

(** ** Key-value buckets *)

Section KV.
Context {H : Type}.

Inductive KVOperation := KVOpPut | KVOpDelete.

Record kvEntry := mkEntry {
  value : list Z;
  revision : Z;
  expiresAt : option Z;
}.

(** [watcher_id] is the identity of the watcher object; the object's [active] flag, which
    other goroutines change, is kept apart ([kActive] below). *)
Record kvWatcher := mkWatcher {
  watcher_id : nat;
  wkey : string;
  whandler : H;
}.

Record kvBucket := mkBucket {
  TTL : Z;
  entries : gmap string kvEntry;
  bRevision : Z;
  watchers : list kvWatcher;
  persist : bool;
}.

(** A call of a watch handler: [nil] for a deletion. *)
Record note := mkNote { nTo : kvWatcher; nKey : string; nValue : list Z; nOp : KVOperation }.

(** What an operation has left to do when it has released the bucket's lock: the state of
    its [save], and the calls of its last loop, each for a watcher of the snapshot taken
    under the lock. *)
Inductive savePhase :=
  | SaveSnap                              (** before [save] takes the read lock *)
  | SaveWrite (snap : gmap string (list Z))
  | SaveRename
  | SaveDone.

Record kvJob := mkJob { jSave : savePhase; jCalls : list note }.

Definition KV : Type := gmap string kvBucket.

Definition getBucket (kv : KV) (name : string) : outcome kvBucket :=
  match kv !! name with
  | Some b => Ok b
  | None => Err ("bucket not found: " +:+ name)
  end.

Definition with_entries (b : kvBucket) (es : gmap string kvEntry) (rev : Z) : kvBucket :=
  mkBucket (TTL b) es rev (watchers b) (persist b).
Definition with_watchers (b : kvBucket) (ws : list kvWatcher) : kvBucket :=
  mkBucket (TTL b) (entries b) (bRevision b) ws (persist b).

(** [!entry.expiresAt.IsZero() && now.After(entry.expiresAt)] *)
Definition expired (now : Z) (e : kvEntry) : bool :=
  match expiresAt e with Some t => t <? now | None => false end.

(** The calls of the loop over a snapshot of the watchers. *)
Definition watch_calls (ws : list kvWatcher) (key : string) (v : list Z) (op : KVOperation) : list note :=
  map (λ w, mkNote w key v op) (filter (λ w, wkey w = "" ∨ wkey w = key) ws).

(** [if b.persist { b.save() }] and the loop after it. *)
Definition job_of (b : kvBucket) (l : list note) : kvJob := mkJob (if persist b then SaveSnap else SaveDone) l.

(** [load] over the decoded snapshot, in the order of the map iteration. *)
Definition load (snap : list (string * list Z)) (b : kvBucket) : kvBucket :=
  fold_left (λ b kv, let rev := wrapu 64 (bRevision b + 1) in
    with_entries b (<[fst kv := mkEntry (snd kv) rev None]> (entries b)) rev) snap b.

(** The entries [save] writes. *)
Definition save (now : Z) (b : kvBucket) : gmap string (list Z) :=
  omap (λ e, if match expiresAt e with None => true | Some t => now <? t end
             then Some (value e) else None) (entries b).

(** [onDisk] is the decoded file of the bucket, if there is one; [hasDir] tells whether
    the bus has a data directory. *)
Definition KVCreate (hasDir : bool) (onDisk : option (list (string * list Z)))
    (kv : KV) (bucket : string) (ttl : Z) : KV :=
  match kv !! bucket with
  | Some _ => kv
  | None =>
      let shouldPersist := hasDir && (ttl =? 0) in
      let b := mkBucket ttl ∅ 0 [] shouldPersist in
      let b := if shouldPersist then load (default [] onDisk) b else b in
      <[bucket := b]> kv
  end.

Definition bucket_get (b : kvBucket) (key : string) (now : Z) : outcome (list Z * Z) :=
  match entries b !! key with
  | None => Err "key not found"
  | Some e => if expired now e then Err "key not found" else Ok (value e, revision e)
  end.

Definition KVGet (kv : KV) (bucket key : string) (now : Z) : outcome (list Z * Z) :=
  b ← getBucket kv bucket; bucket_get b key now.

(** [KVPut] up to the release of the lock. *)
Definition bucket_put (b : kvBucket) (key : string) (v : list Z) (now : Z) : Z * kvBucket * kvJob :=
  let rev := wrapu 64 (bRevision b + 1) in
  let exp := if 0 <? TTL b then Some (now + TTL b) else None in
  (rev, with_entries b (<[key := mkEntry v rev exp]> (entries b)) rev,
   job_of b (watch_calls (watchers b) key v KVOpPut)).

Definition KVPut (kv : KV) (bucket key : string) (v : list Z) (now : Z) : outcome (Z * KV * kvJob) :=
  b ← getBucket kv bucket;
  let '(rev, b', job) := bucket_put b key v now in
  Ok (rev, <[bucket := b']> kv, job).

Definition bucket_delete (b : kvBucket) (key : string) : kvBucket * kvJob :=
  (with_entries b (delete key (entries b)) (bRevision b), job_of b (watch_calls (watchers b) key [] KVOpDelete)).

Definition KVDelete (kv : KV) (bucket key : string) : outcome (KV * kvJob) :=
  b ← getBucket kv bucket;
  let '(b', job) := bucket_delete b key in
  Ok (<[bucket := b']> kv, job).

Definition bucket_keys (o : ranging) (b : kvBucket) (now : Z) : list string :=
  map fst (filter (λ ke, expired now (snd ke) = false) (o _ (entries b))).

Definition KVKeys (o : ranging) (kv : KV) (bucket : string) (now : Z) : outcome (list string) :=
  b ← getBucket kv bucket; Ok (bucket_keys o b now).

(** [KVWatch] up to the release of the lock: the watcher joins the bucket and the current
    entries are collected for the replay. [wid] is the identity of the new watcher object. *)
Definition bucket_watch (o : ranging) (b : kvBucket) (wid : nat) (key : string) (h : H) (now : Z)
    : kvWatcher * kvBucket * kvJob :=
  let w := mkWatcher wid key h in
  let existing := filter (λ ke : string * kvEntry, expired now (snd ke) = false
                            ∧ (key = "" ∨ key = fst ke)) (o _ (entries b)) in
  (w, with_watchers b (watchers b ++ [w]),
   mkJob SaveDone (map (λ ke, mkNote w (fst ke) (value (snd ke)) KVOpPut) existing)).

Definition KVWatch (o : ranging) (kv : KV) (wid : nat) (bucket key : string) (h : H) (now : Z)
    : outcome (kvWatcher * KV * kvJob) :=
  b ← getBucket kv bucket;
  let '(w, b', job) := bucket_watch o b wid key h now in
  Ok (w, <[bucket := b']> kv, job).

Definition KVWatchAll (o : ranging) (kv : KV) (wid : nat) (bucket : string) (h : H) (now : Z) :=
  KVWatch o kv wid bucket "" h now.

(** Unsubscribing a watcher under the lock: the first occurrence of the object leaves the list. *)
Fixpoint remove_watcher (wid : nat) (l : list kvWatcher) : list kvWatcher :=
  match l with
  | [] => []
  | w :: l' => if (watcher_id w =? wid)%nat then l' else w :: remove_watcher wid l'
  end.

Definition unwatch (b : kvBucket) (wid : nat) : kvBucket :=
  with_watchers b (remove_watcher wid (watchers b)).

(** One bucket of [expireTTL]: nothing is saved, and the loop over the expired keys has a
    loop over the watchers inside. *)
Definition bucket_expire (o : ranging) (b : kvBucket) (now : Z) : kvBucket * kvJob :=
  if 0 <? TTL b then
    let dead := filter (λ ke : string * kvEntry, expired now (snd ke) = true) (o _ (entries b)) in
    (with_entries b (filter (λ ke, expired now (snd ke) = false) (entries b)) (bRevision b),
     mkJob SaveDone (concat (map (λ ke, watch_calls (watchers b) (fst ke) [] KVOpDelete) dead)))
  else (b, mkJob SaveDone []).

(** [expireTTL] over the buckets. *)
Definition expireTTL (o : ranging) (kv : KV) (now : Z) : KV := (λ b, fst (bucket_expire o b now)) <$> kv.

(** *** One bucket and the goroutines that work on it *)

Inductive kvOp :=
  | OpPut (key : string) (v : list Z) (now : Z)
  | OpDelete (key : string)
  | OpExpire (now : Z).

(** The critical section of an operation, and what it leaves to do. *)
Definition apply_op (o : ranging) (b : kvBucket) (op : kvOp) : kvBucket * kvJob :=
  match op with
  | OpPut key v now => let '(_, b', job) := bucket_put b key v now in (b', job)
  | OpDelete key => bucket_delete b key
  | OpExpire now => bucket_expire o b now
  end.

(** A file of the bucket: its decoded snapshot, [None] inside when it cannot be decoded. *)
Definition fileContent : Type := option (gmap string (list Z)).

(** [kActive] are the watchers whose flag is set and [kNext] the identity of the next watcher
    object; [kJobs] are the operations that have released the lock, in the order in which
    they had it; [kStarted] are the handler calls (goroutines) started so far, in order. *)
Record kvSystem := mkSystem {
  kBucket : kvBucket;
  kActive : gset nat;
  kNext : nat;
  kJobs : list kvJob;
  kStarted : list note;
  kTmp : option fileContent;
  kFile : option fileContent;
}.

(** What can happen next: an operation or a [KVWatch] enters the lock, the two halves of
    [Unsubscribe], and a step of the operation [i], of its [save] or of its loop. A step of
    [save] that fails leaves the temporary file as the event says. *)
Inductive kvEvent :=
  | EvOp (op : kvOp)
  | EvWatch (key : string) (h : H) (now : Z)
  | EvDeactivate (wid : nat)
  | EvRemove (wid : nat)
  | EvSave (i : nat) (now : Z) (failed : option (option fileContent))
  | EvCall (i : nat).

Definition with_jobs (s : kvSystem) (js : list kvJob) : kvSystem :=
  mkSystem (kBucket s) (kActive s) (kNext s) js (kStarted s) (kTmp s) (kFile s).
Definition with_files (s : kvSystem) (tmp file : option fileContent) : kvSystem :=
  mkSystem (kBucket s) (kActive s) (kNext s) (kJobs s) (kStarted s) tmp file.
Definition start_call (s : kvSystem) (n : note) : kvSystem :=
  mkSystem (kBucket s) (kActive s) (kNext s) (kJobs s) (kStarted s ++ [n]) (kTmp s) (kFile s).

(** One step of [save], whose errors are dropped: the snapshot under the read lock, the
    temporary file (with its directory), the renaming. *)
Definition save_step (s : kvSystem) (i : nat) (job : kvJob) (now : Z) (failed : option (option fileContent)) : kvSystem :=
  let go p s := with_jobs s (<[i := mkJob p (jCalls job)]> (kJobs s)) in
  match jSave job, failed with
  | SaveSnap, _ => go (SaveWrite (save now (kBucket s))) s
  | SaveWrite snap, None => go SaveRename (with_files s (Some (Some snap)) (kFile s))
  | SaveWrite _, Some rest => go SaveDone (with_files s rest (kFile s))
  | SaveRename, None => go SaveDone (match kTmp s with Some f => with_files s None (Some f) | None => s end)
  | SaveRename, Some _ => go SaveDone s
  | SaveDone, _ => s
  end.

(** One round of the loop after [save]: the flag is read when the round comes. *)
Definition call_step (s : kvSystem) (i : nat) (job : kvJob) : kvSystem :=
  match jSave job, jCalls job with
  | SaveDone, n :: l =>
      let s := with_jobs s (<[i := mkJob SaveDone l]> (kJobs s)) in
      if decide (watcher_id (nTo n) ∈ kActive s) then start_call s n else s
  | _, _ => s
  end.

Definition kv_step (o : ranging) (s : kvSystem) (ev : kvEvent) : kvSystem :=
  match ev with
  | EvOp op =>
      let '(b, job) := apply_op o (kBucket s) op in
      mkSystem b (kActive s) (kNext s) (kJobs s ++ [job]) (kStarted s) (kTmp s) (kFile s)
  | EvWatch key h now =>
      let '(w, b, job) := bucket_watch o (kBucket s) (kNext s) key h now in
      mkSystem b ({[kNext s]} ∪ kActive s) (S (kNext s)) (kJobs s ++ [job]) (kStarted s) (kTmp s) (kFile s)
  | EvDeactivate wid => mkSystem (kBucket s) (kActive s ∖ {[wid]}) (kNext s) (kJobs s) (kStarted s) (kTmp s) (kFile s)
  | EvRemove wid => mkSystem (unwatch (kBucket s) wid) (kActive s) (kNext s) (kJobs s) (kStarted s) (kTmp s) (kFile s)
  | EvSave i now failed => match kJobs s !! i with Some job => save_step s i job now failed | None => s end
  | EvCall i => match kJobs s !! i with Some job => call_step s i job | None => s end
  end.

Definition kv_run (o : ranging) (s : kvSystem) (evs : list kvEvent) : kvSystem := fold_left (kv_step o) evs s.

Definition new_system (b : kvBucket) (file : option fileContent) : kvSystem := mkSystem b ∅ 0 [] [] None file.

End KV.
Arguments kvWatcher : clear implicits.
Arguments kvBucket : clear implicits.
Arguments note : clear implicits.
Arguments KV : clear implicits.
Arguments kvJob : clear implicits.
Arguments kvSystem : clear implicits.
Arguments kvEvent : clear implicits.

(** [Close]: closing a closed channel panics. The flag tells whether [done] is closed. *)
Definition Close (closed : bool) : outcome bool := if closed then Panic else Ok true.

Example match_ex :
  map (λ p, matchSubject p "plc.data.line1.temp") ["plc.data.*.temp"; "plc.>"; "plc.data.*"; ">"; "plc.data.line1.temp.>"]
  = [true; true; false; true; false].
Proof. reflexivity. Qed.

(** ** Subject matching *)

(** NATS matching on tokens: [>] stands for one or more last tokens, [*] for one. *)
Inductive Matches : list string → list string → Prop :=
  | matches_end : Matches [] []
  | matches_rest ps s ss : Matches (">" :: ps) (s :: ss)
  | matches_any ps s ss : Matches ps ss → Matches ("*" :: ps) (s :: ss)
  | matches_token p ps ss : p ≠ ">" → Matches ps ss → Matches (p :: ps) (p :: ss).

Lemma match_tokens_spec ps ss : match_tokens ps ss = true ↔ Matches ps ss.
Proof.
  split.
  - revert ss. induction ps as [|p ps IH]; intros [|s ss] Hm; cbn in Hm; try done; [constructor|..].
    + by destruct (String.eqb p ">").
    + destruct (String.eqb_spec p ">") as [->|Hgt]; [constructor|].
      destruct (String.eqb_spec p "*") as [->|]; cbn in Hm; [constructor; by apply IH|].
      destruct (String.eqb_spec p s) as [->|]; cbn in Hm; [|done].
      apply matches_token; [done|by apply IH].
  - induction 1 as [| |ps s ss _ IH|p ps ss Hp _ IH]; [done|done|done|].
    cbn. rewrite (proj2 (String.eqb_neq p ">") Hp), String.eqb_refl, andb_false_r. done.
Qed.

(** a pattern matches a subject exactly when, token by token, each is equal or the
    pattern has the one-token wildcard, up to a final wildcard that takes one or more
    tokens; it never matches a longer or shorter subject otherwise. *)
Theorem matchSubject_spec (pattern subject : string) :
  matchSubject pattern subject = true ↔
  Matches (GoText.split dot pattern) (GoText.split dot subject).
Proof. apply match_tokens_spec. Qed.

(** ** Delivery *)

Section DeliveryFacts.
Context {H : Type}.
Implicit Types (order : list (string * list (channelSub H))) (s : channelSub H).

Definition is_live s : Prop := active s = true.
#[local] Instance is_live_dec s : Decision (is_live s).
Proof. unfold is_live. apply _. Defined.

(** The active subscriptions whose pattern matches, in the order of the iteration. *)
Definition live order (subject : string) : list (channelSub H) :=
  concat (map (λ ps : string * list (channelSub H),
    if matchSubject (fst ps) subject then filter is_live (snd ps) else []) order).

Definition members (q : string) (l : list (channelSub H)) : list (channelSub H) :=
  filter (λ s, queue s = q) l.

Lemma gather_sub_skip l acc : fold_left gather_sub l acc = fold_left gather_sub (filter is_live l) acc.
Proof.
  revert acc. induction l as [|s l IH]; intros [d g]; [done|]. cbn [fold_left].
  rewrite filter_cons. case_decide as Hs; cbn [fold_left].
  - by rewrite <- IH.
  - rewrite <- IH. f_equal. cbn. unfold is_live in Hs. by destruct (active s).
Qed.

Lemma gather_live order subject : gather order subject = fold_left gather_sub (live order subject) ([], ∅).
Proof.
  unfold gather, live. generalize (([], ∅) : @gathered H) as acc.
  induction order as [|[p l] order IH]; intros acc; [done|]. cbn [fold_left map concat fst snd].
  rewrite fold_left_app, IH. destruct (matchSubject p subject); cbn [negb]; [|done].
  by rewrite <- gather_sub_skip.
Qed.

Lemma gather_groups l : Forall is_live l → ∀ d g,
  fst (fold_left gather_sub l (d, g)) = d ++ members "" l
  ∧ ∀ q, snd (fold_left gather_sub l (d, g)) !! q =
      (if decide (q = "" ∨ members q l = []) then g !! q else Some (default [] (g !! q) ++ members q l)).
Proof.
  induction 1 as [|s l Hs _ IH]; intros d g.
  { cbn. split; [by rewrite app_nil_r|]. intros q. by rewrite decide_True by auto. }
  cbn [fold_left]. unfold gather_sub at 2 4. unfold is_live in Hs. rewrite Hs. cbn [negb].
  unfold members in *. destruct (String.eqb_spec (queue s) "") as [Hq|Hq]; cbn [negb].
  - destruct (IH (d ++ [s]) g) as [-> IHg]. split.
    + rewrite filter_cons_True by done. by rewrite <- app_assoc.
    + intros q. rewrite IHg. rewrite (filter_cons (λ s, queue s = q)).
      destruct (decide (queue s = q)) as [<-|Hne]; [|done]. by rewrite !decide_True by auto.
  - destruct (IH d (<[queue s := default [] (g !! queue s) ++ [s]]> g)) as [-> IHg]. split.
    + by rewrite filter_cons_False by done.
    + intros q. rewrite IHg. rewrite (filter_cons (λ s, queue s = q)).
      destruct (decide (queue s = q)) as [<-|Hne].
      * rewrite lookup_insert_eq. rewrite (decide_False (P := _ ∨ _ :: _ = _)) by naive_solver.
        case_decide as E.
        -- destruct E as [|E]; [done|]. by rewrite E.
        -- cbn [default from_option Datatypes.id]. by rewrite <- app_assoc.
      * by rewrite lookup_insert_ne.
Qed.

Lemma live_is_live order subject : Forall is_live (live order subject).
Proof.
  unfold live. apply Forall_concat, Forall_map, Forall_true. intros [p l]. cbn.
  case_match; [|constructor]. apply Forall_forall. intros s Hs. by apply list_elem_of_filter in Hs as [? _].
Qed.

Lemma take1_members q l : Forall (λ s, queue s = q) l → members q (take 1 l) = take 1 l.
Proof.
  intros Hl. destruct l as [|s l]; [done|]. apply Forall_cons in Hl as [Hs _]. change (take 1 (s :: l)) with [s].
  unfold members. by rewrite filter_cons_True by done.
Qed.

Lemma members_other q q' l : q ≠ q' → Forall (λ s, queue s = q') l → members q l = [].
Proof.
  intros Hne Hl. unfold members.
  induction Hl as [|s l Hs _ IH]; [done|]. rewrite filter_cons_False by congruence. done.
Qed.

(** The heads of the groups of a table of non-empty groups: at most one per queue. *)
Lemma group_heads (g : gmap string (list (channelSub H))) q :
  (∀ q' l, g !! q' = Some l → Forall (λ s, queue s = q') l) →
  members q (concat (map (λ g, take 1 (snd g)) (map_to_list g))) = take 1 (default [] (g !! q)).
Proof.
  intros Hg.
  assert (Hall : ∀ l, Forall (λ p, Forall (λ s, queue s = fst p) (snd p)) l → q ∉ map fst l →
    members q (concat (map (λ g : string * list (channelSub H), take 1 (snd g)) l)) = []).
  { induction 1 as [|[q' l'] L Hp _ IH]; intros Hq; [done|]. cbn in *. apply not_elem_of_cons in Hq as [Hne Hq].
    unfold members in *. rewrite filter_app, IH by done.
    pose proof (members_other q q' (take 1 l') Hne (Forall_take _ _ _ Hp)) as E. unfold members in E.
    by rewrite E. }
  assert (Hmap : Forall (λ p, Forall (λ s, queue s = fst p) (snd p)) (map_to_list g)).
  { apply Forall_forall. intros [q' l'] Hin. apply elem_of_map_to_list in Hin. by apply Hg. }
  destruct (g !! q) as [l|] eqn:Hq.
  - rewrite <- (insert_delete_id g q l Hq) in Hmap |- *.
    assert (Hperm := map_to_list_insert (delete q g) q l (lookup_delete_eq g q)).
    assert (Hrest : members q (concat (map (λ g, take 1 (snd g)) (map_to_list (delete q g)))) = []).
    { apply Hall; [rewrite Hperm in Hmap; by apply Forall_cons in Hmap as [_ ?]|].
      intros Hin. apply list_elem_of_fmap in Hin as ([q' l'] & -> & Hin).
      apply elem_of_map_to_list in Hin. cbn in Hin. by rewrite lookup_delete_eq in Hin. }
    assert (Hp : members q (concat (map (λ g, take 1 (snd g)) (map_to_list (<[q := l]> (delete q g)))))
      ≡ₚ take 1 l).
    { etransitivity; [apply filter_Permutation, concat_map_perm, Hperm|].
      cbn [map concat]. unfold members in *. rewrite filter_app, Hrest, app_nil_r.
      cbn [snd]. rewrite Hperm in Hmap. apply Forall_cons in Hmap as [Hl _].
      pose proof (take1_members q l Hl) as E. unfold members in E. by rewrite E. }
    cbn [default]. destruct l as [|s l]; cbn [take] in *.
    + by apply Permutation_nil.
    + by apply Permutation_length_1_inv.
  - apply Hall; [done|]. intros Hin. apply list_elem_of_fmap in Hin as ([q' l'] & -> & Hin).
    apply elem_of_map_to_list in Hin. cbn in *. congruence.
Qed.

(** publishing reaches every active matching direct subscriber exactly once, and
    exactly one active matching member of each queue group that has one (the first in
    the order of the iteration), and nobody else. *)
Theorem publish_delivers (order : list (string * list (channelSub H))) (subject : string) (q : string) :
  members q (Publish order subject) =
  if decide (q = "") then members "" (live order subject)
  else take 1 (members q (live order subject)).
Proof.
  unfold Publish. rewrite gather_live.
  destruct (gather_groups (live order subject) (live_is_live order subject) [] ∅) as [Hd Hg].
  destruct (fold_left gather_sub (live order subject) ([], ∅)) as [d g] eqn:E.
  cbn [fst snd] in *. subst d. cbn [app].
  assert (Hgm : ∀ q' l, g !! q' = Some l → Forall (λ s, queue s = q') l ∧ q' ≠ "").
  { intros q' l Hl. rewrite Hg in Hl. case_decide as Hc; [done|]. rewrite lookup_empty in Hl.
    injection Hl as <-. split; [|naive_solver]. apply Forall_forall. intros s Hs.
    by apply list_elem_of_filter in Hs as [? _]. }
  unfold members at 1. rewrite filter_app.
  pose proof (group_heads g q (λ q' l Hl, proj1 (Hgm q' l Hl))) as Hh. unfold members at 1 in Hh.
  rewrite Hh, Hg, lookup_empty. clear Hh E. destruct (decide (q = "")) as [->|Hq].
  - rewrite decide_True by auto. rewrite app_nil_r. unfold members.
    apply list_filter_filter_l. done.
  - assert (Hnil : filter (λ s, queue s = q) (members "" (live order subject)) = []).
    { unfold members. clear -Hq. induction (live order subject) as [|s l IH]; [done|].
      rewrite (filter_cons (λ s, queue s = "")). case_decide; [|done]. rewrite filter_cons_False by congruence. done. }
    rewrite Hnil. cbn [app]. case_decide as Hc; [|done]. destruct Hc as [|Hc]; [done|]. by rewrite Hc.
Qed.

(** a request is handed to every active matching subscriber, members of queue groups
    included: where publishing picks one member of a group, a request runs all of them,
    and whichever answers first is the reply. *)
Theorem request_reaches_all (order : list (string * list (channelSub H)))
    (replySubject subject : string) :
  replySubject ∉ map fst order →
  Request order replySubject subject =
  match live order subject with [] => Err "no responders" | l => Ok l end.
Proof.
  intros Hr. unfold Request.
  match goal with |- match ?m with _ => _ end = _ => enough (m = live order subject) as -> by by destruct (live order subject) end.
  unfold live. f_equal. apply map_ext_in. intros [p l] Hin. cbn [fst snd].
  rewrite (proj2 (String.eqb_neq p replySubject)).
  - destruct (matchSubject p subject); [|done]. by apply list_filter_iff.
  - intros ->. apply Hr. apply list_elem_of_fmap. exists (replySubject, l). split; [done|].
    by apply list_elem_of_In.
Qed.

(** *** Subscribing and unsubscribing *)

Definition live_in (subs : gmap string (list (channelSub H))) (subject : string) : list (channelSub H) :=
  live (map_to_list subs) subject.

Definition live_entry (subject p : string) (l : list (channelSub H)) : list (channelSub H) :=
  if matchSubject p subject then filter is_live l else [].

Lemma live_in_delete (subs : gmap string (list (channelSub H))) p subject :
  live_in subs subject ≡ₚ live_entry subject p (default [] (subs !! p)) ++ live_in (delete p subs) subject.
Proof.
  unfold live_in, live. destruct (subs !! p) as [l|] eqn:Hp; cbn [default from_option Datatypes.id].
  - etransitivity; [apply concat_map_perm; symmetry; apply (map_to_list_delete subs p l Hp)|].
    done.
  - rewrite delete_id by done. unfold live_entry. by destruct (matchSubject p subject).
Qed.

Lemma live_in_insert (subs : gmap string (list (channelSub H))) p l subject :
  live_in (<[p := l]> subs) subject ≡ₚ live_entry subject p l ++ live_in (delete p subs) subject.
Proof.
  etransitivity; [apply (live_in_delete _ p)|]. rewrite lookup_insert_eq. cbn [default from_option Datatypes.id].
  by rewrite delete_insert_eq.
Qed.

Lemma remove_id_fresh i (l : list (channelSub H)) s : i ∉ map id l → id s = i →
  remove_id i (l ++ [s]) = l.
Proof.
  intros Hl Hs. induction l as [|x l IH]; cbn.
  - by rewrite Hs, String.eqb_refl.
  - cbn in Hl. apply not_elem_of_cons in Hl as [Hx Hl].
    rewrite (proj2 (String.eqb_neq (id x) i)) by congruence. by rewrite IH.
Qed.

(** a subscription is added to the receivers of exactly the subjects its pattern
    matches, and unsubscribing removes it and nothing else, so a handler is never
    called after its unsubscription. *)
Theorem subscribe_unsubscribe (subs : gmap string (list (channelSub H))) (uuid pat q subject : string) (h : H) :
  uuid ∉ map id (default [] (subs !! pat)) →
  let '(s, subs') := subscribe subs uuid pat q h in
  live_in subs' subject ≡ₚ (if matchSubject pat subject then [s] else []) ++ live_in subs subject
  ∧ live_in (removeSub subs' s) subject ≡ₚ live_in subs subject.
Proof.
  intros Hu. unfold subscribe. set (s := mkSub uuid pat q h true). set (l := default [] (subs !! pat)) in *.
  split.
  - rewrite live_in_insert. rewrite (live_in_delete subs pat). fold l. unfold live_entry.
    destruct (matchSubject pat subject); [|done].
    rewrite filter_app. change (filter is_live [s]) with [s].
    rewrite (Permutation_app_comm (filter is_live l) [s]). by rewrite <- app_assoc.
  - unfold removeSub. change (pattern s) with pat. change (id s) with uuid. rewrite lookup_insert_eq.
    rewrite (remove_id_fresh uuid l s Hu eq_refl), insert_insert_eq.
    rewrite live_in_insert. symmetry. apply (live_in_delete subs pat).
Qed.
End DeliveryFacts.

(** ** Key-value buckets *)

Section KVFacts.
Context {H : Type}.
Implicit Types (b : kvBucket H) (w : kvWatcher H).

(** What a reader can see of a bucket at a time: its abstract state. *)
Definition visible b (now : Z) : gmap string (list Z) :=
  omap (λ e, if expired now e then None else Some (value e)) (entries b).

Lemma lookup_visible b now k : visible b now !! k =
  match entries b !! k with Some e => if expired now e then None else Some (value e) | None => None end.
Proof. unfold visible. rewrite lookup_omap. by destruct (entries b !! k). Qed.

(** reading goes by the visible map: a get returns the visible value or "key not
    found", and the key list holds exactly the visible keys, each once. *)
Theorem kv_reads_view (o : ranging) (b : kvBucket H) (key : string) (now : Z) :
  bucket_get b key now = match visible b now !! key with
    | Some v => Ok (v, default 0 (revision <$> entries b !! key))
    | None => Err "key not found"
    end
  ∧ NoDup (bucket_keys o b now)
  ∧ (key ∈ bucket_keys o b now ↔ is_Some (visible b now !! key)).
Proof.
  rewrite lookup_visible. unfold bucket_get, bucket_keys. split_and!.
  - destruct (entries b !! key) as [e|]; [|done]. by destruct (expired now e).
  - apply (sublist_NoDup _ (map fst (o _ (entries b)))); [apply range_NoDup|].
    apply fmap_sublist, sublist_filter.
  - rewrite list_elem_of_fmap. split.
    + intros ([k e] & -> & Hin). apply list_elem_of_filter in Hin as [He Hin].
      apply range_lookup in Hin. cbn in *. rewrite Hin, He. by eexists.
    + destruct (entries b !! key) as [e|] eqn:Hk; [|by intros [? ?]].
      destruct (expired now e) eqn:He; [by intros [? ?]|]. intros _. exists (key, e). split; [done|].
      apply list_elem_of_filter. split; [done|]. by apply range_lookup.
Qed.

(** writing goes by the visible map: a put is seen by every later read until the
    bucket's time to live has passed (forever without one), a delete removes the key,
    and the expiry sweep changes nothing a reader could still see. *)
Theorem kv_updates_view (o : ranging) (b : kvBucket H) (key : string) (v : list Z) (now t : Z) :
  now ≤ t →
  visible (snd (fst (bucket_put b key v now))) t
    = (if (0 <? TTL b) && (now + TTL b <? t) then delete key (visible b t)
       else <[key := v]> (visible b t))
  ∧ visible (fst (bucket_delete b key)) t = delete key (visible b t)
  ∧ visible (fst (bucket_expire o b now)) t = visible b t.
Proof.
  intros Ht. split_and!; apply map_eq; intros k.
  - rewrite lookup_visible. cbn [bucket_put fst snd entries with_entries].
    destruct ((0 <? TTL b) && (now + TTL b <? t)) eqn:E; bool_to_prop.
    + destruct (decide (k = key)) as [->|Hne].
      * rewrite lookup_insert_eq, lookup_delete_eq. cbn. rewrite (proj2 (Z.ltb_lt 0 _)) by lia.
        cbn. by rewrite (proj2 (Z.ltb_lt _ _)) by lia.
      * by rewrite lookup_insert_ne, lookup_delete_ne, lookup_visible.
    + destruct (decide (k = key)) as [->|Hne].
      * rewrite !lookup_insert_eq. cbn. destruct (Z.ltb_spec 0 (TTL b)); [|done].
        cbn.  by rewrite (proj2 (Z.ltb_ge _ _)) by lia.
      * by rewrite !lookup_insert_ne, lookup_visible.
  - rewrite lookup_visible. cbn [bucket_delete fst entries with_entries].
    destruct (decide (k = key)) as [->|Hne]; [by rewrite !lookup_delete_eq|].
    by rewrite !lookup_delete_ne, lookup_visible.
  - rewrite !lookup_visible. unfold bucket_expire. case_if; [|done]. cbn [fst entries with_entries].
    destruct (entries b !! k) as [e|] eqn:Hk.
    + destruct (expired now e) eqn:He.
      * rewrite map_lookup_filter_None_2; [|right; intros e' Hk'; rewrite Hk in Hk'; injection Hk' as <-; cbn; congruence].
        unfold expired in *. destruct (expiresAt e); [|done]. bool_to_prop.
        by rewrite (proj2 (Z.ltb_lt _ _)) by lia.
      * by rewrite (map_lookup_filter_Some_2 _ _ _ e Hk He).
    + rewrite map_lookup_filter_None_2 by by left. done.
Qed.

(** *** Revisions *)

(** The bucket after a sequence of operations. *)
Definition run_ops (o : ranging) (b : kvBucket H) (ops : list kvOp) : kvBucket H := fold_left (λ b op, fst (apply_op o b op)) ops b.

(** Stored revisions are distinct and none exceeds the bucket's. *)
Definition revisions_ok b : Prop :=
  0 ≤ bRevision b
  ∧ (∀ k e, entries b !! k = Some e → revision e ≤ bRevision b)
  ∧ ∀ k k' e e', entries b !! k = Some e → entries b !! k' = Some e' → revision e = revision e' → k = k'.

Lemma revisions_put b key v now : revisions_ok b → bRevision b < 2 ^ 64 - 1 →
  revisions_ok (snd (fst (bucket_put b key v now)))
  ∧ fst (fst (bucket_put b key v now)) = bRevision b + 1.
Proof.
  intros (H0 & Hle & Hinj) Hb. unfold bucket_put. rewrite (wrapu_small 64) by (unfold in_u; lia).
  cbn [fst snd]. split; [|done]. split_and!; cbn [bRevision entries with_entries]; [lia| |].
  - intros k e Hk. apply lookup_insert_Some in Hk as [[<- <-]|[_ Hk]]; [cbn; lia|].
    apply Hle in Hk. lia.
  - intros k k' e e' Hk Hk' He.
    apply lookup_insert_Some in Hk as [[<- <-]|[? Hk]], Hk' as [[<- <-]|[? Hk']]; cbn in *; try done.
    + apply Hle in Hk'. lia.
    + apply Hle in Hk. lia.
    + by eapply Hinj.
Qed.

Lemma revisions_subset b b' : revisions_ok b → bRevision b' = bRevision b → entries b' ⊆ entries b →
  revisions_ok b'.
Proof.
  intros (H0 & Hle & Hinj) Hr Hs. split_and!; [lia| |].
  - intros k e Hk. rewrite Hr. apply (Hle k). by eapply lookup_weaken.
  - intros k k' e e' Hk Hk'. eapply Hinj; by eapply lookup_weaken.
Qed.

Lemma revisions_apply o b op : revisions_ok b → bRevision b < 2 ^ 64 - 1 →
  revisions_ok (fst (apply_op o b op)) ∧ bRevision b ≤ bRevision (fst (apply_op o b op)) ≤ bRevision b + 1.
Proof.
  intros Hok Hb. destruct op as [key v now|key|now]; cbn [apply_op].
  - destruct (revisions_put b key v now Hok Hb) as [Hok' Hrev].
    cbn in *. split; [done|]. rewrite Hrev. lia.
  - split; [|cbn; lia]. apply (revisions_subset b); [done|done|]. apply delete_subseteq.
  - unfold bucket_expire. case_if; [|cbn; split; [done|lia]]. cbn [fst].
    split; [|cbn; lia]. apply (revisions_subset b); [done|done|]. apply map_filter_subseteq.
Qed.

Lemma revisions_run o ops : ∀ b, revisions_ok b → bRevision b + Z.of_nat (length ops) < 2 ^ 64 - 1 →
  revisions_ok (run_ops o b ops) ∧ bRevision b ≤ bRevision (run_ops o b ops) ≤ bRevision b + Z.of_nat (length ops).
Proof.
  induction ops as [|op ops IH]; intros b Hok Hb; [split; [done|cbn; lia]|].
  cbn [length] in *. destruct (revisions_apply o b op Hok ltac:(lia)) as [Hok1 Hr1].
  destruct (IH _ Hok1 ltac:(lia)) as [Hok2 Hr2]. split; [exact Hok2|]. unfold run_ops in *. cbn [fold_left]. lia.
Qed.

(** revisions number the writes of a bucket: after any operations on a new bucket,
    the next put returns a revision above every one stored, and no two keys share a
    revision. *)
Theorem kv_revisions_increase (o : ranging) (ttl : Z) (persisted : bool) (ops : list kvOp)
    (key : string) (v : list Z) (now : Z) :
  Z.of_nat (length ops) < 2 ^ 64 - 1 →
  let b := run_ops o (mkBucket ttl ∅ 0 [] persisted) ops in
  let rev := fst (fst (bucket_put b key v now)) in
  (∀ k e, entries b !! k = Some e → revision e < rev)
  ∧ ∀ k k' e e', entries b !! k = Some e → entries b !! k' = Some e' → revision e = revision e' → k = k'.
Proof.
  intros Hl. cbn zeta.
  assert (H0 : revisions_ok (mkBucket (H := H) ttl ∅ 0 [] persisted)).
  { split_and!; [cbn; lia| |]; intros ? ?; cbn; by rewrite lookup_empty. }
  destruct (revisions_run o ops _ H0 Hl) as [Hok Hr]. cbn [bRevision] in Hr.
  set (b := run_ops o _ ops) in *. split; [|apply Hok].
  intros k e Hk. assert (Hb : bRevision b < 2 ^ 64 - 1) by lia.
  destruct (revisions_put b key v now Hok Hb) as [_ ->]. destruct Hok as (_ & Hle & _).
  apply Hle in Hk. lia.
Qed.

(** *** Watching *)

(** What a handler makes of the calls it gets, taken in some order. *)
Definition apply_note (m : gmap string (list Z)) (n : note H) : gmap string (list Z) :=
  match nOp n with KVOpPut => <[nKey n := nValue n]> m | KVOpDelete => delete (nKey n) m end.
Definition rebuild (m : gmap string (list Z)) (ns : list (note H)) : gmap string (list Z) :=
  fold_left apply_note ns m.

(** The calls to one watcher, and those of them about one key. *)
Definition to_watcher (wid : nat) (ns : list (note H)) : list (note H) :=
  filter (λ n, watcher_id (nTo n) = wid) ns.
Definition about (wid : nat) (k : string) (ns : list (note H)) : list (note H) :=
  filter (λ n, watcher_id (nTo n) = wid ∧ nKey n = k) ns.

(** The calls that operations still have to start. *)
Definition pending (s : kvSystem H) : list (note H) := concat (map jCalls (kJobs s)).

(** The calls that an event adds to those to be started, and those of a run, in the order in
    which the operations had the lock. *)
Definition told (o : ranging) (s : kvSystem H) (ev : kvEvent H) : list (note H) :=
  match ev with
  | EvOp op => jCalls (snd (apply_op o (kBucket s) op))
  | EvWatch key h now => jCalls (snd (bucket_watch o (kBucket s) (kNext s) key h now))
  | _ => []
  end.
Fixpoint history (o : ranging) (s : kvSystem H) (evs : list (kvEvent H)) : list (note H) :=
  match evs with
  | [] => []
  | ev :: evs' => told o s ev ++ history o (kv_step o s ev) evs'
  end.

(** The operations on a key take turns, as far as one watcher is concerned: none enters the
    lock while an earlier one has still to start its call about the key. *)
Fixpoint take_turns (o : ranging) (wid : nat) (k : string) (s : kvSystem H) (evs : list (kvEvent H)) : Prop :=
  match evs with
  | [] => True
  | ev :: evs' => (about wid k (told o s ev) = [] ∨ about wid k (pending s) = []) ∧ take_turns o wid k (kv_step o s ev) evs'
  end.

(** Nobody unsubscribes the watcher. *)
Definition stays (wid : nat) (ev : kvEvent H) : Prop := ev ≠ EvDeactivate wid ∧ ev ≠ EvRemove wid.

(** A copy shows a key: it has what a reader sees, and nothing that the bucket does not hold
    (an entry whose time is over is not seen, but held until the sweep). *)
Definition shows (m : gmap string (list Z)) b (t : Z) (k : string) : Prop :=
  (∀ v, visible b t !! k = Some v → m !! k = Some v) ∧ (∀ v, m !! k = Some v → value <$> entries b !! k = Some v).

Definition wants w (k : string) : Prop := wkey w = "" ∨ wkey w = k.
#[local] Typeclasses Opaque wants.
#[local] Instance wants_dec w k : Decision (wants w k).
Proof. unfold wants. apply _. Defined.

Lemma to_watcher_app wid ns ns' : to_watcher wid (ns ++ ns') = to_watcher wid ns ++ to_watcher wid ns'.
Proof. apply filter_app. Qed.
Lemma about_app wid k ns ns' : about wid k (ns ++ ns') = about wid k ns ++ about wid k ns'.
Proof. apply filter_app. Qed.
Lemma about_to_watcher wid k ns : about wid k ns = filter (λ n, nKey n = k) (to_watcher wid ns).
Proof. unfold about, to_watcher. rewrite list_filter_filter. apply list_filter_iff. intros n. tauto. Qed.

Lemma rebuild_app m ns ns' : rebuild m (ns ++ ns') = rebuild (rebuild m ns) ns'.
Proof. apply fold_left_app. Qed.

(** What a handler has under a key depends on the calls about the key only. *)
Lemma rebuild_key ns k : ∀ m m', m !! k = m' !! k →
  rebuild m ns !! k = rebuild m' (filter (λ n, nKey n = k) ns) !! k.
Proof.
  induction ns as [|n ns IH]; intros m m' Hm; [done|]. rewrite filter_cons. unfold rebuild in *. cbn [fold_left].
  case_decide as Hk; cbn [fold_left]; apply IH; unfold apply_note.
  - rewrite Hk. destruct (nOp n); by rewrite ?lookup_insert_eq, ?lookup_delete_eq.
  - destruct (nOp n); by rewrite ?lookup_insert_ne, ?lookup_delete_ne.
Qed.

(** The watcher [w] is the only one of the bucket with its identity. *)
Definition joined b w : Prop :=
  ∃ ws ws', watchers b = ws ++ w :: ws' ∧ watcher_id w ∉ map watcher_id ws ∧ watcher_id w ∉ map watcher_id ws'.

Lemma to_watcher_others wid ws key v op : wid ∉ map watcher_id ws → to_watcher wid (watch_calls (H := H) ws key v op) = [].
Proof.
  intros Hf. unfold to_watcher, watch_calls. induction ws as [|w' ws IH]; [done|]. cbn in Hf. apply not_elem_of_cons in Hf as [Hne Hf].
  rewrite filter_cons. case_decide; [|by apply IH]. cbn [map]. rewrite filter_cons_False by (cbn; congruence). by apply IH.
Qed.

Lemma watch_calls_app ws ws' key v op : watch_calls (H := H) (ws ++ ws') key v op = watch_calls ws key v op ++ watch_calls ws' key v op.
Proof. unfold watch_calls. by rewrite filter_app, map_app. Qed.

Lemma to_watcher_calls b w key v op : joined b w →
  to_watcher (watcher_id w) (watch_calls (watchers b) key v op) = if decide (wants w key) then [mkNote w key v op] else [].
Proof.
  intros (ws & ws' & -> & H1 & H2). change (w :: ws') with ([w] ++ ws').
  rewrite !watch_calls_app, !to_watcher_app, (to_watcher_others _ ws), (to_watcher_others _ ws') by done. rewrite app_nil_r, app_nil_l.
  unfold watch_calls, wants. destruct (decide (wkey w = "" ∨ wkey w = key)) as [Hw|Hw].
  - rewrite filter_cons_True by done. cbn [map]. unfold to_watcher. by rewrite filter_cons_True by done.
  - by rewrite filter_cons_False by done.
Qed.

(** One call per key of a list, each setting or deleting that key. *)
Lemma rebuild_puts (l : list (string * kvEntry)) w m k : NoDup (map fst l) →
  rebuild m (map (λ ke, mkNote w (fst ke) (value (snd ke)) KVOpPut) l) !! k =
  match (list_to_map l : gmap string kvEntry) !! k with Some e => Some (value e) | None => m !! k end.
Proof.
  revert m. induction l as [|[k' e] l IH]; intros m Hnd; [done|].
  cbn [map] in *. apply NoDup_cons in Hnd as [Hk' Hnd]. unfold rebuild in *. cbn [fold_left].
  rewrite IH by done. cbn. destruct (decide (k = k')) as [->|Hne].
  - rewrite !lookup_insert_eq. by rewrite not_elem_of_list_to_map_1 by done.
  - by rewrite !lookup_insert_ne by done.
Qed.

(** The calls of a sweep to a watcher. *)
Lemma expire_calls b w (dead : list (string * kvEntry)) : joined b w →
  to_watcher (watcher_id w) (concat (map (λ ke, watch_calls (watchers b) (fst ke) [] KVOpDelete) dead))
  = map (λ ke, mkNote w (fst ke) [] KVOpDelete) (filter (λ ke, wants w (fst ke)) dead).
Proof.
  intros Hj. induction dead as [|[k e] dead IH]; [done|]. cbn [map concat]. rewrite to_watcher_app, IH, to_watcher_calls by done.
  rewrite filter_cons. cbn [fst]. by case_decide.
Qed.

Lemma rebuild_deletes w (dead : list (string * kvEntry)) m k :
  rebuild m (map (λ ke, mkNote w (fst ke) [] KVOpDelete) dead) !! k = if decide (k ∈ map fst dead) then None else m !! k.
Proof.
  revert m. induction dead as [|[k' e] dead IH]; intros m; [cbn; by rewrite decide_False by apply not_elem_of_nil|].
  unfold rebuild in *. cbn [map fold_left fst]. rewrite IH. unfold apply_note. cbn [nOp nKey].
  destruct (decide (k = k')) as [->|Hne].
  - rewrite lookup_delete_eq, (decide_True (P := k' ∈ k' :: _)) by by left. by case_decide.
  - rewrite lookup_delete_ne by done. apply decide_ext. rewrite elem_of_cons. naive_solver.
Qed.

(** A watcher's copy follows the bucket on the keys it watches, but for entries whose time was
    over when it joined at [t0]. *)
Definition tracks (t0 : Z) b w (m : gmap string (list Z)) : Prop :=
  ∀ k, wants w k → m !! k = value <$> entries b !! k
    ∨ m !! k = None ∧ ∃ e, entries b !! k = Some e ∧ expired t0 e = true.

Lemma tracks_watch o b wid key h now : let '(w, b', job) := bucket_watch o b wid key h now in
  tracks now b' w (rebuild ∅ (jCalls job)).
Proof.
  unfold bucket_watch. intros k Hk. unfold wants in Hk. cbn [wkey] in Hk. cbn [jCalls]. set (l := filter _ (o _ (entries b))).
  assert (Hnd : NoDup (map fst l)).
  { apply (sublist_NoDup _ (map fst (o _ (entries b)))); [apply range_NoDup|apply fmap_sublist, sublist_filter]. }
  rewrite rebuild_puts, lookup_empty by done. cbn [entries with_watchers].
  destruct (entries b !! k) as [e|] eqn:Hb.
  - destruct (expired now e) eqn:He; [right; split; [|by exists e]|left].
    + rewrite not_elem_of_list_to_map_1; [done|]. intros ([k' e'] & -> & Hin)%list_elem_of_fmap.
      apply list_elem_of_filter in Hin as [[He' _] Hin]. apply range_lookup in Hin. cbn in *. congruence.
    + rewrite (elem_of_list_to_map_1 l k e Hnd); [done|]. apply list_elem_of_filter. split; [done|]. by apply range_lookup.
  - left. rewrite not_elem_of_list_to_map_1; [done|]. intros ([k' e'] & -> & Hin)%list_elem_of_fmap.
    apply list_elem_of_filter in Hin as [_ Hin]. apply range_lookup in Hin. cbn in *. congruence.
Qed.

Lemma tracks_op o t0 b w m op : joined b w → tracks t0 b w m →
  tracks t0 (fst (apply_op o b op)) w (rebuild m (to_watcher (watcher_id w) (jCalls (snd (apply_op o b op))))).
Proof.
  intros Hj Ht. destruct op as [key v now|key|now]; cbn [apply_op].
  - cbn [fst snd bucket_put job_of jCalls]. intros k Hw. rewrite to_watcher_calls by done.
    cbn [entries with_entries]. destruct (decide (k = key)) as [->|Hne].
    + left. rewrite decide_True by done. unfold rebuild, apply_note. cbn. by rewrite !lookup_insert_eq.
    + rewrite lookup_insert_ne by done. case_decide; unfold rebuild, apply_note; cbn; rewrite ?lookup_insert_ne by done; by apply Ht.
  - cbn [fst snd bucket_delete job_of jCalls]. intros k Hw. rewrite to_watcher_calls by done.
    cbn [entries with_entries]. destruct (decide (k = key)) as [->|Hne].
    + left. rewrite decide_True by done. unfold rebuild, apply_note. cbn. by rewrite !lookup_delete_eq.
    + rewrite lookup_delete_ne by done. case_decide; unfold rebuild, apply_note; cbn; rewrite ?lookup_delete_ne by done; by apply Ht.
  - unfold bucket_expire. case_if; cbn [fst snd jCalls]; [|done]. intros k Hw.
    rewrite expire_calls, rebuild_deletes by done. cbn [entries with_entries].
    assert (Hdead : k ∈ map fst (filter (λ ke, wants w (fst ke)) (filter (λ ke, expired now (snd ke) = true) (o _ (entries b))))
      ↔ ∃ e, entries b !! k = Some e ∧ expired now e = true).
    { rewrite list_elem_of_fmap. split.
      - intros ([k' e] & -> & Hin). apply list_elem_of_filter in Hin as [_ Hin]. apply list_elem_of_filter in Hin as [He Hin].
        apply range_lookup in Hin. by exists e.
      - intros (e & Hk & He). exists (k, e). split; [done|]. rewrite !list_elem_of_filter. split_and!; [done..|]. by apply range_lookup. }
    destruct (entries b !! k) as [e|] eqn:Hk.
    + destruct (expired now e) eqn:He.
      * left. rewrite decide_True by (apply Hdead; by exists e).
        rewrite map_lookup_filter_None_2; [done|]. right. intros e' Hk'. rewrite Hk in Hk'. injection Hk' as <-. cbn. congruence.
      * rewrite decide_False by (rewrite Hdead; intros (e' & [= <-] & ?); congruence).
        rewrite (map_lookup_filter_Some_2 _ _ _ e Hk He). specialize (Ht k Hw). by rewrite Hk in Ht.
    + left. rewrite map_lookup_filter_None_2 by by left. case_decide; [done|]. destruct (Ht k Hw) as [Hm|(_ & e & Hm & _)]; [|congruence].
      by rewrite Hm, Hk.
Qed.

Lemma tracks_shows t0 t b w m k : t0 ≤ t → wants w k → tracks t0 b w m → shows m b t k.
Proof.
  intros Hle Hw Ht. split; intros v; destruct (Ht k Hw) as [E|(E & e & Hk & He)]; rewrite E; [| |done|done].
  - rewrite lookup_visible. destruct (entries b !! k) as [e|]; [|done]. by destruct (expired t e).
  - rewrite lookup_visible, Hk. unfold expired in *. destruct (expiresAt e); [|done]. bool_to_prop.
    by rewrite (proj2 (Z.ltb_lt _ _)) by lia.
Qed.

(** What holds of a system between steps: identities are given out in order, and the one of
    [wid] is the joined watcher [w]. *)
Record ids_ok (s : kvSystem H) : Prop := {
  watchers_old : Forall (λ w, (watcher_id w < kNext s)%nat) (watchers (kBucket s));
  pending_old : Forall (λ n, (watcher_id (nTo n) < kNext s)%nat) (pending s);
  started_old : Forall (λ n, (watcher_id (nTo n) < kNext s)%nat) (kStarted s);
}.

Lemma insert_calls (js : list (kvJob H)) i job p l : js !! i = Some job →
  concat (map jCalls (<[i := mkJob p l]> js))
  = concat (map jCalls (take i js)) ++ l ++ concat (map jCalls (drop (S i) js)).
Proof.
  intros Hi. rewrite insert_take_drop by by eapply lookup_lt_Some. by rewrite map_app, concat_app.
Qed.

Lemma job_calls (js : list (kvJob H)) i job : js !! i = Some job →
  concat (map jCalls js) = concat (map jCalls (take i js)) ++ jCalls job ++ concat (map jCalls (drop (S i) js)).
Proof. intros Hi. rewrite <- (take_drop_middle js i job Hi) at 1. by rewrite map_app, concat_app. Qed.

(** A step of [save] starts nothing. *)
Lemma save_step_calls s i job now failed : kJobs s !! i = Some job →
  let s' := save_step s i job now failed in
  pending s' = pending s ∧ kStarted s' = kStarted s ∧ kActive s' = kActive s ∧ kBucket s' = kBucket s ∧ kNext s' = kNext s.
Proof.
  intros Hi. unfold save_step, pending. destruct (jSave job), failed; split_and!; try done; try by destruct (kTmp s).
  all: try (cbn [with_jobs with_files kJobs]; by rewrite (insert_calls _ _ _ _ _ Hi), <- (job_calls _ _ _ Hi)).
  destruct (kTmp s); cbn [with_jobs with_files kJobs]; by rewrite (insert_calls _ _ _ _ _ Hi), <- (job_calls _ _ _ Hi).
Qed.

(** A round of the loop takes the first call of its operation, and starts it when the flag of
    the watcher is set. *)
Lemma call_step_calls s i job : kJobs s !! i = Some job →
  call_step s i job = s ∨
  ∃ pre n post, pending s = pre ++ n :: post ∧
    call_step s i job = (let s' := with_jobs s (<[i := mkJob SaveDone (tail (jCalls job))]> (kJobs s)) in
      if decide (watcher_id (nTo n) ∈ kActive s) then start_call s' n else s')
    ∧ concat (map jCalls (<[i := mkJob SaveDone (tail (jCalls job))]> (kJobs s))) = pre ++ post.
Proof.
  intros Hi. unfold call_step. destruct (jSave job); try by left. destruct (jCalls job) as [|n l] eqn:Hl; [by left|right].
  exists (concat (map jCalls (take i (kJobs s)))), n, (l ++ concat (map jCalls (drop (S i) (kJobs s)))).
  split_and!; [unfold pending; by rewrite (job_calls _ _ _ Hi), Hl|done|]. by rewrite (insert_calls _ _ _ _ _ Hi).
Qed.

Lemma pending_add s b a n job : pending (mkSystem b a n (kJobs s ++ [job]) (kStarted s) (kTmp s) (kFile s)) = pending s ++ jCalls job.
Proof. unfold pending. cbn [kJobs]. rewrite map_app, concat_app. cbn. by rewrite app_nil_r. Qed.

(** Nothing is lost: an event adds what it tells to the calls started and to be started. *)
Lemma step_tells o s ev wid : wid ∈ kActive s → stays wid ev →
  to_watcher wid (kStarted (kv_step o s ev) ++ pending (kv_step o s ev))
  ≡ₚ to_watcher wid (kStarted s ++ pending s) ++ to_watcher wid (told o s ev)
  ∧ wid ∈ kActive (kv_step o s ev).
Proof.
  intros Ha [Hd Hr]. destruct ev as [op|key h now|w|w|i now failed|i]; cbn [kv_step told].
  - destruct (apply_op o (kBucket s) op) as [b job]. rewrite pending_add. cbn [kStarted kActive snd].
    split; [by rewrite app_assoc, to_watcher_app|done].
  - destruct (bucket_watch o (kBucket s) (kNext s) key h now) as [[w b] job]. rewrite pending_add. cbn [kStarted kActive snd].
    split; [by rewrite app_assoc, to_watcher_app|set_solver].
  - rewrite app_nil_r. split; [done|]. cbn. assert (w ≠ wid) by congruence. set_solver.
  - by rewrite app_nil_r.
  - rewrite app_nil_r. destruct (kJobs s !! i) as [job|] eqn:Hi; [|done].
    destruct (save_step_calls s i job now failed Hi) as (-> & -> & -> & _). done.
  - rewrite app_nil_r. destruct (kJobs s !! i) as [job|] eqn:Hi; [|done].
    destruct (call_step_calls s i job Hi) as [->|(pre & n & post & Hp & -> & Hp')]; [done|]. rewrite Hp. cbn zeta.
    case_decide as Hn; unfold pending; cbn [start_call with_jobs kJobs kStarted kActive]; rewrite Hp'; (split; [|done]).
    + apply filter_Permutation. rewrite <- app_assoc. apply Permutation_app_head. cbn [app]. apply Permutation_middle.
    + rewrite !to_watcher_app. apply Permutation_app_head. unfold to_watcher. rewrite (filter_cons _ n post).
      rewrite decide_False; [done|]. congruence.
Qed.

Lemma run_tells o wid evs : ∀ s, wid ∈ kActive s → Forall (stays wid) evs →
  to_watcher wid (kStarted (kv_run o s evs) ++ pending (kv_run o s evs))
  ≡ₚ to_watcher wid (kStarted s ++ pending s) ++ to_watcher wid (history o s evs).
Proof.
  induction evs as [|ev evs IH]; intros s Ha Hs; [cbn; by rewrite app_nil_r|].
  apply Forall_cons in Hs as [He Hs]. destruct (step_tells o s ev wid Ha He) as [Ht Ha'].
  cbn [kv_run fold_left history]. etransitivity; [by apply IH|]. by rewrite Ht, (to_watcher_app _ (told o s ev)), app_assoc.
Qed.

(** An operation calls a watcher about a key once at most. *)
Definition one {A} (l : list A) : Prop := (length l ≤ 1)%nat.

Lemma one_per_key {X} (f : X → note H) (key : X → string) (l : list X) k : NoDup (map key l) → (∀ x, nKey (f x) = key x) →
  one (filter (λ n, nKey n = k) (map f l)).
Proof.
  intros Hnd Hf. unfold one. induction l as [|x l IH]; [cbn; lia|]. cbn [map] in *. apply NoDup_cons in Hnd as [Hx Hnd].
  specialize (IH Hnd). rewrite filter_cons. case_decide as Hk; [|done]. cbn [length].
  replace (filter (λ n, nKey n = k) (map f l)) with (@nil (note H)); [done|]. symmetry.
  clear IH Hnd. rewrite Hf in Hk. subst k. induction l as [|y l IH]; [done|]. cbn [map] in *. apply not_elem_of_cons in Hx as [Hne Hx].
  rewrite filter_cons_False by (rewrite Hf; congruence). by apply IH.
Qed.

Lemma NoDup_range_filter {A} (o : ranging) (m : gmap string A) (P : string * A → Prop) `{∀ x, Decision (P x)} :
  NoDup (map fst (filter P (o _ m))).
Proof. apply (sublist_NoDup _ (map fst (o _ m))); [apply range_NoDup|apply fmap_sublist, sublist_filter]. Qed.

Lemma op_tells_one o b w op k : joined b w → one (about (watcher_id w) k (jCalls (snd (apply_op o b op)))).
Proof.
  intros Hj. rewrite about_to_watcher. destruct op as [key v now|key|now]; cbn [apply_op bucket_put bucket_delete job_of snd jCalls].
  1,2: rewrite to_watcher_calls by done; case_decide; [|cbn; unfold one; cbn; lia]; rewrite filter_cons; case_decide; unfold one; cbn; lia.
  unfold bucket_expire. case_if; [|unfold one; cbn; lia]. cbn [snd jCalls]. rewrite expire_calls by done.
  apply (one_per_key _ fst); [|done]. apply (sublist_NoDup _ (map fst (filter (λ ke, expired now (snd ke) = true) (o _ (entries b))))).
  - apply NoDup_range_filter.
  - apply fmap_sublist, sublist_filter.
Qed.

Lemma joined_remove b w (wid : nat) : joined b w → wid ≠ watcher_id w → joined (unwatch b wid) w.
Proof.
  intros (ws & ws' & E & H1 & H2) Hne. unfold joined, unwatch. cbn [watchers with_watchers]. rewrite E. clear E.
  assert (Hsub : ∀ l, watcher_id w ∉ map watcher_id l → watcher_id w ∉ map watcher_id (remove_watcher (H := H) wid l)).
  { induction l as [|x l IH]; [done|]. cbn. rewrite not_elem_of_cons. intros [Hx Hl]. case_match; [done|]. cbn.
    rewrite not_elem_of_cons. split; [done|by apply IH]. }
  induction ws as [|x ws IH]; cbn [app remove_watcher].
  - rewrite (proj2 (Nat.eqb_neq _ _)) by congruence. exists [], (remove_watcher wid ws'). split_and!; [done..|by apply Hsub].
  - cbn in H1. apply not_elem_of_cons in H1 as [Hx H1]. destruct (watcher_id x =? wid)%nat; [by exists ws, ws'|].
    destruct (IH H1) as (ws1 & ws2 & -> & Hf1 & Hf2). exists (x :: ws1), ws2. split_and!; [done| |done]. cbn. by apply not_elem_of_cons.
Qed.

Lemma to_watcher_replay wid (w : kvWatcher H) (l : list (string * kvEntry)) :
  let replay := map (λ ke, mkNote w (fst ke) (value (snd ke)) KVOpPut) l in
  to_watcher wid replay = if decide (watcher_id w = wid) then replay else [].
Proof.
  cbn zeta. unfold to_watcher. induction l as [|x l IH]; [by case_decide|]. cbn [map]. rewrite filter_cons, IH.
  cbn [nTo]. by case_decide.
Qed.

(** What a step keeps of a watcher that stays. *)
Lemma step_keeps o s ev t0 w m : joined (kBucket s) w → (watcher_id w < kNext s)%nat → stays (watcher_id w) ev →
  tracks t0 (kBucket s) w m →
  joined (kBucket (kv_step o s ev)) w ∧ (watcher_id w < kNext (kv_step o s ev))%nat
  ∧ tracks t0 (kBucket (kv_step o s ev)) w (rebuild m (to_watcher (watcher_id w) (told o s ev)))
  ∧ ∀ k, one (about (watcher_id w) k (told o s ev)).
Proof.
  intros Hj Hn [Hd Hr] Ht.
  assert (Hone : ∀ k, one (about (watcher_id w) k [])) by (intros; unfold one; cbn; lia).
  destruct ev as [op|key h now|w'|w'|i now failed|i]; cbn [kv_step told].
  - pose proof (tracks_op o t0 _ w m op Hj Ht) as Ht'. pose proof (λ k, op_tells_one o _ w op k Hj) as H1.
    destruct (apply_op o (kBucket s) op) as [b job] eqn:E. cbn [kBucket kNext fst snd] in *. split_and!; [|done..].
    destruct op; cbn in E; [by injection E as <- <-..|]. unfold bucket_expire in E. by destruct (0 <? TTL (kBucket s)); injection E as <- <-.
  - unfold bucket_watch. cbn [kBucket kNext snd jCalls].
    rewrite to_watcher_replay. cbn [watcher_id]. rewrite decide_False by lia.
    split_and!; [|lia|done|intros k; rewrite about_to_watcher, to_watcher_replay; cbn [watcher_id]; rewrite decide_False by lia; unfold one; cbn; lia].
    destruct Hj as (ws & ws' & E & H1 & H2). exists ws, (ws' ++ [mkWatcher (kNext s) key h]).
    split_and!; [cbn [watchers with_watchers]; by rewrite E, <- app_assoc|done|].
    rewrite map_app, elem_of_app. cbn. rewrite list_elem_of_singleton. intros [?|?]; [done|lia].
  - done.
  - split_and!; [|done..]. apply joined_remove; [done|congruence].
  - destruct (kJobs s !! i) as [job|] eqn:Hi; [|done].
    destruct (save_step_calls s i job now failed Hi) as (_ & _ & _ & -> & ->). done.
  - destruct (kJobs s !! i) as [job|] eqn:Hi; [|done]. destruct (call_step_calls s i job Hi) as [->|(pre & n & post & _ & -> & _)]; [done|].
    cbn zeta. by case_decide.
Qed.

Lemma run_tracks o t0 w evs : ∀ s m, joined (kBucket s) w → (watcher_id w < kNext s)%nat → Forall (stays (watcher_id w)) evs →
  tracks t0 (kBucket s) w m → tracks t0 (kBucket (kv_run o s evs)) w (rebuild m (to_watcher (watcher_id w) (history o s evs))).
Proof.
  induction evs as [|ev evs IH]; intros s m Hj Hn Hs Ht; [done|]. apply Forall_cons in Hs as [He Hs].
  destruct (step_keeps o s ev t0 w m Hj Hn He Ht) as (Hj' & Hn' & Ht' & _).
  cbn [kv_run fold_left history]. rewrite to_watcher_app, rebuild_app. by apply IH.
Qed.

(** Taking turns keeps the order: the calls about the key are started in the order of the
    operations. *)
Lemma call_in_turn wid k s i job : wid ∈ kActive s → kJobs s !! i = Some job → one (about wid k (pending s)) →
  about wid k (kStarted (call_step s i job) ++ pending (call_step s i job)) = about wid k (kStarted s ++ pending s)
  ∧ one (about wid k (pending (call_step s i job))).
Proof.
  intros Ha Hi H1. destruct (call_step_calls s i job Hi) as [->|(pre & n & post & Hp & -> & Hp')]; [done|].
  rewrite Hp in *. rewrite about_app in H1. unfold about in H1 at 2. rewrite filter_cons in H1. cbn zeta.
  destruct (decide (watcher_id (nTo n) = wid ∧ nKey n = k)) as [Hn|Hn].
  - assert (Hpre : about wid k pre = []) by (unfold one in H1; rewrite length_app in H1; cbn in H1; destruct (about wid k pre); cbn in *; [done|lia]).
    rewrite decide_True by (destruct Hn as [-> _]; done).
    unfold pending. cbn [start_call with_jobs kJobs kStarted]. rewrite Hp'. split.
    + rewrite <- app_assoc, !about_app, Hpre. unfold about at 2 5. rewrite !filter_cons_True by done. cbn [filter list_filter app]. done.
    + rewrite about_app, Hpre. unfold one in *. rewrite length_app in H1. cbn in *. unfold about. lia.
  - assert (Hone : one (about wid k (pre ++ post))) by by rewrite about_app.
    assert (Hcons : about wid k (n :: post) = about wid k post) by (unfold about; by rewrite filter_cons_False).
    case_decide; unfold pending; cbn [start_call with_jobs kJobs kStarted]; rewrite Hp'; (split; [|done]).
    + rewrite <- app_assoc, !about_app, Hcons. unfold about at 2. by rewrite filter_cons_False.
    + by rewrite !about_app, Hcons.
Qed.

Lemma run_in_turns o w k evs : ∀ s t0 m, watcher_id w ∈ kActive s → joined (kBucket s) w → (watcher_id w < kNext s)%nat →
  Forall (stays (watcher_id w)) evs → tracks t0 (kBucket s) w m →
  one (about (watcher_id w) k (pending s)) → take_turns o (watcher_id w) k s evs →
  about (watcher_id w) k (kStarted (kv_run o s evs) ++ pending (kv_run o s evs))
  = about (watcher_id w) k (kStarted s ++ pending s) ++ about (watcher_id w) k (history o s evs).
Proof.
  induction evs as [|ev evs IH]; intros s t0 m Ha Hj Hn Hs Ht H1 Hturn; [by rewrite app_nil_r|].
  apply Forall_cons in Hs as [He Hs]. destruct Hturn as [Hfirst Hturn].
  destruct (step_keeps o s ev t0 w m Hj Hn He Ht) as (Hj' & Hn' & Ht' & Hone). destruct (step_tells o s ev _ Ha He) as [_ Ha'].
  cbn [kv_run fold_left history]. rewrite (about_app _ _ (told o s ev)).
  enough (Hstep : about (watcher_id w) k (kStarted (kv_step o s ev) ++ pending (kv_step o s ev))
      = about (watcher_id w) k (kStarted s ++ pending s) ++ about (watcher_id w) k (told o s ev)
    ∧ one (about (watcher_id w) k (pending (kv_step o s ev)))).
  { destruct Hstep as [E H1']. rewrite app_assoc, <- E. by eapply IH. }
  clear IH Hturn Hs Hj' Hn' Ht' Ha'. specialize (Hone k).
  assert (Hadd : one (about (watcher_id w) k (pending s) ++ about (watcher_id w) k (told o s ev))).
  { destruct Hfirst as [->| ->]; by rewrite ?app_nil_r. }
  destruct ev as [op|key h now|w'|w'|i now failed|i]; cbn [kv_step told] in *; rewrite ?app_nil_r; try done.
  - destruct (apply_op o (kBucket s) op) as [b job]. rewrite pending_add. cbn [kStarted snd] in *.
    by rewrite app_assoc, !(about_app _ _ _ (jCalls job)).
  - destruct (bucket_watch o (kBucket s) (kNext s) key h now) as [[w0 b] job]. rewrite pending_add. cbn [kStarted snd] in *.
    by rewrite app_assoc, !(about_app _ _ _ (jCalls job)).
  - destruct (kJobs s !! i) as [job|] eqn:Hi; [|done]. destruct (save_step_calls s i job now failed Hi) as (-> & -> & _). done.
  - destruct (kJobs s !! i) as [job|] eqn:Hi; [|done]. by apply call_in_turn.
Qed.

(** Identities are given out once. *)
Lemma watch_calls_old n ws key v op : Forall (λ w, (watcher_id w < n)%nat) ws →
  Forall (λ c, (watcher_id (nTo c) < n)%nat) (watch_calls (H := H) ws key v op).
Proof. intros Hw. apply Forall_fmap, Forall_forall. intros w [_ Hin]%list_elem_of_filter. rewrite Forall_forall in Hw. by apply Hw. Qed.

Lemma op_calls_old o n b op : Forall (λ w, (watcher_id w < n)%nat) (watchers b) →
  Forall (λ w, (watcher_id w < n)%nat) (watchers (fst (apply_op o b op)))
  ∧ Forall (λ c, (watcher_id (nTo c) < n)%nat) (jCalls (snd (apply_op o b op))).
Proof.
  intros Hw. destruct op as [key v now|key|now]; cbn [apply_op]; [split; [done|by apply watch_calls_old]..|].
  unfold bucket_expire. case_if; [|split; [done|constructor]]. split; [done|]. cbn [snd jCalls]. apply Forall_concat, Forall_fmap, Forall_true.
  intros x. by apply watch_calls_old.
Qed.

Lemma Forall_old (l : list (note H)) n n' : (n ≤ n')%nat → Forall (λ c, (watcher_id (nTo c) < n)%nat) l →
  Forall (λ c, (watcher_id (nTo c) < n')%nat) l.
Proof. intros Hle Hl. eapply Forall_impl; [exact Hl|]. intros; cbn in *; lia. Qed.

Lemma step_ids o s ev : ids_ok s → ids_ok (kv_step o s ev).
Proof.
  intros [Hw Hp Hs]. destruct ev as [op|key h now|w'|w'|i now failed|i]; cbn [kv_step].
  - destruct (op_calls_old o _ _ op Hw) as [Hw' Hc]. destruct (apply_op o (kBucket s) op) as [b job].
    split; [exact Hw'| |exact Hs]. rewrite pending_add. by apply Forall_app.
  - unfold bucket_watch. split; cbn [kBucket kNext kStarted watchers with_watchers].
    + apply Forall_app. split; [eapply Forall_impl; [exact Hw|cbn; lia]|]. constructor; [cbn; lia|done].
    + rewrite pending_add. apply Forall_app. split; [by eapply Forall_old; [|exact Hp]; lia|]. cbn [jCalls].
      apply Forall_fmap, Forall_true. cbn. lia.
    + by eapply Forall_old; [|exact Hs]; lia.
  - by split.
  - split; [|done..]. cbn. clear -Hw. induction Hw as [|x l Hx Hl IH]; [constructor|]. cbn. case_match; [done|by constructor].
  - destruct (kJobs s !! i) as [job|] eqn:Hi; [|by split]. destruct (save_step_calls s i job now failed Hi) as (E1 & E2 & _ & E4 & E5).
    split; by rewrite ?E1, ?E2, ?E4, ?E5.
  - destruct (kJobs s !! i) as [job|] eqn:Hi; [|by split].
    destruct (call_step_calls s i job Hi) as [->|(pre & n & post & E & -> & E')]; [by split|]. rewrite E in Hp.
    apply Forall_app in Hp as [Hp1 Hp2]. apply Forall_cons in Hp2 as [Hn Hp2].
    cbn zeta. case_decide; (split; [done| |]); unfold pending; cbn [start_call with_jobs kJobs kStarted kNext];
      rewrite ?E'; try (by apply Forall_app); try done.
    apply Forall_app. split; [done|by constructor].
Qed.

Lemma run_ids o evs : ∀ s, ids_ok s → ids_ok (kv_run o s evs).
Proof. induction evs as [|ev evs IH]; intros s Hs; [done|]. by apply IH, step_ids. Qed.

Lemma old_not_new s wid : ids_ok s → wid = kNext s → to_watcher wid (kStarted s ++ pending s) = [].
Proof.
  intros [_ Hp Hs] ->. unfold to_watcher. assert (Hall : Forall (λ n, (watcher_id (nTo n) < kNext s)%nat) (kStarted s ++ pending s)) by by apply Forall_app.
  induction Hall as [|n l Hn _ IH]; [done|]. rewrite filter_cons_False by (cbn in *; lia). done.
Qed.

(** C26: a watcher is told everything, whatever the interleaving. The critical sections of
    puts, deletes, sweeps, other watches and unsubscriptions, the steps of the saves and the
    rounds of the loops that start the handlers may come in any order. For a watcher that is
    not unsubscribed, the calls started for it and those that some operation has still to
    start are together the replay of its join and one call for each later change of a key it
    watches, and nothing else; taken in the order of the changes they rebuild the bucket: on
    the keys it watches what every reader sees, and nothing that the bucket does not hold.
    The order in which the calls are started is that of the changes only for a key whose
    operations take turns: then the calls started rebuild the bucket on that key once no call about it is
    still to be started. ([overlapping_puts_mislead] shows what happens otherwise; the
    handlers are goroutines, whose own order the bus does not determine.) *)
Theorem watcher_tracks_bucket (o : ranging) (b0 : kvBucket H) file (before : list (kvEvent H)) (key : string) (h : H) (now : Z)
    (evs : list (kvEvent H)) :
  watchers b0 = [] →
  let s0 := kv_run o (new_system b0 file) before in
  let wid := kNext s0 in
  let s1 := kv_step o s0 (EvWatch key h now) in
  let s2 := kv_run o s1 evs in
  let changes := to_watcher wid (history o s0 (EvWatch key h now :: evs)) in
  Forall (stays wid) evs →
  to_watcher wid (kStarted s2 ++ pending s2) ≡ₚ changes ∧
  ∀ k t, key = "" ∨ key = k → now ≤ t →
    shows (rebuild ∅ changes) (kBucket s2) t k ∧
    (take_turns o wid k s1 evs → about wid k (pending s2) = [] →
      shows (rebuild ∅ (to_watcher wid (kStarted s2))) (kBucket s2) t k).
Proof.
  intros Hb0 s0 wid s1 s2 changes Hstay.
  assert (Hids : ids_ok s0) by (apply run_ids; split; cbn; rewrite ?Hb0; constructor).
  pose proof (old_not_new s0 wid Hids eq_refl) as Hold.
  set (w := mkWatcher wid key h).
  assert (Ha : wid ∈ kActive s1) by (cbn; set_solver).
  assert (Hj : joined (kBucket s1) w).
  { exists (watchers (kBucket s0)), []. split_and!; [done| |apply not_elem_of_nil].
    intros (x & Hx & Hin)%list_elem_of_fmap. destruct Hids as [Hw _ _]. rewrite Forall_forall in Hw. specialize (Hw x Hin). cbn in Hx. unfold wid in Hx. lia. }
  assert (Hn : (watcher_id w < kNext s1)%nat) by (cbn; unfold wid; lia).
  pose proof (tracks_watch o (kBucket s0) wid key h now) as Ht.
  set (replay := jCalls (snd (bucket_watch o (kBucket s0) wid key h now))).
  assert (Hpend1 : pending s1 = pending s0 ++ replay).
  { unfold s1. cbn [kv_step]. unfold replay, wid. destruct (bucket_watch o (kBucket s0) (kNext s0) key h now) as [[w1 b] job]. apply pending_add. }
  assert (Hpend : kStarted s1 ++ pending s1 = (kStarted s0 ++ pending s0) ++ replay) by (rewrite Hpend1; apply app_assoc).
  assert (Hrep : to_watcher wid replay = replay).
  { unfold replay, bucket_watch. cbn [snd jCalls]. rewrite to_watcher_replay. by rewrite decide_True. }
  assert (Hchg : changes = replay ++ to_watcher wid (history o s1 evs)).
  { unfold changes. cbn [history]. rewrite to_watcher_app. by fold s1 wid replay; cbn [told]; fold wid replay; rewrite Hrep. }
  split.
  { etransitivity; [by apply run_tells|]. by rewrite Hpend, to_watcher_app, Hold, Hrep, Hchg. }
  intros k t Hk Hle.
  assert (Htr : tracks now (kBucket s2) w (rebuild ∅ changes)) by (rewrite Hchg, rebuild_app; by eapply run_tracks).
  pose proof (tracks_shows now t _ w _ k Hle Hk Htr) as Hshow. split; [exact Hshow|]. intros Hturn Hnil.
  assert (H1 : one (about wid k (pending s1))).
  { enough (E : about wid k (pending s1) = about wid k replay).
    - rewrite E, about_to_watcher, Hrep. apply (one_per_key _ fst); [|done]. apply NoDup_range_filter.
    - rewrite to_watcher_app in Hold. apply app_nil in Hold as [_ Ho]. rewrite Hpend1, about_app, (about_to_watcher _ _ (pending s0)), Ho. reflexivity. }
  assert (E : about wid k (kStarted s2) = filter (λ n, nKey n = k) changes).
  { pose proof (run_in_turns o w k evs s1 now _ Ha Hj Hn Hstay Ht H1 Hturn) as E. change (watcher_id w) with wid in E. fold s2 in E.
    rewrite about_app, Hnil, app_nil_r in E. rewrite E, !about_to_watcher, Hpend, to_watcher_app, Hold, Hrep, Hchg.
    rewrite app_nil_l, filter_app. done. }
  destruct Hshow as [S1 S2].
  assert (Heq : rebuild ∅ (to_watcher wid (kStarted s2)) !! k = rebuild ∅ changes !! k).
  { by rewrite (rebuild_key _ k ∅ ∅ eq_refl), <- about_to_watcher, E, <- (rebuild_key _ k ∅ ∅ eq_refl). }
  split; intros v; rewrite Heq; auto.
Qed.
End KVFacts.

(** ** Witnesses *)

Lemma request_reaches_all_witness :
  let s1 := mkSub "a" "job.*" "workers" 1%nat true in
  let s2 := mkSub "b" "job.*" "workers" 2%nat true in
  Request [("job.*", [s1; s2])] "_INBOX.1" "job.run" = Ok [s1; s2].
Proof.
  exact (request_reaches_all [("job.*", [mkSub "a" "job.*" "workers" 1%nat true; mkSub "b" "job.*" "workers" 2%nat true])]
    "_INBOX.1" "job.run" ltac:(apply (bool_decide_unpack _); vm_compute; exact I)).
Defined.

Lemma subscribe_unsubscribe_witness :
  live_in (removeSub (snd (subscribe ∅ "u" "plc.>" "" 1%nat)) (fst (subscribe ∅ "u" "plc.>" "" 1%nat))) "plc.x" ≡ₚ [].
Proof.
  exact (proj2 (subscribe_unsubscribe ∅ "u" "plc.>" "" "plc.x" 1%nat
    ltac:(apply (bool_decide_unpack _); vm_compute; exact I))).
Defined.

Definition empty_bucket (ttl : Z) : kvBucket nat := mkBucket ttl ∅ 0 [] false.

Lemma kv_updates_view_witness :
  visible (snd (fst (bucket_put (empty_bucket 10) "k" [1] 0))) 10 = {[ "k" := [1] ]}.
Proof.
  exact (proj1 (kv_updates_view map_order (empty_bucket 10) "k" [1] 0 10 ltac:(lia))).
Defined.

Lemma kv_revisions_increase_witness :
  match entries (run_ops map_order (mkBucket 0 ∅ 0 [] false : kvBucket nat) [OpPut "a" [1] 0; OpPut "b" [2] 0]) !! "b" with
  | Some e => revision e < 3
  | None => False
  end.
Proof.
  exact (proj1 (@kv_revisions_increase nat map_order 0 false [OpPut "a" [1] 0; OpPut "b" [2] 0] "c" [] 0 ltac:(cbn; lia))
    "b" (mkEntry [2] 2 None) eq_refl).
Defined.

(** A watcher joins a bucket with one entry; one key is put and another one deleted, each
    operation when the one before has started its calls. *)
Definition ex_before : list (kvEvent nat) := [EvOp (OpPut "a" [1] 0)].
Definition ex_turns : list (kvEvent nat) :=
  [EvCall 1; EvOp (OpPut "b" [2] 0); EvCall 2; EvOp (OpDelete "a"); EvWatch "b" 2%nat 0; EvCall 3; EvCall 4].

Lemma watcher_tracks_bucket_witness :
  let s0 := kv_run map_order (new_system (empty_bucket 0) None) ex_before in
  let s2 := kv_run map_order (kv_step map_order s0 (EvWatch "" 1%nat 0)) ex_turns in
  shows (rebuild ∅ (to_watcher 0 (kStarted s2))) (kBucket s2) 5 "b" ∧ visible (kBucket s2) 5 !! "b" = Some [2].
Proof.
  split; [|by vm_compute].
  refine (proj2 (proj2 (watcher_tracks_bucket map_order (empty_bucket 0) None ex_before "" 1%nat 0 ex_turns eq_refl _) "b" 5 _ _) _ _).
  - by repeat constructor.
  - by left.
  - lia.
  - vm_compute. repeat split; auto.
  - by vm_compute.
Defined.

(** Two puts of one key by two goroutines: the first has released the lock but not started
    its call when the second puts and starts its own. The calls are started in the wrong
    order, and the watcher is left with the value that was replaced. *)
Lemma overlapping_puts_mislead :
  let s := kv_run map_order (new_system (empty_bucket 0) None)
    [EvWatch "" 1%nat 0; EvOp (OpPut "a" [1] 0); EvOp (OpPut "a" [2] 0); EvCall 2; EvCall 1] in
  pending s = [] ∧ rebuild ∅ (to_watcher 0 (kStarted s)) !! "a" = Some [1] ∧ visible (kBucket s) 0 !! "a" = Some [2].
Proof. by vm_compute. Qed.

(** The same with the replay of a new watcher and a put that overtakes it. *)
Lemma put_overtakes_replay :
  let s := kv_run map_order (new_system (empty_bucket 0) None)
    [EvOp (OpPut "a" [1] 0); EvWatch "" 1%nat 0; EvOp (OpPut "a" [2] 0); EvCall 2; EvCall 1] in
  pending s = [] ∧ rebuild ∅ (to_watcher 0 (kStarted s)) !! "a" = Some [1] ∧ visible (kBucket s) 0 !! "a" = Some [2].
Proof. by vm_compute. Qed.

(** A put that is alone saves the bucket; of two at a time the snapshot taken first may be
    the one that stays on disk, and a restart loses the second put, although both have
    returned. *)
Definition persisted_bucket : kvBucket nat := mkBucket 0 ∅ 0 [] true.

Lemma whole_save o (s : kvSystem nat) i job t : kJobs s !! i = Some job → jSave job = SaveSnap →
  kFile (kv_run o s (replicate 3 (EvSave i t None))) = Some (Some (save t (kBucket s))).
Proof.
  intros Hi Hs. pose proof (lookup_lt_Some _ _ _ Hi) as Hlt. cbn [replicate kv_run fold_left].
  assert (Hstep : ∀ (s' : kvSystem nat) j, kJobs s' !! i = Some j → kv_step o s' (EvSave i t None) = save_step s' i j t None)
    by (intros s' j Hj; cbn [kv_step]; by rewrite Hj).
  rewrite (Hstep s job) by done. unfold save_step at 1. rewrite Hs.
  rewrite (Hstep (with_jobs s _) (mkJob (SaveWrite (save t (kBucket s))) (jCalls job))) by by apply list_lookup_insert_eq.
  cbn [save_step jSave jCalls]. rewrite (Hstep _ (mkJob SaveRename (jCalls job))); [done|].
  apply list_lookup_insert_eq. cbn. by rewrite length_insert.
Qed.

Lemma put_is_saved o key v now t (s : kvSystem nat) : persist (kBucket s) = true →
  kFile (kv_run o s (EvOp (OpPut key v now) :: replicate 3 (EvSave (length (kJobs s)) t None)))
  = Some (Some (save t (snd (fst (bucket_put (kBucket s) key v now))))).
Proof.
  intros Hp. change (kv_run o s (?ev :: ?l)) with (kv_run o (kv_step o s ev) l). cbn [kv_step apply_op].
  assert (Hjob : jSave (snd (bucket_put (kBucket s) key v now)) = SaveSnap) by (cbn; by rewrite Hp).
  destruct (bucket_put (kBucket s) key v now) as [[rev b] job]. rewrite (whole_save o _ _ job); [done| |done].
  cbn. rewrite lookup_app_r by lia. by rewrite Nat.sub_diag.
Qed.

Lemma overlapping_saves_lose :
  let s := kv_run map_order (new_system persisted_bucket None)
    [EvOp (OpPut "a" [1] 0); EvSave 0 0 None; EvOp (OpPut "a" [2] 0);
     EvSave 1 0 None; EvSave 1 0 None; EvSave 1 0 None; EvSave 0 0 None; EvSave 0 0 None] in
  Forall (λ j, jSave j = SaveDone) (kJobs s) ∧ kFile s = Some (Some {["a" := [1]]}) ∧ visible (kBucket s) 0 !! "a" = Some [2].
Proof. vm_compute. split; [by repeat constructor|done]. Qed.
