(* ===== verification/Topics.v ===== *)
(** Subjects of the bus: internal/topics/topics.go, [SanitizeForSubject] of
    types/common.go, and the subscription patterns of the gateway, the PLC publisher and
    the Modbus server. *)

From S2P Require Export Prelude GoBytes GoText ChannelBus.

(** ** Building subjects *)

(** The replacements of [SanitizeForSubject]: every replaced string is one byte. *)
Definition sanitize_char (c : ascii) : ascii :=
  match c with
  | " "%char | "."%char | ":"%char | "*"%char | ">"%char | ";"%char | "="%char => "_"%char
  | _ => c
  end.

Definition SanitizeForSubject (s : string) : string := str (map sanitize_char (chars s)).

Definition Browse (protocol : string) : string := protocol +:+ ".browse".
Definition ScannerSubscribe (protocol : string) : string := protocol +:+ ".subscribe".
Definition ScannerUnsubscribe (protocol : string) : string := protocol +:+ ".unsubscribe".
Definition ScannerVariables (protocol : string) : string := protocol +:+ ".variables".
Definition StatusBrowse (moduleType : string) : string := moduleType +:+ ".status.browse".
Definition Data (moduleID deviceID variableID : string) : string :=
  moduleID +:+ ".data." +:+ deviceID +:+ "." +:+ variableID.
Definition DataWildcard (moduleID : string) : string := moduleID +:+ ".data.>".
Definition AllData : string := "*.data.>".
Definition Command (moduleID variableID : string) : string :=
  moduleID +:+ ".command." +:+ variableID.
Definition CommandWildcard (moduleID : string) : string := moduleID +:+ ".command.>".
Definition Variables (moduleID : string) : string := moduleID +:+ ".variables".
Definition Shutdown (moduleID : string) : string := moduleID +:+ ".shutdown".

(** The gateway's subscription to a device (gateway.go, [subscribeToDeviceLocked]). *)
Definition gatewaySubject (protocol deviceID : string) : string :=
  protocol +:+ ".data." +:+ SanitizeForSubject deviceID +:+ ".>".
Definition gatewayBatchSubject (protocol deviceID : string) : string :=
  protocol +:+ ".data." +:+ SanitizeForSubject deviceID.

(** What the Modbus scanner publishes a tag under (scanner.go, [publishChanges]). *)
Definition modbusTagSubject (deviceID tagID : string) : string :=
  Data "modbus" (SanitizeForSubject deviceID) (SanitizeForSubject tagID).

(** What the PLC publishes a variable under (internal/plc/publisher.go). *)
Definition plcVariableSubject (plcID variableID : string) : string :=
  Data plcID plcID (SanitizeForSubject variableID).

(** What the Modbus server subscribes to for its source module (manager.go). *)
Definition serverDataSubject (sourceModuleID : string) : string :=
  "plc.data." +:+ SanitizeForSubject sourceModuleID +:+ ".*".

Example subjects_ex :
  modbusTagSubject "line 1" "db1.temp" = "modbus.data.line_1.db1_temp" ∧
  serverDataSubject "plc" = "plc.data.plc.*".
Proof. split; reflexivity. Qed.

(** ** Tokens *)

(** A token without dots: what an identifier without them contributes to a subject. *)
Definition one_token (s : string) : Prop := dot ∉ chars s.
#[export] Instance one_token_dec s : Decision (one_token s).
Proof. unfold one_token. apply _. Defined.

Lemma split_chars_none sep l : sep ∉ l → split_chars sep l = [l].
Proof.
  induction l as [|c l IH]; [done|]. intros Hs. apply not_elem_of_cons in Hs as [Hc Hl]. cbn.
  destruct (Ascii.eqb_spec c sep) as [->|_]; [done|]. by rewrite IH.
Qed.

Lemma split_chars_app sep l1 l2 :
  split_chars sep (l1 ++ sep :: l2) = split_chars sep l1 ++ split_chars sep l2.
Proof.
  induction l1 as [|c l1 IH]; cbn; [by rewrite Ascii.eqb_refl|].
  destruct (Ascii.eqb c sep); [by rewrite IH|]. rewrite IH.
  destruct (split_chars sep l1) as [|t ts] eqn:E; [by apply split_chars_not_nil in E|done].
Qed.

Lemma split_token s : one_token s → GoText.split dot s = [s].
Proof.
  intros Hs. unfold GoText.split. rewrite split_chars_none by done. cbn. by rewrite str_chars.
Qed.

Lemma split_dot a b : GoText.split dot (a +:+ "." +:+ b) = GoText.split dot a ++ GoText.split dot b.
Proof.
  unfold GoText.split. rewrite chars_app.
  change (chars ("." +:+ b)) with (dot :: chars b). by rewrite split_chars_app, fmap_app.
Qed.

Lemma sanitize_token s : one_token (SanitizeForSubject s).
Proof.
  unfold one_token, SanitizeForSubject. rewrite chars_str.
  intros (c & Hc & _)%list_elem_of_fmap. by destruct c as [[] [] [] [] [] [] [] []].
Qed.

Lemma sanitize_char_wild c : sanitize_char c ≠ "*"%char ∧ sanitize_char c ≠ ">"%char.
Proof. by destruct c as [[] [] [] [] [] [] [] []]. Qed.

(** A sanitized name is never a wildcard. *)
Lemma sanitize_not_wild s : SanitizeForSubject s ≠ "*" ∧ SanitizeForSubject s ≠ ">".
Proof.
  unfold SanitizeForSubject. destruct s as [|c [|]]; [done| |done].
  destruct (sanitize_char_wild c) as [H1 H2]. split; cbn; congruence.
Qed.

Definition plain_token (s : string) : Prop := one_token s ∧ s ≠ "*" ∧ s ≠ ">".
#[export] Instance plain_token_dec s : Decision (plain_token s).
Proof. unfold plain_token. apply _. Defined.

Lemma sanitize_plain s : plain_token (SanitizeForSubject s).
Proof. split; [apply sanitize_token|apply sanitize_not_wild]. Qed.

(** A plain token in a pattern stands only for itself. *)
Lemma match_plain p s ps ss : plain_token p →
  match_tokens (p :: ps) (s :: ss) = bool_decide (p = s) && match_tokens ps ss.
Proof.
  intros (_ & Hany & Hrest). cbn. rewrite (proj2 (String.eqb_neq _ _) Hrest), (proj2 (String.eqb_neq _ _) Hany).
  cbn. destruct (String.eqb_spec p s) as [->|Hne]; [by rewrite bool_decide_eq_true_2|by rewrite bool_decide_eq_false_2].
Qed.

Lemma split_data a d v : one_token a →
  GoText.split dot (Data a d v) = [a; "data"] ++ GoText.split dot d ++ GoText.split dot v.
Proof.
  intros Ha. unfold Data.
  change (a +:+ ".data." +:+ d +:+ "." +:+ v) with (a +:+ "." +:+ ("data" +:+ "." +:+ (d +:+ "." +:+ v))).
  rewrite !split_dot, (split_token a) by done. done.
Qed.

(** sanitizing makes one token out of any name, never a wildcard, and a second time
    changes nothing. *)
Theorem sanitize_spec (s : string) :
  GoText.split dot (SanitizeForSubject s) = [SanitizeForSubject s]
  ∧ SanitizeForSubject s ≠ "*" ∧ SanitizeForSubject s ≠ ">"
  ∧ SanitizeForSubject (SanitizeForSubject s) = SanitizeForSubject s.
Proof.
  split_and!; [apply split_token, sanitize_token|apply sanitize_not_wild..|].
  unfold SanitizeForSubject. rewrite chars_str, map_map. f_equal. apply map_ext.
  intros c. by destruct c as [[] [] [] [] [] [] [] []].
Qed.

Lemma split_not_nil s : GoText.split dot s ≠ [].
Proof.
  unfold GoText.split. destruct (split_chars dot (chars s)) eqn:E; [by apply split_chars_not_nil in E|done].
Qed.

(** a module that subscribes to its own data or commands gets all of its own and
    nobody else's, for any device and variable names, sanitized or not. *)
Theorem wildcards_route_by_module (a b d v : string) : plain_token a → one_token b →
  matchSubject (DataWildcard a) (Data b d v) = bool_decide (a = b)
  ∧ matchSubject (CommandWildcard a) (Command b v) = bool_decide (a = b)
  ∧ matchSubject (DataWildcard a) (Command b v) = false
  ∧ matchSubject AllData (Data b d v) = true.
Proof.
  intros Ha Hb. pose proof (proj1 Ha) as Ha1.
  assert (Hdw : GoText.split dot (DataWildcard a) = [a; "data"; ">"]).
  { unfold DataWildcard. change (a +:+ ".data.>") with (a +:+ "." +:+ ("data" +:+ "." +:+ ">")).
    by rewrite !split_dot, (split_token a). }
  assert (Hcw : GoText.split dot (CommandWildcard a) = [a; "command"; ">"]).
  { unfold CommandWildcard. change (a +:+ ".command.>") with (a +:+ "." +:+ ("command" +:+ "." +:+ ">")).
    by rewrite !split_dot, (split_token a). }
  assert (Hc : GoText.split dot (Command b v) = [b; "command"] ++ GoText.split dot v).
  { unfold Command. change (b +:+ ".command." +:+ v) with (b +:+ "." +:+ ("command" +:+ "." +:+ v)).
    by rewrite !split_dot, (split_token b). }
  unfold matchSubject. rewrite Hdw, Hcw, Hc, split_data by done. cbn [app].
  rewrite !(match_plain a) by done.
  pose proof (split_not_nil d) as Hd. pose proof (split_not_nil v) as Hv.
  destruct (GoText.split dot d) as [|t ts]; [done|]. destruct (GoText.split dot v) as [|t' ts']; [done|].
  cbn. by rewrite !andb_true_r, andb_false_r.
Qed.

(** the gateway's subscription for a Modbus device receives exactly the tags of
    devices whose names sanitize to the same token, and never its batch messages, which
    need the second subscription. *)
Theorem gateway_receives_scanner (device device' tag : string) :
  matchSubject (gatewaySubject "modbus" device) (modbusTagSubject device' tag)
    = bool_decide (SanitizeForSubject device = SanitizeForSubject device')
  ∧ matchSubject (gatewaySubject "modbus" device) (gatewayBatchSubject "modbus" device) = false
  ∧ matchSubject (gatewayBatchSubject "modbus" device) (gatewayBatchSubject "modbus" device) = true.
Proof.
  assert (Hg : GoText.split dot (gatewaySubject "modbus" device) = ["modbus"; "data"; SanitizeForSubject device; ">"]).
  { unfold gatewaySubject.
    change ("modbus" +:+ ".data." +:+ SanitizeForSubject device +:+ ".>")
      with ("modbus" +:+ "." +:+ ("data" +:+ "." +:+ (SanitizeForSubject device +:+ "." +:+ ">"))).
    by rewrite !split_dot, (split_token (SanitizeForSubject device)) by apply sanitize_token. }
  assert (Hb : GoText.split dot (gatewayBatchSubject "modbus" device) = ["modbus"; "data"; SanitizeForSubject device]).
  { unfold gatewayBatchSubject.
    change ("modbus" +:+ ".data." +:+ SanitizeForSubject device)
      with ("modbus" +:+ "." +:+ ("data" +:+ "." +:+ SanitizeForSubject device)).
    by rewrite !split_dot, (split_token (SanitizeForSubject device)) by apply sanitize_token. }
  assert (Hm : plain_token "modbus") by by apply (bool_decide_unpack _).
  assert (Hd : plain_token "data") by by apply (bool_decide_unpack _).
  pose proof (sanitize_plain device) as Hs.
  unfold matchSubject, modbusTagSubject. rewrite Hg, Hb, split_data by apply Hm.
  rewrite !split_token by apply sanitize_token. cbn [app].
  rewrite !(match_plain "modbus"), !(match_plain "data"), !(match_plain (SanitizeForSubject device)) by done.
  rewrite !(bool_decide_eq_true_2 ("modbus" = "modbus")), !(bool_decide_eq_true_2 ("data" = "data")),
    !(bool_decide_eq_true_2 (SanitizeForSubject device = SanitizeForSubject device)) by done.
  cbn. by rewrite !andb_true_r.
Qed.

(** the Modbus server subscribes under the fixed module name "plc": a PLC feeds it
    only when the PLC's own identifier is "plc" and is also the configured source, so a
    PLC module started under any other identifier never updates its registers. *)
Theorem server_feed_needs_plc (source plcID variableID : string) : one_token plcID →
  matchSubject (serverDataSubject source) (plcVariableSubject plcID variableID)
  = bool_decide (plcID = "plc" ∧ SanitizeForSubject source = "plc").
Proof.
  intros Hp. unfold matchSubject, serverDataSubject, plcVariableSubject.
  assert (Hg : GoText.split dot ("plc.data." +:+ SanitizeForSubject source +:+ ".*")
    = ["plc"; "data"; SanitizeForSubject source; "*"]).
  { change ("plc.data." +:+ SanitizeForSubject source +:+ ".*")
      with ("plc" +:+ "." +:+ ("data" +:+ "." +:+ (SanitizeForSubject source +:+ "." +:+ "*"))).
    by rewrite !split_dot, (split_token (SanitizeForSubject source)) by apply sanitize_token. }
  rewrite Hg, split_data, (split_token plcID), split_token by (done || apply sanitize_token).
  assert (Hm : plain_token "plc") by by apply (bool_decide_unpack _).
  assert (Hd : plain_token "data") by by apply (bool_decide_unpack _).
  pose proof (sanitize_plain source) as Hs. cbn [app].
  rewrite (match_plain "plc"), (match_plain "data"), (match_plain (SanitizeForSubject source)) by done.
  rewrite (bool_decide_eq_true_2 ("data" = "data")) by done. cbn. rewrite andb_true_r.
  rewrite <- bool_decide_and. apply bool_decide_ext. split; intros [-> ?]; split; congruence.
Qed.

(** ** Witnesses *)

Lemma wildcards_route_by_module_witness :
  matchSubject (DataWildcard "gateway") (Data "gateway" "a" "b.c") = true.
Proof.
  exact (proj1 (wildcards_route_by_module "gateway" "gateway" "a" "b.c"
    ltac:(apply (bool_decide_unpack _); vm_compute; exact I)
    ltac:(apply (bool_decide_unpack _); vm_compute; exact I))).
Defined.

Lemma server_feed_needs_plc_witness :
  matchSubject (serverDataSubject "plc2") (plcVariableSubject "plc2" "speed") = false.
Proof.
  exact (server_feed_needs_plc "plc2" "plc2" "speed"
    ltac:(apply (bool_decide_unpack _); vm_compute; exact I)).
Defined.
