(* ===== verification/StoreForward.v ===== *)
(** Sparkplug store-and-forward: internal/mqtt/storeforward.go.

    Records hold pointers to payloads, which live in a heap shared with the caller, so
    the in-place marking of [Drain] is visible to whoever else holds the payload. Time is
    the argument of every operation, in nanoseconds. *)

From S2P Require Export Prelude GoBytes GoFloat.
From stdpp Require Export gmap.
From Stdlib Require Export Sorting.Sorted.

#[local] Open Scope Z_scope.

Inductive StoreForwardState := SFOnline | SFOffline | SFDraining.
#[export] Instance StoreForwardState_eq_dec : EqDecision StoreForwardState.
Proof. solve_decision. Defined.

(** ** Payloads *)

Section Buffer.
(** The content of a Sparkplug metric apart from its historical flag. *)
Context {M : Type}.

Record metric := mkMetric { content : M; IsHistorical : bool }.

(** A pointer to a payload; a heap [gmap ptr (list metric)] gives its metrics. *)
Definition ptr : Type := positive.

Definition historical (m : metric) : metric := mkMetric (content m) true.

Record BufferedRecord := mkRecord {
  DeviceID : string;
  Payload : option ptr; (* None: nil *)
  Timestamp : Z;
}.

Record TimelineEntry := mkEntry {
  teTimestamp : Z;
  teState : StoreForwardState;
  teStateStr : string;
}.

Record StoreForwardBuffer := mkSF {
  state : StoreForwardState;
  records : list BufferedRecord;
  maxCount : Z;
  maxBytes : Z;
  drainRate : Z;
  totalBuffered : Z;
  totalDrained : Z;
  totalEvicted : Z;
  publishTimes : list Z;
  timeline : list TimelineEntry;
}.

Definition NewStoreForwardBuffer (maxRecords maxBytes rate : Z) (now : Z) : StoreForwardBuffer :=
  mkSF SFOffline [] (if maxRecords <=? 0 then 10000 else maxRecords) maxBytes
    (if rate <=? 0 then 100 else rate) 0 0 0 [] [mkEntry now SFOffline "buffering"].

(** ** State and timeline *)

Definition second : Z := 10 ^ 9.
Definition hour : Z := 3600 * second.

(** The trimming loop of [recordTimeline]. *)
Fixpoint trim_timeline (cutoff : Z) (tl : list TimelineEntry) : list TimelineEntry :=
  match tl with
  | a :: ((b :: _ :: _) as tl') =>
      if (teTimestamp a <? cutoff) && (teTimestamp b <? cutoff) then trim_timeline cutoff tl' else tl
  | _ => tl
  end.

Definition recordTimeline (sf : StoreForwardBuffer) (st : StoreForwardState) (str : string) (now : Z)
    : StoreForwardBuffer :=
  mkSF (state sf) (records sf) (maxCount sf) (maxBytes sf) (drainRate sf) (totalBuffered sf)
    (totalDrained sf) (totalEvicted sf) (publishTimes sf)
    (trim_timeline (now - hour) (timeline sf ++ [mkEntry now st str])).

Definition set_state (sf : StoreForwardBuffer) (st : StoreForwardState) : StoreForwardBuffer :=
  mkSF st (records sf) (maxCount sf) (maxBytes sf) (drainRate sf) (totalBuffered sf)
    (totalDrained sf) (totalEvicted sf) (publishTimes sf) (timeline sf).

Definition set_records (sf : StoreForwardBuffer) (rs : list BufferedRecord)
    (buffered drained evicted : Z) : StoreForwardBuffer :=
  mkSF (state sf) rs (maxCount sf) (maxBytes sf) (drainRate sf) buffered drained evicted
    (publishTimes sf) (timeline sf).

Definition set_publishTimes (sf : StoreForwardBuffer) (ts : list Z) : StoreForwardBuffer :=
  mkSF (state sf) (records sf) (maxCount sf) (maxBytes sf) (drainRate sf) (totalBuffered sf)
    (totalDrained sf) (totalEvicted sf) ts (timeline sf).

Definition SetOnline (sf : StoreForwardBuffer) (now : Z) : StoreForwardBuffer :=
  if bool_decide (state sf = SFOnline) then sf
  else if (0 <? length (records sf))%nat
  then recordTimeline (set_state sf SFDraining) SFDraining "draining" now
  else recordTimeline (set_state sf SFOnline) SFOnline "online" now.

Definition SetOffline (sf : StoreForwardBuffer) (now : Z) : StoreForwardBuffer :=
  if bool_decide (state sf = SFOffline) then sf
  else recordTimeline (set_state sf SFOffline) SFOffline "buffering" now.

(** ** Buffering and draining *)

(** The eviction loop of [Buffer]. On an empty list the slice expression would panic;
    it is not reached, as [maxCount] is positive. *)
Fixpoint evict (maxCount : Z) (rs : list BufferedRecord) (evicted : Z) : outcome (list BufferedRecord * Z) :=
  if maxCount <=? Z.of_nat (length rs) then
    match rs with
    | [] => Panic
    | _ :: rs' => evict maxCount rs' (wraps 64 (evicted + 1))
    end
  else Ok (rs, evicted).

Definition Buffer (sf : StoreForwardBuffer) (deviceID : string) (payload : option ptr) (now : Z)
    : outcome StoreForwardBuffer :=
  '(rs, evicted) ← evict (maxCount sf) (records sf) (totalEvicted sf);
  Ok (set_records sf (rs ++ [mkRecord deviceID payload now])
    (wraps 64 (totalBuffered sf + 1)) (totalDrained sf) evicted).

(** Marking the metrics of the batch as historical, through the pointers. *)
Definition mark (h : gmap ptr (list metric)) (batch : list BufferedRecord) : gmap ptr (list metric) :=
  fold_left (λ h r, match Payload r with Some p => alter (map historical) p h | None => h end) batch h.

(** The batch, the buffer and the heap afterwards; [None] is Go's nil. *)
Definition Drain (sf : StoreForwardBuffer) (h : gmap ptr (list metric)) (now : Z)
    : option (list BufferedRecord) * StoreForwardBuffer * gmap ptr (list metric) :=
  if negb (bool_decide (state sf = SFDraining)) then (None, sf, h)
  else
    match records sf with
    | [] => (None, recordTimeline (set_state sf SFOnline) SFOnline "online" now, h)
    | _ =>
        let count := if Z.of_nat (length (records sf)) <? drainRate sf
                     then Z.of_nat (length (records sf)) else drainRate sf in
        let batch := take (Z.to_nat count) (records sf) in
        (Some batch,
         set_records sf (drop (Z.to_nat count) (records sf)) (totalBuffered sf)
           (wraps 64 (totalDrained sf + count)) (totalEvicted sf),
         mark h batch)
    end.

Definition BufferedCount (sf : StoreForwardBuffer) : nat := length (records sf).

(** ** The publish rate *)

Fixpoint trim_times (cutoff : Z) (ts : list Z) : list Z :=
  match ts with
  | t :: ts' => if t <? cutoff then trim_times cutoff ts' else ts
  | [] => []
  end.

Definition RecordPublish (sf : StoreForwardBuffer) (metricCount : nat) (now : Z) : StoreForwardBuffer :=
  set_publishTimes sf (trim_times (now - 10 * second) (publishTimes sf ++ replicate metricCount now)).

Definition PublishRate (sf : StoreForwardBuffer) (now : Z) : float64 * StoreForwardBuffer :=
  let ts := trim_times (now - 10 * second) (publishTimes sf) in
  (match ts with
   | [] => f64_zero
   | _ => f64_div (f64_of_Z (Z.of_nat (length ts))) (f64_of_Z 10)
   end, set_publishTimes sf ts).

(** ** Status *)

(** The timeline points: the time each is shown at (the pre-window entry is clamped to
    the window's edge) and its name. *)
Definition timeline_points (tl : list TimelineEntry) (now : Z) : list (Z * string) :=
  let hourAgo := now - hour in
  let inside := filter (λ te, (teTimestamp te <? hourAgo) = false) tl in
  let before := filter (λ te, (teTimestamp te <? hourAgo) = true) tl in
  let points := map (λ te, (teTimestamp te, teStateStr te)) inside in
  let points := match last before with
    | Some te => (hourAgo, teStateStr te) :: points
    | None => points
    end in
  match points, last tl with
  | [], Some te => [(teTimestamp te, teStateStr te)]
  | _, _ => points
  end.

Record StoreForwardStatus := mkStatus {
  State : string;
  PrimaryHostOnline : bool;
  sBufferedCount : nat;
  MaxRecords : Z;
  UsagePercent : float64;
  Draining : bool;
  DrainETA : float64;
  TotalBuffered : Z;
  TotalDrained : Z;
  TotalEvicted : Z;
  sPublishRate : float64;
  Timeline : list (Z * string);
}.

Definition Status (sf : StoreForwardBuffer) (now : Z) : StoreForwardStatus * StoreForwardBuffer :=
  let stateStr := match state sf with SFOffline => "offline" | SFDraining => "draining" | SFOnline => "online" end in
  let n := f64_of_Z (Z.of_nat (length (records sf))) in
  let usage := if 0 <? maxCount sf
               then f64_mul (f64_div n (f64_of_Z (maxCount sf))) (f64_of_Z 100) else f64_zero in
  let draining := bool_decide (state sf = SFDraining) in
  let eta := if draining && (0 <? drainRate sf) then f64_div n (f64_of_Z (drainRate sf)) else f64_zero in
  let '(rate, sf') := PublishRate sf now in
  (mkStatus stateStr (negb (bool_decide (state sf = SFOffline))) (length (records sf)) (maxCount sf)
     usage draining eta (totalBuffered sf) (totalDrained sf) (totalEvicted sf) rate
     (timeline_points (timeline sf) now), sf').

End Buffer.
Arguments metric : clear implicits.

(** ** Sequences of operations *)

Section Runs.
Context {M : Type}.

Inductive sfOp :=
  | OpBuffer (deviceID : string) (payload : option ptr) (now : Z)
  | OpDrain (now : Z)
  | OpOnline (now : Z)
  | OpOffline (now : Z)
  | OpPublish (metricCount : nat) (now : Z)
  | OpStatus (now : Z).

(** The buffer, the heap, and two logs: the records offered so far and those drained. *)
Record world := mkWorld {
  sf : StoreForwardBuffer;
  mem : gmap ptr (list (metric M));
  offered : list BufferedRecord;
  drained : list BufferedRecord;
}.

Definition step (w : world) (op : sfOp) : outcome world :=
  match op with
  | OpBuffer d p now =>
      s ← Buffer (sf w) d p now;
      Ok (mkWorld s (mem w) (offered w ++ [mkRecord d p now]) (drained w))
  | OpDrain now =>
      let '(batch, s, h) := Drain (sf w) (mem w) now in
      Ok (mkWorld s h (offered w) (drained w ++ default [] batch))
  | OpOnline now => Ok (mkWorld (SetOnline (sf w) now) (mem w) (offered w) (drained w))
  | OpOffline now => Ok (mkWorld (SetOffline (sf w) now) (mem w) (offered w) (drained w))
  | OpPublish n now => Ok (mkWorld (RecordPublish (sf w) n now) (mem w) (offered w) (drained w))
  | OpStatus now => Ok (mkWorld (snd (Status (sf w) now)) (mem w) (offered w) (drained w))
  end.

Fixpoint run (w : world) (ops : list sfOp) : outcome world :=
  match ops with
  | [] => Ok w
  | op :: ops' => w' ← step w op; run w' ops'
  end.

(** The buffer's invariant: what was offered is, in order, what was removed followed by
    what is held; the drained records are among the removed ones, in order; the counters
    count; the capacity is kept. *)
Definition sf_inv (w : world) (n : Z) : Prop :=
  0 < maxCount (sf w) ∧ 0 < drainRate (sf w)
  ∧ Z.of_nat (length (records (sf w))) ≤ maxCount (sf w)
  ∧ totalBuffered (sf w) = Z.of_nat (length (offered w))
  ∧ totalDrained (sf w) = Z.of_nat (length (drained w))
  ∧ totalBuffered (sf w) = totalDrained (sf w) + totalEvicted (sf w) + Z.of_nat (length (records (sf w)))
  ∧ 0 ≤ totalEvicted (sf w) ∧ totalBuffered (sf w) ≤ n
  ∧ ∃ removed, offered w = removed ++ records (sf w) ∧ drained w `sublist_of` removed.

Lemma evict_spec c rs e : 0 < c → 0 ≤ e → e + Z.of_nat (length rs) < 2 ^ 63 →
  ∃ gone rs', rs = gone ++ rs' ∧ evict c rs e = Ok (rs', e + Z.of_nat (length gone))
    ∧ Z.of_nat (length rs') < c
    ∧ (Z.of_nat (length rs) < c → gone = []) ∧ (c ≤ Z.of_nat (length rs) → Z.of_nat (length rs') = c - 1).
Proof.
  intros Hc. revert e. induction rs as [|r rs IH]; intros e He Hb.
  - exists [], []. split_and!; [done| |cbn; lia|done|cbn; lia]. cbn [evict].
    rewrite (proj2 (Z.leb_gt _ _)) by (cbn; lia). cbn. by rewrite Z.add_0_r.
  - cbn [evict]. destruct (Z.leb_spec c (Z.of_nat (length (r :: rs)))) as [Hle|Hgt].
    + change (length (r :: rs)) with (S (length rs)) in *.
      rewrite wraps_small by (unfold in_s; lia).
      destruct (IH (e + 1) ltac:(lia) ltac:(lia)) as (gone & rs' & Hrs & Hev & Hlen & Hlt & Hge).
      exists (r :: gone), rs'. rewrite Hev. subst rs. split_and!; [done| |done|lia|].
      * do 2 f_equal. cbn [length]. lia.
      * intros _. destruct (decide (c ≤ Z.of_nat (length (gone ++ rs')))) as [H1|H1]; [by apply Hge|].
        specialize (Hlt ltac:(lia)). subst gone. cbn [length app] in *. lia.
    + exists [], (r :: rs). split_and!; [done| |done|done|lia]. cbn. by rewrite Z.add_0_r.
Qed.

Lemma sublist_app_l {A} (l k1 k2 : list A) : l `sublist_of` k1 → l `sublist_of` k1 ++ k2.
Proof. intros Hs. etransitivity; [exact Hs|]. apply sublist_inserts_r. reflexivity. Qed.

Lemma sf_inv_step w n op : sf_inv w n → n + 1 < 2 ^ 63 →
  ∃ w', step w op = Ok w' ∧ sf_inv w' (n + 1) ∧ maxCount (sf w') = maxCount (sf w).
Proof.
  intros (Hc & Hr & Hlen & Hb & Hd & Hcons & He & Hn & removed & Hoff & Hsub) Hn1.
  assert (Hkeep : ∀ s, maxCount s = maxCount (sf w) → drainRate s = drainRate (sf w) →
    records s = records (sf w) → totalBuffered s = totalBuffered (sf w) →
    totalDrained s = totalDrained (sf w) → totalEvicted s = totalEvicted (sf w) →
    sf_inv (mkWorld s (mem w) (offered w) (drained w)) (n + 1)).
  { intros s E1 E2 E3 E4 E5 E6. unfold sf_inv. cbn [sf offered drained].
    rewrite E1, E2, E3, E4, E5, E6. split_and!; try lia. by exists removed. }
  destruct op as [d p now|now|now|now|k now|now]; cbn [step].
  - destruct (evict_spec (maxCount (sf w)) (records (sf w)) (totalEvicted (sf w)) Hc He ltac:(lia))
      as (gone & rs' & Hrs & Hev & Hl' & Hlt & Hge).
    unfold Buffer. rewrite Hev. cbn [mbind outcome_bind]. eexists; split; [done|].
    rewrite wraps_small by (unfold in_s; lia). rewrite Hrs in Hcons, Hlen. rewrite length_app in Hcons.
    unfold sf_inv. cbn [sf offered drained set_records maxCount drainRate records totalBuffered totalDrained totalEvicted].
    rewrite !length_app. cbn [length]. split; [|done]. split_and!; try lia.
    exists (removed ++ gone). split; [by rewrite Hoff, Hrs, <- !app_assoc|]. by apply sublist_app_l.
  - unfold Drain. destruct (bool_decide (state (sf w) = SFDraining)); cbn [negb].
    2: { eexists; split; [done|]. split; [|done]. cbn [default]. rewrite app_nil_r. by apply Hkeep. }
    destruct (records (sf w)) as [|r rs] eqn:Hrs.
    { eexists; split; [done|]. split; [|done]. cbn [default]. rewrite app_nil_r. by apply Hkeep. }
    eexists; split; [done|]. rewrite <- Hrs in *. split; [|done].
    set (count := if Z.of_nat (length (records (sf w))) <? drainRate (sf w) then _ else _).
    assert (Hcount : 0 ≤ count ≤ Z.of_nat (length (records (sf w))))
      by (subst count; case_if; bool_to_prop; lia).
    unfold sf_inv. cbn [sf offered drained set_records maxCount drainRate records totalBuffered totalDrained totalEvicted default from_option Datatypes.id].
    rewrite wraps_small by (unfold in_s; lia).
    rewrite length_app, length_take, length_drop, Nat.min_l by lia. split_and!; try lia.
    exists (removed ++ take (Z.to_nat count) (records (sf w))).
    split; [by rewrite <- app_assoc, take_drop|]. by apply sublist_app.
  - eexists; split; [done|]. split; [|unfold SetOnline; by repeat case_if].
    apply Hkeep; unfold SetOnline; by repeat case_if.
  - eexists; split; [done|]. split; [|unfold SetOffline; by repeat case_if].
    apply Hkeep; unfold SetOffline; by repeat case_if.
  - eexists; split; [done|]. split; [|done]. by apply Hkeep.
  - eexists; split; [done|]. split; [|done]. by apply Hkeep.
Qed.

Lemma sf_inv_run ops : ∀ w n, sf_inv w n → n + Z.of_nat (length ops) < 2 ^ 63 →
  ∃ w' n', run w ops = Ok w' ∧ sf_inv w' n' ∧ maxCount (sf w') = maxCount (sf w).
Proof.
  induction ops as [|op ops IH]; intros w n Hi Hn; [by exists w, n|]. cbn [run length] in *.
  destruct (sf_inv_step w n op Hi ltac:(lia)) as (w1 & -> & Hi1 & Hm1). cbn [mbind outcome_bind].
  destruct (IH w1 (n + 1) Hi1 ltac:(lia)) as (w' & n' & Hr & Hi' & Hm').
  exists w', n'. split_and!; [done|done|congruence].
Qed.

Definition start (maxRecords maxBytes rate now : Z) (h : gmap ptr (list (metric M))) : world :=
  mkWorld (NewStoreForwardBuffer maxRecords maxBytes rate now) h [] [].

(** C29: the buffer is a bounded queue: any sequence of operations runs without a panic,
    never holds more than the configured maximum, keeps the records in the order they
    were offered (what it holds is the most recent part of them), drains each at most
    once and in order, and accounts for every record as held, drained or evicted. *)
Theorem store_forward_queue (maxRecords maxBytes rate now : Z) (h : gmap ptr (list (metric M))) (ops : list sfOp) :
  Z.of_nat (length ops) < 2 ^ 63 →
  ∃ w, run (start maxRecords maxBytes rate now h) ops = Ok w
    ∧ Z.of_nat (length (records (sf w))) ≤ (if maxRecords <=? 0 then 10000 else maxRecords)
    ∧ (∃ removed, offered w = removed ++ records (sf w) ∧ drained w `sublist_of` removed)
    ∧ totalBuffered (sf w) = Z.of_nat (length (offered w))
    ∧ totalDrained (sf w) = Z.of_nat (length (drained w))
    ∧ totalBuffered (sf w) = totalDrained (sf w) + totalEvicted (sf w) + Z.of_nat (length (records (sf w))).
Proof.
  intros Hl.
  assert (H0 : sf_inv (start maxRecords maxBytes rate now h) 0).
  { unfold sf_inv, start, NewStoreForwardBuffer. cbn [sf maxCount drainRate records totalBuffered
      totalDrained totalEvicted offered drained]. cbn [length].
    destruct (Z.leb_spec maxRecords 0), (Z.leb_spec rate 0); split_and!; try lia; by exists []. }
  destruct (sf_inv_run ops _ 0 H0 Hl) as (w & n & Hrun & (_ & _ & Hlen & Hb & Hd & Hcons & _ & _ & Hx) & Hm).
  exists w. split_and!; try done. rewrite Hm in Hlen. exact Hlen.
Qed.
End Runs.

(** ** Draining *)

Section DrainFacts.
Context {M : Type}.
Implicit Types (h : gmap ptr (list (metric M))).

Lemma mark_lookup h (batch : list BufferedRecord) p :
  mark h batch !! p =
  if decide (Some p ∈ map Payload batch) then map historical <$> h !! p else h !! p.
Proof.
  assert (Hidem : ∀ l : list (metric M), map historical (map historical l) = map historical l).
  { intros l. rewrite map_map. by apply map_ext. }
  unfold mark. revert h. induction batch as [|r batch IH]; intros h; cbn [fold_left map].
  - rewrite decide_False; [done|apply not_elem_of_nil].
  - rewrite IH. destruct (Payload r) as [q|].
    + destruct (decide (q = p)) as [->|Hne].
      * rewrite lookup_alter_eq. rewrite (decide_True (P := Some p ∈ Some p :: _)) by by left.
        case_decide; [|done]. destruct (h !! p); cbn; [|done]. by rewrite Hidem.
      * rewrite lookup_alter_ne by done. apply decide_ext. rewrite elem_of_cons. naive_solver.
    + apply decide_ext. rewrite elem_of_cons. naive_solver.
Qed.

(** a drained batch is the oldest records, at most the drain rate, removed from the
    buffer; every metric of every payload in it is marked historical, and payloads that
    no record of the batch points to are untouched. *)
Theorem drain_batch (s : StoreForwardBuffer) (h : gmap ptr (list (metric M))) (now : Z) :
  state s = SFDraining → records s ≠ [] → 0 < drainRate s →
  ∃ batch s' h', Drain s h now = (Some batch, s', h')
    ∧ records s = batch ++ records s' ∧ batch ≠ []
    ∧ Z.of_nat (length batch) ≤ drainRate s
    ∧ (∀ p ms, Some p ∈ map Payload batch → h' !! p = Some ms → Forall (λ m, IsHistorical m = true) ms)
    ∧ ∀ p, Some p ∉ map Payload batch → h' !! p = h !! p.
Proof.
  intros Hst Hne Hrate. unfold Drain. rewrite Hst, bool_decide_eq_true_2 by done. cbn [negb].
  destruct (records s) as [|r rs] eqn:Hrs; [done|]. rewrite <- Hrs.
  set (count := if Z.of_nat (length (records s)) <? drainRate s then _ else _).
  assert (Hcount : 0 < count ≤ Z.of_nat (length (records s)) ∧ count ≤ drainRate s).
  { subst count. rewrite Hrs. cbn [length]. case_if; bool_to_prop; lia. }
  eexists _, _, _. split; [done|]. cbn [records set_records]. split_and!.
  - by rewrite take_drop.
  - rewrite Hrs. destruct (Z.to_nat count) eqn:E; [lia|done].
  - rewrite length_take. lia.
  - intros p ms Hp. rewrite mark_lookup, decide_True by done. intros Hms.
    destruct (h !! p) as [l|]; [|done]. injection Hms as <-. apply Forall_map, Forall_true. done.
  - intros p Hp. by rewrite mark_lookup, decide_False.
Qed.

(** [n] drains in a row, at the given times. *)
Fixpoint drains (s : StoreForwardBuffer) (h : gmap ptr (list (metric M))) (times : list Z) : StoreForwardBuffer * gmap ptr (list (metric M)) :=
  match times with
  | [] => (s, h)
  | t :: ts => let '(_, s', h') := Drain s h t in drains s' h' ts
  end.

Lemma drains_length times : ∀ s h, state s = SFDraining → 0 < drainRate s →
  (Z.of_nat (length times) * drainRate s < Z.of_nat (length (records s)) + drainRate s) →
  state (fst (drains s h times)) = SFDraining ∧ drainRate (fst (drains s h times)) = drainRate s
  ∧ Z.of_nat (length (records (fst (drains s h times))))
    = Z.max 0 (Z.of_nat (length (records s)) - Z.of_nat (length times) * drainRate s).
Proof.
  induction times as [|t ts IH]; intros s h Hst Hr Hn; [cbn; split_and!; [done|done|lia]|].
  cbn [drains length] in *. destruct (records s) as [|r rs] eqn:Hrs.
  { cbn in Hn. lia. }
  assert (Hne : records s ≠ []) by by rewrite Hrs.
  unfold Drain. rewrite Hst, bool_decide_eq_true_2 by done. cbn [negb]. rewrite Hrs, <- Hrs.
  set (count := if Z.of_nat (length (records s)) <? drainRate s then _ else _).
  assert (Hcount : count = Z.min (Z.of_nat (length (records s))) (drainRate s))
    by (subst count; case_if; bool_to_prop; lia).
  rewrite <- Hrs in Hn. edestruct IH as (H1 & H2 & H3); [| | |split_and!; [exact H1|exact H2|rewrite H3]];
    cbn [state drainRate records set_records]; [done|done|rewrite length_drop; nia|].
  rewrite length_drop. nia.
Qed.

(** draining terminates: with nothing new buffered, as many drains as the backlog
    takes at the drain rate empty the buffer, and the next one goes online. *)
Theorem drain_completes (s : StoreForwardBuffer) (h : gmap ptr (list (metric M))) (times : list Z) (now : Z) :
  state s = SFDraining → 0 < drainRate s →
  Z.of_nat (length times) = (Z.of_nat (length (records s)) + drainRate s - 1) / drainRate s →
  let '(s', h') := drains s h times in
  records s' = [] ∧ state s' = SFDraining
  ∧ let '(batch, s2, _) := Drain s' h' now in batch = None ∧ state s2 = SFOnline.
Proof.
  intros Hst Hr Hn. destruct (drains s h times) as [s' h'] eqn:E.
  pose proof (Z.div_mod (Z.of_nat (length (records s)) + drainRate s - 1) (drainRate s) ltac:(lia)) as Hdm.
  pose proof (Z.mod_pos_bound (Z.of_nat (length (records s)) + drainRate s - 1) (drainRate s) Hr) as Hmod.
  rewrite <- Hn in Hdm.
  destruct (drains_length times s h Hst Hr) as (H1 & H2 & H3); [nia|]. rewrite E in *. cbn [fst] in *.
  assert (Hnil : records s' = []) by (apply nil_length_inv; nia).
  split_and!; [done|done|]. unfold Drain. rewrite H1, bool_decide_eq_true_2, Hnil by done. done.
Qed.

(** records buffered while the buffer is online (the bridge does this when its node
    is not connected) are held back: going online again and draining both do nothing,
    until the buffer has been taken offline. *)
Theorem online_records_held (s : StoreForwardBuffer) (h : gmap ptr (list (metric M))) (now : Z) :
  state s = SFOnline →
  SetOnline s now = s ∧ Drain s h now = (None, s, h)
  ∧ (records s ≠ [] → state (SetOnline (SetOffline s now) now) = SFDraining).
Proof.
  intros Hst. unfold SetOnline, Drain. rewrite Hst. split_and!; [done|done|]. intros Hne.
  unfold SetOffline. rewrite Hst, (bool_decide_eq_false_2 (SFOnline = SFOffline)) by done.
  cbn [state recordTimeline set_state records]. rewrite bool_decide_eq_false_2 by done.
  destruct (records s); done.
Qed.

End DrainFacts.

(** ** The publish rate and the timeline *)

Lemma trim_times_filter cutoff ts : Sorted Z.le ts →
  trim_times cutoff ts = filter (λ t, cutoff ≤ t) ts.
Proof.
  intros Hs. apply Sorted_StronglySorted in Hs; [|intros ? ? ?; lia].
  induction Hs as [|t ts Hs IH Hall]; [done|]. cbn [trim_times].
  destruct (Z.ltb_spec t cutoff) as [Hlt|Hge].
  - rewrite filter_cons_False by lia. done.
  - rewrite filter_cons_True by lia. f_equal. clear IH Hs.
    induction Hall as [|u us Hu Hus IH]; [done|]. rewrite filter_cons_True by lia. by f_equal.
Qed.

(** Publishes of [n] metrics at time [t]. *)
Definition publish_all (s : StoreForwardBuffer) (ps : list (nat * Z)) : StoreForwardBuffer :=
  fold_left (λ s p, RecordPublish s (fst p) (snd p)) ps s.
Definition publish_log (ps : list (nat * Z)) : list Z :=
  concat (map (λ p, replicate (fst p) (snd p)) ps).

Lemma sorted_app_replicate (ts : list Z) n t : Sorted Z.le ts → Forall (λ u, u ≤ t) ts →
  Sorted Z.le (ts ++ replicate n t).
Proof.
  intros Hs Hall. apply Sorted_StronglySorted in Hs; [|intros ? ? ?; lia]. apply StronglySorted_Sorted.
  induction Hs as [|u us Hs IH Hu]; cbn.
  - clear Hall. induction n as [|n IH]; cbn; constructor; [done|]. by apply Forall_replicate.
  - apply Forall_cons in Hall as [Hut Hall]. constructor; [by apply IH|].
    apply Forall_app. split; [done|by apply Forall_replicate].
Qed.

Lemma filter_ge_filter a b (l : list Z) : a ≤ b →
  filter (λ t, b ≤ t) (filter (λ t, a ≤ t) l) = filter (λ t, b ≤ t) l.
Proof. intros Hab. rewrite list_filter_filter. apply list_filter_iff. intros. lia. Qed.

Lemma sorted_filter_ge a (l : list Z) : Sorted Z.le l → Sorted Z.le (filter (λ t, a ≤ t) l).
Proof.
  intros Hs. apply Sorted_StronglySorted in Hs; [|intros ? ? ?; lia]. apply StronglySorted_Sorted.
  induction Hs as [|u us Hs IH Hu]; [constructor|]. rewrite filter_cons. case_decide; [|done].
  constructor; [done|]. apply Forall_forall. intros v Hv.
  apply list_elem_of_filter in Hv as [_ Hv]. by eapply Forall_forall in Hu.
Qed.

Definition clock_monotonic (ps : list (nat * Z)) (now : Z) : Prop :=
  Sorted Z.le (map snd ps ++ [now]).

Lemma publish_window ps : ∀ s log now, Sorted Z.le log → clock_monotonic ps now →
  Forall (λ t, Forall (λ u, u ≤ t) log) (map snd ps ++ [now]) →
  (∃ c, publishTimes s = filter (λ t, c ≤ t) log ∧ Forall (λ t, c ≤ t - 10 * second) (map snd ps ++ [now])) →
  Sorted Z.le (log ++ publish_log ps)
  ∧ ∃ c, publishTimes (publish_all s ps) = filter (λ t, c ≤ t) (log ++ publish_log ps)
    ∧ c ≤ now - 10 * second.
Proof.
  induction ps as [|[n t] ps IH]; intros s log now Hlog Hclock Hall (c & Hc & Hcall).
  - cbn in *. rewrite app_nil_r. split; [done|]. exists c. split; [done|]. by apply Forall_cons in Hcall as [? _].
  - cbn [map app snd] in *. unfold clock_monotonic in Hclock. cbn [map app snd] in Hclock.
    apply Sorted_StronglySorted in Hclock as Hss; [|intros ? ? ?; lia].
    apply StronglySorted_inv in Hss as [Hss Hle].
    apply Forall_cons in Hall as [Ht Hall]. apply Forall_cons in Hcall as [Hct _].
    pose proof (sorted_app_replicate log n t Hlog Ht) as Hlog'.
    destruct (IH (RecordPublish s n t) (log ++ replicate n t) now) as [Hs2 (c' & Hc' & Hle')].
    + done.
    + by apply StronglySorted_Sorted.
    + rewrite Forall_forall in Hle, Hall |- *. intros u Hu. apply Forall_app. split; [by apply Hall|].
      apply Forall_replicate. by apply Hle.
    + exists (t - 10 * second). split.
      * cbn [RecordPublish publishTimes set_publishTimes]. rewrite Hc.
        assert (Hrep : replicate n t = filter (λ u, c ≤ u) (replicate n t)).
        { symmetry. clear -Hct. induction n as [|n IH]; [done|]. cbn [replicate].
          rewrite filter_cons_True by (unfold second in *; lia). by f_equal. }
        assert (E : filter (λ t, c ≤ t) log ++ replicate n t = filter (λ t, c ≤ t) (log ++ replicate n t))
          by (rewrite filter_app; by f_equal).
        rewrite E, trim_times_filter by by apply sorted_filter_ge.
        by apply filter_ge_filter.
      * rewrite Forall_forall in Hle |- *. intros u Hu. apply Hle in Hu. lia.
    + unfold publish_log in *. cbn [map concat fst snd]. rewrite app_assoc. split; [done|]. by exists c'.
Qed.

(** the publish rate is the number of metrics published in the last ten seconds,
    divided by ten, as long as the clock does not run backwards: trimming on every
    publish never drops a metric that still counts. *)
Theorem publish_rate_window (s : StoreForwardBuffer) (ps : list (nat * Z)) (now : Z) :
  publishTimes s = [] → clock_monotonic ps now →
  let n := length (filter (λ t, now - 10 * second ≤ t) (publish_log ps)) in
  fst (PublishRate (publish_all s ps) now)
  = if (n =? 0)%nat then f64_zero else f64_div (f64_of_Z (Z.of_nat n)) (f64_of_Z 10).
Proof.
  intros Hs Hclock. cbn zeta.
  destruct (publish_window ps s [] now) as [Hsort (c & Hc & Hle)].
  - constructor.
  - done.
  - apply Forall_true. constructor.
  - assert (Hmin : ∃ c, Forall (λ t, c ≤ t - 10 * second) (map snd ps ++ [now])).
    { generalize (map snd ps ++ [now]) as l. induction l as [|t l [c IH]]; [by exists 0|].
      exists (Z.min c (t - 10 * second)). constructor; [lia|].
      eapply Forall_impl; [exact IH|]. cbn. lia. }
    destruct Hmin as [c Hc]. exists c. by rewrite Hs.
  - cbn [app] in *. unfold PublishRate. cbn [fst]. rewrite Hc.
    rewrite trim_times_filter by by apply sorted_filter_ge. rewrite filter_ge_filter by lia.
    set (l := filter _ _). by destruct l.
Qed.

(** The state the timeline shows at time [t]: the last entry not after it. *)
Definition state_at (tl : list TimelineEntry) (t : Z) : option StoreForwardState :=
  teState <$> last (filter (λ te, teTimestamp te ≤ t) tl).

Lemma trim_state_at cutoff tl t : cutoff ≤ t → state_at (trim_timeline cutoff tl) t = state_at tl t.
Proof.
  intros Ht. induction tl as [|a tl IH]; [done|]. destruct tl as [|b [|c tl]]; [done|done|].
  change (trim_timeline cutoff (a :: b :: c :: tl)) with
    (if (teTimestamp a <? cutoff) && (teTimestamp b <? cutoff)
     then trim_timeline cutoff (b :: c :: tl) else a :: b :: c :: tl).
  case_if; [|done]. bool_to_prop. rewrite IH. unfold state_at.
  rewrite !(filter_cons_True _ a), !(filter_cons_True _ b) by lia. done.
Qed.

(** the timeline keeps an hour: recording a transition never changes the state shown
    for any earlier time within the last hour, its left edge included, although old
    entries are dropped. *)
Theorem timeline_keeps_hour (s : StoreForwardBuffer) (st : StoreForwardState) (str : string) (now t : Z) :
  now - hour ≤ t → t < now →
  state_at (timeline (recordTimeline s st str now)) t = state_at (timeline s) t.
Proof.
  intros H1 H2. cbn [recordTimeline timeline]. rewrite trim_state_at by done. unfold state_at.
  rewrite filter_app, (filter_cons_False _ (mkEntry now st str)) by (cbn; lia).
  by rewrite app_nil_r.
Qed.

(** ** Witnesses *)

Lemma store_forward_queue_witness : ∃ w,
  run (start 2 0 1 0 (∅ : gmap ptr (list (metric nat)))) [OpBuffer "d" None 1; OpBuffer "d" None 2; OpBuffer "e" None 3; OpOnline 4; OpDrain 5]
    = Ok w ∧ Z.of_nat (length (records (sf w))) ≤ 2.
Proof.
  destruct (store_forward_queue 2 0 1 0 (∅ : gmap ptr (list (metric nat)))
    [OpBuffer "d" None 1; OpBuffer "d" None 2; OpBuffer "e" None 3; OpOnline 4; OpDrain 5]
    ltac:(cbn; lia)) as (w & H1 & H2 & _).
  exists w. split; [exact H1|exact H2].
Defined.

(** A draining buffer with three records, at two per drain. *)
Definition draining : StoreForwardBuffer :=
  mkSF SFDraining [mkRecord "d" (Some 1%positive) 1; mkRecord "d" None 2; mkRecord "e" None 3]
    10 0 2 3 0 0 [] [].
Definition draining_heap : gmap ptr (list (metric nat)) := {[ 1%positive := [mkMetric 5%nat false] ]}.

Lemma drain_batch_witness : ∃ batch s' h',
  Drain draining draining_heap 9 = (Some batch, s', h') ∧ Z.of_nat (length batch) ≤ 2.
Proof.
  destruct (drain_batch draining draining_heap 9 eq_refl ltac:(discriminate) ltac:(cbn; lia))
    as (batch & s' & h' & H1 & _ & _ & H2 & _).
  exists batch, s', h'. split; [exact H1|exact H2].
Defined.

Lemma drain_completes_witness :
  let '(s', h') := drains draining draining_heap [10; 11] in records s' = [].
Proof.
  exact (proj1 (drain_completes draining draining_heap [10; 11] 12 eq_refl ltac:(cbn; lia) eq_refl)).
Defined.

Lemma online_records_held_witness :
  let s := mkSF SFOnline [mkRecord "d" None 1] 10 0 2 1 0 0 [] [] in
  Drain s (∅ : gmap ptr (list (metric nat))) 5 = (None, s, ∅).
Proof.
  exact (proj1 (proj2 (online_records_held (mkSF SFOnline [mkRecord "d" None 1] 10 0 2 1 0 0 [] [])
    (∅ : gmap ptr (list (metric nat))) 5 eq_refl))).
Defined.

Lemma publish_rate_window_witness :
  fst (PublishRate (publish_all (NewStoreForwardBuffer 1 0 1 0) [(3%nat, second); (2%nat, 5 * second)]) (12 * second))
  = f64_div (f64_of_Z 2) (f64_of_Z 10).
Proof.
  exact (publish_rate_window (NewStoreForwardBuffer 1 0 1 0) [(3%nat, second); (2%nat, 5 * second)] (12 * second)
    eq_refl ltac:(unfold clock_monotonic; cbn [map app snd]; repeat constructor; unfold second; lia)).
Defined.

Lemma timeline_keeps_hour_witness :
  state_at (timeline (recordTimeline (NewStoreForwardBuffer 1 0 1 0) SFOnline "online" (2 * hour))) hour = Some SFOffline.
Proof.
  exact (timeline_keeps_hour (NewStoreForwardBuffer 1 0 1 0) SFOnline "online" (2 * hour) hour
    ltac:(unfold hour, second; lia) ltac:(unfold hour, second; lia)).
Defined.
