(* ===== verification/Wire.v ===== *)
(** Reads of a byte sequence that was written segment by segment: the lemmas and the
    tactic [wire_read] with which the round trips of fixed layouts are proved. *)

From S2P Require Export Prelude GoBytes.

#[local] Open Scope Z_scope.

(** ** Reading what was written

    A read at an offset past the first segment of a concatenation is a read in the rest. *)

Lemma get_be_here n v rest : get_be n (be_bytes n v ++ rest) 0 = Ok (v mod 2 ^ (8 * Z.of_nat n)).
Proof. by apply (get_be_app n []). Qed.

Lemma get_be_end n v : get_be n (be_bytes n v) 0 = Ok (v mod 2 ^ (8 * Z.of_nat n)).
Proof. rewrite <- (app_nil_r (be_bytes n v)). apply get_be_here. Qed.

Lemma get_be_skip n l1 l2 off m k : length l1 = m → off = (m + k)%nat →
  get_be n (l1 ++ l2) off = get_be n l2 k.
Proof.
  intros <- ->. unfold get_be. rewrite length_app, drop_app_add.
  do 2 case_decide; first [done|lia].
Qed.

Lemma index_skip (l1 l2 : list Z) off m k : length l1 = m → off = (m + k)%nat →
  index (l1 ++ l2) off = index l2 k.
Proof. intros <- ->. unfold index. rewrite lookup_app_r by lia. by rewrite Nat.add_comm, Nat.add_sub. Qed.

Lemma index_here (l1 l2 : list Z) i : (i < length l1)%nat → index (l1 ++ l2) i = index l1 i.
Proof. intros H. unfold index. by rewrite lookup_app_l. Qed.

Lemma index_cons_0 (x : Z) l : index (x :: l) 0 = Ok x.
Proof. done. Qed.

Lemma index_cons_S (x : Z) l n : index (x :: l) (S n) = index l n.
Proof. done. Qed.

Lemma slice_skip (l1 l2 : list Z) i j m k : length l1 = m → i = (m + k)%nat → (i ≤ j)%nat →
  slice (l1 ++ l2) i j = slice l2 k (j - m).
Proof.
  intros <- -> Hij. unfold slice. rewrite length_app, drop_app_add.
  replace (j - length l1 - k)%nat with (j - (length l1 + k))%nat by lia.
  do 2 case_decide; first [done|lia].
Qed.

Lemma slice_here (l1 l2 : list Z) j : j = length l1 → slice (l1 ++ l2) 0 j = Ok l1.
Proof. intros ->. exact (slice_app [] l1 l2 0 (length l1) eq_refl eq_refl). Qed.

Lemma slice_all (l : list Z) j : j = length l → slice l 0 j = Ok l.
Proof. intros ->. rewrite slice_ok by lia. by rewrite drop_0, Nat.sub_0_r, firstn_all. Qed.

(** ** Integers in either byte order *)

Definition put_int (le : bool) (n : nat) (v : Z) : list Z := if le then rev (be_bytes n v) else be_bytes n v.
Definition get_int (le : bool) (n : nat) (b : list Z) (off : nat) : outcome Z :=
  if decide (off + n ≤ length b)%nat then
    let l := take n (drop off b) in Ok (be_value (if le then rev l else l))
  else Panic.

Lemma length_put_int le n v : length (put_int le n v) = n.
Proof. unfold put_int. destruct le; rewrite ?length_rev; apply length_be_bytes. Qed.

Lemma is_bytes_put_int le n v : is_bytes (put_int le n v).
Proof. unfold put_int. destruct le; [apply Forall_rev|]; apply is_bytes_be_bytes. Qed.

Lemma get_int_here le n v rest : get_int le n (put_int le n v ++ rest) 0 = Ok (v mod 2 ^ (8 * Z.of_nat n)).
Proof.
  unfold get_int. rewrite length_app, length_put_int, decide_True by lia. do 2 f_equal.
  rewrite drop_0, take_app_length' by (by rewrite length_put_int).
  unfold put_int. destruct le; rewrite ?rev_involutive; apply be_value_bytes.
Qed.

Lemma get_int_skip le n l1 l2 off m k : length l1 = m → off = (m + k)%nat →
  get_int le n (l1 ++ l2) off = get_int le n l2 k.
Proof.
  intros <- ->. unfold get_int. rewrite length_app, drop_app_add.
  do 2 case_decide; first [done|lia].
Qed.

Lemma get_int_ok le n b off : (off + n ≤ length b)%nat → ∃ v, get_int le n b off = Ok v.
Proof. intros. unfold get_int. rewrite decide_True by done. by eexists. Qed.

Lemma get_int_range le n b off v : is_bytes b → get_int le n b off = Ok v → in_u (8 * Z.of_nat n) v.
Proof.
  unfold get_int. intros Hb H. case_decide; simplify_eq.
  assert (Hl : length (if le then rev (take n (drop off b)) else take n (drop off b)) = n)
    by (destruct le; rewrite ?length_rev, length_take, length_drop; lia).
  rewrite <- Hl at 1. apply be_value_range. destruct le; [apply Forall_rev|]; by apply Forall_take_drop.
Qed.

(** Lengths of the segments at hand. *)
Ltac wire_len :=
  repeat first
    [ rewrite length_be_bytes | rewrite length_put_int | rewrite length_copy_into | rewrite length_replicate
    | match goal with H : length ?l = _ |- context [length ?l] => rewrite H end ];
  cbn [length].

(** [seg l1 off tac] gives [tac] the proof of the length of [l1] and what is left of [off]. *)
Ltac seg l1 off tac :=
  let H := fresh in
  eassert (H : length l1 = _) by (wire_len; reflexivity);
  match type of H with
  | _ = ?m => let k := eval cbv in (off - m)%nat in tac H m k
  end; clear H.

(** Evaluates reads of a concatenation at literal offsets, segment by segment. *)
Ltac wire_read :=
  repeat first
    [ rewrite get_be_here | rewrite get_be_end | rewrite get_int_here | rewrite index_cons_0 | rewrite index_cons_S
    | rewrite slice_here by (wire_len; reflexivity)
    | match goal with
      | |- context [get_be ?n (?l1 ++ ?l2) ?off] =>
          seg l1 off ltac:(fun H m k => rewrite (get_be_skip n l1 l2 off m k H eq_refl))
      | |- context [get_int ?le ?n (?l1 ++ ?l2) ?off] =>
          seg l1 off ltac:(fun H m k => rewrite (get_int_skip le n l1 l2 off m k H eq_refl))
      | |- context [index (?l1 ++ ?l2) ?off] =>
          first [ rewrite (index_here l1 l2 off) by (wire_len; lia)
                | seg l1 off ltac:(fun H m k => rewrite (index_skip l1 l2 off m k H eq_refl)) ]
      | |- context [slice (?l1 ++ ?l2) ?i ?j] =>
          seg l1 i ltac:(fun H m k =>
            rewrite (slice_skip l1 l2 i j m k H eq_refl) by lia; cbn [Nat.sub])
      end
    | progress (cbn [mbind outcome_bind]) ].

Example wire_read_ex u a b : length u = 16%nat →
  (x ← get_u16 (put_u16 a ++ u ++ put_u32 b ++ [7; 8]) 0;
   y ← slice (put_u16 a ++ u ++ put_u32 b ++ [7; 8]) 2 18;
   z ← get_u32 (put_u16 a ++ u ++ put_u32 b ++ [7; 8]) 18;
   w ← index (put_u16 a ++ u ++ put_u32 b ++ [7; 8]) 23; Ok (x, y, z, w))
  = Ok (a mod 2 ^ 16, u, b mod 2 ^ 32, 8).
Proof. intros Hu. wire_read. done. Qed.
