(* ===== verification/Dcp.v ===== *)
(** PROFINET discovery and configuration: internal/profinet/dcp.go (frames) and
    dcp_responder.go (the device's answers).

    Addresses are byte lists as in [net.IP]. A handler takes the responder's state and a
    request and gives the response frame it sends, with the new state; waiting before a
    multicast answer, logging and sending are not part of the model. *)

From S2P Require Export Prelude GoBytes GoText.

#[local] Open Scope Z_scope.

(** ** dcp.go *)

Definition FrameIDDCPGetSet : Z := 0xFEFD.
Definition FrameIDDCPIdentReq : Z := 0xFEFE.
Definition FrameIDDCPIdentResp : Z := 0xFEFF.

Definition DCPServiceGet : Z := 3.
Definition DCPServiceSet : Z := 4.
Definition DCPServiceIdentify : Z := 5.
Definition DCPServiceTypeRequest : Z := 0.
Definition DCPServiceTypeResponse : Z := 1.

Definition DCPOptionIP : Z := 1.
Definition DCPOptionDeviceProperties : Z := 2.
Definition DCPOptionDHCP : Z := 3.
Definition DCPOptionControl : Z := 5.
Definition DCPOptionAllSelector : Z := 0xFF.

Definition DCPSubOptionIPSuite : Z := 2.
Definition DCPSubOptionDevVendor : Z := 1.
Definition DCPSubOptionDevNameOfStation : Z := 2.
Definition DCPSubOptionDevID : Z := 3.
Definition DCPSubOptionDevRole : Z := 4.
Definition DCPSubOptionDevOptions : Z := 5.
Definition DCPSubOptionDevAlias : Z := 6.
Definition DCPSubOptionDevInstance : Z := 7.
Definition DCPSubOptionControlResponse : Z := 4.

Definition DCPBlockInfoIPNotSet : Z := 0.
Definition DCPBlockInfoIPSet : Z := 1.
Definition DeviceRoleIODevice : Z := 1.

Record DCPBlock := mkDCPBlock {
  Option : Z;
  SubOption : Z;
  bData : list Z;
}.

Record DCPFrame := mkDCPFrame {
  FrameID : Z;
  ServiceID : Z;
  ServiceType : Z;
  Xid : Z;
  ResponseDelay : Z;
  Blocks : list DCPBlock;
}.

(** The block loop of [ParseDCPFrame] at [offset]; every iteration advances by at
    least four, so the end offset is enough fuel. *)
Fixpoint parse_blocks (fuel : nat) (data : list Z) (offset bend : nat) : outcome (list DCPBlock) :=
  match fuel with
  | O => Ok []
  | S fuel' =>
      if (offset + 4 <=? bend)%nat then
        opt ← index data offset;
        sub ← index data (offset + 1);
        blockLen ← get_u16 data (offset + 2);
        let n := Z.to_nat blockLen in
        let offset := (offset + 4)%nat in
        if (bend <? offset + n)%nat then Ok []
        else
          dst ← make_bytes blockLen;
          src ← slice data offset (offset + n);
          let d := copy_into dst src in
          let offset := (offset + n)%nat in
          let offset := if Nat.odd n then S offset else offset in
          rest ← parse_blocks fuel' data offset bend;
          Ok (mkDCPBlock opt sub d :: rest)
      else Ok []
  end.

Definition ParseDCPFrame (data : list Z) : outcome DCPFrame :=
  if (length data <? 12)%nat then
    Err ("DCP frame too short: " +:+ itoa (Z.of_nat (length data)) +:+ " bytes")
  else
    frameID ← get_u16 data 0;
    serviceID ← index data 2;
    serviceType ← index data 3;
    xid ← get_u32 data 4;
    delay ← get_u16 data 8;
    dcpDataLen ← get_u16 data 10;
    let bend := (12 + Z.to_nat dcpDataLen)%nat in
    let bend := if (length data <? bend)%nat then length data else bend in
    blocks ← parse_blocks bend data 12 bend;
    Ok (mkDCPFrame frameID serviceID serviceType xid delay blocks).

Definition block_bytes (b : DCPBlock) : list Z :=
  [Option b; SubOption b] ++ put_u16 (wrapu 16 (Z.of_nat (length (bData b)))) ++ bData b
  ++ (if Nat.odd (length (bData b)) then [0] else []).

Definition MarshalDCPFrame (f : DCPFrame) : list Z :=
  let blockData := concat (map block_bytes (Blocks f)) in
  put_u16 (FrameID f) ++ [ServiceID f; ServiceType f] ++ put_u32 (Xid f)
  ++ put_u16 (ResponseDelay f) ++ put_u16 (wrapu 16 (Z.of_nat (length blockData))) ++ blockData.

(** *** Blocks *)

(** [net.IP.To4]: nil when the address is not an IPv4 address. *)
Definition to4 (ip : list Z) : list Z :=
  if (length ip =? 4)%nat then ip
  else if (length ip =? 16)%nat && bool_decide (take 12 ip = replicate 10 0 ++ [0xFF; 0xFF])
  then drop 12 ip else [].

Definition IPv4zero4 : list Z := [0; 0; 0; 0].

(** [ip.Equal(net.IPv4zero)] *)
Definition is_zero_ip (ip : list Z) : bool := bool_decide (to4 ip = IPv4zero4).

Definition dcpBlockNameOfStation (name : string) : DCPBlock :=
  mkDCPBlock DCPOptionDeviceProperties DCPSubOptionDevNameOfStation (put_u16 0 ++ string_bytes name).

Definition dcpBlockVendor (vendor : string) : DCPBlock :=
  mkDCPBlock DCPOptionDeviceProperties DCPSubOptionDevVendor (put_u16 0 ++ string_bytes vendor).

Definition dcpBlockDeviceID (vendorID deviceID : Z) : DCPBlock :=
  mkDCPBlock DCPOptionDeviceProperties DCPSubOptionDevID (put_u16 0 ++ put_u16 vendorID ++ put_u16 deviceID).

Definition dcpBlockDeviceRole (role : Z) : DCPBlock :=
  mkDCPBlock DCPOptionDeviceProperties DCPSubOptionDevRole [0; 0; role; 0].

(** [copy(data[a:a+4], ip.To4())] over zero bytes. *)
Definition dcpBlockIPSuite (ip mask gateway : list Z) (blockInfo : Z) : DCPBlock :=
  let field a := copy_into (replicate 4 0) (to4 a) in
  mkDCPBlock DCPOptionIP DCPSubOptionIPSuite (put_u16 blockInfo ++ field ip ++ field mask ++ field gateway).

Definition dcpBlockDeviceInstance (high low : Z) : DCPBlock :=
  mkDCPBlock DCPOptionDeviceProperties DCPSubOptionDevInstance [0; 0; high; low].

Definition dcpBlockDeviceOptions (options : list DCPBlock) : DCPBlock :=
  mkDCPBlock DCPOptionDeviceProperties DCPSubOptionDevOptions
    (put_u16 0 ++ concat (map (λ o, [Option o; SubOption o]) options)).

Definition dcpBlockDHCPClientID (mac : list Z) : DCPBlock :=
  mkDCPBlock DCPOptionDHCP 0x3D (put_u16 0 ++ [1] ++ mac).

Definition dcpBlockControlResponse (option subOption errorCode : Z) : DCPBlock :=
  mkDCPBlock DCPOptionControl DCPSubOptionControlResponse [option; subOption; errorCode].

Definition ParseIPSuiteBlock (data : list Z) : outcome (list Z * list Z * list Z) :=
  if (length data <? 12)%nat then
    Err ("IP suite block too short: " +:+ itoa (Z.of_nat (length data)) +:+ " bytes")
  else
    a ← slice data 0 4; m ← slice data 4 8; g ← slice data 8 12;
    Ok (copy_into (replicate 4 0) a, copy_into (replicate 4 0) m, copy_into (replicate 4 0) g).

(** *** Requests *)

Definition IsIdentifyRequest (f : DCPFrame) : bool :=
  (FrameID f =? FrameIDDCPIdentReq) && (ServiceID f =? DCPServiceIdentify)
  && (ServiceType f =? DCPServiceTypeRequest).

Definition IsSetRequest (f : DCPFrame) : bool :=
  (FrameID f =? FrameIDDCPGetSet) && (ServiceID f =? DCPServiceSet)
  && (ServiceType f =? DCPServiceTypeRequest).

Definition IsGetRequest (f : DCPFrame) : bool :=
  (FrameID f =? FrameIDDCPGetSet) && (ServiceID f =? DCPServiceGet)
  && (ServiceType f =? DCPServiceTypeRequest).

Definition is_block (b : DCPBlock) (option subOption : Z) : bool :=
  (Option b =? option) && (SubOption b =? subOption).

(** One filter block of [MatchesFilter]; the last case is the missing default. *)
Definition filter_block (stationName : string) (vendorID deviceID : Z) (b : DCPBlock) : outcome bool :=
  if is_block b DCPOptionAllSelector 0xFF then Ok true
  else if is_block b DCPOptionDeviceProperties DCPSubOptionDevNameOfStation then
    Ok (String.eqb (bytes_string (bData b)) stationName)
  else if is_block b DCPOptionDeviceProperties DCPSubOptionDevID then
    if (length (bData b) <? 4)%nat then Ok false
    else
      reqVendor ← get_u16 (bData b) 0;
      reqDevice ← get_u16 (bData b) 2;
      Ok (negb (negb (reqVendor =? vendorID) || negb (reqDevice =? deviceID)))
  else if is_block b DCPOptionDeviceProperties DCPSubOptionDevAlias then Ok false
  else Ok true.

(** The loop over the filter blocks, left at the first that does not match. *)
Fixpoint filter_blocks (stationName : string) (vendorID deviceID : Z) (bs : list DCPBlock) : outcome bool :=
  match bs with
  | [] => Ok true
  | b :: bs' =>
      ok ← filter_block stationName vendorID deviceID b;
      if (ok : bool) then filter_blocks stationName vendorID deviceID bs' else Ok false
  end.

Definition MatchesFilter (f : DCPFrame) (stationName : string) (vendorID deviceID : Z) : outcome bool :=
  if negb (IsIdentifyRequest f) then Ok false
  else filter_blocks stationName vendorID deviceID (Blocks f).

(** ** dcp_responder.go *)

Record DCPResponder := mkResponder {
  stationName : string;
  vendorName : string;
  vendorID : Z;
  deviceID : Z;
  ip : list Z;
  mask : list Z;
  gateway : list Z;
  ipSet : bool;
}.

(** A nil address of the configuration is the zero address. *)
Definition NewDCPResponder (name vendor : string) (vid did : Z) (cfgIP cfgMask cfgGW : option (list Z))
    : DCPResponder :=
  let a := default IPv4zero4 cfgIP in
  mkResponder name vendor vid did a (default IPv4zero4 cfgMask) (default IPv4zero4 cfgGW)
    (negb (is_zero_ip a)).

Definition with_ip (r : DCPResponder) (a m g : list Z) (set : bool) : DCPResponder :=
  mkResponder (stationName r) (vendorName r) (vendorID r) (deviceID r) a m g set.
Definition with_name (r : DCPResponder) (n : string) : DCPResponder :=
  mkResponder n (vendorName r) (vendorID r) (deviceID r) (ip r) (mask r) (gateway r) (ipSet r).

Definition handleIdentify (r : DCPResponder) (mac : list Z) (req : DCPFrame) : outcome (option DCPFrame) :=
  ok ← MatchesFilter req (stationName r) (vendorID r) (deviceID r);
  if negb ok then Ok None
  else
    let info := if ipSet r then DCPBlockInfoIPSet else DCPBlockInfoIPNotSet in
    let blocks := [dcpBlockNameOfStation (stationName r); dcpBlockVendor (vendorName r);
      dcpBlockDeviceID (vendorID r) (deviceID r); dcpBlockDeviceRole DeviceRoleIODevice;
      dcpBlockDeviceInstance 0 1; dcpBlockIPSuite (ip r) (mask r) (gateway r) info;
      dcpBlockDHCPClientID mac] in
    Ok (Some (mkDCPFrame FrameIDDCPIdentResp DCPServiceIdentify DCPServiceTypeResponse (Xid req) 0
      (blocks ++ [dcpBlockDeviceOptions blocks]))).

(** The address change to apply after the response: address, mask, gateway, permanent. *)
Definition ipChange : Type := list Z * list Z * list Z * bool.

(** The state of the loop of [handleSet]: responder, response blocks, names reported to
    [onNameSet], and the deferred address change. *)
Record setState := mkSet {
  ssResp : DCPResponder;
  ssBlocks : list DCPBlock;
  ssNames : list string;
  ssDeferred : option ipChange;
}.

Definition answer_block (st : setState) (b : DCPBlock) (code : Z) : list DCPBlock :=
  ssBlocks st ++ [dcpBlockControlResponse (Option b) (SubOption b) code].

Definition set_block (st : setState) (b : DCPBlock) : outcome setState :=
  let r := ssResp st in
  if is_block b DCPOptionIP DCPSubOptionIPSuite then
    if (length (bData b) <? 14)%nat then
      Ok (mkSet r (answer_block st b 3) (ssNames st) (ssDeferred st))
    else
      q ← index (bData b) 1;
      let permanent := negb (Z.land q 1 =? 0) in
      rest ← slice (bData b) 2 (length (bData b));
      match ParseIPSuiteBlock rest with
      | Err _ => Ok (mkSet r (answer_block st b 3) (ssNames st) (ssDeferred st))
      | Panic => Panic
      | Ok (a, m, g) =>
          Ok (mkSet (with_ip r a m g (negb (is_zero_ip a))) (answer_block st b 0) (ssNames st)
                (Some (a, m, g, permanent)))
      end
  else if is_block b DCPOptionDeviceProperties DCPSubOptionDevNameOfStation then
    let nameData := if (2 <=? length (bData b))%nat then drop 2 (bData b) else bData b in
    let name := bytes_string nameData in
    Ok (mkSet (with_name r name) (answer_block st b 0) (ssNames st ++ [name]) (ssDeferred st))
  else if Option b =? DCPOptionDHCP then
    Ok (mkSet (with_ip r IPv4zero4 IPv4zero4 IPv4zero4 false) (answer_block st b 0) (ssNames st)
          (Some (IPv4zero4, IPv4zero4, IPv4zero4, true)))
  else Ok (mkSet r (answer_block st b 2) (ssNames st) (ssDeferred st)).

Fixpoint set_blocks (st : setState) (bs : list DCPBlock) : outcome setState :=
  match bs with
  | [] => Ok st
  | b :: bs' => st' ← set_block st b; set_blocks st' bs'
  end.

Definition handleSet (r : DCPResponder) (req : DCPFrame)
    : outcome (DCPFrame * DCPResponder * list string * option ipChange) :=
  st ← set_blocks (mkSet r [] [] None) (Blocks req);
  Ok (mkDCPFrame FrameIDDCPGetSet DCPServiceSet DCPServiceTypeResponse (Xid req) 0 (ssBlocks st),
      ssResp st, ssNames st, ssDeferred st).

Definition get_block (r : DCPResponder) (b : DCPBlock) : list DCPBlock :=
  let info := if ipSet r then DCPBlockInfoIPSet else 0 in
  if is_block b DCPOptionDeviceProperties DCPSubOptionDevNameOfStation then [dcpBlockNameOfStation (stationName r)]
  else if is_block b DCPOptionDeviceProperties DCPSubOptionDevVendor then [dcpBlockVendor (vendorName r)]
  else if is_block b DCPOptionDeviceProperties DCPSubOptionDevID then [dcpBlockDeviceID (vendorID r) (deviceID r)]
  else if is_block b DCPOptionDeviceProperties DCPSubOptionDevRole then [dcpBlockDeviceRole DeviceRoleIODevice]
  else if is_block b DCPOptionDeviceProperties DCPSubOptionDevInstance then [dcpBlockDeviceInstance 0 1]
  else if is_block b DCPOptionIP DCPSubOptionIPSuite then [dcpBlockIPSuite (ip r) (mask r) (gateway r) info]
  else if Option b =? DCPOptionAllSelector then
    [dcpBlockNameOfStation (stationName r); dcpBlockVendor (vendorName r);
     dcpBlockDeviceID (vendorID r) (deviceID r); dcpBlockDeviceRole DeviceRoleIODevice;
     dcpBlockDeviceInstance 0 1; dcpBlockIPSuite (ip r) (mask r) (gateway r) info]
  else [].

Definition handleGet (r : DCPResponder) (req : DCPFrame) : DCPFrame :=
  mkDCPFrame FrameIDDCPGetSet DCPServiceGet DCPServiceTypeResponse (Xid req) 0
    (concat (map (get_block r) (Blocks req))).

(** [handleDCPFrame] behind [HandleFrame]: the responses sent for a received payload and
    the new state. *)
Definition HandleFrame (r : DCPResponder) (mac payload : list Z)
    : outcome (list DCPFrame * DCPResponder * list string * option ipChange) :=
  match ParseDCPFrame payload with
  | Err _ => Ok ([], r, [], None)
  | Panic => Panic
  | Ok f =>
      if IsIdentifyRequest f then
        resp ← handleIdentify r mac f; Ok (option_list resp, r, [], None)
      else if IsSetRequest f then
        '(resp, r', names, d) ← handleSet r f; Ok ([resp], r', names, d)
      else if IsGetRequest f then Ok ([handleGet r f], r, [], None)
      else Ok ([], r, [], None)
  end.

Definition SetIP (r : DCPResponder) (a m g : list Z) : DCPResponder :=
  with_ip r (to4 a) (to4 m) (to4 g) (negb (is_zero_ip a)).
Definition SetStationName (r : DCPResponder) (name : string) : DCPResponder := with_name r name.

(** ** Frames on the wire *)

Record wf_block (b : DCPBlock) : Prop := {
  wf_option : is_byte (Option b);
  wf_suboption : is_byte (SubOption b);
  wf_data : is_bytes (bData b);
  wf_length : (Z.of_nat (length (bData b)) < 2 ^ 16);
}.

Definition blocks_bytes (bs : list DCPBlock) : list Z := concat (map block_bytes bs).

Record wf_frame (f : DCPFrame) : Prop := {
  wf_frameid : in_u 16 (FrameID f);
  wf_serviceid : is_byte (ServiceID f);
  wf_servicetype : is_byte (ServiceType f);
  wf_xid : in_u 32 (Xid f);
  wf_delay : in_u 16 (ResponseDelay f);
  wf_blocks : Forall wf_block (Blocks f);
  wf_total : Z.of_nat (length (blocks_bytes (Blocks f))) < 2 ^ 16;
}.

Lemma parse_blocks_ok fuel data offset bend :
  is_bytes data → (bend ≤ length data)%nat → ∃ bs, parse_blocks fuel data offset bend = Ok bs.
Proof.
  intros Hd Hend. revert offset. induction fuel as [|fuel IH]; intros offset; [by eexists|].
  cbn [parse_blocks]. case_if; [|by eexists]. bool_to_prop.
  destruct (index_ok data offset) as (x & -> & _); [lia|].
  destruct (index_ok data (offset + 1)) as (y & -> & _); [lia|].
  rewrite get_be_ok by lia. cbn [mbind outcome_bind]. case_if; [by eexists|]. bool_to_prop.
  set (n := be_value _) in *.
  assert (0 ≤ n) by (eapply (get_be_range 2 data (offset + 2)); [done|apply get_be_ok; lia]).
  unfold make_bytes. replace (0 <=? n) with true by lia. cbn [mbind outcome_bind].
  rewrite slice_ok by lia. cbn [mbind outcome_bind].
  edestruct IH as [bs ->]. by eexists.
Qed.

(** A frame is rejected exactly when it is shorter than the header; blocks that do not
    fit are dropped, and no input makes the parser panic. *)
Theorem ParseDCPFrame_total data :
  is_bytes data →
  if (length data <? 12)%nat then is_err (ParseDCPFrame data) = true
  else ∃ f, ParseDCPFrame data = Ok f.
Proof.
  intros Hd. unfold ParseDCPFrame. case_if; [done|]. bool_to_prop.
  rewrite !get_be_ok by lia. cbn [mbind outcome_bind].
  destruct (index_ok data 2) as (x & -> & _); [lia|].
  destruct (index_ok data 3) as (y & -> & _); [lia|]. cbn [mbind outcome_bind].
  edestruct parse_blocks_ok as [bs ->]; [done|case_if; bool_to_prop; lia|]. by eexists.
Qed.

Lemma length_block_bytes b :
  (4 + length (bData b) ≤ length (block_bytes b) ≤ 5 + length (bData b))%nat.
Proof.
  unfold block_bytes. rewrite !length_app. cbn [length be_bytes].
  destruct (Nat.odd _); cbn [length]; lia.
Qed.

Lemma length_blocks_bytes bs : (4 * length bs ≤ length (blocks_bytes bs))%nat.
Proof.
  induction bs as [|b bs IH]; [done|]. unfold blocks_bytes in *. cbn [map concat].
  rewrite length_app. pose proof (length_block_bytes b). cbn [length]. lia.
Qed.

(** The blocks written after [pre] are read back, whatever precedes and follows them. *)
Lemma parse_blocks_print bs pre post fuel offset bend :
  Forall wf_block bs → (length bs < fuel)%nat → offset = length pre →
  bend = (offset + length (blocks_bytes bs))%nat →
  parse_blocks fuel (pre ++ blocks_bytes bs ++ post) offset bend = Ok bs.
Proof.
  intros Hbs. revert pre fuel offset bend.
  induction Hbs as [|b bs [Ho Hs Hd Hl] _ IH]; intros pre fuel offset bend Hf -> ->.
  - destruct fuel; [cbn in Hf; lia|]. cbn [parse_blocks]. case_if; [|done]. bool_to_prop.
    cbn in E. lia.
  - destruct fuel as [|fuel]; [cbn in Hf; lia|]. cbn [length] in Hf. cbn [parse_blocks].
    destruct b as [o so d]. cbn [Option SubOption bData] in *.
    set (pad := if Nat.odd (length d) then [0] else []).
    assert (Hb : ∀ rest, blocks_bytes (mkDCPBlock o so d :: bs) ++ rest
      = o :: so :: put_u16 (wrapu 16 (Z.of_nat (length d))) ++ d ++ pad ++ blocks_bytes bs ++ rest).
    { intros rest. unfold blocks_bytes. cbn [map concat]. unfold block_bytes, Option, SubOption, bData.
      cbn [app]. by rewrite <- !app_assoc. }
    assert (Hlen : length (blocks_bytes (mkDCPBlock o so d :: bs))
      = (4 + length d + length pad + length (blocks_bytes bs))%nat).
    { specialize (Hb []). rewrite !app_nil_r in Hb. rewrite Hb. cbn [length]. rewrite !length_app.
      rewrite length_be_bytes. lia. }
    rewrite Hlen, Hb. rewrite (proj2 (Nat.leb_le _ _)) by lia.
    assert (Hn : wrapu 16 (Z.of_nat (length d)) mod 2 ^ (8 * Z.of_nat 2) = Z.of_nat (length d)).
    { unfold wrapu. change (8 * Z.of_nat 2) with 16. rewrite Z.mod_mod by lia. apply Z.mod_small. lia. }
    rewrite (index_app_length pre o _ (length pre)) by done. cbn [mbind outcome_bind].
    rewrite (cons_middle o), (app_assoc pre), (index_app_length _ so _ (length pre + 1)) by (by rewrite length_app).
    cbn [mbind outcome_bind].
    rewrite (cons_middle so), (app_assoc (pre ++ [o])), get_be_app by (rewrite !length_app; cbn [length]; lia).
    cbn [mbind outcome_bind]. rewrite Hn, Nat2Z.id.
    rewrite (proj2 (Nat.ltb_ge _ _)) by lia.
    unfold make_bytes. replace (0 <=? Z.of_nat (length d)) with true by lia. cbn [mbind outcome_bind].
    rewrite (app_assoc ((pre ++ [o]) ++ [so])), slice_app
      by (rewrite ?length_app, ?length_be_bytes; cbn [length]; lia).
    cbn [mbind outcome_bind]. rewrite Nat2Z.id, copy_into_same by (by rewrite length_replicate).
    assert (Hpad : (if Nat.odd (length d) then S (length pre + 4 + length d) else length pre + 4 + length d)%nat
      = (length pre + 4 + length d + length pad)%nat).
    { subst pad. destruct (Nat.odd (length d)); cbn [length]; lia. }
    rewrite Hpad, (app_assoc _ d), (app_assoc _ pad).
    by rewrite IH by (rewrite ?length_app, ?length_be_bytes; cbn [length]; lia).
Qed.

(** A marshalled frame is read back, whatever bytes (the padding of a short Ethernet
    frame) follow it: for fields within their widths and block data below 64 KiB. *)
Theorem ParseDCPFrame_Marshal f junk :
  wf_frame f → ParseDCPFrame (MarshalDCPFrame f ++ junk) = Ok f.
Proof.
  destruct f as [fid sid st xid rd bs]. intros [H1 H2 H3 H4 H5 H6 H7]. cbn [FrameID ServiceID ServiceType Xid ResponseDelay Blocks] in *.
  unfold ParseDCPFrame, MarshalDCPFrame. cbn [FrameID ServiceID ServiceType Xid ResponseDelay Blocks].
  change (concat (map block_bytes bs)) with (blocks_bytes bs).
  set (n := length (blocks_bytes bs)) in *.
  rewrite <- !app_assoc. cbn [app].
  assert (Hlen : length (put_u16 fid ++ sid :: st :: put_u32 xid ++ put_u16 rd ++ put_u16 (wrapu 16 (Z.of_nat n))
    ++ blocks_bytes bs ++ junk) = (12 + n + length junk)%nat).
  { rewrite !length_app. cbn [length be_bytes]. rewrite !length_app. cbn [length be_bytes]. unfold n. lia. }
  rewrite Hlen. rewrite (proj2 (Nat.ltb_ge _ _)) by lia.
  rewrite (get_be_app 2 [] fid _ 0 eq_refl : get_u16 (put_u16 fid ++ _) 0 = _). cbn [mbind outcome_bind].
  rewrite (Z.mod_small fid) by (unfold in_u in H1; lia).
  rewrite (index_app_length _ sid _ 2) by done. cbn [mbind outcome_bind].
  rewrite (cons_middle sid), app_assoc, (index_app_length _ st _ 3) by done. cbn [mbind outcome_bind].
  rewrite (cons_middle st), app_assoc, (get_be_app 4 _ _ _ 4) by done. cbn [mbind outcome_bind].
  rewrite (Z.mod_small xid) by (unfold in_u in H4; lia).
  rewrite app_assoc, (get_be_app 2 _ _ _ 8) by done. cbn [mbind outcome_bind].
  rewrite (Z.mod_small rd) by (unfold in_u in H5; lia).
  rewrite app_assoc, get_be_app by done. cbn [mbind outcome_bind].
  assert (Hn : wrapu 16 (Z.of_nat n) mod 2 ^ (8 * Z.of_nat 2) = Z.of_nat n).
  { unfold wrapu. change (8 * Z.of_nat 2) with 16. rewrite Z.mod_mod by lia. apply Z.mod_small. lia. }
  rewrite Hn, Nat2Z.id. rewrite (proj2 (Nat.ltb_ge _ _)) by lia.
  pose proof (length_blocks_bytes bs).
  rewrite app_assoc, parse_blocks_print; [done|done|unfold n; lia| |done].
  rewrite !length_app. cbn [length be_bytes]. lia.
Qed.

Example marshal_ex :
  ParseDCPFrame (MarshalDCPFrame (mkDCPFrame FrameIDDCPIdentReq 5 0 1 2 [mkDCPBlock 2 2 [97; 98; 99]]) ++ [0; 0; 7])
  = Ok (mkDCPFrame FrameIDDCPIdentReq 5 0 1 2 [mkDCPBlock 2 2 [97; 98; 99]])
  ∧ MarshalDCPFrame (mkDCPFrame FrameIDDCPIdentReq 5 0 1 2 [mkDCPBlock 2 2 [97; 98; 99]])
  = [0xFE; 0xFE; 5; 0; 0; 0; 0; 1; 0; 2; 0; 8; 2; 2; 0; 3; 97; 98; 99; 0].
Proof.
  split; [|reflexivity]. apply ParseDCPFrame_Marshal.
  constructor; try (apply (bool_decide_unpack _); vm_compute; exact I).
  constructor; [|constructor]. constructor; apply (bool_decide_unpack _); vm_compute; exact I.
Defined.

(** ** The device's answers *)

(** What a filter block of an Identify request asks of the device. *)
Definition criterion (n : string) (vid did : Z) (b : DCPBlock) : Prop :=
  if is_block b DCPOptionDeviceProperties DCPSubOptionDevNameOfStation then bytes_string (bData b) = n
  else if is_block b DCPOptionDeviceProperties DCPSubOptionDevID then
    get_u16 (bData b) 0 = Ok vid ∧ get_u16 (bData b) 2 = Ok did
  else if is_block b DCPOptionDeviceProperties DCPSubOptionDevAlias then False
  else True.

Lemma is_block_true b o s : is_block b o s = true ↔ Option b = o ∧ SubOption b = s.
Proof. unfold is_block. rewrite andb_true_iff, !Z.eqb_eq. done. Qed.

Lemma filter_block_ok n vid did b :
  ∃ ok, filter_block n vid did b = Ok ok ∧ (ok = true ↔ criterion n vid did b).
Proof.
  unfold filter_block, criterion. case_if.
  { apply is_block_true in E as [HO HS]. exists true. split; [done|].
    destruct b as [o s d]. cbn in HO, HS. by subst. }
  case_if.
  { eexists. split; [done|]. apply String.eqb_eq. }
  case_if; [|case_if; [by exists false|by exists true]].
  case_if; bool_to_prop.
  { exists false. split; [done|]. split; [done|]. intros [_ H].
    unfold get_be in H. case_decide; [lia|done]. }
  rewrite !get_be_ok by lia. cbn [mbind outcome_bind]. eexists. split; [done|].
  set (x := be_value _). set (y := be_value _).
  destruct (Z.eqb_spec x vid) as [->|Hx], (Z.eqb_spec y did) as [->|Hy]; cbn; split; naive_solver.
Qed.

Lemma filter_blocks_ok n vid did bs :
  ∃ ok, filter_blocks n vid did bs = Ok ok ∧ (ok = true ↔ Forall (criterion n vid did) bs).
Proof.
  induction bs as [|b bs (ok & Hok & IH)]; [by exists true|].
  destruct (filter_block_ok n vid did b) as (okb & Hb & Hbi). cbn [filter_blocks].
  rewrite Hb. cbn [mbind outcome_bind]. destruct okb.
  - exists ok. rewrite Hok, Forall_cons. split; [done|]. tauto.
  - exists false. rewrite Forall_cons. split; [done|]. split; [done|]. intros [H _]. by apply Hbi in H.
Qed.

(** An Identify request selects the device exactly when each of its name, device-id and
    alias criteria holds; every other criterion, such as the vendor name or the role, is
    ignored. *)
Theorem MatchesFilter_spec f n vid did :
  ∃ ok, MatchesFilter f n vid did = Ok ok ∧
    (ok = true ↔ IsIdentifyRequest f = true ∧ Forall (criterion n vid did) (Blocks f)).
Proof.
  unfold MatchesFilter. destruct (IsIdentifyRequest f); cbn [negb].
  - destruct (filter_blocks_ok n vid did (Blocks f)) as (ok & -> & H). exists ok. split; [done|]. tauto.
  - exists false. split; [done|]. split; [done|]. by intros [? _].
Qed.

(** A vendor-name criterion is such an ignored one: it selects every device. *)
Example vendor_filter_ignored (n : string) :
  MatchesFilter (mkDCPFrame FrameIDDCPIdentReq 5 0 1 0 [mkDCPBlock 2 DCPSubOptionDevVendor (string_bytes "other")]) n 1 2 = Ok true.
Proof. reflexivity. Qed.

(** *** Set *)

Definition set_code (b : DCPBlock) : Z :=
  if is_block b DCPOptionIP DCPSubOptionIPSuite then if (length (bData b) <? 14)%nat then 3 else 0
  else if is_block b DCPOptionDeviceProperties DCPSubOptionDevNameOfStation || (Option b =? DCPOptionDHCP)
  then 0 else 2.

Definition answer (b : DCPBlock) : DCPBlock := dcpBlockControlResponse (Option b) (SubOption b) (set_code b).

(** The address flag agrees with the address. *)
Definition responder_ok (r : DCPResponder) : Prop := ipSet r = negb (is_zero_ip (ip r)).

Definition same_identity (r r' : DCPResponder) : Prop :=
  vendorName r' = vendorName r ∧ vendorID r' = vendorID r ∧ deviceID r' = deviceID r.

Lemma ParseIPSuiteBlock_ok data : (12 ≤ length data)%nat →
  ParseIPSuiteBlock data = Ok (take 4 data, take 4 (drop 4 data), take 4 (drop 8 data)).
Proof.
  intros H. unfold ParseIPSuiteBlock. rewrite (proj2 (Nat.ltb_ge _ _)) by lia.
  rewrite !slice_ok by lia. cbn [mbind outcome_bind].
  rewrite !copy_into_same by (rewrite length_replicate, length_take, ?length_drop; lia). done.
Qed.

Lemma set_block_ok st b :
  ∃ st', set_block st b = Ok st' ∧
    ssBlocks st' = ssBlocks st ++ [answer b] ∧
    same_identity (ssResp st) (ssResp st') ∧
    (responder_ok (ssResp st) → responder_ok (ssResp st')) ∧
    (set_code b ≠ 0 → ssResp st' = ssResp st ∧ ssNames st' = ssNames st ∧ ssDeferred st' = ssDeferred st).
Proof.
  unfold set_block, answer, set_code, answer_block. destruct (is_block b DCPOptionIP _).
  - case_if; bool_to_prop; [by eexists|].
    destruct (index_ok (bData b) 1) as (q & -> & _); [lia|]. cbn [mbind outcome_bind].
    rewrite slice_ok by lia. cbn [mbind outcome_bind].
    rewrite ParseIPSuiteBlock_ok by (rewrite length_take, length_drop; lia).
    eexists. split; [done|]. cbn. split_and!; done.
  - destruct (is_block b DCPOptionDeviceProperties _); cbn [orb]; [by eexists|].
    case_if; [|by eexists]. eexists. split; [done|]. cbn. split_and!; done.
Qed.

Lemma set_blocks_ok bs st :
  ∃ st', set_blocks st bs = Ok st' ∧
    ssBlocks st' = ssBlocks st ++ map answer bs ∧
    same_identity (ssResp st) (ssResp st') ∧
    (responder_ok (ssResp st) → responder_ok (ssResp st')) ∧
    (Forall (λ b, set_code b ≠ 0) bs →
     ssResp st' = ssResp st ∧ ssNames st' = ssNames st ∧ ssDeferred st' = ssDeferred st).
Proof.
  revert st. induction bs as [|b bs IH]; intros st.
  { exists st. rewrite app_nil_r. done. }
  destruct (set_block_ok st b) as (st1 & H1 & Hb1 & Hi1 & Ho1 & Hu1).
  destruct (IH st1) as (st2 & H2 & Hb2 & Hi2 & Ho2 & Hu2).
  exists st2. cbn [set_blocks]. rewrite H1. cbn [mbind outcome_bind].
  split; [done|]. split; [by rewrite Hb2, Hb1, <- app_assoc|].
  split; [unfold same_identity in *; intuition congruence|]. split; [tauto|].
  intros Hf. apply Forall_cons in Hf as [Hf1 Hf2].
  destruct (Hu1 Hf1) as (? & ? & ?), (Hu2 Hf2) as (? & ? & ?). split_and!; congruence.
Qed.

(** A Set request is answered by one control block per requested block, in order, with the
    code for it; the identity of the device stays, and a request without an accepted block
    changes nothing. *)
Theorem handleSet_answers r req :
  ∃ r' names d, handleSet r req =
      Ok (mkDCPFrame FrameIDDCPGetSet DCPServiceSet DCPServiceTypeResponse (Xid req) 0 (map answer (Blocks req)),
          r', names, d) ∧
    same_identity r r' ∧ (responder_ok r → responder_ok r') ∧
    (Forall (λ b, set_code b ≠ 0) (Blocks req) → r' = r ∧ names = [] ∧ d = None).
Proof.
  unfold handleSet. destruct (set_blocks_ok (Blocks req) (mkSet r [] [] None)) as (st & -> & Hb & Hrest).
  cbn [mbind outcome_bind]. cbn [ssBlocks app ssResp ssNames ssDeferred] in *. rewrite Hb. eauto.
Qed.

(** No received payload makes the responder panic; without a request it does nothing. *)
Theorem HandleFrame_total r mac payload :
  is_bytes payload → ∃ out r' names d, HandleFrame r mac payload = Ok (out, r', names, d) ∧
    (length out ≤ 1)%nat ∧ same_identity r r' ∧ (responder_ok r → responder_ok r').
Proof.
  intros Hp. unfold HandleFrame. pose proof (ParseDCPFrame_total payload Hp) as HP.
  destruct (length payload <? 12)%nat.
  { destruct (ParseDCPFrame payload); try done. exists [], r, [], None. cbn. split; [done|]. split; [lia|done]. }
  destruct HP as [f ->]. case_if.
  { unfold handleIdentify.
    destruct (MatchesFilter_spec f (stationName r) (vendorID r) (deviceID r)) as ([] & -> & _);
      cbn [mbind outcome_bind negb option_list]; do 4 eexists; (split; [done|]); cbn; split; try lia; done. }
  case_if.
  { destruct (handleSet_answers r f) as (r' & names & d & -> & Hi & Ho & _). cbn [mbind outcome_bind].
    do 4 eexists. split; [done|]. cbn [length]. split; [lia|done]. }
  case_if; do 4 eexists; (split; [done|]); cbn [length]; split; try lia; done.
Qed.

(** A Set request for a name and an address, an Identify request for a name and a Get
    request, as a controller sends them. *)
Definition set_request (xid q ipq : Z) (n : string) (a m g : list Z) : DCPFrame :=
  mkDCPFrame FrameIDDCPGetSet DCPServiceSet DCPServiceTypeRequest xid 0
    [mkDCPBlock DCPOptionDeviceProperties DCPSubOptionDevNameOfStation (put_u16 q ++ string_bytes n);
     mkDCPBlock DCPOptionIP DCPSubOptionIPSuite (put_u16 ipq ++ a ++ m ++ g)].
Definition identify_request (xid : Z) (n : string) : DCPFrame :=
  mkDCPFrame FrameIDDCPIdentReq DCPServiceIdentify DCPServiceTypeRequest xid 1
    [mkDCPBlock DCPOptionDeviceProperties DCPSubOptionDevNameOfStation (string_bytes n)].

Definition is_ipv4 (a : list Z) : Prop := is_bytes a ∧ length a = 4%nat.

Definition after_set (r : DCPResponder) (n : string) (a m g : list Z) : DCPResponder :=
  with_ip (with_name r n) a m g (negb (is_zero_ip a)).

Lemma wf_set_request xid q ipq n a m g :
  in_u 32 xid → Z.of_nat (str_len n) < 60000 → is_ipv4 a → is_ipv4 m → is_ipv4 g →
  wf_frame (set_request xid q ipq n a m g).
Proof.
  intros Hx Hn [Ha La] [Hm Lm] [Hg Lg].
  assert (Hl : length (put_u16 ipq ++ a ++ m ++ g) = 14%nat) by (rewrite !length_app, length_be_bytes; lia).
  assert (Hl' : length (put_u16 q ++ string_bytes n) = (2 + str_len n)%nat)
    by (rewrite length_app, length_be_bytes, length_string_bytes; done).
  constructor; cbn [FrameID ServiceID ServiceType Xid ResponseDelay Blocks set_request]; try done.
  - apply Forall_cons. split; [|apply Forall_singleton]; constructor; cbn [Option SubOption bData]; try done.
    + apply Forall_app. split; [apply is_bytes_be_bytes|apply is_bytes_string].
    + rewrite Hl'. lia.
    + unfold is_bytes. rewrite !Forall_app. split_and!; try done. apply is_bytes_be_bytes.
    + rewrite Hl. lia.
  - unfold blocks_bytes. cbn [map concat]. rewrite !length_app.
    set (b1 := mkDCPBlock _ _ _). set (b2 := mkDCPBlock _ _ (put_u16 ipq ++ _)).
    pose proof (length_block_bytes b1). pose proof (length_block_bytes b2).
    change (length (bData b1)) with (length (put_u16 q ++ string_bytes n)) in *.
    change (length (bData b2)) with (length (put_u16 ipq ++ a ++ m ++ g)) in *.
    cbn [length]. lia.
Qed.

Lemma wf_identify_request xid n :
  in_u 32 xid → Z.of_nat (str_len n) < 60000 → wf_frame (identify_request xid n).
Proof.
  intros Hx Hn. constructor; cbn [FrameID ServiceID ServiceType Xid ResponseDelay Blocks identify_request]; try done.
  - apply Forall_singleton. constructor; cbn [Option SubOption bData]; try done.
    + apply is_bytes_string.
    + rewrite length_string_bytes. lia.
  - unfold blocks_bytes. cbn [map concat]. rewrite !length_app.
    set (b := mkDCPBlock _ _ _). pose proof (length_block_bytes b).
    change (length (bData b)) with (length (string_bytes n)) in *. rewrite length_string_bytes in *.
    cbn [length]. lia.
Qed.

Lemma set_request_parts ipq a m g : is_ipv4 a → is_ipv4 m → is_ipv4 g →
  let d := put_u16 ipq ++ a ++ m ++ g in
  length d = 14%nat ∧ index d 1 = Ok (ipq mod 256) ∧
  slice d 2 (length d) = Ok (a ++ m ++ g) ∧ ParseIPSuiteBlock (a ++ m ++ g) = Ok (a, m, g).
Proof.
  intros [_ La] [_ Lm] [_ Lg] d.
  assert (Hl : length d = 14%nat) by (subst d; rewrite !length_app, length_be_bytes; lia).
  split_and!; [done| | |].
  - subst d. cbn. by rewrite Z.div_1_r.
  - rewrite Hl. subst d. pose proof (slice_app (put_u16 ipq) (a ++ m ++ g) [] 2 14) as H.
    rewrite app_nil_r in H. apply H; [done|]. rewrite !length_app. lia.
  - rewrite ParseIPSuiteBlock_ok by (rewrite !length_app; lia).
    do 2 f_equal; [f_equal|].
    + by rewrite take_app_length'.
    + rewrite drop_app_length' by done. by rewrite take_app_length'.
    + rewrite app_assoc, drop_app_length' by (rewrite length_app; lia).
      apply take_ge. lia.
Qed.

Lemma set_name_block st q n :
  set_block st (mkDCPBlock DCPOptionDeviceProperties DCPSubOptionDevNameOfStation (put_u16 q ++ string_bytes n))
  = Ok (mkSet (with_name (ssResp st) n) (ssBlocks st ++ [dcpBlockControlResponse 2 2 0])
          (ssNames st ++ [n]) (ssDeferred st)).
Proof.
  unfold set_block, answer_block. cbn [is_block Option SubOption Z.eqb Pos.eqb andb bData].
  change (is_block _ DCPOptionIP _) with false. change (is_block _ _ _) with true. cbv iota.
  rewrite (proj2 (Nat.leb_le _ _)) by (rewrite length_app, length_be_bytes; lia).
  rewrite drop_app_length' by done. by rewrite bytes_string_bytes.
Qed.

Lemma set_ip_block st ipq a m g : is_ipv4 a → is_ipv4 m → is_ipv4 g →
  set_block st (mkDCPBlock DCPOptionIP DCPSubOptionIPSuite (put_u16 ipq ++ a ++ m ++ g))
  = Ok (mkSet (with_ip (ssResp st) a m g (negb (is_zero_ip a)))
          (ssBlocks st ++ [dcpBlockControlResponse 1 2 0]) (ssNames st) (Some (a, m, g, Z.odd ipq))).
Proof.
  intros Ha Hm Hg. destruct (set_request_parts ipq a m g Ha Hm Hg) as (Hl & Hi & Hs & Hp).
  unfold set_block, answer_block. cbn [bData]. change (is_block _ DCPOptionIP _) with true. cbv iota.
  rewrite (proj2 (Nat.ltb_ge _ _)) by lia. rewrite Hi. cbn [mbind outcome_bind].
  rewrite Hs. cbn [mbind outcome_bind]. rewrite Hp. do 4 f_equal.
  change 1 with (Z.ones 1). rewrite Z.land_ones by lia. change (2 ^ 1) with 2.
  rewrite Zmod_odd. rewrite <- (Z.odd_add_mul_2 _ (- (128 * (ipq / 256)))).
  replace (ipq mod 256 + 2 * - (128 * (ipq / 256))) with (ipq + 2 * (- (256 * (ipq / 256)))) by (rewrite Z.mod_eq by lia; lia).
  rewrite Z.odd_add_mul_2. by destruct (Z.odd ipq).
Qed.

Lemma parse_identify xid n junk : in_u 32 xid → Z.of_nat (str_len n) < 60000 →
  ParseDCPFrame (MarshalDCPFrame (identify_request xid n) ++ junk) = Ok (identify_request xid n).
Proof. intros. by apply ParseDCPFrame_Marshal, wf_identify_request. Qed.

Lemma identify_filter xid n n' vid did :
  MatchesFilter (identify_request xid n') n vid did = Ok (String.eqb n' n).
Proof.
  unfold MatchesFilter, identify_request. change (IsIdentifyRequest _) with true.
  cbn [negb Blocks filter_blocks]. unfold filter_block. change (is_block _ 255 _) with false.
  change (is_block _ _ DCPSubOptionDevNameOfStation) with true. cbv iota. cbn [bData mbind outcome_bind].
  rewrite bytes_string_bytes. by destruct (String.eqb n' n).
Qed.

(** A controller that sets the name and the address gets both accepted; the address change
    to apply is the requested one, permanent as the qualifier says. From then on the device
    answers an Identify request for the new name, with the new name and address, and no
    request for another name. Requests may carry Ethernet padding. *)
Theorem set_then_identify r mac xid q ipq n a m g junk :
  in_u 32 xid → Z.of_nat (str_len n) < 60000 → is_ipv4 a → is_ipv4 m → is_ipv4 g →
  HandleFrame r mac (MarshalDCPFrame (set_request xid q ipq n a m g) ++ junk) =
    Ok ([mkDCPFrame FrameIDDCPGetSet DCPServiceSet DCPServiceTypeResponse xid 0
           [dcpBlockControlResponse 2 2 0; dcpBlockControlResponse 1 2 0]],
        after_set r n a m g, [n], Some (a, m, g, Z.odd ipq)) ∧
  (∃ bs, HandleFrame (after_set r n a m g) mac (MarshalDCPFrame (identify_request xid n) ++ junk) =
      Ok ([mkDCPFrame FrameIDDCPIdentResp DCPServiceIdentify DCPServiceTypeResponse xid 0 bs],
          after_set r n a m g, [], None) ∧
    mkDCPBlock 2 2 (put_u16 0 ++ string_bytes n) ∈ bs ∧
    mkDCPBlock 1 2 (put_u16 (if is_zero_ip a then 0 else 1) ++ a ++ m ++ g) ∈ bs) ∧
  (∀ n', Z.of_nat (str_len n') < 60000 → n' ≠ n →
    HandleFrame (after_set r n a m g) mac (MarshalDCPFrame (identify_request xid n') ++ junk) =
      Ok ([], after_set r n a m g, [], None)).
Proof.
  intros Hx Hn Ha Hm Hg. split_and!.
  - unfold HandleFrame. rewrite ParseDCPFrame_Marshal by (by apply wf_set_request).
    change (IsIdentifyRequest _) with false. change (IsSetRequest _) with true. cbv iota.
    unfold handleSet, set_request. cbn [Blocks set_blocks Xid]. rewrite set_name_block. cbn [mbind outcome_bind].
    by rewrite set_ip_block.
  - unfold HandleFrame. rewrite parse_identify by done. change (IsIdentifyRequest _) with true. cbv iota.
    unfold handleIdentify. change (stationName (after_set r n a m g)) with n.
    rewrite identify_filter, String.eqb_refl. cbn [negb mbind outcome_bind option_list].
    eexists. split; [done|]. split.
    + left.
    + do 5 right. unfold dcpBlockIPSuite.
      destruct Ha as [Hab La], Hm as [Hmb Lm], Hg as [Hgb Lg].
      cbn [after_set with_ip with_name ip mask gateway ipSet].
      assert (Hto : ∀ b, length b = 4%nat → copy_into (replicate 4 0) (to4 b) = b).
      { intros b Lb. unfold to4. rewrite Lb. apply copy_into_same. by rewrite Lb. }
      rewrite !Hto by done. destruct (is_zero_ip a); left.
  - intros n' Hn' Hne. unfold HandleFrame. rewrite parse_identify by done.
    change (IsIdentifyRequest _) with true. cbv iota.
    unfold handleIdentify. change (stationName (after_set r n a m g)) with n.
    rewrite identify_filter. by apply String.eqb_neq in Hne as ->.
Qed.

Lemma set_then_identify_witness :
  HandleFrame (NewDCPResponder "old" "v" 1 2 None None None) [1; 2; 3; 4; 5; 6]
    (MarshalDCPFrame (set_request 9 1 1 "plc" [10; 0; 0; 2] [255; 255; 255; 0] [10; 0; 0; 1]) ++ [0; 0])
  = Ok ([mkDCPFrame FrameIDDCPGetSet DCPServiceSet DCPServiceTypeResponse 9 0
           [dcpBlockControlResponse 2 2 0; dcpBlockControlResponse 1 2 0]],
        after_set (NewDCPResponder "old" "v" 1 2 None None None) "plc" [10; 0; 0; 2] [255; 255; 255; 0] [10; 0; 0; 1],
        ["plc"], Some ([10; 0; 0; 2], [255; 255; 255; 0], [10; 0; 0; 1], true)).
Proof.
  refine (proj1 (set_then_identify (NewDCPResponder "old" "v" 1 2 None None None) [1; 2; 3; 4; 5; 6] 9 1 1 "plc"
    [10; 0; 0; 2] [255; 255; 255; 0] [10; 0; 0; 1] [0; 0] _ _ _ _ _));
    apply (bool_decide_unpack _); vm_compute; exact I.
Defined.

Lemma HandleFrame_total_witness :
  ∃ out r' names d, HandleFrame (NewDCPResponder "d" "v" 1 2 None None None) [] [1; 2; 3] = Ok (out, r', names, d) ∧
    (length out ≤ 1)%nat ∧ same_identity (NewDCPResponder "d" "v" 1 2 None None None) r' ∧
    (responder_ok (NewDCPResponder "d" "v" 1 2 None None None) → responder_ok r').
Proof.
  apply (HandleFrame_total (NewDCPResponder "d" "v" 1 2 None None None) [] [1; 2; 3]).
  apply (bool_decide_unpack _); vm_compute; exact I.
Defined.
