(* ===== verification/IoData.v ===== *)
(** PROFINET cyclic data: internal/profinet/types.go (the device configuration and its
    validation) and iodata.go (packing tag values into a subslot's buffer).

    Offsets and sizes are Go's uint16 and wrap; the validation's error texts, which quote
    names, are the constructors of [config_error]. *)

From S2P Require Export Prelude GoBytes GoText GoFloat GoValue.

#[local] Open Scope Z_scope.

(** ** types.go *)

(** [ProfinetType] is a string type. *)
Definition TypeBool : string := "bool".
Definition TypeUint8 : string := "uint8".
Definition TypeInt8 : string := "int8".
Definition TypeUint16 : string := "uint16".
Definition TypeInt16 : string := "int16".
Definition TypeUint32 : string := "uint32".
Definition TypeInt32 : string := "int32".
Definition TypeFloat32 : string := "float32".
Definition TypeUint64 : string := "uint64".
Definition TypeInt64 : string := "int64".
Definition TypeFloat64 : string := "float64".

Definition DirectionInput : string := "input".
Definition DirectionOutput : string := "output".
Definition DirectionInputOutput : string := "inputOutput".

Record TagMapping := mkTag {
  TagID : string;
  ByteOffset : Z;
  BitOffset : Z;
  Datatype : string;
  Source : string;
}.

#[export] Instance TagMapping_eq_dec : EqDecision TagMapping.
Proof. solve_decision. Defined.

Record SubslotConfig := mkSubslot {
  SubslotNumber : Z;
  SubmoduleIdentNo : Z;
  Direction : string;
  InputSize : Z;
  OutputSize : Z;
  Tags : list TagMapping;
}.

Record SlotConfig := mkSlot {
  SlotNumber : Z;
  ModuleIdentNo : Z;
  Subslots : list SubslotConfig;
}.

Record ProfinetConfig := mkConfig {
  StationName : string;
  InterfaceName : string;
  VendorID : Z;
  DeviceID : Z;
  DeviceName : string;
  CycleTimeUs : Z;
  Slots : list SlotConfig;
}.

Definition str_in (s : string) (l : list string) : bool := existsb (String.eqb s) l.

Definition TypeSize (t : string) : Z :=
  if str_in t [TypeBool; TypeUint8; TypeInt8] then 1
  else if str_in t [TypeUint16; TypeInt16] then 2
  else if str_in t [TypeUint32; TypeInt32; TypeFloat32] then 4
  else if str_in t [TypeUint64; TypeInt64; TypeFloat64] then 8
  else 0.

(** What [Validate] reports, with the values its message prints. *)
Inductive config_error :=
  | missing_field (name : string)
  | duplicate_slot (n : Z)
  | duplicate_subslot (slot n : Z)
  | missing_size (slot n : Z) (direction : string)
  | invalid_direction (slot n : Z) (direction : string)
  | unknown_datatype (slot n : Z) (tag datatype : string)
  | bad_bit_offset (slot n : Z) (tag : string)
  | tag_overflow (slot n : Z) (tag datatype : string) (offset size : Z).

(** One iteration of the tag loop of [validateSubslot]; [None] is a nil error. *)
Definition validate_tag (slotNum : Z) (sub : SubslotConfig) (tag : TagMapping) : option config_error :=
  let size := TypeSize (Datatype tag) in
  if size =? 0 then Some (unknown_datatype slotNum (SubslotNumber sub) (TagID tag) (Datatype tag))
  else
    let bufSize := if negb (String.eqb (Source tag) "") then InputSize sub else OutputSize sub in
    let overflow := Some (tag_overflow slotNum (SubslotNumber sub) (TagID tag) (Datatype tag) (ByteOffset tag) bufSize) in
    if String.eqb (Datatype tag) TypeBool then
      if 7 <? BitOffset tag then Some (bad_bit_offset slotNum (SubslotNumber sub) (TagID tag))
      else if bufSize <? wrapu 16 (ByteOffset tag + 1) then overflow
      else None
    else if bufSize <? wrapu 16 (ByteOffset tag + wrapu 16 size) then overflow
    else None.

(** The first error of a loop that returns on error. *)
Fixpoint first_error {A E} (f : A → option E) (l : list A) : option E :=
  match l with
  | [] => None
  | x :: l' => match f x with Some e => Some e | None => first_error f l' end
  end.

Definition validateSubslot (slotNum : Z) (sub : SubslotConfig) : option config_error :=
  let tags := first_error (validate_tag slotNum sub) (Tags sub) in
  if String.eqb (Direction sub) DirectionInput then
    if InputSize sub =? 0 then Some (missing_size slotNum (SubslotNumber sub) (Direction sub)) else tags
  else if String.eqb (Direction sub) DirectionOutput then
    if OutputSize sub =? 0 then Some (missing_size slotNum (SubslotNumber sub) (Direction sub)) else tags
  else if String.eqb (Direction sub) DirectionInputOutput then
    if (InputSize sub =? 0) && (OutputSize sub =? 0)
    then Some (missing_size slotNum (SubslotNumber sub) (Direction sub)) else tags
  else Some (invalid_direction slotNum (SubslotNumber sub) (Direction sub)).

(** The subslot loop with the set of numbers seen. *)
Fixpoint validate_subslots (slotNum : Z) (subslotNums : gset Z) (subs : list SubslotConfig) : option config_error :=
  match subs with
  | [] => None
  | sub :: subs' =>
      if decide (SubslotNumber sub ∈ subslotNums) then Some (duplicate_subslot slotNum (SubslotNumber sub))
      else
        match validateSubslot slotNum sub with
        | Some e => Some e
        | None => validate_subslots slotNum ({[SubslotNumber sub]} ∪ subslotNums) subs'
        end
  end.

Fixpoint validate_slots (slotNums : gset Z) (slots : list SlotConfig) : option config_error :=
  match slots with
  | [] => None
  | slot :: slots' =>
      if decide (SlotNumber slot ∈ slotNums) then Some (duplicate_slot (SlotNumber slot))
      else
        match validate_subslots (SlotNumber slot) ∅ (Subslots slot) with
        | Some e => Some e
        | None => validate_slots ({[SlotNumber slot]} ∪ slotNums) slots'
        end
  end.

(** The error and the configuration, whose cycle time gets its default. *)
Definition Validate (c : ProfinetConfig) : option config_error * ProfinetConfig :=
  if String.eqb (StationName c) "" then (Some (missing_field "stationName"), c)
  else if String.eqb (InterfaceName c) "" then (Some (missing_field "interfaceName"), c)
  else if VendorID c =? 0 then (Some (missing_field "vendorId"), c)
  else if DeviceID c =? 0 then (Some (missing_field "deviceId"), c)
  else
    let c := mkConfig (StationName c) (InterfaceName c) (VendorID c) (DeviceID c) (DeviceName c)
               (if CycleTimeUs c =? 0 then 1000 else CycleTimeUs c) (Slots c) in
    (validate_slots ∅ (Slots c), c).

(** ** iodata.go *)

(** [buf[i] = v] *)
Definition set_index (buf : list Z) (i : Z) (v : Z) : outcome (list Z) :=
  if decide (0 ≤ i < Z.of_nat (length buf)) then Ok (<[Z.to_nat i := v]> buf) else Panic.

(** [byteOrder.PutUintN(buf[offset:], v)] *)
Definition put_at (n : nat) (buf : list Z) (offset v : Z) : outcome (list Z) :=
  if decide (0 ≤ offset ∧ offset + Z.of_nat n ≤ Z.of_nat (length buf)) then
    let o := Z.to_nat offset in Ok (take o buf ++ be_bytes n v ++ drop (o + n) buf)
  else Panic.

Section Pack.
Context `{FloatConv}.

(** A Go [uint] is not among the cases. *)
Definition toFloat (v : value) : float64 :=
  match v with
  | VFloat64 f => f
  | VFloat32 f => f64_of_f32 f
  | VInt KUint _ => f64_zero
  | VInt _ n => f64_of_Z n
  | VBool b => if b then f64_of_Z 1 else f64_zero
  | _ => f64_zero
  end.

Definition toBool (v : value) : bool :=
  match v with
  | VBool b => b
  | VFloat64 f => negb (f64_eqb f f64_zero)
  | VFloat32 f => negb (f32_eqb f 0)
  | VInt KUint _ => false
  | VInt _ n => negb (n =? 0)
  | _ => false
  end.

Definition packValue (buf : list Z) (offset bitOffset : Z) (dt : string) (val : value) : outcome (list Z) :=
  let f := toFloat val in
  if String.eqb dt TypeBool then
    b ← index buf (Z.to_nat offset);
    let m := wrapu 8 (Z.shiftl 1 bitOffset) in
    if toBool val then set_index buf offset (Z.lor b m) else set_index buf offset (Z.ldiff b m)
  else if String.eqb dt TypeUint8 then set_index buf offset (to_uint 8 f)
  else if String.eqb dt TypeInt8 then set_index buf offset (wrapu 8 (to_int 8 f))
  else if String.eqb dt TypeUint16 then put_at 2 buf offset (to_uint 16 f)
  else if String.eqb dt TypeInt16 then put_at 2 buf offset (wrapu 16 (to_int 16 f))
  else if String.eqb dt TypeUint32 then put_at 4 buf offset (to_uint 32 f)
  else if String.eqb dt TypeInt32 then put_at 4 buf offset (wrapu 32 (to_int 32 f))
  else if String.eqb dt TypeFloat32 then put_at 4 buf offset (f32_of_f64 f)
  else if String.eqb dt TypeUint64 then put_at 8 buf offset (to_uint 64 f)
  else if String.eqb dt TypeInt64 then put_at 8 buf offset (wrapu 64 (to_int 64 f))
  else if String.eqb dt TypeFloat64 then put_at 8 buf offset f
  else Ok buf.

(** The tag loop of [PackInputBuffer]. *)
Fixpoint pack_tags (buf : list Z) (tagValues : gmap string value) (tags : list TagMapping) : outcome (list Z) :=
  match tags with
  | [] => Ok buf
  | tag :: tags' =>
      buf' ←
        (if String.eqb (Source tag) "" then Ok buf
         else match tagValues !! TagID tag with
              | None => Ok buf
              | Some val => packValue buf (ByteOffset tag) (BitOffset tag) (Datatype tag) val
              end);
      pack_tags buf' tagValues tags'
  end.

Definition PackInputBuffer (sub : SubslotConfig) (tagValues : gmap string value) : outcome (list Z) :=
  buf ← make_bytes (InputSize sub);
  pack_tags buf tagValues (Tags sub).

End Pack.

(** [binary.BigEndian.UintN(data[offset:])] *)
Definition get_at (n : nat) (data : list Z) (offset : Z) : outcome Z :=
  get_be n data (Z.to_nat offset).

Definition unpackValue (data : list Z) (offset bitOffset : Z) (dt : string) : outcome value :=
  if String.eqb dt TypeBool then
    b ← index data (Z.to_nat offset); Ok (VBool (Z.land (Z.shiftr b bitOffset) 1 =? 1))
  else if String.eqb dt TypeUint8 then b ← index data (Z.to_nat offset); Ok (VInt KUint8 b)
  else if String.eqb dt TypeInt8 then b ← index data (Z.to_nat offset); Ok (VInt KInt8 (wraps 8 b))
  else if String.eqb dt TypeUint16 then n ← get_at 2 data offset; Ok (VInt KUint16 n)
  else if String.eqb dt TypeInt16 then n ← get_at 2 data offset; Ok (VInt KInt16 (wraps 16 n))
  else if String.eqb dt TypeUint32 then n ← get_at 4 data offset; Ok (VInt KUint32 n)
  else if String.eqb dt TypeInt32 then n ← get_at 4 data offset; Ok (VInt KInt32 (wraps 32 n))
  else if String.eqb dt TypeFloat32 then n ← get_at 4 data offset; Ok (VFloat32 n)
  else if String.eqb dt TypeUint64 then n ← get_at 8 data offset; Ok (VInt KUint64 n)
  else if String.eqb dt TypeInt64 then n ← get_at 8 data offset; Ok (VInt KInt64 (wraps 64 n))
  else if String.eqb dt TypeFloat64 then n ← get_at 8 data offset; Ok (VFloat64 n)
  else Ok VNil.

(** The tag loop of [UnpackOutputBuffer]. *)
Fixpoint unpack_tags (result : gmap string value) (data : list Z) (tags : list TagMapping) : outcome (gmap string value) :=
  match tags with
  | [] => Ok result
  | tag :: tags' =>
      if negb (String.eqb (Source tag) "") then unpack_tags result data tags'
      else if Z.of_nat (length data) <? ByteOffset tag + TypeSize (Datatype tag) then unpack_tags result data tags'
      else
        val ← unpackValue data (ByteOffset tag) (BitOffset tag) (Datatype tag);
        unpack_tags (if is_nil val then result else <[TagID tag := val]> result) data tags'
  end.

Definition UnpackOutputBuffer (sub : SubslotConfig) (data : list Z) : outcome (gmap string value) :=
  unpack_tags ∅ data (Tags sub).

(** *** Overlaps *)

Record byteRegion := mkRegion { rTag : string; rStart : Z; rEnd : Z }.

Definition tag_region (tag : TagMapping) : byteRegion :=
  mkRegion (TagID tag) (ByteOffset tag) (wrapu 16 (ByteOffset tag + wrapu 16 (TypeSize (Datatype tag)))).

Definition regions_of (input : bool) (tags : list TagMapping) : list byteRegion :=
  map tag_region
    (List.filter (λ tag, negb (TypeSize (Datatype tag) =? 0) &&
                         Bool.eqb input (negb (String.eqb (Source tag) ""))) tags).

(** The inner loop of [checkOverlaps]: the first region that overlaps [a]. *)
Definition overlaps (a b : byteRegion) : bool := (rStart a <? rEnd b) && (rStart b <? rEnd a).

Fixpoint checkOverlaps (regions : list byteRegion) : option (byteRegion * byteRegion) :=
  match regions with
  | [] => None
  | a :: rest =>
      match List.find (overlaps a) rest with
      | Some b => Some (a, b)
      | None => checkOverlaps rest
      end
  end.

(** The pair reported, and whether it is one of input tags. *)
Definition ValidateTagOverlaps (sub : SubslotConfig) : option (bool * (byteRegion * byteRegion)) :=
  match checkOverlaps (regions_of true (Tags sub)) with
  | Some p => Some (true, p)
  | None =>
      match checkOverlaps (regions_of false (Tags sub)) with
      | Some p => Some (false, p)
      | None => None
      end
  end.

(** ** Packing and unpacking one tag *)

(** Decides the comparisons of type names in the goal. *)
Ltac string_eqbs :=
  repeat match goal with
  | |- context [String.eqb ?a ?b] =>
      let r := eval vm_compute in (String.eqb a b) in change (String.eqb a b) with r
  end; cbv iota.

Lemma known_types (P : string → Prop) :
  P TypeBool → P TypeUint8 → P TypeInt8 → P TypeUint16 → P TypeInt16 → P TypeUint32 → P TypeInt32 →
  P TypeFloat32 → P TypeUint64 → P TypeInt64 → P TypeFloat64 → ∀ dt, TypeSize dt ≠ 0 → P dt.
Proof.
  intros ??????????? dt Hk. unfold TypeSize, str_in in Hk. cbn [existsb] in Hk.
  repeat match type of Hk with
  | context [String.eqb dt ?s] => destruct (String.eqb_spec dt s) as [E|_]; [by rewrite E|]
  end.
  by cbn in Hk.
Qed.

(** The unsigned number a tag's bytes hold, for the types other than bool, and the value
    the other side reads. *)
Section Wire.
Context `{FloatConv}.

Definition wire (dt : string) (v : value) : Z :=
  let f := toFloat v in
  if String.eqb dt TypeUint8 then to_uint 8 f
  else if String.eqb dt TypeInt8 then wrapu 8 (to_int 8 f)
  else if String.eqb dt TypeUint16 then to_uint 16 f
  else if String.eqb dt TypeInt16 then wrapu 16 (to_int 16 f)
  else if String.eqb dt TypeUint32 then to_uint 32 f
  else if String.eqb dt TypeInt32 then wrapu 32 (to_int 32 f)
  else if String.eqb dt TypeFloat32 then f32_of_f64 f
  else if String.eqb dt TypeUint64 then to_uint 64 f
  else if String.eqb dt TypeInt64 then wrapu 64 (to_int 64 f)
  else f.

Definition received (dt : string) (v : value) : value :=
  let f := toFloat v in
  if String.eqb dt TypeBool then VBool (toBool v)
  else if String.eqb dt TypeUint8 then VInt KUint8 (to_uint 8 f)
  else if String.eqb dt TypeInt8 then VInt KInt8 (to_int 8 f)
  else if String.eqb dt TypeUint16 then VInt KUint16 (to_uint 16 f)
  else if String.eqb dt TypeInt16 then VInt KInt16 (to_int 16 f)
  else if String.eqb dt TypeUint32 then VInt KUint32 (to_uint 32 f)
  else if String.eqb dt TypeInt32 then VInt KInt32 (to_int 32 f)
  else if String.eqb dt TypeFloat32 then VFloat32 (f32_of_f64 f)
  else if String.eqb dt TypeUint64 then VInt KUint64 (to_uint 64 f)
  else if String.eqb dt TypeInt64 then VInt KInt64 (to_int 64 f)
  else VFloat64 f.

Definition value_ok (v : value) : Prop := in_u 64 (toFloat v).

Lemma wire_range dt v : TypeSize dt ≠ 0 → dt ≠ TypeBool → value_ok v → in_u (8 * TypeSize dt) (wire dt v).
Proof.
  intros Hk Hb Hv. revert Hb. pattern dt. apply known_types; [..|exact Hk]; intros Hb; try done;
    first [exact Hv | apply to_uint_range; lia | apply wrapu_range; lia].
Qed.

Lemma set_index_put_at buf i v : is_byte v → set_index buf i v = put_at 1 buf i v.
Proof.
  intros Hv. unfold set_index, put_at. do 2 case_decide; try lia; [|done]. f_equal.
  rewrite insert_take_drop by lia. f_equal. cbn [be_bytes app].
  change (8 * Z.of_nat 0) with 0. rewrite Z.div_1_r, Z.mod_small by exact Hv.
  do 2 f_equal. lia.
Qed.

Lemma packValue_put buf o b dt v : TypeSize dt ≠ 0 → dt ≠ TypeBool → value_ok v →
  packValue buf o b dt v = put_at (Z.to_nat (TypeSize dt)) buf o (wire dt v).
Proof.
  intros Hk Hb Hv. revert Hb. pattern dt. apply known_types; [..|exact Hk]; intros Hb; try done.
  - apply set_index_put_at. apply to_uint_range; lia.
  - apply set_index_put_at. apply wrapu_range; lia.
Qed.

Lemma packValue_bool buf o b v : packValue buf o b TypeBool v =
  (x ← index buf (Z.to_nat o);
   set_index buf o ((if toBool v then Z.lor else Z.ldiff) x (wrapu 8 (Z.shiftl 1 b)))).
Proof. unfold packValue. cbn [String.eqb]. destruct (toBool v); done. Qed.

(** *** Which bytes a value occupies *)

Definition agree_on (buf buf' : list Z) (o n : Z) : Prop :=
  length buf' = length buf ∧ ∀ i : nat, o ≤ Z.of_nat i < o + n → buf' !! i = buf !! i.

Lemma put_at_ok n buf o v : 0 ≤ o → o + Z.of_nat n ≤ Z.of_nat (length buf) →
  ∃ buf', put_at n buf o v = Ok buf'.
Proof. intros. unfold put_at. rewrite decide_True by lia. by eexists. Qed.

Lemma put_at_spec n buf o v buf' : put_at n buf o v = Ok buf' →
  length buf' = length buf ∧
  (∀ i : nat, (Z.of_nat i < o ∨ o + Z.of_nat n ≤ Z.of_nat i) → buf' !! i = buf !! i) ∧
  get_at n buf' o = Ok (v mod 2 ^ (8 * Z.of_nat n)).
Proof.
  unfold put_at. case_decide as Hd; [|done]. intros [= <-]. split_and!.
  - rewrite !length_app, length_take, length_drop, length_be_bytes. lia.
  - intros i [Hi|Hi].
    + rewrite lookup_app_l by (rewrite length_take; lia). apply lookup_take_lt. lia.
    + rewrite lookup_app_r by (rewrite length_take; lia).
      rewrite lookup_app_r by (rewrite length_be_bytes, length_take; lia).
      rewrite lookup_drop, length_be_bytes, length_take. f_equal. lia.
  - apply get_be_app. rewrite length_take. lia.
Qed.

Lemma get_at_agree n buf buf' o : 0 ≤ o → agree_on buf buf' o (Z.of_nat n) → get_at n buf' o = get_at n buf o.
Proof.
  intros Ho [Hl Ha]. unfold get_at, get_be. rewrite Hl. case_decide; [|done]. do 2 f_equal.
  apply list_eq. intros i. destruct (decide (i < n)%nat).
  - rewrite !lookup_take_lt, !lookup_drop by done. apply Ha. lia.
  - rewrite !lookup_take_ge by lia. done.
Qed.

Lemma index_agree buf buf' o : 0 ≤ o → agree_on buf buf' o 1 → index buf' (Z.to_nat o) = index buf (Z.to_nat o).
Proof. intros Ho [_ Ha]. unfold index. by rewrite Ha by lia. Qed.

Lemma unpackValue_agree buf buf' o b dt : 0 ≤ o → TypeSize dt ≠ 0 → agree_on buf buf' o (TypeSize dt) →
  unpackValue buf' o b dt = unpackValue buf o b dt.
Proof.
  intros Ho Hk. revert buf buf'. pattern dt. apply known_types; [..|exact Hk]; intros buf buf' Ha;
    unfold unpackValue; string_eqbs;
    first [by rewrite (index_agree buf buf') | by rewrite (get_at_agree _ buf buf')].
Qed.

(** Packing writes within the value's bytes only, and succeeds when they are in the buffer. *)
Lemma packValue_spec buf o b dt v :
  0 ≤ o → o + TypeSize dt ≤ Z.of_nat (length buf) → TypeSize dt ≠ 0 → value_ok v →
  ∃ buf', packValue buf o b dt v = Ok buf' ∧ length buf' = length buf ∧
    ∀ i : nat, (Z.of_nat i < o ∨ o + TypeSize dt ≤ Z.of_nat i) → buf' !! i = buf !! i.
Proof.
  intros Ho Hlen Hk Hv. assert (0 < TypeSize dt) by (pattern dt; apply known_types; done).
  destruct (String.eqb_spec dt TypeBool) as [->|Hb].
  - change (TypeSize TypeBool) with 1 in *. rewrite packValue_bool.
    destruct (index_ok buf (Z.to_nat o)) as (x & -> & Hx); [lia|]. cbn [mbind outcome_bind].
    unfold set_index. rewrite decide_True by lia. eexists. split; [done|]. split; [apply length_insert|].
    intros i Hi. apply list_lookup_insert_ne. lia.
  - rewrite packValue_put by done.
    destruct (put_at_ok (Z.to_nat (TypeSize dt)) buf o (wire dt v)) as [buf' Hp]; [lia..|].
    exists buf'. split; [done|]. apply put_at_spec in Hp as (? & Ha & _). split; [done|].
    intros i Hi. apply Ha. lia.
Qed.

End Wire.

(** *** Bits of a byte *)

Lemma bit_of b k : 0 ≤ k → (Z.land (Z.shiftr b k) 1 =? 1) = Z.testbit b k.
Proof.
  intros Hk. change 1 with (Z.ones 1) at 1. rewrite Z.land_ones by lia.
  assert (Hb : Z.testbit (Z.shiftr b k) 0 = Z.testbit b k) by (rewrite Z.shiftr_spec by lia; done).
  rewrite <- Hb, Z.bit0_odd. change (2 ^ 1) with 2. rewrite Zmod_odd. by destruct (Z.odd _).
Qed.

Lemma mask_bit k j : 0 ≤ k ≤ 7 → 0 ≤ j → Z.testbit (wrapu 8 (Z.shiftl 1 k)) j = (k =? j).
Proof.
  intros Hk Hj. unfold wrapu. rewrite Z.shiftl_1_l, Z.mod_small; [apply Z.pow2_bits_eqb; lia|].
  split; [apply Z.pow_nonneg; lia|]. apply Z.pow_lt_mono_r; lia.
Qed.

Lemma masked_bit (set : bool) x k j : 0 ≤ k ≤ 7 → 0 ≤ j →
  Z.testbit ((if set then Z.lor else Z.ldiff) x (wrapu 8 (Z.shiftl 1 k))) j
  = if k =? j then set else Z.testbit x j.
Proof.
  intros Hk Hj. destruct set; rewrite ?Z.lor_spec, ?Z.ldiff_spec, mask_bit by lia;
    destruct (k =? j), (Z.testbit x j); done.
Qed.

Lemma unpack_bool buf o b x : index buf (Z.to_nat o) = Ok x → 0 ≤ b →
  unpackValue buf o b TypeBool = Ok (VBool (Z.testbit x b)).
Proof. intros Hx Hb. unfold unpackValue. string_eqbs. rewrite Hx. cbn. by rewrite bit_of. Qed.

(** The value of the bytes of a type other than bool. *)
Definition decode (dt : string) (w : Z) : value :=
  if String.eqb dt TypeUint8 then VInt KUint8 w
  else if String.eqb dt TypeInt8 then VInt KInt8 (wraps 8 w)
  else if String.eqb dt TypeUint16 then VInt KUint16 w
  else if String.eqb dt TypeInt16 then VInt KInt16 (wraps 16 w)
  else if String.eqb dt TypeUint32 then VInt KUint32 w
  else if String.eqb dt TypeInt32 then VInt KInt32 (wraps 32 w)
  else if String.eqb dt TypeFloat32 then VFloat32 w
  else if String.eqb dt TypeUint64 then VInt KUint64 w
  else if String.eqb dt TypeInt64 then VInt KInt64 (wraps 64 w)
  else VFloat64 w.

Lemma index_get_at data o : index data (Z.to_nat o) = get_at 1 data o.
Proof.
  unfold get_at, get_be, index. case_decide as Hd.
  - destruct (lookup_lt_is_Some_2 data (Z.to_nat o)) as [x Hx]; [lia|].
    rewrite Hx. erewrite drop_S by done. done.
  - by rewrite lookup_ge_None_2 by lia.
Qed.

Lemma unpackValue_get data o b dt : TypeSize dt ≠ 0 → dt ≠ TypeBool →
  unpackValue data o b dt = (w ← get_at (Z.to_nat (TypeSize dt)) data o; Ok (decode dt w)).
Proof.
  intros Hk. pattern dt. apply known_types; [..|exact Hk]; intros Hb; try done;
    unfold unpackValue; string_eqbs; by rewrite index_get_at.
Qed.

Section RoundTrip.
Context `{FloatConv}.

Lemma decode_wire dt v : TypeSize dt ≠ 0 → dt ≠ TypeBool → decode dt (wire dt v) = received dt v.
Proof.
  intros Hk. pattern dt. apply known_types; [..|exact Hk]; intros Hb; try done;
    unfold decode, wire, received; string_eqbs; f_equal;
    rewrite wraps_wrapu by lia; (apply wraps_small; [apply to_int_range; lia|lia]).
Qed.

Lemma pack_bool_spec buf o b v buf' : 0 ≤ o → packValue buf o b TypeBool v = Ok buf' →
  ∃ x, index buf (Z.to_nat o) = Ok x ∧
    index buf' (Z.to_nat o) = Ok ((if toBool v then Z.lor else Z.ldiff) x (wrapu 8 (Z.shiftl 1 b))).
Proof.
  intros Ho. rewrite packValue_bool. intros (x & Hx & Hs)%bind_Ok. exists x. split; [done|].
  unfold set_index in Hs. case_decide; [|done]. injection Hs as <-. unfold index.
  by rewrite list_lookup_insert_eq by lia.
Qed.

(** A value packed at a place is read back from it. *)
Lemma unpack_pack buf o b dt v buf' :
  0 ≤ o → (dt = TypeBool → 0 ≤ b ≤ 7) → TypeSize dt ≠ 0 → value_ok v → packValue buf o b dt v = Ok buf' →
  unpackValue buf' o b dt = Ok (received dt v).
Proof.
  intros Ho Hb Hk Hv Hp. destruct (String.eqb_spec dt TypeBool) as [->|Hnb].
  { destruct (pack_bool_spec _ _ _ _ _ Ho Hp) as (x & _ & Hx).
    specialize (Hb eq_refl). rewrite (unpack_bool _ _ _ _ Hx) by lia.
    rewrite masked_bit, Z.eqb_refl by lia. done. }
  rewrite packValue_put in Hp by done. apply put_at_spec in Hp as (_ & _ & Hg).
  rewrite Z2Nat.id in Hg by (pattern dt; apply known_types; done).
  rewrite Z.mod_small in Hg by (by apply wire_range).
  by rewrite unpackValue_get, Hg, <- decode_wire.
Qed.

(** ** Subslots *)

Definition is_input (t : TagMapping) : bool := negb (String.eqb (Source t) "").

(** The tag's place is inside a buffer of [size] bytes. *)
Record tag_fits (size : Z) (t : TagMapping) : Prop := {
  fits_type : TypeSize (Datatype t) ≠ 0;
  fits_offset : 0 ≤ ByteOffset t;
  fits_end : ByteOffset t + TypeSize (Datatype t) ≤ size;
  fits_bit : Datatype t = TypeBool → 0 ≤ BitOffset t ≤ 7;
}.

(** Two tags share no bit: different bytes, or different bits of one byte. *)
Definition apart (t u : TagMapping) : Prop :=
  ByteOffset t + TypeSize (Datatype t) ≤ ByteOffset u ∨
  ByteOffset u + TypeSize (Datatype u) ≤ ByteOffset t ∨
  (Datatype t = TypeBool ∧ Datatype u = TypeBool ∧ ByteOffset t = ByteOffset u ∧ BitOffset t ≠ BitOffset u).

Abbreviation pack_tag buf t v := (packValue buf (ByteOffset t) (BitOffset t) (Datatype t) v).
Abbreviation unpack_tag buf t := (unpackValue buf (ByteOffset t) (BitOffset t) (Datatype t)).

Lemma pack_keeps_apart size t u v buf buf' :
  tag_fits size t → tag_fits size u → apart t u → value_ok v → Z.of_nat (length buf) = size →
  pack_tag buf t v = Ok buf' → length buf' = length buf ∧ unpack_tag buf' u = unpack_tag buf u.
Proof.
  intros [Ht1 Ht2 Ht3 Ht4] [Hu1 Hu2 Hu3 Hu4] Ha Hv Hl Hp.
  destruct (packValue_spec buf (ByteOffset t) (BitOffset t) (Datatype t) v) as (b2 & Hp2 & Hlen & Hout); [lia|lia|done|done|].
  rewrite Hp in Hp2. injection Hp2 as <-. split; [done|].
  assert (Hb : ByteOffset t + TypeSize (Datatype t) ≤ ByteOffset u ∨ ByteOffset u + TypeSize (Datatype u) ≤ ByteOffset t →
    unpack_tag buf' u = unpack_tag buf u).
  { intros Hor. apply unpackValue_agree; [done|done|]. split; [done|]. intros i Hi. apply Hout. lia. }
  destruct Ha as [Ha|[Ha|(Hdt & Hdu & Hoff & Hbit)]]; [auto|auto|].
  specialize (Ht4 Hdt). specialize (Hu4 Hdu). rewrite Hdt in Hp.
  destruct (pack_bool_spec _ _ _ _ _ Ht2 Hp) as (x & Hx & Hx').
  rewrite Hdu, <- Hoff. rewrite (unpack_bool _ _ _ _ Hx'), (unpack_bool _ _ _ _ Hx) by lia.
  rewrite masked_bit by lia. by apply Z.eqb_neq in Hbit as ->.
Qed.

Definition values_ok (vals : gmap string value) : Prop := map_Forall (λ _, value_ok) vals.

(** Packing the tags keeps every place apart from them, and each tag with a value is read back. *)
Lemma pack_tags_spec size vals tags buf :
  Forall (λ t, is_input t = true → tag_fits size t) tags →
  ForallOrdPairs (λ t u, is_input t = true → is_input u = true → apart t u) tags →
  values_ok vals → Z.of_nat (length buf) = size →
  ∃ buf', pack_tags buf vals tags = Ok buf' ∧ length buf' = length buf ∧
    (∀ u, tag_fits size u → Forall (λ t, is_input t = true → apart t u) tags →
       unpack_tag buf' u = unpack_tag buf u) ∧
    (∀ t v, t ∈ tags → is_input t = true → vals !! TagID t = Some v →
       unpack_tag buf' t = Ok (received (Datatype t) v)).
Proof.
  intros Hfit Hap Hv. revert Hfit buf. induction Hap as [|t tags Ht Hap IH]; intros Hfit buf Hl.
  { exists buf. split; [done|]. split; [done|]. split; [done|]. by intros ? ? ?%not_elem_of_nil. }
  apply Forall_cons in Hfit as [Hft Hfit]. cbn [pack_tags].
  destruct (String.eqb (Source t) "") eqn:Hs;
    [|destruct (vals !! TagID t) as [v|] eqn:Hval]; cbn [mbind outcome_bind].
  - destruct (IH Hfit buf Hl) as (buf' & -> & Hl' & Hk & Hr). exists buf'.
    split; [done|]. split; [done|]. split.
    + intros u Hu Ha. apply Forall_cons in Ha as [_ Ha]. auto.
    + intros u v [->|Hin]%elem_of_cons Hi; [unfold is_input in Hi; by rewrite Hs in Hi|auto].
  - assert (Hi : is_input t = true) by (unfold is_input; by rewrite Hs).
    specialize (Hft Hi). pose proof (Hv _ _ Hval) as Hvo.
    destruct (packValue_spec buf (ByteOffset t) (BitOffset t) (Datatype t) v) as (b1 & Hp & Hl1 & _);
      [apply Hft|rewrite Hl; apply Hft|apply Hft|done|].
    rewrite Hp. cbn [mbind outcome_bind]. rewrite <- Hl1 in Hl.
    destruct (IH Hfit b1 Hl) as (buf' & -> & Hl' & Hk & Hr). exists buf'.
    split; [done|]. split; [congruence|]. rewrite Hl1 in Hl. split.
    + intros u Hu Ha. apply Forall_cons in Ha as [Hau Ha]. rewrite Hk by done.
      by apply (pack_keeps_apart size t u v buf b1); auto.
    + intros u v' [->|Hin]%elem_of_cons Hiu Hvu; [|by apply Hr].
      rewrite Hval in Hvu. injection Hvu as <-. rewrite Hk; [|done|].
      * by apply (unpack_pack buf); [apply Hft|apply Hft|apply Hft| |].
      * apply Forall_forall. intros u Hin Hiu'. rewrite List.Forall_forall in Ht.
        apply list_elem_of_In in Hin. specialize (Ht u Hin Hi Hiu').
        unfold apart in *. naive_solver.
  - destruct (IH Hfit buf Hl) as (buf' & -> & Hl' & Hk & Hr). exists buf'.
    split; [done|]. split; [done|]. split.
    + intros u Hu Ha. apply Forall_cons in Ha as [_ Ha]. auto.
    + intros u v [->|Hin]%elem_of_cons Hi Hvu; [congruence|auto].
Qed.

End RoundTrip.

(** ** The configuration checks *)

(** The ranges Go's types give. *)
Record subslot_typed (sub : SubslotConfig) : Prop := {
  typed_input : in_u 16 (InputSize sub);
  typed_output : in_u 16 (OutputSize sub);
  typed_tags : Forall (λ t, in_u 16 (ByteOffset t) ∧ in_u 8 (BitOffset t)) (Tags sub);
}.

(** No tag's end wraps past the largest offset. *)
Definition no_wrap (sub : SubslotConfig) : Prop :=
  Forall (λ t, ByteOffset t + TypeSize (Datatype t) < 2 ^ 16) (Tags sub).

Lemma first_error_None {A E} (f : A → option E) l : first_error f l = None ↔ Forall (λ x, f x = None) l.
Proof.
  induction l as [|x l IH]; cbn; [done|]. rewrite Forall_cons.
  destruct (f x); [|naive_solver]. split; [done|]. by intros [? _].
Qed.

Lemma validateSubslot_tags n sub :
  validateSubslot n sub = None → Forall (λ t, validate_tag n sub t = None) (Tags sub).
Proof. unfold validateSubslot. rewrite <- first_error_None. case_ifs; done. Qed.

Lemma TypeSize_range dt : 0 ≤ TypeSize dt ≤ 8.
Proof. unfold TypeSize. case_ifs; lia. Qed.

Lemma validate_tag_fits n sub t :
  validate_tag n sub t = None → in_u 16 (ByteOffset t) → in_u 8 (BitOffset t) →
  ByteOffset t + TypeSize (Datatype t) < 2 ^ 16 →
  tag_fits (if is_input t then InputSize sub else OutputSize sub) t.
Proof.
  unfold validate_tag, is_input, in_u. intros Hv Ho Hb Hw.
  pose proof (TypeSize_range (Datatype t)). rewrite (wrapu_small 16 (TypeSize (Datatype t))) in Hv by (unfold in_u; lia).
  rewrite (wrapu_small 16 (ByteOffset t + TypeSize _)) in Hv by (unfold in_u; lia).
  set (size := if negb (String.eqb (Source t) "") then InputSize sub else OutputSize sub) in *.
  clearbody size. case_if; [done|]. bool_to_prop.
  destruct (String.eqb_spec (Datatype t) TypeBool) as [Hd|Hd].
  - rewrite Hd in *. change (TypeSize TypeBool) with 1 in *.
    case_if; [done|]. bool_to_prop. rewrite wrapu_small in Hv by (unfold in_u; lia).
    case_if; [done|]. bool_to_prop. constructor; rewrite ?Hd; change (TypeSize TypeBool) with 1; lia.
  - case_if; [done|]. bool_to_prop. constructor; first [done|lia].
Qed.

Lemma validated_tag_fits n sub t :
  validateSubslot n sub = None → subslot_typed sub → no_wrap sub → t ∈ Tags sub →
  tag_fits (if is_input t then InputSize sub else OutputSize sub) t.
Proof.
  intros Hval [_ _ Ht] Hw Hin. apply validateSubslot_tags in Hval. unfold no_wrap in Hw.
  rewrite Forall_forall in Ht, Hw, Hval. destruct (Ht t Hin). by apply (validate_tag_fits n); auto.
Qed.

Definition int_type (dt : string) : option int_kind :=
  if String.eqb dt TypeUint8 then Some KUint8
  else if String.eqb dt TypeInt8 then Some KInt8
  else if String.eqb dt TypeUint16 then Some KUint16
  else if String.eqb dt TypeInt16 then Some KInt16
  else if String.eqb dt TypeUint32 then Some KUint32
  else if String.eqb dt TypeInt32 then Some KInt32
  else if String.eqb dt TypeUint64 then Some KUint64
  else if String.eqb dt TypeInt64 then Some KInt64
  else None.

Section Subslot.
Context `{FloatConv}.

Lemma pack_readable n sub vals :
  validateSubslot n sub = None → subslot_typed sub → no_wrap sub →
  ForallOrdPairs (λ t u, is_input t = true → is_input u = true → apart t u) (Tags sub) → values_ok vals →
  ∃ buf, PackInputBuffer sub vals = Ok buf ∧ Z.of_nat (length buf) = InputSize sub ∧
    ∀ t v, t ∈ Tags sub → is_input t = true → vals !! TagID t = Some v →
      unpackValue buf (ByteOffset t) (BitOffset t) (Datatype t) = Ok (received (Datatype t) v).
Proof.
  intros Hval Hty Hw Hap Hv. pose proof (typed_input _ Hty) as Hi. unfold PackInputBuffer, make_bytes. unfold in_u in Hi.
  rewrite (proj2 (Z.leb_le _ _)) by lia. cbn [mbind outcome_bind].
  assert (Hl : Z.of_nat (length (replicate (Z.to_nat (InputSize sub)) 0)) = InputSize sub)
    by (rewrite length_replicate; lia).
  assert (Hfit : Forall (λ t, is_input t = true → tag_fits (InputSize sub) t) (Tags sub)).
  { apply Forall_forall. intros t Hin Hit. pose proof (validated_tag_fits n sub t Hval Hty Hw Hin) as Hf. by rewrite Hit in Hf. }
  destruct (pack_tags_spec (InputSize sub) vals (Tags sub) _ Hfit Hap Hv Hl) as (buf & -> & Hlen & _ & Hr).
  exists buf. split; [done|]. split; [lia|done].
Qed.

(** A validated subslot whose input tags share no bits: packing any values succeeds, fills
    a buffer of the configured size, and the controller reads for each tag with a value
    that value in the tag's type. *)
Theorem packed_input_readable n sub vals :
  validateSubslot n sub = None → subslot_typed sub → no_wrap sub →
  ForallOrdPairs (λ t u, is_input t = true → is_input u = true → apart t u) (Tags sub) → values_ok vals →
  ∃ buf, PackInputBuffer sub vals = Ok buf ∧ Z.of_nat (length buf) = InputSize sub ∧
    ∀ t v, t ∈ Tags sub → is_input t = true → vals !! TagID t = Some v →
      unpackValue buf (ByteOffset t) (BitOffset t) (Datatype t) = Ok (received (Datatype t) v).
Proof. apply pack_readable. Qed.

(** A tag that starts near the end of the 16-bit offsets passes validation because its end
    wraps; packing a value for it panics. *)
Theorem wrapped_offset_panics n num ident out id dt off bit src size v :
  in_u 16 off → in_u 16 size → 0 < size → TypeSize dt ≠ 0 → 0 ≤ bit ≤ 7 → src ≠ "" → value_ok v →
  2 ^ 16 ≤ off + TypeSize dt ≤ 2 ^ 16 + size →
  let sub := mkSubslot num ident DirectionInput size out [mkTag id off bit dt src] in
  validateSubslot n sub = None ∧ PackInputBuffer sub {[id := v]} = Panic.
Proof.
  intros Ho Hs Hs0 Hk Hb Hsrc Hv Hwrap sub. unfold in_u in *. split.
  - unfold validateSubslot. cbn [Direction sub InputSize Tags first_error].
    change (String.eqb DirectionInput DirectionInput) with true. cbv iota.
    rewrite (proj2 (Z.eqb_neq size 0)) by lia. unfold validate_tag. cbn [Datatype Source BitOffset ByteOffset sub InputSize].
    rewrite (proj2 (Z.eqb_neq _ 0)) by done. apply String.eqb_neq in Hsrc as ->. cbn [negb].
    pose proof (TypeSize_range dt). rewrite (wrapu_small 16 (TypeSize dt)) by (unfold in_u; lia).
    assert (Hwr : wrapu 16 (off + TypeSize dt) = off + TypeSize dt - 2 ^ 16).
    { unfold wrapu. rewrite <- (Z.mod_add _ (-1)) by lia. apply Z.mod_small. lia. }
    destruct (String.eqb_spec dt TypeBool) as [->|]; [change (TypeSize TypeBool) with 1 in *; rewrite (proj2 (Z.ltb_ge _ _)) by lia|];
      rewrite Hwr, (proj2 (Z.ltb_ge _ _)) by lia; done.
  - unfold PackInputBuffer, make_bytes. cbn [InputSize sub Tags].
    rewrite (proj2 (Z.leb_le _ _)) by lia. cbn [mbind outcome_bind pack_tags TagID Source ByteOffset BitOffset Datatype].
    apply String.eqb_neq in Hsrc as ->. rewrite lookup_singleton_eq.
    set (buf := replicate _ _). assert (Hl : Z.of_nat (length buf) = size) by (unfold buf; rewrite length_replicate; lia).
    destruct (String.eqb_spec dt TypeBool) as [->|Hnb].
    + change (TypeSize TypeBool) with 1 in *. rewrite packValue_bool. unfold index. by rewrite lookup_ge_None_2 by lia.
    + rewrite packValue_put by done. unfold put_at. pose proof (TypeSize_range dt).
      rewrite decide_False by lia. done.
Qed.

(** Integers of less than 53 bits that fit the tag's type arrive unchanged, whatever integer
    type they had, Go's [uint] excepted. *)
Theorem received_exact dt kd k n : k ≠ KUint → int_type dt = Some kd → - 2 ^ 53 < n < 2 ^ 53 →
  (if kind_signed kd then in_s (kind_width kd) n else in_u (kind_width kd) n) →
  received dt (VInt k n) = VInt kd n.
Proof.
  intros Hk Hdt Hn Hr. assert (Hf : toFloat (VInt k n) = f64_of_Z n) by (by destruct k).
  unfold int_type in Hdt. repeat match type of Hdt with
  | context [String.eqb dt ?s] => destruct (String.eqb_spec dt s) as [E|_]; [|]
  end; try done; rewrite E in *; injection Hdt as <-; cbn [kind_signed kind_width] in Hr;
    unfold received; string_eqbs; rewrite Hf; f_equal;
    first [apply to_uint_of_Z; [done|lia] | apply to_int_of_Z; done].
Qed.

End Subslot.

(** ** Unpacking *)

Lemma unpackValue_ok data o b dt : 0 ≤ o → o + TypeSize dt ≤ Z.of_nat (length data) →
  ∃ v, unpackValue data o b dt = Ok v ∧ (is_nil v = false ↔ TypeSize dt ≠ 0).
Proof.
  intros Ho Hl. destruct (decide (TypeSize dt = 0)) as [H0|Hk].
  - exists VNil. split; [|by split].
    unfold TypeSize, str_in in H0. cbn [existsb] in H0. unfold unpackValue.
    repeat match type of H0 with
    | context [String.eqb dt ?s] => destruct (String.eqb dt s); [done|]
    end. done.
  - destruct (String.eqb_spec dt TypeBool) as [->|Hb].
    + change (TypeSize TypeBool) with 1 in *. destruct (index_ok data (Z.to_nat o)) as (x & Hx & _); [lia|].
      unfold unpackValue. string_eqbs. rewrite Hx. by eexists.
    + rewrite unpackValue_get by done. unfold get_at. pose proof (TypeSize_range dt).
      rewrite get_be_ok by lia. eexists. split; [done|]. split; [done|]. intros _.
      unfold decode. case_ifs; done.
Qed.

(** What [UnpackOutputBuffer] reads for an output tag. *)
Definition tag_value (data : list Z) (t : TagMapping) : option value :=
  if (TypeSize (Datatype t) =? 0) || (Z.of_nat (length data) <? ByteOffset t + TypeSize (Datatype t)) then None
  else from_outcome (unpackValue data (ByteOffset t) (BitOffset t) (Datatype t)).

Lemma unpack_tags_spec data tags r : Forall (λ t, 0 ≤ ByteOffset t) tags →
  ∃ m, unpack_tags r data tags = Ok m ∧
    (∀ id, Forall (λ u, is_input u = false → TagID u ≠ id) tags → m !! id = r !! id) ∧
    (∀ t, t ∈ tags → is_input t = false →
      (∀ u, u ∈ tags → is_input u = false → TagID u = TagID t → u = t) →
      m !! TagID t = match tag_value data t with Some v => Some v | None => r !! TagID t end).
Proof.
  intros Ho. revert r. induction Ho as [|t tags Ht Ho IH]; intros r.
  { exists r. split; [done|]. split; [done|]. by intros ? ?%not_elem_of_nil. }
  (* one tag: the map after it, whatever follows *)
  assert (Hstep : ∃ r', unpack_tags r data (t :: tags) = unpack_tags r' data tags ∧
    (∀ id, (is_input t = false → TagID t ≠ id) → r' !! id = r !! id) ∧
    (is_input t = false → r' !! TagID t = match tag_value data t with Some v => Some v | None => r !! TagID t end)).
  { cbn [unpack_tags]. change (negb (String.eqb (Source t) "")) with (is_input t).
    destruct (is_input t); [exists r; split; [done|]; by split|].
    destruct (Z.of_nat (length data) <? ByteOffset t + TypeSize (Datatype t)) eqn:E.
    { exists r. split; [done|]. split; [done|]. intros _. unfold tag_value. rewrite E, orb_true_r. done. }
    apply Z.ltb_ge in E.
    destruct (unpackValue_ok data (ByteOffset t) (BitOffset t) (Datatype t)) as (v & Hv & Hnil); [done|lia|].
    rewrite Hv. cbn [mbind outcome_bind]. eexists. split; [done|]. unfold tag_value.
    apply Z.ltb_ge in E. rewrite E, Hv. destruct (Z.eqb_spec (TypeSize (Datatype t)) 0) as [H0|H0]; cbn [orb].
    - destruct (is_nil v); [by split|]. by destruct Hnil as [Hnil _]; specialize (Hnil eq_refl).
    - apply Hnil in H0. rewrite H0. split; [intros id Hid; apply lookup_insert_ne; auto|].
      intros _. apply lookup_insert_eq. }
  destruct Hstep as (r' & -> & Hne & Heq). destruct (IH r') as (m & -> & Hm1 & Hm2).
  exists m. split; [done|]. split.
  - intros id Hf. apply Forall_cons in Hf as [Hid Hf]. rewrite Hm1 by done. auto.
  - intros u Hu Hi Huniq. destruct (decide (u ∈ tags)) as [Hin|Hout].
    + rewrite Hm2 by (try done; intros w Hw; apply Huniq; by right).
      destruct (tag_value data u) eqn:Hval; [done|].
      destruct (decide (is_input t = false ∧ TagID t = TagID u)) as [[Hti Hid]|Hno].
      * assert (t = u) as -> by (apply Huniq; [left|done|done]). by rewrite Heq, Hval by done.
      * apply Hne. intros Hti Hid. by apply Hno.
    + apply elem_of_cons in Hu as [->|]; [|done]. rewrite Hm1; [by apply Heq|].
      apply Forall_forall. intros w Hw Hwi Hid. apply Hout. rewrite <- (Huniq w); auto. by right.
Qed.

(** Unpacking accepts every buffer: an output tag's value is there exactly when its bytes
    are, and is then the value of those bytes. *)
Theorem unpack_output sub data :
  subslot_typed sub →
  ∃ m, UnpackOutputBuffer sub data = Ok m ∧
    ∀ t, t ∈ Tags sub → is_input t = false →
      (∀ u, u ∈ Tags sub → is_input u = false → TagID u = TagID t → u = t) →
      m !! TagID t =
        if (TypeSize (Datatype t) =? 0) || (Z.of_nat (length data) <? ByteOffset t + TypeSize (Datatype t)) then None
        else from_outcome (unpackValue data (ByteOffset t) (BitOffset t) (Datatype t)).
Proof.
  intros [_ _ Ht]. destruct (unpack_tags_spec data (Tags sub) ∅) as (m & Hm & _ & Hv).
  { eapply Forall_impl; [exact Ht|]. intros t [[? _] _]. done. }
  exists m. split; [done|]. intros t Hin Hi Hu. rewrite (Hv t Hin Hi Hu).
  fold (tag_value data t). rewrite lookup_empty. by destruct (tag_value data t).
Qed.

(** ** The overlap check *)

Lemma checkOverlaps_None regions :
  checkOverlaps regions = None ↔ ForallOrdPairs (λ a b, overlaps a b = false) regions.
Proof.
  induction regions as [|a l IH]; cbn [checkOverlaps].
  { split; [constructor|done]. }
  destruct (List.find (overlaps a) l) as [b|] eqn:Hf.
  - apply List.find_some in Hf as [Hin Ho]. split; [done|]. intros Hp. inversion Hp as [|? ? Ha _]; subst.
    rewrite List.Forall_forall in Ha. rewrite (Ha b Hin) in Ho. done.
  - rewrite IH. split; [intros Hp; constructor; [|done]|by inversion 1].
    apply List.Forall_forall. intros b Hin. by apply (List.find_none _ _ Hf).
Qed.

Lemma ForallOrdPairs_map {A B} (f : A → B) (R : B → B → Prop) l :
  ForallOrdPairs R (map f l) ↔ ForallOrdPairs (λ x y, R (f x) (f y)) l.
Proof.
  induction l as [|x l IH]; cbn; [split; constructor|].
  split; inversion 1 as [|? ? Hf Hp]; subst; constructor; try (by apply IH).
  - exact (proj1 (List.Forall_map _ _ _) Hf).
  - exact (proj2 (List.Forall_map _ _ _) Hf).
Qed.

Lemma ForallOrdPairs_filter {A} (p : A → bool) (R : A → A → Prop) l :
  ForallOrdPairs R (List.filter p l) ↔ ForallOrdPairs (λ x y, p x = true → p y = true → R x y) l.
Proof.
  induction l as [|x l IH]; cbn; [split; constructor|].
  destruct (p x) eqn:Hx.
  - split; inversion 1 as [|? ? Hf Hp]; subst; constructor; try (by apply IH);
      rewrite List.Forall_forall in *; intros y Hy; [|apply List.filter_In in Hy as [Hy Hpy]; auto].
    intros _ Hpy. apply Hf, List.filter_In. done.
  - rewrite IH. split; [intros Hp; constructor; [|done]|by inversion 1].
    apply List.Forall_forall. by intros y _ Hx'; rewrite Hx in Hx'.
Qed.

(** Two tags use no common byte. *)
Definition bytes_apart (t u : TagMapping) : Prop :=
  ByteOffset t + TypeSize (Datatype t) ≤ ByteOffset u ∨ ByteOffset u + TypeSize (Datatype u) ≤ ByteOffset t.

Definition same_buffer (t u : TagMapping) : Prop :=
  TypeSize (Datatype t) ≠ 0 ∧ TypeSize (Datatype u) ≠ 0 ∧ is_input t = is_input u.

Lemma overlaps_iff t u : in_u 16 (ByteOffset t) → in_u 16 (ByteOffset u) →
  ByteOffset t + TypeSize (Datatype t) < 2 ^ 16 → ByteOffset u + TypeSize (Datatype u) < 2 ^ 16 →
  overlaps (tag_region t) (tag_region u) = false ↔ bytes_apart t u.
Proof.
  unfold in_u. intros. unfold overlaps, tag_region, bytes_apart. cbn [rStart rEnd].
  pose proof (TypeSize_range (Datatype t)). pose proof (TypeSize_range (Datatype u)).
  rewrite (wrapu_small 16 (TypeSize (Datatype t))), (wrapu_small 16 (TypeSize (Datatype u))) by (unfold in_u; lia).
  rewrite !wrapu_small by (unfold in_u; lia). rewrite andb_false_iff, !Z.ltb_ge. lia.
Qed.

(** Where no end wraps, the check accepts exactly the subslots in which tags of one buffer
    use different bytes. (Bits of one byte count as an overlap.) *)
Theorem ValidateTagOverlaps_spec sub :
  subslot_typed sub → no_wrap sub →
  ValidateTagOverlaps sub = None ↔
  ForallOrdPairs (λ t u, same_buffer t u → bytes_apart t u) (Tags sub).
Proof.
  intros [_ _ Ht] Hw. unfold ValidateTagOverlaps.
  assert (Hdir : ∀ inp, checkOverlaps (regions_of inp (Tags sub)) = None ↔
    ForallOrdPairs (λ t u, same_buffer t u → is_input t = inp → bytes_apart t u) (Tags sub)).
  { intros inp. rewrite checkOverlaps_None. unfold regions_of.
    rewrite ForallOrdPairs_map, ForallOrdPairs_filter. unfold no_wrap in Hw.
    revert Ht Hw. induction (Tags sub) as [|t tags IH]; intros Ht Hw; [split; constructor|].
    apply Forall_cons in Ht as [Ht1 Ht]. apply Forall_cons in Hw as [Hw1 Hw]. specialize (IH Ht Hw).
    assert (Hpair : ∀ u, u ∈ tags →
      ((negb (TypeSize (Datatype t) =? 0) && Bool.eqb inp (negb (String.eqb (Source t) "")) = true →
        negb (TypeSize (Datatype u) =? 0) && Bool.eqb inp (negb (String.eqb (Source u) "")) = true →
        overlaps (tag_region t) (tag_region u) = false) ↔
       (same_buffer t u → is_input t = inp → bytes_apart t u))).
    { intros u Hu. rewrite Forall_forall in Ht, Hw. destruct (Ht u Hu) as [Hou _].
      rewrite (overlaps_iff t u (proj1 Ht1) Hou Hw1 (Hw u Hu)).
      unfold same_buffer, is_input. rewrite !andb_true_iff, !negb_true_iff, !Z.eqb_neq, !eqb_true_iff.
      naive_solver congruence. }
    split; inversion 1 as [|? ? Hf Hp]; subst; constructor; try (by apply IH);
      rewrite List.Forall_forall in *; intros u Hu; apply Hpair; auto; by apply list_elem_of_In. }
  transitivity (checkOverlaps (regions_of true (Tags sub)) = None ∧ checkOverlaps (regions_of false (Tags sub)) = None).
  { destruct (checkOverlaps (regions_of true _)), (checkOverlaps (regions_of false _)); naive_solver. }
  rewrite !Hdir. clear. induction (Tags sub) as [|t tags IH]; [split; [|split]; constructor|].
  split.
  - intros [Ha Hb]. inversion Ha as [|? ? Ha1 Ha2]; inversion Hb as [|? ? Hb1 Hb2]; subst.
    constructor; [|by apply IH]. rewrite List.Forall_forall in *. intros u Hu Hs.
    destruct (is_input t) eqn:E; auto.
  - inversion 1 as [|? ? Hf Hp]; subst. apply IH in Hp as [Hp1 Hp2].
    split; constructor; try done; rewrite List.Forall_forall in *; auto.
Qed.

(** ** Whole configurations *)

Lemma validate_subslots_None n seen subs :
  validate_subslots n seen subs = None ↔
  Forall (λ s, validateSubslot n s = None ∧ SubslotNumber s ∉ seen) subs ∧ NoDup (SubslotNumber <$> subs).
Proof.
  revert seen. induction subs as [|s subs IH]; intros seen; cbn [validate_subslots fmap list_fmap].
  { split; [by repeat constructor|done]. }
  rewrite Forall_cons, NoDup_cons. case_decide as Hin; [naive_solver|].
  destruct (validateSubslot n s) eqn:Hv; [naive_solver|]. rewrite IH, !Forall_forall, list_elem_of_fmap.
  set_solver.
Qed.

Definition slot_valid (slot : SlotConfig) : Prop :=
  Forall (λ s, validateSubslot (SlotNumber slot) s = None) (Subslots slot) ∧
  NoDup (SubslotNumber <$> Subslots slot).

Lemma validate_slots_None seen slots :
  validate_slots seen slots = None ↔
  Forall (λ s, slot_valid s ∧ SlotNumber s ∉ seen) slots ∧ NoDup (SlotNumber <$> slots).
Proof.
  revert seen. induction slots as [|s slots IH]; intros seen; cbn [validate_slots fmap list_fmap].
  { split; [by repeat constructor|done]. }
  assert (Hs : validate_subslots (SlotNumber s) ∅ (Subslots s) = None ↔ slot_valid s).
  { rewrite validate_subslots_None. unfold slot_valid. rewrite !Forall_forall. set_solver. }
  rewrite Forall_cons, NoDup_cons. case_decide as Hin; [naive_solver|].
  destruct (validate_subslots _ _ _) eqn:Hv.
  - split; [done|]. intros [[[H _] _] _]. by apply Hs in H.
  - rewrite IH, !Forall_forall, list_elem_of_fmap. destruct Hs as [Hs _]. specialize (Hs eq_refl). set_solver.
Qed.

(** A configuration is accepted exactly when the names and identifiers are given, slot and
    subslot numbers are distinct and every subslot is valid; only the cycle time changes,
    to 1000 when it was not given. *)
Theorem Validate_accepts c :
  (fst (Validate c) = None ↔
    StationName c ≠ "" ∧ InterfaceName c ≠ "" ∧ VendorID c ≠ 0 ∧ DeviceID c ≠ 0 ∧
    NoDup (SlotNumber <$> Slots c) ∧ Forall slot_valid (Slots c)) ∧
  Slots (snd (Validate c)) = Slots c ∧
  (fst (Validate c) = None → CycleTimeUs (snd (Validate c)) = if CycleTimeUs c =? 0 then 1000 else CycleTimeUs c).
Proof.
  unfold Validate.
  destruct (String.eqb_spec (StationName c) ""); [naive_solver|].
  destruct (String.eqb_spec (InterfaceName c) ""); [naive_solver|].
  destruct (Z.eqb_spec (VendorID c) 0); [naive_solver|].
  destruct (Z.eqb_spec (DeviceID c) 0); [naive_solver|].
  cbn [fst snd Slots CycleTimeUs]. split; [|done]. rewrite validate_slots_None, !Forall_forall.
  set_solver.
Qed.

(** ** Witnesses *)

Definition ex_sub : SubslotConfig :=
  mkSubslot 1 2 DirectionInput 12 0
    [mkTag "run" 0 0 TypeBool "a"; mkTag "fault" 0 3 TypeBool "b";
     mkTag "speed" 2 0 TypeInt16 "c"; mkTag "count" 4 0 TypeUint32 "d"; mkTag "level" 8 0 TypeFloat32 "e"].

Definition ex_values : gmap string value :=
  list_to_map [("run", VBool true); ("fault", VBool true); ("speed", VInt KInt (-2)); ("count", VInt KInt64 70000);
               ("level", VFloat64 0x3FF8000000000000)].

Example pack_ex : let _ := conv_zero in
  PackInputBuffer ex_sub ex_values = Ok [9; 0; 255; 254; 0; 1; 17; 112; 63; 192; 0; 0].
Proof. vm_compute. reflexivity. Qed.

Lemma apart_witness :
  ForallOrdPairs (λ t u, is_input t = true → is_input u = true → apart t u) (Tags ex_sub).
Proof.
  repeat first [apply FOP_nil | apply FOP_cons | apply List.Forall_nil | apply List.Forall_cons];
    intros _ _; unfold apart;
    first [left; vm_compute; congruence | right; right; repeat split; vm_compute; congruence].
Qed.

Lemma packed_input_readable_witness :
  ∃ buf, @PackInputBuffer conv_zero ex_sub ex_values = Ok buf ∧ Z.of_nat (length buf) = 12 ∧
    unpackValue buf 2 0 TypeInt16 = Ok (VInt KInt16 (-2)) ∧ unpackValue buf 0 3 TypeBool = Ok (VBool true).
Proof.
  destruct (@packed_input_readable conv_zero 1 ex_sub ex_values) as (buf & Hp & Hl & Hr).
  - reflexivity.
  - constructor; apply (bool_decide_unpack _); vm_compute; exact I.
  - apply (bool_decide_unpack _); vm_compute; exact I.
  - exact apart_witness.
  - apply map_Forall_to_list. apply (bool_decide_unpack _); vm_compute; exact I.
  - exists buf. split; [exact Hp|]. split; [exact Hl|]. split.
    + apply (Hr (mkTag "speed" 2 0 TypeInt16 "c") (VInt KInt (-2))); [|reflexivity|reflexivity].
      apply (bool_decide_unpack _); vm_compute; exact I.
    + apply (Hr (mkTag "fault" 0 3 TypeBool "b") (VBool true)); [|reflexivity|reflexivity].
      apply (bool_decide_unpack _); vm_compute; exact I.
Defined.

Lemma wrapped_offset_panics_witness :
  validateSubslot 1 (mkSubslot 1 2 DirectionInput 4 0 [mkTag "x" 65535 0 TypeUint16 "s"]) = None ∧
  @PackInputBuffer conv_zero (mkSubslot 1 2 DirectionInput 4 0 [mkTag "x" 65535 0 TypeUint16 "s"]) {["x" := VInt KInt 1]} = Panic.
Proof.
  apply (@wrapped_offset_panics conv_zero 1 1 2 0 "x" TypeUint16 65535 0 "s" 4 (VInt KInt 1));
    apply (bool_decide_unpack _); vm_compute; exact I.
Defined.

Lemma received_exact_witness :
  @received conv_zero TypeInt16 (VInt KInt64 (-300)) = VInt KInt16 (-300).
Proof. apply (@received_exact conv_zero TypeInt16 KInt16 KInt64 (-300)); [discriminate|reflexivity|lia|]. apply (bool_decide_unpack _); vm_compute; exact I. Defined.

(** An int64 tag loses its low bits beyond 53: values pass through [float64]. *)
Example int64_loses_precision : @received conv_zero TypeInt64 (VInt KInt64 (2 ^ 53 + 1)) = VInt KInt64 (2 ^ 53).
Proof. vm_compute. reflexivity. Qed.

(** A [uint] value is packed as zero. *)
Example uint_packed_as_zero : @received conv_zero TypeUint8 (VInt KUint 7) = VInt KUint8 0.
Proof. vm_compute. reflexivity. Qed.

Lemma unpack_output_witness :
  ∃ m, UnpackOutputBuffer (mkSubslot 1 2 DirectionOutput 0 3 [mkTag "y" 1 0 TypeUint16 ""]) [1; 2; 3] = Ok m ∧
    m !! "y" = Some (VInt KUint16 515).
Proof.
  destruct (unpack_output (mkSubslot 1 2 DirectionOutput 0 3 [mkTag "y" 1 0 TypeUint16 ""]) [1; 2; 3]) as (m & Hm & Hv).
  - constructor; apply (bool_decide_unpack _); vm_compute; exact I.
  - exists m. split; [exact Hm|]. apply (Hv (mkTag "y" 1 0 TypeUint16 "")); [left|reflexivity|].
    intros u [->|H]%elem_of_cons _ _; [reflexivity|by apply not_elem_of_nil in H].
Defined.

Lemma ValidateTagOverlaps_spec_witness :
  ValidateTagOverlaps ex_sub ≠ None ∧
  ¬ ForallOrdPairs (λ t u, same_buffer t u → bytes_apart t u) (Tags ex_sub).
Proof.
  split; [vm_compute; discriminate|]. intros H.
  apply (ValidateTagOverlaps_spec ex_sub) in H.
  - revert H. vm_compute. discriminate.
  - constructor; apply (bool_decide_unpack _); vm_compute; exact I.
  - apply (bool_decide_unpack _); vm_compute; exact I.
Defined.
