(* ===== verification/PnioBlocks.v ===== *)
(** PNIO blocks: internal/profinet/pnio_blocks.go, the records inside PROFINET connect,
    control, read and write calls.

    A parser reads the byte slice at offsets, as the code does; a read outside it is
    [Panic]. Loops over a count are recursive on that count and give the offset reached. *)

From S2P Require Export Prelude GoBytes GoText Wire.

#[local] Open Scope Z_scope.

Definition BlockTypeARBlockReq : Z := 0x0101.
Definition BlockTypeIOCRBlockReq : Z := 0x0102.
Definition BlockTypeAlarmCRBlockReq : Z := 0x0103.
Definition BlockTypeExpectedSubmoduleReq : Z := 0x0104.
Definition BlockTypeIODControlReq : Z := 0x0110.
Definition BlockTypeIODControlRes : Z := 0x8110.
Definition BlockTypeARBlockRes : Z := 0x8101.
Definition BlockTypeIOCRBlockRes : Z := 0x8102.
Definition BlockTypeAlarmCRBlockRes : Z := 0x8103.
Definition BlockTypeModuleDiffBlock : Z := 0x8104.
Definition BlockTypeIODWriteReqHeader : Z := 0x0008.
Definition BlockTypeIODWriteResHeader : Z := 0x8008.
Definition BlockTypeIODReadReqHeader : Z := 0x0009.
Definition BlockTypeIODReadResHeader : Z := 0x8009.
Definition BlockTypeIM0 : Z := 0x0020.
Definition BlockTypeARRPCBlockReq : Z := 0x0114.
Definition BlockTypeRealIdentData : Z := 0x0013.
Definition BlockTypeAPIData : Z := 0x001A.
Definition BlockTypeIM0FilterDataSubmodule : Z := 0x0030.
Definition BlockTypeIM0FilterDataModule : Z := 0x0031.
Definition BlockTypeIM0FilterDataDevice : Z := 0x0032.

Definition ARTypeIOCAR : Z := 1.
Definition IOCRTypeInput : Z := 1.
Definition IOCRTypeOutput : Z := 2.
Definition IOCRPropertyRTClass1 : Z := 1.

Definition ControlCmdPrmEnd : Z := 1.
Definition ControlCmdApplicationReady : Z := 2.
Definition ControlCmdRelease : Z := 3.
Definition ControlCmdDone : Z := 4.

Record PNIOBlock := mkBlock {
  bType : Z;
  bLength : Z;
  VersionHigh : Z;
  VersionLow : Z;
  bData : list Z;
}.

(** [%04X] of a 16-bit number. *)
Definition hex_digit (n : Z) : Ascii.ascii := char_of (if n <? 10 then 48 + n else 55 + n).
Definition hex4 (n : Z) : string :=
  str (map (λ i, hex_digit ((n / 16 ^ i) mod 16)) [3; 2; 1; 0]).

(** The next multiple of four. *)
Definition align4 (offset : nat) : nat :=
  if (offset mod 4 =? 0)%nat then offset else (offset + (4 - offset mod 4))%nat.

(** The loop of [ParsePNIOBlocks]: every iteration advances by at least four. Blocks read
    before an error are returned with it, but no caller looks at them. *)
Fixpoint parse_pnio (fuel : nat) (data : list Z) (offset : nat) : outcome (list PNIOBlock) :=
  match fuel with
  | O => Ok []
  | S fuel' =>
      if (offset + 6 <=? length data)%nat then
        type ← get_u16 data offset;
        len ← get_u16 data (offset + 2);
        vh ← index data (offset + 4);
        vl ← index data (offset + 5);
        let payloadLen := if len - 2 <? 0 then 0 else len - 2 in
        let dataStart := (offset + 6)%nat in
        let dataEnd := (dataStart + Z.to_nat payloadLen)%nat in
        if (length data <? dataEnd)%nat then
          Err ("block type 0x" +:+ hex4 type +:+ " at offset " +:+ itoa (Z.of_nat offset)
               +:+ ": payload extends beyond data (need " +:+ itoa (Z.of_nat dataEnd)
               +:+ ", have " +:+ itoa (Z.of_nat (length data)) +:+ ")")
        else
          dst ← make_bytes payloadLen;
          src ← slice data dataStart dataEnd;
          let block := mkBlock type len vh vl (copy_into dst src) in
          let offset := align4 (offset + (4 + Z.to_nat len)) in
          rest ← parse_pnio fuel' data offset;
          Ok (block :: rest)
      else Ok []
  end.

Definition ParsePNIOBlocks (data : list Z) : outcome (list PNIOBlock) :=
  parse_pnio (length data) data 0.

Definition MarshalPNIOBlock (blockType versionHigh versionLow : Z) (payload : list Z) : list Z :=
  let blockLength := wrapu 16 (2 + Z.of_nat (length payload)) in
  put_u16 blockType ++ put_u16 blockLength ++ [versionHigh; versionLow] ++ payload.

(** ** Connect request blocks *)

Record ARBlockReq := mkAR {
  ARType : Z;
  ARUUID : list Z;
  SessionKey : Z;
  CMInitiatorMAC : list Z;
  CMInitiatorObjUUID : list Z;
  ARProperties : Z;
  CMInitiatorActivityTimeout : Z;
  CMInitiatorUDPRTPort : Z;
  CMInitiatorStationName : string;
}.

(** The sum [52+nameLen] is a uint16. *)
Definition ParseARBlockReq (data : list Z) : outcome ARBlockReq :=
  if (length data <? 52)%nat then
    Err ("ARBlockReq too short: " +:+ itoa (Z.of_nat (length data)) +:+ " bytes")
  else
    arType ← get_u16 data 0;
    sessionKey ← get_u16 data 18;
    arUUID ← slice data 2 18;
    mac ← slice data 20 26;
    objUUID ← slice data 26 42;
    props ← get_u32 data 42;
    timeout ← get_u16 data 46;
    port ← get_u16 data 48;
    nameLen ← get_u16 data 50;
    let nameEnd := wrapu 16 (52 + nameLen) in
    if Z.of_nat (length data) <? nameEnd then
      Err ("ARBlockReq station name length " +:+ itoa nameLen +:+ " exceeds data")
    else
      name ← slice data 52 (Z.to_nat nameEnd);
      Ok (mkAR arType arUUID sessionKey mac objUUID props timeout port (bytes_string name)).

Record IOCRDataObject := mkIOCRObj { oSlot : Z; oSubslot : Z; oFrameOffset : Z }.

Record IOCRAPIEntry := mkIOCRAPI {
  API : Z;
  IODataObjects : list IOCRDataObject;
  IOCSs : list IOCRDataObject;
}.

Record IOCRBlockReq := mkIOCR {
  IOCRType : Z;
  IOCRReference : Z;
  LT : Z;
  IOCRProperties : Z;
  DataLength : Z;
  FrameID : Z;
  SendClockFactor : Z;
  ReductionRatio : Z;
  Phase : Z;
  Sequence : Z;
  FrameSendOffset : Z;
  WatchdogFactor : Z;
  DataHoldFactor : Z;
  IOCRTagHeader : Z;
  IOCRMulticastMAC : list Z;
  NumberOfAPIs : Z;
  APIs : list IOCRAPIEntry;
}.

(** The loops over IO data objects and IOCSs, which have the same layout. *)
Fixpoint parse_objects (n : nat) (data : list Z) (offset : nat) : outcome (list IOCRDataObject * nat) :=
  match n with
  | O => Ok ([], offset)
  | S n' =>
      if (length data <? offset + 6)%nat then Ok ([], offset)
      else
        slot ← get_u16 data offset;
        subslot ← get_u16 data (offset + 2);
        frameOffset ← get_u16 data (offset + 4);
        '(rest, offset) ← parse_objects n' data (offset + 6);
        Ok (mkIOCRObj slot subslot frameOffset :: rest, offset)
  end.

(** The API loop: an entry cut off before its IOCS count is dropped and ends the loop. *)
Fixpoint parse_iocr_apis (n : nat) (data : list Z) (offset : nat) : outcome (list IOCRAPIEntry) :=
  match n with
  | O => Ok []
  | S n' =>
      if (length data <? offset + 6)%nat then Ok []
      else
        api ← get_u32 data offset;
        numDataObjects ← get_u16 data (offset + 4);
        '(objs, offset) ← parse_objects (Z.to_nat numDataObjects) data (offset + 6);
        if (length data <? offset + 2)%nat then Ok []
        else
          numIOCS ← get_u16 data offset;
          '(css, offset) ← parse_objects (Z.to_nat numIOCS) data (offset + 2);
          rest ← parse_iocr_apis n' data offset;
          Ok (mkIOCRAPI api objs css :: rest)
  end.

Definition ParseIOCRBlockReq (data : list Z) : outcome IOCRBlockReq :=
  if (length data <? 38)%nat then
    Err ("IOCRBlockReq too short: " +:+ itoa (Z.of_nat (length data)) +:+ " bytes")
  else
    type ← get_u16 data 0;
    ref ← get_u16 data 2;
    lt ← get_u16 data 4;
    props ← get_u32 data 6;
    len ← get_u16 data 10;
    frameID ← get_u16 data 12;
    scf ← get_u16 data 14;
    rr ← get_u16 data 16;
    phase ← get_u16 data 18;
    seq ← get_u16 data 20;
    fso ← get_u32 data 22;
    wd ← get_u16 data 26;
    dh ← get_u16 data 28;
    tag ← get_u16 data 30;
    mac ← slice data 32 38;
    let iocr n apis := mkIOCR type ref lt props len frameID scf rr phase seq fso wd dh tag mac n apis in
    if (length data <? 40)%nat then Ok (iocr 0 [])
    else
      n ← get_u16 data 38;
      apis ← parse_iocr_apis (Z.to_nat n) data 40;
      Ok (iocr n apis).

Record AlarmCRBlockReq := mkAlarmCR {
  AlarmCRType : Z;
  AlarmLT : Z;
  AlarmCRProperties : Z;
  RTATimeoutFactor : Z;
  RTARetries : Z;
  LocalAlarmRef : Z;
  MaxAlarmDataLen : Z;
  AlarmCRTagHeaderH : Z;
}.

Definition ParseAlarmCRBlockReq (data : list Z) : outcome AlarmCRBlockReq :=
  if (length data <? 18)%nat then
    Err ("AlarmCRBlockReq too short: " +:+ itoa (Z.of_nat (length data)) +:+ " bytes")
  else
    type ← get_u16 data 0;
    lt ← get_u16 data 2;
    props ← get_u32 data 4;
    timeout ← get_u16 data 8;
    retries ← get_u16 data 10;
    ref ← get_u16 data 12;
    max ← get_u16 data 14;
    tagH ← get_u16 data 16;
    Ok (mkAlarmCR type lt props timeout retries ref max tagH).

(** *** Expected submodules *)

Record SubmoduleDataDesc := mkDesc {
  DataDirection : Z;
  dDataLength : Z;
  LengthIOPS : Z;
  LengthIOCS : Z;
}.

Record ExpectedSubmodule := mkExpSub {
  SubslotNumber : Z;
  SubmoduleIdentNumber : Z;
  SubmoduleProperties : Z;
  DataDescription : list SubmoduleDataDesc;
}.

Record ExpectedModule := mkExpMod {
  SlotNumber : Z;
  ModuleIdentNumber : Z;
  ModuleProperties : Z;
  Submodules : list ExpectedSubmodule;
}.

Record ExpectedAPI := mkExpAPI { eAPI : Z; Modules : list ExpectedModule }.

Fixpoint parse_descs (n : nat) (data : list Z) (offset : nat) : outcome (list SubmoduleDataDesc * nat) :=
  match n with
  | O => Ok ([], offset)
  | S n' =>
      if (length data <? offset + 8)%nat then Ok ([], offset)
      else
        dir ← get_u16 data offset;
        len ← get_u16 data (offset + 2);
        iops ← index data (offset + 4);
        iocs ← index data (offset + 5);
        '(rest, offset) ← parse_descs n' data (offset + 8);
        Ok (mkDesc dir len iops iocs :: rest, offset)
  end.

(** NO_IO has no data description, INPUT and OUTPUT one, INPUT_OUTPUT two. *)
Definition num_descs (props : Z) : nat :=
  let subType := Z.land props 3 in
  if subType =? 0 then 0 else if (subType =? 1) || (subType =? 2) then 1 else 2.

Fixpoint parse_submodules (n : nat) (data : list Z) (offset : nat) : outcome (list ExpectedSubmodule * nat) :=
  match n with
  | O => Ok ([], offset)
  | S n' =>
      if (length data <? offset + 12)%nat then Ok ([], offset)
      else
        subslot ← get_u16 data offset;
        ident ← get_u32 data (offset + 2);
        props ← get_u16 data (offset + 6);
        '(descs, offset) ← parse_descs (num_descs props) data (offset + 8);
        '(rest, offset) ← parse_submodules n' data offset;
        Ok (mkExpSub subslot ident props descs :: rest, offset)
  end.

Fixpoint parse_modules (n : nat) (data : list Z) (offset : nat) : outcome (list ExpectedModule * nat) :=
  match n with
  | O => Ok ([], offset)
  | S n' =>
      if (length data <? offset + 10)%nat then Ok ([], offset)
      else
        slot ← get_u16 data offset;
        ident ← get_u32 data (offset + 2);
        props ← get_u16 data (offset + 6);
        numSubmodules ← get_u16 data (offset + 8);
        '(subs, offset) ← parse_submodules (Z.to_nat numSubmodules) data (offset + 10);
        '(rest, offset) ← parse_modules n' data offset;
        Ok (mkExpMod slot ident props subs :: rest, offset)
  end.

Fixpoint parse_expected_apis (n : nat) (data : list Z) (offset : nat) : outcome (list ExpectedAPI) :=
  match n with
  | O => Ok []
  | S n' =>
      if (length data <? offset + 6)%nat then Ok []
      else
        api ← get_u32 data offset;
        numModules ← get_u16 data (offset + 4);
        '(mods, offset) ← parse_modules (Z.to_nat numModules) data (offset + 6);
        rest ← parse_expected_apis n' data offset;
        Ok (mkExpAPI api mods :: rest)
  end.

Definition ParseExpectedSubmoduleReq (data : list Z) : outcome (list ExpectedAPI) :=
  if (length data <? 2)%nat then
    Err ("ExpectedSubmoduleReq too short: " +:+ itoa (Z.of_nat (length data)) +:+ " bytes")
  else
    numAPIs ← get_u16 data 0;
    parse_expected_apis (Z.to_nat numAPIs) data 2.

(** ** Responses *)

(** [copy(payload[a:b], src)] over zero bytes. *)
Definition field (n : nat) (src : list Z) : list Z := copy_into (replicate n 0) src.

Definition MarshalARBlockRes (arType : Z) (arUUID : list Z) (sessionKey : Z) (deviceMAC : list Z) (deviceUDPPort : Z) : list Z :=
  MarshalPNIOBlock BlockTypeARBlockRes 1 0
    (put_u16 arType ++ field 16 arUUID ++ put_u16 sessionKey ++ field 6 deviceMAC).

Definition MarshalIOCRBlockRes (iocrType iocrRef frameID : Z) : list Z :=
  MarshalPNIOBlock BlockTypeIOCRBlockRes 1 0 (put_u16 iocrType ++ put_u16 iocrRef ++ put_u16 frameID).

Definition MarshalAlarmCRBlockRes (alarmCRType localAlarmRef maxAlarmDataLen : Z) : list Z :=
  MarshalPNIOBlock BlockTypeAlarmCRBlockRes 1 0
    (put_u16 alarmCRType ++ put_u16 localAlarmRef ++ put_u16 maxAlarmDataLen).

Definition MarshalModuleDiffBlock (numAPIs : Z) : list Z :=
  MarshalPNIOBlock BlockTypeModuleDiffBlock 1 0 (put_u16 numAPIs).

Definition MarshalIODControlRes (arUUID : list Z) (sessionKey controlCmd : Z) : list Z :=
  MarshalPNIOBlock BlockTypeIODControlRes 1 0
    (field 16 arUUID ++ put_u16 sessionKey ++ put_u16 0 ++ put_u16 controlCmd ++ put_u16 0 ++ replicate 4 0).

Definition IOxSGood : Z := 0x80.
Definition DataStatusNormal : Z := 0x35.

Record IM0Data := mkIM0 {
  imVendorID : Z;
  OrderID : list Z;
  IMSerialNumber : list Z;
  HWRevision : Z;
  SWRevisionPrefix : Z;
  SWRevision : list Z;
  RevisionCounter : Z;
  ProfileID : Z;
  ProfileSpecType : Z;
  IMVersion : Z;
  IMSupported : Z;
}.

Definition MarshalIM0Block (im0 : IM0Data) : list Z :=
  MarshalPNIOBlock BlockTypeIM0 1 0
    (put_u16 (imVendorID im0) ++ field 20 (OrderID im0) ++ field 16 (IMSerialNumber im0)
     ++ put_u16 (HWRevision im0) ++ [SWRevisionPrefix im0] ++ field 3 (SWRevision im0)
     ++ put_u16 (RevisionCounter im0) ++ put_u16 (ProfileID im0) ++ put_u16 (ProfileSpecType im0)
     ++ put_u16 (IMVersion im0) ++ put_u16 (IMSupported im0) ++ replicate 10 0).

(** Error code, decode, code 1, code 2. *)
Record PNIOStatus := mkStatus { ErrorCode : Z; ErrorDecode : Z; ErrorCode1 : Z; ErrorCode2 : Z }.
Definition PNIOStatusOK : PNIOStatus := mkStatus 0 0 0 0.
Definition status_bytes (s : PNIOStatus) : list Z := [ErrorCode s; ErrorDecode s; ErrorCode1 s; ErrorCode2 s].
Definition IsOK (s : PNIOStatus) : bool :=
  (ErrorCode s =? 0) && (ErrorDecode s =? 0) && (ErrorCode1 s =? 0) && (ErrorCode2 s =? 0).


(** ** Sequences of blocks *)

Record wf_block (b : PNIOBlock) : Prop := {
  wf_type : in_u 16 (bType b);
  wf_vh : is_byte (VersionHigh b);
  wf_vl : is_byte (VersionLow b);
  wf_len : bLength b = 2 + Z.of_nat (length (bData b));
  wf_size : bLength b < 2 ^ 16;
}.

Definition block_bytes (b : PNIOBlock) : list Z :=
  MarshalPNIOBlock (bType b) (VersionHigh b) (VersionLow b) (bData b).

(** A block followed by the zeros that align it to four bytes. *)
Definition pad4 (n : nat) : nat := (align4 n - n)%nat.
Definition padded (b : PNIOBlock) : list Z := block_bytes b ++ replicate (pad4 (length (block_bytes b))) 0.

Lemma length_pnio_block b : length (block_bytes b) = (6 + length (bData b))%nat.
Proof. unfold block_bytes, MarshalPNIOBlock. rewrite !length_app, !length_be_bytes. cbn [length]. lia. Qed.

Lemma align4_spec n : (n ≤ align4 n ∧ align4 n < n + 4 ∧ align4 n mod 4 = 0)%nat.
Proof.
  unfold align4. pose proof (Nat.mod_upper_bound n 4 ltac:(lia)). pose proof (Nat.div_mod_eq n 4).
  destruct (Nat.eqb_spec (n mod 4) 0); split_and!; try lia.
  replace (n + (4 - n mod 4))%nat with ((S (n / 4)) * 4)%nat by lia. apply Nat.Div0.mod_mul.
Qed.

Lemma align4_add p n : (p mod 4 = 0)%nat → align4 (p + n) = (p + align4 n)%nat.
Proof.
  intros Hp. unfold align4. rewrite Nat.Div0.add_mod, Hp, Nat.add_0_l, Nat.Div0.mod_mod.
  destruct (_ =? _)%nat; lia.
Qed.

Lemma length_padded b : length (padded b) = align4 (length (block_bytes b)).
Proof.
  unfold padded, pad4. rewrite length_app, length_replicate.
  pose proof (align4_spec (length (block_bytes b))). lia.
Qed.

(** The fields of a block in the bytes after [pre]. *)
Lemma pnio_block_reads b pre post (data := pre ++ block_bytes b ++ post) (o := length pre) : wf_block b →
  get_u16 data o = Ok (bType b) ∧ get_u16 data (o + 2) = Ok (bLength b) ∧
  index data (o + 4) = Ok (VersionHigh b) ∧ index data (o + 5) = Ok (VersionLow b) ∧
  slice data (o + 6) (o + 6 + length (bData b)) = Ok (bData b).
Proof.
  intros [Ht Hh Hl Hlen Hsz]. unfold data, o.
  assert (Hlenm : wrapu 16 (2 + Z.of_nat (length (bData b))) mod 2 ^ (8 * Z.of_nat 2) = bLength b).
  { rewrite wrapu_small by (unfold in_u; lia). rewrite Hlen. apply Z.mod_small. change (8 * Z.of_nat 2) with 16. lia. }
  rewrite (get_be_skip 2 pre _ (length pre) (length pre) 0), (get_be_skip 2 pre _ _ (length pre) 2),
    (index_skip pre _ _ (length pre) 4), (index_skip pre _ _ (length pre) 5),
    (slice_skip pre _ _ _ (length pre) 6) by lia.
  replace (length pre + 6 + length (bData b) - length pre)%nat with (6 + length (bData b))%nat by lia.
  unfold block_bytes, MarshalPNIOBlock. rewrite <- !app_assoc.
  split; [|split; [|split; [|split]]]; wire_read.
  - by rewrite Z.mod_small by exact Ht.
  - by rewrite Hlenm.
  - done.
  - done.
  - apply slice_here. lia.
Qed.

(** A block at an aligned offset is read, and the parser goes on at the next aligned one. *)
Lemma parse_pnio_step b pre post fuel : wf_block b → (length pre mod 4 = 0)%nat →
  parse_pnio (S fuel) (pre ++ block_bytes b ++ post) (length pre) =
  (rest ← parse_pnio fuel (pre ++ block_bytes b ++ post) (length pre + align4 (length (block_bytes b)));
   Ok (b :: rest)).
Proof.
  intros Hb Hal. destruct (pnio_block_reads b pre post Hb) as (H1 & H2 & H3 & H4 & H5).
  destruct Hb as [_ _ _ Hlen _]. pose proof (length_pnio_block b) as Hbl.
  set (data := pre ++ block_bytes b ++ post) in *.
  assert (Hdl : length data = (length pre + 6 + length (bData b) + length post)%nat)
    by (unfold data; rewrite !length_app; lia).
  cbn [parse_pnio]. rewrite (proj2 (Nat.leb_le _ _)) by lia.
  rewrite H1, H2, H3, H4. cbn [mbind outcome_bind].
  rewrite (proj2 (Z.ltb_ge _ _)) by lia.
  replace (Z.to_nat (bLength b - 2)) with (length (bData b)) by lia.
  rewrite (proj2 (Nat.ltb_ge _ _)) by lia.
  unfold make_bytes. rewrite (proj2 (Z.leb_le _ _)) by lia. cbn [mbind outcome_bind].
  rewrite H5. cbn [mbind outcome_bind]. rewrite copy_into_same by (rewrite length_replicate; lia).
  replace (length pre + (4 + Z.to_nat (bLength b)))%nat with (length pre + length (block_bytes b))%nat by lia.
  rewrite align4_add by done. destruct b; done.
Qed.

Lemma parse_pnio_end fuel data offset : (length data < offset + 6)%nat → parse_pnio fuel data offset = Ok [].
Proof. intros H. destruct fuel; [done|]. cbn [parse_pnio]. by rewrite (proj2 (Nat.leb_gt _ _)) by lia. Qed.

Lemma parse_pnio_padded bs pre post fuel :
  Forall wf_block bs → (length pre mod 4 = 0)%nat →
  parse_pnio (length bs + fuel) (pre ++ concat (map padded bs) ++ post) (length pre) =
  (rest ← parse_pnio fuel (pre ++ concat (map padded bs) ++ post) (length pre + length (concat (map padded bs)));
   Ok (bs ++ rest)).
Proof.
  intros Hbs. revert pre. induction Hbs as [|b bs Hb _ IH]; intros pre Hal.
  - cbn [length map concat]. rewrite !Nat.add_0_l, Nat.add_0_r. by destruct (parse_pnio _ _ _).
  - cbn [map concat length Nat.add]. unfold padded at 1 3. rewrite <- !app_assoc, parse_pnio_step by done.
    assert (Hd : pre ++ block_bytes b ++ replicate (pad4 (length (block_bytes b))) 0 ++ concat (map padded bs) ++ post
      = (pre ++ padded b) ++ concat (map padded bs) ++ post) by (unfold padded at 2; by rewrite <- !app_assoc).
    assert (Hl : length (pre ++ padded b) = (length pre + align4 (length (block_bytes b)))%nat)
      by (by rewrite length_app, length_padded).
    rewrite Hd, <- Hl, IH.
    + rewrite Hl, (length_app (padded b)), length_padded, Nat.add_assoc. by destruct (parse_pnio _ _ _).
    + rewrite Hl. destruct (align4_spec (length (block_bytes b))) as (_ & _ & Hm).
      by rewrite Nat.Div0.add_mod, Hal, Hm.
Qed.

Lemma length_concat_padded bs : (length bs ≤ length (concat (map padded bs)))%nat.
Proof.
  induction bs as [|b bs IH]; [done|]. cbn [map concat length]. rewrite length_app, length_padded, length_pnio_block.
  pose proof (align4_spec (6 + length (bData b))). lia.
Qed.

(** Blocks written one after the other, each aligned to four bytes, are read back; fewer
    than six bytes after them are ignored. *)
Theorem ParsePNIOBlocks_padded bs post :
  Forall wf_block bs → (length post < 6)%nat →
  ParsePNIOBlocks (concat (map padded bs) ++ post) = Ok bs.
Proof.
  intros Hbs Hp. pose proof (length_concat_padded bs). unfold ParsePNIOBlocks.
  rewrite length_app. replace (length (concat (map padded bs)) + length post)%nat
    with (length bs + (length (concat (map padded bs)) + length post - length bs))%nat by lia.
  rewrite (parse_pnio_padded bs [] post) by done. rewrite parse_pnio_end by (cbn [app]; rewrite length_app; cbn; lia).
  cbn. by rewrite app_nil_r.
Qed.

Lemma concat_padded_aligned bs : (length (concat (map padded bs)) mod 4 = 0)%nat.
Proof.
  induction bs as [|b bs IH]; [done|]. cbn [map concat]. rewrite length_app, length_padded.
  destruct (align4_spec (length (block_bytes b))) as (_ & _ & Hm). by rewrite Nat.Div0.add_mod, Hm, IH.
Qed.

(** The last block needs no alignment. *)
Theorem ParsePNIOBlocks_last bs b : Forall wf_block bs → wf_block b →
  ParsePNIOBlocks (concat (map padded bs) ++ block_bytes b) = Ok (bs ++ [b]).
Proof.
  intros Hbs Hb. pose proof (length_concat_padded bs). pose proof (length_pnio_block b) as Hlb.
  unfold ParsePNIOBlocks. rewrite length_app.
  replace (length (concat (map padded bs)) + length (block_bytes b))%nat
    with (length bs + S (length (concat (map padded bs)) + length (block_bytes b) - S (length bs)))%nat by lia.
  rewrite (parse_pnio_padded bs [] (block_bytes b)) by done. cbn [app length Nat.add].
  rewrite <- (app_nil_r (block_bytes b)), parse_pnio_step, parse_pnio_end; try done.
  - rewrite !length_app. pose proof (align4_spec (length (block_bytes b))). cbn [length]. lia.
  - apply concat_padded_aligned.
Qed.

(** No bytes make the block parser panic. *)
Lemma parse_pnio_ok fuel data offset : is_bytes data → is_panic (parse_pnio fuel data offset) = false.
Proof.
  intros Hd. revert offset. induction fuel as [|fuel IH]; intros offset; [done|].
  cbn [parse_pnio]. case_if; [|done]. bool_to_prop. rewrite !get_be_ok by lia. cbn [mbind outcome_bind].
  destruct (index_ok data (offset + 4)) as (x & -> & _); [lia|].
  destruct (index_ok data (offset + 5)) as (y & -> & _); [lia|]. cbn [mbind outcome_bind].
  set (n := be_value (take 2 (drop (offset + 2) data))).
  case_if; [done|]. bool_to_prop. unfold make_bytes. rewrite (proj2 (Z.leb_le _ _)) by (case_if; bool_to_prop; lia).
  cbn [mbind outcome_bind]. rewrite slice_ok by (first [lia|done]). cbn [mbind outcome_bind].
  specialize (IH (align4 (offset + (4 + Z.to_nat n)))). by destruct (parse_pnio _ _ _).
Qed.

(** No bytes make the block parser panic. *)
Theorem ParsePNIOBlocks_total data : is_bytes data → is_panic (ParsePNIOBlocks data) = false.
Proof. apply parse_pnio_ok. Qed.

(** ** The request parsers on arbitrary bytes *)

Lemma parse_objects_ok n data offset : ∃ l o, parse_objects n data offset = Ok (l, o).
Proof.
  revert offset. induction n as [|n IH]; intros offset; cbn [parse_objects]; [by do 2 eexists|].
  case_if; [by do 2 eexists|]. bool_to_prop. rewrite !get_be_ok by lia. cbn [mbind outcome_bind].
  destruct (IH (offset + 6)%nat) as (l & o & ->). by do 2 eexists.
Qed.

Lemma parse_iocr_apis_ok n data offset : ∃ l, parse_iocr_apis n data offset = Ok l.
Proof.
  revert offset. induction n as [|n IH]; intros offset; cbn [parse_iocr_apis]; [by eexists|].
  case_if; [by eexists|]. bool_to_prop. rewrite !get_be_ok by lia. cbn [mbind outcome_bind].
  match goal with |- context [parse_objects ?k _ _] => destruct (parse_objects_ok k data (offset + 6)) as (l & o & ->) end. cbn [mbind outcome_bind].
  case_if; [by eexists|]. bool_to_prop. rewrite !get_be_ok by lia. cbn [mbind outcome_bind].
  match goal with |- context [parse_objects ?k _ _] => destruct (parse_objects_ok k data (o + 2)) as (l' & o' & ->) end. cbn [mbind outcome_bind].
  destruct (IH o') as (l'' & ->). by eexists.
Qed.

Lemma ParseIOCRBlockReq_total data : is_panic (ParseIOCRBlockReq data) = false.
Proof.
  unfold ParseIOCRBlockReq. case_if; [done|]. bool_to_prop.
  repeat match goal with
  | |- is_panic (mbind _ (get_be ?n ?d ?o)) = _ => rewrite (get_be_ok n d o) by lia; cbn [mbind outcome_bind]
  end.
  rewrite slice_ok by lia. cbn [mbind outcome_bind]. case_if; [done|]. bool_to_prop.
  rewrite get_be_ok by lia. cbn [mbind outcome_bind].
  match goal with |- context [parse_iocr_apis ?k _ _] => destruct (parse_iocr_apis_ok k data 40) as (l & ->) end. done.
Qed.

Lemma ParseAlarmCRBlockReq_total data : is_panic (ParseAlarmCRBlockReq data) = false.
Proof.
  unfold ParseAlarmCRBlockReq. case_if; [done|]. bool_to_prop. by rewrite !get_be_ok by lia.
Qed.

Lemma parse_descs_ok n data offset : ∃ l o, parse_descs n data offset = Ok (l, o).
Proof.
  revert offset. induction n as [|n IH]; intros offset; cbn [parse_descs]; [by do 2 eexists|].
  case_if; [by do 2 eexists|]. bool_to_prop. rewrite !get_be_ok by lia. cbn [mbind outcome_bind].
  destruct (index_ok data (offset + 4)) as (x & -> & _); [lia|].
  destruct (index_ok data (offset + 5)) as (y & -> & _); [lia|]. cbn [mbind outcome_bind].
  destruct (IH (offset + 8)%nat) as (l & o & ->). by do 2 eexists.
Qed.

Lemma parse_submodules_ok n data offset : ∃ l o, parse_submodules n data offset = Ok (l, o).
Proof.
  revert offset. induction n as [|n IH]; intros offset; cbn [parse_submodules]; [by do 2 eexists|].
  case_if; [by do 2 eexists|]. bool_to_prop. rewrite !get_be_ok by lia. cbn [mbind outcome_bind].
  match goal with |- context [parse_descs ?k _ _] => destruct (parse_descs_ok k data (offset + 8)) as (l & o & ->) end. cbn [mbind outcome_bind].
  destruct (IH o) as (l' & o' & ->). by do 2 eexists.
Qed.

Lemma parse_modules_ok n data offset : ∃ l o, parse_modules n data offset = Ok (l, o).
Proof.
  revert offset. induction n as [|n IH]; intros offset; cbn [parse_modules]; [by do 2 eexists|].
  case_if; [by do 2 eexists|]. bool_to_prop. rewrite !get_be_ok by lia. cbn [mbind outcome_bind].
  match goal with |- context [parse_submodules ?k _ _] => destruct (parse_submodules_ok k data (offset + 10)) as (l & o & ->) end. cbn [mbind outcome_bind].
  destruct (IH o) as (l' & o' & ->). by do 2 eexists.
Qed.

Lemma parse_expected_apis_ok n data offset : ∃ l, parse_expected_apis n data offset = Ok l.
Proof.
  revert offset. induction n as [|n IH]; intros offset; cbn [parse_expected_apis]; [by eexists|].
  case_if; [by eexists|]. bool_to_prop. rewrite !get_be_ok by lia. cbn [mbind outcome_bind].
  match goal with |- context [parse_modules ?k _ _] => destruct (parse_modules_ok k data (offset + 6)) as (l & o & ->) end. cbn [mbind outcome_bind].
  destruct (IH o) as (l' & ->). by eexists.
Qed.

Lemma ParseExpectedSubmoduleReq_total data : is_panic (ParseExpectedSubmoduleReq data) = false.
Proof.
  unfold ParseExpectedSubmoduleReq. case_if; [done|]. bool_to_prop. rewrite get_be_ok by lia. cbn [mbind outcome_bind].
  match goal with |- context [parse_expected_apis ?k _ _] => destruct (parse_expected_apis_ok k data 2) as (l & ->) end. done.
Qed.

(** An AR block with a station name length of 65484 or more crashes the device: the sum
    52 + length wraps to a bound below 52. Every other block is accepted or rejected, and
    rejected exactly when it is shorter than its header and name. *)
Theorem ParseARBlockReq_cases data :
  is_bytes data → (52 ≤ length data)%nat →
  ∃ nameLen, get_u16 data 50 = Ok nameLen ∧ in_u 16 nameLen ∧
    if 65484 <=? nameLen then ParseARBlockReq data = Panic
    else if Z.of_nat (length data) <? 52 + nameLen then is_err (ParseARBlockReq data) = true
    else ∃ ar, ParseARBlockReq data = Ok ar ∧ Z.of_nat (str_len (CMInitiatorStationName ar)) = nameLen.
Proof.
  intros Hd Hl. unfold ParseARBlockReq. rewrite (proj2 (Nat.ltb_ge _ _)) by lia.
  set (o50 := get_u16 data 50). assert (H50 : o50 = Ok (be_value (take 2 (drop 50 data)))) by (apply get_be_ok; lia).
  set (n := be_value (take 2 (drop 50 data))) in *.
  assert (Hn : in_u 16 n) by (apply (get_be_range 2 data 50); [done|exact H50]).
  exists n. split; [done|]. split; [done|]. rewrite H50. unfold in_u in Hn.
  rewrite !get_be_ok, !slice_ok by lia. cbn [mbind outcome_bind].
  case_if; bool_to_prop.
  - assert (Hw : wrapu 16 (52 + n) = 52 + n - 2 ^ 16).
    { unfold wrapu. rewrite <- (Z.mod_add _ (-1)) by lia. apply Z.mod_small. lia. }
    rewrite Hw, (proj2 (Z.ltb_ge _ _)) by lia. unfold slice. by rewrite decide_False by lia.
  - rewrite wrapu_small by (unfold in_u; lia). case_if; bool_to_prop; [done|].
    rewrite slice_ok by lia. cbn [mbind outcome_bind]. eexists. split; [done|]. cbn [CMInitiatorStationName].
    rewrite <- length_string_bytes, string_bytes_string by (by apply Forall_take_drop). rewrite length_take, length_drop. lia.
Qed.

(** A station name of 65535 bytes announced in a minimal block. *)
Lemma ParseARBlockReq_cases_witness : ParseARBlockReq (replicate 50 0 ++ [255; 255]) = Panic.
Proof.
  destruct (ParseARBlockReq_cases (replicate 50 0 ++ [255; 255])) as (n & Hn & _ & H).
  - apply (bool_decide_unpack _); vm_compute; exact I.
  - vm_compute. lia.
  - vm_compute in Hn. injection Hn as <-. exact H.
Defined.

Lemma ParsePNIOBlocks_padded_witness :
  ParsePNIOBlocks (concat (map padded [mkBlock 0x0110 5 1 0 [1; 2; 3]; mkBlock 8 2 1 0 []]) ++ [0; 0])
  = Ok [mkBlock 0x0110 5 1 0 [1; 2; 3]; mkBlock 8 2 1 0 []].
Proof.
  apply ParsePNIOBlocks_padded; [|vm_compute; lia].
  apply List.Forall_cons; [|apply List.Forall_cons; [|apply List.Forall_nil]];
    constructor; apply (bool_decide_unpack _); vm_compute; exact I.
Defined.
