(* ===== verification/PnioAr.v ===== *)
(** Application relationships: internal/profinet/ar.go, the connection state of a PROFINET
    device.

    A handler takes the manager and a request and gives the response bytes, the status, the
    new manager and the effects it started: callbacks to the cyclic exchange, and the
    goroutine [go m.applicationReady]. The manager's lock makes every handler one step;
    [applicationReady] gives the lock back before it calls the exchange, so it is two. An
    [*AR] is a value of the map: only its state changes after it is stored, and only through
    the map. *)

From S2P Require Export Prelude GoBytes GoText Wire PnioBlocks.
From S2P Require IoData.

#[local] Open Scope Z_scope.

Inductive ARState : Set :=
  | ARStateClosed | ARStateConnected | ARStateParameterize | ARStateWaitAppReady | ARStateData.

#[export] Instance ARState_eq_dec : EqDecision ARState.
Proof. solve_decision. Defined.

Record IOCRInfo := mkIOCRInfo {
  iIOCRType : Z;
  iIOCRReference : Z;
  iFrameID : Z;
  iDataLength : Z;
  iSendClockFactor : Z;
  iReductionRatio : Z;
  iWatchdogFactor : Z;
  iDataHoldFactor : Z;
  iAPIs : list IOCRAPIEntry;
}.

Record AlarmCRInfo := mkAlarmInfo {
  aAlarmCRType : Z;
  aLocalAlarmRef : Z;
  aRemoteAlarmRef : Z;
  aMaxAlarmDataLen : Z;
}.

(** The initiator's UDP address is kept as the text of the address. *)
Record AR := mkARel {
  arUUID : list Z;
  arType : Z;
  arSessionKey : Z;
  InitiatorMAC : list Z;
  InitiatorAddr : string;
  ActivityUUID : list Z;
  State : ARState;
  InputIOCR : option IOCRInfo;
  OutputIOCR : option IOCRInfo;
  AlarmCR : option AlarmCRInfo;
  ExpectedSubmodules : option (list ExpectedAPI);
}.

Definition with_state (ar : AR) (s : ARState) : AR :=
  mkARel (arUUID ar) (arType ar) (arSessionKey ar) (InitiatorMAC ar) (InitiatorAddr ar) (ActivityUUID ar) s
    (InputIOCR ar) (OutputIOCR ar) (AlarmCR ar) (ExpectedSubmodules ar).
Definition with_input (ar : AR) (i : IOCRInfo) : AR :=
  mkARel (arUUID ar) (arType ar) (arSessionKey ar) (InitiatorMAC ar) (InitiatorAddr ar) (ActivityUUID ar) (State ar)
    (Some i) (OutputIOCR ar) (AlarmCR ar) (ExpectedSubmodules ar).
Definition with_output (ar : AR) (o : IOCRInfo) : AR :=
  mkARel (arUUID ar) (arType ar) (arSessionKey ar) (InitiatorMAC ar) (InitiatorAddr ar) (ActivityUUID ar) (State ar)
    (InputIOCR ar) (Some o) (AlarmCR ar) (ExpectedSubmodules ar).
Definition with_alarm (ar : AR) (a : AlarmCRInfo) : AR :=
  mkARel (arUUID ar) (arType ar) (arSessionKey ar) (InitiatorMAC ar) (InitiatorAddr ar) (ActivityUUID ar) (State ar)
    (InputIOCR ar) (OutputIOCR ar) (Some a) (ExpectedSubmodules ar).

Record ARManager := mkManager {
  cfg : IoData.ProfinetConfig;
  localMAC : list Z;
  ars : gmap (list Z) AR;
  nextFrameID : Z;
}.

Definition with_ars (m : ARManager) (a : gmap (list Z) AR) : ARManager :=
  mkManager (cfg m) (localMAC m) a (nextFrameID m).
Definition with_next (m : ARManager) (n : Z) : ARManager := mkManager (cfg m) (localMAC m) (ars m) n.

Definition NewARManager (c : IoData.ProfinetConfig) (mac : list Z) : ARManager := mkManager c mac ∅ 0xC001.

(** Callbacks and the goroutine started. *)
Inductive effect :=
  | CyclicStop (ar : AR)
  | CyclicStart (ar : AR)
  | GoReady (uuid : list Z).

Definition PNIOCMPort : Z := 34964.

Definition bad_ar : PNIOStatus := mkStatus 0xDE 0x81 0x01 0x00.
Definition unknown_ar : PNIOStatus := mkStatus 0xDE 0x81 0x04 0x00.

Definition allocFrameID (m : ARManager) : Z * ARManager :=
  let id := nextFrameID m in
  let n := wrapu 16 (nextFrameID m + 1) in
  (id, with_next m (if 0xF7FF <? n then 0xC001 else n)).

(** ** Connect *)

(** What the block loop of [HandleConnect] collects. *)
Record connectBlocks := mkConnect {
  arBlock : option ARBlockReq;
  iocrBlocks : list IOCRBlockReq;
  alarmBlock : option AlarmCRBlockReq;
  expectedBlock : option (list ExpectedAPI);
}.

(** One block; [None] is the early return for an AR block that does not parse. Errors of
    the other blocks skip them. *)
Definition collect_block (c : connectBlocks) (b : PNIOBlock) : outcome (option connectBlocks) :=
  if bType b =? BlockTypeARBlockReq then
    match ParseARBlockReq (bData b) with
    | Ok p => Ok (Some (mkConnect (Some p) (iocrBlocks c) (alarmBlock c) (expectedBlock c)))
    | Err _ => Ok None
    | Panic => Panic
    end
  else if bType b =? BlockTypeIOCRBlockReq then
    match ParseIOCRBlockReq (bData b) with
    | Ok p => Ok (Some (mkConnect (arBlock c) (iocrBlocks c ++ [p]) (alarmBlock c) (expectedBlock c)))
    | Err _ => Ok (Some c)
    | Panic => Panic
    end
  else if bType b =? BlockTypeAlarmCRBlockReq then
    match ParseAlarmCRBlockReq (bData b) with
    | Ok p => Ok (Some (mkConnect (arBlock c) (iocrBlocks c) (Some p) (expectedBlock c)))
    | Err _ => Ok (Some c)
    | Panic => Panic
    end
  else if bType b =? BlockTypeExpectedSubmoduleReq then
    match ParseExpectedSubmoduleReq (bData b) with
    | Ok p => Ok (Some (mkConnect (arBlock c) (iocrBlocks c) (alarmBlock c) (Some p)))
    | Err _ => Ok (Some c)
    | Panic => Panic
    end
  else Ok (Some c).

Fixpoint collect_blocks (c : connectBlocks) (bs : list PNIOBlock) : outcome (option connectBlocks) :=
  match bs with
  | [] => Ok (Some c)
  | b :: bs' =>
      r ← collect_block c b;
      match r with Some c' => collect_blocks c' bs' | None => Ok None end
  end.

Definition iocr_info (q : IOCRBlockReq) (frameID : Z) : IOCRInfo :=
  mkIOCRInfo (IOCRType q) (IOCRReference q) frameID (DataLength q) (SendClockFactor q) (ReductionRatio q)
    (WatchdogFactor q) (DataHoldFactor q) (APIs q).

(** The loop over the IOCR blocks: the device assigns the frame identifier of an input CR
    and takes the controller's for an output CR. *)
Fixpoint connect_iocrs (m : ARManager) (ar : AR) (resp : list Z) (qs : list IOCRBlockReq)
    : ARManager * AR * list Z :=
  match qs with
  | [] => (m, ar, resp)
  | q :: qs' =>
      if IOCRType q =? IOCRTypeInput then
        let (frameID, m) := allocFrameID m in
        connect_iocrs m (with_input ar (iocr_info q frameID))
          (resp ++ MarshalIOCRBlockRes (IOCRType q) (IOCRReference q) frameID) qs'
      else if IOCRType q =? IOCRTypeOutput then
        connect_iocrs m (with_output ar (iocr_info q (FrameID q)))
          (resp ++ MarshalIOCRBlockRes (IOCRType q) (IOCRReference q) (FrameID q)) qs'
      else connect_iocrs m ar resp qs'
  end.

(** [for len(respBuf)%4 != 0] *)
Definition padTo4 (b : list Z) : list Z := b ++ replicate (pad4 (length b)) 0.

Definition HandleConnect (m : ARManager) (blocks : list PNIOBlock) (from : string) (activityUUID : list Z)
    : outcome (option (list Z) * PNIOStatus * ARManager) :=
  c ← collect_blocks (mkConnect None [] None None) blocks;
  match c with
  | Some (mkConnect (Some arB) iocrs alarm expected) =>
      let ar := mkARel (ARUUID arB) (ARType arB) (SessionKey arB) (CMInitiatorMAC arB) from activityUUID
                  ARStateConnected None None None expected in
      let resp := MarshalARBlockRes (ARType arB) (ARUUID arB) (SessionKey arB) (localMAC m) PNIOCMPort in
      let '(m, ar, resp) := connect_iocrs m ar resp iocrs in
      let '(ar, resp) :=
        match alarm with
        | Some a =>
            (with_alarm ar (mkAlarmInfo (AlarmCRType a) 1 (LocalAlarmRef a) (MaxAlarmDataLen a)),
             resp ++ MarshalAlarmCRBlockRes (AlarmCRType a) 1 (MaxAlarmDataLen a))
        | None => (ar, resp)
        end in
      let resp := padTo4 (resp ++ MarshalModuleDiffBlock 0) in
      Ok (Some resp, PNIOStatusOK, with_ars m (<[ARUUID arB := ar]> (ars m)))
  | _ => Ok (None, bad_ar, m)
  end.

(** ** Release, write, control *)

(** The loop that looks for the AR named in a control block. *)
Fixpoint find_in_blocks (m : ARManager) (blocks : list PNIOBlock) : option (list Z * AR) :=
  match blocks with
  | [] => None
  | b :: bs =>
      if (bType b =? BlockTypeIODControlReq) && (16 <=? length (bData b))%nat then
        let uuid := take 16 (bData b) in
        match ars m !! uuid with Some ar => Some (uuid, ar) | None => find_in_blocks m bs end
      else find_in_blocks m bs
  end.

Definition HandleRelease (m : ARManager) (blocks : list PNIOBlock) (objectUUID : list Z)
    : option (list Z) * PNIOStatus * ARManager * list effect :=
  let found := match ars m !! objectUUID with Some ar => Some (objectUUID, ar) | None => find_in_blocks m blocks end in
  match found with
  | None => (None, unknown_ar, m, [])
  | Some (uuid, ar) =>
      (Some (MarshalIODControlRes uuid (arSessionKey ar) ControlCmdDone), PNIOStatusOK,
       with_ars m (delete uuid (ars m)), [CyclicStop ar])
  end.

(** The AR of an object UUID, or the only one there is. *)
Definition findAR (m : ARManager) (objectUUID : list Z) : option (list Z * AR) :=
  match ars m !! objectUUID with
  | Some ar => Some (objectUUID, ar)
  | None => match map_to_list (ars m) with [(u, ar)] => Some (u, ar) | _ => None end
  end.

Definition HandleWrite (m : ARManager) (blocks : list PNIOBlock) (objectUUID : list Z)
    : list Z * PNIOStatus * ARManager :=
  let m' :=
    match findAR m objectUUID with
    | Some (u, ar) =>
        if decide (State ar = ARStateConnected) then with_ars m (<[u := with_state ar ARStateParameterize]> (ars m)) else m
    | None => m
    end in
  let resp := concat (map (λ b, if bType b =? BlockTypeIODWriteReqHeader
                               then MarshalPNIOBlock BlockTypeIODWriteResHeader 1 0 (bData b) else []) blocks) in
  (resp, PNIOStatusOK, m').

(** The block loop of [HandleControl]; an unknown AR drops the response built so far. *)
Fixpoint control_blocks (m : ARManager) (resp : list Z) (effs : list effect) (blocks : list PNIOBlock)
    : outcome (option (list Z) * PNIOStatus * ARManager * list effect) :=
  match blocks with
  | [] => Ok (Some resp, PNIOStatusOK, m, effs)
  | b :: bs =>
      if negb (bType b =? BlockTypeIODControlReq) && negb (bType b =? BlockTypeARRPCBlockReq)
      then control_blocks m resp effs bs
      else if (length (bData b) <? 22)%nat then control_blocks m resp effs bs
      else
        uuid ← slice (bData b) 0 16;
        sessionKey ← get_u16 (bData b) 16;
        controlCmd ← get_u16 (bData b) 20;
        match ars m !! uuid with
        | None => Ok (None, unknown_ar, m, effs)
        | Some ar =>
            let done := MarshalIODControlRes uuid sessionKey ControlCmdDone in
            if controlCmd =? ControlCmdPrmEnd then
              control_blocks (with_ars m (<[uuid := with_state ar ARStateWaitAppReady]> (ars m)))
                (resp ++ done) (effs ++ [GoReady uuid]) bs
            else if controlCmd =? ControlCmdApplicationReady then
              control_blocks m (resp ++ done) effs bs
            else if controlCmd =? ControlCmdRelease then
              control_blocks (with_ars m (delete uuid (ars m))) (resp ++ done) (effs ++ [CyclicStop ar]) bs
            else control_blocks m resp effs bs
        end
  end.

Definition HandleControl (m : ARManager) (blocks : list PNIOBlock)
    : outcome (option (list Z) * PNIOStatus * ARManager * list effect) :=
  control_blocks m [] [] blocks.

(** [applicationReady] up to the unlocking, with the call that it makes afterwards. *)
Definition applicationReady (m : ARManager) (uuid : list Z) : ARManager * list effect :=
  match ars m !! uuid with
  | None => (m, [])
  | Some ar =>
      if decide (State ar = ARStateWaitAppReady) then
        let ar := with_state ar ARStateData in
        (with_ars m (<[uuid := ar]> (ars m)), [CyclicStart ar])
      else (m, [])
  end.

Definition GetAR (m : ARManager) (uuid : list Z) : option AR := ars m !! uuid.
Definition ActiveARCount (m : ARManager) : nat := size (ars m).

(** ** Read *)

Definition buildReadResHeader (reqData : list Z) : outcome (list Z) :=
  src ← slice reqData 0 30;
  Ok (copy_into (replicate 30 0) src ++ replicate 28 0).

(** [binary.BigEndian.PutUint32(resHeader[30:34], v)] *)
Definition set_record_length (h : list Z) (v : Z) : list Z := take 30 h ++ put_u32 v ++ drop 34 h.

Definition buildIM0 (m : ARManager) : list Z :=
  MarshalIM0Block (mkIM0 (IoData.VendorID (cfg m)) (field 20 (string_bytes (IoData.DeviceName (cfg m))))
    (field 16 (string_bytes "0001")) 1 86 [1; 0; 0] 0 0 3 0x0101 0x001E).

(** [uint16(len(l))] *)
Definition count16 {A} (l : list A) : list Z := put_u16 (wrapu 16 (Z.of_nat (length l))).
Definition total_slots (m : ARManager) : list Z :=
  put_u16 (wrapu 16 (1 + Z.of_nat (length (IoData.Slots (cfg m))))).

Definition buildRealIdentificationData (m : ARManager) : list Z :=
  let sub (n ident : Z) := put_u16 n ++ put_u32 ident in
  let slots := concat (map (λ slot,
    put_u16 (IoData.SlotNumber slot) ++ put_u32 (IoData.ModuleIdentNo slot) ++ count16 (IoData.Subslots slot)
    ++ concat (map (λ s, sub (IoData.SubslotNumber s) (IoData.SubmoduleIdentNo s)) (IoData.Subslots slot)))
    (IoData.Slots (cfg m))) in
  MarshalPNIOBlock BlockTypeRealIdentData 1 0
    (put_u16 1 ++ put_u32 0 ++ total_slots m ++ put_u16 0 ++ put_u32 0x00010000 ++ put_u16 3
     ++ sub 1 1 ++ sub 0x8000 0x00008000 ++ sub 0x8001 0x00008001 ++ slots).

Definition buildIM0FilterData : list Z :=
  let payload := put_u16 1 ++ put_u32 0 ++ put_u16 1 ++ put_u16 0 ++ put_u16 1 ++ put_u16 1 in
  MarshalPNIOBlock BlockTypeIM0FilterDataSubmodule 1 0 payload
  ++ MarshalPNIOBlock BlockTypeIM0FilterDataModule 1 0 payload
  ++ MarshalPNIOBlock BlockTypeIM0FilterDataDevice 1 0 payload.

Definition buildAPIData (m : ARManager) : list Z :=
  let slots := concat (map (λ slot,
    put_u16 (IoData.SlotNumber slot) ++ count16 (IoData.Subslots slot)
    ++ concat (map (λ s, put_u16 (IoData.SubslotNumber s)) (IoData.Subslots slot))) (IoData.Slots (cfg m))) in
  MarshalPNIOBlock BlockTypeAPIData 1 0
    (put_u16 1 ++ put_u32 0 ++ total_slots m ++ put_u16 0 ++ put_u16 3
     ++ put_u16 1 ++ put_u16 0x8000 ++ put_u16 0x8001 ++ slots).

(** The record of an index; [None] when it is not supported. *)
Definition read_record (m : ARManager) (idx : Z) : option (list Z) :=
  if idx =? 0xAFF0 then Some (buildIM0 m)
  else if idx =? 0xF000 then Some (buildRealIdentificationData m)
  else if idx =? 0xF840 then Some buildIM0FilterData
  else if idx =? 0xF841 then Some []
  else if idx =? 0xF821 then Some (buildAPIData m)
  else if idx =? 0xF820 then Some []
  else None.

Fixpoint read_blocks (m : ARManager) (resp : list Z) (blocks : list PNIOBlock) : outcome (list Z * PNIOStatus) :=
  match blocks with
  | [] => Ok (resp, PNIOStatusOK)
  | b :: bs =>
      if negb (bType b =? BlockTypeIODReadReqHeader) || (length (bData b) <? 34)%nat then read_blocks m resp bs
      else
        idx ← get_u16 (bData b) 28;
        resHeader ← buildReadResHeader (bData b);
        match read_record m idx with
        | None =>
            Ok (resp ++ MarshalPNIOBlock BlockTypeIODReadResHeader 1 0 (set_record_length resHeader 0),
                mkStatus 0xDE 0x80 0xA9 0x00)
        | Some recordData =>
            let h := set_record_length resHeader (wrapu 32 (Z.of_nat (length recordData))) in
            read_blocks m (resp ++ MarshalPNIOBlock BlockTypeIODReadResHeader 1 0 h ++ recordData) bs
        end
  end.

Definition HandleRead (m : ARManager) (blocks : list PNIOBlock) : outcome (list Z * PNIOStatus) :=
  read_blocks m [] blocks.

(** ** The life of an application relationship

    The handlers interleave with the goroutines they start: [step] is one request, the part of
    an [applicationReady] under the lock, or the call that it makes without the lock. The
    events are what the controller and the cyclic exchange see of it; [EvReady] is the AR's
    entry into the data state. *)

Inductive event :=
  | EvConnect (uuid : list Z)
  | EvPrmEnd (uuid : list Z)
  | EvReady (uuid : list Z)
  | EvStart (uuid : list Z)
  | EvStop (uuid : list Z).

Definition event_of (e : effect) : event :=
  match e with
  | CyclicStop ar => EvStop (arUUID ar)
  | CyclicStart ar => EvStart (arUUID ar)
  | GoReady u => EvPrmEnd u
  end.

Definition ready_of (e : effect) : list (list Z) := match e with GoReady u => [u] | _ => [] end.

(** The AR a connect request is for: that of its last AR block. *)
Definition connect_event (blocks : list PNIOBlock) : list event :=
  match collect_blocks (mkConnect None [] None None) blocks with
  | Ok (Some (mkConnect (Some a) _ _ _)) => [EvConnect (ARUUID a)]
  | _ => []
  end.

(** A goroutine of [applicationReady]: it waits for the lock, or it has given it back and has
    still to call [onCyclicStart]. *)
Inductive goroutine :=
  | BeforeLock (uuid : list Z)
  | AfterLock (ar : AR).

Definition started_by (effs : list effect) : list AR :=
  concat (map (λ e, match e with CyclicStart ar => [ar] | _ => [] end) effs).

(** The manager and the goroutines that have not ended yet. *)
Definition device_state : Type := ARManager * list goroutine.

Inductive step : device_state → list event → device_state → Prop :=
  | step_connect m p blocks from act resp st m' :
      HandleConnect m blocks from act = Ok (resp, st, m') → step (m, p) (connect_event blocks) (m', p)
  | step_release m p blocks obj resp st m' effs :
      HandleRelease m blocks obj = (resp, st, m', effs) → step (m, p) (map event_of effs) (m', p)
  | step_write m p blocks obj resp st m' :
      HandleWrite m blocks obj = (resp, st, m') → step (m, p) [] (m', p)
  | step_control m p blocks resp st m' effs :
      HandleControl m blocks = Ok (resp, st, m', effs) →
      step (m, p) (map event_of effs) (m', p ++ map BeforeLock (concat (map ready_of effs)))
  | step_ready m p1 u p2 m' effs :
      applicationReady m u = (m', effs) →
      step (m, p1 ++ BeforeLock u :: p2) (map (λ ar, EvReady (arUUID ar)) (started_by effs))
        (m', p1 ++ map AfterLock (started_by effs) ++ p2)
  | step_call m p1 ar p2 :
      step (m, p1 ++ AfterLock ar :: p2) [event_of (CyclicStart ar)] (m, p1 ++ p2).

Inductive steps : device_state → list event → device_state → Prop :=
  | steps_refl s : steps s [] s
  | steps_cons s1 e1 s2 e2 s3 : steps s1 e1 s2 → step s2 e2 s3 → steps s1 (e1 ++ e2) s3.

(** *** The abstract automaton: an AR is set up, waiting, or in the data state; an AR that
    enters the data state owes the start of its exchange, which may come at any time. *)

Inductive phase : Set := Setup | Waiting | Running.

Definition spec_state : Type := gmap (list Z) phase * list (list Z).

Inductive spec_step : spec_state → event → spec_state → Prop :=
  | spec_connect s o u : spec_step (s, o) (EvConnect u) (<[u := Setup]> s, o)
  | spec_prm_end s o u ph : s !! u = Some ph → spec_step (s, o) (EvPrmEnd u) (<[u := Waiting]> s, o)
  | spec_ready s o1 o2 u : s !! u = Some Waiting → spec_step (s, o1 ++ o2) (EvReady u) (<[u := Running]> s, o1 ++ u :: o2)
  | spec_start s o1 u o2 : spec_step (s, o1 ++ u :: o2) (EvStart u) (s, o1 ++ o2)
  | spec_stop s o u ph : s !! u = Some ph → spec_step (s, o) (EvStop u) (delete u s, o).

Inductive spec_steps : spec_state → list event → spec_state → Prop :=
  | spec_nil s : spec_steps s [] s
  | spec_snoc s1 es s2 e s3 : spec_steps s1 es s2 → spec_step s2 e s3 → spec_steps s1 (es ++ [e]) s3.

Definition phase_of (ar : AR) : phase :=
  match State ar with
  | ARStateWaitAppReady => Waiting
  | ARStateData => Running
  | _ => Setup
  end.

Definition abstraction (m : ARManager) : gmap (list Z) phase := phase_of <$> ars m.

(** The starts that the goroutines owe. *)
Definition owed (p : list goroutine) : list (list Z) :=
  concat (map (λ g, match g with AfterLock ar => [arUUID ar] | BeforeLock _ => [] end) p).

Lemma owed_app p p' : owed (p ++ p') = owed p ++ owed p'.
Proof. unfold owed. by rewrite map_app, concat_app. Qed.

Lemma owed_waiting l : owed (map BeforeLock l) = [].
Proof. unfold owed. by induction l. Qed.

(** An AR is stored under its UUID. *)
Definition keyed (m : ARManager) : Prop := ∀ u ar, ars m !! u = Some ar → arUUID ar = u.

Lemma spec_steps_app s1 es s2 es' s3 : spec_steps s1 es s2 → spec_steps s2 es' s3 → spec_steps s1 (es ++ es') s3.
Proof.
  intros H1 H2. revert H1. induction H2 as [|s2 es2 s3 e s4 H2 IH He]; intros H1; [by rewrite app_nil_r|].
  rewrite app_assoc. by econstructor; [apply IH|].
Qed.

Lemma spec_one s e s' : spec_step s e s' → spec_steps s [e] s'.
Proof. intros H. apply (spec_snoc s [] s e s'); [constructor|done]. Qed.

Lemma abstraction_insert m u ar : abstraction (with_ars m (<[u := ar]> (ars m))) = <[u := phase_of ar]> (abstraction m).
Proof. unfold abstraction. cbn [ars with_ars]. apply fmap_insert. Qed.

Lemma abstraction_delete m u : abstraction (with_ars m (delete u (ars m))) = delete u (abstraction m).
Proof. unfold abstraction. cbn [ars with_ars]. apply fmap_delete. Qed.

Lemma keyed_insert m u ar : keyed m → arUUID ar = u → keyed (with_ars m (<[u := ar]> (ars m))).
Proof. intros Hk Hu v ar'. cbn [ars with_ars]. rewrite lookup_insert_Some. intros [[<- <-]|[_ ?]]; eauto. Qed.

Lemma keyed_delete m u : keyed m → keyed (with_ars m (delete u (ars m))).
Proof. intros Hk v ar'. cbn [ars with_ars]. rewrite lookup_delete_Some. intros [_ ?]; eauto. Qed.

Lemma with_state_uuid ar s : arUUID (with_state ar s) = arUUID ar.
Proof. done. Qed.

Lemma abstraction_lookup m u ar : ars m !! u = Some ar → abstraction m !! u = Some (phase_of ar).
Proof. unfold abstraction. rewrite lookup_fmap. by intros ->. Qed.

(** Assigning frame identifiers leaves the ARs alone. *)
Lemma connect_iocrs_frame m ar resp qs m' ar' resp' : connect_iocrs m ar resp qs = (m', ar', resp') →
  ars m' = ars m ∧ arUUID ar' = arUUID ar ∧ State ar' = State ar.
Proof.
  revert m ar resp. induction qs as [|q qs IH]; cbn [connect_iocrs]; intros m ar resp; [by intros [= <- <- <-]|].
  case_if; [|case_if]; intros H; apply IH in H; done.
Qed.

Lemma HandleConnect_spec m blocks from act resp st m' :
  HandleConnect m blocks from act = Ok (resp, st, m') →
  (connect_event blocks = [] ∧ m' = m ∧ st = bad_ar) ∨
  (∃ ar m1, connect_event blocks = [EvConnect (arUUID ar)] ∧ State ar = ARStateConnected ∧
    ars m1 = ars m ∧ m' = with_ars m1 (<[arUUID ar := ar]> (ars m1)) ∧ st = PNIOStatusOK).
Proof.
  unfold HandleConnect, connect_event. intros H.
  destruct (collect_blocks _ blocks) as [[[[a|] qs al ex]|]| |]; cbn [mbind outcome_bind] in H; try done.
  2: { injection H as <- <- <-. by left. }
  2: { injection H as <- <- <-. by left. }
  right. set (ar0 := mkARel (ARUUID a) _ _ _ _ _ _ _ _ _ _) in H.
  destruct (connect_iocrs m ar0 _ qs) as [[m1 ar1] resp1] eqn:Hc. apply connect_iocrs_frame in Hc as (Hars & Hu & Hs).
  destruct al; injection H as <- <- <-.
  - eexists (with_alarm ar1 _), m1. change (arUUID (with_alarm ar1 _)) with (arUUID ar1).
    change (State (with_alarm ar1 _)) with (State ar1). rewrite Hu, Hs. done.
  - exists ar1, m1. rewrite Hu, Hs. done.
Qed.

Lemma find_in_blocks_some m blocks u ar : find_in_blocks m blocks = Some (u, ar) → ars m !! u = Some ar.
Proof.
  induction blocks as [|b bs IH]; cbn [find_in_blocks]; [done|]. case_if; [|done].
  destruct (ars m !! take 16 (bData b)) eqn:E'; [by intros [= <- <-]|done].
Qed.

Lemma findAR_some m obj u ar : findAR m obj = Some (u, ar) → ars m !! u = Some ar.
Proof.
  unfold findAR. destruct (ars m !! obj) eqn:E; [naive_solver|].
  destruct (map_to_list (ars m)) as [|[u' ar'] [|]] eqn:Hl; [done| |done]. intros [= -> ->].
  apply elem_of_map_to_list. rewrite Hl. by left.
Qed.

Lemma control_blocks_spec m resp effs blocks resp' st m' effs' :
  keyed m → control_blocks m resp effs blocks = Ok (resp', st, m', effs') →
  ∃ es, effs' = effs ++ es ∧ (∀ o, spec_steps (abstraction m, o) (map event_of es) (abstraction m', o)) ∧ keyed m'.
Proof.
  revert m resp effs. induction blocks as [|b bs IH]; cbn [control_blocks]; intros m resp effs Hk.
  { intros [= <- <- <- <-]. exists []. rewrite app_nil_r. split; [done|]. split; [constructor|done]. }
  case_if; [by apply IH|]. case_if; [by apply IH|].
  intros (uuid & _ & H)%bind_Ok. apply bind_Ok in H as (key & _ & H). apply bind_Ok in H as (cmd & _ & H).
  destruct (ars m !! uuid) as [ar|] eqn:Hu.
  2: { injection H as <- <- <- <-. exists []. rewrite app_nil_r. split; [done|]. split; [constructor|done]. }
  pose proof (abstraction_lookup m uuid ar Hu) as Ha.
  case_if; [|case_if; [by apply IH in H|case_if; [|by apply IH in H]]].
  - apply IH in H as (es & -> & Hs & Hk'); [|apply keyed_insert; [done|exact (Hk _ _ Hu)]].
    exists (GoReady uuid :: es). rewrite <- app_assoc. split; [done|]. split; [|done]. cbn [map event_of].
    intros o. apply (spec_steps_app _ [EvPrmEnd uuid] (abstraction (with_ars m (<[uuid := with_state ar ARStateWaitAppReady]> (ars m))), o)); [|done].
    rewrite abstraction_insert. by apply spec_one, (spec_prm_end _ _ _ (phase_of ar)).
  - apply IH in H as (es & -> & Hs & Hk'); [|by apply keyed_delete].
    exists (CyclicStop ar :: es). rewrite <- app_assoc. split; [done|]. split; [|done]. cbn [map event_of].
    rewrite (Hk _ _ Hu). intros o.
    apply (spec_steps_app _ [EvStop uuid] (abstraction (with_ars m (delete uuid (ars m))), o)); [|done].
    rewrite abstraction_delete. by apply spec_one, (spec_stop _ _ _ (phase_of ar)).
Qed.

Lemma step_refines s es s' : keyed (fst s) → step s es s' →
  keyed (fst s') ∧ spec_steps (abstraction (fst s), owed (snd s)) es (abstraction (fst s'), owed (snd s')).
Proof.
  intros Hk Hst. destruct Hst as [m p blocks from act resp st m' H|m p blocks obj resp st m' effs H
    |m p blocks obj resp st m' H|m p blocks resp st m' effs H|m p1 u p2 m' effs H|m p1 ar p2]; cbn [fst snd] in *.
  - apply HandleConnect_spec in H as [(-> & -> & _)|(ar & m1 & -> & Hs & Hars & -> & _)]; [split; [done|constructor]|].
    assert (Hk1 : keyed m1) by (intros v a; rewrite Hars; apply Hk).
    split; [by apply keyed_insert|]. rewrite abstraction_insert. unfold abstraction. rewrite Hars.
    unfold phase_of. rewrite Hs. apply spec_one. constructor.
  - unfold HandleRelease in H.
    destruct (match ars m !! obj with Some ar => Some (obj, ar) | None => find_in_blocks m blocks end) as [[u ar]|] eqn:Hf.
    2: { injection H as <- <- <- <-. split; [done|constructor]. }
    assert (Hu : ars m !! u = Some ar)
      by (destruct (ars m !! obj) eqn:E; [by injection Hf as <- <-|by apply find_in_blocks_some in Hf]).
    injection H as <- <- <- <-. split; [by apply keyed_delete|]. cbn [map event_of].
    rewrite (Hk _ _ Hu), abstraction_delete. apply spec_one, (spec_stop _ _ _ (phase_of ar)). by apply abstraction_lookup.
  - unfold HandleWrite in H. injection H as <- <- <-. destruct (findAR m obj) as [[u ar]|] eqn:Hf; [|split; [done|constructor]].
    case_decide as Hs; [|split; [done|constructor]]. apply findAR_some in Hf.
    split; [apply keyed_insert; [done|exact (Hk _ _ Hf)]|]. rewrite abstraction_insert.
    rewrite insert_id; [constructor|]. rewrite (abstraction_lookup m u ar Hf). unfold phase_of. by rewrite Hs.
  - unfold HandleControl in H. apply control_blocks_spec in H as (es & -> & Hs & Hk'); [|done]. cbn [app]. by rewrite owed_app, owed_waiting, app_nil_r.
  - assert (Hnone : owed (p1 ++ BeforeLock u :: p2) = owed p1 ++ owed p2) by by rewrite owed_app.
    rewrite Hnone. unfold applicationReady in H. destruct (ars m !! u) as [ar|] eqn:Hu.
    2: { injection H as <- <-. cbn [started_by map concat app]. rewrite owed_app. split; [done|constructor]. }
    case_decide as Hs; injection H as <- <-; cbn [started_by map concat app]; rewrite owed_app; [|split; [done|constructor]].
    split; [apply keyed_insert; [done|exact (Hk _ _ Hu)]|]. change (owed (AfterLock ?a :: p2)) with (arUUID a :: owed p2).
    rewrite with_state_uuid, (Hk _ _ Hu), abstraction_insert.
    apply spec_one. constructor. rewrite (abstraction_lookup m u ar Hu). unfold phase_of. by rewrite Hs.
  - split; [done|]. rewrite !owed_app. apply spec_one, spec_start.
Qed.

Lemma steps_refine s1 tr s2 : steps s1 tr s2 → keyed (fst s1) →
  keyed (fst s2) ∧ spec_steps (abstraction (fst s1), owed (snd s1)) tr (abstraction (fst s2), owed (snd s2)).
Proof.
  induction 1 as [|s1 e1 s2 e2 s3 _ IH Hst]; intros Hk; [split; [done|constructor]|].
  destruct (IH Hk) as [Hk2 Hs]. destruct (step_refines _ _ _ Hk2 Hst). split; [done|].
  by apply (spec_steps_app _ _ (abstraction (fst s2), owed (snd s2))).
Qed.

Lemma keyed_new c mac : keyed (NewARManager c mac).
Proof. intros u ar Hu. cbn in Hu. by rewrite lookup_empty in Hu. Qed.

(** C34: Whatever requests arrive and however the goroutines are delayed, the device follows the
    automaton: an AR enters the data state only while it waits after its own PrmEnd, with no
    connect or release in between; it then owes the start of its exchange, and every start
    pays for one such entry; and the exchange is stopped only for an AR that exists. The
    start itself comes without the manager's lock, at any time later, and the automaton lets
    a release or a new connect of the AR come before it (see [start_after_release]). *)
Theorem device_refines_automaton c mac tr m p :
  steps (NewARManager c mac, []) tr (m, p) → spec_steps (∅, []) tr (abstraction m, owed p).
Proof.
  intros H. apply (steps_refine _ _ _ H). apply keyed_new.
Qed.

Definition event_uuid (e : event) : list Z :=
  match e with EvConnect u | EvPrmEnd u | EvReady u | EvStart u | EvStop u => u end.

(** The late start of an exchange does not touch the AR. *)
Definition is_start (e : event) : bool := match e with EvStart _ => true | _ => false end.
Definition changes_ar (u : list Z) (e : event) : Prop := event_uuid e = u ∧ is_start e = false.
#[local] Instance changes_ar_dec u e : Decision (changes_ar u e).
Proof. unfold changes_ar. apply _. Defined.

Lemma spec_waiting tr s u : spec_steps (∅, []) tr s → fst s !! u = Some Waiting →
  ∃ a b, tr = a ++ EvPrmEnd u :: b ∧ Forall (λ e, ¬ changes_ar u e) b.
Proof.
  intros H. remember (∅, []) as s0 eqn:H0. revert H0. induction H as [s|s1 es s2 e s3 H IH He]; intros ->.
  { by cbn; rewrite lookup_empty. }
  specialize (IH eq_refl). intros Hu. destruct (decide (changes_ar u e)) as [Heq|Hne].
  - destruct He; destruct Heq as [Heq Hst]; cbn [event_uuid fst] in *; subst.
    + rewrite lookup_insert_eq in Hu. done.
    + exists es, []. done.
    + rewrite lookup_insert_eq in Hu. done.
    + done.
    + by rewrite lookup_delete_eq in Hu.
  - assert (Hu2 : fst s2 !! u = Some Waiting).
    { unfold changes_ar in Hne. destruct He; cbn [event_uuid is_start fst] in *; try done;
        assert (Hd : u0 ≠ u) by (intros ->; tauto); by rewrite ?lookup_insert_ne, ?lookup_delete_ne in Hu by done. }
    destruct (IH Hu2) as (a & b & -> & Hb). exists a, (b ++ [e]). rewrite <- app_assoc. split; [done|].
    apply Forall_app. split; [done|]. by apply List.Forall_cons; [|apply List.Forall_nil].
Qed.

Lemma spec_steps_inv s1 a e b s3 : spec_steps s1 (a ++ e :: b) s3 →
  ∃ s2 s2', spec_steps s1 a s2 ∧ spec_step s2 e s2'.
Proof.
  remember (a ++ e :: b) as tr eqn:Htr. intros H. revert a b Htr.
  induction H as [s|s1 es s2 e' s3 H IH He]; intros a b Htr; [by destruct a|].
  destruct b as [|e2 b _] using rev_ind.
  - apply app_inj_tail in Htr as [-> ->]. eauto.
  - rewrite app_comm_cons, app_assoc in Htr. apply app_inj_tail in Htr as [-> ->]. eauto.
Qed.

(** An AR enters the data state only after the controller ended its parameters, and nothing
    happened to this AR in between. *)
Theorem ready_follows_prm_end c mac tr1 u tr2 s :
  steps (NewARManager c mac, []) (tr1 ++ EvReady u :: tr2) s →
  ∃ a b, tr1 = a ++ EvPrmEnd u :: b ∧ Forall (λ e, ¬ changes_ar u e) b.
Proof.
  intros H. apply steps_refine in H as [_ H]; [|apply keyed_new].
  apply spec_steps_inv in H as (s2 & s2' & H1 & H2). inversion H2; subst. by eapply spec_waiting.
Qed.

(** The exchanges started are among the entries into the data state. *)
Definition count (P : event → bool) (tr : list event) : nat := length (List.filter P tr).
Definition readies (u : list Z) (e : event) : bool := match e with EvReady v => bool_decide (v = u) | _ => false end.
Definition starts (u : list Z) (e : event) : bool := match e with EvStart v => bool_decide (v = u) | _ => false end.

Lemma count_snoc P tr e : count P (tr ++ [e]) = (count P tr + if P e then 1 else 0)%nat.
Proof. unfold count. rewrite List.filter_app, length_app. cbn. by destruct (P e). Qed.

Lemma spec_owes u tr s : spec_steps (∅, []) tr s →
  count (readies u) tr = (count (starts u) tr + length (List.filter (λ v, bool_decide (v = u)) (snd s)))%nat.
Proof.
  intros H. remember (∅, []) as s0 eqn:H0. revert H0. induction H as [s|s1 es s2 e s3 H IH He]; intros ->; [done|].
  specialize (IH eq_refl). rewrite !count_snoc, IH. destruct He; cbn [readies starts snd];
    rewrite ?List.filter_app, ?length_app; cbn [List.filter]; try lia; case_bool_decide; cbn [length]; lia.
Qed.

Theorem starts_follow_readies c mac tr u s :
  steps (NewARManager c mac, []) tr s → (count (starts u) tr ≤ count (readies u) tr)%nat.
Proof.
  intros H. apply steps_refine in H as [_ H]; [|apply keyed_new]. rewrite (spec_owes u _ _ H). lia.
Qed.

(** ** Frame identifiers *)

Definition frame_id_ok (n : Z) : Prop := 0xC001 ≤ n ≤ 0xF7FF.

(** [k] allocations in a row. *)
Fixpoint alloc_many (k : nat) (m : ARManager) : list Z * ARManager :=
  match k with
  | O => ([], m)
  | S k' =>
      let (id, m) := allocFrameID m in
      let (ids, m) := alloc_many k' m in
      (id :: ids, m)
  end.

(** The identifiers follow a cycle of 14335 numbers. *)
Definition frame_id_at (n : Z) (j : nat) : Z := 0xC001 + (n - 0xC001 + Z.of_nat j) mod 14335.

Lemma allocFrameID_cycle m : frame_id_ok (nextFrameID m) →
  fst (allocFrameID m) = nextFrameID m ∧ nextFrameID (snd (allocFrameID m)) = frame_id_at (nextFrameID m) 1.
Proof.
  unfold frame_id_ok, allocFrameID, frame_id_at. intros Hn. cbn [fst snd with_next nextFrameID]. split; [done|].
  rewrite wrapu_small by (unfold in_u; lia). case_if; bool_to_prop.
  - replace (nextFrameID m - 0xC001 + Z.of_nat 1) with 14335 by lia. done.
  - rewrite Z.mod_small by lia. lia.
Qed.

Lemma frame_id_at_ok n j : frame_id_ok (frame_id_at n j).
Proof. unfold frame_id_ok, frame_id_at. pose proof (Z.mod_pos_bound (n - 0xC001 + Z.of_nat j) 14335). lia. Qed.

Lemma alloc_many_ids k m : frame_id_ok (nextFrameID m) →
  fst (alloc_many k m) = map (frame_id_at (nextFrameID m)) (seq 0 k).
Proof.
  revert m. induction k as [|k IH]; intros m Hm; [done|]. cbn [alloc_many].
  destruct (allocFrameID_cycle m Hm) as [H1 H2]. destruct (allocFrameID m) as [id m1]. cbn [fst snd] in H1, H2.
  assert (Hm1 : frame_id_ok (nextFrameID m1)) by (rewrite H2; apply frame_id_at_ok).
  specialize (IH m1 Hm1). destruct (alloc_many k m1) as [ids m2]. cbn [fst] in *. subst id. cbn [seq map]. f_equal.
  - unfold frame_id_at, frame_id_ok in *. rewrite Z.mod_small by lia. lia.
  - rewrite IH, <- seq_shift, map_map. apply map_ext. intros j. rewrite H2. unfold frame_id_at.
    rewrite Z.add_simpl_l, Zplus_mod_idemp_l. do 2 f_equal. lia.
Qed.

(** C39: The device assigns input frames numbers of the real-time class 1 range, and no number
    twice within 14335 assignments. *)
Theorem frame_ids_distinct k m : frame_id_ok (nextFrameID m) → (k ≤ Z.to_nat 14335)%nat →
  List.NoDup (fst (alloc_many k m)) ∧ Forall (λ id, 0xC000 ≤ id ≤ 0xF7FF) (fst (alloc_many k m)) ∧
  length (fst (alloc_many k m)) = k.
Proof.
  intros Hm Hk. rewrite alloc_many_ids by done. split; [|split].
  - apply List.NoDup_map_NoDup_ForallPairs; [|apply seq_NoDup]. intros a b Ha%in_seq Hb%in_seq. unfold frame_id_at.
    intros H. assert (Hmod : (nextFrameID m - 0xC001 + Z.of_nat a) mod 14335 = (nextFrameID m - 0xC001 + Z.of_nat b) mod 14335) by lia.
    clear H. set (n := nextFrameID m - 0xC001) in *.
    pose proof (Z.div_mod (n + Z.of_nat a) 14335). pose proof (Z.div_mod (n + Z.of_nat b) 14335).
    set (qa := (n + Z.of_nat a) / 14335) in *. set (qb := (n + Z.of_nat b) / 14335) in *. nia.
  - apply List.Forall_forall. intros id Hin. apply in_map_iff in Hin as (j & <- & _).
    pose proof (frame_id_at_ok (nextFrameID m) j). unfold frame_id_ok in *. lia.
  - by rewrite length_map, length_seq.
Qed.

(** ** A run: connect, end of parameters, start *)

Definition run_uuid : list Z := replicate 16 7.
Definition run_connect : list PNIOBlock :=
  [mkBlock BlockTypeARBlockReq 54 1 0 (put_u16 1 ++ run_uuid ++ replicate 34 0)].
Definition run_control : list PNIOBlock :=
  [mkBlock BlockTypeARRPCBlockReq 26 1 0 (run_uuid ++ [0; 1; 0; 0; 0; 1; 0; 0])].
Definition run0 : ARManager := NewARManager (IoData.mkConfig "dev" "eth0" 1 2 "Dev" 1000 []) [1; 2; 3; 4; 5; 6].
Definition run1 : ARManager := match HandleConnect run0 run_connect "c" run_uuid with Ok (_, _, m) => m | _ => run0 end.
Definition run2 : ARManager := match HandleControl run1 run_control with Ok (_, _, m, _) => m | _ => run1 end.
Definition run3 : ARManager := fst (applicationReady run2 run_uuid).

Definition run_ar : AR := default (mkARel [] 0 0 [] "" [] ARStateClosed None None None None) (ars run3 !! run_uuid).

Lemma run_steps : steps (run0, []) [EvConnect run_uuid; EvPrmEnd run_uuid; EvReady run_uuid] (run3, [AfterLock run_ar]).
Proof.
  apply (steps_cons _ [EvConnect run_uuid; EvPrmEnd run_uuid] (run2, [BeforeLock run_uuid]) [EvReady run_uuid]).
  - apply (steps_cons _ [EvConnect run_uuid] (run1, []) [EvPrmEnd run_uuid]).
    + apply (steps_cons _ [] (run0, []) [EvConnect run_uuid]); [apply steps_refl|].
      destruct (HandleConnect run0 run_connect "c" run_uuid) as [[[resp st] m]| |] eqn:H; [|by vm_compute in H..].
      pose proof (step_connect run0 [] run_connect "c" run_uuid resp st m H) as Hs.
      assert (Hm : m = run1) by (unfold run1; by rewrite H). rewrite Hm in Hs. exact Hs.
    + destruct (HandleControl run1 run_control) as [[[[resp st] m] effs]| |] eqn:H; [|by vm_compute in H..].
      pose proof (step_control run1 [] run_control resp st m effs H) as Hs.
      assert (Hm : m = run2) by (unfold run2; by rewrite H). rewrite Hm in Hs.
      assert (He : effs = [GoReady run_uuid]) by (vm_compute in H; by injection H as _ _ _ <-). rewrite He in Hs. exact Hs.
  - pose proof (step_ready run2 [] run_uuid [] run3 (snd (applicationReady run2 run_uuid))) as Hs.
    assert (He : started_by (snd (applicationReady run2 run_uuid)) = [run_ar]) by (vm_compute; reflexivity).
    rewrite He in Hs. apply Hs. unfold run3. by destruct (applicationReady run2 run_uuid).
Qed.

(** The controller releases the AR while the goroutine has given the lock back and has not
    called the exchange yet: the exchange stops, the AR is gone, and then the exchange starts
    for it. No later request stops it, since the manager no longer has the AR. *)
Lemma start_after_release : ∃ m, ars m = ∅ ∧
  steps (run0, []) ([EvConnect run_uuid; EvPrmEnd run_uuid; EvReady run_uuid; EvStop run_uuid] ++ [EvStart run_uuid]) (m, []).
Proof.
  destruct (HandleRelease run3 [] run_uuid) as [[[resp st] m] effs] eqn:H.
  assert (Hm : ars m = ∅) by (vm_compute in H; by injection H as _ _ <- _).
  assert (He : map event_of effs = [EvStop run_uuid]) by (vm_compute in H; by injection H as _ _ _ <-).
  exists m. split; [done|]. apply (steps_cons _ _ (m, [AfterLock run_ar]) [EvStart run_uuid]).
  - apply (steps_cons _ [EvConnect run_uuid; EvPrmEnd run_uuid; EvReady run_uuid] (run3, [AfterLock run_ar]) [EvStop run_uuid]); [apply run_steps|].
    rewrite <- He. by eapply step_release.
  - apply (step_call m [] run_ar []).
Qed.

Lemma device_refines_automaton_witness :
  spec_steps (∅, []) [EvConnect run_uuid; EvPrmEnd run_uuid; EvReady run_uuid] (abstraction run3, [run_uuid]).
Proof. apply (device_refines_automaton _ _ _ _ [AfterLock run_ar] run_steps). Defined.

Lemma ready_follows_prm_end_witness :
  ∃ a b, [EvConnect run_uuid; EvPrmEnd run_uuid] = a ++ EvPrmEnd run_uuid :: b ∧ Forall (λ e, ¬ changes_ar run_uuid e) b.
Proof. apply (ready_follows_prm_end _ _ [EvConnect run_uuid; EvPrmEnd run_uuid] run_uuid [] _ run_steps). Defined.

Lemma starts_follow_readies_witness :
  (count (starts run_uuid) [EvConnect run_uuid; EvPrmEnd run_uuid; EvReady run_uuid]
   ≤ count (readies run_uuid) [EvConnect run_uuid; EvPrmEnd run_uuid; EvReady run_uuid])%nat.
Proof. apply (starts_follow_readies _ _ _ _ _ run_steps). Defined.

Lemma frame_ids_distinct_witness :
  List.NoDup (fst (alloc_many 100 run0)) ∧ Forall (λ id, 0xC000 ≤ id ≤ 0xF7FF) (fst (alloc_many 100 run0)) ∧
  length (fst (alloc_many 100 run0)) = 100%nat.
Proof. apply frame_ids_distinct; [unfold frame_id_ok; cbn; lia|apply Nat2Z.inj_le; rewrite Z2Nat.id by lia; lia]. Defined.
