(* ===== verification/PnioRpc.v ===== *)
(** The RPC server of the PROFINET device: internal/profinet/rpc.go, DCE/RPC headers and
    bodies, the dispatch of requests to the AR manager, and the endpoint mapper.

    The clock reading and the boot time are arguments; a handler gives the packets it
    sends. [Run] reuses one receive buffer for the goroutines it starts: module [Receive]
    models that. *)

From S2P Require Export Prelude GoBytes GoText Wire PnioBlocks PnioAr.
From S2P Require IoData Dcp.

#[local] Open Scope Z_scope.

Definition RPCVersionCL : Z := 4.
Definition RPCPTypeRequest : Z := 0.
Definition RPCPTypeResponse : Z := 2.
Definition RPCFlagLastFrag : Z := 0x02.
Definition RPCFlagNoFack : Z := 0x08.
Definition RPCFlagIdempotent : Z := 0x20.

Definition RPCOpConnect : Z := 0.
Definition RPCOpRelease : Z := 1.
Definition RPCOpRead : Z := 2.
Definition RPCOpWrite : Z := 3.
Definition RPCOpControl : Z := 4.
Definition RPCOpReadImplicit : Z := 5.

Definition UUIDPNIOInterface : list Z :=
  [0xDE; 0xA0; 0; 1; 0x6C; 0x97; 0x11; 0xD1; 0x82; 0x71; 0; 0xA0; 0x24; 0x42; 0xDF; 0x7D].
Definition UUIDEndpointMapper : list Z :=
  [0xE1; 0xAF; 0x83; 0x08; 0x5D; 0x1F; 0x11; 0xC9; 0x91; 0xA4; 0x08; 0; 0x2B; 0x14; 0xA0; 0xFA].
Definition UUIDNDRTransferSyntax : list Z :=
  [0x8A; 0x88; 0x5D; 0x04; 0x1C; 0xEB; 0x11; 0xC9; 0x9F; 0xE8; 0x08; 0; 0x2B; 0x10; 0x48; 0x60].
Definition UUIDPNIOObjectBase : list Z :=
  [0xDE; 0xA0; 0; 0; 0x6C; 0x97; 0x11; 0xD1; 0x82; 0x71; 0; 0; 0; 0; 0; 0].

Record RPCHeader := mkHeader {
  RPCVersion : Z;
  PacketType : Z;
  Flags1 : Z;
  Flags2 : Z;
  DataRep : list Z;
  SerialHigh : Z;
  ObjectUUID : list Z;
  InterfaceUUID : list Z;
  hActivityUUID : list Z;
  ServerBootTime : Z;
  InterfaceVersion : Z;
  SequenceNum : Z;
  OpNum : Z;
  InterfaceHint : Z;
  ActivityHint : Z;
  FragmentLen : Z;
  FragmentNum : Z;
  AuthProto : Z;
  SerialLow : Z;
}.

Definition RPCHeaderSize : nat := 80.

(** The byte swap of a UUID's first three groups, on its sixteen bytes. *)
Definition swap_groups (u : list Z) : list Z :=
  match u with
  | a :: b :: c :: d :: e :: f :: g :: h :: rest => d :: c :: b :: a :: f :: e :: h :: g :: rest
  | _ => u
  end.

Definition uuidFromWire (data : list Z) (le : bool) : list Z := if le then swap_groups data else data.
Definition uuidToWire (uuid : list Z) (le : bool) : list Z := if le then swap_groups uuid else uuid.

(** [DataRep[0] == 0x10] *)
Definition is_le (rep : list Z) : bool := match rep with x :: _ => x =? 0x10 | [] => false end.
Definition IsLittleEndian (h : RPCHeader) : bool := is_le (DataRep h).

Definition ParseRPCHeader (data : list Z) : outcome RPCHeader :=
  if (length data <? RPCHeaderSize)%nat then
    Err ("RPC header too short: " +:+ itoa (Z.of_nat (length data)) +:+ " bytes")
  else
    version ← index data 0;
    ptype ← index data 1;
    flags1 ← index data 2;
    flags2 ← index data 3;
    rep ← slice data 4 7;
    serialHigh ← index data 7;
    let le := is_le rep in
    object ← slice data 8 24;
    interface ← slice data 24 40;
    activity ← slice data 40 56;
    boot ← get_int le 4 data 56;
    iver ← get_int le 4 data 60;
    seq ← get_int le 4 data 64;
    op ← get_int le 2 data 68;
    ihint ← get_int le 2 data 70;
    ahint ← get_int le 2 data 72;
    fraglen ← get_int le 2 data 74;
    fragnum ← get_int le 2 data 76;
    auth ← index data 78;
    serialLow ← index data 79;
    Ok (mkHeader version ptype flags1 flags2 rep serialHigh
          (uuidFromWire object le) (uuidFromWire interface le) (uuidFromWire activity le)
          boot iver seq op ihint ahint fraglen fragnum auth serialLow).

Definition MarshalHeader (h : RPCHeader) : list Z :=
  let le := IsLittleEndian h in
  [RPCVersion h; PacketType h; Flags1 h; Flags2 h] ++ DataRep h ++ [SerialHigh h]
  ++ uuidToWire (ObjectUUID h) le ++ uuidToWire (InterfaceUUID h) le ++ uuidToWire (hActivityUUID h) le
  ++ put_int le 4 (ServerBootTime h) ++ put_int le 4 (InterfaceVersion h) ++ put_int le 4 (SequenceNum h)
  ++ put_int le 2 (OpNum h) ++ put_int le 2 (InterfaceHint h) ++ put_int le 2 (ActivityHint h)
  ++ put_int le 2 (FragmentLen h) ++ put_int le 2 (FragmentNum h) ++ [AuthProto h; SerialLow h].

(** The blocks of a request body; [int(actualCount) < len(blockData)]. *)
Definition ParsePNIORequestBody (data : list Z) (le : bool) : outcome (Z * list PNIOBlock) :=
  if (length data <? 20)%nat then
    Err ("PNIO request body too short: " +:+ itoa (Z.of_nat (length data)))
  else
    argsMax ← get_int le 4 data 0;
    actualCount ← get_int le 4 data 16;
    blockData ← slice data 20 (length data);
    blockData ← (if actualCount <? Z.of_nat (length blockData)
                 then slice blockData 0 (Z.to_nat actualCount) else Ok blockData);
    blocks ← ParsePNIOBlocks blockData;
    Ok (argsMax, blocks).

Definition MarshalPNIOResponseBody (status : PNIOStatus) (responseBlocks : list Z) (le : bool) : list Z :=
  let argsLen := wrapu 32 (Z.of_nat (length responseBlocks)) in
  status_bytes status ++ put_int le 4 argsLen ++ put_int le 4 argsLen ++ put_int le 4 0
  ++ put_int le 4 argsLen ++ responseBlocks.

(** ** The server *)

Record RPCServer := mkServer {
  arMgr : ARManager;
  localIP : list Z;
  bootTime : Z;
}.

Definition with_mgr (s : RPCServer) (m : ARManager) : RPCServer := mkServer m (localIP s) (bootTime s).
Definition scfg (s : RPCServer) : IoData.ProfinetConfig := cfg (arMgr s).
Definition smac (s : RPCServer) : list Z := localMAC (arMgr s).

Definition SetIP (s : RPCServer) (ip : list Z) : RPCServer := mkServer (arMgr s) (Dcp.to4 ip) (bootTime s).

(** The header of the answer to [h], for a body. *)
Definition response_header (s : RPCServer) (h : RPCHeader) (flags : Z) (body : list Z) : RPCHeader :=
  mkHeader RPCVersionCL RPCPTypeResponse flags 0 (DataRep h) (SerialHigh h)
    (ObjectUUID h) (InterfaceUUID h) (hActivityUUID h) (bootTime s) (InterfaceVersion h) (SequenceNum h)
    (OpNum h) 0xFFFF 0xFFFF (wrapu 16 (Z.of_nat (length body))) 0 0 (SerialLow h).

Definition sendResponse (s : RPCServer) (h : RPCHeader) (status : PNIOStatus) (blocks : list Z) (le : bool) : list Z :=
  let body := MarshalPNIOResponseBody status blocks le in
  let flags := Z.lor RPCFlagLastFrag RPCFlagNoFack in
  let flags := if negb (Z.land (Flags1 h) RPCFlagIdempotent =? 0) then Z.lor flags RPCFlagIdempotent else flags in
  MarshalHeader (response_header s h flags body) ++ body.

Definition sendErrorResponse (s : RPCServer) (h : RPCHeader) (status : PNIOStatus) : list Z :=
  sendResponse s h status [] (IsLittleEndian h).

(** What a handler gives: the packets sent, the server, the effects. *)
Definition handled : Type := list (list Z) * RPCServer * list effect.

(** The request body, or the error response every handler sends for one that does not parse. *)
Definition with_body (s : RPCServer) (h : RPCHeader) (body : list Z) (le : bool)
    (k : list PNIOBlock → outcome handled) : outcome handled :=
  match ParsePNIORequestBody body le with
  | Ok (_, blocks) => k blocks
  | Err _ => Ok ([sendErrorResponse s h bad_ar], s, [])
  | Panic => Panic
  end.

Definition handleConnect (s : RPCServer) (h : RPCHeader) (body : list Z) (from : string) (le : bool) : outcome handled :=
  with_body s h body le (λ blocks,
    '(resp, status, m) ← HandleConnect (arMgr s) blocks from (hActivityUUID h);
    Ok ([sendResponse s h status (default [] resp) le], with_mgr s m, [])).

Definition handleRelease (s : RPCServer) (h : RPCHeader) (body : list Z) (le : bool) : outcome handled :=
  with_body s h body le (λ blocks,
    let '(resp, status, m, effs) := HandleRelease (arMgr s) blocks (ObjectUUID h) in
    Ok ([sendResponse s h status (default [] resp) le], with_mgr s m, effs)).

Definition handleRead (s : RPCServer) (h : RPCHeader) (body : list Z) (le : bool) : outcome handled :=
  with_body s h body le (λ blocks,
    '(resp, status) ← HandleRead (arMgr s) blocks;
    Ok ([sendResponse s h status resp le], s, [])).

Definition handleWrite (s : RPCServer) (h : RPCHeader) (body : list Z) (le : bool) : outcome handled :=
  with_body s h body le (λ blocks,
    let '(resp, status, m) := HandleWrite (arMgr s) blocks (ObjectUUID h) in
    Ok ([sendResponse s h status resp le], with_mgr s m, [])).

Definition handleControl (s : RPCServer) (h : RPCHeader) (body : list Z) (le : bool) : outcome handled :=
  with_body s h body le (λ blocks,
    '(resp, status, m, effs) ← HandleControl (arMgr s) blocks;
    Ok ([sendResponse s h status (default [] resp) le], with_mgr s m, effs)).

Definition handlePNIORequest (s : RPCServer) (h : RPCHeader) (body : list Z) (from : string) : outcome handled :=
  let le := IsLittleEndian h in
  if OpNum h =? RPCOpConnect then handleConnect s h body from le
  else if OpNum h =? RPCOpRelease then handleRelease s h body le
  else if OpNum h =? RPCOpRead then handleRead s h body le
  else if OpNum h =? RPCOpWrite then handleWrite s h body le
  else if OpNum h =? RPCOpControl then handleControl s h body le
  else if OpNum h =? RPCOpReadImplicit then handleRead s h body le
  else Ok ([], s, []).

(** ** Endpoint mapper *)

Definition pnioObjectUUID (s : RPCServer) : list Z :=
  take 10 UUIDPNIOObjectBase ++ [0; 1; wrapu 8 (Z.shiftr (IoData.DeviceID (scfg s)) 8);
    wrapu 8 (Z.land (IoData.DeviceID (scfg s)) 0xFF); wrapu 8 (Z.shiftr (IoData.VendorID (scfg s)) 8);
    wrapu 8 (Z.land (IoData.VendorID (scfg s)) 0xFF)].

(** [ts] is [uint32(time.Now().UnixMicro())]. *)
Definition generateEPMHandle (s : RPCServer) (ts : Z) : list Z :=
  replicate 4 0 ++ put_int true 4 (Z.land ts 0xFFFF)
  ++ put_int true 2 (Z.land (wrapu 16 (Z.shiftr ts 16)) 0xFF)
  ++ put_int true 2 (Z.lor (wrapu 16 (Z.shiftr ts 24)) 0x1000)
  ++ [0x80; 0x0C] ++ (if (6 <=? length (smac s))%nat then take 6 (smac s) else replicate 6 0).

Definition buildTower (ifUUID : list Z) (versionMajor : Z) (ip : list Z) (port : Z) : list Z :=
  [5; 0]
  ++ [0x13; 0; 0x0D] ++ uuidToWire ifUUID true ++ [wrapu 8 versionMajor; wrapu 8 (Z.shiftr versionMajor 8)] ++ [2; 0; 0; 0]
  ++ [0x13; 0; 0x0D] ++ uuidToWire UUIDNDRTransferSyntax true ++ [2; 0] ++ [2; 0; 0; 0]
  ++ [1; 0; 0x0A; 2; 0; 0; 0]
  ++ [1; 0; 0x08; 2; 0; wrapu 8 (Z.shiftr port 8); wrapu 8 (Z.land port 0xFF)]
  ++ [1; 0; 0x09; 4; 0] ++ (match Dcp.to4 ip with [] => Dcp.IPv4zero4 | ip4 => ip4 end).

(** [fmt]'s [%-Ns]: padded to [n] characters. *)
Definition pad_right (n : nat) (s : string) : list Z :=
  string_bytes s ++ replicate (n - length (runes s)) 32.

Definition buildAnnotation (s : RPCServer) : list Z :=
  let name := IoData.DeviceName (scfg s) in
  let name := if (25 <? str_len name)%nat then bytes_string (take 25 (string_bytes name)) else name in
  field 64 (pad_right 25 name ++ [32] ++ pad_right 20 "" ++ [32] ++ string_bytes "    1" ++ string_bytes " V  0  0  1").

(** The annotation's length up to its first zero byte, that byte included. *)
Fixpoint annotation_length (ann : list Z) : nat :=
  match ann with
  | [] => 0
  | b :: rest => if b =? 0 then 1 else S (annotation_length rest)
  end.

(** [4-pad] zeros when [n % 4 != 0] *)
Definition ndr_pad (n : nat) : list Z := replicate (pad4 n) 0.

Definition buildEPMLookupResponse (s : RPCServer) (objectUUID tower handle : list Z) (le : bool) : list Z :=
  let buf32 := put_int le 4 in
  let ann := buildAnnotation s in
  let annLen := annotation_length ann in
  handle ++ buf32 1 ++ buf32 1 ++ buf32 0 ++ buf32 1
  ++ uuidToWire objectUUID le ++ buf32 3
  ++ buf32 0 ++ buf32 (Z.of_nat annLen) ++ take annLen ann ++ ndr_pad annLen
  ++ buf32 (wrapu 32 (Z.of_nat (length tower))) ++ buf32 (wrapu 32 (Z.of_nat (length tower))) ++ tower
  ++ ndr_pad (length tower) ++ buf32 0.

Definition buildEPMNoEntryResponse (le : bool) : list Z :=
  let buf32 := put_int le 4 in
  replicate 20 0 ++ buf32 0 ++ buf32 0 ++ buf32 0 ++ buf32 0 ++ buf32 0x16c9a0d6.

Definition sendEPMResponse (s : RPCServer) (h : RPCHeader) (body : list Z) : list Z :=
  let flags := Z.lor (Z.lor RPCFlagLastFrag RPCFlagNoFack) RPCFlagIdempotent in
  MarshalHeader (response_header s h flags body) ++ body.

Definition handleEPM (s : RPCServer) (h : RPCHeader) (body : list Z) (ts : Z) : list (list Z) :=
  let le := IsLittleEndian h in
  if negb (OpNum h =? 2) then []
  else
    let ip := match localIP s with [] => Dcp.IPv4zero4 | ip => ip end in
    let handleZero := if (72 <=? length body)%nat
                      then forallb (λ b, b =? 0) (take 20 (drop 52 body)) else true in
    let respBody :=
      if handleZero then
        buildEPMLookupResponse s (pnioObjectUUID s) (buildTower UUIDPNIOInterface 1 ip PNIOCMPort)
          (generateEPMHandle s ts) le
      else buildEPMNoEntryResponse le in
    [sendEPMResponse s h respBody].

Definition handlePacket (s : RPCServer) (data : list Z) (from : string) (ts : Z) : outcome handled :=
  match ParseRPCHeader data with
  | Err _ => Ok ([], s, [])
  | Panic => Panic
  | Ok header =>
      if negb (RPCVersion header =? RPCVersionCL) then Ok ([], s, [])
      else if negb (PacketType header =? RPCPTypeRequest) then Ok ([], s, [])
      else
        let body := drop RPCHeaderSize data in
        if decide (InterfaceUUID header = UUIDPNIOInterface) then handlePNIORequest s header body from
        else if decide (InterfaceUUID header = UUIDEndpointMapper) then Ok (handleEPM s header body ts, s, [])
        else Ok ([], s, [])
  end.

(** ** Headers on the wire *)

Record wf_header (h : RPCHeader) : Prop := {
  wfh_rep : length (DataRep h) = 3%nat;
  wfh_object : length (ObjectUUID h) = 16%nat;
  wfh_interface : length (InterfaceUUID h) = 16%nat;
  wfh_activity : length (hActivityUUID h) = 16%nat;
  wfh_boot : in_u 32 (ServerBootTime h);
  wfh_version : in_u 32 (InterfaceVersion h);
  wfh_seq : in_u 32 (SequenceNum h);
  wfh_op : in_u 16 (OpNum h);
  wfh_ihint : in_u 16 (InterfaceHint h);
  wfh_ahint : in_u 16 (ActivityHint h);
  wfh_fraglen : in_u 16 (FragmentLen h);
  wfh_fragnum : in_u 16 (FragmentNum h);
}.

Lemma swap_groups_involutive u : swap_groups (swap_groups u) = u.
Proof. by do 8 (destruct u as [|? u]; [done|]). Qed.

Lemma length_swap_groups u : length (swap_groups u) = length u.
Proof. by do 8 (destruct u as [|? u]; [done|]). Qed.

Lemma uuid_wire u le : uuidFromWire (uuidToWire u le) le = u.
Proof. destruct le; [apply swap_groups_involutive|done]. Qed.

Lemma length_uuidToWire u le : length (uuidToWire u le) = length u.
Proof. destruct le; [apply length_swap_groups|done]. Qed.

Lemma length_MarshalHeader h : wf_header h → length (MarshalHeader h) = 80%nat.
Proof.
  intros [H1 H2 H3 H4 _ _ _ _ _ _ _ _]. unfold MarshalHeader.
  rewrite !length_app, !length_uuidToWire, !length_put_int, H1, H2, H3, H4. done.
Qed.

Lemma mod_id w v : in_u w v → v mod 2 ^ w = v.
Proof. apply Z.mod_small. Qed.

(** A header survives the wire in either byte order, whatever follows it. *)
Theorem ParseRPCHeader_Marshal h body : wf_header h → ParseRPCHeader (MarshalHeader h ++ body) = Ok h.
Proof.
  intros Hwf. pose proof (length_MarshalHeader h Hwf) as Hlen. destruct h as [v pt f1 f2 rep sh ob int act boot iv sq op ih ah fl fn au sl].
  destruct Hwf as [H1 H2 H3 H4 H5 H6 H7 H8 H9 H10 H11 H12].
  unfold ParseRPCHeader. rewrite (proj2 (Nat.ltb_ge _ _)) by (rewrite length_app, Hlen; unfold RPCHeaderSize; lia).
  unfold MarshalHeader, IsLittleEndian in *. cbn [RPCVersion PacketType Flags1 Flags2 DataRep SerialHigh ObjectUUID
    InterfaceUUID hActivityUUID ServerBootTime InterfaceVersion SequenceNum OpNum InterfaceHint ActivityHint
    FragmentLen FragmentNum AuthProto SerialLow] in *.
  rewrite <- !app_assoc.
  pose proof (length_uuidToWire ob (is_le rep)) as Lo. rewrite H2 in Lo.
  pose proof (length_uuidToWire int (is_le rep)) as Li. rewrite H3 in Li.
  pose proof (length_uuidToWire act (is_le rep)) as La. rewrite H4 in La.
  wire_read. rewrite !uuid_wire.
  by rewrite !mod_id by done.
Qed.

(** ** Requests *)

(** A request body as a client writes it: the argument lengths and the blocks. *)
Definition request_body (blocks : list Z) (le : bool) : list Z :=
  let n := wrapu 32 (Z.of_nat (length blocks)) in
  put_int le 4 65536 ++ put_int le 4 n ++ put_int le 4 n ++ put_int le 4 0 ++ put_int le 4 n ++ blocks.

Lemma ParsePNIORequestBody_request blocks le : Z.of_nat (length blocks) < 2 ^ 32 →
  ParsePNIORequestBody (request_body blocks le) le = (bs ← ParsePNIOBlocks blocks; Ok (65536, bs)).
Proof.
  intros Hn. unfold ParsePNIORequestBody, request_body. rewrite !length_app, !length_put_int.
  rewrite (proj2 (Nat.ltb_ge _ _)) by lia. rewrite (wrapu_small 32) by (unfold in_u; lia). wire_read.
  rewrite slice_all by lia. cbn [mbind outcome_bind]. rewrite !mod_id by (unfold in_u; change (8 * Z.of_nat 4) with 32; lia).
  by rewrite (proj2 (Z.ltb_ge _ _)) by lia.
Qed.

Lemma ParsePNIORequestBody_total data le : is_bytes data → is_panic (ParsePNIORequestBody data le) = false.
Proof.
  intros Hd. unfold ParsePNIORequestBody. case_if; [done|]. bool_to_prop.
  destruct (get_int_ok le 4 data 0) as [x ->]; [lia|].
  destruct (get_int le 4 data 16) as [y| |] eqn:Hy; [|by destruct (get_int_ok le 4 data 16) as [? Hy']; [lia|rewrite Hy' in Hy]..].
  apply get_int_range in Hy; [|done]. unfold in_u in Hy.
  cbn [mbind outcome_bind]. rewrite slice_ok by lia. cbn [mbind outcome_bind].
  set (bd := take (length data - 20) (drop 20 data)).
  assert (Hbd : is_bytes bd) by (by apply Forall_take_drop).
  assert (Hsub : ∃ b2, (if y <? Z.of_nat (length bd) then slice bd 0 (Z.to_nat y) else Ok bd) = Ok b2 ∧ is_bytes b2).
  { case_if; bool_to_prop; [|by eexists]. rewrite slice_ok by lia. eexists. split; [done|]. by apply Forall_take_drop. }
  destruct Hsub as (b2 & -> & Hb2). cbn [mbind outcome_bind].
  pose proof (ParsePNIOBlocks_total b2 Hb2) as Hp. by destruct (ParsePNIOBlocks b2).
Qed.

Lemma HandleControl_total m blocks : ∃ r, HandleControl m blocks = Ok r.
Proof.
  unfold HandleControl. generalize (@nil effect). generalize (@nil Z). revert m.
  induction blocks as [|b bs IH]; intros m resp effs; cbn [control_blocks]; [by eexists|].
  case_if; [apply IH|]. case_if; [apply IH|]. bool_to_prop.
  rewrite slice_ok, !get_be_ok by lia. cbn [mbind outcome_bind].
  destruct (ars m !! _); [|by eexists]. case_ifs; apply IH.
Qed.

Lemma HandleRead_total m blocks : ∃ r, HandleRead m blocks = Ok r.
Proof.
  unfold HandleRead. generalize (@nil Z).
  induction blocks as [|b bs IH]; intros resp; cbn [read_blocks]; [by eexists|].
  case_if; [apply IH|]. bool_to_prop. rewrite get_be_ok by lia. unfold buildReadResHeader.
  rewrite slice_ok by lia. cbn [mbind outcome_bind]. destruct (read_record _ _); [apply IH|by eexists].
Qed.

(** [pkt] is the answer to the request with header [h]. *)
Definition answers (h : RPCHeader) (pkt : list Z) : Prop :=
  ∃ h', ParseRPCHeader pkt = Ok h' ∧ PacketType h' = RPCPTypeResponse ∧ SequenceNum h' = SequenceNum h ∧
    hActivityUUID h' = hActivityUUID h ∧ ObjectUUID h' = ObjectUUID h ∧ OpNum h' = OpNum h.

Lemma sendResponse_answers s h status blocks le : wf_header h → in_u 32 (bootTime s) →
  answers h (sendResponse s h status blocks le).
Proof.
  intros [H1 H2 H3 H4 H5 H6 H7 H8 H9 H10 H11 H12] Hb. eexists. split; [apply ParseRPCHeader_Marshal|done].
  constructor; try done. apply wrapu_range. lia.
Qed.

(** C37: A well-formed PNIO request gets exactly one answer, addressed to its call, whether its
    body parses or not. The one exception is a Connect request, which can crash the device. *)
Theorem request_answered s h body from ts :
  wf_header h → in_u 32 (bootTime s) → is_bytes body →
  RPCVersion h = RPCVersionCL → PacketType h = RPCPTypeRequest → InterfaceUUID h = UUIDPNIOInterface →
  0 ≤ OpNum h ≤ 5 →
  (OpNum h = RPCOpConnect ∧ handlePacket s (MarshalHeader h ++ body) from ts = Panic) ∨
  ∃ pkt s' effs, handlePacket s (MarshalHeader h ++ body) from ts = Ok ([pkt], s', effs) ∧ answers h pkt.
Proof.
  intros Hwf Hboot Hbody Hv Ht Hi Hop. unfold handlePacket.
  rewrite ParseRPCHeader_Marshal, Hv, Ht by done. cbn [negb Z.eqb RPCVersionCL Pos.eqb RPCPTypeRequest].
  rewrite decide_True by done. rewrite drop_app_length' by (by rewrite length_MarshalHeader).
  unfold handlePNIORequest. set (le := IsLittleEndian h).
  pose proof (ParsePNIORequestBody_total body le Hbody) as Hnp.
  assert (Hans : ∀ status blocks, answers h (sendResponse s h status blocks le)) by (intros; by apply sendResponse_answers).
  unfold handleConnect, handleRelease, handleRead, handleWrite, handleControl, with_body.
  destruct (ParsePNIORequestBody body le) as [[am blocks]|e|] eqn:Hparse; [|clear Hnp|done].
  2: { right. unfold RPCOpConnect, RPCOpRelease, RPCOpRead, RPCOpWrite, RPCOpControl, RPCOpReadImplicit.
       case_ifs; bool_to_prop; try lia; do 3 eexists; split; try reflexivity; apply Hans. }
  case_if; [|case_if; [|case_if; [|case_if; [|case_if; [|case_if]]]]].
  - bool_to_prop. destruct (collect_blocks (mkConnect None [] None None) blocks) as [r| |] eqn:Hc.
    + right. unfold HandleConnect. rewrite Hc. cbn [mbind outcome_bind].
      destruct r as [[[a|] qs al ex]|]; [|do 3 eexists; split; [reflexivity|apply Hans]..].
      destruct (connect_iocrs _ _ _ _) as [[m1 ar1] resp1]. destruct al; do 3 eexists; (split; [reflexivity|apply Hans]).
    + exfalso. clear -Hc. revert Hc. generalize (mkConnect None [] None None).
      induction blocks as [|b bs IH]; intros c; cbn [collect_blocks]; [done|].
      unfold collect_block. case_ifs; repeat (case_match; cbn [mbind outcome_bind]); try done; apply IH.
    + left. split; [done|]. unfold HandleConnect. by rewrite Hc.
  - right. destruct (HandleRelease _ _ _) as [[[resp st] m] effs]. do 3 eexists. split; [reflexivity|apply Hans].
  - right. destruct (HandleRead_total (arMgr s) blocks) as [[resp st] ->]. do 3 eexists. split; [reflexivity|apply Hans].
  - right. destruct (HandleWrite _ _ _) as [[resp st] m]. do 3 eexists. split; [reflexivity|apply Hans].
  - right. destruct (HandleControl_total (arMgr s) blocks) as [[[[resp st] m] effs] ->]. do 3 eexists. split; [reflexivity|apply Hans].
  - right. destruct (HandleRead_total (arMgr s) blocks) as [[resp st] ->]. do 3 eexists. split; [reflexivity|apply Hans].
  - bool_to_prop. unfold RPCOpConnect, RPCOpRelease, RPCOpRead, RPCOpWrite, RPCOpControl, RPCOpReadImplicit in *. lia.
Qed.

(** One datagram ends the device's process: a Connect request with an AR block whose station
    name length is 65484 or more. *)
Theorem connect_datagram_crashes s h data n from ts :
  wf_header h → RPCVersion h = RPCVersionCL → PacketType h = RPCPTypeRequest →
  InterfaceUUID h = UUIDPNIOInterface → OpNum h = RPCOpConnect →
  is_bytes data → (52 ≤ length data)%nat → Z.of_nat (length data) < 65000 →
  get_u16 data 50 = Ok n → 65484 ≤ n →
  handlePacket s (MarshalHeader h ++ request_body (MarshalPNIOBlock BlockTypeARBlockReq 1 0 data) (IsLittleEndian h)) from ts
  = Panic.
Proof.
  intros Hwf Hv Ht Hi Hop Hd Hl Hl2 Hn Hbig. unfold handlePacket.
  rewrite ParseRPCHeader_Marshal, Hv, Ht by done. cbn [negb Z.eqb RPCVersionCL Pos.eqb RPCPTypeRequest].
  rewrite decide_True by done. rewrite drop_app_length' by (by rewrite length_MarshalHeader).
  unfold handlePNIORequest. rewrite Hop. change (RPCOpConnect =? RPCOpConnect) with true. cbv iota.
  unfold handleConnect, with_body.
  set (b := mkBlock BlockTypeARBlockReq (2 + Z.of_nat (length data)) 1 0 data).
  change (MarshalPNIOBlock BlockTypeARBlockReq 1 0 data) with (block_bytes b).
  rewrite ParsePNIORequestBody_request by (rewrite length_pnio_block; cbn [bData b]; lia).
  assert (Hbs : ParsePNIOBlocks (block_bytes b) = Ok [b])
    by (apply (ParsePNIOBlocks_last [] b); [done|constructor; cbn; try done; lia]).
  rewrite Hbs. cbn [mbind outcome_bind].
  unfold HandleConnect. cbn [collect_blocks collect_block]. unfold collect_block. cbn [bType b].
  change (BlockTypeARBlockReq =? BlockTypeARBlockReq) with true. cbv iota. change (bData b) with data.
  destruct (ParseARBlockReq_cases data Hd Hl) as (n' & Hn' & _ & Hp). rewrite Hn in Hn'. injection Hn' as <-.
  rewrite (proj2 (Z.leb_le _ _)) in Hp by lia. by rewrite Hp.
Qed.

(** ** The receive loop

    [Run] reads every datagram into the same buffer and starts [go s.handlePacket(buf[:n], ...)]:
    the goroutine reads the buffer when it runs, not when it was started. *)
Module Receive.

(** The shared buffer and the lengths of the datagrams whose handlers have not run yet. *)
Record loop := mkLoop { buf : list Z; waiting : list nat }.

(** [run l rs hs l']: the loop receives the datagrams [rs] and its handlers process the
    bytes [hs], in any order the scheduler allows. *)
Inductive run : loop → list (list Z) → list (list Z) → loop → Prop :=
  | run_done l : run l [] [] l
  | run_receive l d rs hs l' : (length d ≤ length (buf l))%nat →
      run (mkLoop (d ++ drop (length d) (buf l)) (waiting l ++ [length d])) rs hs l' → run l (d :: rs) hs l'
  | run_handle b w1 n w2 rs hs l' :
      run (mkLoop b (w1 ++ w2)) rs hs l' → run (mkLoop b (w1 ++ n :: w2)) rs (take n b :: hs) l'.

End Receive.

(** When a second datagram of the same length arrives before the first one's handler runs,
    both handlers process the second, and the first request is lost. *)
Theorem second_datagram_overwrites_first (b d1 d2 : list Z) :
  length d1 = length d2 → (length d1 ≤ length b)%nat →
  Receive.run (Receive.mkLoop b []) [d1; d2] [d2; d2] (Receive.mkLoop (d2 ++ drop (length d2) b) []).
Proof.
  intros Hl Hb. apply Receive.run_receive; [done|]. apply Receive.run_receive.
  { cbn. rewrite length_app, length_drop. lia. }
  cbn [Receive.buf Receive.waiting app]. rewrite drop_app_length' by done.
  pose proof (Receive.run_handle (d2 ++ drop (length d1) b) [] (length d1) [length d2] [] [d2]) as H1.
  rewrite take_app_length' in H1 by done. rewrite <- Hl at 2. apply H1.
  pose proof (Receive.run_handle (d2 ++ drop (length d1) b) [] (length d2) [] [] []) as H2.
  rewrite take_app_length in H2. apply H2. apply Receive.run_done.
Qed.

Definition ex_mgr : ARManager := NewARManager (IoData.mkConfig "dev" "eth0" 1 2 "Dev" 1000 []) [1; 2; 3; 4; 5; 6].
Definition ex_server : RPCServer := mkServer ex_mgr [10; 0; 0; 2] 7.
Definition ex_uuid : list Z := [1; 2; 3; 4; 5; 6; 7; 8; 9; 10; 11; 12; 13; 14; 15; 16].
Definition ex_header (op : Z) : RPCHeader :=
  mkHeader RPCVersionCL RPCPTypeRequest 0x22 0 [0x10; 0; 0] 0 ex_uuid UUIDPNIOInterface ex_uuid 0 1 3 op 0xFFFF 0xFFFF 24 0 0 0.

Lemma ParseRPCHeader_Marshal_witness : ParseRPCHeader (MarshalHeader (ex_header 2) ++ [9]) = Ok (ex_header 2).
Proof. apply ParseRPCHeader_Marshal. constructor; apply (bool_decide_unpack _); vm_compute; exact I. Defined.

Lemma request_answered_witness :
  (OpNum (ex_header 4) = RPCOpConnect ∧ handlePacket ex_server (MarshalHeader (ex_header 4) ++ [1; 2]) "c" 0 = Panic) ∨
  ∃ pkt s' effs, handlePacket ex_server (MarshalHeader (ex_header 4) ++ [1; 2]) "c" 0 = Ok ([pkt], s', effs) ∧
    answers (ex_header 4) pkt.
Proof.
  apply (request_answered ex_server (ex_header 4) [1; 2] "c" 0).
  - constructor; apply (bool_decide_unpack _); vm_compute; exact I.
  - apply (bool_decide_unpack _); vm_compute; exact I.
  - apply (bool_decide_unpack _); vm_compute; exact I.
  - reflexivity.
  - reflexivity.
  - reflexivity.
  - apply (bool_decide_unpack _); vm_compute; exact I.
Defined.

Lemma connect_datagram_crashes_witness :
  handlePacket ex_server (MarshalHeader (ex_header 0) ++
    request_body (MarshalPNIOBlock BlockTypeARBlockReq 1 0 (replicate 50 0 ++ [255; 255])) true) "c" 0 = Panic.
Proof.
  apply (connect_datagram_crashes ex_server (ex_header 0) (replicate 50 0 ++ [255; 255]) 65535 "c" 0);
    first [reflexivity | constructor; apply (bool_decide_unpack _); vm_compute; exact I
      | apply (bool_decide_unpack _); vm_compute; exact I].
Defined.

Lemma second_datagram_overwrites_first_witness :
  Receive.run (Receive.mkLoop [0; 0; 0] []) [[1; 2]; [3; 4]] [[3; 4]; [3; 4]] (Receive.mkLoop [3; 4; 0] []).
Proof. apply (second_datagram_overwrites_first [0; 0; 0] [1; 2] [3; 4]); [reflexivity|cbn; lia]. Defined.
