(* ===== verification/PnioCyclic.v ===== *)
(** Cyclic data exchange of the PROFINET device: internal/profinet/cyclic.go, alarm.go, and
    the dispatch and callbacks of device.go and transport.go.

    Times are nanoseconds; the callback that provides a subslot's data is an argument, the
    one that takes it is the list of its calls. *)

From S2P Require Export Prelude GoBytes GoText Wire PnioBlocks PnioAr.
From S2P Require IoData Dcp.

#[local] Open Scope Z_scope.

Import IoData (SubslotConfig, ProfinetConfig, DirectionInput, DirectionOutput, DirectionInputOutput,
  Direction, InputSize, OutputSize).

Record CyclicHandler := mkCyclic {
  har : AR;
  hcfg : ProfinetConfig;
  inputData : list Z;
  inputIOPS : list Z;
  outputData : list Z;
  outputIOCS : list Z;
  cycleCounter : Z;
  lastOutputRx : Z;
  watchdogMs : Z;
}.

Definition is_in (sub : SubslotConfig) : bool :=
  String.eqb (Direction sub) DirectionInput || String.eqb (Direction sub) DirectionInputOutput.
Definition is_out (sub : SubslotConfig) : bool :=
  String.eqb (Direction sub) DirectionOutput || String.eqb (Direction sub) DirectionInputOutput.

(** The subslots in the order of the nested loops. *)
Definition subslots (c : ProfinetConfig) : list SubslotConfig := concat (map IoData.Subslots (IoData.Slots c)).

Definition countSubmodules (c : ProfinetConfig) (input : bool) : nat :=
  let count := length (List.filter (if input then is_in else is_out) (subslots c)) in
  if (count =? 0)%nat then 1 else count.

Definition NewCyclicHandler (ar : AR) (c : ProfinetConfig) (now : Z) : CyclicHandler :=
  let watchdog :=
    match OutputIOCR ar with
    | Some o =>
        let cyclePeriodUs := wrapu 32 (wrapu 32 (iSendClockFactor o * iReductionRatio o) * 31250) / 1000 in
        let w := wrapu 32 (cyclePeriodUs * iWatchdogFactor o) / 1000 in
        if w <? 100 then 100 else w
    | None => 0
    end in
  let size o := match o with Some i => Z.to_nat (iDataLength i) | None => 0%nat end in
  mkCyclic ar c (replicate (size (InputIOCR ar)) 0) (replicate (countSubmodules c true) 0)
    (replicate (size (OutputIOCR ar)) 0) (replicate (countSubmodules c false) 0) 0 now watchdog.

(** The ticker of [Start]: a period that is not positive panics. *)
Definition Start (h : CyclicHandler) : outcome Z :=
  let period :=
    match InputIOCR (har h) with
    | Some i => wraps 64 (iSendClockFactor i * iReductionRatio i * 31250)
    | None => 1000000
    end in
  if period <=? 0 then Panic else Ok period.

(** [copy(buf[off:], data)] where the data fits. *)
Definition copy_at (buf : list Z) (off : nat) (data : list Z) : list Z :=
  take off buf ++ data ++ drop (off + length data) buf.

(** The loop of [sendInputFrame] over the subslots: data, IOPS, offset, IOPS index. *)
Fixpoint collect_inputs (getInputData : SubslotConfig → list Z) (subs : list SubslotConfig)
    (buf iops : list Z) (offset iopsIdx : nat) : list Z * list Z :=
  match subs with
  | [] => (buf, iops)
  | sub :: subs' =>
      if negb (is_in sub) then collect_inputs getInputData subs' buf iops offset iopsIdx
      else
        let data := getInputData sub in
        let buf' := if (0 <? length data)%nat && (offset + length data <=? length buf)%nat
                    then copy_at buf offset data else buf in
        collect_inputs getInputData subs' buf' (<[iopsIdx := IOxSGood]> iops)
          (offset + Z.to_nat (InputSize sub)) (S iopsIdx)
  end.

Definition rt_frame (frameID : Z) (data iox : list Z) (counter : Z) : list Z :=
  put_u16 frameID ++ data ++ iox ++ put_u16 counter ++ [DataStatusNormal; 0].

(** The frame sent, if any. *)
Definition sendInputFrame (getInputData : SubslotConfig → list Z) (h : CyclicHandler)
    : option (list Z) * CyclicHandler :=
  match InputIOCR (har h) with
  | None => (None, h)
  | Some i =>
      let (buf, iops) := collect_inputs getInputData (subslots (hcfg h)) (inputData h) (inputIOPS h) 0 0 in
      (Some (rt_frame (iFrameID i) buf iops (cycleCounter h)),
       mkCyclic (har h) (hcfg h) buf iops (outputData h) (outputIOCS h) (wrapu 16 (cycleCounter h + 1))
         (lastOutputRx h) (watchdogMs h))
  end.

(** The subslot loop of one slot: the calls made and the offset reached; [break] leaves
    this loop only. *)
Fixpoint dispatch_subs (buf : list Z) (subs : list SubslotConfig) (offset : nat)
    : list (SubslotConfig * list Z) * nat :=
  match subs with
  | [] => ([], offset)
  | sub :: subs' =>
      if negb (is_out sub) then dispatch_subs buf subs' offset
      else
        let e := (offset + Z.to_nat (OutputSize sub))%nat in
        if (length buf <? e)%nat then ([], offset)
        else
          let (calls, o) := dispatch_subs buf subs' e in
          ((sub, take (e - offset) (drop offset buf)) :: calls, o)
  end.

Fixpoint dispatch_slots (buf : list Z) (slots : list IoData.SlotConfig) (offset : nat)
    : list (SubslotConfig * list Z) :=
  match slots with
  | [] => []
  | slot :: slots' =>
      let (calls, o) := dispatch_subs buf (IoData.Subslots slot) offset in
      calls ++ dispatch_slots buf slots' o
  end.

Definition processOutputData (h : CyclicHandler) (data : list Z) (now : Z)
    : list (SubslotConfig * list Z) * CyclicHandler :=
  let buf := take (length (outputData h)) data ++ drop (length data) (outputData h) in
  (dispatch_slots buf (IoData.Slots (hcfg h)) 0,
   mkCyclic (har h) (hcfg h) (inputData h) (inputIOPS h) buf (outputIOCS h) (cycleCounter h) now (watchdogMs h)).

Definition HandleOutputFrame (h : CyclicHandler) (payload : list Z) (now : Z)
    : outcome (list (SubslotConfig * list Z) * CyclicHandler) :=
  if (length payload <? 2)%nat then Ok ([], h)
  else
    frameID ← get_u16 payload 0;
    match OutputIOCR (har h) with
    | Some o => if frameID =? iFrameID o then Ok (processOutputData h (drop 2 payload) now) else Ok ([], h)
    | None => Ok ([], h)
    end.

Definition WatchdogExpired (h : CyclicHandler) (now : Z) : bool :=
  if watchdogMs h =? 0 then false else watchdogMs h * 1000000 <? now - lastOutputRx h.

Definition IsRTCyclicFrame (frameID : Z) : bool := (0x0100 <=? frameID) && (frameID <=? 0xF7FF).

Definition OutputFrameID (h : CyclicHandler) : Z := match OutputIOCR (har h) with Some o => iFrameID o | None => 0 end.
Definition InputFrameID (h : CyclicHandler) : Z := match InputIOCR (har h) with Some i => iFrameID i | None => 0 end.

(** ** alarm.go *)

Definition FrameIDAlarmHigh : Z := 0xFC01.
Definition FrameIDAlarmLow : Z := 0xFE01.
Definition RTAPDUTypeData : Z := 1.
Definition RTAPDUTypeACK : Z := 4.

Record AlarmHandler := mkAlarm { alAR : AR; sendSeqNum : Z; ackSeqNum : Z }.

Definition NewAlarmHandler (ar : AR) : AlarmHandler := mkAlarm ar 0 0.

Definition SendAlarm (h : AlarmHandler) (alarmType api slot subslot alarmSpecifier : Z)
    : option (list Z) * AlarmHandler :=
  match AlarmCR (alAR h) with
  | None => (None, h)
  | Some cr =>
      let payload := put_u16 alarmType ++ put_u32 api ++ put_u16 slot ++ put_u16 subslot
                     ++ put_u32 0 ++ put_u32 0 ++ put_u16 alarmSpecifier in
      let frameID := if 1 <? alarmType then FrameIDAlarmLow else FrameIDAlarmHigh in
      (Some (put_u16 frameID ++ put_u16 RTAPDUTypeData ++ put_u16 (aRemoteAlarmRef cr) ++ put_u16 (aLocalAlarmRef cr)
             ++ put_u16 (sendSeqNum h) ++ put_u16 (ackSeqNum h) ++ put_u16 (wrapu 16 (Z.of_nat (length payload))) ++ payload),
       mkAlarm (alAR h) (wrapu 16 (sendSeqNum h + 1)) (ackSeqNum h))
  end.

Definition alarm_HandleFrame (h : AlarmHandler) (payload : list Z) : outcome AlarmHandler :=
  if (length payload <? 12)%nat then Ok h
  else
    pduType ← get_u16 payload 2;
    if pduType =? RTAPDUTypeACK then
      ack ← get_u16 payload 10; Ok (mkAlarm (alAR h) (sendSeqNum h) ack)
    else Ok h.

Definition IsAlarmFrame (frameID : Z) : bool := (frameID =? FrameIDAlarmHigh) || (frameID =? FrameIDAlarmLow).

Definition MarshalAlarmAck (dstRef srcRef ack : Z) : list Z :=
  put_u16 FrameIDAlarmHigh ++ put_u16 RTAPDUTypeACK ++ put_u16 dstRef ++ put_u16 srcRef ++ put_u16 0 ++ put_u16 ack.

(** ** device.go, transport.go *)

Definition ParseFrameID (payload : list Z) : outcome Z :=
  if (length payload <? 2)%nat then Err ("payload too short for FrameID: " +:+ itoa (Z.of_nat (length payload)) +:+ " bytes") else get_u16 payload 0.

Definition IsDCPFrame (frameID : Z) : bool := (0xFEFC <=? frameID) && (frameID <=? 0xFEFF).

(** The one exchange of a device: handler and alarm handler. *)
Record Device := mkDevice { dcyclic : option CyclicHandler; dalarm : option AlarmHandler }.

Definition onCyclicStart (c : ProfinetConfig) (now : Z) (d : Device) (ar : AR) : Device :=
  mkDevice (Some (NewCyclicHandler ar c now)) (Some (NewAlarmHandler ar)).

Definition onCyclicStop (d : Device) (ar : AR) : Device := mkDevice None None.

(** The callbacks of one handler call, in order. *)
Fixpoint apply_effects (c : ProfinetConfig) (now : Z) (d : Device) (effs : list effect) : Device :=
  match effs with
  | [] => d
  | CyclicStart ar :: effs' => apply_effects c now (onCyclicStart c now d ar) effs'
  | CyclicStop ar :: effs' => apply_effects c now (onCyclicStop d ar) effs'
  | GoReady _ :: effs' => apply_effects c now d effs'
  end.

(** Where [frameLoop] sends a frame. *)
Inductive route := ToDCP | ToCyclic | ToAlarm | Ignored.

Definition frame_route (payload : list Z) : route :=
  match ParseFrameID payload with
  | Ok frameID =>
      if IsDCPFrame frameID then ToDCP
      else if IsRTCyclicFrame frameID then ToCyclic
      else if IsAlarmFrame frameID then ToAlarm
      else Ignored
  | _ => Ignored
  end.

(** ** Frames to the controller *)

Definition input_size (sub : SubslotConfig) : nat := Z.to_nat (InputSize sub).
Definition output_size (sub : SubslotConfig) : nat := Z.to_nat (OutputSize sub).

Lemma length_copy_at buf off data : (off + length data ≤ length buf)%nat → length (copy_at buf off data) = length buf.
Proof. intros. unfold copy_at. rewrite !length_app, length_take, length_drop. lia. Qed.

(** Each input subslot's data, one after the other, from the given offset on. *)
Lemma collect_inputs_spec get subs buf iops offset idx :
  let ins := List.filter is_in subs in
  Forall (λ s, length (get s) = input_size s) ins →
  (offset + length (concat (map get ins)) ≤ length buf)%nat → (idx + length ins ≤ length iops)%nat →
  collect_inputs get subs buf iops offset idx =
  (copy_at buf offset (concat (map get ins)),
   take idx iops ++ replicate (length ins) IOxSGood ++ drop (idx + length ins) iops).
Proof.
  cbv zeta. revert buf iops offset idx. induction subs as [|s subs IH]; intros buf iops offset idx; cbn [collect_inputs List.filter].
  { intros _ _ _. cbn [map concat length replicate app]. unfold copy_at. cbn [app length].
    by rewrite !Nat.add_0_r, !take_drop. }
  destruct (is_in s); cbn [negb]; [|apply IH]. cbn [map concat length]. rewrite length_app.
  intros Hf Hb Hi. apply Forall_cons_1 in Hf as [Hs Hf]. fold (input_size s).
  assert (Hstep : (if (0 <? length (get s))%nat && (offset + length (get s) <=? length buf)%nat
                   then copy_at buf offset (get s) else buf) = copy_at buf offset (get s)).
  { rewrite (proj2 (Nat.leb_le _ _)) by lia. rewrite andb_true_r. case_if; bool_to_prop; [done|].
    destruct (get s); [|cbn in *; lia]. unfold copy_at. cbn [app length]. by rewrite Nat.add_0_r, take_drop. }
  rewrite Hstep, IH; [|done|rewrite length_copy_at by lia; lia|rewrite length_insert; lia]. f_equal.
  - unfold copy_at. rewrite <- Hs.
    assert (Ht : length (take offset buf) = offset) by (rewrite length_take; lia).
    rewrite (app_assoc (take offset buf)), take_app_length' by (rewrite length_app; lia).
    rewrite (length_app (get s)), <- !app_assoc. do 2 f_equal. f_equal.
    rewrite app_assoc, drop_app_ge by (rewrite length_app; lia). rewrite drop_drop, length_app. f_equal. lia.
  - rewrite insert_take_drop by lia.
    assert (Ht : length (take idx iops) = idx) by (rewrite length_take; lia).
    rewrite take_app_ge, drop_app_ge by lia. rewrite Ht, Nat.sub_succ_l, Nat.sub_diag by lia.
    replace (S idx + length (List.filter is_in subs) - idx)%nat with (S (length (List.filter is_in subs))) by lia.
    cbn [firstn skipn replicate]. rewrite drop_drop, <- !app_assoc. cbn [app].
    by replace (idx + S (length (List.filter is_in subs)))%nat with (S idx + length (List.filter is_in subs))%nat by lia.
Qed.

Definition input_subs (c : ProfinetConfig) : list SubslotConfig := List.filter is_in (subslots c).
Definition output_subs (c : ProfinetConfig) : list SubslotConfig := List.filter is_out (subslots c).

(** The sizes of the subslots of one direction fit the negotiated data length. *)
Definition inputs_fit (h : CyclicHandler) : Prop :=
  (sum_list_with input_size (input_subs (hcfg h)) ≤ length (inputData h))%nat ∧
  length (inputIOPS h) = countSubmodules (hcfg h) true.

Lemma length_concat_map {A} (f : A → list Z) (g : A → nat) l :
  Forall (λ x, length (f x) = g x) l → length (concat (map f l)) = sum_list_with g l.
Proof. induction 1; cbn; [done|]. rewrite length_app. congruence. Qed.

(** The frame the device sends: the data of the input subslots one after the other, the
    provider status of each good, the counter, which then increases. *)
Theorem input_frame get h i :
  InputIOCR (har h) = Some i → inputs_fit h → input_subs (hcfg h) ≠ [] →
  Forall (λ s, length (get s) = input_size s) (input_subs (hcfg h)) →
  ∃ pad h', sendInputFrame get h =
    (Some (put_u16 (iFrameID i) ++ concat (map get (input_subs (hcfg h))) ++ pad
           ++ replicate (length (input_subs (hcfg h))) IOxSGood ++ put_u16 (cycleCounter h) ++ [DataStatusNormal; 0]), h') ∧
    length (concat (map get (input_subs (hcfg h))) ++ pad) = length (inputData h) ∧
    cycleCounter h' = wrapu 16 (cycleCounter h + 1) ∧ inputs_fit h'.
Proof.
  intros Hi [Hfit Hiops] Hne Hget. unfold sendInputFrame. rewrite Hi.
  assert (Hc : countSubmodules (hcfg h) true = length (input_subs (hcfg h))).
  { unfold countSubmodules. fold (input_subs (hcfg h)). destruct (input_subs (hcfg h)); [done|]. done. }
  pose proof (length_concat_map get input_size _ Hget) as Hlen.
  rewrite collect_inputs_spec; [|exact Hget|fold (input_subs (hcfg h)); lia|fold (input_subs (hcfg h)); lia].
  fold (input_subs (hcfg h)). unfold copy_at. rewrite !take_0, !Nat.add_0_l. cbn [app].
  rewrite (drop_ge (inputIOPS h)), app_nil_r by lia.
  exists (drop (length (concat (map get (input_subs (hcfg h))))) (inputData h)).
  eexists. split; [|split; [|split]].
  - unfold rt_frame. by rewrite <- !app_assoc.
  - rewrite length_app, length_drop, Hlen. lia.
  - done.
  - split; cbn [inputData inputIOPS hcfg].
    + rewrite length_app, length_drop, Hlen. lia.
    + by rewrite length_replicate.
Qed.

(** ** Data from the controller *)

Lemma dispatch_subs_spec subs pre (chunks : list (list Z)) post :
  Forall2 (λ s c, length c = output_size s) (List.filter is_out subs) chunks →
  dispatch_subs (pre ++ concat chunks ++ post) subs (length pre) =
  (zip (List.filter is_out subs) chunks, (length pre + length (concat chunks))%nat).
Proof.
  revert pre chunks. induction subs as [|s subs IH]; intros pre chunks; cbn [dispatch_subs List.filter].
  { intros ->%Forall2_nil_inv_l. cbn. by rewrite Nat.add_0_r. }
  destruct (is_out s); cbn [negb]; [|apply IH].
  intros (c & chunks' & Hc & Hf & ->)%Forall2_cons_inv_l. cbn [concat]. fold (output_size s). rewrite <- Hc.
  rewrite (proj2 (Nat.ltb_ge _ _)) by (rewrite !length_app; lia).
  assert (Hpre : pre ++ (c ++ concat chunks') ++ post = (pre ++ c) ++ concat chunks' ++ post) by (by rewrite <- !app_assoc).
  rewrite Hpre, <- length_app, IH by done.
  rewrite <- app_assoc, drop_app_length, length_app. replace (length pre + length c - length pre)%nat with (length c) by lia.
  rewrite take_app_length. cbn [zip]. f_equal. rewrite !length_app. lia.
Qed.

Lemma dispatch_slots_spec slots pre chunks post :
  Forall2 (λ s c, length c = output_size s) (List.filter is_out (concat (map IoData.Subslots slots))) chunks →
  dispatch_slots (pre ++ concat chunks ++ post) slots (length pre) =
  zip (List.filter is_out (concat (map IoData.Subslots slots))) chunks.
Proof.
  revert pre chunks. induction slots as [|slot slots IH]; intros pre chunks; cbn [dispatch_slots map concat].
  { by intros ->%Forall2_nil_inv_l. }
  rewrite List.filter_app. intros (c1 & c2 & Hf1 & Hf2 & ->)%Forall2_app_inv_l.
  rewrite concat_app, <- app_assoc, dispatch_subs_spec by done.
  rewrite <- length_app, (app_assoc pre), IH by done. rewrite zip_with_app by (by apply Forall2_length in Hf1). done.
Qed.

(** A received output frame reaches every output subslot with its own bytes, when the
    frame holds the bytes of all of them in order. *)
Theorem output_frame_delivered h o chunks rest now :
  OutputIOCR (har h) = Some o → in_u 16 (iFrameID o) →
  Forall2 (λ s c, length c = output_size s) (output_subs (hcfg h)) chunks →
  (length (concat chunks) ≤ length (outputData h))%nat →
  ∃ h', HandleOutputFrame h (put_u16 (iFrameID o) ++ concat chunks ++ rest) now
        = Ok (zip (output_subs (hcfg h)) chunks, h') ∧ lastOutputRx h' = now ∧ hcfg h' = hcfg h ∧ har h' = har h.
Proof.
  intros Ho Hid Hf Hlen. unfold HandleOutputFrame. rewrite (proj2 (Nat.ltb_ge _ _)) by (rewrite length_app, length_be_bytes; lia).
  rewrite get_be_here, Ho. cbn [mbind outcome_bind]. rewrite Z.mod_small, Z.eqb_refl by exact Hid.
  rewrite drop_app_length' by (by rewrite length_be_bytes). unfold processOutputData.
  eexists. split; [apply (f_equal Ok), (f_equal2 pair); [|reflexivity]|done].
  rewrite take_app_ge by done. rewrite <- app_assoc.
  apply (dispatch_slots_spec (IoData.Slots (hcfg h)) [] chunks). exact Hf.
Qed.

(** Where the negotiated data is shorter than the configured subslots, [break] only leaves
    the slot at hand: here slot 1 needs four bytes, and slot 2 is handed the two bytes that
    belong to slot 1. *)
Example short_data_shifts_slots :
  let s1 := IoData.mkSubslot 1 1 DirectionOutput 0 4 [] in
  let s2 := IoData.mkSubslot 1 2 DirectionOutput 0 2 [] in
  dispatch_slots [7; 8] [IoData.mkSlot 1 1 [s1]; IoData.mkSlot 2 1 [s2]] 0 = [(s2, [7; 8])].
Proof. reflexivity. Qed.

(** ** Starting and stopping *)

(** The exchange of an AR whose input CR has a zero send clock factor or reduction ratio
    panics when it starts; the device takes both from the connect request unchecked. *)
Theorem zero_clock_panics ar c now :
  (∀ i, InputIOCR ar = Some i → in_u 16 (iSendClockFactor i) ∧ in_u 16 (iReductionRatio i)) →
  Start (NewCyclicHandler ar c now) = Panic ↔
  ∃ i, InputIOCR ar = Some i ∧ (iSendClockFactor i = 0 ∨ iReductionRatio i = 0).
Proof.
  intros Hr. unfold Start. cbn [har NewCyclicHandler]. destruct (InputIOCR ar) as [i|] eqn:Hi.
  - destruct (Hr i eq_refl) as [H1 H2]. unfold in_u in *.
    rewrite wraps_small; [|unfold in_s; nia|lia]. case_if; bool_to_prop.
    + split; [|done]. intros _. exists i. split; [done|]. nia.
    + split; [done|]. intros (? & [= <-] & [H|H]); rewrite H in *; lia.
  - split; [by case_if|]. by intros (? & ? & _).
Qed.

(** Releasing one AR stops the exchange of the device whichever AR it belongs to: an AR
    that stays in the data state no longer exchanges data. *)
Theorem release_stops_other_exchange m a b ara arb c now d :
  a ≠ b → ars m !! a = Some ara → ars m !! b = Some arb → State ara = ARStateData →
  ∃ resp m' effs, HandleRelease m [] b = (resp, PNIOStatusOK, m', effs) ∧
    ars m' !! a = Some ara ∧ dcyclic (apply_effects c now d effs) = None.
Proof.
  intros Hab Ha Hb Hs. unfold HandleRelease. rewrite Hb. do 3 eexists. split; [done|]. cbn [ars with_ars].
  rewrite lookup_delete_ne by done. done.
Qed.

(** The frame identifiers of the three protocols do not overlap. *)
Theorem frame_route_spec frameID rest : in_u 16 frameID →
  frame_route (put_u16 frameID ++ rest) =
    if decide (0xFEFC ≤ frameID ≤ 0xFEFF) then ToDCP
    else if decide (0x0100 ≤ frameID ≤ 0xF7FF) then ToCyclic
    else if decide (frameID = 0xFC01 ∨ frameID = 0xFE01) then ToAlarm else Ignored.
Proof.
  intros Hid. unfold frame_route, ParseFrameID. rewrite (proj2 (Nat.ltb_ge _ _)) by (rewrite length_app, length_be_bytes; lia).
  rewrite get_be_here, Z.mod_small by exact Hid.
  unfold IsDCPFrame, IsRTCyclicFrame, IsAlarmFrame, FrameIDAlarmHigh, FrameIDAlarmLow.
  destruct (Z.leb_spec 0xFEFC frameID), (Z.leb_spec frameID 0xFEFF), (Z.leb_spec 0x0100 frameID),
    (Z.leb_spec frameID 0xF7FF), (Z.eqb_spec frameID 0xFC01), (Z.eqb_spec frameID 0xFE01); cbn [andb orb];
    repeat case_decide; first [done|lia].
Qed.

Definition two_ars : ARManager :=
  let ar u := mkARel u 1 1 [] "c" [] ARStateData None None None None in
  with_ars run0 (<[[1] := ar [1]]> (<[[2] := ar [2]]> ∅)).

Lemma release_stops_other_exchange_witness :
  ∃ resp m' effs, HandleRelease two_ars [] [2] = (resp, PNIOStatusOK, m', effs) ∧
    is_Some (ars m' !! [1]) ∧ dcyclic (apply_effects (cfg run0) 0 (mkDevice None None) effs) = None.
Proof.
  destruct (release_stops_other_exchange two_ars [1] [2] (mkARel [1] 1 1 [] "c" [] ARStateData None None None None)
    (mkARel [2] 1 1 [] "c" [] ARStateData None None None None) (cfg run0) 0 (mkDevice None None)) as (resp & m' & effs & H & Ha & Hd);
    [discriminate|reflexivity|reflexivity|reflexivity|].
  exists resp, m', effs. split; [exact H|]. split; [rewrite Ha; by eexists|exact Hd].
Defined.

Lemma zero_clock_panics_witness :
  let i := mkIOCRInfo 1 1 0xC001 4 0 1 10 3 [] in
  Start (NewCyclicHandler (mkARel [1] 1 1 [] "c" [] ARStateData (Some i) None None None) (cfg run0) 0) = Panic.
Proof.
  cbv zeta. apply zero_clock_panics.
  - intros i [= <-]. apply (bool_decide_unpack _); vm_compute; exact I.
  - eexists. split; [reflexivity|]. by left.
Defined.
