(* ===== verification/PnController.v ===== *)
(** The PROFINET controller: internal/profinetcontroller, the RPC client (rpc_client.go),
    the connection set-up (controller_ar.go), the discovery client (dcp_client.go), cyclic
    frames (controller_cyclic.go), and the values of tags and the dispatch of frames of
    scanner.go.

    The network is an argument [call] with a state of its own: what a sent packet gets
    back. The theorems put the device of [PnioRpc] there. *)

From S2P Require Export Prelude GoBytes GoText GoFloat GoValue Wire PnioBlocks PnioAr PnioRpc.
From S2P Require IoData Dcp PnioCyclic.

#[local] Open Scope Z_scope.

(** ** types.go *)

Record ControllerTag := mkCTag {
  TagID : string;
  ByteOffset : Z;
  BitOffset : Z;
  Datatype : string;
  cDirection : string;
}.

Record SubslotSubscription := mkSubSub {
  sSubslotNumber : Z;
  sSubmoduleIdentNo : Z;
  sInputSize : Z;
  sOutputSize : Z;
  sTags : list ControllerTag;
}.

Record SlotSubscription := mkSlotSub {
  sSlotNumber : Z;
  sModuleIdentNo : Z;
  sSubslots : list SubslotSubscription;
}.

Record ConnectParams := mkParams {
  pARUUID : list Z;
  pLocalMAC : list Z;
  pStationName : string;
  InputDataLen : Z;
  OutputDataLen : Z;
  pOutputFrameID : Z;
  CycleTimeMs : Z;
  pSlots : list SlotSubscription;
}.

Record ConnectResult := mkResult { rInputFrameID : Z; rSessionKey : Z }.

(** ** rpc_client.go: request blocks *)

Definition buildARBlockData (p : ConnectParams) : list Z :=
  put_u16 ARTypeIOCAR ++ field 16 (pARUUID p) ++ put_u16 1 ++ field 6 (pLocalMAC p) ++ replicate 16 0
  ++ put_u32 0x11 ++ put_u16 100 ++ put_u16 PNIOCMPort ++ put_u16 (wrapu 16 (Z.of_nat (str_len (pStationName p))))
  ++ string_bytes (pStationName p).

Definition reduction_ratio (cycleTimeMs : Z) : Z := if 1 <? cycleTimeMs then wrapu 16 cycleTimeMs else 1.

Definition buildIOCRData (iocrType iocrRef dataLen frameID cycleTimeMs : Z) : list Z :=
  put_u16 iocrType ++ put_u16 iocrRef ++ put_u16 0x8892 ++ put_u32 IOCRPropertyRTClass1 ++ put_u16 dataLen
  ++ put_u16 frameID ++ put_u16 32 ++ put_u16 (reduction_ratio cycleTimeMs) ++ put_u16 1 ++ put_u16 0
  ++ put_u32 0xFFFFFFFF ++ put_u16 10 ++ put_u16 3 ++ put_u16 0 ++ replicate 6 0 ++ put_u16 0.

Definition buildAlarmCRData : list Z :=
  put_u16 1 ++ put_u16 0x8892 ++ put_u32 0 ++ put_u16 10 ++ put_u16 3 ++ put_u16 1 ++ put_u16 200 ++ put_u16 0.

Definition desc_bytes (direction size : Z) : list Z :=
  put_u16 direction ++ put_u16 size ++ [1; 1] ++ [0; 0].

(** A subslot's header and data descriptions. *)
Definition sub_bytes (sub : SubslotSubscription) : list Z :=
  let inp := 0 <? sInputSize sub in
  let out := 0 <? sOutputSize sub in
  let header (subType : Z) := put_u16 (sSubslotNumber sub) ++ put_u32 (sSubmoduleIdentNo sub) ++ put_u16 subType in
  if inp && out then header 3 ++ desc_bytes 1 (sInputSize sub) ++ desc_bytes 2 (sOutputSize sub)
  else if inp then header 1 ++ desc_bytes 1 (sInputSize sub)
  else if out then header 2 ++ desc_bytes 2 (sOutputSize sub)
  else header 0.

Definition slot_bytes (slot : SlotSubscription) : list Z :=
  put_u16 (sSlotNumber slot) ++ put_u32 (sModuleIdentNo slot) ++ put_u16 0 ++ count16 (sSubslots slot)
  ++ concat (map sub_bytes (sSubslots slot)).

Definition buildExpectedSubmoduleData (slots : list SlotSubscription) : list Z :=
  match slots with
  | [] => put_u16 0
  | _ => put_u16 1 ++ put_u32 0 ++ count16 slots ++ concat (map slot_bytes slots)
  end.

Definition control_data (arUUID : list Z) (sessionKey controlCmd : Z) : list Z :=
  field 16 arUUID ++ put_u16 sessionKey ++ put_u16 0 ++ put_u16 controlCmd ++ replicate 2 0.

(** ** rpc_client.go: calls *)

Definition newActivityUUID (seq : Z) : list Z := [0xAC; 1] ++ replicate 10 0 ++ put_u32 seq.

Definition request_packet (seqNum opNum : Z) (arUUID pnioBlocks : list Z) : list Z :=
  let body := request_body pnioBlocks true in
  MarshalHeader (mkHeader RPCVersionCL RPCPTypeRequest (Z.lor RPCFlagLastFrag RPCFlagIdempotent) 0 [0x10; 0; 0] 0
    arUUID UUIDPNIOInterface (newActivityUUID seqNum) 0 1 seqNum opNum 0xFFFF 0xFFFF
    (wrapu 16 (Z.of_nat (length body))) 0 0 0) ++ body.

Definition hex2 (n : Z) : string := str [hex_digit (n / 16 mod 16); hex_digit (n mod 16)].

(** The blocks of a received packet. *)
Definition parse_response (pkt : list Z) : outcome (list Z) :=
  match ParseRPCHeader pkt with
  | Err e => Err ("parse header: " +:+ e)
  | Panic => Panic
  | Ok h =>
      if negb (PacketType h =? RPCPTypeResponse) then Err ("unexpected packet type: " +:+ itoa (PacketType h))
      else
        respBody ← slice pkt RPCHeaderSize (length pkt);
        if (length respBody <? 20)%nat then Err ("response body too short: " +:+ itoa (Z.of_nat (length respBody)))
        else
          e ← index respBody 0; d ← index respBody 1; c1 ← index respBody 2; c2 ← index respBody 3;
          if negb (IsOK (mkStatus e d c1 c2)) then
            Err ("PNIO error: " +:+ hex2 e +:+ " " +:+ hex2 d +:+ " " +:+ hex2 c1 +:+ " " +:+ hex2 c2)
          else
            respArgsLen ← get_int true 4 respBody 4;
            blockData ← slice respBody 20 (length respBody);
            if respArgsLen <? Z.of_nat (length blockData) then slice blockData 0 (Z.to_nat respArgsLen)
            else Ok blockData
  end.

(** The loop of [Connect] over the response blocks. *)
Definition result_block (r : ConnectResult) (b : PNIOBlock) : outcome ConnectResult :=
  if bType b =? BlockTypeIOCRBlockRes then
    if (6 <=? length (bData b))%nat then
      iocrType ← get_u16 (bData b) 0;
      frameID ← get_u16 (bData b) 4;
      Ok (if iocrType =? IOCRTypeInput then mkResult frameID (rSessionKey r) else r)
    else Ok r
  else if bType b =? BlockTypeARBlockRes then
    if (20 <=? length (bData b))%nat then
      key ← get_u16 (bData b) 18; Ok (mkResult (rInputFrameID r) key)
    else Ok r
  else Ok r.

Fixpoint result_blocks (r : ConnectResult) (bs : list PNIOBlock) : outcome ConnectResult :=
  match bs with
  | [] => Ok r
  | b :: bs' => r' ← result_block r b; result_blocks r' bs'
  end.

(** [fmt.Errorf(prefix + ": %w", err)] *)
Definition wrap_err {A} (prefix : string) (o : outcome A) : outcome A :=
  match o with Err e => Err (prefix +:+ ": " +:+ e) | _ => o end.

Section Client.
Context {N : Type} (call : N → list Z → outcome (list Z) * N).

(** The client: its sequence number, and the network. *)
Definition sendRPC (seqNum : Z) (net : N) (opNum : Z) (arUUID pnioBlocks : list Z)
    : outcome (list Z) * Z * N :=
  let seqNum := wrapu 32 (seqNum + 1) in
  let (r, net) := call net (request_packet seqNum opNum arUUID pnioBlocks) in
  (pkt ← r; parse_response pkt, seqNum, net).

(** The blocks of [Connect], each padded as it is appended. *)
Definition connect_request (p : ConnectParams) : list Z :=
  let add blocks type data := padTo4 (blocks ++ MarshalPNIOBlock type 1 0 data) in
  let blocks := add [] BlockTypeARBlockReq (buildARBlockData p) in
  let blocks := add blocks BlockTypeIOCRBlockReq (buildIOCRData IOCRTypeInput 1 (InputDataLen p) 0 (CycleTimeMs p)) in
  let blocks := add blocks BlockTypeIOCRBlockReq (buildIOCRData IOCRTypeOutput 2 (OutputDataLen p) (pOutputFrameID p) (CycleTimeMs p)) in
  let blocks := add blocks BlockTypeAlarmCRBlockReq buildAlarmCRData in
  add blocks BlockTypeExpectedSubmoduleReq (buildExpectedSubmoduleData (pSlots p)).

Definition Connect (seqNum : Z) (net : N) (p : ConnectParams) : outcome ConnectResult * Z * N :=
  let '(r, seqNum, net) := sendRPC seqNum net RPCOpConnect (pARUUID p) (connect_request p) in
  (respBody ← wrap_err "connect RPC" r;
   respBlocks ← wrap_err "parse response blocks" (ParsePNIOBlocks respBody);
   result_blocks (mkResult 0 0) respBlocks, seqNum, net).

Definition Control (seqNum : Z) (net : N) (arUUID : list Z) (sessionKey controlCmd : Z) : outcome unit * Z * N :=
  let blockType := if controlCmd =? ControlCmdPrmEnd then BlockTypeARRPCBlockReq else BlockTypeIODControlReq in
  let '(r, seqNum, net) := sendRPC seqNum net RPCOpControl arUUID
    (MarshalPNIOBlock blockType 1 0 (control_data arUUID sessionKey controlCmd)) in
  (_ ← wrap_err ("control RPC (cmd=" +:+ itoa controlCmd +:+ ")") r; Ok (), seqNum, net).

Definition Release (seqNum : Z) (net : N) (arUUID : list Z) (sessionKey : Z) : outcome unit * Z * N :=
  let '(r, seqNum, net) := sendRPC seqNum net RPCOpRelease arUUID
    (MarshalPNIOBlock BlockTypeIODControlReq 1 0 (control_data arUUID sessionKey ControlCmdRelease)) in
  (_ ← r; Ok (), seqNum, net).

(** ** controller_ar.go *)

Inductive CState : Set := CClosed | CConnected | CData.

Record ControllerAR := mkCAR {
  cParams : ConnectParams;
  cSessionKey : Z;
  cState : CState;
  cInputFrameID : Z;
  cSeq : Z;
}.

(** [inputLen], [outputLen]: uint16 sums. *)
Definition data_length (size : SubslotSubscription → Z) (slots : list SlotSubscription) : Z :=
  fold_left (λ acc s, wrapu 16 (acc + size s)) (concat (map sSubslots slots)) 0.

(** The random UUID is an argument. *)
Definition NewControllerAR (uuid localMAC : list Z) (stationName : string) (slots : list SlotSubscription) (cycleTimeMs : Z)
    : ControllerAR :=
  mkCAR (mkParams uuid localMAC stationName (data_length sInputSize slots) (data_length sOutputSize slots) 0xC010
    cycleTimeMs slots) 0 CClosed 0 0.

Definition Establish (ar : ControllerAR) (net : N) : outcome unit * ControllerAR * N :=
  let p := cParams ar in
  let '(r, seq, net) := Connect (cSeq ar) net p in
  match r with
  | Err e => (Err ("connect: " +:+ e), mkCAR p (cSessionKey ar) (cState ar) (cInputFrameID ar) seq, net)
  | Panic => (Panic, ar, net)
  | Ok result =>
      let '(r, seq, net) := Control seq net (pARUUID p) (rSessionKey result) ControlCmdPrmEnd in
      match r with
      | Err e => (Err ("prmEnd: " +:+ e), mkCAR p (rSessionKey result) CConnected (rInputFrameID result) seq, net)
      | Panic => (Panic, ar, net)
      | Ok _ => (Ok (), mkCAR p (rSessionKey result) CData (rInputFrameID result) seq, net)
      end
  end.

Definition ReleaseAR (ar : ControllerAR) (net : N) : outcome unit * ControllerAR * N :=
  match cState ar with
  | CClosed => (Ok (), ar, net)
  | _ =>
      let '(r, seq, net) := Release (cSeq ar) net (pARUUID (cParams ar)) (cSessionKey ar) in
      (r, mkCAR (cParams ar) (cSessionKey ar) CClosed (cInputFrameID ar) seq, net)
  end.

End Client.

(** ** dcp_client.go *)

Record DiscoveredDevice := mkDiscovered {
  dMAC : list Z;
  dStationName : string;
  dVendorID : Z;
  dDeviceID : Z;
  dIP : list Z;
  dMask : list Z;
  dGateway : list Z;
}.

Definition IdentifyAll_request (xid : Z) : Dcp.DCPFrame :=
  Dcp.mkDCPFrame Dcp.FrameIDDCPIdentReq Dcp.DCPServiceIdentify Dcp.DCPServiceTypeRequest xid 1
    [Dcp.mkDCPBlock Dcp.DCPOptionAllSelector 0xFF []].

Definition IdentifyByName_request (xid : Z) (stationName : string) : Dcp.DCPFrame :=
  Dcp.mkDCPFrame Dcp.FrameIDDCPIdentReq Dcp.DCPServiceIdentify Dcp.DCPServiceTypeRequest xid 1
    [Dcp.mkDCPBlock Dcp.DCPOptionDeviceProperties Dcp.DCPSubOptionDevNameOfStation (string_bytes stationName)].

(** A response delivered to the channel; other frames are dropped. *)
Definition HandleResponse (payload : list Z) : outcome (option Dcp.DCPFrame) :=
  match Dcp.ParseDCPFrame payload with
  | Ok f => Ok (if Dcp.ServiceType f =? Dcp.DCPServiceTypeResponse then Some f else None)
  | Err _ => Ok None
  | Panic => Panic
  end.

(** One block of [parseDCPResponse]; a failed [ParseIPSuiteBlock] gives nil addresses. *)
Definition response_block (dev : DiscoveredDevice) (b : Dcp.DCPBlock) : outcome DiscoveredDevice :=
  let data := Dcp.bData b in
  if Dcp.is_block b Dcp.DCPOptionDeviceProperties Dcp.DCPSubOptionDevNameOfStation then
    Ok (if (2 <=? length data)%nat
        then mkDiscovered (dMAC dev) (bytes_string (drop 2 data)) (dVendorID dev) (dDeviceID dev) (dIP dev) (dMask dev) (dGateway dev)
        else dev)
  else if Dcp.is_block b Dcp.DCPOptionDeviceProperties Dcp.DCPSubOptionDevID then
    if (6 <=? length data)%nat then
      v ← get_u16 data 2; d ← get_u16 data 4;
      Ok (mkDiscovered (dMAC dev) (dStationName dev) v d (dIP dev) (dMask dev) (dGateway dev))
    else Ok dev
  else if Dcp.is_block b Dcp.DCPOptionIP Dcp.DCPSubOptionIPSuite then
    match Dcp.ParseIPSuiteBlock data with
    | Ok (a, m, g) => Ok (mkDiscovered (dMAC dev) (dStationName dev) (dVendorID dev) (dDeviceID dev) a m g)
    | Err _ => Ok (mkDiscovered (dMAC dev) (dStationName dev) (dVendorID dev) (dDeviceID dev) [] [] [])
    | Panic => Panic
    end
  else Ok dev.

Fixpoint response_blocks (dev : DiscoveredDevice) (bs : list Dcp.DCPBlock) : outcome DiscoveredDevice :=
  match bs with
  | [] => Ok dev
  | b :: bs' => dev' ← response_block dev b; response_blocks dev' bs'
  end.

Definition parseDCPResponse (srcMAC : list Z) (f : Dcp.DCPFrame) : outcome DiscoveredDevice :=
  response_blocks (mkDiscovered srcMAC "" 0 0 [] [] []) (Dcp.Blocks f).
