(* ===== verification/PnHandshake.v ===== *)
(** A controller and a device connected: the RPC client of [PnController] over the RPC
    server of [PnioRpc]. The network delivers every datagram, in both directions. *)

From S2P Require Export PnController.

#[local] Open Scope Z_scope.

(** The device at the other end: its server and the effects it started. A request without
    an answer is the client's read timeout. *)
Definition device_call (from : string) (ts : Z) (d : RPCServer * list effect) (pkt : list Z)
    : outcome (list Z) * (RPCServer * list effect) :=
  match handlePacket (fst d) pkt from ts with
  | Ok (resp :: _, s, effs) => (Ok resp, (s, snd d ++ effs))
  | Ok ([], s, effs) => (Err "recv: i/o timeout", (s, snd d ++ effs))
  | _ => (Err "recv: i/o timeout", d)
  end.

(** ** Sequences of blocks as both sides write them *)

Lemma padTo4_app pre b : (length pre mod 4 = 0)%nat → padTo4 (pre ++ block_bytes b) = pre ++ padded b.
Proof.
  intros Hp. unfold padTo4, padded. rewrite <- app_assoc. do 2 f_equal. f_equal. unfold pad4.
  rewrite length_app, align4_add by done. lia.
Qed.

Lemma padTo4_aligned l : (length l mod 4 = 0)%nat → padTo4 l = l.
Proof.
  intros H. unfold padTo4, pad4, align4. rewrite H, Nat.eqb_refl, Nat.sub_diag. apply app_nil_r.
Qed.

Lemma padTo4_blocks bs b : padTo4 (concat (map padded bs) ++ block_bytes b) = concat (map padded (bs ++ [b])).
Proof.
  rewrite padTo4_app by apply concat_padded_aligned. rewrite map_app, concat_app. cbn [map concat]. by rewrite app_nil_r.
Qed.

(** A block whose bytes are a multiple of four needs no padding. *)
Lemma padded_aligned b : (length (bData b) mod 4 = 2)%nat → padded b = block_bytes b.
Proof.
  intros H. unfold padded, pad4, align4. rewrite length_pnio_block.
  replace ((6 + length (bData b)) mod 4)%nat with 0%nat.
  - rewrite Nat.eqb_refl, Nat.sub_diag. apply app_nil_r.
  - by rewrite Nat.Div0.add_mod, H.
Qed.

Definition request_block (type : Z) (data : list Z) : PNIOBlock := mkBlock type (2 + Z.of_nat (length data)) 1 0 data.

Lemma request_block_bytes type data : MarshalPNIOBlock type 1 0 data = block_bytes (request_block type data).
Proof. done. Qed.

Lemma wf_request_block type data : in_u 16 type → Z.of_nat (length data) < 65534 → wf_block (request_block type data).
Proof. intros Ht Hd. constructor; cbn [request_block bType bLength VersionHigh VersionLow bData]; try done. lia. Qed.

Lemma padded_all bs : Forall (λ b, padded b = block_bytes b) bs → concat (map padded bs) = concat (map block_bytes bs).
Proof. induction 1 as [|b bs Hb _ IH]; [done|]. cbn [map concat]. by rewrite Hb, IH. Qed.

Lemma ParsePNIOBlocks_concat bs : Forall wf_block bs → ParsePNIOBlocks (concat (map padded bs)) = Ok bs.
Proof. intros Hb. rewrite <- (app_nil_r (concat _)). apply ParsePNIOBlocks_padded; [done|cbn; lia]. Qed.

Lemma ParsePNIOBlocks_aligned bs : Forall wf_block bs → Forall (λ b, padded b = block_bytes b) bs →
  ParsePNIOBlocks (concat (map block_bytes bs)) = Ok bs.
Proof. intros Hb Hp. rewrite <- padded_all by done. by apply ParsePNIOBlocks_concat. Qed.

(** ** Calls *)

(** What the client sends is a well-formed request header and the body. *)
Definition client_header (seqNum opNum : Z) (uuid blocks : list Z) : RPCHeader :=
  mkHeader RPCVersionCL RPCPTypeRequest (Z.lor RPCFlagLastFrag RPCFlagIdempotent) 0 [0x10; 0; 0] 0
    uuid UUIDPNIOInterface (newActivityUUID seqNum) 0 1 seqNum opNum 0xFFFF 0xFFFF
    (wrapu 16 (Z.of_nat (length (request_body blocks true)))) 0 0 0.

Lemma wf_client_header seqNum opNum uuid blocks : in_u 32 seqNum → in_u 16 opNum → length uuid = 16%nat →
  wf_header (client_header seqNum opNum uuid blocks).
Proof.
  intros Hs Ho Hu. constructor; cbn [client_header DataRep ObjectUUID InterfaceUUID hActivityUUID ServerBootTime
    InterfaceVersion SequenceNum OpNum InterfaceHint ActivityHint FragmentLen FragmentNum]; try done.
  apply wrapu_range. lia.
Qed.

(** The client reads the blocks of the device's answer, or the error status in it. *)
Lemma parse_response_sendResponse s h status blocks : wf_header h → in_u 32 (bootTime s) →
  Z.of_nat (length blocks) < 2 ^ 32 → length (status_bytes status) = 4%nat →
  is_err (parse_response (sendResponse s h status blocks true)) = negb (IsOK status) ∧
  (IsOK status = true → parse_response (sendResponse s h status blocks true) = Ok blocks).
Proof.
  intros [H1 H2 H3 H4 H5 H6 H7 H8 H9 H10 H11 H12] Hb Hn Hst. unfold parse_response, sendResponse.
  set (body := MarshalPNIOResponseBody status blocks true).
  set (flags := if negb (Z.land (Flags1 h) RPCFlagIdempotent =? 0) then _ else _).
  assert (Hwf : wf_header (response_header s h flags body)) by (constructor; try done; apply wrapu_range; lia).
  rewrite ParseRPCHeader_Marshal by done. change (PacketType (response_header s h flags body)) with RPCPTypeResponse.
  cbn [negb Z.eqb RPCPTypeResponse Pos.eqb].
  assert (Hlen : length body = (20 + length blocks)%nat).
  { unfold body, MarshalPNIOResponseBody. rewrite !length_app, Hst, !length_put_int. lia. }
  pose proof (length_MarshalHeader _ Hwf) as Hh. unfold RPCHeaderSize. rewrite length_app, Hh.
  rewrite (slice_skip _ body 80 _ 80 0) by (done || lia). rewrite slice_all by lia. cbn [mbind outcome_bind].
  rewrite (proj2 (Nat.ltb_ge _ _)) by lia. clearbody flags. rewrite Hlen. unfold body, MarshalPNIOResponseBody.
  rewrite (wrapu_small 32) by (unfold in_u; lia). destruct status as [a b c d]. unfold status_bytes in *. cbn [ErrorCode ErrorDecode ErrorCode1 ErrorCode2] in *.
  wire_read. destruct (IsOK _) eqn:Hok; cbn [negb]; [|done].
  wire_read. rewrite slice_all by lia. wire_read.
  rewrite Z.mod_small by (change (8 * Z.of_nat 4) with 32; lia). by rewrite (proj2 (Z.ltb_ge _ _)) by lia.
Qed.

(** A call that the device answers with status OK gives the client the blocks of the answer. *)
Lemma sendRPC_answered from ts s effs0 seqNum opNum uuid blocks resp status s' effs :
  let seqNum' := wrapu 32 (seqNum + 1) in
  let h := client_header seqNum' opNum uuid blocks in
  in_u 16 opNum → length uuid = 16%nat → in_u 32 (bootTime s) → Z.of_nat (length resp) < 2 ^ 32 →
  IsOK status = true →
  handlePNIORequest s h (request_body blocks true) from = Ok ([sendResponse s h status resp true], s', effs) →
  sendRPC (device_call from ts) seqNum (s, effs0) opNum uuid blocks = (Ok resp, seqNum', (s', effs0 ++ effs)).
Proof.
  cbv zeta. intros Hop Hu Hb Hlen Hok Hreq.
  assert (Hwf : wf_header (client_header (wrapu 32 (seqNum + 1)) opNum uuid blocks))
    by (apply wf_client_header; [apply wrapu_range; lia|done|done]).
  unfold sendRPC. change (request_packet _ _ _ _) with
    (MarshalHeader (client_header (wrapu 32 (seqNum + 1)) opNum uuid blocks) ++ request_body blocks true).
  unfold device_call, handlePacket. cbn [fst snd]. rewrite ParseRPCHeader_Marshal by done.
  cbn [client_header RPCVersion PacketType InterfaceUUID negb Z.eqb RPCVersionCL Pos.eqb RPCPTypeRequest].
  rewrite decide_True by done. rewrite drop_app_length' by (by rewrite length_MarshalHeader).
  fold (client_header (wrapu 32 (seqNum + 1)) opNum uuid blocks). rewrite Hreq. cbn [mbind outcome_bind].
  destruct (parse_response_sendResponse s _ status resp Hwf Hb Hlen) as [_ ->]; [by destruct status|done|done].
Qed.

(** ** Connect *)

(** What the controller asks for. *)
Record wf_params (p : ConnectParams) : Prop := {
  wfp_uuid : length (pARUUID p) = 16%nat;
  wfp_mac : length (pLocalMAC p) = 6%nat;
  wfp_name : Z.of_nat (str_len (pStationName p)) < 65000;
  wfp_in : in_u 16 (InputDataLen p);
  wfp_out : in_u 16 (OutputDataLen p);
  wfp_frame : in_u 16 (pOutputFrameID p);
  wfp_slots : Z.of_nat (length (buildExpectedSubmoduleData (pSlots p))) < 65534;
}.

Lemma field_exact n l : length l = n → field n l = l.
Proof. intros <-. unfold field. apply copy_into_same. apply length_replicate. Qed.

Lemma ParseARBlockReq_build p : wf_params p →
  ParseARBlockReq (buildARBlockData p) =
  Ok (mkAR ARTypeIOCAR (pARUUID p) 1 (pLocalMAC p) (replicate 16 0) 0x11 100 PNIOCMPort (pStationName p)).
Proof.
  intros [Hu Hm Hn _ _ _ _]. unfold ParseARBlockReq, buildARBlockData. rewrite !field_exact by done.
  pose proof (length_string_bytes (pStationName p)) as Hsl.
  rewrite !length_app, !length_be_bytes, Hu, Hm, length_replicate, Hsl.
  rewrite (proj2 (Nat.ltb_ge _ _)) by lia. wire_read.
  rewrite (wrapu_small 16 (Z.of_nat _)) by (unfold in_u; lia).
  rewrite (Z.mod_small (Z.of_nat _)) by (change (8 * Z.of_nat 2) with 16; lia).
  rewrite wrapu_small by (unfold in_u; lia). rewrite (proj2 (Z.ltb_ge _ _)) by lia.
  replace (Z.to_nat (52 + Z.of_nat (str_len (pStationName p)))) with (52 + str_len (pStationName p))%nat by lia.
  wire_read. rewrite slice_all by (rewrite Hsl; lia). wire_read. by rewrite bytes_string_bytes.
Qed.

Lemma ParseIOCRBlockReq_build type ref len frameID cycle :
  in_u 16 type → in_u 16 ref → in_u 16 len → in_u 16 frameID →
  ParseIOCRBlockReq (buildIOCRData type ref len frameID cycle) =
  Ok (mkIOCR type ref 0x8892 1 len frameID 32 (reduction_ratio cycle) 1 0 0xFFFFFFFF 10 3 0 (replicate 6 0) 0 []).
Proof.
  intros Ht Hr Hl Hf. assert (Hrr : in_u 16 (reduction_ratio cycle)).
  { unfold reduction_ratio. case_if; [apply wrapu_range; lia|done]. }
  unfold ParseIOCRBlockReq, buildIOCRData. rewrite !length_app, !length_be_bytes, length_replicate. cbn [Nat.add Nat.ltb Nat.leb].
  wire_read. by rewrite !(Z.mod_small _ (2 ^ (8 * Z.of_nat 2))) by done.
Qed.

Lemma ParseExpectedSubmoduleReq_build slots : ∃ ex, ParseExpectedSubmoduleReq (buildExpectedSubmoduleData slots) = Ok ex.
Proof.
  unfold ParseExpectedSubmoduleReq. rewrite (proj2 (Nat.ltb_ge _ _)).
  - destruct slots; unfold buildExpectedSubmoduleData; rewrite ?length_app, get_be_ok by (rewrite ?length_app, length_be_bytes; lia).
    all: cbn [mbind outcome_bind]; apply parse_expected_apis_ok.
  - destruct slots; unfold buildExpectedSubmoduleData; rewrite ?length_app, length_be_bytes; lia.
Qed.

Definition connect_blocks (p : ConnectParams) : list PNIOBlock :=
  [request_block BlockTypeARBlockReq (buildARBlockData p);
   request_block BlockTypeIOCRBlockReq (buildIOCRData IOCRTypeInput 1 (InputDataLen p) 0 (CycleTimeMs p));
   request_block BlockTypeIOCRBlockReq
     (buildIOCRData IOCRTypeOutput 2 (OutputDataLen p) (pOutputFrameID p) (CycleTimeMs p));
   request_block BlockTypeAlarmCRBlockReq buildAlarmCRData;
   request_block BlockTypeExpectedSubmoduleReq (buildExpectedSubmoduleData (pSlots p))].

Lemma connect_request_blocks p : connect_request p = concat (map padded (connect_blocks p)).
Proof.
  unfold connect_request. rewrite !request_block_bytes.
  change (padTo4 ([] ++ ?b)) with (padTo4 (concat (map padded []) ++ b)). by rewrite !padTo4_blocks.
Qed.

Lemma wf_connect_blocks p : wf_params p → Forall wf_block (connect_blocks p).
Proof.
  intros [Hu Hm Hn _ _ _ Hs]. pose proof (length_string_bytes (pStationName p)) as Hsl.
  repeat (apply List.Forall_cons || apply List.Forall_nil); apply wf_request_block; try done.
  unfold buildARBlockData. rewrite !field_exact by done.
  rewrite !length_app, !length_be_bytes, Hu, Hm, length_replicate, Hsl. lia.
Qed.

Lemma length_connect_request p : wf_params p → Z.of_nat (length (connect_request p)) < 2 ^ 32.
Proof.
  intros Hp. rewrite connect_request_blocks. pose proof (wf_connect_blocks p Hp) as Hw. revert Hw.
  assert (Hpad : ∀ b, wf_block b → Z.of_nat (length (padded b)) < 2 ^ 17).
  { intros b [_ _ _ Hl Hsz]. rewrite length_padded, length_pnio_block.
    pose proof (align4_spec (6 + length (bData b))). lia. }
  unfold connect_blocks. intros Hw. cbn [map concat]. rewrite !length_app. cbn [length].
  repeat (apply Forall_cons_1 in Hw as [?%Hpad Hw]). lia.
Qed.

(** The connection the device sets up for the request. *)
Definition connected_ar (p : ConnectParams) (from : string) (act : list Z) (ex : list ExpectedAPI) (frameID : Z) : AR :=
  let rr := reduction_ratio (CycleTimeMs p) in
  mkARel (pARUUID p) ARTypeIOCAR 1 (pLocalMAC p) from act ARStateConnected
    (Some (mkIOCRInfo IOCRTypeInput 1 frameID (InputDataLen p) 32 rr 10 3 []))
    (Some (mkIOCRInfo IOCRTypeOutput 2 (pOutputFrameID p) (OutputDataLen p) 32 rr 10 3 []))
    (Some (mkAlarmInfo 1 1 1 200)) (Some ex).

(** The blocks of the answer. *)
Definition answer_blocks (p : ConnectParams) (mac : list Z) (frameID : Z) : list PNIOBlock :=
  [request_block BlockTypeARBlockRes (put_u16 ARTypeIOCAR ++ field 16 (pARUUID p) ++ put_u16 1 ++ field 6 mac);
   request_block BlockTypeIOCRBlockRes (put_u16 IOCRTypeInput ++ put_u16 1 ++ put_u16 frameID);
   request_block BlockTypeIOCRBlockRes (put_u16 IOCRTypeOutput ++ put_u16 2 ++ put_u16 (pOutputFrameID p));
   request_block BlockTypeAlarmCRBlockRes (put_u16 1 ++ put_u16 1 ++ put_u16 200);
   request_block BlockTypeModuleDiffBlock (put_u16 0)].

Lemma length_field n l : length (field n l) = n.
Proof. unfold field. rewrite length_copy_into. apply length_replicate. Qed.

Lemma answer_blocks_wf p mac frameID :
  Forall wf_block (answer_blocks p mac frameID) ∧ Forall (λ b, padded b = block_bytes b) (answer_blocks p mac frameID).
Proof.
  unfold answer_blocks. split; repeat (apply List.Forall_cons || apply List.Forall_nil);
    try (apply wf_request_block); try (apply padded_aligned; unfold request_block; cbn [bData]); try done.
  all: by rewrite !length_app, !length_field, !length_be_bytes.
Qed.

Lemma HandleConnect_request m p from act : wf_params p →
  ∃ ex, HandleConnect m (connect_blocks p) from act =
    Ok (Some (concat (map block_bytes (answer_blocks p (localMAC m) (nextFrameID m)))), PNIOStatusOK,
        with_ars (snd (allocFrameID m)) (<[pARUUID p := connected_ar p from act ex (nextFrameID m)]> (ars m))).
Proof.
  intros Hp. destruct (ParseExpectedSubmoduleReq_build (pSlots p)) as [ex Hex]. exists ex.
  pose proof (ParseARBlockReq_build p Hp) as Har.
  pose proof (wfp_in p Hp) as Hin. pose proof (wfp_out p Hp) as Hout. pose proof (wfp_frame p Hp) as Hfr.
  unfold HandleConnect, connect_blocks. cbn [collect_blocks].
  unfold collect_block, request_block. cbn [bType bData].
  change (BlockTypeARBlockReq =? BlockTypeARBlockReq) with true. cbv iota. rewrite Har. cbn [mbind outcome_bind].
  change (BlockTypeIOCRBlockReq =? BlockTypeARBlockReq) with false.
  change (BlockTypeIOCRBlockReq =? BlockTypeIOCRBlockReq) with true. cbv iota.
  rewrite !ParseIOCRBlockReq_build by done. cbn [mbind outcome_bind].
  change (BlockTypeAlarmCRBlockReq =? BlockTypeARBlockReq) with false.
  change (BlockTypeAlarmCRBlockReq =? BlockTypeIOCRBlockReq) with false.
  change (BlockTypeAlarmCRBlockReq =? BlockTypeAlarmCRBlockReq) with true. cbv iota.
  change (ParseAlarmCRBlockReq buildAlarmCRData) with (Ok (mkAlarmCR 1 0x8892 0 10 3 1 200 0)). cbn [mbind outcome_bind].
  change (BlockTypeExpectedSubmoduleReq =? BlockTypeARBlockReq) with false.
  change (BlockTypeExpectedSubmoduleReq =? BlockTypeIOCRBlockReq) with false.
  change (BlockTypeExpectedSubmoduleReq =? BlockTypeAlarmCRBlockReq) with false.
  change (BlockTypeExpectedSubmoduleReq =? BlockTypeExpectedSubmoduleReq) with true. cbv iota.
  rewrite Hex. cbn [mbind outcome_bind arBlock iocrBlocks alarmBlock expectedBlock app].
  cbn [connect_iocrs IOCRType]. change (IOCRTypeInput =? IOCRTypeInput) with true.
  change (IOCRTypeOutput =? IOCRTypeInput) with false. change (IOCRTypeOutput =? IOCRTypeOutput) with true. cbv iota.
  unfold allocFrameID. cbn [fst snd]. destruct (answer_blocks_wf p (localMAC m) (nextFrameID m)) as [_ Hpad].
  set (Y := concat (map block_bytes (answer_blocks p (localMAC m) (nextFrameID m)))).
  match goal with |- Ok (Some (padTo4 ?X), _, _) = _ => assert (Hcat : X = Y) end.
  { unfold Y, answer_blocks. cbn [map concat]. by rewrite app_nil_r, <- !app_assoc. }
  rewrite Hcat, padTo4_aligned; [done|]. unfold Y. rewrite <- padded_all by done. apply concat_padded_aligned.
Qed.

Lemma result_blocks_answer p mac frameID : in_u 16 frameID →
  result_blocks (mkResult 0 0) (answer_blocks p mac frameID) = Ok (mkResult frameID 1).
Proof.
  intros Hf. pose proof (length_field 16 (pARUUID p)) as Lu.
  unfold answer_blocks. cbn [result_blocks]. unfold result_block, request_block. cbn [bType bData].
  change (BlockTypeARBlockRes =? BlockTypeIOCRBlockRes) with false.
  change (BlockTypeARBlockRes =? BlockTypeARBlockRes) with true.
  change (BlockTypeIOCRBlockRes =? BlockTypeIOCRBlockRes) with true.
  change (BlockTypeAlarmCRBlockRes =? BlockTypeIOCRBlockRes) with false.
  change (BlockTypeAlarmCRBlockRes =? BlockTypeARBlockRes) with false.
  change (BlockTypeModuleDiffBlock =? BlockTypeIOCRBlockRes) with false.
  change (BlockTypeModuleDiffBlock =? BlockTypeARBlockRes) with false. cbv iota.
  rewrite !length_app, !length_field, !length_be_bytes. cbn [Nat.add Nat.leb]. wire_read.
  change (rInputFrameID (mkResult 0 0)) with 0. wire_read. by rewrite (Z.mod_small frameID) by exact Hf.
Qed.

Lemma Connect_device from ts s effs seqNum p :
  wf_params p → in_u 32 (bootTime s) → in_u 16 (nextFrameID (arMgr s)) →
  let frameID := nextFrameID (arMgr s) in
  ∃ ex, Connect (device_call from ts) seqNum (s, effs) p =
    (Ok (mkResult frameID 1), wrapu 32 (seqNum + 1),
     (with_mgr s (with_ars (snd (allocFrameID (arMgr s)))
        (<[pARUUID p := connected_ar p from (newActivityUUID (wrapu 32 (seqNum + 1))) ex frameID]> (ars (arMgr s)))),
      effs)).
Proof.
  cbv zeta. intros Hp Hb Hf. set (seq' := wrapu 32 (seqNum + 1)).
  destruct (HandleConnect_request (arMgr s) p from (newActivityUUID seq') Hp) as [ex Hc]. exists ex.
  destruct (answer_blocks_wf p (localMAC (arMgr s)) (nextFrameID (arMgr s))) as [Hwf Hpad].
  set (Y := concat (map block_bytes (answer_blocks p (localMAC (arMgr s)) (nextFrameID (arMgr s))))) in *.
  match type of Hc with _ = Ok (_, _, ?m) =>
    unfold Connect; rewrite (sendRPC_answered from ts s effs seqNum RPCOpConnect (pARUUID p) (connect_request p)
      Y PNIOStatusOK (with_mgr s m) []) end.
  - fold seq'. cbn [wrap_err mbind outcome_bind]. unfold Y. rewrite ParsePNIOBlocks_aligned by done. cbn [mbind outcome_bind wrap_err].
    rewrite result_blocks_answer by done. rewrite app_nil_r. reflexivity.
  - done.
  - apply Hp.
  - done.
  - unfold Y. rewrite <- padded_all by done. unfold answer_blocks. cbn [map concat].
    rewrite !length_app, !length_padded, !length_pnio_block. unfold request_block. cbn [bData].
    by rewrite !length_app, !length_field, !length_be_bytes.
  - done.
  - unfold handlePNIORequest. cbn [client_header OpNum]. change (RPCOpConnect =? RPCOpConnect) with true. cbv iota.
    unfold handleConnect, with_body. change (IsLittleEndian _) with true.
    rewrite ParsePNIORequestBody_request by (by apply length_connect_request).
    rewrite connect_request_blocks, ParsePNIOBlocks_concat by (by apply wf_connect_blocks).
    cbn [mbind outcome_bind]. cbn [client_header hActivityUUID]. fold seq'. rewrite Hc. cbn [mbind outcome_bind].
    reflexivity.
Qed.

(** ** Control and release *)

Lemma length_control_data uuid key cmd : length (control_data uuid key cmd) = 24%nat.
Proof. unfold control_data. by rewrite !length_app, length_field, !length_be_bytes, length_replicate. Qed.

Lemma control_data_reads uuid key cmd : length uuid = 16%nat → in_u 16 key → in_u 16 cmd →
  slice (control_data uuid key cmd) 0 16 = Ok uuid ∧ get_u16 (control_data uuid key cmd) 16 = Ok key ∧
  get_u16 (control_data uuid key cmd) 20 = Ok cmd.
Proof.
  intros Hu Hk Hc. unfold control_data. rewrite field_exact by done.
  split; [|split]; wire_read; [done|by rewrite Z.mod_small by exact Hk|by rewrite Z.mod_small by exact Hc].
Qed.

Lemma ParsePNIOBlocks_one type data : in_u 16 type → Z.of_nat (length data) < 65534 →
  ParsePNIOBlocks (MarshalPNIOBlock type 1 0 data) = Ok [request_block type data].
Proof. intros Ht Hd. rewrite request_block_bytes. apply (ParsePNIOBlocks_last []); [done|]. by apply wf_request_block. Qed.

Lemma length_control_res uuid key cmd : length (MarshalIODControlRes uuid key cmd) = 34%nat.
Proof.
  unfold MarshalIODControlRes, MarshalPNIOBlock.
  by rewrite !length_app, length_field, !length_be_bytes, length_replicate.
Qed.

Lemma Control_prmEnd_device from ts s effs seqNum uuid ar :
  length uuid = 16%nat → in_u 32 (bootTime s) → ars (arMgr s) !! uuid = Some ar →
  Control (device_call from ts) seqNum (s, effs) uuid 1 ControlCmdPrmEnd =
  (Ok (), wrapu 32 (seqNum + 1),
   (with_mgr s (with_ars (arMgr s) (<[uuid := with_state ar ARStateWaitAppReady]> (ars (arMgr s)))), effs ++ [GoReady uuid])).
Proof.
  intros Hu Hb Hin. unfold Control. change (ControlCmdPrmEnd =? ControlCmdPrmEnd) with true. cbv iota.
  destruct (control_data_reads uuid 1 ControlCmdPrmEnd Hu) as (R1 & R2 & R3); [done..|].
  rewrite (sendRPC_answered from ts s effs seqNum RPCOpControl uuid _ (MarshalIODControlRes uuid 1 ControlCmdDone)
    PNIOStatusOK (with_mgr s (with_ars (arMgr s) (<[uuid := with_state ar ARStateWaitAppReady]> (ars (arMgr s))))) [GoReady uuid]).
  - done.
  - done.
  - done.
  - done.
  - by rewrite length_control_res.
  - done.
  - unfold handlePNIORequest. cbn [client_header OpNum]. change (RPCOpControl =? RPCOpConnect) with false.
    change (RPCOpControl =? RPCOpRelease) with false. change (RPCOpControl =? RPCOpRead) with false.
    change (RPCOpControl =? RPCOpWrite) with false. change (RPCOpControl =? RPCOpControl) with true. cbv iota.
    unfold handleControl, with_body. change (IsLittleEndian _) with true.
    rewrite ParsePNIORequestBody_request
      by (unfold MarshalPNIOBlock; rewrite !length_app, !length_be_bytes, length_control_data; done).
    rewrite ParsePNIOBlocks_one by (done || by rewrite length_control_data). cbn [mbind outcome_bind].
    unfold HandleControl. cbn [control_blocks]. unfold request_block. cbn [bType bData].
    rewrite length_control_data. change (BlockTypeARRPCBlockReq =? BlockTypeIODControlReq) with false.
    change (BlockTypeARRPCBlockReq =? BlockTypeARRPCBlockReq) with true. cbn [negb andb Nat.ltb Nat.leb].
    rewrite R1, R2, R3. cbn [mbind outcome_bind]. rewrite Hin.
    change (ControlCmdPrmEnd =? ControlCmdPrmEnd) with true. reflexivity.
Qed.

Lemma Release_device from ts s effs seqNum uuid ar :
  length uuid = 16%nat → in_u 32 (bootTime s) → ars (arMgr s) !! uuid = Some ar →
  Release (device_call from ts) seqNum (s, effs) uuid 1 =
  (Ok (), wrapu 32 (seqNum + 1),
   (with_mgr s (with_ars (arMgr s) (delete uuid (ars (arMgr s)))), effs ++ [CyclicStop ar])).
Proof.
  intros Hu Hb Hin. unfold Release.
  rewrite (sendRPC_answered from ts s effs seqNum RPCOpRelease uuid _ (MarshalIODControlRes uuid (arSessionKey ar) ControlCmdDone)
    PNIOStatusOK (with_mgr s (with_ars (arMgr s) (delete uuid (ars (arMgr s))))) [CyclicStop ar]).
  - done.
  - done.
  - done.
  - done.
  - by rewrite length_control_res.
  - done.
  - unfold handlePNIORequest. cbn [client_header OpNum]. change (RPCOpRelease =? RPCOpConnect) with false.
    change (RPCOpRelease =? RPCOpRelease) with true. cbv iota.
    unfold handleRelease, with_body. change (IsLittleEndian _) with true.
    rewrite ParsePNIORequestBody_request
      by (unfold MarshalPNIOBlock; rewrite !length_app, !length_be_bytes, length_control_data; done).
    rewrite ParsePNIOBlocks_one by (done || by rewrite length_control_data). cbn [mbind outcome_bind].
    cbn [ObjectUUID client_header]. unfold HandleRelease. by rewrite Hin.
Qed.

(** ** The session *)

Definition data_ar (p : ConnectParams) (from : string) (act : list Z) (ex : list ExpectedAPI) (frameID : Z) : AR :=
  with_state (connected_ar p from act ex frameID) ARStateData.

Lemma session_spec from ts s ar :
  let p := cParams ar in
  wf_params p → in_u 32 (bootTime s) → in_u 16 (nextFrameID (arMgr s)) →
  let frameID := nextFrameID (arMgr s) in
  ∃ ex car s1, 
    Establish (device_call from ts) ar (s, []) = (Ok (), car, (s1, [GoReady (pARUUID p)])) ∧
    car = mkCAR p 1 CData frameID (wrapu 32 (cSeq ar + 2)) ∧
    nextFrameID (arMgr s1) = nextFrameID (snd (allocFrameID (arMgr s))) ∧
    let dar := data_ar p from (newActivityUUID (wrapu 32 (cSeq ar + 1))) ex frameID in
    ∃ m2, applicationReady (arMgr s1) (pARUUID p) = (m2, [CyclicStart dar]) ∧
      ars m2 = <[pARUUID p := dar]> (ars (arMgr s)) ∧
      ∃ s3, ReleaseAR (device_call from ts) car (with_mgr s1 m2, []) =
          (Ok (), mkCAR p 1 CClosed frameID (wrapu 32 (cSeq ar + 3)), (s3, [CyclicStop dar])) ∧
        ars (arMgr s3) = delete (pARUUID p) (ars (arMgr s)).
Proof.
  cbv zeta. intros Hp Hb Hf. set (p := cParams ar) in *. pose proof (wfp_uuid p Hp) as Hu.
  destruct (Connect_device from ts s [] (cSeq ar) p Hp Hb Hf) as [ex Hc].
  assert (Hseq : ∀ k, wrapu 32 (wrapu 32 (cSeq ar + k) + 1) = wrapu 32 (cSeq ar + (k + 1))).
  { intros k. unfold wrapu. rewrite Zplus_mod_idemp_l. f_equal. lia. }
  set (car1 := connected_ar p from _ ex _) in Hc.
  match type of Hc with _ = (_, _, (?s1, _)) => set (sA := s1) in Hc end.
  pose proof (Control_prmEnd_device from ts sA [] (wrapu 32 (cSeq ar + 1)) (pARUUID p) car1 Hu Hb) as Hctl.
  rewrite Hseq in Hctl. specialize (Hctl (lookup_insert_eq _ _ _)).
  match type of Hctl with _ = (_, _, (?s1, _)) => set (sB := s1) in Hctl end.
  exists ex, (mkCAR p 1 CData (nextFrameID (arMgr s)) (wrapu 32 (cSeq ar + 2))), sB.
  split; [|split; [done|split; [done|]]].
  { unfold Establish. fold p. rewrite Hc. cbn [rSessionKey rInputFrameID]. by rewrite Hctl. }
  set (dar := data_ar _ _ _ _ _).
  assert (Hready : applicationReady (arMgr sB) (pARUUID p) =
    (with_ars (arMgr sB) (<[pARUUID p := dar]> (ars (arMgr sB))), [CyclicStart dar])).
  { unfold applicationReady. unfold sB at 1. cbn [arMgr with_mgr ars with_ars]. rewrite lookup_insert_eq.
    cbn [State with_state]. rewrite decide_True by done. reflexivity. }
  eexists. split; [exact Hready|]. cbn [ars with_ars]. split.
  { unfold sB, sA. cbn [arMgr with_mgr ars with_ars]. by rewrite !insert_insert_eq. }
  set (sC := with_mgr sB _).
  pose proof (Release_device from ts sC [] (wrapu 32 (cSeq ar + 2)) (pARUUID p) dar Hu Hb) as Hrel.
  rewrite Hseq in Hrel. specialize (Hrel (lookup_insert_eq _ _ _)).
  eexists. split.
  { unfold ReleaseAR. cbn [cState cSeq cParams cSessionKey cInputFrameID]. rewrite Hrel. reflexivity. }
  unfold sC, sB, sA. cbn [arMgr with_mgr ars with_ars]. by rewrite !delete_insert_eq.
Qed.

(** C6: A controller that establishes its relationship with a device gets it: the device stores
    the relationship with the negotiated lengths, cycle and frame identifiers, and waits in
    PrmEnd; the goroutine it started then begins the exchange; both sides know the same
    input and output frames; and a release removes the relationship and stops the exchange. *)
Theorem Establish_device from ts s ar :
  let p := cParams ar in
  wf_params p → in_u 32 (bootTime s) → in_u 16 (nextFrameID (arMgr s)) →
  let frameID := nextFrameID (arMgr s) in
  ∃ ex car s1, 
    Establish (device_call from ts) ar (s, []) = (Ok (), car, (s1, [GoReady (pARUUID p)])) ∧
    car = mkCAR p 1 CData frameID (wrapu 32 (cSeq ar + 2)) ∧
    nextFrameID (arMgr s1) = nextFrameID (snd (allocFrameID (arMgr s))) ∧
    let dar := data_ar p from (newActivityUUID (wrapu 32 (cSeq ar + 1))) ex frameID in
    ∃ m2, applicationReady (arMgr s1) (pARUUID p) = (m2, [CyclicStart dar]) ∧
      ars m2 = <[pARUUID p := dar]> (ars (arMgr s)) ∧
      ∃ s3, ReleaseAR (device_call from ts) car (with_mgr s1 m2, []) =
          (Ok (), mkCAR p 1 CClosed frameID (wrapu 32 (cSeq ar + 3)), (s3, [CyclicStop dar])) ∧
        ars (arMgr s3) = delete (pARUUID p) (ars (arMgr s)).
Proof. apply session_spec. Qed.

(** ** Expected submodules *)

Section Shift.
Context (pre l : list Z).

(** A parser that starts after [pre] is the parser on the rest. *)
Definition shifted {A} (r : outcome (A * nat)) : outcome (A * nat) :=
  '(x, o) ← r; Ok (x, (length pre + o)%nat).

Lemma get_be_shift n o : get_be n (pre ++ l) (length pre + o) = get_be n l o.
Proof. by apply (get_be_skip n pre l _ (length pre)). Qed.

Lemma index_shift o : index (pre ++ l) (length pre + o) = index l o.
Proof. by apply (index_skip pre l _ (length pre)). Qed.

Lemma ltb_shift o k : (length (pre ++ l) <? length pre + o + k)%nat = (length l <? o + k)%nat.
Proof. rewrite length_app. destruct (Nat.ltb_spec (length l) (o + k)); [apply Nat.ltb_lt|apply Nat.ltb_ge]; lia. Qed.

Lemma parse_descs_shift n o : parse_descs n (pre ++ l) (length pre + o) = shifted (parse_descs n l o).
Proof.
  revert o. induction n as [|n IH]; intros o; cbn [parse_descs]; [done|].
  rewrite ltb_shift. case_if; [done|]. rewrite <- !Nat.add_assoc, !get_be_shift, !index_shift, IH.
  repeat (match goal with |- context [mbind _ (get_be ?n ?d ?k)] => destruct (get_be n d k); [cbn [mbind outcome_bind]|done..] end).
  repeat (match goal with |- context [mbind _ (index ?d ?k)] => destruct (index d k); [cbn [mbind outcome_bind]|done..] end).
  by destruct (parse_descs n l (o + 8)) as [[]| |].
Qed.

Lemma parse_submodules_shift n o : parse_submodules n (pre ++ l) (length pre + o) = shifted (parse_submodules n l o).
Proof.
  revert o. induction n as [|n IH]; intros o; cbn [parse_submodules]; [done|].
  rewrite ltb_shift. case_if; [done|]. rewrite <- !Nat.add_assoc, !get_be_shift.
  repeat (match goal with |- context [mbind _ (get_be ?n ?d ?k)] => destruct (get_be n d k); [cbn [mbind outcome_bind]|done..] end).
  rewrite parse_descs_shift. destruct (parse_descs _ l (o + 8)) as [[ds o']| |]; [cbn [shifted mbind outcome_bind]|done..].
  rewrite IH. by destruct (parse_submodules n l o') as [[]| |].
Qed.

Lemma parse_modules_shift n o : parse_modules n (pre ++ l) (length pre + o) = shifted (parse_modules n l o).
Proof.
  revert o. induction n as [|n IH]; intros o; cbn [parse_modules]; [done|].
  rewrite ltb_shift. case_if; [done|]. rewrite <- !Nat.add_assoc, !get_be_shift.
  repeat (match goal with |- context [mbind _ (get_be ?n ?d ?k)] => destruct (get_be n d k); [cbn [mbind outcome_bind]|done..] end).
  rewrite parse_submodules_shift. destruct (parse_submodules _ l (o + 10)) as [[ds o']| |]; [cbn [shifted mbind outcome_bind]|done..].
  rewrite IH. by destruct (parse_modules n l o') as [[]| |].
Qed.
End Shift.

(** What a subscription's slots mean to the device. *)
Definition has_in (sub : SubslotSubscription) : bool := 0 <? sInputSize sub.
Definition has_out (sub : SubslotSubscription) : bool := 0 <? sOutputSize sub.

Definition expected_sub (sub : SubslotSubscription) : ExpectedSubmodule :=
  mkExpSub (sSubslotNumber sub) (sSubmoduleIdentNo sub) ((if has_in sub then 1 else 0) + (if has_out sub then 2 else 0))
    ((if has_in sub then [mkDesc 1 (sInputSize sub) 1 1] else [])
     ++ (if has_out sub then [mkDesc 2 (sOutputSize sub) 1 1] else [])).

Definition expected_module (slot : SlotSubscription) : ExpectedModule :=
  mkExpMod (sSlotNumber slot) (sModuleIdentNo slot) 0 (map expected_sub (sSubslots slot)).

Record wf_sub (sub : SubslotSubscription) : Prop := {
  wfs_number : in_u 16 (sSubslotNumber sub);
  wfs_ident : in_u 32 (sSubmoduleIdentNo sub);
  wfs_in : in_u 16 (sInputSize sub);
  wfs_out : in_u 16 (sOutputSize sub);
}.

Record wf_slot (slot : SlotSubscription) : Prop := {
  wfsl_number : in_u 16 (sSlotNumber slot);
  wfsl_ident : in_u 32 (sModuleIdentNo slot);
  wfsl_count : Z.of_nat (length (sSubslots slot)) < 2 ^ 16;
  wfsl_subs : Forall wf_sub (sSubslots slot);
}.

Definition has_data (sub : SubslotSubscription) : bool := has_in sub || has_out sub.

(** The last subslot, if any, has data. *)
Fixpoint ends_with_data (subs : list SubslotSubscription) : bool :=
  match subs with
  | [] => true
  | [s] => has_data s
  | _ :: subs' => ends_with_data subs'
  end.

Lemma length_sub_bytes sub : length (sub_bytes sub) = (8 + 8 * length (DataDescription (expected_sub sub)))%nat.
Proof.
  unfold sub_bytes, desc_bytes, expected_sub. fold (has_in sub) (has_out sub). cbn [DataDescription].
  destruct (has_in sub), (has_out sub); cbn [andb app length]; by rewrite !length_app, !length_be_bytes.
Qed.

Lemma parse_one_sub sub post : wf_sub sub → (4 ≤ length post)%nat ∨ has_data sub = true →
  parse_submodules 1 (sub_bytes sub ++ post) 0 = Ok ([expected_sub sub], length (sub_bytes sub)).
Proof.
  intros [H1 H2 H3 H4] Hlen. unfold has_data in Hlen. cbn [parse_submodules]. rewrite length_app, length_sub_bytes, (proj2 (Nat.ltb_ge _ _)).
  2: { unfold expected_sub. cbn [DataDescription]. destruct (has_in sub), (has_out sub); cbn in Hlen |- *; lia. }
  unfold sub_bytes, expected_sub, desc_bytes. fold (has_in sub) (has_out sub).
  destruct (has_in sub), (has_out sub); cbn [andb]; rewrite <- !app_assoc; wire_read;
    match goal with |- context [num_descs ?x] => let n := eval vm_compute in (num_descs x) in change (num_descs x) with n end;
    cbn [parse_descs Nat.add]; rewrite ?length_app, ?length_be_bytes; cbn [length];
    repeat (rewrite (proj2 (Nat.ltb_ge _ _)) by lia; wire_read); wire_read;
    rewrite ?(Z.mod_small (sSubslotNumber sub)), ?(Z.mod_small (sSubmoduleIdentNo sub)), ?(Z.mod_small (sInputSize sub)),
      ?(Z.mod_small (sOutputSize sub)) by done; done.
Qed.

Lemma parse_submodules_cons n data o x o1 : parse_submodules 1 data o = Ok ([x], o1) →
  parse_submodules (S n) data o = ('(rest, o2) ← parse_submodules n data o1; Ok (x :: rest, o2)).
Proof.
  cbn [parse_submodules]. case_if; [done|].
  intros (a & -> & H)%bind_Ok. apply bind_Ok in H as (b & -> & H). apply bind_Ok in H as (c & -> & H).
  cbn [mbind outcome_bind]. destruct (parse_descs _ _ _) as [[ds o']| |]; cbn [mbind outcome_bind] in H |- *; [|done..].
  by injection H as <- <-.
Qed.

Lemma length_sub_bytes_min sub : (8 ≤ length (sub_bytes sub))%nat.
Proof. rewrite length_sub_bytes. lia. Qed.

Lemma parse_subs subs post : Forall wf_sub subs → (4 ≤ length post)%nat ∨ ends_with_data subs = true →
  parse_submodules (length subs) (concat (map sub_bytes subs) ++ post) 0
  = Ok (map expected_sub subs, length (concat (map sub_bytes subs))).
Proof.
  induction subs as [|sub subs IH]; intros Hwf Hend; [done|]. apply Forall_cons_1 in Hwf as [Hs Hwf].
  cbn [length map concat]. rewrite <- app_assoc.
  assert (Hend' : (4 ≤ length post)%nat ∨ ends_with_data subs = true)
    by (destruct Hend as [?|He]; [by left|right; destruct subs; [done|exact He]]).
  rewrite (parse_submodules_cons _ _ _ (expected_sub sub) (length (sub_bytes sub))).
  - replace (length (sub_bytes sub)) with (length (sub_bytes sub) + 0)%nat at 1 by lia.
    rewrite parse_submodules_shift, IH by done. cbn [shifted mbind outcome_bind]. by rewrite length_app.
  - apply parse_one_sub; [done|]. rewrite length_app. destruct subs as [|s2 subs].
    + cbn [map concat length Nat.add]. exact Hend.
    + left. cbn [map concat]. rewrite length_app. pose proof (length_sub_bytes_min s2). lia.
Qed.

Lemma length_slot_bytes_min slot : (10 ≤ length (slot_bytes slot))%nat.
Proof. unfold slot_bytes, count16. rewrite !length_app, !length_be_bytes. lia. Qed.

Lemma parse_slots slots post : Forall wf_slot slots → (4 ≤ length post)%nat ∨ ends_with_data (concat (map sSubslots slots)) = true →
  parse_modules (length slots) (concat (map slot_bytes slots) ++ post) 0
  = Ok (map expected_module slots, length (concat (map slot_bytes slots))).
Proof.
  induction slots as [|slot slots IH]; intros Hwf Hend; [done|]. apply Forall_cons_1 in Hwf as [[H1 H2 H3 H4] Hwf].
  cbn [length map concat]. rewrite <- app_assoc. cbn [map concat] in Hend.
  set (rest := concat (map slot_bytes slots) ++ post).
  assert (Hrest : (10 * length slots + length post ≤ length rest)%nat).
  { unfold rest. rewrite length_app. clear -slots. induction slots as [|s slots IH]; [done|]. cbn [map concat length].
    rewrite length_app. pose proof (length_slot_bytes_min s). lia. }
  assert (Hlast : (4 ≤ length rest)%nat ∨ ends_with_data (sSubslots slot) = true).
  { destruct slots as [|s2 slots]; [|left; cbn [length] in Hrest; lia]. cbn [map concat] in Hend. rewrite app_nil_r in Hend. exact Hend. }
  assert (Hend' : (4 ≤ length post)%nat ∨ ends_with_data (concat (map sSubslots slots)) = true).
  { destruct Hend as [?|He]; [by left|right]. clear -He. induction (sSubslots slot) as [|s l IHl]; [done|].
    apply IHl. cbn [app] in He. destruct (l ++ _); [done|exact He]. }
  pose proof (parse_subs (sSubslots slot) rest H4 Hlast) as Hsubs.
  assert (Hsb : slot_bytes slot = put_u16 (sSlotNumber slot) ++ put_u32 (sModuleIdentNo slot) ++ put_u16 0
    ++ put_u16 (wrapu 16 (Z.of_nat (length (sSubslots slot)))) ++ concat (map sub_bytes (sSubslots slot))) by done.
  rewrite Hsb. set (B := concat (map sub_bytes (sSubslots slot))) in *. clearbody B.
  set (hd := put_u16 (sSlotNumber slot) ++ put_u32 (sModuleIdentNo slot) ++ put_u16 0
    ++ put_u16 (wrapu 16 (Z.of_nat (length (sSubslots slot))))).
  assert (Hhd : length hd = 10%nat) by done.
  replace (put_u16 _ ++ _) with (hd ++ B) by (unfold hd; by rewrite <- !app_assoc). rewrite <- app_assoc.
  cbn [parse_modules Nat.add]. rewrite length_app, Hhd, (proj2 (Nat.ltb_ge _ _)) by lia.
  assert (R : get_u16 (hd ++ B ++ rest) 0 = Ok (sSlotNumber slot) ∧ get_u32 (hd ++ B ++ rest) 2 = Ok (sModuleIdentNo slot) ∧
    get_u16 (hd ++ B ++ rest) 6 = Ok 0 ∧ get_u16 (hd ++ B ++ rest) 8 = Ok (Z.of_nat (length (sSubslots slot)))).
  { unfold hd. rewrite <- !app_assoc. wire_read.
    rewrite (wrapu_small 16) by (unfold in_u; lia). rewrite !Z.mod_small by (done || (change (8 * Z.of_nat 2) with 16; lia)). done. }
  destruct R as (-> & -> & -> & ->). cbn [mbind outcome_bind]. rewrite Nat2Z.id.
  rewrite (parse_submodules_shift hd (B ++ rest) _ 0 : parse_submodules _ (hd ++ B ++ rest) 10 = _), Hsubs.
  cbn [shifted mbind outcome_bind]. rewrite app_assoc, <- length_app.
  rewrite <- (Nat.add_0_r (length (hd ++ B))), parse_modules_shift. unfold rest. rewrite IH by done.
  cbn [shifted mbind outcome_bind]. by rewrite <- length_app.
Qed.

(** The device understands the expected-submodule block of the controller, provided the last
    subslot carries data. *)
Theorem expected_submodules_understood slots :
  slots ≠ [] → Z.of_nat (length slots) < 2 ^ 16 → Forall wf_slot slots →
  ends_with_data (concat (map sSubslots slots)) = true →
  ParseExpectedSubmoduleReq (buildExpectedSubmoduleData slots) = Ok [mkExpAPI 0 (map expected_module slots)].
Proof.
  intros Hne Hn Hwf Hend. unfold ParseExpectedSubmoduleReq, buildExpectedSubmoduleData.
  destruct slots as [|s0 slots0]; [done|]. set (slots := s0 :: slots0) in *.
  pose proof (parse_slots slots [] Hwf (or_intror Hend)) as Hp. rewrite app_nil_r in Hp.
  set (B := concat (map slot_bytes slots)) in *. clearbody B. unfold count16.
  rewrite length_app, length_be_bytes, (proj2 (Nat.ltb_ge _ _)) by lia. wire_read.
  change (Z.to_nat (1 mod _)) with 1%nat. cbn [parse_expected_apis Nat.add].
  rewrite !length_app, !length_be_bytes, (proj2 (Nat.ltb_ge _ _)) by lia. wire_read.
  rewrite (wrapu_small 16) by (unfold in_u; lia).
  rewrite !Z.mod_small by (done || (change (8 * Z.of_nat 2) with 16; lia)). rewrite Nat2Z.id.
  rewrite !app_assoc.
  set (hd := (put_u16 1 ++ put_u32 0) ++ put_u16 (Z.of_nat (length slots))).
  rewrite (parse_modules_shift hd B _ 0 : parse_modules _ (hd ++ B) 8 = _), Hp. done.
Qed.

Example ex_no_io_dropped :
  let sub n i o := mkSubSub n 7 i o [] in
  ParseExpectedSubmoduleReq (buildExpectedSubmoduleData [mkSlotSub 1 5 [sub 1 2 0; sub 2 0 0]])
  = Ok [mkExpAPI 0 [mkExpMod 1 5 0 [mkExpSub 1 7 1 [mkDesc 1 2 1 1]]]].
Proof. vm_compute. reflexivity. Qed.

(** ** An example controller *)

Definition ex_slots : list SlotSubscription :=
  [mkSlotSub 1 0x10 [mkSubSub 1 1 4 0 [mkCTag "t" 0 0 "uint16" "input"]; mkSubSub 2 2 0 2 []]].
Definition ex_car : ControllerAR := NewControllerAR ex_uuid [2; 0; 0; 0; 0; 1] "dev" ex_slots 4.

Lemma expected_submodules_understood_witness :
  ParseExpectedSubmoduleReq (buildExpectedSubmoduleData ex_slots) = Ok [mkExpAPI 0 (map expected_module ex_slots)].
Proof.
  apply expected_submodules_understood; [discriminate|reflexivity| |reflexivity].
  apply List.Forall_cons; [|apply List.Forall_nil]. constructor; [done|done|done|].
  apply List.Forall_cons; [|apply List.Forall_cons; [|apply List.Forall_nil]]; constructor; apply (bool_decide_unpack _); vm_compute; exact I.
Defined.

Lemma Establish_device_witness :
  ∃ car s1, Establish (device_call "c" 0) ex_car (ex_server, []) = (Ok (), car, (s1, [GoReady ex_uuid])) ∧
    cState car = CData ∧ cInputFrameID car = 0xC001.
Proof.
  destruct (Establish_device "c" 0 ex_server ex_car) as (ex & car & s1 & H & -> & _).
  - constructor; apply (bool_decide_unpack _); vm_compute; exact I.
  - apply (bool_decide_unpack _); vm_compute; exact I.
  - apply (bool_decide_unpack _); vm_compute; exact I.
  - eexists _, s1. split; [exact H|]. split; reflexivity.
Defined.

(** ** Discovery *)

Lemma response_name dev n :
  response_block dev (Dcp.dcpBlockNameOfStation n)
  = Ok (mkDiscovered (dMAC dev) n (dVendorID dev) (dDeviceID dev) (dIP dev) (dMask dev) (dGateway dev)).
Proof.
  unfold response_block, Dcp.dcpBlockNameOfStation. cbn [Dcp.bData]. change (Dcp.is_block _ _ Dcp.DCPSubOptionDevNameOfStation) with true. cbv iota.
  rewrite (proj2 (Nat.leb_le _ _)) by (rewrite length_app, length_be_bytes; lia).
  by rewrite drop_app_length', bytes_string_bytes by done.
Qed.

Lemma response_devid dev v d : in_u 16 v → in_u 16 d →
  response_block dev (Dcp.dcpBlockDeviceID v d)
  = Ok (mkDiscovered (dMAC dev) (dStationName dev) v d (dIP dev) (dMask dev) (dGateway dev)).
Proof.
  intros Hv Hd. unfold response_block, Dcp.dcpBlockDeviceID. cbn [Dcp.bData].
  change (Dcp.is_block _ _ Dcp.DCPSubOptionDevNameOfStation) with false. change (Dcp.is_block _ _ Dcp.DCPSubOptionDevID) with true. cbv iota.
  rewrite !length_app, !length_be_bytes. cbn [Nat.add Nat.leb]. wire_read. by rewrite !Z.mod_small by done.
Qed.

Lemma response_other dev b :
  Dcp.is_block b Dcp.DCPOptionDeviceProperties Dcp.DCPSubOptionDevNameOfStation = false →
  Dcp.is_block b Dcp.DCPOptionDeviceProperties Dcp.DCPSubOptionDevID = false →
  Dcp.is_block b Dcp.DCPOptionIP Dcp.DCPSubOptionIPSuite = false → response_block dev b = Ok dev.
Proof. unfold response_block. by intros -> -> ->. Qed.

(** What a controller makes of a device's answer to its Identify request: name, vendor and
    device numbers are right, but the address is the answer's block information followed by
    the first half of the device's address, and mask and gateway are shifted alike. *)
Theorem discovered_address_shifted r mac xid rest :
  in_u 16 (Dcp.vendorID r) → in_u 16 (Dcp.deviceID r) →
  Dcp.is_ipv4 (Dcp.ip r) → Dcp.is_ipv4 (Dcp.mask r) → Dcp.is_ipv4 (Dcp.gateway r) →
  ∃ resp, Dcp.handleIdentify r mac (IdentifyByName_request xid (Dcp.stationName r)) = Ok (Some resp) ∧
    parseDCPResponse rest resp = Ok (mkDiscovered rest (Dcp.stationName r) (Dcp.vendorID r) (Dcp.deviceID r)
      ([0; if Dcp.ipSet r then 1 else 0] ++ take 2 (Dcp.ip r)) (drop 2 (Dcp.ip r) ++ take 2 (Dcp.mask r)) (drop 2 (Dcp.mask r) ++ take 2 (Dcp.gateway r))).
Proof.
  intros Hv Hd [_ Hla] [_ Hlm] [_ Hlg].
  assert (Hmatch : Dcp.MatchesFilter (IdentifyByName_request xid (Dcp.stationName r)) (Dcp.stationName r)
      (Dcp.vendorID r) (Dcp.deviceID r) = Ok true).
  { unfold Dcp.MatchesFilter, IdentifyByName_request. cbn [Dcp.Blocks Dcp.filter_blocks].
    change (Dcp.IsIdentifyRequest _) with true. cbn [negb]. unfold Dcp.filter_block. cbn [Dcp.bData].
    change (Dcp.is_block _ Dcp.DCPOptionAllSelector 0xFF) with false.
    change (Dcp.is_block _ Dcp.DCPOptionDeviceProperties Dcp.DCPSubOptionDevNameOfStation) with true. cbv iota.
    by rewrite bytes_string_bytes, String.eqb_refl. }
  eexists. split; [unfold Dcp.handleIdentify; rewrite Hmatch; reflexivity|].
  destruct r as [name vendor vid did a m g set]. cbn [Dcp.stationName Dcp.vendorName Dcp.vendorID Dcp.deviceID Dcp.ip
    Dcp.mask Dcp.gateway Dcp.ipSet] in *.
  destruct a as [|a0 [|a1 [|a2 [|a3 [|]]]]]; try discriminate.
  destruct m as [|m0 [|m1 [|m2 [|m3 [|]]]]]; try discriminate.
  destruct g as [|g0 [|g1 [|g2 [|g3 [|]]]]]; try discriminate.
  unfold parseDCPResponse. cbn [Dcp.Blocks app response_blocks].
  rewrite response_name. cbn [mbind outcome_bind]. rewrite (response_other _ (Dcp.dcpBlockVendor vendor)) by done.
  cbn [mbind outcome_bind]. rewrite response_devid by done. cbn [mbind outcome_bind].
  rewrite (response_other _ (Dcp.dcpBlockDeviceRole _)) by done. cbn [mbind outcome_bind].
  rewrite (response_other _ (Dcp.dcpBlockDeviceInstance _ _)) by done. cbn [mbind outcome_bind].
  destruct set; reflexivity.
Qed.

Definition ex_responder : Dcp.DCPResponder :=
  Dcp.NewDCPResponder "dev" "vendor" 1 2 (Some [192; 168; 0; 5]) (Some [255; 255; 255; 0]) (Some [192; 168; 0; 1]).

Lemma discovered_address_shifted_witness :
  ∃ resp, Dcp.handleIdentify ex_responder [2; 0; 0; 0; 0; 9] (IdentifyByName_request 5 "dev") = Ok (Some resp) ∧
    dIP <$> (match parseDCPResponse [2; 0; 0; 0; 0; 9] resp with Ok d => Some d | _ => None end) = Some [0; 1; 192; 168].
Proof.
  destruct (discovered_address_shifted ex_responder [2; 0; 0; 0; 0; 9] 5 [2; 0; 0; 0; 0; 9]) as (resp & H & Hp);
    try (apply (bool_decide_unpack _); vm_compute; exact I).
  exists resp. split; [exact H|]. rewrite Hp. reflexivity.
Defined.
