(* ===== verification/PnScanner.v ===== *)
(** The PROFINET controller's scanner: internal/profinetcontroller, the cyclic exchange of
    controller_cyclic.go and the devices, subscriptions, tags and frame dispatch of
    scanner.go.

    Times are nanoseconds. A handler is one critical section and gives the new state and
    the effects it started. Go iterates over a map in any order: the order is the argument
    [iter]. The locks are modelled where they are held across a callback, in
    [Module Locks]. *)

From S2P Require Export PnController PnHandshake.
From S2P Require IoData Topics.

#[local] Open Scope Z_scope.

(** ** controller_cyclic.go *)

Record ControllerCyclic := mkCC {
  ccAR : ControllerAR;
  ccOutput : list Z;
  ccIOCS : list Z;
  ccCounter : Z;
  lastInputRx : Z;
  ccWatchdogMs : Z;
}.

Definition with_output_data (cc : ControllerCyclic) (d : list Z) : ControllerCyclic :=
  mkCC (ccAR cc) d (ccIOCS cc) (ccCounter cc) (lastInputRx cc) (ccWatchdogMs cc).

Definition NewControllerCyclic (ar : ControllerAR) (now : Z) : ControllerCyclic :=
  let outputLen := OutputDataLen (cParams ar) in
  let outputLen := if outputLen =? 0 then 1 else outputLen in
  let watchdog := wrapu 32 (wrapu 32 (CycleTimeMs (cParams ar)) * 10) in
  let watchdog := if watchdog <? 100 then 100 else watchdog in
  mkCC ar (replicate (Z.to_nat outputLen) 0) [IOxSGood] 0 now watchdog.

(** The ticker's period. *)
Definition cycle_period (cc : ControllerCyclic) : Z :=
  let period := wraps 64 (CycleTimeMs (cParams (ccAR cc)) * 1000000) in
  if period <? 1000000 then 1000000 else period.

Definition SetOutputData (cc : ControllerCyclic) (data : list Z) : ControllerCyclic :=
  with_output_data cc (copy_into (ccOutput cc) data).

Definition WriteOutputTag (cc : ControllerCyclic) (offset : Z) (data : list Z) : ControllerCyclic :=
  let o := Z.to_nat offset in
  if (o + length data <=? length (ccOutput cc))%nat
  then with_output_data cc (PnioCyclic.copy_at (ccOutput cc) o data) else cc.

(** The frame sent, if any. *)
Definition sendOutputFrame (cc : ControllerCyclic) : option (list Z) * ControllerCyclic :=
  let frameID := pOutputFrameID (cParams (ccAR cc)) in
  if frameID =? 0 then (None, cc)
  else (Some (PnioCyclic.rt_frame frameID (ccOutput cc) (ccIOCS cc) (ccCounter cc)),
        mkCC (ccAR cc) (ccOutput cc) (ccIOCS cc) (wrapu 16 (ccCounter cc + 1)) (lastInputRx cc) (ccWatchdogMs cc)).

(** The data given to [onInputData], if the frame is this exchange's. *)
Definition HandleInputFrame (cc : ControllerCyclic) (payload : list Z) (now : Z)
    : outcome (option (list Z) * ControllerCyclic) :=
  if (length payload <? 2)%nat then Ok (None, cc)
  else
    frameID ← get_u16 payload 0;
    if negb (frameID =? cInputFrameID (ccAR cc)) then Ok (None, cc)
    else Ok (Some (drop 2 payload),
             mkCC (ccAR cc) (ccOutput cc) (ccIOCS cc) (ccCounter cc) now (ccWatchdogMs cc)).

Definition WatchdogExpired (cc : ControllerCyclic) (now : Z) : bool := ccWatchdogMs cc * 1000000 <? now - lastInputRx cc.

(** ** scanner.go: values of tags *)

(** The bytes a datatype reads; [None] for an unknown datatype. *)
Definition type_bytes (dt : string) : option nat :=
  if IoData.str_in dt ["bool"; "uint8"; "int8"] then Some 1%nat
  else if IoData.str_in dt ["uint16"; "int16"] then Some 2%nat
  else if IoData.str_in dt ["uint32"; "int32"; "float32"] then Some 4%nat
  else if IoData.str_in dt ["uint64"; "int64"; "float64"] then Some 8%nat
  else None.

(** [VNil] is the nil of an unknown datatype and of a tag past the end of the data. *)
Definition unpackTagValue (tag : ControllerTag) (data : list Z) : outcome value :=
  let offset := Z.to_nat (ByteOffset tag) in
  let dt := Datatype tag in
  match type_bytes dt with
  | None => Ok VNil
  | Some n =>
      if (length data <? offset + n)%nat then Ok VNil
      else if String.eqb dt "bool" then
        b ← index data offset; Ok (VBool (Z.land (Z.shiftr b (BitOffset tag)) 1 =? 1))
      else if String.eqb dt "uint8" then b ← index data offset; Ok (VInt KUint8 b)
      else if String.eqb dt "int8" then b ← index data offset; Ok (VInt KInt8 (wraps 8 b))
      else
        w ← get_be n data offset;
        Ok (if String.eqb dt "uint16" then VInt KUint16 w
            else if String.eqb dt "int16" then VInt KInt16 (wraps 16 w)
            else if String.eqb dt "uint32" then VInt KUint32 w
            else if String.eqb dt "int32" then VInt KInt32 (wraps 32 w)
            else if String.eqb dt "float32" then VFloat32 w
            else if String.eqb dt "uint64" then VInt KUint64 w
            else if String.eqb dt "int64" then VInt KInt64 (wraps 64 w)
            else VFloat64 w)
  end.

Section Values.
Context `{FloatConv, FloatText}.

Definition toFloat64 (val : value) : option float64 :=
  match val with
  | VFloat64 f => Some f
  | VFloat32 f => Some (f64_of_f32 f)
  | VInt _ n => Some (f64_of_Z n)
  | VJsonNumber s => parse_float s
  | _ => None
  end.

(** [None] is nil. *)
Definition packTagValue (tag : ControllerTag) (val : value) : option (list Z) :=
  let dt := Datatype tag in
  if String.eqb dt "bool" then
    Some [match val with VBool true => wrapu 8 (Z.shiftl 1 (BitOffset tag)) | _ => 0 end]
  else
    match toFloat64 val with
    | None => None
    | Some v =>
        if String.eqb dt "uint8" then Some [to_uint 8 v]
        else if String.eqb dt "int8" then Some [wrapu 8 (to_int 8 v)]
        else if String.eqb dt "uint16" then Some (put_u16 (to_uint 16 v))
        else if String.eqb dt "int16" then Some (put_u16 (wrapu 16 (to_int 16 v)))
        else if String.eqb dt "uint32" then Some (put_u32 (to_uint 32 v))
        else if String.eqb dt "int32" then Some (put_u32 (wrapu 32 (to_int 32 v)))
        else if String.eqb dt "float32" then Some (put_u32 (f32_of_f64 v))
        else if String.eqb dt "float64" then Some (be_bytes 8 v)
        else if String.eqb dt "uint64" then Some (be_bytes 8 (to_uint 64 v))
        else if String.eqb dt "int64" then Some (be_bytes 8 (wrapu 64 (to_int 64 v)))
        else None
    end.

End Values.

(** ** scanner.go: devices and subscriptions *)

Notation tag_map := (gmap string ControllerTag).

Record DeviceState := mkDev {
  dvID : string;
  dvStationName : string;
  dvIP : option (list Z);
  dvMAC : option (list Z);
  dvCycleTimeMs : Z;
  Subscribers : gmap string tag_map;
  dvSlots : list SlotSubscription;
  dvAR : option ControllerAR;
  dvCyclic : option ControllerCyclic;
  stopped : bool;
  failures : Z;
  lastValues : gmap string value;
  allTags : tag_map;
}.

Definition with_subs (d : DeviceState) (subs : gmap string tag_map) : DeviceState :=
  mkDev (dvID d) (dvStationName d) (dvIP d) (dvMAC d) (dvCycleTimeMs d) subs (dvSlots d) (dvAR d) (dvCyclic d)
    (stopped d) (failures d) (lastValues d) (allTags d).
Definition with_tags (d : DeviceState) (tags : tag_map) : DeviceState :=
  mkDev (dvID d) (dvStationName d) (dvIP d) (dvMAC d) (dvCycleTimeMs d) (Subscribers d) (dvSlots d) (dvAR d) (dvCyclic d)
    (stopped d) (failures d) (lastValues d) tags.
Definition with_values (d : DeviceState) (vals : gmap string value) : DeviceState :=
  mkDev (dvID d) (dvStationName d) (dvIP d) (dvMAC d) (dvCycleTimeMs d) (Subscribers d) (dvSlots d) (dvAR d) (dvCyclic d)
    (stopped d) (failures d) vals (allTags d).
Definition with_stopped (d : DeviceState) : DeviceState :=
  mkDev (dvID d) (dvStationName d) (dvIP d) (dvMAC d) (dvCycleTimeMs d) (Subscribers d) (dvSlots d) (dvAR d) (dvCyclic d)
    true (failures d) (lastValues d) (allTags d).
Definition with_address (d : DeviceState) (ip mac : option (list Z)) : DeviceState :=
  mkDev (dvID d) (dvStationName d) ip mac (dvCycleTimeMs d) (Subscribers d) (dvSlots d) (dvAR d) (dvCyclic d)
    (stopped d) (failures d) (lastValues d) (allTags d).
Definition with_connection (d : DeviceState) (ar : option ControllerAR) (cc : option ControllerCyclic) (f : Z) : DeviceState :=
  mkDev (dvID d) (dvStationName d) (dvIP d) (dvMAC d) (dvCycleTimeMs d) (Subscribers d) (dvSlots d) ar cc
    (stopped d) f (lastValues d) (allTags d).
Definition with_cyclic (d : DeviceState) (cc : option ControllerCyclic) : DeviceState :=
  with_connection d (dvAR d) cc (failures d).

(** The decoded requests. *)
Record SubscribeRequest := mkSubscribe {
  qSubscriberID : string;
  qDeviceID : string;
  qStationName : string;
  qIP : option (list Z);
  qInterfaceName : string;
  qCycleTimeMs : Z;
  qSlots : list SlotSubscription;
}.

Record UnsubscribeRequest := mkUnsubscribe {
  uSubscriberID : string;
  uDeviceID : string;
  uTagIDs : list string;
}.

(** The devices, and whether the shared transport is open. *)
Record Scanner := mkScanner { devices : gmap string DeviceState; transport : bool }.

(** The reply of a handler: success or an error message. *)
Definition reply : Type := option string.

Inductive effect := StartLoop (device : string) | CloseStop (device : string) | StartFrameLoop.

Section Scanner.
Context (iter : gmap string tag_map → list (string * tag_map)).

Definition rebuildDeviceTags (d : DeviceState) : DeviceState :=
  with_tags d (fold_left (λ all sub, snd sub ∪ all) (iter (Subscribers d)) ∅).

(** A channel that is closed twice panics; [stopped] prevents it. *)
Definition stopDevice (d : DeviceState) : DeviceState * list effect :=
  if stopped d then (d, []) else (with_stopped d, [CloseStop (dvID d)]).

(** The tag index of a request: a later tag of the same name wins. *)
Definition tag_index (slots : list SlotSubscription) : tag_map :=
  fold_left (λ m tag, <[TagID tag := tag]> m) (concat (map sTags (concat (map sSubslots slots)))) ∅.

(** [ensureTransport]: the error is that of opening the interface. *)
Definition ensureTransport (s : Scanner) (open : option string) : option string * Scanner * list effect :=
  if transport s then (None, s, [])
  else match open with
       | Some e => (Some e, s, [])
       | None => (None, mkScanner (devices s) true, [StartFrameLoop])
       end.

Definition new_device (q : SubscribeRequest) (cycle : Z) : DeviceState :=
  mkDev (qDeviceID q) (qStationName q) (qIP q) None cycle ∅ (qSlots q) None None false 0 ∅ ∅.

Definition handleSubscribe (s : Scanner) (data : string + SubscribeRequest) (open : option string)
    : reply * Scanner * list effect :=
  match data with
  | inl err => (Some err, s, [])
  | inr q =>
      if String.eqb (qDeviceID q) "" || String.eqb (qStationName q) "" then
        (Some "deviceId and stationName are required", s, [])
      else if String.eqb (qInterfaceName q) "" then (Some "interfaceName is required", s, [])
      else
        let cycle := if qCycleTimeMs q <=? 0 then 1 else qCycleTimeMs q in
        let tagConfigs := tag_index (qSlots q) in
        let '(err, s, effs) := ensureTransport s open in
        match err with
        | Some e => (Some e, s, effs)
        | None =>
            let '(dev, started) :=
              match devices s !! qDeviceID q with
              | Some dev => (dev, [])
              | None => (new_device q cycle, [StartLoop (qDeviceID q)])
              end in
            let dev := rebuildDeviceTags (with_subs dev (<[qSubscriberID q := tagConfigs]> (Subscribers dev))) in
            (None, mkScanner (<[qDeviceID q := dev]> (devices s)) (transport s), effs ++ started)
        end
  end.

Definition handleUnsubscribe (s : Scanner) (data : string + UnsubscribeRequest) : reply * Scanner * list effect :=
  match data with
  | inl err => (Some err, s, [])
  | inr q =>
      match devices s !! uDeviceID q with
      | None => (None, s, [])
      | Some dev =>
          let subs :=
            match uTagIDs q with
            | [] => delete (uSubscriberID q) (Subscribers dev)
            | ids =>
                match Subscribers dev !! uSubscriberID q with
                | Some tags =>
                    let tags := fold_left (λ m id, delete id m) ids tags in
                    if decide (tags = ∅) then delete (uSubscriberID q) (Subscribers dev)
                    else <[uSubscriberID q := tags]> (Subscribers dev)
                | None => Subscribers dev
                end
            end in
          let dev := with_subs dev subs in
          if decide (subs = ∅) then
            let (_, effs) := stopDevice dev in
            (None, mkScanner (delete (uDeviceID q) (devices s)) (transport s), effs)
          else (None, mkScanner (<[uDeviceID q := rebuildDeviceTags dev]> (devices s)) (transport s), [])
      end
  end.

End Scanner.

(** [stop]: every device is stopped and forgotten, the transport closed. *)
Definition stop (s : Scanner) : Scanner * list effect :=
  (mkScanner ∅ false, concat (map (λ kd, snd (stopDevice (snd kd))) (map_to_list (devices s)))).

(** ** Commands and input data *)

Section Data.
Context `{FloatConv, FloatText}.

Definition dot : Ascii.ascii := "."%char.

(** The device and tag of a command's subject. *)
Definition command_target (subject : string) : option (string * string) :=
  match GoText.split dot subject with
  | _ :: _ :: deviceID :: ((_ :: _) as tag) => Some (deviceID, str_join "." tag)
  | _ => None
  end.

Definition handleCommand (s : Scanner) (subject : string) (msg : option value) : Scanner :=
  match command_target subject with
  | None => s
  | Some (deviceID, tagID) =>
      match devices s !! deviceID with
      | None => s
      | Some dev =>
          match allTags dev !! tagID with
          | None => s
          | Some tag =>
              if negb (String.eqb (cDirection tag) "output") then s
              else
                match dvCyclic dev, msg with
                | Some cc, Some v =>
                    match packTagValue tag v with
                    | Some packed =>
                        mkScanner (<[deviceID := with_cyclic dev (Some (WriteOutputTag cc (ByteOffset tag) packed))]> (devices s))
                          (transport s)
                    | None => s
                    end
                | _, _ => s
                end
          end
      end
  end.

(** A published value: subject, device, variable, value and datatype of the message. *)
Record published := mkPub {
  pubSubject : string;
  pubDevice : string;
  pubVariable : string;
  pubValue : value;
  pubDatatype : string;
}.

(** One tag of [handleInputData]. *)
Definition input_tag (device : string) (data : list Z) (lv : gmap string value) (tagID : string) (tag : ControllerTag)
    : outcome (gmap string value * list published) :=
  if negb (String.eqb (cDirection tag) "input") then Ok (lv, [])
  else
    val ← unpackTagValue tag data;
    if is_nil val then Ok (lv, [])
    else if match lv !! tagID with Some l => String.eqb (fmt_v l) (fmt_v val) | None => false end then Ok (lv, [])
    else
      let subject := Topics.Data "profinetcontroller" (Topics.SanitizeForSubject device) (Topics.SanitizeForSubject tagID) in
      Ok (<[tagID := val]> lv,
          if json_ok val then [mkPub subject device tagID val (Datatype tag)] else []).

Fixpoint input_tags (device : string) (data : list Z) (lv : gmap string value) (tags : list (string * ControllerTag))
    : outcome (gmap string value * list published) :=
  match tags with
  | [] => Ok (lv, [])
  | (id, tag) :: tags' =>
      '(lv, pubs) ← input_tag device data lv id tag;
      '(lv, pubs') ← input_tags device data lv tags';
      Ok (lv, pubs ++ pubs')
  end.

(** The tags in the order of the iteration over [allTags]. *)
Definition handleInputData (iter : tag_map → list (string * ControllerTag)) (d : DeviceState) (data : list Z)
    : outcome (DeviceState * list published) :=
  '(lv, pubs) ← input_tags (dvID d) data (lastValues d) (iter (allTags d));
  Ok (with_values d lv, pubs).

End Data.

(** The variables request: one entry per tag of every device. *)
Definition handleVariables (iterD : gmap string DeviceState → list (string * DeviceState))
    (iterT : tag_map → list (string * ControllerTag)) (s : Scanner) : list (string * string * value * string) :=
  concat (map (λ kd : string * DeviceState, let d := snd kd in
    map (λ it, (dvID d, fst it, default VNil (lastValues d !! fst it), Datatype (snd it))) (iterT (allTags d)))
    (iterD (devices s))).

(** ** The life of a device's connection *)

Definition second : Z := 1000000000.
Definition backoffDuration (failures : Z) : Z :=
  if failures =? 0 then 0
  else let d := wraps 64 (failures * second) in if 30 * second <? d then 30 * second else d.

(** Step 1 of the loop: discovery by station name when the address is unknown. [None] is
    the failure that goes back to the start of the loop. *)
Definition discover (d : DeviceState) (found : option DiscoveredDevice) : DeviceState * bool :=
  let unknown := match dvIP d with None => true | Some ip => Dcp.is_zero_ip ip end in
  if unknown then
    match found with
    | None => (with_connection d (dvAR d) (dvCyclic d) (failures d + 1), false)
    | Some f => (with_address d (Some (dIP f)) (Some (dMAC f)), true)
    end
  else (d, true).

Section Loop.
Context {N : Type} (call : N → list Z → outcome (list Z) * N).

(** Steps 2 and 3: establish the relationship and start the exchange. *)
Definition connectDevice (d : DeviceState) (uuid localMAC : list Z) (now : Z) (net : N) : outcome (DeviceState * N) :=
  let ar := NewControllerAR uuid localMAC (dvStationName d) (dvSlots d) (dvCycleTimeMs d) in
  let '(r, ar, net) := Establish call ar net in
  match r with
  | Panic => Panic
  | Err _ => Ok (with_connection d None (dvCyclic d) (failures d + 1), net)
  | Ok _ => Ok (with_connection d (Some ar) (Some (NewControllerCyclic ar now)) 0, net)
  end.

Definition disconnectDevice (d : DeviceState) (net : N) : DeviceState * N :=
  match dvAR d with
  | None => (with_connection d None None (failures d), net)
  | Some ar =>
      let '(_, _, net) := ReleaseAR call ar net in
      (with_connection d None None (failures d), net)
  end.

(** One tick of [monitorDevice]: is the exchange over? *)
Definition monitor_tick (d : DeviceState) (now : Z) : bool :=
  match dvCyclic d with Some cc => WatchdogExpired cc now | None => false end.

End Loop.

(** ** Locks

    [frameLoop] calls the input callback of an exchange with the scanner's and the device's
    lock held; the callback takes the device's lock. A goroutine is the list of the actions
    it has left; a lock is not reentrant. *)
Module Locks.

Inductive mutex := ScannerMu | DeviceMu (device : string).
Inductive action := Acquire (m : mutex) | Release (m : mutex) | Publish (p : published).

#[export] Instance mutex_eq_dec : EqDecision mutex.
Proof. solve_decision. Defined.

(** Which goroutine holds each lock, and what each goroutine still does. *)
Record sys := mkSys { holder : mutex → option nat; threads : list (list action) }.

Definition set_holder (h : mutex → option nat) (m : mutex) (o : option nat) : mutex → option nat :=
  λ m', if decide (m' = m) then o else h m'.

Inductive step : sys → sys → Prop :=
  | step_acquire h ts i m k : ts !! i = Some (Acquire m :: k) → h m = None →
      step (mkSys h ts) (mkSys (set_holder h m (Some i)) (<[i := k]> ts))
  | step_release h ts i m k : ts !! i = Some (Release m :: k) → h m = Some i →
      step (mkSys h ts) (mkSys (set_holder h m None) (<[i := k]> ts))
  | step_publish h ts i p k : ts !! i = Some (Publish p :: k) →
      step (mkSys h ts) (mkSys h (<[i := k]> ts)).

Inductive steps : sys → sys → Prop :=
  | steps_refl s : steps s s
  | steps_snoc s1 s2 s3 : steps s1 s2 → step s2 s3 → steps s1 s3.

Section Dispatch.
Context `{FloatText} (iter : tag_map → list (string * ControllerTag)).

(** [handleInputData] as a callback. *)
Definition input_actions (d : DeviceState) (data : list Z) : list action :=
  Acquire (DeviceMu (dvID d))
  :: match handleInputData iter d data with Ok (_, pubs) => map Publish pubs | _ => [] end
  ++ [Release (DeviceMu (dvID d))].

(** What [frameLoop] does with a cyclic frame for one device. *)
Definition device_actions (payload : list Z) (now : Z) (d : DeviceState) : list action :=
  Acquire (DeviceMu (dvID d))
  :: match dvCyclic d with
     | None => []
     | Some cc =>
         match HandleInputFrame cc payload now with
         | Ok (Some data, _) => input_actions d data
         | _ => []
         end
     end
  ++ [Release (DeviceMu (dvID d))].

(** A cyclic frame: every device under the scanner's lock. *)
Definition frame_actions (payload : list Z) (now : Z) (devs : list DeviceState) : list action :=
  Acquire ScannerMu :: concat (map (device_actions payload now) devs) ++ [Release ScannerMu].

End Dispatch.
End Locks.

(** ** Values of tags: the two implementations agree *)

Lemma type_bytes_size dt : type_bytes dt = if IoData.TypeSize dt =? 0 then None else Some (Z.to_nat (IoData.TypeSize dt)).
Proof.
  destruct (decide (IoData.TypeSize dt = 0)) as [H0|Hk].
  - rewrite H0. unfold type_bytes. unfold IoData.TypeSize in H0.
    repeat match type of H0 with context [IoData.str_in dt ?l] =>
      change (IoData.str_in dt _) with (IoData.str_in dt l) at 1; destruct (IoData.str_in dt l); [done|] end. done.
  - pattern dt. by apply IoData.known_types.
Qed.

Lemma unpackTagValue_cases tag data : 0 ≤ ByteOffset tag →
  unpackTagValue tag data =
  if (IoData.TypeSize (Datatype tag) =? 0) || (Z.of_nat (length data) <? ByteOffset tag + IoData.TypeSize (Datatype tag))
  then Ok VNil
  else IoData.unpackValue data (ByteOffset tag) (BitOffset tag) (Datatype tag).
Proof.
  intros Ho. unfold unpackTagValue. rewrite type_bytes_size. pose proof (IoData.TypeSize_range (Datatype tag)) as Hr.
  destruct (Z.eqb_spec (IoData.TypeSize (Datatype tag)) 0) as [H0|Hk]; [done|]. cbn [orb].
  assert (Hlt : (length data <? Z.to_nat (ByteOffset tag) + Z.to_nat (IoData.TypeSize (Datatype tag)))%nat
    = (Z.of_nat (length data) <? ByteOffset tag + IoData.TypeSize (Datatype tag))).
  { destruct (Z.ltb_spec (Z.of_nat (length data)) (ByteOffset tag + IoData.TypeSize (Datatype tag)));
      [apply Nat.ltb_lt|apply Nat.ltb_ge]; lia. }
  rewrite Hlt. case_if; [done|]. clear Hlt. revert Hk. generalize (Datatype tag). intros dt Hk. pattern dt.
  apply IoData.known_types; [..|exact Hk]; reflexivity.
Qed.

Lemma unpackTagValue_read tag data : 0 ≤ ByteOffset tag → IoData.TypeSize (Datatype tag) ≠ 0 →
  ByteOffset tag + IoData.TypeSize (Datatype tag) ≤ Z.of_nat (length data) →
  unpackTagValue tag data = IoData.unpackValue data (ByteOffset tag) (BitOffset tag) (Datatype tag).
Proof.
  intros Ho Hk Hl. rewrite unpackTagValue_cases by done.
  by rewrite (proj2 (Z.eqb_neq _ _)), (proj2 (Z.ltb_ge _ _)) by done.
Qed.

(** The controller reads a tag as the device does, where the data has the tag's bytes; it
    reads nil elsewhere, and never panics. *)
Theorem unpackTagValue_spec tag data : 0 ≤ ByteOffset tag →
  unpackTagValue tag data =
  if (IoData.TypeSize (Datatype tag) =? 0) || (Z.of_nat (length data) <? ByteOffset tag + IoData.TypeSize (Datatype tag))
  then Ok VNil
  else IoData.unpackValue data (ByteOffset tag) (BitOffset tag) (Datatype tag).
Proof. apply unpackTagValue_cases. Qed.

Lemma get_be_within n (l1 l2 : list Z) k : (k + n ≤ length l1)%nat → get_be n (l1 ++ l2) k = get_be n l1 k.
Proof.
  intros H. unfold get_be. rewrite !decide_True by (rewrite ?length_app; lia). do 2 f_equal.
  rewrite drop_app_le by lia. rewrite take_app_le; [done|]. rewrite length_drop. lia.
Qed.

(** A tag's value does not depend on the bytes around its buffer. *)
Lemma unpackValue_app (pre buf post : list Z) o b dt :
  0 ≤ o → o + IoData.TypeSize dt ≤ Z.of_nat (length buf) → IoData.TypeSize dt ≠ 0 →
  IoData.unpackValue (pre ++ buf ++ post) (Z.of_nat (length pre) + o) b dt = IoData.unpackValue buf o b dt.
Proof.
  intros Ho Hfit Hk.
  assert (Hget : ∀ n, Z.of_nat n = IoData.TypeSize dt →
    IoData.get_at n (pre ++ buf ++ post) (Z.of_nat (length pre) + o) = IoData.get_at n buf o).
  { intros n Hn. unfold IoData.get_at. rewrite (get_be_skip n pre _ _ (length pre) (Z.to_nat o)) by lia.
    apply get_be_within. lia. }
  destruct (String.eqb_spec dt IoData.TypeBool) as [->|Hb].
  - unfold IoData.unpackValue. IoData.string_eqbs. by rewrite !IoData.index_get_at, Hget by done.
  - rewrite !IoData.unpackValue_get, Hget by (done || pose proof (IoData.TypeSize_range dt); lia). done.
Qed.

Section Delivery.
Context `{FloatConv, FloatText}.

(** C33: From the device's values to the controller's tags: the values packed into the input
    buffers of the subslots travel in one frame, and [HandleInputFrame] makes of it data in
    which the controller's tag at a packed value's place has that value in the tag's type. The
    device's subslots fit the negotiated data length ([inputs_fit]), and the subslot that packs
    is validated, its offsets end below 2^16 ([no_wrap]) and no two of its input tags share a
    bit ([apart], which [ValidateTagOverlaps] would check but nothing calls: tags that overlap
    are accepted and overwrite each other). What happens to the data next is not part of this:
    the loop that receives the first frame waits for a lock it holds. *)
Theorem input_value_delivered n get h i before sub after vals t v cc tag now :
  PnioAr.InputIOCR (PnioCyclic.har h) = Some i → PnioCyclic.inputs_fit h →
  PnioCyclic.input_subs (PnioCyclic.hcfg h) = before ++ sub :: after →
  Forall (λ s, length (get s) = PnioCyclic.input_size s) (PnioCyclic.input_subs (PnioCyclic.hcfg h)) →
  IoData.PackInputBuffer sub vals = Ok (get sub) →
  IoData.validateSubslot n sub = None → IoData.subslot_typed sub → IoData.no_wrap sub →
  ForallOrdPairs (λ t u, IoData.is_input t = true → IoData.is_input u = true → IoData.apart t u) (IoData.Tags sub) →
  IoData.values_ok vals → t ∈ IoData.Tags sub → IoData.is_input t = true → vals !! IoData.TagID t = Some v →
  in_u 16 (PnioAr.iFrameID i) → cInputFrameID (ccAR cc) = PnioAr.iFrameID i →
  ByteOffset tag = Z.of_nat (sum_list_with PnioCyclic.input_size before) + IoData.ByteOffset t →
  BitOffset tag = IoData.BitOffset t → Datatype tag = IoData.Datatype t →
  ∃ frame h' data cc', PnioCyclic.sendInputFrame get h = (Some frame, h') ∧
    HandleInputFrame cc frame now = Ok (Some data, cc') ∧
    unpackTagValue tag data = Ok (IoData.received (Datatype tag) v).
Proof.
  intros Hi Hfit Hsubs Hlen Hpack Hval Hty Hnw Hap Hvals Hin Hit Hv Hf Hid Ho Hb Hd.
  destruct (PnioCyclic.input_frame get h i Hi Hfit) as (pad & h' & Hsend & _ & _ & _); [by rewrite Hsubs; destruct before|done|].
  pose proof (IoData.validated_tag_fits n sub t Hval Hty Hnw Hin) as Hfits. rewrite Hit in Hfits.
  destruct (IoData.pack_readable n sub vals Hval Hty Hnw Hap Hvals) as (buf & Hbuf & Hbl & Hread).
  rewrite Hpack in Hbuf. injection Hbuf as Hbuf. specialize (Hread t v Hin Hit Hv). rewrite <- Hbuf in *.
  destruct Hfits as [Hk Hto Hte _]. rewrite Hsubs in Hsend, Hlen. rewrite map_app, concat_app in Hsend. cbn [map concat] in Hsend.
  apply List.Forall_app in Hlen as [Hlen1 _]. pose proof (PnioCyclic.length_concat_map get _ _ Hlen1) as Hpre.
  set (pre := concat (map get before)) in *. set (post := concat (map get after)) in *.
  do 4 eexists. split; [exact Hsend|]. split.
  - unfold HandleInputFrame. rewrite (proj2 (Nat.ltb_ge _ _)) by (rewrite length_app, length_be_bytes; lia).
    rewrite get_be_here. cbn [mbind outcome_bind]. rewrite Z.mod_small by exact Hf. rewrite Hid, Z.eqb_refl. cbn [negb].
    rewrite drop_app_length' by done. rewrite <- !app_assoc. reflexivity.
  - rewrite unpackTagValue_read; rewrite ?Hd, ?Ho; [|lia|done|rewrite !length_app; lia].
    rewrite Hb, <- Hpre. by rewrite unpackValue_app by (done || lia).
Qed.

(** ** From the controller's commands to the device's outputs *)

Lemma type_size_pos dt : IoData.TypeSize dt ≠ 0 → 0 < IoData.TypeSize dt.
Proof. pose proof (IoData.TypeSize_range dt). lia. Qed.

(** The bytes written for a number are those the device's side reads as that number. *)
Lemma packTagValue_wire tag v f :
  toFloat64 v = Some f → in_u 64 f → IoData.TypeSize (Datatype tag) ≠ 0 → Datatype tag ≠ "bool" →
  packTagValue tag v = Some (be_bytes (Z.to_nat (IoData.TypeSize (Datatype tag))) (IoData.wire (Datatype tag) (VFloat64 f))).
Proof.
  intros Hv Hf Hk. unfold packTagValue. rewrite Hv. revert Hk. generalize (Datatype tag). intros dt Hk.
  assert (Hone : ∀ x, in_u 8 x → [x] = be_bytes 1 x).
  { intros x Hx. cbn [be_bytes]. change (2 ^ (8 * Z.of_nat 0)) with 1. rewrite Z.div_1_r, Z.mod_small; [done|exact Hx]. }
  pattern dt. apply IoData.known_types; [..|exact Hk]; intros Hb; try done.
  all: unfold IoData.wire; cbn [IoData.toFloat]; IoData.string_eqbs; try reflexivity.
  all: f_equal; apply Hone; first [apply to_uint_range; lia | apply wrapu_range; lia].
Qed.

(** What the other side reads from the bytes of a command. *)
Lemma packTagValue_read tag v f :
  toFloat64 v = Some f → in_u 64 f → IoData.TypeSize (Datatype tag) ≠ 0 → Datatype tag ≠ "bool" →
  ∃ bytes, packTagValue tag v = Some bytes ∧ Z.of_nat (length bytes) = IoData.TypeSize (Datatype tag) ∧
    IoData.unpackValue bytes 0 (BitOffset tag) (Datatype tag) = Ok (IoData.received (Datatype tag) (VFloat64 f)).
Proof.
  intros Hv Hf Hk Hb. eexists. split; [by apply packTagValue_wire|]. pose proof (type_size_pos _ Hk).
  split; [rewrite length_be_bytes; lia|].
  rewrite IoData.unpackValue_get by done. unfold IoData.get_at. rewrite get_be_end. cbn [mbind outcome_bind].
  rewrite Z2Nat.id by lia. rewrite Z.mod_small by (by apply IoData.wire_range). by rewrite IoData.decode_wire.
Qed.

Lemma copy_at_middle (pre buf post : list Z) o data : (o + length data ≤ length buf)%nat →
  PnioCyclic.copy_at (pre ++ buf ++ post) (length pre + o) data = pre ++ PnioCyclic.copy_at buf o data ++ post.
Proof.
  intros Hl. unfold PnioCyclic.copy_at. rewrite take_app_add', <- !app_assoc by done. f_equal.
  rewrite take_app_le by lia. f_equal. f_equal. rewrite <- Nat.add_assoc, drop_app_add' by done.
  rewrite drop_app_le by lia. done.
Qed.

(** A command for an output tag of a number type: the next frame hands the device's subslot
    its bytes with the command's value at the tag's place, in the tag's type, and the other
    subslots the bytes they had. *)
Theorem output_value_delivered cc tag v f h o c1 chunk c2 s1 sub s2 now off :
  toFloat64 v = Some f → in_u 64 f → IoData.TypeSize (Datatype tag) ≠ 0 → Datatype tag ≠ "bool" →
  ccOutput cc = concat c1 ++ chunk ++ concat c2 → pOutputFrameID (cParams (ccAR cc)) ≠ 0 →
  PnioAr.OutputIOCR (PnioCyclic.har h) = Some o → PnioAr.iFrameID o = pOutputFrameID (cParams (ccAR cc)) →
  in_u 16 (PnioAr.iFrameID o) → (length (ccOutput cc) ≤ length (PnioCyclic.outputData h))%nat →
  PnioCyclic.output_subs (PnioCyclic.hcfg h) = s1 ++ sub :: s2 →
  Forall2 (λ s c, length c = PnioCyclic.output_size s) (s1 ++ sub :: s2) (c1 ++ chunk :: c2) → length s1 = length c1 →
  0 ≤ off → off + IoData.TypeSize (Datatype tag) ≤ Z.of_nat (length chunk) →
  ByteOffset tag = Z.of_nat (length (concat c1)) + off →
  ∃ bytes frame cc' chunk' h',
    packTagValue tag v = Some bytes ∧
    sendOutputFrame (WriteOutputTag cc (ByteOffset tag) bytes) = (Some frame, cc') ∧
    PnioCyclic.HandleOutputFrame h frame now = Ok (zip (s1 ++ sub :: s2) (c1 ++ chunk' :: c2), h') ∧
    length chunk' = length chunk ∧
    IoData.unpackValue chunk' (off) (BitOffset tag) (Datatype tag)
    = Ok (IoData.received (Datatype tag) (VFloat64 f)).
Proof.
  intros Hv Hf Hk Hb Hout Hnz Ho Hid Hfid Hlen Hsubs Hall Hl1 Ht0 Htl Hoff.
  destruct (packTagValue_read tag v f Hv Hf Hk Hb) as (bytes & Hp & Hbl & Hread).
  set (k := Z.to_nat (off)). set (chunk' := PnioCyclic.copy_at chunk k bytes).
  assert (Hcl : length chunk' = length chunk) by (apply PnioCyclic.length_copy_at; lia).
  assert (Hw : WriteOutputTag cc (ByteOffset tag) bytes = with_output_data cc (concat c1 ++ chunk' ++ concat c2)).
  { unfold WriteOutputTag. rewrite Hoff, Hout. rewrite (proj2 (Nat.leb_le _ _)) by (rewrite !length_app; lia).
    replace (Z.to_nat (Z.of_nat (length (concat c1)) + off)) with (length (concat c1) + k)%nat by lia.
    by rewrite copy_at_middle by lia. }
  assert (Hall' : Forall2 (λ s c, length c = PnioCyclic.output_size s) (PnioCyclic.output_subs (PnioCyclic.hcfg h))
    (c1 ++ chunk' :: c2)).
  { rewrite Hsubs. apply Forall2_app_inv in Hall as [Hall1 Hall2]; [|done].
    apply Forall2_app; [done|]. apply Forall2_cons_1 in Hall2 as [Hc Hall2]. by constructor; [rewrite Hcl|]. }
  assert (Hcat : concat (c1 ++ chunk' :: c2) = concat c1 ++ chunk' ++ concat c2) by (by rewrite concat_app).
  destruct (PnioCyclic.output_frame_delivered h o (c1 ++ chunk' :: c2)
    (ccIOCS cc ++ put_u16 (ccCounter cc) ++ [DataStatusNormal; 0]) now Ho Hfid Hall') as (h' & Hh & _).
  { rewrite Hcat. rewrite Hout in Hlen. rewrite !length_app in *. lia. }
  exists bytes. do 2 eexists. exists chunk', h'. split; [done|]. split; [|split; [|split; [done|]]].
  - rewrite Hw. unfold sendOutputFrame. cbn [ccAR with_output_data ccOutput ccIOCS ccCounter].
    rewrite (proj2 (Z.eqb_neq _ _)) by done. unfold PnioCyclic.rt_frame. rewrite <- Hcat, <- Hid. reflexivity.
  - rewrite Hh. by rewrite Hsubs.
  - unfold chunk', PnioCyclic.copy_at.
    assert (Htk : length (take k chunk) = k) by (rewrite length_take; lia).
    replace (off) with (Z.of_nat (length (take k chunk)) + 0) by lia.
    by rewrite unpackValue_app by (done || lia).
Qed.

(** Two switches in one byte: turning the second on turns the first off, because a command
    for a bool writes the whole byte. *)
Theorem bool_commands_share_byte cc t1 t2 :
  Datatype t1 = "bool" → Datatype t2 = "bool" → ByteOffset t1 = ByteOffset t2 → BitOffset t1 ≠ BitOffset t2 →
  0 ≤ BitOffset t1 ≤ 7 → 0 ≤ BitOffset t2 ≤ 7 → 0 ≤ ByteOffset t1 < Z.of_nat (length (ccOutput cc)) →
  ∃ p1 p2, packTagValue t1 (VBool true) = Some p1 ∧ packTagValue t2 (VBool true) = Some p2 ∧
    let cc1 := WriteOutputTag cc (ByteOffset t1) p1 in
    let cc2 := WriteOutputTag cc1 (ByteOffset t2) p2 in
    unpackTagValue t1 (ccOutput cc1) = Ok (VBool true) ∧
    unpackTagValue t1 (ccOutput cc2) = Ok (VBool false) ∧ unpackTagValue t2 (ccOutput cc2) = Ok (VBool true).
Proof.
  intros H1 H2 Ho Hne Hb1 Hb2 Hoff. unfold packTagValue. rewrite H1, H2. IoData.string_eqbs.
  do 2 eexists. split; [done|]. split; [done|]. cbv zeta. rewrite <- Ho.
  set (o := Z.to_nat (ByteOffset t1)).
  assert (Hwrite : ∀ c x, length (ccOutput c) = length (ccOutput cc) →
    ccOutput (WriteOutputTag c (ByteOffset t1) [x]) !! o = Some x ∧
    length (ccOutput (WriteOutputTag c (ByteOffset t1) [x])) = length (ccOutput cc)).
  { intros c x Hl. unfold WriteOutputTag. fold o. rewrite (proj2 (Nat.leb_le _ _)) by (cbn [length]; lia).
    cbn [with_output_data ccOutput]. split; [|rewrite PnioCyclic.length_copy_at; cbn [length]; lia].
    unfold PnioCyclic.copy_at. rewrite lookup_app_r by (rewrite length_take; lia).
    rewrite length_take, Nat.min_l, Nat.sub_diag by lia. done. }
  assert (Hread : ∀ t c x, Datatype t = "bool" → ByteOffset t = ByteOffset t1 → 0 ≤ BitOffset t →
    length (ccOutput c) = length (ccOutput cc) → ccOutput c !! o = Some x →
    unpackTagValue t (ccOutput c) = Ok (VBool (Z.testbit x (BitOffset t)))).
  { intros t c x Hd Hto Hbt Hl Hx. rewrite unpackTagValue_read; rewrite ?Hd, ?Hto; [|lia|done|change (IoData.TypeSize "bool") with 1; lia].
    apply IoData.unpack_bool; [|done]. unfold index. fold o. by rewrite Hx. }
  destruct (Hwrite cc (wrapu 8 (Z.shiftl 1 (BitOffset t1))) eq_refl) as [Hx1 Hl1].
  destruct (Hwrite _ (wrapu 8 (Z.shiftl 1 (BitOffset t2))) Hl1) as [Hx2 Hl2].
  rewrite (Hread t1 _ _ H1 eq_refl ltac:(lia) Hl1 Hx1), (Hread t1 _ _ H1 eq_refl ltac:(lia) Hl2 Hx2),
    (Hread t2 _ _ H2 ltac:(lia) ltac:(lia) Hl2 Hx2).
  rewrite !IoData.mask_bit, !Z.eqb_refl by lia. by rewrite (proj2 (Z.eqb_neq _ _)) by done.
Qed.

End Delivery.

(** ** The frame loop stops at the first input frame *)

Import Locks.

(** Goroutine [i] still has to take [m] a second time: it has not taken it yet, or holds it. *)
Inductive doomed (s : sys) (i : nat) (m : mutex) : Prop :=
  | doomed_before p q k : threads s !! i = Some (p ++ Acquire m :: q ++ Acquire m :: k) →
      Forall (λ a, a ≠ Release m) q → doomed s i m
  | doomed_holding q k : threads s !! i = Some (q ++ Acquire m :: k) → Forall (λ a, a ≠ Release m) q →
      holder s m = Some i → doomed s i m.

(** A step leaves a goroutine and its locks alone, or is the goroutine's next action. *)
Lemma step_thread s s' i l : step s s' → threads s !! i = Some l →
  (threads s' !! i = Some l ∧ ∀ m, holder s m = Some i → holder s' m = Some i) ∨
  ∃ a k, l = a :: k ∧ threads s' !! i = Some k ∧
    (∀ m, a ≠ Release m → holder s m = Some i → holder s' m = Some i) ∧
    (∀ m, a = Acquire m → holder s m = None ∧ holder s' m = Some i).
Proof.
  intros Hst Hl. destruct Hst as [h ts j m' k' Hj Hfree|h ts j m' k' Hj Hhold|h ts j p k' Hj]; cbn [threads holder] in *;
    pose proof (lookup_lt_Some _ _ _ Hj) as Hlt; (destruct (decide (j = i)) as [->|Hne];
      [right; rewrite Hj in Hl; injection Hl as <-; do 2 eexists; split; [done|]; split; [by rewrite list_lookup_insert_eq|]
      |left; split; [by rewrite list_lookup_insert_ne|]]).
  - unfold set_holder. split.
    + intros m _ Hm. by case_decide.
    + intros m [= <-]. by rewrite decide_True.
  - intros m Hm. unfold set_holder. case_decide; [subst; congruence|done].
  - unfold set_holder. split; [|done]. intros m Hm Hh. case_decide as Hd; [by subst|done].
  - intros m Hm. unfold set_holder. case_decide; [subst; congruence|done].
  - by split.
  - done.
Qed.

Lemma doomed_step s s' i m : doomed s i m → step s s' → doomed s' i m.
Proof.
  intros [p q k Ht Hq|q k Ht Hq Hh] Hst.
  - destruct (step_thread s s' i _ Hst Ht) as [[Ht' _]|(a & l & Hal & Ht' & _ & Hacq)].
    + by apply (doomed_before _ _ _ p q k).
    + destruct p as [|a' p]; injection Hal as <- <-.
      * apply (doomed_holding _ _ _ q k); [done..|]. by apply Hacq.
      * by apply (doomed_before _ _ _ p q k).
  - destruct (step_thread s s' i _ Hst Ht) as [[Ht' Hkeep]|(a & l & Hal & Ht' & Hkeep & Hacq)].
    + apply (doomed_holding _ _ _ q k); auto.
    + destruct q as [|a' q]; injection Hal as <- <-.
      * destruct (Hacq m eq_refl) as [Hn _]. congruence.
      * apply Forall_cons_1 in Hq as [Ha Hq]. apply (doomed_holding _ _ _ q k); auto.
Qed.

Lemma doomed_steps s s' i m : steps s s' → doomed s i m → doomed s' i m.
Proof. induction 1; eauto using doomed_step. Qed.

Lemma doomed_unfinished s i m : doomed s i m → threads s !! i ≠ Some [].
Proof. intros [p q k Ht _|q k Ht _ _]; rewrite Ht; [by destruct p|by destruct q]. Qed.

(** One input frame for a connected device stops the controller for good: whatever the other
    goroutines do, the frame loop never finishes with the frame, because the callback waits
    for the device's lock that the loop itself holds. *)
Theorem input_frame_deadlocks `{FloatText} iter payload now before d after cc data cc' h ts i s :
  dvCyclic d = Some cc → HandleInputFrame cc payload now = Ok (Some data, cc') →
  ts !! i = Some (frame_actions iter payload now (before ++ d :: after)) →
  steps (mkSys h ts) s → threads s !! i ≠ Some [].
Proof.
  intros Hcc Hin Hi Hsteps. apply (doomed_unfinished s i (DeviceMu (dvID d))). apply (doomed_steps _ _ _ _ Hsteps).
  unfold frame_actions in Hi. rewrite map_app, concat_app in Hi. cbn [map concat] in Hi.
  unfold device_actions at 2 in Hi. rewrite Hcc, Hin in Hi. unfold input_actions in Hi.
  rewrite <- !app_assoc in Hi. cbn [app] in Hi. rewrite app_comm_cons in Hi.
  eapply (doomed_before _ _ _ (Acquire ScannerMu :: concat (map (device_actions iter payload now) before)) []);
    [exact Hi|apply List.Forall_nil].
Qed.

(** ** Subscriptions *)

Inductive request :=
  | Subscribe (data : string + SubscribeRequest) (open : option string)
  | Unsubscribe (data : string + UnsubscribeRequest).

Section Subscriptions.
Context (iter : gmap string tag_map → list (string * tag_map)).
Context (iter_perm : ∀ m, iter m ≡ₚ map_to_list m).

Definition handle (s : Scanner) (r : request) : reply * Scanner * list effect :=
  match r with
  | Subscribe data open => handleSubscribe iter s data open
  | Unsubscribe data => handleUnsubscribe iter s data
  end.

(** The scanner and the effects after a sequence of requests. *)
Fixpoint serve (s : Scanner) (rs : list request) : Scanner * list effect :=
  match rs with
  | [] => (s, [])
  | r :: rs' =>
      let '(_, s, effs) := handle s r in
      let (s, effs') := serve s rs' in
      (s, effs ++ effs')
  end.

(** What the tag index of a device has to be: the tags its subscribers asked for. *)
Definition index_ok (subs : gmap string tag_map) (tags : tag_map) : Prop :=
  (∀ id t, tags !! id = Some t → ∃ s ts, subs !! s = Some ts ∧ ts !! id = Some t) ∧
  (∀ s ts id, subs !! s = Some ts → is_Some (ts !! id) → is_Some (tags !! id)).

Record device_ok (k : string) (d : DeviceState) : Prop := {
  ok_id : dvID d = k;
  ok_running : stopped d = false;
  ok_subscribed : Subscribers d ≠ ∅;
  ok_tags : index_ok (Subscribers d) (allTags d);
}.

Definition scanner_ok (s : Scanner) : Prop := map_Forall device_ok (devices s).

(** Whether the loop of a device runs after some effects; [None] when it was started twice
    or stopped without running. *)
Fixpoint loop_runs (k : string) (r : bool) (effs : list effect) : option bool :=
  match effs with
  | [] => Some r
  | StartLoop d :: effs' =>
      if String.eqb d k then if r then None else loop_runs k true effs' else loop_runs k r effs'
  | CloseStop d :: effs' =>
      if String.eqb d k then if r then loop_runs k false effs' else None else loop_runs k r effs'
  | StartFrameLoop :: effs' => loop_runs k r effs'
  end.

Definition known (s : Scanner) (k : string) : bool := bool_decide (is_Some (devices s !! k)).

Lemma loop_runs_app k r e1 e2 : loop_runs k r (e1 ++ e2) = r' ← loop_runs k r e1; loop_runs k r' e2.
Proof.
  revert r. induction e1 as [|[d|d|] e1 IH]; intros r; cbn [loop_runs app]; [done| | |apply IH].
  - destruct (String.eqb d k); [destruct r; [done|]|]; apply IH.
  - destruct (String.eqb d k); [destruct r; [|done]|]; apply IH.
Qed.

Lemma fold_union_spec (l : list (string * tag_map)) acc id :
  let m := fold_left (λ all sub, snd sub ∪ all) l acc in
  (∀ t, m !! id = Some t → acc !! id = Some t ∨ ∃ s ts, (s, ts) ∈ l ∧ ts !! id = Some t) ∧
  (is_Some (acc !! id) ∨ (∃ s ts, (s, ts) ∈ l ∧ is_Some (ts !! id)) → is_Some (m !! id)).
Proof.
  revert acc. induction l as [|[s ts] l IH]; intros acc; cbn [fold_left snd].
  { split; [by left|]. intros [?|(s & ts & Hin & _)]; [done|]. by apply not_elem_of_nil in Hin. }
  destruct (IH (ts ∪ acc)) as [H1 H2]. split.
  - intros t Ht. destruct (H1 t Ht) as [Hu|(s' & ts' & Hin & Ht')].
    + apply lookup_union_Some_raw in Hu as [Hu|[_ Hu]]; [|by left]. right. exists s, ts. split; [by left|done].
    + right. exists s', ts'. split; [by right|done].
  - intros Hex. apply H2. destruct Hex as [[t Ht]|(s' & ts' & Hin & Ht')].
    + left. rewrite lookup_union. rewrite Ht. by destruct (ts !! id).
    + apply elem_of_cons in Hin as [[= -> ->]|Hin]; [left|by right; exists s', ts'].
      destruct Ht' as [t Ht']. rewrite lookup_union, Ht'. by destruct (acc !! id).
Qed.

Lemma rebuild_index d : index_ok (Subscribers d) (allTags (rebuildDeviceTags iter d)).
Proof.
  split.
  - intros id t Ht. apply (fold_union_spec (iter (Subscribers d)) ∅ id) in Ht as [Ht|(s & ts & Hin & Ht)].
    + by rewrite lookup_empty in Ht.
    + exists s, ts. split; [|done]. by rewrite iter_perm, elem_of_map_to_list in Hin.
  - intros s ts id Hs Ht. apply (fold_union_spec (iter (Subscribers d)) ∅ id). right. exists s, ts. split; [|done].
    by rewrite iter_perm, elem_of_map_to_list.
Qed.

(** A rebuilt device with subscribers is in order. *)
Lemma rebuilt_ok k d subs : dvID d = k → stopped d = false → subs ≠ ∅ →
  device_ok k (rebuildDeviceTags iter (with_subs d subs)).
Proof. intros Hk Hs Hne. constructor; [done|done|done|]. apply (rebuild_index (with_subs d subs)). Qed.

Lemma known_insert s k d t k' : known (mkScanner (<[k := d]> (devices s)) t) k' = String.eqb k k' || known s k'.
Proof.
  unfold known. cbn [devices]. destruct (String.eqb_spec k k') as [<-|Hne].
  - rewrite lookup_insert_eq. by apply bool_decide_true.
  - by rewrite lookup_insert_ne.
Qed.

Lemma known_delete s k t k' : known (mkScanner (delete k (devices s)) t) k' = negb (String.eqb k k') && known s k'.
Proof.
  unfold known. cbn [devices]. destruct (String.eqb_spec k k') as [<-|Hne].
  - rewrite lookup_delete_eq. by apply bool_decide_false; intros [].
  - by rewrite lookup_delete_ne.
Qed.

Lemma subscribe_ok s data open rep s' effs : scanner_ok s → handleSubscribe iter s data open = (rep, s', effs) →
  scanner_ok s' ∧ ∀ k, loop_runs k (known s k) effs = Some (known s' k).
Proof.
  intros Hok. unfold handleSubscribe. destruct data as [e|q]; [by intros [= <- <- <-]|].
  case_if; [by intros [= <- <- <-]|]. case_if; [by intros [= <- <- <-]|].
  assert (Ht : ∃ err t fx, ensureTransport s open = (err, mkScanner (devices s) t, fx) ∧ ∀ k r, loop_runs k r fx = Some r).
  { unfold ensureTransport. destruct s as [devs tr]. cbn [transport devices]. destruct tr; [by do 3 eexists|].
    destruct open; by do 3 eexists. }
  destruct Ht as (err & t & fx & -> & Hfx). destruct err as [e|]; [intros [= <- <- <-]; split; [done|intros k; apply Hfx]|].
  cbn [devices transport]. destruct (devices s !! qDeviceID q) as [dev|] eqn:Hd; intros [= <- <- <-].
  - destruct (Hok _ _ Hd) as [Hid Hrun _ _]. split.
    + apply map_Forall_insert_2; [|done]. apply rebuilt_ok; [done|done|apply insert_non_empty].
    + intros k. rewrite app_nil_r, Hfx, known_insert. destruct (String.eqb_spec (qDeviceID q) k) as [<-|]; [|done].
      unfold known. by rewrite Hd, bool_decide_true by done.
  - split.
    + apply map_Forall_insert_2; [|done]. apply rebuilt_ok; [done|done|apply insert_non_empty].
    + intros k. rewrite loop_runs_app, Hfx. cbn [mbind option_bind loop_runs]. rewrite known_insert.
      destruct (String.eqb_spec (qDeviceID q) k) as [<-|]; [|done].
      unfold known. by rewrite Hd, bool_decide_false by (by intros []).
Qed.

Lemma unsubscribe_ok s data rep s' effs : scanner_ok s → handleUnsubscribe iter s data = (rep, s', effs) →
  scanner_ok s' ∧ ∀ k, loop_runs k (known s k) effs = Some (known s' k).
Proof.
  intros Hok. unfold handleUnsubscribe. destruct data as [e|q]; [by intros [= <- <- <-]|].
  destruct (devices s !! uDeviceID q) as [dev|] eqn:Hd; [|by intros [= <- <- <-]].
  destruct (Hok _ _ Hd) as [Hid Hrun _ _].
  assert (Hk : known s (uDeviceID q) = true) by (unfold known; rewrite Hd; by apply bool_decide_true).
  set (subs := match uTagIDs q with [] => _ | _ => _ end). clearbody subs. cbv zeta. case_decide as Hs.
  - unfold stopDevice. cbn [stopped with_subs dvID]. rewrite Hrun. intros [= <- <- <-]. split.
    + by apply map_Forall_delete.
    + intros k. cbn [loop_runs]. rewrite Hid, known_delete. destruct (String.eqb_spec (uDeviceID q) k) as [<-|]; [|done].
      by rewrite Hk.
  - intros [= <- <- <-]. split.
    + apply map_Forall_insert_2; [|done]. by apply rebuilt_ok.
    + intros k. cbn [loop_runs]. rewrite known_insert. destruct (String.eqb_spec (uDeviceID q) k) as [<-|]; [|done].
      by rewrite Hk.
Qed.

Lemma serve_ok rs s0 s effs : scanner_ok s0 → serve s0 rs = (s, effs) →
  scanner_ok s ∧ ∀ k, loop_runs k (known s0 k) effs = Some (known s k).
Proof.
  revert s0 effs. induction rs as [|r rs IH]; cbn [serve]; intros s0 effs Hok; [by intros [= <- <-]|].
  destruct (handle s0 r) as [[rep s1] e1] eqn:Hr. destruct (serve s1 rs) as [s2 e2] eqn:Hs. intros [= <- <-].
  assert (H1 : scanner_ok s1 ∧ ∀ k, loop_runs k (known s0 k) e1 = Some (known s1 k))
    by (destruct r; [by apply (subscribe_ok s0 data open rep)|by apply (unsubscribe_ok s0 data rep)]).
  destruct H1 as [Hok1 Hr1]. destruct (IH s1 e2 Hok1 Hs) as [Hok2 Hr2]. split; [done|].
  intros k. rewrite loop_runs_app, Hr1. apply Hr2.
Qed.

(** Whatever requests arrive: every device in the table has subscribers, its tags are those
    its subscribers asked for, its loop runs, and no loop runs for a device that is not in
    the table; a stop channel is never closed twice. *)
Theorem scanner_serves_subscribers rs s effs :
  serve (mkScanner ∅ false) rs = (s, effs) →
  scanner_ok s ∧ ∀ k, loop_runs k false effs = Some (known s k).
Proof.
  intros Hs. apply serve_ok in Hs as [Hok Hr]; [|apply map_Forall_empty]. split; [done|].
  intros k. by rewrite <- Hr.
Qed.
End Subscriptions.

(** ** Input data *)

Section Inputs.
Context `{FloatConv, FloatText}.

(** The tags of a device, in any order, after one frame: each input tag whose value can be
    read is recorded, and published exactly when its text differs from the recorded one. *)
Definition tag_changed (lv : gmap string value) (data : list Z) (id : string) (tag : ControllerTag) : option value :=
  if negb (String.eqb (cDirection tag) "input") then None
  else match unpackTagValue tag data with
       | Ok VNil => None
       | Ok v => if match lv !! id with Some l => String.eqb (fmt_v l) (fmt_v v) | None => false end then None else Some v
       | _ => None
       end.

Lemma unpackTagValue_ok tag data : 0 ≤ ByteOffset tag → ∃ v, unpackTagValue tag data = Ok v.
Proof.
  intros Ho. rewrite unpackTagValue_cases by done.
  destruct (Z.eqb_spec (IoData.TypeSize (Datatype tag)) 0) as [|Hk]; [by eexists|]. cbn [orb]. case_if; [by eexists|]. bool_to_prop.
  destruct (IoData.unpackValue_ok data (ByteOffset tag) (BitOffset tag) (Datatype tag)) as (v & Hv & _); [done|lia|by exists v].
Qed.

Lemma input_tag_spec dev data lv id tag : 0 ≤ ByteOffset tag →
  ∃ lv' pubs, input_tag dev data lv id tag = Ok (lv', pubs) ∧
    lv' = (match tag_changed lv data id tag with Some v => <[id := v]> lv | None => lv end) ∧
    map (λ p, (pubVariable p, pubValue p)) pubs =
      (match tag_changed lv data id tag with Some v => if json_ok v then [(id, v)] else [] | None => [] end).
Proof.
  intros Ho. unfold input_tag, tag_changed. destruct (negb _); [by do 2 eexists|].
  destruct (unpackTagValue_ok tag data Ho) as [v ->]. cbn [mbind outcome_bind].
  destruct (is_nil v) eqn:Hnil; [destruct v; try done; by do 2 eexists|].
  set (same := match lv !! id with Some l => _ | None => false end).
  replace (match v with VNil => None | _ => _ end) with (if same then None else Some v) by (by destruct v).
  destruct same; [by do 2 eexists|]. do 2 eexists. split; [done|]. split; [done|]. by destruct (json_ok v).
Qed.

Lemma input_tags_spec dev data tags lv :
  NoDup tags.*1 → Forall (λ it, 0 ≤ ByteOffset (snd it)) tags →
  ∃ lv' pubs, input_tags dev data lv tags = Ok (lv', pubs) ∧
    (∀ id, id ∉ tags.*1 → lv' !! id = lv !! id) ∧
    (∀ id tag, (id, tag) ∈ tags → lv' !! id = match tag_changed lv data id tag with Some v => Some v | None => lv !! id end) ∧
    map (λ p, (pubVariable p, pubValue p)) pubs =
      concat (map (λ it, match tag_changed lv data (fst it) (snd it) with
                         | Some v => if json_ok v then [(fst it, v)] else [] | None => [] end) tags).
Proof.
  revert lv. induction tags as [|[id tag] tags IH]; intros lv Hnd Ho; cbn [input_tags].
  { do 2 eexists. split; [done|]. split; [done|]. split; [|done]. intros ? ? Hin. by apply not_elem_of_nil in Hin. }
  cbn [fmap list_fmap fst] in Hnd. pose proof (NoDup_cons_1_1 _ _ Hnd) as Hni. apply NoDup_cons_1_2 in Hnd. apply Forall_cons_1 in Ho as [Ho1 Ho]. cbn [snd] in Ho1.
  destruct (input_tag_spec dev data lv id tag Ho1) as (lv1 & pubs1 & -> & Hlv1 & Hp1). cbn [mbind outcome_bind].
  destruct (IH lv1 Hnd Ho) as (lv2 & pubs2 & -> & Hout & Hin2 & Hp2). cbn [mbind outcome_bind].
  assert (Hsame : ∀ id', id' ≠ id → lv1 !! id' = lv !! id').
  { intros id' Hne. rewrite Hlv1. destruct (tag_changed _ _ _ _); [by rewrite lookup_insert_ne|done]. }
  assert (Hch : ∀ id' t, id' ≠ id → tag_changed lv1 data id' t = tag_changed lv data id' t).
  { intros id' t Hne. unfold tag_changed. by rewrite Hsame. }
  exists lv2, (pubs1 ++ pubs2). split; [done|]. split; [|split].
  - intros id' Hn. cbn [fmap list_fmap fst] in Hn. apply not_elem_of_cons in Hn as [Hne Hn]. by rewrite Hout, Hsame.
  - intros id' t' [[= -> ->]|Hin]%elem_of_cons.
    + rewrite Hout by done. rewrite Hlv1. destruct (tag_changed _ _ _ _); [apply lookup_insert_eq|done].
    + assert (Hne : id' ≠ id).
      { intros ->. apply Hni. apply list_elem_of_fmap. by exists (id, t'). }
      by rewrite (Hin2 id' t' Hin), Hch, Hsame by done.
  - rewrite map_app, Hp1, Hp2. cbn [map concat fst snd]. f_equal. f_equal. apply List.map_ext_in. intros [id' t'] Hin. cbn [fst snd].
    assert (Hne : id' ≠ id).
    { intros ->. apply Hni. apply list_elem_of_fmap. exists (id, t'). split; [done|]. by apply list_elem_of_In. }
    by rewrite Hch.
Qed.

(** One input frame: a tag's recorded value becomes the value read from the frame exactly
    when its text differs from the recorded one, and these values, and no others, are
    published; a float that is not finite is recorded but not published. *)
Theorem handleInputData_publishes iter d data :
  (∀ m, iter m ≡ₚ map_to_list m) → map_Forall (λ _ t, 0 ≤ ByteOffset t) (allTags d) →
  ∃ d' pubs, handleInputData iter d data = Ok (d', pubs) ∧
    (∀ id tag, allTags d !! id = Some tag →
      lastValues d' !! id = match tag_changed (lastValues d) data id tag with Some v => Some v | None => lastValues d !! id end) ∧
    (∀ id v, (id, v) ∈ map (λ p, (pubVariable p, pubValue p)) pubs ↔
      ∃ tag, allTags d !! id = Some tag ∧ tag_changed (lastValues d) data id tag = Some v ∧ json_ok v = true).
Proof.
  intros Hiter Ho. unfold handleInputData. specialize (Hiter (allTags d)).
  destruct (input_tags_spec (dvID d) data (iter (allTags d)) (lastValues d)) as (lv & pubs & -> & _ & Hin & Hp).
  { rewrite Hiter. apply NoDup_fst_map_to_list. }
  { apply List.Forall_forall. intros [id tag] Hin%list_elem_of_In. rewrite Hiter, elem_of_map_to_list in Hin. by apply (Ho id). }
  cbn [mbind outcome_bind]. do 2 eexists. split; [done|]. split.
  - intros id tag Ht. apply Hin. by rewrite Hiter, elem_of_map_to_list.
  - intros id v. rewrite Hp, list_elem_of_In, List.in_concat. split.
    + intros (l & Hl & Hv). apply List.in_map_iff in Hl as ([id' tag] & <- & Ht%list_elem_of_In).
      rewrite Hiter, elem_of_map_to_list in Ht. cbn [fst snd] in Hv.
      destruct (tag_changed _ _ _ _) as [w|] eqn:Hc; [|done]. destruct (json_ok w) eqn:Hj; [|done].
      destruct Hv as [[= <- <-]|[]]. by exists tag.
    + intros (tag & Ht & Hc & Hj). exists [(id, v)]. split; [|by left]. apply List.in_map_iff. exists (id, tag).
      cbn [fst snd]. rewrite Hc, Hj. split; [done|]. apply list_elem_of_In. by rewrite Hiter, elem_of_map_to_list.
Qed.
End Inputs.

(** ** Bounds *)

(** The waiting time grows by a second per failure up to half a minute. *)
Theorem backoff_bounds n : 0 ≤ n < 2 ^ 32 →
  backoffDuration n = Z.min (n * second) (30 * second).
Proof.
  intros Hn. unfold backoffDuration, second. destruct (Z.eqb_spec n 0) as [->|]; [done|].
  rewrite wraps_small by (unfold in_s; lia). destruct (Z.ltb_spec (30 * 1000000000) (n * 1000000000)); lia.
Qed.

(** ** Two devices *)

(** Every device numbers its frames from the same start, and the controller tells frames
    apart by their number alone: with two devices established, an input frame of either one
    is taken as input of both. *)
Theorem input_frames_of_two_devices_mix mac1 mac2 c1 c2 boot ar1 ar2 ip1 ip2 from ts now rest :
  wf_params (cParams ar1) → wf_params (cParams ar2) → in_u 32 boot →
  ∃ car1 car2 s1 s2 e1 e2,
    Establish (device_call from ts) ar1 (mkServer (NewARManager c1 mac1) ip1 boot, []) = (Ok (), car1, (s1, e1)) ∧
    Establish (device_call from ts) ar2 (mkServer (NewARManager c2 mac2) ip2 boot, []) = (Ok (), car2, (s2, e2)) ∧
    let frame := put_u16 (cInputFrameID car1) ++ rest in
    ∀ cc1 cc2, cc1 = NewControllerCyclic car1 now → cc2 = NewControllerCyclic car2 now →
      ∃ cc1' cc2', HandleInputFrame cc1 frame now = Ok (Some rest, cc1') ∧
        HandleInputFrame cc2 frame now = Ok (Some rest, cc2').
Proof.
  intros H1 H2 Hb.
  destruct (session_spec from ts (mkServer (NewARManager c1 mac1) ip1 boot) ar1 H1 Hb) as (ex1 & car1 & s1 & He1 & Hc1 & _); [done|].
  destruct (session_spec from ts (mkServer (NewARManager c2 mac2) ip2 boot) ar2 H2 Hb) as (ex2 & car2 & s2 & He2 & Hc2 & _); [done|].
  do 6 eexists. split; [exact He1|]. split; [exact He2|]. rewrite Hc1, Hc2. cbv zeta. intros cc1 cc2 -> ->.
  unfold HandleInputFrame. rewrite (proj2 (Nat.ltb_ge _ _)) by (rewrite length_app, length_be_bytes; lia).
  rewrite get_be_here. cbn [mbind outcome_bind]. do 2 eexists. split; reflexivity.
Qed.

(** ** Examples *)

Definition ex_cfg : IoData.ProfinetConfig :=
  IoData.mkConfig "dev" "eth0" 1 2 "Dev" 1000
    [IoData.mkSlot 1 1 [IoData.mkSubslot 1 1 IoData.DirectionInput 2 0 []; IoData.ex_sub];
     IoData.mkSlot 2 1 [IoData.mkSubslot 1 3 IoData.DirectionOutput 0 1 []; IoData.mkSubslot 2 3 IoData.DirectionOutput 0 4 []]].

Definition ex_iocr (type frameID len : Z) : IOCRInfo := mkIOCRInfo type 1 frameID len 32 1 10 3 [].
Definition ex_dev_ar : AR :=
  mkARel ex_uuid 1 1 [2; 0; 0; 0; 0; 1] "c" ex_uuid ARStateData (Some (ex_iocr 1 0xC001 14)) (Some (ex_iocr 2 0xC010 5)) None None.
Definition ex_handler : PnioCyclic.CyclicHandler := PnioCyclic.NewCyclicHandler ex_dev_ar ex_cfg 0.
Definition ex_ctrl : ControllerCyclic :=
  NewControllerCyclic (mkCAR (mkParams ex_uuid [2; 0; 0; 0; 0; 1] "dev" 14 5 0xC010 1 []) 1 CData 0xC001 2) 0.
Definition ex_input (s : IoData.SubslotConfig) : list Z :=
  if IoData.InputSize s =? 12 then [9; 0; 255; 254; 0; 1; 17; 112; 63; 192; 0; 0] else [5; 6].

Lemma unpackTagValue_spec_witness :
  unpackTagValue (mkCTag "t" 1 0 "uint16" "input") [1; 2; 3] = IoData.unpackValue [1; 2; 3] 1 0 "uint16".
Proof. apply (unpackTagValue_spec (mkCTag "t" 1 0 "uint16" "input") [1; 2; 3]). apply (bool_decide_unpack _); vm_compute; exact I. Defined.

Lemma input_value_delivered_witness :
  ∃ frame h' data cc', PnioCyclic.sendInputFrame ex_input ex_handler = (Some frame, h') ∧
    HandleInputFrame ex_ctrl frame 5 = Ok (Some data, cc') ∧
    unpackTagValue (mkCTag "speed" 4 0 "int16" "input") data = Ok (VInt KInt16 (-2)).
Proof.
  apply (@input_value_delivered conv_zero 1 ex_input ex_handler (ex_iocr 1 0xC001 14)
    [IoData.mkSubslot 1 1 IoData.DirectionInput 2 0 []] IoData.ex_sub [] IoData.ex_values
    (IoData.mkTag "speed" 2 0 IoData.TypeInt16 "c") (VInt KInt (-2)) ex_ctrl (mkCTag "speed" 4 0 "int16" "input") 5);
    try reflexivity; try (apply (bool_decide_unpack _); vm_compute; exact I).
  - constructor; apply (bool_decide_unpack _); vm_compute; exact I.
  - exact IoData.apart_witness.
  - apply (list_elem_of_In _ _). right. right. left. reflexivity.
Defined.

Lemma output_value_delivered_witness :
  let _ := conv_zero in let _ := no_float_text in
  ∃ bytes frame cc' chunk' h',
    packTagValue (mkCTag "sp" 1 0 "uint32" "output") (VInt KInt 7) = Some bytes ∧
    sendOutputFrame (WriteOutputTag ex_ctrl 1 bytes) = (Some frame, cc') ∧
    PnioCyclic.HandleOutputFrame ex_handler frame 5
    = Ok (zip (PnioCyclic.output_subs ex_cfg) ([[0]] ++ [chunk']), h') ∧
    length chunk' = 4%nat ∧ IoData.unpackValue chunk' 0 0 "uint32" = Ok (VInt KUint32 7).
Proof.
  cbv zeta. assert (Hf : @IoData.received conv_zero "uint32" (VFloat64 (f64_of_Z 7)) = VInt KUint32 7) by (vm_compute; reflexivity).
  rewrite <- Hf.
  apply (@output_value_delivered conv_zero no_float_text ex_ctrl (mkCTag "sp" 1 0 "uint32" "output") (VInt KInt 7) (f64_of_Z 7)
    ex_handler (ex_iocr 2 0xC010 5) [[0]] [0; 0; 0; 0] [] [IoData.mkSubslot 1 3 IoData.DirectionOutput 0 1 []]
    (IoData.mkSubslot 2 3 IoData.DirectionOutput 0 4 []) [] 5 0);
    try reflexivity; try (apply (bool_decide_unpack _); vm_compute; exact I).
Defined.

Lemma bool_commands_share_byte_witness :
  let t1 := mkCTag "a" 0 0 "bool" "output" in let t2 := mkCTag "b" 0 3 "bool" "output" in
  let _ := conv_zero in let _ := no_float_text in
  ∃ p1 p2, packTagValue t1 (VBool true) = Some p1 ∧ packTagValue t2 (VBool true) = Some p2 ∧
    let cc1 := WriteOutputTag ex_ctrl 0 p1 in let cc2 := WriteOutputTag cc1 0 p2 in
    unpackTagValue t1 (ccOutput cc1) = Ok (VBool true) ∧
    unpackTagValue t1 (ccOutput cc2) = Ok (VBool false) ∧ unpackTagValue t2 (ccOutput cc2) = Ok (VBool true).
Proof.
  cbv zeta. apply (@bool_commands_share_byte conv_zero no_float_text ex_ctrl (mkCTag "a" 0 0 "bool" "output") (mkCTag "b" 0 3 "bool" "output"));
    try reflexivity; try discriminate; apply (bool_decide_unpack _); vm_compute; exact I.
Defined.

Definition ex_dev : DeviceState :=
  mkDev "d" "dev" None None 1 ∅ [] None (Some ex_ctrl) false 0 ∅ {["t" := mkCTag "t" 0 0 "uint8" "input"]}.

Lemma input_frame_deadlocks_witness :
  let _ := no_float_text in
  threads (mkSys (λ _, None) [frame_actions map_to_list [192; 1; 7] 5 [ex_dev]]) !! 0%nat ≠ Some [].
Proof.
  cbv zeta. destruct (HandleInputFrame ex_ctrl [192; 1; 7] 5) as [[[data|] cc']| |] eqn:H; [|by vm_compute in H..].
  apply (@input_frame_deadlocks no_float_text map_to_list [192; 1; 7] 5 [] ex_dev [] ex_ctrl data cc' (λ _, None)
    [@frame_actions no_float_text map_to_list [192; 1; 7] 5 [ex_dev]] 0); [reflexivity|exact H|reflexivity|apply steps_refl].
Defined.

Definition ex_requests : list request :=
  [Subscribe (inr (mkSubscribe "gw" "d" "dev" None "eth0" 0 ex_slots)) None;
   Subscribe (inr (mkSubscribe "plc" "d" "dev" None "eth0" 0 ex_slots)) None;
   Unsubscribe (inr (mkUnsubscribe "gw" "d" ["t"]));
   Unsubscribe (inr (mkUnsubscribe "plc" "d" []))].

Lemma scanner_serves_subscribers_witness :
  scanner_ok (fst (serve map_to_list (mkScanner ∅ false) ex_requests)) ∧
  ∀ k, loop_runs k false (snd (serve map_to_list (mkScanner ∅ false) ex_requests))
    = Some (known (fst (serve map_to_list (mkScanner ∅ false) ex_requests)) k).
Proof.
  apply (scanner_serves_subscribers map_to_list (λ m, Permutation_refl _) ex_requests).
  by destruct (serve map_to_list (mkScanner ∅ false) ex_requests).
Defined.

Lemma handleInputData_publishes_witness :
  let _ := no_float_text in
  ∃ d' pubs, handleInputData map_to_list ex_dev [7; 8] = Ok (d', pubs) ∧ lastValues d' !! "t" = Some (VInt KUint8 7).
Proof.
  cbv zeta. destruct (@handleInputData_publishes no_float_text map_to_list ex_dev [7; 8]) as (d' & pubs & H & Hl & _).
  - intros m. reflexivity.
  - apply map_Forall_to_list. apply (bool_decide_unpack _); vm_compute; exact I.
  - exists d', pubs. split; [exact H|]. rewrite (Hl "t" (mkCTag "t" 0 0 "uint8" "input")) by reflexivity. reflexivity.
Defined.

Lemma backoff_bounds_witness : backoffDuration 40 = Z.min (40 * second) (30 * second).
Proof. apply (backoff_bounds 40). lia. Defined.

Lemma input_frames_of_two_devices_mix_witness :
  ∃ car1 car2 s1 s2 e1 e2,
    Establish (device_call "c" 0) ex_car (mkServer (NewARManager ex_cfg [1]) [] 0, []) = (Ok (), car1, (s1, e1)) ∧
    Establish (device_call "c" 0) ex_car (mkServer (NewARManager ex_cfg [2]) [] 0, []) = (Ok (), car2, (s2, e2)) ∧
    let frame := put_u16 (cInputFrameID car1) ++ [7; 8] in
    ∀ cc1 cc2, cc1 = NewControllerCyclic car1 0 → cc2 = NewControllerCyclic car2 0 →
      ∃ cc1' cc2', HandleInputFrame cc1 frame 0 = Ok (Some [7; 8], cc1') ∧ HandleInputFrame cc2 frame 0 = Ok (Some [7; 8], cc2').
Proof.
  apply (input_frames_of_two_devices_mix [1] [2] ex_cfg ex_cfg 0 ex_car ex_car [] [] "c" 0 0 [7; 8]);
    first [constructor; apply (bool_decide_unpack _); vm_compute; exact I | apply (bool_decide_unpack _); vm_compute; exact I].
Defined.
