(* ===== verification/Sparkplug.v ===== *)
(** Sparkplug B payloads: internal/sparkplug/payload.go and types.go.

    Metrics hold dynamic values, templates hold metrics. Encoding translates them to the
    generated protobuf messages (records with optional fields and a value that is one of
    several cases), whose byte format belongs to the protobuf library: it is the class
    [Protobuf], of which the code needs that reading gives back what was written. *)

From S2P Require Export Prelude GoBytes GoText GoFloat GoValue.

#[local] Open Scope Z_scope.

(** ** Data types (types.go) *)

Definition TypeUnknown : Z := 0.
Definition TypeInt8 : Z := 1.
Definition TypeInt16 : Z := 2.
Definition TypeInt32 : Z := 3.
Definition TypeInt64 : Z := 4.
Definition TypeUInt8 : Z := 5.
Definition TypeUInt16 : Z := 6.
Definition TypeUInt32 : Z := 7.
Definition TypeUInt64 : Z := 8.
Definition TypeFloat : Z := 9.
Definition TypeDouble : Z := 10.
Definition TypeBoolean : Z := 11.
Definition TypeString : Z := 12.
Definition TypeDateTime : Z := 13.
Definition TypeText : Z := 14.
Definition TypeBytes : Z := 17.
Definition TypeTemplate : Z := 19.

Definition typeStringMap : list (string * Z) :=
  [("Int8", TypeInt8); ("Int16", TypeInt16); ("Int32", TypeInt32); ("Int64", TypeInt64);
   ("UInt8", TypeUInt8); ("UInt16", TypeUInt16); ("UInt32", TypeUInt32); ("UInt64", TypeUInt64);
   ("Float", TypeFloat); ("Double", TypeDouble); ("Boolean", TypeBoolean); ("String", TypeString);
   ("DateTime", TypeDateTime); ("Text", TypeText); ("Template", TypeTemplate); ("Bytes", TypeBytes)].

(** [init] inverts the table; a code that occurs once does not depend on the order. *)
Definition typeCodeMap : list (Z * string) := map (λ e, (e.2, e.1)) typeStringMap.

Definition TypeFromString (s : string) : Z :=
  match find (λ e, String.eqb e.1 s) typeStringMap with Some e => e.2 | None => TypeUnknown end.

Definition TypeToString (code : Z) : string :=
  match find (λ e, e.1 =? code) typeCodeMap with Some e => e.2 | None => "Unknown" end.

Definition NatsToSparkplugType (natsType : string) : Z :=
  if String.eqb natsType "number" then TypeDouble
  else if String.eqb natsType "boolean" then TypeBoolean
  else if String.eqb natsType "string" then TypeString
  else if String.eqb natsType "udt" then TypeTemplate
  else TypeString.

(** The case [TypeInt8, ..., TypeUInt32] of the type switches. *)
Definition is_int32_type (dt : Z) : bool :=
  (dt =? TypeInt8) || (dt =? TypeInt16) || (dt =? TypeInt32) ||
  (dt =? TypeUInt8) || (dt =? TypeUInt16) || (dt =? TypeUInt32).
Definition is_int64_type (dt : Z) : bool :=
  (dt =? TypeInt64) || (dt =? TypeDateTime) || (dt =? TypeUInt64).
Definition is_string_type (dt : Z) : bool := (dt =? TypeString) || (dt =? TypeText).

Definition SparkplugToNatsType (code : Z) : string :=
  if is_int32_type code || is_int64_type code || (code =? TypeFloat) || (code =? TypeDouble) then "number"
  else if code =? TypeBoolean then "boolean"
  else if code =? TypeTemplate then "udt"
  else "string".

(** ** Metrics, templates and payloads *)

Record MetricOf (V : Type) := mkMetric {
  Name : string;
  Alias : Z;
  Timestamp : Z;
  Datatype : Z;
  IsHistorical : bool;
  IsTransient : bool;
  IsNull : bool;
  Value : V;
}.
Arguments mkMetric {V}.
Arguments Name {V}.
Arguments Alias {V}.
Arguments Timestamp {V}.
Arguments Datatype {V}.
Arguments IsHistorical {V}.
Arguments IsTransient {V}.
Arguments IsNull {V}.
Arguments Value {V}.

Record Param := mkParam { pName : string; pDatatype : Z; pValue : value }.

Record TemplateOf (M : Type) := mkTemplate {
  Version : string;
  TemplateRef : string;
  IsDefinition : bool;
  Metrics : list M;
  Parameters : list Param;
}.
Arguments mkTemplate {M}.
Arguments Version {M}.
Arguments TemplateRef {M}.
Arguments IsDefinition {M}.
Arguments Metrics {M}.
Arguments Parameters {M}.

(** The dynamic values of a metric: those of [value], a [[]byte], a [*Template]. *)
Inductive mvalue : Type :=
  | Plain (v : value)
  | Bytes (b : list Z)
  | TemplatePtr (t : option (TemplateOf (MetricOf mvalue))).

Notation Metric := (MetricOf mvalue).
Notation Template := (TemplateOf (MetricOf mvalue)).

Record Payload := mkPayload {
  plTimestamp : Z;
  Seq : Z;
  OmitSeq : bool;
  plMetrics : list Metric;
}.

(** ** Protobuf messages (the fields of the generated code that are used) *)

Record pbMetricOf (V : Type) := mkPbMetric {
  bName : option string;
  bAlias : option Z;
  bTimestamp : option Z;
  bDatatype : option Z;
  bIsHistorical : option bool;
  bIsTransient : option bool;
  bIsNull : option bool;
  bValue : option V;
}.
Arguments mkPbMetric {V}.
Arguments bName {V}.
Arguments bAlias {V}.
Arguments bTimestamp {V}.
Arguments bDatatype {V}.
Arguments bIsHistorical {V}.
Arguments bIsTransient {V}.
Arguments bIsNull {V}.
Arguments bValue {V}.

Inductive pbParamValue :=
  | PIntValue (v : Z)
  | PLongValue (v : Z)
  | PFloatValue (f : float32)
  | PDoubleValue (f : float64)
  | PBooleanValue (b : bool)
  | PStringValue (s : string)
  | PExtensionValue.

Record pbParameter := mkPbParameter {
  bpName : option string;
  bpType : option Z;
  bpValue : option pbParamValue;
}.

Record pbTemplateOf (M : Type) := mkPbTemplate {
  bVersion : option string;
  bTemplateRef : option string;
  bIsDefinition : option bool;
  bMetrics : list M;
  bParameters : list pbParameter;
}.
Arguments mkPbTemplate {M}.
Arguments bVersion {M}.
Arguments bTemplateRef {M}.
Arguments bIsDefinition {M}.
Arguments bMetrics {M}.
Arguments bParameters {M}.

Inductive pbValue : Type :=
  | IntValue (v : Z)
  | LongValue (v : Z)
  | FloatValue (f : float32)
  | DoubleValue (f : float64)
  | BooleanValue (b : bool)
  | StringValue (s : string)
  | BytesValue (b : list Z)
  | DatasetValue
  | ExtensionValue
  | TemplateValue (t : option (pbTemplateOf (pbMetricOf pbValue))).

Notation pbMetric := (pbMetricOf pbValue).
Notation pbTemplate := (pbTemplateOf (pbMetricOf pbValue)).

Record pbPayload := mkPbPayload {
  bplTimestamp : option Z;
  bplSeq : option Z;
  bplMetrics : list pbMetric;
}.

(** The protobuf library, for messages without required fields. *)
Class Protobuf := {
  wire : Type;
  Marshal : pbPayload → wire;
  Unmarshal : wire → outcome pbPayload;
  Unmarshal_Marshal p : Unmarshal (Marshal p) = Ok p;
}.

(** A library whose wire format is the message itself. *)
Definition protobuf_id : Protobuf :=
  {| wire := pbPayload; Marshal := λ p, p; Unmarshal := Ok; Unmarshal_Marshal := λ p, eq_refl |}.

(** ** Numeric conversions *)

(** [float32(n)] of an integer. *)
Definition f32_of_Z (n : Z) : float32 := f32 (binary_normalize 24 128 n 0 false).

Definition kind_name (k : int_kind) : string :=
  match k with
  | KInt => "int" | KInt8 => "int8" | KInt16 => "int16" | KInt32 => "int32" | KInt64 => "int64"
  | KUint => "uint" | KUint8 => "uint8" | KUint16 => "uint16" | KUint32 => "uint32" | KUint64 => "uint64"
  end.

(** The verb [%T]. *)
Definition type_name (v : value) : string :=
  match v with
  | VNil => "<nil>"
  | VBool _ => "bool"
  | VInt k _ => kind_name k
  | VFloat64 _ => "float64"
  | VFloat32 _ => "float32"
  | VString _ => "string"
  | VJsonNumber _ => "json.Number"
  | VSlice _ => "[]interface {}"
  | VMap _ => "map[string]interface {}"
  end.
Definition mtype_name (v : mvalue) : string :=
  match v with
  | Plain v => type_name v
  | Bytes _ => "[]uint8"
  | TemplatePtr _ => "*sparkplug.Template"
  end.

Section Payload.
Context `{FloatConv}.

Definition toUint32 (v : mvalue) : outcome Z :=
  match v with
  | Plain (VInt _ n) => Ok (wrapu 32 n)
  | Plain (VFloat32 n) => Ok (to_uint 32 (f64_of_f32 n))
  | Plain (VFloat64 n) => Ok (to_uint 32 n)
  | _ => Err ("cannot convert " +:+ mtype_name v +:+ " to uint32")
  end.

Definition toUint64 (v : mvalue) : outcome Z :=
  match v with
  | Plain (VInt _ n) => Ok (wrapu 64 n)
  | Plain (VFloat32 n) => Ok (to_uint 64 (f64_of_f32 n))
  | Plain (VFloat64 n) => Ok (to_uint 64 n)
  | _ => Err ("cannot convert " +:+ mtype_name v +:+ " to uint64")
  end.

Definition toFloat32 (v : mvalue) : outcome float32 :=
  match v with
  | Plain (VFloat32 n) => Ok n
  | Plain (VFloat64 n) => Ok (f32_of_f64 n)
  | Plain (VInt KInt n) | Plain (VInt KInt64 n) | Plain (VInt KUint64 n) => Ok (f32_of_Z n)
  | _ => Err ("cannot convert " +:+ mtype_name v +:+ " to float32")
  end.

Definition toFloat64 (v : mvalue) : outcome float64 :=
  match v with
  | Plain (VFloat64 n) => Ok n
  | Plain (VFloat32 n) => Ok (f64_of_f32 n)
  | Plain (VInt _ n) => Ok (f64_of_Z n)
  | _ => Err ("cannot convert " +:+ mtype_name v +:+ " to float64")
  end.

(** ** Encoding *)

Definition encodeParameter (p : Param) : outcome pbParameter :=
  let pbp v := mkPbParameter (Some (pName p)) (Some (pDatatype p)) v in
  match pValue p with
  | VNil => Ok (pbp None)
  | pv =>
      let dt := pDatatype p in
      if is_int32_type dt then v ← toUint32 (Plain pv); Ok (pbp (Some (PIntValue v)))
      else if is_int64_type dt then v ← toUint64 (Plain pv); Ok (pbp (Some (PLongValue v)))
      else if dt =? TypeFloat then v ← toFloat32 (Plain pv); Ok (pbp (Some (PFloatValue v)))
      else if dt =? TypeDouble then v ← toFloat64 (Plain pv); Ok (pbp (Some (PDoubleValue v)))
      else if dt =? TypeBoolean then
        match pv with
        | VBool b => Ok (pbp (Some (PBooleanValue b)))
        | _ => Err ("expected bool, got " +:+ type_name pv)
        end
      else if is_string_type dt then
        match pv with
        | VString s => Ok (pbp (Some (PStringValue s)))
        | _ => Err ("expected string, got " +:+ type_name pv)
        end
      else Ok (pbp None)
  end.

Definition with_value (m : pbMetric) (v : pbValue) : pbMetric :=
  mkPbMetric (bName m) (bAlias m) (bTimestamp m) (bDatatype m) (bIsHistorical m) (bIsTransient m)
    (bIsNull m) (Some v).
Definition set_null (m : pbMetric) : pbMetric :=
  mkPbMetric (bName m) (bAlias m) (bTimestamp m) (bDatatype m) (bIsHistorical m) (bIsTransient m)
    (Some true) (bValue m).

(** [proto.String(s)] unless it is the zero value, and likewise. *)
Definition nonempty (s : string) : option string := if String.eqb s "" then None else Some s.
Definition nonzero (n : Z) : option Z := if n =? 0 then None else Some n.
Definition if_true (b : bool) : option bool := if b then Some true else None.

(** [encodeMetric] and [encodeTemplate] over the recursive call to [setMetricValue]. *)
Definition encodeMetric_with (setv : pbMetric → Z → mvalue → outcome pbMetric) (m : Metric) : outcome pbMetric :=
  let pbm := mkPbMetric (nonempty (Name m)) (nonzero (Alias m)) (nonzero (Timestamp m)) (Some (Datatype m))
    (if_true (IsHistorical m)) (if_true (IsTransient m)) (if_true (IsNull m)) None in
  if IsNull m then Ok pbm else setv pbm (Datatype m) (Value m).

Definition encodeTemplate_with (setv : pbMetric → Z → mvalue → outcome pbMetric) (t : Template)
    : outcome pbTemplate :=
  ms ← mapM (encodeMetric_with setv) (Metrics t);
  ps ← mapM encodeParameter (Parameters t);
  Ok (mkPbTemplate (nonempty (Version t)) (nonempty (TemplateRef t)) (Some (IsDefinition t)) ms ps).

Fixpoint setMetricValue (pbm : pbMetric) (dt : Z) (v : mvalue) {struct v} : outcome pbMetric :=
  match v with
  | Plain VNil => Ok (set_null pbm)
  | _ =>
      if is_int32_type dt then n ← toUint32 v; Ok (with_value pbm (IntValue n))
      else if is_int64_type dt then n ← toUint64 v; Ok (with_value pbm (LongValue n))
      else if dt =? TypeFloat then f ← toFloat32 v; Ok (with_value pbm (FloatValue f))
      else if dt =? TypeDouble then f ← toFloat64 v; Ok (with_value pbm (DoubleValue f))
      else if dt =? TypeBoolean then
        match v with
        | Plain (VBool b) => Ok (with_value pbm (BooleanValue b))
        | _ => Err ("expected bool, got " +:+ mtype_name v)
        end
      else if is_string_type dt then
        match v with
        | Plain (VString s) => Ok (with_value pbm (StringValue s))
        | _ => Err ("expected string, got " +:+ mtype_name v)
        end
      else if dt =? TypeBytes then
        match v with
        | Bytes b => Ok (with_value pbm (BytesValue b))
        | _ => Err ("expected []byte, got " +:+ mtype_name v)
        end
      else if dt =? TypeTemplate then
        match v with
        | TemplatePtr (Some t) =>
            pbt ← encodeTemplate_with setMetricValue t; Ok (with_value pbm (TemplateValue (Some pbt)))
        | TemplatePtr None => Panic
        | _ => Err ("expected *Template, got " +:+ mtype_name v)
        end
      else
        match v with
        | Plain (VString s) => Ok (with_value pbm (StringValue s))
        | _ => Err ("unsupported datatype " +:+ itoa dt +:+ " for value " +:+ mtype_name v)
        end
  end.

Definition encodeMetric : Metric → outcome pbMetric := encodeMetric_with setMetricValue.
Definition encodeTemplate : Template → outcome pbTemplate := encodeTemplate_with setMetricValue.

Context `{UnicodeTables} `{Protobuf}.

Definition encodeNamed (m : Metric) : outcome pbMetric :=
  match encodeMetric m with
  | Err e => Err ("metric " +:+ quote (Name m) +:+ ": " +:+ e)
  | r => r
  end.

Definition EncodePayload (p : Payload) : outcome wire :=
  ms ← mapM encodeNamed (plMetrics p);
  Ok (Marshal (mkPbPayload (Some (plTimestamp p)) (if OmitSeq p then None else Some (Seq p)) ms)).

(** ** Decoding *)

Definition decodeParameter (p : pbParameter) : Param :=
  mkParam (default "" (bpName p)) (default 0 (bpType p))
    match bpValue p with
    | Some (PIntValue v) => if v =? 0 then VNil else VInt KUint32 v
    | Some (PLongValue v) => if v =? 0 then VNil else VInt KUint64 v
    | Some (PFloatValue f) => if f32_eqb f 0 then VNil else VFloat32 f
    | Some (PDoubleValue f) => if f64_eqb f f64_zero then VNil else VFloat64 f
    | Some (PBooleanValue b) => if b then VBool b else VNil
    | Some (PStringValue s) => if String.eqb s "" then VNil else VString s
    | Some PExtensionValue | None => VNil
    end.

(** The value of a metric of datatype [dt]: the case of the message must fit. *)
Definition decode_scalar (dt : Z) (v : pbValue) : mvalue :=
  match v with
  | IntValue n => if is_int32_type dt then Plain (VInt KUint32 n) else Plain VNil
  | LongValue n => if is_int64_type dt then Plain (VInt KUint64 n) else Plain VNil
  | FloatValue f => if dt =? TypeFloat then Plain (VFloat32 f) else Plain VNil
  | DoubleValue f => if dt =? TypeDouble then Plain (VFloat64 f) else Plain VNil
  | BooleanValue b => if dt =? TypeBoolean then Plain (VBool b) else Plain VNil
  | StringValue s => if is_string_type dt then Plain (VString s) else Plain VNil
  | BytesValue b => if dt =? TypeBytes then Bytes b else Plain VNil
  | _ => Plain VNil
  end.

Definition decodeMetric_with (dv : Z → pbValue → mvalue) (m : pbMetric) : Metric :=
  let dt := default 0 (bDatatype m) in
  let null := default false (bIsNull m) in
  mkMetric (default "" (bName m)) (default 0 (bAlias m)) (default 0 (bTimestamp m)) dt
    (default false (bIsHistorical m)) (default false (bIsTransient m)) null
    (if null then Plain VNil else match bValue m with Some v => dv dt v | None => Plain VNil end).

Definition decodeTemplate_with (dv : Z → pbValue → mvalue) (t : pbTemplate) : Template :=
  mkTemplate (default "" (bVersion t)) (default "" (bTemplateRef t)) (default false (bIsDefinition t))
    (map (decodeMetric_with dv) (bMetrics t)) (map decodeParameter (bParameters t)).

Fixpoint decode_value (dt : Z) (v : pbValue) {struct v} : mvalue :=
  match v with
  | TemplateValue (Some t) =>
      if dt =? TypeTemplate then TemplatePtr (Some (decodeTemplate_with decode_value t)) else Plain VNil
  | _ => decode_scalar dt v
  end.

Definition decodeMetric : pbMetric → Metric := decodeMetric_with decode_value.
Definition decodeTemplate : pbTemplate → Template := decodeTemplate_with decode_value.

Definition DecodePayload (data : wire) : outcome Payload :=
  p ← Unmarshal data;
  Ok (mkPayload (default 0 (bplTimestamp p)) (default 0 (bplSeq p)) false (map decodeMetric (bplMetrics p))).

(** A metric that can be encoded, and as it is received. *)
Definition encodable (m : Metric) : bool := is_ok (encodeMetric m).
Definition received (m : Metric) : Metric :=
  match encodeMetric m with Ok b => decodeMetric b | _ => m end.

(** ** Constructors; [now] is the clock in milliseconds *)

Definition NewMetric (now : Z) (name : string) (datatype : Z) (v : value) : Metric :=
  mkMetric name 0 (wrapu 64 now) datatype false false false (Plain v).
Definition NewBoolMetric (now : Z) (name : string) (v : bool) : Metric := NewMetric now name TypeBoolean (VBool v).
Definition NewDoubleMetric (now : Z) (name : string) (v : float64) : Metric :=
  NewMetric now name TypeDouble (VFloat64 v).
Definition NewStringMetric (now : Z) (name : string) (v : string) : Metric :=
  NewMetric now name TypeString (VString v).
Definition NewUInt64Metric (now : Z) (name : string) (v : Z) : Metric :=
  NewMetric now name TypeUInt64 (VInt KUint64 v).

End Payload.

(** ** What the wire can carry *)

(** A value that a metric of datatype [dt] brings across unchanged: numbers in the
    unsigned type of the message, templates of such metrics. *)
Definition wire_param (p : Param) : bool :=
  match pValue p with
  | VNil => true
  | VInt KUint32 n => is_int32_type (pDatatype p) && (0 <? n) && (n <? 2 ^ 32)
  | VInt KUint64 n => is_int64_type (pDatatype p) && (0 <? n) && (n <? 2 ^ 64)
  | VFloat32 f => (pDatatype p =? TypeFloat) && negb (f32_eqb f 0)
  | VFloat64 f => (pDatatype p =? TypeDouble) && negb (f64_eqb f f64_zero)
  | VBool b => (pDatatype p =? TypeBoolean) && b
  | VString s => is_string_type (pDatatype p) && negb (String.eqb s "")
  | _ => false
  end.

Definition wire_metric_with (wv : Z → mvalue → bool) (m : Metric) : bool :=
  if IsNull m then match Value m with Plain VNil => true | _ => false end else wv (Datatype m) (Value m).

Fixpoint wire_value (dt : Z) (v : mvalue) {struct v} : bool :=
  match v with
  | Plain (VInt KUint32 n) => is_int32_type dt && (0 <=? n) && (n <? 2 ^ 32)
  | Plain (VInt KUint64 n) => is_int64_type dt && (0 <=? n) && (n <? 2 ^ 64)
  | Plain (VFloat32 _) => dt =? TypeFloat
  | Plain (VFloat64 _) => dt =? TypeDouble
  | Plain (VBool _) => dt =? TypeBoolean
  | Plain (VString _) => is_string_type dt
  | Bytes _ => dt =? TypeBytes
  | TemplatePtr (Some t) =>
      (dt =? TypeTemplate) && forallb (wire_metric_with wire_value) (Metrics t) &&
      forallb wire_param (Parameters t)
  | _ => false
  end.

Definition wire_metric : Metric → bool := wire_metric_with wire_value.

(** Induction through the metrics of templates. *)
Section MvalueInd.
Variable P : mvalue → Prop.
Hypothesis HPlain : ∀ v, P (Plain v).
Hypothesis HBytes : ∀ b, P (Bytes b).
Hypothesis HNil : P (TemplatePtr None).
Hypothesis HTemplate : ∀ t, Forall (λ m : Metric, P (Value m)) (Metrics t) → P (TemplatePtr (Some t)).

Definition mvalue_nested_ind : ∀ v, P v :=
  fix ind v :=
    match v with
    | Plain v => HPlain v
    | Bytes b => HBytes b
    | TemplatePtr None => HNil
    | TemplatePtr (Some t) =>
        HTemplate t
          ((fix go (l : list Metric) : Forall (λ m : Metric, P (Value m)) l :=
              match l with
              | [] => Forall_nil_2 _
              | m :: l' => Forall_cons_2 _ m l' (ind (Value m)) (go l')
              end) (Metrics t))
    end.
End MvalueInd.

Section RoundTrip.
Context `{FloatConv}.

Lemma param_roundtrip p : wire_param p = true →
  ∃ b, encodeParameter p = Ok b ∧ decodeParameter b = p.
Proof.
  destruct p as [n dt v]. unfold wire_param, encodeParameter, decodeParameter. cbn [pName pDatatype pValue].
  destruct v as [|b|k z|f|f|s|s|l|l]; try discriminate; [by eexists|..].
  - intros [->%Z.eqb_eq ->]%andb_prop. by eexists.
  - destruct k; try discriminate; intros [[Hdt Hlo%Z.ltb_lt]%andb_prop Hhi%Z.ltb_lt]%andb_prop.
    + rewrite Hdt. cbn [toUint32 mbind outcome_bind]. eexists. split; [done|]. cbn -[wrapu].
      rewrite wrapu_small by (unfold in_u; lia). by rewrite (proj2 (Z.eqb_neq _ _)) by lia.
    + assert (is_int32_type dt = false) as ->.
      { unfold is_int64_type in Hdt. repeat (apply orb_prop in Hdt as [Hdt|Hdt]); apply Z.eqb_eq in Hdt as ->; done. }
      rewrite Hdt. cbn [toUint64 mbind outcome_bind]. eexists. split; [done|]. cbn -[wrapu].
      rewrite wrapu_small by (unfold in_u; lia). by rewrite (proj2 (Z.eqb_neq _ _)) by lia.
  - intros [->%Z.eqb_eq Hf%negb_true_iff]%andb_prop. eexists. split; [done|]. cbn -[f64_eqb]. by rewrite Hf.
  - intros [->%Z.eqb_eq Hf%negb_true_iff]%andb_prop. eexists. split; [done|]. cbn -[f32_eqb]. by rewrite Hf.
  - intros [Hdt Hs%negb_true_iff]%andb_prop. unfold is_string_type in Hdt.
    apply orb_prop in Hdt as [->%Z.eqb_eq| ->%Z.eqb_eq]; (eexists; split; [done|]); cbn; by rewrite Hs.
Qed.

Lemma mapM_roundtrip {A B} (enc : A → outcome B) (dec : B → A) l :
  Forall (λ a, ∃ b, enc a = Ok b ∧ dec b = a) l → ∃ bs, mapM enc l = Ok bs ∧ map dec bs = l.
Proof.
  induction 1 as [|a l (b & Hb & Ha) _ (bs & Hbs & Hl)]; [by exists []|].
  exists (b :: bs). cbn. by rewrite Hb, Ha, Hl; cbn; rewrite Hbs.
Qed.

(** [setMetricValue] succeeds on [v] with a message case that decodes to [v]. *)
Definition carries (v : mvalue) : Prop :=
  ∀ dt, wire_value dt v = true →
    ∃ b, (∀ pbm, setMetricValue pbm dt v = Ok (with_value pbm b)) ∧ decode_value dt b = v.

Lemma nonempty_default s : default "" (nonempty s) = s.
Proof. unfold nonempty. by destruct (String.eqb_spec s "") as [->|]. Qed.
Lemma nonzero_default n : default 0 (nonzero n) = n.
Proof. unfold nonzero. by destruct (Z.eqb_spec n 0) as [->|]. Qed.
Lemma if_true_default b : default false (if_true b) = b.
Proof. by destruct b. Qed.

Lemma metric_carried m : carries (Value m) → wire_metric m = true →
  ∃ b, encodeMetric m = Ok b ∧ decodeMetric b = m.
Proof.
  destruct m as [n a ts dt h t null v]. unfold wire_metric, wire_metric_with, encodeMetric, encodeMetric_with,
    decodeMetric, decodeMetric_with.
  cbn [Name Alias Timestamp Datatype IsHistorical IsTransient IsNull Value].
  intros Hc Hw. destruct null.
  - destruct v as [[]| |]; try discriminate. eexists. split; [done|]. cbn -[nonempty nonzero if_true].
    by rewrite nonempty_default, !nonzero_default, !if_true_default.
  - destruct (Hc dt Hw) as (b & Hset & Hdec). rewrite Hset. eexists. split; [done|].
    cbn -[nonempty nonzero if_true decode_value].
    by rewrite nonempty_default, !nonzero_default, !if_true_default, Hdec.
Qed.

Lemma int32_other dt : is_int32_type dt = true →
  is_int64_type dt = false ∧ (dt =? TypeFloat) = false ∧ (dt =? TypeDouble) = false ∧ (dt =? TypeBoolean) = false.
Proof. unfold is_int32_type. rewrite !orb_true_iff, !Z.eqb_eq. intuition; by subst. Qed.
Lemma int64_other dt : is_int64_type dt = true → is_int32_type dt = false.
Proof. unfold is_int64_type. rewrite !orb_true_iff, !Z.eqb_eq. intuition; by subst. Qed.

Lemma plain_carried v : carries (Plain v).
Proof.
  intros dt. destruct v as [|b|k z|f|f|s|s|l|l]; cbn [wire_value]; try discriminate.
  - intros ->%Z.eqb_eq. by exists (BooleanValue b).
  - destruct k; try discriminate; intros [[Hdt Hlo%Z.leb_le]%andb_prop Hhi%Z.ltb_lt]%andb_prop.
    + exists (IntValue z). cbn -[wrapu is_int32_type]. rewrite Hdt. cbn -[wrapu is_int32_type].
      by rewrite wrapu_small by (unfold in_u; lia).
    + exists (LongValue z). cbn -[wrapu is_int32_type is_int64_type]. rewrite (int64_other dt Hdt), Hdt.
      cbn -[wrapu is_int64_type]. by rewrite wrapu_small by (unfold in_u; lia).
  - intros ->%Z.eqb_eq. by exists (DoubleValue f).
  - intros ->%Z.eqb_eq. by exists (FloatValue f).
  - unfold is_string_type. intros [->%Z.eqb_eq| ->%Z.eqb_eq]%orb_prop; by exists (StringValue s).
Qed.

Lemma template_carried t : Forall (λ m : Metric, carries (Value m)) (Metrics t) → carries (TemplatePtr (Some t)).
Proof.
  intros Hms dt. cbn [wire_value]. intros [[->%Z.eqb_eq Hw]%andb_prop Hp]%andb_prop.
  rewrite List.forallb_forall in Hw, Hp.
  destruct t as [ver ref def ms ps]. cbn [Metrics Parameters] in *.
  destruct (mapM_roundtrip encodeMetric decodeMetric ms) as (bms & Hbms & Hdms).
  { apply List.Forall_forall. intros m Hin. rewrite List.Forall_forall in Hms.
    apply metric_carried; [by apply Hms|by apply Hw]. }
  destruct (mapM_roundtrip encodeParameter decodeParameter ps) as (bps & Hbps & Hdps).
  { apply List.Forall_forall. intros m Hin. apply param_roundtrip. by apply Hp. }
  exists (TemplateValue (Some (mkPbTemplate (nonempty ver) (nonempty ref) (Some def) bms bps))). split.
  - intros pbm. change (setMetricValue pbm TypeTemplate (TemplatePtr (Some (mkTemplate ver ref def ms ps))))
      with (pbt ← encodeTemplate (mkTemplate ver ref def ms ps); Ok (with_value pbm (TemplateValue (Some pbt)))).
    unfold encodeTemplate, encodeTemplate_with. cbn [Metrics Parameters Version TemplateRef IsDefinition].
    fold encodeMetric. rewrite Hbms. cbn [mbind outcome_bind]. by rewrite Hbps.
  - change (TemplatePtr (Some (decodeTemplate (mkPbTemplate (nonempty ver) (nonempty ref) (Some def) bms bps)))
      = TemplatePtr (Some (mkTemplate ver ref def ms ps))).
    unfold decodeTemplate, decodeTemplate_with. cbn [bVersion bTemplateRef bIsDefinition bMetrics bParameters].
    fold decodeMetric. by rewrite !nonempty_default, Hdms, Hdps.
Qed.

Lemma value_carried v : carries v.
Proof.
  induction v as [v|b| |t IH] using mvalue_nested_ind.
  - apply plain_carried.
  - intros dt. cbn [wire_value]. intros ->%Z.eqb_eq. by exists (BytesValue b).
  - intros dt. discriminate.
  - by apply template_carried.
Qed.

Lemma metric_roundtrip m : wire_metric m = true → ∃ b, encodeMetric m = Ok b ∧ decodeMetric b = m.
Proof. apply metric_carried, value_carried. Qed.

Lemma received_wire m : wire_metric m = true → encodable m = true ∧ received m = m.
Proof. intros (b & Hb & Hd)%metric_roundtrip. unfold encodable, received. by rewrite Hb. Qed.

Context `{UnicodeTables} `{Protobuf}.

(** A payload of encodable metrics arrives with the metrics as received. *)
Lemma payload_received p : forallb encodable (plMetrics p) = true →
  ∃ w, EncodePayload p = Ok w ∧
    DecodePayload w = Ok (mkPayload (plTimestamp p) (if OmitSeq p then 0 else Seq p) false
                            (map received (plMetrics p))).
Proof.
  intros He. unfold EncodePayload, DecodePayload.
  assert (∃ bs, mapM encodeNamed (plMetrics p) = Ok bs ∧ map decodeMetric bs = map received (plMetrics p)) as (bs & Hbs & Hd).
  { induction (plMetrics p) as [|m l IH]; [by exists []|]. cbn [forallb] in He. apply andb_prop in He as [Hm Hl].
    destruct (IH Hl) as (bs & Hbs & Hd). unfold encodable in Hm.
    destruct (encodeMetric m) as [b| |] eqn:Hb; try discriminate. exists (b :: bs).
    assert (encodeNamed m = Ok b ∧ received m = decodeMetric b) as [Hn Hr]
      by (unfold encodeNamed, received; by rewrite Hb).
    cbn [mapM map]. rewrite Hn, Hr, Hd. cbn. by rewrite Hbs. }
  rewrite Hbs. eexists. split; [done|]. rewrite Unmarshal_Marshal. cbn. rewrite Hd. by destruct (OmitSeq p).
Qed.

(** C36: A Sparkplug payload whose metrics hold values in the types of the wire, templates
    with their members and non-zero parameters included, is encoded without error and
    decoded to the same payload; a payload without sequence number comes back with
    sequence number zero. *)
Theorem payload_roundtrip p : forallb wire_metric (plMetrics p) = true →
  ∃ w, EncodePayload p = Ok w ∧
    DecodePayload w = Ok (mkPayload (plTimestamp p) (if OmitSeq p then 0 else Seq p) false (plMetrics p)).
Proof.
  intros Hw. rewrite List.forallb_forall in Hw.
  destruct (payload_received p) as (w & Hw1 & Hw2).
  { apply List.forallb_forall. intros m Hm. by apply received_wire, Hw. }
  exists w. split; [done|]. rewrite Hw2. do 2 f_equal.
  rewrite <- List.map_id. apply List.map_ext_in. intros m Hm. by apply received_wire, Hw.
Qed.

End RoundTrip.

(** The two translations between the bus's datatypes and Sparkplug's are inverse on the
    four datatypes of the bus. *)
Theorem nats_sparkplug_type s : s ∈ ["number"; "boolean"; "string"; "udt"] →
  SparkplugToNatsType (NatsToSparkplugType s) = s.
Proof. intros Hs. apply list_elem_of_In in Hs. revert s Hs. apply List.Forall_forall. repeat constructor; done. Qed.

(** Type names and codes translate to each other: each of the 16 names has a code of
    its own. *)
Theorem type_names s : s ∈ map fst typeStringMap →
  TypeFromString s ≠ TypeUnknown ∧ TypeToString (TypeFromString s) = s.
Proof.
  intros Hs. apply list_elem_of_In in Hs. revert s Hs. apply List.Forall_forall. repeat constructor; done.
Qed.

(** A template instance with a parameter, as on the wire. *)
Definition ex_template : Template :=
  mkTemplate "1" "Motor" false
    [mkMetric "speed" 0 1000 TypeDouble false false false (Plain (VFloat64 (f64_of_Z 7)));
     mkMetric "name" 0 1000 TypeString false false false (Plain (VString "M1"));
     mkMetric "fault" 0 1000 TypeBoolean false false true (Plain VNil)]
    [mkParam "poles" TypeUInt8 (VInt KUint32 4)].
Definition ex_payload : Payload :=
  mkPayload 1000 7 false [mkMetric "motor" 3 1000 TypeTemplate true false false (TemplatePtr (Some ex_template));
                          mkMetric "raw" 0 1000 TypeBytes false true false (Bytes [1; 2])].

Lemma payload_roundtrip_witness :
  let _ := conv_zero in let _ := ascii_tables in let _ := protobuf_id in
  ∃ w, EncodePayload ex_payload = Ok w ∧ DecodePayload w = Ok ex_payload.
Proof.
  intros c u pb. destruct (payload_roundtrip ex_payload) as (w & H1 & H2); [vm_compute; reflexivity|].
  exists w. split; [exact H1|exact H2].
Defined.

Lemma nats_sparkplug_type_witness : SparkplugToNatsType (NatsToSparkplugType "udt") = "udt".
Proof. apply (nats_sparkplug_type "udt"). apply (bool_decide_unpack _). vm_compute. exact I. Defined.

Lemma type_names_witness : TypeToString (TypeFromString "Template") = "Template".
Proof. apply (type_names "Template"). apply (bool_decide_unpack _). vm_compute. exact I. Defined.
