(* ===== verification/SparkplugNode.v ===== *)
(** The Sparkplug edge node: internal/mqtt/node.go.

    The node's state changes in critical sections under its lock; each is a function on
    [NodeWorld], the node with its MQTT client: the messages published so far, the will,
    the subscriptions, the file that keeps bdSeq. The handlers are the compositions the
    code makes of them, over any client of the node ([Class NodeClient], what the bridge
    implements): its callbacks run between the sections. The result of the n-th publish
    is [token_error n], the broker's; the order in which Go ranges over the devices is
    [iter]; [now] is the clock, in milliseconds. *)

From S2P Require Export Sparkplug.

#[local] Open Scope Z_scope.

Inductive NodeState := StateDisconnected | StateDead | StateBorn.
#[export] Instance NodeState_eq_dec : EqDecision NodeState.
Proof. solve_decision. Defined.

(** The fields of the configuration that the node and the bridge read, apart from those
    handed to the MQTT client (address, credentials, TLS). *)
Record MqttBridgeConfig := mkConfig {
  GroupID : string;
  EdgeNode : string;
  PrimaryHostID : string;
  UseTemplates : bool;
  StoreForwardMax : Z;
  StoreForwardSize : Z;
  DrainRate : Z;
  BdSeqFile : string;
}.

(** ** Topics and texts *)

Definition node_topic (cfg : MqttBridgeConfig) (messageType : string) : string :=
  "spBv1.0/" +:+ GroupID cfg +:+ "/" +:+ messageType +:+ "/" +:+ EdgeNode cfg.
Definition deviceTopic (cfg : MqttBridgeConfig) (messageType deviceID : string) : string :=
  "spBv1.0/" +:+ GroupID cfg +:+ "/" +:+ messageType +:+ "/" +:+ EdgeNode cfg +:+ "/" +:+ deviceID.

Definition emit (cur : list ascii) : list string := match cur with [] => [] | _ => [str cur] end.
(** [cur] is topic[start:i]. *)
Fixpoint split_topic (l cur : list ascii) : list string :=
  match l with
  | [] => emit cur
  | c :: l' => if bool_decide (c = "/"%char) then emit cur ++ split_topic l' [] else split_topic l' (cur ++ [c])
  end.
Definition splitTopic (topic : string) : list string := split_topic (chars topic) [].

Definition parseDeviceID (topic : string) : string := default "" (splitTopic topic !! 4%nat).
Definition parseHostID (topic : string) : string := default "" (splitTopic topic !! 1%nat).
Definition parseHostIDV3 (topic : string) : string := default "" (splitTopic topic !! 2%nat).

Definition starts_with (l pre : list ascii) : bool := bool_decide (take (length pre) l = pre).

(** What follows the first occurrence of [key]. *)
Fixpoint after_first (key l : list ascii) : option (list ascii) :=
  if starts_with l key then Some (drop (length key) l)
  else match l with [] => None | _ :: l' => after_first key l' end.

Fixpoint drop_separators (l : list ascii) : list ascii :=
  match l with
  | c :: l' => if bool_decide (c = " "%char) || bool_decide (c = ":"%char) || bool_decide (c = "009"%char)
               then drop_separators l' else l
  | [] => []
  end.
Fixpoint take_digits (l : list ascii) : list ascii :=
  match l with
  | c :: l' => if is_digit_byte (byte_of c) then c :: take_digits l' else []
  | [] => []
  end.

Definition timestamp_key : list ascii := dquote :: chars "timestamp" ++ [dquote].

(** Without a sign, [ParseInt] succeeds below 2^63. *)
Definition parseStateTimestamp (s : string) : Z :=
  match after_first timestamp_key (chars s) with
  | None => 0
  | Some l =>
      match take_digits (drop_separators l) with
      | [] => 0
      | ds => match parse_uint (byte_of <$> ds) with
              | (v, NumOK) => if 2 ^ 63 <=? v then 0 else v
              | _ => 0
              end
      end
  end.

Definition online_key : list ascii := dquote :: chars "online" ++ [dquote].

Fixpoint contains_online (l : list ascii) : bool :=
  starts_with l (online_key ++ chars ":true") || starts_with l (online_key ++ chars ": true")
  || match l with [] => false | _ :: l' => contains_online l' end.
Definition containsOnlineTrue (s : string) : bool := contains_online (chars s).

(** ** The node and its client *)

Section Node.
Context `{Hconv : FloatConv} `{Hunicode : UnicodeTables} `{Hproto : Protobuf}.

(** A publish attempt and the error of its token. *)
Record sentMsg := mkSent { sTopic : string; sQos : Z; sData : wire; sError : option string }.

Record NodeWorld := mkNode {
  config : MqttBridgeConfig;
  state : NodeState;
  client : bool; (* not nil *)
  bdSeq : Z;
  seq : Z;
  nodeMetrics : list Metric;
  deviceMetrics : gmap string (list Metric);
  hostOnline : bool;
  hostStateTimestamp : Z;
  birthed : bool;
  sent : list sentMsg;
  will : option (string * wire); (* of the last CONNECT, QoS 1 *)
  subscriptions : list string;
  stateChanges : list NodeState; (* go onStateChange(s) *)
  disk : option string; (* BdSeqFile *)
}.

Definition set_seq (n : NodeWorld) (s : Z) : NodeWorld :=
  mkNode (config n) (state n) (client n) (bdSeq n) s (nodeMetrics n) (deviceMetrics n) (hostOnline n)
    (hostStateTimestamp n) (birthed n) (sent n) (will n) (subscriptions n) (stateChanges n) (disk n).

Definition set_sent (n : NodeWorld) (l : list sentMsg) : NodeWorld :=
  mkNode (config n) (state n) (client n) (bdSeq n) (seq n) (nodeMetrics n) (deviceMetrics n) (hostOnline n)
    (hostStateTimestamp n) (birthed n) l (will n) (subscriptions n) (stateChanges n) (disk n).

Definition set_birthed (n : NodeWorld) (b : bool) : NodeWorld :=
  mkNode (config n) (state n) (client n) (bdSeq n) (seq n) (nodeMetrics n) (deviceMetrics n) (hostOnline n)
    (hostStateTimestamp n) b (sent n) (will n) (subscriptions n) (stateChanges n) (disk n).

Definition set_host (n : NodeWorld) (online : bool) (ts : Z) : NodeWorld :=
  mkNode (config n) (state n) (client n) (bdSeq n) (seq n) (nodeMetrics n) (deviceMetrics n) online
    ts (birthed n) (sent n) (will n) (subscriptions n) (stateChanges n) (disk n).

Definition set_client (n : NodeWorld) (c : bool) (b : Z) (w : option (string * wire)) (d : option string) : NodeWorld :=
  mkNode (config n) (state n) c b (seq n) (nodeMetrics n) (deviceMetrics n) (hostOnline n)
    (hostStateTimestamp n) (birthed n) (sent n) w (subscriptions n) (stateChanges n) d.

Definition set_subscriptions (n : NodeWorld) (l : list string) : NodeWorld :=
  mkNode (config n) (state n) (client n) (bdSeq n) (seq n) (nodeMetrics n) (deviceMetrics n) (hostOnline n)
    (hostStateTimestamp n) (birthed n) (sent n) (will n) l (stateChanges n) (disk n).

Definition SetNodeMetrics (n : NodeWorld) (metrics : list Metric) : NodeWorld :=
  mkNode (config n) (state n) (client n) (bdSeq n) (seq n) metrics (deviceMetrics n) (hostOnline n)
    (hostStateTimestamp n) (birthed n) (sent n) (will n) (subscriptions n) (stateChanges n) (disk n).

(** With whether the device is new. *)
Definition SetDeviceMetrics (n : NodeWorld) (deviceID : string) (metrics : list Metric) : NodeWorld * bool :=
  (mkNode (config n) (state n) (client n) (bdSeq n) (seq n) (nodeMetrics n) (<[deviceID := metrics]> (deviceMetrics n))
     (hostOnline n) (hostStateTimestamp n) (birthed n) (sent n) (will n) (subscriptions n) (stateChanges n) (disk n),
   negb (bool_decide (is_Some (deviceMetrics n !! deviceID)))).

Definition setStateLocked (n : NodeWorld) (s : NodeState) : NodeWorld :=
  if bool_decide (state n = s) then n
  else mkNode (config n) s (client n) (bdSeq n) (seq n) (nodeMetrics n) (deviceMetrics n) (hostOnline n)
    (hostStateTimestamp n) (birthed n) (sent n) (will n) (subscriptions n) (stateChanges n ++ [s]) (disk n).

(** The saved bdSeq is that of the previous connection. *)
Definition saved_bdSeq (file : string) (disk : option string) : Z :=
  if String.eqb file "" then 0
  else match disk with
       | Some data => match parse_uint (string_bytes (trim_space data)) with
                      | (v, NumOK) => wrapu 64 (v + 1) mod 256
                      | _ => 0
                      end
       | None => 0
       end.

Definition NewSparkplugNode (cfg : MqttBridgeConfig) (disk : option string) : NodeWorld :=
  mkNode cfg StateDisconnected false (saved_bdSeq (BdSeqFile cfg) disk) 0 [] ∅ false 0 false [] None [] [] disk.

(** The file after [writeBdSeq]; a failed write leaves the old one. *)
Definition writeBdSeq (bdSeq : Z) (ok : bool) (old : option string) : option string :=
  if ok then Some (itoa bdSeq) else old.

(** ** Publishing *)

Context (token_error : nat → option string).

Definition publish (n : NodeWorld) (topic : string) (qos : Z) (data : wire) : NodeWorld * option string :=
  let e := token_error (length (sent n)) in
  (set_sent n (sent n ++ [mkSent topic qos data e]), e).

Definition is_none {A} (o : option A) : bool := match o with None => true | Some _ => false end.

(** NBIRTH and NDEATH carry bdSeq first. *)
Definition bdSeq_metric (now bd : Z) : Metric := NewUInt64Metric now "bdSeq" bd.
Definition ndeath_payload (now bd : Z) : Payload := mkPayload (wrapu 64 now) 0 true [bdSeq_metric now bd].
Definition nbirth_payload (now : Z) (n : NodeWorld) : Payload :=
  mkPayload (wrapu 64 now) 0 false
    ([bdSeq_metric now (bdSeq n); NewBoolMetric now "Node Control/Rebirth" false] ++ nodeMetrics n).

Definition publishDeviceBirthLocked (now : Z) (n : NodeWorld) (deviceID : string) (metrics : list Metric) : NodeWorld :=
  let n := set_seq n ((seq n + 1) mod 256) in
  match EncodePayload (mkPayload (wrapu 64 now) (seq n) false metrics) with
  | Ok data => fst (publish n (deviceTopic (config n) "DBIRTH" deviceID) 0 data)
  | _ => n
  end.

(** The order in which Go ranges over the devices. *)
Context (iter : gmap string (list Metric) → list (string * list Metric)).

(** [Birth] after its callback. *)
Definition birth_locked (now : Z) (n : NodeWorld) : NodeWorld :=
  if bool_decide (state n = StateDisconnected) || negb (client n) then n
  else if negb (String.eqb (PrimaryHostID (config n)) "") && negb (hostOnline n) then n
  else
    let n := set_seq n 0 in
    match EncodePayload (nbirth_payload now n) with
    | Ok data =>
        let '(n, err) := publish n (node_topic (config n) "NBIRTH") 0 data in
        if is_none err then
          let n := set_birthed (setStateLocked n StateBorn) true in
          fold_left (λ n d, publishDeviceBirthLocked now n d.1 d.2) (iter (deviceMetrics n)) n
        else n
    | _ => n
    end.

Definition not_born_error (n : NodeWorld) : string :=
  "node not born (state=" +:+ itoa (match state n with StateDisconnected => 0 | StateDead => 1 | StateBorn => 2 end) +:+ ")".

(** The end of both DDATA publishers. *)
Definition publish_data (n : NodeWorld) (deviceID : string) (p : Payload) (context : string)
    : NodeWorld * outcome unit :=
  match EncodePayload p with
  | Ok data =>
      let '(n, err) := publish n (deviceTopic (config n) "DDATA" deviceID) 0 data in
      (n, match err with None => Ok tt | Some e => Err e end)
  | Err e => (n, Err (context +:+ e))
  | Panic => (n, Panic)
  end.

Definition PublishDeviceData (now : Z) (n : NodeWorld) (deviceID : string) (metrics : list Metric)
    : NodeWorld * outcome unit :=
  if negb (bool_decide (state n = StateBorn)) || negb (client n) then (n, Err (not_born_error n))
  else
    let n := set_seq n ((seq n + 1) mod 256) in
    publish_data n deviceID (mkPayload (wrapu 64 now) (seq n) false metrics) "encode DDATA: ".

(** The payload is the caller's: its sequence number is set in place. *)
Definition PublishDeviceDataPayload (n : NodeWorld) (deviceID : string) (p : Payload)
    : NodeWorld * Payload * outcome unit :=
  if negb (bool_decide (state n = StateBorn)) || negb (client n) then (n, p, Err (not_born_error n))
  else
    let n := set_seq n ((seq n + 1) mod 256) in
    let p := mkPayload (plTimestamp p) (seq n) (OmitSeq p) (plMetrics p) in
    let '(n, r) := publish_data n deviceID p "" in (n, p, r).

Definition PublishDeviceBirth (now : Z) (n : NodeWorld) (deviceID : string) : NodeWorld :=
  if negb (bool_decide (state n = StateBorn)) || negb (client n) then n
  else match deviceMetrics n !! deviceID with
       | Some metrics => publishDeviceBirthLocked now n deviceID metrics
       | None => n
       end.

(** ** Connections *)

(** [setup] is the error of building the TLS configuration, [conn] that of the client's
    connection, [saved] whether bdSeq could be written. *)
Definition Connect (now : Z) (setup conn : option string) (saved : bool) (n : NodeWorld) : NodeWorld * outcome unit :=
  if negb (bool_decide (state n = StateDisconnected)) then
    (n, Err ("node is already connected (state=" +:+
             itoa (match state n with StateDisconnected => 0 | StateDead => 1 | StateBorn => 2 end) +:+ ")"))
  else
    match EncodePayload (ndeath_payload now (bdSeq n)) with
    | Ok willBytes =>
        match setup, conn with
        | Some e, _ => (n, Err ("TLS config: " +:+ e))
        | None, Some e => (n, Err ("mqtt connect: " +:+ e))
        | None, None =>
            let d := if String.eqb (BdSeqFile (config n)) "" then disk n else writeBdSeq (bdSeq n) saved (disk n) in
            (setStateLocked (set_client n true (bdSeq n) (Some (node_topic (config n) "NDEATH", willBytes)) d) StateDead, Ok tt)
        end
    | Err e => (n, Err ("encode NDEATH: " +:+ e))
    | Panic => (n, Panic)
    end.

(** The client's handler of a lost connection. *)
Definition connectionLost (n : NodeWorld) : NodeWorld := setStateLocked n StateDead.

Definition command_topics (cfg : MqttBridgeConfig) : list string :=
  [node_topic cfg "NCMD"; "spBv1.0/" +:+ GroupID cfg +:+ "/DCMD/" +:+ EdgeNode cfg +:+ "/+"] ++
  (if String.eqb (PrimaryHostID cfg) "" then []
   else ["STATE/" +:+ PrimaryHostID cfg; "spBv1.0/STATE/" +:+ PrimaryHostID cfg]).

(** The critical section of [onConnect]. *)
Definition onConnect_locked (n : NodeWorld) : NodeWorld :=
  set_host (set_birthed (setStateLocked (set_subscriptions n (command_topics (config n))) StateDead) false) false 0.

Definition Disconnect (now : Z) (n : NodeWorld) : NodeWorld :=
  if negb (client n) then n
  else
    let n :=
      if bool_decide (state n = StateBorn) then
        let n := match EncodePayload (ndeath_payload now (bdSeq n)) with
                 | Ok data => fst (publish n (node_topic (config n) "NDEATH") 1 data)
                 | _ => n
                 end in
        set_client n true ((bdSeq n + 1) mod 256) (will n) (disk n)
      else n in
    setStateLocked (set_client n false (bdSeq n) (will n) (disk n)) StateDisconnected.

Definition rebirth_locked (n : NodeWorld) : NodeWorld := setStateLocked n StateDead.

(** What a STATE message makes the node do after its critical section. *)
Inductive hostAction := HostBirth | HostDisconnect | HostNothing.

(** The critical section of [processHostState] and the decision it leads to; [None] when
    the message is not for this node or stale. *)
Definition processHostState_locked (hostID : string) (online : bool) (timestamp : Z) (n : NodeWorld)
    : NodeWorld * option hostAction :=
  let requireHost := negb (String.eqb (PrimaryHostID (config n)) "") in
  if requireHost && negb (String.eqb hostID (PrimaryHostID (config n))) then (n, None)
  else if timestamp <? hostStateTimestamp n then (n, None)
  else (set_host n online timestamp,
        Some (if negb requireHost then HostNothing
              else if online && negb (birthed n) then HostBirth
              else if negb online && hostOnline n && birthed n && client n then HostDisconnect
              else HostNothing)).

End Node.

Lemma setStateLocked_fields `{Hproto : Protobuf} (n : NodeWorld) s : ∃ st, setStateLocked n s =
  mkNode (config n) s (client n) (bdSeq n) (seq n) (nodeMetrics n) (deviceMetrics n) (hostOnline n)
    (hostStateTimestamp n) (birthed n) (sent n) (will n) (subscriptions n) st (disk n).
Proof. unfold setStateLocked. case_if; [|by eexists]. bool_to_prop. subst s. exists (stateChanges n). by destruct n. Qed.

(** The record after [setStateLocked], with the calls it started as [st]. *)
Ltac open_state st :=
  match goal with |- context [setStateLocked ?n ?s] => destruct (setStateLocked_fields n s) as (st & ->) end.

(** ** Handlers, over a client of the node *)

(** What the node asks of its client (the bridge): to hold the node, and the callbacks.
    [onStateChange] runs in a goroutine of its own and is recorded in [stateChanges]. *)
Class NodeClient (Hproto : Protobuf) (W : Type) := {
  getNode : W → NodeWorld;
  setNode : W → NodeWorld → W;
  onBeforeBirth : Z → W → W;
  onHostState : Z → string → bool → W → W;
  onNodeCommand : list Metric → W → W;
  onDeviceCommand : string → list Metric → W → W;
}.

Section Handlers.
Context `{Hconv : FloatConv} `{Hunicode : UnicodeTables} `{Hproto : Protobuf}.
Context (token_error : nat → option string) (iter : gmap string (list Metric) → list (string * list Metric)).
Context {W : Type} `{!NodeClient Hproto W}.

Definition Birth (now : Z) (w : W) : W :=
  let w := onBeforeBirth now w in
  setNode w (birth_locked token_error iter now (getNode w)).

Definition Rebirth (now : Z) (w : W) : W := Birth now (setNode w (rebirth_locked (getNode w))).

Definition onConnect (now : Z) (w : W) : W :=
  let w := setNode w (onConnect_locked (getNode w)) in
  if String.eqb (PrimaryHostID (config (getNode w))) "" then Birth now w else w.

(** The first metric that asks for a rebirth ends the handling; [go n.Rebirth()] is run
    here. *)
Fixpoint wants_rebirth (ms : list Metric) : bool :=
  match ms with
  | m :: ms' =>
      if String.eqb (Name m) "Node Control/Rebirth"
      then match Value m with Plain (VBool true) => true | _ => wants_rebirth ms' end
      else wants_rebirth ms'
  | [] => false
  end.

Definition handleCommand (now : Z) (data : wire) (deviceID : string) (w : W) : W :=
  match DecodePayload data with
  | Ok p =>
      if wants_rebirth (plMetrics p) then Rebirth now w
      else if String.eqb deviceID "" then onNodeCommand (plMetrics p) w
      else onDeviceCommand deviceID (plMetrics p) w
  | _ => w
  end.

(** The world, and whether the goroutine that disconnects was started. *)
Definition processHostState (now : Z) (hostID : string) (online : bool) (timestamp : Z) (w : W) : W * bool :=
  let '(n, action) := processHostState_locked hostID online timestamp (getNode w) in
  match action with
  | None => (setNode w n, false)
  | Some a =>
      let w := onHostState now hostID online (setNode w n) in
      match a with
      | HostBirth => (Birth now w, false)
      | HostDisconnect => (w, true)
      | HostNothing => (w, false)
      end
  end.

(** [disconnectForHostOffline]. *)
Definition disconnectForHostOffline (now : Z) (w : W) : W :=
  setNode w (Disconnect token_error now (getNode w)).

Definition handleStateLegacy (now : Z) (topic payload : string) (w : W) : W * bool :=
  processHostState now (parseHostID topic) (String.eqb payload "ONLINE") now w.

Definition handleStateV3 (now : Z) (topic payload : string) (w : W) : W * bool :=
  processHostState now (parseHostIDV3 topic) (containsOnlineTrue payload) (parseStateTimestamp payload) w.

End Handlers.

(** A node without client: no callback is set. *)
#[export] Instance lone_node {Hproto : Protobuf} : NodeClient Hproto NodeWorld := {
  getNode n := n;
  setNode _ n := n;
  onBeforeBirth _ n := n;
  onHostState _ _ _ n := n;
  onNodeCommand _ n := n;
  onDeviceCommand _ _ n := n;
}.

(** ** Interleaving

    The critical sections in any order: what the handlers of concurrent goroutines make of
    the node. [P] holds of the metrics that are given to it. *)

Section Steps.
Context `{Hconv : FloatConv} `{Hunicode : UnicodeTables} `{Hproto : Protobuf}.
Context (token_error : nat → option string) (iter : gmap string (list Metric) → list (string * list Metric)).
Context (P : list Metric → Prop).

Inductive node_step : NodeWorld → NodeWorld → Prop :=
  | step_connect now setup conn saved n : node_step n (fst (Connect now setup conn saved n))
  | step_lost n : node_step n (connectionLost n)
  | step_onConnect n : node_step n (onConnect_locked n)
  | step_birth now n : node_step n (birth_locked token_error iter now n)
  | step_rebirth n : node_step n (rebirth_locked n)
  | step_data now dev ms n : P ms → node_step n (fst (PublishDeviceData token_error now n dev ms))
  | step_payload dev p n : P (plMetrics p) → OmitSeq p = false →
      node_step n (fst (fst (PublishDeviceDataPayload token_error n dev p)))
  | step_device_birth now dev n : node_step n (PublishDeviceBirth token_error now n dev)
  | step_set_node ms n : P ms → node_step n (SetNodeMetrics n ms)
  | step_set_device dev ms n : P ms → node_step n (fst (SetDeviceMetrics n dev ms))
  | step_host hostID online ts n : node_step n (fst (processHostState_locked hostID online ts n))
  | step_disconnect now n : node_step n (Disconnect token_error now n).

Definition node_steps : NodeWorld → NodeWorld → Prop := rtc node_step.

(** The configuration stays. *)
Lemma setStateLocked_config n s : config (setStateLocked n s) = config n.
Proof. by open_state st. Qed.

Lemma device_birth_config now n dev ms : config (publishDeviceBirthLocked token_error now n dev ms) = config n.
Proof. unfold publishDeviceBirthLocked. by destruct (EncodePayload _). Qed.

Lemma birth_config now n : config (birth_locked token_error iter now n) = config n.
Proof.
  unfold birth_locked. case_if; [done|]. case_if; [done|]. destruct (EncodePayload _) as [data| |]; [|done..].
  cbn [publish]. destruct (is_none _); [|done].
  assert (∀ l m, config (fold_left (λ n d, publishDeviceBirthLocked token_error now n d.1 d.2) l m) = config m) as Hf.
  { induction l as [|d l IH]; intros m; [done|]. cbn [fold_left]. by rewrite IH, device_birth_config. }
  rewrite Hf. cbn [config set_birthed]. by rewrite setStateLocked_config.
Qed.

Lemma publish_data_config n dev p c : config (fst (publish_data token_error n dev p c)) = config n.
Proof. unfold publish_data. by destruct (EncodePayload p). Qed.

Lemma node_step_config n n' : node_step n n' → config n' = config n.
Proof.
  destruct 1; try apply setStateLocked_config; try apply birth_config; try done.
  - unfold Connect. case_if; [done|]. destruct (EncodePayload _); [|done..].
    destruct setup, conn; try done. cbn [fst]. by rewrite setStateLocked_config.
  - unfold onConnect_locked. cbn [config set_host set_birthed]. by rewrite setStateLocked_config.
  - unfold PublishDeviceData. case_if; [done|]. by rewrite publish_data_config.
  - unfold PublishDeviceDataPayload. case_if; [done|]. pose proof (publish_data_config
      (set_seq n ((seq n + 1) mod 256)) dev (mkPayload (plTimestamp p) ((seq n + 1) mod 256) (OmitSeq p) (plMetrics p)) "") as Hc.
    cbn [seq set_seq] in *. by destruct (publish_data _ _ _ _ _).
  - unfold PublishDeviceBirth. case_if; [done|]. destruct (deviceMetrics n !! dev); [apply device_birth_config|done].
  - unfold processHostState_locked. by repeat case_if.
  - unfold Disconnect. case_if; [done|]. rewrite setStateLocked_config. cbn [config set_client].
    case_if; [|done]. cbn [config set_client]. by destruct (EncodePayload _).
Qed.

Lemma node_steps_config n n' : node_steps n n' → config n' = config n.
Proof. induction 1 as [|n n1 n2 Hs _ IH]; [done|]. by rewrite IH, (node_step_config _ _ Hs). Qed.

(** The laws of a client: in a good state its callbacks act on the node by the node's
    operations, and leave it in a good state. *)
Class NodeClientLaws (W : Type) `{!NodeClient Hproto W} := {
  client_ok : W → Prop;
  get_set (w : W) n : getNode (setNode w n) = n;
  client_ok_set (w : W) n : client_ok w → node_step (getNode w) n → client_ok (setNode w n);
  before_birth_law now (w : W) : client_ok w →
    node_steps (getNode w) (getNode (onBeforeBirth now w)) ∧ client_ok (onBeforeBirth now w);
  host_state_law now id online (w : W) : client_ok w →
    node_steps (getNode w) (getNode (onHostState now id online w)) ∧ client_ok (onHostState now id online w);
  node_command_law ms (w : W) : client_ok w →
    node_steps (getNode w) (getNode (onNodeCommand ms w)) ∧ client_ok (onNodeCommand ms w);
  device_command_law dev ms (w : W) : client_ok w →
    node_steps (getNode w) (getNode (onDeviceCommand dev ms w)) ∧ client_ok (onDeviceCommand dev ms w);
}.

#[export] Instance lone_node_laws : NodeClientLaws NodeWorld.
Proof. refine {| client_ok := λ _, True |}; done. Defined.

Section Client.
Context {W : Type} `{!NodeClient Hproto W} `{!NodeClientLaws W}.

(** [w'] is reached from [w] by the node's operations, and still good. *)
Definition client_steps (w w' : W) : Prop :=
  client_ok w → node_steps (getNode w) (getNode w') ∧ client_ok w'.

Lemma client_steps_refl w : client_steps w w.
Proof. intros ?. split; [done|done]. Qed.

Lemma client_steps_trans w w' w'' : client_steps w w' → client_steps w' w'' → client_steps w w''.
Proof. intros H1 H2 (H & H')%H1. apply H2 in H' as [H' ?]. split; [by etrans|done]. Qed.

Lemma client_set (w : W) n : node_step (getNode w) n → client_steps w (setNode w n).
Proof. intros Hs Hw. split; [rewrite get_set; by apply rtc_once|by apply client_ok_set]. Qed.

Lemma Birth_steps now (w : W) : client_steps w (Birth token_error iter now w).
Proof.
  unfold Birth. eapply client_steps_trans; [exact (before_birth_law now w)|]. apply client_set, step_birth.
Qed.

Lemma Rebirth_steps now (w : W) : client_steps w (Rebirth token_error iter now w).
Proof. unfold Rebirth. eapply client_steps_trans; [|apply Birth_steps]. apply client_set, step_rebirth. Qed.

Lemma onConnect_steps now (w : W) : client_steps w (onConnect token_error iter now w).
Proof.
  unfold onConnect. eapply client_steps_trans; [apply client_set, step_onConnect|].
  case_if; [apply Birth_steps|apply client_steps_refl].
Qed.

Lemma handleCommand_steps now data dev (w : W) : client_steps w (handleCommand token_error iter now data dev w).
Proof.
  unfold handleCommand. destruct (DecodePayload data) as [p| |]; [|apply client_steps_refl..].
  repeat case_if; [apply Rebirth_steps|exact (node_command_law _ w)|exact (device_command_law _ _ w)].
Qed.

Lemma processHostState_steps now id online ts (w : W) :
  client_steps w (fst (processHostState token_error iter now id online ts w)).
Proof.
  unfold processHostState.
  assert (node_step (getNode w) (fst (processHostState_locked id online ts (getNode w)))) as Hs by apply step_host.
  destruct (processHostState_locked id online ts (getNode w)) as [n [a|]]; cbn [fst] in Hs; [|by apply client_set].
  eapply client_steps_trans; [by apply client_set, Hs|].
  eapply client_steps_trans; [exact (host_state_law now id online _)|].
  destruct a; cbn [fst]; [apply Birth_steps|apply client_steps_refl..].
Qed.

Lemma disconnect_steps now (w : W) : client_steps w (disconnectForHostOffline token_error now w).
Proof. apply client_set, step_disconnect. Qed.
End Client.

End Steps.

(** ** The host's view

    A Sparkplug host application follows the sequence numbers of an edge node: NBIRTH
    starts a session with sequence number 0 and a bdSeq, each following message increments
    the number modulo 256, NDEATH of the same bdSeq ends the session. [host_run] fails on
    a stream that breaks these rules. *)

(** The message type of a topic of this edge node: what stands between the group and the
    next slash. *)
Definition message_type (cfg : MqttBridgeConfig) (topic : string) : list ascii :=
  match after_first ["/"%char] (chars topic) with
  | Some l => let l := drop (S (String.length (GroupID cfg))) l in
              take (length l - length (default [] (after_first ["/"%char] l)) - 1) l
  | None => []
  end.

Section Host.
Context `{Hconv : FloatConv} `{Hunicode : UnicodeTables} `{Hproto : Protobuf}.

Definition payload_bdSeq (p : Payload) : option Z :=
  match plMetrics p with
  | m :: _ => match Value m with
              | Plain (VInt KUint64 b) => if String.eqb (Name m) "bdSeq" then Some b else None
              | _ => None
              end
  | [] => None
  end.

(** The session: bdSeq and the last sequence number. *)
Definition session : Type := option (Z * Z).

Definition host_receive (h : session) (mt : list ascii) (p : Payload) : option session :=
  if bool_decide (mt = chars "NBIRTH") then
    if Seq p =? 0 then b ← payload_bdSeq p; Some (Some (b, 0)) else None
  else if bool_decide (mt = chars "NDEATH") then
    '(b, _) ← h; b' ← payload_bdSeq p; if b =? b' then Some None else None
  else if bool_decide (mt = chars "DBIRTH") || bool_decide (mt = chars "DDATA") then
    '(b, s) ← h; if Seq p =? (s + 1) mod 256 then Some (Some (b, Seq p)) else None
  else None.

(** A message that was not delivered changes nothing. *)
Definition host_step (cfg : MqttBridgeConfig) (h : session) (m : sentMsg) : option session :=
  match sError m with
  | Some _ => Some h
  | None => match DecodePayload (sData m) with
            | Ok p => host_receive h (message_type cfg (sTopic m)) p
            | _ => None
            end
  end.

Fixpoint host_run (cfg : MqttBridgeConfig) (h : session) (ms : list sentMsg) : option session :=
  match ms with [] => Some h | m :: ms' => h' ← host_step cfg h m; host_run cfg h' ms' end.

Lemma host_run_snoc cfg ms m h h1 h2 : host_run cfg h ms = Some h1 → host_step cfg h1 m = Some h2 →
  host_run cfg h (ms ++ [m]) = Some h2.
Proof.
  revert h. induction ms as [|m' ms IH]; intros h; cbn.
  - intros [= ->] ->. done.
  - destruct (host_step cfg h m') as [h'|]; cbn; [|discriminate]. apply IH.
Qed.

(** *** Topics name their message type *)

Lemma after_first_app (a b : list ascii) c : c ∉ a → after_first [c] (a ++ c :: b) = Some b.
Proof.
  induction a as [|x a IH]; intros Hn.
  - cbn. unfold starts_with. cbn. rewrite take_0. by rewrite bool_decide_eq_true_2.
  - cbn. unfold starts_with. cbn. rewrite take_0. rewrite bool_decide_eq_false_2; [apply IH|]; set_solver.
Qed.

Lemma message_type_topic cfg mt rest : "/"%char ∉ chars mt →
  message_type cfg ("spBv1.0/" +:+ GroupID cfg +:+ "/" +:+ mt +:+ "/" +:+ rest) = chars mt.
Proof.
  intros Hmt. unfold message_type.
  rewrite !chars_app. change (chars "spBv1.0/") with (chars "spBv1.0" ++ ["/"%char]).
  change (chars "/") with ["/"%char]. rewrite <- (app_assoc (chars "spBv1.0")). cbn [app].
  rewrite after_first_app; [|apply (bool_decide_unpack _); vm_compute; exact I].
  rewrite drop_app, length_chars. unfold str_len. replace (S (String.length (GroupID cfg)) - String.length (GroupID cfg))%nat with 1%nat by lia.
  rewrite drop_ge by (rewrite length_chars; unfold str_len; lia). cbn [app drop].
  rewrite !drop_0, after_first_app by done. cbn [default]. unfold id. rewrite length_app. cbn [length].
  replace (length (chars mt) + S (length (chars rest)) - length (chars rest) - 1)%nat with (length (chars mt)) by lia.
  by rewrite take_app_length.
Qed.

End Host.

(** ** The published stream *)

Section Stream.
Context `{Hconv : FloatConv} `{Hunicode : UnicodeTables} `{Hproto : Protobuf}.
Context (token_error : nat → option string) (iter : gmap string (list Metric) → list (string * list Metric)).

Definition encodable_all (ms : list Metric) : Prop := forallb encodable ms = true.

Definition in_session (n : NodeWorld) (h : session) : Prop := host_run (config n) None (sent n) = Some h.

(** What the critical sections keep: the metrics can be encoded, a born node has a client
    and the host follows its numbers. *)
Record node_inv (n : NodeWorld) : Prop := {
  inv_node_metrics : encodable_all (nodeMetrics n);
  inv_device_metrics : map_Forall (λ _ ms, encodable_all ms) (deviceMetrics n);
  inv_client : state n = StateBorn → client n = true;
  inv_host : ∃ h, in_session n h ∧ (state n = StateBorn → h = Some (bdSeq n, seq n));
  inv_bdSeq : 0 ≤ bdSeq n < 256;
}.

Lemma node_inv_new cfg d : node_inv (NewSparkplugNode cfg d).
Proof.
  constructor; cbn; try done; [by exists None|]. unfold saved_bdSeq. case_if; [lia|].
  destruct d as [data|]; [|lia]. destruct (parse_uint _) as [v []]; try lia. apply Z.mod_pos_bound. lia.
Qed.

Context (delivered : ∀ i, token_error i = None).

Lemma publish_delivered n topic qos data :
  publish token_error n topic qos data = (set_sent n (sent n ++ [mkSent topic qos data None]), None).
Proof. unfold publish. by rewrite delivered. Qed.

(** A message that the host accepts extends the session. *)
Lemma session_extends n n' topic qos data p h h' :
  in_session n h → config n' = config n → sent n' = sent n ++ [mkSent topic qos data None] →
  DecodePayload data = Ok p → host_receive h (message_type (config n) topic) p = Some h' → in_session n' h'.
Proof.
  intros Hs Hc Hsent Hd Hr. unfold in_session. rewrite Hc, Hsent. eapply host_run_snoc; [done|].
  unfold host_step. cbn [sError sData sTopic]. by rewrite Hd.
Qed.

Lemma device_message_type cfg mt dev : "/"%char ∉ chars mt → message_type cfg (deviceTopic cfg mt dev) = chars mt.
Proof. intros Hmt. unfold deviceTopic. by rewrite message_type_topic. Qed.
Lemma node_message_type cfg mt : "/"%char ∉ chars mt → message_type cfg (node_topic cfg mt) = chars mt.
Proof. intros Hmt. unfold node_topic. by rewrite message_type_topic. Qed.

Ltac no_slash := apply (bool_decide_unpack _); vm_compute; exact I.

(** A DBIRTH or DDATA with the next number. *)
Lemma device_message n n' mt dev qos ts ms b s : mt = "DBIRTH" ∨ mt = "DDATA" →
  in_session n (Some (b, s)) → encodable_all ms → config n' = config n →
  ∃ data, EncodePayload (mkPayload ts ((s + 1) mod 256) false ms) = Ok data ∧
    (sent n' = sent n ++ [mkSent (deviceTopic (config n) mt dev) qos data None] → in_session n' (Some (b, (s + 1) mod 256))).
Proof.
  intros Hmt Hs Hms Hc. destruct (payload_received (mkPayload ts ((s + 1) mod 256) false ms)) as (data & He & Hd); [done|].
  exists data. split; [done|]. intros Hsent. eapply session_extends; try done.
  rewrite device_message_type by (destruct Hmt as [-> | ->]; no_slash).
  unfold host_receive. destruct Hmt as [-> | ->]; cbn -[Z.add Z.modulo]; by rewrite Z.eqb_refl.
Qed.

Lemma device_birth_eq now n dev ms b s : in_session n (Some (b, s)) → seq n = s → encodable_all ms →
  ∃ l, publishDeviceBirthLocked token_error now n dev ms = set_sent (set_seq n ((s + 1) mod 256)) l ∧
    in_session (publishDeviceBirthLocked token_error now n dev ms) (Some (b, (s + 1) mod 256)).
Proof.
  intros Hs Hseq Hms. unfold publishDeviceBirthLocked. cbn [seq set_seq]. rewrite Hseq.
  edestruct (device_message n (publishDeviceBirthLocked token_error now n dev ms) "DBIRTH" dev 0 (wrapu 64 now) ms b s)
    as (data & He & Hin); [by left|done|done| |].
  { unfold publishDeviceBirthLocked. by destruct (EncodePayload _). }
  unfold publishDeviceBirthLocked in Hin. cbn [seq set_seq] in Hin. rewrite Hseq in Hin.
  rewrite He in Hin |- *. rewrite publish_delivered in Hin |- *. cbn [fst] in *. eexists. split; [done|]. by apply Hin.
Qed.

(** A born node whose numbers the host has. *)
Lemma inv_session n : node_inv n → state n = StateBorn → in_session n (Some (bdSeq n, seq n)).
Proof. intros [_ _ _ (h & Hh & Hb) _] Hs. by rewrite <- (Hb Hs). Qed.

Lemma inv_rebuild n n' h : node_inv n → encodable_all (nodeMetrics n') →
  map_Forall (λ _ ms, encodable_all ms) (deviceMetrics n') → (state n' = StateBorn → client n' = true) →
  in_session n' h → (state n' = StateBorn → h = Some (bdSeq n', seq n')) → bdSeq n' = bdSeq n → node_inv n'.
Proof. intros Hi ????? Heq. constructor; try done; [by exists h|]. rewrite Heq. apply (inv_bdSeq n Hi). Qed.

(** A change that leaves the stream alone and does not make the node born. *)
Lemma inv_quiet n n' : node_inv n → encodable_all (nodeMetrics n') →
  map_Forall (λ _ ms, encodable_all ms) (deviceMetrics n') → config n' = config n → sent n' = sent n →
  (state n' = StateBorn → state n = StateBorn ∧ client n' = client n ∧ seq n' = seq n) → bdSeq n' = bdSeq n →
  node_inv n'.
Proof.
  intros [_ _ Hc (h & Hh & Hb) Hbd] Hn Hd Hcfg Hs Hst Heq. constructor; [done..| | |by rewrite Heq].
  - intros Hb'. destruct (Hst Hb') as (H1 & -> & _). by apply Hc.
  - exists h. unfold in_session in *. rewrite Hcfg, Hs. split; [done|].
    intros Hb'. destruct (Hst Hb') as (H1 & _ & ->). rewrite Heq. by apply Hb.
Qed.

Lemma device_birth_inv now n dev ms : node_inv n → state n = StateBorn → encodable_all ms →
  node_inv (publishDeviceBirthLocked token_error now n dev ms) ∧
  state (publishDeviceBirthLocked token_error now n dev ms) = StateBorn.
Proof.
  intros Hi Hb Hms. destruct (device_birth_eq now n dev ms _ _ (inv_session n Hi Hb) eq_refl Hms) as (l & Heq & Hin).
  rewrite Heq in Hin |- *. split; [|done]. destruct Hi. by eapply (inv_rebuild n).
Qed.

Lemma device_births_inv now l : ∀ n, node_inv n → state n = StateBorn → Forall (λ d : string * list Metric, encodable_all d.2) l →
  node_inv (fold_left (λ n d, publishDeviceBirthLocked token_error now n d.1 d.2) l n) ∧
  state (fold_left (λ n d, publishDeviceBirthLocked token_error now n d.1 d.2) l n) = StateBorn.
Proof.
  induction l as [|d l IH]; intros n Hi Hb Hl; [done|]. apply Forall_cons_1 in Hl as [Hd Hl].
  destruct (device_birth_inv now n d.1 d.2 Hi Hb Hd) as [Hi' Hb']. by apply IH.
Qed.

Context (iter_perm : ∀ m, iter m ≡ₚ map_to_list m).

Lemma iter_Forall (P : list Metric → Prop) m : map_Forall (λ _ ms, P ms) m → Forall (λ d : string * list Metric, P d.2) (iter m).
Proof.
  intros Hm. apply List.Forall_forall. intros [k ms] Hin. apply list_elem_of_In in Hin.
  rewrite iter_perm in Hin. apply elem_of_map_to_list in Hin. by apply (Hm k).
Qed.

Lemma nbirth_encodable now n : encodable_all (nodeMetrics n) → encodable_all (plMetrics (nbirth_payload now n)).
Proof. intros Hn. unfold encodable_all, nbirth_payload. cbn [plMetrics app forallb]. by rewrite Hn. Qed.

Lemma bdSeq_received now b : 0 ≤ b < 256 → received (bdSeq_metric now b) = bdSeq_metric now b.
Proof.
  intros Hb. apply received_wire. unfold wire_metric, wire_metric_with. cbn.
  by rewrite (proj2 (Z.leb_le _ _)), (proj2 (Z.ltb_lt _ _)) by lia.
Qed.

(** The node once NBIRTH is published, before the devices' births. *)
Definition after_nbirth (n : NodeWorld) (data : wire) (st : list NodeState) : NodeWorld :=
  mkNode (config n) StateBorn (client n) (bdSeq n) 0 (nodeMetrics n) (deviceMetrics n) (hostOnline n)
    (hostStateTimestamp n) true (sent n ++ [mkSent (node_topic (config n) "NBIRTH") 0 data None]) (will n)
    (subscriptions n) st (disk n).

Definition gate_open (n : NodeWorld) : Prop := PrimaryHostID (config n) = "" ∨ hostOnline n = true.

Lemma birth_eq now n : node_inv n → state n ≠ StateDisconnected → client n = true → gate_open n →
  ∃ data st, node_inv (after_nbirth n data st) ∧
    EncodePayload (nbirth_payload now n) = Ok data ∧
    birth_locked token_error iter now n =
      fold_left (λ n d, publishDeviceBirthLocked token_error now n d.1 d.2) (iter (deviceMetrics n)) (after_nbirth n data st).
Proof.
  intros Hi Hst Hc Hg. unfold birth_locked. rewrite (bool_decide_eq_false_2 _ Hst), Hc. cbn [orb negb].
  assert (negb (PrimaryHostID (config n) =? "")%string && negb (hostOnline n) = false) as ->.
  { destruct Hg as [-> | ->]; [done|]. by rewrite andb_false_r. }
  destruct (payload_received (nbirth_payload now (set_seq n 0))) as (data & He & Hd);
    [apply nbirth_encodable; exact (inv_node_metrics n Hi)|].
  cbv zeta. rewrite He, publish_delivered. cbn [is_none]. open_state st. exists data, st. split; [|by split].
  pose proof Hi as [Hn Hdev _ (h & Hh & _) Hbd].
  apply (inv_rebuild n _ (Some (bdSeq n, 0))); try done.
  eapply session_extends; [done..| |done|]; [done|]. rewrite node_message_type by no_slash.
  unfold host_receive. cbn -[encodable received bdSeq_metric].
  unfold payload_bdSeq. cbn [plMetrics map]. by rewrite bdSeq_received.
Qed.

Lemma birth_inv now n : node_inv n → node_inv (birth_locked token_error iter now n).
Proof.
  intros Hi. unfold birth_locked. case_if; [done|]. case_if; [done|].
  apply orb_false_iff in E as [Hst%bool_decide_eq_false Hc%negb_false_iff].
  destruct (birth_eq now n Hi Hst Hc) as (data & st & Hi1 & _ & Heq).
  { unfold gate_open. apply andb_false_iff in E0 as [Hp%negb_false_iff%String.eqb_eq|Ho%negb_false_iff]; eauto. }
  unfold birth_locked in Heq. rewrite E0, (bool_decide_eq_false_2 _ Hst), Hc in Heq. cbn [orb negb] in Heq.
  rewrite Heq. apply device_births_inv; [done|done|apply iter_Forall; exact (inv_device_metrics n Hi)].
Qed.

Lemma data_inv n n' dev qos ts ms data :
  node_inv n → state n = StateBorn → encodable_all ms → EncodePayload (mkPayload ts ((seq n + 1) mod 256) false ms) = Ok data →
  n' = set_sent (set_seq n ((seq n + 1) mod 256)) (sent n ++ [mkSent (deviceTopic (config n) "DDATA" dev) qos data None]) →
  node_inv n'.
Proof.
  intros Hi Hb Hms He Heq. pose proof Hi as [Hn Hdev Hc _ _].
  destruct (device_message n n' "DDATA" dev qos ts ms (bdSeq n) (seq n)) as (data' & He' & Hin);
    [by right|by apply inv_session|done|by subst n'|].
  assert (data' = data) as -> by congruence.
  apply (inv_rebuild n _ (Some (bdSeq n, (seq n + 1) mod 256))); try (by subst n'). apply Hin. by subst n'.
Qed.

Lemma PublishDeviceData_inv now n dev ms : node_inv n → encodable_all ms →
  node_inv (fst (PublishDeviceData token_error now n dev ms)).
Proof.
  intros Hi Hms. unfold PublishDeviceData. case_if; [done|]. apply orb_false_iff in E as [Hb%negb_false_iff _].
  apply bool_decide_eq_true in Hb. cbn [seq set_seq]. unfold publish_data.
  destruct (payload_received (mkPayload (wrapu 64 now) ((seq n + 1) mod 256) false ms)) as (data & He & _); [done|].
  rewrite He, publish_delivered. cbn [fst]. by eapply (data_inv n).
Qed.

Lemma PublishDeviceDataPayload_inv n dev p : node_inv n → encodable_all (plMetrics p) → OmitSeq p = false →
  node_inv (fst (fst (PublishDeviceDataPayload token_error n dev p))).
Proof.
  intros Hi Hms Ho. unfold PublishDeviceDataPayload. case_if; [done|]. apply orb_false_iff in E as [Hb%negb_false_iff _].
  apply bool_decide_eq_true in Hb. cbn [seq set_seq]. unfold publish_data. rewrite Ho.
  destruct (payload_received (mkPayload (plTimestamp p) ((seq n + 1) mod 256) false (plMetrics p))) as (data & He & _); [done|].
  rewrite He, publish_delivered. cbn [fst]. by eapply (data_inv n).
Qed.

Lemma PublishDeviceBirth_inv now n dev : node_inv n → node_inv (PublishDeviceBirth token_error now n dev).
Proof.
  intros Hi. unfold PublishDeviceBirth. case_if; [done|]. apply orb_false_iff in E as [Hb%negb_false_iff _].
  apply bool_decide_eq_true in Hb. destruct (deviceMetrics n !! dev) as [ms|] eqn:Hd; [|done].
  apply device_birth_inv; [done|done|]. exact (inv_device_metrics n Hi dev ms Hd).
Qed.

Lemma setStateLocked_inv n s : node_inv n → s ≠ StateBorn → node_inv (setStateLocked n s).
Proof.
  intros Hi Hs. open_state st. destruct Hi as [Hn Hd Hc Hh Hb].
  by apply (inv_quiet n).
Qed.

Lemma Disconnect_inv now n : node_inv n → node_inv (Disconnect token_error now n).
Proof.
  intros Hi. unfold Disconnect. case_if; [done|]. cbv zeta.
  open_state st.
  pose proof Hi as [Hn Hd Hc (h & Hh & Hb) Hbd]. case_bool_decide as Hborn; [|by constructor; cbn; try done; exists h].
  destruct (payload_received (ndeath_payload now (bdSeq n))) as (data & He & Hdec); [done|].
  rewrite He, publish_delivered. specialize (Hb Hborn) as ->.
  constructor; cbn -[Z.modulo]; [done..| |apply Z.mod_pos_bound; lia].
  exists None. split; [|done]. eapply session_extends; [exact Hh|done|done|exact Hdec|].
  rewrite node_message_type by no_slash. unfold host_receive. cbn -[received bdSeq_metric].
  unfold payload_bdSeq. cbn [plMetrics map]. rewrite bdSeq_received by done. cbn. by rewrite Z.eqb_refl.
Qed.

Lemma Connect_inv now setup conn saved n : node_inv n → node_inv (fst (Connect now setup conn saved n)).
Proof.
  intros Hi. unfold Connect. case_if; [done|]. destruct (EncodePayload _) as [w| |]; [|done..].
  destruct setup, conn; try done. cbn [fst].
  open_state st.
  destruct Hi as [Hn Hd Hc (h & Hh & _) Hbd]. by constructor; cbn; try done; exists h.
Qed.

Lemma node_step_inv n n' : node_inv n → node_step token_error iter encodable_all n n' → node_inv n'.
Proof.
  intros Hi. destruct 1 as [| | | | |????? Hms|????? Hms Ho| |ms n Hms|dev ms n Hms|id online ts n|].
  - by apply Connect_inv.
  - by apply setStateLocked_inv.
  - unfold onConnect_locked. open_state st. destruct Hi as [Hn Hd Hc (h & Hh & _) Hbd]. by constructor; cbn; try done; exists h.
  - by apply birth_inv.
  - by apply setStateLocked_inv.
  - by apply PublishDeviceData_inv.
  - by apply PublishDeviceDataPayload_inv.
  - by apply PublishDeviceBirth_inv.
  - destruct Hi. by constructor.
  - destruct Hi as [Hn Hd Hc Hh Hbd]. constructor; cbn; try done. by apply map_Forall_insert_2.
  - unfold processHostState_locked. repeat case_if; try done; destruct Hi; by constructor.
  - by apply Disconnect_inv.
Qed.

Lemma node_steps_inv n n' : node_inv n → node_steps token_error iter encodable_all n n' → node_inv n'.
Proof. intros Hi Hs. induction Hs as [|n n1 n2 Hstep _ IH]; [done|]. apply IH. by eapply node_step_inv. Qed.

(** Whatever way the node's critical sections interleave (connections and their loss,
    births, data, commands to rebirth, host states, disconnections), a host application
    accepts every message that was published: each NBIRTH has sequence number 0, each
    DBIRTH and DDATA the next one, each NDEATH the bdSeq of the last NBIRTH; and while the
    node is born the host has its bdSeq and its sequence number. *)
Theorem published_stream_accepted cfg d n :
  node_steps token_error iter encodable_all (NewSparkplugNode cfg d) n →
  ∃ h, host_run cfg None (sent n) = Some h ∧ (state n = StateBorn → h = Some (bdSeq n, seq n)).
Proof.
  intros Hs. rewrite <- (node_steps_config _ _ _ _ _ Hs : config n = cfg).
  eapply inv_host, node_steps_inv; [apply node_inv_new|exact Hs].
Qed.

(** *** The primary host *)

Lemma Birth_waits now n : PrimaryHostID (config n) ≠ "" → hostOnline n = false → birth_locked token_error iter now n = n.
Proof.
  intros Hp Ho. unfold birth_locked. case_if; [done|]. apply String.eqb_neq in Hp. by rewrite Hp, Ho.
Qed.

(** The births of the devices, as topics. *)
Definition birth_topics (n : NodeWorld) : list string :=
  node_topic (config n) "NBIRTH" :: map (λ d : string * list Metric, deviceTopic (config n) "DBIRTH" d.1) (iter (deviceMetrics n)).

(** The birth certificate of a device. *)
Definition is_dbirth (cfg : MqttBridgeConfig) (d : string * list Metric) (m : sentMsg) : Prop :=
  sTopic m = deviceTopic cfg "DBIRTH" d.1 ∧ sError m = None ∧
  ∃ p, DecodePayload (sData m) = Ok p ∧ plMetrics p = map received d.2.

Lemma device_births_sent now l : ∀ n, node_inv n → state n = StateBorn → Forall (λ d : string * list Metric, encodable_all d.2) l →
  let n' := fold_left (λ n d, publishDeviceBirthLocked token_error now n d.1 d.2) l n in
  ∃ ms, n' = set_sent (set_seq n (seq n')) (sent n ++ ms) ∧ Forall2 (is_dbirth (config n)) l ms.
Proof.
  induction l as [|d l IH]; intros n Hi Hb Hl; cbv zeta.
  { exists []. split; [|done]. cbn. rewrite app_nil_r. by destruct n. }
  apply Forall_cons_1 in Hl as [Hd Hl]. cbn [fold_left].
  destruct (device_birth_inv now n d.1 d.2 Hi Hb Hd) as [Hi' Hb'].
  destruct (IH _ Hi' Hb' Hl) as (ms & Heq & Hms). cbv zeta in *.
  unfold publishDeviceBirthLocked in Heq, Hms |- *.
  cbn [seq set_seq] in *.
  destruct (payload_received (mkPayload (wrapu 64 now) ((seq n + 1) mod 256) false d.2)) as (data & He & Hdec); [done|].
  rewrite He in *. rewrite publish_delivered in *. cbn [fst config set_sent set_seq] in *.
  rewrite Heq. cbn [sent set_sent set_seq]. rewrite <- app_assoc. eexists. split; [done|]. cbn.
  constructor; [|done]. split_and!; [done..|]. eexists. split; [exact Hdec|done].
Qed.

Lemma dbirth_topics cfg l ms : Forall2 (is_dbirth cfg) l ms →
  map sTopic ms = map (λ d : string * list Metric, deviceTopic cfg "DBIRTH" d.1) l.
Proof. induction 1 as [|d m l ms (Ht & _) _ IH]; [done|]. cbn. by rewrite Ht, IH. Qed.

Lemma birth_publishes now n : node_inv n → state n ≠ StateDisconnected → client n = true → gate_open n →
  ∃ nb ms st s, birth_locked token_error iter now n =
      mkNode (config n) StateBorn (client n) (bdSeq n) s (nodeMetrics n) (deviceMetrics n) (hostOnline n)
        (hostStateTimestamp n) true (sent n ++ nb :: ms) (will n) (subscriptions n) st (disk n) ∧
    sTopic nb = node_topic (config n) "NBIRTH" ∧ Forall2 (is_dbirth (config n)) (iter (deviceMetrics n)) ms.
Proof.
  intros Hi Hst Hc Hg. destruct (birth_eq now n Hi Hst Hc Hg) as (data & st & Hi1 & _ & Heq).
  edestruct (device_births_sent now (iter (deviceMetrics n)) (after_nbirth n data st)) as (ms & Hf & Hms);
    [done|done|apply iter_Forall; exact (inv_device_metrics n Hi)|].
  rewrite <- Heq in Hf. cbn [sent after_nbirth] in Hf. rewrite <- app_assoc in Hf.
  exists (mkSent (node_topic (config n) "NBIRTH") 0 data None), ms, st. eexists. split; [by rewrite Hf|by split].
Qed.

(** A STATE message of the primary host, for a node without client. *)
Lemma processHostState_own now online t n : PrimaryHostID (config n) ≠ "" →
  processHostState (W := NodeWorld) token_error iter now (PrimaryHostID (config n)) online t n =
  if t <? hostStateTimestamp n then (n, false)
  else if online && negb (birthed n) then (birth_locked token_error iter now (set_host n online t), false)
  else (set_host n online t, negb online && hostOnline n && birthed n && client n).
Proof.
  intros Hp%String.eqb_neq. unfold processHostState, processHostState_locked. cbn [getNode setNode lone_node].
  rewrite String.eqb_refl, Hp. cbn [negb andb]. case_if; [done|]. case_if; [done|]. by case_if; rewrite ?E1.
Qed.

(** With a primary host configured, a connection alone publishes nothing; the first
    STATE message that says the host is online publishes NBIRTH and one DBIRTH per device,
    further ones publish nothing; an older STATE is ignored; and when the host goes offline
    the node ends the session with an NDEATH. *)
Theorem primary_host_session now n t t' t'' : node_inv n → client n = true → PrimaryHostID (config n) ≠ "" →
  0 ≤ t → t ≤ t' → t'' < t →
  let host := PrimaryHostID (config n) in
  let state_msg ts online := processHostState (W := NodeWorld) token_error iter now host online ts in
  let n1 := onConnect (W := NodeWorld) token_error iter now n in
  let n2 := fst (state_msg t true n1) in
  sent n1 = sent n ∧
  (∃ ms, sent n2 = sent n ++ ms ∧ map sTopic ms = birth_topics n) ∧ state n2 = StateBorn ∧
  sent (fst (state_msg t' true n2)) = sent n2 ∧
  state_msg t'' false n2 = (n2, false) ∧
  snd (state_msg t' false n2) = true ∧
  (∃ data, sent (disconnectForHostOffline (W := NodeWorld) token_error now (fst (state_msg t' false n2))) =
     sent n2 ++ [mkSent (node_topic (config n) "NDEATH") 1 data None]).
Proof.
  intros Hi Hc Hp Ht Ht' Ht'' host state_msg n1 n2.
  assert (Hpb : String.eqb (PrimaryHostID (config n)) "" = false) by by apply String.eqb_neq.
  assert (∃ st1, n1 = mkNode (config n) StateDead (client n) (bdSeq n) (seq n) (nodeMetrics n) (deviceMetrics n) false
    0 false (sent n) (will n) (command_topics (config n)) st1 (disk n)) as (st1 & Hn1).
  { unfold n1, onConnect. cbn [getNode setNode lone_node]. unfold onConnect_locked. open_state st.
    cbn [config set_host set_birthed set_subscriptions]. rewrite Hpb. by eexists. }
  assert (node_inv (set_host n1 true t)) as Hi1.
  { rewrite Hn1. destruct Hi as [Hn Hd _ (h & Hh & _) Hbd]. by constructor; cbn; try done; exists h. }
  destruct (birth_publishes now (set_host n1 true t) Hi1) as (nb & ms & st & s & Hn2 & Hnb & Hms);
    [by rewrite Hn1|by rewrite Hn1|by right|]. apply dbirth_topics in Hms.
  assert (n2 = mkNode (config n) StateBorn (client n) (bdSeq n) s (nodeMetrics n) (deviceMetrics n) true t true
    (sent n ++ nb :: ms) (will n) (command_topics (config n)) st (disk n)) as Hn2'.
  { unfold n2, state_msg, host. replace (config n) with (config n1) at 1 by by rewrite Hn1.
    rewrite processHostState_own by by rewrite Hn1. rewrite Hn2, Hn1. cbn [hostStateTimestamp birthed].
    by rewrite (proj2 (Z.ltb_ge t 0)) by lia. }
  assert (∀ ts online, state_msg ts online n2 =
    if ts <? t then (n2, false) else (set_host n2 online ts, negb online && client n)) as Hmsg.
  { intros ts online. unfold state_msg, host. replace (config n) with (config n2) at 1 by by rewrite Hn2'.
    rewrite processHostState_own by by rewrite Hn2'. rewrite Hn2'. cbn [hostStateTimestamp birthed hostOnline client].
    by rewrite andb_false_r, !andb_true_r. }
  split_and!; [by rewrite Hn1| |by rewrite Hn2'|..].
  - exists (nb :: ms). rewrite Hn2'. split; [done|]. cbn [map]. by rewrite Hnb, Hms, Hn1.
  - rewrite Hmsg. by case_if.
  - rewrite Hmsg. by rewrite (proj2 (Z.ltb_lt t'' t)) by lia.
  - rewrite Hmsg, (proj2 (Z.ltb_ge t' t)) by lia. by rewrite Hc.
  - rewrite Hmsg, (proj2 (Z.ltb_ge t' t)) by lia. cbn [fst]. unfold disconnectForHostOffline, Disconnect.
    cbn [getNode setNode lone_node]. rewrite Hn2'. cbn [client set_host]. rewrite Hc. cbn [negb].
    rewrite bool_decide_eq_true_2 by done.
    change (bdSeq (set_host _ _ _)) with (bdSeq n).
    destruct (payload_received (ndeath_payload now (bdSeq n))) as (data & He & _); [done|].
    exists data. cbv zeta. rewrite He, publish_delivered. cbn [fst]. by open_state st2.
Qed.

(** A metric that cannot be encoded costs a sequence number: after the failed DDATA the
    next good one is rejected by the host, which misses a message. *)
Theorem failed_encoding_breaks_stream now n dev dev' bad ms : node_inv n → state n = StateBorn →
  is_ok (EncodePayload (mkPayload (wrapu 64 now) ((seq n + 1) mod 256) false bad)) = false → encodable_all ms →
  let n1 := fst (PublishDeviceData token_error now n dev bad) in
  let n2 := fst (PublishDeviceData token_error now n1 dev' ms) in
  sent n1 = sent n ∧ length (sent n2) = S (length (sent n)) ∧ host_run (config n) None (sent n2) = None.
Proof.
  intros Hi Hb Hbad Hms n1 n2. pose proof (inv_client n Hi Hb) as Hc.
  assert (n1 = set_seq n ((seq n + 1) mod 256)) as Hn1.
  { unfold n1, PublishDeviceData. rewrite Hb, Hc. cbn -[Z.modulo Z.add EncodePayload]. unfold publish_data.
    by destruct (EncodePayload _). }
  destruct (payload_received (mkPayload (wrapu 64 now) (((seq n + 1) mod 256 + 1) mod 256) false ms)) as (data & He & Hd); [done|].
  assert (n2 = set_sent (set_seq n (((seq n + 1) mod 256 + 1) mod 256))
                 (sent n ++ [mkSent (deviceTopic (config n) "DDATA" dev') 0 data None])) as ->.
  { unfold n2, PublishDeviceData. rewrite Hn1. cbn -[Z.modulo Z.add EncodePayload]. rewrite Hb, Hc.
    cbn -[Z.modulo Z.add EncodePayload]. unfold publish_data. rewrite He, publish_delivered. done. }
  split_and!; [by rewrite Hn1|by cbn; rewrite length_app; cbn; lia|]. cbn [sent set_sent].
  pose proof (inv_session n Hi Hb) as Hs. unfold in_session in Hs.
  assert (∀ l h h1 m, host_run (config n) h l = Some h1 → host_step (config n) h1 m = None → host_run (config n) h (l ++ [m]) = None)
    as Hfail.
  { induction l as [|m' l IH]; intros h h1 m; cbn; [by intros [= ->] ->|].
    destruct (host_step (config n) h m'); [|done]. apply IH. }
  eapply Hfail; [exact Hs|]. unfold host_step. cbn [sError sData sTopic]. rewrite Hd.
  rewrite device_message_type by no_slash.
  change (host_receive ?h (chars "DDATA") ?p) with ('(b, s) ← h; if Seq p =? (s + 1) mod 256 then Some (Some (b, Seq p)) else None).
  cbn -[Z.modulo Z.add Z.eqb]. rewrite (proj2 (Z.eqb_neq _ _)); [done|]. intros Heq. Z.div_mod_to_equations. lia.
Qed.

End Stream.

(** ** bdSeq across sessions *)

Section BdSeq.
Context `{Hconv : FloatConv} `{Hunicode : UnicodeTables} `{Hproto : Protobuf}.
Context (token_error : nat → option string).

Lemma saved_digits b : 0 ≤ b < 256 → parse_uint (string_bytes (trim_space (itoa b))) = (b, NumOK).
Proof.
  intros Hb. assert (forallb (λ k, match parse_uint (string_bytes (trim_space (itoa (Z.of_nat k)))) with
    | (v, NumOK) => v =? Z.of_nat k | _ => false end) (List.seq 0 256) = true) as H by (vm_compute; reflexivity).
  rewrite List.forallb_forall in H. specialize (H (Z.to_nat b)). rewrite Z2Nat.id in H by lia.
  destruct (parse_uint _) as [v e]. assert (In (Z.to_nat b) (List.seq 0 256)) as Hin by (apply List.in_seq; lia).
  specialize (H Hin). destruct e; try discriminate. apply Z.eqb_eq in H. by subst.
Qed.

Lemma Connect_refused now e saved n : state n = StateDisconnected →
  Connect now None (Some e) saved n = (n, Err ("mqtt connect: " +:+ e)).
Proof.
  intros Hs. unfold Connect. rewrite bool_decide_eq_true_2 by done. cbn [negb].
  destruct (payload_received (ndeath_payload now (bdSeq n))) as (data & He & _); [done|]. by rewrite He.
Qed.

(** bdSeq survives a restart of the process: after a successful connection with a file
    configured, a new node starts with the connection's bdSeq plus one, modulo 256. *)
Theorem bdSeq_survives_restart now n : state n = StateDisconnected → 0 ≤ bdSeq n < 256 → BdSeqFile (config n) ≠ "" →
  ∃ n', Connect now None None true n = (n', Ok tt) ∧
    bdSeq (NewSparkplugNode (config n) (disk n')) = (bdSeq n + 1) mod 256.
Proof.
  intros Hs Hb Hf%String.eqb_neq. unfold Connect. rewrite bool_decide_eq_true_2 by done. cbn [negb].
  destruct (payload_received (ndeath_payload now (bdSeq n))) as (data & He & _); [done|]. rewrite He.
  eexists. split; [done|]. open_state st. cbn [disk set_client NewSparkplugNode bdSeq]. unfold saved_bdSeq.
  rewrite Hf. unfold writeBdSeq. rewrite saved_digits by done. rewrite wrapu_small; [done|]. unfold in_u. lia.
Qed.

(** A session that ends before its NBIRTH keeps its bdSeq: the next connection announces
    the same number in its will. *)
Theorem unborn_session_keeps_bdSeq now now' n : state n ≠ StateBorn → client n = true →
  let n' := Disconnect token_error now n in
  ∃ n'' data, Connect now' None None true n' = (n'', Ok tt) ∧ will n'' = Some (node_topic (config n) "NDEATH", data) ∧
    EncodePayload (ndeath_payload now' (bdSeq n)) = Ok data.
Proof.
  intros Hs Hc n'. unfold n', Disconnect. rewrite Hc. cbn [negb]. rewrite bool_decide_eq_false_2 by done. cbv zeta.
  open_state st. unfold Connect. rewrite bool_decide_eq_true_2 by done. cbn [negb bdSeq set_client].
  destruct (payload_received (ndeath_payload now' (bdSeq n))) as (data & He & _); [done|]. rewrite He.
  eexists _, data. split; [done|]. split; [|done]. by open_state st2.
Qed.
End BdSeq.

(** ** Texts *)

(** [s] is one level of a topic. *)
Definition level (s : string) : bool := negb (String.eqb s "") && forallb (λ c, negb (bool_decide (c = "/"%char))) (chars s).

Lemma split_topic_level l rest cur : forallb (λ c, negb (bool_decide (c = "/"%char))) l = true →
  split_topic (l ++ "/"%char :: rest) cur = emit (cur ++ l) ++ split_topic rest [].
Proof.
  revert cur. induction l as [|c l IH]; intros cur Hl; [by cbn; rewrite app_nil_r|].
  cbn in Hl. apply andb_prop in Hl as [Hc%negb_true_iff Hl]. cbn. rewrite Hc, IH by done. by rewrite <- app_assoc.
Qed.

Lemma split_topic_last l cur : forallb (λ c, negb (bool_decide (c = "/"%char))) l = true → split_topic l cur = emit (cur ++ l).
Proof.
  revert cur. induction l as [|c l IH]; intros cur Hl; [by cbn; rewrite app_nil_r|].
  cbn in Hl. apply andb_prop in Hl as [Hc%negb_true_iff Hl]. cbn. rewrite Hc, IH by done. by rewrite <- app_assoc.
Qed.

Lemma emit_level s : level s = true → emit (chars s) = [s].
Proof.
  unfold level. intros [Hs%negb_true_iff%String.eqb_neq _]%andb_prop. unfold emit, str, chars.
  destruct (String.list_ascii_of_string s) eqn:E; [by destruct s|]. rewrite <- E. by rewrite String.string_of_list_ascii_of_string.
Qed.

Lemma splitTopic_cons s t : level s = true → splitTopic (s +:+ "/" +:+ t) = s :: splitTopic t.
Proof.
  intros Hs. unfold splitTopic. rewrite !chars_app. change (chars "/") with ["/"%char]. cbn [app].
  rewrite split_topic_level by by apply andb_prop in Hs as [_ Hs]. cbn [app]. by rewrite emit_level.
Qed.
Lemma splitTopic_last s : level s = true → splitTopic s = [s].
Proof.
  intros Hs. unfold splitTopic. rewrite split_topic_last by by apply andb_prop in Hs as [_ Hs]. by apply emit_level.
Qed.

(** The device named in a command topic is the one it was built from, and the host in
    both forms of STATE topic, for names without slash. *)
Theorem topics_parse_back cfg mt dev host :
  level (GroupID cfg) = true → level mt = true → level (EdgeNode cfg) = true → level dev = true → level host = true →
  parseDeviceID (deviceTopic cfg mt dev) = dev ∧ parseHostID ("STATE/" +:+ host) = host ∧
  parseHostIDV3 ("spBv1.0/STATE/" +:+ host) = host.
Proof.
  intros Hg Hm He Hd Hh. unfold parseDeviceID, parseHostID, parseHostIDV3, deviceTopic.
  change ("spBv1.0/" +:+ ?x) with ("spBv1.0" +:+ "/" +:+ x).
  change ("STATE/" +:+ host) with ("STATE" +:+ "/" +:+ host).
  change ("spBv1.0/STATE/" +:+ host) with ("spBv1.0" +:+ "/" +:+ "STATE" +:+ "/" +:+ host).
  by rewrite !splitTopic_cons, !splitTopic_last.
Qed.

(** ** Witnesses *)

#[local] Existing Instance conv_zero.
#[local] Existing Instance ascii_tables.
#[local] Existing Instance protobuf_id.

(** A connected node that waits for the host H, with one device. *)
Definition ex_host_cfg : MqttBridgeConfig := mkConfig "G" "E" "H" true 10 0 5 "".
Definition ex_connected : NodeWorld := fst (Connect 1000 None None true (NewSparkplugNode ex_host_cfg None)).
Definition ex_waiting : NodeWorld := fst (SetDeviceMetrics ex_connected "dev" [NewBoolMetric 1000 "on" true]).

Lemma ex_waiting_inv : node_inv ex_waiting.
Proof.
  assert (encodable_all [NewBoolMetric 1000 "on" true]) as He by (vm_compute; reflexivity).
  apply (node_steps_inv (λ _, None) map_to_list (λ _, eq_refl) (λ _, reflexivity _) (NewSparkplugNode ex_host_cfg None) ex_waiting);
    [apply node_inv_new|].
  eapply rtc_l; [apply (step_connect _ _ _ 1000 None None true)|].
  apply rtc_once. exact (step_set_device (λ _, None) map_to_list encodable_all "dev" _ ex_connected He).
Qed.

Lemma primary_host_session_witness : ∃ ms,
  sent (fst (processHostState (W := NodeWorld) (λ _, None) map_to_list 1005 "H" true 500
    (onConnect (W := NodeWorld) (λ _, None) map_to_list 1005 ex_waiting))) = sent ex_waiting ++ ms ∧
  map sTopic ms = ["spBv1.0/G/NBIRTH/E"; "spBv1.0/G/DBIRTH/E/dev"].
Proof.
  destruct (primary_host_session (λ _, None) map_to_list (λ _, eq_refl) (λ _, reflexivity _) 1005 ex_waiting 500 600 400)
    as (_ & (ms & Hs & Ht) & _); [exact ex_waiting_inv|vm_compute; reflexivity|vm_compute; discriminate|lia|lia|lia|].
  exists ms. split; [exact Hs|]. rewrite Ht. vm_compute. reflexivity.
Defined.
