(* ===== verification/PlcTypes.v ===== *)
(** The messages that carry variables on the bus: types/data.go, types/common.go and
    types/variables.go. They travel as JSON; the records are what encoding and decoding
    give, with nil pointers and nil maps as [None]. *)

From S2P Require Export Prelude GoValue Rbe.

#[local] Open Scope Z_scope.

Record UdtMemberDefinition := mkMember {
  umName : string;
  umDatatype : string;
  umDescription : string;
  umTemplateRef : string;
  umIsArray : bool;
}.

Record UdtTemplateDefinition := mkUdtTemplate {
  utName : string;
  utVersion : string;
  utMembers : list UdtMemberDefinition;
}.

Record PlcDataMessage := mkData {
  dmModuleID : string;
  dmDeviceID : string;
  dmVariableID : string;
  dmValue : value;
  dmTimestamp : Z;
  dmDatatype : string;
  dmDescription : string;
  dmDeadband : option Types.DeadBandConfig;
  dmDisableRBE : bool;
  dmHistoryEnabled : bool;
  dmUdtTemplate : option UdtTemplateDefinition;
  dmMemberDeadbands : option (gmap string Types.DeadBandConfig);
}.

Record VariableInfo := mkVarInfo {
  viModuleID : string;
  viDeviceID : string;
  viVariableID : string;
  viValue : value;
  viDatatype : string;
  viDescription : string;
  viDeadband : option Types.DeadBandConfig;
  viDisableRBE : bool;
  viUdtTemplate : option UdtTemplateDefinition;
}.

(** One value of a batch, and the batch of a scanner. *)
Record ScannerBatchValue := mkBatchValue {
  bvVariableID : string;
  bvValue : value;
  bvDatatype : string;
}.

Record ScannerBatchMessage := mkBatch {
  bmModuleID : string;
  bmDeviceID : string;
  bmTimestamp : Z;
  bmValues : list ScannerBatchValue;
}.
