(* ===== verification/PlcVariables.v ===== *)
(** The variables of the PLC engine: its configuration (internal/types/plc.go), the
    variable store (internal/plc/variables.go) and the publisher of changed variables
    (publisher.go). Every store operation runs under the store's lock, so each is one step;
    the end of the file has the steps of concurrent writers and the publisher. *)

From S2P Require Export Prelude GoValue Rbe PlcTypes.
From S2P Require Topics.
Import Topics (SanitizeForSubject).

#[local] Open Scope Z_scope.

(** ** Configuration *)

Record PlcDeviceConfigKV := mkPlcDevice {
  pdProtocol : string;
  pdHost : string;
  pdPort : option Z;
  pdSlot : option Z;
  pdEndpointURL : string;
  pdVersion : string;
  pdCommunity : string;
  pdUnitID : option Z;
  pdScanRate : option Z;
}.

Record PlcVariableSourceKV := mkSource {
  psProtocol : string;
  psDeviceID : string;
  psTag : string;
  psCipType : string;
  psFunctionCode : option Z;
  psModbusDatatype : string;
  psByteOrder : string;
  psAddress : option Z;
}.

Record PlcVariableConfigKV := mkPlcVar {
  pvID : string;
  pvDescription : string;
  pvDatatype : string;
  pvDefault : value;
  pvDirection : string;
  pvSource : option PlcVariableSourceKV;
  pvDeadband : option Types.DeadBandConfig;
  pvDisableRBE : bool;
}.

Record PlcTaskConfigKV := mkTask {
  ptName : string;
  ptDescription : string;
  ptScanRateMs : Z;
  ptProgramRef : string;
  ptEnabled : bool;
}.

Record PlcProgramKV := mkProgram {
  ppName : string;
  ppLanguage : string;
  ppSource : string;
  ppStSource : string;
  ppUpdatedAt : Z;
  ppUpdatedBy : string;
}.

Record PlcUdtTemplateMemberConfig := mkPlcMember {
  pmName : string;
  pmDatatype : string;
}.

Record PlcUdtTemplateConfigKV := mkPlcTemplate {
  ptcName : string;
  ptcVersion : string;
  ptcMembers : list PlcUdtTemplateMemberConfig;
}.

(** The engine does not read the templates. *)
Record PlcConfigKV := mkPlcConfig {
  pcPlcID : string;
  pcDevices : gmap string PlcDeviceConfigKV;
  pcVariables : gmap string PlcVariableConfigKV;
  pcUdtTemplates : gmap string PlcUdtTemplateConfigKV;
  pcTasks : gmap string PlcTaskConfigKV;
  pcUpdatedAt : Z;
}.

(** ** The store *)

Record RuntimeVariable := mkRuntime {
  rvID : string;
  rvDatatype : string;
  rvDirection : string;
  rvValue : value;
  rvQuality : string;
  rvLastUpdated : Z;
  rvChanged : bool;
}.

(** The variables by identifier; Go's map holds pointers, and a variable keeps its pointer
    until the store is cleared, so an identifier stands for it. *)
Notation VariableStore := (gmap string RuntimeVariable).

Definition with_changed (v : RuntimeVariable) (c : bool) : RuntimeVariable :=
  mkRuntime (rvID v) (rvDatatype v) (rvDirection v) (rvValue v) (rvQuality v) (rvLastUpdated v) c.

Definition NewVariableStore : VariableStore := ∅.

Definition Get (vs : VariableStore) (id : string) : value :=
  match vs !! id with Some v => rvValue v | None => VNil end.

Section Number.
Context `{JsonNumber}.

Definition number_of (val : value) : float64 :=
  match val with
  | VFloat64 v => v
  | VFloat32 v => f64_of_f32 v
  | VInt KInt v | VInt KInt64 v => f64_of_Z v
  | VJsonNumber s => number_Float64 s
  | _ => f64_zero
  end.

Definition GetNumber (vs : VariableStore) (id : string) : float64 := number_of (Get vs id).

(** [GetBool] of a value [val] and of the number [GetNumber] reads afterwards. *)
Definition truth (val : value) (n : float64) : bool :=
  match val with
  | VNil => false
  | VBool b => b
  | _ => negb (f64_eqb n f64_zero)
  end.

Definition GetBool (vs : VariableStore) (id : string) : bool := truth (Get vs id) (GetNumber vs id).

End Number.

Definition string_of (val : value) : string := match val with VString s => s | _ => "" end.
Definition GetString (vs : VariableStore) (id : string) : string := string_of (Get vs id).

(** [Set]: an unknown variable is refused. *)
Definition SetVar (id : string) (val : value) (nowMs : Z) (vs : VariableStore) : bool * VariableStore :=
  match vs !! id with
  | None => (false, vs)
  | Some v => (true, <[id := mkRuntime (rvID v) (rvDatatype v) (rvDirection v) val (rvQuality v) nowMs true]> vs)
  end.

Definition SetQuality (id quality : string) (vs : VariableStore) : VariableStore :=
  match vs !! id with
  | Some v => <[id := mkRuntime (rvID v) (rvDatatype v) (rvDirection v) (rvValue v) quality (rvLastUpdated v) (rvChanged v)]> vs
  | None => vs
  end.

Definition Add (rv : RuntimeVariable) (vs : VariableStore) : VariableStore := <[rvID rv := rv]> vs.
Definition Clear : VariableStore := ∅.
Definition Count (vs : VariableStore) : Z := Z.of_nat (size vs).
Definition GetVariable (vs : VariableStore) (id : string) : option RuntimeVariable := vs !! id.

Section Publisher.
(** The JSON text of a value, and the order in which Go ranges over a map. *)
Context (marshal : value → option string).
Context (iter : ∀ A : Type, gmap string A → list (string * A)).
Arguments iter {A} _.

Definition clear_changed (vs : VariableStore) : VariableStore := (λ v, with_changed v false) <$> vs.

(** [DrainChanged]: the changed variables, by identifier. *)
Definition DrainChanged (vs : VariableStore) : list string * VariableStore :=
  (map fst (filter (λ kv, rvChanged kv.2 = true) (iter vs)), clear_changed vs).

(** ** The publisher *)

Definition plc_message (plcID : string) (v : RuntimeVariable) (now : Z) : PlcDataMessage :=
  mkData plcID plcID (rvID v) (rvValue v) now (rvDatatype v) "" None false false None None.

(** The message of one drained variable; the pointer is read without the lock. *)
Definition publish_one (plcID : string) (now : Z) (vs : VariableStore) (id : string) : option (string * PlcDataMessage) :=
  match vs !! id with
  | None => None
  | Some v =>
      if String.eqb (rvDirection v) "input" then None
      else match marshal (rvValue v) with
           | None => None
           | Some _ => Some (Topics.plcVariableSubject plcID (rvID v), plc_message plcID v now)
           end
  end.

(** [publishChanged] when nothing else writes meanwhile. *)
Definition publishChanged (plcID : string) (now : Z) (vs : VariableStore) : list (string * PlcDataMessage) * VariableStore :=
  let '(changed, vs) := DrainChanged vs in (omap (publish_one plcID now vs) changed, vs).

(** ** The publisher among writers

    The store, the variables that the publisher's tick has drained and not published yet,
    and what it has published so far, the last first. *)
Record pubState := mkPub {
  psVars : VariableStore;
  psPending : list string;
  psLog : list (string * PlcDataMessage);
}.

Inductive pub_step (plcID : string) : pubState → pubState → Prop :=
  | step_set id val nowMs vs pending log :
      pub_step plcID (mkPub vs pending log) (mkPub (snd (SetVar id val nowMs vs)) pending log)
  | step_drain vs log :
      pub_step plcID (mkPub vs [] log) (mkPub (snd (DrainChanged vs)) (fst (DrainChanged vs)) log)
  | step_publish id pending now vs log :
      pub_step plcID (mkPub vs (id :: pending) log)
        (mkPub vs pending (option_list (publish_one plcID now vs id) ++ log)).

(** The last message about a variable. *)
Definition last_published (id : string) (log : list (string * PlcDataMessage)) : option PlcDataMessage :=
  snd <$> find (λ p, String.eqb (dmVariableID p.2) id) log.

End Publisher.
