(* ===== verification/PlcLadder.v ===== *)
(** Ladder instructions of the PLC engine, internal/plc/builtins_ladder.go, and the task
    state of engine.go. An instruction is [code]: a program over the store's operations,
    the clock and the task's own state, which can be run alone ([exec]) or step by step
    among other goroutines. *)

From S2P Require Export Prelude GoValue PlcVariables.
From S2P Require Ladder.

#[local] Open Scope Z_scope.

(** ** Task state (engine.go)

    The fields are those of the ladder library's timers and counters. *)
Notation TimerState := Ladder.timerState.
Notation CounterState := Ladder.counterState.

Record TaskState := mkTaskState {
  tsTimers : gmap string TimerState;
  tsCounters : gmap string CounterState;
  tsRungEdge : gmap string bool;
}.

Definition NewTaskState : TaskState := mkTaskState ∅ ∅ ∅.
Definition set_timer (ts : TaskState) (tag : string) (t : TimerState) : TaskState :=
  mkTaskState (<[tag := t]> (tsTimers ts)) (tsCounters ts) (tsRungEdge ts).
Definition set_counter (ts : TaskState) (tag : string) (c : CounterState) : TaskState :=
  mkTaskState (tsTimers ts) (<[tag := c]> (tsCounters ts)) (tsRungEdge ts).

(** ** Code of a goroutine

    [CGet] and [CSet] are the store's operations, [CNow] a reading of the clock in
    nanoseconds; [CLoad] and [CStore] access the task state of the goroutine's thread, which
    a thread that compiles a program does not have. *)
Inductive code (A : Type) : Type :=
  | CRet (a : A)
  | CErr (msg : string)
  | CGet (id : string) (k : value → code A)
  | CSet (id : string) (val : value) (nowMs : Z) (k : bool → code A)
  | CNow (k : Z → code A)
  | CLoad (k : option TaskState → code A)
  | CStore (ts : TaskState) (k : code A).
Arguments CRet {A} _.
Arguments CErr {A} _.
Arguments CGet {A} _ _.
Arguments CSet {A} _ _ _ _.
Arguments CNow {A} _.
Arguments CLoad {A} _.
Arguments CStore {A} _ _.

Fixpoint code_bind {A B} (f : A → code B) (c : code A) : code B :=
  match c with
  | CRet a => f a
  | CErr e => CErr e
  | CGet id k => CGet id (λ v, code_bind f (k v))
  | CSet id v ms k => CSet id v ms (λ b, code_bind f (k b))
  | CNow k => CNow (λ t, code_bind f (k t))
  | CLoad k => CLoad (λ ts, code_bind f (k ts))
  | CStore ts k => CStore ts (code_bind f k)
  end.
#[export] Instance code_ret : MRet code := @CRet.
#[export] Instance code_mbind : MBind code := @code_bind.

Definition do_get (id : string) : code value := CGet id CRet.
Definition do_set (id : string) (v : value) (nowMs : Z) : code bool := CSet id v nowMs CRet.
Definition do_now : code Z := CNow CRet.
Definition do_load : code (option TaskState) := CLoad CRet.
Definition do_store (ts : TaskState) : code () := CStore ts (CRet ()).

(** [UnixMilli] of a clock reading. *)
Definition unixMilli (t : Z) : Z := t / 1000000.

(** Running code alone: the store, the task state and the number of clock readings. *)
Record world := mkWorld { wVars : VariableStore; wTask : option TaskState; wReads : nat }.

Section Exec.
Variable now : nat → Z.

Fixpoint exec {A} (c : code A) (w : world) : outcome A * world :=
  match c with
  | CRet a => (Ok a, w)
  | CErr e => (Err e, w)
  | CGet id k => exec (k (Get (wVars w) id)) w
  | CSet id v ms k =>
      exec (k (fst (SetVar id v ms (wVars w)))) (mkWorld (snd (SetVar id v ms (wVars w))) (wTask w) (wReads w))
  | CNow k => exec (k (now (wReads w))) (mkWorld (wVars w) (wTask w) (S (wReads w)))
  | CLoad k => exec (k (wTask w)) w
  | CStore ts k => exec k (mkWorld (wVars w) (Some ts) (wReads w))
  end.

Lemma exec_bind {A B} (c : code A) (f : A → code B) w :
  exec (c ≫= f) w = match exec c w with
                    | (Ok a, w') => exec (f a) w'
                    | (Err e, w') => (Err e, w')
                    | (Panic, w') => (Panic, w')
                    end.
Proof. unfold mbind, code_mbind. revert w. induction c; intros w; cbn; auto. Qed.

End Exec.

(** ** Elements

    The Go record has a field per kind; only the constructors below build one. *)
Inductive ladderElement : Type :=
  | elemContact (subtype tag : string)
  | elemCoil (subtype tag : string)
  | elemTimer (subtype tag : string) (preset : Z)
  | elemCounter (subtype tag : string) (preset : Z)
  | elemReset (tag : string)
  | elemBranch (children : list (list ladderElement))
  | elemSeries (elements : list ladderElement).

Definition isCondition (e : ladderElement) : bool :=
  match e with elemContact _ _ | elemBranch _ | elemSeries _ => true | _ => false end.

Section Text.
Context `{UnicodeTables}.

(** [String]. *)
Definition element_string (e : ladderElement) : string :=
  match e with
  | elemContact subtype tag | elemCoil subtype tag => subtype +:+ "(" +:+ quote tag +:+ ")"
  | elemTimer subtype tag preset | elemCounter subtype tag preset =>
      subtype +:+ "(" +:+ quote tag +:+ ", " +:+ itoa preset +:+ ")"
  | elemReset tag => "RES(" +:+ quote tag +:+ ")"
  | elemBranch _ => "branch(...)"
  | elemSeries _ => "series(...)"
  end.

End Text.

(** ** Evaluation *)
Section Evaluate.
Context `{JsonNumber}.

(** [GetBool] takes the lock twice when the value is not a boolean. *)
Definition code_GetBool (id : string) : code bool :=
  val ← do_get id;
  match val with
  | VNil => mret false
  | VBool b => mret b
  | _ => n ← do_get id; mret (truth val (number_of n))
  end.

Definition evaluateContact (subtype tag : string) (rungIn : bool) : code bool :=
  tagVal ← code_GetBool tag;
  mret (if String.eqb subtype "NO" then rungIn && tagVal
        else if String.eqb subtype "NC" then rungIn && negb tagVal
        else rungIn).

Definition evaluateCoil (subtype tag : string) (rungIn : bool) : code bool :=
  t ← do_now;
  if String.eqb subtype "OTE" then _ ← do_set tag (VBool rungIn) (unixMilli t); mret rungIn
  else if String.eqb subtype "OTL" then
    if rungIn then _ ← do_set tag (VBool true) (unixMilli t); mret rungIn else mret rungIn
  else if String.eqb subtype "OTU" then
    if rungIn then _ ← do_set tag (VBool false) (unixMilli t); mret rungIn else mret rungIn
  else mret rungIn.

(** A [time.Duration] in milliseconds. *)
Definition duration_ms (ms : Z) : Z := wraps 64 (ms * 1000000).
Definition millis (d : Z) : Z := Z.quot d 1000000.

(** The status variables of a timer or counter. *)
Definition publish_status (tag : string) (dn : bool) (acc nowMs : Z) : code () :=
  _ ← do_set (tag +:+ ".DN") (VBool dn) nowMs;
  _ ← do_set (tag +:+ ".ACC") (VFloat64 (f64_of_Z acc)) nowMs;
  mret ().

(** The body of [evaluateTimer] on the timer's record; the two instructions are those of
    the ladder library. *)
Definition timer_body (subtype : string) (t : TimerState) (rungIn : bool) (nw : Z) : TimerState :=
  if String.eqb subtype "TON" then Ladder.ton_step t rungIn nw
  else if String.eqb subtype "TOF" then Ladder.tof_step t rungIn nw
  else t.

Definition evaluateTimer (subtype tag : string) (preset : Z) (rungIn : bool) (ts : TaskState) : code (bool * TaskState) :=
  let t := match tsTimers ts !! tag with Some t => t | None => Ladder.newTimer (duration_ms preset) end in
  nw ← do_now;
  let t := timer_body subtype t rungIn nw in
  _ ← publish_status tag (Ladder.tDN t) (millis (Ladder.tACC t)) (unixMilli nw);
  mret (Ladder.tDN t, set_timer ts tag t).

Definition with_prevEN (c : CounterState) (rungIn : bool) : CounterState :=
  Ladder.Build_counterState (Ladder.cPreset c) (Ladder.cACC c) (Ladder.cDN c) rungIn.

Definition counter_body (subtype : string) (c : CounterState) (rungIn : bool) : CounterState :=
  if String.eqb subtype "CTU" then Ladder.ctu_step c rungIn
  else if String.eqb subtype "CTD" then Ladder.ctd_step c rungIn
  else with_prevEN c rungIn.

Definition evaluateCounter (subtype tag : string) (preset : Z) (rungIn : bool) (ts : TaskState) : code (bool * TaskState) :=
  let c := match tsCounters ts !! tag with Some c => c | None => Ladder.newCounter preset end in
  let c := counter_body subtype c rungIn in
  t ← do_now;
  _ ← publish_status tag (Ladder.cDN c) (Ladder.cACC c) (unixMilli t);
  mret (Ladder.cDN c, set_counter ts tag c).

Definition evaluateReset (tag : string) (rungIn : bool) (ts : TaskState) : code (bool * TaskState) :=
  if rungIn then
    t ← do_now;
    ts ← match tsCounters ts !! tag with
         | Some c => _ ← publish_status tag false 0 (unixMilli t); mret (set_counter ts tag (Ladder.res_counter c))
         | None => mret ts
         end;
    ts ← match tsTimers ts !! tag with
         | Some x => _ ← publish_status tag false 0 (unixMilli t); mret (set_timer ts tag (Ladder.res_timer x))
         | None => mret ts
         end;
    mret (rungIn, ts)
  else mret (rungIn, ts).

Fixpoint evaluateElement (e : ladderElement) (rungIn : bool) (ts : TaskState) {struct e} : code (bool * TaskState) :=
  match e with
  | elemContact subtype tag => r ← evaluateContact subtype tag rungIn; mret (r, ts)
  | elemCoil subtype tag => r ← evaluateCoil subtype tag rungIn; mret (r, ts)
  | elemTimer subtype tag preset => evaluateTimer subtype tag preset rungIn ts
  | elemCounter subtype tag preset => evaluateCounter subtype tag preset rungIn ts
  | elemReset tag => evaluateReset tag rungIn ts
  | elemBranch children =>
      (fix eval_paths (ps : list (list ladderElement)) (result : bool) (ts : TaskState) : code (bool * TaskState) :=
         match ps with
         | [] => mret (result, ts)
         | path :: ps' =>
             '(pathResult, ts) ← (fix eval_path (es : list ladderElement) (r : bool) (ts : TaskState) : code (bool * TaskState) :=
                match es with
                | [] => mret (r, ts)
                | e' :: es' => '(r, ts) ← evaluateElement e' r ts; eval_path es' r ts
                end) path rungIn ts;
             eval_paths ps' (if (pathResult : bool) then true else result) ts
         end) children false ts
  | elemSeries elements =>
      (fix eval_path (es : list ladderElement) (r : bool) (ts : TaskState) : code (bool * TaskState) :=
         match es with
         | [] => mret (r, ts)
         | e' :: es' => '(r, ts) ← evaluateElement e' r ts; eval_path es' r ts
         end) elements rungIn ts
  end.

(** The loop over the elements of a path or of a rung. *)
Fixpoint evaluate_all (es : list ladderElement) (r : bool) (ts : TaskState) : code (bool * TaskState) :=
  match es with
  | [] => mret (r, ts)
  | e :: es' => '(r, ts) ← evaluateElement e r ts; evaluate_all es' r ts
  end.

(** The loop over the paths of a branch. *)
Section Paths.
Variable rungIn : bool.

Fixpoint evaluate_paths (ps : list (list ladderElement)) (result : bool) (ts : TaskState) : code (bool * TaskState) :=
  match ps with
  | [] => mret (result, ts)
  | path :: ps' =>
      '(pathResult, ts) ← evaluate_all path rungIn ts;
      evaluate_paths ps' (if (pathResult : bool) then true else result) ts
  end.
End Paths.

(** [builtinRung] on arguments that are all elements: conditions first, then outputs. *)
Definition conditions (es : list ladderElement) : list ladderElement := filter (λ e, isCondition e = true) es.
Definition outputs (es : list ladderElement) : list ladderElement := filter (λ e, isCondition e = false) es.

Definition rung_elements (es : list ladderElement) : code () :=
  ts ← do_load;
  match ts with
  | None => CErr "rung: no task state (must be called within a task)"
  | Some ts =>
      '(r, ts) ← evaluate_all (conditions es) true ts;
      '(r, ts) ← evaluate_all (outputs es) r ts;
      do_store ts
  end.

End Evaluate.
