(* ===== verification/PlcEquivalence.v ===== *)
(** The two ladder engines compute the same: the instructions of internal/plc run on the
    variable store against the program that [CreateProgram] of plc/ladder makes of the same
    rungs, with its own variables. The programs compared are those both can express:
    contacts and coils on declared variables whose names have no dot, timers and counters
    under any name, and in each rung the conditions before the outputs, because the soft
    PLC evaluates the conditions of a rung first and the library takes its elements in the
    order written ([out_of_order_rung_differs]). *)

From S2P Require Export Prelude GoValue PlcVariables PlcLadder.
From S2P Require Import Topics.
From S2P Require Ladder.

#[local] Open Scope Z_scope.

(** ** Translation *)

Fixpoint to_library (e : ladderElement) : Ladder.Element :=
  match e with
  | elemContact subtype tag => if String.eqb subtype "NO" then Ladder.NO tag else Ladder.NC tag
  | elemCoil subtype tag =>
      if String.eqb subtype "OTE" then Ladder.OTE tag
      else if String.eqb subtype "OTL" then Ladder.OTL tag else Ladder.OTU tag
  | elemTimer subtype tag preset =>
      if String.eqb subtype "TON" then Ladder.TON tag (duration_ms preset) else Ladder.TOF tag (duration_ms preset)
  | elemCounter subtype tag preset =>
      if String.eqb subtype "CTU" then Ladder.CTU tag preset else Ladder.CTD tag preset
  | elemReset tag => Ladder.RES tag
  | elemBranch children => Ladder.Branch (map (map to_library) children)
  | elemSeries elements => Ladder.Series (map to_library elements)
  end.

(** Elements that the constructors build, on variables [D]. *)
Fixpoint expressible (D : gset string) (e : ladderElement) : bool :=
  match e with
  | elemContact subtype tag => bool_decide (subtype ∈ ["NO"; "NC"] ∧ tag ∈ D ∧ one_token tag)
  | elemCoil subtype tag => bool_decide (subtype ∈ ["OTE"; "OTL"; "OTU"] ∧ tag ∈ D ∧ one_token tag)
  | elemTimer subtype _ _ => bool_decide (subtype ∈ ["TON"; "TOF"])
  | elemCounter subtype _ _ => bool_decide (subtype ∈ ["CTU"; "CTD"])
  | elemReset _ => true
  | elemBranch children => forallb (forallb (expressible D)) children
  | elemSeries elements => forallb (expressible D) elements
  end.

Lemma ladderElement_ind' (P : ladderElement → Prop) :
  (∀ s t, P (elemContact s t)) → (∀ s t, P (elemCoil s t)) → (∀ s t p, P (elemTimer s t p)) →
  (∀ s t p, P (elemCounter s t p)) → (∀ t, P (elemReset t)) →
  (∀ ps, Forall (Forall P) ps → P (elemBranch ps)) → (∀ es, Forall P es → P (elemSeries es)) →
  ∀ e, P e.
Proof.
  intros H1 H2 H3 H4 H5 HB HS. fix IH 1. intros [s t|s t|s t p|s t p|t|ps|es];
    [apply H1|apply H2|apply H3|apply H4|apply H5|..].
  - apply HB. induction ps as [|es ps IHps]; constructor; [|done].
    induction es as [|e es IHes]; constructor; [apply IH|done].
  - apply HS. induction es as [|e es IHes]; constructor; [apply IH|done].
Qed.

Section Equivalence.
Context `{Hnum : JsonNumber}.

(** ** The relation between the states *)

Record agree (vs : VariableStore) (ts : TaskState) (s : Ladder.State) : Prop := {
  agree_tags t : is_Some (vs !! t) → one_token t → GetBool vs t = Ladder.getTag s t;
  agree_timers : tsTimers ts = Ladder.timers s;
  agree_counters : tsCounters ts = Ladder.counters s;
}.

Lemma getTag_plain s t : one_token t → Ladder.getTag s t = default false (Ladder.tags s !! t).
Proof.
  intros Ht. unfold Ladder.getTag. destruct (Ladder.tags s !! t); [done|].
  unfold split_n2. assert (cut_chars "."%char (chars t) = None) as ->; [|done].
  pose proof (cut_chars_spec "."%char (chars t)) as Hc.
  destruct (cut_chars "."%char (chars t)) as [[a b]|]; [|done].
  rewrite split_chars_none in Hc by done.
  injection Hc as _ Hc. by destruct (split_chars_not_nil _ _ (eq_sym Hc)).
Qed.

Lemma getTag_setTag s t b t' : one_token t' →
  Ladder.getTag (Ladder.setTag s t b) t' = if decide (t' = t) then b else Ladder.getTag s t'.
Proof.
  intros Ht. rewrite !getTag_plain by done. cbn [Ladder.setTag Ladder.tags]. case_decide as Hd.
  - subst. by rewrite lookup_insert_eq.
  - by rewrite lookup_insert_ne by congruence.
Qed.

(** *** Store operations *)

Lemma SetVar_dom id v ms vs : dom (snd (SetVar id v ms vs)) = dom vs.
Proof.
  unfold SetVar. destruct (vs !! id) eqn:E; [|done]. cbn. rewrite dom_insert_L.
  apply elem_of_dom_2 in E. set_solver.
Qed.

Lemma Get_SetVar id v ms vs t : is_Some (vs !! t) →
  Get (snd (SetVar id v ms vs)) t = if decide (t = id) then v else Get vs t.
Proof.
  intros [x Hx]. unfold SetVar, Get. destruct (vs !! id) as [y|] eqn:E; cbn [snd].
  - case_decide as Hd.
    + subst. by rewrite lookup_insert_eq.
    + by rewrite lookup_insert_ne by congruence.
  - case_decide as Hd; [|done]. subst. congruence.
Qed.

Lemma GetBool_SetVar id v ms vs t : is_Some (vs !! t) →
  GetBool (snd (SetVar id v ms vs)) t = if decide (t = id) then truth v (number_of v) else GetBool vs t.
Proof. intros Ht. unfold GetBool, GetNumber. rewrite Get_SetVar by done. by case_decide. Qed.

Lemma SetVar_is_Some id v ms vs t : is_Some (snd (SetVar id v ms vs) !! t) ↔ is_Some (vs !! t).
Proof. by rewrite <- !elem_of_dom, SetVar_dom. Qed.

Lemma exec_GetBool now id w : exec now (code_GetBool id) w = (Ok (GetBool (wVars w) id), w).
Proof.
  unfold code_GetBool. rewrite exec_bind. cbn. unfold GetBool, GetNumber.
  destruct (Get (wVars w) id) eqn:E; cbn; rewrite ?E; done.
Qed.

(** A boolean written to a declared, dot-free name on both sides. *)
Lemma agree_set vs ts s t b ms : agree vs ts s → is_Some (vs !! t) →
  agree (snd (SetVar t (VBool b) ms vs)) ts (Ladder.setTag s t b).
Proof.
  intros [Ht Htm Hc] Hs. split; [|done..]. intros t' Hs' Hone. apply SetVar_is_Some in Hs'.
  rewrite GetBool_SetVar, getTag_setTag by done. by case_decide; [|apply Ht].
Qed.

(** A name with a dot is invisible to the library's contacts. *)
Lemma agree_set_dotted vs ts s t v ms : agree vs ts s → ¬ one_token t →
  agree (snd (SetVar t v ms vs)) ts s.
Proof.
  intros [Ht Htm Hc] Hs. split; [|done..]. intros t' Hs' Hone. apply SetVar_is_Some in Hs'.
  rewrite GetBool_SetVar by done. case_decide; [by subst|by apply Ht].
Qed.

Lemma dotted tag sfx : ¬ one_token (tag +:+ String "."%char sfx).
Proof. intros Ht. apply Ht. rewrite chars_app. apply elem_of_app. right. left. Qed.

Lemma agree_timer vs ts s tag t : agree vs ts s → agree vs (set_timer ts tag t) (Ladder.setTimer s tag t).
Proof.
  intros [Ht Htm Hc]. split; cbn; [|by rewrite Htm|done].
  intros t' Hs Hone. rewrite (Ht t' Hs Hone), !getTag_plain by done. done.
Qed.

Lemma agree_counter vs ts s tag c : agree vs ts s → agree vs (set_counter ts tag c) (Ladder.setCounter s tag c).
Proof.
  intros [Ht Htm Hc]. split; cbn; [|done|by rewrite Hc].
  intros t' Hs Hone. rewrite (Ht t' Hs Hone), !getTag_plain by done. done.
Qed.

(** *** Elements *)
Section Scan.
Variables (T : Z) (D : gset string).
Notation run := (exec (λ _ : nat, T)).
Notation lib := (Ladder.evaluate (λ _ : nat, T)).

Definition consistent (w : world) (ts : TaskState) (m : Ladder.Machine) : Prop :=
  agree (wVars w) ts (Ladder.mstate m) ∧ D ⊆ dom (wVars w).

(** [c] ends as the library does, in consistent states. *)
Definition simulates (c : code (bool * TaskState)) (w : world) (res : bool * Ladder.Machine) : Prop :=
  ∃ ts' w', run c w = (Ok (res.1, ts'), w') ∧ consistent w' ts' res.2 ∧ wTask w' = wTask w.

Lemma publish_status_run tag dn acc ms w ts m : consistent w ts m →
  ∃ w', run (publish_status tag dn acc ms) w = (Ok (), w') ∧ consistent w' ts m ∧ wTask w' = wTask w.
Proof.
  intros [Ha Hd]. eexists. split; [reflexivity|]. split; [split|done]; cbn.
  - apply agree_set_dotted; [apply agree_set_dotted; [done|]|]; apply dotted.
  - by rewrite !SetVar_dom.
Qed.

Lemma evaluateTimer_run subtype tag preset r w ts m : subtype ∈ ["TON"; "TOF"] → consistent w ts m →
  simulates (evaluateTimer subtype tag preset r ts) w (lib (to_library (elemTimer subtype tag preset)) r m).
Proof.
  intros Hsub Hc. unfold evaluateTimer, simulates. rewrite exec_bind. cbn [exec do_now].
  set (t := timer_body subtype _ r T). rewrite exec_bind.
  edestruct (publish_status_run tag (Ladder.tDN t) (millis (Ladder.tACC t)) (unixMilli T)
    (mkWorld (wVars w) (wTask w) (S (wReads w))) ts m) as (w' & -> & [Ha Hd] & Htask); [exact Hc|].
  assert (lib (to_library (elemTimer subtype tag preset)) r m
    = (Ladder.tDN t, {| Ladder.mstate := Ladder.setTimer (Ladder.mstate m) tag t; Ladder.mreads := S (Ladder.mreads m) |})) as ->.
  { subst t. rewrite (agree_timers _ _ _ (proj1 Hc)).
    apply list_elem_of_In in Hsub. cbn [In] in Hsub. by destruct Hsub as [<-|[<-|[]]]. }
  do 2 eexists. split; [reflexivity|]. split; [|done]. split; [|done]. by apply agree_timer.
Qed.

Lemma evaluateCounter_run subtype tag preset r w ts m : subtype ∈ ["CTU"; "CTD"] → consistent w ts m →
  simulates (evaluateCounter subtype tag preset r ts) w (lib (to_library (elemCounter subtype tag preset)) r m).
Proof.
  intros Hsub Hc. unfold evaluateCounter, simulates. rewrite exec_bind. cbn [exec do_now].
  set (c := counter_body subtype _ r). rewrite exec_bind.
  edestruct (publish_status_run tag (Ladder.cDN c) (Ladder.cACC c) (unixMilli T)
    (mkWorld (wVars w) (wTask w) (S (wReads w))) ts m) as (w' & -> & [Ha Hd] & Htask); [exact Hc|].
  assert (lib (to_library (elemCounter subtype tag preset)) r m
    = (Ladder.cDN c, Ladder.with_state m (Ladder.setCounter (Ladder.mstate m) tag c))) as ->.
  { subst c. rewrite (agree_counters _ _ _ (proj1 Hc)).
    apply list_elem_of_In in Hsub. cbn [In] in Hsub. by destruct Hsub as [<-|[<-|[]]]. }
  do 2 eexists. split; [reflexivity|]. split; [|done]. split; [|done]. by apply agree_counter.
Qed.

Lemma evaluateContact_run subtype tag r w ts m :
  expressible D (elemContact subtype tag) = true → consistent w ts m →
  simulates (evaluateElement (elemContact subtype tag) r ts) w (lib (to_library (elemContact subtype tag)) r m).
Proof.
  intros (Hsub & Htag & Hone)%bool_decide_eq_true Hc. cbn [evaluateElement].
  unfold evaluateContact, simulates. rewrite !exec_bind, exec_GetBool. cbn [exec mret code_ret].
  assert (Hs : is_Some (wVars w !! tag)) by (apply elem_of_dom, (proj2 Hc), Htag).
  rewrite (agree_tags _ _ _ (proj1 Hc) tag Hs Hone).
  exists ts, w. apply list_elem_of_In in Hsub. cbn [In] in Hsub. by destruct Hsub as [<-|[<-|[]]].
Qed.

Lemma evaluateCoil_run subtype tag r w ts m :
  expressible D (elemCoil subtype tag) = true → consistent w ts m →
  simulates (evaluateElement (elemCoil subtype tag) r ts) w (lib (to_library (elemCoil subtype tag)) r m).
Proof.
  intros (Hsub & Htag & Hone)%bool_decide_eq_true [Ha Hd]. cbn [evaluateElement].
  unfold evaluateCoil, simulates. rewrite !exec_bind. cbn [exec do_now].
  assert (Hs : is_Some (wVars w !! tag)) by (apply elem_of_dom, Hd, Htag).
  assert (Hset : ∀ b, consistent (mkWorld (snd (SetVar tag (VBool b) (unixMilli T) (wVars w))) (wTask w) (S (wReads w))) ts
    (Ladder.with_state m (Ladder.setTag (Ladder.mstate m) tag b))).
  { intros b. split; cbn [wVars]; [by apply agree_set|by rewrite SetVar_dom]. }
  assert (Hkeep : consistent (mkWorld (wVars w) (wTask w) (S (wReads w))) ts m) by done.
  apply list_elem_of_In in Hsub. cbn [In] in Hsub.
  destruct Hsub as [<-|[<-|[<-|[]]]]; cbn -[SetVar]; destruct r; cbn -[SetVar];
    do 2 eexists; split_and!; try reflexivity; first [apply Hset | apply Hkeep].
Qed.

Lemma evaluateReset_run tag r w ts m : consistent w ts m →
  simulates (evaluateElement (elemReset tag) r ts) w (lib (to_library (elemReset tag)) r m).
Proof.
  intros Hc. cbn [evaluateElement to_library Ladder.evaluate]. unfold evaluateReset, simulates.
  destruct r; [|by exists ts, w].
  rewrite exec_bind. cbn [exec do_now]. unfold Ladder.res_step. cbn [Ladder.mstate Ladder.with_state].
  rewrite exec_bind. rewrite (agree_counters _ _ _ (proj1 Hc)).
  set (w1 := mkWorld (wVars w) (wTask w) (S (wReads w))).
  assert (Hc1 : consistent w1 ts m) by done.
  (* The counter, then the timer. *)
  set (s1 := match Ladder.counters (Ladder.mstate m) !! tag with Some c => Ladder.setCounter (Ladder.mstate m) tag (Ladder.res_counter c) | None => Ladder.mstate m end).
  assert (∃ ts1 w2, run (match Ladder.counters (Ladder.mstate m) !! tag with
       | Some c => _ ← publish_status tag false 0 (unixMilli T); mret (set_counter ts tag (Ladder.res_counter c))
       | None => mret ts end) w1 = (Ok ts1, w2)
     ∧ consistent w2 ts1 (Ladder.with_state m s1) ∧ wTask w2 = wTask w) as (ts1 & w2 & -> & Hc2 & Ht2).
  { subst s1. destruct (Ladder.counters (Ladder.mstate m) !! tag) as [c|]; [|by exists ts, w1; destruct m].
    rewrite exec_bind. destruct (publish_status_run tag false 0 (unixMilli T) w1 ts m Hc1) as (w' & -> & [Ha Hd] & Ht).
    do 2 eexists. split; [reflexivity|]. split; [split; [by apply agree_counter|done]|done]. }
  rewrite exec_bind, (agree_timers _ _ _ (proj1 Hc2)). cbn [Ladder.mstate Ladder.with_state].
  destruct (Ladder.timers s1 !! tag) as [x|]; [|by exists ts1, w2].
  rewrite exec_bind. destruct (publish_status_run tag false 0 (unixMilli T) w2 ts1 _ Hc2) as (w' & -> & [Ha Hd] & Ht).
  cbn. do 2 eexists. split; [reflexivity|]. split; [split; [by apply agree_timer|done]|by rewrite Ht].
Qed.

(** *** Paths, rungs and scans *)

Lemma element_Series es r ts : evaluateElement (elemSeries es) r ts = evaluate_all es r ts.
Proof. reflexivity. Qed.

Lemma element_Branch ps r ts : evaluateElement (elemBranch ps) r ts = evaluate_paths r ps false ts.
Proof. reflexivity. Qed.

Lemma evaluate_all_run es : Forall (λ e, ∀ r w ts m, expressible D e = true → consistent w ts m →
    simulates (evaluateElement e r ts) w (lib (to_library e) r m)) es →
  ∀ r w ts m, forallb (expressible D) es = true → consistent w ts m →
  simulates (evaluate_all es r ts) w (Ladder.eval_seq (λ _, T) (map to_library es) r m).
Proof.
  induction 1 as [|e es He _ IH]; intros r w ts m Hex Hc; [by exists ts, w|].
  cbn in Hex. apply andb_prop in Hex as [Hex Hes]. cbn [evaluate_all map Ladder.eval_seq].
  destruct (He r w ts m Hex Hc) as (ts1 & w1 & Hrun & Hc1 & Ht1).
  unfold simulates. rewrite exec_bind, Hrun.
  destruct (lib (to_library e) r m) as [r1 m1]. cbn [fst snd] in *.
  destruct (IH r1 w1 ts1 m1 Hes Hc1) as (ts2 & w2 & Hrun2 & Hc2 & Ht2).
  exists ts2, w2. by rewrite Hrun2, Ht2, Ht1.
Qed.

Lemma evaluate_paths_run ps : Forall (Forall (λ e, ∀ r w ts m, expressible D e = true → consistent w ts m →
    simulates (evaluateElement e r ts) w (lib (to_library e) r m))) ps →
  ∀ r res w ts m, forallb (forallb (expressible D)) ps = true → consistent w ts m →
  simulates (evaluate_paths r ps res ts) w (Ladder.eval_paths (λ _, T) (map (map to_library) ps) r res m).
Proof.
  induction 1 as [|es ps Hes _ IH]; intros r res w ts m Hex Hc; [by exists ts, w|].
  cbn in Hex. apply andb_prop in Hex as [Hex Hps]. cbn [evaluate_paths map Ladder.eval_paths].
  destruct (evaluate_all_run es Hes r w ts m Hex Hc) as (ts1 & w1 & Hrun & Hc1 & Ht1).
  unfold simulates. rewrite exec_bind, Hrun.
  destruct (Ladder.eval_seq _ _ r m) as [r1 m1]. cbn [fst snd] in *.
  destruct (IH r (if r1 then true else res) w1 ts1 m1 Hps Hc1) as (ts2 & w2 & Hrun2 & Hc2 & Ht2).
  exists ts2, w2. by rewrite Hrun2, Ht2, Ht1.
Qed.

Lemma evaluateElement_run e r w ts m : expressible D e = true → consistent w ts m →
  simulates (evaluateElement e r ts) w (lib (to_library e) r m).
Proof.
  revert r w ts m. induction e as [s t|s t|s t p|s t p|t|ps IH|es IH] using ladderElement_ind'; intros r w ts m Hex Hc.
  - by apply evaluateContact_run.
  - by apply evaluateCoil_run.
  - apply evaluateTimer_run; [by apply bool_decide_eq_true in Hex|done].
  - apply evaluateCounter_run; [by apply bool_decide_eq_true in Hex|done].
  - by apply evaluateReset_run.
  - rewrite element_Branch. cbn [to_library]. rewrite Ladder.evaluate_Branch. by apply evaluate_paths_run.
  - rewrite element_Series. cbn [to_library]. rewrite Ladder.evaluate_Series. by apply evaluate_all_run.
Qed.

Lemma elements_run es r w ts m : forallb (expressible D) es = true → consistent w ts m →
  simulates (evaluate_all es r ts) w (Ladder.eval_seq (λ _, T) (map to_library es) r m).
Proof. apply evaluate_all_run, Forall_true. intros e. apply evaluateElement_run. Qed.

(** The elements of a rung in the order in which they are evaluated. *)
Definition ordered (es : list ladderElement) : list ladderElement := conditions es ++ outputs es.

Lemma expressible_ordered es : forallb (expressible D) es = true →
  forallb (expressible D) (conditions es) = true ∧ forallb (expressible D) (outputs es) = true.
Proof.
  rewrite !forallb_forall. intros Hall. split; intros e He; apply Hall;
    apply list_elem_of_In in He; apply list_elem_of_In; by apply list_elem_of_filter in He as [_ He].
Qed.

Lemma rung_run es w ts m : forallb (expressible D) es = true → consistent w ts m → wTask w = Some ts →
  ∃ ts' w', run (rung_elements es) w = (Ok (), w') ∧ wTask w' = Some ts'
  ∧ consistent w' ts' (snd (Ladder.eval_seq (λ _, T) (map to_library (ordered es)) true m)).
Proof.
  intros [Hcs Hos]%expressible_ordered Hc Ht. unfold rung_elements. rewrite exec_bind. cbn [exec do_load].
  rewrite Ht. destruct (elements_run (conditions es) true w ts m Hcs Hc) as (ts1 & w1 & Hrun1 & Hc1 & Ht1).
  rewrite exec_bind, Hrun1. unfold ordered. rewrite map_app, Ladder.eval_seq_app.
  destruct (Ladder.eval_seq _ (map to_library (conditions es)) true m) as [r1 m1]. cbn [fst snd] in *.
  destruct (elements_run (outputs es) r1 w1 ts1 m1 Hos Hc1) as (ts2 & w2 & Hrun2 & Hc2 & Ht2).
  rewrite exec_bind, Hrun2. destruct (Ladder.eval_seq _ (map to_library (outputs es)) r1 m1) as [r2 m2].
  cbn. do 2 eexists. split; [reflexivity|]. split; [reflexivity|exact Hc2].
Qed.

(** A scan: the calls of [rung] in [main]. *)
Fixpoint rungs_code (rungs : list (list ladderElement)) : code () :=
  match rungs with
  | [] => mret ()
  | es :: rungs' => _ ← rung_elements es; rungs_code rungs'
  end.

Lemma rungs_run rungs w ts m : forallb (forallb (expressible D)) rungs = true → consistent w ts m → wTask w = Some ts →
  ∃ ts' w', run (rungs_code rungs) w = (Ok (), w') ∧ wTask w' = Some ts'
  ∧ consistent w' ts' (Ladder.eval_rungs (λ _, T) (map (λ es, map to_library (ordered es)) rungs) m).
Proof.
  revert w ts m. induction rungs as [|es rungs IH]; intros w ts m Hex Hc Ht; [by exists ts, w|].
  cbn in Hex. apply andb_prop in Hex as [Hex Hrs]. cbn [rungs_code map Ladder.eval_rungs].
  destruct (rung_run es w ts m Hex Hc Ht) as (ts1 & w1 & Hrun & Ht1 & Hc1).
  rewrite exec_bind, Hrun. by apply (IH w1 ts1).
Qed.

(** The declared variables stay the same. *)
Lemma exec_dom {A} (c : code A) w : dom (wVars (snd (run c w))) = dom (wVars w).
Proof.
  revert w. induction c as [a|e|id k IH|id v ms k IH|k IH|k IH|ts c IH]; intros w; cbn [exec snd]; [done..|apply IH| | | |].
  - rewrite IH. apply SetVar_dom.
  - apply (IH _ (mkWorld _ _ _)).
  - apply IH.
  - apply (IH (mkWorld _ _ _)).
Qed.

Lemma rungs_dom rungs w : dom (wVars (snd (run (rungs_code rungs) w))) = dom (wVars w).
Proof. apply exec_dom. Qed.

End Scan.

(** ** Histories

    Before each scan, at its time, boolean inputs are written. *)
Record scanInput := mkScanInput { siTime : Z; siInputs : list (string * bool) }.

Fixpoint engine_run (rungs : list (list ladderElement)) (history : list scanInput) (w : world) : outcome () * world :=
  match history with
  | [] => (Ok (), w)
  | i :: history' =>
      let vs := fold_left (λ vs kv, snd (SetVar kv.1 (VBool kv.2) (unixMilli (siTime i)) vs)) (siInputs i) (wVars w) in
      match exec (λ _, siTime i) (rungs_code rungs) (mkWorld vs (wTask w) (wReads w)) with
      | (Ok _, w') => engine_run rungs history' w'
      | bad => bad
      end
  end.

(** The library's program: the inputs are set in its variables, and its function is called. *)
Definition library_inputs (ins : list (string * bool)) (vars : gmap string Ladder.Variable') : gmap string Ladder.Variable' :=
  fold_left (λ vars kv, Ladder.update vars kv.1 (VBool kv.2)) ins vars.

Fixpoint library_run (rungs : list (list Ladder.Element)) (history : list scanInput) (vars : gmap string Ladder.Variable') (m : Ladder.Machine)
    : gmap string Ladder.Variable' * Ladder.Machine :=
  match history with
  | [] => (vars, m)
  | i :: history' =>
      let '(vars, m) := Ladder.scan (λ _, siTime i) rungs (library_inputs (siInputs i) vars) m in
      library_run rungs history' vars m
  end.

(** The library's variables: booleans with the truth of the PLC's. *)
Definition library_vars (vs : VariableStore) : gmap string Ladder.Variable' :=
  map_imap (λ id v, Some (Ladder.Build_Variable' (VBool (GetBool vs id)) (rvDatatype v))) vs.

(** Both sides hold the same: the truth of every declared variable without a dot in its name,
    timers and counters. *)
Record same (vs : VariableStore) (ts : TaskState) (vars : gmap string Ladder.Variable') (s : Ladder.State) : Prop := {
  same_vars t : is_Some (vs !! t) → one_token t → Ladder.BoolValue <$> vars !! t = Some (GetBool vs t);
  same_timers : tsTimers ts = Ladder.timers s;
  same_counters : tsCounters ts = Ladder.counters s;
}.

Lemma same_start vs : same vs NewTaskState (library_vars vs) Ladder.NewState.
Proof.
  split; [|done..]. intros t [v Hv] _. unfold library_vars. rewrite map_lookup_imap, Hv. done.
Qed.

Lemma update_lookup vars id v t : Ladder.update vars id v !! t =
  if decide (t = id) then (λ old, Ladder.Build_Variable' v (Ladder.vdatatype old)) <$> vars !! id else vars !! t.
Proof.
  unfold Ladder.update. destruct (vars !! id) as [old|] eqn:E; case_decide as Hd; subst.
  - by rewrite lookup_insert_eq.
  - by rewrite lookup_insert_ne.
  - by rewrite E.
  - done.
Qed.

Lemma inputs_same D ins ms vs ts vars s : Forall (λ kv, kv.1 ∈ D) ins → same vs ts vars s → D ⊆ dom vs →
  let vs' := fold_left (λ vs kv, snd (SetVar kv.1 (VBool kv.2) ms vs)) ins vs in
  same vs' ts (library_inputs ins vars) s ∧ D ⊆ dom vs'.
Proof.
  intros Hins. revert vs vars. induction Hins as [|[id b] ins Hid _ IH]; intros vs vars Hs Hd; [done|].
  unfold library_inputs. cbn [fold_left fst snd] in *. apply IH; [|by rewrite SetVar_dom].
  destruct Hs as [Ht Htm Hc]. split; [|done..]. intros t Ht1 Hone. apply SetVar_is_Some in Ht1.
  rewrite update_lookup, GetBool_SetVar by done. specialize (Ht t Ht1 Hone). case_decide as E; [|done]. subst t.
  by destruct (vars !! id).
Qed.

(** The variables go into the tags before the scan, and back afterwards. *)
Lemma agree_sync_in vs ts vars m : same vs ts vars (Ladder.mstate m) →
  agree vs ts (Ladder.sync_in vars (Ladder.mstate m)).
Proof.
  intros [Ht Htm Hc]. assert (Hrest : Ladder.timers (Ladder.sync_in vars (Ladder.mstate m)) = Ladder.timers (Ladder.mstate m)
    ∧ Ladder.counters (Ladder.sync_in vars (Ladder.mstate m)) = Ladder.counters (Ladder.mstate m)).
  { unfold Ladder.sync_in. apply (map_fold_weak_ind (λ s _, Ladder.timers s = Ladder.timers (Ladder.mstate m)
      ∧ Ladder.counters s = Ladder.counters (Ladder.mstate m))); [done|]. by intros. }
  split; [|by rewrite (proj1 Hrest)|by rewrite (proj2 Hrest)]. intros t Hs Hone. rewrite getTag_plain by done.
  rewrite Ladder.sync_in_lookup. specialize (Ht t Hs Hone). destruct (vars !! t); [|done]. cbn in *. congruence.
Qed.

(** A scan sets no tag that is not there before, but keeps those that are. *)
Lemma same_sync_out vs ts vars s : agree vs ts s → (∀ t, is_Some (vs !! t) → one_token t → is_Some (vars !! t) ∧ is_Some (Ladder.tags s !! t)) →
  same vs ts (Ladder.sync_out s vars) s.
Proof.
  intros [Ht Htm Hc] Hdom. split; [|done..]. intros t Hs Hone. rewrite Ladder.sync_out_lookup.
  destruct (Hdom t Hs Hone) as [[v Hv] [b Hb]]. rewrite Hv, Hb. cbn. rewrite (Ht t Hs Hone), getTag_plain by done. by rewrite Hb.
Qed.

Lemma run_same D rungs history w ts vars m :
  Forall (λ es, ordered es = es) rungs → forallb (forallb (expressible D)) rungs = true →
  Forall (λ i, Forall (λ kv, kv.1 ∈ D) (siInputs i)) history →
  same (wVars w) ts vars (Ladder.mstate m) → D ⊆ dom (wVars w) → wTask w = Some ts →
  let '(vars', m') := library_run (map (map to_library) rungs) history vars m in
  ∃ w' ts', engine_run rungs history w = (Ok (), w') ∧ wTask w' = Some ts' ∧ dom (wVars w') = dom (wVars w)
    ∧ same (wVars w') ts' vars' (Ladder.mstate m').
Proof.
  intros Hord Hex Hh. revert w ts vars m. induction Hh as [|i history Hi _ IH]; intros w ts vars m Hs Hd Ht; [by exists w, ts|].
  cbn [engine_run library_run]. set (vs1 := fold_left _ (siInputs i) (wVars w)).
  destruct (inputs_same D (siInputs i) (unixMilli (siTime i)) (wVars w) ts vars (Ladder.mstate m) Hi Hs Hd) as [Hs1 Hd1].
  fold vs1 in Hs1, Hd1. set (vars1 := library_inputs (siInputs i) vars) in *.
  destruct (rungs_run (siTime i) D rungs (mkWorld vs1 (wTask w) (wReads w)) ts (Ladder.with_state m (Ladder.sync_in vars1 (Ladder.mstate m)))
    Hex (conj (agree_sync_in _ _ _ _ Hs1) Hd1) Ht) as (ts' & w' & Hrun & Ht' & Hc'). rewrite Hrun.
  assert (Hmap : map (λ es, map to_library (ordered es)) rungs = map (map to_library) rungs).
  { clear -Hord. induction Hord as [|es rungs E _ IH]; [done|]. cbn. by rewrite E, IH. }
  rewrite Hmap in Hc'. unfold Ladder.scan. set (m2 := Ladder.eval_rungs _ _ _) in *.
  assert (Hdom1 : dom vs1 = dom (wVars w)).
  { unfold vs1. clear. generalize (wVars w). induction (siInputs i) as [|kv l IH]; intros vs; [done|]. cbn. by rewrite IH, SetVar_dom. }
  assert (Hdom : dom (wVars w') = dom (wVars w)).
  { pose proof (rungs_dom (siTime i) rungs (mkWorld vs1 (wTask w) (wReads w))) as E. rewrite Hrun in E. cbn in E. by rewrite E. }
  destruct Hc' as [Ha' Hd'].
  specialize (IH w' ts' (Ladder.sync_out (Ladder.mstate m2) vars1) m2). cbv zeta in IH. rewrite <- Hdom. apply IH; [|done|done].
  apply same_sync_out; [done|]. intros t Hs' Hone.
  assert (Hv : is_Some (vars1 !! t)).
  { apply elem_of_dom in Hs'. rewrite Hdom, <- Hdom1, elem_of_dom in Hs'. destruct Hs1 as [Hv _ _]. specialize (Hv t Hs' Hone).
    by destruct (vars1 !! t). }
  split; [done|]. unfold m2. apply Ladder.eval_rungs_defined. cbn. rewrite Ladder.sync_in_lookup. by destruct Hv as [v ->].
Qed.

(** C8: the soft PLC's ladder engine and the ladder library run a program alike, when both can
    express it: contacts and coils are on declared variables without a dot in their names,
    and each rung has its conditions before its outputs. Over any history of boolean inputs
    to declared variables and of scan times, every declared variable without a dot in its
    name has the truth of the library's variable, both have the same timers and counters, and
    no scan ends in an error. (Time does not pass within a scan. A declared name with a dot is
    left out because the soft PLC writes the state of a timer T to the variable T.DN and the
    library does not, and another order of a rung because the soft PLC evaluates the
    conditions first: [dotted_status_differs], [out_of_order_rung_differs].) *)
Theorem engines_agree (vs : VariableStore) (rungs : list (list ladderElement)) (history : list scanInput) :
  Forall (λ es, ordered es = es) rungs →
  forallb (forallb (expressible (dom vs))) rungs = true →
  Forall (λ i, Forall (λ kv, kv.1 ∈ dom vs) (siInputs i)) history →
  let '(vars, m) := library_run (map (map to_library) rungs) history (library_vars vs) Ladder.machine0 in
  ∃ w ts, engine_run rungs history (mkWorld vs (Some NewTaskState) 0) = (Ok (), w) ∧ wTask w = Some ts
  ∧ (∀ t, t ∈ dom vs → one_token t → Ladder.BoolValue <$> vars !! t = Some (GetBool (wVars w) t))
  ∧ tsTimers ts = Ladder.timers (Ladder.mstate m) ∧ tsCounters ts = Ladder.counters (Ladder.mstate m).
Proof.
  intros Hord Hex Hh.
  pose proof (run_same (dom vs) rungs history (mkWorld vs (Some NewTaskState) 0) NewTaskState (library_vars vs) Ladder.machine0
    Hord Hex Hh (same_start vs) ltac:(done) eq_refl) as H.
  destruct (library_run _ history (library_vars vs) Ladder.machine0) as [vars m]. destruct H as (w & ts & Hr & Ht & Hd & [S1 S2 S3]).
  exists w, ts. split_and!; [done..| |done|done]. intros t Hin. apply S1. rewrite <- elem_of_dom, Hd. done.
Qed.

End Equivalence.

(** ** Witness: a seal-in circuit and a timer, over three scans. *)

Definition ex_var (id : string) (v : GoValue.value) : RuntimeVariable := mkRuntime id "boolean" "internal" v "good" 0 false.
Definition ex_vars : VariableStore :=
  {[ "start" := ex_var "start" (VBool false); "stop" := ex_var "stop" VNil; "run" := ex_var "run" (VBool false);
     "late" := ex_var "late" (VBool false) ]}.
Definition ex_rungs : list (list ladderElement) :=
  [[elemBranch [[elemContact "NO" "start"]; [elemContact "NO" "run"]]; elemContact "NC" "stop"; elemCoil "OTE" "run"];
   [elemContact "NO" "run"; elemTimer "TON" "T1" 100; elemCoil "OTL" "late"]].
Definition ex_history : list scanInput :=
  [mkScanInput 0 [("start", true)]; mkScanInput 60000000 [("start", false)]; mkScanInput 120000000 []].

Lemma engines_agree_witness :
  let _ := number_zero in
  GetBool (wVars (snd (engine_run ex_rungs ex_history (mkWorld ex_vars (Some NewTaskState) 0)))) "late" = true
  ∧ let '(vars, m) := library_run (map (map to_library) ex_rungs) ex_history (library_vars ex_vars) Ladder.machine0 in
    ∃ w ts, engine_run ex_rungs ex_history (mkWorld ex_vars (Some NewTaskState) 0) = (Ok (), w) ∧ wTask w = Some ts
    ∧ (∀ t, t ∈ dom ex_vars → one_token t → Ladder.BoolValue <$> vars !! t = Some (GetBool (wVars w) t))
    ∧ tsTimers ts = Ladder.timers (Ladder.mstate m) ∧ tsCounters ts = Ladder.counters (Ladder.mstate m).
Proof.
  split; [vm_compute; reflexivity|].
  apply (engines_agree ex_vars ex_rungs ex_history).
  - by repeat constructor.
  - vm_compute; reflexivity.
  - apply (bool_decide_unpack _). vm_compute. exact I.
Defined.

(** ** Where the engines differ *)

(** A coil before its contact: the soft PLC evaluates the contact first, the library last. *)
Lemma out_of_order_rung_differs :
  let _ := number_zero in
  let rungs := [[elemCoil "OTE" "run"; elemContact "NO" "start"]] in
  let history := [mkScanInput 0 []] in
  GetBool (wVars (snd (engine_run rungs history (mkWorld ex_vars (Some NewTaskState) 0)))) "run" = false
  ∧ Ladder.BoolValue <$> fst (library_run (map (map to_library) rungs) history (library_vars ex_vars) Ladder.machine0) !! "run" = Some true.
Proof. split; vm_compute; reflexivity. Qed.

(** A declared variable under the name of a timer's done bit. *)
Lemma dotted_status_differs :
  let _ := number_zero in
  let vars := <["T1.DN" := ex_var "T1.DN" (VBool false)]> ex_vars in
  let rungs := [[elemTimer "TON" "T1" 0]] in
  let history := [mkScanInput 0 []] in
  GetBool (wVars (snd (engine_run rungs history (mkWorld vars (Some NewTaskState) 0)))) "T1.DN" = true
  ∧ Ladder.BoolValue <$> fst (library_run (map (map to_library) rungs) history (library_vars vars) Ladder.machine0) !! "T1.DN" = Some false.
Proof. split; vm_compute; reflexivity. Qed.
