(* ===== verification/PlcEngine.v ===== *)
(** The PLC engine, internal/plc/engine.go and builtins.go: conversion of values, the
    functions that programs call, compiling and executing. Starlark itself is a third-party
    interpreter: running a program is a tree of calls of built-in functions ([program]),
    where the interpreter chooses each next call from the results so far. *)

From S2P Require Export Prelude GoValue PlcVariables PlcLadder.

#[local] Open Scope Z_scope.

(** ** Starlark values

    [F] is the interpreter's type of functions. *)
Inductive svalue {F : Type} : Type :=
  | SNone
  | SBool (b : bool)
  | SInt (z : Z)
  | SFloat (f : float64)
  | SString (s : string)
  | SList (l : list svalue)
  | SDict (items : list (svalue * svalue))
  | SElement (e : ladderElement)
  | SFunction (f : F)
  | SOther (type : string).
Arguments svalue F : clear implicits.

(** What running Starlark code does: it ends with a result or an error, or calls a built-in
    function with positional and keyword arguments. An error of the function ends the
    program, so only results continue it. *)
Inductive program (F A : Type) : Type :=
  | PRet (a : A)
  | PErr (msg : string)
  | PCall (builtin : string) (args : list (svalue F)) (kwargs : list (string * svalue F))
      (k : svalue F → program F A).
Arguments PRet {F A} _.
Arguments PErr {F A} _.
Arguments PCall {F A} _ _ _ _.

(** The interpreter: executing a file gives its globals; calling a function. The last
    group is [UnpackPositionalArgs] at the types of variables the built-ins unpack into; on
    arguments of those types it gives their values. *)
Class Starlark := {
  function : Type;
  ExecFile : string → string → program function (gmap string (svalue function));
  Call : function → program function (svalue function);
  unpack_s : string → list (svalue function) → list (string * svalue function) → string + string;
  unpack_sv : string → list (svalue function) → list (string * svalue function) → string + (string * svalue function);
  unpack_si : string → list (svalue function) → list (string * svalue function) → string + (string * Z);
  unpack_f : string → list (svalue function) → list (string * svalue function) → string + float64;
  unpack_ff : string → list (svalue function) → list (string * svalue function) → string + (float64 * float64);
  unpack_fff : string → list (svalue function) → list (string * svalue function) → string + (float64 * float64 * float64);
  unpack_s_ok fn s : unpack_s fn [SString s] [] = inr s;
  unpack_sv_ok fn s v : unpack_sv fn [SString s; v] [] = inr (s, v);
  unpack_si_ok fn s z : in_s 64 z → unpack_si fn [SString s; SInt z] [] = inr (s, z);
  unpack_si_range fn args kwargs s z : unpack_si fn args kwargs = inr (s, z) → in_s 64 z;
  unpack_f_ok fn x : unpack_f fn [SFloat x] [] = inr x;
  unpack_ff_ok fn x y : unpack_ff fn [SFloat x; SFloat y] [] = inr (x, y);
  unpack_fff_ok fn x y z : unpack_fff fn [SFloat x; SFloat y; SFloat z] [] = inr (x, y, z);
}.

(** Go's [math.Sqrt] and [math.Pow]. *)
Class GoMath := { math_sqrt : float64 → float64; math_pow : float64 → float64 → float64 }.

(** ** Conversions *)
Section Convert.
Context `{FloatText} {F : Type}.

Definition goToStarlark (v : value) : svalue F :=
  match v with
  | VNil => SNone
  | VBool b => SBool b
  | VFloat64 f => SFloat f
  | VFloat32 f => SFloat (f64_of_f32 f)
  | VInt KInt z | VInt KInt64 z => SInt z
  | VString s => SString s
  | _ => SString (fmt_v v)
  end.

(** A Go map from its insertions in order, as a list of entries. *)
Definition map_insert (m : list (string * value)) (k : string) (v : value) : list (string * value) :=
  filter (λ kv, kv.1 ≠ k) m ++ [(k, v)].

Fixpoint starlarkToGo (v : svalue F) : value :=
  match v with
  | SBool b => VBool b
  | SFloat f => VFloat64 f
  | SInt i => VFloat64 (f64_of_Z (if bool_decide (in_s 64 i) then i else 0))
  | SString s => VString s
  | SList l => VSlice (map starlarkToGo l)
  | SDict items =>
      VMap ((fix entries (items : list (svalue F * svalue F)) (m : list (string * value)) :=
               match items with
               | [] => m
               | (k, x) :: items' =>
                   entries items' (match starlarkToGo k with
                                   | VString s => map_insert m s (starlarkToGo x)
                                   | _ => m
                                   end)
               end) items [])
  | _ => VNil
  end.

End Convert.

(** ** Built-in functions *)
Section Builtins.
Context `{Htext : FloatText} `{Hnum : JsonNumber} `{Hunicode : UnicodeTables} `{Hmath : GoMath} `{Hstar : Starlark}.

Notation svalue := (svalue function).

(** An error of [UnpackPositionalArgs] is returned as it is. *)
Definition unpacked {A} (r : string + A) (f : A → code svalue) : code svalue :=
  match r with inl e => CErr e | inr a => f a end.

Definition builtinGetVar (fn : string) (args : list svalue) (kwargs : list (string * svalue)) : code svalue :=
  unpacked (unpack_s fn args kwargs) (λ name, val ← do_get name; mret (goToStarlark val)).

Definition builtinGetNum (fn : string) (args : list svalue) (kwargs : list (string * svalue)) : code svalue :=
  unpacked (unpack_s fn args kwargs) (λ name, val ← do_get name; mret (SFloat (number_of val))).

Definition builtinGetBool (fn : string) (args : list svalue) (kwargs : list (string * svalue)) : code svalue :=
  unpacked (unpack_s fn args kwargs) (λ name, b ← code_GetBool name; mret (SBool b)).

Definition builtinGetStr (fn : string) (args : list svalue) (kwargs : list (string * svalue)) : code svalue :=
  unpacked (unpack_s fn args kwargs) (λ name, val ← do_get name; mret (SString (string_of val))).

Definition builtinSetVar (fn : string) (args : list svalue) (kwargs : list (string * svalue)) : code svalue :=
  unpacked (unpack_sv fn args kwargs) (λ '(name, val),
    t ← do_now;
    known ← do_set name (starlarkToGo val) (unixMilli t);
    if (known : bool) then mret SNone else CErr ("set_var: unknown variable " +:+ quote name)).

Definition builtinAbs (fn : string) (args : list svalue) (kwargs : list (string * svalue)) : code svalue :=
  unpacked (unpack_f fn args kwargs) (λ x, mret (SFloat (f64_abs x))).

Definition clamp (v lo hi : float64) : float64 :=
  let v := if f64_ltb v lo then lo else v in
  if f64_gtb v hi then hi else v.

Definition builtinClamp (fn : string) (args : list svalue) (kwargs : list (string * svalue)) : code svalue :=
  unpacked (unpack_fff fn args kwargs) (λ '(val, lo, hi), mret (SFloat (clamp val lo hi))).

Definition builtinSqrt (fn : string) (args : list svalue) (kwargs : list (string * svalue)) : code svalue :=
  unpacked (unpack_f fn args kwargs) (λ x, mret (SFloat (math_sqrt x))).

Definition builtinPow (fn : string) (args : list svalue) (kwargs : list (string * svalue)) : code svalue :=
  unpacked (unpack_ff fn args kwargs) (λ '(base, exp), mret (SFloat (math_pow base exp))).

(** The constructors of contacts, coils and resets, and those with a preset. *)
Definition builtin_tag (mk : string → ladderElement) (fn : string) (args : list svalue) (kwargs : list (string * svalue)) : code svalue :=
  unpacked (unpack_s fn args kwargs) (λ tag, mret (SElement (mk tag))).
Definition builtin_preset (mk : string → Z → ladderElement) (fn : string) (args : list svalue) (kwargs : list (string * svalue)) : code svalue :=
  unpacked (unpack_si fn args kwargs) (λ '(tag, preset), mret (SElement (mk tag preset))).

(** The loop over the arguments of [branch], [series] and [rung], from argument [i]. *)
Fixpoint elements_of (who : string) (i : Z) (args : list svalue) : string + list ladderElement :=
  match args with
  | [] => inr []
  | SElement e :: args' =>
      match elements_of who (i + 1) args' with inl m => inl m | inr es => inr (e :: es) end
  | _ :: _ => inl (who +:+ ": argument " +:+ itoa i +:+ " is not a ladder element")
  end.

Definition builtinBranch (args : list svalue) : code svalue :=
  unpacked (elements_of "branch" 0 args) (λ es, mret (SElement (elemBranch (map (λ e, [e]) es)))).
Definition builtinSeries (args : list svalue) : code svalue :=
  unpacked (elements_of "series" 0 args) (λ es, mret (SElement (elemSeries es))).

(** [builtinRung]: without a task it fails before it looks at its arguments. *)
Definition builtinRung (args : list svalue) : code svalue :=
  ts ← do_load;
  match ts with
  | None => CErr "rung: no task state (must be called within a task)"
  | Some _ => unpacked (elements_of "rung" 0 args) (λ es, _ ← rung_elements es; mret SNone)
  end.

(** [makeBuiltins]: the function under a name; [None] is an unbound name. *)
Definition makeBuiltins (name : string) : option (list svalue → list (string * svalue) → code svalue) :=
  if String.eqb name "get_var" then Some (builtinGetVar name)
  else if String.eqb name "get_num" then Some (builtinGetNum name)
  else if String.eqb name "get_bool" then Some (builtinGetBool name)
  else if String.eqb name "get_str" then Some (builtinGetStr name)
  else if String.eqb name "set_var" then Some (builtinSetVar name)
  else if String.eqb name "abs" then Some (builtinAbs name)
  else if String.eqb name "clamp" then Some (builtinClamp name)
  else if String.eqb name "sqrt" then Some (builtinSqrt name)
  else if String.eqb name "pow" then Some (builtinPow name)
  else if String.eqb name "rung" then Some (λ args _, builtinRung args)
  else if String.eqb name "NO" then Some (builtin_tag (elemContact "NO") name)
  else if String.eqb name "NC" then Some (builtin_tag (elemContact "NC") name)
  else if String.eqb name "OTE" then Some (builtin_tag (elemCoil "OTE") name)
  else if String.eqb name "OTL" then Some (builtin_tag (elemCoil "OTL") name)
  else if String.eqb name "OTU" then Some (builtin_tag (elemCoil "OTU") name)
  else if String.eqb name "TON" then Some (builtin_preset (elemTimer "TON") name)
  else if String.eqb name "TOF" then Some (builtin_preset (elemTimer "TOF") name)
  else if String.eqb name "CTU" then Some (builtin_preset (elemCounter "CTU") name)
  else if String.eqb name "CTD" then Some (builtin_preset (elemCounter "CTD") name)
  else if String.eqb name "RES" then Some (builtin_tag elemReset name)
  else if String.eqb name "branch" then Some (λ args _, builtinBranch args)
  else if String.eqb name "series" then Some (λ args _, builtinSeries args)
  else None.

(** Running a program with the built-ins. A call of another name, which a program can only
    make through the interpreter's own functions, is an error of the interpreter. *)
Fixpoint run_program {A} (p : program function A) : code A :=
  match p with
  | PRet a => CRet a
  | PErr e => CErr e
  | PCall b args kwargs k =>
      match makeBuiltins b with
      | Some f => v ← f args kwargs; run_program (k v)
      | None => CErr ("undefined: " +:+ b)
      end
  end.

(** ** Engine *)

Record compiledProgram := mkCompiled {
  cpName : string;
  cpGlobals : gmap string svalue;
  cpMainFn : function;
}.

Notation Engine := (gmap string compiledProgram).
Definition NewEngine : Engine := ∅.

Definition with_prefix {A} (prefix : string) (o : outcome A) : outcome A :=
  match o with Err e => Err (prefix +:+ e) | o => o end.

(** [Compile]: the file's top level runs with the built-ins, in a thread without task state;
    a program that fails leaves the engine as it was. *)
Definition main_of (name : string) (globals : gmap string svalue) : outcome compiledProgram :=
  match globals !! "main" with
  | None => Err ("compile " +:+ name +:+ ": program must define a main() function")
  | Some (SFunction f) => Ok (mkCompiled name globals f)
  | Some _ => Err ("compile " +:+ name +:+ ": main is not callable")
  end.

Definition Compile (now : nat → Z) (name source : string) (vs : VariableStore) (reads : nat) (e : Engine)
    : outcome () * (Engine * VariableStore * nat) :=
  let '(res, w) := exec now (run_program (ExecFile (name +:+ ".star") source)) (mkWorld vs None reads) in
  match (globals ← with_prefix ("compile " +:+ name +:+ ": ") res; main_of name globals) with
  | Ok p => (Ok (), (<[name := p]> e, wVars w, wReads w))
  | Err m => (Err m, (e, wVars w, wReads w))
  | Panic => (Panic, (e, wVars w, wReads w))
  end.

Definition Remove (name : string) (e : Engine) : Engine := delete name e.

(** The code of [Execute]; the goroutine's thread has the task's state. *)
Definition execute_code (name : string) (e : Engine) : code () :=
  match e !! name with
  | None => CErr ("execute: program " +:+ quote name +:+ " not found")
  | Some prog => _ ← run_program (Call (cpMainFn prog)); mret ()
  end.

Definition Execute (now : nat → Z) (name : string) (e : Engine) (w : world) : outcome () * world :=
  let '(res, w) := exec now (execute_code name e) w in
  (match e !! name with Some _ => with_prefix ("execute " +:+ name +:+ ": ") res | None => res end, w).

Definition HasProgram (e : Engine) (name : string) : bool := bool_decide (is_Some (e !! name)).
Definition ProgramCount (e : Engine) : Z := Z.of_nat (size e).

End Builtins.

(** The compiled programs by name. *)
Notation Engine := (gmap string compiledProgram).

(** ** An interpreter for examples: every file defines [main], which runs one program. *)
Section Example.
Context (p : program () (svalue ())).

Definition example_si (args : list (svalue ())) (kwargs : list (string * svalue ())) : string + (string * Z) :=
  match args, kwargs with
  | [SString s; SInt z], [] => if bool_decide (in_s 64 z) then inr (s, z) else inl "out of range"
  | _, _ => inl "arguments"
  end.

Definition example_starlark : Starlark.
Proof.
  refine {|
    function := ();
    ExecFile _ _ := PRet {[ "main" := SFunction () ]};
    Call _ := p;
    unpack_s _ args kwargs := match args, kwargs with [SString s], [] => inr s | _, _ => inl "arguments" end;
    unpack_sv _ args kwargs := match args, kwargs with [SString s; v], [] => inr (s, v) | _, _ => inl "arguments" end;
    unpack_si _ := example_si;
    unpack_f _ args kwargs := match args, kwargs with [SFloat x], [] => inr x | _, _ => inl "arguments" end;
    unpack_ff _ args kwargs := match args, kwargs with [SFloat x; SFloat y], [] => inr (x, y) | _, _ => inl "arguments" end;
    unpack_fff _ args kwargs :=
      match args, kwargs with [SFloat x; SFloat y; SFloat z], [] => inr (x, y, z) | _, _ => inl "arguments" end;
  |}; try done.
  - intros _ s z Hz. unfold example_si. by rewrite bool_decide_eq_true_2.
  - intros _ args kwargs s z. unfold example_si. repeat case_match; intros Hr; simplify_eq. by bool_to_prop.
Defined.

Definition example_math : GoMath := {| math_sqrt := id; math_pow := λ x _, x |}.
End Example.
