(* ===== verification/GatewayConfig.v ===== *)
(** The gateway's configuration and the requests it writes for the scanners:
    internal/types/gateway.go and the Modbus request of internal/types/modbus.go. The maps
    are Go maps (a nil map reads as an empty one); pointers are [option]. *)

From S2P Require Export Prelude GoValue Rbe PlcTypes.
From S2P Require ModbusClient.

#[local] Open Scope Z_scope.

(** SNMP v3 authentication. *)
Record V3Auth := mkV3Auth {
  vaUsername : string;
  vaSecurityLevel : string;
  vaAuthProtocol : string;
  vaAuthPassword : string;
  vaPrivProtocol : string;
  vaPrivPassword : string;
}.

Record GatewayDeviceConfig := mkDevice {
  dcProtocol : string;
  dcAutoManaged : bool;
  dcHost : string;
  dcPort : option Z;
  dcSlot : option Z;
  dcEndpointURL : string;
  dcVersion : string;
  dcCommunity : string;
  dcV3Auth : option V3Auth;
  dcUnitID : option Z;
  dcByteOrder : string;
  dcScanRate : option Z;
  dcDeadband : option Types.DeadBandConfig;
  dcDisableRBE : option bool;
  dcTemplateNameOverrides : gmap string string;
}.

Record GatewayVariableConfig := mkVarConfig {
  vcID : string;
  vcDescription : string;
  vcDatatype : string;
  vcDefault : value;
  vcDeviceID : string;
  vcTag : string;
  vcCipType : string;
  vcBidirectional : bool;
  vcDeadband : option Types.DeadBandConfig;
  vcDisableRBE : bool;
  vcHistoryEnabled : bool;
  vcFunctionCode : option Z;
  vcModbusDatatype : string;
  vcByteOrder : string;
  vcAddress : option Z;
}.

Record GatewayUdtTemplateMemberConfig := mkTemplateMember {
  tmName : string;
  tmDatatype : string;
  tmTemplateRef : string;
  tmDefaultDeadband : option Types.DeadBandConfig;
  tmFunctionCode : string;
  tmModbusDatatype : string;
}.

Record GatewayUdtTemplateConfig := mkTemplateConfig {
  tcName : string;
  tcVersion : string;
  tcMembers : list GatewayUdtTemplateMemberConfig;
}.

Record GatewayUdtVariableConfig := mkUdtConfig {
  ucID : string;
  ucDeviceID : string;
  ucTag : string;
  ucTemplateName : string;
  ucMemberTags : gmap string string;
  ucMemberCipTypes : gmap string string;
  ucMemberDeadbands : gmap string Types.DeadBandOverride;
  ucDeadband : option Types.DeadBandConfig;
  ucDisableRBE : bool;
  ucHistoryEnabled : bool;
  ucMemberAddresses : gmap string Z;
  ucMemberByteOrders : gmap string string;
}.

Record GatewayConfigKV := mkConfig {
  cfGatewayID : string;
  cfDevices : gmap string GatewayDeviceConfig;
  cfVariables : gmap string GatewayVariableConfig;
  cfUdtTemplates : gmap string GatewayUdtTemplateConfig;
  cfUdtVariables : gmap string GatewayUdtVariableConfig;
  cfUpdatedAt : Z;
}.

(** ** Requests to the scanners *)

Record EthernetIPSubscribeRequest := mkEip {
  erSubscriberID : string;
  erDeviceID : string;
  erHost : string;
  erPort : Z;
  erSlot : Z;
  erTags : list string;
  erScanRate : Z;
  erCipTypes : gmap string string;
  erStructTypes : gmap string string;
  erDeadbands : gmap string Types.DeadBandConfig;
  erDisableRBE : gmap string bool;
}.

Record OpcUASubscribeRequest := mkOpcUA {
  orSubscriberID : string;
  orDeviceID : string;
  orEndpointURL : string;
  orNodeIDs : list string;
  orScanRate : Z;
}.

Record SNMPSubscribeRequest := mkSnmp {
  srSubscriberID : string;
  srDeviceID : string;
  srHost : string;
  srPort : Z;
  srVersion : string;
  srCommunity : string;
  srV3Auth : option V3Auth;
  srOIDs : list string;
  srScanRate : Z;
}.

Record ModbusScannerSubscribeRequest := mkModbus {
  mrSubscriberID : string;
  mrDeviceID : string;
  mrHost : string;
  mrPort : Z;
  mrUnitID : Z;
  mrByteOrder : string;
  mrScanRate : Z;
  mrTags : list ModbusClient.ModbusTagConfig;
}.

(** ** Conversions *)

Definition FunctionCodeToString (fc : Z) : string :=
  if fc =? 1 then "coil" else if fc =? 2 then "discrete" else if fc =? 3 then "holding"
  else if fc =? 4 then "input" else "holding".

(** gateway.go *)
Definition modbusStringFCToInt (fc : string) : Z :=
  if String.eqb fc "coil" then 1 else if String.eqb fc "discrete" then 2
  else if String.eqb fc "holding" then 3 else if String.eqb fc "input" then 4 else 3.

Definition CipToNatsDatatype (cipType : string) : string :=
  if String.eqb cipType "BOOL" then "boolean" else if String.eqb cipType "STRING" then "string" else "number".

(** internal/topics/kvbuckets.go *)
Definition ScannerBucket (protocol : string) : string :=
  if String.eqb protocol "ethernetip" then "scanner_config_ethernetip"
  else if String.eqb protocol "opcua" then "scanner_config_opcua"
  else if String.eqb protocol "modbus" then "scanner_config_modbus"
  else if String.eqb protocol "snmp" then "scanner_config_snmp"
  else if String.eqb protocol "profinetcontroller" then "scanner_config_profinetcontroller"
  else "".

(** A Modbus function name survives the trip through its number. *)
Lemma function_code_names fc : fc ∈ ["coil"; "discrete"; "holding"; "input"] →
  FunctionCodeToString (modbusStringFCToInt fc) = fc.
Proof. intros H. apply list_elem_of_In in H. cbn [In] in H. by destruct H as [<-|[<-|[<-|[<-|[]]]]]. Qed.
