(* ===== verification/GatewayUdt.v ===== *)
(** The gateway's UDT assembler, internal/gateway/udt.go: it collects the members of a
    structured variable and publishes the whole after a debounce of 100 ms. A pending
    timer is the instant at which it fires, in nanoseconds; [time.AfterFunc] replaces it and
    a timer that has fired is [None] (Go keeps the pointer, but stopping a fired timer does
    nothing). *)

From S2P Require Export Prelude GoValue Rbe PlcTypes GatewayConfig.
From S2P Require Topics.
Import Topics (SanitizeForSubject).

#[local] Open Scope Z_scope.

Record UdtAssembler := mkAsm {
  aConfig : GatewayUdtVariableConfig;
  aTemplate : GatewayUdtTemplateConfig;
  aValues : gmap string value;
  aDirty : bool;
  aTimer : option Z;
  aGatewayID : string;
  aVariableID : string;
  aLastJSON : string;
  aLastValues : option (gmap string value);
  aLastPubTime : Z;
  aDeadband : option Types.DeadBandConfig;
  aMemberDeadbands : gmap string Types.DeadBandConfig;
  aDisableRBE : bool;
}.

Definition udtDebounceDuration : Z := 100 * 1000000.

(** Milliseconds as nanoseconds. *)
Definition ns (ms : Z) : Z := ms * 1000000.

Definition NewUdtAssembler (gatewayID variableID : string) (config : GatewayUdtVariableConfig)
    (template : GatewayUdtTemplateConfig) (deadband : option Types.DeadBandConfig) (disableRBE : bool)
    (memberDeadbands : gmap string Types.DeadBandConfig) : UdtAssembler :=
  mkAsm config template ∅ false None gatewayID variableID "" None 0 deadband memberDeadbands disableRBE.

Definition asm_pending (a : UdtAssembler) (values : gmap string value) (dirty : bool) (timer : option Z) : UdtAssembler :=
  mkAsm (aConfig a) (aTemplate a) values dirty timer (aGatewayID a) (aVariableID a) (aLastJSON a) (aLastValues a)
    (aLastPubTime a) (aDeadband a) (aMemberDeadbands a) (aDisableRBE a).

Definition asm_published (a : UdtAssembler) (json : string) (values : gmap string value) (now : Z) : UdtAssembler :=
  mkAsm (aConfig a) (aTemplate a) (aValues a) (aDirty a) (aTimer a) (aGatewayID a) (aVariableID a) json (Some values)
    now (aDeadband a) (aMemberDeadbands a) (aDisableRBE a).

(** [SetMember]; the clock is read by [time.AfterFunc]. *)
Definition SetMember (now : Z) (memberName : string) (v : value) (a : UdtAssembler) : UdtAssembler :=
  asm_pending a (<[memberName := v]> (aValues a)) true (Some (ns now + udtDebounceDuration)).

Definition asm_stop (a : UdtAssembler) : UdtAssembler := asm_pending a (aValues a) (aDirty a) None.

(** The loop over the template's members, also that of [Value]. *)
Definition assemble (a : UdtAssembler) : gmap string value :=
  fold_left (λ assembled member,
    match aValues a !! tmName member with
    | Some v => <[tmName member := v]> assembled
    | None => assembled
    end) (tcMembers (aTemplate a)) ∅.

(** A Go map as a dynamic value; the order of the entries means nothing. *)
Definition map_value (m : gmap string value) : value := VMap (map_to_list m).

Definition asm_value (a : UdtAssembler) : value := map_value (assemble a).

(** The members of the definition that is sent along, with the datatypes of the CIP types. *)
Definition member_definition (config : GatewayUdtVariableConfig) (m : GatewayUdtTemplateMemberConfig) : UdtMemberDefinition :=
  let datatype := match ucMemberCipTypes config !! tmName m with
    | Some cipType => CipToNatsDatatype cipType
    | None => tmDatatype m
    end in
  mkMember (tmName m) datatype "" (tmTemplateRef m) false.

Definition udt_definition (a : UdtAssembler) : UdtTemplateDefinition :=
  mkUdtTemplate (tcName (aTemplate a)) (tcVersion (aTemplate a))
    (map (member_definition (aConfig a)) (tcMembers (aTemplate a))).

Definition udt_message (a : UdtAssembler) (assembled : gmap string value) (nowMs : Z) : PlcDataMessage :=
  mkData (aGatewayID a) (ucDeviceID (aConfig a)) (aVariableID a) (map_value assembled) nowMs "udt" ""
    (aDeadband a) false (ucHistoryEnabled (aConfig a)) (Some (udt_definition a))
    (if (0 <? Z.of_nat (size (aMemberDeadbands a))) then Some (aMemberDeadbands a) else None).

Definition udt_subject (a : UdtAssembler) : string :=
  Topics.Data (aGatewayID a) (SanitizeForSubject (ucDeviceID (aConfig a))) (SanitizeForSubject (aVariableID a)).

(** [json.Marshal] refuses floats that are not finite. *)
Definition finite (f : float64) : bool := f64_abs f <? 0x7FF0000000000000.
Definition deadband_ok (db : option Types.DeadBandConfig) : bool :=
  match db with Some d => finite (Types.Value d) | None => true end.

Section Udt.
Context `{FloatText}.
(** The JSON text of a value, [None] when [json.Marshal] fails; the order of a map's
    iteration. *)
Context (marshal : value → option string) (iter : gmap string value → list (string * value)).

Definition message_ok (msg : PlcDataMessage) : bool :=
  bool_decide (is_Some (marshal (dmValue msg))) && deadband_ok (dmDeadband msg)
  && forallb (λ kv : string * Types.DeadBandConfig, finite (Types.Value kv.2)) (map_to_list (default (∅ : gmap string Types.DeadBandConfig) (dmMemberDeadbands msg))).

(** The first loop of [anyMemberExceedsDeadband]. *)
Fixpoint exceeds (lastValues : gmap string value) (deadbands : gmap string Types.DeadBandConfig)
    (current : list (string * value)) : outcome bool :=
  match current with
  | [] => Ok false
  | (memberName, newVal) :: rest =>
      match lastValues !! memberName with
      | None => Ok true
      | Some prevVal =>
          let differs : outcome bool := same ← iface_eq newVal prevVal; if (same : bool) then exceeds lastValues deadbands rest else Ok true in
          match deadbands !! memberName with
          | Some db =>
              match Internal.ToFloat64 newVal, Internal.ToFloat64 prevVal with
              | Some newNum, Some prevNum =>
                  if f64_gtb (f64_abs (f64_sub newNum prevNum)) (Types.Value db) then Ok true
                  else exceeds lastValues deadbands rest
              | _, _ => differs
              end
          | None => differs
          end
      end
  end.

Definition anyMemberExceedsDeadband (a : UdtAssembler) (current : gmap string value) : outcome bool :=
  let lastValues : gmap string value := default ∅ (aLastValues a) in
  b ← exceeds lastValues (aMemberDeadbands a) (iter current);
  if (b : bool) then Ok true
  else Ok (negb (forallb (λ kv : string * value, bool_decide (is_Some (current !! kv.1))) (map_to_list lastValues))).

(** What the exception check decides. *)
Inductive rbeDecision := Publish | Suppress | Defer (ms : Z).

Definition rbe_decision (a : UdtAssembler) (assembled : gmap string value) (nowMs : Z) : outcome rbeDecision :=
  if negb (aDisableRBE a) && (0 <? aLastPubTime a) then
    let elapsed := wraps 64 (nowMs - aLastPubTime a) in
    let maxTime := match aDeadband a with Some db => Types.MaxTime db | None => 0 end in
    let minTime := match aDeadband a with Some db => Types.MinTime db | None => 0 end in
    if (0 <? maxTime) && (maxTime <=? elapsed) then Ok Publish
    else if (0 <? minTime) && (elapsed <? minTime) then Ok (Defer (wraps 64 (minTime - elapsed)))
    else if (0 <? Z.of_nat (size (aMemberDeadbands a))) && bool_decide (is_Some (aLastValues a)) then
      b ← anyMemberExceedsDeadband a assembled; Ok (if (b : bool) then Publish else Suppress)
    else match marshal (map_value assembled) with
         | None => Ok Suppress
         | Some json => Ok (if String.eqb json (aLastJSON a) then Suppress else Publish)
         end
  else Ok Publish.

(** [publish], the timer's function. *)
Definition publish (nowMs : Z) (a : UdtAssembler) : outcome (UdtAssembler * option (string * PlcDataMessage)) :=
  if negb (aDirty a) then Ok (a, None)
  else
    let a := asm_pending a (aValues a) false (aTimer a) in
    let assembled := assemble a in
    decision ← rbe_decision a assembled nowMs;
    match decision with
    | Suppress => Ok (a, None)
    | Defer remaining => Ok (asm_pending a (aValues a) true (Some (ns nowMs + wraps 64 (remaining * 1000000))), None)
    | Publish =>
        let a := asm_published a (default "" (marshal (map_value assembled))) assembled nowMs in
        let msg := udt_message a assembled nowMs in
        Ok (a, if message_ok msg then Some (udt_subject a, msg) else None)
    end.

(** The timer fires: it is no longer pending when [publish] runs. *)
Definition fire (nowMs : Z) (a : UdtAssembler) : outcome (UdtAssembler * option (string * PlcDataMessage)) :=
  publish nowMs (asm_pending a (aValues a) (aDirty a) None).

End Udt.

(** ** The assembled value *)

Lemma assemble_lookup a name : assemble a !! name =
  if existsb (λ m, String.eqb (tmName m) name) (tcMembers (aTemplate a)) then aValues a !! name else None.
Proof.
  unfold assemble. generalize (tcMembers (aTemplate a)) as l. intros l.
  assert (∀ acc : gmap string value, fold_left (λ assembled member, match aValues a !! tmName member with
    | Some v => <[tmName member := v]> assembled | None => assembled end) l acc !! name =
    if existsb (λ m, String.eqb (tmName m) name) l then match aValues a !! name with Some v => Some v | None => acc !! name end
    else acc !! name) as H.
  { induction l as [|m l IH]; intros acc; [done|]. cbn [fold_left existsb]. rewrite IH.
    destruct (String.eqb_spec (tmName m) name) as [->|Hne]; cbn [orb].
    - destruct (aValues a !! name); [rewrite lookup_insert_eq|]; by case_if.
    - destruct (aValues a !! tmName m); [rewrite lookup_insert_ne by done|]; done. }
  rewrite H, lookup_empty. case_if; [|done]. by destruct (aValues a !! name).
Qed.

Section Facts.
Context `{FloatText}.
Context (marshal : value → option string) (iter : gmap string value → list (string * value)).
Context (iter_perm : ∀ m, iter m ≡ₚ map_to_list m).

Notation publish := (publish marshal iter).
Notation fire := (fire marshal iter).
Notation rbe_decision := (rbe_decision marshal iter).

(** What [fire] does on each decision. *)
Lemma fire_spec nowMs a : aDirty a = true → fire nowMs a =
  (decision ← rbe_decision a (assemble a) nowMs;
   match decision with
   | Suppress => Ok (asm_pending a (aValues a) false None, None)
   | Defer remaining =>
       Ok (asm_pending a (aValues a) true (Some (ns nowMs + wraps 64 (remaining * 1000000))), None)
   | Publish =>
       let msg := udt_message a (assemble a) nowMs in
       Ok (asm_published (asm_pending a (aValues a) false None) (default "" (marshal (map_value (assemble a)))) (assemble a) nowMs,
           if message_ok marshal msg then Some (udt_subject a, msg) else None)
   end).
Proof. intros Hd. unfold fire, publish. cbn [aDirty asm_pending]. by rewrite Hd. Qed.

(** ** Time passes

    The pending timer fires when its instant comes; a deferred publication sets another. *)

Fixpoint elapse (fuel : nat) (t : Z) (a : UdtAssembler) : outcome (UdtAssembler * list (string * PlcDataMessage)) :=
  match fuel, aTimer a with
  | S fuel, Some d =>
      if d <=? ns t then
        '(a, m) ← fire (d / 1000000) a;
        '(a, ms) ← elapse fuel t a;
        Ok (a, option_list m ++ ms)
      else Ok (a, [])
  | _, _ => Ok (a, [])
  end.

(** Updates at their times, and the time after the last one. *)
Fixpoint updates (us : list (Z * string * value)) (t_end : Z) (a : UdtAssembler)
    : outcome (UdtAssembler * list (string * PlcDataMessage)) :=
  match us with
  | [] => elapse 3 t_end a
  | (t, name, v) :: us =>
      '(a, ms) ← elapse 3 t a;
      '(a, ms') ← updates us t_end (SetMember t name v a);
      Ok (a, ms ++ ms')
  end.

(** Each update follows the one before it by less than 100 ms, and so does the end. *)
Fixpoint frequent (t : Z) (us : list (Z * string * value)) (t_end : Z) : Prop :=
  match us with
  | [] => t ≤ t_end < t + 100
  | (t', _, _) :: us => t ≤ t' < t + 100 ∧ frequent t' us t_end
  end.

Lemma elapse_early fuel t a : (∀ d, aTimer a = Some d → ns t < d) → elapse fuel t a = Ok (a, []).
Proof.
  intros Hd. destruct fuel; [done|]. cbn [elapse]. destruct (aTimer a) as [d|]; [|done].
  specialize (Hd d eq_refl). by rewrite (proj2 (Z.leb_gt _ _)) by lia.
Qed.

(** A structured variable whose members are updated more often than every 100 ms is never
    published, whatever its values and its maximum time: each update restarts the debounce
    timer, and only the timer publishes. *)
Theorem frequent_updates_starve us t name v t_end a : aTimer a = None → frequent t us t_end →
  ∃ a', updates ((t, name, v) :: us) t_end a = Ok (a', []) ∧ aDirty a' = true ∧
    aTimer a' = Some (ns (fold_left (λ _ u, u.1.1) us t) + udtDebounceDuration).
Proof.
  intros Ha Hf. cbn [updates]. rewrite elapse_early by by rewrite Ha. cbn [mbind outcome_bind].
  assert (∀ us t name v a, frequent t us t_end →
    ∃ a', updates us t_end (SetMember t name v a) = Ok (a', []) ∧ aDirty a' = true ∧
      aTimer a' = Some (ns (fold_left (λ _ u, u.1.1) us t) + udtDebounceDuration)) as Hgen.
  { clear. intros us. induction us as [|[[t' name'] v'] us IH]; intros t name v a Hf; cbn [updates frequent] in *.
    - rewrite elapse_early; [by eexists|]. intros d [= <-]. unfold ns, udtDebounceDuration. lia.
    - destruct Hf as [Ht Hf]. rewrite elapse_early.
      2:{ intros d [= <-]. unfold ns, udtDebounceDuration. lia. }
      cbn [mbind outcome_bind]. destruct (IH t' name' v' (SetMember t name v a) Hf) as (a' & H1 & H2 & H3).
      rewrite H1. by eexists. }
  destruct (Hgen us t name v a Hf) as (a' & H1 & H2 & H3). rewrite H1. by eexists.
Qed.

(** ** A quiet variable settles *)

(** The published value [last] of a member stands for the current one. *)
Definition member_close (deadbands : gmap string Types.DeadBandConfig) (name : string) (v last : value) : Prop :=
  iface_eq v last = Ok true ∨
  ∃ db n p, deadbands !! name = Some db ∧ Internal.ToFloat64 v = Some n ∧ Internal.ToFloat64 last = Some p ∧
    f64_gtb (f64_abs (f64_sub n p)) (Types.Value db) = false.

Definition close (deadbands : gmap string Types.DeadBandConfig) (current last : gmap string value) : Prop :=
  dom current = dom last ∧
  ∀ name v, current !! name = Some v → ∃ p, last !! name = Some p ∧ member_close deadbands name v p.

Lemma exceeds_false last dbs l : exceeds last dbs l = Ok false →
  ∀ name v, (name, v) ∈ l → ∃ p, last !! name = Some p ∧ member_close dbs name v p.
Proof.
  induction l as [|[name v] l IH]; intros He name' v' Hin; [by apply elem_of_nil in Hin|]. cbn [exceeds] in He.
  destruct (last !! name) as [p|] eqn:Hp; [|done].
  assert (exceeds last dbs l = Ok false ∧ member_close dbs name v p) as [Hl Hm].
  { assert ((same ← iface_eq v p; if (same : bool) then exceeds last dbs l else Ok true) = Ok false →
      exceeds last dbs l = Ok false ∧ member_close dbs name v p) as Hd.
    { destruct (iface_eq v p) as [[]| |] eqn:E; cbn; try discriminate. intros. split; [done|by left]. }
    destruct (dbs !! name) as [db|] eqn:Hdb; [|by apply Hd].
    destruct (Internal.ToFloat64 v) as [n|] eqn:Hn; [|by apply Hd].
    destruct (Internal.ToFloat64 p) as [q|] eqn:Hq; [|by apply Hd].
    case_if; [done|]. split; [done|]. right. by exists db, n, q. }
  apply elem_of_cons in Hin as [[= -> ->]|Hin]; [by exists p|by apply IH].
Qed.

Lemma anyMember_false a cur : anyMemberExceedsDeadband iter a cur = Ok false →
  close (aMemberDeadbands a) cur (default ∅ (aLastValues a)).
Proof.
  unfold anyMemberExceedsDeadband. set (last := default ∅ (aLastValues a)).
  destruct (exceeds _ _ _) as [[]| |] eqn:He; cbn [mbind outcome_bind]; try discriminate. intros [= Hr].
  apply negb_false_iff in Hr. rewrite forallb_forall in Hr.
  assert (∀ name v, cur !! name = Some v → ∃ p, last !! name = Some p ∧ member_close (aMemberDeadbands a) name v p) as Hc.
  { intros name v Hv. eapply exceeds_false; [exact He|]. rewrite iter_perm. by apply elem_of_map_to_list. }
  split; [|done]. apply set_eq. intros name. rewrite !elem_of_dom. split.
  - intros [v Hv]. destruct (Hc _ _ Hv) as (p & Hp & _). by eexists.
  - intros [p Hp]. specialize (Hr (name, p)). apply bool_decide_eq_true in Hr; [done|].
    apply list_elem_of_In. by apply elem_of_map_to_list.
Qed.

Lemma exceeds_comparable last dbs l : Forall (λ kv, comparable kv.2 = true) l → ∃ b, exceeds last dbs l = Ok b.
Proof.
  induction 1 as [|[name v] l Hv _ [b IH]]; [by eexists|]. cbn [exceeds] in *. cbn in Hv.
  destruct (last !! name) as [p|]; [|by eexists]. rewrite IH.
  destruct (iface_eq_comparable v p Hv) as [r Hr]. rewrite Hr. cbn [mbind outcome_bind].
  repeat match goal with |- context [match ?x with _ => _ end] => destruct x end; by eexists.
Qed.

(** Values that Go can compare: anything but slices and maps. *)
Definition scalar_members (a : UdtAssembler) : Prop := map_Forall (λ _ v, comparable v = true) (aValues a).

Lemma assemble_sub a : assemble a ⊆ aValues a.
Proof.
  apply map_subseteq_spec. intros name v. rewrite assemble_lookup. by case_if.
Qed.

Lemma rbe_decision_scalar a nowMs : scalar_members a → ∃ d, rbe_decision a (assemble a) nowMs = Ok d.
Proof.
  intros Hs. unfold rbe_decision. case_if; [|by eexists]. case_if; [by eexists|]. case_if; [by eexists|].
  case_if; [|destruct (marshal _); by eexists].
  unfold anyMemberExceedsDeadband.
  edestruct exceeds_comparable as [b Hb]; [|rewrite Hb; cbn; destruct b; by eexists].
  rewrite iter_perm. apply Forall_forall. intros [name v] Hin%elem_of_map_to_list. cbn.
  eapply Hs, lookup_weaken; [exact Hin|apply assemble_sub].
Qed.

(** What the subscribers hold stands for the current value: it was just published, or it is
    within the members' deadbands, or it has the same text. *)
Definition settled (a : UdtAssembler) : Prop :=
  aDirty a = false ∧ aTimer a = None ∧
  (aLastValues a = Some (assemble a) ∨ (∃ last, aLastValues a = Some last ∧ close (aMemberDeadbands a) (assemble a) last) ∨
   marshal (map_value (assemble a)) = Some (aLastJSON a)).

Lemma suppressed_close a nowMs : is_Some (marshal (map_value (assemble a))) →
  rbe_decision a (assemble a) nowMs = Ok Suppress →
  (∃ last, aLastValues a = Some last ∧ close (aMemberDeadbands a) (assemble a) last) ∨
  marshal (map_value (assemble a)) = Some (aLastJSON a).
Proof.
  intros [js Hjs]. unfold rbe_decision. case_if; [|done]. case_if; [done|]. case_if; [done|]. case_if.
  - destruct (anyMemberExceedsDeadband _ _ _) as [[]| |] eqn:Hany; cbn; try discriminate. intros _. left.
    apply anyMember_false in Hany. destruct (aLastValues a) as [last|]; [by exists last|].
    exfalso. bool_to_prop. by eapply is_Some_None.
  - rewrite Hjs. destruct (String.eqb_spec js (aLastJSON a)) as [->|]; [|done]. intros _. by right.
Qed.

(** The deadband's minimum interval; its sum with a time stays within an int64. *)
Definition minTime (a : UdtAssembler) : Z := match aDeadband a with Some db => Types.MinTime db | None => 0 end.

(** A decision, by the elapsed time. *)
Lemma decision_defer a cur now r : rbe_decision a cur now = Ok (Defer r) →
  let elapsed := wraps 64 (now - aLastPubTime a) in r = wraps 64 (minTime a - elapsed) ∧ 0 < minTime a ∧ elapsed < minTime a.
Proof.
  unfold rbe_decision. case_if; [|done]. case_if; [done|]. case_if.
  - intros [= <-]. bool_to_prop. fold (minTime a) in *. split; [done|lia].
  - case_if.
    + destruct (anyMemberExceedsDeadband _ _ _) as [[]| |]; discriminate.
    + destruct (marshal _); [case_if|]; discriminate.
Qed.

Lemma ns_div t : ns t / 1000000 = t.
Proof. unfold ns. by rewrite Z.div_mul. Qed.

(** Firing when nothing is deferred. *)
Lemma fire_settles a t : aDirty a = true → scalar_members a → message_ok marshal (udt_message a (assemble a) t) = true →
  (∀ r, rbe_decision a (assemble a) t ≠ Ok (Defer r)) →
  ∃ a' m, fire t a = Ok (a', m) ∧ settled a' ∧ aValues a' = aValues a ∧ aTemplate a' = aTemplate a ∧
    (m = None ∨ m = Some (udt_subject a, udt_message a (assemble a) t)).
Proof.
  intros Hd Hs Hm Hnd. rewrite fire_spec by done. destruct (rbe_decision_scalar a t Hs) as [d Hdec]. rewrite Hdec in *.
  assert (is_Some (marshal (map_value (assemble a)))) as Hjs by (unfold message_ok in Hm; by bool_to_prop).
  cbn [mbind outcome_bind]. destruct d as [| |r]; [| |by destruct (Hnd r)].
  - rewrite Hm. do 2 eexists. split; [done|]. split; [by repeat split; left|]. split; [done|]. split; [done|]. by right.
  - do 2 eexists. split; [done|]. split; [|by split_and!; [..|left]]. split; [done|]. split; [done|].
    destruct (suppressed_close a t Hjs Hdec) as [H'|H']; [by right; left|by right; right].
Qed.

Lemma elapse_due fuel t t' a : aTimer a = Some (ns t') → t' ≤ t →
  elapse (S fuel) t a = ('(a, m) ← fire t' a; '(a, ms) ← elapse fuel t a; Ok (a, option_list m ++ ms)).
Proof.
  intros Ht Hle. cbn [elapse]. rewrite Ht, (proj2 (Z.leb_le _ _)) by (unfold ns; lia). by rewrite ns_div.
Qed.

(** C32: A structured variable of scalar members comes to rest: after an update that is followed
    by a debounce time without others, and by the minimum interval since the last
    publication, nothing is pending, at most one message was sent, with the current members,
    and what the subscribers hold is the current value, within the members' deadbands of it,
    or has its JSON text. *)
Theorem quiet_update_settles a t name v t_end : let a1 := SetMember t name v a in
  scalar_members a1 → (∀ now, message_ok marshal (udt_message a1 (assemble a1) now) = true) →
  0 ≤ aLastPubTime a ≤ t → t < 2 ^ 62 → minTime a < 2 ^ 40 →
  t + 100 ≤ t_end → aLastPubTime a + minTime a ≤ t_end →
  ∃ a' ms, updates [] t_end a1 = Ok (a', ms) ∧ settled a' ∧ assemble a' = assemble a1 ∧
    (ms = [] ∨ ∃ t', ms = [(udt_subject a1, udt_message a1 (assemble a1) t')]).
Proof.
  intros a1 Hs Hm Hl Ht Hmin He1 He2. cbn [updates].
  rewrite (elapse_due 2 t_end (t + 100)); [|cbn; f_equal; unfold ns, udtDebounceDuration; lia|done].
  assert (∀ x : UdtAssembler, aTimer x = None → elapse 2 t_end x = Ok (x, [])) as Hstop by (intros x Hx; cbn; by rewrite Hx).
  assert (∀ x : UdtAssembler, aTimer x = None → elapse 1 t_end x = Ok (x, [])) as Hstop1 by (intros x Hx; cbn; by rewrite Hx).
  assert (∀ a', aValues a' = aValues a1 → aTemplate a' = aTemplate a1 → assemble a' = assemble a1) as Hasm.
  { intros a' H1 H2. apply map_eq. intros n. by rewrite !assemble_lookup, H1, H2. }
  destruct (rbe_decision_scalar a1 (t + 100) Hs) as [d Hd].
  assert (aDirty a1 = true) as Hdirty by done.
  assert ((∃ r, d = Defer r) ∨ ¬ ∃ r, d = Defer r) as [Hr|Hr] by (destruct d; naive_solver).
  2:{ destruct (fire_settles a1 (t + 100)) as (a' & m & Hf & Hset & Hv & Htm & Hm'); [done|done|done|intros r Hr'; apply Hr; rewrite Hd in Hr'; injection Hr' as ->; by eexists|].
      rewrite Hf. cbn [mbind outcome_bind]. rewrite (Hstop a' ltac:(apply Hset)). cbn [mbind outcome_bind].
      exists a', (option_list m). rewrite app_nil_r. split; [done|]. split; [done|]. split; [by apply Hasm|].
      destruct Hm' as [->| ->]; [by left|right; by eexists]. }
  destruct Hr as [r ->]. destruct (decision_defer _ _ _ _ Hd) as (-> & Hmt & Hel).
  change (minTime a1) with (minTime a) in *. change (aLastPubTime a1) with (aLastPubTime a) in *.
  assert (Hw : ∀ z, - 2 ^ 62 ≤ z < 2 ^ 63 → wraps 64 z = z) by (intros; apply wraps_small; unfold in_s; lia).
  rewrite (Hw (t + 100 - aLastPubTime a)) in Hd, Hel by lia. rewrite (Hw (minTime a - (t + 100 - aLastPubTime a))) in Hd by lia.
  rewrite fire_spec by done. rewrite Hd. cbn [mbind outcome_bind]. rewrite Hw by lia.
  set (t' := aLastPubTime a + minTime a).
  replace (ns (t + 100) + _) with (ns t') by (unfold ns, t'; lia).
  set (a2 := asm_pending _ _ _ _). rewrite (elapse_due 1 t_end t') by done.
  destruct (fire_settles a2 t') as (a' & m & Hf & Hset & Hv & Htm & Hm'); [done|exact Hs|exact (Hm t')| |].
  { intros r Hr. apply decision_defer in Hr as (_ & _ & Hr).
    change (minTime a2) with (minTime a) in Hr. change (aLastPubTime a2) with (aLastPubTime a) in Hr.
    rewrite Hw in Hr by lia. lia. }
  rewrite Hf. cbn [mbind outcome_bind]. rewrite (Hstop1 a' ltac:(apply Hset)). cbn [mbind outcome_bind].
  exists a', (option_list m). rewrite app_nil_r. split; [done|]. split; [done|]. split; [by apply Hasm|].
  destruct Hm' as [->| ->]; [by left|right; by eexists].
Qed.

(** ** Structured members *)

Lemma exceeds_app_panic last dbs l1 l2 : Forall (λ kv, exceeds last dbs [kv] = Ok false) l1 →
  exceeds last dbs l2 = Panic → exceeds last dbs (l1 ++ l2) = Panic.
Proof.
  induction 1 as [|[name v] l1 Hv _ IH]; [done|]. intros H2. specialize (IH H2). cbn [app exceeds] in *.
  destruct (last !! name) as [p|]; [|done]. rewrite IH. clear IH H2.
  destruct (iface_eq v p) as [[]| |], (dbs !! name), (Internal.ToFloat64 v), (Internal.ToFloat64 p);
    cbn in *; try case_if; congruence.
Qed.

(** A structured variable with member deadbands and an array among its members crashes the
    gateway at the first timer after its first publication at which no other member has
    changed beyond its deadband: Go panics when it compares the two slices, in a goroutine
    that does not recover. The array itself need not have changed. *)
Theorem array_member_panics t name l l' last a : aDirty a = true → aDisableRBE a = false → 0 < aLastPubTime a →
  aDeadband a = None → aMemberDeadbands a ≠ ∅ → aLastValues a = Some last →
  assemble a !! name = Some (VSlice l) → last !! name = Some (VSlice l') →
  (∀ n v, n ≠ name → assemble a !! n = Some v → exceeds last (aMemberDeadbands a) [(n, v)] = Ok false) →
  fire t a = Panic.
Proof.
  intros Hd Hdis Hpub Hdb Hmd Hlast Hcur Hl' Hrest. rewrite fire_spec by done.
  unfold rbe_decision. rewrite Hdis, Hdb, (proj2 (Z.ltb_lt _ _)) by done. cbn [negb andb].
  rewrite !(proj2 (Z.ltb_ge 0 0)) by lia. cbn [andb].
  assert (size (aMemberDeadbands a) ≠ 0%nat) as Hsz by by rewrite map_size_empty_iff.
  rewrite (proj2 (Z.ltb_lt 0 (Z.of_nat _))) by lia. rewrite bool_decide_eq_true_2 by by eexists. cbn [andb].
  unfold anyMemberExceedsDeadband. rewrite Hlast. cbn [default].
  assert ((name, VSlice l) ∈ iter (assemble a)) as (l1 & l2 & Heq)%list_elem_of_split.
  { rewrite iter_perm. by apply elem_of_map_to_list. }
  change (id last) with last. rewrite Heq, exceeds_app_panic; [done| |].
  - apply Forall_forall. intros [n v] Hin.
    assert ((n, v) ∈ iter (assemble a)) as Hin' by (rewrite Heq; apply elem_of_app; by left).
    rewrite iter_perm in Hin'. apply elem_of_map_to_list in Hin'. apply Hrest; [|done]. intros ->.
    assert (NoDup (iter (assemble a)).*1) as Hnd by (rewrite iter_perm; apply NoDup_fst_map_to_list).
    rewrite Heq, fmap_app in Hnd. apply NoDup_app in Hnd as (_ & Hnd & _).
    apply (Hnd name); [by apply (list_elem_of_fmap_2 fst l1 (name, v))|by left].
  - cbn [exceeds]. rewrite Hl'. by destruct (aMemberDeadbands a !! name).
Qed.

End Facts.

(** ** Witnesses *)

Section Examples.
#[local] Existing Instance no_float_text.

(** A template with a numeric member and an array. *)
Definition ex_member (name dt : string) : GatewayUdtTemplateMemberConfig := mkTemplateMember name dt "" None "" "".
Definition ex_template : GatewayUdtTemplateConfig := mkTemplateConfig "Pump" "" [ex_member "speed" "number"; ex_member "trace" "array"].
Definition ex_udt : GatewayUdtVariableConfig :=
  mkUdtConfig "pump" "dev" "Pump1" "Pump" (<["speed" := "Pump1.speed"]> (<["trace" := "Pump1.trace"]> ∅)) ∅ ∅ None false false ∅ ∅.
Definition ex_deadband (v : Z) : Types.DeadBandConfig := {| Types.Value := f64_of_Z v; Types.MinTime := 0; Types.MaxTime := 0 |}.
Definition ex_asm : UdtAssembler :=
  NewUdtAssembler "gateway" "pump" ex_udt ex_template None false (<["speed" := ex_deadband 1]> ∅).
Definition ex_json (_ : value) : option string := Some "{}".

(** Twenty updates, 50 ms apart. *)
Definition ex_updates : list (Z * string * value) :=
  map (λ i, (1050 + 50 * Z.of_nat i, "speed", VFloat64 (f64_of_Z (Z.of_nat i)))) (seq 0 20).

Lemma frequent_updates_starve_witness : ∃ a',
  updates ex_json map_to_list ((1000, "speed", VFloat64 0) :: ex_updates) 2050 ex_asm = Ok (a', []) ∧ aDirty a' = true.
Proof.
  destruct (frequent_updates_starve ex_json map_to_list ex_updates 1000 "speed" (VFloat64 0) 2050 ex_asm) as (a' & H1 & H2 & _);
    [reflexivity|cbn -[f64_of_Z]; lia|]. by exists a'.
Defined.

Lemma quiet_update_settles_witness : ∃ a' ms,
  updates ex_json map_to_list [] 1100 (SetMember 1000 "speed" (VFloat64 (f64_of_Z 7)) ex_asm) = Ok (a', ms) ∧
  aDirty a' = false ∧ aTimer a' = None ∧ length ms = 1%nat.
Proof.
  destruct (quiet_update_settles ex_json map_to_list (λ _, reflexivity _) ex_asm 1000 "speed" (VFloat64 (f64_of_Z 7)) 1100)
    as (a' & ms & H1 & (H2 & H3 & _) & _ & H4);
    [apply map_Forall_singleton; reflexivity|intros; reflexivity|cbn; lia|lia|cbn; lia|lia|cbn; lia|].
  exists a', ms. split; [exact H1|]. split; [exact H2|]. split; [exact H3|].
  assert (match updates ex_json map_to_list [] 1100 (SetMember 1000 "speed" (VFloat64 (f64_of_Z 7)) ex_asm) with
    | Ok (_, ms) => length ms | _ => 0%nat end = 1%nat) as Hl by (vm_compute; reflexivity).
  by rewrite H1 in Hl.
Defined.

(** The assembler after a publication with an array. *)
Definition ex_array : UdtAssembler :=
  SetMember 2000 "speed" (VFloat64 (f64_of_Z 7))
    (asm_published (SetMember 1000 "trace" (VSlice []) (SetMember 900 "speed" (VFloat64 (f64_of_Z 7)) ex_asm)) "{}"
       (<["speed" := VFloat64 (f64_of_Z 7)]> (<["trace" := VSlice []]> ∅)) 1100).

Lemma array_member_panics_witness : fire ex_json map_to_list 2100 ex_array = Panic.
Proof.
  apply (array_member_panics ex_json map_to_list (λ _, reflexivity _) 2100 "trace" [] []
    (<["speed" := VFloat64 (f64_of_Z 7)]> (<["trace" := VSlice []]> ∅)) ex_array);
    [reflexivity|reflexivity|reflexivity|reflexivity|apply insert_non_empty|reflexivity|vm_compute; reflexivity|vm_compute; reflexivity|].
  intros n v Hn Hv. rewrite assemble_lookup in Hv. destruct (existsb _ _) eqn:E; [|discriminate].
  cbn -[String.eqb] in E. rewrite orb_false_r in E. apply orb_prop in E as [E|E]; apply String.eqb_eq in E; subst n; [|congruence].
  vm_compute in Hv. injection Hv as <-. vm_compute. reflexivity.
Defined.

End Examples.
