(* ===== verification/Gateway.v ===== *)
(** The gateway, internal/gateway/gateway.go: it applies a configuration (tracked
    variables, UDT assemblers, the indices from scanner tags to them, the requests it
    writes for the scanners), routes scanner data to the bus under its own name, and
    routes commands back. Handlers run under the gateway's mutex, so each is one step; what
    a step sends is a list of effects. A function of a timer that is already waiting for the
    assembler's mutex when the configuration is replaced is not modelled. *)

From S2P Require Export Prelude GoValue Rbe PlcTypes GatewayConfig GatewayUdt.
From S2P Require Topics ModbusClient ChannelBus.
Import Topics (SanitizeForSubject).

#[local] Open Scope Z_scope.

Record TrackedVariable := mkTracked {
  tvConfig : GatewayVariableConfig;
  tvDeadband : option Types.DeadBandConfig;
  tvDisableRBE : bool;
  tvValue : value;
  tvRbeState : Internal.State;
}.

Record udtMemberRef := mkRef { variableID : string; memberName : string }.

(** The functions the gateway subscribes with; a watch of its configuration has no
    subject. *)
Inductive gwHandler :=
  | HData (protocol deviceID : string)
  | HBatch (protocol deviceID : string)
  | HVariables
  | HCommands
  | HStatusBrowse
  | HShutdown
  | HConfigWatch.

Record gwSub := mkGwSub { gsSubject : string; gsHandler : gwHandler }.

Record Gateway := mkGateway {
  gatewayID : string;
  config : option GatewayConfigKV;
  variables : gmap string TrackedVariable;
  tagIndex : gmap string (list string);
  udtAssemblers : gmap string UdtAssembler;
  udtMemberIndex : gmap string (list udtMemberRef);
  subs : list gwSub;
  varSub : option gwSub;
  cmdSub : option gwSub;
  startedAt : Z;
}.

(** The payload a scanner finds in its bucket; [NoRequest] is the nil payload of a protocol
    that has a bucket but no case. *)
Inductive scannerRequest :=
  | EthernetIPRequest (r : EthernetIPSubscribeRequest)
  | OpcUARequest (r : OpcUASubscribeRequest)
  | SNMPRequest (r : SNMPSubscribeRequest)
  | ModbusRequest (r : ModbusScannerSubscribeRequest)
  | NoRequest.

(** What the gateway asks of the bus besides subscribing. Commands are forwarded as the
    bytes that came. *)
Inductive effect {raw : Type} :=
  | EData (subject : string) (msg : PlcDataMessage)
  | ERaw (subject : string) (data : raw)
  | EPut (bucket key : string) (r : scannerRequest)
  | EDelete (bucket key : string)
  | EPutConfig (key : string) (c : GatewayConfigKV)
  | EReply (vars : list VariableInfo).
Arguments effect : clear implicits.

Definition New (id : string) : Gateway :=
  mkGateway (if String.eqb id "" then "gateway" else id) None ∅ ∅ ∅ ∅ [] None None 0.

Definition with_maps (g : Gateway) (c : option GatewayConfigKV) (vars : gmap string TrackedVariable)
    (tags : gmap string (list string)) (asms : gmap string UdtAssembler) (members : gmap string (list udtMemberRef)) : Gateway :=
  mkGateway (gatewayID g) c vars tags asms members (subs g) (varSub g) (cmdSub g) (startedAt g).
Definition with_subs (g : Gateway) (l : list gwSub) (v c : option gwSub) : Gateway :=
  mkGateway (gatewayID g) (config g) (variables g) (tagIndex g) (udtAssemblers g) (udtMemberIndex g) l v c (startedAt g).
Definition with_variables (g : Gateway) (vars : gmap string TrackedVariable) : Gateway :=
  with_maps g (config g) vars (tagIndex g) (udtAssemblers g) (udtMemberIndex g).
Definition with_assemblers (g : Gateway) (asms : gmap string UdtAssembler) : Gateway :=
  with_maps g (config g) (variables g) (tagIndex g) asms (udtMemberIndex g).

Definition VariableCount (g : Gateway) : Z := Z.of_nat (size (variables g)) + Z.of_nat (size (udtAssemblers g)).
Definition HasConfig (g : Gateway) : bool := bool_decide (is_Some (config g)).

(** The key of the two indices. *)
Definition tag_key (protocol deviceID sanitizedTag : string) : string :=
  protocol +:+ "." +:+ SanitizeForSubject deviceID +:+ "." +:+ sanitizedTag.

(** [append] to the list under a key. *)
Definition push {A} (m : gmap string (list A)) (k : string) (a : A) : gmap string (list A) :=
  <[k := default [] (m !! k) ++ [a]]> m.

Definition resolve_deadband (own : option Types.DeadBandConfig) (device : GatewayDeviceConfig) : option Types.DeadBandConfig :=
  match own with Some db => Some db | None => dcDeadband device end.
Definition resolve_disable (own : bool) (device : GatewayDeviceConfig) : bool :=
  own || default false (dcDisableRBE device).

(** Reading the bytes of a message. *)
Record decoder (raw : Type) := {
  decode_data : raw → option PlcDataMessage;
  decode_batch : raw → option ScannerBatchMessage;
  decode_config : raw → option GatewayConfigKV;
}.
Arguments decode_data {raw} _ _.
Arguments decode_batch {raw} _ _.
Arguments decode_config {raw} _ _.

Section Gateway.
Context `{FloatText}.
(** The JSON text of a value; whether the bus refuses a subscription; the order in which Go
    ranges over a map. *)
Context (marshal : value → option string) (refused : string → bool).
Context (iter : ∀ A : Type, gmap string A → list (string * A)).
Arguments iter {A} _.

(** ** Applying a configuration *)

Definition track_variable (c : GatewayConfigKV) (acc : gmap string TrackedVariable * gmap string (list string))
    (kv : string * GatewayVariableConfig) : gmap string TrackedVariable * gmap string (list string) :=
  let '(vars, tags) := acc in
  let '(varID, varCfg) := kv in
  match cfDevices c !! vcDeviceID varCfg with
  | None => acc
  | Some device =>
      let tv := mkTracked varCfg (resolve_deadband (vcDeadband varCfg) device)
        (resolve_disable (vcDisableRBE varCfg) device) (vcDefault varCfg) Internal.fresh in
      (<[varID := tv]> vars,
       push tags (tag_key (dcProtocol device) (vcDeviceID varCfg) (SanitizeForSubject (vcTag varCfg))) varID)
  end.

(** Datatypes whose members have no deadband. *)
Definition no_deadband (dt : string) : bool :=
  String.eqb dt "boolean" || String.eqb dt "string" || String.eqb dt "BOOL" || String.eqb dt "BOOLEAN"
  || String.eqb dt "STRING".

Definition no_config : Types.DeadBandConfig := {| Types.Value := 0; Types.MinTime := 0; Types.MaxTime := 0 |}.

Definition base_deadband (device : GatewayDeviceConfig) (member : GatewayUdtTemplateMemberConfig) : Types.DeadBandConfig :=
  let base := default no_config (dcDeadband device) in
  match tmDefaultDeadband member with
  | None => base
  | Some d =>
      {| Types.Value := Types.Value d;
         Types.MinTime := if negb (Types.MinTime d =? 0) then Types.MinTime d else Types.MinTime base;
         Types.MaxTime := if negb (Types.MaxTime d =? 0) then Types.MaxTime d else Types.MaxTime base |}
  end.

Definition member_deadbands (device : GatewayDeviceConfig) (tmpl : GatewayUdtTemplateConfig)
    (udtVar : GatewayUdtVariableConfig) : gmap string Types.DeadBandConfig :=
  fold_left (λ dbs member,
    if no_deadband (tmDatatype member) then dbs
    else
      let base := base_deadband device member in
      <[tmName member := match ucMemberDeadbands udtVar !! tmName member with
                         | Some override => Types.Merge override base
                         | None => base
                         end]> dbs) (tcMembers tmpl) ∅.

Definition add_udt (gid : string) (c : GatewayConfigKV)
    (acc : gmap string UdtAssembler * gmap string (list udtMemberRef)) (kv : string * GatewayUdtVariableConfig)
    : gmap string UdtAssembler * gmap string (list udtMemberRef) :=
  let '(asms, members) := acc in
  let '(varID, udtVar) := kv in
  match cfDevices c !! ucDeviceID udtVar, cfUdtTemplates c !! ucTemplateName udtVar with
  | Some device, Some tmpl =>
      let assembler := NewUdtAssembler gid (ucID udtVar) udtVar tmpl (resolve_deadband (ucDeadband udtVar) device)
        (resolve_disable (ucDisableRBE udtVar) device) (member_deadbands device tmpl udtVar) in
      (<[varID := assembler]> asms,
       fold_left (λ members mt,
         push members (tag_key (dcProtocol device) (ucDeviceID udtVar) (SanitizeForSubject mt.2)) (mkRef varID mt.1))
         (iter (ucMemberTags udtVar)) members)
  | _, _ => acc
  end.

(** ** Requests to the scanners *)

Definition subscriber_id (gid : string) : string := "gateway-" +:+ gid.
Definition config_key (gid deviceID : string) : string := subscriber_id gid +:+ "." +:+ deviceID.

Definition eip_request (gid deviceID : string) (device : GatewayDeviceConfig) (c : option GatewayConfigKV)
    (vars : list (string * GatewayVariableConfig)) (scanRate : Z → Z) : EthernetIPSubscribeRequest :=
  mkEip (subscriber_id gid) deviceID (dcHost device) (default 44818 (dcPort device)) (default 0 (dcSlot device))
    (map (λ v, vcTag v.2) vars) (scanRate 1000)
    (fold_left (λ m v, if String.eqb (vcCipType v.2) "" then m else <[vcTag v.2 := vcCipType v.2]> m) vars ∅)
    (match c with
     | Some c => fold_left (λ m u, if String.eqb (ucDeviceID u.2) deviceID then <[ucTag u.2 := ucTemplateName u.2]> m else m)
                   (iter (cfUdtVariables c)) ∅
     | None => ∅
     end)
    (fold_left (λ m v, match vcDeadband v.2 with Some db => <[vcTag v.2 := db]> m | None => m end) vars ∅)
    (fold_left (λ m v, if vcDisableRBE v.2 then <[vcTag v.2 := true]> m else m) vars ∅).

Definition modbus_tag (device : GatewayDeviceConfig) (v : GatewayVariableConfig) : ModbusClient.ModbusTagConfig :=
  ModbusClient.mkTag (vcTag v) (default 0 (vcAddress v))
    (match vcFunctionCode v with Some fc => FunctionCodeToString fc | None => "holding" end)
    (if String.eqb (vcModbusDatatype v) "" then "uint16" else vcModbusDatatype v)
    (if String.eqb (vcByteOrder v) "" then dcByteOrder device else vcByteOrder v) false.

(** The payload, [None] when it cannot be marshalled. *)
Definition scanner_request (gid deviceID : string) (device : GatewayDeviceConfig) (c : option GatewayConfigKV)
    (vars : list (string * GatewayVariableConfig)) : option scannerRequest :=
  let scanRate dflt := default dflt (dcScanRate device) in
  let tags := map (λ v : string * GatewayVariableConfig, vcTag v.2) vars in
  if String.eqb (dcProtocol device) "ethernetip" then
    let r := eip_request gid deviceID device c vars scanRate in
    if forallb (λ kv : string * Types.DeadBandConfig, finite (Types.Value kv.2)) (map_to_list (erDeadbands r))
    then Some (EthernetIPRequest r) else None
  else if String.eqb (dcProtocol device) "opcua" then
    Some (OpcUARequest (mkOpcUA (subscriber_id gid) deviceID (dcEndpointURL device) tags (scanRate 1000)))
  else if String.eqb (dcProtocol device) "snmp" then
    Some (SNMPRequest (mkSnmp (subscriber_id gid) deviceID (dcHost device) (default 161 (dcPort device)) (dcVersion device)
      (dcCommunity device) (dcV3Auth device) tags (scanRate 5000)))
  else if String.eqb (dcProtocol device) "modbus" then
    Some (ModbusRequest (mkModbus (subscriber_id gid) deviceID (dcHost device) (default 502 (dcPort device))
      (default 1 (dcUnitID device)) (dcByteOrder device) (scanRate 1000)
      (map (λ v, modbus_tag device v.2) vars)))
  else Some NoRequest.

Definition writeSubscriptionConfig {raw} (gid deviceID : string) (device : GatewayDeviceConfig) (c : option GatewayConfigKV)
    (vars : gmap string GatewayVariableConfig) : list (effect raw) :=
  if dcAutoManaged device then []
  else
    let bucket := ScannerBucket (dcProtocol device) in
    if String.eqb bucket "" then []
    else match scanner_request gid deviceID device c (iter vars) with
         | Some r => [EPut bucket (config_key gid deviceID) r]
         | None => []
         end.

(** ** Subscriptions *)

Definition subscribe (subject : string) (h : gwHandler) : option gwSub :=
  if refused subject then None else Some (mkGwSub subject h).

(** [subscribeToDeviceLocked]: the subscriptions that are kept, and the request. *)
Definition subscribeToDevice {raw} (gid : string) (c : option GatewayConfigKV) (deviceID : string) (device : GatewayDeviceConfig)
    (vars : gmap string GatewayVariableConfig) : list gwSub * list (effect raw) :=
  let protocol := dcProtocol device in
  (option_list (subscribe (Topics.gatewaySubject protocol deviceID) (HData protocol deviceID)) ++
   option_list (subscribe (Topics.gatewayBatchSubject protocol deviceID) (HBatch protocol deviceID)),
   writeSubscriptionConfig gid deviceID device c vars).

(** A device's group: the device and the variables that are asked for. *)
Definition deviceGroup : Type := GatewayDeviceConfig * gmap string GatewayVariableConfig.

Definition add_to_group (c : GatewayConfigKV) (groups : gmap string deviceGroup) (deviceID id : string)
    (v : GatewayVariableConfig) : gmap string deviceGroup :=
  match cfDevices c !! deviceID with
  | None => groups
  | Some device =>
      let '(d, vars) := default (device, ∅) (groups !! deviceID) in
      <[deviceID := (d, <[id := v]> vars)]> groups
  end.

Definition synthetic_id (udtID member : string) : string := "__udt__" +:+ udtID +:+ "__" +:+ member.

(** The variable that stands for a member of a UDT in a device's request. *)
Definition synthetic_variable (c : GatewayConfigKV) (device : GatewayDeviceConfig) (udtVar : GatewayUdtVariableConfig)
    (member tag : string) : GatewayVariableConfig :=
  let modbus := String.eqb (dcProtocol device) "modbus" in
  let tm := if modbus then
      tmpl ← cfUdtTemplates c !! ucTemplateName udtVar; find (λ m, String.eqb (tmName m) member) (tcMembers tmpl)
    else None in
  mkVarConfig (synthetic_id (ucID udtVar) member) "" "number" VNil (ucDeviceID udtVar) tag
    (default "" (ucMemberCipTypes udtVar !! member)) false None false false
    (m ← tm; if String.eqb (tmFunctionCode m) "" then None else Some (modbusStringFCToInt (tmFunctionCode m)))
    (match tm with Some m => tmModbusDatatype m | None => "" end)
    (if modbus then default "" (ucMemberByteOrders udtVar !! member) else "")
    (if modbus then ucMemberAddresses udtVar !! member else None).

Definition add_udt_group (c : GatewayConfigKV) (groups : gmap string deviceGroup) (udtVar : GatewayUdtVariableConfig)
    : gmap string deviceGroup :=
  match cfDevices c !! ucDeviceID udtVar with
  | None => groups
  | Some device =>
      let '(d, vars) := default (device, ∅) (groups !! ucDeviceID udtVar) in
      <[ucDeviceID udtVar := (d, fold_left (λ vars mt,
           <[synthetic_id (ucID udtVar) mt.1 := synthetic_variable c device udtVar mt.1 mt.2]> vars)
           (iter (ucMemberTags udtVar)) vars)]> groups
  end.

Definition device_groups (c : GatewayConfigKV) : gmap string deviceGroup :=
  fold_left (λ groups kv, add_udt_group c groups kv.2) (iter (cfUdtVariables c))
    (fold_left (λ groups kv, add_to_group c groups (vcDeviceID kv.2) kv.1 kv.2) (iter (cfVariables c)) ∅).

Definition subscribeToScanners {raw} (gid : string) (c : GatewayConfigKV) : list gwSub * list (effect raw) :=
  fold_left (λ (acc : list gwSub * list (effect raw)) (kv : string * deviceGroup),
    let '(deviceID, (device, vars)) := kv in
    if String.eqb (dcProtocol device) gid then acc
    else let '(ss, es) := subscribeToDevice gid (Some c) deviceID device vars in (acc.1 ++ ss, acc.2 ++ es))
    (iter (device_groups c)) ([], []).

(** One device of [deleteSubscriptionConfigsLocked]: at most once per protocol and device. *)
Definition delete_config {raw} (gid : string) (c : GatewayConfigKV) (acc : gset (string * string) * list (effect raw))
    (deviceID : string) : gset (string * string) * list (effect raw) :=
  let '(seen, es) := acc in
  match cfDevices c !! deviceID with
  | None => acc
  | Some device =>
      let dk := (dcProtocol device, deviceID) in
      if bool_decide (dk ∈ seen) then acc
      else
        let bucket := ScannerBucket (dcProtocol device) in
        ({[dk]} ∪ seen, es ++ if String.eqb bucket "" then [] else [EDelete bucket (config_key gid deviceID)])
  end.

Definition deleteSubscriptionConfigs {raw} (gid : string) (c : GatewayConfigKV) : list (effect raw) :=
  snd (fold_left (delete_config gid c)
    (map (λ kv, vcDeviceID kv.2) (iter (cfVariables c)) ++ map (λ kv, ucDeviceID kv.2) (iter (cfUdtVariables c))) (∅, [])).

(** [unsubscribeDataLocked]: the variables and command subscriptions, the assemblers'
    timers and the scanners' requests. The subscriptions to the scanners are not in it. *)
Definition unsubscribeData {raw} (g : Gateway) : Gateway * list (effect raw) :=
  let g := with_assemblers (with_subs g (subs g) None None) (asm_stop <$> udtAssemblers g) in
  (g, match config g with Some c => deleteSubscriptionConfigs (gatewayID g) c | None => [] end).

Definition ApplyConfig {raw} (c : option GatewayConfigKV) (g : Gateway) : Gateway * list (effect raw) :=
  let '(g, es) := unsubscribeData g in
  match c with
  | None => (with_maps g None ∅ ∅ ∅ ∅, es)
  | Some c =>
      let '(vars, tags) := fold_left (track_variable c) (iter (cfVariables c)) (∅, ∅) in
      let '(asms, members) := fold_left (add_udt (gatewayID g) c) (iter (cfUdtVariables c)) (∅, ∅) in
      let '(ss, es') := subscribeToScanners (gatewayID g) c in
      (with_subs (with_maps g (Some c) vars tags asms members) (subs g ++ ss)
         (subscribe (Topics.Variables (gatewayID g)) HVariables)
         (subscribe (Topics.CommandWildcard (gatewayID g)) HCommands), es ++ es')
  end.

(** [Stop]: also the subscriptions of [Start] and those to the scanners. *)
Definition Stop {raw} (g : Gateway) : Gateway * list (effect raw) :=
  let '(g, es) := unsubscribeData g in
  (with_maps (with_subs g [] None None) None ∅ ∅ ∅ ∅, es).

(** ** Data *)

(** One variable of the first loop of [routeValue]. *)
Definition data_message (gid : string) (tv : TrackedVariable) (v : value) (datatype : string) (nowMs : Z) : PlcDataMessage :=
  mkData gid (vcDeviceID (tvConfig tv)) (vcID (tvConfig tv)) v nowMs
    (if String.eqb datatype "" then vcDatatype (tvConfig tv) else datatype) (vcDescription (tvConfig tv))
    (tvDeadband tv) (tvDisableRBE tv) (vcHistoryEnabled (tvConfig tv)) None None.

Definition data_subject (gid : string) (tv : TrackedVariable) : string :=
  Topics.Data gid (SanitizeForSubject (vcDeviceID (tvConfig tv))) (SanitizeForSubject (vcTag (tvConfig tv))).

Definition set_value (tv : TrackedVariable) (v : value) : TrackedVariable :=
  mkTracked (tvConfig tv) (tvDeadband tv) (tvDisableRBE tv) v (tvRbeState tv).
Definition set_rbe (tv : TrackedVariable) (st : Internal.State) : TrackedVariable :=
  mkTracked (tvConfig tv) (tvDeadband tv) (tvDisableRBE tv) (tvValue tv) st.

(** What a value does to a tracked variable, and the message it sends. *)
Definition route_variable (gid : string) (v : value) (datatype : string) (nowMs : Z) (tv : TrackedVariable)
    : TrackedVariable * option (string * PlcDataMessage) :=
  let tv := set_value tv v in
  if negb (Internal.ShouldPublish (tvRbeState tv) v nowMs (tvDeadband tv) (tvDisableRBE tv)) then (tv, None)
  else
    let msg := data_message gid tv v datatype nowMs in
    if message_ok marshal msg
    then (set_rbe tv (Internal.RecordPublish (tvRbeState tv) v nowMs), Some (data_subject gid tv, msg))
    else (tv, None).

Definition data_effect {raw} (p : string * PlcDataMessage) : effect raw := EData p.1 p.2.

Definition route_one {raw} (gid : string) (v : value) (datatype : string) (nowMs : Z)
    (acc : gmap string TrackedVariable * list (effect raw)) (varID : string)
    : gmap string TrackedVariable * list (effect raw) :=
  let '(vars, es) := acc in
  match vars !! varID with
  | None => acc
  | Some tv =>
      let '(tv, m) := route_variable gid v datatype nowMs tv in
      (<[varID := tv]> vars, es ++ map data_effect (option_list m))
  end.

Definition set_member (nowMs : Z) (v : value) (asms : gmap string UdtAssembler) (r : udtMemberRef) : gmap string UdtAssembler :=
  match asms !! variableID r with
  | Some a => <[variableID r := SetMember nowMs (memberName r) v a]> asms
  | None => asms
  end.

Definition routeValue {raw} (now : Z) (protocol deviceID sanitizedTag : string) (v : value) (datatype : string) (g : Gateway)
    : Gateway * list (effect raw) :=
  let key := tag_key protocol deviceID sanitizedTag in
  let '(vars, es) := fold_left (route_one (gatewayID g) v datatype now) (default [] (tagIndex g !! key)) (variables g, []) in
  let asms := fold_left (set_member now v) (default [] (udtMemberIndex g !! key)) (udtAssemblers g) in
  (with_assemblers (with_variables g vars) asms, es).

(** [handleScannerData] after the JSON has been read; the subject has at least four parts. *)
Definition handleScannerData {raw} (now : Z) (subject : string) (msg : option PlcDataMessage) (protocol deviceID : string)
    (g : Gateway) : Gateway * list (effect raw) :=
  match msg, GoText.split_n ChannelBus.dot 4 subject with
  | Some m, [_; _; _; tag] => routeValue now protocol deviceID tag (dmValue m) (dmDatatype m) g
  | _, _ => (g, [])
  end.

Definition handleScannerBatchData {raw} (now : Z) (batch : option ScannerBatchMessage) (protocol deviceID : string)
    (g : Gateway) : Gateway * list (effect raw) :=
  match batch with
  | None => (g, [])
  | Some b =>
      fold_left (λ acc val,
        let '(g, es) := routeValue now protocol deviceID (SanitizeForSubject (bvVariableID val)) (bvValue val) (bvDatatype val) acc.1 in
        (g, acc.2 ++ es)) (bmValues b) (g, [])
  end.

(** The timer of an assembler. *)
Definition fireAssembler {raw} (now : Z) (varID : string) (g : Gateway) : outcome (Gateway * list (effect raw)) :=
  match udtAssemblers g !! varID with
  | None => Ok (g, [])
  | Some a =>
      '(a, m) ← fire marshal iter now a;
      Ok (with_assemblers g (<[varID := a]> (udtAssemblers g)), map data_effect (option_list m))
  end.

(** ** Replies and commands *)

Definition variable_info (gid : string) (tv : TrackedVariable) : VariableInfo :=
  mkVarInfo gid (vcDeviceID (tvConfig tv)) (vcID (tvConfig tv)) (tvValue tv) (vcDatatype (tvConfig tv))
    (vcDescription (tvConfig tv)) (tvDeadband tv) (tvDisableRBE tv) None.

Definition udt_info (gid : string) (a : UdtAssembler) : VariableInfo :=
  mkVarInfo gid (ucDeviceID (aConfig a)) (ucID (aConfig a)) (asm_value a) "udt" "" None false (Some (udt_definition a)).

Definition variables_reply (g : Gateway) : list VariableInfo :=
  map (λ kv, variable_info (gatewayID g) kv.2) (iter (variables g)) ++
  map (λ kv, udt_info (gatewayID g) kv.2) (iter (udtAssemblers g)).

(** [json.Marshal] of the reply. *)
Definition reply_ok (vars : list VariableInfo) : bool :=
  forallb (λ v, bool_decide (is_Some (marshal (viValue v))) && deadband_ok (viDeadband v)) vars.

Definition handleVariables {raw} (hasReply : bool) (g : Gateway) : list (effect raw) :=
  let vars := variables_reply g in
  if hasReply && reply_ok vars then [EReply vars] else [].

(** The variable a command is for: the first whose sanitized tag it names. *)
Definition command_variable (g : Gateway) (cmdTag : string) : option TrackedVariable :=
  snd <$> find (λ kv, String.eqb (SanitizeForSubject (vcTag (tvConfig kv.2))) cmdTag && vcBidirectional (tvConfig kv.2))
    (iter (variables g)).

Definition command_subject (device : GatewayDeviceConfig) (tag : string) : string :=
  dcProtocol device +:+ ".command." +:+ tag.

(** The dereference of a nil configuration is a panic. *)
Definition handleCommand {raw} (subj : string) (data : raw) (g : Gateway) : outcome (list (effect raw)) :=
  match GoText.split_n ChannelBus.dot 3 subj with
  | [_; _; cmdTag] =>
      match command_variable g cmdTag with
      | Some tv =>
          match config g with
          | None => Panic
          | Some c =>
              Ok (match cfDevices c !! vcDeviceID (tvConfig tv) with
                  | Some device => [ERaw (command_subject device (vcTag (tvConfig tv))) data]
                  | None => []
                  end)
          end
      | None =>
          Ok (match GoText.cut "/" cmdTag, config g with
              | Some (udtID, member), Some c =>
                  match (udtVar ← cfUdtVariables c !! udtID;
                         tag ← ucMemberTags udtVar !! member;
                         device ← cfDevices c !! ucDeviceID udtVar; Some (command_subject device tag)) with
                  | Some subject => [ERaw subject data]
                  | None => []
                  end
              | _, _ => []
              end)
      end
  | _ => Ok []
  end.

(** ** Status *)

Definition serviceType : string := "gateway".

(** The values of [publishStatus]; the order is that of a map. *)
Definition status_values (now : Z) (g : Gateway) : gmap string value :=
  list_to_map
    [("uptime", VInt KInt64 (Z.quot (now - startedAt g) 1000));
     ("variableCount", VInt KInt (Z.of_nat (size (variables g))));
     ("udtVariableCount", VInt KInt (Z.of_nat (size (udtAssemblers g))));
     ("deviceCount", VInt KInt (match config g with Some c => Z.of_nat (size (cfDevices c)) | None => 0 end))].

Definition publishStatus {raw} (now : Z) (g : Gateway) : Gateway * list (effect raw) :=
  fold_left (λ acc kv,
    let '(g, es) := routeValue now serviceType serviceType kv.1 kv.2 "number" acc.1 in (g, acc.2 ++ es))
    (iter (status_values now g)) (g, []).

(** ** Start, and the messages of the bus *)

(** [Start] up to its wait: [stored] is the configuration in the bucket, [Some None] when it
    is not valid JSON. The watch of the configuration delivers the stored one again. *)
Definition Start {raw} (now : Z) (stored : option (option GatewayConfigKV)) (watchError : bool) (g : Gateway)
    : Gateway * list (effect raw) :=
  let g := mkGateway (gatewayID g) (config g) (variables g) (tagIndex g) (udtAssemblers g) (udtMemberIndex g)
    (subs g ++ option_list (subscribe (Topics.StatusBrowse serviceType) HStatusBrowse)) (varSub g) (cmdSub g) now in
  let '(g, es) := match stored with
    | Some (Some c) => ApplyConfig (Some c) g
    | Some None => (g, [])
    | None => (g, [EPutConfig (gatewayID g) (mkConfig (gatewayID g) ∅ ∅ ∅ ∅ now)])
    end in
  let add g l := with_subs g (subs g ++ l) (varSub g) (cmdSub g) in
  let g := add g (if watchError then [] else [mkGwSub "" HConfigWatch]) in
  (add g (option_list (subscribe (Topics.Shutdown (gatewayID g)) HShutdown)), es).

(** The subscriptions that the bus holds for the gateway. *)
Definition live (g : Gateway) : list gwSub := subs g ++ option_list (varSub g) ++ option_list (cmdSub g).

Context {raw : Type} (dec : decoder raw).

(** One subscription's handler on a message. *)
Definition handle (now : Z) (subj : string) (data : raw) (hasReply : bool) (h : gwHandler) (g : Gateway)
    : outcome (Gateway * list (effect raw)) :=
  match h with
  | HData protocol deviceID => Ok (handleScannerData now subj (decode_data dec data) protocol deviceID g)
  | HBatch protocol deviceID => Ok (handleScannerBatchData now (decode_batch dec data) protocol deviceID g)
  | HVariables => Ok (g, handleVariables hasReply g)
  | HCommands => es ← handleCommand subj data g; Ok (g, es)
  | HShutdown => Ok (Stop g)
  | HStatusBrowse | HConfigWatch => Ok (g, [])
  end.

(** A message on the bus: every subscription of the gateway that matches its subject. *)
Definition receivers (subj : string) (g : Gateway) : list gwSub :=
  filter (λ s, ChannelBus.matchSubject (gsSubject s) subj = true) (live g).

Definition sequence {A} (f : A → Gateway → outcome (Gateway * list (effect raw))) (l : list A) (g : Gateway)
    : outcome (Gateway * list (effect raw)) :=
  fold_left (λ acc a, '(g, es) ← acc; '(g, es') ← f a g; Ok (g, es ++ es')) l (Ok (g, [])).

Definition deliver (now : Z) (subj : string) (data : raw) (hasReply : bool) (g : Gateway)
    : outcome (Gateway * list (effect raw)) :=
  sequence (λ s, handle now subj data hasReply (gsHandler s)) (receivers subj g) g.

(** The watch of the configuration: [None] is a deletion. *)
Definition config_changed (value : option raw) (g : Gateway) : Gateway * list (effect raw) :=
  match value with
  | None => ApplyConfig None g
  | Some data => match decode_config dec data with Some c => ApplyConfig (Some c) g | None => (g, []) end
  end.

(** ** Runs *)

Inductive gwOp :=
  | OpStart (now : Z) (stored : option (option GatewayConfigKV)) (watchError : bool)
  | OpMessage (now : Z) (subj : string) (data : raw) (hasReply : bool)
  | OpConfig (value : option raw)
  | OpTimer (now : Z) (varID : string)
  | OpStatus (now : Z)
  | OpStop.

Definition gw_step (op : gwOp) (g : Gateway) : outcome (Gateway * list (effect raw)) :=
  match op with
  | OpStart now stored we => Ok (Start now stored we g)
  | OpMessage now subj data r => deliver now subj data r g
  | OpConfig v => Ok (config_changed v g)
  | OpTimer now varID => fireAssembler now varID g
  | OpStatus now => Ok (publishStatus now g)
  | OpStop => Ok (Stop g)
  end.

Definition gw_run (ops : list gwOp) (g : Gateway) : outcome (Gateway * list (effect raw)) := sequence gw_step ops g.

End Gateway.
