(* ===== verification/GatewayRouting.v ===== *)
(** What the gateway ([Gateway]) does with values and commands: its indices follow its
    configuration, a value goes to exactly the variables that name its tag, what is
    published of a variable is report by exception over what the scanner sent, and from
    there to the Sparkplug host. *)

From S2P Require Export Gateway.
From S2P Require Topics ChannelBus.
Import Topics (SanitizeForSubject).

#[local] Open Scope Z_scope.

(** ** The lists of an index *)

(** The entry of an index. *)
Definition entry {A} (m : gmap string (list A)) (k : string) : list A := default [] (m !! k).

Lemma entry_push {A} (m : gmap string (list A)) k a k' :
  entry (push m k a) k' = if decide (k = k') then entry m k' ++ [a] else entry m k'.
Proof.
  unfold entry, push. case_decide as Hk.
  - subst k'. by rewrite lookup_insert_eq.
  - by rewrite lookup_insert_ne.
Qed.

Lemma entry_empty {A} k : entry (∅ : gmap string (list A)) k = [].
Proof. unfold entry. by rewrite lookup_empty. Qed.

(** ** What a configuration asks for *)

(** The variable [id] of a configuration, with its device. *)
Definition configured (c : GatewayConfigKV) (l : list (string * GatewayVariableConfig)) (id : string)
    (v : GatewayVariableConfig) (d : GatewayDeviceConfig) : Prop :=
  (id, v) ∈ l ∧ cfDevices c !! vcDeviceID v = Some d.

Definition var_key (v : GatewayVariableConfig) (d : GatewayDeviceConfig) : string :=
  tag_key (dcProtocol d) (vcDeviceID v) (SanitizeForSubject (vcTag v)).

Definition initial_variable (v : GatewayVariableConfig) (d : GatewayDeviceConfig) : TrackedVariable :=
  mkTracked v (resolve_deadband (vcDeadband v) d) (resolve_disable (vcDisableRBE v) d) (vcDefault v) Internal.fresh.

Section Routing.
Context `{FloatText}.
Context (marshal : value → option string) (refused : string → bool).
Context (iter : ∀ A : Type, gmap string A → list (string * A)).
Context (iter_perm : ∀ A (m : gmap string A), iter A m ≡ₚ map_to_list m).

Lemma iter_lookup {A} (m : gmap string A) k a : (k, a) ∈ iter A m ↔ m !! k = Some a.
Proof. rewrite iter_perm. apply elem_of_map_to_list. Qed.

Lemma iter_NoDup {A} (m : gmap string A) : NoDup (iter A m).*1.
Proof. rewrite iter_perm. apply NoDup_fst_map_to_list. Qed.

(** The two maps that the first loop of [ApplyConfig] builds from a list of variables. *)
Definition tracked_from (c : GatewayConfigKV) (l : list (string * GatewayVariableConfig))
    (r : gmap string TrackedVariable * gmap string (list string)) : Prop :=
  (∀ id tv, r.1 !! id = Some tv ↔ ∃ v d, configured c l id v d ∧ tv = initial_variable v d) ∧
  (∀ k id, id ∈ entry r.2 k ↔ ∃ v d, configured c l id v d ∧ k = var_key v d) ∧
  (∀ k, NoDup (entry r.2 k)).

Lemma track_fold c l : NoDup l.*1 → tracked_from c l (fold_left (track_variable c) l (∅, ∅)).
Proof.
  induction l as [|[id v] l IH] using rev_ind; intros Hnd.
  { unfold tracked_from. cbn [fold_left fst snd]. split_and!; [| |by intros k; rewrite entry_empty; apply NoDup_nil_2].
    - intros id tv. rewrite lookup_empty. split; [done|]. by intros (? & ? & [?%elem_of_nil _] & _).
    - intros k id. rewrite entry_empty. split; [by intros ?%elem_of_nil|]. by intros (? & ? & [?%elem_of_nil _] & _). }
  rewrite fmap_app in Hnd. apply NoDup_app in Hnd as (Hnd & Hid & _). specialize (IH Hnd).
  assert (∀ v' d', ¬ configured c l id v' d') as Hnew.
  { intros v' d' [Hin _]. apply (Hid id); [|by left]. by apply (list_elem_of_fmap_2 fst l (id, v')). }
  rewrite fold_left_app. destruct (fold_left _ l _) as [vars tags]. destruct IH as (H1 & H2 & H3). cbn [fst snd] in *.
  assert (∀ id' v' d', configured c (l ++ [(id, v)]) id' v' d' ↔
    configured c l id' v' d' ∨ (id' = id ∧ v' = v ∧ cfDevices c !! vcDeviceID v = Some d')) as Hc.
  { intros id' v' d'. unfold configured. rewrite elem_of_app, list_elem_of_singleton. naive_solver. }
  cbn [fold_left track_variable]. destruct (cfDevices c !! vcDeviceID v) as [d|] eqn:Hd.
  2:{ split_and!; [| |done]; [intros id' tv|intros k id'];
      (etrans; [first [apply H1|apply H2]|]); by setoid_rewrite Hc; naive_solver. }
  assert (id ∉ entry tags (var_key v d)) as Hfresh.
  { intros (v' & d' & Hv & _)%H2. by destruct (Hnew v' d'). }
  split_and!; cbn [fst snd].
  - intros id' tv. setoid_rewrite Hc. destruct (decide (id = id')) as [<-|Hne].
    + rewrite lookup_insert_eq. split; [intros [= <-]; naive_solver|]. intros (v' & d' & [Hv|(_ & -> & [= ->])] & ->); [|done].
      by destruct (Hnew v' d').
    + rewrite lookup_insert_ne by done. rewrite H1. naive_solver.
  - intros k id'. setoid_rewrite Hc. rewrite entry_push. fold (var_key v d). case_decide as Hk.
    + subst k. rewrite elem_of_app, list_elem_of_singleton, H2. naive_solver.
    + rewrite H2. naive_solver.
  - intros k. rewrite entry_push. fold (var_key v d). case_decide as Hk; [|apply H3]. subst k.
    apply NoDup_app. split_and!; [apply H3| |apply NoDup_singleton]. intros x Hx ->%list_elem_of_singleton. done.
Qed.

(** ** The structured variables of a configuration *)

Definition udt_configured (c : GatewayConfigKV) (l : list (string * GatewayUdtVariableConfig)) (id : string)
    (u : GatewayUdtVariableConfig) (d : GatewayDeviceConfig) (tmpl : GatewayUdtTemplateConfig) : Prop :=
  (id, u) ∈ l ∧ cfDevices c !! ucDeviceID u = Some d ∧ cfUdtTemplates c !! ucTemplateName u = Some tmpl.

Definition initial_assembler (gid : string) (u : GatewayUdtVariableConfig) (d : GatewayDeviceConfig)
    (tmpl : GatewayUdtTemplateConfig) : UdtAssembler :=
  NewUdtAssembler gid (ucID u) u tmpl (resolve_deadband (ucDeadband u) d) (resolve_disable (ucDisableRBE u) d)
    (member_deadbands d tmpl u).

Definition member_key (u : GatewayUdtVariableConfig) (d : GatewayDeviceConfig) (tag : string) : string :=
  tag_key (dcProtocol d) (ucDeviceID u) (SanitizeForSubject tag).

Lemma push_all {A B} (f : A → string) (g : A → B) (l : list A) : ∀ m k b,
  b ∈ entry (fold_left (λ m a, push m (f a) (g a)) l m) k ↔ b ∈ entry m k ∨ ∃ a, a ∈ l ∧ k = f a ∧ b = g a.
Proof.
  induction l as [|a l IH]; intros m k b; cbn [fold_left].
  { split; [by left|]. intros [?|(? & ?%elem_of_nil & _)]; done. }
  rewrite IH, entry_push. setoid_rewrite elem_of_cons.
  case_decide; [rewrite elem_of_app, list_elem_of_singleton|]; naive_solver.
Qed.

Definition assembled_from (gid : string) (c : GatewayConfigKV) (l : list (string * GatewayUdtVariableConfig))
    (r : gmap string UdtAssembler * gmap string (list udtMemberRef)) : Prop :=
  (∀ id a, r.1 !! id = Some a ↔ ∃ u d tmpl, udt_configured c l id u d tmpl ∧ a = initial_assembler gid u d tmpl) ∧
  (∀ k ref, ref ∈ entry r.2 k ↔ ∃ u d tmpl tag, udt_configured c l (variableID ref) u d tmpl ∧
     ucMemberTags u !! memberName ref = Some tag ∧ k = member_key u d tag).

Lemma udt_fold gid c l : NoDup l.*1 → assembled_from gid c l (fold_left (add_udt iter gid c) l (∅, ∅)).
Proof.
  induction l as [|[id u] l IH] using rev_ind; intros Hnd.
  { unfold assembled_from. cbn [fold_left fst snd]. split; intros k x; rewrite ?lookup_empty, ?entry_empty.
    - split; [done|]. by intros (? & ? & ? & [?%elem_of_nil _] & _).
    - split; [by intros ?%elem_of_nil|]. by intros (? & ? & ? & ? & [?%elem_of_nil _] & _). }
  rewrite fmap_app in Hnd. apply NoDup_app in Hnd as (Hnd & Hid & _). specialize (IH Hnd).
  assert (∀ u' d' t', ¬ udt_configured c l id u' d' t') as Hnew.
  { intros u' d' t' [Hin _]. apply (Hid id); [|by left]. by apply (list_elem_of_fmap_2 fst l (id, u')). }
  rewrite fold_left_app. destruct (fold_left _ l _) as [asms members]. destruct IH as (H1 & H2). cbn [fst snd] in *.
  assert (∀ id' u' d' t', udt_configured c (l ++ [(id, u)]) id' u' d' t' ↔ udt_configured c l id' u' d' t' ∨
    (id' = id ∧ u' = u ∧ cfDevices c !! ucDeviceID u = Some d' ∧ cfUdtTemplates c !! ucTemplateName u = Some t')) as Hc.
  { intros id' u' d' t'. unfold udt_configured. rewrite elem_of_app, list_elem_of_singleton. naive_solver. }
  cbn [fold_left add_udt].
  destruct (cfDevices c !! ucDeviceID u) as [d|] eqn:Hd, (cfUdtTemplates c !! ucTemplateName u) as [tmpl|] eqn:Ht.
  2-4: split; intros; [rewrite H1|rewrite H2]; setoid_rewrite Hc; naive_solver.
  split; cbn [fst snd].
  - intros id' a. setoid_rewrite Hc. destruct (decide (id = id')) as [<-|Hne].
    + rewrite lookup_insert_eq. split; [intros [= <-]; naive_solver|].
      intros (u' & d' & t' & [Hv|(_ & -> & [= ->] & [= ->])] & ->); [by destruct (Hnew u' d' t')|done].
    + rewrite lookup_insert_ne by done. rewrite H1. naive_solver.
  - intros k [id' mn]. setoid_rewrite Hc. rewrite push_all, H2. cbn [variableID memberName]. split.
    + intros [?|([mn' tag] & Hin & -> & [= -> ->])]; [naive_solver|]. apply iter_lookup in Hin. naive_solver.
    + intros (u' & d' & t' & tag & [Hv|(-> & -> & [= <-] & [= <-])] & Htag & ->); [naive_solver|].
      right. exists (mn, tag). split; [by apply iter_lookup|]. done.
Qed.

(** ** The invariant *)

(** The parts of a variable and of an assembler that only a configuration sets. *)
Definition static_var (tv : TrackedVariable) : GatewayVariableConfig * option Types.DeadBandConfig * bool :=
  (tvConfig tv, tvDeadband tv, tvDisableRBE tv).
Definition static_asm (a : UdtAssembler) : GatewayUdtVariableConfig * GatewayUdtTemplateConfig * (string * string)
    * option Types.DeadBandConfig * gmap string Types.DeadBandConfig * bool :=
  (aConfig a, aTemplate a, (aGatewayID a, aVariableID a), aDeadband a, aMemberDeadbands a, aDisableRBE a).

(** The state follows the configuration: the variables with their device are tracked, with
    their deadband and their device's as a default; the index leads from a tag to exactly
    the variables with it, each once; likewise for structured variables and their members. *)
Record follows (gid : string) (c : GatewayConfigKV) (g : Gateway) : Prop := {
  fol_vars id s : (static_var <$> variables g) !! id = Some s ↔
    ∃ v d, cfVariables c !! id = Some v ∧ cfDevices c !! vcDeviceID v = Some d ∧ s = static_var (initial_variable v d);
  fol_index k id : id ∈ entry (tagIndex g) k ↔
    ∃ v d, cfVariables c !! id = Some v ∧ cfDevices c !! vcDeviceID v = Some d ∧ k = var_key v d;
  fol_once k : NoDup (entry (tagIndex g) k);
  fol_udts id s : (static_asm <$> udtAssemblers g) !! id = Some s ↔
    ∃ u d tmpl, cfUdtVariables c !! id = Some u ∧ cfDevices c !! ucDeviceID u = Some d ∧
      cfUdtTemplates c !! ucTemplateName u = Some tmpl ∧ s = static_asm (initial_assembler gid u d tmpl);
  fol_members k ref : ref ∈ entry (udtMemberIndex g) k ↔
    ∃ u d tmpl tag, cfUdtVariables c !! variableID ref = Some u ∧ cfDevices c !! ucDeviceID u = Some d ∧
      cfUdtTemplates c !! ucTemplateName u = Some tmpl ∧ ucMemberTags u !! memberName ref = Some tag ∧ k = member_key u d tag;
}.

Definition empty_config (gid : string) : GatewayConfigKV := mkConfig gid ∅ ∅ ∅ ∅ 0.

Definition gw_inv (g : Gateway) : Prop := follows (gatewayID g) (default (empty_config (gatewayID g)) (config g)) g.

(** Steps that move values only. *)
Definition same_shape (g g' : Gateway) : Prop :=
  gatewayID g' = gatewayID g ∧ config g' = config g ∧ tagIndex g' = tagIndex g ∧ udtMemberIndex g' = udtMemberIndex g ∧
  static_var <$> variables g' = static_var <$> variables g ∧ static_asm <$> udtAssemblers g' = static_asm <$> udtAssemblers g.

#[export] Instance same_shape_preorder : PreOrder same_shape.
Proof.
  split; [by intros g|]. intros g1 g2 g3 (H1 & H2 & H3 & H4 & H5 & H6) (K1 & K2 & K3 & K4 & K5 & K6).
  unfold same_shape. by rewrite K1, K2, K3, K4, K5, K6.
Qed.

Lemma same_shape_inv g g' : same_shape g g' → gw_inv g → gw_inv g'.
Proof.
  intros (H1 & H2 & H3 & H4 & H5 & H6) [K1 K2 K3 K4 K5]. unfold gw_inv. rewrite H1, H2.
  constructor; [rewrite H5|rewrite H3|rewrite H3|rewrite H6|rewrite H4]; done.
Qed.

(** ** Every step keeps it *)

Lemma ApplyConfig_inv {raw} c g : gw_inv (fst (ApplyConfig (raw := raw) refused iter c g)).
Proof.
  unfold gw_inv, ApplyConfig. destruct (unsubscribeData iter g) as [g0 es] eqn:Hu.
  assert (gatewayID g0 = gatewayID g) as Hid by by unfold unsubscribeData in Hu; injection Hu as <- _.
  destruct c as [c|].
  - destruct (fold_left (track_variable c) _ _) as [vars tags] eqn:Hv.
    destruct (fold_left (add_udt iter (gatewayID g0) c) _ _) as [asms members] eqn:Ha.
    destruct (subscribeToScanners refused iter (gatewayID g0) c) as [ss es'].
    cbn [fst gatewayID config with_subs with_maps default].
    pose proof (track_fold c (iter _ (cfVariables c)) (iter_NoDup _)) as (H1 & H2 & H3). rewrite Hv in H1, H2, H3.
    pose proof (udt_fold (gatewayID g0) c (iter _ (cfUdtVariables c)) (iter_NoDup _)) as (H4 & H5). rewrite Ha in H4, H5.
    unfold configured, udt_configured in *. setoid_rewrite iter_lookup in H1. setoid_rewrite iter_lookup in H2.
    setoid_rewrite iter_lookup in H4. setoid_rewrite iter_lookup in H5. cbn [fst snd] in *.
    constructor; cbn [variables tagIndex udtAssemblers udtMemberIndex with_subs with_maps]; [| |exact H3| |].
    + intros id s. rewrite lookup_fmap, fmap_Some. setoid_rewrite H1. naive_solver.
    + intros k id. rewrite H2. naive_solver.
    + intros id s. rewrite lookup_fmap, fmap_Some. setoid_rewrite H4. naive_solver.
    + intros k ref. rewrite H5. naive_solver.
  - cbn [fst gatewayID config with_maps default]. constructor; cbn [variables tagIndex udtAssemblers udtMemberIndex with_maps].
    + intros id s. rewrite fmap_empty, lookup_empty. split; [done|]. by intros (? & ? & ? & _).
    + intros k id. rewrite entry_empty. split; [by intros ?%elem_of_nil|]. by intros (? & ? & ? & _).
    + intros k. rewrite entry_empty. apply NoDup_nil_2.
    + intros id s. rewrite fmap_empty, lookup_empty. split; [done|]. by intros (? & ? & ? & ? & _).
    + intros k ref. rewrite entry_empty. split; [by intros ?%elem_of_nil|]. by intros (? & ? & ? & ? & ? & _).
Qed.

Lemma empty_inv g : config g = None → variables g = ∅ → tagIndex g = ∅ → udtAssemblers g = ∅ → udtMemberIndex g = ∅ → gw_inv g.
Proof.
  intros Hc Hv Ht Ha Hm. pose proof (ApplyConfig_inv (raw := unit) None g) as [K1 K2 K3 K4 K5].
  unfold gw_inv. rewrite Hc. cbn in *. constructor; [rewrite Hv|rewrite Ht|rewrite Ht|rewrite Ha|rewrite Hm]; done.
Qed.

Lemma Stop_inv {raw} g : gw_inv (fst (Stop (raw := raw) iter g)).
Proof. unfold Stop. destruct (unsubscribeData iter g) as [g0 es]. by apply empty_inv. Qed.

(** Routing one variable. *)
Lemma route_variable_static gid v dt now tv : static_var (fst (route_variable marshal gid v dt now tv)) = static_var tv.
Proof. unfold route_variable. by repeat case_if. Qed.

Lemma route_fold_shape {raw} gid v dt now ids : ∀ vars (es : list (effect raw)),
  static_var <$> fst (fold_left (route_one marshal gid v dt now) ids (vars, es)) = static_var <$> vars.
Proof.
  induction ids as [|id ids IH]; intros vars es; [done|]. cbn [fold_left route_one].
  destruct (vars !! id) as [tv|] eqn:Hv; [|apply IH].
  pose proof (route_variable_static gid v dt now tv) as Hs. destruct (route_variable _ _ _ _ _ _) as [tv' m]. cbn [fst] in Hs.
  rewrite IH, fmap_insert, Hs. apply insert_id. by rewrite lookup_fmap, Hv.
Qed.

Lemma SetMember_static now n v a : static_asm (SetMember now n v a) = static_asm a.
Proof. done. Qed.

Lemma member_fold_shape now v refs : ∀ asms,
  static_asm <$> fold_left (set_member now v) refs asms = static_asm <$> asms.
Proof.
  induction refs as [|r refs IH]; intros asms; [done|]. cbn [fold_left]. rewrite IH. unfold set_member.
  destruct (asms !! variableID r) as [a|] eqn:Ha; [|done]. rewrite fmap_insert, SetMember_static. apply insert_id.
  by rewrite lookup_fmap, Ha.
Qed.

Lemma routeValue_shape {raw} now p d tag v dt g : same_shape g (fst (routeValue (raw := raw) marshal now p d tag v dt g)).
Proof.
  unfold routeValue. pose proof (route_fold_shape (raw := raw) (gatewayID g) v dt now (default [] (tagIndex g !! tag_key p d tag)) (variables g) []) as Hv.
  destruct (fold_left _ _ _) as [vars es]. cbn [fst] in *.
  split_and!; try done. cbn [udtAssemblers with_assemblers with_maps]. apply member_fold_shape.
Qed.

Lemma fire_static now a a' m : fire marshal (iter value) now a = Ok (a', m) → static_asm a' = static_asm a.
Proof.
  unfold fire, publish. case_if; [by intros [= <- <-]|].
  destruct (rbe_decision _ _ _ _ _) as [[]| |]; cbn [mbind outcome_bind]; try discriminate; by intros [= <- <-].
Qed.

Lemma fireAssembler_shape {raw} now id g g' es : fireAssembler (raw := raw) marshal iter now id g = Ok (g', es) → same_shape g g'.
Proof.
  unfold fireAssembler. destruct (udtAssemblers g !! id) as [a|] eqn:Ha; [|by intros [= <- <-]].
  destruct (fire _ _ _ _) as [[a' m]| |] eqn:Hf; cbn [mbind outcome_bind]; try discriminate. intros [= <- <-].
  split_and!; try done. cbn [udtAssemblers with_assemblers with_maps]. rewrite fmap_insert, (fire_static _ _ _ _ Hf).
  apply insert_id. by rewrite lookup_fmap, Ha.
Qed.

Lemma batch_shape {raw} now b p d g : same_shape g (fst (handleScannerBatchData (raw := raw) marshal now b p d g)).
Proof.
  destruct b as [b|]; [|reflexivity]. cbn [handleScannerBatchData].
  assert (∀ vals (acc : Gateway * list (effect raw)), same_shape g acc.1 → same_shape g (fold_left (λ acc val,
    let '(g, es) := routeValue marshal now p d (SanitizeForSubject (bvVariableID val)) (bvValue val) (bvDatatype val) acc.1 in
    (g, acc.2 ++ es)) vals acc).1) as Hgen; [|by apply (Hgen (bmValues b) (g, []))].
  induction vals as [|x vals IH]; intros acc Ha; [done|]. cbn [fold_left]. apply IH.
  pose proof (routeValue_shape (raw := raw) now p d (SanitizeForSubject (bvVariableID x)) (bvValue x) (bvDatatype x) acc.1) as Hs.
  destruct (routeValue _ _ _ _ _ _ _ _) as [g1 es1]. cbn [fst] in *. by etrans.
Qed.

Context {raw : Type} (dec : decoder raw).
Notation effects := (list (effect raw)).

(** A property that every element keeps. *)
Lemma sequence_inv {A} (P : Gateway → Prop) (f : A → Gateway → outcome (Gateway * effects)) l :
  (∀ a g g' es, f a g = Ok (g', es) → P g → P g') →
  ∀ g g' es, sequence f l g = Ok (g', es) → P g → P g'.
Proof.
  intros Hf. induction l as [|a l IH] using rev_ind; intros g g' es Hs Hg; [by injection Hs as <- <-|].
  unfold sequence in *. rewrite fold_left_app in Hs. cbn [fold_left] in Hs.
  destruct (fold_left _ l _) as [[g1 es1]| |] eqn:H1; cbn [mbind outcome_bind] in Hs; try discriminate.
  destruct (f a g1) as [[g2 es2]| |] eqn:H2; cbn [mbind outcome_bind] in Hs; try discriminate.
  injection Hs as <- <-. eapply Hf; [exact H2|]. by eapply IH.
Qed.

Lemma add_subs_inv g l v c : gw_inv g → gw_inv (with_subs g l v c).
Proof. intros [K1 K2 K3 K4 K5]. by constructor. Qed.

Lemma handle_inv now subj data r h g g' es :
  handle marshal iter dec now subj data r h g = Ok (g', es) → gw_inv g → gw_inv g'.
Proof.
  destruct h as [p d|p d| | | | |]; cbn [handle].
  - intros He%Ok_inj. unfold handleScannerData in He. destruct (decode_data dec data) as [m|]; [|by injection He as <- <-].
    destruct (GoText.split_n _ _ _) as [|x1 [|x2 [|x3 [|x4 [|]]]]]; try by injection He as <- <-.
    pose proof (routeValue_shape (raw := raw) now p d x4 (dmValue m) (dmDatatype m) g) as Hs. rewrite He in Hs. by apply same_shape_inv.
  - intros He%Ok_inj. pose proof (batch_shape (raw := raw) now (decode_batch dec data) p d g) as Hs. rewrite He in Hs. by apply same_shape_inv.
  - by intros [= <- <-].
  - destruct (handleCommand _ _ _ _) as [e| |]; cbn; try discriminate. by intros [= <- <-].
  - by intros [= <- <-].
  - intros He%Ok_inj _. pose proof (Stop_inv (raw := raw) g) as Hs. by rewrite He in Hs.
  - by intros [= <- <-].
Qed.

Lemma gw_step_inv op g g' es : gw_step marshal refused iter dec op g = Ok (g', es) → gw_inv g → gw_inv g'.
Proof.
  destruct op as [now stored we|now subj data r|v|now id|now|]; cbn [gw_step].
  - intros He%Ok_inj Hg. unfold Start in He.
    set (g0 := mkGateway _ _ _ _ _ _ _ _ _ _) in He.
    assert (gw_inv g0) as Hg0 by by destruct Hg as [K1 K2 K3 K4 K5].
    destruct stored as [[c|]|].
    + pose proof (ApplyConfig_inv (raw := raw) (Some c) g0) as Ha. destruct (ApplyConfig _ _ _ _) as [g1 es1].
      injection He as <- <-. by repeat apply add_subs_inv.
    + injection He as <- <-. by repeat apply add_subs_inv.
    + injection He as <- <-. by repeat apply add_subs_inv.
  - intros Hd Hg. unfold deliver in Hd. eapply (sequence_inv gw_inv); [|exact Hd|exact Hg]. intros s g1 g2 e. apply handle_inv.
  - intros He%Ok_inj Hg. unfold config_changed in He. destruct v as [data|].
    + destruct (decode_config dec data) as [c|]; [|by injection He as <- <-].
      pose proof (ApplyConfig_inv (raw := raw) (Some c) g) as Ha. by rewrite He in Ha.
    + pose proof (ApplyConfig_inv (raw := raw) None g) as Ha. by rewrite He in Ha.
  - intros He. apply same_shape_inv. by eapply fireAssembler_shape.
  - intros He%Ok_inj. apply same_shape_inv. unfold publishStatus in He.
    assert (∀ l (acc : Gateway * effects), same_shape g acc.1 → same_shape g (fold_left (λ acc kv,
      let '(g, es) := routeValue marshal now serviceType serviceType kv.1 kv.2 "number" acc.1 in (g, acc.2 ++ es)) l acc).1) as Hgen.
    { induction l as [|x l IH]; intros acc Ha; [done|]. cbn [fold_left]. apply IH.
      pose proof (routeValue_shape (raw := raw) now serviceType serviceType x.1 x.2 "number" acc.1) as Hs.
      destruct (routeValue _ _ _ _ _ _ _ _) as [g1 es1]. cbn [fst] in *. by etrans. }
    specialize (Hgen (iter value (status_values now g)) (g, [])). rewrite He in Hgen. by apply Hgen.
  - intros He%Ok_inj _. pose proof (Stop_inv (raw := raw) g) as Hs. by rewrite He in Hs.
Qed.

(** Whatever happens to the gateway, its state follows the configuration it has: a
    variable is tracked if and only if its device exists, with its own deadband or its
    device's; a tag of a scanner leads to exactly the variables and the members of
    structured variables that name it, each variable once; and each structured variable has
    an assembler with its template and resolved deadbands. *)
Theorem indices_follow_configuration id ops g es :
  gw_run marshal refused iter dec ops (New id) = Ok (g, es) → gw_inv g.
Proof.
  intros Hr. eapply (sequence_inv gw_inv); [|exact Hr|by apply empty_inv]. intros op g1 g2 e. apply gw_step_inv.
Qed.

(** ** Where a value goes *)

(** What routing sends for one variable. *)
Definition sent_for (gid : string) (v : value) (dt : string) (now : Z) (vars : gmap string TrackedVariable) (id : string) : effects :=
  match vars !! id with
  | Some tv => map data_effect (option_list (snd (route_variable marshal gid v dt now tv)))
  | None => []
  end.

Lemma route_fold gid v dt now ids : NoDup ids → ∀ vars es,
  let r := fold_left (route_one marshal gid v dt now) ids (vars, es) in
  r.2 = es ++ concat (map (sent_for gid v dt now vars) ids) ∧
  ∀ id, r.1 !! id = if decide (id ∈ ids) then (λ tv, fst (route_variable marshal gid v dt now tv)) <$> vars !! id else vars !! id.
Proof.
  induction 1 as [|i ids Hi Hnd IH]; intros vars es r; subst r.
  { cbn. rewrite app_nil_r. split; [done|]. intros id. case_decide as Hin; [by apply elem_of_nil in Hin|done]. }
  cbn [fold_left map concat]. destruct (vars !! i) as [tv|] eqn:Hv; cbn [route_one].
  - rewrite Hv. destruct (route_variable marshal gid v dt now tv) as [tv' m] eqn:Hr.
    destruct (IH (<[i := tv']> vars) (es ++ map data_effect (option_list m))) as [H1 H2]. split.
    + rewrite H1, <- app_assoc. f_equal. unfold sent_for at 2. rewrite Hv, Hr. f_equal. f_equal. apply map_ext_in.
      intros id Hid. unfold sent_for. rewrite lookup_insert_ne; [done|]. intros ->. by apply Hi, list_elem_of_In.
    + intros id. rewrite H2. destruct (decide (i = id)) as [<-|Hne].
      * rewrite decide_False by done. rewrite decide_True by by left. by rewrite lookup_insert_eq, Hv; cbn; rewrite Hr.
      * rewrite lookup_insert_ne by done. destruct (decide (id ∈ ids)).
        -- by rewrite decide_True by by right.
        -- rewrite decide_False; [done|]. by intros [->|]%elem_of_cons.
  - rewrite Hv. destruct (IH vars es) as [H1 H2]. split.
    + rewrite H1. unfold sent_for at 2. by rewrite Hv.
    + intros id. rewrite H2. destruct (decide (id = i)) as [->|Hne].
      * rewrite decide_False by done. rewrite decide_True by by left. by rewrite Hv.
      * destruct (decide (id ∈ ids)); [by rewrite decide_True by by right|].
        rewrite decide_False; [done|]. by intros [->|]%elem_of_cons.
Qed.

(** The variable [id] of the state, with its device. *)
Definition tracked (g : Gateway) (id : string) (tv : TrackedVariable) (d : GatewayDeviceConfig) : Prop :=
  variables g !! id = Some tv ∧
  ∃ c, config g = Some c ∧ cfVariables c !! id = Some (tvConfig tv) ∧ cfDevices c !! vcDeviceID (tvConfig tv) = Some d.

Lemma tracked_key g id tv d k : gw_inv g → tracked g id tv d → id ∈ entry (tagIndex g) k ↔ k = var_key (tvConfig tv) d.
Proof.
  clear refused iter_perm iter marshal dec. intros [_ Hk _ _ _] (_ & c & Hc & Hv & Hd). rewrite Hc in Hk. cbn [default] in Hk. rewrite Hk.
  split; [|naive_solver]. intros (v & d' & Hv' & Hd' & ->). naive_solver.
Qed.

Lemma tracked_exists g id tv : gw_inv g → variables g !! id = Some tv → ∃ d, tracked g id tv d.
Proof.
  intros [Hv _ _ _ _] Hid. destruct (Hv id (static_var tv)) as [(v & d & H1 & H2 & H3) _]; [by rewrite lookup_fmap, Hid|].
  unfold static_var, initial_variable in H3. injection H3 as H4 _ _. cbn in H4. subst v. exists d. split; [done|].
  destruct (config g) as [c|]; [by exists c|]. cbn in H1. by rewrite lookup_empty in H1.
Qed.

(** A value reaches a variable if and only if it comes under the variable's key. *)
Lemma routed_variable now p dev tag v dt g id tv d : gw_inv g → tracked g id tv d →
  variables (fst (routeValue (raw := raw) marshal now p dev tag v dt g)) !! id =
  Some (if decide (tag_key p dev tag = var_key (tvConfig tv) d)
        then fst (route_variable marshal (gatewayID g) v dt now tv) else tv).
Proof.
  intros Hi Ht. unfold routeValue. fold (entry (tagIndex g) (tag_key p dev tag)).
  pose proof (route_fold (gatewayID g) v dt now (entry (tagIndex g) (tag_key p dev tag)) (fol_once _ _ _ Hi _) (variables g) []) as [_ Hr].
  destruct (fold_left _ _ _) as [vars es]. cbn [fst snd variables with_assemblers with_variables with_maps] in *.
  rewrite Hr, (proj1 Ht). pose proof (tracked_key g id tv d (tag_key p dev tag) Hi Ht) as Hk.
  repeat case_decide; naive_solver.
Qed.

(** ** Report by exception *)

(** A value that a scanner sent: its time, protocol, device, sanitized tag, value and
    datatype. *)
Record scanned := mkScanned { scTime : Z; scProtocol : string; scDevice : string; scTag : string; scValue : value; scDatatype : string }.

Definition route_scanned (r : scanned) (g : Gateway) : Gateway * effects :=
  routeValue marshal (scTime r) (scProtocol r) (scDevice r) (scTag r) (scValue r) (scDatatype r) g.

Fixpoint route_all (l : list scanned) (g : Gateway) : Gateway * effects :=
  match l with
  | [] => (g, [])
  | r :: l => let '(g, es) := route_scanned r g in let '(g, es') := route_all l g in (g, es ++ es')
  end.

(** The values that came under a key, with their times. *)
Definition values_under (k : string) (l : list scanned) : list (value * Z) :=
  omap (λ r, if decide (tag_key (scProtocol r) (scDevice r) (scTag r) = k) then Some (scValue r, scTime r) else None) l.

(** The publications of a variable: value and time of the messages with its device and name. *)
Definition publications (tv : TrackedVariable) (es : effects) : list (value * Z) :=
  omap (λ e, match e with
    | EData _ m => if decide (dmDeviceID m = vcDeviceID (tvConfig tv) ∧ dmVariableID m = vcID (tvConfig tv))
                   then Some (dmValue m, dmTimestamp m) else None
    | _ => None end) es.

(** No other variable has the name of [id] on the same device. *)
Definition unique_name (g : Gateway) (id : string) (tv : TrackedVariable) : Prop :=
  ∀ id' tv', variables g !! id' = Some tv' → vcDeviceID (tvConfig tv') = vcDeviceID (tvConfig tv) →
    vcID (tvConfig tv') = vcID (tvConfig tv) → id' = id.

Lemma publications_app tv es es' : publications tv (es ++ es') = publications tv es ++ publications tv es'.
Proof. apply omap_app. Qed.

Lemma publications_static tv tv' es : tvConfig tv = tvConfig tv' → publications tv es = publications tv' es.
Proof. unfold publications. by intros ->. Qed.

(** What routing a value does to one variable is the step of [Rbe.Internal]. *)
Lemma route_variable_observe gid v dt now tv : is_Some (marshal v) → deadband_ok (tvDeadband tv) = true →
  let r := route_variable marshal gid v dt now tv in
  let o := Internal.observe (tvDeadband tv) (tvDisableRBE tv) (tvRbeState tv) (v, now) in
  tvRbeState r.1 = o.2 ∧ tvConfig r.1 = tvConfig tv ∧ tvDeadband r.1 = tvDeadband tv ∧ tvDisableRBE r.1 = tvDisableRBE tv ∧
  publications tv (map data_effect (option_list r.2)) = if o.1 then [(v, now)] else [].
Proof.
  intros Hm Hd. unfold route_variable, Internal.observe. cbn [tvRbeState tvDeadband tvDisableRBE set_value fst snd].
  destruct (Internal.ShouldPublish _ _ _ _ _) eqn:Hs; cbn [negb]; [|done].
  assert (message_ok marshal (data_message gid (set_value tv v) v dt now) = true) as ->.
  { unfold message_ok, data_message. cbn [dmValue dmDeadband dmMemberDeadbands tvDeadband set_value default].
    rewrite bool_decide_eq_true_2, Hd, map_to_list_empty by done. done. }
  split_and!; [done..|]. cbn. by rewrite decide_True.
Qed.

Lemma other_publications g id tv gid v dt now id' : unique_name g id tv → id' ≠ id →
  publications tv (sent_for gid v dt now (variables g) id') = [].
Proof.
  intros Hu Hne. unfold sent_for. destruct (variables g !! id') as [tv'|] eqn:Hv; [|done].
  unfold route_variable. repeat case_if; [done| |done]. cbn.
  rewrite decide_False; [done|]. intros [H1 H2]. by apply Hne, (Hu _ _ Hv).
Qed.

Lemma concat_publications g id tv gid v dt now ids : unique_name g id tv → NoDup ids → variables g !! id = Some tv →
  publications tv (concat (map (sent_for gid v dt now (variables g)) ids)) =
  if decide (id ∈ ids) then publications tv (sent_for gid v dt now (variables g) id) else [].
Proof.
  clear refused iter_perm iter dec. intros Hu Hnd Hid. induction Hnd as [|i ids Hi Hnd IH]; [by rewrite decide_False by apply not_elem_of_nil|].
  cbn [map concat]. rewrite publications_app, IH. destruct (decide (i = id)) as [->|Hne].
  - rewrite decide_False by done. rewrite decide_True by by left. by rewrite app_nil_r.
  - rewrite (other_publications g id tv) by done. cbn [app]. repeat case_decide; set_solver.
Qed.

Lemma static_lookup g g' id tv : static_var <$> variables g' = static_var <$> variables g → variables g' !! id = Some tv →
  ∃ tv0, variables g !! id = Some tv0 ∧ static_var tv0 = static_var tv.
Proof.
  intros He Hv. assert ((static_var <$> variables g) !! id = Some (static_var tv)) as Hl by by rewrite <- He, lookup_fmap, Hv.
  rewrite lookup_fmap, fmap_Some in Hl. destruct Hl as (tv0 & Hv0 & Hst). by exists tv0.
Qed.

Lemma values_under_cons k r l : values_under k (r :: l) =
  (if decide (tag_key (scProtocol r) (scDevice r) (scTag r) = k) then [(scValue r, scTime r)] else []) ++ values_under k l.
Proof. unfold values_under. cbn. by destruct (decide _). Qed.

(** C27: What the gateway publishes of a variable is report by exception applied to the values
    that the scanner sent under the variable's tag, whatever else is routed in between: the
    same values at the same times, and the same tracking state afterwards. *)
Theorem publications_by_exception l : ∀ g id tv d, gw_inv g → tracked g id tv d → unique_name g id tv →
  deadband_ok (tvDeadband tv) = true → Forall (λ r, is_Some (marshal (scValue r))) l →
  let run := Internal.run (tvDeadband tv) (tvDisableRBE tv) (tvRbeState tv) (values_under (var_key (tvConfig tv) d) l) in
  publications tv (snd (route_all l g)) = fst run ∧
  ∃ tv', variables (fst (route_all l g)) !! id = Some tv' ∧ tvRbeState tv' = snd run.
Proof.
  induction l as [|r l IH]; intros g id tv d Hi Ht Hu Hd Hm run; subst run.
  { split; [done|]. exists tv. split; [apply Ht|done]. }
  inversion_clear Hm as [|? ? Hr Hl]. cbn [route_all].
  pose proof (routeValue_shape (raw := raw) (scTime r) (scProtocol r) (scDevice r) (scTag r) (scValue r) (scDatatype r) g) as Hsh.
  pose proof (routed_variable (scTime r) (scProtocol r) (scDevice r) (scTag r) (scValue r) (scDatatype r) g id tv d Hi Ht) as Hv.
  assert (publications tv (snd (route_scanned r g)) =
    if decide (id ∈ entry (tagIndex g) (tag_key (scProtocol r) (scDevice r) (scTag r)))
    then publications tv (sent_for (gatewayID g) (scValue r) (scDatatype r) (scTime r) (variables g) id) else []) as Hp.
  { unfold route_scanned, routeValue. fold (entry (tagIndex g) (tag_key (scProtocol r) (scDevice r) (scTag r))).
    pose proof (route_fold (gatewayID g) (scValue r) (scDatatype r) (scTime r) _ (fol_once _ _ _ Hi (tag_key (scProtocol r) (scDevice r) (scTag r)))
      (variables g) []) as [Hf _].
    destruct (fold_left _ _ _) as [vars es]. cbn [fst snd] in *. rewrite Hf. cbn [app].
    apply concat_publications; [done|apply (fol_once _ _ _ Hi)|apply Ht]. }
  unfold route_scanned in *. destruct (routeValue _ _ _ _ _ _ _ _) as [g1 es1]. cbn [fst snd] in *.
  pose proof (tracked_key g id tv d (tag_key (scProtocol r) (scDevice r) (scTag r)) Hi Ht) as Hk.
  pose proof (route_variable_observe (gatewayID g) (scValue r) (scDatatype r) (scTime r) tv Hr Hd) as (Ho1 & Ho2 & Ho3 & Ho4 & Ho5).
  set (tv1 := if decide _ then _ else tv) in Hv.
  assert (tvConfig tv1 = tvConfig tv ∧ tvDeadband tv1 = tvDeadband tv ∧ tvDisableRBE tv1 = tvDisableRBE tv) as (Hc1 & Hd1 & Hb1)
    by (unfold tv1; destruct (decide _); split_and!; done).
  assert (tracked g1 id tv1 d) as Ht1.
  { split; [done|]. destruct Ht as (_ & c & Hc & Hcv & Hcd). exists c. rewrite Hc1.
    destruct Hsh as (_ & -> & _). done. }
  assert (unique_name g1 id tv1) as Hu1.
  { intros id' tv' Hid'. rewrite Hc1. destruct Hsh as (_ & _ & _ & _ & Hsv & _).
    destruct (static_lookup _ _ _ _ Hsv Hid') as (tv0 & Hv0 & Hst). injection Hst as Hst _ _. rewrite <- Hst. by apply Hu. }
  destruct (IH g1 id tv1 d) as [IH1 IH2]; [by eapply same_shape_inv|done|done|by rewrite Hd1|done|].
  destruct (route_all l g1) as [g2 es2]. cbn [fst snd] in *. rewrite Hc1, Hd1, Hb1 in *.
  rewrite publications_app, (publications_static tv tv1 es2), IH1, Hp by done.
  rewrite values_under_cons. unfold tv1 in *. destruct (decide (tag_key _ _ _ = _)) as [Heq|Hne].
  - rewrite decide_True by by apply Hk. unfold sent_for. rewrite (proj1 Ht), Ho5. cbn [app Internal.run].
    rewrite Ho1 in *. destruct (Internal.observe _ _ _ _) as [b st]. cbn [fst snd] in *.
    destruct (Internal.run _ _ st _) as [ps st']. cbn [fst snd] in *. split; [by destruct b|done].
  - rewrite decide_False by by intros ?%Hk. done.
Qed.

End Routing.
