(* ===== verification/GatewayScanners.v ===== *)
(** The gateway and the scanners: which devices a configuration asks data of, the
    subscriptions it leaves on the bus, and the requests it keeps in the scanners'
    buckets. *)

From S2P Require Export Gateway GatewayRouting.
From S2P Require Import Topics ChannelBus.
From S2P Require Import Gateway.

#[local] Open Scope Z_scope.

Section Scanners.
Context `{FloatText}.
Context (marshal : value → option string) (refused : string → bool).
Context (iter : ∀ A : Type, gmap string A → list (string * A)).
Context (iter_perm : ∀ A (m : gmap string A), iter A m ≡ₚ map_to_list m).

(** ** Groups *)

(** A step of the grouping: the group of [dev], if the device exists, gets variables. *)
Definition touches (c : GatewayConfigKV) (dev : string) (groups groups' : gmap string deviceGroup) : Prop :=
  match cfDevices c !! dev with
  | None => groups' = groups
  | Some d => ∃ vars, groups' = <[dev := (match groups !! dev with Some grp => grp.1 | None => d end, vars)]> groups
  end.

(** The groups of the devices in [l] that exist. *)
Definition groups_of (c : GatewayConfigKV) (l : list string) (groups : gmap string deviceGroup) : Prop :=
  (∀ dev grp, groups !! dev = Some grp → cfDevices c !! dev = Some grp.1) ∧
  (∀ dev, is_Some (groups !! dev) ↔ is_Some (cfDevices c !! dev) ∧ dev ∈ l).

Lemma touches_groups c dev l groups groups' : touches c dev groups groups' → groups_of c l groups → groups_of c (l ++ [dev]) groups'.
Proof.
  unfold touches. intros Ht [H1 H2]. destruct (cfDevices c !! dev) as [d|] eqn:Hd.
  - destruct Ht as [vars ->]. split.
    + intros dev' grp. destruct (decide (dev = dev')) as [<-|Hne].
      * rewrite lookup_insert_eq. intros [= <-]. cbn. destruct (groups !! dev) as [grp'|] eqn:Hg; [by apply H1|done].
      * rewrite lookup_insert_ne by done. apply H1.
    + intros dev'. rewrite elem_of_app, list_elem_of_singleton. destruct (decide (dev = dev')) as [<-|Hne].
      * rewrite lookup_insert_eq, Hd. split; [intros _; split; [done|by right]|by eexists].
      * rewrite lookup_insert_ne, H2 by done. naive_solver.
  - subst groups'. split; [done|]. intros dev'. rewrite H2, elem_of_app, list_elem_of_singleton. split; [naive_solver|].
    intros [[d' Hd'] [?| ->]]; [by split|congruence].
Qed.

Lemma touch_fold {A} (f : gmap string deviceGroup → A → gmap string deviceGroup) (dev : A → string) c l :
  (∀ groups a, touches c (dev a) groups (f groups a)) →
  ∀ l0 groups, groups_of c l0 groups → groups_of c (l0 ++ map dev l) (fold_left f l groups).
Proof.
  intros Hf. induction l as [|a l IH]; intros l0 groups Hg; [by rewrite app_nil_r|]. cbn [map fold_left].
  replace (l0 ++ dev a :: map dev l) with ((l0 ++ [dev a]) ++ map dev l) by by rewrite <- app_assoc.
  apply IH. by eapply touches_groups.
Qed.

(** The devices that a configuration uses. *)
Definition used_devices (c : GatewayConfigKV) : list string :=
  map (λ kv, vcDeviceID kv.2) (iter _ (cfVariables c)) ++ map (λ kv, ucDeviceID kv.2) (iter _ (cfUdtVariables c)).

Lemma device_groups_of c : groups_of c (used_devices c) (device_groups iter c).
Proof.
  unfold device_groups, used_devices. apply touch_fold.
  - intros groups [id u]. unfold touches, add_udt_group. cbn [snd].
    destruct (cfDevices c !! ucDeviceID u) as [d|]; [|done].
    destruct (groups !! ucDeviceID u) as [[d' vars]|]; cbn [default]; by eexists.
  - rewrite <- (app_nil_l (map _ _)). apply touch_fold.
    + intros groups [id v]. unfold touches, add_to_group. cbn [fst snd].
      destruct (cfDevices c !! vcDeviceID v) as [d|]; [|done].
      destruct (groups !! vcDeviceID v) as [[d' vars]|]; cbn [default]; by eexists.
    + split; [by intros dev grp; rewrite lookup_empty|]. intros dev. rewrite lookup_empty. split; [by intros []|].
      by intros [_ ?%elem_of_nil].
Qed.

Lemma group_device c dev grp : device_groups iter c !! dev = Some grp → cfDevices c !! dev = Some grp.1.
Proof. apply device_groups_of. Qed.

Lemma group_exists c id v d : cfVariables c !! id = Some v → cfDevices c !! vcDeviceID v = Some d →
  is_Some (device_groups iter c !! vcDeviceID v).
Proof.
  intros Hv Hd. apply device_groups_of. split; [by eexists|]. unfold used_devices. apply elem_of_app. left.
  apply list_elem_of_In, in_map_iff. exists (id, v). split; [done|]. apply list_elem_of_In. by apply iter_lookup.
Qed.

(** ** Subscriptions to the scanners *)

(** The two subscriptions of a group. *)
Definition group_subs (gid : string) (kv : string * deviceGroup) : list gwSub :=
  if String.eqb (dcProtocol kv.2.1) gid then []
  else option_list (subscribe refused (gatewaySubject (dcProtocol kv.2.1) kv.1) (HData (dcProtocol kv.2.1) kv.1)) ++
       option_list (subscribe refused (gatewayBatchSubject (dcProtocol kv.2.1) kv.1) (HBatch (dcProtocol kv.2.1) kv.1)).

(** The requests of a group. *)
Definition group_requests {raw} (gid : string) (c : GatewayConfigKV) (kv : string * deviceGroup) : list (effect raw) :=
  if String.eqb (dcProtocol kv.2.1) gid then []
  else writeSubscriptionConfig iter gid kv.1 kv.2.1 (Some c) kv.2.2.

Lemma subscribeToScanners_eq {raw} gid c : subscribeToScanners (raw := raw) refused iter gid c =
  (concat (map (group_subs gid) (iter _ (device_groups iter c))), concat (map (group_requests gid c) (iter _ (device_groups iter c)))).
Proof.
  unfold subscribeToScanners. generalize (iter _ (device_groups iter c)) as l. intros l.
  set (f := λ (acc : list gwSub * list (effect raw)) (kv : string * deviceGroup),
    let '(deviceID, (device, vars)) := kv in
    if String.eqb (dcProtocol device) gid then acc
    else let '(ss, es) := subscribeToDevice refused iter gid (Some c) deviceID device vars in (acc.1 ++ ss, acc.2 ++ es)).
  assert (∀ acc kv, f acc kv = (acc.1 ++ group_subs gid kv, acc.2 ++ group_requests gid c kv)) as Hf.
  { intros [ss es] [dev [d vars]]. unfold f, group_subs, group_requests. cbn [fst snd].
    destruct (String.eqb (dcProtocol d) gid); [by rewrite !app_nil_r|done]. }
  assert (∀ acc, fold_left f l acc = (acc.1 ++ concat (map (group_subs gid) l), acc.2 ++ concat (map (group_requests gid c) l))) as Hgen.
  { induction l as [|kv l IH]; intros [ss es]; cbn [fold_left map concat]; [cbn; by rewrite !app_nil_r|].
    rewrite IH, Hf. cbn [fst snd]. by rewrite <- !app_assoc. }
  by rewrite Hgen.
Qed.

(** What the configuration subscribes to. *)
Definition scanner_subs (gid : string) (c : GatewayConfigKV) : list gwSub :=
  concat (map (group_subs gid) (iter _ (device_groups iter c))).

(** Applying a configuration adds its subscriptions to those of the one before. *)
Lemma ApplyConfig_subs {raw} c g : let g' := fst (ApplyConfig (raw := raw) refused iter (Some c) g) in
  subs g' = subs g ++ scanner_subs (gatewayID g) c ∧ gatewayID g' = gatewayID g ∧ config g' = Some c ∧
  varSub g' = subscribe refused (Topics.Variables (gatewayID g)) HVariables ∧
  cmdSub g' = subscribe refused (CommandWildcard (gatewayID g)) HCommands.
Proof.
  unfold ApplyConfig, unsubscribeData. cbn [gatewayID with_subs with_assemblers with_maps].
  destruct (fold_left (track_variable c) _ _), (fold_left (add_udt _ _ c) _ _).
  rewrite subscribeToScanners_eq. done.
Qed.

(** ** Which subscriptions a scanner's message reaches *)

Lemma split_subject a b : one_token a → one_token b → GoText.split dot (a +:+ "." +:+ b) = [a; b].
Proof. intros. by rewrite split_dot, !split_token. Qed.

Lemma split_gateway p d : one_token p →
  GoText.split dot (gatewaySubject p d) = [p; "data"; SanitizeForSubject d; ">"] ∧
  GoText.split dot (gatewayBatchSubject p d) = [p; "data"; SanitizeForSubject d].
Proof.
  intros Hp. unfold gatewaySubject, gatewayBatchSubject.
  change (p +:+ ".data." +:+ SanitizeForSubject d +:+ ".>") with (p +:+ "." +:+ ("data" +:+ "." +:+ (SanitizeForSubject d +:+ "." +:+ ">"))).
  change (p +:+ ".data." +:+ SanitizeForSubject d) with (p +:+ "." +:+ ("data" +:+ "." +:+ SanitizeForSubject d)).
  rewrite !split_dot, (split_token p), (split_token (SanitizeForSubject d)) by (done || apply sanitize_token). done.
Qed.

Lemma data_plain : plain_token "data".
Proof. by apply (bool_decide_unpack _). Qed.

(** The subject of a scanner's tag. *)
Definition scanner_subject (p dev tag : string) : string := Data p (SanitizeForSubject dev) (SanitizeForSubject tag).

Lemma split_scanner p dev tag : one_token p →
  GoText.split dot (scanner_subject p dev tag) = [p; "data"; SanitizeForSubject dev; SanitizeForSubject tag].
Proof. intros Hp. unfold scanner_subject. rewrite split_data, !split_token by (done || apply sanitize_token). done. Qed.

Lemma gateway_matches p d p' dev tag : plain_token p → one_token p' →
  matchSubject (gatewaySubject p d) (scanner_subject p' dev tag) = bool_decide (p = p' ∧ SanitizeForSubject d = SanitizeForSubject dev) ∧
  matchSubject (gatewayBatchSubject p d) (scanner_subject p' dev tag) = false.
Proof.
  intros Hp Hp'. unfold matchSubject. destruct (split_gateway p d (proj1 Hp)) as [-> ->]. rewrite split_scanner by done.
  rewrite !(match_plain p), !(match_plain "data"), !(match_plain (SanitizeForSubject d)) by (done || apply data_plain || apply sanitize_plain).
  rewrite !(bool_decide_eq_true_2 ("data" = "data")) by done. cbn [match_tokens andb]. split.
  - rewrite andb_true_r. by rewrite <- bool_decide_and.
  - by rewrite !andb_false_r.
Qed.

(** The gateway's other subscriptions do not match it. *)
Lemma others_match gid p dev tag : plain_token gid → one_token p →
  matchSubject (Topics.Variables gid) (scanner_subject p dev tag) = false ∧
  matchSubject (CommandWildcard gid) (scanner_subject p dev tag) = false ∧
  matchSubject (Topics.Shutdown gid) (scanner_subject p dev tag) = false ∧
  matchSubject (StatusBrowse serviceType) (scanner_subject p dev tag) = false ∧
  matchSubject "" (scanner_subject p dev tag) = false.
Proof.
  intros Hg Hp. unfold matchSubject. rewrite split_scanner by done.
  assert (∀ x, plain_token x → x ≠ "data" → GoText.split dot (gid +:+ "." +:+ x) = [gid; x]) as Hs
    by (intros x Hx _; apply split_subject; [apply Hg|apply Hx]).
  replace (GoText.split dot (Topics.Variables gid)) with [gid; "variables"]
    by (symmetry; apply Hs; [by apply (bool_decide_unpack _)|done]).
  replace (GoText.split dot (Topics.Shutdown gid)) with [gid; "shutdown"]
    by (symmetry; apply Hs; [by apply (bool_decide_unpack _)|done]).
  assert (GoText.split dot (CommandWildcard gid) = [gid; "command"; ">"]) as ->.
  { unfold CommandWildcard. change (gid +:+ ".command.>") with (gid +:+ "." +:+ ("command" +:+ "." +:+ ">")).
    by rewrite !split_dot, (split_token gid) by apply Hg. }
  rewrite !(match_plain gid) by done.
  change (GoText.split dot (StatusBrowse serviceType)) with ["gateway"; "status"; "browse"].
  split_and!; [by rewrite andb_false_r..| |].
  - cbn -[bool_decide String.eqb]. by destruct (String.eqb_spec "gateway" p).
  - change (GoText.split dot "") with [""]. cbn -[String.eqb]. by destruct (String.eqb_spec "" p).
Qed.

(** ** Configurations applied again *)

Lemma filter_concat {A} (P : A → Prop) `{∀ x, Decision (P x)} (ls : list (list A)) :
  filter P (concat ls) = concat (map (filter P) ls).
Proof. induction ls as [|l ls IH]; [done|]. cbn [concat map]. by rewrite filter_app, IH. Qed.

Lemma concat_single {A B} (f : A → list B) x l : NoDup l → x ∈ l → (∀ y, y ∈ l → y ≠ x → f y = []) → concat (map f l) = f x.
Proof.
  induction 1 as [|y l Hy Hnd IH]; intros Hx Hf; [by apply elem_of_nil in Hx|]. cbn [map concat].
  apply elem_of_cons in Hx as [<-|Hx].
  - replace (concat (map f l)) with ([] : list B); [by rewrite app_nil_r|]. symmetry. apply concat_nil_Forall.
    apply Forall_forall. intros b (z & <- & Hz)%list_elem_of_In%in_map_iff. apply list_elem_of_In in Hz.
    apply Hf; [by right|]. by intros ->.
  - rewrite (Hf y), IH; [done|done| |by left|by intros ->]. intros z Hz. apply Hf. by right.
Qed.

(** The subscription matches the subject. *)
Definition hears (subj : string) (s : gwSub) : Prop := matchSubject (gsSubject s) subj = true.
#[export] Instance hears_dec subj s : Decision (hears subj s).
Proof. unfold hears. apply _. Defined.

(** The assumptions about one device of a configuration: protocols are plain tokens, the
    device's is not the gateway's name, and no other device of the protocol has its name up
    to sanitizing. *)
Definition plain_device (gid : string) (c : GatewayConfigKV) (dev : string) (d : GatewayDeviceConfig) : Prop :=
  plain_token gid ∧ dcProtocol d ≠ gid ∧ map_Forall (λ _ d', plain_token (dcProtocol d')) (cfDevices c) ∧
  cfDevices c !! dev = Some d ∧
  ∀ dev' d', cfDevices c !! dev' = Some d' → dcProtocol d' = dcProtocol d →
    SanitizeForSubject dev' = SanitizeForSubject dev → dev' = dev.

Lemma scanner_subs_hear gid c dev d tag : (∀ s, refused s = false) → plain_device gid c dev d →
  is_Some (device_groups iter c !! dev) →
  filter (hears (scanner_subject (dcProtocol d) dev tag)) (scanner_subs gid c) =
    [mkGwSub (gatewaySubject (dcProtocol d) dev) (HData (dcProtocol d) dev)].
Proof.
  intros Href (Hgid & Hp & Hplain & Hd & Hu) [grp Hg]. pose proof (group_device c dev grp Hg) as Hgd.
  assert (dcProtocol grp.1 = dcProtocol d) as Hpd by congruence.
  assert (∀ kv, kv ∈ iter _ (device_groups iter c) →
    filter (hears (scanner_subject (dcProtocol d) dev tag)) (group_subs gid kv) =
    if decide (kv.1 = dev ∧ dcProtocol kv.2.1 ≠ gid) then [mkGwSub (gatewaySubject (dcProtocol d) dev) (HData (dcProtocol d) dev)] else []) as Hf.
  { intros [dev' grp'] Hin%(iter_lookup iter iter_perm). pose proof (group_device c dev' grp' Hin) as Hd'.
    cbn [fst snd]. unfold group_subs. cbn [fst snd]. destruct (String.eqb_spec (dcProtocol grp'.1) gid) as [He|Hne].
    { rewrite decide_False by by intros []. done. }
    unfold subscribe. rewrite !Href.
    match goal with |- context [option_list (Some ?a) ++ option_list (Some ?b)] =>
      change (option_list (Some a) ++ option_list (Some b)) with [a; b] end.
    destruct (gateway_matches (dcProtocol grp'.1) dev' (dcProtocol d) dev tag) as [Hm1 Hm2];
      [by apply (Hplain dev')|by apply (Hplain dev)|].
    assert (∀ s, filter (hears (scanner_subject (dcProtocol d) dev tag)) [s; mkGwSub (gatewayBatchSubject (dcProtocol grp'.1) dev')
        (HBatch (dcProtocol grp'.1) dev')] = filter (hears (scanner_subject (dcProtocol d) dev tag)) [s]) as ->.
    { intros s. change [s; ?b] with ([s] ++ [b]). rewrite filter_app, (filter_cons_False _ (mkGwSub (gatewayBatchSubject _ _) _)); [by rewrite app_nil_r|].
      unfold hears. cbn [gsSubject]. by rewrite Hm2. }
    destruct (decide (dev' = dev)) as [->|Hdev].
    - assert (grp' = grp) as -> by congruence. rewrite Hpd in *. rewrite (decide_True (P := _ ∧ _)) by done.
      rewrite filter_cons_True; [done|]. unfold hears. cbn [gsSubject]. rewrite Hm1. by apply bool_decide_eq_true_2.
    - rewrite (decide_False (P := _ ∧ _)) by by intros []. rewrite filter_cons_False; [done|]. unfold hears. cbn [gsSubject].
      rewrite Hm1. intros [Hpp Hss]%bool_decide_eq_true. by apply Hdev, (Hu dev' grp'.1). }
  unfold scanner_subs. rewrite filter_concat, map_map.
  rewrite (concat_single _ (dev, grp)).
  - rewrite Hf by by apply (iter_lookup iter iter_perm). cbn [fst snd]. rewrite decide_True; [done|]. by rewrite Hpd.
  - apply (NoDup_fmap_1 fst), (iter_NoDup iter iter_perm).
  - by apply (iter_lookup iter iter_perm).
  - intros [dev' grp'] Hin Hne. rewrite Hf by done. cbn [fst snd]. rewrite decide_False; [done|]. intros [-> _].
    apply (iter_lookup iter iter_perm) in Hin. congruence.
Qed.

Context {raw : Type} (dec : decoder raw).
Notation effects := (list (effect raw)).

Lemma sequence_cons {A} (f : A → Gateway → outcome (Gateway * effects)) a l g :
  sequence f (a :: l) g = ('(g1, es1) ← f a g; '(g2, es2) ← sequence f l g1; Ok (g2, es1 ++ es2)).
Proof.
  assert (∀ l (acc : outcome (Gateway * effects)), fold_left (λ acc a, '(g, es) ← acc; '(g, es') ← f a g; Ok (g, es ++ es')) l acc =
    ('(g, es) ← acc; '(g, es') ← sequence f l g; Ok (g, es ++ es'))) as Hgen.
  { intros l0. induction l0 as [|b l0 IH] using rev_ind; intros acc.
    - cbn. destruct acc as [[g0 es0]| |]; cbn; by rewrite ?app_nil_r.
    - rewrite fold_left_app, IH. cbn [fold_left]. destruct acc as [[g0 es0]| |]; cbn [mbind outcome_bind]; [|done..].
      unfold sequence at 2. rewrite fold_left_app. cbn [fold_left]. fold (sequence f l0 g0).
      destruct (sequence f l0 g0) as [[g1 es1]| |]; cbn [mbind outcome_bind]; [|done..].
      destruct (f b g1) as [[g2 es2]| |]; cbn [mbind outcome_bind]; [|done..]. by rewrite app_assoc. }
  unfold sequence at 1. cbn [fold_left]. rewrite Hgen. cbn [mbind outcome_bind].
  destruct (f a g) as [[g1 es1]| |]; done.
Qed.

Lemma sequence_app {A} (f : A → Gateway → outcome (Gateway * effects)) l1 l2 g :
  sequence f (l1 ++ l2) g = ('(g1, es1) ← sequence f l1 g; '(g2, es2) ← sequence f l2 g1; Ok (g2, es1 ++ es2)).
Proof.
  revert g. induction l1 as [|a l1 IH]; intros g; cbn [app].
  { cbn. destruct (sequence f l2 g) as [[g2 es2]| |]; done. }
  rewrite !sequence_cons. destruct (f a g) as [[g1 es1]| |]; cbn [mbind outcome_bind]; [|done..]. rewrite IH.
  destruct (sequence f l1 g1) as [[g2 es2]| |]; cbn [mbind outcome_bind]; [|done..].
  destruct (sequence f l2 g2) as [[g3 es3]| |]; cbn [mbind outcome_bind]; [|done..]. by rewrite app_assoc.
Qed.

(** The variable [id] is the only one with its tag. *)
Definition only_user (c : GatewayConfigKV) (id : string) (v : GatewayVariableConfig) (d : GatewayDeviceConfig) : Prop :=
  cfVariables c !! id = Some v ∧ cfDevices c !! vcDeviceID v = Some d ∧
  ∀ id' v' d', cfVariables c !! id' = Some v' → cfDevices c !! vcDeviceID v' = Some d' → var_key v' d' = var_key v d → id' = id.

(** Subjects that none of the gateway's own subscriptions matches. *)
Definition foreign (gid subj : string) : Prop :=
  Forall (λ x, matchSubject x subj = false) [Topics.Variables gid; CommandWildcard gid; Topics.Shutdown gid; StatusBrowse serviceType; ""].

(** The state has the subscriptions of the configuration [n] times. *)
Definition subscribed (gid : string) (c : GatewayConfigKV) (n : nat) (g : Gateway) : Prop :=
  gatewayID g = gid ∧
  ∀ subj, foreign gid subj → filter (hears subj) (subs g) = concat (replicate n (filter (hears subj) (scanner_subs gid c))).

(** It runs the configuration. *)
Definition runs (gid : string) (c : GatewayConfigKV) (n : nat) (g : Gateway) : Prop :=
  subscribed gid c n g ∧ config g = Some c ∧ gw_inv g ∧
  (varSub g = None ∨ varSub g = Some (mkGwSub (Topics.Variables gid) HVariables)) ∧
  (cmdSub g = None ∨ cmdSub g = Some (mkGwSub (CommandWildcard gid) HCommands)).

Lemma subscribe_cases s h : subscribe refused s h = None ∨ subscribe refused s h = Some (mkGwSub s h).
Proof. unfold subscribe. case_if; [by left|by right]. Qed.

Lemma runs_again gid c n g : subscribed gid c n g → runs gid c (S n) (fst (ApplyConfig (raw := raw) refused iter (Some c) g)).
Proof.
  intros (H1 & H2). pose proof (ApplyConfig_subs (raw := raw) c g) as (K1 & K2 & K3 & K4 & K5). rewrite H1 in *.
  split_and!; [|done|by apply (ApplyConfig_inv refused iter iter_perm)|rewrite K4; apply subscribe_cases|rewrite K5; apply subscribe_cases].
  split; [done|]. intros subj Hsubj. rewrite K1, filter_app, H2, replicate_S_end, concat_app by done. cbn [concat].
  by rewrite app_nil_r.
Qed.

(** A subscription to a foreign subject does not matter. *)
Lemma subscribed_add gid c n g x h : subscribed gid c n g →
  x ∈ [Topics.Variables gid; CommandWildcard gid; Topics.Shutdown gid; StatusBrowse serviceType; ""] →
  ∀ v cmd, subscribed gid c n (with_subs g (subs g ++ [mkGwSub x h]) v cmd).
Proof.
  intros [H1 H2] Hx v cmd. split; [done|]. intros subj Hs. cbn [subs with_subs]. rewrite filter_app, H2 by done.
  rewrite filter_cons_False; [by rewrite app_nil_r|]. unfold hears. cbn [gsSubject].
  unfold foreign in Hs. rewrite Forall_forall in Hs. by rewrite (Hs x Hx).
Qed.

Lemma receivers_runs gid c n g subj : runs gid c n g → foreign gid subj →
  receivers subj g = concat (replicate n (filter (hears subj) (scanner_subs gid c))).
Proof.
  intros ((H1 & H2) & _ & _ & Hv & Hc) Hs. unfold receivers, live.
  assert (∀ o x h, x ∈ [Topics.Variables gid; CommandWildcard gid; Topics.Shutdown gid; StatusBrowse serviceType; ""] →
    o = None ∨ o = Some (mkGwSub x h) → filter (hears subj) (option_list o) = []) as Hno.
  { intros o x h Hx [->| ->]; [done|]. change (option_list (Some ?s)) with [s]. rewrite filter_cons_False; [done|].
    unfold hears. cbn [gsSubject]. unfold foreign in Hs. rewrite Forall_forall in Hs. by rewrite (Hs x Hx). }
  trans (filter (hears subj) (subs g ++ option_list (varSub g) ++ option_list (cmdSub g))); [by apply list_filter_iff|].
  rewrite !filter_app, (Hno _ _ _ ltac:(by left) Hv), (Hno _ _ _ ltac:(right; by left) Hc), H2 by done. by rewrite !app_nil_r.
Qed.

(** The index has the variable alone under its tag. *)
Lemma only_user_entry g c id v d : gw_inv g → config g = Some c → only_user c id v d → entry (tagIndex g) (var_key v d) = [id].
Proof.
  intros [_ H2 H3 _ _] Hc (Hv & Hd & Hu). rewrite Hc in *. cbn [default] in H2.
  change (default (empty_config (gatewayID g)) (Some c)) with c in *.
  assert (id ∈ entry (tagIndex g) (var_key v d)) as Hin by (apply H2; by exists v, d).
  assert (∀ y, y ∈ entry (tagIndex g) (var_key v d) → y = id) as Hall.
  { intros y (v' & d' & Hv' & Hd' & Hk)%H2. by eapply Hu. }
  specialize (H3 (var_key v d)). destruct (entry (tagIndex g) (var_key v d)) as [|y [|z l]]; [by apply elem_of_nil in Hin| |].
  - by rewrite (Hall y) by by left.
  - apply NoDup_cons in H3 as [Hy _]. exfalso. apply Hy.
    rewrite (Hall y), (Hall z); [by left|right; by left|by left].
Qed.

(** A variable of the configuration is tracked. *)
Lemma only_user_tracked g c id v d : gw_inv g → config g = Some c → only_user c id v d →
  ∃ tv, variables g !! id = Some tv ∧ static_var tv = static_var (initial_variable v d).
Proof.
  intros [H1 _ _ _ _] Hc (Hv & Hd & _). rewrite Hc in H1.
  assert ((static_var <$> variables g) !! id = Some (static_var (initial_variable v d))) as Hs by (apply H1; by exists v, d).
  rewrite lookup_fmap, fmap_Some in Hs. destruct Hs as (tv & Htv & Hs). by exists tv.
Qed.

(** One scanner value for a variable with its tag to itself: the variable and the message. *)
Lemma route_tracked now g c id v d tv x dt : gw_inv g → config g = Some c → only_user c id v d →
  variables g !! id = Some tv → is_Some (marshal x) → deadband_ok (resolve_deadband (vcDeadband v) d) = true →
  let pass := Internal.ShouldPublish (tvRbeState tv) x now (tvDeadband tv) (tvDisableRBE tv) in
  ∃ g', routeValue (raw := raw) marshal now (dcProtocol d) (vcDeviceID v) (SanitizeForSubject (vcTag v)) x dt g =
    (g', if pass then [EData (data_subject (gatewayID g) (initial_variable v d)) (data_message (gatewayID g) (initial_variable v d) x dt now)] else []) ∧
    variables g' !! id = Some (if pass then set_rbe (set_value tv x) (Internal.RecordPublish (tvRbeState tv) x now) else set_value tv x) ∧
    same_shape g g'.
Proof.
  intros Hi Hc Hu Htv Hx Hdb pass. pose proof (only_user_entry g c id v d Hi Hc Hu) as He.
  destruct (only_user_tracked g c id v d Hi Hc Hu) as (tv' & Htv' & Hs). rewrite Htv in Htv'. injection Htv' as <-.
  pose proof (routeValue_shape marshal (raw := raw) now (dcProtocol d) (vcDeviceID v) (SanitizeForSubject (vcTag v)) x dt g) as Hsh.
  unfold routeValue in *. change (tag_key (dcProtocol d) (vcDeviceID v) (SanitizeForSubject (vcTag v))) with (var_key v d) in *.
  change (default [] (tagIndex g !! var_key v d)) with (entry (tagIndex g) (var_key v d)) in *. rewrite He in *.
  cbn [fold_left route_one] in *. rewrite Htv in *.
  injection Hs as Hs1 Hs2 Hs3.
  assert (route_variable marshal (gatewayID g) x dt now tv = if pass then
    (set_rbe (set_value tv x) (Internal.RecordPublish (tvRbeState tv) x now),
     Some (data_subject (gatewayID g) (initial_variable v d), data_message (gatewayID g) (initial_variable v d) x dt now))
    else (set_value tv x, None)) as Hr.
  { unfold route_variable. cbn [tvRbeState tvDeadband tvDisableRBE set_value]. fold pass. destruct pass; cbn [negb]; [|done].
    assert (data_message (gatewayID g) (set_value tv x) x dt now = data_message (gatewayID g) (initial_variable v d) x dt now) as ->
      by (unfold data_message; cbn; by rewrite Hs1, Hs2, Hs3).
    unfold message_ok. cbn [dmValue dmDeadband dmMemberDeadbands data_message default initial_variable tvDeadband].
    rewrite bool_decide_eq_true_2, Hdb, map_to_list_empty by done. cbn [forallb andb].
    unfold data_subject. cbn. by rewrite Hs1. }
  rewrite Hr in *. destruct pass; (eexists; split; [done|split; [cbn; by rewrite lookup_insert_eq|exact Hsh]]).
Qed.

Lemma plain_foreign gid c dev d tag : plain_device gid c dev d → foreign gid (scanner_subject (dcProtocol d) dev tag).
Proof.
  intros (Hg & _ & Hp & Hd & _). destruct (others_match gid (dcProtocol d) dev tag Hg (proj1 (Hp _ _ Hd))) as (H1 & H2 & H3 & H4 & H5).
  unfold foreign. rewrite !Forall_cons. by repeat split.
Qed.

(** The handlers of [n] copies of a subscription: a value that was recorded at a time is
    judged anew by each of them. *)
Lemma handlers_decide n now g c id v d tv rawd m : gw_inv g → config g = Some c → only_user c id v d →
  plain_token (dcProtocol d) → decode_data dec rawd = Some m → variables g !! id = Some tv →
  is_Some (marshal (dmValue m)) → deadband_ok (resolve_deadband (vcDeadband v) d) = true →
  let x := dmValue m in
  tvRbeState tv = Internal.RecordPublish (tvRbeState tv) x now →
  let pass := Internal.ShouldPublish (tvRbeState tv) x now (tvDeadband tv) (tvDisableRBE tv) in
  ∃ g', sequence (λ s, handle marshal iter dec now (scanner_subject (dcProtocol d) (vcDeviceID v) (vcTag v)) rawd false (gsHandler s))
      (replicate n (mkGwSub (gatewaySubject (dcProtocol d) (vcDeviceID v)) (HData (dcProtocol d) (vcDeviceID v)))) g =
    Ok (g', replicate (if pass then n else 0) (EData (data_subject (gatewayID g) (initial_variable v d))
                               (data_message (gatewayID g) (initial_variable v d) x (dmDatatype m) now))).
Proof.
  intros Hi Hc Hu Hp Hm Htv Hx Hdb x Hlast. revert g tv Hi Hc Htv Hlast. induction n as [|n IH]; intros g tv Hi Hc Htv Hlast pass; [exists g; by destruct pass|].
  cbn [replicate]. rewrite sequence_cons. cbn [gsHandler handle]. unfold handleScannerData. rewrite Hm.
  rewrite split_n_split by (rewrite ?split_scanner by apply Hp; cbn; lia). rewrite split_scanner by apply Hp.
  destruct (route_tracked now g c id v d tv x (dmDatatype m)) as (g1 & Hr & Htv1 & Hs); [done..|]. fold pass in Hr, Htv1.
  change (dmValue m) with x.
  rewrite Hr. cbn [mbind outcome_bind]. pose proof (same_shape_inv _ _ Hs Hi) as Hi1. destruct Hs as (Hg1 & Hc1 & _).
  set (tv1 := if pass then _ else _) in Htv1.
  assert (Hst : tvRbeState tv1 = tvRbeState tv ∧ tvDeadband tv1 = tvDeadband tv ∧ tvDisableRBE tv1 = tvDisableRBE tv).
  { unfold tv1. destruct pass; [|done]. split_and!; [|done..]. cbn. by rewrite <- Hlast. }
  destruct Hst as (E1 & E2 & E3). destruct (IH g1 tv1 Hi1) as (g2 & H2); [by rewrite Hc1|done|by rewrite E1|].
  rewrite H2. cbn [mbind outcome_bind]. exists g2. rewrite E1, E2, E3, Hg1. fold pass. by destruct pass.
Qed.

(** The first handler on a value that passes publishes it; whether the others do depends on
    the check against the value that the first one has recorded. *)
Lemma handlers_publish n now g c id v d tv rawd m : gw_inv g → config g = Some c → only_user c id v d →
  plain_token (dcProtocol d) → decode_data dec rawd = Some m → variables g !! id = Some tv →
  is_Some (marshal (dmValue m)) → deadband_ok (resolve_deadband (vcDeadband v) d) = true →
  let x := dmValue m in
  Internal.ShouldPublish (tvRbeState tv) x now (tvDeadband tv) (tvDisableRBE tv) = true →
  let again := Internal.ShouldPublish (Internal.RecordPublish (tvRbeState tv) x now) x now (tvDeadband tv) (tvDisableRBE tv) in
  ∃ g', sequence (λ s, handle marshal iter dec now (scanner_subject (dcProtocol d) (vcDeviceID v) (vcTag v)) rawd false (gsHandler s))
      (replicate (S n) (mkGwSub (gatewaySubject (dcProtocol d) (vcDeviceID v)) (HData (dcProtocol d) (vcDeviceID v)))) g =
    Ok (g', replicate (if again then S n else 1) (EData (data_subject (gatewayID g) (initial_variable v d))
                               (data_message (gatewayID g) (initial_variable v d) x (dmDatatype m) now))).
Proof.
  intros Hi Hc Hu Hp Hm Htv Hx Hdb x Hpass again.
  cbn [replicate]. rewrite sequence_cons. cbn [gsHandler handle]. unfold handleScannerData. rewrite Hm.
  rewrite split_n_split by (rewrite ?split_scanner by apply Hp; cbn; lia). rewrite split_scanner by apply Hp.
  destruct (route_tracked now g c id v d tv x (dmDatatype m)) as (g1 & Hr & Htv1 & Hs); [done..|]. unfold x in Hr, Htv1, Hpass. rewrite Hpass in Hr, Htv1.
  rewrite Hr. cbn [mbind outcome_bind]. pose proof (same_shape_inv _ _ Hs Hi) as Hi1. destruct Hs as (Hg1 & Hc1 & _).
  destruct (handlers_decide n now g1 c id v d _ rawd m Hi1 ltac:(by rewrite Hc1) Hu Hp Hm Htv1 Hx Hdb) as (g2 & H2); [done|].
  rewrite H2. cbn [mbind outcome_bind]. exists g2. rewrite Hg1. unfold again, x. cbn [tvRbeState tvDeadband tvDisableRBE set_rbe set_value].
  by destruct (Internal.ShouldPublish (Internal.RecordPublish _ _ _) _ _ _ _).
Qed.

(** A message of a scanner reaches the copies of one subscription, when the state has the
    configuration's subscriptions [n] times. *)
Lemma deliver_scanner n now g gid c id v d rawd : (∀ s, refused s = false) → runs gid c n g → plain_device gid c (vcDeviceID v) d → only_user c id v d →
  deliver marshal iter dec now (scanner_subject (dcProtocol d) (vcDeviceID v) (vcTag v)) rawd false g
  = sequence (λ s, handle marshal iter dec now (scanner_subject (dcProtocol d) (vcDeviceID v) (vcTag v)) rawd false (gsHandler s))
      (replicate n (mkGwSub (gatewaySubject (dcProtocol d) (vcDeviceID v)) (HData (dcProtocol d) (vcDeviceID v)))) g.
Proof.
  intros Href Hr Hpd Hu. unfold deliver. f_equal.
  rewrite (receivers_runs gid c n g) by (done || by eapply plain_foreign).
  rewrite scanner_subs_hear by (done || by eapply (group_exists c id v d); apply Hu).
  clear. induction n as [|k IH]; [done|]. cbn [replicate concat app]. by rewrite IH.
Qed.

Lemma Start_subscribed now c g : (∀ s, refused s = false) → subs g = [] →
  runs (gatewayID g) c 1 (fst (Start (raw := raw) refused iter now (Some (Some c)) false g)).
Proof.
  intros Href Hs. unfold Start. unfold subscribe at 1. rewrite Href. change (option_list (Some ?s)) with [s].
  set (g0 := mkGateway _ _ _ _ _ _ _ _ _ _).
  assert (subscribed (gatewayID g) c 0 g0) as H0.
  { pose proof (subscribed_add (gatewayID g) c 0 g (StatusBrowse serviceType) HStatusBrowse) as Ha. destruct Ha with (v := varSub g) (cmd := cmdSub g) as [H1 H2].
    - split; [done|]. intros subj _. by rewrite Hs.
    - by do 3 right; left.
    - by split. }
  pose proof (runs_again _ _ _ _ H0) as (R1 & R2 & R3 & R4 & R5).
  destruct (ApplyConfig refused iter (Some c) g0) as [g1 es]. cbn [fst] in *.
  unfold subscribe. rewrite Href. change (option_list (Some ?s)) with [s]. cbn [varSub cmdSub with_subs subs].
  assert (∀ gx, gw_inv gx → ∀ l a b, gw_inv (with_subs gx l a b)) as Hadd by (intros; by apply add_subs_inv).
  split_and!; [|done|by apply Hadd, Hadd|done|done].
  assert (subscribed (gatewayID g) c 1 (with_subs g1 (subs g1 ++ [mkGwSub "" HConfigWatch]) (varSub g1) (cmdSub g1))) as R1'.
  { apply subscribed_add; [done|]. by do 4 right; left. }
  destruct R1 as [Hid _]. cbn [gatewayID with_subs]. rewrite Hid. apply (subscribed_add _ _ _ _ (Topics.Shutdown (gatewayID g)) HShutdown R1').
  by do 2 right; left.
Qed.

(** Every configuration adds its subscriptions to the scanners and none is given up: after
    the start, at which the watch delivers the stored configuration once more, and [n]
    deliveries of a configuration, one message of a scanner is handled [n + 1] times, and a
    variable without exception reporting is published [n + 1] times. *)
Theorem repeated_configuration_duplicates n now0 now name c id v d rawc rawd m :
  (∀ s, refused s = false) → plain_device (gatewayID (New name)) c (vcDeviceID v) d → only_user c id v d →
  decode_config dec rawc = Some c → decode_data dec rawd = Some m →
  resolve_disable (vcDisableRBE v) d = true → is_Some (marshal (dmValue m)) → deadband_ok (resolve_deadband (vcDeadband v) d) = true →
  ∃ g es g', gw_run marshal refused iter dec (OpStart now0 (Some (Some c)) false :: replicate n (OpConfig (Some rawc))) (New name) = Ok (g, es) ∧
    deliver marshal iter dec now (scanner_subject (dcProtocol d) (vcDeviceID v) (vcTag v)) rawd false g =
      Ok (g', replicate (S n) (EData (data_subject (gatewayID (New name)) (initial_variable v d))
                                     (data_message (gatewayID (New name)) (initial_variable v d) (dmValue m) (dmDatatype m) now))).
Proof.
  intros Href Hpd Hu Hrc Hrd Hdis Hx Hdb. set (gid := gatewayID (New name)) in *.
  assert (∀ n g, runs gid c (S n) g → ∀ k, ∃ g' es, sequence (gw_step marshal refused iter dec) (replicate k (OpConfig (Some rawc))) g = Ok (g', es) ∧
    runs gid c (S (k + n)) g') as Hrep.
  { intros n0 g Hg k. revert n0 g Hg. induction k as [|k IH]; intros n0 g Hg; [by exists g, []|].
    cbn [replicate]. rewrite sequence_cons. cbn [gw_step config_changed]. rewrite Hrc.
    pose proof (runs_again _ _ _ _ (proj1 Hg)) as Hg1. destruct (ApplyConfig refused iter (Some c) g) as [g1 es1].
    cbn [mbind outcome_bind fst] in *. destruct (IH (S n0) g1 Hg1) as (g2 & es2 & -> & Hg2). cbn [mbind outcome_bind].
    do 2 eexists. split; [done|]. by replace (S k + n0)%nat with (k + S n0)%nat by lia. }
  pose proof (Start_subscribed now0 c (New name) Href eq_refl) as Hst.
  destruct (Start refused iter now0 (Some (Some c)) false (New name)) as [g0 es0] eqn:Hs0. cbn [fst] in Hst.
  destruct (Hrep 0%nat g0 Hst n) as (g & es & Hg & Hr). rewrite Nat.add_0_r in Hr.
  pose proof Hr as ((Hid & _) & Hc & Hi & _). destruct (only_user_tracked g c id v d Hi Hc Hu) as (tv & Htv & Hst').
  injection Hst' as _ _ Hb.
  destruct (handlers_publish n now g c id v d tv rawd m) as (g' & Hh); [done..| |done|done|done|done| |].
  { destruct Hpd as (_ & _ & Hp & Hd & _). by apply (Hp _ _ Hd). }
  { unfold Internal.ShouldPublish. by rewrite Hb, Hdis. }
  exists g, (es0 ++ es), g'. split.
  { unfold gw_run. rewrite sequence_cons. cbn [gw_step]. rewrite Hs0. cbn [mbind outcome_bind]. by rewrite Hg. }
  rewrite (deliver_scanner (S n) now g gid c id v d rawd) by done. rewrite Hid in Hh. rewrite Hh.
  unfold Internal.ShouldPublish. by rewrite Hb, Hdis.
Qed.

(** ** The requests in the scanners' buckets *)

Notation buckets_t := (gmap (string * string) scannerRequest).

Definition apply_effect (kv : buckets_t) (e : effect raw) : buckets_t :=
  match e with
  | EPut b k r => <[(b, k) := r]> kv
  | EDelete b k => delete (b, k) kv
  | _ => kv
  end.

Definition buckets (kv : buckets_t) (es : effects) : buckets_t := fold_left apply_effect es kv.

Lemma buckets_app kv es es' : buckets kv (es ++ es') = buckets (buckets kv es) es'.
Proof. apply fold_left_app. Qed.

(** Effects on no bucket. *)
Definition quiet (es : effects) : Prop := ∀ kv, buckets kv es = kv.

Lemma quiet_nil : quiet [].
Proof. by intros kv. Qed.
Lemma quiet_app es es' : quiet es → quiet es' → quiet (es ++ es').
Proof. intros H1 H2 kv. by rewrite buckets_app, H1. Qed.
Lemma quiet_data l : quiet (map data_effect l).
Proof. induction l as [|x l IH]; [done|]. intros kv. apply IH. Qed.

(** The request that a configuration asks of a device. *)
Definition wanted (gid : string) (c : GatewayConfigKV) (bk : string * string) (r : scannerRequest) : Prop :=
  ∃ dev d vars, device_groups iter c !! dev = Some (d, vars) ∧ dcProtocol d ≠ gid ∧ dcAutoManaged d = false ∧
    ScannerBucket (dcProtocol d) ≠ "" ∧ bk = (ScannerBucket (dcProtocol d), config_key gid dev) ∧
    scanner_request iter gid dev d (Some c) (iter _ vars) = Some r.

(** What the configuration's deletion removes: the keys of all its devices with a bucket. *)
Definition deleted (gid : string) (c : GatewayConfigKV) (bk : string * string) : Prop :=
  ∃ dev d, dev ∈ used_devices c ∧ cfDevices c !! dev = Some d ∧ ScannerBucket (dcProtocol d) ≠ "" ∧
    bk = (ScannerBucket (dcProtocol d), config_key gid dev).

Lemma wanted_deleted gid c bk r : wanted gid c bk r → deleted gid c bk.
Proof.
  intros (dev & d & vars & Hg & _ & _ & Hb & -> & _). exists dev, d.
  pose proof (device_groups_of c) as [H1 H2]. split; [apply H2; by eexists|]. split; [by apply (H1 _ _ Hg)|done].
Qed.

Lemma delete_fold gid c l : let r := fold_left (delete_config gid c) l (∅, []) in
  (∀ kv bk, buckets kv r.2 !! bk = kv !! bk ∨ buckets kv r.2 !! bk = None) ∧
  (∀ kv dev d, dev ∈ l → cfDevices c !! dev = Some d → ScannerBucket (dcProtocol d) ≠ "" →
     buckets kv r.2 !! (ScannerBucket (dcProtocol d), config_key gid dev) = None) ∧
  (∀ p dev, (p, dev) ∈ r.1 → ScannerBucket p ≠ "" → ∀ kv, buckets kv r.2 !! (ScannerBucket p, config_key gid dev) = None).
Proof.
  induction l as [|dev l IH] using rev_ind; cbv zeta in *.
  { cbn. split_and!; [by left|by intros ??? ?%elem_of_nil|set_solver]. }
  rewrite fold_left_app. destruct (fold_left _ l _) as [seen es]. destruct IH as (H1 & H2 & H3). cbn [fold_left fst snd] in *.
  unfold delete_config. destruct (cfDevices c !! dev) as [d|] eqn:Hd.
  2:{ split_and!; [done| |done]. intros kv dev' d' [Hin|Hin]%elem_of_app Hd' Hb; [by apply (H2 kv dev' d')|].
      apply list_elem_of_singleton in Hin as ->. congruence. }
  case_bool_decide as Hseen.
  { split_and!; [done| |done]. intros kv dev' d' [Hin|Hin]%elem_of_app Hd' Hb; [by apply (H2 kv dev' d')|].
    apply list_elem_of_singleton in Hin as ->. assert (d' = d) as -> by congruence. by apply H3. }
  cbn [fst snd].
  assert (∀ kv bk, buckets kv (es ++ if String.eqb (ScannerBucket (dcProtocol d)) "" then [] else
      [EDelete (ScannerBucket (dcProtocol d)) (config_key gid dev)]) !! bk =
    if decide (ScannerBucket (dcProtocol d) ≠ "" ∧ bk = (ScannerBucket (dcProtocol d), config_key gid dev))
    then None else buckets kv es !! bk) as Hb.
  { intros kv bk. rewrite buckets_app. destruct (String.eqb_spec (ScannerBucket (dcProtocol d)) "") as [->|Hne].
    - by rewrite decide_False by by intros [].
    - change (buckets ?x [EDelete ?b ?k]) with (delete (b, k) x). destruct (decide (bk = (ScannerBucket (dcProtocol d), config_key gid dev))) as [->|Hbk].
      + by rewrite lookup_delete_eq, decide_True.
      + rewrite lookup_delete_ne by done. rewrite decide_False; [done|]. by intros []. }
  split_and!.
  - intros kv bk. rewrite Hb. destruct (decide _); [by right|apply H1].
  - intros kv dev' d' Hin Hd' Hbk. rewrite Hb. destruct (decide _) as [|Hdec]; [done|].
    apply elem_of_app in Hin as [Hin|Hin]; [by apply (H2 kv dev' d')|]. apply list_elem_of_singleton in Hin as ->.
    assert (d' = d) as -> by congruence. by destruct Hdec.
  - intros p dev' Hin Hbk kv. rewrite Hb. destruct (decide _) as [|Hdec]; [done|].
    apply elem_of_union in Hin as [Hin|Hin]; [|by apply H3]. apply elem_of_singleton in Hin. injection Hin as -> ->.
    by destruct Hdec.
Qed.

(** After the deletion, the requests of the configuration are gone and no others came. *)
Lemma delete_requests gid c kv : (∀ bk r, kv !! bk = Some r → wanted gid c bk r) →
  buckets kv (deleteSubscriptionConfigs iter gid c) = ∅.
Proof.
  intros Hkv. apply map_empty. intros bk. unfold deleteSubscriptionConfigs.
  pose proof (delete_fold gid c (used_devices c)) as (H1 & H2 & _). unfold used_devices in *.
  destruct (fold_left _ _ _) as [seen es]. cbn [snd] in *. destruct (H1 kv bk) as [Hsame|?]; [|done].
  rewrite Hsame. destruct (kv !! bk) as [r|] eqn:Hbk; [|done].
  pose proof (wanted_deleted _ _ _ _ (Hkv _ _ Hbk)) as (dev & d & Hin & Hd & Hb & ->).
  pose proof (H2 kv dev d Hin Hd Hb) as Hnone. by rewrite Hsame in Hnone.
Qed.

(** Writing requests under different keys. *)
Lemma put_fold {A} (f : A → effects) (key : A → string * string) (val : A → option scannerRequest) l :
  (∀ a, f a = match val a with Some r => [EPut (key a).1 (key a).2 r] | None => [] end) →
  (∀ a b, a ∈ l → b ∈ l → is_Some (val a) → is_Some (val b) → key a = key b → a = b) → NoDup l →
  ∀ bk r, buckets ∅ (concat (map f l)) !! bk = Some r ↔ ∃ a, a ∈ l ∧ bk = key a ∧ val a = Some r.
Proof.
  intros Hf. induction l as [|a l IH] using rev_ind; intros Hk Hnd bk r.
  { cbn. rewrite lookup_empty. split; [done|]. by intros (a & ?%elem_of_nil & _). }
  apply NoDup_app in Hnd as (Hnd & Ha & _).
  assert (∀ bk r, buckets ∅ (concat (map f l)) !! bk = Some r ↔ ∃ a, a ∈ l ∧ bk = key a ∧ val a = Some r) as IH'.
  { apply IH; [|done]. intros x y Hx Hy. apply Hk; apply elem_of_app; by left. }
  rewrite map_app, concat_app, buckets_app. cbn [map concat]. rewrite app_nil_r, Hf.
  assert ((∃ x, x ∈ l ++ [a] ∧ bk = key x ∧ val x = Some r) ↔ (∃ x, x ∈ l ∧ bk = key x ∧ val x = Some r) ∨ (bk = key a ∧ val a = Some r)) as ->.
  { setoid_rewrite elem_of_app. setoid_rewrite list_elem_of_singleton. naive_solver. }
  destruct (val a) as [r'|] eqn:Hv; [|cbn; rewrite IH'; naive_solver].
  change (buckets ?x [EPut ?b ?k ?r]) with (<[(b, k) := r]> x). rewrite <- surjective_pairing.
  destruct (decide (bk = key a)) as [->|Hne].
  - rewrite lookup_insert_eq. split; [intros [= ->]; by right|]. intros [(x & Hx & Hkx & Hvx)|[_ ?]]; [|done].
    exfalso. apply (Ha x Hx), list_elem_of_singleton. apply Hk; [apply elem_of_app; by left|apply elem_of_app; right; by left| | |done]; by eexists.
  - rewrite lookup_insert_ne by done. rewrite IH'. naive_solver.
Qed.

Lemma config_key_inj gid dev dev' : config_key gid dev = config_key gid dev' → dev = dev'.
Proof.
  unfold config_key. rewrite !string_app_assoc. intros He. apply (f_equal chars) in He. rewrite !chars_app in He.
  apply app_inv_head in He. apply (f_equal str) in He. by rewrite !str_chars in He.
Qed.

(** The requests of a configuration, written into empty buckets. *)
Lemma write_requests gid c bk r :
  buckets ∅ (concat (map (group_requests gid c) (iter _ (device_groups iter c)))) !! bk = Some r ↔ wanted gid c bk r.
Proof.
  set (val := λ kv : string * deviceGroup,
    if String.eqb (dcProtocol kv.2.1) gid || dcAutoManaged kv.2.1 || String.eqb (ScannerBucket (dcProtocol kv.2.1)) "" then None
    else scanner_request iter gid kv.1 kv.2.1 (Some c) (iter _ kv.2.2)).
  rewrite (put_fold _ (λ kv, (ScannerBucket (dcProtocol kv.2.1), config_key gid kv.1)) val).
  - unfold wanted. split.
    + intros ([dev [d vars]] & Hin%(iter_lookup iter iter_perm) & -> & Hv). unfold val in Hv. cbn [fst snd] in *.
      destruct (String.eqb_spec (dcProtocol d) gid), (dcAutoManaged d) eqn:Ham, (String.eqb_spec (ScannerBucket (dcProtocol d)) ""); try done.
      by exists dev, d, vars.
    + intros (dev & d & vars & Hg & Hp & Ham & Hb & -> & Hr). exists (dev, (d, vars)). split; [by apply (iter_lookup iter iter_perm)|].
      split; [done|]. unfold val. cbn [fst snd].
      by rewrite (proj2 (String.eqb_neq _ _) Hp), Ham, (proj2 (String.eqb_neq _ _) Hb).
  - intros [dev [d vars]]. unfold group_requests, writeSubscriptionConfig, val. cbn [fst snd].
    destruct (String.eqb (dcProtocol d) gid), (dcAutoManaged d), (String.eqb (ScannerBucket (dcProtocol d)) ""); cbn [orb]; done.
  - intros [dev grp] [dev' grp'] H1%(iter_lookup iter iter_perm) H2%(iter_lookup iter iter_perm) _ _ He.
    apply (f_equal snd), config_key_inj in He. cbn [fst] in He. subst dev'. congruence.
  - apply (NoDup_fmap_1 fst), (iter_NoDup iter iter_perm).
Qed.

(** The buckets hold what the configuration wants. *)
Definition requests_follow (g : Gateway) (kv : buckets_t) : Prop :=
  ∀ bk r, kv !! bk = Some r ↔ ∃ c, config g = Some c ∧ wanted (gatewayID g) c bk r.

Lemma unsubscribe_requests g kv : requests_follow g kv → buckets kv (snd (unsubscribeData iter g)) = ∅.
Proof.
  intros Hr. unfold unsubscribeData. cbn [snd config with_assemblers with_subs with_maps gatewayID].
  destruct (config g) as [c|] eqn:Hc.
  - apply delete_requests. intros bk r (c' & Hc' & Hw)%Hr. rewrite Hc in Hc'. by injection Hc' as <-.
  - apply map_empty. intros bk. destruct (buckets kv [] !! bk) as [r|] eqn:Hbk; [|done]. apply Hr in Hbk as (c & Hc' & _). congruence.
Qed.

Lemma ApplyConfig_requests c g kv : requests_follow g kv →
  let '(g', es) := ApplyConfig (raw := raw) refused iter c g in requests_follow g' (buckets kv es).
Proof.
  intros Hr. pose proof (unsubscribe_requests g kv Hr) as Hu. unfold ApplyConfig.
  destruct (unsubscribeData iter g) as [g0 es] eqn:Hg0. cbn [snd] in Hu.
  destruct c as [c|].
  - destruct (fold_left (track_variable c) _ _), (fold_left (add_udt _ _ c) _ _). rewrite subscribeToScanners_eq.
    intros bk r. rewrite buckets_app, Hu, write_requests. cbn [config gatewayID with_subs with_maps].
    split; [intros Hw; by exists c|]. by intros (c' & [= <-] & Hw).
  - intros bk r. rewrite Hu, lookup_empty. cbn. split; [done|]. by intros (? & [=] & _).
Qed.

Lemma Stop_requests g kv : requests_follow g kv →
  let '(g', es) := Stop (raw := raw) iter g in requests_follow g' (buckets kv es).
Proof.
  intros Hr. pose proof (unsubscribe_requests g kv Hr) as Hu. unfold Stop.
  destruct (unsubscribeData iter g) as [g0 es]. cbn [snd] in Hu. intros bk r. rewrite Hu, lookup_empty. cbn.
  split; [done|]. by intros (? & [=] & _).
Qed.

(** A quiet step that keeps the configuration. *)
Lemma quiet_requests g g' es kv : quiet es → config g' = config g → gatewayID g' = gatewayID g →
  requests_follow g kv → requests_follow g' (buckets kv es).
Proof. intros Hq Hc Hg Hr. unfold requests_follow. by rewrite Hc, Hg, Hq. Qed.

Lemma routeValue_quiet now p d tag v dt g : quiet (snd (routeValue (raw := raw) marshal now p d tag v dt g)).
Proof.
  unfold routeValue.
  assert (∀ ids (acc : gmap string TrackedVariable * effects), quiet acc.2 →
    quiet (fold_left (route_one marshal (gatewayID g) v dt now) ids acc).2) as Hgen.
  { induction ids as [|i ids IH]; intros [vars es] Hq; [done|]. cbn [fold_left]. apply IH. cbn [route_one].
    destruct (vars !! i) as [tv|]; [|done]. destruct (route_variable _ _ _ _ _ _) as [tv' m]. cbn.
    apply quiet_app; [done|apply quiet_data]. }
  specialize (Hgen (default [] (tagIndex g !! tag_key p d tag)) (variables g, []) quiet_nil).
  by destruct (fold_left (route_one _ _ _ _ _) _ _).
Qed.

(** Steps that move values only. *)
Definition moves_values (g : Gateway) (r : Gateway * effects) : Prop := same_shape g r.1 ∧ quiet r.2.

Lemma routeValue_moves now p d tag v dt g : moves_values g (routeValue marshal now p d tag v dt g).
Proof. split; [apply routeValue_shape|apply routeValue_quiet]. Qed.

Lemma moves_fold {A} (f : A → Gateway → Gateway * effects) l : (∀ a g, moves_values g (f a g)) →
  ∀ g0 acc, moves_values g0 acc →
  moves_values g0 (fold_left (λ (acc : Gateway * effects) a, let '(g, es) := f a acc.1 in (g, acc.2 ++ es)) l acc).
Proof.
  intros Hf. induction l as [|a l IH]; intros g0 acc Ha; [done|]. cbn [fold_left]. apply IH.
  destruct Ha as [H1 H2]. destruct (Hf a acc.1) as [H3 H4]. destruct (f a acc.1) as [g es]. cbn [fst snd] in *.
  split; cbn; [by etrans|by apply quiet_app].
Qed.

Lemma moves_requests g r kv : moves_values g r → requests_follow g kv → requests_follow r.1 (buckets kv r.2).
Proof. intros [(H1 & H2 & _) Hq]. by apply quiet_requests. Qed.

Lemma handle_requests now subj data r h g g' es kv :
  handle marshal iter dec now subj data r h g = Ok (g', es) → requests_follow g kv → requests_follow g' (buckets kv es).
Proof.
  destruct h as [p d|p d| | | | |]; cbn [handle].
  - intros He%Ok_inj. pose proof (moves_requests g (g', es) kv) as Hm. apply Hm. rewrite <- He. unfold handleScannerData.
    destruct (decode_data dec data) as [m|]; [|by split].
    destruct (GoText.split_n _ _ _) as [|? [|? [|? [|? [|]]]]]; try by split. apply routeValue_moves.
  - intros He%Ok_inj. pose proof (moves_requests g (g', es) kv) as Hm. apply Hm. rewrite <- He. unfold handleScannerBatchData.
    destruct (decode_batch dec data) as [b|]; [|by split].
    apply (moves_fold (λ val g, routeValue marshal now p d (SanitizeForSubject (bvVariableID val)) (bvValue val) (bvDatatype val) g)); [|by split].
    intros val g1. apply routeValue_moves.
  - intros He%Ok_inj. injection He as <- <-. apply (moves_requests g (g, _)). split; [done|]. unfold handleVariables. cbn [snd]. by case_if.
  - unfold handleCommand. intros He. eassert (quiet es ∧ g' = g) as [Hq ->]; [|by apply (moves_requests g (g, es))].
    revert He. repeat (match goal with |- context [match ?x with _ => _ end] => destruct x end; cbn [mbind outcome_bind]; try discriminate);
      intros He%Ok_inj; injection He as <- <-; split; try done.
  - intros He%Ok_inj. injection He as <- <-. done.
  - intros He%Ok_inj Hr. pose proof (Stop_requests g kv Hr) as Hs. by rewrite He in Hs.
  - intros He%Ok_inj. injection He as <- <-. done.
Qed.

Lemma sequence_requests {A} (f : A → Gateway → outcome (Gateway * effects)) l :
  (∀ a g g' es kv, f a g = Ok (g', es) → requests_follow g kv → requests_follow g' (buckets kv es)) →
  ∀ g g' es kv, sequence f l g = Ok (g', es) → requests_follow g kv → requests_follow g' (buckets kv es).
Proof.
  intros Hf. induction l as [|a l IH]; intros g g' es kv Hs Hr; [by injection Hs as <- <-|].
  rewrite sequence_cons in Hs. destruct (f a g) as [[g1 es1]| |] eqn:H1; cbn [mbind outcome_bind] in Hs; try discriminate.
  destruct (sequence f l g1) as [[g2 es2]| |] eqn:H2; cbn [mbind outcome_bind] in Hs; try discriminate.
  injection Hs as <- <-. rewrite buckets_app. eapply IH; [exact H2|]. by eapply Hf.
Qed.

Lemma step_requests op g g' es kv : gw_step marshal refused iter dec op g = Ok (g', es) →
  requests_follow g kv → requests_follow g' (buckets kv es).
Proof.
  destruct op as [now stored we|now subj data r|v|now id|now|]; cbn [gw_step].
  - intros He%Ok_inj Hr. unfold Start in He.
    set (g0 := mkGateway _ _ _ _ _ _ _ _ _ _) in He. assert (requests_follow g0 kv) as Hr0 by exact Hr.
    destruct stored as [[c|]|].
    + pose proof (ApplyConfig_requests (Some c) g0 kv Hr0) as Ha. destruct (ApplyConfig refused iter (Some c) g0) as [g1 es1].
      injection He as <- <-. exact Ha.
    + injection He as <- <-. exact Hr0.
    + injection He as <- <-. exact Hr0.
  - intros Hd. eapply sequence_requests; [|exact Hd]. intros s g1 g2 e k. apply handle_requests.
  - intros He%Ok_inj Hr. unfold config_changed in He. destruct v as [data|].
    + destruct (decode_config dec data) as [c|]; [|by injection He as <- <-].
      pose proof (ApplyConfig_requests (Some c) g kv Hr) as Ha. by rewrite He in Ha.
    + pose proof (ApplyConfig_requests None g kv Hr) as Ha. by rewrite He in Ha.
  - unfold fireAssembler. destruct (udtAssemblers g !! id) as [a|]; [|by intros [= <- <-]].
    destruct (fire _ _ _ _) as [[a' m]| |]; cbn [mbind outcome_bind]; try discriminate. intros [= <- <-].
    apply quiet_requests; [apply quiet_data|done|done].
  - intros He%Ok_inj. pose proof (moves_requests g (g', es) kv) as Hm. apply Hm. rewrite <- He. unfold publishStatus.
    apply (moves_fold (λ x g, routeValue marshal now serviceType serviceType x.1 x.2 "number" g)); [|by split].
    intros x g1. apply routeValue_moves.
  - intros He%Ok_inj Hr. pose proof (Stop_requests g kv Hr) as Hs. by rewrite He in Hs.
Qed.

(** C28: The requests in the scanners' buckets follow the configuration through any sequence of
    configurations, messages, timers and restarts of the module: after each step, a scanner
    finds exactly one request per device of the configuration that has variables or
    structured variables, a bucket and is not managed automatically, under the gateway's key,
    with the tags of those variables; the requests of devices that left are gone. *)
Theorem requests_follow_configuration id ops g es :
  gw_run marshal refused iter dec ops (New id) = Ok (g, es) →
  ∀ bk r, buckets ∅ es !! bk = Some r ↔ ∃ c, config g = Some c ∧ wanted (gatewayID g) c bk r.
Proof.
  intros Hr. eapply (sequence_requests _ _ step_requests _ _ _ ∅ Hr). intros bk r. rewrite lookup_empty.
  split; [done|]. by intros (c & [=] & _).
Qed.

End Scanners.
