(* ===== verification/ModbusScanner.v ===== *)
(** The Modbus scanner: the subscriptions, poll loops, commands and change detection of
    internal/modbus/scanner.go, with the connection functions of client.go.

    [devices] maps a device's name to its state on the heap, and every device has a
    goroutine, [pollDevice], whose position is a [phase]. A handler is one step; so is every
    stretch of a poll loop between two of its locks or waits, so that handlers run between
    the reads of a device's blocks. Two things in scanner.go are finer than these steps, both
    at a device that has lost its last subscriber: a loop that ends calls [disconnect] without
    the device's lock, so it can take the connection from a command that has just found it
    there; and a command takes the device's lock only after it has given up the scanner's, so
    the device can be stopped in between. Here a command comes before or after them. Go
    ranges over a map in any order: each step has a [ranging] of its own. Descriptions of
    tags are left out. *)

From S2P Require Export PlcTypes GatewayConfig ModbusClient.
From S2P Require Topics ChannelBus.
Import Topics (SanitizeForSubject, ScannerSubscribe, ScannerUnsubscribe, ScannerVariables, CommandWildcard, one_token).
Import ChannelBus (dot).

#[local] Open Scope Z_scope.

(** ** The state *)

Notation tag_map := (gmap string ModbusTagConfig).

Record Subscriber := mkSubscriber { ScanRate : Z; sbTags : tag_map }.

(** [client] has the fields the client's functions use: the unit, the byte order, the
    transaction counter and the receive buffer. *)
Record Device := mkDev {
  DeviceID : string;
  Host : string;
  Port : Z;
  client : DeviceState;
  Subscribers : gmap string Subscriber;
  conn : option Conn;
  failures : Z;
  lastValues : gmap string value;
  stopped : bool;
  allTags : tag_map;
  blocks : list ReadBlock;
}.

Definition with_subscribers (d : Device) (subs : gmap string Subscriber) : Device :=
  mkDev (DeviceID d) (Host d) (Port d) (client d) subs (conn d) (failures d) (lastValues d) (stopped d) (allTags d) (blocks d).
Definition with_plan (d : Device) (tags : tag_map) (bs : list ReadBlock) : Device :=
  mkDev (DeviceID d) (Host d) (Port d) (client d) (Subscribers d) (conn d) (failures d) (lastValues d) (stopped d) tags bs.
Definition with_conn (d : Device) (c : option Conn) (cl : DeviceState) : Device :=
  mkDev (DeviceID d) (Host d) (Port d) cl (Subscribers d) c (failures d) (lastValues d) (stopped d) (allTags d) (blocks d).
Definition with_failures (d : Device) (n : Z) : Device :=
  mkDev (DeviceID d) (Host d) (Port d) (client d) (Subscribers d) (conn d) n (lastValues d) (stopped d) (allTags d) (blocks d).
Definition with_values (d : Device) (vals : gmap string value) : Device :=
  mkDev (DeviceID d) (Host d) (Port d) (client d) (Subscribers d) (conn d) (failures d) vals (stopped d) (allTags d) (blocks d).
Definition with_stopped (d : Device) : Device :=
  mkDev (DeviceID d) (Host d) (Port d) (client d) (Subscribers d) (conn d) (failures d) (lastValues d) true (allTags d) (blocks d).

(** Where a poll loop is: at its head, in its backoff, before the connection is ensured,
    with blocks to read and the values read so far, after a failed read, with values to
    publish, waiting for the next scan, returned. Waits are in milliseconds. *)
Inductive phase :=
  | Top
  | Backoff (ms : Z)
  | Connect
  | Reading (todo : list ReadBlock) (allValues : gmap string value)
  | ReadFailed
  | Publish (allValues : gmap string value)
  | Wait (ms : Z)
  | Done.

Record Scanner := mkScanner {
  devices : gmap string nat;
  heap : list (Device * phase);
}.

Definition newScanner : Scanner := mkScanner ∅ [].

(** ** Subscriptions *)

(** The reply of a handler: success or an error message. *)
Definition reply : Type := option string.

Definition rebuildDevicePlan (o : ranging) (d : Device) : Device :=
  let tags := fold_left (λ all sub, fold_left (λ all t, <[t.1 := t.2]> all) (o _ (sbTags sub.2)) all)
    (o _ (Subscribers d)) ∅ in
  with_plan d tags (buildReadBlocks (map snd (o _ tags))).

(** A channel that is closed twice panics; [stopped] prevents it. *)
Definition stopDevice (d : Device) : Device := if stopped d then d else with_stopped d.

Definition tag_config (byteOrder : string) (tag : ModbusTagConfig) : ModbusTagConfig :=
  mkTag (ID tag) (Address tag)
    (if String.eqb (tagFunctionCode tag) "" then "holding" else tagFunctionCode tag)
    (if String.eqb (Datatype tag) "" then "uint16" else Datatype tag)
    (if String.eqb (tagByteOrder tag) "" then byteOrder else tagByteOrder tag)
    (Writable tag).

(** The subscriber of a request: a later tag of the same name replaces an earlier one. *)
Definition new_subscriber (q : ModbusScannerSubscribeRequest) : Subscriber :=
  mkSubscriber (if mrScanRate q <=? 0 then 1000 else mrScanRate q)
    (fold_left (λ m tag, <[ID tag := tag_config (mrByteOrder q) tag]> m) (mrTags q) ∅).

Definition new_device (q : ModbusScannerSubscribeRequest) : Device :=
  let port := if mrPort q =? 0 then 502 else mrPort q in
  let unitID := if mrUnitID q =? 0 then 1 else mrUnitID q in
  mkDev (mrDeviceID q) (mrHost q) port (mkDevice (wrapu 8 unitID) (mrByteOrder q) 0 [])
    ∅ None 0 ∅ false ∅ [].

(** [data] is the request or the error of decoding it. *)
Definition handleSubscribe (o : ranging) (data : string + ModbusScannerSubscribeRequest) (s : Scanner)
    : reply * Scanner :=
  match data with
  | inl err => (Some err, s)
  | inr q =>
      if String.eqb (mrDeviceID q) "" || String.eqb (mrHost q) "" then
        (Some "deviceId and host are required", s)
      else
        let subscribe dev := rebuildDevicePlan o
          (with_subscribers dev (<[mrSubscriberID q := new_subscriber q]> (Subscribers dev))) in
        match devices s !! mrDeviceID q with
        | Some p => (None, mkScanner (devices s) (alter (prod_map subscribe id) p (heap s)))
        | None =>
            (None, mkScanner (<[mrDeviceID q := length (heap s)]> (devices s))
                     (heap s ++ [(subscribe (new_device q), Top)]))
        end
  end.

Record UnsubscribeRequest := mkUnsubscribe {
  uSubscriberID : string;
  uDeviceID : string;
  uTagIDs : list string;
}.

(** A subscriber without some of its tags; without any it is forgotten. *)
Definition remove_tags (ids : list string) (sub : Subscriber) : option Subscriber :=
  let tags := fold_left (λ m id, delete id m) ids (sbTags sub) in
  if decide (tags = ∅) then None else Some (mkSubscriber (ScanRate sub) tags).

Definition unsubscribe (q : UnsubscribeRequest) (subs : gmap string Subscriber) : gmap string Subscriber :=
  match uTagIDs q with
  | [] => delete (uSubscriberID q) subs
  | ids => partial_alter (λ sub, sub ≫= remove_tags ids) (uSubscriberID q) subs
  end.

Definition handleUnsubscribe (o : ranging) (data : string + UnsubscribeRequest) (s : Scanner) : reply * Scanner :=
  match data with
  | inl err => (Some err, s)
  | inr q =>
      match devices s !! uDeviceID q with
      | None => (None, s)
      | Some p =>
          match heap s !! p with
          | None => (None, s)
          | Some (dev, ph) =>
              let dev := with_subscribers dev (unsubscribe q (Subscribers dev)) in
              if decide (Subscribers dev = ∅) then
                (None, mkScanner (delete (uDeviceID q) (devices s)) (<[p := (stopDevice dev, ph)]> (heap s)))
              else (None, mkScanner (devices s) (<[p := (rebuildDevicePlan o dev, ph)]> (heap s)))
          end
      end
  end.

(** The watch of the configuration bucket: a value that was put, or a deletion. *)
Definition handleConfig (o : ranging) (key : string) (put : option (string + ModbusScannerSubscribeRequest))
    (s : Scanner) : Scanner :=
  match put with
  | Some value => (handleSubscribe o value s).2
  | None =>
      match GoText.split_n dot 2 key with
      | [subscriberID; deviceID] => (handleUnsubscribe o (inr (mkUnsubscribe subscriberID deviceID [])) s).2
      | _ => s
      end
  end.

(** [stop]: every device is stopped and forgotten. *)
Definition stop (s : Scanner) : Scanner :=
  mkScanner ∅ (imap (λ p dp, if bool_decide (p ∈ (map_to_list (devices s)).*2) then (stopDevice dp.1, dp.2) else dp) (heap s)).

(** The subjects [start] subscribes to, until one fails; [watch] is the error of watching
    the bucket, which is only logged. *)
Definition start (subscribe : string → option string) (watch : option string) : option string * list string :=
  (fix go (l : list (string * string)) (subs : list string) :=
     match l with
     | [] => (None, subs ++ match watch with None => [ScannerBucket "modbus"] | Some _ => [] end)
     | (what, subject) :: l =>
         match subscribe subject with
         | Some err => (Some (what +:+ " handler: " +:+ err), subs)
         | None => go l (subs ++ [subject])
         end
     end)
    [("subscribe", ScannerSubscribe "modbus"); ("unsubscribe", ScannerUnsubscribe "modbus");
     ("variables", ScannerVariables "modbus"); ("command", CommandWildcard "modbus")] [].

(** ** The connection (client.go) *)

(** [net.JoinHostPort] *)
Definition JoinHostPort (host port : string) : string :=
  if bool_decide (":"%char ∈ chars host) || bool_decide ("%"%char ∈ chars host)
  then "[" +:+ host +:+ "]:" +:+ port else host +:+ ":" +:+ port.

(** [dial] gives the error or the connection for an address. *)
Definition connect (dial : string → string + Conn) (d : Device) : option string * Device :=
  let addr := JoinHostPort (Host d) (itoa (Port d)) in
  match dial addr with
  | inl err => (Some ("connect " +:+ addr +:+ ": " +:+ err), d)
  | inr c => (None, with_conn d (Some c) (mkDevice (dUnitID (client d)) (ByteOrder (client d)) 0 []))
  end.

Definition disconnect (d : Device) : Device :=
  match conn d with
  | Some _ => with_conn d None (with_buf (client d) [])
  | None => d
  end.

(** ** Polling *)

Section Poll.
Context `{FloatConv, FloatText}.
Context (moduleID : string).

Definition same_text (last : option value) (v : value) : bool :=
  match last with Some l => String.eqb (fmt_v l) (fmt_v v) | None => false end.

Definition scan_message (d : Device) (tag : ModbusTagConfig) (tagID : string) (v : value) (nowMs : Z)
    : string * PlcDataMessage :=
  (Topics.Data "modbus" (SanitizeForSubject (DeviceID d)) (SanitizeForSubject tagID),
   mkData moduleID (DeviceID d) tagID v nowMs (modbusToNatsDatatype (Datatype tag)) "" None false false None None).

(** One value: the error of publishing is only logged. *)
Definition publish_value (nowMs : Z) (st : Device * list (string * PlcDataMessage)) (kv : string * value)
    : Device * list (string * PlcDataMessage) :=
  let '(d, out) := st in
  let '(tagID, val) := kv in
  if same_text (lastValues d !! tagID) val then (d, out)
  else
    let d := with_values d (<[tagID := val]> (lastValues d)) in
    match allTags d !! tagID with
    | None => (d, out)
    | Some tag => if json_ok val then (d, out ++ [scan_message d tag tagID val nowMs]) else (d, out)
    end.

Definition publishChanges (o : ranging) (nowMs : Z) (d : Device) (values : gmap string value)
    : Device * list (string * PlcDataMessage) :=
  fold_left (publish_value nowMs) (o _ values) (d, []).

(** What the surroundings decide in a step: the connection, whether the timer of a wait
    fires before the stop channel is seen, and the clock. *)
Record env := mkEnv { eDial : string → string + Conn; eTimer : bool; eNow : Z }.

(** A wait ends when the timer fires or the device is stopped; the [disconnect] of a stopped
    device is taken as one step, though no lock is held. *)
Definition wait (e : env) (d : Device) (ph next : phase) : Device * phase :=
  if eTimer e then (d, next) else if stopped d then (disconnect d, Done) else (d, ph).

(** [pollDevice], from its position to the next; reading without a connection is the nil
    pointer it would be. *)
Definition poll_step (o : ranging) (e : env) (d : Device) (ph : phase)
    : outcome (Device * phase * list (string * PlcDataMessage)) :=
  match ph with
  | Top =>
      if stopped d then Ok (disconnect d, Done, [])
      else
        let bo := backoffDuration (failures d) in
        Ok (d, if 0 <? bo then Backoff bo else Connect, [])
  | Backoff _ => Ok (wait e d ph Connect, [])
  | Connect =>
      match conn d with
      | Some _ => Ok (d, Reading (blocks d) ∅, [])
      | None =>
          match connect (eDial e) d with
          | (Some _, d) => Ok (with_failures d (wraps 64 (failures d + 1)), Top, [])
          | (None, d) => Ok (d, Reading (blocks d) ∅, [])
          end
      end
  | Reading [] allValues => Ok (with_failures d 0, Publish allValues, [])
  | Reading (block :: todo) allValues =>
      match conn d with
      | None => Panic
      | Some c =>
          let '(r, cl, c) := readBlock (client d) block c in
          let d := with_conn d (Some c) cl in
          match r with
          | Ok vals => Ok (d, Reading todo (vals ∪ allValues), [])
          | Err _ => Ok (d, ReadFailed, [])
          | Panic => Panic
          end
      end
  | ReadFailed => Ok (disconnect (with_failures d (wraps 64 (failures d + 1))), Top, [])
  | Publish allValues =>
      let '(d, out) := publishChanges o (eNow e) d allValues in
      Ok (d, Wait (effectiveScanRate (map (λ sub, ScanRate sub.2) (o _ (Subscribers d)))), out)
  | Wait _ => Ok (wait e d ph Top, [])
  | Done => Ok (d, Done, [])
  end.

(** ** Commands and variables *)

(** The device and tag a command writes: the first device in the order of the map that has
    a writable tag of this name. *)
Definition command_device (o : ranging) (tagID : string) (s : Scanner) : option (nat * ModbusTagConfig) :=
  head (omap (λ kp : string * nat,
    dp ← heap s !! kp.2; tag ← allTags dp.1 !! tagID;
    if Writable tag then Some (kp.2, tag) else None) (o _ (devices s))).

(** What a command writes to the connection of its device. *)
Definition write_command (d : Device) (c : Conn) (tag : ModbusTagConfig) (v : value)
    : outcome (outcome unit * DeviceState * Conn) :=
  let fc := fcNameToCode (tagFunctionCode tag) in
  let addr := wrapu 16 (Address tag) in
  if fc =? 1 then
    match toBool v with
    | Some b => Ok (writeSingleCoil (client d) addr b c)
    | None => Ok (Err "invalid coil write value", client d, c)
    end
  else
    match encodeValue v (Datatype tag) (tag_order (client d) tag) with
    | Err e => Ok (Err e, client d, c)
    | Panic => Panic
    | Ok (encoded, regCount) =>
        if (regCount =? 1)%nat then
          hi ← index encoded 0;
          lo ← index encoded 1;
          Ok (writeSingleRegister (client d) addr (Z.lor (Z.shiftl hi 8) lo) c)
        else Ok (writeMultipleRegisters (client d) addr encoded c)
    end.

(** [data] is the decoded message's value or the error of decoding it; errors are only
    logged. *)
Definition handleCommand (o : ranging) (subject : string) (data : string + value) (s : Scanner) : outcome Scanner :=
  match GoText.split_n dot 3 subject, data with
  | [_; _; tagID], inr v =>
      match command_device o tagID s with
      | None => Ok s
      | Some (p, tag) =>
          match heap s !! p with
          | Some (d, ph) =>
              match conn d with
              | None => Ok s
              | Some c =>
                  '(r, cl, c) ← write_command d c tag v;
                  if is_panic r then Panic
                  else Ok (mkScanner (devices s) (<[p := (with_conn d (Some c) cl, ph)]> (heap s)))
              end
          | None => Ok s
          end
      end
  | _, _ => Ok s
  end.

(** The tags of all devices with their last values, without their descriptions. *)
Definition handleVariables (o : ranging) (s : Scanner) : list VariableInfo :=
  concat (map (λ kp : string * nat,
    match heap s !! kp.2 with
    | Some (d, _) =>
        map (λ kt, mkVarInfo moduleID (DeviceID d) kt.1 (default VNil (lastValues d !! kt.1))
                     (modbusToNatsDatatype (Datatype kt.2)) "" None false None) (o _ (allTags d))
    | None => []
    end) (o _ (devices s))).

(** ** Runs *)

Inductive event :=
  | Subscribe (data : string + ModbusScannerSubscribeRequest)
  | Unsubscribe (data : string + UnsubscribeRequest)
  | Config (key : string) (put : option (string + ModbusScannerSubscribeRequest))
  | Command (subject : string) (data : string + value)
  | Poll (p : nat) (e : env)
  | Stop.

Definition step (o : ranging) (ev : event) (s : Scanner) : outcome (Scanner * list (string * PlcDataMessage)) :=
  match ev with
  | Subscribe data => Ok ((handleSubscribe o data s).2, [])
  | Unsubscribe data => Ok ((handleUnsubscribe o data s).2, [])
  | Config key put => Ok (handleConfig o key put s, [])
  | Command subject data => s' ← handleCommand o subject data s; Ok (s', [])
  | Poll p e =>
      match heap s !! p with
      | Some (d, ph) =>
          '(d, ph, out) ← poll_step o e d ph;
          Ok (mkScanner (devices s) (<[p := (d, ph)]> (heap s)), out)
      | None => Ok (s, [])
      end
  | Stop => Ok (stop s, [])
  end.

Fixpoint run (evs : list (ranging * event)) (s : Scanner) : outcome (Scanner * list (string * PlcDataMessage)) :=
  match evs with
  | [] => Ok (s, [])
  | (o, ev) :: evs =>
      '(s, out) ← step o ev s;
      '(s, outs) ← run evs s;
      Ok (s, out ++ outs)
  end.

End Poll.

(** ** The module (modbus.go)

    [moHeartbeat] says that the heartbeat runs; the subscriptions are those of the enabled
    state and of the shutdown. *)

Record Module_ := mkModule {
  moModuleID : string;
  moScanner : option Scanner;
  moHeartbeat : bool;
  moEnabledSub : bool;
  moShutdownSub : bool;
  moEnabled : bool;
}.

Definition New (moduleID : string) : Module_ :=
  mkModule (if String.eqb moduleID "" then "modbus" else moduleID) None false false false true.

(** The watch of the enabled state: [None] is a deletion, [Some None] a value that does not
    parse. *)
Definition watchEnabled (put : option (option bool)) (m : Module_) : Module_ :=
  let enabled := match put with None => true | Some None => moEnabled m | Some (Some b) => b end in
  mkModule (moModuleID m) (moScanner m) (moHeartbeat m) (moEnabledSub m) (moShutdownSub m) enabled.

(** [Start] until it blocks: the answers of the bus to the subscriptions and watches are
    arguments. An error of the scanner is returned with the heartbeat running. *)
Definition Start (subscribe : string → option string) (watch enabledWatch : option string) (m : Module_)
    : option string * Module_ :=
  match start subscribe watch with
  | (Some err, _) => (Some err, mkModule (moModuleID m) (Some newScanner) true (moEnabledSub m) (moShutdownSub m) (moEnabled m))
  | (None, _) =>
      (None, mkModule (moModuleID m) (Some newScanner) true
        (match enabledWatch with None => true | Some _ => moEnabledSub m end)
        (match subscribe (Topics.Shutdown (moModuleID m)) with None => true | Some _ => moShutdownSub m end)
        (moEnabled m))
  end.

(** [Stop] *)
Definition StopModule (m : Module_) : Module_ :=
  mkModule (moModuleID m) (stop <$> moScanner m) false false false (moEnabled m).

(** What the heartbeat reports: the enabled state, the number of devices and of tags. *)
Definition heartbeat_meta (o : ranging) (m : Module_) : bool * option (Z * Z) :=
  (moEnabled m,
   s ← moScanner m;
   Some (Z.of_nat (size (devices s)),
         fold_left (λ n kp, match heap s !! kp.2 with
                            | Some (d, _) => n + Z.of_nat (size (allTags d))
                            | None => n
                            end) (o _ (devices s)) 0)).

(** ** What the scanner promises

    The specification is a table from device and subscriber to what was asked. *)

Notation table := (gmap (string * string) Subscriber).

Definition accepted (q : ModbusScannerSubscribeRequest) : bool :=
  negb (String.eqb (mrDeviceID q) "" || String.eqb (mrHost q) "").

Definition table_subscribe (data : string + ModbusScannerSubscribeRequest) (t : table) : table :=
  match data with
  | inr q => if accepted q then <[(mrDeviceID q, mrSubscriberID q) := new_subscriber q]> t else t
  | inl _ => t
  end.

Definition table_unsubscribe (q : UnsubscribeRequest) (t : table) : table :=
  match uTagIDs q with
  | [] => delete (uDeviceID q, uSubscriberID q) t
  | ids => partial_alter (λ sub, sub ≫= remove_tags ids) (uDeviceID q, uSubscriberID q) t
  end.

Definition table_step (t : table) (ev : event) : table :=
  match ev with
  | Subscribe data => table_subscribe data t
  | Unsubscribe (inr q) => table_unsubscribe q t
  | Config _ (Some data) => table_subscribe data t
  | Config key None =>
      match GoText.split_n dot 2 key with
      | [subscriberID; deviceID] => table_unsubscribe (mkUnsubscribe subscriberID deviceID []) t
      | _ => t
      end
  | Stop => ∅
  | Unsubscribe (inl _) | Command _ _ | Poll _ _ => t
  end.

(** A device polls the tags its subscribers asked for, each in one block. *)
Record plan_ok (d : Device) : Prop := {
  plan_asked : ∀ id t, allTags d !! id = Some t →
    ID t = id ∧ ∃ x sub, Subscribers d !! x = Some sub ∧ sbTags sub !! id = Some t;
  plan_complete : ∀ x sub id, Subscribers d !! x = Some sub → is_Some (sbTags sub !! id) → is_Some (allTags d !! id);
  plan_blocks : ∃ tags, tags ≡ₚ (map_to_list (allTags d)).*2 ∧ blocks d = buildReadBlocks tags;
}.

(** Every tag of a block is of the block's function and inside it. *)
Definition sound_block (b : ReadBlock) : Prop :=
  block_ok (bFunctionCode b) b ∧ Forall (λ x, fcNameToCode (tagFunctionCode (Tag x)) = bFunctionCode b) (Tags b).

(** A loop holds a connection while it reads, publishes and waits, and none when it has
    returned, which it does only for a stopped device. *)
Definition phase_ok (d : Device) (ph : phase) : Prop :=
  match ph with
  | Reading todo _ => is_Some (conn d) ∧ Forall sound_block todo
  | ReadFailed | Publish _ | Wait _ => is_Some (conn d)
  | Done => stopped d = true ∧ conn d = None
  | Top | Backoff _ | Connect => True
  end.

Record serves (s : Scanner) (t : table) : Prop := {
  serves_table : ∀ dev sub,
    t !! (dev, sub) = (p ← devices s !! dev; dp ← heap s !! p; Subscribers dp.1 !! sub);
  serves_device : ∀ dev p, devices s !! dev = Some p → ∃ d ph, heap s !! p = Some (d, ph) ∧
    DeviceID d = dev ∧ stopped d = false ∧ Subscribers d ≠ ∅ ∧ plan_ok d ∧
    map_Forall (λ _ sub, map_Forall (λ id tag, ID tag = id) (sbTags sub)) (Subscribers d);
  serves_loop : ∀ p d ph, heap s !! p = Some (d, ph) →
    (stopped d = false → devices s !! DeviceID d = Some p) ∧ phase_ok d ph ∧ Forall sound_block (blocks d);
}.

(** *** The plan *)

Lemma plan_sound d : plan_ok d → Forall sound_block (blocks d).
Proof. intros [_ _ (tags & _ & ->)]. apply (buildReadBlocks_covers tags). Qed.

Lemma fold_insert_tags (l : list (string * ModbusTagConfig)) : ∀ (m : tag_map) id t,
  fold_left (λ all x, <[x.1 := x.2]> all) l m !! id = Some t → m !! id = Some t ∨ (id, t) ∈ l.
Proof.
  induction l as [|[k x] l IH]; intros m id t; cbn; [auto|]. intros [Hm|Hin]%IH; [|right; by right].
  cbn in Hm. apply lookup_insert_Some in Hm as [[-> ->]|[_ Hm]]; [right; by left|by left].
Qed.

Lemma fold_insert_dom (l : list (string * ModbusTagConfig)) : ∀ (m : tag_map) id,
  is_Some (m !! id) ∨ id ∈ l.*1 → is_Some (fold_left (λ all x, <[x.1 := x.2]> all) l m !! id).
Proof.
  induction l as [|[k x] l IH]; intros m id; cbn; [intros [?|?%elem_of_nil]; done|]. intros Hin. apply IH. cbn.
  rewrite lookup_insert_is_Some'. rewrite elem_of_cons in Hin. destruct Hin as [?|[->|?]]; auto.
Qed.

Section Plan.
Context (o : ranging).

Definition union_tags (l : list (string * Subscriber)) (m : tag_map) : tag_map :=
  fold_left (λ all sub, fold_left (λ all x, <[x.1 := x.2]> all) (o _ (sbTags sub.2)) all) l m.

Lemma union_tags_asked l : ∀ m id t, union_tags l m !! id = Some t →
  m !! id = Some t ∨ ∃ x sub, (x, sub) ∈ l ∧ sbTags sub !! id = Some t.
Proof.
  induction l as [|[x sub] l IH]; intros m id t; cbn; [auto|]. intros [Hm|(y & sub' & Hin & Ht)]%IH.
  - apply fold_insert_tags in Hm as [Hm|Hin]; [by left|]. right. exists x, sub. split; [by left|].
    cbn in Hin. by apply range_lookup in Hin.
  - right. exists y, sub'. split; [by right|done].
Qed.

Lemma union_tags_complete l : ∀ m id,
  is_Some (m !! id) ∨ (∃ x sub, (x, sub) ∈ l ∧ is_Some (sbTags sub !! id)) → is_Some (union_tags l m !! id).
Proof.
  induction l as [|[x sub] l IH]; intros m id; cbn.
  { intros [?|(? & ? & ?%elem_of_nil & _)]; done. }
  intros Hin. apply IH. destruct Hin as [?|(y & sub' & [[= -> ->]|Hin]%elem_of_cons & [t Ht])]; [left; apply fold_insert_dom; by left| |].
  - left. apply fold_insert_dom. right. apply (range_lookup o) in Ht. by apply (list_elem_of_fmap_2 fst _ (id, t)).
  - right. exists y, sub'. eauto.
Qed.

Lemma rebuild_plan d :
  map_Forall (λ _ sub, map_Forall (λ id tag, ID tag = id) (sbTags sub)) (Subscribers d) → plan_ok (rebuildDevicePlan o d).
Proof.
  intros Hids. change (rebuildDevicePlan o d) with
    (with_plan d (union_tags (o _ (Subscribers d)) ∅) (buildReadBlocks (map snd (o _ (union_tags (o _ (Subscribers d)) ∅))))).
  split; cbn.
  - intros id t [Hm|(x & sub & Hin & Ht)]%union_tags_asked; [by rewrite lookup_empty in Hm|].
    apply range_lookup in Hin. split; [by apply (Hids x sub Hin)|eauto].
  - intros x sub id Hx Ht. apply union_tags_complete. right. exists x, sub. split; [by apply range_lookup|done].
  - eexists. split; [|done]. change (map snd ?l) with (l.*2). by rewrite range_perm.
Qed.

End Plan.

(** *** Steps keep the promise *)

Notation well_named := (map_Forall (λ (_ : string) sub, map_Forall (λ id tag, ID tag = id) (sbTags sub))).

Lemma new_subscriber_named q : map_Forall (λ id tag, ID tag = id) (sbTags (new_subscriber q)).
Proof.
  unfold new_subscriber. cbn [sbTags]. generalize (mrTags q) as l. intros l.
  assert (map_Forall (λ id tag, ID tag = id) (∅ : tag_map)) as Hm by apply map_Forall_empty.
  revert Hm. generalize (∅ : tag_map) as m. induction l as [|x l IH]; intros m Hm; cbn; [done|]. apply IH.
  by apply map_Forall_insert_2.
Qed.

Lemma remove_tags_lookup ids sub sub' : remove_tags ids sub = Some sub' → sbTags sub' ⊆ sbTags sub.
Proof.
  unfold remove_tags. case_decide; [done|]. intros [= <-]. cbn. clear. generalize (sbTags sub) as m.
  induction ids as [|i ids IH]; intros m; cbn; [done|]. etransitivity; [apply IH|]. apply delete_subseteq.
Qed.

Lemma unsubscribe_named q subs : well_named subs → well_named (unsubscribe q subs).
Proof.
  intros Hs. unfold unsubscribe. destruct (uTagIDs q) as [|i ids]; [by apply map_Forall_delete|].
  intros x sub Hx. destruct (decide (x = uSubscriberID q)) as [->|Hne].
  - rewrite lookup_partial_alter_eq in Hx. destruct (subs !! uSubscriberID q) as [sub0|] eqn:E; [|done]. cbn -[remove_tags] in Hx.
    apply remove_tags_lookup in Hx. intros id tag Ht. eapply (Hs _ _ E). by eapply lookup_weaken.
  - rewrite lookup_partial_alter_ne in Hx by done. by apply (Hs x).
Qed.

Lemma devices_inj s t a b p : serves s t → devices s !! a = Some p → devices s !! b = Some p → a = b.
Proof.
  intros Hs Ha Hb. destruct (serves_device s t Hs _ _ Ha) as (d & ph & Hd & <- & _).
  destruct (serves_device s t Hs _ _ Hb) as (d' & ph' & Hd' & <- & _). congruence.
Qed.

(** A table that differs from [t] in one device only. *)
Definition table_device (t t' : table) (dev : string) (subs : gmap string Subscriber) : Prop :=
  ∀ a x, t' !! (a, x) = if decide (a = dev) then subs !! x else t !! (a, x).

(** The live device at [p] gets other subscribers and their plan. *)
Lemma serves_change s t t' dev p d ph d' : serves s t → devices s !! dev = Some p → heap s !! p = Some (d, ph) →
  DeviceID d' = DeviceID d → stopped d' = false → Subscribers d' ≠ ∅ → plan_ok d' → well_named (Subscribers d') →
  conn d' = conn d → table_device t t' dev (Subscribers d') →
  serves (mkScanner (devices s) (<[p := (d', ph)]> (heap s))) t'.
Proof.
  intros Hs Hdev Hp Hid Hst Hne Hplan Hnm Hconn Ht. pose proof (lookup_lt_Some _ _ _ Hp) as Hlt. split; cbn.
  - intros a x. rewrite Ht. case_decide as Ha.
    + subst a. rewrite Hdev. cbn. by rewrite list_lookup_insert_eq.
    + rewrite (serves_table s t Hs). destruct (devices s !! a) as [pa|] eqn:E; [|done]. cbn.
      rewrite list_lookup_insert_ne; [done|]. intros ->. apply Ha. by eapply devices_inj.
  - intros a pa Ha. destruct (decide (pa = p)) as [->|Hpa].
    + assert (a = dev) as -> by by eapply devices_inj. exists d', ph.
      rewrite list_lookup_insert_eq by done. split_and!; [done| |done..].
      rewrite Hid. destruct (serves_device s t Hs _ _ Hdev) as (d0 & ph0 & Hd0 & <- & _). congruence.
    + rewrite list_lookup_insert_ne by done. by apply (serves_device s t Hs).
  - intros pa da pha Ha. destruct (decide (pa = p)) as [->|Hpa].
    + rewrite list_lookup_insert_eq in Ha by done. injection Ha as <- <-.
      destruct (serves_loop s t Hs _ _ _ Hp) as (_ & Hph & _). split_and!; [| |by apply plan_sound].
      * intros _. rewrite Hid. destruct (serves_device s t Hs _ _ Hdev) as (d0 & ph0 & Hd0 & <- & _). congruence.
      * destruct (serves_device s t Hs _ _ Hdev) as (d0 & ph0 & Hd0 & _ & Hst0 & _). rewrite Hp in Hd0. injection Hd0 as <- <-.
        destruct ph; cbn in *; rewrite ?Hconn; try done. destruct Hph. congruence.
    + rewrite list_lookup_insert_ne in Ha by done. by apply (serves_loop s t Hs).
Qed.

(** A poll loop or a command changes nothing subscribers see. *)
Definition same_service (d d' : Device) : Prop :=
  DeviceID d' = DeviceID d ∧ Host d' = Host d ∧ Port d' = Port d ∧ Subscribers d' = Subscribers d ∧
  stopped d' = stopped d ∧ allTags d' = allTags d ∧ blocks d' = blocks d.

#[local] Hint Extern 0 (same_service _ _) => repeat split; fast_done : core.

Lemma plan_same d d' : same_service d d' → plan_ok d → plan_ok d'.
Proof. intros (Hid & _ & _ & Hs & Hst & Ht & Hb) [H1 H2 H3]. split; rewrite ?Ht, ?Hs, ?Hb; done. Qed.

Lemma serves_same s t p d ph d' ph' : serves s t → heap s !! p = Some (d, ph) → same_service d d' → phase_ok d' ph' →
  serves (mkScanner (devices s) (<[p := (d', ph')]> (heap s))) t.
Proof.
  intros Hs Hp Hsame Hph. pose proof (lookup_lt_Some _ _ _ Hp) as Hlt. pose proof Hsame as (Hid & _ & _ & Hsub & Hst & _ & _).
  split; cbn.
  - intros a x. rewrite (serves_table s t Hs). destruct (devices s !! a) as [pa|] eqn:E; [|done]. cbn.
    destruct (decide (pa = p)) as [->|Hpa]; [|by rewrite list_lookup_insert_ne].
    rewrite list_lookup_insert_eq, Hp by done. cbn. by rewrite Hsub.
  - intros a pa Ha. destruct (serves_device s t Hs _ _ Ha) as (d0 & ph0 & Hd0 & Hr).
    destruct (decide (pa = p)) as [->|Hpa]; [|rewrite list_lookup_insert_ne by done; eauto].
    rewrite Hp in Hd0. injection Hd0 as <- <-. exists d', ph'. rewrite list_lookup_insert_eq, Hid, Hst, Hsub by done.
    destruct Hr as (? & ? & ? & ? & ?). split_and!; try done. by apply (plan_same d).
  - intros pa da pha Ha. destruct (decide (pa = p)) as [->|Hpa].
    + rewrite list_lookup_insert_eq in Ha by done. injection Ha as <- <-. rewrite Hst, Hid.
      destruct (serves_loop s t Hs p d ph Hp) as (? & _ & ?). destruct Hsame as (_ & _ & _ & _ & _ & _ & ->). done.
    + rewrite list_lookup_insert_ne in Ha by done. by apply (serves_loop s t Hs).
Qed.

(** A device without subscribers is stopped and forgotten; its loop goes on. *)
Lemma serves_remove s t t' dev p d ph d' : serves s t → devices s !! dev = Some p → heap s !! p = Some (d, ph) →
  stopped d' = true → conn d' = conn d → blocks d' = blocks d → table_device t t' dev ∅ →
  serves (mkScanner (delete dev (devices s)) (<[p := (d', ph)]> (heap s))) t'.
Proof.
  intros Hs Hdev Hp Hst Hconn Hbs Ht. pose proof (lookup_lt_Some _ _ _ Hp) as Hlt. split; cbn.
  - intros a x. rewrite Ht. case_decide as Ha; [subst; by rewrite lookup_delete_eq, lookup_empty|].
    rewrite lookup_delete_ne by done. rewrite (serves_table s t Hs). destruct (devices s !! a) as [pa|] eqn:E; [|done]. cbn.
    rewrite list_lookup_insert_ne; [done|]. intros ->. apply Ha. by eapply devices_inj.
  - intros a pa [Hne Ha]%lookup_delete_Some. rewrite list_lookup_insert_ne; [by apply (serves_device s t Hs)|].
    intros ->. apply Hne. by eapply devices_inj.
  - intros pa da pha Ha. destruct (decide (pa = p)) as [->|Hpa].
    + rewrite list_lookup_insert_eq in Ha by done. injection Ha as <- <-. split; [congruence|].
      destruct (serves_loop s t Hs _ _ _ Hp) as (_ & Hph & Hb). rewrite Hbs. split; [|done].
      destruct ph; cbn in *; rewrite ?Hconn; try done. by destruct Hph.
    + rewrite list_lookup_insert_ne in Ha by done. destruct (serves_loop s t Hs _ _ _ Ha) as [Hl ?]. split; [|done].
      intros Hsa. specialize (Hl Hsa). rewrite lookup_delete_ne; [done|]. intros Heq. rewrite <- Heq in Hl. congruence.
Qed.

Lemma subscribe_served o data s t : serves s t → serves (handleSubscribe o data s).2 (table_subscribe data t).
Proof.
  intros Hs. destruct data as [e|q]; [done|]. unfold handleSubscribe, table_subscribe, accepted.
  destruct (String.eqb (mrDeviceID q) "" || String.eqb (mrHost q) ""); cbn [negb]; [done|].
  set (dev := mrDeviceID q). set (sub := new_subscriber q). destruct (devices s !! dev) as [p|] eqn:Hdev; cbn [snd].
  - destruct (serves_device s t Hs _ _ Hdev) as (d & ph & Hp & Hid & Hst & Hne & _ & Hnm).
    assert (alter (prod_map (λ dev, rebuildDevicePlan o (with_subscribers dev (<[mrSubscriberID q := sub]> (Subscribers dev)))) id) p (heap s)
      = <[p := (rebuildDevicePlan o (with_subscribers d (<[mrSubscriberID q := sub]> (Subscribers d))), ph)]> (heap s)) as ->.
    { apply list_eq. intros i. destruct (decide (i = p)) as [->|Hi].
      - by rewrite list_lookup_alter_eq, list_lookup_insert_eq, Hp by eauto using lookup_lt_Some.
      - by rewrite list_lookup_alter_ne, list_lookup_insert_ne. }
    assert (well_named (<[mrSubscriberID q := sub]> (Subscribers d))) as Hnm'
      by (apply map_Forall_insert_2; [apply new_subscriber_named|done]).
    eapply (serves_change s t _ dev p d ph); try done; cbn.
    + apply insert_non_empty.
    + by apply rebuild_plan.
    + intros a x. destruct (decide (a = dev)) as [->|Ha].
      * destruct (decide (x = mrSubscriberID q)) as [->|Hx]; [by rewrite !lookup_insert_eq|].
        rewrite !lookup_insert_ne by (done || congruence). rewrite (serves_table s t Hs), Hdev. cbn. by rewrite Hp.
      * by rewrite lookup_insert_ne by congruence.
  - assert (well_named (<[mrSubscriberID q := sub]> ∅)) as Hnm'
      by (apply map_Forall_insert_2; [apply new_subscriber_named|apply map_Forall_empty]).
    set (d := rebuildDevicePlan o _). split; cbn.
    + intros a x. destruct (decide (a = dev)) as [->|Ha].
      * rewrite lookup_insert_eq. cbn. rewrite list_lookup_middle by done. cbn.
        destruct (decide (x = mrSubscriberID q)) as [->|Hx]; [by rewrite !lookup_insert_eq|].
        rewrite !lookup_insert_ne by congruence. rewrite lookup_empty.
        by rewrite (serves_table s t Hs), Hdev.
      * rewrite !lookup_insert_ne by congruence. rewrite (serves_table s t Hs).
        destruct (devices s !! a) as [pa|] eqn:E; [|done]. cbn.
        destruct (serves_device s t Hs _ _ E) as (da & pha & Hpa & _). by rewrite (lookup_app_l_Some _ _ _ _ Hpa), Hpa.
    + intros a pa [[<- <-]|[Hne Ha]]%lookup_insert_Some.
      * exists d, Top. rewrite list_lookup_middle by done. split_and!; [done..|apply insert_non_empty| |done].
        by apply rebuild_plan.
      * destruct (serves_device s t Hs _ _ Ha) as (da & pha & Hpa & Hr). exists da, pha.
        by rewrite (lookup_app_l_Some _ _ _ _ Hpa).
    + intros pa da pha [Hpa|[Hle Hpa]]%lookup_app_Some.
      * destruct (serves_loop s t Hs _ _ _ Hpa) as [Hl ?]. split; [|done]. intros Hst. specialize (Hl Hst).
        rewrite lookup_insert_ne; [done|]. intros Heq. rewrite <- Heq in Hl. congruence.
      * apply list_lookup_singleton_Some in Hpa as [Hn [= <- <-]].
        split_and!; [|done|by apply plan_sound, rebuild_plan]. intros _. cbn. rewrite lookup_insert_eq. f_equal. lia.
Qed.

Lemma table_unsubscribe_device q t a x :
  table_unsubscribe q t !! (a, x) =
    if decide (a = uDeviceID q) then
      if decide (x = uSubscriberID q) then
        match uTagIDs q with [] => None | ids => t !! (a, x) ≫= remove_tags ids end
      else t !! (a, x)
    else t !! (a, x).
Proof.
  unfold table_unsubscribe. destruct (decide (a = uDeviceID q)) as [->|Ha]; [destruct (decide (x = uSubscriberID q)) as [->|Hx]|];
    destruct (uTagIDs q); rewrite ?lookup_delete_eq, ?lookup_partial_alter_eq, ?lookup_delete_ne, ?lookup_partial_alter_ne
    by congruence; done.
Qed.

Lemma unsubscribe_lookup q subs x :
  unsubscribe q subs !! x =
    if decide (x = uSubscriberID q) then match uTagIDs q with [] => None | ids => subs !! x ≫= remove_tags ids end
    else subs !! x.
Proof.
  unfold unsubscribe. destruct (decide (x = uSubscriberID q)) as [->|Hx];
    destruct (uTagIDs q); rewrite ?lookup_delete_eq, ?lookup_partial_alter_eq, ?lookup_delete_ne, ?lookup_partial_alter_ne
    by congruence; done.
Qed.

Lemma unsubscribe_served o q s t : serves s t → serves (handleUnsubscribe o (inr q) s).2 (table_unsubscribe q t).
Proof.
  intros Hs. unfold handleUnsubscribe. destruct (devices s !! uDeviceID q) as [p|] eqn:Hdev; cbn [snd].
  - destruct (serves_device s t Hs _ _ Hdev) as (d & ph & Hp & Hid & Hst & Hne & _ & Hnm). rewrite Hp.
    assert (table_device t (table_unsubscribe q t) (uDeviceID q) (unsubscribe q (Subscribers d))) as Ht.
    { intros a x. rewrite table_unsubscribe_device, unsubscribe_lookup. case_decide as Ha; [subst a|done].
      by rewrite (serves_table s t Hs), Hdev; cbn; rewrite Hp. }
    case_decide as He; cbn in He.
    + rewrite He in Ht. cbn [snd]. eapply (serves_remove s t _ (uDeviceID q) p d ph); try done;
        unfold stopDevice; cbn; by rewrite Hst.
    + eapply (serves_change s t _ (uDeviceID q) p d ph); try done; [apply rebuild_plan|]; by apply unsubscribe_named.
  - assert (table_unsubscribe q t = t) as ->; [|done]. apply map_eq. intros [a x]. rewrite table_unsubscribe_device.
    case_decide as Ha; [subst a|done]. rewrite (serves_table s t Hs), Hdev. cbn. case_decide; [|done]. by destruct (uTagIDs q).
Qed.

Lemma stop_served s t : serves s t → serves (stop s) ∅.
Proof.
  intros Hs. unfold stop. split; cbn.
  - intros a x. by rewrite !lookup_empty.
  - intros a p. by rewrite lookup_empty.
  - intros p d ph. rewrite list_lookup_imap. destruct (heap s !! p) as [[d0 ph0]|] eqn:Hp; [|done]. cbn.
    destruct (serves_loop s t Hs _ _ _ Hp) as (Hl & Hph & Hb). case_bool_decide as Hin; intros [= <- <-].
    + apply list_elem_of_fmap in Hin as ([a p'] & -> & Ha%elem_of_map_to_list). cbn in *.
      destruct (serves_device s t Hs _ _ Ha) as (d1 & ph1 & Hd1 & _ & Hst & _). rewrite Hp in Hd1. injection Hd1 as <- <-.
      unfold stopDevice. rewrite Hst. split_and!; [done| |done]. destruct ph0; cbn in *; try done. by destruct Hph.
    + split; [|done]. intros Hst. specialize (Hl Hst). destruct Hin. apply list_elem_of_fmap.
      exists (DeviceID d0, p). split; [done|]. by apply elem_of_map_to_list.
Qed.

(** *** Polling and commands *)

Lemma decodeMBAP_no_panic buf : is_panic (decodeMBAPResponse buf) = false ∧
  ∀ f n, decodeMBAPResponse buf = Ok (f, n) → (n ≤ length buf)%nat.
Proof.
  unfold decodeMBAPResponse, mbapHeaderSize. case_if; [done|]. bool_to_prop.
  rewrite !get_be_ok by lia. cbn [mbind outcome_bind].
  destruct (index_ok buf 6) as (u & -> & _); [lia|]. cbn [mbind outcome_bind].
  case_if; [done|]. case_if; [done|]. bool_to_prop.
  destruct (index_ok buf 7) as (c & -> & _); [lia|]. cbn [mbind outcome_bind].
  rewrite slice_ok by lia. cbn [mbind outcome_bind]. unfold make_bytes. rewrite (proj2 (Z.leb_le _ _)) by lia.
  split; [done|]. intros f n [= _ <-]%Ok_inj. lia.
Qed.

Lemma receive_no_panic chunks e : ∀ d, is_panic (receive d chunks e).1.1 = false.
Proof.
  induction chunks as [|chunk chunks IH]; intros d; rewrite receive_bytes_eq; cbn zeta.
  all: destruct (decodeMBAP_no_panic (readBuf d)) as [Hnp Hle].
  all: destruct (mbapHeaderSize <=? length (readBuf d))%nat; [|(done || apply IH)].
  all: destruct (decodeMBAPResponse (readBuf d)) as [[f n]|err|]; [|(done || apply IH)|done].
  all: rewrite slice_ok; [|by eapply Hle|lia]; cbn; unfold finish; by case_if.
Qed.

Lemma send_no_panic d pdu c : is_panic (sendAndReceive d pdu c).2.1.1 = false.
Proof.
  unfold sendAndReceive. cbn [nextTxnID]. destruct (writeError c); [done|].
  pose proof (receive_no_panic (incoming c) (readError c)
    (mkDevice (dUnitID d) (ByteOrder d) (wrapu 16 (txnID d + 1)) (readBuf d))) as Hr.
  by destruct (receive _ _ _) as [[r d'] cs].
Qed.

Lemma payload_no_panic f : is_panic (payload f) = false.
Proof.
  unfold payload. destruct (Data f) as [|bc data]; [done|]. case_if; [done|]. bool_to_prop.
  rewrite slice_ok by lia. done.
Qed.

Lemma readRegisters_no_panic d fc a n c : is_panic (readRegisters d fc a n c).1.1 = false.
Proof.
  unfold readRegisters. pose proof (send_no_panic d (buildReadPDU fc a n) c) as Hs.
  destruct (sendAndReceive _ _ _) as [frame [[r d'] c']]. cbn in *. destruct r; cbn; [apply payload_no_panic|done..].
Qed.

Section Panics.
Context `{FloatConv, FloatText}.

Lemma decode_coils_no_panic data tags : ∀ m, is_panic (decode_coils data tags m) = false.
Proof.
  induction tags as [|x tags IH]; intros m; cbn; [done|].
  destruct (decodeBoolFromCoils data (Z.to_nat (Offset x))) as [b|e|] eqn:E; cbn; [apply IH|done|]. exfalso.
  unfold decodeBoolFromCoils in E. case_if; [done|]. bool_to_prop.
  destruct (index_ok data (Z.to_nat (Offset x) / 8)) as (y & Hy & _); [done|]. by rewrite Hy in E.
Qed.

(** Reading panics only on register data that ends before a tag of the block. *)
Lemma readBlock_panics d block c : is_panic (readBlock d block c).1.1 = true →
  fcIsCoilOrDiscrete (bFunctionCode block) = false ∧
  ∃ data, (readRegisters d (wrapu 8 (bFunctionCode block)) (wrapu 16 (StartAddr block)) (wrapu 16 (Count block)) c).1.1 = Ok data ∧
    (Forall (λ x, 0 ≤ Offset x) (Tags block) → ∃ x, x ∈ Tags block ∧ beyond data x = true).
Proof.
  unfold readBlock. pose proof (readRegisters_no_panic d (wrapu 8 (bFunctionCode block)) (wrapu 16 (StartAddr block))
    (wrapu 16 (Count block)) c) as Hn.
  destruct (readRegisters _ _ _ _ _) as [[[data|e|] d'] c']; cbn [fst snd mbind outcome_bind] in *; [|done..].
  destruct (fcIsCoilOrDiscrete (bFunctionCode block)).
  { intros Hp. by rewrite decode_coils_no_panic in Hp. }
  intros Hp. split; [done|]. exists data. split; [done|]. intros Ho.
  rewrite decode_words_panics in Hp by done. apply existsb_exists in Hp as (x & Hx%list_elem_of_In & Hb). eauto.
Qed.

Lemma write_command_no_panic d c tag v :
  ∃ r cl c', write_command d c tag v = Ok (r, cl, c') ∧ is_panic r = false.
Proof.
  assert (∀ pdu p, is_panic (wrapErr p (sendAndReceive (client d) pdu c).2.1.1) = false) as Hs.
  { intros pdu p. pose proof (send_no_panic (client d) pdu c) as Hn.
    by destruct (sendAndReceive _ _ _) as [? [[[] ?] ?]]. }
  unfold write_command. cbv zeta. case_if.
  { destruct (toBool v) as [b|]; [|by do 3 eexists]. unfold writeSingleCoil.
    specialize (Hs (buildWriteSingleCoilPDU (wrapu 16 (Address tag)) b)).
    destruct (sendAndReceive _ _ _) as [? [[? ?] ?]]. do 3 eexists. split; [done|]. apply Hs. }
  unfold encodeValue. assert (is_panic (encode_raw v (Datatype tag)) = false) as He.
  { unfold encode_raw, cannot_convert. repeat case_if; destruct (toBool v), (toInt64 v), (toFloat64 v); done. }
  destruct (encode_raw v (Datatype tag)) as [raw|e|] eqn:Er; cbn [mbind outcome_bind]; [|by do 3 eexists|done].
  apply encode_raw_spec in Er as [Hl _].
  set (bs := arrangeBytes raw _). assert (2 ≤ length bs)%nat as Hbs.
  { unfold bs. rewrite arrangeBytes_length, Hl. pose proof (registerCount_range (Datatype tag)). lia. }
  case_if.
  - destruct (index_ok bs 0) as (hi & -> & _); [lia|]. destruct (index_ok bs 1) as (lo & -> & _); [lia|]. cbn [mbind outcome_bind].
    unfold writeSingleRegister. specialize (Hs (buildWriteSingleRegisterPDU (wrapu 16 (Address tag)) (Z.lor (Z.shiftl hi 8) lo))).
    destruct (sendAndReceive _ _ _) as [? [[? ?] ?]]. do 3 eexists. split; [done|]. apply Hs.
  - unfold writeMultipleRegisters. specialize (Hs (buildWriteMultipleRegistersPDU (wrapu 16 (Address tag)) bs)).
    destruct (sendAndReceive _ _ _) as [? [[? ?] ?]]. do 3 eexists. split; [done|]. apply Hs.
Qed.

End Panics.

Section Steps.
Context `{FloatConv, FloatText}.
Context (moduleID : string).

Lemma publish_same now values : ∀ d out, same_service d (fold_left (publish_value moduleID now) values (d, out)).1 ∧
  conn (fold_left (publish_value moduleID now) values (d, out)).1 = conn d.
Proof.
  induction values as [|[id v] values IH]; intros d out; [done|]. cbn [fold_left publish_value].
  destruct (same_text (lastValues d !! id) v); [apply IH|]. cbv zeta.
  set (d' := with_values d (<[id := v]> (lastValues d))).
  assert (∀ out', same_service d (fold_left (publish_value moduleID now) values (d', out')).1 ∧
    conn (fold_left (publish_value moduleID now) values (d', out')).1 = conn d) as Hd by (intros out'; apply (IH d' out')).
  destruct (allTags d' !! id); [|done]. by destruct (json_ok v).
Qed.

Lemma disconnect_same d : same_service d (disconnect d) ∧ conn (disconnect d) = None.
Proof. unfold disconnect. by destruct (conn d) eqn:E. Qed.

Lemma wait_keeps e d ph next d' ph' : wait e d ph next = (d', ph') → phase_ok d ph → phase_ok d next →
  same_service d d' ∧ phase_ok d' ph'.
Proof.
  unfold wait. intros Hw Hp Hn. destruct (eTimer e); [by injection Hw as <- <-|]. destruct (stopped d) eqn:Hst; injection Hw as <- <-; [|done].
  destruct (disconnect_same d) as [Hs Hc]. split; [done|]. split; [|done]. destruct Hs as (_ & _ & _ & _ & -> & _). done.
Qed.

Lemma poll_keeps o e d ph d' ph' out : poll_step moduleID o e d ph = Ok (d', ph', out) → phase_ok d ph →
  Forall sound_block (blocks d) → same_service d d' ∧ phase_ok d' ph'.
Proof.
  intros Hp Hph Hb. destruct ph as [|ms| |todo vals| |vals|ms|]; cbn [poll_step] in Hp.
  - destruct (stopped d) eqn:Hst; apply Ok_inj in Hp; injection Hp as <- <- _.
    + destruct (disconnect_same d) as [Hs Hc]. split; [done|]. split; [|done]. by destruct Hs as (_ & _ & _ & _ & -> & _).
    + split; [done|]. by case_if.
  - apply Ok_inj in Hp. injection Hp as Hw _. eapply wait_keeps; [exact Hw|done..].
  - destruct (conn d) as [c|] eqn:Hc; [apply Ok_inj in Hp; injection Hp as <- <- _; cbn; by rewrite Hc|].
    unfold connect in Hp. cbv zeta in Hp. destruct (eDial e _) as [err|c]; apply Ok_inj in Hp; injection Hp as <- <- _; done.
  - destruct todo as [|b todo]; [apply Ok_inj in Hp; injection Hp as <- <- _; by destruct Hph|].
    destruct (conn d) as [c|]; [|done]. destruct (readBlock (client d) b c) as [[r cl] c'].
    destruct Hph as [_ Hall]. apply Forall_cons in Hall as [_ Hall].
    destruct r; [| |done]; apply Ok_inj in Hp; injection Hp as <- <- _; (split; [done|cbn; eauto]).
  - apply Ok_inj in Hp. injection Hp as <- <- _. destruct (disconnect_same (with_failures d (wraps 64 (failures d + 1)))) as [Hs _].
    done.
  - destruct (publishChanges moduleID o (eNow e) d vals) as [d1 out1] eqn:E. apply Ok_inj in Hp. injection Hp as <- <- _.
    pose proof (publish_same (eNow e) (o _ vals) d []) as Hs. unfold publishChanges in E. rewrite E in Hs. destruct Hs as [Hs Hc].
    split; [done|]. cbn in *. by rewrite Hc.
  - apply Ok_inj in Hp. injection Hp as Hw _. eapply wait_keeps; [exact Hw|done..].
  - apply Ok_inj in Hp. by injection Hp as <- <- _.
Qed.

Lemma command_device_lookup o tagID s p tag : command_device o tagID s = Some (p, tag) →
  ∃ dev d ph, devices s !! dev = Some p ∧ heap s !! p = Some (d, ph) ∧ allTags d !! tagID = Some tag ∧ Writable tag = true.
Proof.
  unfold command_device. intros Hh. apply head_Some_elem_of in Hh.
  apply list_elem_of_omap in Hh as ([dev p'] & Hin & Hc). cbn in Hc.
  destruct (heap s !! p') as [[d ph]|] eqn:Hp; [|done]. cbn in Hc. destruct (allTags d !! tagID) as [tag'|] eqn:Ht; [|done]. cbn in Hc.
  destruct (Writable tag') eqn:Hw; [|done]. injection Hc as <- <-. exists dev, d, ph. apply range_lookup in Hin. done.
Qed.

Lemma phase_conn d ph c cl : phase_ok d ph → is_Some (conn d) → phase_ok (with_conn d (Some c) cl) ph.
Proof. intros Hp Hc. destruct ph; cbn in *; try done; [by destruct Hp|]. destruct Hp as [_ Hn]. rewrite Hn in Hc. by destruct Hc. Qed.

Lemma command_served o subject data s t : serves s t → ∃ s', handleCommand o subject data s = Ok s' ∧ serves s' t.
Proof.
  intros Hs. unfold handleCommand. destruct (GoText.split_n dot 3 subject) as [|a [|b [|tagID [|? ?]]]]; try by eexists.
  destruct data as [err|v]; [by eexists|]. destruct (command_device o tagID s) as [[p tag]|] eqn:Hc; [|by eexists].
  apply command_device_lookup in Hc as (dev & d & ph & Hdev & Hp & _). rewrite Hp.
  destruct (conn d) as [c|] eqn:Hcn; [|by eexists].
  destruct (write_command_no_panic d c tag v) as (r & cl & c' & Hw & Hr).
  rewrite Hw. cbn [mbind outcome_bind]. rewrite Hr. eexists. split; [done|].
  apply (serves_same s t p d ph); [done..|]. apply phase_conn; [by apply (serves_loop s t Hs p)|by rewrite Hcn].
Qed.

(** A step keeps the promise, or is the read of a block that panics. *)
Lemma step_served o ev s t : serves s t →
  (∃ s' out, step moduleID o ev s = Ok (s', out) ∧ serves s' (table_step t ev)) ∨
  (step moduleID o ev s = Panic ∧ ∃ p e d block todo vals c, ev = Poll p e ∧
     heap s !! p = Some (d, Reading (block :: todo) vals) ∧ conn d = Some c ∧ is_panic (readBlock (client d) block c).1.1 = true).
Proof.
  intros Hs. destruct ev as [data|data|key put|subject data|p e|]; cbn [step table_step].
  - left. do 2 eexists. split; [done|]. by apply subscribe_served.
  - left. do 2 eexists. split; [done|]. destruct data; [done|]. by apply unsubscribe_served.
  - left. do 2 eexists. split; [done|]. unfold handleConfig. destruct put; [by apply subscribe_served|].
    destruct (GoText.split_n dot 2 key) as [|a [|b [|? ?]]]; [done|done| |done]. by apply unsubscribe_served.
  - left. destruct (command_served o subject data s t Hs) as (s' & -> & Hs'). by do 2 eexists.
  - destruct (heap s !! p) as [[d ph]|] eqn:Hp; [|left; by do 2 eexists].
    destruct (serves_loop s t Hs _ _ _ Hp) as (_ & Hph & Hb).
    destruct (poll_step moduleID o e d ph) as [[[d' ph'] out]|err|] eqn:E; cbn [mbind outcome_bind].
    + left. destruct (poll_keeps _ _ _ _ _ _ _ E Hph Hb) as [Hsame Hph']. do 2 eexists. split; [done|].
      by apply (serves_same s t p d ph).
    + exfalso. destruct ph; cbn [poll_step] in E; repeat case_match; done.
    + right. split; [done|]. exists p, e, d. destruct ph as [| | |todo vals| |vals| |]; cbn [poll_step] in E; try done.
      * by case_if.
      * destruct (conn d); [done|]. by destruct (connect _ _) as [[]].
      * destruct todo as [|block todo]; [done|]. destruct Hph as [[c Hc] _]. rewrite Hc in E. exists block, todo, vals, c.
        split_and!; [done..|]. destruct (readBlock (client d) block c) as [[r cl] c']. by destruct r.
      * by destruct (publishChanges _ _ _ _ _).
  - left. do 2 eexists. split; [done|]. by eapply stop_served.
Qed.

Lemma newScanner_serves : serves newScanner ∅.
Proof. split; cbn; [done|intros ? ? Hd; by rewrite lookup_empty in Hd|done]. Qed.

Lemma run_served evs : ∀ s t s' out, serves s t → run moduleID evs s = Ok (s', out) →
  serves s' (fold_left table_step evs.*2 t).
Proof.
  induction evs as [|[o ev] evs IH]; intros s t s' out Hs Hr; cbn in Hr.
  { apply Ok_inj in Hr. by injection Hr as <- _. }
  destruct (step_served o ev s t Hs) as [(s1 & o1 & Hstep & Hs1)|[Hstep _]]; rewrite Hstep in Hr; cbn [mbind outcome_bind] in Hr; [|done].
  destruct (run moduleID evs s1) as [[s2 outs]|e|] eqn:E; cbn in Hr; [|done..]. apply Ok_inj in Hr. injection Hr as <- _.
  by eapply IH.
Qed.

End Steps.
