(* ===== verification/ModbusPolling.v ===== *)
(** What the Modbus scanner ([ModbusScanner]) achieves: it serves the requests of its
    configuration bucket, publishes changes, ends the loops of stopped devices, and, against
    the register server of [ModbusServer], publishes the registers. *)

From S2P Require Export ModbusScanner.
From S2P Require Import ModbusStore ModbusServer.
From S2P Require Topics.
Import ChannelBus (dot).
Import Topics (one_token, SanitizeForSubject).
Import ModbusScanner.

#[local] Open Scope Z_scope.

(** ** Requests *)

Section Requests.
Context `{FloatConv, FloatText}.
Context (moduleID : string).


(** The scanner's bucket: what is under each key. *)
Notation bucket := (gmap string ModbusScannerSubscribeRequest).

Definition bucket_step (b : bucket) (ev : event) : bucket :=
  match ev with
  | Config key (Some (inr q)) => <[key := q]> b
  | Config key None => delete key b
  | _ => b
  end.

Definition request_key (sub dev : string) : string := sub +:+ "." +:+ dev.

(** The bucket holds requests under their subscriber and device, as the gateway and the
    PLC write them, and is the only source of requests. *)
Definition bucket_event (ev : event) : Prop :=
  match ev with
  | Config key (Some (inr q)) =>
      key = request_key (mrSubscriberID q) (mrDeviceID q) ∧ one_token (mrSubscriberID q) ∧ accepted q = true
  | Config key None => ∃ sub dev, key = request_key sub dev ∧ one_token sub
  | Config _ (Some (inl _)) | Poll _ _ | Command _ _ => True
  | Subscribe _ | Unsubscribe _ | Stop => False
  end.

Lemma first_token sub dev : one_token sub → GoText.split_n dot 2 (request_key sub dev) = [sub; dev].
Proof.
  intros Hs. unfold request_key, GoText.split_n. cbn [split_chars_n].
  assert (cut_chars dot (chars (sub +:+ "." +:+ dev)) = Some (chars sub, chars dev)) as ->.
  { unfold one_token in Hs. rewrite !chars_app. change (chars "." ++ chars dev) with (dot :: chars dev).
    induction (chars sub) as [|c l IH]; [done|]. apply not_elem_of_cons in Hs as [Hc Hl]. cbn.
    destruct (Ascii.eqb_spec c dot) as [->|_]; [done|]. by rewrite IH. }
  cbn. by rewrite !str_chars.
Qed.

Lemma request_key_inj sub dev sub' dev' : one_token sub → one_token sub' →
  request_key sub dev = request_key sub' dev' → sub = sub' ∧ dev = dev'.
Proof. intros Hs Hs' He. pose proof (first_token sub dev Hs) as E. rewrite He, first_token in E by done. by injection E. Qed.

Definition table_of (b : bucket) (t : table) : Prop :=
  (∀ dev sub, one_token sub → t !! (dev, sub) = new_subscriber <$> b !! request_key sub dev) ∧
  (∀ dev sub x, t !! (dev, sub) = Some x → one_token sub) ∧
  (∀ key q, b !! key = Some q → key = request_key (mrSubscriberID q) (mrDeviceID q) ∧ one_token (mrSubscriberID q)).

Lemma table_of_step b t ev : bucket_event ev → table_of b t → table_of (bucket_step b ev) (table_step t ev).
Proof.
  intros Hev (Ht & Htok & Hb). destruct ev as [| |key [[err|q]|]| | |]; cbn [bucket_step table_step table_subscribe] in *; try done.
  - destruct Hev as (-> & Hq & ->). split_and!.
    + intros dev sub Hsub. destruct (decide ((mrDeviceID q, mrSubscriberID q) = (dev, sub))) as [[= <- <-]|Hne].
      * by rewrite !lookup_insert_eq.
      * rewrite !lookup_insert_ne; [by apply Ht|intros [? ?]%request_key_inj; congruence|done].
    + intros dev sub x [[[= <- <-] _]|[_ Hx]]%lookup_insert_Some; [done|by eapply Htok].
    + intros key q' [[<- <-]|[_ Hq']]%lookup_insert_Some; [done|by apply Hb].
  - destruct Hev as (sub & dev & -> & Hsub). rewrite first_token by done. cbn. split_and!.
    + intros dev' sub' Hsub'. destruct (decide ((dev, sub) = (dev', sub'))) as [[= <- <-]|Hne].
      * by rewrite !lookup_delete_eq.
      * rewrite !lookup_delete_ne; [by apply Ht|intros [? ?]%request_key_inj; congruence|done].
    + intros dev' sub' x [_ Hx]%lookup_delete_Some. by eapply Htok.
    + intros key q [_ Hq]%lookup_delete_Some. by apply Hb.
Qed.

Lemma table_of_run evs : ∀ b t, Forall bucket_event evs → table_of b t →
  table_of (fold_left bucket_step evs b) (fold_left table_step evs t).
Proof.
  induction evs as [|ev evs IH]; intros b t Hevs Ht; [done|]. apply Forall_cons in Hevs as [Hev Hevs].
  apply IH; [done|]. by apply table_of_step.
Qed.

Lemma new_subscriber_tags q id : is_Some (sbTags (new_subscriber q) !! id) ↔ id ∈ map ID (mrTags q).
Proof.
  unfold new_subscriber. cbn [sbTags].
  assert (∀ (l : list ModbusTagConfig) (m : tag_map),
    is_Some (fold_left (λ m tag, <[ID tag := tag_config (mrByteOrder q) tag]> m) l m !! id) ↔ is_Some (m !! id) ∨ id ∈ map ID l) as Hl.
  { induction l as [|x l IH]; intros m; cbn; [split; [by left|by intros [?|?%elem_of_nil]]|].
    rewrite IH, lookup_insert_is_Some', elem_of_cons. naive_solver. }
  rewrite Hl, lookup_empty. split; [by intros [[? ?]|?]|by right].
Qed.

(** The scanner follows its configuration bucket: after any sequence of puts and
    deletions, among any polls and commands, every request in the bucket is polled, with
    all its tags, by a live device, and every tag a live device polls is asked for by a
    request in the bucket. *)
Theorem scanner_follows_bucket evs s out : Forall bucket_event evs.*2 → run moduleID evs newScanner = Ok (s, out) →
  let b := fold_left bucket_step evs.*2 ∅ in
  (∀ key q, b !! key = Some q → ∃ p d ph, devices s !! mrDeviceID q = Some p ∧ heap s !! p = Some (d, ph) ∧
     stopped d = false ∧ ∀ tag, tag ∈ mrTags q → is_Some (allTags d !! ID tag)) ∧
  (∀ dev p d ph id, devices s !! dev = Some p → heap s !! p = Some (d, ph) → is_Some (allTags d !! id) →
     ∃ key q, b !! key = Some q ∧ mrDeviceID q = dev ∧ id ∈ map ID (mrTags q)).
Proof.
  intros Hevs Hr b. assert (serves s (fold_left table_step evs.*2 ∅)) as Hs
    by (eapply run_served; [apply newScanner_serves|done]).
  assert (table_of b (fold_left table_step evs.*2 ∅)) as (Ht & Htok & Hb).
  { apply table_of_run; [done|]. split_and!; [intros; by rewrite !lookup_empty|intros ? ? ? Hx|intros ? ? Hx]; by rewrite lookup_empty in Hx. }
  set (t := fold_left table_step evs.*2 ∅) in *. split.
  - intros key q Hq. destruct (Hb key q Hq) as [-> Hone].
    pose proof (Ht (mrDeviceID q) (mrSubscriberID q) Hone) as Hx. rewrite Hq, (serves_table s t Hs) in Hx.
    destruct (devices s !! mrDeviceID q) as [p|] eqn:Hp; [|done]. cbn -[new_subscriber] in Hx.
    destruct (serves_device s t Hs _ _ Hp) as (d & ph & Hd & _ & Hst & _ & Hplan & _). rewrite Hd in Hx. cbn -[new_subscriber] in Hx.
    exists p, d, ph. split_and!; [done..|]. intros tag Htag. eapply (plan_complete d Hplan); [exact Hx|].
    apply new_subscriber_tags. apply (list_elem_of_fmap_2 ID _ _ Htag).
  - intros dev p d ph id Hp Hd [tag Hid]. destruct (serves_device s t Hs _ _ Hp) as (d' & ph' & Hd' & _ & _ & _ & Hplan & _).
    rewrite Hd in Hd'. injection Hd' as <- <-. destruct (plan_asked d Hplan _ _ Hid) as (_ & sub & x & Hsub & Hx).
    assert (t !! (dev, sub) = Some x) as Htx by (rewrite (serves_table s t Hs), Hp; cbn; by rewrite Hd).
    pose proof (Htok _ _ _ Htx) as Hone. rewrite (Ht dev sub Hone) in Htx. apply fmap_Some in Htx as (q & Hq & ->).
    destruct (Hb _ _ Hq) as [Hkey Hone']. apply request_key_inj in Hkey as [-> ->]; [|done..].
    exists (request_key (mrSubscriberID q) (mrDeviceID q)), q. split_and!; [done..|]. apply new_subscriber_tags. by rewrite Hx.
Qed.

(** A subscriber whose name contains a dot cannot leave: the key of its request is cut at
    the first dot, and names another device. *)
Theorem dotted_subscriber_stays o a b q s : one_token a → mrSubscriberID q = request_key a b →
  devices s !! request_key b (mrDeviceID q) = None →
  let s1 := (handleSubscribe o (inr q) s).2 in
  handleConfig o (request_key (mrSubscriberID q) (mrDeviceID q)) None s1 = s1.
Proof.
  intros Ha Hq Hno s1. unfold handleConfig. rewrite Hq.
  assert (∀ x y z : string, request_key (request_key x y) z = request_key x (request_key y z)) as ->
    by (intros; unfold request_key; by rewrite <- !string_app_assoc).
  rewrite first_token by done. unfold handleUnsubscribe. cbn [uDeviceID].
  assert (devices s1 !! request_key b (mrDeviceID q) = None) as ->; [|done].
  unfold s1, handleSubscribe. case_if; [done|]. destruct (devices s !! mrDeviceID q); [done|]. cbn [snd devices].
  rewrite lookup_insert_ne; [done|]. unfold request_key. intros He%(f_equal chars)%(f_equal length).
  rewrite !chars_app, !length_app in He. cbn in He. lia.
Qed.

End Requests.

(** ** Publishing changes *)

Section Changes.
Context `{FloatConv, FloatText}.
Context (moduleID : string).

(** The scans of a device, each with its order, its time and the values read. *)
Definition scans : Type := list (ranging * Z * gmap string value).

Definition publish_scans (sc : scans) (d : Device) : Device * list (string * PlcDataMessage) :=
  fold_left (λ st x, let '(d, out) := publishChanges moduleID x.1.1 x.1.2 st.1 x.2 in (d, st.2 ++ out)) sc (d, []).

(** What was read of one tag, and the readings whose text differs from the one before. *)
Definition readings (id : string) (sc : scans) : list (Z * value) :=
  omap (λ x : ranging * Z * gmap string value, v ← x.2 !! id; Some (x.1.2, v)) sc.

Fixpoint changes (last : option value) (l : list (Z * value)) : list (Z * value) :=
  match l with
  | [] => []
  | (t, v) :: l => if same_text last v then changes last l else (t, v) :: changes (Some v) l
  end.

Definition about (id : string) (m : string * PlcDataMessage) : bool := String.eqb (dmVariableID m.2) id.

Definition publishes (id : string) (tag : ModbusTagConfig) (d : Device) (l : list (Z * value)) : list (string * PlcDataMessage) :=
  map (λ tv, scan_message moduleID d tag id tv.2 tv.1) (List.filter (λ tv, json_ok tv.2) l).

Definition last_value (d : Device) (id : string) (l : list (Z * value)) : option value :=
  match last (changes (lastValues d !! id) l) with Some tv => Some tv.2 | None => lastValues d !! id end.

(** One scan, for one tag: the values of other tags leave it alone. *)
Lemma publish_other now id values : id ∉ values.*1 → ∀ d out,
  let st := fold_left (publish_value moduleID now) values (d, out) in
  lastValues st.1 !! id = lastValues d !! id ∧
  List.filter (about id) st.2 = List.filter (about id) out.
Proof.
  induction values as [|[k v] values IH]; intros Hid d out; [done|]. cbn [fmap list_fmap fst] in Hid.
  apply not_elem_of_cons in Hid as [Hne Hid]. cbn [fold_left publish_value].
  destruct (same_text (lastValues d !! k) v); [by apply IH|]. cbv zeta.
  set (d' := with_values d (<[k := v]> (lastValues d))).
  assert (lastValues d' !! id = lastValues d !! id) as Hd by (by apply lookup_insert_ne).
  assert (∀ out', List.filter (about id) out' = List.filter (about id) out →
    let st := fold_left (publish_value moduleID now) values (d', out') in
    lastValues st.1 !! id = lastValues d !! id ∧ List.filter (about id) st.2 = List.filter (about id) out) as Hgo.
  { intros out' Ho. destruct (IH Hid d' out') as [H1 H2]. cbn zeta in *. by rewrite H1, H2, Ho. }
  destruct (allTags d' !! k) as [tag|]; [|by apply Hgo]. destruct (json_ok v); [|by apply Hgo]. apply Hgo.
  rewrite List.filter_app. cbn [List.filter]. unfold about at 2. cbn [dmVariableID scan_message snd].
  rewrite (proj2 (String.eqb_neq k id)) by congruence. by rewrite app_nil_r.
Qed.

Lemma publish_scan_one o now d values id tag : allTags d !! id = Some tag →
  let st := publishChanges moduleID o now d values in
  let l := match values !! id with Some v => [(now, v)] | None => [] end in
  lastValues st.1 !! id = last_value d id l ∧
  List.filter (about id) st.2 = publishes id tag d (changes (lastValues d !! id) l).
Proof.
  intros Htag. unfold publishChanges. destruct (values !! id) as [v|] eqn:Hv; cbn zeta.
  - assert (∃ l1 l2, o _ values = l1 ++ (id, v) :: l2) as (l1 & l2 & Hl)
      by (apply list_elem_of_split; by apply range_lookup).
    assert (NoDup (o _ values).*1) as Hnd.
    { rewrite (range_perm o). apply NoDup_fst_map_to_list. }
    rewrite Hl, fmap_app in Hnd. apply NoDup_app in Hnd as (_ & Hn1 & Hnd2). cbn in Hnd2. apply NoDup_cons in Hnd2 as [Hn2 _].
    assert (id ∉ l1.*1) as Hid1 by (intros Hin; apply (Hn1 id Hin); by left).
    rewrite Hl, fold_left_app. cbn [fold_left]. pose proof (publish_other now id l1 Hid1 d []) as [H1 H2].
    pose proof (publish_same moduleID now l1 d []) as [Hs _].
    destruct (fold_left (publish_value moduleID now) l1 (d, [])) as [d1 out1]. cbn [fst snd] in *. cbn [publish_value].
    rewrite H1. destruct Hs as (Hdid & _ & _ & _ & _ & Htags & _).
    unfold last_value. cbn [changes]. destruct (same_text (lastValues d !! id) v) eqn:Hsame; cbn [last].
    + destruct (publish_other now id l2 Hn2 d1 out1) as [H3 H4]. cbn zeta in *. by rewrite H3, H4, H1, H2.
    + cbn [allTags with_values]. rewrite Htags, Htag.
      set (d1' := with_values d1 (<[id := v]> (lastValues d1))).
      assert (lastValues d1' !! id = Some v) as Hv1 by (apply lookup_insert_eq).
      unfold publishes. cbn [List.filter snd].
      destruct (json_ok v); cbn [map].
      * destruct (publish_other now id l2 Hn2 d1' (out1 ++ [scan_message moduleID d1' tag id v now])) as [H3 H4].
        cbn zeta in *. rewrite H3, H4, Hv1. split; [done|]. rewrite List.filter_app, H2. cbn [List.filter app].
        unfold about. cbn [dmVariableID scan_message snd]. rewrite String.eqb_refl. unfold scan_message.
        change (DeviceID d1') with (DeviceID d1). by rewrite Hdid.
      * destruct (publish_other now id l2 Hn2 d1' out1) as [H3 H4]. cbn zeta in *. by rewrite H3, H4, Hv1.
  - assert (id ∉ (o _ values).*1) as Hid.
    { intros ([k v] & -> & Hin%range_lookup)%list_elem_of_fmap. cbn in Hv. congruence. }
    apply (publish_other now id _ Hid d []).
Qed.

Lemma changes_app last l l' :
  changes last (l ++ l') =
    changes last l ++ changes (match list.last (changes last l) with Some tv => Some tv.2 | None => last end) l'.
Proof.
  revert last. induction l as [|[t v] l IH]; intros last; [done|]. cbn [app changes].
  destruct (same_text last v); [apply IH|]. rewrite IH. cbn [app]. f_equal. f_equal.
  rewrite last_cons. by destruct (list.last (changes (Some v) l)).
Qed.

(** A tag's publications are its changes: over any sequence of scans, in whatever order
    each ranges over its values, the messages about a tag are, in order and with the time of
    their scan, the readings whose text differs from that of the reading before, the first
    reading included, except those that JSON cannot express. *)
Theorem scans_publish_changes sc d id tag : allTags d !! id = Some tag →
  List.filter (about id) (publish_scans sc d).2 = publishes id tag d (changes (lastValues d !! id) (readings id sc)).
Proof.
  intros Htag.
  enough (same_service d (publish_scans sc d).1 ∧ lastValues (publish_scans sc d).1 !! id = last_value d id (readings id sc) ∧
    List.filter (about id) (publish_scans sc d).2 = publishes id tag d (changes (lastValues d !! id) (readings id sc))) by tauto.
  unfold publish_scans. induction sc as [|x sc IH] using rev_ind; [done|].
  rewrite fold_left_app. cbn [fold_left]. destruct IH as (Hs & Hl & Hf).
  destruct (fold_left _ sc (d, [])) as [d1 out1]. cbn [fst snd] in *. destruct x as [[o now] values]. cbn [fst snd].
  pose proof Hs as (Hdid & _ & _ & _ & _ & Ht & _).
  destruct (publish_scan_one o now d1 values id tag) as [H1 H2]; [by rewrite Ht|].
  pose proof (publish_same moduleID now (o _ values) d1 []) as [Hs1 _]. unfold publishChanges in *.
  destruct (fold_left (publish_value moduleID now) (o _ values) (d1, [])) as [d2 out2]. cbn [fst snd] in *. cbn zeta in *.
  assert (readings id (sc ++ [(o, now, values)]) =
    readings id sc ++ match values !! id with Some v => [(now, v)] | None => [] end) as ->.
  { unfold readings. rewrite omap_app. f_equal. cbn. by destruct (values !! id). }
  split_and!.
  - unfold same_service in *. destruct Hs1 as (-> & -> & -> & -> & -> & -> & ->). done.
  - rewrite H1. unfold last_value at 1. rewrite Hl. unfold last_value. rewrite changes_app, last_app.
    by destruct (last (changes _ (match values !! id with Some v => _ | None => _ end))).
  - rewrite List.filter_app, Hf, H2. unfold publishes. rewrite changes_app, List.filter_app, map_app. f_equal.
    rewrite Hl. unfold last_value, scan_message. by rewrite Hdid.
Qed.

(** A subscriber that joins a device hears nothing of a tag that was read before until its
    value changes: the values last published are kept across subscriptions. *)
Theorem late_subscriber_hears_nothing o o' q s now p d ph d' ph' values id tag v :
  devices s !! mrDeviceID q = Some p → heap s !! p = Some (d, ph) →
  heap (handleSubscribe o (inr q) s).2 !! p = Some (d', ph') → allTags d' !! id = Some tag →
  same_text (lastValues d !! id) v = true → values !! id = Some v →
  List.filter (about id) (publishChanges moduleID o' now d' values).2 = [].
Proof.
  intros Hdev Hp Hp' Htag Hsame Hv. assert (lastValues d' = lastValues d) as Hl.
  { unfold handleSubscribe in Hp'. case_if; [cbn in Hp'; congruence|]. rewrite Hdev in Hp'. cbn [snd heap] in Hp'.
    rewrite list_lookup_alter_eq, Hp in Hp'. cbn in Hp'. by injection Hp' as <- _. }
  destruct (publish_scan_one o' now d' values id tag Htag) as [_ ->]. cbn zeta. rewrite Hv, Hl. cbn [changes]. by rewrite Hsame.
Qed.

(** A device keeps the address of its first request: another host, port or unit in a later
    request is not taken over. *)
Theorem address_of_first_request o q s p d ph :
  devices s !! mrDeviceID q = Some p → heap s !! p = Some (d, ph) →
  ∃ d', heap (handleSubscribe o (inr q) s).2 !! p = Some (d', ph) ∧
    Host d' = Host d ∧ Port d' = Port d ∧ dUnitID (client d') = dUnitID (client d).
Proof.
  intros Hdev Hp. unfold handleSubscribe. case_if; [by exists d|]. rewrite Hdev. cbn [snd heap].
  rewrite list_lookup_alter_eq, Hp. by eexists.
Qed.

End Changes.

(** ** Loops *)

Section Loops.
Context `{FloatConv, FloatText}.
Context (moduleID : string).

(** A poll loop on its own: its steps with what its surroundings decide. *)
Fixpoint poll_loop (steps : list (ranging * env)) (d : Device) (ph : phase)
    : outcome (Device * phase * list (string * PlcDataMessage)) :=
  match steps with
  | [] => Ok (d, ph, [])
  | (o, e) :: steps =>
      '(d, ph, out) ← poll_step moduleID o e d ph;
      '(d, ph, outs) ← poll_loop steps d ph;
      Ok (d, ph, out ++ outs)
  end.

(** The steps a stopped loop has left at most. *)
Definition steps_left (d : Device) (ph : phase) : nat :=
  match ph with
  | Done => 0
  | Top => 1
  | Wait _ | ReadFailed => 2
  | Publish _ => 3
  | Reading todo _ => 4 + length todo
  | Connect => 5 + length (blocks d)
  | Backoff _ => 6 + length (blocks d)
  end.

Lemma stopped_step o e d ph d' ph' out : poll_step moduleID o e d ph = Ok (d', ph', out) → phase_ok d ph →
  Forall sound_block (blocks d) → stopped d = true → (steps_left d' ph' ≤ pred (steps_left d ph))%nat.
Proof.
  intros Hp Hph Hb Hst. destruct (poll_keeps moduleID _ _ _ _ _ _ _ Hp Hph Hb) as [(_ & _ & _ & _ & _ & _ & Hbl) _].
  destruct ph as [|ms| |todo vals| |vals|ms|]; cbn [poll_step] in Hp.
  - rewrite Hst in Hp. apply Ok_inj in Hp. by injection Hp as <- <- _.
  - apply Ok_inj in Hp. injection Hp as Hw _. unfold wait in Hw. rewrite Hst in Hw.
    destruct (eTimer e); injection Hw as <- <-; cbn; lia.
  - destruct (conn d); [apply Ok_inj in Hp; injection Hp as <- <- _; cbn; lia|].
    unfold connect in Hp. cbv zeta in Hp. destruct (eDial e _); apply Ok_inj in Hp; injection Hp as <- <- _; cbn; lia.
  - destruct todo as [|b todo]; [apply Ok_inj in Hp; injection Hp as <- <- _; cbn; lia|].
    destruct (conn d); [|done]. destruct (readBlock _ _ _) as [[[|?|] ?] ?]; [| |done]; apply Ok_inj in Hp; injection Hp as <- <- _; cbn; lia.
  - apply Ok_inj in Hp. injection Hp as <- <- _. cbn. lia.
  - destruct (publishChanges _ _ _ _ _). apply Ok_inj in Hp. injection Hp as <- <- _. cbn. lia.
  - apply Ok_inj in Hp. injection Hp as Hw _. unfold wait in Hw. rewrite Hst in Hw.
    destruct (eTimer e); injection Hw as <- <-; cbn; lia.
  - apply Ok_inj in Hp. injection Hp as <- <- _. cbn. lia.
Qed.

(** The loop of a stopped device returns: whatever the network, the timers and the clock
    do, after [steps_left] steps (at most those of one more scan) the loop has returned and
    closed its connection, unless a read panics. *)
Theorem stopped_loop_returns steps d ph d' ph' out : phase_ok d ph → Forall sound_block (blocks d) →
  stopped d = true → (steps_left d ph ≤ length steps)%nat → poll_loop steps d ph = Ok (d', ph', out) →
  ph' = Done ∧ conn d' = None.
Proof.
  intros Hph Hb Hst Hlen Hr.
  enough (phase_ok d' ph' ∧ steps_left d' ph' = 0%nat) as [Hok Hz] by (destruct ph'; try done; by destruct Hok).
  revert d ph d' ph' out Hph Hb Hst Hlen Hr. induction steps as [|[o e] steps IH]; intros d ph d' ph' out Hph Hb Hst Hlen Hr; cbn in Hr.
  - apply Ok_inj in Hr. injection Hr as <- <- _. split; [done|]. cbn in Hlen. lia.
  - destruct (poll_step moduleID o e d ph) as [[[d1 ph1] out1]|err|] eqn:E; cbn [mbind outcome_bind] in Hr; [|done..].
    pose proof (stopped_step _ _ _ _ _ _ _ E Hph Hb Hst) as Hle.
    destruct (poll_keeps moduleID _ _ _ _ _ _ _ E Hph Hb) as [(_ & _ & _ & _ & Hst1 & _ & Hb1) Hph1].
    destruct (poll_loop steps d1 ph1) as [[[d2 ph2] out2]|err|] eqn:E2; cbn in Hr; [|done..]. apply Ok_inj in Hr.
    injection Hr as <- <- _. eapply IH; [exact Hph1|by rewrite Hb1|by rewrite Hst1| |exact E2]. cbn in Hlen. lia.
Qed.

End Loops.

(** ** The scanner against the register server *)

Section Server.
Context `{FloatConv, FloatText}.
Context (moduleID : string) (srv : TCPServer) (st : RegisterStore).

(** What a tag reads in the server's registers. *)
Definition register_value (cl : DeviceState) (t : ModbusTagConfig) : value :=
  let fc := fcNameToCode (tagFunctionCode t) in
  if fc =? 1 then VBool (ReadCoil st (Address t))
  else if fc =? 2 then VBool (ReadDiscrete st (Address t))
  else
    let words := get_words (if fc =? 3 then holding st else input st) (Address t) (registerCount (Datatype t)) in
    match decodeRegisters (concat (map put_u16 words)) (Datatype t) (tag_order cl t) with Ok v => v | _ => VNil end.

(** A block one request can read: the answer's count of bytes fits its byte. *)
Definition block_fits (b : ReadBlock) : Prop :=
  in_u 16 (StartAddr b) ∧ 1 ≤ Count b ≤ (if fcIsCoilOrDiscrete (bFunctionCode b) then 2040 else 127) ∧
  1 ≤ bFunctionCode b ≤ 4.

Definition read_pdu (b : ReadBlock) : list Z :=
  buildReadPDU (wrapu 8 (bFunctionCode b)) (wrapu 16 (StartAddr b)) (wrapu 16 (Count b)).

Definition collect (cl : DeviceState) (tags : list TagInBlock) (m : gmap string value) : gmap string value :=
  fold_left (λ m x, <[ID (Tag x) := register_value cl (Tag x)]> m) tags m.

Lemma get_words_app m a k r : get_words m a (k + r) = get_words m a k ++ get_words m (a + Z.of_nat k) r.
Proof.
  unfold get_words. rewrite seq_app, map_app. f_equal. replace (0 + k)%nat with (k + 0)%nat by lia. rewrite <- fmap_add_seq.
  rewrite <- (list_fmap_compose (Nat.add k)). apply map_ext. intros i. cbn. f_equal. lia.
Qed.

Lemma length_get_words m a n : length (get_words m a n) = n.
Proof. unfold get_words. by rewrite length_map, length_seq. Qed.

Lemma words_bytes ws : length (concat (map put_u16 ws)) = (2 * length ws)%nat.
Proof. apply length_put_words. Qed.

Lemma decodeRegisters_prefix a b dt order : length a = (registerCount dt * 2)%nat →
  decodeRegisters (a ++ b) dt order = decodeRegisters a dt order.
Proof.
  intros Hl. unfold decodeRegisters. rewrite length_app, !(proj2 (Nat.ltb_ge _ _)) by lia.
  rewrite !slice_ok by (rewrite ?length_app; lia). cbn [mbind outcome_bind drop]. rewrite Nat.sub_0_r.
  rewrite !drop_0, take_app_le by lia. done.
Qed.

Lemma decode_words_reads cl (m : gmap Z Z) b n tags : ∀ res,
  (∀ t, t ∈ map Tag tags → register_value cl t =
     match decodeRegisters (concat (map put_u16 (get_words m (Address t) (registerCount (Datatype t))))) (Datatype t) (tag_order cl t)
     with Ok v => v | _ => VNil end) →
  Forall (λ x, StartAddr b + Offset x = Address (Tag x) ∧ 0 ≤ Offset x ∧
               Offset x + Z.of_nat (registerCount (Datatype (Tag x))) ≤ Z.of_nat n) tags →
  decode_words cl (concat (map put_u16 (get_words m (StartAddr b) n))) tags res = Ok (collect cl tags res).
Proof.
  induction tags as [|x tags IH]; intros res Hv Hr; [done|]. apply Forall_cons in Hr as [(Ha & Ho & Hn) Hr].
  cbn [decode_words collect fold_left]. set (k := Z.to_nat (Offset x)). set (c := registerCount (Datatype (Tag x))).
  assert (get_words m (StartAddr b) n = get_words m (StartAddr b) k ++ get_words m (Address (Tag x)) c
    ++ get_words m (Address (Tag x) + Z.of_nat c) (n - k - c)) as Hw.
  { replace n with (k + (c + (n - k - c)))%nat at 1 by (unfold c, k; lia). rewrite get_words_app. f_equal.
    replace (StartAddr b + Z.of_nat k) with (Address (Tag x)) by (unfold k; lia). apply get_words_app. }
  assert (slice (concat (map put_u16 (get_words m (StartAddr b) n))) (Z.to_nat (Offset x * 2))
      (length (concat (map put_u16 (get_words m (StartAddr b) n))))
    = Ok (concat (map put_u16 (get_words m (Address (Tag x)) c)) ++
          concat (map put_u16 (get_words m (Address (Tag x) + Z.of_nat c) (n - k - c))))) as ->.
  { rewrite Hw, !map_app, !concat_app. replace (Z.to_nat (Offset x * 2)) with (length (concat (map put_u16 (get_words m (StartAddr b) k))))
      by (rewrite words_bytes, length_get_words; unfold k; lia). apply slice_rest. }
  cbn [mbind outcome_bind]. rewrite decodeRegisters_prefix by (rewrite words_bytes, length_get_words; unfold c; lia).
  assert (register_value cl (Tag x) =
     match decodeRegisters (concat (map put_u16 (get_words m (Address (Tag x)) c))) (Datatype (Tag x)) (tag_order cl (Tag x))
     with Ok v => v | _ => VNil end) as -> by (apply Hv; by left).
  destruct (decode_raw_ok (arrangeBytes (concat (map put_u16 (get_words m (Address (Tag x)) c))) (tag_order cl (Tag x))) (Datatype (Tag x)))
    as [v Hd]; [rewrite arrangeBytes_length, words_bytes, length_get_words; unfold c; lia|].
  rewrite decodeRegisters_whole, Hd by (rewrite words_bytes, length_get_words; done).
  apply IH; [|done]. intros t Ht. apply Hv. by right.
Qed.

Lemma decode_coils_reads cl (m : gmap Z bool) b data n tags : ∀ res,
  (∀ t, t ∈ map Tag tags → register_value cl t = VBool (bit_at m (Address t))) →
  (∀ j, (j < n)%nat → decodeBoolFromCoils data j = Ok (bit_at m (StartAddr b + Z.of_nat j))) →
  Forall (λ x, StartAddr b + Offset x = Address (Tag x) ∧ 0 ≤ Offset x ∧ Offset x + 1 ≤ Z.of_nat n) tags →
  decode_coils data tags res = Ok (collect cl tags res).
Proof.
  induction tags as [|x tags IH]; intros res Hv Hd Hr; [done|]. apply Forall_cons in Hr as [(Ha & Ho & Hn) Hr].
  cbn [decode_coils collect fold_left]. rewrite Hd by lia. cbn [mbind outcome_bind].
  replace (StartAddr b + Z.of_nat (Z.to_nat (Offset x))) with (Address (Tag x)) by lia.
  rewrite <- (Hv (Tag x)) by (by left). apply IH; [|done|done]. intros t Ht. apply Hv. by right.
Qed.

Lemma is_bytes_fill_data m addr n : ∀ i data, is_bytes data → is_bytes (fill_data m addr i n data).
Proof.
  induction n as [|n IH]; intros i data Hd; [done|]. cbn [fill_data]. apply IH. case_if; [|done].
  apply Forall_alter; [done|]. intros x _ Hx. unfold is_byte, in_u in *.
  pose proof (Nat.mod_upper_bound i 8 ltac:(lia)) as Hm.
  assert (0 ≤ Z.lor x (Z.shiftl 1 (Z.of_nat (i mod 8)))) by (apply Z.lor_nonneg; split; [lia|apply Z.shiftl_nonneg; lia]).
  split; [done|]. apply Z.log2_lt_cancel. change (Z.log2 (2 ^ 8)) with 8.
  assert (0 ≤ Z.shiftl 1 (Z.of_nat (i mod 8))) by (apply Z.shiftl_nonneg; lia).
  rewrite Z.log2_lor by lia. apply Z.max_lub_lt.
  - destruct (decide (x = 0)) as [->|]; [done|]. apply Z.log2_lt_pow2; lia.
  - rewrite Z.shiftl_1_l, Z.log2_pow2 by lia. lia.
Qed.

(** The server's answer to the read of a sound block, and what the client makes of it. *)
Lemma block_answered b : block_fits b → sound_block b → ∃ data,
  handlePDU srv st (read_pdu b) = Ok (bFunctionCode b :: Z.of_nat (length data) :: data, st, []) ∧
  (length data < 256)%nat ∧ is_bytes data ∧
  ∀ cl, (if fcIsCoilOrDiscrete (bFunctionCode b) then decode_coils data (Tags b) ∅ else decode_words cl data (Tags b) ∅)
        = Ok (collect cl (Tags b) ∅).
Proof.
  intros (Ha & Hc & Hfc) [[_ Hoff] Htag]. unfold read_pdu.
  assert (wrapu 8 (bFunctionCode b) = bFunctionCode b) as -> by (apply wrapu_small; unfold in_u; lia).
  assert (wrapu 16 (StartAddr b) = StartAddr b) as -> by (by apply wrapu_small).
  assert (wrapu 16 (Count b) = Count b) as -> by (apply wrapu_small; unfold in_u; case_match; lia).
  set (n := Z.to_nat (Count b)). assert (Count b = Z.of_nat n) as Hn by (unfold n; lia).
  assert (∀ t, t ∈ map Tag (Tags b) → fcNameToCode (tagFunctionCode t) = bFunctionCode b) as Hcode.
  { intros t (x & -> & Hx)%list_elem_of_fmap. rewrite Forall_forall in Htag. by apply Htag. }
  assert (bFunctionCode b = 1 ∨ bFunctionCode b = 2 ∨ bFunctionCode b = 3 ∨ bFunctionCode b = 4) as Hcases by lia.
  assert (fcIsCoilOrDiscrete (bFunctionCode b) = bool_decide (bFunctionCode b ≤ 2)) as Hbit
    by (destruct Hcases as [->|[->|[->| ->]]]; done).
  destruct (decide (bFunctionCode b ≤ 2)) as [Hle|Hgt].
  - rewrite (bool_decide_eq_true_2 _ Hle) in Hbit. rewrite Hbit in Hc |- *. set (isCoil := bFunctionCode b =? 1).
    assert (bFunctionCode b = if isCoil then 1 else 2) as Hfc' by (unfold isCoil; case_if; bool_to_prop; lia).
    destruct (read_bits_unpacked srv st (StartAddr b) n isCoil 0 0) as (bits & Hh & _ & Hbits); [done|lia|].
    rewrite <- Hfc', <- Hn in Hh. pose proof Hh as Hh'.
    rewrite Hfc' in Hh'. rewrite handle_read_bits in Hh' by (done || unfold in_u; lia). rewrite <- Hfc' in Hh'.
    apply Ok_inj in Hh'. injection Hh' as _ Hdata. exists bits. split_and!; [done| | |].
    + rewrite <- Hdata, length_fill_data, length_replicate. pose proof (Z.div_lt_upper_bound (Count b + 7) 8 256). lia.
    + rewrite <- Hdata. apply is_bytes_fill_data. apply Forall_replicate. by apply (bool_decide_unpack _).
    + intros cl. apply (decode_coils_reads cl (if isCoil then coils st else discretes st) b bits n); [|done|].
      * intros t Ht. unfold register_value. rewrite (Hcode t Ht), Hfc'. by destruct isCoil.
      * eapply Forall_impl; [exact Hoff|]. intros x (? & ? & Hsz). unfold regSize in Hsz. rewrite Hbit in Hsz. lia.
  - rewrite (bool_decide_eq_false_2 _ Hgt) in Hbit. rewrite Hbit in Hc |- *. set (isHolding := bFunctionCode b =? 3).
    assert (bFunctionCode b = if isHolding then 3 else 4) as Hfc' by (unfold isHolding; case_if; bool_to_prop; lia).
    set (data := concat (map put_u16 (get_words (if isHolding then holding st else input st) (StartAddr b) n))).
    assert (length data = (2 * n)%nat) as Hl by (unfold data; by rewrite words_bytes, length_get_words).
    exists data. split_and!; [|lia|unfold data; apply is_bytes_put_words|].
    + rewrite Hfc'. rewrite handle_read_words by (done || unfold in_u; lia). fold n. fold data.
      rewrite wrapu_small by (unfold in_u; lia). by replace (Z.of_nat (length data)) with (Count b * 2) by lia.
    + intros cl. apply decode_words_reads.
      * intros t Ht. unfold register_value. rewrite (Hcode t Ht), Hfc'. by destruct isHolding.
      * eapply Forall_impl; [exact Hoff|]. intros x (? & ? & Hsz). unfold regSize in Hsz. rewrite Hbit in Hsz. lia.
Qed.

(** The requests of a plan, with the client's transaction numbers, and the server's answers. *)
Fixpoint plan_requests (txn unit : Z) (bs : list ReadBlock) : list request :=
  match bs with
  | [] => []
  | b :: bs => mkReq txn unit (read_pdu b) :: plan_requests (wrapu 16 (txn + 1)) unit bs
  end.

Fixpoint plan_answers (txn unit : Z) (bs : list ReadBlock) : list (list Z) :=
  match bs with
  | [] => []
  | b :: bs =>
      response_frame txn unit (match handlePDU srv st (read_pdu b) with Ok (r, _, _) => r | _ => [] end)
      :: plan_answers (wrapu 16 (txn + 1)) unit bs
  end.

(** What the client writes while it reads the blocks. *)
Fixpoint written (cl : DeviceState) (bs : list ReadBlock) (c : Conn) : list Z :=
  match bs with
  | [] => []
  | b :: bs =>
      let '(frame, _) := sendAndReceive cl (read_pdu b) c in
      let '(_, cl, c) := readBlock cl b c in
      frame ++ written cl bs c
  end.

Notation good b := (block_fits b ∧ sound_block b).

Lemma receive_fields chunks e : ∀ cl r cl' cs, receive cl chunks e = (r, cl', cs) →
  dUnitID cl' = dUnitID cl ∧ ByteOrder cl' = ByteOrder cl ∧ txnID cl' = txnID cl.
Proof.
  induction chunks as [|chunk chunks IH]; intros cl r cl' cs; rewrite receive_bytes_eq; cbn zeta.
  all: assert (∀ r0 cs0, (r0, cl, cs0) = (r, cl', cs) → dUnitID cl' = dUnitID cl ∧ ByteOrder cl' = ByteOrder cl ∧ txnID cl' = txnID cl)
    as Hsame by (by intros r0 cs0 [= _ <- _]).
  all: destruct (mbapHeaderSize <=? length (readBuf cl))%nat; [|first [apply Hsame|intros Hr; by apply IH in Hr]].
  all: destruct (decodeMBAPResponse (readBuf cl)) as [[f n]|err|]; [|first [apply Hsame|intros Hr; by apply IH in Hr]|apply Hsame].
  all: destruct (slice _ _ _); [by intros [= _ <- _]|apply Hsame..].
Qed.

Lemma readBlock_fields cl b c r cl' c' : readBlock cl b c = (r, cl', c') →
  dUnitID cl' = dUnitID cl ∧ ByteOrder cl' = ByteOrder cl ∧ txnID cl' = wrapu 16 (txnID cl + 1).
Proof.
  unfold readBlock, readRegisters, sendAndReceive. cbn [nextTxnID]. destruct (writeError c).
  { by intros [= _ <- _]. }
  destruct (receive _ _ _) as [[r0 cl0] cs] eqn:E. apply receive_fields in E as (E1 & E2 & E3). by intros [= _ <- _].
Qed.

(** The client writes the requests of the plan, whatever it receives. *)
Lemma written_requests bs : ∀ cl c, written cl bs c = wires (plan_requests (txnID cl) (dUnitID cl) bs).
Proof.
  induction bs as [|b bs IH]; intros cl c; [done|]. cbn [written plan_requests].
  destruct (sendAndReceive cl (read_pdu b) c) as [frame rest] eqn:E.
  assert (frame = wire (mkReq (txnID cl) (dUnitID cl) (read_pdu b))) as ->.
  { unfold sendAndReceive in E. cbn [nextTxnID] in E. destruct (writeError c); [by injection E as <- _|].
    destruct (receive _ _ _) as [[? ?] ?]. by injection E as <- _. }
  destruct (readBlock cl b c) as [[r cl'] c'] eqn:Er. apply readBlock_fields in Er as (Eu & _ & Et). by rewrite IH, Eu, Et.
Qed.

Lemma answers_of_plan unit bs : unit = unitID srv → Forall (λ b, good b) bs → ∀ txn cs, csStore cs = st →
  csOut (fold_left (answer_one srv) (plan_requests txn unit bs) cs) = csOut cs ++ plan_answers txn unit bs.
Proof.
  intros Hu. induction 1 as [|b bs [Hf Hs] _ IH]; intros txn cs Hst; [by rewrite app_nil_r|].
  cbn [plan_requests plan_answers fold_left]. destruct (block_answered b Hf Hs) as (data & Hh & _).
  assert (answer_one srv cs (mkReq txn unit (read_pdu b))
    = mkCS (csBuf cs) st (csOut cs ++ [response_frame txn unit (bFunctionCode b :: Z.of_nat (length data) :: data)]) (csEvents cs ++ [])) as ->.
  { unfold answer_one. cbn [rqUnit rqTx rqPDU]. rewrite Hu, Z.eqb_refl, Hst, Hh. done. }
  rewrite IH by done. cbn [csOut]. rewrite <- app_assoc. by rewrite Hh.
Qed.

Lemma plan_requests_ok unit bs : ∀ txn, in_u 16 txn → Forall request_ok (plan_requests txn unit bs).
Proof.
  induction bs as [|b bs IH]; intros txn Ht; constructor; [|apply IH; by apply wrapu_range].
  split; [done|]. cbn [rqPDU]. unfold read_pdu, buildReadPDU. autorewrite with go_len. cbn. lia.
Qed.

Lemma answer_bytes txn unit fc data : is_byte unit → is_byte fc → is_bytes data → (length data < 256)%nat →
  let f := mkFrame txn 0 unit fc (Z.of_nat (length data) :: data) in
  response_frame txn unit (fc :: Z.of_nat (length data) :: data) = frame_bytes f ∧
  is_bytes (frame_bytes f) ∧ (in_u 16 txn → frame_ok f).
Proof.
  intros Hu Hfc Hd Hl f. split_and!.
  - unfold response_frame, frame_bytes. cbn [TransactionID ProtocolID UnitID FunctionCode ModbusCodec.Data f app].
    rewrite wrapu_small by (unfold in_u; cbn [length]; lia). do 3 f_equal. f_equal. cbn [length]. lia.
  - unfold frame_bytes. cbn [TransactionID ProtocolID UnitID FunctionCode ModbusCodec.Data f].
    do 3 (apply Forall_app; split; [apply is_bytes_be_bytes|]). cbn [app].
    do 2 (constructor; [done|]). constructor; [unfold is_byte, in_u; lia|done].
  - intros Ht. split_and!; [done|done|]. cbn [ModbusCodec.Data f length]. lia.
Qed.

Lemma answers_bytes unit bs : is_byte unit → Forall (λ b, good b) bs → ∀ txn, is_bytes (concat (plan_answers txn unit bs)).
Proof.
  intros Hu. induction 1 as [|b bs [Hf Hs] _ IH]; intros txn; [apply List.Forall_nil|]. cbn [plan_answers concat].
  apply Forall_app. split; [|apply IH]. destruct (block_answered b Hf Hs) as (data & Hh & Hl & Hd & _). rewrite Hh.
  destruct Hf as (_ & _ & Hfc). destruct (answer_bytes txn unit (bFunctionCode b) data) as (-> & ? & _); try done.
  unfold is_byte, in_u. lia.
Qed.

(** The client reads a block from the server's answer and leaves what follows it. *)
Lemma block_read b cl c rest : good b → is_byte (dUnitID cl) → in_u 16 (txnID cl) → is_bytes rest → writeError c = None →
  readBuf cl ++ concat (incoming c) = concat (plan_answers (txnID cl) (dUnitID cl) [b]) ++ rest →
  ∃ cl' c', readBlock cl b c = (Ok (collect cl (Tags b) ∅), cl', c') ∧ writeError c' = None ∧
    readBuf cl' ++ concat (incoming c') = rest.
Proof.
  intros [Hf Hs] Hu Ht Hrest Hw Hin. destruct (block_answered b Hf Hs) as (data & Hh & Hl & Hd & Hdec).
  assert (is_byte (bFunctionCode b)) as Hfcb by (destruct Hf as (_ & _ & ?); unfold is_byte, in_u; lia).
  destruct (answer_bytes (txnID cl) (dUnitID cl) (bFunctionCode b) data Hu Hfcb Hd Hl) as (Hfr & Hfb & Hok).
  cbn [plan_answers concat] in Hin. rewrite Hh, app_nil_r, Hfr in Hin. set (f := mkFrame _ _ _ _ _) in *.
  unfold readBlock, readRegisters, sendAndReceive. cbn [nextTxnID]. rewrite Hw.
  destruct (receive_frame f rest (incoming c) (readError c) (Hok Ht) ltac:(by apply Forall_app)
    (mkDevice (dUnitID cl) (ByteOrder cl) (wrapu 16 (txnID cl + 1)) (readBuf cl)) Hin) as (buf & chunks' & -> & Hb).
  eexists (with_buf (mkDevice _ _ _ _) buf), (mkConn None chunks' (readError c)). split; [|split; [done|exact Hb]]. f_equal. f_equal. unfold finish.
  assert (isExceptionResponse (bFunctionCode b) = false) as Hex.
  { destruct Hf as (_ & _ & ?). assert (bFunctionCode b = 1 ∨ bFunctionCode b = 2 ∨ bFunctionCode b = 3 ∨ bFunctionCode b = 4)
      as [->|[->|[->| ->]]] by lia; done. }
  cbn [FunctionCode f]. rewrite Hex. cbn [mbind outcome_bind].
  assert (payload f = Ok data) as ->.
  { unfold payload. cbn [ModbusCodec.Data f]. rewrite Nat2Z.id. rewrite (proj2 (Nat.ltb_ge _ _)) by (cbn [length]; lia).
    rewrite slice_ok by (cbn [length]; lia). f_equal. cbn [drop]. apply take_ge. lia. }
  exact (Hdec (with_buf (mkDevice (dUnitID cl) (ByteOrder cl) (wrapu 16 (txnID cl + 1)) (readBuf cl)) buf)).
Qed.

(** The values of a scan. *)
Definition read_all (cl : DeviceState) (bs : list ReadBlock) (vals : gmap string value) : gmap string value :=
  fold_left (λ acc b, collect cl (Tags b) ∅ ∪ acc) bs vals.

Lemma collect_order cl cl' tags : ByteOrder cl' = ByteOrder cl → ∀ m, collect cl' tags m = collect cl tags m.
Proof.
  intros Ho. induction tags as [|x tags IH]; intros m; [done|]. cbn [collect fold_left].
  assert (register_value cl' (Tag x) = register_value cl (Tag x)) as -> by (unfold register_value, tag_order; by rewrite Ho).
  apply IH.
Qed.

Lemma read_all_order cl cl' bs : ByteOrder cl' = ByteOrder cl → ∀ m, read_all cl' bs m = read_all cl bs m.
Proof.
  intros Ho. induction bs as [|b bs IH]; intros m; [done|]. cbn [read_all fold_left]. rewrite (collect_order _ _ _ Ho). apply IH.
Qed.

Lemma collect_lookup cl tags : ∀ m id v, collect cl tags m !! id = Some v →
  m !! id = Some v ∨ ∃ x, x ∈ tags ∧ ID (Tag x) = id ∧ v = register_value cl (Tag x).
Proof.
  induction tags as [|x tags IH]; intros m id v; [by left|]. intros [Hm|(y & Hy & Hr)]%IH.
  - apply lookup_insert_Some in Hm as [[<- <-]|[_ Hm]]; [|by left]. right. exists x. split; [by left|done].
  - right. exists y. split; [by right|done].
Qed.

Lemma collect_some cl tags id : ∀ m, is_Some (m !! id) ∨ (∃ x, x ∈ tags ∧ ID (Tag x) = id) → is_Some (collect cl tags m !! id).
Proof.
  induction tags as [|x tags IH]; intros m; [intros [?|(? & ?%elem_of_nil & _)]; done|]. intros Hx. apply IH.
  destruct Hx as [?|(y & [->|Hy]%elem_of_cons & <-)]; [left|left|right; by exists y].
  - by apply lookup_insert_is_Some'; right.
  - by rewrite lookup_insert_eq.
Qed.

(** A scan has the value of every tag, once tags are told apart by their names. *)
Lemma read_all_lookup cl (tags : tag_map) bs : (∀ b x, b ∈ bs → x ∈ Tags b → tags !! ID (Tag x) = Some (Tag x)) → ∀ vals,
  (∀ id v, vals !! id = Some v → ∃ t, tags !! id = Some t ∧ v = register_value cl t) →
  (∀ id t, tags !! id = Some t → (∃ b x, b ∈ bs ∧ x ∈ Tags b ∧ ID (Tag x) = id) ∨ is_Some (vals !! id)) →
  ∀ id, read_all cl bs vals !! id = register_value cl <$> tags !! id.
Proof.
  induction bs as [|b bs IH]; intros Hb vals Hv Hc id.
  - cbn. destruct (tags !! id) as [t|] eqn:Ht; cbn.
    + destruct (Hc id t Ht) as [(? & ? & ?%elem_of_nil & _)|[v Hx]]; [done|]. destruct (Hv _ _ Hx) as (t' & Ht' & ->). congruence.
    + destruct (vals !! id) as [v|] eqn:Hx; [|done]. destruct (Hv _ _ Hx) as (t' & Ht' & _). congruence.
  - cbn [read_all fold_left]. apply IH.
    + intros b' x Hb' Hx. apply (Hb b'); [by right|done].
    + intros k v [Hx|[_ Hx]]%lookup_union_Some_raw; [|by apply Hv].
      apply collect_lookup in Hx as [Hx|(x & Hx & <- & ->)]; [by rewrite lookup_empty in Hx|].
      exists (Tag x). split; [|done]. apply (Hb b); [by left|done].
    + intros k t Ht. destruct (Hc k t Ht) as [(b' & x & [->|Hb']%elem_of_cons & Hx & Hk)|Hx].
      * right. apply lookup_union_is_Some. left. apply collect_some. right. by exists x.
      * left. by exists b', x.
      * right. apply lookup_union_is_Some. by right.
Qed.

Lemma poll_loop_app s1 s2 : ∀ d ph, poll_loop moduleID (s1 ++ s2) d ph =
  ('(d1, ph1, out1) ← poll_loop moduleID s1 d ph; '(d2, ph2, out2) ← poll_loop moduleID s2 d1 ph1; Ok (d2, ph2, out1 ++ out2)).
Proof.
  induction s1 as [|[o e] s1 IH]; intros d ph; cbn [app poll_loop].
  - cbn [mbind outcome_bind]. by destruct (poll_loop _ s2 d ph) as [[[? ?] ?]|?|].
  - destruct (poll_step _ _ _ _ _) as [[[d1 ph1] out1]|?|]; cbn [mbind outcome_bind]; [|done..]. rewrite IH.
    destruct (poll_loop _ s1 d1 ph1) as [[[d2 ph2] out2]|?|]; cbn [mbind outcome_bind]; [|done..].
    destruct (poll_loop _ s2 d2 ph2) as [[[d3 ph3] out3]|?|]; cbn [mbind outcome_bind]; [|done..]. by rewrite app_assoc.
Qed.

Lemma loop_reads bs : Forall (λ b, good b) bs → ∀ steps d c vals, length steps = length bs → conn d = Some c →
  is_byte (dUnitID (client d)) → in_u 16 (txnID (client d)) → writeError c = None →
  readBuf (client d) ++ concat (incoming c) = concat (plan_answers (txnID (client d)) (dUnitID (client d)) bs) →
  ∃ d', poll_loop moduleID steps d (Reading bs vals) = Ok (d', Reading [] (read_all (client d) bs vals), []) ∧
    same_service d d' ∧ lastValues d' = lastValues d ∧ is_Some (conn d').
Proof.
  induction 1 as [|b bs Hb Hbs IH]; intros steps d c vals Hl Hc Hu Ht Hw Hin.
  - destruct steps; [|done]. exists d. rewrite Hc. split_and!; [done..|eauto].
  - destruct steps as [|[o e] steps]; [done|]. cbn [poll_loop poll_step]. rewrite Hc.
    destruct (block_read b (client d) c (concat (plan_answers (wrapu 16 (txnID (client d) + 1)) (dUnitID (client d)) bs)))
      as (cl' & c' & Hr & Hw' & Hin'); [done..|by apply answers_bytes|done|by rewrite Hin; cbn [plan_answers concat]; rewrite app_nil_r|].
    rewrite Hr. cbn [mbind outcome_bind]. pose proof (readBlock_fields _ _ _ _ _ _ Hr) as (Hu' & Ho' & Ht').
    destruct (IH steps (with_conn d (Some c') cl') c' (collect (client d) (Tags b) ∅ ∪ vals)) as (d' & -> & Hs & Hlv & Hcn);
      [by injection Hl|done|cbn; by rewrite Hu'|cbn; rewrite Ht'; by apply wrapu_range|done|cbn; by rewrite Hu', Ht'|].
    cbn [mbind outcome_bind client with_conn]. rewrite (read_all_order _ _ _ Ho'). exists d'. split_and!; [done|exact Hs|done|done].
Qed.

(** A tag of the plan is in one of its blocks, and a tag of a block is in the plan. *)
Lemma plan_tags d : plan_ok d →
  (∀ b x, b ∈ blocks d → x ∈ Tags b → allTags d !! ID (Tag x) = Some (Tag x)) ∧
  (∀ id t, allTags d !! id = Some t → ∃ b x, b ∈ blocks d ∧ x ∈ Tags b ∧ ID (Tag x) = id).
Proof.
  intros Hp. destruct (plan_blocks d Hp) as (tags & Htags & Hbl). destruct (buildReadBlocks_covers tags) as [Hcov _].
  rewrite <- Hbl, Htags in Hcov. split.
  - intros b x Hb Hx. assert (Tag x ∈ (map_to_list (allTags d)).*2) as Hin.
    { rewrite <- Hcov. apply list_elem_of_In, in_concat. exists (map Tag (Tags b)).
      split; [apply (in_map (λ b, map Tag (Tags b)))|apply in_map]; by apply list_elem_of_In. }
    apply list_elem_of_fmap in Hin as ([k t] & Ht & Hk%elem_of_map_to_list). cbn in Ht. subst t.
    destruct (plan_asked d Hp _ _ Hk) as [<- _]. done.
  - intros id t Ht. assert (t ∈ concat (map (λ b, map Tag (Tags b)) (blocks d))) as Hin.
    { rewrite Hcov. apply (list_elem_of_fmap_2 snd _ (id, t)). by apply elem_of_map_to_list. }
    apply list_elem_of_In, in_concat in Hin as (ts & (b & <- & Hb)%in_map_iff & (x & <- & Hx)%in_map_iff).
    exists b, x. split_and!; [by apply list_elem_of_In..|]. by apply (plan_asked d Hp).
Qed.

Lemma scan_loop o1 e1 steps o2 e2 d c reqs cs : conn d = None → plan_ok d → Forall block_fits (blocks d) →
  dUnitID (client d) = unitID srv → is_byte (unitID srv) →
  eDial e1 (JoinHostPort (Host d) (itoa (Port d))) = inr c → writeError c = None →
  let cl := mkDevice (dUnitID (client d)) (ByteOrder (client d)) 0 [] in
  concat reqs = written cl (blocks d) c → handleConnection srv (mkCS [] st [] []) reqs = Ok cs →
  concat (incoming c) = concat (csOut cs) → length steps = S (length (blocks d)) →
  ∃ d' ms out, poll_loop moduleID ((o1, e1) :: steps ++ [(o2, e2)]) d Connect = Ok (d', Wait ms, out) ∧
    ∀ id, List.filter (about id) out =
      match allTags d !! id with
      | Some tag => publishes moduleID id tag d (changes (lastValues d !! id) [(eNow e2, register_value cl tag)])
      | None => []
      end.
Proof.
  intros Hcn Hplan Hfits Hunit Hbyte Hdial Hw cl Hreqs Hserve Hin Hl.
  assert (Forall (λ b, good b) (blocks d)) as Hgood by (apply Forall_and; split; [done|by apply plan_sound]).
  rewrite written_requests in Hreqs. cbn [txnID dUnitID cl] in Hreqs.
  rewrite (connection_stream srv reqs (mkCS [] st [] []) (plan_requests 0 (dUnitID (client d)) (blocks d))) in Hserve;
    [|by apply plan_requests_ok|done|done].
  apply Ok_inj in Hserve. subst cs. cbn [csOut with_csbuf] in Hin.
  rewrite answers_of_plan in Hin by done. cbn [csOut app] in Hin.
  assert (∃ steps' x, steps = steps' ++ [x]) as (steps' & [o e] & ->).
  { destruct (exists_last (l := steps)) as (s' & x & ->); [by intros ->|by exists s', x]. }
  rewrite length_app in Hl. cbn [length] in Hl.
  set (d1 := with_conn d (Some c) cl).
  destruct (loop_reads (blocks d) Hgood steps' d1 c ∅) as (d2 & Hr & Hs & Hlv & Hc2);
    [lia|done|cbn; by rewrite Hunit|done|done|cbn; by rewrite Hin|].
  cbn [poll_loop poll_step]. rewrite Hcn. unfold connect. cbv zeta. rewrite Hdial. fold cl. fold d1.
  cbn [mbind outcome_bind]. change (blocks d1) with (blocks d). rewrite <- app_assoc, poll_loop_app, Hr.
  cbn [mbind outcome_bind app poll_loop poll_step].
  change (client d1) with cl. set (values := read_all cl (blocks d) ∅). set (d3 := with_failures d2 0).
  destruct (publishChanges moduleID o2 (eNow e2) d3 values) as [d4 out] eqn:Hpub. cbn [mbind outcome_bind].
  do 3 eexists. split; [done|]. rewrite app_nil_r. destruct (plan_tags d Hplan) as [Htags1 Htags2].
  assert (∀ id, values !! id = register_value cl <$> allTags d !! id) as Hvals.
  { apply read_all_lookup; [done|intros id v Hx; by rewrite lookup_empty in Hx|]. intros id t Ht. left. by eapply Htags2. }
  destruct Hs as (Hid & _ & _ & _ & _ & Htags & _). intros id. destruct (allTags d !! id) as [tag|] eqn:Htag.
  - destruct (publish_scan_one moduleID o2 (eNow e2) d3 values id tag) as [_ Hf]; [cbn; by rewrite Htags|].
    rewrite Hpub, Hvals, Htag in Hf. cbn [fmap option_fmap option_map snd] in Hf. rewrite Hf.
    change (lastValues d3) with (lastValues d2). rewrite Hlv. unfold publishes, scan_message.
    change (DeviceID d3) with (DeviceID d2). by rewrite Hid.
  - assert (id ∉ (o2 _ values).*1) as Hno.
    { intros ([k v] & -> & Hk%range_lookup)%list_elem_of_fmap. cbn in Htag. rewrite Hvals, Htag in Hk. done. }
    destruct (publish_other moduleID (eNow e2) id _ Hno d3 []) as [_ Hf]. unfold publishChanges in Hpub. by rewrite Hpub in Hf.
Qed.

(** A scan of the register server publishes its registers: a loop that connects, and whose
    bytes the server answers however either side's stream is cut, reads every tag of the plan
    and publishes, tag by tag, exactly the values that its registers decode to and whose text
    differs from the one last seen. *)
Theorem scan_publishes_registers o1 e1 steps o2 e2 d c reqs cs : conn d = None → plan_ok d → Forall block_fits (blocks d) →
  dUnitID (client d) = unitID srv → is_byte (unitID srv) →
  eDial e1 (JoinHostPort (Host d) (itoa (Port d))) = inr c → writeError c = None →
  let cl := mkDevice (dUnitID (client d)) (ByteOrder (client d)) 0 [] in
  concat reqs = written cl (blocks d) c → handleConnection srv (mkCS [] st [] []) reqs = Ok cs →
  concat (incoming c) = concat (csOut cs) → length steps = S (length (blocks d)) →
  ∃ d' ms out, poll_loop moduleID ((o1, e1) :: steps ++ [(o2, e2)]) d Connect = Ok (d', Wait ms, out) ∧
    ∀ id, List.filter (about id) out =
      match allTags d !! id with
      | Some tag => publishes moduleID id tag d (changes (lastValues d !! id) [(eNow e2, register_value cl tag)])
      | None => []
      end.
Proof. apply scan_loop. Qed.

End Server.

(** ** A variable through the server and back *)

Section Crossing.
Context `{FloatConv, FloatText}.
Context (moduleID : string).

(** The value a scanner's tag has for the value [v] of a variable of the server. *)
Definition scanned_value (tag : ModbusTagConfig) (v : value) : value :=
  if is_bit_space (tagFunctionCode tag) then VBool (Conv.toBool v)
  else client_value (Conv.toFloat64 v) (Datatype tag).

Lemma variable_register s cl stag tag v :
  tagFunctionCode tag = tagFunctionCode stag → Address tag = Address stag → Datatype tag = Datatype stag →
  tag_order cl tag = default_order stag → Datatype stag ≠ "float64" ∨ default_order stag ≠ "CDAB" →
  register_value (snd (UpdateFromVariable (RegisterTag s stag) (ID stag) v)) cl tag = scanned_value tag v.
Proof.
  intros Hfc Ha Hdt Ho Hne. unfold UpdateFromVariable, register_value, scanned_value, is_bit_space.
  change (tagsByVariable (RegisterTag s stag)) with (<[ID stag := stag]> (tagsByVariable s)).
  rewrite lookup_insert_eq, Hfc, Ha, Hdt, Ho. unfold fcNameToCode.
  destruct (String.eqb_spec (tagFunctionCode stag) "coil") as [->|Hcoil].
  { cbn. unfold ReadCoil. cbn. by rewrite bit_at_insert, decide_True. }
  destruct (String.eqb_spec (tagFunctionCode stag) "discrete") as [->|Hdisc].
  { cbn. unfold ReadDiscrete. cbn. by rewrite bit_at_insert, decide_True. }
  cbn [orb]. destruct (encode_words (Conv.toFloat64 v) (Datatype stag) (default_order stag)) as (_ & Hl & _).
  pose proof (client_reads_server (Conv.toFloat64 v) (Datatype stag) (default_order stag) Hne) as Hr.
  set (ws := encodeToRegisters (Conv.toFloat64 v) (Datatype stag) (default_order stag)) in *.
  destruct (String.eqb_spec (tagFunctionCode stag) "input") as [->|Hin]; cbn -[get_words decodeRegisters be_bytes].
  - by rewrite <- Hl, get_put_words, Hr.
  - destruct (String.eqb (tagFunctionCode stag) "holding"); cbn -[get_words decodeRegisters be_bytes]; by rewrite <- Hl, get_put_words, Hr.
Qed.

(** C24: A variable crosses Modbus. The register server holds a variable's value under a tag,
    and the device of a scanner has the server's unit id, a plan as [rebuildDevicePlan] makes it
    whose blocks fit one answer (up to 127 registers or 2040 coils: the scanner also plans
    longer ones, and an answer to them makes it crash), and no connection yet; the server gets
    what the scanner writes and the scanner what the server answers, cut in any way. Then a poll
    of a tag of the same function, address, datatype and byte order publishes one message about
    it, with that value as the datatype holds it, under its own name, unless its text is the one
    published before or JSON cannot encode it (a NaN, an infinity). The exception is float64 in
    word-swapped order, where the two sides disagree. *)
Theorem variable_crosses_modbus srv s stag tag id v o1 e1 steps o2 e2 d c reqs cs :
  conn d = None → plan_ok d → Forall block_fits (blocks d) → dUnitID (client d) = unitID srv → is_byte (unitID srv) →
  eDial e1 (JoinHostPort (Host d) (itoa (Port d))) = inr c → writeError c = None →
  let cl := mkDevice (dUnitID (client d)) (ByteOrder (client d)) 0 [] in
  let st := snd (UpdateFromVariable (RegisterTag s stag) (ID stag) v) in
  concat reqs = written cl (blocks d) c → handleConnection srv (mkCS [] st [] []) reqs = Ok cs →
  concat (incoming c) = concat (csOut cs) → length steps = S (length (blocks d)) →
  allTags d !! id = Some tag → tagFunctionCode tag = tagFunctionCode stag → Address tag = Address stag →
  Datatype tag = Datatype stag → tag_order cl tag = default_order stag →
  Datatype stag ≠ "float64" ∨ default_order stag ≠ "CDAB" →
  same_text (lastValues d !! id) (scanned_value tag v) = false → json_ok (scanned_value tag v) = true →
  ∃ d' ms out, poll_loop moduleID ((o1, e1) :: steps ++ [(o2, e2)]) d Connect = Ok (d', Wait ms, out) ∧
    List.filter (about id) out = [scan_message moduleID d tag id (scanned_value tag v) (eNow e2)].
Proof.
  intros Hcn Hplan Hfits Hunit Hbyte Hdial Hw cl st Hreqs Hserve Hin Hl Htag Hfc Ha Hdt Ho Hne Hnew Hj.
  enough (∃ d' ms out, poll_loop moduleID ((o1, e1) :: steps ++ [(o2, e2)]) d Connect = Ok (d', Wait ms, out) ∧
    List.filter (about id) out = publishes moduleID id tag d (changes (lastValues d !! id) [(eNow e2, register_value st cl tag)]))
    as (d' & ms & out & Hr & Hf).
  { exists d', ms, out. split; [done|]. rewrite Hf. unfold st. rewrite variable_register by done. cbn [changes]. rewrite Hnew.
    unfold publishes. cbn [List.filter snd]. by rewrite Hj. }
  destruct (scan_loop moduleID srv st o1 e1 steps o2 e2 d c reqs cs) as (d' & ms & out & Hr & Hf); [done..|].
  exists d', ms, out. split; [done|]. by rewrite Hf, Htag.
Qed.

End Crossing.

(** ** A plan that is too long *)

Section TooLong.
Context `{FloatConv, FloatText}.

(** The read plan has no limit on the length of a block. A block of 128 to 255 registers is
    more than the byte that counts the answer's bytes can hold; when the register server
    answers it, the client keeps only the first [Count b - 128] registers, and the scanner
    panics at a tag that starts behind them. *)
Theorem long_block_panics srv st b cl c x cs : block_ok 3 b → in_u 16 (StartAddr b) → 128 ≤ Count b ≤ 255 →
  x ∈ Tags b → Count b - 128 < Offset x →
  dUnitID cl = unitID srv → is_byte (unitID srv) → in_u 16 (txnID cl) → readBuf cl = [] → writeError c = None →
  handleConnection srv (mkCS [] st [] []) [written cl [b] c] = Ok cs → concat (incoming c) = concat (csOut cs) →
  is_panic (readBlock cl b c).1.1 = true.
Proof.
  intros [Hfc Hoff] Ha Hn Hx Hlate Hu Hub Ht Hbuf Hw Hserve Hin. rewrite written_requests in Hserve.
  rewrite (connection_stream srv _ (mkCS [] st [] []) (plan_requests (txnID cl) (dUnitID cl) [b])) in Hserve;
    [|by apply plan_requests_ok|apply app_nil_r|done].
  apply Ok_inj in Hserve. subst cs. cbn [csOut with_csbuf plan_requests fold_left] in Hin.
  assert (read_pdu b = buildReadPDU 3 (StartAddr b) (Count b)) as Hpdu.
  { unfold read_pdu. rewrite Hfc, !wrapu_small by (done || unfold in_u; lia). done. }
  set (n := Z.to_nat (Count b)). set (data := concat (map put_u16 (get_words (holding st) (StartAddr b) n))).
  assert (length data = (2 * n)%nat) as Hl by (unfold data; by rewrite words_bytes, length_get_words).
  assert (wrapu 8 (Count b * 2) = 2 * Count b - 256) as Hbc by (unfold wrapu; rewrite <- (Z.mod_unique_pos _ 256 1 (2 * Count b - 256)); lia).
  unfold answer_one in Hin. cbn [rqUnit rqPDU rqTx csStore csOut csBuf csEvents] in Hin.
  rewrite Hu, Z.eqb_refl, Hpdu in Hin. cbn [negb andb] in Hin.
  rewrite (handle_read_words srv st _ _ true) in Hin by (done || unfold in_u; lia). fold n data in Hin. rewrite Hbc in Hin.
  cbn [csOut app concat] in Hin. rewrite app_nil_r in Hin.
  set (f := mkFrame (txnID cl) 0 (unitID srv) 3 ((2 * Count b - 256) :: data)).
  assert (frame_ok f) as Hf by (split_and!; [done|done|cbn [ModbusCodec.Data f length]; unfold n in Hl; lia]).
  assert (response_frame (txnID cl) (unitID srv) (3 :: (2 * Count b - 256) :: data) = frame_bytes f) as Hfr.
  { unfold response_frame, frame_bytes. cbn [TransactionID ProtocolID UnitID FunctionCode ModbusCodec.Data f app].
    rewrite wrapu_small by (unfold in_u; cbn [length]; unfold n in Hl; lia). do 3 f_equal. f_equal. cbn [length]. lia. }
  assert (is_bytes (frame_bytes f)) as Hfb.
  { unfold frame_bytes. cbn [TransactionID ProtocolID UnitID FunctionCode ModbusCodec.Data f].
    do 3 (apply Forall_app; split; [apply is_bytes_be_bytes|]). cbn [app].
    constructor; [done|]. constructor; [by apply (bool_decide_unpack _)|]. constructor; [unfold is_byte, in_u; lia|].
    apply is_bytes_put_words. }
  rewrite Hfr in Hin. unfold readBlock, readRegisters, sendAndReceive. cbn [nextTxnID]. rewrite Hw.
  destruct (receive_frame f [] (incoming c) (readError c) Hf ltac:(by rewrite app_nil_r)
    (mkDevice (dUnitID cl) (ByteOrder cl) (wrapu 16 (txnID cl + 1)) (readBuf cl))) as (buf & chunks' & -> & _).
  { cbn [readBuf]. by rewrite Hbuf, Hin, app_nil_r. }
  unfold finish. cbn [FunctionCode f]. change (isExceptionResponse 3) with false. cbn [mbind outcome_bind fst].
  assert (payload f = Ok (take (Z.to_nat (2 * Count b - 256)) data)) as ->.
  { unfold payload. cbn [ModbusCodec.Data f]. rewrite (proj2 (Nat.ltb_ge _ _)) by (cbn [length]; unfold n in Hl; lia).
    rewrite slice_ok by (cbn [length]; unfold n in Hl; lia). cbn [drop]. do 2 f_equal. lia. }
  cbn [mbind outcome_bind]. rewrite Hfc. change (fcIsCoilOrDiscrete 3) with false. cbn [fst].
  rewrite decode_words_panics by (eapply Forall_impl; [exact Hoff|intros y (_ & ? & _); done]).
  apply existsb_exists. exists x. split; [by apply list_elem_of_In|]. unfold beyond. apply Z.ltb_lt.
  rewrite length_take. lia.
Qed.

End TooLong.

(** ** Witnesses *)

#[export] Instance block_fits_dec b : Decision (block_fits b).
Proof. unfold block_fits. apply _. Defined.

Definition ex_tag : ModbusTagConfig := mkTag "speed" 10 "" "int16" "" false.
Definition ex_request : ModbusScannerSubscribeRequest :=
  mkModbus "gateway-g" "press" "10.0.0.5" 0 0 "ABCD" 500 [ex_tag; mkTag "run" 3 "coil" "boolean" "" false].
Definition ex_key : string := request_key "gateway-g" "press".

Definition ex_env (c : Conn) (now : Z) : env := mkEnv (λ _, inr c) true now.

(** A request arrives, the loop connects, its first answer never comes, and the gateway
    withdraws the request. *)
Definition ex_history : list (ranging * event) :=
  [(map_order, Config ex_key (Some (inr ex_request)));
   (map_order, Poll 0 (ex_env (mkConn None [] "timeout") 0)); (map_order, Poll 0 (ex_env (mkConn None [] "timeout") 0));
   (map_order, Poll 0 (ex_env (mkConn None [] "timeout") 0)); (map_order, Config ex_key None)].


Lemma scanner_follows_bucket_witness : let _ := conv_zero in let _ := no_float_text in
  ∃ s out d ph, run "modbus" (take 4 ex_history) newScanner = Ok (s, out) ∧ heap s !! 0%nat = Some (d, ph) ∧
    stopped d = false ∧ is_Some (allTags d !! "speed").
Proof.
  intros ? ?. eexists _, _, _, _. split; [vm_compute; reflexivity|]. split; [reflexivity|].
  pose proof (proj1 (scanner_follows_bucket "modbus" (take 4 ex_history) _ []
    ltac:(repeat constructor; apply (bool_decide_unpack _); vm_compute; exact I) ltac:(vm_compute; reflexivity))
    ex_key ex_request ltac:(vm_compute; reflexivity)) as (p & d & ph & Hp & Hd & Hst & Ht).
  vm_compute in Hp. injection Hp as <-. cbn in Hd. injection Hd as <- <-. split; [exact Hst|].
  apply (Ht ex_tag). left.
Defined.

Definition ex_device : Device :=
  rebuildDevicePlan map_order (with_subscribers (new_device ex_request) {["gateway-g" := new_subscriber ex_request]}).

Lemma ex_plan : plan_ok ex_device.
Proof. apply rebuild_plan. apply map_Forall_singleton, new_subscriber_named. Qed.

Lemma scans_publish_changes_witness : let _ := conv_zero in let _ := no_float_text in
  List.filter (about "speed") (publish_scans "modbus"
    [(map_order, 0, {["speed" := VInt KInt64 7]}); (map_order, 500, {["speed" := VInt KInt64 7]});
     (map_order, 1000, {["speed" := VInt KInt64 (-1)]})] ex_device).2
  = publishes "modbus" "speed" (tag_config "ABCD" ex_tag) ex_device [(0, VInt KInt64 7); (1000, VInt KInt64 (-1))].
Proof.
  intros ? ?. exact (scans_publish_changes "modbus"
    [(map_order, 0, {["speed" := VInt KInt64 7]}); (map_order, 500, {["speed" := VInt KInt64 7]});
     (map_order, 1000, {["speed" := VInt KInt64 (-1)]})] ex_device "speed" (tag_config "ABCD" ex_tag) ltac:(vm_compute; reflexivity)).
Defined.

Lemma stopped_loop_returns_witness : let _ := conv_zero in let _ := no_float_text in
  ∃ d ph out, poll_loop "modbus" (replicate 8 (map_order, ex_env (mkConn None [] "EOF") 0)) (stopDevice ex_device) (Backoff 2000)
    = Ok (d, ph, out) ∧ ph = Done ∧ conn d = None.
Proof.
  intros ? ?. eexists _, _, _. split; [vm_compute; reflexivity|].
  exact (stopped_loop_returns "modbus" (replicate 8 (map_order, ex_env (mkConn None [] "EOF") 0)) (stopDevice ex_device) (Backoff 2000)
    _ _ [] I (plan_sound _ ex_plan) eq_refl ltac:(apply Nat.leb_le; vm_compute; reflexivity) ltac:(vm_compute; reflexivity)).
Defined.

(** The register server has a variable of the PLC under the address the scanner polls. *)
Section ExServer.
#[local] Instance ex_conv : FloatConv := conv_zero.
#[local] Instance ex_text : FloatText := no_float_text.

Definition ex_stag : ModbusTagConfig := mkTag "motor.speed" 10 "holding" "int16" "" false.
Definition ex_store : RegisterStore :=
  snd (UpdateFromVariable (RegisterTag NewRegisterStore ex_stag) (ID ex_stag) (VInt KInt (-1500))).
Definition ex_server : TCPServer := mkServer 1 true.
Definition ex_reqs : list (list Z) := [wires (plan_requests 0 1 (blocks ex_device))].
Definition ex_served : ConnState :=
  match handleConnection ex_server (mkCS [] ex_store [] []) ex_reqs with Ok cs => cs | _ => mkCS [] ex_store [] [] end.
(** The answers, cut in an awkward place. *)
Definition ex_conn : Conn :=
  mkConn None [take 5 (concat (csOut ex_served)); drop 5 (concat (csOut ex_served))] "EOF".

End ExServer.

Lemma variable_crosses_modbus_witness : let _ := conv_zero in let _ := no_float_text in
  ∃ d ms out, poll_loop "modbus" (replicate 5 (map_order, ex_env ex_conn 77)) ex_device Connect = Ok (d, Wait ms, out) ∧
    List.filter (about "speed") out
    = [scan_message "modbus" ex_device (tag_config "ABCD" ex_tag) "speed" (VInt KInt64 (-1500)) 77].
Proof.
  intros ? ?.
  exact (variable_crosses_modbus "modbus" ex_server NewRegisterStore ex_stag (tag_config "ABCD" ex_tag) "speed" (VInt KInt (-1500))
    map_order (ex_env ex_conn 77) (replicate 3 (map_order, ex_env ex_conn 77)) map_order (ex_env ex_conn 77) ex_device ex_conn
    ex_reqs ex_served eq_refl ex_plan ltac:(apply (bool_decide_unpack _); vm_compute; exact I) eq_refl
    ltac:(apply (bool_decide_unpack _); vm_compute; exact I) eq_refl eq_refl ltac:(vm_compute; reflexivity) ltac:(vm_compute; reflexivity)
    ltac:(vm_compute; reflexivity) ltac:(vm_compute; reflexivity) ltac:(vm_compute; reflexivity) eq_refl eq_refl eq_refl
    ltac:(vm_compute; reflexivity) ltac:(by left) ltac:(vm_compute; reflexivity) ltac:(vm_compute; reflexivity)).
Defined.
