(* ===== verification/Host.v ===== *)
(** The computer the orchestrator runs on: a file system, and the commands and web servers
    it calls.

    The file system is a map from absolute paths, and the functions of the package os that
    the orchestrator uses are its operations. The last component of a path is resolved
    through symbolic links, the directories before it are not. What a command or a web
    server does is not the program's: [System] is the interface through which they are
    called, and an instance of it says what they do. *)

From stdpp Require Import sorting.
From S2P Require Export Prelude GoText.

#[local] Open Scope Z_scope.

Inductive node :=
| Dir
| File (content : string)
| Link (target : string).

#[export] Instance node_eq_dec : EqDecision node.
Proof. solve_decision. Defined.

(** ** Paths *)

(** [strings.HasPrefix] and the slice behind the prefix. *)
Definition strip_prefix (pre s : string) : option string :=
  if String.eqb (String.substring 0 (str_len pre) s) pre then Some (String.substring (str_len pre) (str_len s - str_len pre) s)
  else None.

Lemma strip_prefix_app pre s : strip_prefix pre (pre +:+ s) = Some s.
Proof.
  unfold strip_prefix. rewrite substring_app_l, String.eqb_refl. f_equal.
  assert (Hl : str_len (pre +:+ s) = (str_len pre + str_len s)%nat) by (rewrite <- !length_chars, chars_app, length_app; reflexivity).
  rewrite Hl, Nat.add_comm, Nat.add_sub. clear Hl. induction pre as [|c pre IH]; [apply substring_all|exact IH].
Qed.

Lemma strip_prefix_Some pre s r : strip_prefix pre s = Some r ↔ s = pre +:+ r.
Proof.
  split; [|intros ->; apply strip_prefix_app].
  unfold strip_prefix. destruct (String.eqb_spec (String.substring 0 (str_len pre) s) pre) as [E|]; [|done].
  intros [= <-]. revert s E. induction pre as [|c pre IH]; intros s E; cbn in *.
  - unfold str_len. rewrite Nat.sub_0_r. symmetry. apply substring_all.
  - destruct s as [|c' s]; [done|]. cbn in E. injection E as -> E. exact (f_equal (String c) (IH s E)).
Qed.

(** [strings.Contains]. *)
Definition contains (s sub : string) : bool := match String.index 0 sub s with Some _ => true | None => false end.

Definition slash : ascii := "/"%char.

(** The path itself and the directories above it, the longest first. *)
Fixpoint ancestors_go (before l : list ascii) : list string :=
  match l with
  | [] => [str (rev before)]
  | c :: l' => ancestors_go (c :: before) l' ++ if Ascii.eqb c slash && negb (bool_decide (before = [])) then [str (rev before)] else []
  end.

Definition ancestors (path : string) : list string := ancestors_go [] (chars path).

Definition has_slash (s : string) : bool := existsb (Ascii.eqb slash) (chars s).

(** The name of [path] in the directory [dir]. *)
Definition name_in (dir path : string) : option string :=
  match strip_prefix (dir +:+ "/") path with
  | Some name => if String.eqb name "" || has_slash name then None else Some name
  | None => None
  end.

(** ** The package os *)

Notation fs := (gmap string node).

Section Files.
Implicit Types f : fs.

(** The path a chain of links ends at. *)
Fixpoint resolve_go (fuel : nat) f (path : string) : option string :=
  match f !! path, fuel with
  | Some (Link target), S fuel' => resolve_go fuel' f target
  | Some (Link _), O => None
  | _, _ => Some path
  end.

(** At most 40 links are followed. *)
Definition resolve f (path : string) : option string := resolve_go 40 f path.

Definition stat f (path : string) : option node := p ← resolve f path; f !! p.

Definition lstat f (path : string) : option node := f !! path.

Definition is_dir f (path : string) : bool := bool_decide (stat f path = Some Dir).

Definition parent_ok f (path : string) : bool :=
  match ancestors path with _ :: d :: _ => is_dir f d | _ => true end.

Definition mkdir f (path : string) : bool * fs :=
  match lstat f path with
  | Some _ => (false, f)
  | None => if parent_ok f path then (true, <[path := Dir]> f) else (false, f)
  end.

Fixpoint mkdirAll_go f (paths : list string) : bool * fs :=
  match paths with
  | [] => (true, f)
  | path :: above =>
      match stat f path with
      | Some Dir => (true, f)
      | Some _ => (false, f)
      | None => let '(ok, f) := mkdirAll_go f above in if ok then mkdir f path else (false, f)
      end
  end.

Definition MkdirAll f (path : string) : bool * fs := mkdirAll_go f (ancestors path).

Definition readlink f (path : string) : option string :=
  match lstat f path with Some (Link target) => Some target | _ => None end.

Definition symlink f (target path : string) : bool * fs :=
  match lstat f path with
  | Some _ => (false, f)
  | None => if parent_ok f path then (true, <[path := Link target]> f) else (false, f)
  end.

Definition children f (dir : string) : list (string * node) :=
  omap (λ kv, name ← name_in dir kv.1; Some (name, kv.2)) (map_to_list f).

(** [os.Remove] fails on a directory that is not empty. *)
Definition os_remove f (path : string) : bool * fs :=
  match lstat f path with
  | None => (false, f)
  | Some Dir => if bool_decide (children f path = []) then (true, delete path f) else (false, f)
  | Some _ => (true, delete path f)
  end.

Definition RemoveAll f (path : string) : fs :=
  filter (λ kv, kv.1 ≠ path ∧ strip_prefix (path +:+ "/") kv.1 = None) f.

(** [os.ReadDir]: the entries by name. *)
Definition ReadDir f (path : string) : option (list (string * node)) :=
  if is_dir f path then Some (merge_sort (λ a b, String.le a.1 b.1) (children f path)) else None.

(** [os.ReadFile]. *)
Definition read_file f (path : string) : option string :=
  match stat f path with Some (File content) => Some content | _ => None end.

(** [os.WriteFile], and [os.Create] with what is then written. *)
Definition WriteFile f (path content : string) : bool * fs :=
  match resolve f path with
  | None => (false, f)
  | Some p =>
      match f !! p with
      | Some Dir => (false, f)
      | _ => if parent_ok f p then (true, <[p := File content]> f) else (false, f)
      end
  end.

(** [os.Rename] moves what is below [old] with it. It refuses a [new] that is a directory. *)
Definition Rename f (old new : string) : bool * fs :=
  match lstat f old, lstat f new with
  | None, _ => (false, f)
  | _, Some Dir => (false, f)
  | Some Dir, Some _ => (false, f)
  | Some n, _ =>
      if parent_ok f new then
        (true, list_to_map (map (λ kv, match strip_prefix (old +:+ "/") kv.1 with
          | Some rest => (new +:+ "/" +:+ rest, kv.2)
          | None => if String.eqb kv.1 old then (new, n) else kv
          end) (map_to_list (delete new f))))
      else (false, f)
  end.

#[local] Arguments stat : simpl never.

(** The last step of a path. *)
Lemma stat_node f path n : f !! path = Some n → (∀ t, n ≠ Link t) → stat f path = Some n.
Proof. intros E Hn. unfold stat. cbn. rewrite E. destruct n; naive_solver. Qed.

Lemma readlink_symlink f f' target path : symlink f target path = (true, f') → readlink f' path = Some target.
Proof.
  unfold symlink, readlink, lstat. destruct (f !! path); intros E; simplify_eq.
  case_if; simplify_eq. by rewrite lookup_insert_eq.
Qed.

Lemma mkdirAll_go_dir f paths f' : mkdirAll_go f paths = (true, f') → ∀ path, head paths = Some path → stat f' path = Some Dir.
Proof.
  destruct paths as [|path above]; [done|]. cbn. intros E p [= <-].
  destruct (stat f path) as [[]|] eqn:Es; simplify_eq; [done|].
  destruct (mkdirAll_go f above) as [[] f1]; [|done].
  unfold mkdir, lstat in E. destruct (f1 !! path); [done|]. case_if; simplify_eq.
  apply stat_node; [apply lookup_insert_eq|done].
Qed.

Lemma ancestors_go_head before l : head (ancestors_go before l) = Some (str (rev before ++ l)).
Proof.
  revert before. induction l as [|c l IH]; intros before; cbn; [by rewrite app_nil_r|].
  specialize (IH (c :: before)). destruct (ancestors_go (c :: before) l); [done|].
  cbn in *. rewrite IH. by rewrite <- app_assoc.
Qed.

Lemma MkdirAll_dir f path f' : MkdirAll f path = (true, f') → stat f' path = Some Dir.
Proof.
  intros E. eapply mkdirAll_go_dir; [exact E|]. unfold ancestors. rewrite ancestors_go_head. cbn. by rewrite str_chars.
Qed.

(** A directory that is already there. *)
Lemma MkdirAll_again f path : stat f path = Some Dir → MkdirAll f path = (true, f).
Proof.
  intros Hd. unfold MkdirAll. pose proof (ancestors_go_head [] (chars path)) as Hh.
  fold (ancestors path) in Hh. cbn in Hh. rewrite str_chars in Hh.
  destruct (ancestors path); [done|]. cbn in *. simplify_eq. by rewrite Hd.
Qed.

Lemma stat_Dir f path : stat f path = Some Dir → (∀ t, f !! path ≠ Some (Link t)) → f !! path = Some Dir.
Proof.
  intros Hs Hl. unfold stat, resolve in Hs. cbn in Hs. destruct (f !! path) as [[]|] eqn:E; cbn in Hs; try by rewrite E in Hs.
  by destruct (Hl target).
Qed.

(** Unless a link stands for it, the directory is there afterwards. *)
Lemma MkdirAll_entry f path f' : MkdirAll f path = (true, f') → (∀ t, f !! path ≠ Some (Link t)) → f' !! path = Some Dir.
Proof.
  unfold MkdirAll. pose proof (ancestors_go_head [] (chars path)) as Hh.
  fold (ancestors path) in Hh. cbn in Hh. rewrite str_chars in Hh.
  destruct (ancestors path) as [|path' above]; [done|]. cbn in Hh. injection Hh as ->. cbn [mkdirAll_go].
  destruct (stat f path) as [[]|] eqn:Es; intros E Hl; try done.
  - injection E as <-. by apply stat_Dir.
  - destruct (mkdirAll_go f above) as [[] f1]; [|done]. unfold mkdir, lstat in E.
    destruct (f1 !! path); [done|]. destruct (parent_ok f1 path); [|done]. injection E as <-. apply lookup_insert_eq.
Qed.

(** A directory cannot be moved onto a directory. *)
Lemma Rename_onto_dir f old new : f !! new = Some Dir → Rename f old new = (false, f).
Proof. intros E. unfold Rename, lstat. rewrite E. by destruct (f !! old) as [[]|]. Qed.

(** ** What operations leave in place *)

Lemma WriteFile_new f path content f' : WriteFile f path content = (true, f') →
  (∀ t, f !! path ≠ Some (Link t)) → f' = <[path := File content]> f.
Proof.
  unfold WriteFile, resolve. cbn. intros E Hl. destruct (f !! path) as [[]|] eqn:Ep; try rewrite Ep in E; try done.
  - by destruct (parent_ok f path); simplify_eq.
  - by destruct (Hl target).
  - by destruct (parent_ok f path); simplify_eq.
Qed.

(** Nothing becomes a link. *)
Definition no_new_links (f f' : fs) : Prop := ∀ p t, f' !! p = Some (Link t) → f !! p = Some (Link t).

#[export] Instance no_new_links_trans : Transitive no_new_links.
Proof. intros f1 f2 f3 H1 H2 p t Hp. auto. Qed.

Lemma no_new_links_insert f path n : (∀ t, n ≠ Link t) → no_new_links f (<[path := n]> f).
Proof. intros Hn p t. rewrite lookup_insert_Some. intros [[_ E]|[_ E]]; [by destruct (Hn t)|done]. Qed.

Lemma mkdirAll_no_links f paths : no_new_links f (mkdirAll_go f paths).2.
Proof.
  induction paths as [|path above IH]; cbn; [by intros p t|]. destruct (stat f path) as [[]|]; cbn; try by intros p t.
  destruct (mkdirAll_go f above) as [[] f1]; cbn in *; [|done]. etrans; [exact IH|].
  unfold mkdir. destruct (lstat f1 path); cbn; [by intros p t|].
  destruct (parent_ok f1 path); cbn; [by apply no_new_links_insert|by intros p t].
Qed.

Lemma WriteFile_no_links f path content : no_new_links f (WriteFile f path content).2.
Proof.
  unfold WriteFile. destruct (resolve f path) as [p|]; cbn; [|by intros ? ?].
  destruct (f !! p) as [[]|]; cbn; try by intros ? ?.
  all: destruct (parent_ok f p); cbn; [by apply no_new_links_insert|by intros ? ?].
Qed.

(** Only the directories asked for are made. *)
Lemma mkdirAll_other f paths p : p ∉ paths → (mkdirAll_go f paths).2 !! p = f !! p.
Proof.
  intros Hp. induction paths as [|path above IH]; cbn; [done|]. apply not_elem_of_cons in Hp as [Hne Hp].
  destruct (stat f path) as [[]|]; cbn; [done..|]. specialize (IH Hp).
  destruct (mkdirAll_go f above) as [[] f1]; cbn in *; [|done]. unfold mkdir.
  destruct (lstat f1 path); cbn; [done|]. destruct (parent_ok f1 path); cbn; [|done]. by rewrite lookup_insert_ne.
Qed.

End Files.

(** ** Commands and web servers *)

Record Host (Sys : Type) := mkHost {
  files : fs;
  rest : Sys;
}.
Arguments mkHost {_} _ _.
Arguments files {_} _.
Arguments rest {_} _.

Definition with_files {Sys} (h : Host Sys) (f : fs) : Host Sys := mkHost f (rest h).

(** [exec env dir name args] runs a command to its end and gives what it wrote to standard
    output and standard error, and whether it ended without an error; [spawn] starts one and
    does not wait. [http method url] is the answer's status, its body, and whether the body
    arrived in full; [None] when there is no answer. *)
Class System (Sys : Type) := {
  exec : list string → string → string → list string → Host Sys → string * string * bool * Host Sys;
  spawn : string → list string → Host Sys → bool * Host Sys;
  http : string → string → Sys → option (Z * string * bool) * Sys;
}.

Section Commands.
Context {Sys : Type} `{System Sys} `{UnicodeTables}.

(** [runCmd]: standard output without the white space around it, and whether it succeeded. *)
Definition runCmd (name : string) (args : list string) (h : Host Sys) : string * bool * Host Sys :=
  let '(out, _, ok, h) :=
    exec ["PATH=/usr/local/sbin:/usr/local/bin:/usr/sbin:/usr/bin:/sbin:/bin"] "" name args h in
  (trim_space out, ok, h).

Definition checkInternet (h : Host Sys) : bool * Host Sys :=
  let '(resp, r) := http "HEAD" "https://api.github.com" (rest h) in
  (match resp with Some (code, _, _) => code <? 400 | None => false end, mkHost (files h) r).

Definition downloadFile (url destPath : string) (h : Host Sys) : bool * Host Sys :=
  let '(resp, r) := http "GET" url (rest h) in
  let h := mkHost (files h) r in
  match resp with
  | None => (false, h)
  | Some (code, body, complete) =>
      if negb (code =? 200) then (false, h)
      else
        let '(ok, f) := WriteFile (files h) destPath body in
        if negb ok then (false, h)
        else if complete then (true, with_files h f)
        else (false, with_files h (snd (os_remove f destPath)))
  end.

End Commands.
