(* ===== verification/Orchestrator.v ===== *)
(** The orchestrator of internal/orchestrator: the desired services and their statuses
    (desired.go), the registry of modules, the installation of packages (download.go), and
    the reconciliation of modules that run as goroutines of the process (the monolith of
    watcher.go, command.go and orchestrator.go).

    [reconcileModuleMonolith] and [fullSweep] are functions on the state of the
    orchestrator. The running modules are a map from a module's name to a pointer, which is
    an index into the list of all the instances that were ever started: an instance keeps
    running after its entry is gone from the map. The buckets of the key-value store are
    the orchestrator's own copies; their operations are taken to succeed. *)

From S2P Require Export Host.

#[local] Open Scope Z_scope.

(** ** internal/types/orchestrator.go *)

Record DesiredServiceKV := mkDesired {
  dsModuleID : string;
  dsVersion : string;
  dsRunning : bool;
  dsUpdatedAt : Z;
}.

Record ServiceStatusKV := mkStatus {
  ssModuleID : string;
  ssInstalledVersions : list string;
  ssActiveVersion : string;
  ssSystemdState : string;
  ssReconcileState : string;
  ssLastError : string;
  ssRuntime : string;
  ssCategory : string;
  ssRepo : string;
  ssUpdatedAt : Z;
}.

Record ConfigField := mkField {
  cfEnvVar : string;
  cfDescription : string;
  cfDefault : string;
  cfRequired : bool;
}.

Record BuildDep := mkBuildDep {
  bdName : string;
  bdVersion : string;
  bdRepo : string;
  bdTestCmd : string;
}.

Record ModuleRegistryEntry := mkEntry {
  Repo : string;
  ModuleID : string;
  Description : string;
  Category : string;
  Runtime : string;
  Experimental : bool;
  ExtraEnv : string;
  AptDeps : list string;
  BuildDeps : list BuildDep;
  RequiredConfig : list ConfigField;
}.

(** ** registry.go and registry_experimental.go *)

Definition embedded (experimental : bool) (id description : string) (deps : list string) (config : list ConfigField)
    : ModuleRegistryEntry :=
  mkEntry "tentacle-next" id description "optional" "embedded" experimental "" deps [] config.

Definition stableRegistry : list ModuleRegistryEntry := [
  embedded false "gateway" "Device gateway (RBE, UDT assembly)" [] [];
  embedded false "ethernetip" "EtherNet/IP scanner (Allen-Bradley, etc.)" [] [];
  embedded false "snmp" "SNMP scanner & trap listener" [] [];
  embedded false "mqtt" "MQTT Sparkplug B bridge" [] [
    mkField "MQTT_BROKER_URL" "MQTT broker URL (mqtt:// or mqtts://)" "" true;
    mkField "MQTT_CLIENT_ID" "MQTT client ID base" "tentacle-mqtt" false;
    mkField "MQTT_GROUP_ID" "Sparkplug B group ID" "TentacleGroup" false;
    mkField "MQTT_EDGE_NODE" "Sparkplug B edge node name" "EdgeNode" false;
    mkField "MQTT_USERNAME" "MQTT broker username" "" false;
    mkField "MQTT_PASSWORD" "MQTT broker password" "" false];
  embedded false "network" "Network interface manager" [] [];
  embedded false "gitops" "GitOps Config Sync" ["git"] [
    mkField "GITOPS_REPO_URL" "Git repository URL (SSH or HTTPS)" "" true];
  embedded false "caddy" "Caddy reverse proxy" [] [];
  embedded false "telemetry" "Anonymous usage & error reporting" [] []].

Definition experimentalRegistry : list ModuleRegistryEntry := [
  embedded true "opcua" "OPC UA client" [] [];
  embedded true "modbus" "Modbus TCP scanner" [] [];
  embedded true "profinet" "PROFINET IO Device" [] [];
  embedded true "profinetcontroller" "PROFINET IO Controller" [] [];
  embedded true "ethernetip-server" "EtherNet/IP server" [] [];
  embedded true "modbus-server" "Modbus TCP server" [] [];
  embedded true "history" "Edge historian (TimescaleDB)" [] [
    mkField "HISTORY_DB_HOST" "PostgreSQL host" "localhost" false;
    mkField "HISTORY_DB_PORT" "PostgreSQL port" "5432" false;
    mkField "HISTORY_DB_USER" "PostgreSQL user" "postgres" false;
    mkField "HISTORY_DB_PASSWORD" "PostgreSQL password" "postgres" false;
    mkField "HISTORY_DB_NAME" "Database name" "tentacle" false];
  embedded true "nftables" "Firewall manager" [] [];
  embedded true "plc" "Soft PLC engine" [] []].

(** The registry of a build with the tag [all], and of one without. *)
Definition moduleRegistry (all : bool) : list ModuleRegistryEntry :=
  stableRegistry ++ if all then experimentalRegistry else [].

Definition getRegistryEntry (registry : list ModuleRegistryEntry) (moduleID : string) : option ModuleRegistryEntry :=
  find (λ e, String.eqb (ModuleID e) moduleID) registry.

(** ** desired.go *)

(** The buckets desired_services (a value that does not parse is [None]), service_status
    and tentacle_config. *)
Record Bus := mkBus {
  bDesired : gmap string (option DesiredServiceKV);
  bStatus : gmap string ServiceStatusKV;
  bConfig : gmap string string;
}.

Definition with_status (b : Bus) (m : gmap string ServiceStatusKV) : Bus := mkBus (bDesired b) m (bConfig b).

Definition getAllDesiredServices (o : ranging) (b : Bus) : list DesiredServiceKV := omap snd (o _ (bDesired b)).

Definition putDesiredService (d : DesiredServiceKV) (b : Bus) : Bus :=
  mkBus (<[dsModuleID d := Some d]> (bDesired b)) (bStatus b) (bConfig b).

Definition normalizeSystemdState (state : string) : string :=
  if existsb (String.eqb state) ["active"; "inactive"; "failed"; "not-found"] then state
  else if String.eqb state "activating" then "active"
  else if String.eqb state "deactivating" then "inactive"
  else "not-found".

Record statusOpts := mkOpts {
  soInstalledVersions : list string;
  soActiveVersion : string;
  soSystemdState : string;
  soReconcileState : string;
  soLastError : string;
}.

Definition status_of (entry : ModuleRegistryEntry) (opts : statusOpts) (now : Z) : ServiceStatusKV :=
  mkStatus (ModuleID entry) (soInstalledVersions opts) (soActiveVersion opts) (normalizeSystemdState (soSystemdState opts))
    (soReconcileState opts) (soLastError opts) (Runtime entry) (Category entry) (Repo entry) now.

Definition reportStatus (entry : ModuleRegistryEntry) (opts : statusOpts) (now : Z) (b : Bus) : Bus :=
  with_status b (<[ModuleID entry := status_of entry opts now]> (bStatus b)).

(** [moduleID.ENVVAR] gives [ENVVAR]; the name must not be empty. *)
Definition env_name (moduleID key : string) : option string :=
  match strip_prefix (moduleID +:+ ".") key with
  | Some env => if String.eqb env "" then None else Some env
  | None => None
  end.

Definition getModuleConfig (o : ranging) (b : Bus) (moduleID : string) : gmap string string :=
  fold_left (λ config kv, match env_name moduleID kv.1 with Some env => <[env := kv.2]> config | None => config end)
    (o _ (bConfig b)) ∅.

(** The required variables without a value and without a default. *)
Definition missing_config (entry : ModuleRegistryEntry) (config : gmap string string) : list string :=
  map cfEnvVar (List.filter (λ cf, cfRequired cf && String.eqb (default "" (config !! cfEnvVar cf)) "" && String.eqb (cfDefault cf) "")
    (RequiredConfig entry)).

(** [%v] of a slice of strings. *)
Definition fmt_strings (l : list string) : string := "[" +:+ str_join " " l +:+ "]".

(** ** The installation of packages in download.go *)

Section Packages.
Context {Sys : Type} `{System Sys} `{UnicodeTables}.
Implicit Types h : Host Sys.

(** The packages dpkg does not have as installed. *)
Fixpoint missing_packages (packages : list string) h : list string * Host Sys :=
  match packages with
  | [] => ([], h)
  | pkg :: packages =>
      let '(stdout, ok, h) := runCmd "dpkg-query" ["-W"; "-f=${Status}"; pkg] h in
      let '(missing, h) := missing_packages packages h in
      (if negb ok || negb (String.eqb stdout "install ok installed") then pkg :: missing else missing, h)
  end.

Definition installAptDeps (packages : list string) h : bool * Host Sys :=
  let '(missing, h) := missing_packages packages h in
  if bool_decide (missing = []) then (true, h)
  else
    let '(_, ok, h) := runCmd "apt-get" ["update"; "-qq"] h in
    if negb ok then (false, h)
    else let '(_, ok, h) := runCmd "apt-get" (["install"; "-y"; "-qq"] ++ missing) h in (ok, h).

Definition remove_all (path : string) h : Host Sys := with_files h (RemoveAll (files h) path).

Definition build_commands (dep : BuildDep) (buildDir : string) : list (string * list string) := [
  ("cmake", ["-S"; buildDir; "-B"; buildDir +:+ "/build"; "-DCMAKE_BUILD_TYPE=Release"; "-DCMAKE_INSTALL_PREFIX=/usr/local"]);
  ("cmake", ["--build"; buildDir +:+ "/build"; "--parallel"]);
  ("cmake", ["--install"; buildDir +:+ "/build"])].

(** Each command runs if those before it succeeded. *)
Fixpoint run_all (cmds : list (string * list string)) h : bool * Host Sys :=
  match cmds with
  | [] => (true, h)
  | (name, args) :: cmds => let '(_, ok, h) := runCmd name args h in if ok then run_all cmds h else (false, h)
  end.

Definition ensureBuildDep (dep : BuildDep) h : bool * Host Sys :=
  let '(present, h) :=
    if String.eqb (bdTestCmd dep) "" then (false, h)
    else let '(_, ok, h) := runCmd "bash" ["-c"; bdTestCmd dep] h in (ok, h) in
  if present then (true, h)
  else
    let buildDir := "/tmp/" +:+ bdName dep +:+ "-build" in
    let h := remove_all buildDir h in
    let '(_, ok, h) := runCmd "git" ["clone"; "--depth=1"; "--branch"; bdVersion dep; bdRepo dep; buildDir] h in
    if negb ok then (false, h)
    else
      let h := with_files h (snd (MkdirAll (files h) (buildDir +:+ "/build"))) in
      let '(ok, h) := run_all (build_commands dep buildDir) h in
      if negb ok then (false, remove_all buildDir h)
      else let '(_, _, h) := runCmd "ldconfig" [] h in (true, remove_all buildDir h).

Fixpoint ensureBuildDeps (deps : list BuildDep) h : bool * Host Sys :=
  match deps with
  | [] => (true, h)
  | dep :: deps => let '(ok, h) := ensureBuildDep dep h in if ok then ensureBuildDeps deps h else (false, h)
  end.

(** The source of a build is cloned with git. *)
Definition apt_deps (entry : ModuleRegistryEntry) : list string :=
  AptDeps entry ++ if bool_decide (BuildDeps entry = []) || existsb (String.eqb "git") (AptDeps entry) then [] else ["git"].

Definition ensureDeps (entry : ModuleRegistryEntry) h : bool * Host Sys :=
  if bool_decide (AptDeps entry = []) && bool_decide (BuildDeps entry = []) then (true, h)
  else
    let '(ok, h) := if bool_decide (apt_deps entry = []) then (true, h) else installAptDeps (apt_deps entry) h in
    if ok then ensureBuildDeps (BuildDeps entry) h else (false, h).

End Packages.

(** ** The orchestrator in one process with its modules *)

(** Who started an instance: the reconciler's goroutine recovers from a panic of the
    module, that of the command restart-service does not. *)
Inductive starter := ByReconciler | ByCommand.

Record instance := mkInstance {
  inModule : string;
  inStarter : starter;
  inStopped : bool;
  inExited : bool;
}.

Definition with_stopped (i : instance) : instance := mkInstance (inModule i) (inStarter i) true (inExited i).
Definition with_exited (i : instance) : instance := mkInstance (inModule i) (inStarter i) (inStopped i) true.

Record World (Sys : Type) := mkWorld {
  running : gmap string nat;
  instances : list instance;
  wBus : Bus;
  host : Host Sys;
}.
Arguments mkWorld {_} _ _ _ _.
Arguments running {_} _.
Arguments instances {_} _.
Arguments wBus {_} _.
Arguments host {_} _.

Section Monolith.
Context {Sys : Type} `{System Sys} `{UnicodeTables}.
Variable registry : list ModuleRegistryEntry.
(** The modules compiled into the binary. *)
Variable factories : gset string.
Variable o : ranging.
Variable now : Z.
Implicit Types w : World Sys.

Definition with_running w (r : gmap string nat) : World Sys := mkWorld r (instances w) (wBus w) (host w).
Definition with_instances w (l : list instance) : World Sys := mkWorld (running w) l (wBus w) (host w).
Definition with_bus w (b : Bus) : World Sys := mkWorld (running w) (instances w) b (host w).
Definition with_host w (h : Host Sys) : World Sys := mkWorld (running w) (instances w) (wBus w) h.

Definition report (entry : ModuleRegistryEntry) (opts : statusOpts) w : World Sys :=
  with_bus w (reportStatus entry opts now (wBus w)).

(** [&runningModule{...}] under the module's name, and its goroutine. *)
Definition start_module (by_ : starter) (id : string) w : World Sys :=
  mkWorld (<[id := length (instances w)]> (running w)) (instances w ++ [mkInstance id by_ false false]) (wBus w) (host w).

(** [rm.mod.Stop()] and [rm.cancel()]. *)
Definition stop_instance (p : nat) w : World Sys := with_instances w (alter with_stopped p (instances w)).

(** The entry leaves the map, and the caller holds what it pointed to. *)
Definition take_module (id : string) w : option nat * World Sys :=
  (running w !! id, with_running w (delete id (running w))).

(** [mod.Start] came to its end in the goroutine of an instance. A panic of a module that a
    command started is the end of the process. *)
Definition exit_instance (panicked : bool) (p : nat) w : outcome (World Sys) :=
  match instances w !! p with
  | Some i =>
      if inExited i then Ok w
      else match panicked, inStarter i with
      | true, ByCommand => Panic
      | _, _ => Ok (mkWorld (delete (inModule i) (running w)) (alter with_exited p (instances w)) (wBus w) (host w))
      end
  | None => Ok w
  end.

Definition embedded_opts (state reconcile lastError : string) : statusOpts :=
  mkOpts ["embedded"] "embedded" state reconcile lastError.

(** *** [reconcileModuleMonolith] *)

(** Up to the look at the map of running modules: the entry to go on with, if any. *)
Definition precheck (d : DesiredServiceKV) w : option ModuleRegistryEntry * World Sys :=
  match getRegistryEntry registry (dsModuleID d) with
  | None => (None, w)
  | Some entry =>
      if negb (bool_decide (dsModuleID d ∈ factories)) then
        (None, report entry (mkOpts [] "" "not-found" "error" ("Module " +:+ quote (dsModuleID d) +:+ " not compiled into this binary")) w)
      else
        let missing := if negb (bool_decide (RequiredConfig entry = [])) && dsRunning d
          then missing_config entry (getModuleConfig o (wBus w) (ModuleID entry)) else [] in
        if negb (bool_decide (missing = [])) then
          (None, report entry (embedded_opts "inactive" "needs_config" ("Missing required config: " +:+ fmt_strings missing)) w)
        else
          let '(ok, h) := if dsRunning d && negb (bool_decide (AptDeps entry = [])) then ensureDeps entry (host w) else (true, host w) in
          let w := with_host w h in
          if ok then (Some entry, w)
          else (None, report entry (embedded_opts "inactive" "error" "Failed to install system dependencies") w)
  end.

Definition isRunning (id : string) w : bool := bool_decide (is_Some (running w !! id)).

(** [rm.mod] of a module that is no longer in the map is a nil dereference; the boolean
    says that the call panicked. *)
Definition act (entry : ModuleRegistryEntry) (d : DesiredServiceKV) (isRunning : bool) w : World Sys * bool :=
  if dsRunning d && negb isRunning then
    (report entry (embedded_opts "active" "ok" "") (start_module ByReconciler (dsModuleID d) w), false)
  else if negb (dsRunning d) && isRunning then
    match take_module (dsModuleID d) w with
    | (Some rm, w) => (report entry (embedded_opts "inactive" "ok" "") (stop_instance rm w), false)
    | (None, w) => (w, true)
    end
  else (report entry (embedded_opts (if isRunning then "active" else "inactive") "ok" "") w, false).

Definition reconcileModuleMonolith (d : DesiredServiceKV) w : World Sys * bool :=
  match precheck d w with
  | (Some entry, w) => act entry d (isRunning (dsModuleID d) w) w
  | (None, w) => (w, false)
  end.

(** *** [fullSweep] *)

(** A panic of one reconciliation is recovered. *)
Definition reconcile_all (l : list DesiredServiceKV) w : World Sys :=
  fold_left (λ w d, fst (reconcileModuleMonolith d w)) l w.

Definition delete_status (id : string) w : World Sys := with_bus w (with_status (wBus w) (delete id (bStatus (wBus w)))).

(** The statuses whose key is the [ModuleID] of no desired service. *)
Definition clean_statuses (l : list DesiredServiceKV) w : World Sys :=
  fold_left (λ w key, if existsb (λ d, String.eqb (dsModuleID d) key) l then w else delete_status key w)
    (o _ (bStatus (wBus w))).*1 w.

Definition fullSweep w : World Sys :=
  let desired := getAllDesiredServices o (wBus w) in
  clean_statuses desired (reconcile_all desired w).

(** *** The watch of desired_services *)

(** The value that was put, [None] when it does not parse. *)
Definition watch_put (d : option DesiredServiceKV) w : World Sys * bool :=
  match d with Some d => reconcileModuleMonolith d w | None => (w, false) end.

(** The module of the key that was deleted is stopped with the lock held. *)
Definition watch_stop (key : string) w : World Sys :=
  match take_module key w with
  | (Some rm, w) => stop_instance rm w
  | (None, w) => w
  end.

Definition watch_delete (key : string) w : World Sys := delete_status key (watch_stop key w).

(** *** The command restart-service *)

Inductive restart_error := NoModule | NotRunning (id : string) | NoFactory (id : string).

Definition restart_text (e : restart_error) : string :=
  match e with
  | NoModule => "moduleId is required for restart-service"
  | NotRunning id => "Module not running: " +:+ id
  | NoFactory id => "No factory for module: " +:+ id
  end.

(** Up to the restart: the instance to replace. *)
Definition restart_look (id : string) w : restart_error + nat :=
  if String.eqb id "" then inl NoModule
  else match running w !! id with
  | None => inl (NotRunning id)
  | Some rm => if bool_decide (id ∈ factories) then inr rm else inl (NoFactory id)
  end.

Definition restart_service (id : string) w : option restart_error * World Sys :=
  match restart_look id w with
  | inl e => (Some e, w)
  | inr rm => (None, start_module ByCommand id (stop_instance rm w))
  end.

(** *** [Module.Stop] *)

Definition stop_all w : World Sys :=
  with_running (fold_left (λ w kv, stop_instance kv.2 w) (o _ (running w)) w) ∅.

End Monolith.
