(* ===== verification/OrchestratorSweep.v ===== *)
(** What a sweep of the orchestrator achieves when nothing else runs beside it: the modules
    that run are the desired ones, their statuses say so, and a second sweep changes
    nothing. *)

From S2P Require Export Orchestrator.

#[local] Open Scope Z_scope.

(** ** The configuration of a module *)

Lemma env_name_Some id key env : env_name id key = Some env ↔ env ≠ "" ∧ key = (id +:+ ".") +:+ env.
Proof.
  unfold env_name. destruct (strip_prefix (id +:+ ".") key) as [r|] eqn:E.
  - apply strip_prefix_Some in E as ->. destruct (String.eqb_spec r "") as [->|].
    + split; [done|]. intros [He Hk]. destruct He. by apply (inj (String.append (id +:+ "."))) in Hk.
    + split; [by intros [= <-]|]. intros [_ Hk]. by apply (inj (String.append (id +:+ "."))) in Hk as ->.
  - split; [done|]. intros [_ ->]. by rewrite strip_prefix_app in E.
Qed.

Section Config.
Variables (id env : string).
Hypothesis Henv : env ≠ "".
Let key := (id +:+ ".") +:+ env.
Let add := λ (config : gmap string string) (kv : string * string),
  match env_name id kv.1 with Some e => <[e := kv.2]> config | None => config end.

Lemma config_fold_other l c : key ∉ l.*1 → fold_left add l c !! env = c !! env.
Proof.
  revert c. induction l as [|[k v] l IH]; intros c; cbn; [done|].
  intros [Hk Hl]%not_elem_of_cons. rewrite IH by done. unfold add. cbn.
  destruct (env_name id k) eqn:E; [|done]. apply env_name_Some in E as [? ->].
  rewrite lookup_insert_ne; [done|]. by intros ->.
Qed.

Lemma config_fold l c v : NoDup l.*1 → (key, v) ∈ l → fold_left add l c !! env = Some v.
Proof.
  revert c. induction l as [|[k v'] l IH]; intros c; cbn; [by intros _ ?%elem_of_nil|].
  intros [Hk Hl]%NoDup_cons [[= <- <-]|Hin]%elem_of_cons.
  - rewrite config_fold_other by done. unfold add. cbn.
    rewrite (proj2 (env_name_Some id key env)) by done. apply lookup_insert_eq.
  - by apply IH.
Qed.

End Config.

(** The configuration is what the bucket holds, in whatever order its keys come. *)
Lemma getModuleConfig_lookup o b id env : env ≠ "" → getModuleConfig o b id !! env = bConfig b !! ((id +:+ ".") +:+ env).
Proof.
  intros He. unfold getModuleConfig. destruct (bConfig b !! ((id +:+ ".") +:+ env)) as [v|] eqn:E.
  - apply config_fold; [done|apply range_NoDup|by apply range_lookup].
  - rewrite config_fold_other; [apply lookup_empty|].
    intros ([k v] & Hk & Hin)%list_elem_of_fmap. apply range_lookup in Hin. cbn in Hk. subst k. by rewrite E in Hin.
Qed.

(** ** One reconciliation *)

(** What the program makes of a desired service, from the registry, the binary and the
    configuration alone. *)
Inductive verdict :=
| VUnknown
| VNotCompiled (e : ModuleRegistryEntry)
| VNeedsConfig (e : ModuleRegistryEntry) (missing : list string)
| VOk (e : ModuleRegistryEntry).

Definition unconfigured (b : Bus) (e : ModuleRegistryEntry) : list string :=
  map cfEnvVar (List.filter (λ cf, cfRequired cf && String.eqb (default "" (bConfig b !! ((ModuleID e +:+ ".") +:+ cfEnvVar cf))) ""
    && String.eqb (cfDefault cf) "") (RequiredConfig e)).

Definition named_fields (registry : list ModuleRegistryEntry) : Prop :=
  Forall (λ e, Forall (λ cf, cfEnvVar cf ≠ "") (RequiredConfig e)) registry.

Lemma missing_unconfigured o b e : Forall (λ cf, cfEnvVar cf ≠ "") (RequiredConfig e) →
  missing_config e (getModuleConfig o b (ModuleID e)) = unconfigured b e.
Proof.
  unfold missing_config, unconfigured. induction 1 as [|cf l Hcf _ IH]; [done|].
  cbn. rewrite getModuleConfig_lookup by done.
  by destruct (cfRequired cf && _ && _); cbn; rewrite IH.
Qed.

Lemma getRegistryEntry_Some registry id e : getRegistryEntry registry id = Some e → e ∈ registry ∧ ModuleID e = id.
Proof. intros [Hin Hid%String.eqb_eq]%find_some. split; [by apply list_elem_of_In|done]. Qed.

Section Sweep.
Context {Sys : Type} `{System Sys} `{UnicodeTables}.
Variable registry : list ModuleRegistryEntry.
Variable factories : gset string.
Variable o : ranging.
Variable now : Z.
Implicit Types w : World Sys.

Notation reconcile := (reconcileModuleMonolith registry factories o now).

Definition judge (b : Bus) (d : DesiredServiceKV) : verdict :=
  match getRegistryEntry registry (dsModuleID d) with
  | None => VUnknown
  | Some e =>
      if negb (bool_decide (dsModuleID d ∈ factories)) then VNotCompiled e
      else match (if dsRunning d then unconfigured b e else []) with
      | [] => VOk e
      | missing => VNeedsConfig e missing
      end
  end.

(** Whether the module runs afterwards, and the status it has. *)
Definition runs_after (v : verdict) (d : DesiredServiceKV) (before : bool) : bool :=
  match v with VOk _ => dsRunning d | _ => before end.

Definition status_after (v : verdict) (d : DesiredServiceKV) (before : option ServiceStatusKV) : option ServiceStatusKV :=
  match v with
  | VUnknown => before
  | VNotCompiled e => Some (status_of e (mkOpts [] "" "not-found" "error"
      ("Module " +:+ quote (dsModuleID d) +:+ " not compiled into this binary")) now)
  | VNeedsConfig e missing => Some (status_of e (embedded_opts "inactive" "needs_config"
      ("Missing required config: " +:+ fmt_strings missing)) now)
  | VOk e => Some (status_of e (embedded_opts (if dsRunning d then "active" else "inactive") "ok" "") now)
  end.

(** dpkg has the packages an entry asks for, and the libraries pass their tests. *)
Definition deps_present (e : ModuleRegistryEntry) (h : Host Sys) : Prop :=
  Forall (λ pkg, runCmd "dpkg-query" ["-W"; "-f=${Status}"; pkg] h = ("install ok installed", true, h)) (apt_deps e)
  ∧ Forall (λ dep, bdTestCmd dep ≠ "" ∧ ∃ out, runCmd "bash" ["-c"; bdTestCmd dep] h = (out, true, h)) (BuildDeps e).

Lemma missing_packages_present l h :
  Forall (λ pkg, runCmd "dpkg-query" ["-W"; "-f=${Status}"; pkg] h = ("install ok installed", true, h)) l →
  missing_packages l h = ([], h).
Proof. induction 1 as [|pkg l Hp _ IH]; [done|]. cbn. by rewrite Hp, IH. Qed.

(** Nothing is installed that is there already. *)
Lemma ensureDeps_present e h : deps_present e h → ensureDeps e h = (true, h).
Proof.
  intros [Hp Hb]. unfold ensureDeps. case_if; [done|].
  assert (Hd : ensureBuildDeps (BuildDeps e) h = (true, h)).
  { clear Hp E. induction Hb as [|dep l [Ht [out Hr]] _ IH]; [done|]. cbn. unfold ensureBuildDep.
    rewrite (proj2 (String.eqb_neq _ _) Ht), Hr. exact IH. }
  case_if; [done|]. unfold installAptDeps. by rewrite missing_packages_present.
Qed.

Definition ready (d : DesiredServiceKV) w : Prop :=
  ∀ e, getRegistryEntry registry (dsModuleID d) = Some e → dsRunning d = true → deps_present e (host w).

Lemma precheck_judge d w : named_fields registry → ready d w →
  precheck registry factories o now d w =
    match judge (wBus w) d with
    | VUnknown => (None, w)
    | VNotCompiled e => (None, report now e (mkOpts [] "" "not-found" "error"
        ("Module " +:+ quote (dsModuleID d) +:+ " not compiled into this binary")) w)
    | VNeedsConfig e missing => (None, report now e (embedded_opts "inactive" "needs_config"
        ("Missing required config: " +:+ fmt_strings missing)) w)
    | VOk e => (Some e, w)
    end.
Proof.
  intros Hfields Hr. unfold precheck, judge. destruct (getRegistryEntry registry (dsModuleID d)) as [e|] eqn:Ee; [|done].
  destruct (negb (bool_decide (dsModuleID d ∈ factories))); [done|].
  pose proof (getRegistryEntry_Some _ _ _ Ee) as [Hin _].
  assert (Hm : (if negb (bool_decide (RequiredConfig e = [])) && dsRunning d
    then missing_config e (getModuleConfig o (wBus w) (ModuleID e)) else [])
    = if dsRunning d then unconfigured (wBus w) e else []).
  { destruct (dsRunning d); rewrite ?andb_true_r, ?andb_false_r; [|done]. case_bool_decide as Er; cbn.
    - unfold unconfigured. by rewrite Er.
    - apply missing_unconfigured. by apply (proj1 (Forall_forall _ _) Hfields). }
  rewrite Hm. clear Hm. destruct (if dsRunning d then unconfigured (wBus w) e else []).
  2: { by rewrite bool_decide_false. }
  rewrite bool_decide_true by done. cbn.
  assert (Hd : (if dsRunning d && negb (bool_decide (AptDeps e = [])) then ensureDeps e (host w) else (true, host w)) = (true, host w)).
  { destruct (dsRunning d) eqn:Er; cbn; [|done].
    destruct (negb _); [|done]. apply ensureDeps_present. by apply Hr. }
  rewrite Hd. by destruct w.
Qed.

(** ** Instances *)

(** Every entry of the map points to an instance of its module that runs. *)
Definition registered w : Prop :=
  ∀ id p, running w !! id = Some p → ∃ b, instances w !! p = Some (mkInstance id b false false).

Definition live_instance w (id : string) (p : nat) : Prop :=
  ∃ i, instances w !! p = Some i ∧ inModule i = id ∧ inExited i = false.

(** The only live instance of a module is the one in the map. *)
Definition clean w (id : string) : Prop := ∀ p, live_instance w id p → running w !! id = Some p.

(** There may be others that were stopped, while the map has no entry. *)
Definition settled w (id : string) : Prop :=
  ∀ p i, instances w !! p = Some i → inModule i = id → inExited i = false →
    running w !! id = Some p ∨ inStopped i = true ∧ running w !! id = None.

Definition quiet w : Prop := registered w ∧ ∀ id, clean w id.

Lemma clean_settled w id : clean w id → settled w id.
Proof. intros Hc p i Hi Hm He. left. apply Hc. by exists i. Qed.

(** A change at one module leaves the others as they are. *)
Definition local_change (id : string) w w' : Prop :=
  registered w' ∧ settled w' id
  ∧ (∀ id', id' ≠ id → running w' !! id' = running w !! id')
  ∧ (∀ p i, inModule i ≠ id → instances w' !! p = Some i ↔ instances w !! p = Some i).

Lemma local_clean id w w' id' : local_change id w w' → id' ≠ id → clean w id' → clean w' id'.
Proof.
  intros (_ & _ & Hr & Hi) Hne Hc p (i & Hp & Hm & He). rewrite Hr by done. apply Hc. exists i.
  split; [|done]. apply Hi; [by rewrite Hm|done].
Qed.

Lemma local_settled id w w' id' : local_change id w w' → id' ≠ id → settled w id' → settled w' id'.
Proof.
  intros (_ & _ & Hr & Hi) Hne Hc p i Hp Hm He. rewrite Hr by done. apply Hc; [|done|done].
  apply Hi; [by rewrite Hm|done].
Qed.

Lemma start_local b id w : registered w → clean w id → running w !! id = None →
  local_change id w (start_module b id w).
Proof.
  intros Hreg Hc Hn. split_and!; cbn.
  - intros id' p. cbn. destruct (decide (id' = id)) as [->|Hne].
    + rewrite lookup_insert_eq. intros [= <-]. exists b. by apply list_lookup_middle.
    + rewrite lookup_insert_ne by done. intros [b' Hp]%Hreg. exists b'. by apply lookup_app_l_Some.
  - intros p i Hp Hm He. cbn in *. apply lookup_app_Some in Hp as [Hp|[Hl Hp]].
    + exfalso. assert (Hx : running w !! id = Some p) by (apply Hc; by exists i). by rewrite Hn in Hx.
    + apply list_lookup_singleton_Some in Hp as [Hp <-]. left. rewrite lookup_insert_eq. f_equal. lia.
  - intros id' Hne. by rewrite lookup_insert_ne.
  - intros p i Hm. rewrite lookup_app_Some. split; [|by left].
    intros [Hp|[_ Hp]]; [done|]. by apply list_lookup_singleton_Some in Hp as [_ <-].
Qed.

Lemma stop_local id p w : registered w → clean w id → running w !! id = Some p →
  local_change id w (stop_instance p (with_running w (delete id (running w)))).
Proof.
  intros Hreg Hc Hr. destruct (Hreg _ _ Hr) as [b Hb].
  assert (Hlk : ∀ q i, q ≠ p → alter with_stopped p (instances w) !! q = Some i ↔ instances w !! q = Some i).
  { intros q i Hq. rewrite list_lookup_alter_ne by auto. reflexivity. }
  assert (Hlp : alter with_stopped p (instances w) !! p = Some (mkInstance id b true false)).
  { by rewrite list_lookup_alter_eq, Hb. }
  split_and!; cbn.
  - intros id' q. cbn. rewrite lookup_delete_Some. intros [Hne Hq]. destruct (Hreg _ _ Hq) as [b' Hb'].
    exists b'. apply Hlk; [|done]. intros ->. by simplify_eq.
  - intros q i Hq Hm He. cbn -[alter] in *. right. rewrite lookup_delete_eq. split; [|done].
    destruct (decide (q = p)) as [->|Hne]; [by rewrite Hlp in Hq; injection Hq as <-|].
    apply Hlk in Hq; [|done]. assert (Hx : running w !! id = Some q) by (apply Hc; by exists i). by simplify_eq.
  - intros id' Hne. by rewrite lookup_delete_ne.
  - intros q i Hm. destruct (decide (q = p)) as [->|Hne]; [|by apply Hlk].
    rewrite Hlp, Hb. split; by intros [= <-].
Qed.

Lemma same_local id w w' : registered w → clean w id → running w' = running w → instances w' = instances w →
  local_change id w w'.
Proof.
  intros Hreg Hc Er Ei. unfold local_change, registered, settled. rewrite Er, Ei.
  split_and!; [done|by apply clean_settled|done|done].
Qed.

(** What one reconciliation does. *)
Record reconciled (d : DesiredServiceKV) w w' : Prop := {
  rc_local : local_change (dsModuleID d) w w';
  rc_host : host w' = host w;
  rc_desired : bDesired (wBus w') = bDesired (wBus w);
  rc_config : bConfig (wBus w') = bConfig (wBus w);
  rc_runs : isRunning (dsModuleID d) w' = runs_after (judge (wBus w) d) d (isRunning (dsModuleID d) w);
  rc_status : bStatus (wBus w') !! dsModuleID d = status_after (judge (wBus w) d) d (bStatus (wBus w) !! dsModuleID d);
  rc_others : ∀ id, id ≠ dsModuleID d → bStatus (wBus w') !! id = bStatus (wBus w) !! id;
  rc_same : runs_after (judge (wBus w) d) d (isRunning (dsModuleID d) w) = isRunning (dsModuleID d) w →
    running w' = running w ∧ instances w' = instances w;
}.

Lemma isRunning_true id w p : running w !! id = Some p → isRunning id w = true.
Proof. intros E. apply bool_decide_eq_true. rewrite E. by eexists. Qed.

Lemma isRunning_false id w : isRunning id w = false ↔ running w !! id = None.
Proof. unfold isRunning. rewrite bool_decide_eq_false. by rewrite <- eq_None_not_Some. Qed.

(** A status report on top of a change of the modules. *)
Lemma report_reconciled d e opts w w1 : ModuleID e = dsModuleID d →
  local_change (dsModuleID d) w w1 → host w1 = host w → wBus w1 = wBus w →
  status_after (judge (wBus w) d) d (bStatus (wBus w) !! dsModuleID d) = Some (status_of e opts now) →
  isRunning (dsModuleID d) w1 = runs_after (judge (wBus w) d) d (isRunning (dsModuleID d) w) →
  (isRunning (dsModuleID d) w1 = isRunning (dsModuleID d) w → running w1 = running w ∧ instances w1 = instances w) →
  reconciled d w (report now e opts w1).
Proof.
  intros Hid Hl Hh Hb Hs Hr Hsame. split; cbn; rewrite ?Hb; try done.
  - by rewrite Hid, lookup_insert_eq.
  - intros id Hne. by rewrite Hid, lookup_insert_ne.
  - intros E. apply Hsame. by rewrite Hr.
Qed.

Lemma judge_entry b d e : judge b d = VOk e ∨ judge b d = VNotCompiled e ∨ (∃ m, judge b d = VNeedsConfig e m) →
  ModuleID e = dsModuleID d.
Proof.
  unfold judge. destruct (getRegistryEntry registry (dsModuleID d)) as [e'|] eqn:E; [|naive_solver].
  apply getRegistryEntry_Some in E as [_ <-].
  destruct (negb _); [naive_solver|]. destruct (if dsRunning d then _ else _); naive_solver.
Qed.

Lemma reconcile_spec d w : named_fields registry → ready d w → registered w → clean w (dsModuleID d) →
  reconciled d w (fst (reconcile d w)) ∧ snd (reconcile d w) = false.
Proof.
  intros Hf Hr Hreg Hc. unfold reconcile. rewrite precheck_judge by done.
  pose proof (same_local (dsModuleID d) w w Hreg Hc eq_refl eq_refl) as Hsame.
  destruct (judge (wBus w) d) as [|e|e missing|e] eqn:Ej; cbn.
  - split; [|done]. by split; rewrite ?Ej.
  - split; [|done]. apply report_reconciled; rewrite ?Ej; try done. eapply judge_entry. eauto.
  - split; [|done]. apply report_reconciled; rewrite ?Ej; try done. eapply judge_entry. eauto.
  - assert (Hid : ModuleID e = dsModuleID d) by (eapply judge_entry; eauto).
    unfold act. destruct (dsRunning d) eqn:Ed, (isRunning (dsModuleID d) w) eqn:Ei; cbn.
    + split; [|done]. apply report_reconciled; rewrite ?Ej; cbn; rewrite ?Ed; done.
    + split; [|done]. apply isRunning_false in Ei as En.
      apply report_reconciled; rewrite ?Ej; cbn; rewrite ?Ed; try done.
      * by apply start_local.
      * eapply isRunning_true. cbn. apply lookup_insert_eq.
      * rewrite Ei. unfold isRunning. cbn. rewrite bool_decide_true; [done|]. rewrite lookup_insert_eq. by eexists.
    + destruct (running w !! dsModuleID d) as [p|] eqn:Ep; [|by apply isRunning_false in Ep; rewrite Ep in Ei].
      cbn. split; [|done]. apply report_reconciled; rewrite ?Ej; cbn; rewrite ?Ed; try done.
      * by apply stop_local.
      * apply isRunning_false. cbn. apply lookup_delete_eq.
      * rewrite Ei. unfold isRunning. cbn. rewrite bool_decide_false; [done|]. rewrite lookup_delete_eq. by intros [? ?].
    + split; [|done]. apply report_reconciled; rewrite ?Ej; cbn; rewrite ?Ed; done.
Qed.

(** ** A sweep *)

Lemma judge_config b b' d : bConfig b' = bConfig b → judge b' d = judge b d.
Proof. intros E. unfold judge, unconfigured. by rewrite E. Qed.

Definition agrees w (d : DesiredServiceKV) : Prop :=
  runs_after (judge (wBus w) d) d (isRunning (dsModuleID d) w) = isRunning (dsModuleID d) w.

Record swept (l : list DesiredServiceKV) w w' : Prop := {
  sw_registered : registered w';
  sw_settled : ∀ id, settled w' id;
  sw_host : host w' = host w;
  sw_desired : bDesired (wBus w') = bDesired (wBus w);
  sw_config : bConfig (wBus w') = bConfig (wBus w);
  sw_runs : ∀ d, d ∈ l → isRunning (dsModuleID d) w' = runs_after (judge (wBus w) d) d (isRunning (dsModuleID d) w);
  sw_status : ∀ d, d ∈ l →
    bStatus (wBus w') !! dsModuleID d = status_after (judge (wBus w) d) d (bStatus (wBus w) !! dsModuleID d);
  sw_others : ∀ id, id ∉ dsModuleID <$> l →
    running w' !! id = running w !! id ∧ bStatus (wBus w') !! id = bStatus (wBus w) !! id;
  sw_same : Forall (agrees w) l → running w' = running w ∧ instances w' = instances w;
}.

Lemma isRunning_eq id w w' : running w' !! id = running w !! id → isRunning id w' = isRunning id w.
Proof. unfold isRunning. by intros ->. Qed.

Lemma reconcile_all_spec l w : named_fields registry → NoDup (dsModuleID <$> l) → Forall (λ d, ready d w ∧ clean w (dsModuleID d)) l →
  registered w → (∀ id, settled w id) → swept l w (reconcile_all registry factories o now l w).
Proof.
  intros Hf. revert w. induction l as [|d l IH]; intros w Hnd Hl Hreg Hset.
  { split; try done; by intros ? ?%elem_of_nil. }
  apply NoDup_cons in Hnd as [Hd Hnd]. apply Forall_cons in Hl as [[Hr Hc] Hl].
  destruct (reconcile_spec d w Hf Hr Hreg Hc) as [Hrec _].
  change (swept (d :: l) w (reconcile_all registry factories o now l (fst (reconcile d w)))).
  set (w1 := fst (reconcile d w)) in *. pose proof (rc_local _ _ _ Hrec) as Hloc.
  assert (Hne : ∀ d', d' ∈ l → dsModuleID d' ≠ dsModuleID d).
  { intros d' Hd' E. apply Hd. rewrite <- E. by apply list_elem_of_fmap_2. }
  destruct (IH w1) as [A1 A2 A3 A4 A5 A6 A7 A8 A9]; clear IH.
  - done.
  - apply Forall_forall. intros d' Hd'. destruct (proj1 (Forall_forall _ _) Hl d' Hd') as [Hr' Hc'].
    split; [|by eapply local_clean; eauto].
    intros e He Hrun. rewrite (rc_host _ _ _ Hrec). by apply Hr'.
  - apply Hloc.
  - intros id. destruct (decide (id = dsModuleID d)) as [->|]; [apply Hloc|by eapply local_settled; eauto].
  - assert (Hj : ∀ d', judge (wBus w1) d' = judge (wBus w) d') by (intros; apply judge_config, Hrec).
    assert (Hrun1 : ∀ id, id ≠ dsModuleID d → running w1 !! id = running w !! id) by apply Hloc.
    split; [done|done|by rewrite A3, (rc_host _ _ _ Hrec)|by rewrite A4, (rc_desired _ _ _ Hrec)
      |by rewrite A5, (rc_config _ _ _ Hrec)|..].
    + intros d' [->|Hd']%elem_of_cons.
      * rewrite (isRunning_eq _ w1) by (by apply A8). apply Hrec.
      * rewrite A6, Hj by done. f_equal. by apply isRunning_eq, Hrun1, Hne.
    + intros d' [->|Hd']%elem_of_cons.
      * rewrite (proj2 (A8 _ Hd)). apply Hrec.
      * rewrite A7, Hj by done. f_equal. by apply Hrec, Hne.
    + intros id [Hid Hid']%not_elem_of_cons. destruct (A8 id Hid') as [-> ->].
      split; [by apply Hrun1|by apply Hrec].
    + intros [Hd1 Hl1]%Forall_cons. destruct (rc_same _ _ _ Hrec Hd1) as [E1 E2].
      destruct A9 as [-> ->]; [|done].
      apply Forall_impl with (P := agrees w); [done|]. intros d' Ha. unfold agrees, isRunning in *. by rewrite Hj, E1.
Qed.

Definition wanted (l : list DesiredServiceKV) (id : string) : bool := existsb (λ d, String.eqb (dsModuleID d) id) l.

Lemma wanted_spec l id : wanted l id = true ↔ id ∈ dsModuleID <$> l.
Proof.
  unfold wanted. rewrite existsb_exists, list_elem_of_fmap. split.
  - intros (d & Hd & E%String.eqb_eq). exists d. split; [done|]. by apply list_elem_of_In.
  - intros (d & -> & Hd). exists d. split; [by apply list_elem_of_In|apply String.eqb_refl].
Qed.

Lemma clean_fold l keys w :
  let w' := fold_left (λ w key, if wanted l key then w else delete_status key w) keys w in
  running w' = running w ∧ instances w' = instances w ∧ host w' = host w
  ∧ bDesired (wBus w') = bDesired (wBus w) ∧ bConfig (wBus w') = bConfig (wBus w)
  ∧ ∀ id, bStatus (wBus w') !! id = if bool_decide (id ∈ keys) && negb (wanted l id) then None else bStatus (wBus w) !! id.
Proof.
  revert w. induction keys as [|key keys IH]; intros w; cbn.
  { repeat (split; [done|]). intros id. by rewrite bool_decide_false by (by intros ?%elem_of_nil). }
  specialize (IH (if wanted l key then w else delete_status key w)). cbn in IH.
  destruct IH as (A1 & A2 & A3 & A4 & A5 & A6). rewrite A1, A2, A3, A4, A5.
  split_and!; try by destruct (wanted l key).
  intros id. rewrite A6. destruct (decide (id = key)) as [->|Hne].
  - rewrite (bool_decide_true (key ∈ key :: keys)) by set_solver. cbn.
    destruct (wanted l key); [by rewrite andb_false_r|]. cbn. rewrite lookup_delete_eq. by destruct (bool_decide _ && _).
  - rewrite (bool_decide_ext (id ∈ key :: keys) (id ∈ keys)) by set_solver.
    case_if; [done|]. destruct (wanted l key); [done|]. cbn. by rewrite lookup_delete_ne.
Qed.

Lemma clean_statuses_spec l w : let w' := clean_statuses o l w in
  running w' = running w ∧ instances w' = instances w ∧ host w' = host w
  ∧ bDesired (wBus w') = bDesired (wBus w) ∧ bConfig (wBus w') = bConfig (wBus w)
  ∧ ∀ id, bStatus (wBus w') !! id = if wanted l id then bStatus (wBus w) !! id else None.
Proof.
  destruct (clean_fold l (o _ (bStatus (wBus w))).*1 w) as (A1 & A2 & A3 & A4 & A5 & A6).
  split_and!; try done. intros id. etrans; [apply A6|].
  destruct (wanted l id); [by rewrite andb_false_r|]. rewrite andb_true_r. case_bool_decide as Hk; [done|].
  destruct (bStatus (wBus w) !! id) as [st|] eqn:E; [|done].
  destruct Hk. apply list_elem_of_fmap. exists (id, st). split; [done|]. by apply range_lookup.
Qed.

(** The keys of the bucket are the modules' names. *)
Definition keyed (b : Bus) : Prop := ∀ k d, bDesired b !! k = Some (Some d) → dsModuleID d = k.

Lemma desired_elem b d : keyed b → d ∈ getAllDesiredServices o b ↔ bDesired b !! dsModuleID d = Some (Some d).
Proof.
  intros Hk. unfold getAllDesiredServices. rewrite list_elem_of_omap. split.
  - intros ([k v] & Hin & Hv). cbn in Hv. subst v. apply range_lookup in Hin. by rewrite (Hk _ _ Hin).
  - intros Hd. exists (dsModuleID d, Some d). split; [by apply range_lookup|done].
Qed.

Lemma desired_NoDup b : keyed b → NoDup (dsModuleID <$> getAllDesiredServices o b).
Proof.
  intros Hk. unfold getAllDesiredServices. pose proof (range_NoDup o (bDesired b)) as Hnd.
  assert (Hl : ∀ k d, (k, Some d) ∈ o _ (bDesired b) → dsModuleID d = k) by (intros k d ?%range_lookup; by apply Hk).
  eapply sublist_NoDup; [exact Hnd|]. clear Hnd.
  induction (o _ (bDesired b)) as [|[k [d|]] l IH]; cbn; [constructor|..].
  - rewrite (Hl k d) by set_solver. apply sublist_skip, IH. set_solver.
  - apply sublist_cons, IH. set_solver.
Qed.

(** The modules that were stopped come to their ends, in any order. *)
Definition drain_one w (p : nat) : World Sys :=
  match instances w !! p with
  | Some i => if inStopped i then match exit_instance false p w with Ok w' => w' | _ => w end else w
  | None => w
  end.

Definition drain (ps : list nat) w : World Sys := fold_left drain_one ps w.

Lemma drain_one_spec w p : registered w → (∀ id, settled w id) → let w' := drain_one w p in
  running w' = running w ∧ wBus w' = wBus w ∧ host w' = host w
  ∧ ∀ q, instances w' !! q = (λ i, if inStopped i && bool_decide (q = p) then with_exited i else i) <$> instances w !! q.
Proof.
  intros Hreg Hset. unfold drain_one, exit_instance.
  assert (Hsame : (∀ i, instances w !! p = Some i → inStopped i = true → inExited i = true) →
    ∀ q, instances w !! q = (λ i, if inStopped i && bool_decide (q = p) then with_exited i else i) <$> instances w !! q).
  { intros Hx q. destruct (instances w !! q) as [i|] eqn:E; [|done]. cbn.
    destruct (inStopped i) eqn:Es; [|done]. case_bool_decide as Hq; [|done]. subst q. cbn.
    specialize (Hx i E Es). destruct i; cbn in *. by subst. }
  destruct (instances w !! p) as [i|] eqn:Ep.
  2: { repeat (split; [done|]). by apply Hsame. }
  destruct (inStopped i) eqn:Es.
  2: { repeat (split; [done|]). apply Hsame. intros ? [= <-]. rewrite Es. done. }
  destruct (inExited i) eqn:Ee.
  { repeat (split; [done|]). apply Hsame. by intros ? [= <-]. }
  cbn. destruct (Hset (inModule i) p i Ep eq_refl Ee) as [Hrun|[_ Hrun]].
  { destruct (Hreg _ _ Hrun) as [b Hb]. rewrite Ep in Hb. injection Hb as Hb. apply (f_equal inStopped) in Hb. cbn in Hb. congruence. }
  split; [by apply delete_id|]. split; [done|]. split; [done|].
  intros q. destruct (decide (q = p)) as [->|Hne].
  - rewrite list_lookup_alter_eq, Ep. cbn. by rewrite Es, bool_decide_true.
  - rewrite list_lookup_alter_ne by done. destruct (instances w !! q) as [j|]; [|done]. cbn.
    rewrite bool_decide_false by done. by rewrite andb_false_r.
Qed.

Lemma drain_one_inv w p : registered w → (∀ id, settled w id) →
  registered (drain_one w p) ∧ ∀ id, settled (drain_one w p) id.
Proof.
  intros Hreg Hset. destruct (drain_one_spec w p Hreg Hset) as (Er & _ & _ & Hi). split.
  - intros id q. rewrite Er, Hi. intros [b Hb]%Hreg. exists b. by rewrite Hb.
  - intros id q i. rewrite Er, Hi. intros (j & Hj & E)%fmap_Some Hm He.
    destruct (inStopped j && bool_decide (q = p)) eqn:E1; [by rewrite E in He|]. rewrite E in *. eapply Hset; eauto.
Qed.

Lemma drain_spec ps w : registered w → (∀ id, settled w id) → let w' := drain ps w in
  running w' = running w ∧ wBus w' = wBus w ∧ host w' = host w
  ∧ ∀ q, instances w' !! q = (λ i, if inStopped i && bool_decide (q ∈ ps) then with_exited i else i) <$> instances w !! q.
Proof.
  revert w. induction ps as [|p ps IH]; intros w Hreg Hset; cbn.
  { repeat (split; [done|]). intros q. destruct (instances w !! q) as [i|]; [|done]. cbn.
    rewrite bool_decide_false by set_solver. by rewrite andb_false_r. }
  destruct (drain_one_spec w p Hreg Hset) as (E1 & E2 & E3 & E4). destruct (drain_one_inv w p Hreg Hset) as [Hreg' Hset'].
  destruct (IH _ Hreg' Hset') as (A1 & A2 & A3 & A4). unfold drain in *. cbn in *.
  split; [congruence|]. split; [congruence|]. split; [congruence|].
  intros q. rewrite A4, E4. destruct (instances w !! q) as [i|]; [|done]. cbn. f_equal.
  destruct (inStopped i) eqn:Es; cbn.
  - destruct (decide (q = p)) as [->|Hne].
    + rewrite (bool_decide_true (p = p)), (bool_decide_true (p ∈ p :: ps)) by set_solver. cbn. rewrite Es. cbn. by case_if.
    + rewrite (bool_decide_false (q = p)) by done. cbn. rewrite Es. cbn.
      by rewrite (bool_decide_ext (q ∈ p :: ps) (q ∈ ps)) by set_solver.
  - by rewrite Es.
Qed.

Lemma drain_quiet ps w : registered w → (∀ id, settled w id) →
  (∀ p i, instances w !! p = Some i → inStopped i = true → inExited i = false → p ∈ ps) → quiet (drain ps w).
Proof.
  intros Hreg Hset Hps. destruct (drain_spec ps w Hreg Hset) as (Er & _ & _ & Hi). split.
  - intros id q. rewrite Er, Hi. intros [b Hb]%Hreg. exists b. by rewrite Hb.
  - intros id q (i & Hq & Hm & He). rewrite Hi in Hq. apply fmap_Some in Hq as (j & Hj & E).
    destruct (inStopped j && bool_decide (q ∈ ps)) eqn:E1; [by rewrite E in He|]. subst i. rewrite Er.
    destruct (Hset id q j Hj Hm He) as [?|[Hs _]]; [done|].
    rewrite Hs, bool_decide_true in E1; [done|]. by eapply Hps.
Qed.

Lemma quiet_settled w : quiet w → registered w ∧ ∀ id, settled w id.
Proof. intros [Hr Hc]. split; [done|]. intros id. by apply clean_settled. Qed.

Definition desired_ready w : Prop := ∀ id d, bDesired (wBus w) !! id = Some (Some d) → ready d w.

Lemma sweep_swept w : named_fields registry → quiet w → keyed (wBus w) → desired_ready w →
  swept (getAllDesiredServices o (wBus w)) w
    (reconcile_all registry factories o now (getAllDesiredServices o (wBus w)) w).
Proof.
  intros Hf Hq Hk Hr. destruct (quiet_settled w Hq) as [Hreg Hset].
  apply reconcile_all_spec; [done|by apply desired_NoDup| |done|done].
  apply Forall_forall. intros d Hd%desired_elem; [|done]. split; [by eapply Hr|by apply Hq].
Qed.

(** What the bucket of desired services says of a module. *)
Definition desire (b : Bus) (id : string) : option DesiredServiceKV := mjoin (bDesired b !! id).

Lemma desire_Some b id d : keyed b → desire b id = Some d →
  id = dsModuleID d ∧ d ∈ getAllDesiredServices o b.
Proof.
  unfold desire. intros Hk Hd. destruct (bDesired b !! id) as [v|] eqn:E; [|done]. cbn in Hd. subst v.
  pose proof (Hk _ _ E) as <-. split; [done|]. by apply desired_elem.
Qed.

Lemma desire_None b id : keyed b → desire b id = None → id ∉ dsModuleID <$> getAllDesiredServices o b.
Proof.
  unfold desire. intros Hk Hd (d & -> & Hin)%list_elem_of_fmap. apply desired_elem in Hin; [|done]. by rewrite Hin in Hd.
Qed.

Notation sweep := (fullSweep registry factories o now).

Lemma sweep_facts w : named_fields registry → quiet w → keyed (wBus w) → desired_ready w →
  registered (sweep w) ∧ (∀ id, settled (sweep w) id) ∧ host (sweep w) = host w
  ∧ bDesired (wBus (sweep w)) = bDesired (wBus w) ∧ bConfig (wBus (sweep w)) = bConfig (wBus w)
  ∧ (∀ id, isRunning id (sweep w) = match desire (wBus w) id with
      | Some d => runs_after (judge (wBus w) d) d (isRunning id w) | None => isRunning id w end)
  ∧ (∀ id, bStatus (wBus (sweep w)) !! id = match desire (wBus w) id with
      | Some d => status_after (judge (wBus w) d) d (bStatus (wBus w) !! id) | None => None end)
  ∧ (Forall (agrees w) (getAllDesiredServices o (wBus w)) → running (sweep w) = running w ∧ instances (sweep w) = instances w).
Proof.
  intros Hf Hq Hk Hr. destruct (sweep_swept w Hf Hq Hk Hr) as [A1 A2 A3 A4 A5 A6 A7 A8 A9]. unfold fullSweep.
  set (l := getAllDesiredServices o (wBus w)) in *. set (w1 := reconcile_all registry factories o now l w) in *.
  destruct (clean_statuses_spec l w1) as (B1 & B2 & B3 & B4 & B5 & B6).
  unfold registered, settled, isRunning in *. rewrite B1, B2, B3, B4, B5. split_and!; try done.
  - intros id. destruct (desire (wBus w) id) as [d|] eqn:Ed.
    + apply desire_Some in Ed as [-> Hd]; [|done]. by apply A6.
    + apply desire_None in Ed; [|done]. by destruct (A8 id Ed) as [-> _].
  - intros id. rewrite B6. destruct (desire (wBus w) id) as [d|] eqn:Ed.
    + apply desire_Some in Ed as [-> Hd]; [|done]. rewrite (proj2 (wanted_spec _ _)); [by apply A7|].
      by apply list_elem_of_fmap_2.
    + apply desire_None in Ed; [|done]. destruct (wanted l id) eqn:E; [|done]. by apply wanted_spec in E.
Qed.

(** C10: A sweep makes the process what the bucket of desired services asks for. The entries of
    the bucket have their module's name as key, the registry's settings have names, the packages
    and build tools that the modules to run depend on are there, and every running module is in
    the map. Then, once the stopped modules have ended (in any order): a desired module that is
    known, compiled in and configured runs exactly if it is desired to run, whatever it did
    before, and its status says so; one that is not compiled in or lacks required configuration
    keeps running or not as before and gets the error as its status; a module that is no longer
    desired is left as it is (a sweep never stops it) while its status is deleted; and again
    every running module is in the map, once. Dependencies that have to be installed are not
    covered: when that fails the module gets an error and does not run. *)
Theorem sweep_converges w ps : named_fields registry → quiet w → keyed (wBus w) → desired_ready w →
  (∀ p i, instances (sweep w) !! p = Some i → inStopped i = true → inExited i = false → p ∈ ps) →
  quiet (drain ps (sweep w)) ∧ ∀ id,
    isRunning id (drain ps (sweep w)) = match desire (wBus w) id with
      | Some d => runs_after (judge (wBus w) d) d (isRunning id w)
      | None => isRunning id w
      end
    ∧ bStatus (wBus (drain ps (sweep w))) !! id = match desire (wBus w) id with
      | Some d => status_after (judge (wBus w) d) d (bStatus (wBus w) !! id)
      | None => None
      end.
Proof.
  intros Hf Hq Hk Hr Hps. destruct (sweep_facts w Hf Hq Hk Hr) as (A1 & A2 & _ & _ & _ & A6 & A7 & _).
  split; [by apply drain_quiet|]. intros id. destruct (drain_spec ps _ A1 A2) as (E1 & E2 & _).
  rewrite E2, A7. split; [|done]. rewrite <- A6. apply isRunning_eq. by rewrite E1.
Qed.

Lemma runs_after_idem v d b : runs_after v d (runs_after v d b) = runs_after v d b.
Proof. by destruct v. Qed.

End Sweep.

Section Stable.
Context {Sys : Type} `{System Sys} `{UnicodeTables}.
Variables (registry : list ModuleRegistryEntry) (factories : gset string) (o : ranging) (now now' : Z).
Implicit Types w : World Sys.

Lemma drained_agrees ps w : named_fields registry → quiet w → keyed (wBus w) → desired_ready registry w →
  let w1 := drain ps (fullSweep registry factories o now w) in
  bDesired (wBus w1) = bDesired (wBus w) ∧ host w1 = host w
  ∧ Forall (agrees registry factories w1) (getAllDesiredServices o (wBus w1)).
Proof.
  intros Hf Hq Hk Hr. destruct (sweep_facts registry factories o now w Hf Hq Hk Hr) as (A1 & A2 & A3 & A4 & A5 & A6 & _).
  destruct (drain_spec ps _ A1 A2) as (E1 & E2 & E3 & _). cbn.
  split; [by rewrite E2|]. split; [by rewrite E3|]. rewrite E2.
  apply Forall_forall. intros d Hd. unfold agrees. rewrite E2, (judge_config _ _ _ _ _ A5).
  rewrite (isRunning_eq _ (fullSweep registry factories o now w)) by (by rewrite E1).
  apply desired_elem in Hd; [|unfold keyed; rewrite A4; done]. rewrite A4 in Hd.
  rewrite A6. unfold desire. rewrite Hd. cbn. apply runs_after_idem.
Qed.

(** A second sweep, at any later time, starts and stops nothing. *)
Theorem sweep_is_stable w ps : named_fields registry → quiet w → keyed (wBus w) → desired_ready registry w →
  (∀ p i, instances (fullSweep registry factories o now w) !! p = Some i → inStopped i = true → inExited i = false → p ∈ ps) →
  let w1 := drain ps (fullSweep registry factories o now w) in
  let w2 := fullSweep registry factories o now' w1 in
  running w2 = running w1 ∧ instances w2 = instances w1.
Proof.
  intros Hf Hq Hk Hr Hps w1 w2. destruct (drained_agrees ps w Hf Hq Hk Hr) as (Ed & Eh & Ha).
  fold w1 in Ed, Eh, Ha. assert (Hq1 : quiet w1).
  { destruct (sweep_facts registry factories o now w Hf Hq Hk Hr) as (A1 & A2 & _). by apply drain_quiet. }
  assert (Hk1 : keyed (wBus w1)) by (unfold keyed; by rewrite Ed).
  assert (Hr1 : desired_ready registry w1).
  { intros id d Hd e He Hrun. rewrite Eh. rewrite Ed in Hd. by eapply Hr. }
  by apply (sweep_facts registry factories o now' w1 Hf Hq1 Hk1 Hr1).
Qed.

End Stable.

(** ** Examples *)

(** A host on which dpkg knows every package. *)
Definition well_installed : System unit := {|
  exec := λ _ _ name _ h, (if String.eqb name "dpkg-query" then "install ok installed" else "", "", true, h);
  spawn := λ _ _ h, (true, h);
  http := λ _ _ r, (None, r);
|}.

Definition empty_host : Host unit := mkHost ∅ tt.

Definition desired (id : string) (running : bool) : DesiredServiceKV := mkDesired id "latest" running 0.

(** The gateway runs and is to stop, the scanner is to start, the bridge has no broker. *)
Definition example_bus : Bus := {|
  bDesired := <["gateway" := Some (desired "gateway" false)]> (<["snmp" := Some (desired "snmp" true)]>
    (<["mqtt" := Some (desired "mqtt" true)]> (<["gitops" := Some (desired "gitops" true)]> ∅)));
  bStatus := <["network" := status_of (embedded false "network" "" [] []) (embedded_opts "active" "ok" "") 0]> ∅;
  bConfig := <["gitops.GITOPS_REPO_URL" := "git@example.com:site.git"]> ∅;
|}.

Definition example_world : World unit :=
  mkWorld (<["gateway" := 0%nat]> (<["network" := 1%nat]> ∅))
    [mkInstance "gateway" ByReconciler false false; mkInstance "network" ByReconciler false false] example_bus empty_host.

Definition all_factories : gset string := list_to_set (ModuleID <$> moduleRegistry true).

#[local] Existing Instances well_installed ascii_tables.

Lemma registry_fields all : named_fields (moduleRegistry all).
Proof. apply (bool_decide_unpack _). by destruct all; vm_compute. Qed.

Lemma registry_builds all : Forall (λ e, BuildDeps e = []) (moduleRegistry all).
Proof. by destruct all; repeat constructor. Qed.

Lemma well_installed_ready all d (w : World unit) : ready (moduleRegistry all) d w.
Proof.
  intros e [Hin _]%getRegistryEntry_Some _. split.
  - apply Forall_forall. intros pkg _. reflexivity.
  - by rewrite (proj1 (Forall_forall _ _) (registry_builds all) e Hin).
Qed.

(** [quiet] of a state at hand. *)
Definition quiet_check (w : World unit) : bool :=
  forallb (λ kv, match instances w !! kv.2 with
    | Some i => String.eqb (inModule i) kv.1 && negb (inStopped i) && negb (inExited i) | None => false end) (map_to_list (running w))
  && forallb (λ qi, inExited qi.2 || bool_decide (running w !! inModule qi.2 = Some qi.1)) (imap pair (instances w)).

Lemma quiet_check_sound w : quiet_check w = true → quiet w.
Proof.
  intros [Hr Hi]%andb_prop. rewrite forallb_forall in Hr, Hi. split.
  - intros id p Hp%elem_of_map_to_list%list_elem_of_In. specialize (Hr _ Hp). cbn in Hr.
    destruct (instances w !! p) as [[m b s e]|]; [|done]. cbn in Hr.
    apply andb_prop in Hr as [[->%String.eqb_eq ->%negb_true_iff]%andb_prop ->%negb_true_iff]. by exists b.
  - intros id p (i & Hp & <- & He). specialize (Hi (p, i)). cbn in Hi. rewrite He in Hi. cbn in Hi.
    eapply bool_decide_eq_true, Hi, list_elem_of_In, list_elem_of_lookup. exists p. by rewrite list_lookup_imap, Hp.
Qed.

Definition keyed_check (b : Bus) : bool :=
  forallb (λ kv, match kv.2 with Some d => String.eqb (dsModuleID d) kv.1 | None => true end) (map_to_list (bDesired b)).

Lemma keyed_check_sound b : keyed_check b = true → keyed b.
Proof.
  unfold keyed_check. rewrite forallb_forall. intros Hf k d Hd%elem_of_map_to_list%list_elem_of_In.
  by apply Hf, String.eqb_eq in Hd.
Qed.

(** Every stopped instance among the first [n]. *)
Lemma first_cover {Sys} (w : World Sys) n p i : (length (instances w) ≤ n)%nat → instances w !! p = Some i → p ∈ seq 0 n.
Proof. intros Hn Hp%lookup_lt_Some. apply elem_of_seq. lia. Qed.

Definition swept_example : World unit := drain (seq 0 5) (fullSweep (moduleRegistry true) all_factories map_order 7 example_world).

Lemma sweep_converges_witness : quiet swept_example
  ∧ map (λ id, isRunning id swept_example) ["gateway"; "snmp"; "mqtt"; "gitops"; "network"] = [false; true; false; true; true]
  ∧ map (λ id, ssReconcileState <$> bStatus (wBus swept_example) !! id) ["gateway"; "snmp"; "mqtt"; "gitops"; "network"]
    = [Some "ok"; Some "ok"; Some "needs_config"; Some "ok"; None].
Proof.
  split_and!; [|vm_compute; reflexivity..].
  apply (sweep_converges (moduleRegistry true) all_factories map_order 7 example_world (seq 0 5)).
  - apply registry_fields.
  - apply quiet_check_sound. vm_compute. reflexivity.
  - apply keyed_check_sound. vm_compute. reflexivity.
  - intros id d _. apply well_installed_ready.
  - intros p i Hp _ _. eapply first_cover; [|exact Hp]. vm_compute. lia.
Defined.

Lemma sweep_is_stable_witness :
  instances (fullSweep (moduleRegistry true) all_factories map_order 9 swept_example) = instances swept_example.
Proof.
  apply (sweep_is_stable (moduleRegistry true) all_factories map_order 7 9 example_world (seq 0 5)).
  - apply registry_fields.
  - apply quiet_check_sound. vm_compute. reflexivity.
  - apply keyed_check_sound. vm_compute. reflexivity.
  - intros id d _. apply well_installed_ready.
  - intros p i Hp _ _. eapply first_cover; [|exact Hp]. vm_compute. lia.
Defined.
