(* ===== verification/OrchestratorTasks.v ===== *)
(** The orchestrator's goroutines side by side.

    The periodic sweep, the watch of desired_services, the commands and the goroutines of
    the modules run at the same time, and hold the lock of the map of running modules only
    while they read or change it. [perform] has what a goroutine does between two such
    moments as one step; [step] interleaves the steps of all of them. A reconciliation that
    is not interrupted is [reconcileModuleMonolith]; the theorems say what holds and what
    does not when it is. *)

From S2P Require Export OrchestratorSweep.

#[local] Open Scope Z_scope.

(** Where a goroutine is. [sweep] tells a reconciliation of a sweep, which recovers from a
    panic, from one of the watch, which does not. *)
Inductive task :=
| Check (sweep : bool) (d : DesiredServiceKV)
| Look (sweep : bool) (e : ModuleRegistryEntry) (d : DesiredServiceKV)
| Act (sweep : bool) (e : ModuleRegistryEntry) (d : DesiredServiceKV) (isRunning : bool)
| Halt (sweep : bool) (e : ModuleRegistryEntry) (rm : option nat)
| Report (e : ModuleRegistryEntry) (opts : statusOpts)
| RestartLook (id : string)
| RestartHalt (id : string) (rm : nat)
| RestartStart (id : string)
| Remove (key : string)
| RemoveStatus (key : string).

(** How a goroutine begins. *)
Definition initial (t : task) : bool :=
  match t with Check _ _ | RestartLook _ | Remove _ => true | _ => false end.

Section Tasks.
Context {Sys : Type} `{System Sys} `{UnicodeTables}.
Variable registry : list ModuleRegistryEntry.
Variable factories : gset string.
Variable o : ranging.
Variable now : Z.
Implicit Types w : World Sys.

(** One step of a goroutine, and where it is then. [Panic] is the end of the process. *)
Definition perform (t : task) w : outcome (World Sys * option task) :=
  match t with
  | Check sweep d =>
      let '(entry, w) := precheck registry factories o now d w in
      Ok (w, e ← entry; Some (Look sweep e d))
  | Look sweep e d => Ok (w, Some (Act sweep e d (isRunning (dsModuleID d) w)))
  | Act sweep e d running =>
      if dsRunning d && negb running then
        Ok (start_module ByReconciler (dsModuleID d) w, Some (Report e (embedded_opts "active" "ok" "")))
      else if negb (dsRunning d) && running then
        let '(rm, w) := take_module (dsModuleID d) w in Ok (w, Some (Halt sweep e rm))
      else Ok (w, Some (Report e (embedded_opts (if running then "active" else "inactive") "ok" "")))
  | Halt sweep e rm =>
      match rm with
      | Some rm => Ok (stop_instance rm w, Some (Report e (embedded_opts "inactive" "ok" "")))
      | None => if sweep then Ok (w, None) else Panic
      end
  | Report e opts => Ok (report now e opts w, None)
  | RestartLook id =>
      match restart_look factories id w with
      | inl _ => Ok (w, None)
      | inr rm => Ok (w, Some (RestartHalt id rm))
      end
  | RestartHalt id rm => Ok (stop_instance rm w, Some (RestartStart id))
  | RestartStart id => Ok (start_module ByCommand id w, None)
  | Remove key => Ok (watch_stop key w, Some (RemoveStatus key))
  | RemoveStatus key => Ok (delete_status key w, None)
  end.

(** A goroutine that runs to its end with nothing in between. *)
Fixpoint run_alone (fuel : nat) (t : task) w : outcome (World Sys) :=
  match fuel with
  | O => Ok w
  | S fuel =>
      match perform t w with
      | Ok (w, Some t) => run_alone fuel t w
      | Ok (w, None) => Ok w
      | Err e => Err e
      | Panic => Panic
      end
  end.

(** The state of the process: the world, and its goroutines. *)
Definition process : Type := World Sys * list task.

Inductive step : process → process → Prop :=
| step_spawn w ts t : initial t = true → step (w, ts) (w, ts ++ [t])
| step_task w w' ts1 t ts2 next : perform t w = Ok (w', next) →
    step (w, ts1 ++ t :: ts2) (w', ts1 ++ option_list next ++ ts2)
| step_exit w w' ts panicked p : exit_instance panicked p w = Ok w' → step (w, ts) (w', ts).

Inductive crashes : process → Prop :=
| crash_task w ts1 t ts2 : perform t w = Panic → crashes (w, ts1 ++ t :: ts2)
| crash_exit w ts p : exit_instance true p w = Panic → crashes (w, ts).

Notation steps := (rtc step).

(** ** Goroutines alone *)

Lemma reconcile_alone sweep d w :
  run_alone 5 (Check sweep d) w =
    (if snd (reconcileModuleMonolith registry factories o now d w) && negb sweep then Panic
     else Ok (fst (reconcileModuleMonolith registry factories o now d w))).
Proof.
  unfold reconcileModuleMonolith. cbn -[precheck].
  destruct (precheck registry factories o now d w) as [[e|] w1]; cbn; [|done].
  unfold act. destruct (dsRunning d) eqn:Ed, (isRunning (dsModuleID d) w1) eqn:Er; cbn; rewrite ?Ed; cbn; try done.
  destruct (running w1 !! dsModuleID d), sweep; done.
Qed.

Lemma restart_alone id w : run_alone 3 (RestartLook id) w = Ok (snd (restart_service factories id w)).
Proof. cbn -[restart_look]. unfold restart_service. by destruct (restart_look factories id w). Qed.

Lemma remove_alone key w : run_alone 2 (Remove key) w = Ok (watch_delete key w).
Proof. done. Qed.

(** ** A module that is lost *)

(** The goroutine is about to stop the instance [p]. *)
Definition holds (p : nat) (t : task) : Prop :=
  match t with Halt _ _ (Some rm) | RestartHalt _ rm => rm = p | _ => False end.

(** Nothing that is left to do will stop the instance: it is not in the map, and no
    goroutine holds it. *)
Definition lost (id : string) (p : nat) (c : process) : Prop :=
  (∃ i, instances c.1 !! p = Some i ∧ inModule i = id ∧ inStopped i = false)
  ∧ (∀ id, running c.1 !! id ≠ Some p) ∧ Forall (λ t, ¬ holds p t) c.2.

Lemma precheck_same d w : running (precheck registry factories o now d w).2 = running w
  ∧ instances (precheck registry factories o now d w).2 = instances w.
Proof.
  unfold precheck. destruct (getRegistryEntry registry (dsModuleID d)) as [e|]; [|done].
  destruct (negb (bool_decide (dsModuleID d ∈ factories))); [done|].
  destruct (negb (bool_decide (_ = []))); [done|].
  destruct (if dsRunning d && _ then ensureDeps e (host w) else _) as [[] h]; done.
Qed.

Definition no_new_entry p w w' : Prop := ∀ id, running w' !! id = Some p → running w !! id = Some p.

Lemma delete_no_new p w id : no_new_entry p w (with_running w (delete id (running w))).
Proof. intros id'. cbn. by rewrite lookup_delete_Some; intros [_ ?]. Qed.

(** One step of a goroutine that does not hold the instance. *)
(** The list of what follows holds no instance. *)
#[local] Ltac harmless := first [apply Forall_nil; exact I | apply Forall_singleton; by intros []].

Lemma perform_lost p t w w' next : perform t w = Ok (w', next) → ¬ holds p t →
  (∀ id, running w !! id ≠ Some p) → (p < length (instances w))%nat →
  instances w' !! p = instances w !! p ∧ (∀ id, running w' !! id ≠ Some p) ∧ Forall (λ t, ¬ holds p t) (option_list next).
Proof.
  intros Hp Hh Hr Hlen. assert (Hstart : ∀ b id, instances (start_module b id w) !! p = instances w !! p
    ∧ ∀ id', running (start_module b id w) !! id' ≠ Some p).
  { intros b id. cbn. split; [by apply lookup_app_l|]. intros id'. rewrite lookup_insert_Some.
    intros [[_ E]|[_ E]]; [lia|by eapply Hr]. }
  assert (Hstop : ∀ q w, q ≠ p → instances (stop_instance q w) !! p = instances w !! p).
  { intros q w1 Hq. by apply list_lookup_alter_ne. }
  assert (Hdel : ∀ id id', delete id (running w) !! id' ≠ Some p).
  { intros id id'. rewrite lookup_delete_Some. intros [_ E]. by eapply Hr. }
  destruct t as [sw d|sw e d|sw e d b|sw e [rm|]|e opts|id|id rm|id|key|key]; cbn in Hp, Hh.
  - destruct (precheck_same d w) as [E1 E2]. destruct (precheck registry factories o now d w) as [en w1].
    simplify_eq/=. rewrite E1, E2. split; [done|]. split; [done|]. destruct en; harmless.
  - simplify_eq. split; [done|]. split; [done|]. harmless.
  - destruct (dsRunning d && negb b); [|destruct (negb (dsRunning d) && b)]; simplify_eq.
    + destruct (Hstart ByReconciler (dsModuleID d)) as [E1 E2]. split; [done|]. split; [done|]. harmless.
    + split; [done|]. split; [by apply Hdel|]. apply Forall_singleton. cbn. destruct (running w !! dsModuleID d) eqn:E; [|done].
      intros ->. by eapply Hr.
    + split; [done|]. split; [done|]. harmless.
  - simplify_eq. split; [by apply Hstop|]. split; [done|]. harmless.
  - destruct sw; simplify_eq. split; [done|]. split; [done|]. constructor.
  - simplify_eq. split; [done|]. split; [done|]. constructor.
  - unfold restart_look in Hp. destruct (String.eqb id ""); [by simplify_eq|].
    destruct (running w !! id) as [rm|] eqn:E; [|by simplify_eq].
    case_bool_decide; simplify_eq; (split; [done|]); (split; [done|]); [|harmless].
    apply Forall_singleton. cbn. intros ->. by eapply Hr.
  - simplify_eq. split; [by apply Hstop|]. split; [done|]. harmless.
  - simplify_eq. destruct (Hstart ByCommand id) as [E1 E2]. split; [done|]. split; [done|]. constructor.
  - simplify_eq. unfold watch_stop. cbn. destruct (running w !! key) as [rm|] eqn:E; cbn.
    + split; [apply list_lookup_alter_ne; intros ->; by eapply Hr|]. split; [by apply Hdel|]. harmless.
    + split; [done|]. split; [by apply Hdel|]. harmless.
  - simplify_eq. split; [done|]. split; [done|]. constructor.
Qed.

Lemma exit_instance_Ok panicked p w w' : exit_instance panicked p w = Ok w' →
  w' = w ∨ ∃ i, instances w !! p = Some i ∧ inExited i = false
    ∧ w' = mkWorld (delete (inModule i) (running w)) (alter with_exited p (instances w)) (wBus w) (host w).
Proof.
  unfold exit_instance. destruct (instances w !! p) as [i|]; [|intros ->%Ok_inj; by left].
  destruct (inExited i) eqn:E; [intros ->%Ok_inj; by left|].
  destruct panicked, (inStarter i); try done; intros <-%Ok_inj; right; exists i; done.
Qed.

Lemma lost_step m p c c' : step c c' → lost m p c → lost m p c'.
Proof.
  intros Hs ((i & Hi & Hm & Hst) & Hr & Hh). destruct Hs as [w ts t Ht|w w' ts1 t ts2 next Hp|w w' ts panicked q He]; cbn in *.
  - split; [by exists i|]. split; [done|]. apply Forall_app. split; [done|].
    apply Forall_singleton. destruct t; (discriminate Ht || by intros []).
  - apply Forall_app in Hh as [Hh1 [Ht Hh2]%Forall_cons]. pose proof (lookup_lt_Some _ _ _ Hi) as Hlen.
    destruct (perform_lost p t w w' next Hp Ht Hr Hlen) as (E & Hr' & Hn). split; [|split]; cbn.
    + exists i. by rewrite E.
    + done.
    + by repeat (apply Forall_app; split).
  - apply exit_instance_Ok in He as [->|(j & Hj & _ & ->)]; [by split; [exists i|]|]. split; [|split]; cbn; [|
      intros id; rewrite lookup_delete_Some; intros [_ E]; by eapply Hr|done].
    destruct (decide (q = p)) as [->|Hne].
    + exists (with_exited i). split; [by rewrite list_lookup_alter_eq, Hi|done].
    + exists i. by rewrite list_lookup_alter_ne.
Qed.

(** An instance that is lost is never stopped, whatever happens. *)
Lemma lost_forever m p c c' : steps c c' → lost m p c → lost m p c'.
Proof. induction 1; [done|]. eauto using lost_step. Qed.

(** The entries of the map are instances of their modules. *)
Definition typed w : Prop := ∀ id p, running w !! id = Some p → ∃ i, instances w !! p = Some i ∧ inModule i = id.

Lemma registered_typed w : registered w → typed w.
Proof. intros Hr id p [b Hb]%Hr. by exists (mkInstance id b false false). Qed.

(** When the goroutine of an instance ends, it deletes the entry of its module, even if the
    entry is another instance by now: that one is lost. *)
Lemma late_exit_loses w id p q i j : typed w → running w !! id = Some q → p ≠ q →
  instances w !! p = Some i → inModule i = id → inExited i = false →
  instances w !! q = Some j → inStopped j = false →
  ∃ w', exit_instance false p w = Ok w' ∧ running w' = delete id (running w) ∧ wBus w' = wBus w ∧ host w' = host w
    ∧ instances w' = alter with_exited p (instances w) ∧ lost id q (w', []).
Proof.
  intros Ht Hq Hne Hp Hm He Hj Hs. unfold exit_instance. rewrite Hp, He. eexists. split; [done|]. cbn.
  rewrite Hm. repeat (split; [done|]). split; [|split]; cbn.
  - exists j. rewrite list_lookup_alter_ne by done. split; [done|]. destruct (Ht _ _ Hq) as (j' & Hj' & Hmj). by simplify_eq.
  - intros id' [Hid E]%lookup_delete_Some. destruct (Ht _ _ E) as (j1 & Hj1 & Hm1), (Ht _ _ Hq) as (j2 & Hj2 & Hm2). congruence.
  - constructor.
Qed.

Lemma step_one w w' t next : perform t w = Ok (w', next) → step (w, [t]) (w', option_list next).
Proof. intros Hp. pose proof (step_task w w' [] t [] next Hp) as Hs. by rewrite app_nil_r in Hs. Qed.

(** A goroutine that is alone makes its steps. *)
Lemma alone_steps fuel t w w' : run_alone fuel t w = Ok w' → ∃ ts, steps (w, [t]) (w', ts).
Proof.
  revert t w. induction fuel as [|fuel IH]; intros t w; cbn; [intros ->%Ok_inj; by eexists|].
  destruct (perform t w) as [[w1 [t1|]]| |] eqn:Ep; try done.
  - intros [ts Hts]%IH. exists ts. econstructor; [|exact Hts]. by apply (step_one _ _ _ _ Ep).
  - intros ->%Ok_inj. exists []. econstructor; [|constructor]. by apply (step_one _ _ _ _ Ep).
Qed.

Lemma restart_steps id p w : running w !! id = Some p → id ≠ "" → id ∈ factories →
  steps (w, []) (start_module ByCommand id (stop_instance p w), []).
Proof.
  intros Hp Hid Hf. eapply rtc_l; [by apply (step_spawn w [] (RestartLook id))|]. cbn.
  eapply rtc_l; [apply (step_one w w (RestartLook id) (Some (RestartHalt id p)))|].
  { cbn. unfold restart_look. by rewrite (proj2 (String.eqb_neq _ _) Hid), Hp, bool_decide_true. }
  eapply rtc_l; [by apply (step_one w (stop_instance p w) _ (Some (RestartStart id)))|].
  eapply rtc_l; [by apply (step_one _ (start_module ByCommand id (stop_instance p w)) (RestartStart id) None)|].
  constructor.
Qed.

Lemma stop_typed p w : typed w → typed (stop_instance p w).
Proof.
  intros Ht id q (i & Hq & Hm)%Ht. destruct (decide (q = p)) as [->|Hne].
  - exists (with_stopped i). split; [by cbn -[alter]; rewrite list_lookup_alter_eq, Hq|done].
  - exists i. split; [by cbn -[alter]; rewrite list_lookup_alter_ne|done].
Qed.

Lemma start_typed b id w : typed w → typed (start_module b id w).
Proof.
  intros Ht id' q. cbn. rewrite lookup_insert_Some. intros [[<- <-]|[_ (i & Hq & Hm)%Ht]].
  - eexists. split; [by apply list_lookup_middle|done].
  - exists i. split; [by apply lookup_app_l_Some|done].
Qed.

Lemma delete_typed id w : typed w → typed (with_running w (delete id (running w))).
Proof. intros Ht id' q. cbn. intros [_ Hq]%lookup_delete_Some. by apply Ht. Qed.

(** A stopped instance [p] whose module was started again as [q]: what the end of its
    goroutine leaves. *)
Lemma replaced_is_lost b id p w1 i w : typed w1 → instances w1 !! p = Some i → inModule i = id → inExited i = false →
  let q := length (instances w1) in
  running w = <[id := q]> (running w1) → instances w = instances w1 ++ [mkInstance id b false false] →
  ∃ w2, exit_instance false p w = Ok w2
    ∧ running w2 !! id = None ∧ live_instance w2 id q ∧ length (instances w2) = S q
    ∧ wBus w2 = wBus w ∧ host w2 = host w ∧ lost id q (w2, []).
Proof.
  intros Ht Hp Hm He q Er Ei. pose proof (lookup_lt_Some _ _ _ Hp) as Hlt.
  destruct (late_exit_loses w id p q i (mkInstance id b false false))
    as (w2 & Hw2 & Hr2 & Hb2 & Hh2 & Hi2 & Hl); rewrite ?Er, ?Ei; try done.
  - pose proof (start_typed b id w1 Ht) as Hs. unfold typed in *. by rewrite Er, Ei.
  - apply lookup_insert_eq.
  - subst q. lia.
  - by apply lookup_app_l_Some.
  - by apply list_lookup_middle.
  - exists w2. split_and!; try done.
    + rewrite Hr2. apply lookup_delete_eq.
    + exists (mkInstance id b false false). split; [|done]. rewrite Hi2, Ei.
      rewrite list_lookup_alter_ne by (subst q; lia). by apply list_lookup_middle.
    + rewrite Hi2, Ei, length_alter, length_app. cbn. lia.
Qed.

(** A module that is desired but has no entry is started, beside the instances it has. *)
Lemma reconcile_starts d e w : named_fields registry → ready registry d w →
  judge registry factories (wBus w) d = VOk e → dsRunning d = true → running w !! dsModuleID d = None →
  instances (fst (reconcileModuleMonolith registry factories o now d w))
    = instances w ++ [mkInstance (dsModuleID d) ByReconciler false false].
Proof.
  intros Hf Hr Hj Hd Hn. unfold reconcileModuleMonolith. rewrite precheck_judge by done. rewrite Hj. cbn.
  apply isRunning_false in Hn. unfold act. by rewrite Hn, Hd.
Qed.

(** C12: The command restart-service loses the module it restarts. It puts the new instance
    into the map before the goroutine of the old one has ended, and that goroutine then
    deletes the module's entry: the new instance runs on without one. No sequence of steps
    of the process (sweeps, watched changes, commands, deletions) ever stops it, and the
    next reconciliation of the module, when it is desired to run, starts one more beside it. *)
Theorem restarted_module_is_lost w id p : registered w → running w !! id = Some p → id ≠ "" → id ∈ factories →
  let q := length (instances w) in
  ∃ w1 w2, steps (w, []) (w1, []) ∧ snd (restart_service factories id w) = w1 ∧ running w1 !! id = Some q
    ∧ exit_instance false p w1 = Ok w2 ∧ running w2 !! id = None ∧ live_instance w2 id q
    ∧ (∀ c, steps (w2, []) c → ∃ i, instances c.1 !! q = Some i ∧ inModule i = id ∧ inStopped i = false)
    ∧ ∀ d e, dsModuleID d = id → dsRunning d = true → judge registry factories (wBus w) d = VOk e →
        named_fields registry → ready registry d w →
        let w3 := fst (reconcileModuleMonolith registry factories o now d w2) in
        live_instance w3 id q ∧ live_instance w3 id (S q).
Proof.
  intros Hreg Hp Hid Hf q. destruct (Hreg _ _ Hp) as [b Hb].
  pose proof (replaced_is_lost ByCommand id p (stop_instance p w) (mkInstance id b true false)
    (start_module ByCommand id (stop_instance p w))) as Hl.
  assert (Hlen : length (instances (stop_instance p w)) = q) by apply length_alter. rewrite Hlen in Hl.
  destruct Hl as (w2 & Hw2 & Hn & Hlive & Hlen2 & Hbus & Hh & Hlost); [by apply stop_typed, registered_typed| |done|done|by rewrite <- Hlen|done|].
  { cbn -[alter]. by rewrite list_lookup_alter_eq, Hb. }
  exists (start_module ByCommand id (stop_instance p w)), w2. split_and!; try done.
  - by apply restart_steps.
  - unfold restart_service, restart_look. by rewrite (proj2 (String.eqb_neq _ _) Hid), Hp, bool_decide_true.
  - cbn -[stop_instance]. rewrite Hlen. apply lookup_insert_eq.
  - intros c Hc. apply (lost_forever _ _ _ _ Hc Hlost).
  - intros d e <- Hd Hj Hfields Hr w3. assert (Hi3 : instances w3 = instances w2 ++ [mkInstance (dsModuleID d) ByReconciler false false]).
    { apply reconcile_starts with e; try done; [|by rewrite Hbus].
      intros e' He' Hrun. rewrite Hh. by apply Hr. }
    destruct Hlive as (i & Hi & Him & Hie). split; unfold live_instance; rewrite Hi3.
    + exists i. split; [by apply lookup_app_l_Some|done].
    + eexists. split; [apply list_lookup_middle; by rewrite Hlen2|done].
Qed.

(** Turning a module off and on again before its goroutine has ended loses it the same way. *)
Theorem toggled_module_is_lost w id p off on e : named_fields registry → registered w → running w !! id = Some p →
  dsModuleID off = id → dsRunning off = false → dsModuleID on = id → dsRunning on = true →
  judge registry factories (wBus w) off = VOk e → judge registry factories (wBus w) on = VOk e → ready registry on w →
  let w1 := fst (reconcileModuleMonolith registry factories o now on (fst (reconcileModuleMonolith registry factories o now off w))) in
  ∃ w2, exit_instance false p w1 = Ok w2 ∧ running w2 !! id = None ∧ live_instance w2 id (length (instances w))
    ∧ lost id (length (instances w)) (w2, []).
Proof.
  intros Hfields Hreg Hp Hoff Hof Hon Hrun Jf Jo Hready w1. destruct (Hreg _ _ Hp) as [b Hb].
  set (wd := stop_instance p (with_running w (delete id (running w)))).
  assert (Hw1 : w1 = report now e (embedded_opts "active" "ok" "")
    (start_module ByReconciler id (report now e (embedded_opts "inactive" "ok" "") wd))).
  { subst w1. unfold reconcileModuleMonolith at 2. rewrite precheck_judge, Jf by (done || intros ? ? E; by rewrite E in Hof).
    rewrite Hoff, (isRunning_true _ _ _ Hp). unfold act. rewrite Hof. cbn. rewrite Hoff, Hp. cbn.
    unfold reconcileModuleMonolith. rewrite precheck_judge by done.
    rewrite (judge_config registry factories (wBus w)) by done. rewrite Jo, Hon. cbn.
    unfold act. rewrite Hrun, (proj2 (isRunning_false _ _)); [by rewrite Hon|]. cbn. apply lookup_delete_eq. }
  assert (Hlen : length (instances wd) = length (instances w)) by apply length_alter.
  destruct (replaced_is_lost ByReconciler id p wd (mkInstance id b true false) w1)
    as (w2 & Hw2 & Hn & Hlive & _ & _ & _ & Hlost); [| |done|done|by rewrite Hw1|by rewrite Hw1|].
  - apply (stop_typed p _). by apply delete_typed, registered_typed.
  - cbn -[alter]. by rewrite list_lookup_alter_eq, Hb.
  - rewrite Hlen in Hlive, Hlost. by exists w2.
Qed.

(** The watch of desired_services can end the process. It looks whether the module runs,
    lets the lock go, and takes the entry from the map; when the module has ended by itself
    in between, the entry is nil, and nothing recovers from its dereference. *)
Theorem stopping_ended_module_crashes w d e p : named_fields registry → registered w →
  running w !! dsModuleID d = Some p → dsRunning d = false → judge registry factories (wBus w) d = VOk e →
  ∃ c, steps (w, []) c ∧ crashes c.
Proof.
  intros Hf Hreg Hp Hd Hj. destruct (Hreg _ _ Hp) as [b Hb].
  assert (Hchk : perform (Check false d) w = Ok (w, Some (Look false e d))).
  { cbn. rewrite precheck_judge, Hj by (done || intros ? ? E; by rewrite E in Hd). done. }
  assert (Hlook : perform (Look false e d) w = Ok (w, Some (Act false e d true))).
  { cbn. by rewrite (isRunning_true _ _ _ Hp). }
  set (w1 := mkWorld (delete (dsModuleID d) (running w)) (alter with_exited p (instances w)) (wBus w) (host w)).
  assert (Hexit : exit_instance false p w = Ok w1) by (unfold exit_instance; by rewrite Hb).
  assert (Hact : perform (Act false e d true) w1 = Ok (snd (take_module (dsModuleID d) w1), Some (Halt false e None))).
  { cbn. rewrite Hd. cbn. by rewrite lookup_delete_eq. }
  eexists. split.
  - eapply rtc_l; [by apply (step_spawn w [] (Check false d))|]. cbn.
    eapply rtc_l; [apply (step_one _ _ _ _ Hchk)|].
    eapply rtc_l; [apply (step_one _ _ _ _ Hlook)|].
    eapply rtc_l; [apply (step_exit _ _ _ _ _ Hexit)|].
    eapply rtc_l; [apply (step_one _ _ _ _ Hact)|]. constructor.
  - by apply (crash_task _ [] (Halt false e None) []).
Qed.

(** ** One goroutine at a time *)

(** The orchestrator as it would be if its own goroutines took turns: a sweep's
    reconciliation, a watched change or a deletion begins when no other is under way and the
    modules that were stopped have ended. The modules' own goroutines end when they like.
    The command restart-service is left out. *)
Inductive orderly_step : process → process → Prop :=
| orderly_spawn w t : initial t = true → (∀ id, t ≠ RestartLook id) → quiet w → orderly_step (w, []) (w, [t])
| orderly_task w w' t next : perform t w = Ok (w', next) → orderly_step (w, [t]) (w', option_list next)
| orderly_exit w w' ts panicked p : exit_instance panicked p w = Ok w' → orderly_step (w, ts) (w', ts).

(** The instances that run are in the map, apart from those that were or are about to be
    stopped, and then the map has no entry. *)
Definition kept (ts : list task) w : Prop :=
  ∀ p i, instances w !! p = Some i → inExited i = false →
    running w !! inModule i = Some p
    ∨ running w !! inModule i = None ∧ (inStopped i = true ∨ Exists (holds p) ts).

(** What a goroutine knows where it is. *)
Definition knows (t : task) w : Prop :=
  match t with
  | Check _ _ | Look _ _ _ | Remove _ => ∀ id, clean w id
  | Act _ _ d b => (∀ id, clean w id) ∧ (b = false → running w !! dsModuleID d = None)
  | Halt _ _ (Some p) => ∀ id, running w !! id ≠ Some p
  | Halt _ _ None | Report _ _ | RemoveStatus _ => True
  | RestartLook _ | RestartHalt _ _ | RestartStart _ => False
  end.

Definition orderly (c : process) : Prop :=
  registered c.1 ∧ kept c.2 c.1 ∧ match c.2 with [] => True | [t] => knows t c.1 | _ => False end.

Lemma clean_kept ts w : (∀ id, clean w id) → kept ts w.
Proof. intros Hc p i Hp He. left. apply Hc. by exists i. Qed.

(** The end of a module's goroutine. *)
Lemma exit_clean w p i id : registered w → instances w !! p = Some i → inExited i = false → (∀ id, clean w id) →
  clean (mkWorld (delete (inModule i) (running w)) (alter with_exited p (instances w)) (wBus w) (host w)) id.
Proof.
  intros Hreg Hp He Hc q (j & Hq & Hm & Hje). cbn in *.
  destruct (decide (q = p)) as [->|Hne].
  - rewrite list_lookup_alter_eq, Hp in Hq. injection Hq as <-. done.
  - rewrite list_lookup_alter_ne in Hq by done. assert (Hq' : running w !! id = Some q) by (apply Hc; by exists j).
    rewrite lookup_delete_ne; [done|]. intros <-.
    assert (Hp' : running w !! inModule i = Some p) by (apply Hc; by exists i). congruence.
Qed.

Lemma exit_registered ts w p i : registered w → kept ts w → instances w !! p = Some i → inExited i = false →
  let w' := mkWorld (delete (inModule i) (running w)) (alter with_exited p (instances w)) (wBus w) (host w) in
  registered w' ∧ kept ts w'.
Proof.
  intros Hreg Hk Hp He w'. split.
  - intros id q. cbn. intros [Hne Hq]%lookup_delete_Some. destruct (Hreg _ _ Hq) as [b Hb]. exists b.
    rewrite list_lookup_alter_ne; [done|]. intros <-. rewrite Hp in Hb. injection Hb as Hb.
    apply (f_equal inModule) in Hb. done.
  - intros q j Hq Hje. cbn in *. destruct (decide (q = p)) as [->|Hne].
    { rewrite list_lookup_alter_eq, Hp in Hq. injection Hq as <-. done. }
    rewrite list_lookup_alter_ne in Hq by done. destruct (decide (inModule j = inModule i)) as [Em|Em].
    + rewrite Em, lookup_delete_eq. right. split; [done|].
      destruct (Hk q j Hq Hje) as [E|[_ ?]]; [|done]. rewrite Em in E.
      destruct (Hk p i Hp He) as [E'|[E' _]]; congruence.
    + rewrite lookup_delete_ne by done. by apply Hk.
Qed.

Lemma take_registered id w : registered w → registered (with_running w (delete id (running w))).
Proof. intros Hreg id' q. cbn. intros [_ Hq]%lookup_delete_Some. by apply Hreg. Qed.

Lemma start_orderly b id w : registered w → (∀ id, clean w id) → running w !! id = None →
  registered (start_module b id w) ∧ ∀ ts, kept ts (start_module b id w).
Proof.
  intros Hreg Hc Hn. split; [by apply start_local|].
  intros ts p i [Hp|[Hl Hp]]%lookup_app_Some He; cbn.
  - left. assert (Hr : running w !! inModule i = Some p) by (apply Hc; by exists i).
    rewrite lookup_insert_ne; [done|]. intros ->. congruence.
  - apply list_lookup_singleton_Some in Hp as [Hp <-]. left. cbn. rewrite lookup_insert_eq. f_equal. lia.
Qed.

Lemma stop_orderly id p w : registered w → (∀ id, clean w id) → running w !! id = Some p →
  registered (stop_instance p (with_running w (delete id (running w))))
  ∧ ∀ ts, kept ts (stop_instance p (with_running w (delete id (running w)))).
Proof.
  intros Hreg Hc Hr. split; [by apply stop_local|]. intros ts q i. cbn -[alter].
  destruct (decide (q = p)) as [->|Hne].
  - rewrite list_lookup_alter_eq. destruct (Hreg _ _ Hr) as [b ->]. intros [= <-] _. cbn. right.
    rewrite lookup_delete_eq. auto.
  - rewrite list_lookup_alter_ne by done. intros Hq He. left.
    assert (Hq' : running w !! inModule i = Some q) by (apply Hc; by exists i).
    rewrite lookup_delete_ne; [done|]. intros ->. congruence.
Qed.

Lemma take_kept id w e sweep : registered w → (∀ id, clean w id) →
  kept [Halt sweep e (running w !! id)] (with_running w (delete id (running w)))
  ∧ knows (Halt sweep e (running w !! id)) (with_running w (delete id (running w))).
Proof.
  intros Hreg Hc. split.
  - intros p i Hp He. assert (Hr : running w !! inModule i = Some p) by (apply Hc; by exists i). cbn in *.
    destruct (decide (inModule i = id)) as [<-|Hne].
    + right. rewrite lookup_delete_eq. split; [done|]. right. constructor. cbn. by rewrite Hr.
    + left. by rewrite lookup_delete_ne.
  - cbn. destruct (running w !! id) as [p|] eqn:E; [|done]. intros id' [Hne E']%lookup_delete_Some.
    destruct (Hreg _ _ E) as [b Hb], (Hreg _ _ E') as [b' Hb']. congruence.
Qed.

Lemma halt_orderly sweep e rm w : registered w → kept [Halt sweep e (Some rm)] w → (∀ id, running w !! id ≠ Some rm) →
  registered (stop_instance rm w) ∧ ∀ ts, kept ts (stop_instance rm w).
Proof.
  intros Hreg Hk Hrm. split.
  - intros id q Hq. cbn -[alter] in *. rewrite list_lookup_alter_ne; [by apply Hreg|]. intros ->. by eapply Hrm.
  - intros ts q i. cbn -[alter]. destruct (decide (q = rm)) as [->|Hne].
    + rewrite list_lookup_alter_eq. intros (j & Hj & ->)%fmap_Some He. cbn in *.
      destruct (Hk rm j Hj He) as [E|[E _]]; [by eapply Hrm in E|]. right. auto.
    + rewrite list_lookup_alter_ne by done. intros Hq He. destruct (Hk q i Hq He) as [|[E [Es|Hh]]]; [by left|by right; auto|].
      apply Exists_cons in Hh as [Hh|Hh]; [by cbn in Hh; congruence|by apply Exists_nil in Hh].
Qed.

Lemma perform_orderly w w' t next : orderly (w, [t]) → perform t w = Ok (w', next) → orderly (w', option_list next).
Proof.
  intros (Hreg & Hk & Hkn) Hp. cbn in Hreg, Hk, Hkn.
  destruct t as [sw d|sw e d|sw e d b|sw e [rm|]|e opts|id|id rm|id|key|key]; cbn in Hp, Hkn; try done.
  - destruct (precheck_same d w) as [E1 E2]. destruct (precheck registry factories o now d w) as [en w1]. cbn in E1, E2.
    injection Hp as <- <-. unfold orderly, registered, kept, knows, clean, live_instance in *. cbn.
    destruct en; cbn; rewrite E1, E2; (split; [done|]); (split; [|done]);
      intros p i Hi He; left; apply Hkn; by exists i.
  - injection Hp as <- <-. split; [done|]. split; [by apply clean_kept|]. split; [done|]. by intros ?%isRunning_false.
  - destruct Hkn as [Hc Hb]. destruct (dsRunning d && negb b) eqn:E1; [|destruct (negb (dsRunning d) && b)]; injection Hp as <- <-.
    + apply andb_prop in E1 as [_ E1%negb_true_iff]. destruct (start_orderly ByReconciler _ w Hreg Hc (Hb E1)) as [? ?]. done.
    + split; [by apply take_registered|]. by apply take_kept.
    + split; [done|]. split; [by apply clean_kept|done].
  - injection Hp as <- <-. destruct (halt_orderly _ _ _ _ Hreg Hk Hkn). done.
  - destruct sw; [|done]. injection Hp as <- <-. split; [done|]. split; [|done].
    intros p i Hi He. destruct (Hk p i Hi He) as [|[E [Es|Hh]]]; [by left|by right; auto|].
    apply Exists_cons in Hh as [Hh|Hh]; [done|by apply Exists_nil in Hh].
  - injection Hp as <- <-. split; [done|]. split; [|done].
    intros p i Hi He. destruct (Hk p i Hi He) as [|[E [Es|Hh]]]; [by left|by right; auto|].
    apply Exists_cons in Hh as [Hh|Hh]; [done|by apply Exists_nil in Hh].
  - injection Hp as <- <-. unfold watch_stop. cbn. destruct (running w !! key) as [rm|] eqn:E.
    + destruct (stop_orderly key rm w Hreg Hkn E). done.
    + rewrite delete_id by done. destruct w. split; [done|]. split; [by apply clean_kept|done].
  - injection Hp as <- <-. split; [done|]. split; [|done].
    intros p i Hi He. destruct (Hk p i Hi He) as [|[E [Es|Hh]]]; [by left|by right; auto|].
    apply Exists_cons in Hh as [Hh|Hh]; [done|by apply Exists_nil in Hh].
Qed.

Lemma orderly_preserved c c' : orderly_step c c' → orderly c → orderly c'.
Proof.
  intros Hs Hc. destruct Hs as [w t Ht Hne Hq|w w' t next Hp|w w' ts panicked p He].
  - destruct Hq as [Hreg Hclean]. split; [done|]. split; [by apply clean_kept|]. cbn.
    destruct t; try done. by eapply Hne.
  - by eapply perform_orderly.
  - apply exit_instance_Ok in He as [->|(i & Hp & He & ->)]; [done|]. destruct Hc as (Hreg & Hk & Hkn). cbn in Hreg, Hk, Hkn.
    destruct (exit_registered ts w p i Hreg Hk Hp He) as [Hreg' Hk']. split; [done|]. split; [done|]. cbn.
    assert (Hdel : ∀ id q, delete (inModule i) (running w) !! id = Some q → running w !! id = Some q)
      by (intros id q [_ E]%lookup_delete_Some; done).
    destruct ts as [|t [|]]; try done. destruct t as [| |sw e d b|sw e [rm|]| | | | | |]; cbn in *; try done; auto using exit_clean.
    + destruct Hkn as [Hcl Hb]. split; [auto using exit_clean|]. intros E. apply Hb in E.
      destruct (delete (inModule i) (running w) !! dsModuleID d) eqn:E'; [|done]. apply Hdel in E'. congruence.
    + intros id E. by eapply Hkn, Hdel.
Qed.

(** C11: Taken in turns, and each only after the modules it stopped have ended, the
    orchestrator's reconciliations and deletions lose no module: at every moment an instance
    that runs and that nobody stopped is the one entry of its module in the map, or is just
    about to be stopped; so no module runs twice. *)
Theorem turns_lose_no_module w w' ts : quiet w → rtc orderly_step (w, []) (w', ts) →
  ∀ p i, instances w' !! p = Some i → inExited i = false → inStopped i = false →
    running w' !! inModule i = Some p ∨ Exists (holds p) ts.
Proof.
  intros [Hreg Hc] Hs. assert (Ho : orderly (w', ts)).
  { assert (Hi : orderly (w, [])) by (split; [done|]; split; [by apply clean_kept|done]).
    clear Hreg Hc. remember (w, []) as c eqn:Ec. remember (w', ts) as c' eqn:Ec'. clear Ec Ec'.
    induction Hs; [done|]. eauto using orderly_preserved. }
  intros p i Hp He Hst. destruct Ho as (_ & Hk & _). destruct (Hk p i Hp He) as [|[_ [Es|]]]; [by left|congruence|by right].
Qed.

End Tasks.

(** ** Examples *)

#[local] Existing Instances well_installed ascii_tables.

Lemma example_quiet : quiet example_world.
Proof. apply quiet_check_sound. vm_compute. reflexivity. Qed.

Lemma restarted_module_is_lost_witness : ∃ w : World unit,
  rtc (step (moduleRegistry true) all_factories map_order 7) (example_world, []) (w, [])
  ∧ exit_instance false 1 w = Ok (mkWorld (delete "network" (running w)) (alter with_exited 1%nat (instances w)) (wBus w) (host w)).
Proof.
  destruct (restarted_module_is_lost (moduleRegistry true) all_factories map_order 7 example_world "network" 1)
    as (w1 & w2 & Hs & Hw1 & _ & He & _).
  - apply example_quiet.
  - reflexivity.
  - discriminate.
  - apply (bool_decide_unpack _). vm_compute. exact I.
  - exists w1. split; [exact Hs|]. rewrite <- Hw1. vm_compute. reflexivity.
Defined.

Lemma stopping_ended_module_crashes_witness : ∃ c,
  rtc (step (moduleRegistry true) all_factories map_order 7) (example_world, []) c ∧ crashes (moduleRegistry true) all_factories map_order 7 c.
Proof.
  apply (stopping_ended_module_crashes (moduleRegistry true) all_factories map_order 7 example_world
    (desired "gateway" false) (embedded false "gateway" "Device gateway (RBE, UDT assembly)" [] []) 0).
  - apply registry_fields.
  - apply example_quiet.
  - reflexivity.
  - reflexivity.
  - vm_compute. reflexivity.
Defined.

(** The scanner is started and the gateway deleted. *)
Definition turn_start : World unit := fst (reconcileModuleMonolith (moduleRegistry true) all_factories map_order 7 (desired "snmp" true) example_world).

Lemma turns_lose_no_module_witness : instances turn_start !! 2%nat = Some (mkInstance "snmp" ByReconciler false false)
  ∧ (running turn_start !! "snmp" = Some 2%nat ∨ Exists (holds 2) []).
Proof.
  split; [vm_compute; reflexivity|].
  apply (turns_lose_no_module (moduleRegistry true) all_factories map_order 7 example_world turn_start []) with
    (i := mkInstance "snmp" ByReconciler false false).
  - apply example_quiet.
  - eapply rtc_l; [apply (orderly_spawn _ _ _ _ _ (Check true (desired "snmp" true))); [reflexivity|discriminate|apply example_quiet]|].
    do 4 (eapply rtc_l; [eapply orderly_task; reflexivity|]). apply rtc_refl.
  - vm_compute. reflexivity.
  - reflexivity.
  - reflexivity.
Defined.
