(* ===== verification/OrchestratorUnits.v ===== *)
(** The orchestrator on bare metal: modules as systemd units.

    types.go, download.go, systemd.go, self_update.go and the rest of watcher.go and
    command.go of internal/orchestrator: the configuration, versions on disk and on GitHub,
    unit files, [reconcileModule], the migration at the first start, and the commands. The
    operations are actions on the host, the buckets and the cache of latest versions. *)

From stdpp Require Import sorting.
From S2P Require Export Orchestrator.

#[local] Open Scope Z_scope.

(** ** types.go *)

Record OrchestratorConfig := mkConfig {
  NatsServers : string;
  NatsUser : string;
  NatsPass : string;
  NatsToken : string;
  InstallDir : string;
  BinDir : string;
  ServicesDir : string;
  VersionsDir : string;
  CacheDir : string;
  ConfigDir : string;
  SystemdDir : string;
  NatsUnitName : string;
  GhOrg : string;
  GhToken : string;
  ReconcileIntervalMs : Z;
  LatestCacheTtlMs : Z;
}.

Section Config.
(** [os.Getenv]: an unset variable is empty. *)
Variable getenv : string → string.

Definition envOrDefault (key fallback : string) : string :=
  if String.eqb (getenv key) "" then fallback else getenv key.

Definition envOrDefaultInt (key : string) (fallback : Z) : Z :=
  if String.eqb (getenv key) "" then fallback
  else match atoi (getenv key) with (i, NumOK) => i | _ => fallback end.

Definition loadConfig : OrchestratorConfig :=
  let installDir := envOrDefault "TENTACLE_INSTALL_DIR" "/opt/tentacle" in {|
    NatsServers := envOrDefault "NATS_SERVERS" "nats://localhost:4222";
    NatsUser := getenv "NATS_USER";
    NatsPass := getenv "NATS_PASS";
    NatsToken := getenv "NATS_TOKEN";
    InstallDir := installDir;
    BinDir := installDir +:+ "/bin";
    ServicesDir := installDir +:+ "/services";
    VersionsDir := installDir +:+ "/versions";
    CacheDir := installDir +:+ "/cache";
    ConfigDir := installDir +:+ "/config";
    SystemdDir := envOrDefault "TENTACLE_SYSTEMD_DIR" "/etc/systemd/system";
    NatsUnitName := envOrDefault "TENTACLE_NATS_UNIT" "tentacle-nats";
    GhOrg := envOrDefault "TENTACLE_GH_ORG" "joyautomation";
    GhToken := getenv "GITHUB_TOKEN";
    ReconcileIntervalMs := envOrDefaultInt "TENTACLE_RECONCILE_INTERVAL" 30000;
    LatestCacheTtlMs := envOrDefaultInt "TENTACLE_LATEST_CACHE_TTL" 300000;
  |}.
End Config.

(** ** Versions *)

Definition dot_ : ascii := "."%char.

(** [strconv.Atoi] with its error dropped; a part that is not there is 0. *)
Definition part (l : list string) (i : nat) : Z := match l !! i with Some s => fst (atoi s) | None => 0 end.

Fixpoint compare_parts (a b : list string) (idx : list nat) : Z :=
  match idx with
  | [] => 0
  | i :: idx => if part a i =? part b i then compare_parts a b idx else wraps 64 (part a i - part b i)
  end.

Definition compareSemver (a b : string) : Z :=
  let partsA := split dot_ a in
  let partsB := split dot_ b in
  compare_parts partsA partsB (seq 0 (Nat.max (length partsA) (length partsB))).

(** [sort.Slice] by [compareSemver]. *)
Definition semver_le (a b : string) : Prop := compareSemver a b ≤ 0.
#[export] Instance semver_le_dec a b : Decision (semver_le a b).
Proof. apply Z_le_dec. Defined.

Definition highest_version (versions : list string) : string := List.last (merge_sort semver_le versions) "".

(** ** The state *)

(** The cache of latest versions by repository, with the time of each. *)
Record Metal (Sys : Type) := mkMetal {
  mHost : Host Sys;
  mBus : Bus;
  latestCache : gmap string (string * Z);
}.
Arguments mkMetal {_} _ _ _.
Arguments mHost {_} _.
Arguments mBus {_} _.
Arguments latestCache {_} _.

(** An action: it gives a result and changes the state. *)
Definition Act (Sys A : Type) : Type := Metal Sys → A * Metal Sys.

#[export] Instance act_ret {Sys} : MRet (Act Sys) := λ A a s, (a, s).
#[export] Instance act_bind {Sys} : MBind (Act Sys) := λ A B k m s, let '(a, s) := m s in k a s.

Lemma act_bind_eq {Sys A B} (m : Act Sys A) (k : A → Act Sys B) s : (m ≫= k) s = k (fst (m s)) (snd (m s)).
Proof. unfold mbind, act_bind. by destruct (m s). Qed.

Section Host.
Context {Sys : Type}.

Definition on_host {A} (f : Host Sys → A * Host Sys) : Act Sys A :=
  λ s, let '(a, h) := f (mHost s) in (a, mkMetal h (mBus s) (latestCache s)).

(** A look at the file system, and a change of it with its success. *)
Definition look_files {A} (f : fs → A) : Act Sys A := λ s, (f (files (mHost s)), s).
Definition on_files (f : fs → bool * fs) : Act Sys bool :=
  on_host (λ h, let '(ok, fs) := f (files h) in (ok, with_files h fs)).
Definition change_files (f : fs → fs) : Act Sys unit := on_host (λ h, (tt, with_files h (f (files h)))).

Definition get_bus {A} (f : Bus → A) : Act Sys A := λ s, (f (mBus s), s).
Definition on_bus (f : Bus → Bus) : Act Sys unit := λ s, (tt, mkMetal (mHost s) (f (mBus s)) (latestCache s)).
End Host.

(** [strings.TrimPrefix]. *)
Definition trim_prefix (s pre : string) : string := match strip_prefix pre s with Some r => r | None => s end.

Definition nl : string := str ["010"%char].
Definition lines (l : list string) : string := String.concat "" (map (λ s, s +:+ nl) l).

Definition unitName (modID : string) : string := modID +:+ ".service".

(** self_update.go *)
Definition selfModuleID : string := "tentacle-orchestrator".
Definition selfEntry : ModuleRegistryEntry :=
  mkEntry "tentacle-orchestrator-go" selfModuleID "Service orchestrator" "core" "go" false "" [] [] [].

(** ** Commands: internal/types/orchestrator.go *)

Record ModuleConfigField := mkConfigField {
  mfEnvVar : string;
  mfDescription : string;
  mfDefault : string;
  mfRequired : bool;
}.

Record ModuleRegistryInfo := mkInfo {
  riModuleID : string;
  riRepo : string;
  riDescription : string;
  riCategory : string;
  riRuntime : string;
  riExperimental : bool;
  riRequiredConfig : list ModuleConfigField;
}.

Record ModuleVersionInfo := mkVersionInfo {
  viModuleID : string;
  viInstalledVersions : list string;
  viLatestVersion : string;
  viActiveVersion : string;
}.

Record OrchestratorCommandRequest := mkRequest {
  rqRequestID : string;
  rqAction : string;
  rqModuleID : string;
}.

Record OrchestratorCommandResponse := mkResponse {
  rsRequestID : string;
  rsSuccess : bool;
  rsError : string;
  rsModules : list ModuleRegistryInfo;
  rsOnline : option bool;
  rsVersions : option ModuleVersionInfo;
  rsTimestamp : Z;
}.

Definition failure (requestID e : string) (now : Z) : OrchestratorCommandResponse := mkResponse requestID false e [] None None now.
Definition success (requestID : string) (now : Z) : OrchestratorCommandResponse := mkResponse requestID true "" [] None None now.

Definition registry_info (e : ModuleRegistryEntry) : ModuleRegistryInfo :=
  mkInfo (ModuleID e) (Repo e) (Description e) (Category e) (Runtime e) (Experimental e)
    (map (λ cf, mkConfigField (cfEnvVar cf) (cfDescription cf) (cfDefault cf) (cfRequired cf)) (RequiredConfig e)).

Definition handleGetRegistry (registry : list ModuleRegistryEntry) (requestID : string) (now : Z) : OrchestratorCommandResponse :=
  mkResponse requestID true "" (map registry_info registry) None None now.

(** The entry a command is about, or the error of the answer. *)
Definition module_of (registry : list ModuleRegistryEntry) (modID action : string) : string + ModuleRegistryEntry :=
  if String.eqb modID "" then inl ("moduleId is required for " +:+ action)
  else match getRegistryEntry registry modID with
  | None => inl ("Unknown module: " +:+ modID)
  | Some e => inr e
  end.

(** The commands of the monolith that change nothing but the host. *)
Definition embedded_versions (registry : list ModuleRegistryEntry) (requestID modID : string) (now : Z) : OrchestratorCommandResponse :=
  match module_of registry modID "get-module-versions" with
  | inl e => failure requestID e now
  | inr _ => mkResponse requestID true "" [] None (Some (mkVersionInfo modID ["embedded"] "" "embedded")) now
  end.

(** The handler of orchestrator.command in the monolith. *)
Definition handle_command_monolith {Sys : Type} `{System Sys} (registry : list ModuleRegistryEntry) (factories : gset string) (now : Z)
    (req : string + OrchestratorCommandRequest) (w : World Sys) : OrchestratorCommandResponse * World Sys :=
  match req with
  | inl e => (failure "unknown" e now, w)
  | inr req =>
      if String.eqb (rqAction req) "get-registry" then (handleGetRegistry registry (rqRequestID req) now, w)
      else if String.eqb (rqAction req) "check-internet" then
        let '(online, h) := checkInternet (host w) in
        (mkResponse (rqRequestID req) true "" [] (Some online) None now, with_host w h)
      else if String.eqb (rqAction req) "get-module-versions" then (embedded_versions registry (rqRequestID req) (rqModuleID req) now, w)
      else if String.eqb (rqAction req) "restart-service" then
        match restart_service factories (rqModuleID req) w with
        | (Some e, w) => (failure (rqRequestID req) (restart_text e) now, w)
        | (None, w) => (success (rqRequestID req) now, w)
        end
      else (failure (rqRequestID req) ("Unknown action: " +:+ rqAction req) now, w)
  end.

Section Metal.
Context {Sys : Type} `{System Sys} `{UnicodeTables}.
Variable registry : list ModuleRegistryEntry.
Variable config : OrchestratorConfig.
Variable o : ranging.
(** The clock: milliseconds of the time that is stamped, nanoseconds for the cache. *)
Variables (now nanos : Z).
(** [runtime.GOARCH], the [tag_name] in the JSON of a release (none when it does not parse),
    the directory that [os.MkdirTemp] makes, and the time as the marker has it. *)
Variables (goarch : string) (tag_name : string → option string) (tempDir : fs → string) (rfc3339 : string).

(** ** systemd.go *)

Definition cmd (name : string) (args : list string) : Act Sys (string * bool) := on_host (runCmd name args).

Definition unitExists (modID : string) : Act Sys bool :=
  r ← cmd "systemctl" ["show"; "--property=LoadState"; unitName modID];
  mret (contains r.1 "LoadState=loaded").

Definition getSystemdState (modID : string) : Act Sys string :=
  r ← cmd "systemctl" ["is-active"; unitName modID];
  mret (if existsb (String.eqb r.1) ["active"; "inactive"; "failed"; "activating"; "deactivating"] then r.1 else "not-found").

Definition systemctl (verb modID : string) : Act Sys bool := r ← cmd "systemctl" [verb; unitName modID]; mret (snd r).
Definition systemctlStart := systemctl "start".
Definition systemctlStop := systemctl "stop".
Definition systemctlRestart := systemctl "restart".
Definition systemctlEnable := systemctl "enable".
Definition systemctlDaemonReload : Act Sys bool := r ← cmd "systemctl" ["daemon-reload"]; mret (snd r).

Definition findDeno (f : fs) : string :=
  let installDeno := BinDir config +:+ "/deno" in
  match stat f installDeno with Some _ => installDeno | None => "deno" end.

Definition deno_dir (entry : ModuleRegistryEntry) (version : string) : string :=
  CacheDir config +:+ "/deno/versions/" +:+ ModuleID entry +:+ "/" +:+ version.

(** The command of the unit, its working directory and its deno cache. *)
Definition unit_command (entry : ModuleRegistryEntry) (version denoPath : string) : option (string * string * string) :=
  let dir := ServicesDir config +:+ "/" +:+ Repo entry in
  if String.eqb (Runtime entry) "go" then Some (BinDir config +:+ "/" +:+ ModuleID entry, "", "")
  else if String.eqb (Runtime entry) "deno" then Some (denoPath +:+ " run -A main.ts", dir, deno_dir entry version)
  else if String.eqb (Runtime entry) "deno-web" then Some (denoPath +:+ " run -A build/index.js", dir, deno_dir entry version)
  else None.

Definition env_lines (entry : ModuleRegistryEntry) (denoDir : string) (moduleConfig : option (gmap string string)) : list string :=
  (if String.eqb denoDir "" then [] else ["Environment=DENO_DIR=" +:+ denoDir])
  ++ (if String.eqb (ExtraEnv entry) "" then [] else ["Environment=" +:+ ExtraEnv entry])
  ++ match moduleConfig with
     | Some c => map (λ kv, "Environment=" +:+ kv.1 +:+ "=" +:+ kv.2) (o _ c)
     | None => []
     end
  ++ omap (λ cf,
       let alreadySet := match moduleConfig with Some c => bool_decide (is_Some (c !! cfEnvVar cf)) | None => false end in
       if negb (String.eqb (cfDefault cf) "") && negb alreadySet
       then Some ("Environment=" +:+ cfEnvVar cf +:+ "=" +:+ cfDefault cf) else None) (RequiredConfig entry).

Definition unit_text (entry : ModuleRegistryEntry) (after execStart workingDir : string) (envLines : list string) : string :=
  lines (["[Unit]"; "Description=Tentacle " +:+ ModuleID entry]
    ++ (if String.eqb after "" then [] else ["After=" +:+ after; "Requires=" +:+ after])
    ++ [""; "[Service]"; "Type=simple"; "EnvironmentFile=-" +:+ ConfigDir config +:+ "/tentacle.env"]
    ++ envLines
    ++ (if String.eqb workingDir "" then [] else ["WorkingDirectory=" +:+ workingDir])
    ++ ["ExecStart=" +:+ execStart; "Restart=always"; "RestartSec=5"; "StandardOutput=journal"; "StandardError=journal";
        "SyslogIdentifier=" +:+ ModuleID entry; ""; "[Install]"; "WantedBy=multi-user.target"]).

Definition writeSystemdUnit (entry : ModuleRegistryEntry) (version : string) (moduleConfig : option (gmap string string)) : Act Sys bool :=
  natsAvailable ← (if String.eqb (NatsUnitName config) "" then mret false else unitExists (NatsUnitName config));
  let after := if String.eqb (ModuleID entry) "tentacle-web" then "tentacle-graphql.service"
    else if (natsAvailable : bool) then NatsUnitName config +:+ ".service" else "" in
  denoPath ← look_files findDeno;
  match unit_command entry version denoPath with
  | None => mret false
  | Some (execStart, workingDir, denoDir) =>
      on_files (λ f, WriteFile f (SystemdDir config +:+ "/" +:+ unitName (ModuleID entry))
        (unit_text entry after execStart workingDir (env_lines entry denoDir moduleConfig)))
  end.

(** ** download.go *)

(** [getArch] gives GOARCH whatever it is. *)
Definition getArch : string := goarch.

Definition http_get (url : string) : Act Sys (option (Z * string * bool)) :=
  on_host (λ h, let '(resp, r) := http "GET" url (rest h) in (resp, mkHost (files h) r)).

Definition cache_latest (repo version : string) : Act Sys unit :=
  λ s, (tt, mkMetal (mHost s) (mBus s) (<[repo := (version, nanos)]> (latestCache s))).

Definition releases_url (entry : ModuleRegistryEntry) : string :=
  "https://api.github.com/repos/" +:+ GhOrg config +:+ "/" +:+ Repo entry +:+ "/releases/latest".

Definition fetch_latest (entry : ModuleRegistryEntry) : Act Sys string :=
  resp ← http_get (releases_url entry);
  let tag := match resp with
    | Some (code, body, _) => if negb (code =? 200) then None else tag_name body
    | None => None
    end in
  match tag with
  | Some tag => _ ← cache_latest (Repo entry) (trim_prefix tag "v"); mret (trim_prefix tag "v")
  | None => mret ""
  end.

Definition resolveLatestVersion (entry : ModuleRegistryEntry) : Act Sys string := λ s,
  match latestCache s !! Repo entry with
  | Some (version, resolvedAt) =>
      if nanos - resolvedAt <? LatestCacheTtlMs config * 1000000 then (version, s) else fetch_latest entry s
  | None => fetch_latest entry s
  end.

Definition dirs_of (l : list (string * node)) : list string :=
  omap (λ e, match e with (name, Dir) => Some name | _ => None end) l.

Definition versions_dir (modID : string) : string := VersionsDir config +:+ "/" +:+ modID.
Definition version_dir (modID version : string) : string := versions_dir modID +:+ "/" +:+ version.

(** The highest version on disk, other than the one a migration made. *)
Definition offline_version (entry : ModuleRegistryEntry) (f : fs) : string :=
  match ReadDir f (versions_dir (ModuleID entry)) with
  | None => ""
  | Some entries =>
      match List.filter (λ v, negb (String.eqb v "unknown")) (dirs_of entries) with
      | [] => ""
      | versions => highest_version versions
      end
  end.

Definition resolveVersion (entry : ModuleRegistryEntry) (desiredVersion : string) : Act Sys string :=
  if negb (String.eqb desiredVersion "latest") then mret desiredVersion
  else
    resolved ← resolveLatestVersion entry;
    if negb (String.eqb resolved "") then mret resolved
    else look_files (offline_version entry).

Definition getDownloadURL (entry : ModuleRegistryEntry) (version : string) : string :=
  let base := "https://github.com/" +:+ GhOrg config +:+ "/" +:+ Repo entry +:+ "/releases/download/v" +:+ version in
  if String.eqb (Runtime entry) "go" then base +:+ "/" +:+ ModuleID entry +:+ "-linux-" +:+ getArch
  else if String.eqb (Runtime entry) "deno" then base +:+ "/" +:+ Repo entry +:+ "-src.tar.gz"
  else if String.eqb (Runtime entry) "deno-web" then base +:+ "/" +:+ Repo entry +:+ "-build.tar.gz"
  else "".

Definition isVersionInstalled (modID version : string) (f : fs) : bool := is_dir f (version_dir modID version).

Definition listInstalledVersions (modID : string) (f : fs) : list string :=
  match ReadDir f (versions_dir modID) with Some entries => dirs_of entries | None => [] end.

Definition link_path (entry : ModuleRegistryEntry) : string :=
  if String.eqb (Runtime entry) "go" then BinDir config +:+ "/" +:+ ModuleID entry
  else ServicesDir config +:+ "/" +:+ Repo entry.

(** The part two behind the first [versions] that has one. *)
Fixpoint after_versions (parts : list string) : string :=
  match parts with
  | p :: rest =>
      match rest with
      | _ :: v :: _ => if String.eqb p "versions" then v else after_versions rest
      | _ => ""
      end
  | [] => ""
  end.

Definition getActiveVersion (entry : ModuleRegistryEntry) (f : fs) : string :=
  match readlink f (link_path entry) with
  | Some target => after_versions (split slash target)
  | None => ""
  end.

Definition link_target (entry : ModuleRegistryEntry) (version : string) : string :=
  if String.eqb (Runtime entry) "go" then version_dir (ModuleID entry) version +:+ "/" +:+ ModuleID entry
  else version_dir (ModuleID entry) version.

(** What is in the way is removed if it can be. *)
Definition updateSymlink (entry : ModuleRegistryEntry) (version : string) (f : fs) : bool * fs :=
  symlink (snd (os_remove f (link_path entry))) (link_target entry version) (link_path entry).

(** [exec.Command] as it is. *)
Definition command (env : list string) (dir name : string) (args : list string) : Act Sys bool :=
  on_host (λ h, let '(_, _, ok, h) := exec env dir name args h in (ok, h)).

Definition moveContents (src dest : string) : Act Sys bool :=
  let q := str [dquote] in
  command [] "" "bash" ["-c"; "cp -a " +:+ q +:+ src +:+ "/" +:+ q +:+ "* " +:+ q +:+ dest +:+ "/" +:+ q +:+ " 2>/dev/null; cp -a "
    +:+ q +:+ src +:+ "/" +:+ q +:+ ".[^.]* " +:+ q +:+ dest +:+ "/" +:+ q +:+ " 2>/dev/null; true"].

Definition precacheDenoDeps (entry : ModuleRegistryEntry) (version : string) : Act Sys unit :=
  let versionDir := version_dir (ModuleID entry) version in
  let denoDir := deno_dir entry version in
  _ ← on_files (λ f, MkdirAll f denoDir);
  found ← look_files (λ f, bool_decide (is_Some (stat f (versionDir +:+ "/deno.json"))));
  if negb found then mret tt
  else
    let entrypoint := versionDir +:+ (if String.eqb (Runtime entry) "deno-web" then "/build/index.js" else "/main.ts") in
    denoPath ← look_files findDeno;
    _ ← command ["DENO_DIR=" +:+ denoDir] versionDir denoPath ["install"; "--entrypoint"; entrypoint];
    mret tt.

(** [os.RemoveAll(versionDir)] and [return false]. *)
Definition give_up_version (versionDir : string) : Act Sys bool := _ ← change_files (λ f, RemoveAll f versionDir); mret false.

(** The archive is unpacked in [tmpDir] and its contents moved. *)
Definition install_archive (entry : ModuleRegistryEntry) (version url tmpDir : string) : Act Sys bool :=
  let versionDir := version_dir (ModuleID entry) version in
  let tarPath := tmpDir +:+ "/pkg.tar.gz" in
  ok ← on_host (downloadFile url tarPath);
  if negb ok then give_up_version versionDir
  else
    ok ← command [] "" "tar" ["xzf"; tarPath; "-C"; tmpDir];
    if negb ok then give_up_version versionDir
    else
      let repoDir := tmpDir +:+ "/" +:+ Repo entry in
      let buildDir := tmpDir +:+ "/build" in
      isRepo ← look_files (λ f, is_dir f repoDir);
      isBuild ← look_files (λ f, is_dir f buildDir);
      moved ← (if (isRepo : bool) then moveContents repoDir versionDir
               else if (isBuild : bool) then
                 _ ← on_files (λ f, MkdirAll f (versionDir +:+ "/build"));
                 moveContents buildDir (versionDir +:+ "/build")
               else mret false);
      if negb moved then give_up_version versionDir
      else _ ← precacheDenoDeps entry version; mret true.

Definition installVersion (entry : ModuleRegistryEntry) (version : string) : Act Sys bool :=
  let versionDir := version_dir (ModuleID entry) version in
  made ← on_files (λ f, MkdirAll f versionDir);
  if negb made then mret false
  else
    let url := getDownloadURL entry version in
    if String.eqb url "" then mret false
    else if String.eqb (Runtime entry) "go" then
      ok ← on_host (downloadFile url (versionDir +:+ "/" +:+ ModuleID entry));
      if negb ok then give_up_version versionDir else mret true
    else
      tmpDir ← look_files tempDir;
      made ← on_files (λ f, mkdir f tmpDir);
      if negb made then mret false
      else
        ok ← install_archive entry version url tmpDir;
        _ ← change_files (λ f, RemoveAll f tmpDir);
        mret ok.

(** ** self_update.go *)

Definition update_script : string :=
  lines ["#!/bin/bash"; "set -e"; "sleep 1"; "systemctl daemon-reload"; "systemctl restart " +:+ unitName selfModuleID;
         "rm -f " +:+ str [dquote] +:+ "$0" +:+ str [dquote]].

(** The new version is linked, and a script that restarts the unit is left to itself. *)
Definition selfUpdate (version : string) : Act Sys bool :=
  installed ← look_files (isVersionInstalled selfModuleID version);
  ready ← (if (installed : bool) then mret true else installVersion selfEntry version);
  if negb ready then mret false
  else
    linked ← on_files (updateSymlink selfEntry version);
    if negb linked then mret false
    else
      let scriptPath := BinDir config +:+ "/update-orchestrator.sh" in
      written ← on_files (λ f, WriteFile f scriptPath update_script);
      if negb written then mret false else on_host (spawn "bash" [scriptPath]).

(** ** watcher.go on bare metal *)

(** A status with what is installed now. An active version or a state that the caller has
    already is not looked up again. *)
Definition report_unit (entry : ModuleRegistryEntry) (active state : option string) (reconcile lastError : string) : Act Sys unit :=
  installed ← look_files (listInstalledVersions (ModuleID entry));
  active ← match active with Some v => mret v | None => look_files (getActiveVersion entry) end;
  state ← match state with Some st => mret st | None => getSystemdState (ModuleID entry) end;
  on_bus (reportStatus entry (mkOpts installed active state reconcile lastError) now).

(** The steps give whether to go on; one that gives [false] has reported why. *)
Definition installed_step (entry : ModuleRegistryEntry) (version : string) : Act Sys bool :=
  installed ← look_files (isVersionInstalled (ModuleID entry) version);
  if (installed : bool) then mret true
  else
    online ← on_host checkInternet;
    if negb online then
      _ ← report_unit entry None None "version_unavailable" ("Version " +:+ version +:+ " not installed and no internet");
      mret false
    else
      _ ← report_unit entry None None "downloading" "";
      ok ← installVersion entry version;
      if (ok : bool) then mret true
      else _ ← report_unit entry None None "error" ("Failed to download/install " +:+ version); mret false.

Definition deps_step (entry : ModuleRegistryEntry) : Act Sys bool :=
  if bool_decide (AptDeps entry = []) && bool_decide (BuildDeps entry = []) then mret true
  else
    _ ← report_unit entry None None "installing_deps" "";
    ok ← on_host (ensureDeps entry);
    if (ok : bool) then mret true
    else _ ← report_unit entry None None "error" "Failed to install system dependencies"; mret false.

Definition activate_step (entry : ModuleRegistryEntry) (version : string) : Act Sys bool :=
  current ← look_files (getActiveVersion entry);
  if String.eqb current version then mret true
  else
    _ ← report_unit entry (Some current) None "installing" "";
    state ← getSystemdState (ModuleID entry);
    _ ← (if String.eqb state "active" then systemctlStop (ModuleID entry) else mret false);
    ok ← on_files (updateSymlink entry version);
    if negb ok then
      _ ← report_unit entry (Some current) None "error" "Failed to update symlink";
      mret false
    else
      _ ← writeSystemdUnit entry version None;
      _ ← systemctlDaemonReload;
      _ ← systemctlEnable (ModuleID entry);
      mret true.

(** The configuration for the unit, [None] for the nil map; the names that are missing. *)
Definition config_step (entry : ModuleRegistryEntry) (d : DesiredServiceKV) : Act Sys (option (gmap string string) * list string) :=
  if negb (bool_decide (RequiredConfig entry = [])) && dsRunning d then
    c ← get_bus (λ b, getModuleConfig o b (ModuleID entry));
    mret (Some c, missing_config entry c)
  else mret (None, []).

Definition run_step (entry : ModuleRegistryEntry) (d : DesiredServiceKV) (version : string) (c : option (gmap string string)) : Act Sys bool :=
  state ← getSystemdState (ModuleID entry);
  if dsRunning d && negb (String.eqb state "active") then
    _ ← writeSystemdUnit entry version c;
    _ ← systemctlDaemonReload;
    _ ← report_unit entry (Some version) (Some state) "starting" "";
    ok ← systemctlStart (ModuleID entry);
    if (ok : bool) then mret true
    else
      finalState ← getSystemdState (ModuleID entry);
      _ ← report_unit entry (Some version) (Some finalState) "error" ("Failed to start " +:+ unitName (ModuleID entry));
      mret false
  else if negb (dsRunning d) && String.eqb state "active" then
    _ ← report_unit entry (Some version) (Some state) "stopping" "";
    _ ← systemctlStop (ModuleID entry);
    mret true
  else mret true.

(** From the link on. *)
Definition activate_and_run (entry : ModuleRegistryEntry) (d : DesiredServiceKV) (version : string) : Act Sys unit :=
  ok ← activate_step entry version;
  if negb ok then mret tt
  else
    cm ← config_step entry d;
    if negb (bool_decide (cm.2 = [])) then
      report_unit entry (Some version) None "needs_config" ("Missing required config: " +:+ fmt_strings cm.2)
    else
      ok ← run_step entry d version cm.1;
      if negb ok then mret tt else report_unit entry (Some version) None "ok" "".

Definition reconcileEntry (entry : ModuleRegistryEntry) (d : DesiredServiceKV) : Act Sys unit :=
  version ← resolveVersion entry (dsVersion d);
  if String.eqb version "" then
    report_unit entry None None "version_unavailable" ("Cannot resolve version " +:+ quote (dsVersion d) +:+ " (offline?)")
  else
    ok ← installed_step entry version;
    if negb ok then mret tt
    else
      ok ← deps_step entry;
      if negb ok then mret tt else activate_and_run entry d version.

Definition reconcileSelf (d : DesiredServiceKV) : Act Sys unit :=
  current ← look_files (getActiveVersion selfEntry);
  resolved ← resolveVersion selfEntry (dsVersion d);
  if negb (String.eqb resolved "") && negb (String.eqb resolved current) then _ ← selfUpdate resolved; mret tt else mret tt.

Definition reconcileModule (d : DesiredServiceKV) : Act Sys unit :=
  match getRegistryEntry registry (dsModuleID d) with
  | None => mret tt
  | Some entry => if String.eqb (dsModuleID d) selfModuleID then reconcileSelf d else reconcileEntry entry d
  end.

Fixpoint reconcile_units (l : list DesiredServiceKV) : Act Sys unit :=
  match l with [] => mret tt | d :: l => _ ← reconcileModule d; reconcile_units l end.

Definition remove_status (key : string) (b : Bus) : Bus := with_status b (delete key (bStatus b)).

(** [fullSweep] on bare metal. *)
Definition sweep_units : Act Sys unit :=
  desired ← get_bus (getAllDesiredServices o);
  _ ← reconcile_units desired;
  on_bus (λ b, fold_left (λ b key, if existsb (λ d, String.eqb (dsModuleID d) key) desired then b else remove_status key b)
    (o _ (bStatus b)).*1 b).

(** The watch of desired_services saw a deletion. *)
Definition watch_delete_unit (key : string) : Act Sys unit :=
  state ← getSystemdState key;
  _ ← (if String.eqb state "active" then systemctlStop key else mret false);
  on_bus (remove_status key).

(** *** The migration *)

Definition marker_path : string := ConfigDir config +:+ "/.orchestrator-migrated".
Definition isMigrated (f : fs) : bool := bool_decide (is_Some (stat f marker_path)).
Definition writeMigrationMarker (f : fs) : bool * fs := WriteFile f marker_path ("Migrated at " +:+ rfc3339 +:+ nl).

Definition isLegacyInstalled (entry : ModuleRegistryEntry) (f : fs) : bool :=
  match lstat f (link_path entry) with
  | Some (File _) => String.eqb (Runtime entry) "go"
  | Some Dir => negb (String.eqb (Runtime entry) "go")
  | _ => false
  end.

(** The module moves to the version [unknown], and a link takes its place. *)
Definition migrateModule (entry : ModuleRegistryEntry) (f : fs) : bool * fs :=
  let versionDir := version_dir (ModuleID entry) "unknown" in
  let f := snd (MkdirAll f versionDir) in
  let legacyPath := link_path entry in
  let newPath := if String.eqb (Runtime entry) "go" then versionDir +:+ "/" +:+ ModuleID entry else versionDir in
  let '(ok, f) := Rename f legacyPath newPath in
  if ok then symlink f newPath legacyPath else (false, f).

Definition migrate_entry (entry : ModuleRegistryEntry) : Act Sys unit :=
  legacy ← look_files (isLegacyInstalled entry);
  if negb legacy then mret tt
  else
    ok ← on_files (migrateModule entry);
    if negb ok then mret tt
    else
      state ← getSystemdState (ModuleID entry);
      on_bus (putDesiredService (mkDesired (ModuleID entry) "unknown" (String.eqb state "active") now)).

Fixpoint migrate_all (l : list ModuleRegistryEntry) : Act Sys unit :=
  match l with [] => mret tt | e :: l => _ ← migrate_entry e; migrate_all l end.

Definition runMigration : Act Sys unit :=
  done ← look_files isMigrated;
  if (done : bool) then mret tt
  else _ ← migrate_all registry; _ ← on_files writeMigrationMarker; mret tt.

(** The part of [Module.Start] before the first sweep. *)
Definition prepare_host : Act Sys unit :=
  _ ← on_files (λ f, MkdirAll f (VersionsDir config));
  _ ← on_files (λ f, MkdirAll f (CacheDir config +:+ "/deno/versions"));
  runMigration.

(** ** command.go *)

Definition handleCheckInternet (requestID : string) : Act Sys OrchestratorCommandResponse :=
  online ← on_host checkInternet;
  mret (mkResponse requestID true "" [] (Some online) None now).

Definition handleRestartService (requestID modID : string) : Act Sys OrchestratorCommandResponse :=
  if String.eqb modID "" then mret (failure requestID "moduleId is required for restart-service" now)
  else
    found ← unitExists modID;
    if negb found then mret (failure requestID ("Service unit not found: " +:+ modID) now)
    else
      ok ← systemctlRestart modID;
      mret (if (ok : bool) then success requestID now else failure requestID ("Failed to restart " +:+ modID) now).

Definition handleGetModuleVersions (requestID modID : string) : Act Sys OrchestratorCommandResponse :=
  match module_of registry modID "get-module-versions" with
  | inl e => mret (failure requestID e now)
  | inr entry =>
      installed ← look_files (listInstalledVersions modID);
      active ← look_files (getActiveVersion entry);
      latest ← resolveLatestVersion entry;
      mret (mkResponse requestID true "" [] None (Some (mkVersionInfo modID installed latest active)) now)
  end.

(** The handler of orchestrator.command; a request that does not parse is its error. *)
Definition handle_command (req : string + OrchestratorCommandRequest) : Act Sys OrchestratorCommandResponse :=
  match req with
  | inl e => mret (failure "unknown" e now)
  | inr req =>
      if String.eqb (rqAction req) "get-registry" then mret (handleGetRegistry registry (rqRequestID req) now)
      else if String.eqb (rqAction req) "check-internet" then handleCheckInternet (rqRequestID req)
      else if String.eqb (rqAction req) "get-module-versions" then handleGetModuleVersions (rqRequestID req) (rqModuleID req)
      else if String.eqb (rqAction req) "restart-service" then handleRestartService (rqRequestID req) (rqModuleID req)
      else mret (failure (rqRequestID req) ("Unknown action: " +:+ rqAction req) now)
  end.
End Metal.
