(* ===== verification/OrchestratorVersions.v ===== *)
(** Versions, links and installations of the orchestrator on bare metal: the highest version
    on disk, the round trip of the active version through its link, and what becomes of the
    modules of the registry, all of which are embedded in one binary. *)

From stdpp Require Import sorting.
From S2P Require Import Topics.
From S2P Require Export OrchestratorUnits.

#[local] Open Scope Z_scope.

(** ** The order of versions *)

Definition parts_of (v : string) (i : nat) : Z := part (split dot_ v) i.

(** The numbers of a version are far from the ends of an int. *)
Definition moderate (v : string) : Prop := ∀ i, - 2 ^ 62 <= parts_of v i < 2 ^ 62.

Lemma part_beyond v i : (length (split dot_ v) ≤ i)%nat → parts_of v i = 0.
Proof. intros Hi. unfold parts_of, part. by rewrite lookup_ge_None_2. Qed.

(** Lexicographic comparison of the numbers at the given places. *)
Fixpoint lex_le (a b : nat → Z) (idx : list nat) : Prop :=
  match idx with [] => True | i :: idx => a i < b i ∨ a i = b i ∧ lex_le a b idx end.

Lemma lex_le_trans a b c idx : lex_le a b idx → lex_le b c idx → lex_le a c idx.
Proof. induction idx as [|i idx IH]; cbn; [done|]. intros [?|[? ?]] [?|[? ?]]; first [left; lia|right; split; [lia|auto]]. Qed.

Lemma compare_parts_lex a b idx : moderate a → moderate b →
  compare_parts (split dot_ a) (split dot_ b) idx ≤ 0 ↔ lex_le (parts_of a) (parts_of b) idx.
Proof.
  intros Ha Hb. induction idx as [|i idx IH]; cbn; [naive_solver lia|]. fold (parts_of a i) (parts_of b i).
  case_if; bool_to_prop; [naive_solver lia|]. specialize (Ha i). specialize (Hb i).
  rewrite wraps_small by (unfold in_s; lia). naive_solver lia.
Qed.

(** Places where both versions have no number do not matter. *)
Lemma lex_le_beyond a b n k : (∀ i, (n ≤ i)%nat → a i = 0 ∧ b i = 0) → (n ≤ k)%nat →
  lex_le a b (seq 0 k) ↔ lex_le a b (seq 0 n).
Proof.
  intros Hz Hk. replace k with (n + (k - n))%nat by lia. rewrite seq_app. cbn.
  assert (Htail : ∀ m j, (n ≤ j)%nat → lex_le a b (seq j m)).
  { induction m as [|m IH]; intros j Hj; cbn; [done|]. right. split; [by destruct (Hz j Hj) as [-> ->]|]. apply IH. lia. }
  generalize (seq 0 n) as idx. induction idx as [|i idx IH]; cbn; [split; auto|]. by rewrite IH.
Qed.

Lemma semver_le_lex a b k : moderate a → moderate b →
  (length (split dot_ a) ≤ k)%nat → (length (split dot_ b) ≤ k)%nat →
  semver_le a b ↔ lex_le (parts_of a) (parts_of b) (seq 0 k).
Proof.
  intros Ha Hb La Lb. unfold semver_le, compareSemver. rewrite compare_parts_lex by done.
  symmetry. apply lex_le_beyond; [|lia]. intros i Hi. split; apply part_beyond; lia.
Qed.

Lemma semver_le_trans a b c : moderate a → moderate b → moderate c → semver_le a b → semver_le b c → semver_le a c.
Proof.
  intros Ha Hb Hc. set (k := (length (split dot_ a) + length (split dot_ b) + length (split dot_ c))%nat).
  rewrite !(semver_le_lex _ _ k) by (done || lia). apply lex_le_trans.
Qed.

(** One of the two differences is not positive, even when they overflow. *)
Lemma wraps_sub_total x y : wraps 64 (x - y) ≤ 0 ∨ wraps 64 (y - x) ≤ 0.
Proof.
  unfold wraps. replace (y - x) with (- (x - y)) by lia. generalize (x - y) as z. intros z.
  pose proof (Z.mod_pos_bound (z + 2 ^ (64 - 1)) (2 ^ 64) ltac:(lia)).
  pose proof (Z.mod_pos_bound (- z + 2 ^ (64 - 1)) (2 ^ 64) ltac:(lia)).
  pose proof (Z.div_mod (z + 2 ^ (64 - 1)) (2 ^ 64) ltac:(lia)).
  pose proof (Z.div_mod (- z + 2 ^ (64 - 1)) (2 ^ 64) ltac:(lia)). lia.
Qed.

#[local] Instance semver_le_total : Total semver_le.
Proof.
  intros a b. unfold semver_le, compareSemver. rewrite (Nat.max_comm (length (split dot_ b))).
  generalize (seq 0 (Nat.max (length (split dot_ a)) (length (split dot_ b)))) as idx.
  induction idx as [|i idx IH]; cbn; [by left|]. rewrite (Z.eqb_sym (part (split dot_ b) i)).
  case_if; [done|]. apply wraps_sub_total.
Qed.

Lemma Sorted_last l x : Sorted semver_le (l ++ [x]) → Forall moderate (l ++ [x]) → Forall (λ v, semver_le v x) l.
Proof.
  induction l as [|v l IH]; [constructor|]. cbn. intros [Hs Hd]%Sorted_inv [Hv Hm]%Forall_cons.
  pose proof (IH Hs Hm) as Hl. constructor; [|done].
  apply Forall_app in Hm as [Hml [Hx _]%Forall_cons].
  destruct l as [|v' l]; cbn in Hd; inversion Hd; subst; [done|].
  apply Forall_cons in Hl as [Hv' _]. apply Forall_cons in Hml as [Hmv' _]. by apply (semver_le_trans v v' x).
Qed.

Lemma semver_le_refl v : semver_le v v.
Proof. by destruct (semver_le_total v v). Qed.

(** Offline, [latest] is a version that is installed, and no installed version is higher. *)
Theorem highest_version_max versions : versions ≠ [] → Forall moderate versions →
  highest_version versions ∈ versions ∧ ∀ v, v ∈ versions → compareSemver v (highest_version versions) ≤ 0.
Proof.
  intros Hne Hm. unfold highest_version. pose proof (merge_sort_Permutation semver_le versions) as Hp.
  pose proof (Sorted_merge_sort semver_le versions) as Hs.
  destruct (merge_sort semver_le versions) as [|x l] using rev_ind; [by apply Permutation_nil_l in Hp|].
  rewrite List.last_last. split; [rewrite <- Hp; set_solver|].
  intros v Hv. rewrite <- Hp in Hv. rewrite <- Hp in Hm.
  apply elem_of_app in Hv as [Hv|Hv%list_elem_of_singleton]; [|subst v; apply semver_le_refl].
  exact (proj1 (Forall_forall _ _) (Sorted_last l x Hs Hm) v Hv).
Qed.

Definition three_versions : list string := ["1.9.0"; "1.10.0"; "0.99"].

Lemma version_moderate v : Forall (λ s, - 2 ^ 62 <= fst (atoi s) < 2 ^ 62) (split dot_ v) → moderate v.
Proof.
  intros Hv i. unfold parts_of, part. destruct (split dot_ v !! i) as [s|] eqn:E; [|lia].
  exact (proj1 (Forall_forall _ _) Hv s (list_elem_of_lookup_2 _ _ _ E)).
Qed.

Lemma highest_version_max_witness : highest_version three_versions = "1.10.0"
  ∧ ∀ v, v ∈ three_versions → compareSemver v (highest_version three_versions) ≤ 0.
Proof.
  split; [vm_compute; reflexivity|]. apply highest_version_max; [discriminate|].
  repeat constructor; apply version_moderate, (bool_decide_unpack _); vm_compute; exact I.
Defined.

(** A pre-release is not a number: it counts as 0, and the two orders of the list give
    different versions. *)
Example prerelease_is_zero : compareSemver "1.0.0-rc1" "1.0.0" = 0
  ∧ highest_version ["1.0.5-rc1"; "1.0.0"] ≠ highest_version ["1.0.0"; "1.0.5-rc1"].
Proof. split; [vm_compute; reflexivity|]. intros E. vm_compute in E. discriminate E. Qed.

(** ** The active version *)

Lemma split_slash a b : split slash (a +:+ "/" +:+ b) = split slash a ++ split slash b.
Proof.
  unfold split. rewrite chars_app. change (chars ("/" +:+ b)) with (slash :: chars b).
  by rewrite split_chars_app, fmap_app.
Qed.

Lemma split_name s : has_slash s = false → split slash s = [s].
Proof.
  intros Hs. unfold split. rewrite split_chars_none; [cbn; by rewrite str_chars|].
  intros Hin. unfold has_slash in Hs. apply not_true_iff_false in Hs. apply Hs, existsb_exists.
  exists slash. split; [by apply list_elem_of_In|apply Ascii.eqb_refl].
Qed.

Lemma after_versions_found l id v rest : "versions" ∉ l → after_versions (l ++ "versions" :: id :: v :: rest) = v.
Proof.
  induction l as [|p l IH]; [done|]. intros [Hp Hl]%not_elem_of_cons.
  change ((p :: l) ++ "versions" :: id :: v :: rest) with (p :: (l ++ "versions" :: id :: v :: rest)).
  rewrite <- (IH Hl) at 2. cbn [after_versions].
  destruct (String.eqb_spec p "versions") as [->|_]; [done|].
  destruct l as [|p2 [|p3 l]]; done.
Qed.

Section Links.
Variable config : OrchestratorConfig.
(** The versions are in a directory [versions], and no directory above it has that name. *)
Variable base : string.
Hypothesis Hdir : VersionsDir config = base +:+ "/" +:+ "versions".
Hypothesis Hbase : "versions" ∉ split slash base.

Lemma after_versions_target e version : has_slash (ModuleID e) = false → has_slash version = false →
  after_versions (split slash (link_target config e version)) = version.
Proof.
  intros Hid Hv. unfold link_target, version_dir, versions_dir. rewrite Hdir.
  assert (Hs : ∀ s, split slash (((base +:+ "/" +:+ "versions") +:+ "/" +:+ ModuleID e) +:+ "/" +:+ s)
    = split slash base ++ "versions" :: ModuleID e :: split slash s).
  { intros s. rewrite !split_slash. rewrite (split_name (ModuleID e)), <- !app_assoc by done. reflexivity. }
  case_if.
  - rewrite <- (string_app_assoc _ ("/" +:+ version)). rewrite <- (string_app_assoc "/" version).
    rewrite Hs, split_slash, (split_name version) by done. by apply after_versions_found.
  - rewrite Hs, (split_name version) by done. by apply after_versions_found.
Qed.

(** The active version is read back from the link that was set: after a successful
    [updateSymlink], [getActiveVersion] of any entry that shares the link is that version. *)
Theorem active_version_roundtrip e e' version f f' : has_slash (ModuleID e) = false → has_slash version = false →
  updateSymlink config e version f = (true, f') → link_path config e' = link_path config e →
  getActiveVersion config e' f' = version.
Proof using Hdir Hbase.
  intros Hid Hv Hu Hl. unfold getActiveVersion. unfold updateSymlink in Hu.
  rewrite Hl, (readlink_symlink _ _ _ _ Hu). by apply after_versions_target.
Qed.

End Links.

(** ** The modules of the registry on bare metal *)

(** A runtime that the installation knows. *)
Definition native (e : ModuleRegistryEntry) : bool := existsb (String.eqb (Runtime e)) ["go"; "deno"; "deno-web"].

Lemma registry_embedded all e : e ∈ moduleRegistry all → native e = false ∧ Repo e = "tentacle-next" ∧ has_slash (ModuleID e) = false.
Proof.
  revert e. apply Forall_forall. by destruct all; repeat constructor.
Qed.

Lemma not_native e : native e = false →
  String.eqb (Runtime e) "go" = false ∧ String.eqb (Runtime e) "deno" = false ∧ String.eqb (Runtime e) "deno-web" = false.
Proof. unfold native. cbn. rewrite !orb_false_iff. naive_solver. Qed.

(** All modules of the registry share the link of their repository. *)
Lemma registry_link config all e e' : e ∈ moduleRegistry all → e' ∈ moduleRegistry all → link_path config e' = link_path config e.
Proof.
  intros (Hn & Hr & _)%registry_embedded (Hn' & Hr' & _)%registry_embedded.
  unfold link_path. apply not_native in Hn as [-> _], Hn' as [-> _]. by rewrite Hr, Hr'.
Qed.

Section Bare.
Context {Sys : Type} `{System Sys} `{UnicodeTables}.
Variables (config : OrchestratorConfig) (o : ranging) (now nanos : Z).
Variables (goarch : string) (tag_name : string → option string) (tempDir : fs → string) (rfc3339 : string).

Notation install := (installVersion (Sys := Sys) config goarch tempDir).

Lemma install_unknown e version s : native e = false →
  install e version s = (false, snd (on_files (λ f, MkdirAll f (version_dir config (ModuleID e) version)) s)).
Proof.
  intros (E1 & E2 & E3)%not_native. unfold installVersion, getDownloadURL. rewrite E1, E2, E3.
  rewrite act_bind_eq. by destruct (on_files _ s) as [[] s'].
Qed.

(** On bare metal no module of the registry can be installed: all of them are embedded,
    a runtime without a download. The attempt fails, but it leaves the directory of the
    version behind, and that directory is what the next reconciliation takes for an
    installed version; the unit file it then wants to start is never written. *)
Theorem registry_never_installs all e version (s : Metal Sys) : e ∈ moduleRegistry all →
  fst (MkdirAll (files (mHost s)) (version_dir config (ModuleID e) version)) = true →
  fst (install e version s) = false
  ∧ isVersionInstalled config (ModuleID e) version (files (mHost (snd (install e version s)))) = true
  ∧ ∀ s' c, fst (writeSystemdUnit config o e version c s') = false.
Proof.
  intros (Hn & _ & _)%registry_embedded Hok. rewrite install_unknown by done. split; [done|]. split.
  - unfold isVersionInstalled, is_dir, on_files, on_host. cbn.
    destruct (MkdirAll (files (mHost s)) (version_dir config (ModuleID e) version)) as [ok f] eqn:E. cbn in *. subst ok.
    apply bool_decide_eq_true. by apply MkdirAll_dir in E.
  - intros s' c. apply not_native in Hn as (E1 & E2 & E3). unfold writeSystemdUnit, unit_command. rewrite E1, E2, E3.
    by rewrite !act_bind_eq.
Qed.

(** A module that is a directory cannot be migrated. The migration first makes the
    directory of the version and then renames the module onto it, which [os.Rename] refuses:
    nothing is moved, no desired service is stored, and the marker keeps the migration from
    being tried again. *)
Theorem directory_migration_fails e (s : Metal Sys) : String.eqb (Runtime e) "go" = false →
  isLegacyInstalled config e (files (mHost s)) = true →
  fst (MkdirAll (files (mHost s)) (version_dir config (ModuleID e) "unknown")) = true →
  (∀ t, files (mHost s) !! version_dir config (ModuleID e) "unknown" ≠ Some (Link t)) →
  mBus (snd (migrate_entry config now e s)) = mBus s
  ∧ files (mHost (snd (migrate_entry config now e s))) = snd (MkdirAll (files (mHost s)) (version_dir config (ModuleID e) "unknown")).
Proof.
  intros Hgo Hleg Hok Hl. destruct (MkdirAll (files (mHost s)) (version_dir config (ModuleID e) "unknown")) as [ok f] eqn:E.
  cbn in Hok. subst ok. pose proof (MkdirAll_entry _ _ _ E Hl) as Hd. unfold migrate_entry.
  rewrite act_bind_eq. unfold look_files. cbn [fst snd]. rewrite Hleg. cbn [negb].
  rewrite act_bind_eq. unfold on_files, on_host, migrateModule. rewrite Hgo, E. cbn [snd].
  by rewrite (Rename_onto_dir _ _ _ Hd).
Qed.

End Bare.

(** ** Examples *)

Definition default_config : OrchestratorConfig := loadConfig (λ _, "").

Definition installed_files : fs :=
  <["/opt" := Dir]> (<["/opt/tentacle" := Dir]> (<["/opt/tentacle/services" := Dir]> (<["/opt/tentacle/services/tentacle-next" := Dir]> ∅))).

Definition idle_system : System unit := {|
  exec := λ _ _ _ _ h, ("inactive", "", true, h);
  spawn := λ _ _ h, (true, h);
  http := λ _ _ r, (None, r);
|}.

#[local] Existing Instances idle_system ascii_tables.

Definition gateway_entry : ModuleRegistryEntry := embedded false "gateway" "Device gateway (RBE, UDT assembly)" [] [].
Definition snmp_entry : ModuleRegistryEntry := embedded false "snmp" "SNMP scanner & trap listener" [] [].

(** The link of the gateway is the link of every module. *)
Lemma active_version_roundtrip_witness : getActiveVersion default_config snmp_entry
  (snd (updateSymlink default_config gateway_entry "1.2.0" installed_files)) = "1.2.0".
Proof.
  apply (active_version_roundtrip default_config "/opt/tentacle") with (e := gateway_entry) (f := installed_files).
  - reflexivity.
  - apply (bool_decide_unpack _). vm_compute. exact I.
  - reflexivity.
  - reflexivity.
  - vm_compute. reflexivity.
  - reflexivity.
Defined.

Definition idle_machine : Metal unit := mkMetal (mkHost installed_files tt) (mkBus ∅ ∅ ∅) ∅.

Lemma registry_never_installs_witness :
  isVersionInstalled default_config "gateway" "1.2.0" (files (mHost (snd
    (installVersion default_config "amd64" (λ _, "/tmp/tentacle-install-1") gateway_entry "1.2.0" idle_machine)))) = true.
Proof.
  apply (registry_never_installs default_config map_order "amd64" (λ _, "/tmp/tentacle-install-1") true).
  - apply list_elem_of_here.
  - vm_compute. reflexivity.
Defined.

Lemma directory_migration_fails_witness :
  isLegacyInstalled default_config gateway_entry installed_files = true
  ∧ mBus (snd (migrate_entry default_config 7 gateway_entry idle_machine)) = mkBus ∅ ∅ ∅.
Proof.
  split; [vm_compute; reflexivity|].
  apply (directory_migration_fails default_config 7 gateway_entry idle_machine).
  - reflexivity.
  - vm_compute. reflexivity.
  - vm_compute. reflexivity.
  - intros t E. vm_compute in E. discriminate E.
Defined.

(** The orchestrator is not in its own registry, so a desired service of its own name does
    nothing: the self-update is never reached. *)
Lemma self_update_unreachable {Sys} `{System Sys} `{UnicodeTables} all config o now nanos goarch tag_name tempDir d (s : Metal Sys) :
  dsModuleID d = selfModuleID →
  reconcileModule (moduleRegistry all) config o now nanos goarch tag_name tempDir d s = (tt, s).
Proof. intros E. unfold reconcileModule. rewrite E. by destruct all. Qed.
