(* ===== verification/PlcRuntime.v ===== *)
(** The PLC module: scanner_bridge.go, task.go and plc.go of internal/plc. A module's handlers
    run under its mutex, so each is one step; what a step asks of the bus is a list of
    effects. Applying a configuration stops the tasks, the publisher and the bridge first and
    waits for them, so compiling runs alone. *)

From S2P Require Export Prelude GoValue PlcTypes GatewayConfig PlcVariables PlcLadder PlcEngine.
From S2P Require Topics ModbusClient ChannelBus.
From S2P Require Gateway.
Import Topics (SanitizeForSubject).
Import Gateway (scannerRequest, EthernetIPRequest, OpcUARequest, SNMPRequest, ModbusRequest, push).

#[local] Open Scope Z_scope.

(** ** The scanner bridge *)

(** The state of [subscribe]'s loop: the tag index and the requests, one per device. *)
Record bridgeAcc := mkAcc {
  baIndex : gmap string (list string);
  baEip : gmap string EthernetIPSubscribeRequest;
  baModbus : gmap string ModbusScannerSubscribeRequest;
  baOpcua : gmap string OpcUASubscribeRequest;
  baSnmp : gmap string SNMPSubscribeRequest;
}.

Definition acc0 : bridgeAcc := mkAcc ∅ ∅ ∅ ∅ ∅.

Definition bridge_key (protocol deviceID tag : string) : string := protocol +:+ "." +:+ deviceID +:+ "." +:+ tag.
Definition plc_subscriber (plcID : string) : string := "plc-" +:+ plcID.

Definition bridge_modbus_tag (src : PlcVariableSourceKV) : ModbusClient.ModbusTagConfig :=
  ModbusClient.mkTag (psTag src) (default 0 (psAddress src))
    (match psFunctionCode src with Some fc => FunctionCodeToString fc | None => "holding" end)
    (if String.eqb (psModbusDatatype src) "" then "uint16" else psModbusDatatype src)
    (psByteOrder src) false.

Definition eip_add_tag (r : EthernetIPSubscribeRequest) (src : PlcVariableSourceKV) : EthernetIPSubscribeRequest :=
  mkEip (erSubscriberID r) (erDeviceID r) (erHost r) (erPort r) (erSlot r) (erTags r ++ [psTag src]) (erScanRate r)
    (if String.eqb (psCipType src) "" then erCipTypes r else <[psTag src := psCipType src]> (erCipTypes r))
    (erStructTypes r) (erDeadbands r) (erDisableRBE r).
Definition modbus_add_tag (r : ModbusScannerSubscribeRequest) (src : PlcVariableSourceKV) : ModbusScannerSubscribeRequest :=
  mkModbus (mrSubscriberID r) (mrDeviceID r) (mrHost r) (mrPort r) (mrUnitID r) (mrByteOrder r) (mrScanRate r)
    (mrTags r ++ [bridge_modbus_tag src]).
Definition opcua_add_tag (r : OpcUASubscribeRequest) (src : PlcVariableSourceKV) : OpcUASubscribeRequest :=
  mkOpcUA (orSubscriberID r) (orDeviceID r) (orEndpointURL r) (orNodeIDs r ++ [psTag src]) (orScanRate r).
Definition snmp_add_tag (r : SNMPSubscribeRequest) (src : PlcVariableSourceKV) : SNMPSubscribeRequest :=
  mkSnmp (srSubscriberID r) (srDeviceID r) (srHost r) (srPort r) (srVersion r) (srCommunity r) (srV3Auth r)
    (srOIDs r ++ [psTag src]) (srScanRate r).

Definition scan_rate (device : PlcDeviceConfigKV) : Z := default 1000 (pdScanRate device).

Definition new_eip (plcID deviceID : string) (device : PlcDeviceConfigKV) : EthernetIPSubscribeRequest :=
  mkEip (plc_subscriber plcID) deviceID (pdHost device) (default 44818 (pdPort device)) (default 0 (pdSlot device)) []
    (scan_rate device) ∅ ∅ ∅ ∅.
Definition new_modbus (plcID deviceID : string) (device : PlcDeviceConfigKV) : ModbusScannerSubscribeRequest :=
  mkModbus (plc_subscriber plcID) deviceID (pdHost device) (default 502 (pdPort device)) (default 1 (pdUnitID device)) ""
    (scan_rate device) [].
Definition new_opcua (plcID deviceID : string) (device : PlcDeviceConfigKV) : OpcUASubscribeRequest :=
  mkOpcUA (plc_subscriber plcID) deviceID (pdEndpointURL device) [] (scan_rate device).
Definition new_snmp (plcID deviceID : string) (device : PlcDeviceConfigKV) : SNMPSubscribeRequest :=
  mkSnmp (plc_subscriber plcID) deviceID (pdHost device) (default 161 (pdPort device)) (pdVersion device)
    (pdCommunity device) None [] (scan_rate device).

(** The request under a key, made when there is none, with one more tag. *)
Definition upsert {R} (m : gmap string R) (dk : string) (new : R) (add : R → R) : gmap string R :=
  <[dk := add (default new (m !! dk))]> m.

(** One variable of [subscribe]'s loop. *)
Definition bridge_add (plcID : string) (c : PlcConfigKV) (a : bridgeAcc) (kv : string * PlcVariableConfigKV) : bridgeAcc :=
  let '(varID, vcfg) := kv in
  match pvSource vcfg with
  | None => a
  | Some src =>
      if negb (String.eqb (pvDirection vcfg) "input") then a
      else match pcDevices c !! psDeviceID src with
      | None => a
      | Some device =>
          let idx := push (baIndex a) (bridge_key (psProtocol src) (psDeviceID src) (SanitizeForSubject (psTag src))) varID in
          let dk := psProtocol src +:+ ":" +:+ psDeviceID src in
          if String.eqb (psProtocol src) "ethernetip" then
            mkAcc idx (upsert (baEip a) dk (new_eip plcID (psDeviceID src) device) (λ r, eip_add_tag r src))
              (baModbus a) (baOpcua a) (baSnmp a)
          else if String.eqb (psProtocol src) "modbus" then
            mkAcc idx (baEip a) (upsert (baModbus a) dk (new_modbus plcID (psDeviceID src) device) (λ r, modbus_add_tag r src))
              (baOpcua a) (baSnmp a)
          else if String.eqb (psProtocol src) "opcua" then
            mkAcc idx (baEip a) (baModbus a) (upsert (baOpcua a) dk (new_opcua plcID (psDeviceID src) device) (λ r, opcua_add_tag r src))
              (baSnmp a)
          else if String.eqb (psProtocol src) "snmp" then
            mkAcc idx (baEip a) (baModbus a) (baOpcua a)
              (upsert (baSnmp a) dk (new_snmp plcID (psDeviceID src) device) (λ r, snmp_add_tag r src))
          else mkAcc idx (baEip a) (baModbus a) (baOpcua a) (baSnmp a)
      end
  end.

(** What the module asks of the bus. *)
Inductive plcEffect :=
  | PPut (bucket key : string) (r : scannerRequest)
  | PData (subject : string) (msg : PlcDataMessage)
  | PReply (vars : list VariableInfo)
  | PPutConfig (key : string) (c : PlcConfigKV).

Inductive plcHandler :=
  | PScannerData
  | PConfigWatch
  | PShutdown
  | PVariables.

Record plcSub := mkPlcSub { plSubject : string; plHandler : plcHandler }.

Record scannerBridge := mkBridge {
  sbTagIndex : gmap string (list string);
  sbSubs : list plcSub;
}.

Section Bridge.
Context (refused : string → bool).
Context (iter : ∀ A : Type, gmap string A → list (string * A)).
Arguments iter {A} _.

Definition plc_subscribe (subject : string) (h : plcHandler) : option plcSub :=
  if refused subject then None else Some (mkPlcSub subject h).

Definition writeSubscription (plcID deviceID : string) (protocol : string) (r : scannerRequest) : plcEffect :=
  PPut (ScannerBucket protocol) (plc_subscriber plcID +:+ ":" +:+ deviceID) r.

Definition bridge_requests (plcID : string) (a : bridgeAcc) : list plcEffect :=
  map (λ kv, writeSubscription plcID (erDeviceID kv.2) "ethernetip" (EthernetIPRequest kv.2)) (iter (baEip a)) ++
  map (λ kv, writeSubscription plcID (mrDeviceID kv.2) "modbus" (ModbusRequest kv.2)) (iter (baModbus a)) ++
  map (λ kv, writeSubscription plcID (orDeviceID kv.2) "opcua" (OpcUARequest kv.2)) (iter (baOpcua a)) ++
  map (λ kv, writeSubscription plcID (srDeviceID kv.2) "snmp" (SNMPRequest kv.2)) (iter (baSnmp a)).

(** The protocols of the input variables, whether or not their devices exist. *)
Definition bridge_protocols (c : PlcConfigKV) : gmap string bool :=
  fold_left (λ ps kv, match pvSource kv.2 with
                      | Some src => if String.eqb (pvDirection kv.2) "input" then <[psProtocol src := true]> ps else ps
                      | None => ps
                      end) (iter (pcVariables c)) ∅.

(** [subscribe] of a new bridge. *)
Definition bridge_subscribe (plcID : string) (c : PlcConfigKV) : scannerBridge * list plcEffect :=
  let a := fold_left (bridge_add plcID c) (iter (pcVariables c)) acc0 in
  (mkBridge (baIndex a)
     (omap (λ kv : string * bool, plc_subscribe (Topics.DataWildcard kv.1) PScannerData) (iter (bridge_protocols c))),
   bridge_requests plcID a).

End Bridge.

(** The variables a scanner's message is for. *)
Definition scanner_variables (sb : scannerBridge) (subject : string) : list string :=
  match GoText.split_n ChannelBus.dot 4 subject with
  | [protocol; _; deviceID; tag] => default [] (sbTagIndex sb !! bridge_key protocol deviceID tag)
  | _ => []
  end.

(** [handleScannerData] on a decoded message, as code of the goroutine that runs it. *)
Fixpoint set_all (ids : list string) (v : value) (nowMs : Z) : code () :=
  match ids with
  | [] => mret ()
  | id :: ids' => _ ← do_set id v nowMs; set_all ids' v nowMs
  end.

Definition handleScannerData (sb : scannerBridge) (subject : string) (msg : option PlcDataMessage) : code () :=
  match scanner_variables sb subject, msg with
  | [], _ | _, None => mret ()
  | ids, Some m => t ← do_now; set_all ids (dmValue m) (unixMilli t)
  end.

(** ** Tasks *)

Record taskRunner := mkRunner {
  trName : string;
  trProgRef : string;
  trScanRate : Z;
  trState : TaskState;
}.

Definition newTaskRunner (name progRef : string) (scanRateMs : Z) : taskRunner :=
  mkRunner name progRef (duration_ms scanRateMs) NewTaskState.
Definition with_task_state (t : taskRunner) (ts : TaskState) : taskRunner :=
  mkRunner (trName t) (trProgRef t) (trScanRate t) ts.

(** [time.NewTicker] panics on an interval that is not positive, in the goroutine of
    [start], which ends the process. *)
Definition start_task (t : taskRunner) : outcome taskRunner := if trScanRate t <=? 0 then Panic else Ok t.

(** ** The module *)

Section Module.
Context `{Htext : FloatText} `{Hnum : JsonNumber} `{Hunicode : UnicodeTables} `{Hmath : GoMath} `{Hstar : Starlark}.
Context (marshal : value → option string) (refused : string → bool).
Context (iter : ∀ A : Type, gmap string A → list (string * A)).
Arguments iter {A} _.
(** The clock, by readings; the bucket of programs ([Some None] is not valid JSON). *)
Context (now : nat → Z) (programs : string → option (option PlcProgramKV)).

Record Module' := mkModule {
  mPlcID : string;
  mConfig : option PlcConfigKV;
  mVariables : VariableStore;
  mEngine : option Engine;
  mTasks : gmap string taskRunner;
  mPub : bool;
  mBridge : option scannerBridge;
  mSubs : list plcSub;
  mStartedAt : Z;
  mReads : nat;
}.

Definition New (plcID : string) : Module' :=
  mkModule (if String.eqb plcID "" then "plc" else plcID) None ∅ None ∅ false None [] 0 0.

Definition HasConfig (m : Module') : bool := bool_decide (is_Some (mConfig m)).

Definition register_variable (nowMs : Z) (vs : VariableStore) (kv : string * PlcVariableConfigKV) : VariableStore :=
  Add (mkRuntime kv.1 (pvDatatype kv.2) (pvDirection kv.2) (pvDefault kv.2) "good" nowMs false) vs.

(** Whether a task takes part. *)
Definition task_runs (t : PlcTaskConfigKV) : bool := ptEnabled t && negb (String.eqb (ptProgramRef t) "").

(** Loading and compiling one task's program: a program that is there is not loaded again,
    and one that cannot be read or compiled is left out. *)
Definition load_program (acc : outcome (Engine * VariableStore * nat)) (kv : string * PlcTaskConfigKV)
    : outcome (Engine * VariableStore * nat) :=
  '(e, vs, reads) ← acc;
  if negb (task_runs kv.2) then Ok (e, vs, reads)
  else if (HasProgram e (ptProgramRef kv.2) : bool) then Ok (e, vs, reads)
  else match programs (ptProgramRef kv.2) with
       | Some (Some prog) =>
           match Compile now (ptProgramRef kv.2) (ppSource prog) vs reads e with
           | (Panic, _) => Panic
           | (_, s) => Ok s
           end
       | _ => Ok (e, vs, reads)
       end.

Definition start_runner (e : Engine) (acc : outcome (gmap string taskRunner)) (kv : string * PlcTaskConfigKV)
    : outcome (gmap string taskRunner) :=
  tasks ← acc;
  if negb (task_runs kv.2) || negb (HasProgram e (ptProgramRef kv.2)) then Ok tasks
  else r ← start_task (newTaskRunner kv.1 (ptProgramRef kv.2) (ptScanRateMs kv.2));
       Ok (<[kv.1 := r]> tasks).

Definition applyConfig (config : option PlcConfigKV) (m : Module') : outcome (Module' * list plcEffect) :=
  match config with
  | None => Ok (mkModule (mPlcID m) None ∅ None ∅ false None (mSubs m) (mStartedAt m) (mReads m), [])
  | Some c =>
      let vs := fold_left (register_variable (unixMilli (now (mReads m)))) (iter (pcVariables c)) ∅ in
      '(e, vs, reads) ← fold_left load_program (iter (pcTasks c)) (Ok (NewEngine, vs, S (mReads m)));
      let '(bridge, es) := bridge_subscribe refused (@iter) (mPlcID m) c in
      tasks ← fold_left (start_runner e) (iter (pcTasks c)) (Ok ∅);
      Ok (mkModule (mPlcID m) (Some c) vs (Some e) tasks true (Some bridge) (mSubs m) (mStartedAt m) reads, es)
  end.

Definition Stop (m : Module') : Module' :=
  mkModule (mPlcID m) None ∅ None ∅ false None [] (mStartedAt m) (mReads m).

(** One tick of a task: the scan, whose error is only logged. *)
Definition task_tick (id : string) (m : Module') : Module' :=
  match mTasks m !! id, mEngine m with
  | Some t, Some e =>
      let '(_, w) := Execute now (trProgRef t) e (mkWorld (mVariables m) (Some (trState t)) (mReads m)) in
      mkModule (mPlcID m) (mConfig m) (wVars w) (mEngine m)
        (<[id := with_task_state t (default (trState t) (wTask w))]> (mTasks m))
        (mPub m) (mBridge m) (mSubs m) (mStartedAt m) (wReads w)
  | _, _ => m
  end.

(** One tick of the publisher. *)
Definition publisher_tick (m : Module') : Module' * list plcEffect :=
  if mPub m then
    let '(msgs, vs) := publishChanged marshal (@iter) (mPlcID m) (unixMilli (now (mReads m))) (mVariables m) in
    (mkModule (mPlcID m) (mConfig m) vs (mEngine m) (mTasks m) (mPub m) (mBridge m) (mSubs m) (mStartedAt m)
       (match fst (DrainChanged (@iter) (mVariables m)) with [] => mReads m | _ => S (mReads m) end),
     map (λ p, PData p.1 p.2) msgs)
  else (m, []).

(** A scanner's message, received by the bridge. *)
Definition scanner_message (subject : string) (msg : option PlcDataMessage) (m : Module') : Module' :=
  match mBridge m with
  | None => m
  | Some sb =>
      let '(_, w) := exec now (handleScannerData sb subject msg) (mkWorld (mVariables m) None (mReads m)) in
      mkModule (mPlcID m) (mConfig m) (wVars w) (mEngine m) (mTasks m) (mPub m) (mBridge m) (mSubs m) (mStartedAt m) (wReads w)
  end.

(** [handleVariablesRequest]. *)
Definition variable_info (plcID : string) (v : RuntimeVariable) : VariableInfo :=
  mkVarInfo plcID "" (rvID v) (rvValue v) (rvDatatype v) "" None false None.

Definition handleVariablesRequest (hasReply : bool) (m : Module') : list plcEffect :=
  let result := map (λ kv, variable_info (mPlcID m) kv.2) (iter (mVariables m)) in
  if hasReply && forallb (λ v, bool_decide (is_Some (marshal (viValue v)))) result then [PReply result] else [].

(** [Start] up to its wait: [stored] is the configuration in the bucket, [Some None] when it
    is not valid JSON. *)
Definition Start (startedAt : Z) (stored : option (option PlcConfigKV)) (watchError : bool) (m : Module')
    : outcome (Module' * list plcEffect) :=
  let m := mkModule (mPlcID m) (mConfig m) (mVariables m) (mEngine m) (mTasks m) (mPub m) (mBridge m) (mSubs m) startedAt (mReads m) in
  '(m, es) ← match stored with
             | Some (Some c) => applyConfig (Some c) m
             | Some None => Ok (m, [])
             | None => Ok (m, [PPutConfig (mPlcID m) (mkPlcConfig (mPlcID m) ∅ ∅ ∅ ∅ (unixMilli (now (mReads m))))])
             end;
  let subs := (if watchError then [] else [mkPlcSub "" PConfigWatch]) ++
    option_list (plc_subscribe refused (Topics.Shutdown (mPlcID m)) PShutdown) ++
    option_list (plc_subscribe refused (Topics.Variables (mPlcID m)) PVariables) in
  Ok (mkModule (mPlcID m) (mConfig m) (mVariables m) (mEngine m) (mTasks m) (mPub m) (mBridge m) (mSubs m ++ subs)
        (mStartedAt m) (mReads m), es).

(** The watch of the configuration: [None] is a deletion, [Some None] not valid JSON. *)
Definition config_watch (update : option (option PlcConfigKV)) (m : Module') : outcome (Module' * list plcEffect) :=
  match update with
  | None => applyConfig None m
  | Some None => Ok (m, [])
  | Some (Some c) => applyConfig (Some c) m
  end.

(** ** Runs *)

Inductive plcOp :=
  | PStart (startedAt : Z) (stored : option (option PlcConfigKV)) (watchError : bool)
  | PConfig (update : option (option PlcConfigKV))
  | PScan (task : string)
  | PTick
  | PMessage (subject : string) (msg : option PlcDataMessage)
  | PRequest (hasReply : bool)
  | PStop.

Definition plc_step (op : plcOp) (m : Module') : outcome (Module' * list plcEffect) :=
  match op with
  | PStart at_ stored we => Start at_ stored we m
  | PConfig u => config_watch u m
  | PScan id => Ok (task_tick id m, [])
  | PTick => Ok (publisher_tick m)
  | PMessage subject msg => Ok (scanner_message subject msg m, [])
  | PRequest r => Ok (m, handleVariablesRequest r m)
  | PStop => Ok (Stop m, [])
  end.

Fixpoint plc_run (ops : list plcOp) (m : Module') : outcome (Module' * list plcEffect) :=
  match ops with
  | [] => Ok (m, [])
  | op :: ops' => '(m, es) ← plc_step op m; '(m, es') ← plc_run ops' m; Ok (m, es ++ es')
  end.

End Module.
