(* ===== verification/PlcPublisher.v ===== *)
(** The PLC's publisher among concurrent writers: what has been published of a variable is
    its value, unless the variable is marked or about to be published; and every piece of
    the engine's code is such a writer. *)

From S2P Require Export Prelude GoValue PlcTypes PlcVariables PlcLadder.
From S2P Require Topics.
From S2P Require GatewayRouting.
Import GatewayRouting (iter_lookup).

#[local] Open Scope Z_scope.

Section Publisher.
Context (marshal : value → option string).
Context (iter : ∀ A : Type, gmap string A → list (string * A)).
Context (iter_perm : ∀ A (m : gmap string A), iter A m ≡ₚ map_to_list m).

(** ** Draining *)

Lemma drained_elem vs id : id ∈ fst (DrainChanged iter vs) ↔ ∃ v, vs !! id = Some v ∧ rvChanged v = true.
Proof.
  cbn. rewrite list_elem_of_fmap. split.
  - intros ([k v] & -> & [Hc Hin]%list_elem_of_filter). exists v. split; [by apply (iter_lookup iter iter_perm)|done].
  - intros (v & Hv & Hc). exists (id, v). split; [done|]. apply list_elem_of_filter. split; [done|].
    by apply (iter_lookup iter iter_perm).
Qed.

Lemma drained_lookup vs id v : snd (DrainChanged iter vs) !! id = Some v ↔
  ∃ v0, vs !! id = Some v0 ∧ v = with_changed v0 false.
Proof. cbn. unfold clear_changed. rewrite lookup_fmap, fmap_Some. done. Qed.

Lemma with_changed_same v : rvChanged v = false → with_changed v false = v.
Proof. destruct v; cbn. by intros ->. Qed.

(** ** The invariant *)

Lemma last_published_cons id p log :
  last_published id (p :: log) = if String.eqb (dmVariableID p.2) id then Some p.2 else last_published id log.
Proof. unfold last_published. cbn [find]. by case_match. Qed.

Lemma publish_one_id plcID now vs id p : (∀ v, vs !! id = Some v → rvID v = id) →
  publish_one marshal plcID now vs id = Some p →
  dmVariableID p.2 = id ∧ ∃ v, vs !! id = Some v ∧ dmValue p.2 = rvValue v.
Proof.
  intros Hid. unfold publish_one. destruct (vs !! id) as [v|]; [|done].
  case_if; [done|]. destruct (marshal (rvValue v)); [|done]. intros [= <-]. cbn. eauto.
Qed.

(** A variable that the publisher sends, and what is known of one it is done with. *)
Definition publishable (v : RuntimeVariable) : Prop := rvDirection v ≠ "input" ∧ is_Some (marshal (rvValue v)).

Definition up_to_date (vs0 : VariableStore) (id : string) (v : RuntimeVariable) (log : list (string * PlcDataMessage)) : Prop :=
  (vs0 !! id = Some v ∧ last_published id log = None) ∨
  ∃ msg, last_published id log = Some msg ∧ dmValue msg = rvValue v.

Definition pub_inv (vs0 : VariableStore) (s : pubState) : Prop :=
  (∀ id v, psVars s !! id = Some v → rvID v = id) ∧
  (∀ id v, psVars s !! id = Some v → publishable v → rvChanged v = false → id ∉ psPending s →
    up_to_date vs0 id v (psLog s)).

Lemma up_to_date_other vs0 id v o log : (∀ p, o = Some p → dmVariableID p.2 ≠ id) →
  up_to_date vs0 id v log → up_to_date vs0 id v (option_list o ++ log).
Proof.
  intros Hne. destruct o as [p|]; [|done]. change (option_list (Some p) ++ log) with (p :: log). unfold up_to_date.
  rewrite last_published_cons. assert (String.eqb (dmVariableID p.2) id = false) as ->; [|done].
  apply String.eqb_neq. by apply Hne.
Qed.

Lemma pub_step_inv plcID vs0 s s' : pub_step marshal iter plcID s s' → pub_inv vs0 s → pub_inv vs0 s'.
Proof.
  intros Hstep [Hid Hinv]. destruct Hstep as [id val ms vs pending log|vs log|id pending nw vs log]; cbn [psVars psPending psLog] in *.
  - (* A write marks its variable. *)
    unfold SetVar. destruct (vs !! id) as [v0|] eqn:E; [|done]. cbn [snd]. split; cbn [psVars psPending psLog].
    + intros i v. destruct (decide (id = i)) as [<-|Hne]; [rewrite lookup_insert_eq|rewrite lookup_insert_ne by done; apply Hid].
      intros [= <-]. cbn. by apply Hid.
    + intros i v. destruct (decide (id = i)) as [<-|Hne]; [rewrite lookup_insert_eq|rewrite lookup_insert_ne by done; apply Hinv].
      by intros [= <-].
  - (* Draining makes the marked ones pending. *)
    split; cbn [psVars psPending psLog].
    + intros i v (v0 & Hv & ->)%drained_lookup. cbn. by apply Hid.
    + intros i v (v0 & Hv & ->)%drained_lookup Hp _ Hn.
      assert (rvChanged v0 = false) as Hc.
      { destruct (rvChanged v0) eqn:Hc; [|done]. exfalso. apply Hn, drained_elem. eauto. }
      rewrite with_changed_same in Hp |- * by done. apply Hinv; [done..|]. apply not_elem_of_nil.
  - (* Publishing one. *)
    split; [exact Hid|]. intros i v Hv Hp Hc Hn. cbn [psVars psPending psLog] in *. destruct (decide (id = i)) as [<-|Hne].
    + right. destruct Hp as [Hdir [j Hj]]. unfold publish_one. rewrite Hv.
      rewrite (proj2 (String.eqb_neq _ _) Hdir), Hj.
      match goal with |- context [option_list (Some ?p) ++ ?l] => change (option_list (Some p) ++ l) with (p :: l) end.
      rewrite last_published_cons. cbn. rewrite (Hid id v Hv), String.eqb_refl. eauto.
    + apply up_to_date_other; [|apply Hinv; [done..|]; by intros [?|?]%elem_of_cons].
      intros p Hp1. apply publish_one_id in Hp1 as [-> _]; [done|]. apply Hid.
Qed.

(** C9: However scans, scanner messages and the publisher's ticks interleave, the last message
    about a variable that can be published carries its value, unless the variable is marked as
    changed or waiting in the tick that runs (or nobody has written it yet): no such value is
    lost between marking and publishing. A variable can be published when it is not an input and
    JSON can encode its value ([publishable]); one that holds a NaN is drained and its mark
    cleared with no message, so that its last message stays the one before. *)
Theorem publisher_never_stale (plcID : string) (vs0 : VariableStore) (s : pubState) :
  (∀ id v, vs0 !! id = Some v → rvID v = id) →
  rtc (pub_step marshal iter plcID) (mkPub vs0 [] []) s →
  ∀ id v, psVars s !! id = Some v → publishable v → rvChanged v = false → id ∉ psPending s →
  (vs0 !! id = Some v ∧ last_published id (psLog s) = None) ∨
  ∃ msg, last_published id (psLog s) = Some msg ∧ dmValue msg = rvValue v.
Proof.
  intros Hid Hrtc.
  enough (pub_inv vs0 s) as [_ Hinv] by exact Hinv.
  assert (pub_inv vs0 (mkPub vs0 [] [])) as H0 by (split; [exact Hid|]; intros; by left).
  induction Hrtc as [|s1 s2 s3 Hstep _ IH]; [done|]. by eapply IH, pub_step_inv.
Qed.

(** ** Code is a writer *)

Lemma exec_steps {A} plcID now (c : code A) w pending log :
  rtc (pub_step marshal iter plcID) (mkPub (wVars w) pending log) (mkPub (wVars (snd (exec now c w))) pending log).
Proof.
  revert w. induction c as [a|e|id k IH|id v ms k IH|k IH|k IH|ts c IH]; intros w; cbn [exec snd]; [done..|apply IH| | apply (IH _ (mkWorld _ _ _))|apply IH|apply (IH (mkWorld _ _ _))].
  eapply rtc_l; [|apply (IH _ (mkWorld _ _ _))]. apply step_set.
Qed.

(** A tick that runs alone: everything marked is sent, and nothing is left to send. *)
Lemma publishChanged_sends plcID now vs id v : (∀ id v, vs !! id = Some v → rvID v = id) →
  vs !! id = Some v → rvChanged v = true → publishable v →
  (Topics.plcVariableSubject plcID id, plc_message plcID v now) ∈ fst (publishChanged marshal iter plcID now vs).
Proof.
  intros Hid Hv Hc [Hdir [j Hj]]. unfold publishChanged.
  destruct (DrainChanged iter vs) as [changed vs'] eqn:E. cbn [fst].
  apply list_elem_of_omap. exists id. split.
  - change changed with (fst (changed, vs')). rewrite <- E. apply drained_elem. eauto.
  - assert (vs' !! id = Some (with_changed v false)) as Hl.
    { change vs' with (snd (changed, vs')). rewrite <- E. apply drained_lookup. eauto. }
    unfold publish_one. rewrite Hl. cbn [with_changed rvDirection rvValue rvID].
    rewrite (proj2 (String.eqb_neq _ _) Hdir), Hj, (Hid id v Hv). unfold plc_message. cbn. by rewrite (Hid id v Hv).
Qed.

End Publisher.

(** ** Witness: a second write between draining and publishing is published at once, and
    again by the next tick. *)

Definition ex_iter : ∀ A : Type, gmap string A → list (string * A) := λ A m, map_to_list m.
Definition ex_marshal (v : value) : option string := match v with VBool _ => Some "" | _ => None end.
Definition ex_store (v : value) (changed : bool) : VariableStore := {[ "run" := mkRuntime "run" "boolean" "output" v "good" 0 changed ]}.
Definition ex_message (b : bool) : string * PlcDataMessage :=
  ("plc.data.plc.run", mkData "plc" "plc" "run" (VBool b) 5 "boolean" "" None false false None None).

Lemma ex_reachable : rtc (pub_step ex_marshal ex_iter "plc") (mkPub (ex_store VNil false) [] [])
  (mkPub (ex_store (VBool false) false) [] [ex_message false; ex_message false]).
Proof.
  eapply rtc_l; [apply (step_set _ _ _ "run" (VBool true) 0)|].
  eapply rtc_l; [apply step_drain|].
  eapply rtc_l; [apply (step_set _ _ _ "run" (VBool false) 0)|].
  eapply rtc_l; [apply (step_publish _ _ _ "run" [] 5)|].
  eapply rtc_l; [apply step_drain|].
  eapply rtc_l; [apply (step_publish _ _ _ "run" [] 5)|].
  match goal with |- rtc _ ?a ?b => assert (a = b) as -> by (vm_compute; reflexivity) end. apply rtc_refl.
Defined.

Lemma publisher_never_stale_witness :
  ∃ msg, last_published "run" [ex_message false; ex_message false] = Some msg ∧ dmValue msg = VBool false.
Proof.
  destruct (publisher_never_stale ex_marshal ex_iter (λ A m, Permutation_refl _) "plc" (ex_store VNil false) _
    ltac:(intros id v Hv; unfold ex_store in Hv; apply lookup_singleton_Some in Hv as [<- <-]; reflexivity) ex_reachable "run"
    (mkRuntime "run" "boolean" "output" (VBool false) "good" 0 false)
    ltac:(reflexivity) ltac:(split; [discriminate|eexists; reflexivity]) ltac:(reflexivity) ltac:(apply not_elem_of_nil))
    as [[Hv _]|Hm]; [discriminate Hv|exact Hm].
Defined.
