(* ===== verification/PlcBridge.v ===== *)
(** What the PLC's scanner bridge ([PlcRuntime]) asks of the scanners and which of their
    messages reach its variables. *)

From S2P Require Export PlcRuntime.
From S2P Require Import Topics.
From S2P Require GatewayRouting GatewayScanners.
Import GatewayRouting (iter_lookup, iter_NoDup, entry, entry_push, entry_empty).
Import GatewayScanners (scanner_subject, split_scanner).
Import Gateway (push, scannerRequest, EthernetIPRequest, OpcUARequest, SNMPRequest, ModbusRequest).

#[local] Open Scope Z_scope.

(** ** The inputs of a configuration *)

(** The input [id] with its source and its device, among the variables [l]. *)
Definition bridged (c : PlcConfigKV) (l : list (string * PlcVariableConfigKV)) (id : string)
    (src : PlcVariableSourceKV) (d : PlcDeviceConfigKV) : Prop :=
  ∃ v, (id, v) ∈ l ∧ pvDirection v = "input" ∧ pvSource v = Some src ∧ pcDevices c !! psDeviceID src = Some d.

Definition source_key (src : PlcVariableSourceKV) : string :=
  bridge_key (psProtocol src) (psDeviceID src) (SanitizeForSubject (psTag src)).

Definition index_of (c : PlcConfigKV) (l : list (string * PlcVariableConfigKV)) (index : gmap string (list string)) : Prop :=
  ∀ k id, id ∈ entry index k ↔ ∃ src d, bridged c l id src d ∧ k = source_key src.

(** Either a variable is no input with a known device, or it adds one entry. *)
Lemma bridge_add_cases plcID c a id v :
  (bridge_add plcID c a (id, v) = a ∧ ∀ src d l, bridged c (l ++ [(id, v)]) id src d → bridged c l id src d) ∨
  ∃ src d, pvDirection v = "input" ∧ pvSource v = Some src ∧ pcDevices c !! psDeviceID src = Some d ∧
    baIndex (bridge_add plcID c a (id, v)) = push (baIndex a) (source_key src) id.
Proof.
  unfold bridge_add. destruct (pvSource v) as [src|] eqn:Hs.
  2:{ left. split; [done|]. intros src d l (v' & [Hin|[= ->]%list_elem_of_singleton]%elem_of_app & Hr); [by exists v'|].
      destruct Hr as (_ & Hs' & _). congruence. }
  destruct (String.eqb_spec (pvDirection v) "input") as [Hd|Hd]; cbn [negb].
  2:{ left. split; [done|]. intros src' d l (v' & [Hin|[= ->]%list_elem_of_singleton]%elem_of_app & Hr); [by exists v'|].
      by destruct Hr as (Hd' & _). }
  destruct (pcDevices c !! psDeviceID src) as [d|] eqn:Hdev.
  - right. exists src, d. split_and!; [done..|]. by case_ifs.
  - left. split; [done|]. intros src' d l (v' & [Hin|[= ->]%list_elem_of_singleton]%elem_of_app & Hr); [by exists v'|].
    destruct Hr as (_ & Hs' & Hd'). rewrite Hs in Hs'. injection Hs' as <-. congruence.
Qed.

Lemma bridge_index plcID c l : index_of c l (baIndex (fold_left (bridge_add plcID c) l acc0)).
Proof.
  induction l as [|[id v] l IH] using rev_ind; intros k id'.
  { cbn. rewrite entry_empty. split; [by intros ?%elem_of_nil|]. by intros (? & ? & (? & ?%elem_of_nil & _) & _). }
  rewrite fold_left_app. cbn [fold_left]. set (a := fold_left _ l _) in *.
  assert (∀ src d, bridged c l id' src d → bridged c (l ++ [(id, v)]) id' src d) as Hmono.
  { intros src d (v' & Hin & Hr). exists v'. split; [|done]. apply elem_of_app. by left. }
  destruct (bridge_add_cases plcID c a id v) as [[-> Hsame]|(src & d & Hd & Hs & Hdev & ->)].
  - rewrite (IH k id'). split; intros (src & d & Hb & ->); exists src, d; (split; [|done]).
    + by apply Hmono.
    + destruct (decide (id' = id)) as [->|Hne]; [by apply Hsame|].
      destruct Hb as (v' & [Hin|[= ? ?]%list_elem_of_singleton]%elem_of_app & Hr); [by exists v'|done].
  - rewrite entry_push. assert (bridged c (l ++ [(id, v)]) id src d) as Hnew.
    { exists v. split_and!; [apply elem_of_app; right; by left|done..]. }
    assert (∀ src' d', bridged c (l ++ [(id, v)]) id' src' d' → bridged c l id' src' d' ∨ (id' = id ∧ src' = src)) as Hinv.
    { intros src' d' (v' & [Hin|[= -> ->]%list_elem_of_singleton]%elem_of_app & Hr); [left; by exists v'|].
      right. split; [done|]. destruct Hr as (_ & Hs' & _). congruence. }
    case_decide as Hk.
    + subst k. rewrite elem_of_app, list_elem_of_singleton, (IH _ id'). split.
      * intros [(src' & d' & Hb & Hk)| ->]; [exists src', d'|exists src, d]; auto.
      * intros (src' & d' & [Hb|[-> ->]]%Hinv & Hk); [left; eauto|by right].
    + rewrite (IH k id'). split; intros (src' & d' & Hb & ->).
      * exists src', d'. auto.
      * apply Hinv in Hb as [Hb|[-> ->]]; [eauto|done].
Qed.

(** ** The messages that reach the inputs *)

Lemma first_dot (l l' m m' : list ascii) : dot ∉ l → dot ∉ l' → l ++ dot :: m = l' ++ dot :: m' → l = l' ∧ m = m'.
Proof.
  revert l'. induction l as [|x l IH]; intros [|x' l'] Hl Hl' He; cbn in He.
  - by injection He as ->.
  - injection He as <- _. by destruct Hl'; left.
  - injection He as -> _. by destruct Hl; left.
  - injection He as -> He. apply not_elem_of_cons in Hl as [_ Hl], Hl' as [_ Hl'].
    by destruct (IH l' Hl Hl' He) as [-> ->].
Qed.

Lemma last_dot (l l' m m' : list ascii) : dot ∉ m → dot ∉ m' → l ++ dot :: m = l' ++ dot :: m' → l = l' ∧ m = m'.
Proof.
  intros Hm Hm' He%(f_equal (@rev ascii)). rewrite !rev_app_distr in He. cbn [rev] in He. rewrite <- !app_assoc in He.
  cbn [app] in He. apply first_dot in He as [He1 He2].
  - apply (f_equal (@rev ascii)) in He1, He2. by rewrite !rev_involutive in He1, He2.
  - by rewrite list_elem_of_In, <- in_rev, <- list_elem_of_In.
  - by rewrite list_elem_of_In, <- in_rev, <- list_elem_of_In.
Qed.

Lemma chars_dot a b : chars (a +:+ "." +:+ b) = chars a ++ dot :: chars b.
Proof. by rewrite chars_app. Qed.

Lemma chars_inj a b : chars a = chars b → a = b.
Proof. intros He%(f_equal str). by rewrite !str_chars in He. Qed.

(** The keys of the tag index: the protocol is the first token, the tag the last. *)
Lemma bridge_key_inj p d t p' d' t' : one_token p → one_token p' → one_token t → one_token t' →
  bridge_key p d t = bridge_key p' d' t' → p = p' ∧ d = d' ∧ t = t'.
Proof.
  intros Hp Hp' Ht Ht' He%(f_equal chars). unfold bridge_key in He. rewrite !chars_dot in He.
  apply first_dot in He as [Hep He]; [|done..]. apply last_dot in He as [Hed Het]; [|done..].
  by rewrite (chars_inj _ _ Hep), (chars_inj _ _ Hed), (chars_inj _ _ Het).
Qed.

Lemma scanner_variables_entry sb p dev tag : one_token p →
  scanner_variables sb (scanner_subject p dev tag)
  = entry (sbTagIndex sb) (bridge_key p (SanitizeForSubject dev) (SanitizeForSubject tag)).
Proof.
  intros Hp. unfold scanner_variables.
  by rewrite GoText.split_n_split, split_scanner by (rewrite ?split_scanner by done; cbn; lia || done).
Qed.

(** ** The requests *)

Section Upsert.
Context {R : Type} (dev : R → string) (tags : R → list string) (p : string).

(** A map of requests that holds the tags asked for, a request per device. *)
Definition collects (m : gmap string R) (asked : list (string * string)) : Prop :=
  (∀ dk r, m !! dk = Some r → dk = p +:+ ":" +:+ dev r ∧ tags r = map snd (filter (λ x, x.1 = dev r) asked)) ∧
  (∀ d, is_Some (m !! (p +:+ ":" +:+ d)) ↔ d ∈ asked.*1).

Lemma collects_empty : collects ∅ [].
Proof.
  split; [intros dk r; by rewrite lookup_empty|]. intros d. rewrite lookup_empty. cbn.
  split; [by intros [? ?]|by intros ?%elem_of_nil].
Qed.

Lemma dk_inj d d' : p +:+ ":" +:+ d = p +:+ ":" +:+ d' → d = d'.
Proof. intros He%(f_equal chars). rewrite !chars_app in He. apply app_inv_head, app_inv_head in He. by apply chars_inj. Qed.

Lemma upsert_collects m asked d t new add : collects m asked → dev new = d → tags new = [] →
  (∀ r, dev (add r) = dev r ∧ tags (add r) = tags r ++ [t]) →
  collects (upsert m (p +:+ ":" +:+ d) new add) (asked ++ [(d, t)]).
Proof.
  intros [Hm Hd] Hdev Htags Hadd. unfold upsert.
  assert (dev (default new (m !! (p +:+ ":" +:+ d))) = d ∧
    tags (default new (m !! (p +:+ ":" +:+ d))) = map snd (filter (λ x, x.1 = d) asked)) as [Hold Holdt].
  { destruct (m !! (p +:+ ":" +:+ d)) as [r|] eqn:E; cbn.
    - destruct (Hm _ _ E) as [Hk%dk_inj Ht]. by rewrite <- Hk in Ht.
    - split; [done|]. rewrite Htags. symmetry. destruct (filter _ _) as [|[d' t'] l] eqn:Hf; [done|]. exfalso.
      assert ((d', t') ∈ filter (λ x, x.1 = d) asked) as [Hd' Hin]%list_elem_of_filter by (rewrite Hf; by left).
      cbn in Hd'. subst d'. assert (is_Some (m !! (p +:+ ":" +:+ d))) as [? ?]; [|congruence].
      apply Hd. by apply (list_elem_of_fmap_2 fst asked (d, t')). }
  split.
  - intros dk r. rewrite lookup_insert_Some. intros [[<- <-]|[Hne Hr]].
    + destruct (Hadd (default new (m !! (p +:+ ":" +:+ d)))) as [-> ->]. rewrite Hold. split; [done|].
      rewrite Holdt, filter_app, map_app. f_equal. by rewrite filter_cons_True.
    + destruct (Hm _ _ Hr) as [-> ->]. split; [done|]. rewrite filter_app, filter_cons_False; [by rewrite app_nil_r|].
      cbn. intros Heq. by rewrite Heq in Hne.
  - intros d'. rewrite fmap_app, elem_of_app, <- Hd. cbn [fmap list_fmap fst]. rewrite list_elem_of_singleton.
    destruct (decide (d' = d)) as [->|Hne].
    + rewrite lookup_insert_eq. split; [by right|eauto].
    + rewrite lookup_insert_ne by (intros ?%dk_inj; congruence). split; [by left|]. by intros [?|?].
Qed.

End Upsert.

(** The device and tag of an input that is read over protocol [p]. *)
Definition asks (c : PlcConfigKV) (p : string) (v : PlcVariableConfigKV) : option (string * string) :=
  match pvSource v with
  | Some src =>
      if String.eqb (pvDirection v) "input" && bool_decide (is_Some (pcDevices c !! psDeviceID src)) && String.eqb (psProtocol src) p
      then Some (psDeviceID src, psTag src) else None
  | None => None
  end.

Definition asked (c : PlcConfigKV) (p : string) (l : list (string * PlcVariableConfigKV)) : list (string * string) :=
  omap (λ kv, asks c p kv.2) l.

Definition mr_ids (r : ModbusScannerSubscribeRequest) : list string := map ModbusClient.ID (mrTags r).

Definition acc_collects (c : PlcConfigKV) (l : list (string * PlcVariableConfigKV)) (a : bridgeAcc) : Prop :=
  collects erDeviceID erTags "ethernetip" (baEip a) (asked c "ethernetip" l) ∧
  collects mrDeviceID mr_ids "modbus" (baModbus a) (asked c "modbus" l) ∧
  collects orDeviceID orNodeIDs "opcua" (baOpcua a) (asked c "opcua" l) ∧
  collects srDeviceID srOIDs "snmp" (baSnmp a) (asked c "snmp" l).

Lemma asked_snoc c p l kv : asked c p (l ++ [kv]) = asked c p l ++ option_list (asks c p kv.2).
Proof. unfold asked. rewrite omap_app. cbn. by destruct (asks c p kv.2). Qed.

Lemma bridge_collects plcID c l : acc_collects c l (fold_left (bridge_add plcID c) l acc0).
Proof.
  induction l as [|[id v] l IH] using rev_ind; [split_and!; apply collects_empty|].
  rewrite fold_left_app. cbn [fold_left]. set (a := fold_left _ l _) in *. destruct IH as (H1 & H2 & H3 & H4).
  unfold acc_collects. rewrite !asked_snoc. cbn [snd]. unfold asks, bridge_add.
  destruct (pvSource v) as [src|]; [|cbn; by rewrite !app_nil_r].
  destruct (String.eqb (pvDirection v) "input"); cbn [negb andb]; [|cbn; by rewrite !app_nil_r].
  destruct (pcDevices c !! psDeviceID src) as [d|]; [|cbn; by rewrite !app_nil_r].
  rewrite (bool_decide_eq_true_2 (is_Some (Some d))) by eauto. cbn [andb].
  destruct (String.eqb_spec (psProtocol src) "ethernetip") as [Hp|Hp];
    [|destruct (String.eqb_spec (psProtocol src) "modbus") as [Hp2|Hp2];
      [|destruct (String.eqb_spec (psProtocol src) "opcua") as [Hp3|Hp3];
        [|destruct (String.eqb_spec (psProtocol src) "snmp") as [Hp4|Hp4]]]]; cbn [baEip baModbus baOpcua baSnmp].
  - rewrite Hp. cbn -[collects]. rewrite !app_nil_r. split_and!; [|done..]. by apply upsert_collects.
  - rewrite Hp2. cbn -[collects]. rewrite !app_nil_r. split_and!; [done| |done..]. apply upsert_collects; [done..|].
    intros r. split; [done|]. unfold mr_ids, modbus_add_tag. cbn. by rewrite map_app.
  - rewrite Hp3. cbn -[collects]. rewrite !app_nil_r. split_and!; [done..| |done]. by apply upsert_collects.
  - rewrite Hp4. cbn -[collects]. rewrite !app_nil_r. split_and!; [done..|]. by apply upsert_collects.
  - cbn -[collects]. by rewrite !app_nil_r.
Qed.

Definition request_protocol (r : scannerRequest) : string :=
  match r with
  | EthernetIPRequest _ => "ethernetip" | OpcUARequest _ => "opcua" | SNMPRequest _ => "snmp"
  | ModbusRequest _ => "modbus" | Gateway.NoRequest => ""
  end.
Definition request_device (r : scannerRequest) : string :=
  match r with
  | EthernetIPRequest r => erDeviceID r | OpcUARequest r => orDeviceID r | SNMPRequest r => srDeviceID r
  | ModbusRequest r => mrDeviceID r | Gateway.NoRequest => ""
  end.
Definition request_tags (r : scannerRequest) : list string :=
  match r with
  | EthernetIPRequest r => erTags r | OpcUARequest r => orNodeIDs r | SNMPRequest r => srOIDs r
  | ModbusRequest r => mr_ids r | Gateway.NoRequest => []
  end.
Definition polled : list string := ["ethernetip"; "modbus"; "opcua"; "snmp"].

Section Bridge.
Context (refused : string → bool).
Context (iter : ∀ A : Type, gmap string A → list (string * A)).
Context (iter_perm : ∀ A (m : gmap string A), iter A m ≡ₚ map_to_list m).

(** What one of the four maps contributes. *)
Definition faithful (plcID : string) (c : PlcConfigKV) (p : string) (es : list plcEffect) : Prop :=
  (∀ e, e ∈ es → ∃ r, e = PPut (ScannerBucket p) (plc_subscriber plcID +:+ ":" +:+ request_device r) r ∧
     request_protocol r = p ∧
     request_tags r = map snd (filter (λ x, x.1 = request_device r) (asked c p (iter _ (pcVariables c))))) ∧
  (∀ d, d ∈ (asked c p (iter _ (pcVariables c))).*1 → ∃ r,
     PPut (ScannerBucket p) (plc_subscriber plcID +:+ ":" +:+ d) r ∈ es ∧ request_protocol r = p ∧ request_device r = d).

Lemma requests_of {R} (dev : R → string) (tags : R → list string) (mk : R → scannerRequest) p plcID c m :
  (∀ r, request_protocol (mk r) = p ∧ request_device (mk r) = dev r ∧ request_tags (mk r) = tags r) →
  collects dev tags p m (asked c p (iter _ (pcVariables c))) →
  faithful plcID c p (map (λ kv, writeSubscription plcID (dev kv.2) p (mk kv.2)) (iter _ m)).
Proof.
  intros Hmk [Hm Hd]. split.
  - intros e ([dk r] & -> & Hin)%list_elem_of_fmap. cbn [fst snd]. exists (mk r).
    destruct (Hmk r) as (Hp & Hdev & Ht). apply (iter_lookup iter iter_perm) in Hin.
    unfold writeSubscription. rewrite Hdev, Ht. split_and!; [done|done|]. by apply (Hm dk r).
  - intros d [r Hr]%Hd. exists (mk r). destruct (Hmk r) as (Hp & Hdev & _).
    destruct (Hm _ _ Hr) as [->%dk_inj _]. rewrite Hdev. split_and!; [|done..].
    apply list_elem_of_fmap. exists (p +:+ ":" +:+ dev r, r). split; [done|]. by apply (iter_lookup iter iter_perm).
Qed.

Lemma bridge_faithful plcID c p : p ∈ polled →
  ∃ es, faithful plcID c p es ∧ es ⊆ snd (bridge_subscribe refused iter plcID c) ∧
    ∀ e, e ∈ snd (bridge_subscribe refused iter plcID c) → (∃ key r, e = PPut (ScannerBucket p) key r ∧ request_protocol r = p) → e ∈ es.
Proof.
  intros Hp. destruct (bridge_collects plcID c (iter _ (pcVariables c))) as (H1 & H2 & H3 & H4).
  cbn [snd bridge_subscribe]. unfold bridge_requests. set (a := fold_left _ _ _) in *.
  pose proof (requests_of erDeviceID erTags EthernetIPRequest "ethernetip" plcID c _ ltac:(done) H1) as F1.
  pose proof (requests_of mrDeviceID mr_ids ModbusRequest "modbus" plcID c _ ltac:(done) H2) as F2.
  pose proof (requests_of orDeviceID orNodeIDs OpcUARequest "opcua" plcID c _ ltac:(done) H3) as F3.
  pose proof (requests_of srDeviceID srOIDs SNMPRequest "snmp" plcID c _ ltac:(done) H4) as F4.
  assert (∀ q e es, faithful plcID c q es → e ∈ es → (∃ key r, e = PPut (ScannerBucket p) key r ∧ request_protocol r = p) → q = p) as Hq.
  { intros q e es [Hf _] Hin (key & r & -> & Hr). destruct (Hf _ Hin) as (r' & He & Hr' & _).
    injection He as _ _ ->. congruence. }
  apply list_elem_of_In in Hp. cbn [polled In] in Hp. destruct Hp as [<-|[<-|[<-|[<-|[]]]]];
    eexists; (split; [first [exact F1|exact F2|exact F3|exact F4]|]);
    (split; [set_solver|]); intros e He Hr; rewrite !elem_of_app in He;
    destruct He as [He|[He|[He|He]]]; try exact He;
    first [discriminate (Hq _ _ _ F1 He Hr)|discriminate (Hq _ _ _ F2 He Hr)
          |discriminate (Hq _ _ _ F3 He Hr)|discriminate (Hq _ _ _ F4 He Hr)].
Qed.

(** the PLC asks the scanners for exactly its inputs: over each protocol there is a
    request for every device that an input with that source names, under the PLC's and the
    device's name, and a request lists the tags of that device's inputs, in order, and no
    others. *)
Theorem plc_requests_follow_configuration (plcID p : string) (c : PlcConfigKV) : p ∈ polled →
  let es := snd (bridge_subscribe refused iter plcID c) in
  let inputs := asked c p (iter _ (pcVariables c)) in
  (∀ d, d ∈ inputs.*1 → ∃ r, PPut (ScannerBucket p) (plc_subscriber plcID +:+ ":" +:+ d) r ∈ es ∧
     request_protocol r = p ∧ request_device r = d) ∧
  (∀ key r, PPut (ScannerBucket p) key r ∈ es → request_protocol r = p →
     key = plc_subscriber plcID +:+ ":" +:+ request_device r ∧
     request_tags r = map snd (filter (λ x, x.1 = request_device r) inputs)).
Proof.
  intros Hp. cbn zeta. destruct (bridge_faithful plcID c p Hp) as (es & [Hin Hall] & Hsub & Hsup). split.
  - intros d (r & Hr & Hpr & Hd)%Hall. exists r. auto.
  - intros key r He Hr. destruct (Hin _ (Hsup _ He ltac:(eauto))) as (r' & Heq & _ & Ht).
    injection Heq as -> ->. auto.
Qed.

(** *** Messages *)

Lemma bridge_follows plcID c k id : let b := fst (bridge_subscribe refused iter plcID c) in
  id ∈ entry (sbTagIndex b) k ↔ ∃ src d, bridged c (iter _ (pcVariables c)) id src d ∧ k = source_key src.
Proof. apply (bridge_index plcID c (iter _ (pcVariables c))). Qed.

(** a scanner's message about a tag reaches exactly the inputs whose source has that
    protocol, that tag up to sanitizing, and for its device identifier literally the
    sanitized one: an input of a device whose name sanitizing changes (a space or a dot in
    it) is asked for but never updated. *)
Theorem plc_inputs_follow_scanners (plcID : string) (c : PlcConfigKV) (p dev tag : string) :
  (∀ id v src, pcVariables c !! id = Some v → pvSource v = Some src → one_token (psProtocol src)) → one_token p →
  let b := fst (bridge_subscribe refused iter plcID c) in
  (∀ id, id ∈ scanner_variables b (scanner_subject p dev tag) ↔
     ∃ v src d, pcVariables c !! id = Some v ∧ pvDirection v = "input" ∧ pvSource v = Some src ∧
       pcDevices c !! psDeviceID src = Some d ∧ psProtocol src = p ∧ psDeviceID src = SanitizeForSubject dev ∧
       SanitizeForSubject (psTag src) = SanitizeForSubject tag) ∧
  (SanitizeForSubject dev ≠ dev → ∀ id v src, pcVariables c !! id = Some v → pvSource v = Some src → psDeviceID src = dev →
     id ∉ scanner_variables b (scanner_subject p dev tag)).
Proof.
  intros Hone Hp b. assert (∀ id, id ∈ scanner_variables b (scanner_subject p dev tag) ↔
     ∃ v src d, pcVariables c !! id = Some v ∧ pvDirection v = "input" ∧ pvSource v = Some src ∧
       pcDevices c !! psDeviceID src = Some d ∧ psProtocol src = p ∧ psDeviceID src = SanitizeForSubject dev ∧
       SanitizeForSubject (psTag src) = SanitizeForSubject tag) as Hiff.
  { intros id. rewrite scanner_variables_entry by done. unfold b. rewrite (bridge_follows plcID c). split.
    - intros (src & d & (v & Hv%(iter_lookup iter iter_perm) & Hd & Hs & Hdev) & Hk). exists v, src, d.
      unfold source_key in Hk. apply bridge_key_inj in Hk as (-> & -> & ->); [done|done|by eapply Hone|apply sanitize_token..].
    - intros (v & src & d & Hv & Hd & Hs & Hdev & <- & Hdv & Ht). exists src, d. split.
      + exists v. by rewrite (iter_lookup iter iter_perm).
      + unfold source_key. by rewrite Hdv, Ht. }
  split; [exact Hiff|]. intros Hne id v src Hv Hs Hsrc (v' & src' & d & Hv' & _ & Hs' & _ & _ & Heq & _)%Hiff.
  rewrite Hv in Hv'. injection Hv' as <-. rewrite Hs in Hs'. injection Hs' as <-. congruence.
Qed.

End Bridge.
