(* ===== verification/PlcDelivery.v ===== *)
(** The PLC module in operation ([PlcRuntime]): its state follows the configuration, a scan
    rate must be positive, and a scanner's value goes through a rung to the bus. *)

From S2P Require Export PlcRuntime PlcPublisher PlcBridge.
From S2P Require Import Topics.
From S2P Require PlcEquivalence GatewayRouting GatewayScanners.
Import GatewayRouting (iter_lookup, iter_NoDup, entry).
Import GatewayScanners (scanner_subject).
Import PlcEquivalence (SetVar_is_Some, Get_SetVar, exec_GetBool, rungs_code).

#[local] Open Scope Z_scope.

#[local] Notation value := GoValue.value.

(** ** What stays of a variable *)

Definition static (v : RuntimeVariable) : string * string * string := (rvID v, rvDatatype v, rvDirection v).

Lemma SetVar_static id v ms vs : static <$> snd (SetVar id v ms vs) = static <$> vs.
Proof.
  unfold SetVar. destruct (vs !! id) as [x|] eqn:E; [|done]. cbn [snd]. rewrite fmap_insert.
  apply insert_id. by rewrite lookup_fmap, E.
Qed.

Lemma exec_static {A} now (c : code A) w : static <$> wVars (snd (exec now c w)) = static <$> wVars w.
Proof.
  revert w. induction c as [a|e|id k IH|id v ms k IH|k IH|k IH|ts c IH]; intros w; cbn [exec snd]; [done..|apply IH| | | |].
  - rewrite IH. apply SetVar_static.
  - apply (IH _ (mkWorld _ _ _)).
  - apply IH.
  - apply (IH (mkWorld _ _ _)).
Qed.

Section Delivery.
Context `{Htext : FloatText} `{Hnum : JsonNumber} `{Hunicode : UnicodeTables} `{Hmath : GoMath} `{Hstar : Starlark}.
Context (marshal : value → option string) (refused : string → bool).
Context (iter : ∀ A : Type, gmap string A → list (string * A)).
Context (iter_perm : ∀ A (m : gmap string A), iter A m ≡ₚ map_to_list m).
Context (now : nat → Z) (programs : string → option (option PlcProgramKV)).

(** ** The state follows the configuration *)

Definition declared (c : PlcConfigKV) : gmap string (string * string * string) :=
  map_imap (λ id v, Some (id, pvDatatype v, pvDirection v)) (pcVariables c).

(** The task [id] runs its configured program, which is compiled, at its rate. *)
Definition task_follows (e : Engine) (tc : PlcTaskConfigKV) (t : taskRunner) : Prop :=
  trProgRef t = ptProgramRef tc ∧ trScanRate t = duration_ms (ptScanRateMs tc) ∧ 0 < trScanRate t ∧
  HasProgram e (trProgRef t) = true.

Definition tasks_follow (c : PlcConfigKV) (e : Engine) (tasks : gmap string taskRunner) : Prop :=
  ∀ id, match tasks !! id with
        | Some t => ∃ tc, pcTasks c !! id = Some tc ∧ task_runs tc = true ∧ task_follows e tc t
        | None => ∀ tc, pcTasks c !! id = Some tc → task_runs tc = true → HasProgram e (ptProgramRef tc) = false
        end.

Definition plc_inv (m : Module') : Prop :=
  match mConfig m with
  | None => mVariables m = ∅ ∧ mEngine m = None ∧ mTasks m = ∅ ∧ mPub m = false ∧ mBridge m = None
  | Some c =>
      static <$> mVariables m = declared c ∧ mPub m = true ∧
      mBridge m = Some (fst (bridge_subscribe refused iter (mPlcID m) c)) ∧
      ∃ e, mEngine m = Some e ∧ tasks_follow c e (mTasks m)
  end.

Lemma register_static nowMs l vs : NoDup l.*1 →
  static <$> fold_left (register_variable nowMs) l vs
  = list_to_map (map (λ kv, (kv.1, (kv.1, pvDatatype kv.2, pvDirection kv.2))) l) ∪ (static <$> vs).
Proof.
  revert vs. induction l as [|[id v] l IH]; intros vs Hnd; cbn [fold_left map]; [by rewrite list_to_map_nil, (left_id_L ∅ (∪))|].
  rewrite list_to_map_cons. cbn [fst snd].
  cbn in Hnd. apply NoDup_cons in Hnd as [Hid Hnd]. rewrite IH by done. unfold register_variable, PlcVariables.Add. cbn [rvID fst snd].
  rewrite fmap_insert. unfold static at 1. cbn. rewrite <- insert_union_r; [by rewrite insert_union_l|].
  apply not_elem_of_list_to_map_1. rewrite <- list_fmap_compose. intros ([k x] & -> & Hin)%list_elem_of_fmap.
  apply Hid. cbn. by apply (list_elem_of_fmap_2 fst l (k, x)).
Qed.

Lemma registered c nowMs : static <$> fold_left (register_variable nowMs) (iter _ (pcVariables c)) ∅ = declared c.
Proof.
  rewrite register_static by by apply iter_NoDup. rewrite fmap_empty, (right_id_L ∅ (∪)). apply map_eq. intros id.
  unfold declared. rewrite map_lookup_imap. destruct (pcVariables c !! id) as [v|] eqn:E; cbn.
  - apply elem_of_list_to_map_1.
    + rewrite <- list_fmap_compose. apply (iter_NoDup iter iter_perm).
    + apply list_elem_of_fmap. exists (id, v). split; [done|]. by apply (iter_lookup iter iter_perm).
  - apply not_elem_of_list_to_map_1. rewrite <- list_fmap_compose. intros ([k v] & -> & Hin)%list_elem_of_fmap.
    apply (iter_lookup iter iter_perm) in Hin. cbn in E. congruence.
Qed.

Lemma Compile_static name src vs reads e : static <$> snd (fst (snd (Compile now name src vs reads e))) = static <$> vs.
Proof.
  unfold Compile. pose proof (exec_static now (run_program (ExecFile (name +:+ ".star") src)) (mkWorld vs None reads)) as Hs.
  destruct (exec now _ _) as [res w]. cbn [snd wVars] in Hs.
  destruct (with_prefix _ res ≫= main_of name); exact Hs.
Qed.

Lemma exec_not_panic {A} (c : code A) w : fst (exec now c w) ≠ Panic.
Proof. revert w. induction c; intros w; cbn [exec fst]; auto. Qed.

Lemma Compile_not_panic name src vs reads e : fst (Compile now name src vs reads e) ≠ Panic.
Proof.
  unfold Compile. pose proof (exec_not_panic (run_program (ExecFile (name +:+ ".star") src)) (mkWorld vs None reads)) as Hp.
  destruct (exec now _ _) as [[g|m|] w]; cbn [with_prefix mbind outcome_bind fst] in *; [|done..].
  unfold main_of. repeat case_match; done.
Qed.

Lemma load_fold l e vs reads : ∃ e' vs' reads', fold_left (load_program now programs) l (Ok (e, vs, reads)) = Ok (e', vs', reads') ∧
  static <$> vs' = static <$> vs.
Proof.
  revert e vs reads. induction l as [|kv l IH]; intros e vs reads; cbn [fold_left]; [eauto|].
  assert (∃ e' vs' reads', load_program now programs (Ok (e, vs, reads)) kv = Ok (e', vs', reads') ∧ static <$> vs' = static <$> vs)
    as (e' & vs' & reads' & -> & <-); [|apply IH].
  unfold load_program. cbn [mbind outcome_bind]. case_if; [eauto|]. case_if; [eauto|].
  destruct (programs (ptProgramRef kv.2)) as [[prog|]|]; [|eauto..].
  pose proof (Compile_static (ptProgramRef kv.2) (ppSource prog) vs reads e) as Hs.
  pose proof (Compile_not_panic (ptProgramRef kv.2) (ppSource prog) vs reads e) as Hp.
  destruct (Compile now _ _ vs reads e) as [[u|m|] [[e' vs'] reads']]; [eauto..|done].
Qed.

Lemma runner_fold_bad e l o : (∀ t, o ≠ Ok t) → fold_left (start_runner e) l o = o.
Proof. intros Ho. induction l as [|kv l IH]; [done|]. cbn [fold_left]. by destruct o as [t| |]; [destruct (Ho t)|..]. Qed.

(** The tasks that are started from a list of configured ones. *)
Lemma runner_fold e l tasks : NoDup l.*1 → fold_left (start_runner e) l (Ok ∅) = Ok tasks →
  ∀ id, match tasks !! id with
        | Some t => ∃ tc, (id, tc) ∈ l ∧ task_runs tc = true ∧ task_follows e tc t
        | None => ∀ tc, (id, tc) ∈ l → task_runs tc = true → HasProgram e (ptProgramRef tc) = false
        end.
Proof.
  revert tasks. induction l as [|[id tc] l IH] using rev_ind; intros tasks Hnd.
  { intros <-%Ok_inj i. rewrite lookup_empty. by intros tc ?%elem_of_nil. }
  rewrite fmap_app in Hnd. apply NoDup_app in Hnd as (Hnd & Hid & _).
  rewrite fold_left_app. cbn [fold_left]. destruct (fold_left _ l _) as [old| |] eqn:Hold; [|done..].
  specialize (IH old Hnd eq_refl). unfold start_runner. cbn [mbind outcome_bind fst snd].
  assert (old !! id = None) as Hfresh.
  { specialize (IH id). destruct (old !! id) as [t|]; [|done]. destruct IH as (tc' & Hin & _).
    destruct (Hid id); [|by left]. by apply (list_elem_of_fmap_2 fst l (id, tc')). }
  assert (∀ i tc', (i, tc') ∈ l → (i, tc') ∈ l ++ [(id, tc)]) as Hmono by (intros; apply elem_of_app; by left).
  assert (∀ i tc', (i, tc') ∈ l ++ [(id, tc)] → (i, tc') ∈ l ∨ (i = id ∧ tc' = tc)) as Hinv.
  { intros i tc' [Hin|[= -> ->]%list_elem_of_singleton]%elem_of_app; auto. }
  destruct (task_runs tc) eqn:Hruns; cbn [negb orb].
  2:{ intros <-%Ok_inj i. specialize (IH i). destruct (old !! i) as [t|].
      - destruct IH as (tc' & Hin & Hr). exists tc'. auto.
      - intros tc' [Hin|[-> ->]]%Hinv Hr; [by apply IH|congruence]. }
  destruct (HasProgram e (ptProgramRef tc)) eqn:Hprog; cbn [negb].
  2:{ intros <-%Ok_inj i. specialize (IH i). destruct (old !! i) as [t|].
      - destruct IH as (tc' & Hin & Hr). exists tc'. auto.
      - intros tc' [Hin|[-> ->]]%Hinv Hr; [by apply IH|done]. }
  unfold start_task. cbn [trScanRate newTaskRunner]. destruct (Z.leb_spec (duration_ms (ptScanRateMs tc)) 0) as [Hle|Hpos]; [done|].
  cbn [mbind outcome_bind]. intros <-%Ok_inj i. destruct (decide (id = i)) as [<-|Hne].
  - rewrite lookup_insert_eq. exists tc. split_and!; [apply elem_of_app; right; by left|done|]. by split_and!.
  - rewrite lookup_insert_ne by done. specialize (IH i). destruct (old !! i) as [t|].
    + destruct IH as (tc' & Hin & Hr). exists tc'. auto.
    + intros tc' [Hin|[-> ->]]%Hinv Hr; [by apply IH|done].
Qed.

Lemma applyConfig_inv cfg m m' es : applyConfig refused iter now programs cfg m = Ok (m', es) →
  plc_inv m' ∧ mPlcID m' = mPlcID m.
Proof.
  unfold applyConfig. destruct cfg as [c|]; [|by intros [<- _]%Ok_inj%pair_equal_spec].
  set (vs0 := fold_left (register_variable _) _ _).
  destruct (load_fold (iter _ (pcTasks c)) NewEngine vs0 (S (mReads m))) as (e & vs & reads & -> & Hvs).
  cbn [mbind outcome_bind]. destruct (bridge_subscribe refused iter (mPlcID m) c) as [bridge es'] eqn:Hb.
  destruct (fold_left (start_runner e) _ _) as [tasks| |] eqn:Ht; [|done..]. cbn [mbind outcome_bind].
  intros [<- _]%Ok_inj%pair_equal_spec. split; [|done]. unfold plc_inv. cbn [mConfig mVariables mPub mBridge mPlcID mEngine mTasks].
  rewrite Hb. split_and!; [|done|done|].
  - rewrite Hvs. apply registered.
  - exists e. split; [done|]. intros id. pose proof (runner_fold e _ tasks (iter_NoDup iter iter_perm _) Ht id) as Hr.
    destruct (tasks !! id) as [t|].
    + destruct Hr as (tc & Hin%(iter_lookup iter iter_perm) & Hr). exists tc. auto.
    + intros tc Hin. apply Hr. by apply (iter_lookup iter iter_perm).
Qed.

(** A step that changes only values, and the state of tasks. *)
Definition same_tasks (ts ts' : gmap string taskRunner) : Prop :=
  (λ t, (trProgRef t, trScanRate t)) <$> ts = (λ t, (trProgRef t, trScanRate t)) <$> ts'.

Lemma values_inv m vs tasks reads : plc_inv m → mConfig m ≠ None → static <$> vs = static <$> mVariables m →
  same_tasks (mTasks m) tasks →
  plc_inv (mkModule (mPlcID m) (mConfig m) vs (mEngine m) tasks (mPub m) (mBridge m) (mSubs m) (mStartedAt m) reads).
Proof.
  unfold plc_inv, same_tasks. cbn. intros Hm Hc Hvs Hts. destruct (mConfig m) as [c|]; [|done].
  destruct Hm as (Hs & Hp & Hb & e & He & Hf). rewrite Hvs. split_and!; [done..|]. exists e. split; [done|].
  intros id. specialize (Hf id). apply (f_equal (.!! id)) in Hts. rewrite !lookup_fmap in Hts.
  destruct (mTasks m !! id) as [t|], (tasks !! id) as [t'|]; cbn in Hts; [|done..].
  injection Hts as Hp' Hr'. destruct Hf as (tc & Htc & Hrun & H1 & H2 & H3 & H4). exists tc.
  unfold task_follows. by rewrite <- Hp', <- Hr'.
Qed.

Lemma task_tick_inv id m : plc_inv m → plc_inv (task_tick now id m) ∧ mPlcID (task_tick now id m) = mPlcID m.
Proof.
  intros Hm. unfold task_tick. destruct (mTasks m !! id) as [t|] eqn:Ht; [|done]. destruct (mEngine m) as [e|] eqn:He; [|done].
  unfold Execute. pose proof (exec_static now (execute_code (trProgRef t) e) (mkWorld (mVariables m) (Some (trState t)) (mReads m))) as Hs.
  destruct (exec now _ _) as [res w]. cbn [snd wVars] in Hs. split; [|done]. rewrite <- He. apply values_inv; [done| |done|].
  - intros Hc. unfold plc_inv in Hm. rewrite Hc in Hm. destruct Hm as (_ & He' & _). congruence.
  - unfold same_tasks. rewrite fmap_insert. symmetry. apply insert_id. by rewrite lookup_fmap, Ht.
Qed.

Lemma publisher_tick_inv m : plc_inv m → plc_inv (fst (publisher_tick marshal iter now m)) ∧ mPlcID (fst (publisher_tick marshal iter now m)) = mPlcID m.
Proof.
  intros Hm. unfold publisher_tick. destruct (mPub m) eqn:Hp; [|done]. unfold publishChanged, DrainChanged. cbn -[unixMilli].
  split; [|done]. rewrite <- Hp. apply values_inv; [done| | |done].
  - intros Hc. unfold plc_inv in Hm. rewrite Hc in Hm. destruct Hm as (_ & _ & _ & Hp' & _). congruence.
  - unfold clear_changed. rewrite <- map_fmap_compose. apply map_fmap_ext. by intros ? [] _.
Qed.

Lemma scanner_message_inv subject msg m : plc_inv m → plc_inv (scanner_message now subject msg m) ∧ mPlcID (scanner_message now subject msg m) = mPlcID m.
Proof.
  intros Hm. unfold scanner_message. destruct (mBridge m) as [sb|] eqn:Hb; [|done].
  pose proof (exec_static now (handleScannerData sb subject msg) (mkWorld (mVariables m) None (mReads m))) as Hs.
  destruct (exec now _ _) as [res w]. cbn [snd wVars] in Hs. split; [|done]. rewrite <- Hb. apply values_inv; [done| |done|done].
  intros Hc. unfold plc_inv in Hm. rewrite Hc in Hm. destruct Hm as (_ & _ & _ & _ & Hb'). congruence.
Qed.

Lemma subs_inv m subs at_ reads : plc_inv m →
  plc_inv (mkModule (mPlcID m) (mConfig m) (mVariables m) (mEngine m) (mTasks m) (mPub m) (mBridge m) subs at_ reads).
Proof. done. Qed.

Lemma Start_inv at_ stored we m m' es : Start refused iter now programs at_ stored we m = Ok (m', es) → plc_inv m →
  plc_inv m' ∧ mPlcID m' = mPlcID m.
Proof.
  unfold Start. intros Hrun Hm. set (m0 := mkModule _ _ _ _ _ _ _ _ _ _) in Hrun.
  destruct stored as [[c|]|]; cbn [mbind outcome_bind] in Hrun.
  - destruct (applyConfig refused iter now programs (Some c) m0) as [[m1 es1]| |] eqn:Ha; [|done..].
    apply applyConfig_inv in Ha as [Hi Hid]. apply Ok_inj, pair_equal_spec in Hrun as [<- _]. by split; [apply subs_inv|].
  - apply Ok_inj, pair_equal_spec in Hrun as [<- _]. done.
  - apply Ok_inj, pair_equal_spec in Hrun as [<- _]. done.
Qed.

Lemma plc_step_inv op m m' es : plc_step marshal refused iter now programs op m = Ok (m', es) → plc_inv m →
  plc_inv m' ∧ mPlcID m' = mPlcID m.
Proof.
  destruct op as [at_ stored we|u|id| |subject msg|r|]; cbn [plc_step]; intros Hs Hm.
  - by eapply Start_inv.
  - unfold config_watch in Hs. destruct u as [[c|]|]; [by eapply applyConfig_inv| |by eapply applyConfig_inv].
    by apply Ok_inj, pair_equal_spec in Hs as [<- _].
  - apply Ok_inj, pair_equal_spec in Hs as [<- _]. by apply task_tick_inv.
  - apply Ok_inj in Hs. pose proof (publisher_tick_inv m Hm) as Hi. by rewrite Hs in Hi.
  - apply Ok_inj, pair_equal_spec in Hs as [<- _]. by apply scanner_message_inv.
  - by apply Ok_inj, pair_equal_spec in Hs as [<- _].
  - by apply Ok_inj, pair_equal_spec in Hs as [<- _].
Qed.

Lemma plc_run_inv ops m m' es : plc_run marshal refused iter now programs ops m = Ok (m', es) → plc_inv m →
  plc_inv m' ∧ mPlcID m' = mPlcID m.
Proof.
  revert m es. induction ops as [|op ops IH]; intros m es; cbn [plc_run].
  - by intros [<- _]%Ok_inj%pair_equal_spec.
  - intros ([m1 es1] & Hs & ([m2 es2] & Hr & [<- _]%Ok_inj%pair_equal_spec)%bind_Ok)%bind_Ok Hm.
    destruct (plc_step_inv op m m1 es1 Hs Hm) as [Hm1 Hid]. destruct (IH m1 es2 Hr Hm1) as [Hm2 Hid2]. by rewrite Hid2.
Qed.

(** C30: whatever the module has been through (start, configuration changes, scans, publisher
    ticks, scanner messages, stop), its state is that of the configuration applied last: the
    declared variables with their types and directions, a runner at a positive rate for
    exactly the enabled tasks whose program is compiled, and the bridge's index; without a
    configuration it holds nothing. *)
Theorem plc_state_follows_configuration (plcID : string) (ops : list plcOp) (m : Module') (es : list plcEffect) :
  plc_run marshal refused iter now programs ops (New plcID) = Ok (m, es) →
  match mConfig m with
  | None => mVariables m = ∅ ∧ mEngine m = None ∧ mTasks m = ∅ ∧ mPub m = false ∧ mBridge m = None
  | Some c =>
      (λ v, (rvID v, rvDatatype v, rvDirection v)) <$> mVariables m
        = map_imap (λ id v, Some (id, pvDatatype v, pvDirection v)) (pcVariables c) ∧
      mPub m = true ∧ mBridge m = Some (fst (bridge_subscribe refused iter (mPlcID m) c)) ∧
      ∃ e, mEngine m = Some e ∧ ∀ id, match mTasks m !! id with
        | Some t => ∃ tc, pcTasks c !! id = Some tc ∧ task_runs tc = true ∧ trProgRef t = ptProgramRef tc ∧
            trScanRate t = duration_ms (ptScanRateMs tc) ∧ 0 < trScanRate t ∧ HasProgram e (trProgRef t) = true
        | None => ∀ tc, pcTasks c !! id = Some tc → task_runs tc = true → HasProgram e (ptProgramRef tc) = false
        end
  end.
Proof. intros Hr. by apply (plc_run_inv _ _ _ _ Hr). Qed.

(** ** A scan rate of zero *)

Lemma HasProgram_Compile name src vs reads e n : HasProgram e n = true →
  HasProgram (fst (fst (snd (Compile now name src vs reads e)))) n = true.
Proof.
  unfold Compile, HasProgram. intros He%bool_decide_eq_true. destruct (exec now _ _) as [res w].
  destruct (with_prefix _ res ≫= main_of name); cbn; apply bool_decide_eq_true; [|done..].
  destruct (decide (name = n)) as [->|Hne]; [by rewrite lookup_insert_eq|by rewrite lookup_insert_ne].
Qed.

Lemma load_program_mono kv e vs reads e' vs' reads' n :
  load_program now programs (Ok (e, vs, reads)) kv = Ok (e', vs', reads') → HasProgram e n = true → HasProgram e' n = true.
Proof.
  unfold load_program. cbn [mbind outcome_bind]. intros Hl He. case_if; [by apply Ok_inj in Hl; simplify_eq|].
  case_if; [by apply Ok_inj in Hl; simplify_eq|].
  destruct (programs (ptProgramRef kv.2)) as [[prog|]|]; [|by apply Ok_inj in Hl; simplify_eq..].
  pose proof (HasProgram_Compile (ptProgramRef kv.2) (ppSource prog) vs reads e n He) as Hc.
  destruct (Compile now _ _ vs reads e) as [[u|m|] s]; [..|done]; apply Ok_inj in Hl; by subst s.
Qed.

(** A program whose file runs and defines [main], on any variables. *)
Definition compiles (ref : string) : Prop :=
  ∃ prog globals f, programs ref = Some (Some prog) ∧ ExecFile (ref +:+ ".star") (ppSource prog) = PRet globals ∧
    globals !! "main" = Some (SFunction f).

Lemma Compile_compiles ref prog globals f vs reads e :
  ExecFile (ref +:+ ".star") (ppSource prog) = PRet globals → globals !! "main" = Some (SFunction f) →
  Compile now ref (ppSource prog) vs reads e = (Ok (), (<[ref := mkCompiled ref globals f]> e, vs, reads)).
Proof. intros He Hg. unfold Compile. rewrite He. cbn [run_program exec with_prefix mbind outcome_bind]. unfold main_of. by rewrite Hg. Qed.

Lemma load_fold_has l e vs reads e' vs' reads' id tc : (id, tc) ∈ l → task_runs tc = true → compiles (ptProgramRef tc) →
  fold_left (load_program now programs) l (Ok (e, vs, reads)) = Ok (e', vs', reads') → HasProgram e' (ptProgramRef tc) = true.
Proof.
  intros Hin Hrun (prog & globals & f & Hprog & Hex & Hmain).
  revert e vs reads. induction l as [|kv l IH]; intros e vs reads; [by apply elem_of_nil in Hin|]. cbn [fold_left].
  destruct (load_fold [kv] e vs reads) as (e1 & vs1 & reads1 & Hl & _). cbn [fold_left] in Hl. rewrite Hl.
  apply elem_of_cons in Hin as [<-|Hin]; [|by apply IH].
  assert (HasProgram e1 (ptProgramRef tc) = true) as H1.
  { unfold load_program in Hl. cbn [mbind outcome_bind snd] in Hl. rewrite Hrun in Hl. cbn [negb] in Hl.
    destruct (HasProgram e (ptProgramRef tc)) eqn:He; [by apply Ok_inj in Hl; simplify_eq|].
    rewrite Hprog, (Compile_compiles _ _ globals f) in Hl by done. apply Ok_inj in Hl. simplify_eq.
    apply bool_decide_eq_true. eexists. apply lookup_insert_eq. }
  clear IH Hl. revert e1 vs1 reads1 H1. induction l as [|kv l IH]; intros e1 vs1 reads1 H1; cbn [fold_left].
  - intros Hl%Ok_inj. by simplify_eq.
  - destruct (load_fold [kv] e1 vs1 reads1) as (e2 & vs2 & reads2 & Hl & _). cbn [fold_left] in Hl. rewrite Hl.
    apply IH. by eapply load_program_mono.
Qed.

(** an enabled task whose program compiles and whose scan rate is zero or negative (the
    value of an absent field) brings the process down when the configuration is applied: the
    ticker refuses the interval with a panic. *)
Theorem scan_rate_must_be_positive (m : Module') (c : PlcConfigKV) (id : string) (tc : PlcTaskConfigKV) :
  pcTasks c !! id = Some tc → task_runs tc = true → compiles (ptProgramRef tc) → duration_ms (ptScanRateMs tc) ≤ 0 →
  applyConfig refused iter now programs (Some c) m = Panic.
Proof.
  intros Htc Hrun Hcomp Hrate. unfold applyConfig. set (vs0 := fold_left (register_variable _) _ _).
  destruct (load_fold (iter _ (pcTasks c)) NewEngine vs0 (S (mReads m))) as (e & vs & reads & Hl & _).
  assert ((id, tc) ∈ iter _ (pcTasks c)) as Hin by by apply (iter_lookup iter iter_perm).
  pose proof (load_fold_has _ _ _ _ _ _ _ id tc Hin Hrun Hcomp Hl) as Hhas. rewrite Hl. cbn [mbind outcome_bind].
  destruct (bridge_subscribe refused iter (mPlcID m) c) as [bridge es].
  enough (fold_left (start_runner e) (iter _ (pcTasks c)) (Ok ∅) = Panic) as -> by done.
  assert (∀ l tasks, (id, tc) ∈ l → fold_left (start_runner e) l (Ok tasks) = Panic) as Hfold; [|by apply Hfold].
  clear Hl Hin. induction l as [|kv l IH]; intros tasks Hin; [by apply elem_of_nil in Hin|]. cbn [fold_left].
  apply elem_of_cons in Hin as [<-|Hin].
  - unfold start_runner at 2. cbn [mbind outcome_bind snd fst]. rewrite Hrun, Hhas. cbn [negb orb].
    unfold start_task. cbn [trScanRate newTaskRunner]. rewrite (proj2 (Z.leb_le _ _) Hrate). cbn [mbind outcome_bind].
    by apply runner_fold_bad.
  - unfold start_runner at 2. cbn [mbind outcome_bind]. case_if; [by apply IH|].
    unfold start_task. case_if; cbn [mbind outcome_bind]; [by apply runner_fold_bad|by apply IH].
Qed.

End Delivery.
