(* ===== verification/PlcPipeline.v ===== *)
(** Ladder programs as the interpreter runs them ([PlcEngine]) and a field value's way
    through the PLC: scanner message, rung, publication. *)

From S2P Require Export PlcDelivery.
From S2P Require Import Topics.
From S2P Require PlcEquivalence GatewayRouting GatewayScanners.
Import GatewayScanners (scanner_subject).
Import PlcEquivalence (SetVar_is_Some, Get_SetVar, exec_GetBool, rungs_code).

#[local] Notation value := GoValue.value.

#[local] Open Scope Z_scope.

(** ** Networks of contacts *)

Fixpoint contacts_only (e : ladderElement) : bool :=
  match e with
  | elemContact subtype _ => String.eqb subtype "NO" || String.eqb subtype "NC"
  | elemBranch ps => forallb (forallb contacts_only) ps
  | elemSeries es => forallb contacts_only es
  | _ => false
  end.

Section Pipeline.
Context `{Htext : FloatText} `{Hnum : JsonNumber} `{Hunicode : UnicodeTables} `{Hmath : GoMath} `{Hstar : Starlark}.

(** The boolean function of a network: series is conjunction, branches disjunction. *)
Fixpoint power (vs : VariableStore) (e : ladderElement) : bool :=
  match e with
  | elemContact subtype tag => if String.eqb subtype "NO" then GetBool vs tag else negb (GetBool vs tag)
  | elemBranch ps => existsb (forallb (power vs)) ps
  | elemSeries es => forallb (power vs) es
  | _ => true
  end.

Lemma contacts_all now es : Forall (λ e, ∀ r ts w, contacts_only e = true →
    exec now (evaluateElement e r ts) w = (Ok (r && power (wVars w) e, ts), w)) es →
  ∀ r ts w, forallb contacts_only es = true →
  exec now (evaluate_all es r ts) w = (Ok (r && forallb (power (wVars w)) es, ts), w).
Proof.
  induction 1 as [|e es He _ IH]; intros r ts w Hc; cbn [evaluate_all forallb].
  - by rewrite andb_true_r.
  - cbn in Hc. apply andb_prop in Hc as [H1 H2]. rewrite exec_bind, (He r ts w H1), (IH _ ts w H2).
    by rewrite andb_assoc.
Qed.

Lemma contacts_exec now e r ts w : contacts_only e = true →
  exec now (evaluateElement e r ts) w = (Ok (r && power (wVars w) e, ts), w).
Proof.
  revert r ts w. induction e as [s t|s t|s t p|s t p|t|ps IH|es IH] using PlcEquivalence.ladderElement_ind';
    intros r ts w Hc; try done.
  - cbn [evaluateElement]. unfold evaluateContact. rewrite !exec_bind, exec_GetBool. cbn in Hc |- *.
    destruct (String.eqb s "NO"); [done|]. cbn in Hc. by rewrite Hc.
  - rewrite PlcEquivalence.element_Branch. cbn in Hc |- *.
    enough (∀ res, exec now (evaluate_paths r ps res ts) w
      = (Ok (res || (r && existsb (forallb (power (wVars w))) ps), ts), w)) as Hp by apply Hp.
    induction IH as [|es ps Hes _ IHps]; intros res; cbn [evaluate_paths existsb].
    + by rewrite andb_false_r, orb_false_r.
    + cbn in Hc. apply andb_prop in Hc as [H1 H2]. rewrite exec_bind, (contacts_all now es Hes r ts w H1), (IHps H2).
      do 3 f_equal. by destruct r, res, (forallb (power (wVars w)) es).
  - rewrite PlcEquivalence.element_Series. by apply contacts_all.
Qed.

(** ** Ladder programs

    The calls that the interpreter makes for an element, arguments first, and for [main]. *)
Notation svalue := (svalue function).

Fixpoint element_program {A} (e : ladderElement) (k : svalue → program function A) : program function A :=
  match e with
  | elemContact subtype tag | elemCoil subtype tag => PCall subtype [SString tag] [] k
  | elemTimer subtype tag preset | elemCounter subtype tag preset => PCall subtype [SString tag; SInt preset] [] k
  | elemReset tag => PCall "RES" [SString tag] [] k
  | elemBranch children =>
      (fix go (ps : list (list ladderElement)) (args : list svalue) : program function A :=
         match ps with
         | [] => PCall "branch" args [] k
         | [e'] :: ps' => element_program e' (λ v, go ps' (args ++ [v]))
         | _ :: _ => PErr "no such call"
         end) children []
  | elemSeries elements =>
      (fix go (es : list ladderElement) (args : list svalue) : program function A :=
         match es with
         | [] => PCall "series" args [] k
         | e' :: es' => element_program e' (λ v, go es' (args ++ [v]))
         end) elements []
  end.

Fixpoint args_program {A} (es : list ladderElement) (args : list svalue) (k : list svalue → program function A)
    : program function A :=
  match es with
  | [] => k args
  | e :: es' => element_program e (λ v, args_program es' (args ++ [v]) k)
  end.

Fixpoint rungs_program (rungs : list (list ladderElement)) : program function svalue :=
  match rungs with
  | [] => PRet SNone
  | es :: rungs' => args_program es [] (λ args, PCall "rung" args [] (λ _, rungs_program rungs'))
  end.

(** What a call can build: a path of a branch is one element. *)
Fixpoint callable (e : ladderElement) : bool :=
  match e with
  | elemContact subtype _ => bool_decide (subtype ∈ ["NO"; "NC"])
  | elemCoil subtype _ => bool_decide (subtype ∈ ["OTE"; "OTL"; "OTU"])
  | elemTimer subtype _ preset => bool_decide (subtype ∈ ["TON"; "TOF"] ∧ in_s 64 preset)
  | elemCounter subtype _ preset => bool_decide (subtype ∈ ["CTU"; "CTD"] ∧ in_s 64 preset)
  | elemReset _ => true
  | elemBranch ps => forallb (λ path, match path with [e'] => callable e' | _ => false end) ps
  | elemSeries es => forallb callable es
  end.

Lemma elements_of_values who i es : elements_of who i (map SElement es) = inr es.
Proof. revert i. induction es as [|e es IH]; intros i; cbn [map elements_of]; [done|]. by rewrite IH. Qed.

Ltac sub_cases H := apply list_elem_of_In in H; cbn [In] in H; repeat destruct H as [<-|H]; try done.

(** Building an element has no effect: the program goes on with it. *)
Lemma element_program_run {A} e (k : svalue → program function A) : callable e = true →
  run_program (element_program e k) = run_program (k (SElement e)).
Proof.
  revert A k. induction e as [s t|s t|s t p|s t p|t|ps IH|es IH] using PlcEquivalence.ladderElement_ind'; intros A k Hc.
  - apply bool_decide_eq_true in Hc. cbn [element_program run_program].
    sub_cases Hc; cbn [makeBuiltins String.eqb]; cbn; unfold builtin_tag; by rewrite unpack_s_ok.
  - apply bool_decide_eq_true in Hc. cbn [element_program run_program].
    sub_cases Hc; cbn; unfold builtin_tag; by rewrite unpack_s_ok.
  - apply bool_decide_eq_true in Hc as [Hs Hp]. cbn [element_program run_program].
    sub_cases Hs; cbn; unfold builtin_preset; by rewrite unpack_si_ok.
  - apply bool_decide_eq_true in Hc as [Hs Hp]. cbn [element_program run_program].
    sub_cases Hs; cbn; unfold builtin_preset; by rewrite unpack_si_ok.
  - cbn. unfold builtin_tag. by rewrite unpack_s_ok.
  - cbn in Hc. cbn [element_program]. set (go := fix go (ps : list (list ladderElement)) (args : list svalue) := _).
    enough (∀ qs pre, Forall (Forall (λ e, ∀ A (k : svalue → program function A), callable e = true →
        run_program (element_program e k) = run_program (k (SElement e)))) qs →
      forallb (λ path, match path with [e'] => callable e' | _ => false end) qs = true →
      run_program (go qs (map SElement pre)) = run_program (k (SElement (elemBranch (map (λ e, [e]) pre ++ qs))))) as Hgo
      by exact (Hgo ps [] IH Hc).
    clear IH Hc. induction qs as [|path qs IHq]; intros pre Hf Hq.
    + change (go [] (map SElement pre)) with (PCall (F := function) "branch" (map SElement pre) [] k). cbn [run_program].
      change (makeBuiltins "branch") with (Some (λ (args : list svalue) (_ : list (string * svalue)), builtinBranch args)).
      unfold builtinBranch. rewrite elements_of_values. cbn. by rewrite app_nil_r.
    + destruct path as [|e' [|]]; try discriminate. cbn in Hq. apply andb_prop in Hq as [He Hq].
      apply Forall_cons in Hf as [[He' _]%Forall_cons Hf].
      change (go ([e'] :: qs) (map SElement pre)) with (element_program e' (λ v, go qs (map SElement pre ++ [v]))).
      rewrite He' by done. change [SElement (F := function) e'] with (map (SElement (F := function)) [e']).
      rewrite <- map_app, IHq by done. by rewrite map_app, <- app_assoc.
  - cbn in Hc. cbn [element_program]. set (go := fix go (es : list ladderElement) (args : list svalue) := _).
    enough (∀ qs pre, Forall (λ e, ∀ A (k : svalue → program function A), callable e = true →
        run_program (element_program e k) = run_program (k (SElement e))) qs →
      forallb callable qs = true →
      run_program (go qs (map SElement pre)) = run_program (k (SElement (elemSeries (pre ++ qs))))) as Hgo
      by exact (Hgo es [] IH Hc).
    clear IH Hc. induction qs as [|e' qs IHq]; intros pre Hf Hq.
    + change (go [] (map SElement pre)) with (PCall (F := function) "series" (map SElement pre) [] k). cbn [run_program].
      change (makeBuiltins "series") with (Some (λ (args : list svalue) (_ : list (string * svalue)), builtinSeries args)).
      unfold builtinSeries. rewrite elements_of_values. cbn. by rewrite app_nil_r.
    + cbn in Hq. apply andb_prop in Hq as [He Hq]. apply Forall_cons in Hf as [He' Hf].
      change (go (e' :: qs) (map SElement pre)) with (element_program e' (λ v, go qs (map SElement pre ++ [v]))).
      rewrite He' by done. change [SElement (F := function) e'] with (map (SElement (F := function)) [e']).
      rewrite <- map_app, IHq by done. by rewrite <- app_assoc.
Qed.

Lemma args_program_run {A} es pre (k : list svalue → program function A) : forallb callable es = true →
  run_program (args_program es (map SElement pre) k) = run_program (k (map SElement (pre ++ es))).
Proof.
  revert pre. induction es as [|e es IH]; intros pre Hc; cbn [args_program]; [by rewrite app_nil_r|].
  cbn in Hc. apply andb_prop in Hc as [He Hes]. rewrite element_program_run by done.
  change [SElement (F := function) e] with (map (SElement (F := function)) [e]).
  rewrite <- map_app, IH by done. by rewrite <- app_assoc.
Qed.

Lemma rung_elements_task now es w w' : exec now (rung_elements es) w = (Ok (), w') → ∃ ts, wTask w' = Some ts.
Proof.
  unfold rung_elements. rewrite exec_bind. cbn [exec do_load]. destruct (wTask w) as [ts|]; [|done].
  rewrite exec_bind. destruct (exec now (evaluate_all (conditions es) true ts) w) as [[[r ts1]| |] w1]; [|done..].
  rewrite exec_bind. destruct (exec now (evaluate_all (outputs es) r ts1) w1) as [[[r2 ts2]| |] w2]; [|done..].
  cbn. intros [= <-]. cbn. eauto.
Qed.

(** Running [main] is evaluating its rungs. *)
Lemma rungs_program_run now rungs w ts : forallb (forallb callable) rungs = true → wTask w = Some ts →
  exec now (run_program (rungs_program rungs)) w = exec now (_ ← rungs_code rungs; mret (M := code) (SNone (F := function))) w.
Proof.
  revert w ts. induction rungs as [|es rungs IH]; intros w ts Hc Ht; [done|]. cbn in Hc. apply andb_prop in Hc as [Hes Hrs].
  cbn [rungs_program rungs_code]. pose proof (args_program_run es [] (λ args, PCall "rung" args [] (λ _, rungs_program rungs)) Hes) as Hr.
  cbn [map app] in Hr. rewrite Hr. cbn [run_program].
  change (makeBuiltins "rung") with (Some (λ (args : list svalue) (_ : list (string * svalue)), builtinRung args)).
  unfold builtinRung. rewrite !exec_bind. cbn [exec do_load]. rewrite Ht, elements_of_values. cbn [unpacked].
  rewrite exec_bind. destruct (exec now (rung_elements es) w) as [[[]| |] w'] eqn:E; [|done..]. cbn [exec mret code_ret].
  destruct (rung_elements_task _ _ _ _ E) as [ts' Ht']. rewrite (IH w' ts') by done. by rewrite exec_bind.
Qed.

(** ** A rung between its inputs and its coil *)

Lemma conditions_contacts conds out : forallb contacts_only conds = true →
  conditions (conds ++ [elemCoil "OTE" out]) = conds ∧ outputs (conds ++ [elemCoil "OTE" out]) = [elemCoil "OTE" out].
Proof.
  intros Hc. unfold conditions, outputs. rewrite !filter_app. rewrite forallb_forall in Hc.
  assert (∀ e, e ∈ conds → isCondition e = true) as Hcond.
  { intros e He%list_elem_of_In%Hc. by destruct e. }
  split.
  - rewrite (filter_cons_False _ (elemCoil "OTE" out)) by done. rewrite filter_nil, app_nil_r.
    clear Hc. induction conds as [|e conds IH]; [done|]. rewrite filter_cons_True by (apply Hcond; by left).
    f_equal. apply IH. intros e' He'. apply Hcond. by right.
  - rewrite (filter_cons_True _ (elemCoil "OTE" out)) by done. rewrite filter_nil.
    assert (filter (λ e, isCondition e = false) conds = []) as ->; [|done].
    clear Hc. induction conds as [|e conds IH]; [done|].
    rewrite filter_cons_False by (rewrite (Hcond e) by (by left); done).
    apply IH. intros e' He'. apply Hcond. by right.
Qed.

Lemma coil_rung_run now conds out w ts : forallb contacts_only conds = true → wTask w = Some ts →
  exec now (rungs_code [conds ++ [elemCoil "OTE" out]]) w
  = (Ok (), mkWorld (snd (SetVar out (VBool (forallb (power (wVars w)) conds)) (unixMilli (now (wReads w))) (wVars w)))
       (Some ts) (S (wReads w))).
Proof.
  intros Hc Ht. cbn [rungs_code]. rewrite exec_bind. unfold rung_elements. rewrite exec_bind. cbn [exec do_load]. rewrite Ht.
  destruct (conditions_contacts conds out Hc) as [-> ->]. rewrite exec_bind.
  rewrite (contacts_all now conds) by (done || (apply Forall_true; intros; by apply contacts_exec)).
  reflexivity.
Qed.

(** ** A scanner's message *)

Definition set_values (ids : list string) (v : value) (ms : Z) (vs : VariableStore) : VariableStore :=
  fold_left (λ vs id, snd (SetVar id v ms vs)) ids vs.

Lemma set_all_run now ids v ms w :
  exec now (set_all ids v ms) w = (Ok (), mkWorld (set_values ids v ms (wVars w)) (wTask w) (wReads w)).
Proof.
  revert w. induction ids as [|id ids IH]; intros w; cbn [set_all]; [by destruct w|].
  rewrite exec_bind. cbn [exec do_set]. by rewrite IH.
Qed.

Lemma set_values_Get ids v ms vs id : id ∈ ids → is_Some (vs !! id) → Get (set_values ids v ms vs) id = v.
Proof.
  intros Hin Hs. assert (∀ l vs, is_Some (vs !! id) → Get vs id = v → Get (set_values l v ms vs) id = v) as Hkeep.
  { induction l as [|i l IH]; intros vs' Hs' Hg; [done|].
    change (set_values (i :: l) v ms vs') with (set_values l v ms (snd (SetVar i v ms vs'))). apply IH; [by apply SetVar_is_Some|].
    rewrite Get_SetVar by done. by case_decide. }
  revert vs Hs. induction ids as [|i ids IH]; intros vs Hs; [by apply elem_of_nil in Hin|].
  change (set_values (i :: ids) v ms vs) with (set_values ids v ms (snd (SetVar i v ms vs))).
  apply elem_of_cons in Hin as [<-|Hin].
  - apply Hkeep; [by apply SetVar_is_Some|]. rewrite Get_SetVar by done. by rewrite decide_True.
  - apply (IH Hin). by apply SetVar_is_Some.
Qed.

Context (marshal : value → option string) (refused : string → bool).
Context (iter : ∀ A : Type, gmap string A → list (string * A)).
Context (iter_perm : ∀ A (m : gmap string A), iter A m ≡ₚ map_to_list m).
Context (now : nat → Z).

Lemma declared_variable c vs id v : static <$> vs = declared c → pcVariables c !! id = Some v →
  ∃ x, vs !! id = Some x ∧ rvID x = id ∧ rvDirection x = pvDirection v.
Proof.
  intros Hs Hv. apply (f_equal (.!! id)) in Hs. unfold declared in Hs. rewrite lookup_fmap, map_lookup_imap, Hv in Hs.
  destruct (vs !! id) as [x|]; [|done]. cbn in Hs. injection Hs as H1 H2 H3. eauto.
Qed.

Lemma declared_ids c vs : static <$> vs = declared c → ∀ id x, vs !! id = Some x → rvID x = id.
Proof.
  intros Hs id x Hx. apply (f_equal (.!! id)) in Hs. unfold declared in Hs. rewrite lookup_fmap, map_lookup_imap, Hx in Hs.
  destruct (pcVariables c !! id) as [v|]; [|done]. cbn in Hs. by injection Hs as H1 H2 H3.
Qed.

Lemma message_sets m c inp vin src d p dev tag msg : plc_inv refused iter m → mConfig m = Some c →
  pcVariables c !! inp = Some vin → pvDirection vin = "input" → pvSource vin = Some src → pcDevices c !! psDeviceID src = Some d →
  one_token p → psProtocol src = p → psDeviceID src = SanitizeForSubject dev → SanitizeForSubject (psTag src) = SanitizeForSubject tag →
  Get (mVariables (scanner_message now (scanner_subject p dev tag) (Some msg) m)) inp = dmValue msg.
Proof.
  intros Hm Hc Hv Hdir Hsrc Hd Hp Hpr Hdev Htag. unfold plc_inv in Hm. rewrite Hc in Hm. destruct Hm as (Hs & _ & Hb & _).
  destruct (declared_variable c _ inp vin Hs Hv) as (x & Hx & _).
  unfold scanner_message. rewrite Hb. unfold handleScannerData.
  assert (inp ∈ scanner_variables (fst (bridge_subscribe refused iter (mPlcID m) c)) (scanner_subject p dev tag)) as Hin.
  { rewrite scanner_variables_entry by done. apply (bridge_follows refused iter (mPlcID m) c).
    exists src, d. split; [|by unfold source_key; rewrite Hpr, Hdev, Htag].
    exists vin. by rewrite (GatewayRouting.iter_lookup iter iter_perm). }
  destruct (scanner_variables _ _) as [|i ids]; [by apply elem_of_nil in Hin|].
  rewrite exec_bind. cbn [exec do_now]. rewrite set_all_run. cbn [mVariables wVars]. apply set_values_Get; eauto.
Qed.

(** C7: A field value goes through the PLC. In a module that follows its configuration and runs
    a task whose program is the rung of a contact network and a coil, all known to the engine, a
    scanner's message about an input's tag sets the input; the next scan computes the network's
    boolean function of the variables; and the publisher's next tick sends it under the coil's
    subject. The coil's variable is declared and not an input, booleans can be encoded, the
    source's protocol is one token of a subject, and its device is configured under an id
    without space, dot or colon, as it stands in the subject ([psDeviceID src =
    SanitizeForSubject dev]): the inputs of another device are never set. *)
Theorem plc_drives_output (m : Module') (c : PlcConfigKV) (id : string) (t : taskRunner) (e : Engine) (prog : compiledProgram)
    (conds : list ladderElement) (out inp : string) (vout vin : PlcVariableConfigKV) (src : PlcVariableSourceKV)
    (d : PlcDeviceConfigKV) (p dev tag : string) (msg : PlcDataMessage) :
  plc_inv refused iter m → mConfig m = Some c →
  mTasks m !! id = Some t → mEngine m = Some e → e !! trProgRef t = Some prog →
  Call (cpMainFn prog) = rungs_program [conds ++ [elemCoil "OTE" out]] →
  forallb contacts_only conds = true → forallb callable conds = true →
  pcVariables c !! out = Some vout → pvDirection vout ≠ "input" → (∀ b, is_Some (marshal (VBool b))) →
  pcVariables c !! inp = Some vin → pvDirection vin = "input" → pvSource vin = Some src → pcDevices c !! psDeviceID src = Some d →
  one_token p → psProtocol src = p → psDeviceID src = SanitizeForSubject dev → SanitizeForSubject (psTag src) = SanitizeForSubject tag →
  let m1 := scanner_message now (scanner_subject p dev tag) (Some msg) m in
  Get (mVariables m1) inp = dmValue msg ∧
  ∃ sent, PData (plcVariableSubject (mPlcID m) out) sent ∈ snd (publisher_tick marshal iter now (task_tick now id m1)) ∧
    dmVariableID sent = out ∧ dmValue sent = VBool (forallb (power (mVariables m1)) conds).
Proof.
  intros Hm Hc Ht He Hprog Hcall Hcont Hcb Hout Hdir Hmar Hinp Hin Hsrc Hd Hp Hpr Hdev Htag m1.
  split; [by eapply message_sets|].
  destruct (scanner_message_inv refused iter now (scanner_subject p dev tag) (Some msg) m Hm) as [Hm1 Hid1]. fold m1 in Hm1, Hid1.
  assert (mTasks m1 = mTasks m ∧ mEngine m1 = mEngine m ∧ mConfig m1 = mConfig m) as (Ht1 & He1 & Hc1).
  { unfold m1, scanner_message. destruct (mBridge m); [|done]. by destruct (exec now _ _). }
  pose proof Hm1 as Hinv. unfold plc_inv in Hinv. rewrite Hc1, Hc in Hinv. destruct Hinv as (Hs & Hpub & _).
  destruct (declared_variable c _ out vout Hs Hout) as (x & Hx & Hxid & Hxdir).
  unfold task_tick. rewrite Ht1, Ht, He1, He. unfold Execute, execute_code. rewrite Hprog, exec_bind, Hcall.
  assert (forallb (forallb callable) [conds ++ [elemCoil "OTE" out]] = true) as Hcall'.
  { cbn. rewrite forallb_app, Hcb. by apply (bool_decide_unpack _). }
  rewrite (rungs_program_run now _ _ (trState t) Hcall') by done.
  rewrite exec_bind, (coil_rung_run now conds out _ (trState t)) by done. cbn [exec mret code_ret wVars wTask wReads].
  unfold publisher_tick. cbn [mPub mVariables mReads mPlcID]. rewrite Hpub, Hid1.
  match goal with |- context [publishChanged _ _ _ ?n ?vs] => set (vs2 := vs); set (nw := n) end.
  set (b := forallb (power (mVariables m1)) conds) in *.
  set (y := mkRuntime (rvID x) (rvDatatype x) (rvDirection x) (VBool b) (rvQuality x) (unixMilli (now (mReads m1))) true).
  assert (vs2 !! out = Some y) as Hy.
  { unfold vs2, SetVar. rewrite Hx. cbn [snd]. by rewrite lookup_insert_eq. }
  assert (∀ i v, vs2 !! i = Some v → rvID v = i) as Hids.
  { apply (declared_ids c). unfold vs2. by rewrite SetVar_static. }
  pose proof (publishChanged_sends marshal iter iter_perm (mPlcID m) nw vs2 out y Hids Hy eq_refl) as Hsend.
  destruct (publishChanged marshal iter (mPlcID m) nw vs2) as [msgs vs3]. cbn [snd fst] in *.
  exists (plc_message (mPlcID m) y nw). split_and!; [|done|done].
  apply list_elem_of_fmap. eexists. split; [|apply Hsend; split; [by cbn; rewrite Hxdir|apply Hmar]]. done.
Qed.

End Pipeline.
