(* ===== verification/PlcExamples.v ===== *)
(** The PLC's theorems on a small machine: a start button on a Modbus device, a stop
    variable, and the rung that drives the motor. *)

From S2P Require Export PlcPipeline.
From S2P Require Import Topics.
From S2P Require GatewayScanners.
Import GatewayScanners (scanner_subject).

#[local] Open Scope Z_scope.
#[local] Notation value := GoValue.value.

Definition ex_main : program () (svalue ()) :=
  PCall "NO" [SString "start"] [] (λ x, PCall "NC" [SString "stop"] [] (λ y, PCall "OTE" [SString "motor"] [] (λ z,
    PCall "rung" [x; y; z] [] (λ _, PRet SNone)))).

#[local] Instance ex_text : FloatText := no_float_text.
#[local] Instance ex_number : JsonNumber := number_zero.
#[local] Instance ex_unicode : UnicodeTables := ascii_tables.
#[local] Instance ex_math : GoMath := example_math.
#[local] Instance ex_star : Starlark := example_starlark ex_main.

Definition ex_device : PlcDeviceConfigKV := mkPlcDevice "modbus" "10.0.0.5" None None "" "" "" None (Some 500).
Definition ex_source (dev : string) : PlcVariableSourceKV := mkSource "modbus" dev "start" "" (Some 1) "" "" (Some 7).
Definition ex_input (dev : string) : PlcVariableConfigKV :=
  mkPlcVar "start" "" "boolean" (VBool false) "input" (Some (ex_source dev)) None false.
Definition ex_motor : PlcVariableConfigKV := mkPlcVar "motor" "" "boolean" (VBool false) "output" None None false.
Definition ex_stop : PlcVariableConfigKV := mkPlcVar "stop" "" "boolean" (VBool false) "internal" None None false.
Definition ex_task (ms : Z) : PlcTaskConfigKV := mkTask "main" "" ms "logic" true.
Definition ex_config (dev : string) (ms : Z) : PlcConfigKV :=
  mkPlcConfig "plc" {[ dev := ex_device ]} {[ "start" := ex_input dev; "motor" := ex_motor; "stop" := ex_stop ]} ∅
    {[ "main" := ex_task ms ]} 0.

Definition ex_programs (ref : string) : option (option PlcProgramKV) :=
  if String.eqb ref "logic" then Some (Some (mkProgram "logic" "ladder" "" "" 0 "gui")) else None.
Definition ex_now (n : nat) : Z := Z.of_nat n * 1000000.
Definition no_refusal (s : string) : bool := false.

Definition ex_pressed : PlcDataMessage := mkData "modbus" "line1" "start" (VBool true) 3 "boolean" "" None false false None None.
Definition ex_subject : string := scanner_subject "modbus" "line1" "start".

Notation ex_run ops := (plc_run ex_marshal no_refusal ex_iter ex_now ex_programs ops (New "")).

Definition ex_started : outcome (Module' * list plcEffect) := ex_run [PStart 0 (Some (Some (ex_config "line1" 100))) false].
Definition ex_result : Module' * list plcEffect := match ex_started with Ok r => r | _ => (New "", []) end.
Notation ex_module := (fst ex_result).

Definition ex_ops : list plcOp :=
  [PStart 0 (Some (Some (ex_config "line1" 100))) false; PMessage ex_subject (Some ex_pressed); PScan "main"; PTick].

(** The motor's value is published as a consequence of the message. *)
Example ex_motor_published :
  match ex_run ex_ops with
  | Ok (_, es) => last es
  | _ => None
  end = Some (PData "plc.data.plc.motor" (mkData "plc" "plc" "motor" (VBool true) 3 "boolean" "" None false false None None)).
Proof. vm_compute. reflexivity. Qed.

Lemma ex_started_eq : ex_started = Ok (ex_module, snd ex_result).
Proof.
  assert (is_ok ex_started = true) as Hok by (vm_compute; reflexivity).
  unfold ex_result. by destruct ex_started as [[m es]| |].
Defined.

Lemma ex_configured : mConfig ex_module = Some (ex_config "line1" 100).
Proof. vm_compute. reflexivity. Defined.

Lemma ex_inv : plc_inv no_refusal ex_iter ex_module.
Proof. exact (proj1 (plc_run_inv ex_marshal no_refusal ex_iter (λ A m, Permutation_refl _) ex_now ex_programs _ _ _ _ ex_started_eq
  ltac:(repeat split))). Qed.

(** ** Witnesses *)

Lemma plc_state_follows_configuration_witness : (λ v, (rvID v, rvDatatype v, rvDirection v)) <$> mVariables ex_module
  = map_imap (λ id v, Some (id, pvDatatype v, pvDirection v)) (pcVariables (ex_config "line1" 100)).
Proof.
  pose proof (plc_state_follows_configuration ex_marshal no_refusal ex_iter (λ A m, Permutation_refl _) ex_now ex_programs "" _
    ex_module _ ex_started_eq) as H.
  rewrite ex_configured in H. exact (proj1 H).
Defined.

Lemma scan_rate_must_be_positive_witness :
  applyConfig no_refusal ex_iter ex_now ex_programs (Some (ex_config "line1" 0)) (New "") = Panic.
Proof.
  apply (scan_rate_must_be_positive no_refusal ex_iter (λ A m, Permutation_refl _) ex_now ex_programs (New "")
    (ex_config "line1" 0) "main" (ex_task 0)); [reflexivity|reflexivity| |vm_compute; discriminate].
  exists (mkProgram "logic" "ladder" "" "" 0 "gui"), {[ "main" := SFunction () ]}, (). by split_and!.
Defined.

Lemma plc_requests_follow_configuration_witness :
  ∃ r, PPut "scanner_config_modbus" "plc-plc:line1" r ∈ snd (bridge_subscribe no_refusal ex_iter "plc" (ex_config "line1" 100)) ∧
    request_protocol r = "modbus" ∧ request_device r = "line1".
Proof.
  apply (proj1 (plc_requests_follow_configuration no_refusal ex_iter (λ A m, Permutation_refl _) "plc" "modbus" (ex_config "line1" 100)
    ltac:(apply (bool_decide_unpack _); vm_compute; exact I)) "line1").
  apply (bool_decide_unpack _). vm_compute. exact I.
Defined.

Lemma ex_protocols id v src : pcVariables (ex_config "line 1" 100) !! id = Some v → pvSource v = Some src → one_token (psProtocol src).
Proof.
  intros Hv Hs. apply elem_of_map_to_list in Hv.
  assert (forallb (λ kv : string * PlcVariableConfigKV,
      match pvSource kv.2 with Some s => bool_decide (one_token (psProtocol s)) | None => true end)
    (map_to_list (pcVariables (ex_config "line 1" 100))) = true) as Hall by (vm_compute; reflexivity).
  rewrite forallb_forall in Hall. apply list_elem_of_In, Hall in Hv. cbn in Hv. rewrite Hs in Hv.
  by apply bool_decide_eq_true in Hv.
Qed.

(** A device named with a space: its input is asked for and never set. *)
Lemma plc_inputs_follow_scanners_witness :
  "start" ∉ scanner_variables (fst (bridge_subscribe no_refusal ex_iter "plc" (ex_config "line 1" 100)))
    (scanner_subject "modbus" "line 1" "start").
Proof.
  apply (proj2 (plc_inputs_follow_scanners no_refusal ex_iter (λ A m, Permutation_refl _) "plc" (ex_config "line 1" 100) "modbus" "line 1" "start"
    ex_protocols
    ltac:(apply (bool_decide_unpack _); vm_compute; exact I)) ltac:(vm_compute; discriminate) "start" (ex_input "line 1") (ex_source "line 1"));
    reflexivity.
Defined.

Lemma plc_drives_output_witness :
  let m1 := scanner_message ex_now ex_subject (Some ex_pressed) ex_module in
  Get (mVariables m1) "start" = VBool true ∧
  ∃ sent, PData "plc.data.plc.motor" sent ∈ snd (publisher_tick ex_marshal ex_iter ex_now (task_tick ex_now "main" m1)) ∧
    dmVariableID sent = "motor" ∧
    dmValue sent = VBool (forallb (power (mVariables m1)) [elemContact "NO" "start"; elemContact "NC" "stop"]).
Proof.
  apply (plc_drives_output (Htext := ex_text) (Hnum := ex_number) (Hunicode := ex_unicode) (Hmath := ex_math) (Hstar := ex_star)
    (λ v, match v with VBool _ => Some "" | _ => None end) no_refusal ex_iter (λ A m, Permutation_refl _) ex_now ex_module
    (ex_config "line1" 100) "main" (newTaskRunner "main" "logic" 100) (default ∅ (mEngine ex_module))
    (mkCompiled (Hstar := ex_star) "logic" {[ "main" := SFunction () ]} ())
    [elemContact "NO" "start"; elemContact "NC" "stop"] "motor" "start" ex_motor (ex_input "line1") (ex_source "line1") ex_device
    "modbus" "line1" "start" ex_pressed ex_inv ex_configured); try reflexivity.
  all: try (vm_compute; reflexivity). all: try discriminate.
  - intros b. by exists "".
  - apply (bool_decide_unpack _). vm_compute. exact I.
Defined.
