(* ===== verification/PlcLadderText.v ===== *)
(** Ladder programs as text, internal/plc/parser.go: [ParseLadder] reads the tree that the
    third-party Starlark parser makes of a source, [GenerateLadder] writes the canonical
    source. The text is proved to be the layout of a tree that reads back as the program. *)

From S2P Require Export Prelude GoBytes GoText GoUnquote.

#[local] Open Scope Z_scope.

(** ** Programs *)

Inductive LadderElement : Type :=
  mkLadder (leType leTag : string) (lePreset : Z) (leChildren : list (list LadderElement)).

Definition leType (e : LadderElement) : string := let '(mkLadder t _ _ _) := e in t.
Definition leTag (e : LadderElement) : string := let '(mkLadder _ t _ _) := e in t.
Definition lePreset (e : LadderElement) : Z := let '(mkLadder _ _ p _) := e in p.
Definition leChildren (e : LadderElement) : list (list LadderElement) := let '(mkLadder _ _ _ c) := e in c.

Record LadderRung := mkRung {
  lrComment : string;
  lrConditions : list LadderElement;
  lrOutputs : list LadderElement;
}.

Definition LadderProgram : Type := list LadderRung.

Definition isConditionType (t : string) : bool :=
  String.eqb t "NO" || String.eqb t "NC" || String.eqb t "branch" || String.eqb t "series".
Definition is_condition (e : LadderElement) : bool := isConditionType (leType e).

(** ** The trees of go.starlark.net/syntax, as far as the code looks *)

Inductive token := TSTRING | TINT | TOther.

#[export] Instance token_eq_dec : EqDecision token.
Proof. solve_decision. Defined.

Inductive Expr : Type :=
  | CallExpr (fn : Expr) (args : list Expr)
  | Ident (name : string)
  | Literal (tok : token) (raw : string)
  | OtherExpr (type : string).

Inductive Stmt : Type :=
  | DefStmt (name : string) (body : list Stmt)
  | ExprStmt (x : Expr)
  | OtherStmt.

(** The statements of a source, or the parser's error. *)
Class StarlarkSyntax := { syntax_Parse : string → outcome (list Stmt) }.

(** ** Reading *)

Definition callName (fn : Expr) : string := match fn with Ident name => name | _ => "" end.

(** The type that the error message names. *)
Definition expr_type (e : Expr) : string :=
  match e with
  | CallExpr _ _ => "*syntax.CallExpr" | Ident _ => "*syntax.Ident" | Literal _ _ => "*syntax.Literal" | OtherExpr t => t
  end.

(** [%w] around an error. *)
Definition wrap {A} (prefix : string) (o : outcome A) : outcome A :=
  match o with Err e => Err (prefix +:+ ": " +:+ e) | o => o end.

Definition extractStringArg (args : list Expr) (idx : nat) : outcome string :=
  match args !! idx with
  | None => Err ("missing argument " +:+ itoa (Z.of_nat idx))
  | Some (Literal TSTRING raw) => Ok (match unquote raw with Some s => s | None => raw end)
  | Some _ => Err ("argument " +:+ itoa (Z.of_nat idx) +:+ ": expected string literal")
  end.

Section Reading.
Context `{UnicodeTables}.

(** The text of a [strconv.NumError]. *)
Definition atoi_error (raw : string) (e : num_error) : string :=
  "strconv.Atoi: parsing " +:+ quote raw +:+ match e with NumRange => ": value out of range" | _ => ": invalid syntax" end.

Definition extractIntArg (args : list Expr) (idx : nat) : outcome Z :=
  match args !! idx with
  | None => Err ("missing argument " +:+ itoa (Z.of_nat idx))
  | Some (Literal TINT raw) =>
      match atoi raw with
      | (n, NumOK) => Ok n
      | (_, e) => Err ("argument " +:+ itoa (Z.of_nat idx) +:+ ": " +:+ atoi_error raw e)
      end
  | Some _ => Err ("argument " +:+ itoa (Z.of_nat idx) +:+ ": expected integer literal")
  end.

Definition with_tag (name : string) : bool :=
  String.eqb name "NO" || String.eqb name "NC" || String.eqb name "OTE" || String.eqb name "OTL" || String.eqb name "OTU"
  || String.eqb name "RES".
Definition with_preset (name : string) : bool :=
  String.eqb name "TON" || String.eqb name "TOF" || String.eqb name "CTU" || String.eqb name "CTD".

(** A path of a branch: a series is unwrapped. *)
Definition unwrap (child : LadderElement) : list LadderElement :=
  match leType child, leChildren child with
  | "series", [path] => path
  | _, _ => [child]
  end.

Fixpoint parseElement (e : Expr) : outcome LadderElement :=
  match e with
  | CallExpr fn args =>
      let name := callName fn in
      let parse_all := fix parse_all (who : string) (args : list Expr) : outcome (list LadderElement) :=
        match args with
        | [] => Ok []
        | a :: args' => child ← wrap who (parseElement a); rest ← parse_all who args'; Ok (child :: rest)
        end in
      if with_tag name then tag ← wrap name (extractStringArg args 0); Ok (mkLadder name tag 0 [])
      else if with_preset name then
        tag ← wrap name (extractStringArg args 0);
        preset ← wrap name (extractIntArg args 1);
        Ok (mkLadder name tag preset [])
      else if String.eqb name "branch" then
        children ← parse_all "branch" args; Ok (mkLadder "branch" "" 0 (map unwrap children))
      else if String.eqb name "series" then
        path ← parse_all "series" args; Ok (mkLadder "series" "" 0 [path])
      else Err ("unknown element: " +:+ name)
  | _ => Err ("expected call expression, got " +:+ expr_type e)
  end.

(** The loop over arguments, stopping at the first error. *)
Fixpoint parse_elements (who : string) (args : list Expr) : outcome (list LadderElement) :=
  match args with
  | [] => Ok []
  | a :: args' => child ← wrap who (parseElement a); rest ← parse_elements who args'; Ok (child :: rest)
  end.

(** [parseRungCall]: [None] is a call of something else. *)
Definition parseRungCall (fn : Expr) (args : list Expr) : outcome (option LadderRung) :=
  if negb (String.eqb (callName fn) "rung") then Ok None
  else
    elems ← parse_elements "rung" args;
    Ok (Some (mkRung "" (filter (λ e, is_condition e = true) elems) (filter (λ e, is_condition e = false) elems))).

Fixpoint parse_body (body : list Stmt) : outcome LadderProgram :=
  match body with
  | [] => Ok []
  | ExprStmt (CallExpr fn args) :: body' =>
      rung ← parseRungCall fn args;
      rest ← parse_body body';
      Ok (option_list rung ++ rest)
  | _ :: body' => parse_body body'
  end.

(** The first [def main] at the top level. *)
Fixpoint main_body (stmts : list Stmt) : option (list Stmt) :=
  match stmts with
  | [] => None
  | DefStmt name body :: stmts' => if String.eqb name "main" then Some body else main_body stmts'
  | _ :: stmts' => main_body stmts'
  end.

Definition ParseLadder `{StarlarkSyntax} (source : string) : outcome LadderProgram :=
  stmts ← wrap "parse" (syntax_Parse source);
  match main_body stmts with
  | None => Err "parse: no main() function found"
  | Some body => parse_body body
  end.

End Reading.

(** ** Writing *)

Section Text.
Context `{UnicodeTables}.

Fixpoint spaces (indent : nat) : string := match indent with O => "" | S n => "    " +:+ spaces n end.
Definition nl : string := str ["010"%char].

Fixpoint appendElement (indent : nat) (e : LadderElement) : string :=
  let '(mkLadder t tag preset children) := e in
  let prefix := spaces indent in
  prefix +:+
  if with_tag t then t +:+ "(" +:+ quote tag +:+ ")"
  else if with_preset t then t +:+ "(" +:+ quote tag +:+ ", " +:+ itoa preset +:+ ")"
  else if String.eqb t "branch" then
    "branch(" +:+ nl +:+
    (fix paths (ps : list (list LadderElement)) : string :=
       match ps with
       | [] => ""
       | path :: ps' =>
           match path with
           | [x] => appendElement (indent + 1) x
           | _ =>
               prefix +:+ "    series(" +:+ nl +:+
               (fix elems (es : list LadderElement) : string :=
                  match es with
                  | [] => ""
                  | x :: es' => appendElement (indent + 2) x +:+ "," +:+ nl +:+ elems es'
                  end) path +:+
               prefix +:+ "    )"
           end +:+ "," +:+ nl +:+ paths ps'
       end) children +:+ prefix +:+ ")"
  else if String.eqb t "series" then
    "series(" +:+ nl +:+
    match children with
    | [] => ""
    | path :: _ =>
        (fix elems (es : list LadderElement) : string :=
           match es with
           | [] => ""
           | x :: es' => appendElement (indent + 1) x +:+ "," +:+ nl +:+ elems es'
           end) path
    end +:+ prefix +:+ ")"
  else "".

Fixpoint rung_lines (es : list LadderElement) : string :=
  match es with
  | [] => ""
  | x :: es' => appendElement 2 x +:+ "," +:+ nl +:+ rung_lines es'
  end.

(** The comment's text is written as it is, after the sign. *)
Definition generate_rung (r : LadderRung) : string :=
  (if String.eqb (lrComment r) "" then "" else "    # " +:+ lrComment r +:+ nl) +:+
  "    rung(" +:+ nl +:+ rung_lines (lrConditions r ++ lrOutputs r) +:+ "    )" +:+ nl.

(** A blank line between rungs. *)
Fixpoint generate_rungs (prog : LadderProgram) : string :=
  match prog with
  | [] => ""
  | [r] => generate_rung r
  | r :: prog' => generate_rung r +:+ nl +:+ generate_rungs prog'
  end.

Definition GenerateLadder (prog : LadderProgram) : string := "def main():" +:+ nl +:+ generate_rungs prog.

End Text.

(** ** The layout of trees

    Calls of [rung], [branch] and [series] have an argument per line; other calls are on one
    line, and their arguments are literals. *)
Section Layout.
Context `{UnicodeTables}.

Definition literal_text (e : Expr) : string := match e with Literal _ raw => raw | _ => "" end.

Fixpoint layout (indent : nat) (e : Expr) : string :=
  match e with
  | CallExpr fn args =>
      let name := callName fn in
      spaces indent +:+ name +:+ "(" +:+
      if String.eqb name "rung" || String.eqb name "branch" || String.eqb name "series" then
        nl +:+ (fix lines (es : list Expr) : string :=
                  match es with
                  | [] => ""
                  | a :: es' => layout (indent + 1) a +:+ "," +:+ nl +:+ lines es'
                  end) args +:+ spaces indent +:+ ")"
      else str_join ", " (map literal_text args) +:+ ")"
  | _ => spaces indent +:+ literal_text e
  end.

Definition lines (indent : nat) : list Expr → string :=
  fix lines (es : list Expr) : string :=
    match es with
    | [] => ""
    | a :: es' => layout indent a +:+ "," +:+ nl +:+ lines es'
    end.

(** A program: its calls of [rung], each below its comment. *)
Definition layout_statement (s : string * Expr) : string :=
  (if String.eqb s.1 "" then "" else "    # " +:+ s.1 +:+ nl) +:+ layout 1 s.2 +:+ nl.

Fixpoint layout_statements (l : list (string * Expr)) : string :=
  match l with
  | [] => ""
  | [s] => layout_statement s
  | s :: l' => layout_statement s +:+ nl +:+ layout_statements l'
  end.

Definition layout_main (l : list (string * Expr)) : string := "def main():" +:+ nl +:+ layout_statements l.

(** ** The tree of a program

    A negative number is the application of an operator. *)
Definition int_tree (z : Z) : Expr := if z <? 0 then OtherExpr "*syntax.UnaryExpr" else Literal TINT (itoa z).

Definition call (name : string) (args : list Expr) : Expr := CallExpr (Ident name) args.

Fixpoint tree (e : LadderElement) : Expr :=
  let '(mkLadder t tag preset children) := e in
  if with_tag t then call t [Literal TSTRING (quote tag)]
  else if with_preset t then call t [Literal TSTRING (quote tag); int_tree preset]
  else if String.eqb t "branch" then
    call t (map (λ path, match path with [x] => tree x | _ => call "series" (map tree path) end) children)
  else call t (match children with [] => [] | path :: _ => map tree path end).

Definition path_tree (path : list LadderElement) : Expr :=
  match path with [x] => tree x | _ => call "series" (map tree path) end.

Definition rung_tree (r : LadderRung) : Expr := call "rung" (map tree (lrConditions r ++ lrOutputs r)).

(** Elements as the editor and the parser make them. *)
Fixpoint normal (e : LadderElement) : bool :=
  let '(mkLadder t tag preset children) := e in
  let plain := bool_decide (Forall ascii_char (chars tag)) in
  if with_tag t then (preset =? 0) && bool_decide (length children = 0%nat) && plain
  else if with_preset t then (0 <=? preset) && (preset <? 2 ^ 63) && bool_decide (length children = 0%nat) && plain
  else if String.eqb t "branch" then
    (preset =? 0) && String.eqb tag "" &&
    forallb (λ path, match path with [x] => negb (String.eqb (leType x) "series") && normal x | _ => forallb normal path end) children
  else if String.eqb t "series" then
    (preset =? 0) && String.eqb tag "" && match children with [path] => forallb normal path | _ => false end
  else false.

Lemma LadderElement_ind' (P : LadderElement → Prop) :
  (∀ t tag p ch, Forall (Forall P) ch → P (mkLadder t tag p ch)) → ∀ e, P e.
Proof.
  intros HP. fix IH 1. intros [t tag p ch]. apply HP.
  induction ch as [|es ch IHch]; constructor; [|done].
  induction es as [|e es IHes]; constructor; [apply IH|done].
Qed.

(** *** Reading a tree back *)

Lemma parse_elements_map who es : Forall (λ e, parseElement (tree e) = Ok e) es → parse_elements who (map tree es) = Ok es.
Proof. induction 1 as [|e es He _ IH]; cbn [map parse_elements]; [done|]. by rewrite He, IH. Qed.

Lemma extract_quoted tag args : Forall ascii_char (chars tag) → extractStringArg (Literal TSTRING (quote tag) :: args) 0 = Ok tag.
Proof. intros Ht. unfold extractStringArg. change ((?a :: ?l) !! 0%nat) with (Some a). cbv iota. by rewrite unquote_quote. Qed.

Lemma extract_number a z args : 0 ≤ z < 2 ^ 63 → extractIntArg (a :: int_tree z :: args) 1 = Ok z.
Proof.
  intros Hz. unfold extractIntArg, int_tree. rewrite (proj2 (Z.ltb_ge _ _)) by lia.
  change ((?a :: ?b :: ?l) !! 1%nat) with (Some b). cbv iota. rewrite atoi_itoa by (unfold in_s; lia). done.
Qed.

Lemma parse_call_branch args : parseElement (call "branch" args) =
  (children ← parse_elements "branch" args; Ok (mkLadder "branch" "" 0 (map unwrap children))).
Proof. reflexivity. Qed.

Lemma parse_call_series args : parseElement (call "series" args) =
  (path ← parse_elements "series" args; Ok (mkLadder "series" "" 0 [path])).
Proof. reflexivity. Qed.

Lemma parse_paths ch : Forall (Forall (λ e, normal e = true → parseElement (tree e) = Ok e)) ch →
  forallb (λ path, match path with [x] => negb (String.eqb (leType x) "series") && normal x | _ => forallb normal path end) ch = true →
  ∃ children, parse_elements "branch" (map path_tree ch) = Ok children ∧ map unwrap children = ch.
Proof.
  induction 1 as [|path ch Hpath _ IH]; intros Hn; [by exists []|]. cbn [forallb] in Hn. apply andb_prop in Hn as [Hp Hn].
  destruct (IH Hn) as (children & Hch & Hun). cbn [map parse_elements]. rewrite Hch.
  enough (∃ x, parseElement (path_tree path) = Ok x ∧ unwrap x = path) as (x & -> & Hx).
  { exists (x :: children). cbn [map]. by rewrite Hx, Hun. }
  assert (∀ l, l = path → forallb normal l = true → path_tree path = call "series" (map tree path) →
    ∃ x, parseElement (path_tree path) = Ok x ∧ unwrap x = path) as Hseries.
  { intros l -> Hall ->. rewrite parse_call_series, parse_elements_map; [cbn; eauto|].
    rewrite forallb_forall in Hall. apply Forall_forall. intros y Hy. rewrite Forall_forall in Hpath.
    apply Hpath; [done|]. by apply Hall, list_elem_of_In. }
  destruct path as [|x [|y l]]; [by eapply Hseries| |by eapply Hseries].
  apply andb_prop in Hp as [Hty Hx]. apply Forall_cons in Hpath as [Hpx _]. exists x. split; [by apply Hpx|].
  unfold unwrap. apply negb_true_iff, String.eqb_neq in Hty. destruct x as [t tag p c]. cbn in Hty |- *.
  repeat case_match; done.
Qed.

Lemma parse_tree e : normal e = true → parseElement (tree e) = Ok e.
Proof.
  induction e as [t tag p ch IH] using LadderElement_ind'. cbn [normal tree].
  destruct (with_tag t) eqn:Ht.
  { intros ((->%Z.eqb_eq & Hc%bool_decide_eq_true)%andb_prop & Hpl%bool_decide_eq_true)%andb_prop.
    destruct ch; [|done]. cbn [call parseElement callName]. rewrite Ht, extract_quoted by done. done. }
  destruct (with_preset t) eqn:Hp.
  { intros (((Hlo%Z.leb_le & Hhi%Z.ltb_lt)%andb_prop & Hc%bool_decide_eq_true)%andb_prop & Hpl%bool_decide_eq_true)%andb_prop.
    destruct ch; [|done]. cbn [call parseElement callName]. rewrite Ht, Hp, extract_quoted, extract_number by done. done. }
  destruct (String.eqb_spec t "branch") as [->|Hb].
  { intros ((->%Z.eqb_eq & ->%String.eqb_eq)%andb_prop & Hn)%andb_prop.
    change (map _ ch) with (map path_tree ch). rewrite parse_call_branch.
    destruct (parse_paths ch IH Hn) as (children & -> & Hun). cbn. by rewrite Hun. }
  destruct (String.eqb_spec t "series") as [->|Hs]; [|done].
  intros ((->%Z.eqb_eq & ->%String.eqb_eq)%andb_prop & Hn)%andb_prop. destruct ch as [|path [|]]; [done| |done].
  rewrite parse_call_series, parse_elements_map; [done|]. rewrite forallb_forall in Hn.
  apply Forall_cons in IH as [IH _]. rewrite Forall_forall in IH. apply Forall_forall. intros y Hy.
  apply IH; [done|]. by apply Hn, list_elem_of_In.
Qed.

(** *** The text is the layout of the tree *)

Lemma spaces_snoc n : spaces (n + 1) = spaces n +:+ "    ".
Proof.
  rewrite Nat.add_1_r. induction n as [|n IH]; [done|].
  change (spaces (S (S n))) with ("    " +:+ spaces (S n)). rewrite IH at 1. apply string_app_assoc.
Qed.

(** The loop over the elements of a path. *)
Definition element_lines (indent : nat) : list LadderElement → string :=
  fix elems (es : list LadderElement) : string :=
    match es with
    | [] => ""
    | x :: es' => appendElement indent x +:+ "," +:+ nl +:+ elems es'
    end.

Definition path_text (indent : nat) (path : list LadderElement) : string :=
  match path with
  | [x] => appendElement (indent + 1) x
  | _ => spaces indent +:+ "    series(" +:+ nl +:+ element_lines (indent + 2) path +:+ spaces indent +:+ "    )"
  end.

Definition path_lines (indent : nat) : list (list LadderElement) → string :=
  fix paths (ps : list (list LadderElement)) : string :=
    match ps with
    | [] => ""
    | path :: ps' => path_text indent path +:+ "," +:+ nl +:+ paths ps'
    end.

Lemma append_branch n ch : appendElement n (mkLadder "branch" "" 0 ch)
  = spaces n +:+ "branch(" +:+ nl +:+ path_lines n ch +:+ spaces n +:+ ")".
Proof. reflexivity. Qed.

Lemma append_series n path : appendElement n (mkLadder "series" "" 0 [path])
  = spaces n +:+ "series(" +:+ nl +:+ element_lines (n + 1) path +:+ spaces n +:+ ")".
Proof. reflexivity. Qed.

Lemma layout_call n name args : (String.eqb name "rung" || String.eqb name "branch" || String.eqb name "series") = true →
  layout n (call name args) = spaces n +:+ name +:+ "(" +:+ nl +:+ lines (n + 1) args +:+ spaces n +:+ ")".
Proof. intros Hn. cbn [layout call callName]. by rewrite Hn. Qed.

Lemma element_lines_layout n es : Forall (λ e, ∀ n, appendElement n e = layout n (tree e)) es →
  element_lines n es = lines n (map tree es).
Proof. induction 1 as [|e es He _ IH]; cbn [map]; [done|].
  change (appendElement n e +:+ "," +:+ nl +:+ element_lines n es = layout n (tree e) +:+ "," +:+ nl +:+ lines n (map tree es)).
  by rewrite He, IH. Qed.

Lemma path_layout n path : Forall (λ e, ∀ n, appendElement n e = layout n (tree e)) path →
  path_text n path = layout (n + 1) (path_tree path).
Proof.
  intros Hp. assert (∀ l, l = path → spaces n +:+ "    series(" +:+ nl +:+ element_lines (n + 2) l +:+ spaces n +:+ "    )"
    = layout (n + 1) (call "series" (map tree l))) as Hs.
  { intros l ->. rewrite layout_call, spaces_snoc by done. rewrite (element_lines_layout _ _ Hp).
    replace (n + 1 + 1)%nat with (n + 2)%nat by lia. rewrite <- !string_app_assoc. done. }
  destruct path as [|x [|y l]]; [by apply Hs| |by apply Hs].
  apply Forall_cons in Hp as [Hx _]. by apply Hx.
Qed.

Lemma path_lines_layout n ch : Forall (Forall (λ e, ∀ n, appendElement n e = layout n (tree e))) ch →
  path_lines n ch = lines (n + 1) (map path_tree ch).
Proof. induction 1 as [|path ch Hp _ IH]; cbn [map]; [done|].
  change (path_text n path +:+ "," +:+ nl +:+ path_lines n ch
    = layout (n + 1) (path_tree path) +:+ "," +:+ nl +:+ lines (n + 1) (map path_tree ch)).
  by rewrite path_layout, IH. Qed.

(** A condition that holds of an element holds of the nested ones. *)
Lemma normal_paths t tag p ch : normal (mkLadder t tag p ch) = true → Forall (Forall (λ e, normal e = true)) ch.
Proof.
  cbn [normal]. intros Hn. repeat case_if; bool_to_prop.
  - destruct ch; [constructor|]. by cbn in *.
  - destruct ch; [constructor|]. by cbn in *.
  - match goal with Hf : forallb _ ch = true |- _ => rewrite forallb_forall in Hf; rename Hf into Hall end.
    apply Forall_forall. intros path Hin%list_elem_of_In%Hall.
    assert (∀ l, forallb normal l = true → Forall (λ e, normal e = true) l) as Hl.
    { intros l Hf. rewrite forallb_forall in Hf. apply Forall_forall. intros e He. by apply Hf, list_elem_of_In. }
    destruct path as [|x [|y l]]; [by apply Hl| |by apply Hl]. apply andb_prop in Hin as [_ Hx]. by repeat constructor.
  - destruct ch as [|path [|]]; try discriminate. constructor; [|constructor]. apply Forall_forall. intros e He.
    match goal with Hf : forallb normal path = true |- _ => rewrite forallb_forall in Hf; by apply Hf, list_elem_of_In end.
  - done.
Qed.

Lemma append_layout e : normal e = true → ∀ n, appendElement n e = layout n (tree e).
Proof.
  induction e as [t tag p ch IH] using LadderElement_ind'. intros Hn n.
  assert (Forall (Forall (λ e, ∀ n, appendElement n e = layout n (tree e))) ch) as Hch.
  { pose proof (normal_paths _ _ _ _ Hn) as Hall. clear Hn. induction ch as [|path ch IHch]; constructor.
    - apply Forall_cons in IH as [Hp _], Hall as [Hq _]. clear IHch. induction path as [|x path IHp]; constructor.
      + apply Forall_cons in Hp as [Hx _], Hq as [Hx' _]. by apply Hx.
      + apply Forall_cons in Hp as [_ Hp], Hq as [_ Hq]. by apply IHp.
    - apply Forall_cons in IH as [_ IH], Hall as [_ Hall]. by apply IHch. }
  cbn [normal tree] in *.
  destruct (with_tag t) eqn:Ht.
  { cbn [appendElement]. rewrite Ht. cbn [layout call callName]. unfold with_tag in Ht.
    assert ((String.eqb t "rung" || String.eqb t "branch" || String.eqb t "series") = false) as ->; [|done].
    repeat (apply orb_prop in Ht as [Ht|Ht]); apply String.eqb_eq in Ht as ->; done. }
  destruct (with_preset t) eqn:Hp.
  { cbn [appendElement]. rewrite Ht, Hp. cbn [layout call callName]. unfold with_preset in Hp.
    assert ((String.eqb t "rung" || String.eqb t "branch" || String.eqb t "series") = false) as ->.
    { repeat (apply orb_prop in Hp as [Hp|Hp]); apply String.eqb_eq in Hp as ->; done. }
    clear Hp. bool_to_prop. unfold int_tree. rewrite (proj2 (Z.ltb_ge _ _)) by done. cbn [map literal_text].
    change (str_join ", " [quote tag; itoa p]) with (quote tag +:+ ", " +:+ itoa p). by rewrite <- !string_app_assoc. }
  destruct (String.eqb_spec t "branch") as [->|Hb].
  { bool_to_prop. match goal with H : String.eqb tag _ = true |- _ => apply String.eqb_eq in H as -> end. subst p.
    change (map _ ch) with (map path_tree ch).
    by rewrite append_branch, layout_call, path_lines_layout by done. }
  destruct (String.eqb_spec t "series") as [->|Hs]; [|done].
  bool_to_prop. match goal with H : String.eqb tag _ = true |- _ => apply String.eqb_eq in H as -> end. subst p.
  destruct ch as [|path [|]]; try discriminate. apply Forall_cons in Hch as [Hpath _].
  by rewrite append_series, layout_call, element_lines_layout by done.
Qed.

(** ** Programs *)

(** Conditions and outputs in their places. *)
Definition normal_rung (r : LadderRung) : bool :=
  forallb (λ e, normal e && is_condition e) (lrConditions r) && forallb (λ e, normal e && negb (is_condition e)) (lrOutputs r).

Lemma normal_elements r : normal_rung r = true →
  Forall (λ e, normal e = true) (lrConditions r ++ lrOutputs r) ∧
  Forall (λ e, is_condition e = true) (lrConditions r) ∧ Forall (λ e, is_condition e = false) (lrOutputs r).
Proof.
  unfold normal_rung. intros [Hc Ho]%andb_prop. rewrite forallb_forall in Hc, Ho.
  split_and!; [apply Forall_app; split| |]; apply Forall_forall; intros e He%list_elem_of_In.
  - by apply Hc, andb_prop in He as [? _].
  - by apply Ho, andb_prop in He as [? _].
  - by apply Hc, andb_prop in He as [_ ?].
  - apply Ho, andb_prop in He as [_ He]. by apply negb_true_iff.
Qed.

Definition statements (prog : LadderProgram) : list (string * Expr) := map (λ r, (lrComment r, rung_tree r)) prog.

Lemma rung_lines_layout es : Forall (λ e, normal e = true) es → rung_lines es = lines 2 (map tree es).
Proof.
  induction 1 as [|e es He _ IH]; cbn [rung_lines map]; [done|]. rewrite (append_layout e He), IH. reflexivity.
Qed.

Lemma generate_rung_layout r : normal_rung r = true → generate_rung r = layout_statement (lrComment r, rung_tree r).
Proof.
  intros (Hn & _ & _)%normal_elements. unfold generate_rung, layout_statement, rung_tree. cbn [fst snd].
  rewrite rung_lines_layout, layout_call by done. f_equal. change (spaces 1) with "    ". rewrite <- !string_app_assoc. done.
Qed.

(** The generated text is the layout of the program's tree. *)
Lemma generate_layout prog : forallb normal_rung prog = true → GenerateLadder prog = layout_main (statements prog).
Proof.
  intros Hn. unfold GenerateLadder, layout_main. do 2 f_equal. induction prog as [|r prog IH]; [done|].
  cbn [forallb] in Hn. apply andb_prop in Hn as [Hr Hn]. specialize (IH Hn).
  destruct prog as [|r' prog]; [by apply generate_rung_layout|].
  change (generate_rungs (r :: r' :: prog)) with (generate_rung r +:+ nl +:+ generate_rungs (r' :: prog)).
  rewrite IH, generate_rung_layout by done. reflexivity.
Qed.

Lemma filter_all {A} (P : A → Prop) `{∀ x, Decision (P x)} l : Forall P l → filter P l = l.
Proof. induction 1 as [|x l Hx _ IH]; [done|]. by rewrite filter_cons_True, IH. Qed.

Lemma filter_none {A} (P : A → Prop) `{∀ x, Decision (P x)} l : Forall (λ x, ¬ P x) l → filter P l = [].
Proof. induction 1 as [|x l Hx _ IH]; [done|]. by rewrite filter_cons_False, IH. Qed.

Definition without_comment (r : LadderRung) : LadderRung := mkRung "" (lrConditions r) (lrOutputs r).

Lemma parse_rung r : normal_rung r = true →
  parseRungCall (Ident "rung") (map tree (lrConditions r ++ lrOutputs r)) = Ok (Some (without_comment r)).
Proof.
  intros (Hn & Hc & Ho)%normal_elements. unfold parseRungCall. cbn [callName].
  change (negb (String.eqb "rung" "rung")) with false. cbv iota.
  rewrite parse_elements_map by (eapply Forall_impl; [exact Hn|apply parse_tree]). cbn [mbind outcome_bind].
  rewrite !filter_app, (filter_all _ (lrConditions r)), (filter_none _ (lrOutputs r)), app_nil_r by
    (done || (eapply Forall_impl; [exact Ho|]; cbn; congruence)).
  rewrite (filter_none _ (lrConditions r)), (filter_all _ (lrOutputs r)) by
    (done || (eapply Forall_impl; [exact Hc|]; cbn; congruence)).
  done.
Qed.

Lemma parse_rungs prog : forallb normal_rung prog = true →
  parse_body (map (λ r, ExprStmt (rung_tree r)) prog) = Ok (map without_comment prog).
Proof.
  induction prog as [|r prog IH]; intros Hn; [done|]. cbn [forallb] in Hn. apply andb_prop in Hn as [Hr Hn].
  cbn [map parse_body rung_tree call]. by rewrite parse_rung, (IH Hn).
Qed.

(** C31: Writing a ladder program of normal rungs and reading it back gives the program without
    its comments: the generated source is the layout of a tree ([syntax_Parse] is assumed to
    read this layout as that tree, which is what a parser does), and the tree's rungs have the
    same conditions and outputs, branches and series nested as they were, tags and presets
    intact. A rung is normal ([normal_rung]) when its tags are ASCII, its presets lie between 0
    and 2^63 - 1, an element has only the fields of its kind, a path of a branch that is one
    element is that element and one of several a list, and conditions stand before outputs. A
    negative preset is refused when read back ([negative_preset_refused]). *)
Theorem ladder_roundtrip `{StarlarkSyntax} (prog : LadderProgram) : forallb normal_rung prog = true →
  syntax_Parse (layout_main (map (λ r, (lrComment r, rung_tree r)) prog))
    = Ok [DefStmt "main" (map (λ r, ExprStmt (rung_tree r)) prog)] →
  ParseLadder (GenerateLadder prog) = Ok (map (λ r, mkRung "" (lrConditions r) (lrOutputs r)) prog).
Proof.
  intros Hn Hparse. unfold ParseLadder. rewrite generate_layout by done. unfold statements. rewrite Hparse.
  cbn [wrap mbind outcome_bind main_body]. change (String.eqb "main" "main") with true. cbv iota. by apply parse_rungs.
Qed.

(** *** Literals that are not read back *)

(** A negative preset is written as a number with its sign, which is read as an operator. *)
Lemma negative_preset_refused t tag p : with_preset t = true → p < 0 → Forall ascii_char (chars tag) →
  parseElement (tree (mkLadder t tag p [])) = Err (t +:+ ": argument 1: expected integer literal").
Proof.
  intros Ht Hp Htag. assert (with_tag t = false) as Hw.
  { unfold with_preset in Ht. repeat (apply orb_prop in Ht as [Ht|Ht]); apply String.eqb_eq in Ht as ->; done. }
  cbn [tree]. rewrite Hw, Ht. cbn [call parseElement callName]. rewrite Hw, Ht, extract_quoted by done.
  unfold int_tree. rewrite (proj2 (Z.ltb_lt _ _)) by done. done.
Qed.

(** A tag between single quotes keeps its quotes, because [strconv.Unquote] reads them as
    those of a character. *)
Lemma single_quotes_kept c1 c2 l args : c1 ≠ backslash → c1 ≠ squote → c1 ≠ newline → c2 ≠ squote → ascii_char c1 →
  let raw := str (squote :: c1 :: c2 :: l ++ [squote]) in
  extractStringArg (Literal TSTRING raw :: args) 0 = Ok raw.
Proof.
  intros H1 H2 H3 H4 Ha raw. unfold extractStringArg. change ((?a :: ?l) !! 0%nat) with (Some a). cbv iota.
  enough (unquote raw = None) as -> by done. unfold unquote, raw. rewrite chars_str.
  change (Ascii.eqb squote backquote) with false. change (Ascii.eqb squote dquote || Ascii.eqb squote squote) with true.
  cbv iota. cbn [unquote_loop]. rewrite (proj2 (Ascii.eqb_neq c1 squote)) by done. unfold unquote_char.
  rewrite (proj2 (Ascii.eqb_neq c1 squote)), (proj2 (Ascii.eqb_neq c1 backslash)), (proj2 (Ascii.eqb_neq c1 newline)) by done.
  unfold ascii_char in Ha. rewrite (proj2 (Z.leb_gt _ _)) by done. cbn [andb negb].
  change (Ascii.eqb squote squote) with true. cbv iota. by destruct l.
Qed.

End Layout.

(** ** Witness *)

Definition ex_text_program : LadderProgram :=
  [mkRung "seal-in" [mkLadder "branch" "" 0 [[mkLadder "NO" "start" 0 []]; [mkLadder "NO" "run" 0 []; mkLadder "NC" "stop" 0 []]]]
     [mkLadder "OTE" "run" 0 []];
   mkRung "" [mkLadder "NO" "run" 0 []] [mkLadder "TON" "T1" 100 []]].

Definition ex_source_text : string := str (concat (map (λ l, chars l ++ ["010"%char])
  ["def main():"; "    # seal-in"; "    rung("; "        branch("; "            NO('start'),"; "            series(";
   "                NO('run'),"; "                NC('stop'),"; "            ),"; "        ),"; "        OTE('run'),"; "    )"; "";
   "    rung("; "        NO('run'),"; "        TON('T1', 100),"; "    )"])).
Definition quotes (s : string) : string := str (map (λ c, if Ascii.eqb c squote then dquote else c) (chars s)).

(** A parser that knows one source. *)
Definition ex_syntax (t : UnicodeTables) : StarlarkSyntax :=
  {| syntax_Parse s := if String.eqb s (quotes ex_source_text)
       then Ok [DefStmt "main" (map (λ r, ExprStmt (rung_tree r)) ex_text_program)] else Err "syntax error" |}.

Example ex_text_generated : let _ := ascii_tables in GenerateLadder ex_text_program = quotes ex_source_text.
Proof. vm_compute. reflexivity. Qed.

Lemma ladder_roundtrip_witness : let _ := ascii_tables in let _ := ex_syntax ascii_tables in
  ParseLadder (GenerateLadder ex_text_program)
  = Ok (map (λ r, mkRung "" (lrConditions r) (lrOutputs r)) ex_text_program).
Proof.
  intros t1 t2. apply (@ladder_roundtrip ascii_tables (ex_syntax ascii_tables) ex_text_program); vm_compute; reflexivity.
Defined.
