(* ===== verification/MqttBridge.v ===== *)
(** The Sparkplug bridge: internal/mqtt/bridge.go and types.go.

    The bridge takes the gateway's messages off the bus, decides by exception what to
    publish, turns values into metrics, publishes them through the node or buffers them,
    and keeps the births of the node up to date. It is a client of the node
    ([NodeClient]). Clocks are in milliseconds, those of the store-and-forward buffer in
    nanoseconds; JSON has been decoded ([None] where decoding failed). *)

From S2P Require Import StoreForward.
From S2P Require Export PlcTypes.
From S2P Require Export SparkplugNode.
From S2P Require Topics.

#[local] Open Scope Z_scope.

(** ** Tracked variables and templates (types.go) *)

Record PlcVariable := mkVariable {
  vID : string;
  vDescription : string;
  vDatatype : string;
  vValue : value;
  vLastUpdated : Z;
  vModuleID : string;
  vDeviceID : string;
  vDeadband : option Types.DeadBandConfig;
  vMemberDeadbands : gmap string Types.DeadBandConfig;
  vDisableRBE : bool;
  vUdtTemplate : option UdtTemplateDefinition;
  vSparkplugType : Z;
  vRBEState : Internal.State;
  vMemberRBEStates : gmap string Internal.State;
}.

Definition with_rbe (pv : PlcVariable) (st : Internal.State) (ms : gmap string Internal.State) : PlcVariable :=
  mkVariable (vID pv) (vDescription pv) (vDatatype pv) (vValue pv) (vLastUpdated pv) (vModuleID pv) (vDeviceID pv)
    (vDeadband pv) (vMemberDeadbands pv) (vDisableRBE pv) (vUdtTemplate pv) (vSparkplugType pv) st ms.

(** The template registry: name to definition. *)
Definition Has (r : gmap string Template) (name : string) : bool := bool_decide (is_Some (r !! name)).
Definition Register (r : gmap string Template) (name : string) (t : Template) : gmap string Template := <[name := t]> r.

Definition variableKey (moduleID deviceID variableID : string) : string :=
  moduleID +:+ ":" +:+ deviceID +:+ ":" +:+ variableID.

(** ** Values *)

Section Values.
Context `{FloatConv} `{FloatText} `{JsonNumber}.

Definition coerceValue (v : value) (spType : Z) : value :=
  match v with
  | VNil => VNil
  | _ =>
      if spType =? TypeDouble then
        VFloat64 match v with
                 | VFloat64 f => f
                 | VFloat32 f => f64_of_f32 f
                 | VJsonNumber s => number_Float64 s
                 | VInt KInt n | VInt KInt64 n => f64_of_Z n
                 | _ => f64_zero
                 end
      else if spType =? TypeFloat then
        VFloat32 match v with VFloat64 f => f32_of_f64 f | VFloat32 f => f | _ => 0 end
      else if spType =? TypeBoolean then
        VBool match v with
              | VBool b => b
              | VFloat64 f => negb (f64_eqb f f64_zero)
              | VString s => String.eqb s "true" || String.eqb s "1" || String.eqb s "on" || String.eqb s "yes"
              | _ => false
              end
      else if is_string_type spType then VString match v with VString s => s | _ => fmt_v v end
      else if spType =? TypeInt32 then
        VInt KUint32 match v with VFloat64 f => wrapu 32 (to_int 32 f) | _ => 0 end
      else if spType =? TypeUInt64 then
        VInt KUint64 match v with VFloat64 f => to_uint 64 f | _ => 0 end
      else v
  end.

(** [v, ok := m[k]] on decoded JSON. *)
Definition member (m : list (string * value)) (k : string) : option value :=
  snd <$> find (λ kv, String.eqb kv.1 k) m.

Definition udtToTemplateMetric (pv : PlcVariable) (tmpl : UdtTemplateDefinition) (v : value) (nowMs : Z) : Metric :=
  let tmplMetrics :=
    match v with
    | VMap members =>
        omap (λ mdef, mval ← member members (umName mdef);
                      let mtype := NatsToSparkplugType (umDatatype mdef) in
                      Some (mkMetric (umName mdef) 0 (wrapu 64 nowMs) mtype false false false
                              (Plain (coerceValue mval mtype)))) (utMembers tmpl)
    | _ => []
    end in
  mkMetric (vID pv) 0 (wrapu 64 nowMs) TypeTemplate false false false
    (TemplatePtr (Some (mkTemplate "" (utName tmpl) false tmplMetrics []))).

Definition valueToMetric (useTemplates : bool) (pv : PlcVariable) (v : value) (nowMs : Z) : Metric :=
  let flat := mkMetric (vID pv) 0 (wrapu 64 nowMs) (vSparkplugType pv) false false false
                (Plain (coerceValue v (vSparkplugType pv))) in
  if String.eqb (vDatatype pv) "udt" then
    if useTemplates then
      match vUdtTemplate pv with Some tmpl => udtToTemplateMetric pv tmpl v nowMs | None => flat end
    else mkMetric (vID pv) 0 (wrapu 64 nowMs) TypeString false false false (Plain (VString (fmt_v v)))
  else flat.

Definition sparkplugValueToJSON (v : mvalue) : mvalue :=
  match v with
  | Plain (VInt KUint32 n) => Plain (VInt KInt n)
  | Plain (VFloat32 f) => Plain (VFloat64 (f64_of_f32 f))
  | _ => v
  end.

(** The loop over the members of a value: whether any changed, and their states. *)
Fixpoint member_changes (pv : PlcVariable) (nowMs : Z) (members : list (string * value))
    (states : gmap string Internal.State) : bool * gmap string Internal.State :=
  match members with
  | [] => (false, states)
  | (memberName, memberVal) :: members' =>
      let state := default Internal.fresh (states !! memberName) in
      let '(p, state) := Internal.observe (vMemberDeadbands pv !! memberName) (vDisableRBE pv) state (memberVal, nowMs) in
      let '(p', states') := member_changes pv nowMs members' (<[memberName := state]> states) in
      (p || p', states')
  end.

Definition shouldPublishUDT (pv : PlcVariable) (v : value) (nowMs : Z) : bool * PlcVariable :=
  match v with
  | VMap members =>
      let '(changed, states) := member_changes pv nowMs members (vMemberRBEStates pv) in
      (changed, with_rbe pv (vRBEState pv) states)
  | _ =>
      let '(p, st) := Internal.observe (vDeadband pv) (vDisableRBE pv) (vRBEState pv) (v, nowMs) in
      (p, with_rbe pv st (vMemberRBEStates pv))
  end.

(** The exception check of a message. *)
Definition should_publish (pv : PlcVariable) (datatype : string) (v : value) (nowMs : Z) : bool * PlcVariable :=
  if String.eqb datatype "udt" then shouldPublishUDT pv v nowMs
  else let '(p, st) := Internal.observe (vDeadband pv) (vDisableRBE pv) (vRBEState pv) (v, nowMs) in
       (p, with_rbe pv st (vMemberRBEStates pv)).

(** The variable of a message: a new one, or the known one with the message's value. *)
Definition new_variable (msg : PlcDataMessage) : PlcVariable :=
  mkVariable (dmVariableID msg) (dmDescription msg) (dmDatatype msg) VNil 0 (dmModuleID msg) (dmDeviceID msg)
    (dmDeadband msg) (default ∅ (dmMemberDeadbands msg)) (dmDisableRBE msg) (dmUdtTemplate msg)
    (NatsToSparkplugType (dmDatatype msg)) Internal.fresh ∅.

Definition update_variable (pv : PlcVariable) (msg : PlcDataMessage) : PlcVariable :=
  mkVariable (vID pv) (vDescription pv) (vDatatype pv) (dmValue msg) (dmTimestamp msg) (vModuleID pv) (vDeviceID pv)
    (match dmDeadband msg with Some db => Some db | None => vDeadband pv end)
    (default (vMemberDeadbands pv) (dmMemberDeadbands msg))
    (vDisableRBE pv) (vUdtTemplate pv) (vSparkplugType pv) (vRBEState pv) (vMemberRBEStates pv).

(** The definition a template is registered with. *)
Definition template_definition (tmpl : UdtTemplateDefinition) : Template :=
  mkTemplate (utVersion tmpl) "" true
    (map (λ m, mkMetric (umName m) 0 0 (NatsToSparkplugType (umDatatype m)) false false false (Plain VNil)) (utMembers tmpl)) [].

End Values.

(** ** Well-formed variables *)

Definition good_template (t : UdtTemplateDefinition) : Prop := Forall (λ m, umDatatype m ≠ "udt") (utMembers t).

(** With templates in use, a structured variable has a template without nested
    structures. *)
Definition good_udt (use : bool) (datatype : string) (t : option UdtTemplateDefinition) : Prop :=
  use = true → datatype = "udt" → ∃ tmpl, t = Some tmpl ∧ good_template tmpl.

Definition good_variable (use : bool) (pv : PlcVariable) : Prop :=
  vSparkplugType pv = NatsToSparkplugType (vDatatype pv) ∧ good_udt use (vDatatype pv) (vUdtTemplate pv).

(** ** The bridge *)

Section Bridge.
Context `{Hconv : FloatConv} `{Htext : FloatText} `{Hnum : JsonNumber} `{Hunicode : UnicodeTables} `{Hproto : Protobuf}.

(** A metric in the store-and-forward heap keeps its historical flag apart. *)
Definition to_sf (m : Metric) : StoreForward.metric Metric := StoreForward.mkMetric m (IsHistorical m).
Definition of_sf (x : StoreForward.metric Metric) : Metric :=
  let m := StoreForward.content x in
  mkMetric (Name m) (Alias m) (Timestamp m) (Datatype m) (StoreForward.IsHistorical x) (IsTransient m) (IsNull m) (Value m).

Record Bridge := mkBridge {
  moduleID : string;
  node : NodeWorld;
  sf : StoreForward.StoreForwardBuffer;
  heap : gmap StoreForward.ptr (list (StoreForward.metric Metric));
  stamps : gmap StoreForward.ptr Z; (* the timestamps of the buffered payloads *)
  variables : gmap string PlcVariable;
  templates : gmap string Template;
  rebirthTimer : bool; (* pending *)
  enabled : bool;
  stopping : bool;
  bHostOnline : bool;
  hostSeen : bool;
  reconnectLoops : nat; (* running *)
  commands : list (string * mvalue); (* published on the bus *)
}.

Definition set_node (br : Bridge) (n : NodeWorld) : Bridge :=
  mkBridge (moduleID br) n (sf br) (heap br) (stamps br) (variables br) (templates br) (rebirthTimer br)
    (enabled br) (stopping br) (bHostOnline br) (hostSeen br) (reconnectLoops br) (commands br).
Definition set_sf (br : Bridge) (s : StoreForward.StoreForwardBuffer) : Bridge :=
  mkBridge (moduleID br) (node br) s (heap br) (stamps br) (variables br) (templates br) (rebirthTimer br)
    (enabled br) (stopping br) (bHostOnline br) (hostSeen br) (reconnectLoops br) (commands br).
Definition set_heap (br : Bridge) h st : Bridge :=
  mkBridge (moduleID br) (node br) (sf br) h st (variables br) (templates br) (rebirthTimer br)
    (enabled br) (stopping br) (bHostOnline br) (hostSeen br) (reconnectLoops br) (commands br).
Definition set_variables (br : Bridge) vs : Bridge :=
  mkBridge (moduleID br) (node br) (sf br) (heap br) (stamps br) vs (templates br) (rebirthTimer br)
    (enabled br) (stopping br) (bHostOnline br) (hostSeen br) (reconnectLoops br) (commands br).
Definition set_templates (br : Bridge) ts : Bridge :=
  mkBridge (moduleID br) (node br) (sf br) (heap br) (stamps br) (variables br) ts (rebirthTimer br)
    (enabled br) (stopping br) (bHostOnline br) (hostSeen br) (reconnectLoops br) (commands br).
Definition set_timer (br : Bridge) (b : bool) : Bridge :=
  mkBridge (moduleID br) (node br) (sf br) (heap br) (stamps br) (variables br) (templates br) b
    (enabled br) (stopping br) (bHostOnline br) (hostSeen br) (reconnectLoops br) (commands br).
Definition SetEnabled (br : Bridge) (b : bool) : Bridge :=
  mkBridge (moduleID br) (node br) (sf br) (heap br) (stamps br) (variables br) (templates br) (rebirthTimer br)
    b (stopping br) (bHostOnline br) (hostSeen br) (reconnectLoops br) (commands br).
Definition set_stopping (br : Bridge) : Bridge :=
  mkBridge (moduleID br) (node br) (sf br) (heap br) (stamps br) (variables br) (templates br) (rebirthTimer br)
    (enabled br) true (bHostOnline br) (hostSeen br) (reconnectLoops br) (commands br).
Definition set_host_online (br : Bridge) (b seen : bool) : Bridge :=
  mkBridge (moduleID br) (node br) (sf br) (heap br) (stamps br) (variables br) (templates br) (rebirthTimer br)
    (enabled br) (stopping br) b seen (reconnectLoops br) (commands br).
Definition set_loops (br : Bridge) (n : nat) : Bridge :=
  mkBridge (moduleID br) (node br) (sf br) (heap br) (stamps br) (variables br) (templates br) (rebirthTimer br)
    (enabled br) (stopping br) (bHostOnline br) (hostSeen br) n (commands br).
Definition set_commands (br : Bridge) cs : Bridge :=
  mkBridge (moduleID br) (node br) (sf br) (heap br) (stamps br) (variables br) (templates br) (rebirthTimer br)
    (enabled br) (stopping br) (bHostOnline br) (hostSeen br) (reconnectLoops br) cs.

Definition br_config (br : Bridge) : MqttBridgeConfig := config (node br).

(** Nanoseconds of the buffer's clock. *)
Definition ns (now : Z) : Z := now * 1000000.

(** *** Births *)

Definition metric_device (br : Bridge) (pv : PlcVariable) : string :=
  if String.eqb (vDeviceID pv) "" then moduleID br else vDeviceID pv.

Context (token_error : nat → option string).
(** The orders in which Go ranges over the node's devices, the bridge's variables and its
    templates. *)
Context (iter : gmap string (list Metric) → list (string * list Metric)).
Context (iterV : gmap string PlcVariable → list (string * PlcVariable)).
Context (iterT : gmap string Template → list (string * Template)).

(** The metrics of each device; [append] to a missing entry starts it. *)
Definition group_metrics (now : Z) (br : Bridge) : gmap string (list Metric) :=
  fold_left (λ by_device kv,
      let dev := metric_device br kv.2 in
      let m := valueToMetric (UseTemplates (br_config br)) kv.2 (vValue kv.2) now in
      <[dev := default [] (by_device !! dev) ++ [m]]> by_device)
    (iterV (variables br)) ∅.

Definition set_device (now : Z) (n : NodeWorld) (d : string * list Metric) : NodeWorld :=
  let '(n, isNew) := SetDeviceMetrics n d.1 d.2 in
  if isNew && bool_decide (state n = StateBorn) then PublishDeviceBirth token_error now n d.1 else n.

Definition buildDeviceMetrics (now : Z) (br : Bridge) : Bridge :=
  set_node br (fold_left (set_device now) (iter (group_metrics now br)) (node br)).

Definition reset_rbe (pv : PlcVariable) : PlcVariable :=
  with_rbe pv Internal.fresh ((λ _, Internal.fresh) <$> vMemberRBEStates pv).

Definition resetRBEStates (br : Bridge) : Bridge := set_variables br (reset_rbe <$> variables br).

Definition updateNodeMetrics (now : Z) (br : Bridge) : Bridge :=
  set_node br (SetNodeMetrics (node br)
    (map (λ t : string * Template, mkMetric t.1 0 (wrapu 64 now) TypeTemplate false false false (TemplatePtr (Some t.2)))
       (iterT (templates br)))).

Definition scheduleRebirth (br : Bridge) : Bridge := set_timer br true.

Definition registerTemplate (br : Bridge) (tmpl : UdtTemplateDefinition) : Bridge :=
  if Has (templates br) (utName tmpl) then br
  else scheduleRebirth (set_templates br (Register (templates br) (utName tmpl) (template_definition tmpl))).

(** *** Store and forward *)

Definition reconcileSFState (now : Z) (br : Bridge) : Bridge :=
  if bool_decide (state (node br) = StateBorn) && bHostOnline br
  then set_sf br (StoreForward.SetOnline (sf br) (ns now))
  else set_sf br (StoreForward.SetOffline (sf br) (ns now)).

Definition handleHostState (now : Z) (online : bool) (br : Bridge) : Bridge :=
  reconcileSFState now (set_host_online br online true).

(** [s] is the state the callback was started with. *)
Definition handleNodeStateChange (now : Z) (s : NodeState) (br : Bridge) : Bridge :=
  let br := reconcileSFState now br in
  if bool_decide (s = StateDisconnected) && negb (String.eqb (PrimaryHostID (br_config br)) "") && negb (stopping br)
  then set_loops br (S (reconnectLoops br)) else br.

(** The publication of one record. *)
Definition drain_record (br : Bridge) (r : StoreForward.BufferedRecord) : outcome Bridge :=
  match StoreForward.Payload r with
  | Some p =>
      let payload := mkPayload (default 0 (stamps br !! p)) 0 false (map of_sf (default [] (heap br !! p))) in
      Ok (set_node br (fst (fst (PublishDeviceDataPayload token_error (node br) (StoreForward.DeviceID r) payload))))
  | None => if bool_decide (state (node br) = StateBorn) && client (node br) then Panic else Ok br
  end.

Fixpoint drain_records (br : Bridge) (rs : list StoreForward.BufferedRecord) : outcome Bridge :=
  match rs with [] => Ok br | r :: rs' => br ← drain_record br r; drain_records br rs' end.

(** One tick of [drainLoop]. *)
Definition drainTick (now : Z) (br : Bridge) : outcome Bridge :=
  let '(records, s, h) := StoreForward.Drain (sf br) (heap br) (ns now) in
  drain_records (set_heap (set_sf br s) h (stamps br)) (default [] records).

(** *** Data *)

Definition buffer_metric (now : Z) (br : Bridge) (deviceID : string) (m : Metric) : outcome Bridge :=
  let p := fresh (dom (heap br)) in
  s ← StoreForward.Buffer (sf br) deviceID (Some p) (ns now);
  Ok (set_heap (set_sf br s) (<[p := [to_sf m]]> (heap br)) (<[p := wrapu 64 now]> (stamps br))).

Definition publish_metric (now : Z) (br : Bridge) (deviceID : string) (m : Metric) : outcome Bridge :=
  if bool_decide (StoreForward.state (sf br) = StoreForward.SFOffline) || negb (bool_decide (state (node br) = StateBorn))
  then buffer_metric now br deviceID m
  else
    match PublishDeviceData token_error now (node br) deviceID [m] with
    | (n, Ok _) => Ok (set_sf (set_node br n) (StoreForward.RecordPublish (sf br) 1 (ns now)))
    | (n, Err _) => Ok (set_node br n)
    | (_, Panic) => Panic
    end.

Definition handleDataMessage (now : Z) (msg : option PlcDataMessage) (br : Bridge) : outcome Bridge :=
  match msg with
  | None => Ok br
  | Some msg =>
      if negb (enabled br) then Ok br
      else if String.eqb (dmModuleID msg) (moduleID br) then Ok br
      else
        let varKey := variableKey (dmModuleID msg) (dmDeviceID msg) (dmVariableID msg) in
        let isNew := negb (bool_decide (is_Some (variables br !! varKey))) in
        let pv := update_variable (default (new_variable msg) (variables br !! varKey)) msg in
        let br := set_variables br (<[varKey := pv]> (variables br)) in
        let br := match dmUdtTemplate msg with
                  | Some tmpl => if String.eqb (dmDatatype msg) "udt" then registerTemplate br tmpl else br
                  | None => br
                  end in
        let '(p, pv) := should_publish pv (dmDatatype msg) (dmValue msg) now in
        let br := set_variables br (<[varKey := pv]> (variables br)) in
        if negb p then Ok br
        else
          let deviceID := if String.eqb (dmDeviceID msg) "" then moduleID br else dmDeviceID msg in
          let m := valueToMetric (UseTemplates (br_config br)) pv (dmValue msg) now in
          if isNew then Ok (scheduleRebirth br) else publish_metric now br deviceID m
  end.

(** *** Commands *)

Definition last_segment (s : string) : string := default s (last (GoText.split "/" s)).

Definition find_variable (br : Bridge) (name : string) : option PlcVariable :=
  snd <$> find (λ kv, String.eqb (vID kv.2) name) (iterV (variables br)).

(** What [routeCommand] publishes on the bus. *)
Definition routeCommand (br : Bridge) (m : Metric) : list (string * mvalue) :=
  let sourceVar := match find_variable br (Name m) with
                   | Some pv => Some pv
                   | None => find_variable br (last_segment (Name m))
                   end in
  match sourceVar with
  | None => []
  | Some pv =>
      match Value m with
      | TemplatePtr (Some tmpl) =>
          map (λ mm, (Topics.Command (vModuleID pv) (vID pv +:+ "/" +:+ Name mm), sparkplugValueToJSON (Value mm))) (Metrics tmpl)
      | v => [(Topics.Command (vModuleID pv) (vID pv), sparkplugValueToJSON v)]
      end
  end.

Definition handleDeviceCommand (metrics : list Metric) (br : Bridge) : Bridge :=
  set_commands br (commands br ++ concat (map (routeCommand br) metrics)).

(** The bridge as a client of the node. Its node commands only log. *)
#[local] Instance bridge_client : NodeClient Hproto Bridge := {
  getNode := node;
  setNode := set_node;
  onBeforeBirth now br := resetRBEStates (buildDeviceMetrics now br);
  onHostState now _ online br :=
    if String.eqb (PrimaryHostID (br_config br)) "" then br else handleHostState now online br;
  onNodeCommand _ br := br;
  onDeviceCommand _ ms br := handleDeviceCommand ms br;
}.

(** The function of the rebirth timer. *)
Definition fireRebirth (now : Z) (br : Bridge) : Bridge :=
  Rebirth token_error iter now (updateNodeMetrics now (set_timer br false)).

(** *** Starting, connecting, stopping *)

Definition initial_variable (v : VariableInfo) : PlcVariable :=
  mkVariable (viVariableID v) (viDescription v) (viDatatype v) (viValue v) 0 (viModuleID v) (viDeviceID v)
    (viDeadband v) ∅ (viDisableRBE v) (viUdtTemplate v) (NatsToSparkplugType (viDatatype v)) Internal.fresh ∅.

Definition load_variable (br : Bridge) (v : VariableInfo) : Bridge :=
  let br := match viUdtTemplate v with Some t => registerTemplate br t | None => br end in
  set_variables br (<[variableKey (viModuleID v) (viDeviceID v) (viVariableID v) := initial_variable v]> (variables br)).

(** [resp] is the gateway's answer, [None] when there is none. *)
Definition loadInitialVariables (now : Z) (resp : option (list VariableInfo)) (br : Bridge) : Bridge :=
  match resp with
  | None => br
  | Some vars => buildDeviceMetrics now (fold_left load_variable vars br)
  end.

Definition NewBridge (mid : string) (cfg : MqttBridgeConfig) (disk : option string) (now : Z) : Bridge :=
  mkBridge mid (NewSparkplugNode cfg disk)
    (StoreForward.NewStoreForwardBuffer (StoreForwardMax cfg) (StoreForwardSize cfg) (DrainRate cfg) (ns now))
    ∅ ∅ ∅ ∅ false true false (String.eqb (PrimaryHostID cfg) "") false 0 [].

(** [Start], once the objects exist: [setup], [conn] and [saved] are the outcomes of the
    connection (see [Connect]). *)
Definition Start (now : Z) (setup conn : option string) (saved : bool) (resp : option (list VariableInfo)) (br : Bridge) : Bridge :=
  let br := set_sf br (StoreForward.SetOffline (sf br) (ns now)) in
  match Connect now setup conn saved (node br) with
  | (n, Ok _) => loadInitialVariables now resp (set_node br n)
  | (n, _) => set_loops (set_node br n) (S (reconnectLoops br))
  end.

(** One round of [reconnectLoop] after its delay, and whether the loop goes on. *)
Definition reconnect_round (now : Z) (setup conn : option string) (saved : bool) (resp : option (list VariableInfo))
    (br : Bridge) : Bridge * bool :=
  if stopping br then (set_loops br (pred (reconnectLoops br)), false)
  else if negb (bool_decide (state (node br) = StateDisconnected)) then (set_loops br (pred (reconnectLoops br)), false)
  else
    match Connect now setup conn saved (node br) with
    | (n, Ok _) => (set_loops (loadInitialVariables now resp (set_node br n)) (pred (reconnectLoops br)), false)
    | (n, _) => (set_node br n, true)
    end.

(** The delays, in seconds, of rounds that fail. *)
Definition next_delay (d : Z) : Z := if d <? 30 then d * 2 else d.

Definition Stop (now : Z) (br : Bridge) : Bridge :=
  set_node (set_stopping br) (Disconnect token_error now (node br)).

(** *** Requests *)

(** The subject of the data subscription: the gateway's, which applies structures and
    deadbands before publishing again. *)
Definition data_subject : string := Topics.DataWildcard "gateway".

(** The watch on the enabled flag: deleting the key enables; [kv] is the decoded value. *)
Definition enabled_changed (deleted : bool) (kv : option bool) (br : Bridge) : Bridge :=
  if deleted then SetEnabled br true else match kv with Some b => SetEnabled br b | None => br end.

Record MqttMetricInfo := mkMetricInfo {
  miName : string;
  miSparkplugType : string;
  miValue : value;
  miModuleID : string;
  miDeviceID : string;
  miDatatype : string;
  miTemplateRef : string;
  miLastUpdated : Z;
}.

Definition metric_info (pv : PlcVariable) : MqttMetricInfo :=
  mkMetricInfo (vID pv) (TypeToString (vSparkplugType pv)) (vValue pv) (vModuleID pv) (vDeviceID pv) (vDatatype pv)
    (match vUdtTemplate pv with Some t => utName t | None => "" end) (vLastUpdated pv).

(** Name, version and members (name and type) of a template. *)
Definition template_info (t : string * Template) : string * string * list (string * string) :=
  (t.1, Version t.2, map (λ m : Metric, (Name m, TypeToString (Datatype m))) (Metrics t.2)).

(** The answer to a metrics request: metrics, templates and the bridge's device. *)
Definition metrics_response (br : Bridge)
    : list MqttMetricInfo * list (string * string * list (string * string)) * string :=
  (map (λ kv : string * PlcVariable, metric_info kv.2) (iterV (variables br)), map template_info (iterT (templates br)), moduleID br).

(** The answer to a store-and-forward status request; [connected] is the MQTT client's
    state. Besides the buffer's status: the primary host, whether one is configured and has
    been seen, whether the broker is reachable and the node born. *)
Definition sf_status (now : Z) (connected : bool) (br : Bridge) : StoreForwardStatus * (string * bool * bool * bool * bool) * Bridge :=
  let '(st, s) := Status (sf br) (ns now) in
  (st, (PrimaryHostID (br_config br), negb (String.eqb (PrimaryHostID (br_config br)) ""), hostSeen br,
        client (node br) && connected, bool_decide (state (node br) = StateBorn)), set_sf br s).

(** *** Runs *)

Inductive brOp :=
  | BrStart (now : Z) (setup conn : option string) (saved : bool) (resp : option (list VariableInfo))
  | BrReconnect (now : Z) (setup conn : option string) (saved : bool) (resp : option (list VariableInfo))
  | BrConnected (now : Z)
  | BrLost
  | BrData (now : Z) (msg : option PlcDataMessage)
  | BrTimer (now : Z)
  | BrHostState (now : Z) (hostID : string) (online : bool) (timestamp : Z)
  | BrHostOffline (now : Z)
  | BrStateChange (now : Z) (s : NodeState)
  | BrDrain (now : Z)
  | BrCommand (now : Z) (data : wire) (deviceID : string)
  | BrEnabled (b : bool)
  | BrStop (now : Z).

Definition br_step (br : Bridge) (op : brOp) : outcome Bridge :=
  match op with
  | BrStart now setup conn saved resp => Ok (Start now setup conn saved resp br)
  | BrReconnect now setup conn saved resp => Ok (fst (reconnect_round now setup conn saved resp br))
  | BrConnected now => Ok (onConnect token_error iter now br)
  | BrLost => Ok (set_node br (connectionLost (node br)))
  | BrData now msg => handleDataMessage now msg br
  | BrTimer now => Ok (fireRebirth now br)
  | BrHostState now id online ts => Ok (fst (processHostState token_error iter now id online ts br))
  | BrHostOffline now => Ok (disconnectForHostOffline token_error now br)
  | BrStateChange now s => Ok (handleNodeStateChange now s br)
  | BrDrain now => drainTick now br
  | BrCommand now data dev => Ok (handleCommand token_error iter now data dev br)
  | BrEnabled b => Ok (SetEnabled br b)
  | BrStop now => Ok (Stop now br)
  end.

Fixpoint br_run (br : Bridge) (ops : list brOp) : outcome Bridge :=
  match ops with [] => Ok br | op :: ops' => br ← br_step br op; br_run br ops' end.

(** Structured variables come with templates without nested structures. *)
Definition op_ok (use : bool) (op : brOp) : Prop :=
  match op with
  | BrStart _ _ _ _ (Some vars) | BrReconnect _ _ _ _ (Some vars) =>
      Forall (λ v, good_udt use (viDatatype v) (viUdtTemplate v)) vars
  | BrData _ (Some msg) => good_udt use (dmDatatype msg) (dmUdtTemplate msg)
  | _ => True
  end.

End Bridge.

(** ** What the bridge publishes can be encoded *)

Section Encodable.
Context `{Hconv : FloatConv} `{Htext : FloatText} `{Hnum : JsonNumber}.

Lemma nats_scalar dt : dt ≠ "udt" → NatsToSparkplugType dt ∈ [TypeDouble; TypeBoolean; TypeString].
Proof.
  intros Hd%String.eqb_neq. unfold NatsToSparkplugType. rewrite Hd.
  repeat case_if; apply (bool_decide_unpack _); vm_compute; exact I.
Qed.

(** What a scalar of the bus becomes: nothing, or a value of the wire. *)
Lemma coerce_wire v dt : dt ≠ "udt" → let t := NatsToSparkplugType dt in
  coerceValue v t = VNil ∨ wire_value t (Plain (coerceValue v t)) = true.
Proof.
  intros Hd%nats_scalar t. revert Hd. fold t. generalize t. clear t. intros t Ht. apply list_elem_of_In in Ht.
  cbn [In] in Ht. destruct v; [by left|..]; right; destruct Ht as [<-|[<-|[<-|[]]]]; done.
Qed.

Lemma scalar_encodable name ts v dt : dt ≠ "udt" →
  encodable (mkMetric name 0 ts (NatsToSparkplugType dt) false false false (Plain (coerceValue v (NatsToSparkplugType dt)))) = true.
Proof.
  intros Hd. destruct (coerce_wire v dt Hd) as [-> | Hw]; [done|].
  apply received_wire. unfold wire_metric, wire_metric_with. by cbn [IsNull Value Datatype].
Qed.

(** A value other than nil arrives as it was coerced. *)
Lemma scalar_received name ts v dt : dt ≠ "udt" → v ≠ VNil →
  let m := mkMetric name 0 ts (NatsToSparkplugType dt) false false false (Plain (coerceValue v (NatsToSparkplugType dt))) in
  received m = m.
Proof.
  intros Hd Hv m. apply received_wire. unfold wire_metric, wire_metric_with. cbn [m IsNull Value Datatype].
  destruct (coerce_wire v dt Hd) as [Hn | Hw]; [|exact Hw].
  apply nats_scalar, list_elem_of_In in Hd. cbn [In] in Hd.
  exfalso. destruct v; [done|..]; destruct Hd as [Hx|[Hx|[Hx|[]]]]; rewrite <- Hx in Hn; discriminate.
Qed.

Lemma mapM_encodable {A} (f : A → outcome pbMetric) l : Forall (λ a, is_ok (f a) = true) l → is_ok (mapM f l) = true.
Proof.
  induction 1 as [|a l Ha _ IH]; [done|]. cbn. destruct (f a); try discriminate. cbn. by destruct (mapM f l).
Qed.

(** A template without parameters is encoded when its metrics are. *)
Lemma template_encodable name ts t : Parameters t = [] → Forall (λ m, encodable m = true) (Metrics t) →
  encodable (mkMetric name 0 ts TypeTemplate false false false (TemplatePtr (Some t))) = true.
Proof.
  intros Hp Hm. unfold encodable, encodeMetric, encodeMetric_with. cbn [IsNull Datatype Value].
  change (setMetricValue ?m TypeTemplate (TemplatePtr (Some t)))
    with (pbt ← encodeTemplate t; Ok (with_value m (TemplateValue (Some pbt)))).
  unfold encodeTemplate, encodeTemplate_with. rewrite Hp. cbn [mapM].
  apply mapM_encodable in Hm. fold encodeMetric. destruct (mapM encodeMetric (Metrics t)); try discriminate. done.
Qed.

Lemma udt_encodable pv tmpl v now : good_template tmpl → encodable (udtToTemplateMetric pv tmpl v now) = true.
Proof.
  intros Hg. apply template_encodable; [done|]. cbn [Metrics]. destruct v; try apply Forall_nil_2.
  induction Hg as [|mdef l Hd _ IH]; [apply Forall_nil_2|]. cbn [omap list_omap].
  destruct (member m (umName mdef)) as [x|]; cbn; [|exact IH]. apply Forall_cons_2; [by apply scalar_encodable|exact IH].
Qed.

Lemma valueToMetric_encodable use pv v now : good_variable use pv → encodable (valueToMetric use pv v now) = true.
Proof.
  intros [Ht Hg]. unfold valueToMetric. case_if.
  - apply String.eqb_eq in E. destruct use.
    + destruct (Hg eq_refl E) as (tmpl & -> & Htmpl). by apply udt_encodable.
    + done.
  - apply String.eqb_neq in E. rewrite Ht. by apply scalar_encodable.
Qed.

Lemma definition_encodable name ts tmpl :
  encodable (mkMetric name 0 ts TypeTemplate false false false (TemplatePtr (Some (template_definition tmpl)))) = true.
Proof.
  apply template_encodable; [done|]. cbn [Metrics template_definition]. apply List.Forall_forall.
  intros m Hm. apply List.in_map_iff in Hm as (d & <- & _). done.
Qed.

End Encodable.

(** ** The bridge keeps the node's contract *)

Section Client.
Context `{Hconv : FloatConv} `{Htext : FloatText} `{Hnum : JsonNumber} `{Hunicode : UnicodeTables} `{Hproto : Protobuf}.
Context (token_error : nat → option string).
Context (iter : gmap string (list Metric) → list (string * list Metric)).
Context (iterV : gmap string PlcVariable → list (string * PlcVariable)).
Context (iterT : gmap string Template → list (string * Template)).
Context (iter_perm : ∀ m, iter m ≡ₚ map_to_list m) (iterV_perm : ∀ m, iterV m ≡ₚ map_to_list m)
  (iterT_perm : ∀ m, iterT m ≡ₚ map_to_list m).

Notation steps := (node_steps token_error iter encodable_all).

(** The buffer has room, its records have payloads and these can be encoded. *)
Definition buffer_ok (s : StoreForwardBuffer) (h : gmap ptr (list (StoreForward.metric Metric))) : Prop :=
  0 < maxCount s ∧ Forall (λ r, is_Some (StoreForward.Payload r)) (records s) ∧
  map_Forall (λ _ ms, encodable_all (map of_sf ms)) h.

Record bridge_ok (br : Bridge) : Prop := {
  ok_variables : map_Forall (λ _ pv, good_variable (UseTemplates (br_config br)) pv) (variables br);
  ok_templates : map_Forall (λ _ t, ∃ tmpl, t = template_definition tmpl) (templates br);
  ok_buffer : buffer_ok (sf br) (heap br);
}.

(** Going over a permutation of a map's entries. *)
Lemma perm_Forall {A} (f : gmap string A → list (string * A)) (P : A → Prop) (m : gmap string A) :
  (∀ m, f m ≡ₚ map_to_list m) → map_Forall (λ _ a, P a) m → Forall (λ kv : string * A, P kv.2) (f m).
Proof.
  intros Hf Hm. apply List.Forall_forall. intros [k a] Hin. apply list_elem_of_In in Hin.
  rewrite Hf in Hin. apply elem_of_map_to_list in Hin. by apply (Hm k).
Qed.

Lemma group_encodable now br : bridge_ok br → map_Forall (λ _ ms, encodable_all ms) (group_metrics iterV now br).
Proof.
  intros [Hv _ _]. apply (perm_Forall iterV) in Hv; [|done]. unfold group_metrics.
  assert (map_Forall (λ _ ms, encodable_all ms) (∅ : gmap string (list Metric))) as H0 by done. revert H0.
  generalize (∅ : gmap string (list Metric)). induction Hv as [|kv l Hkv _ IH]; intros m Hm; [done|].
  cbn [fold_left]. apply IH. apply map_Forall_insert_2; [|done]. unfold encodable_all. rewrite List.forallb_app.
  cbn [forallb]. rewrite (valueToMetric_encodable _ _ _ _ Hkv). rewrite !andb_true_r.
  destruct (m !! metric_device br kv.2) as [ms|] eqn:E; [exact (Hm _ _ E)|done].
Qed.

Lemma set_device_steps now n d : encodable_all d.2 → steps n (set_device token_error now n d).
Proof.
  intros Hd. unfold set_device. pose proof (step_set_device token_error iter encodable_all d.1 d.2 n Hd) as Hs.
  destruct (SetDeviceMetrics n d.1 d.2) as [n' isNew]. cbn [fst] in Hs. etrans; [by apply rtc_once|].
  case_if; [|done]. apply rtc_once, step_device_birth.
Qed.

Lemma set_devices_steps now l : ∀ n, Forall (λ d : string * list Metric, encodable_all d.2) l →
  steps n (fold_left (set_device token_error now) l n).
Proof.
  induction l as [|d l IH]; intros n Hl; [done|]. apply Forall_cons_1 in Hl as [Hd Hl]. cbn [fold_left].
  etrans; [by apply set_device_steps|by apply IH].
Qed.

Lemma set_node_ok br n : bridge_ok br → config n = br_config br → bridge_ok (set_node br n).
Proof. intros [Hv Ht Hb] Hc. constructor; [|done..]. unfold br_config in *. cbn [node set_node variables]. by rewrite Hc. Qed.

Lemma buildDeviceMetrics_steps now br : bridge_ok br →
  steps (node br) (node (buildDeviceMetrics token_error iter iterV now br)) ∧
  bridge_ok (buildDeviceMetrics token_error iter iterV now br).
Proof.
  intros Hok. assert (steps (node br) (node (buildDeviceMetrics token_error iter iterV now br))) as Hs.
  { apply set_devices_steps, perm_Forall, group_encodable; done. }
  split; [done|]. apply set_node_ok; [done|]. exact (node_steps_config _ _ _ _ _ Hs).
Qed.

Lemma reset_ok br : bridge_ok br → bridge_ok (resetRBEStates br).
Proof.
  intros [Hv Ht Hb]. constructor; [|done..]. intros k pv Hk. cbn [variables set_variables resetRBEStates] in Hk.
  rewrite lookup_fmap in Hk. destruct (variables br !! k) as [pv'|] eqn:E; [|done]. injection Hk as <-.
  exact (Hv k pv' E).
Qed.

Lemma quiet_ok br br' : bridge_ok br → node br' = node br → variables br' = variables br → templates br' = templates br →
  buffer_ok (sf br') (heap br') → steps (node br) (node br') ∧ bridge_ok br'.
Proof. intros [Hv Ht _] Hn HV HT Hb. rewrite Hn. split; [done|]. constructor; unfold br_config; by rewrite ?Hn, ?HV, ?HT. Qed.

Lemma reconcile_ok now br : bridge_ok br →
  steps (node br) (node (reconcileSFState now br)) ∧ bridge_ok (reconcileSFState now br).
Proof.
  intros Hok. pose proof (ok_buffer br Hok) as Hb. apply quiet_ok; try done; unfold reconcileSFState; case_if; try done.
  - cbn [sf heap set_sf]. unfold SetOnline. repeat case_if; done.
  - cbn [sf heap set_sf]. unfold SetOffline. case_if; done.
Qed.

#[local] Instance this_client : NodeClient Hproto Bridge := bridge_client token_error iter iterV.

#[export] Instance bridge_laws : NodeClientLaws token_error iter encodable_all Bridge.
Proof.
  refine {| client_ok := bridge_ok |}.
  - done.
  - intros br n Hok Hs. apply set_node_ok; [done|]. exact (node_step_config _ _ _ _ _ Hs).
  - intros now br Hok. destruct (buildDeviceMetrics_steps now br Hok) as [Hs Hok']. split; [exact Hs|by apply reset_ok].
  - intros now id online br Hok. cbn [onHostState this_client bridge_client]. case_if; [by split|].
    apply (reconcile_ok now (set_host_online br online true)). by destruct Hok.
  - intros ms br Hok. by split.
  - intros dev ms br Hok. apply quiet_ok; try done. apply (ok_buffer br Hok).
Defined.


Notation leads br o := (∃ br', o = Ok br' ∧ steps (node br) (node br') ∧ bridge_ok br').

Lemma evict_ok c rs e : 0 < c → ∃ rs' e', evict c rs e = Ok (rs', e') ∧ rs' `suffix_of` rs.
Proof.
  intros Hc. revert e. induction rs as [|r rs IH]; intros e; cbn [evict].
  - rewrite (proj2 (Z.leb_gt _ _)) by (cbn; lia). by eexists _, _.
  - case_if; [|by eexists _, _]. destruct (IH (wraps 64 (e + 1))) as (rs' & e' & He & Hs).
    exists rs', e'. split; [done|]. by apply suffix_cons_r.
Qed.

Lemma encodable_historical h m : encodable m = true →
  encodable (mkMetric (Name m) (Alias m) (Timestamp m) (Datatype m) h (IsTransient m) (IsNull m) (Value m)) = true.
Proof.
  unfold encodable, encodeMetric, encodeMetric_with. cbn [IsNull Datatype Value IsTransient Timestamp Alias Name].
  destruct (IsNull m); [done|]. generalize (mkPbMetric (V := pbValue)). intros mk.
  assert (∀ a b dt v, is_ok (setMetricValue a dt v) = true → is_ok (setMetricValue b dt v) = true) as Hs.
  { intros a b dt v. destruct v as [v|x|[t|]]; cbn [setMetricValue];
      repeat (case_if || destruct (toUint32 _) || destruct (toUint64 _) || destruct (toFloat32 _) || destruct (toFloat64 _)
              || destruct (encodeTemplate_with _ _) || destruct v); cbn; done. }
  apply Hs.
Qed.

Lemma of_to_sf m : of_sf (to_sf m) = m.
Proof. by destruct m. Qed.

Lemma buffer_metric_ok now br dev m : bridge_ok br → encodable m = true → leads br (buffer_metric now br dev m).
Proof.
  intros Hok Hm. unfold buffer_metric, Buffer. destruct (ok_buffer br Hok) as (Hc & Hr & Hh).
  destruct (evict_ok (maxCount (sf br)) (records (sf br)) (totalEvicted (sf br)) Hc) as (rs & e & -> & [pre Hpre]).
  cbn [mbind outcome_bind]. eexists. split; [done|]. apply quiet_ok; try done. split_and!; [done| |].
  - cbn. rewrite Hpre in Hr. apply Forall_app in Hr as [_ Hr]. apply Forall_app. split; [done|].
    apply Forall_cons_2; [by eexists|done].
  - cbn. apply map_Forall_insert_2; [|done]. unfold encodable_all. cbn. by rewrite of_to_sf, Hm.
Qed.

Lemma data_outcome now n dev ms : encodable_all ms →
  ∃ n' r, PublishDeviceData token_error now n dev ms = (n', r) ∧ is_panic r = false ∧ steps n n'.
Proof.
  intros Hms. pose proof (step_data token_error iter encodable_all now dev ms n Hms) as Hs. revert Hs.
  unfold PublishDeviceData. case_if; [intros Hs; do 2 eexists; split_and!; [done|done|by apply rtc_once]|].
  unfold publish_data. cbn [seq set_seq].
  destruct (payload_received (mkPayload (wrapu 64 now) ((seq n + 1) mod 256) false ms)) as (data & -> & _); [done|].
  unfold publish. cbv beta iota zeta. intros Hs. do 2 eexists. split_and!; [done|by destruct (token_error _)|by apply rtc_once].
Qed.

Lemma publish_metric_ok now br dev m : bridge_ok br → encodable m = true → leads br (publish_metric token_error now br dev m).
Proof.
  intros Hok Hm. unfold publish_metric. case_if; [by apply buffer_metric_ok|].
  destruct (data_outcome now (node br) dev [m]) as (n & r & -> & Hr & Hs).
  { unfold encodable_all. cbn. by rewrite Hm. }
  pose proof (set_node_ok br n Hok (node_steps_config _ _ _ _ _ Hs)) as [H1 H2 H3].
  destruct r; [..|done]; eexists; (split; [done|]); (split; [done|]); [|done]. constructor; done.
Qed.

Lemma drain_record_ok br r : bridge_ok br → is_Some (StoreForward.Payload r) → leads br (drain_record token_error br r).
Proof.
  intros Hok [p Hp]. unfold drain_record. rewrite Hp. eexists. split; [done|].
  match goal with |- context [PublishDeviceDataPayload _ _ ?d ?q] =>
    pose proof (step_payload token_error iter encodable_all d q (node br)) as Hs end.
  apply rtc_once in Hs; [|..|done].
  - split; [exact Hs|]. apply set_node_ok; [done|]. exact (node_steps_config _ _ _ _ _ Hs).
  - cbn [plMetrics]. destruct (heap br !! p) as [ms|] eqn:E; [|done]. destruct (ok_buffer br Hok) as (_ & _ & Hh). exact (Hh _ _ E).
Qed.

Lemma drain_records_ok rs : ∀ br, bridge_ok br → Forall (λ r, is_Some (StoreForward.Payload r)) rs →
  leads br (drain_records token_error br rs).
Proof.
  induction rs as [|r rs IH]; intros br Hok Hrs; [by eexists|]. apply Forall_cons_1 in Hrs as [Hr Hrs].
  destruct (drain_record_ok br r Hok Hr) as (br1 & H1 & Hs1 & Hok1). cbn [drain_records]. rewrite H1. cbn [mbind outcome_bind].
  destruct (IH br1 Hok1 Hrs) as (br2 & H2 & Hs2 & Hok2). exists br2. split_and!; [done| |done]. by etrans.
Qed.

Lemma mark_encodable rs : ∀ h : gmap ptr (list (StoreForward.metric Metric)),
  map_Forall (λ _ ms, encodable_all (map of_sf ms)) h → map_Forall (λ _ ms, encodable_all (map of_sf ms)) (mark h rs).
Proof.
  induction rs as [|r rs IH]; intros h Hh; [done|]. unfold mark. cbn [fold_left]. apply IH.
  destruct (StoreForward.Payload r) as [p|]; [|done]. intros q ms Hq. rewrite lookup_alter in Hq.
  destruct (decide (p = q)) as [->|]; [|by apply (Hh q)].
  destruct (h !! q) as [ms'|] eqn:E; [|done]. injection Hq as <-. specialize (Hh _ _ E). unfold encodable_all in *.
  rewrite List.map_map. rewrite List.forallb_forall in Hh |- *. intros m Hm. apply List.in_map_iff in Hm as (x & <- & Hx).
  apply (encodable_historical true (of_sf x)). apply Hh. apply List.in_map_iff. by exists x.
Qed.

Lemma drainTick_ok now br : bridge_ok br → leads br (drainTick token_error now br).
Proof.
  intros Hok. unfold drainTick. destruct (ok_buffer br Hok) as (Hc & Hr & Hh).
  assert (∃ rs s h, Drain (sf br) (heap br) (ns now) = (rs, s, h) ∧ buffer_ok s h ∧
    Forall (λ r, is_Some (StoreForward.Payload r)) (default [] rs)) as (rs & s & h & -> & Hb & Hrs).
  { unfold Drain. case_if; [by eexists _, _, _|]. destruct (records (sf br)) as [|r0 rs0] eqn:E0; [eexists _, _, _; split; [done|]; split; [|done]|].
    - split_and!; [done| |done]. cbn. by rewrite E0.
    - do 3 eexists. split; [done|]. split; [split_and!; [done| |by apply mark_encodable]|]; cbn [records set_records default];
        [by apply Forall_drop|by apply Forall_take]. }
  destruct (drain_records_ok (default [] rs) (set_heap (set_sf br s) h (stamps br))) as (br' & H1 & Hs & Hok'); [|done|].
  - destruct Hok. by constructor.
  - by exists br'.
Qed.


Lemma set_variables_ok br vs : bridge_ok br → map_Forall (λ _ pv, good_variable (UseTemplates (br_config br)) pv) vs →
  bridge_ok (set_variables br vs).
Proof. intros [_ Ht Hb] Hv. by constructor. Qed.

Lemma registerTemplate_ok br t : bridge_ok br → bridge_ok (registerTemplate br t) ∧
  node (registerTemplate br t) = node br ∧ variables (registerTemplate br t) = variables br.
Proof.
  intros [Hv Ht Hb]. unfold registerTemplate. case_if; [done|]. split; [|done]. constructor; [done| |done].
  cbn. unfold Register. apply map_Forall_insert_2; [by eexists|done].
Qed.

Lemma should_publish_fields pv dt v now : let pv' := snd (should_publish pv dt v now) in
  vSparkplugType pv' = vSparkplugType pv ∧ vDatatype pv' = vDatatype pv ∧ vUdtTemplate pv' = vUdtTemplate pv ∧
  vID pv' = vID pv ∧ vValue pv' = vValue pv ∧ vDeviceID pv' = vDeviceID pv.
Proof.
  unfold should_publish, shouldPublishUDT. repeat (case_if || destruct v || destruct (Internal.observe _ _ _ _) ||
    destruct (member_changes _ _ _ _)); done.
Qed.

(** A message leaves the tracked variable good. *)
Lemma update_good use br msg k : use = UseTemplates (br_config br) → bridge_ok br →
  good_udt use (dmDatatype msg) (dmUdtTemplate msg) →
  good_variable use (update_variable (default (new_variable msg) (variables br !! k)) msg).
Proof.
  intros -> [Hv _ _] Hg. destruct (variables br !! k) as [pv|] eqn:E; [exact (Hv k pv E)|]. split; [done|exact Hg].
Qed.

Lemma handleDataMessage_ok now msg br : bridge_ok br → op_ok (UseTemplates (br_config br)) (BrData now msg) →
  leads br (handleDataMessage token_error now msg br).
Proof.
  intros Hok Hg. unfold handleDataMessage. destruct msg as [msg|]; [|by eexists]. cbn [op_ok] in Hg.
  case_if; [by eexists|]. case_if; [by eexists|]. cbv zeta. set (k := variableKey _ _ _).
  pose proof (update_good _ br msg k eq_refl Hok Hg) as Hpv. revert Hpv. generalize (update_variable (default (new_variable msg) (variables br !! k)) msg).
  intros pv Hpv. set (br1 := set_variables br (<[k := pv]> (variables br))).
  assert (bridge_ok br1) as Hok1 by (apply set_variables_ok; [done|]; apply map_Forall_insert_2; [done|apply Hok]).
  set (br2 := match dmUdtTemplate msg with Some t => _ | None => br1 end).
  assert (bridge_ok br2 ∧ node br2 = node br) as [Hok2 Hn2].
  { unfold br2. destruct (dmUdtTemplate msg); [|done]. case_if; [|done].
    destruct (registerTemplate_ok br1 u Hok1) as (? & -> & _). done. }
  pose proof (should_publish_fields pv (dmDatatype msg) (dmValue msg) now) as Hf.
  destruct (should_publish pv (dmDatatype msg) (dmValue msg) now) as [p pv']. cbn [snd] in Hf.
  destruct Hf as (Hf1 & Hf2 & Hf3 & _).
  assert (good_variable (UseTemplates (br_config br2)) pv') as Hpv'.
  { unfold good_variable, br_config. rewrite Hf1, Hf2, Hf3, Hn2. exact Hpv. }
  assert (bridge_ok (set_variables br2 (<[k := pv']> (variables br2)))) as Hok3
    by (apply set_variables_ok; [done|]; apply map_Forall_insert_2; [done|apply Hok2]).
  rewrite <- Hn2. destruct p; cbn [negb]; [|by eexists]. case_if; [by eexists; split; [done|]; split; [done|]; destruct Hok3|].
  apply (publish_metric_ok now (set_variables br2 (<[k := pv']> (variables br2)))); [done|]. by apply valueToMetric_encodable.
Qed.

Lemma load_variable_ok br v : bridge_ok br → good_udt (UseTemplates (br_config br)) (viDatatype v) (viUdtTemplate v) →
  bridge_ok (load_variable br v) ∧ node (load_variable br v) = node br.
Proof.
  intros Hok Hg. unfold load_variable. set (br1 := match viUdtTemplate v with Some t => _ | None => br end).
  assert (bridge_ok br1 ∧ node br1 = node br) as [Hok1 Hn].
  { unfold br1. destruct (viUdtTemplate v); [|done]. destruct (registerTemplate_ok br u Hok) as (? & -> & _). done. }
  split; [|done]. apply set_variables_ok; [done|]. apply map_Forall_insert_2; [|apply Hok1].
  split; [done|]. unfold br_config. by rewrite Hn.
Qed.

Lemma loadInitialVariables_ok now resp br : bridge_ok br →
  op_ok (UseTemplates (br_config br)) (BrStart now None None true resp) →
  steps (node br) (node (loadInitialVariables token_error iter iterV now resp br)) ∧
  bridge_ok (loadInitialVariables token_error iter iterV now resp br).
Proof.
  intros Hok Hg. unfold loadInitialVariables. destruct resp as [vars|]; [|done]. cbn [op_ok] in Hg.
  assert (bridge_ok (fold_left load_variable vars br) ∧ node (fold_left load_variable vars br) = node br) as [Hok' Hn].
  { revert br Hok Hg. induction vars as [|v vars IH]; intros br Hok Hg; [done|]. apply Forall_cons_1 in Hg as [Hv Hg].
    destruct (load_variable_ok br v Hok Hv) as [Hok1 Hn1]. cbn [fold_left]. rewrite <- Hn1. apply IH; [done|].
    unfold br_config. by rewrite Hn1. }
  rewrite <- Hn. by apply buildDeviceMetrics_steps.
Qed.

Lemma Connect_ok now setup conn saved br n r : bridge_ok br → Connect now setup conn saved (node br) = (n, r) →
  steps (node br) n ∧ bridge_ok (set_node br n) ∧ config n = br_config br.
Proof.
  intros Hok Hc. pose proof (step_connect token_error iter encodable_all now setup conn saved (node br)) as Hs.
  rewrite Hc in Hs. cbn [fst] in Hs. pose proof (node_step_config _ _ _ _ _ Hs).
  split; [by apply rtc_once|]. split; [by apply set_node_ok|done].
Qed.

Lemma connected_ok now setup conn saved resp br n r : bridge_ok br → Connect now setup conn saved (node br) = (n, r) →
  op_ok (UseTemplates (br_config br)) (BrStart now None None true resp) →
  steps (node br) (node (loadInitialVariables token_error iter iterV now resp (set_node br n))) ∧
  bridge_ok (loadInitialVariables token_error iter iterV now resp (set_node br n)).
Proof.
  intros Hok Hc Hg. destruct (Connect_ok _ _ _ _ _ _ _ Hok Hc) as (Hs & Hok' & Hcfg).
  destruct (loadInitialVariables_ok now resp (set_node br n) Hok') as [Hs' Hok''].
  { unfold br_config. cbn [node set_node]. by rewrite Hcfg. }
  split; [by etrans|done].
Qed.

Lemma set_loops_ok br n : bridge_ok br → bridge_ok (set_loops br n).
Proof. intros []. by constructor. Qed.

Lemma Start_ok now setup conn saved resp br : bridge_ok br → op_ok (UseTemplates (br_config br)) (BrStart now setup conn saved resp) →
  leads br (Ok (Start token_error iter iterV now setup conn saved resp br)).
Proof.
  intros Hok Hg. eexists. split; [done|]. unfold Start.
  set (br1 := set_sf br (SetOffline (sf br) (ns now))).
  assert (bridge_ok br1) as Hok1.
  { destruct Hok as [Hv Ht Hb]. constructor; [done..|]. cbn. unfold SetOffline. by case_if. }
  change (node br) with (node br1). change (br_config br) with (br_config br1) in Hg.
  destruct (Connect now setup conn saved (node br1)) as [n r] eqn:Hc. destruct r.
  - by eapply connected_ok.
  - destruct (Connect_ok _ _ _ _ _ _ _ Hok1 Hc) as (Hs & Hok2 & _). split; [done|by apply set_loops_ok].
  - destruct (Connect_ok _ _ _ _ _ _ _ Hok1 Hc) as (Hs & Hok2 & _). split; [done|by apply set_loops_ok].
Qed.

Lemma reconnect_ok now setup conn saved resp br : bridge_ok br → op_ok (UseTemplates (br_config br)) (BrReconnect now setup conn saved resp) →
  leads br (Ok (fst (reconnect_round token_error iter iterV now setup conn saved resp br))).
Proof.
  intros Hok Hg. eexists. split; [done|]. unfold reconnect_round.
  case_if; [split; [done|by apply set_loops_ok]|]. case_if; [split; [done|by apply set_loops_ok]|].
  destruct (Connect now setup conn saved (node br)) as [n r] eqn:Hc. destruct r; cbn [fst].
  - destruct (connected_ok _ _ _ _ resp _ _ _ Hok Hc Hg) as [Hs Hok']. split; [exact Hs|by apply set_loops_ok].
  - destruct (Connect_ok _ _ _ _ _ _ _ Hok Hc) as (Hs & Hok2 & _). by split.
  - destruct (Connect_ok _ _ _ _ _ _ _ Hok Hc) as (Hs & Hok2 & _). by split.
Qed.

Lemma updateNodeMetrics_ok now br : bridge_ok br →
  steps (node br) (node (updateNodeMetrics iterT now br)) ∧ bridge_ok (updateNodeMetrics iterT now br).
Proof.
  intros Hok. assert (steps (node br) (node (updateNodeMetrics iterT now br))) as Hs.
  { apply rtc_once. constructor. unfold encodable_all. apply List.forallb_forall. intros m Hm.
    apply List.in_map_iff in Hm as ([k t] & <- & Hin). pose proof (ok_templates br Hok) as Ht.
    apply (perm_Forall iterT) in Ht; [|done]. rewrite List.Forall_forall in Ht. destruct (Ht _ Hin) as (tmpl & Heq).
    cbn [snd fst] in Heq |- *. rewrite Heq. apply definition_encodable. }
  split; [done|]. apply set_node_ok; [done|]. exact (node_steps_config _ _ _ _ _ Hs).
Qed.


Lemma leads_client br br' : bridge_ok br → client_steps token_error iter encodable_all br br' → leads br (Ok br').
Proof. intros Hok Hc. exists br'. split; [done|]. exact (Hc Hok). Qed.

Lemma step_ok br op : bridge_ok br → op_ok (UseTemplates (br_config br)) op → leads br (br_step token_error iter iterV iterT br op).
Proof.
  intros Hok Hg. destruct op; cbn [br_step].
  - by apply Start_ok.
  - by apply reconnect_ok.
  - by apply leads_client, onConnect_steps.
  - apply leads_client; [done|].
    exact (client_set token_error iter encodable_all br _ (step_lost _ _ _ (node br))).
  - by apply handleDataMessage_ok.
  - unfold fireRebirth. assert (bridge_ok (set_timer br false)) as Hok0 by (destruct Hok; by constructor).
    destruct (updateNodeMetrics_ok now (set_timer br false) Hok0) as [Hs Hok'].
    destruct (leads_client _ _ Hok' (Rebirth_steps token_error iter encodable_all now _)) as (br' & [= <-] & Hs' & Hok'').
    eexists. split; [done|]. split; [by etrans|done].
  - by apply leads_client, processHostState_steps.
  - by apply leads_client, disconnect_steps.
  - destruct (reconcile_ok now br Hok) as [Hs Hok']. unfold handleNodeStateChange.
    eexists. split; [done|]. case_if; [|done]. split; [exact Hs|by apply set_loops_ok].
  - by apply drainTick_ok.
  - by apply leads_client, handleCommand_steps.
  - eexists. split; [done|]. by apply quiet_ok; try done; apply (ok_buffer br Hok).
  - eexists. split; [done|]. pose proof (step_disconnect token_error iter encodable_all now (node br)) as Hs.
    split; [by apply rtc_once|]. pose proof (node_step_config _ _ _ _ _ Hs) as Hc.
    destruct (set_node_ok br _ Hok Hc). by constructor.
Qed.

Lemma run_ok ops : ∀ br, bridge_ok br → Forall (op_ok (UseTemplates (br_config br))) ops →
  leads br (br_run token_error iter iterV iterT br ops).
Proof.
  induction ops as [|op ops IH]; intros br Hok Hg; [by eexists|]. apply Forall_cons_1 in Hg as [Hop Hg].
  destruct (step_ok br op Hok Hop) as (br1 & H1 & Hs1 & Hok1). cbn [br_run]. rewrite H1. cbn [mbind outcome_bind].
  destruct (IH br1 Hok1) as (br2 & H2 & Hs2 & Hok2).
  { unfold br_config. by rewrite (node_steps_config _ _ _ _ _ Hs1). }
  exists br2. split_and!; [done| |done]. by etrans.
Qed.

Lemma NewBridge_ok mid cfg d now : bridge_ok (NewBridge mid cfg d now).
Proof.
  constructor; try done. split_and!; try done. cbn. case_if; bool_to_prop; lia.
Qed.

(** C5: The stream of the bridge's node. While every publish is delivered (no token fails) and,
    where templates are used, the structured variables that the bridge is given come with a
    template without nested structures ([op_ok]), the bridge never panics, whatever the order of
    data, births, host states, commands, lost connections, drained buffers and restarts of the
    session, and its messages keep the order a session needs: an NBIRTH of sequence number 0
    opens a session with the bdSeq it carries, every message of the session has the next number
    modulo 256, and only an NDEATH of the same bdSeq ends it. While the node is born, the
    session is the node's: its bdSeq and its last number. [host_run] follows just these numbers
    of the edge node: it does not ask that a device's birth precedes its data, which the bridge
    does not ensure ([data_before_birth]); and where an encoding fails the numbers break
    ([failed_encoding_breaks_stream]). *)
Theorem bridge_stream_accepted mid cfg d now ops : (∀ i, token_error i = None) →
  Forall (op_ok (UseTemplates cfg)) ops →
  ∃ br h, br_run token_error iter iterV iterT (NewBridge mid cfg d now) ops = Ok br ∧
    host_run cfg None (sent (node br)) = Some h ∧
    (state (node br) = StateBorn → h = Some (bdSeq (node br), SparkplugNode.seq (node br))).
Proof.
  intros Hdel Hops. destruct (run_ok ops (NewBridge mid cfg d now)) as (br & Hr & Hs & _); [apply NewBridge_ok|done|].
  pose proof (node_steps_config _ _ _ _ _ Hs) as Hc. cbn in Hc.
  destruct (inv_host _ (node_steps_inv token_error iter Hdel iter_perm _ _ (node_inv_new cfg d) Hs)) as (h & Hh & Hb).
  exists br, h. unfold in_session in Hh. by rewrite Hc in Hh.
Qed.

End Client.
