(* ===== verification/MqttDelivery.v ===== *)
(** What reaches the Sparkplug host: the data, births, buffered values and commands of the
    bridge ([MqttBridge]), as the host decodes them. *)

From S2P Require Import StoreForward.
From S2P Require Export MqttBridge.
From S2P Require Topics.

#[local] Open Scope Z_scope.

Section Delivery.
Context `{Hconv : FloatConv} `{Htext : FloatText} `{Hnum : JsonNumber} `{Hunicode : UnicodeTables} `{Hproto : Protobuf}.
Context (token_error : nat → option string).
Context (iter : gmap string (list Metric) → list (string * list Metric)).
Context (iterV : gmap string PlcVariable → list (string * PlcVariable)).
Context (iterT : gmap string Template → list (string * Template)).
Context (iter_perm : ∀ m, iter m ≡ₚ map_to_list m) (iterV_perm : ∀ m, iterV m ≡ₚ map_to_list m).
Context (delivered : ∀ i, token_error i = None).

Notation nseq := SparkplugNode.seq.

(** ** Data *)

(** A message [m] on topic [topic] that carries exactly the metrics [ms]. *)
Definition carries_metrics (topic : string) (ts s : Z) (ms : list Metric) (m : sentMsg) : Prop :=
  sTopic m = topic ∧ sQos m = 0 ∧ sError m = None ∧ DecodePayload (sData m) = Ok (mkPayload ts s false ms).

Lemma PublishDeviceData_born now n dev ms : state n = StateBorn → client n = true → encodable_all ms →
  ∃ m, PublishDeviceData token_error now n dev ms =
         (set_sent (set_seq n ((nseq n + 1) mod 256)) (sent n ++ [m]), Ok tt) ∧
    carries_metrics (deviceTopic (config n) "DDATA" dev) (wrapu 64 now) ((nseq n + 1) mod 256) (map received ms) m.
Proof.
  intros Hb Hc Hms. unfold PublishDeviceData. rewrite bool_decide_eq_true_2, Hc by done. cbn [negb orb].
  unfold publish_data. cbn [nseq set_seq].
  destruct (payload_received (mkPayload (wrapu 64 now) ((nseq n + 1) mod 256) false ms)) as (data & -> & Hd); [done|].
  unfold publish. rewrite delivered. eexists. split; [done|]. by split_and!.
Qed.

(** The conditions under which a message is taken up: the bridge is enabled, the message
    is not its own, the variable is known. *)
Definition takes_up (br : Bridge) (msg : PlcDataMessage) (pv : PlcVariable) : Prop :=
  enabled br = true ∧ dmModuleID msg ≠ moduleID br ∧
  variables br !! variableKey (dmModuleID msg) (dmDeviceID msg) (dmVariableID msg) = Some pv.

Definition message_device (br : Bridge) (msg : PlcDataMessage) : string :=
  if String.eqb (dmDeviceID msg) "" then moduleID br else dmDeviceID msg.

(** A scalar message of a known variable, once the exception check has passed. *)
Lemma handle_known now msg br pv : takes_up br msg pv → dmDatatype msg ≠ "udt" →
  let pv1 := update_variable pv msg in
  let '(p, pv2) := should_publish pv1 (dmDatatype msg) (dmValue msg) now in
  let br1 := set_variables br (<[variableKey (dmModuleID msg) (dmDeviceID msg) (dmVariableID msg) := pv2]> (variables br)) in
  handleDataMessage token_error now (Some msg) br =
    if p then publish_metric token_error now br1 (message_device br msg)
                (valueToMetric (UseTemplates (br_config br)) pv2 (dmValue msg) now)
    else Ok br1.
Proof.
  intros (He & Hm & Hv) Hd%String.eqb_neq. cbv zeta. unfold handleDataMessage.
  apply String.eqb_neq in Hm. rewrite He, Hm, Hv, Hd. cbn [negb default].
  replace (match dmUdtTemplate msg with Some tmpl => _ | None => _ end) with
    (set_variables br (<[variableKey (dmModuleID msg) (dmDeviceID msg) (dmVariableID msg) := update_variable pv msg]> (variables br)))
    by by destruct (dmUdtTemplate msg).
  unfold id. destruct (should_publish _ _ _ _) as [p pv2].
  assert (negb (bool_decide (is_Some (Some pv))) = false) as -> by done.
  unfold set_variables, message_device. cbn [variables moduleID node sf heap stamps templates rebirthTimer enabled
    stopping bHostOnline hostSeen reconnectLoops commands]. rewrite insert_insert_eq. by destruct p.
Qed.

(** What happens to a scalar of a known variable. *)
Lemma known_value_sent now msg br pv : bridge_ok br → takes_up br msg pv →
  dmDatatype msg ≠ "udt" → vDatatype pv ≠ "udt" → dmValue msg ≠ VNil →
  state (node br) = StateBorn → client (node br) = true → StoreForward.state (sf br) ≠ SFOffline →
  let '(p, pv2) := should_publish (update_variable pv msg) (dmDatatype msg) (dmValue msg) now in
  let br1 := set_variables br (<[variableKey (dmModuleID msg) (dmDeviceID msg) (dmVariableID msg) := pv2]> (variables br)) in
  if p then ∃ m, handleDataMessage token_error now (Some msg) br =
      Ok (set_sf (set_node br1 (set_sent (set_seq (node br) ((nseq (node br) + 1) mod 256)) (sent (node br) ++ [m])))
            (StoreForward.RecordPublish (sf br) 1 (ns now))) ∧
      carries_metrics (deviceTopic (br_config br) "DDATA" (message_device br msg)) (wrapu 64 now)
        ((nseq (node br) + 1) mod 256)
        [mkMetric (vID pv) 0 (wrapu 64 now) (NatsToSparkplugType (vDatatype pv)) false false false
           (Plain (coerceValue (dmValue msg) (NatsToSparkplugType (vDatatype pv))))] m
  else handleDataMessage token_error now (Some msg) br = Ok br1.
Proof.
  intros Hok Ht Hd Hdv Hnil Hb Hc Hs. pose proof (handle_known now msg br pv Ht Hd) as H.
  pose proof (should_publish_fields (update_variable pv msg) (dmDatatype msg) (dmValue msg) now) as Hf. cbv zeta in *.
  destruct (should_publish _ _ _ _) as [p pv2]. cbn [fst snd] in *. rewrite H. clear H.
  destruct Hf as (Hf1 & Hf2 & _ & Hf4 & _). destruct p; [|done].
  pose proof (ok_variables br Hok _ _ (proj2 (proj2 Ht))) as [Hty _].
  assert (valueToMetric (UseTemplates (br_config br)) pv2 (dmValue msg) now =
    mkMetric (vID pv) 0 (wrapu 64 now) (NatsToSparkplugType (vDatatype pv)) false false false
      (Plain (coerceValue (dmValue msg) (NatsToSparkplugType (vDatatype pv))))) as Hm.
  { unfold valueToMetric. rewrite Hf1, Hf2, Hf4. cbn [vDatatype vID vSparkplugType update_variable]. apply String.eqb_neq in Hdv.
    by rewrite Hdv, Hty. }
  rewrite Hm. clear Hm. set (M := mkMetric _ _ _ _ _ _ _ _). unfold publish_metric. cbn [sf node set_variables]. rewrite (bool_decide_eq_false_2 _ Hs), Hb. cbn [negb orb bool_decide decide_rel].
  destruct (PublishDeviceData_born now (node br) (message_device br msg) [M]) as (m & Hp & Hcar); [done|done| |].
  { unfold encodable_all, M. cbn [forallb]. rewrite scalar_encodable by done. reflexivity. }
  rewrite bool_decide_eq_true_2 by done. cbn [negb]. rewrite Hp. exists m. split; [done|].
  cbn [map] in Hcar. unfold M in Hcar at 1. by rewrite scalar_received in Hcar.
Qed.

(** A value that the gateway publishes reaches the Sparkplug host: for a known variable
    and a change that passes the exception check, with the node born and the buffer not
    offline, one DDATA goes out with the next sequence number, and what the host decodes
    is one metric with the variable's name, the Sparkplug type of its datatype, and the
    value. A value that does not pass is not sent. *)
Theorem bus_value_reaches_host now msg br pv : bridge_ok br → takes_up br msg pv →
  dmDatatype msg ≠ "udt" → vDatatype pv ≠ "udt" → dmValue msg ≠ VNil →
  state (node br) = StateBorn → client (node br) = true → StoreForward.state (sf br) ≠ SFOffline →
  ∃ br', handleDataMessage token_error now (Some msg) br = Ok br' ∧
    if fst (should_publish (update_variable pv msg) (dmDatatype msg) (dmValue msg) now)
    then ∃ m, sent (node br') = sent (node br) ++ [m] ∧
      carries_metrics (deviceTopic (br_config br) "DDATA" (message_device br msg)) (wrapu 64 now)
        ((nseq (node br) + 1) mod 256)
        [mkMetric (vID pv) 0 (wrapu 64 now) (NatsToSparkplugType (vDatatype pv)) false false false
           (Plain (coerceValue (dmValue msg) (NatsToSparkplugType (vDatatype pv))))] m
    else node br' = node br.
Proof.
  intros Hok Ht Hd Hdv Hnil Hb Hc Hs. pose proof (known_value_sent now msg br pv Hok Ht Hd Hdv Hnil Hb Hc Hs) as H.
  destruct (should_publish _ _ _ _) as [p pv2]. cbv zeta in H. destruct p; cbn [fst]; [|by eexists].
  destruct H as (m & -> & Hm). eexists. split; [done|]. by exists m.
Qed.

(** ** Births *)

Lemma set_device_metrics now n d : deviceMetrics (set_device token_error now n d) = <[d.1 := d.2]> (deviceMetrics n).
Proof.
  unfold set_device, SetDeviceMetrics. cbv beta iota. case_if; [|done]. unfold PublishDeviceBirth. case_if; [done|].
  cbn [deviceMetrics]. rewrite lookup_insert_eq. unfold publishDeviceBirthLocked. by destruct (EncodePayload _).
Qed.

Lemma set_devices_metrics now l : ∀ n, NoDup l.*1 →
  ∀ dev ms, (dev, ms) ∈ l → deviceMetrics (fold_left (set_device token_error now) l n) !! dev = Some ms.
Proof.
  assert (∀ l n dev, dev ∉ l.*1 → deviceMetrics (fold_left (set_device token_error now) l n) !! dev = deviceMetrics n !! dev) as Hother.
  { clear l. induction l as [|d l IH]; intros n dev Hn; [done|]. cbn [fold_left].
    rewrite IH by (intros ?; apply Hn; cbn; by apply list_elem_of_further).
    rewrite set_device_metrics. apply lookup_insert_ne. intros <-. apply Hn. cbn. apply list_elem_of_here. }
  induction l as [|d l IH]; intros n Hnd dev ms Hin; [by apply not_elem_of_nil in Hin|].
  cbn in Hnd. pose proof (NoDup_cons_1_1 _ _ Hnd) as Hd. apply NoDup_cons_1_2 in Hnd. cbn [fold_left].
  apply elem_of_cons in Hin as [<-|Hin]; [|by apply IH].
  rewrite Hother by done. rewrite set_device_metrics. apply lookup_insert_eq.
Qed.

(** Every variable is in the metrics of its device. *)
Lemma group_covers now br k pv : variables br !! k = Some pv →
  ∃ ms, group_metrics iterV now br !! metric_device br pv = Some ms ∧
    valueToMetric (UseTemplates (br_config br)) pv (vValue pv) now ∈ ms.
Proof.
  intros Hk. unfold group_metrics. assert ((k, pv) ∈ iterV (variables br)) as Hin
    by (rewrite iterV_perm; by apply elem_of_map_to_list).
  set (M := valueToMetric _ pv _ _).
  assert (∀ l (m : gmap string (list Metric)), (∃ ms : list Metric, m !! metric_device br pv = Some ms ∧ M ∈ ms) ∨ (k, pv) ∈ l →
    ∃ ms : list Metric, fold_left (λ by_device kv, <[metric_device br kv.2 := default [] (by_device !! metric_device br kv.2) ++
      [valueToMetric (UseTemplates (br_config br)) kv.2 (vValue kv.2) now]]> by_device) l m !! metric_device br pv = Some ms ∧ M ∈ ms) as H.
  { induction l as [|kv l IH]; intros m Hm.
    - destruct Hm as [Hm|Hm]; [exact Hm|by apply not_elem_of_nil in Hm].
    - cbn [fold_left]. apply IH. destruct Hm as [(ms & Hms & HM)|Hm].
      + left. destruct (decide (metric_device br kv.2 = metric_device br pv)) as [Heq|Hne].
        * rewrite Heq, lookup_insert_eq, Hms. eexists. split; [done|]. cbn [default]. apply elem_of_app. by left.
        * rewrite lookup_insert_ne by done. by exists ms.
      + apply elem_of_cons in Hm as [<-|Hm]; [|by right]. left. cbn [snd]. rewrite lookup_insert_eq. eexists. split; [done|].
        apply elem_of_app. right. apply list_elem_of_here. }
  apply H. by right.
Qed.

Lemma build_keeps_node now br : bridge_ok br → node_inv (node br) →
  let n := node (buildDeviceMetrics token_error iter iterV now br) in
  node_inv n ∧ config n = config (node br).
Proof.
  intros Hok Hi. destruct (buildDeviceMetrics_steps token_error iter iterV iter_perm iterV_perm now br Hok) as [Hs _].
  split; [by eapply node_steps_inv|by eapply node_steps_config].
Qed.

(** The rest of the node is left alone while it is not born. *)
Lemma set_devices_unborn now l : ∀ n, state n ≠ StateBorn →
  let n' := fold_left (set_device token_error now) l n in
  state n' = state n ∧ client n' = client n ∧ hostOnline n' = hostOnline n ∧ sent n' = sent n ∧ config n' = config n.
Proof.
  induction l as [|d l IH]; intros n Hb; [done|]. cbn [fold_left].
  assert (set_device token_error now n d = fst (SetDeviceMetrics n d.1 d.2)) as Hd.
  { unfold set_device. cbn [SetDeviceMetrics fst state]. by rewrite (bool_decide_eq_false_2 _ Hb), andb_false_r. }
  rewrite Hd. exact (IH (fst (SetDeviceMetrics n d.1 d.2)) Hb).
Qed.

(** A (re)birth is complete: every variable the bridge tracks is in the birth
    certificate that is published for its device, with its current value. *)
Theorem births_cover_variables now br : bridge_ok br → node_inv (node br) →
  state (node br) = StateDead → client (node br) = true → gate_open (node br) →
  let br' := Birth (NodeClient0 := bridge_client token_error iter iterV) token_error iter now br in
  ∃ nb ms, sent (node br') = sent (node br) ++ nb :: ms ∧ sTopic nb = node_topic (br_config br) "NBIRTH" ∧
    ∀ k pv, variables br !! k = Some pv → ∃ m p, m ∈ ms ∧
      sTopic m = deviceTopic (br_config br) "DBIRTH" (metric_device br pv) ∧ DecodePayload (sData m) = Ok p ∧
      received (valueToMetric (UseTemplates (br_config br)) pv (vValue pv) now) ∈ plMetrics p.
Proof.
  intros Hok Hi Hst Hc Hg br'. destruct (build_keeps_node now br Hok Hi) as [Hi1 _].
  destruct (set_devices_unborn now (iter (group_metrics iterV now br)) (node br)) as (H1 & H2 & H3 & H4 & H5); [by rewrite Hst|].
  set (n1 := fold_left (set_device token_error now) (iter (group_metrics iterV now br)) (node br)) in *.
  assert (node br' = birth_locked token_error iter now n1) as -> by done.
  destruct (birth_publishes token_error iter delivered iter_perm now n1) as (nb & ms & st & s & -> & Hnb & Hms);
    [exact Hi1|by rewrite H1, Hst|by rewrite H2|unfold gate_open; by rewrite H3, H5|].
  exists nb, ms. cbn [sent]. rewrite H4. split; [done|]. unfold br_config. rewrite H5 in *. split; [done|].
  intros k pv Hk. destruct (group_covers now br k pv Hk) as (gms & Hg1 & HM).
  assert (deviceMetrics n1 !! metric_device br pv = Some gms) as Hdev.
  { apply set_devices_metrics; [rewrite iter_perm; apply NoDup_fst_map_to_list|]. rewrite iter_perm. by apply elem_of_map_to_list. }
  apply elem_of_map_to_list in Hdev. rewrite <- iter_perm in Hdev. apply list_elem_of_lookup in Hdev as [i Hdev].
  destruct (Forall2_lookup_l _ _ _ _ _ Hms Hdev) as (m & Hm & Ht & _ & p & Hp & Hpm).
  exists m, p. split; [by eapply list_elem_of_lookup_2|]. split; [exact Ht|]. split; [done|]. rewrite Hpm.
  apply list_elem_of_In, List.in_map, list_elem_of_In. exact HM.
Qed.


(** ** Store and forward *)

(** The buffer is offline unless the node is born and the host is online. *)
Definition sf_offline (br : Bridge) : Prop := StoreForward.state (sf br) = SFOffline.

Lemma reconcile_online now br : ¬ sf_offline (reconcileSFState now br) ↔
  state (node br) = StateBorn ∧ bHostOnline br = true.
Proof.
  unfold reconcileSFState, sf_offline. case_if.
  - apply andb_prop in E as [Hb%bool_decide_eq_true Ho]. cbn. unfold SetOnline. split; [done|]. intros _.
    repeat case_if; cbn; try done. by apply bool_decide_eq_true in E as ->.
  - cbn. unfold SetOffline. split; [|intros [Hb Ho]; rewrite Ho, andb_true_r, bool_decide_eq_true_2 in E; done].
    case_if; [by apply bool_decide_eq_true in E0|]. cbn. tauto.
Qed.

(** After each callback about the node or the primary host, the buffer is online or
    draining exactly when the node is born and the primary host (if one is configured) is
    online. *)
Theorem buffer_follows_node now online s br :
  (¬ sf_offline (handleHostState now online br) ↔ state (node br) = StateBorn ∧ online = true) ∧
  (¬ sf_offline (handleNodeStateChange now s br) ↔ state (node br) = StateBorn ∧ bHostOnline br = true).
Proof.
  split; [apply (reconcile_online now (set_host_online br online true))|].
  unfold handleNodeStateChange. pose proof (reconcile_online now br) as H. by case_if.
Qed.

(** What is published of a buffered record: its metrics under its timestamp. *)
Definition is_replay (br : Bridge) (r : BufferedRecord) (m : sentMsg) : Prop :=
  ∃ p ms s, StoreForward.Payload r = Some p ∧ heap br !! p = Some ms ∧
    carries_metrics (deviceTopic (br_config br) "DDATA" (DeviceID r)) (default 0 (stamps br !! p)) s (map (λ x, received (of_sf x)) ms) m.

Lemma drain_record_replay br r p ms : bridge_ok br → state (node br) = StateBorn → client (node br) = true →
  StoreForward.Payload r = Some p → heap br !! p = Some ms →
  ∃ m s, drain_record token_error br r = Ok (set_node br (set_sent (set_seq (node br) s) (sent (node br) ++ [m]))) ∧
    is_replay br r m.
Proof.
  intros Hok Hb Hc Hp Hms. unfold drain_record. rewrite Hp, Hms. cbn [default]. change (id ms) with ms.
  pose proof (ok_buffer br Hok) as (_ & _ & Hh). specialize (Hh _ _ Hms).
  unfold PublishDeviceDataPayload. rewrite bool_decide_eq_true_2, Hc by done. cbn [negb orb].
  unfold publish_data. cbn [nseq set_seq plTimestamp OmitSeq plMetrics].
  set (s := (nseq (node br) + 1) mod 256).
  destruct (payload_received (mkPayload (default 0 (stamps br !! p)) s false (map of_sf ms))) as (data & He & Hd); [done|].
  rewrite He. unfold publish. rewrite delivered. cbv beta iota. cbn [fst].
  eexists _, s. split; [done|]. exists p, ms, s. split_and!; [done|done|].
  unfold carries_metrics. split_and!; [done..|]. cbn [sData]. rewrite Hd. cbn [plTimestamp Seq OmitSeq plMetrics].
  by rewrite List.map_map.
Qed.

Lemma drain_records_replay rs : ∀ br, bridge_ok br → state (node br) = StateBorn → client (node br) = true →
  Forall (λ r, ∃ p ms, StoreForward.Payload r = Some p ∧ heap br !! p = Some ms) rs →
  ∃ br' ms, drain_records token_error br rs = Ok br' ∧ sent (node br') = sent (node br) ++ ms ∧ Forall2 (is_replay br) rs ms.
Proof.
  induction rs as [|r rs IH]; intros br Hok Hb Hc Hrs; [exists br, []; by rewrite app_nil_r|].
  apply Forall_cons_1 in Hrs as [(p & xs & Hp & Hx) Hrs]. cbn [drain_records].
  destruct (drain_record_replay br r p xs Hok Hb Hc Hp Hx) as (m & s & -> & Hm). cbn [mbind outcome_bind].
  destruct (IH (set_node br (set_sent (set_seq (node br) s) (sent (node br) ++ [m])))) as (br' & ms & H1 & H2 & H3);
    [by apply set_node_ok|done|done|done|].
  exists br', (m :: ms). cbn [node set_node sent set_sent] in H2. rewrite <- app_assoc in H2. split_and!; [done|done|].
  by constructor.
Qed.

(** The same, with the metrics marked historical. *)
Definition is_history (br : Bridge) (r : BufferedRecord) (m : sentMsg) : Prop :=
  ∃ p ms s, StoreForward.Payload r = Some p ∧ heap br !! p = Some ms ∧
    carries_metrics (deviceTopic (br_config br) "DDATA" (DeviceID r)) (default 0 (stamps br !! p)) s
      (map (λ x, received (of_sf (historical x))) ms) m.

Lemma replay_history br h' rs batch ms : rs ⊆ batch → h' = mark (heap br) batch →
  Forall2 (is_replay (set_heap br h' (stamps br))) rs ms → Forall2 (is_history br) rs ms.
Proof.
  intros Hsub -> Hf. induction Hf as [|r m rs ms (p & xs & s & Hp & Hx & Hc) _ IH]; [constructor|].
  constructor; [|apply IH; set_solver]. cbn [heap set_heap] in Hx. rewrite mark_lookup in Hx.
  rewrite decide_True in Hx by (apply list_elem_of_In, List.in_map_iff; exists r; split; [done|]; apply list_elem_of_In; set_solver).
  destruct (heap br !! p) as [ys|] eqn:E; [|done]. injection Hx as <-. exists p, ys, s. split_and!; [done|done|].
  by rewrite List.map_map in Hc.
Qed.

(** A tick of the drain loop publishes the next batch of buffered records in their
    order, each as a DDATA of its device with its timestamp and its metrics marked
    historical, and keeps the rest. *)
Theorem drain_tick_publishes now br rs : bridge_ok br → state (node br) = StateBorn → client (node br) = true →
  StoreForward.state (sf br) = SFDraining → rs = take (Z.to_nat (drainRate (sf br))) (records (sf br)) → 0 < drainRate (sf br) →
  Forall (λ r, ∃ p ms, StoreForward.Payload r = Some p ∧ heap br !! p = Some ms) (records (sf br)) →
  ∃ br' ms, drainTick token_error now br = Ok br' ∧ sent (node br') = sent (node br) ++ ms ∧
    Forall2 (is_history br) rs ms.
Proof.
  intros Hok Hb Hc Hst -> Hrate Hrs. unfold drainTick, Drain. rewrite bool_decide_eq_true_2 by done. cbn [negb].
  destruct (records (sf br)) as [|r0 rs0] eqn:E0; [exists (set_heap (set_sf br (recordTimeline (set_state (sf br) SFOnline) SFOnline "online" (ns now))) (heap br) (stamps br)), [];
    by rewrite take_nil, app_nil_r|].
  set (count := if _ <? _ then _ else drainRate (sf br)).
  assert (take (Z.to_nat count) (r0 :: rs0) = take (Z.to_nat (drainRate (sf br))) (r0 :: rs0)) as Htake.
  { unfold count. destruct (Z.ltb_spec (Z.of_nat (length (r0 :: rs0))) (drainRate (sf br))); [|done].
    rewrite !take_ge; [done|lia|lia]. }
  rewrite Htake. clear Htake. set (batch := take (Z.to_nat (drainRate (sf br))) (r0 :: rs0)).
  change (default [] (Some batch)) with batch.
  set (br1 := set_heap _ _ _).
  assert (bridge_ok br1) as Hok1.
  { destruct Hok as [Hv Ht (H1 & H2 & H3)]. constructor; [done..|]. rewrite E0 in H2. split_and!; [done| |by apply mark_encodable].
    cbn. by apply Forall_drop. }
  edestruct (drain_records_replay batch br1) as (br' & ms & Hd & Hs & Hf); [exact Hok1|exact Hb|exact Hc| |].
  - unfold batch. apply Forall_take. eapply Forall_impl; [exact Hrs|]. intros r (p & ms & Hp & Hms).
    exists p. cbn [heap br1 set_heap]. rewrite mark_lookup, Hms. case_decide; by eexists.
  - exists br', ms. split_and!; [exact Hd|exact Hs|]. by eapply (replay_history br _ batch batch).
Qed.


(** A drain tick while the node is not born takes the batch out of the buffer and
    publishes nothing: the records are lost. *)
Theorem drain_unborn_loses_records now br : bridge_ok br → state (node br) ≠ StateBorn →
  StoreForward.state (sf br) = SFDraining →
  ∃ br', drainTick token_error now br = Ok br' ∧ sent (node br') = sent (node br) ∧
    records (sf br') = drop (Z.to_nat (drainRate (sf br))) (records (sf br)).
Proof.
  intros Hok Hb Hst. unfold drainTick, Drain. rewrite bool_decide_eq_true_2 by done. cbn [negb].
  assert (∀ rs br0, node br0 = node br → ∃ br', drain_records token_error br0 rs = Ok br' ∧ sent (node br') = sent (node br) ∧ sf br' = sf br0) as H.
  { induction rs as [|r rs IH]; intros br0 H0; [exists br0; by rewrite H0|]. cbn [drain_records]. unfold drain_record.
    rewrite H0, (bool_decide_eq_false_2 _ Hb). cbn [andb].
    destruct (StoreForward.Payload r); cbn [mbind outcome_bind]; [|by apply IH].
    unfold PublishDeviceDataPayload. rewrite (bool_decide_eq_false_2 _ Hb). cbn [negb orb fst].
    destruct (IH (set_node br0 (node br))) as (br' & H1 & H2 & H3); [done|]. by exists br'. }
  destruct (records (sf br)) as [|r0 rs0] eqn:E0.
  - cbn [default drain_records]. eexists. split; [done|]. split; [done|]. cbn. rewrite E0. by rewrite drop_nil.
  - set (count := if _ <? _ then _ else drainRate (sf br)).
    destruct (H (take (Z.to_nat count) (r0 :: rs0)) (set_heap (set_sf br (set_records (sf br) (drop (Z.to_nat count) (r0 :: rs0))
      (totalBuffered (sf br)) (wraps 64 (totalDrained (sf br) + count)) (totalEvicted (sf br))))
      (mark (heap br) (take (Z.to_nat count) (r0 :: rs0))) (stamps br))) as (br' & H1 & H2 & H3); [done|].
    exists br'. split; [exact H1|]. split; [exact H2|]. rewrite H3. cbn [sf set_heap set_sf records set_records].
    unfold count. destruct (Z.ltb_spec (Z.of_nat (length (r0 :: rs0))) (drainRate (sf br))); [|done].
    rewrite !drop_ge; [done|lia|lia].
Qed.

(** ** Early data, and a broker that is down *)

(** The first message of a number variable without deadband: tracked, and a rebirth is
    scheduled. *)
Lemma handle_new now msg br f : enabled br = true → dmModuleID msg ≠ moduleID br →
  variables br !! variableKey (dmModuleID msg) (dmDeviceID msg) (dmVariableID msg) = None →
  dmDatatype msg = "number" → dmValue msg = VFloat64 f →
  let k := variableKey (dmModuleID msg) (dmDeviceID msg) (dmVariableID msg) in
  let pv := update_variable (new_variable msg) msg in
  handleDataMessage token_error now (Some msg) br =
    Ok (scheduleRebirth (set_variables br (<[k := with_rbe pv (Internal.RecordPublish Internal.fresh (VFloat64 f) now) ∅]> (variables br)))).
Proof.
  intros He Hm%String.eqb_neq Hv Hd Hf k pv. fold k in Hv. unfold handleDataMessage. rewrite He, Hm. fold k. rewrite Hv, Hd. cbn [negb].
  change (default (new_variable msg) None) with (new_variable msg). fold pv.
  replace (match dmUdtTemplate msg with Some tmpl => _ | None => _ end) with (set_variables br (<[k := pv]> (variables br)))
    by by destruct (dmUdtTemplate msg).
  assert (should_publish pv "number" (dmValue msg) now = (true, with_rbe pv (Internal.RecordPublish Internal.fresh (VFloat64 f) now) ∅)) as ->.
  { unfold should_publish, Internal.observe, Internal.ShouldPublish. cbn. rewrite Hf. destruct (dmDisableRBE msg); reflexivity. }
  unfold set_variables. cbn [variables moduleID node sf heap stamps templates rebirthTimer enabled
    stopping bHostOnline hostSeen reconnectLoops commands negb]. by rewrite insert_insert_eq.
Qed.

(** The second update of a new variable is published as DDATA while the rebirth that
    would announce it is still pending, even when no device metrics were ever given to the
    node. *)
Theorem data_before_birth now1 now2 msg1 msg2 br f1 f2 : bridge_ok br → enabled br = true → dmModuleID msg1 ≠ moduleID br →
  dmModuleID msg2 = dmModuleID msg1 → dmDeviceID msg2 = dmDeviceID msg1 → dmVariableID msg2 = dmVariableID msg1 →
  variables br !! variableKey (dmModuleID msg1) (dmDeviceID msg1) (dmVariableID msg1) = None →
  dmDatatype msg1 = "number" → dmDatatype msg2 = "number" → dmValue msg1 = VFloat64 f1 → dmValue msg2 = VFloat64 f2 →
  dmDeadband msg1 = None → dmDeadband msg2 = None → f64_eqb f1 f2 = false →
  state (node br) = StateBorn → client (node br) = true → StoreForward.state (sf br) ≠ SFOffline →
  ∃ br' m, br_run token_error iter iterV iterT br [BrData now1 (Some msg1); BrData now2 (Some msg2)] = Ok br' ∧
    sent (node br') = sent (node br) ++ [m] ∧
    sTopic m = deviceTopic (br_config br) "DDATA" (message_device br msg1) ∧
    rebirthTimer br' = true ∧ deviceMetrics (node br') = deviceMetrics (node br).
Proof.
  intros Hok He Hm Hm2 Hdv2 Hv2 Hnew Hd1 Hd2 Hf1 Hf2 Hdb1 Hdb2 Hne Hb Hc Hs.
  assert (Hudt : ∀ msg : PlcDataMessage, dmDatatype msg = "number" → op_ok (UseTemplates (br_config br)) (BrData now1 (Some msg))).
  { intros msg Hd. cbn. intros _ Hu. by rewrite Hd in Hu. }
  pose proof (handle_new now1 msg1 br f1 He Hm Hnew Hd1 Hf1) as H1. cbv zeta in H1.
  set (k := variableKey _ _ _) in *. set (pv1 := with_rbe _ _ _) in H1. set (br1 := scheduleRebirth _) in H1.
  assert (takes_up br1 msg2 pv1) as Ht.
  { unfold takes_up. rewrite Hm2, Hdv2, Hv2. split_and!; [done|done|]. cbn. apply lookup_insert_eq. }
  assert (bridge_ok br1) as Hok1.
  { destruct (handleDataMessage_ok token_error iter now1 (Some msg1) br Hok (Hudt msg1 Hd1)) as (b & Hb1 & _ & Hok1).
    rewrite H1 in Hb1. by injection Hb1 as <-. }
  assert (vDatatype pv1 = "number") as Hdt by by rewrite <- Hd1.
  pose proof (known_value_sent now2 msg2 br1 pv1 Hok1 Ht) as H2. rewrite Hd2, Hdt, Hf2 in H2.
  specialize (H2 ltac:(done) ltac:(done) ltac:(done) Hb Hc Hs).
  assert (fst (should_publish (update_variable pv1 msg2) "number" (VFloat64 f2) now2) = true) as Hp.
  { unfold should_publish, Internal.observe, Internal.ShouldPublish. cbn -[f64_eqb Z.eqb].
    rewrite Hdb2, Hdb1. destruct (dmDisableRBE msg1); [done|]. destruct (now1 =? 0); [done|].
    unfold Internal.ValuesEqual. cbn -[f64_eqb]. by rewrite Hne. }
  destruct (should_publish _ _ _ _) as [p pv2]. cbn [fst] in Hp. rewrite Hp in H2. cbv zeta in H2.
  destruct H2 as (m & H2 & Htopic & _). cbn [br_run br_step]. rewrite H1. cbn [mbind outcome_bind]. rewrite H2. cbn [mbind outcome_bind].
  eexists _, m. split; [done|]. split; [done|]. split; [|done]. rewrite Htopic. unfold message_device. by rewrite Hdv2.
Qed.

(** A rebirth without a connection. *)
Lemma fireRebirth_unconnected now br : client (node br) = false → state (node br) = StateDisconnected →
  let br' := fireRebirth token_error iter iterV iterT now br in
  state (node br') = StateDead ∧ client (node br') = false ∧ sent (node br') = sent (node br) ∧
  stopping br' = stopping br ∧ reconnectLoops br' = reconnectLoops br.
Proof.
  intros Hc Hs br'.
  set (w := updateNodeMetrics iterT now (set_timer br false)).
  set (w1 := set_node w (rebirth_locked (node w))).
  assert (state (node w1) = StateDead ∧ client (node w1) = false ∧ sent (node w1) = sent (node br)) as (F1 & F2 & F3).
  { unfold w1. cbn [node set_node]. unfold rebirth_locked. by open_state st. }
  destruct (set_devices_unborn now (iter (group_metrics iterV now w1)) (node w1)) as (G1 & G2 & _ & G4 & _); [by rewrite F1|].
  set (n1 := fold_left _ _ _) in *.
  assert (node br' = birth_locked token_error iter now n1) as -> by done.
  assert (birth_locked token_error iter now n1 = n1) as ->.
  { unfold birth_locked. by rewrite G2, F2, orb_true_r. }
  rewrite G1, G2, G4. split_and!; done.
Qed.

(** When the broker is down at start and a variable arrives before the broker is back,
    the rebirth timer marks the node dead without a connection; the reconnect loop takes
    that for connected and ends, so the bridge never connects although the broker would
    accept. *)
Theorem offline_start_never_connects mid cfg d now0 now1 now2 now3 e saved msg f resp :
  dmModuleID msg ≠ mid → dmDatatype msg = "number" → dmValue msg = VFloat64 f →
  ∃ br1 br2,
    br_run token_error iter iterV iterT (NewBridge mid cfg d now0)
      [BrStart now0 None (Some e) saved None; BrData now1 (Some msg)] = Ok br1 ∧
    reconnectLoops br1 = 1%nat ∧ rebirthTimer br1 = true ∧
    br_run token_error iter iterV iterT br1 [BrTimer now2; BrReconnect now3 None None true resp] = Ok br2 ∧
    reconnectLoops br2 = 0%nat ∧ client (node br2) = false ∧ sent (node br2) = [] ∧
    ∀ now4, snd (Connect now4 None None true (node br2)) = Err "node is already connected (state=1)".
Proof.
  intros Hm Hd Hf. cbn [br_run br_step].
  set (br0 := Start token_error iter iterV now0 None (Some e) saved None (NewBridge mid cfg d now0)).
  assert (node br0 = NewSparkplugNode cfg d ∧ reconnectLoops br0 = 1%nat ∧ enabled br0 = true ∧ moduleID br0 = mid ∧
    variables br0 = ∅ ∧ stopping br0 = false) as (Hn & Hl & He & Hid & Hv & Hst).
  { unfold br0, Start. by rewrite Connect_refused. }
  cbn [mbind outcome_bind]. rewrite (handle_new now1 msg br0 f He); [|by rewrite Hid|by rewrite Hv, lookup_empty|done|done].
  cbn [mbind outcome_bind]. do 2 eexists. split; [done|]. cbn [reconnectLoops rebirthTimer scheduleRebirth set_timer set_variables].
  split; [exact Hl|]. split; [done|]. cbn [br_run br_step mbind outcome_bind]. split; [done|].
  set (br1 := scheduleRebirth _). destruct (fireRebirth_unconnected now2 br1) as (H1 & H2 & H3 & H4 & H5);
    [cbn; by rewrite Hn|cbn; by rewrite Hn|].
  change (stopping br1) with (stopping br0) in H4. change (reconnectLoops br1) with (reconnectLoops br0) in H5.
  change (sent (node br1)) with (sent (node br0)) in H3. rewrite Hst in H4. rewrite Hl in H5. rewrite Hn in H3.
  unfold reconnect_round. rewrite H4, H1. cbn [bool_decide negb]. rewrite bool_decide_eq_false_2 by done.
  cbn [fst negb reconnectLoops node set_loops]. rewrite H5. split_and!; [done|done|exact H3|].
  intros now4. unfold Connect. by rewrite H1.
Qed.

(** ** Commands *)

Lemma find_variable_unique br k pv : variables br !! k = Some pv →
  (∀ k' pv', variables br !! k' = Some pv' → vID pv' = vID pv → k' = k) → find_variable iterV br (vID pv) = Some pv.
Proof.
  intros Hk Hu. unfold find_variable. destruct (find _ _) as [[k' pv']|] eqn:E.
  - apply List.find_some in E as [Hin Heq%String.eqb_eq]. cbn in Heq. apply list_elem_of_In in Hin.
    rewrite iterV_perm in Hin. apply elem_of_map_to_list in Hin. cbn. f_equal.
    assert (k' = k) as -> by by eapply Hu. congruence.
  - apply elem_of_map_to_list in Hk. rewrite <- iterV_perm in Hk. apply list_elem_of_In in Hk.
    pose proof (List.find_none _ _ E _ Hk) as Hn. cbn in Hn. by rewrite String.eqb_refl in Hn.
Qed.

(** A device command whose metric has the name of a variable is published on the bus as
    a command to the variable's module, with the metric's value; a template becomes one
    command per member. *)
Theorem command_routed br k pv m : variables br !! k = Some pv →
  (∀ k' pv', variables br !! k' = Some pv' → vID pv' = vID pv → k' = k) → Name m = vID pv →
  routeCommand iterV br m =
    match Value m with
    | TemplatePtr (Some t) =>
        map (λ mm, (Topics.Command (vModuleID pv) (vID pv +:+ "/" +:+ Name mm), sparkplugValueToJSON (Value mm))) (Metrics t)
    | v => [(Topics.Command (vModuleID pv) (vID pv), sparkplugValueToJSON v)]
    end.
Proof. intros Hk Hu Hn. unfold routeCommand. by rewrite Hn, (find_variable_unique br k pv). Qed.

Lemma int_received name dt k z : is_int32_type dt = true →
  Value (received (mkMetric name 0 0 dt false false false (Plain (VInt k z)))) = Plain (VInt KUint32 (wrapu 32 z)).
Proof.
  intros Hdt. unfold received, encodeMetric, encodeMetric_with. cbn [IsNull Datatype Value Name Alias Timestamp].
  cbn -[is_int32_type wrapu nonempty]. rewrite Hdt. cbn -[is_int32_type wrapu nonempty]. by rewrite Hdt.
Qed.

(** A command that writes a negative Int8, Int16 or Int32 reaches the module as a large
    positive number: -n as 2^32 - n. *)
Theorem negative_command_becomes_positive br k pv dt kd z : variables br !! k = Some pv →
  (∀ k' pv', variables br !! k' = Some pv' → vID pv' = vID pv → k' = k) →
  dt ∈ [TypeInt8; TypeInt16; TypeInt32] → - 2 ^ 31 ≤ z < 0 →
  routeCommand iterV br (received (mkMetric (vID pv) 0 0 dt false false false (Plain (VInt kd z)))) =
    [(Topics.Command (vModuleID pv) (vID pv), Plain (VInt KInt (2 ^ 32 + z)))].
Proof.
  intros Hk Hu Hdt Hz.
  assert (is_int32_type dt = true) as Hdt'.
  { apply list_elem_of_In in Hdt. cbn [In] in Hdt. by destruct Hdt as [<-|[<-|[<-|[]]]]. }
  pose proof (int_received (vID pv) dt kd z Hdt') as Hv.
  assert (Name (received (mkMetric (vID pv) 0 0 dt false false false (Plain (VInt kd z)))) = vID pv) as Hn.
  { unfold received, encodeMetric, encodeMetric_with. cbn [IsNull Datatype Value Name Alias Timestamp].
    cbn -[is_int32_type wrapu nonempty]. rewrite Hdt'. cbn -[is_int32_type wrapu nonempty]. apply nonempty_default. }
  unfold routeCommand. rewrite Hn, (find_variable_unique br k pv) by done. rewrite Hv. cbn [sparkplugValueToJSON].
  do 4 f_equal. unfold wrapu. rewrite <- (Z_mod_plus_full z 1), Z.mod_small; lia.
Qed.

End Delivery.

(** ** Runs over a concrete bridge *)

#[local] Existing Instance conv_zero.
#[local] Existing Instance no_float_text.
#[local] Existing Instance number_zero.
#[local] Existing Instance ascii_tables.
#[local] Existing Instance protobuf_id.

Definition ex_cfg : MqttBridgeConfig := mkConfig "G" "E" "" true 10 0 5 "bdseq".
Definition ex_no_error : nat → option string := λ _, None.
Definition ex_msg (variable : string) (f : Z) (ts : Z) : PlcDataMessage :=
  mkData "gateway" "dev" variable (VFloat64 (f64_of_Z f)) ts "number" "" None false false None None.
Definition ex_udt_msg : PlcDataMessage :=
  mkData "gateway" "dev" "motor" (VMap [("speed", VFloat64 (f64_of_Z 3))]) 1500 "udt" "" None false false
    (Some (mkUdtTemplate "Motor" "1" [mkMember "speed" "number" "" "" false])) None.

Notation ex_run := (br_run ex_no_error map_to_list map_to_list map_to_list).

(** Connected, one variable discovered and born. *)
Definition ex_ops : list brOp :=
  [BrStart 1000 None None true None; BrConnected 1001; BrStateChange 1002 StateBorn;
   BrData 1003 (Some (ex_msg "temp" 20 1003)); BrTimer 1503].
Definition ex_start : Bridge := NewBridge "mqtt" ex_cfg None 999.
Definition ex_br : Bridge := match ex_run ex_start ex_ops with Ok br => br | _ => ex_start end.

Lemma ex_msg_ok use v f ts now : op_ok use (BrData now (Some (ex_msg v f ts))).
Proof. cbn. intros _ Hd. discriminate. Qed.

Lemma ex_ops_ok : Forall (op_ok (UseTemplates ex_cfg)) ex_ops.
Proof. repeat (apply Forall_cons_2; [first [exact I|apply ex_msg_ok]|]). apply Forall_nil_2. Qed.

(** The states a run reaches are good. *)
Lemma run_good ops br : Forall (op_ok (UseTemplates ex_cfg)) ops → ex_run ex_start ops = Ok br →
  bridge_ok br ∧ node_inv (node br).
Proof.
  intros Hops Hr.
  destruct (run_ok ex_no_error map_to_list map_to_list map_to_list (λ _, reflexivity _) (λ _, reflexivity _) (λ _, reflexivity _)
    ops ex_start (NewBridge_ok _ _ _ _) Hops) as (br' & Hr' & Hs & Hok).
  rewrite Hr in Hr'. injection Hr' as <-. split; [exact Hok|].
  eapply (node_steps_inv ex_no_error map_to_list (λ _, eq_refl) (λ _, reflexivity _)); [|exact Hs]. apply node_inv_new.
Qed.

Lemma ex_br_good : bridge_ok ex_br ∧ node_inv (node ex_br).
Proof. apply (run_good ex_ops); [apply ex_ops_ok|]. vm_compute. reflexivity. Qed.

(** The stream of a run with data, templates, a lost connection, an offline period and a
    drained buffer. *)
Definition ex_long : list brOp :=
  ex_ops ++ [BrData 1600 (Some (ex_msg "temp" 21 1600)); BrData 1650 (Some ex_udt_msg); BrTimer 2200; BrLost;
    BrStateChange 2201 StateDead; BrData 2300 (Some (ex_msg "temp" 22 2300)); BrConnected 2400; BrStateChange 2401 StateBorn;
    BrDrain 3000; BrData 3100 (Some (ex_msg "temp" 23 3100)); BrStop 4000].

Lemma ex_long_ok : Forall (op_ok (UseTemplates ex_cfg)) ex_long.
Proof.
  repeat (apply Forall_cons_2; [first [exact I|apply ex_msg_ok|intros _ _; eexists; split; [reflexivity|]]|]); [|apply Forall_nil_2].
  apply Forall_cons_2; [discriminate|apply Forall_nil_2].
Qed.

Lemma bridge_stream_accepted_witness : ∃ br h,
  ex_run ex_start ex_long = Ok br ∧ host_run ex_cfg None (sent (node br)) = Some h ∧ length (sent (node br)) = 11%nat.
Proof.
  destruct (bridge_stream_accepted ex_no_error map_to_list map_to_list map_to_list (λ _, reflexivity _) (λ _, reflexivity _)
    (λ _, reflexivity _) "mqtt" ex_cfg None 999 ex_long (λ _, eq_refl) ex_long_ok) as (br & h & H1 & H2 & _).
  exists br, h. split; [exact H1|]. split; [exact H2|].
  assert (length (sent (node (match ex_run ex_start ex_long with Ok b => b | _ => ex_start end))) = 11%nat) as H
    by (vm_compute; reflexivity).
  unfold ex_start in H. rewrite H1 in H. exact H.
Defined.

Definition ex_key : string := variableKey "gateway" "dev" "temp".
Definition ex_var : PlcVariable := default (new_variable (ex_msg "temp" 20 1003)) (variables ex_br !! ex_key).

Lemma ex_takes_up f ts : takes_up ex_br (ex_msg "temp" f ts) ex_var.
Proof. split_and!; [vm_compute; reflexivity|vm_compute; discriminate|vm_compute; reflexivity]. Qed.

(** The value 21 arrives under the name of the variable. *)
Lemma bus_value_reaches_host_witness : ∃ br' m,
  handleDataMessage ex_no_error 1600 (Some (ex_msg "temp" 21 1600)) ex_br = Ok br' ∧
  sent (node br') = sent (node ex_br) ++ [m] ∧ sTopic m = "spBv1.0/G/DDATA/E/dev" ∧
  DecodePayload (sData m) = Ok (mkPayload 1600 2 false
    [mkMetric "temp" 0 1600 TypeDouble false false false (Plain (VFloat64 (f64_of_Z 21)))]).
Proof.
  destruct (bus_value_reaches_host ex_no_error (λ _, eq_refl) 1600 (ex_msg "temp" 21 1600) ex_br ex_var) as (br' & H & Hm);
    [exact (proj1 ex_br_good)|exact (ex_takes_up 21 1600)|discriminate|vm_compute; discriminate|discriminate|
     vm_compute; reflexivity|vm_compute; reflexivity|vm_compute; discriminate|].
  assert (fst (should_publish (update_variable ex_var (ex_msg "temp" 21 1600)) "number" (VFloat64 (f64_of_Z 21)) 1600) = true) as Hp
    by (vm_compute; reflexivity).
  cbn [dmDatatype dmValue ex_msg] in Hm. rewrite Hp in Hm. destruct Hm as (m & Hs & Ht & _ & _ & Hd).
  exists br', m. split; [exact H|]. split; [exact Hs|]. split; [rewrite Ht; vm_compute; reflexivity|].
  rewrite Hd. vm_compute. reflexivity.
Defined.

(** The birth of a connected, dead node. *)
Definition ex_dead : Bridge := set_node ex_br (rebirth_locked (node ex_br)).

Lemma ex_dead_good : bridge_ok ex_dead ∧ node_inv (node ex_dead).
Proof.
  destruct ex_br_good as [Hok Hi]. split; [apply set_node_ok; [exact Hok|vm_compute; reflexivity]|].
  by apply setStateLocked_inv.
Qed.

Lemma births_cover_variables_witness :
  ∃ m p, m ∈ drop (length (sent (node ex_dead)))
      (sent (node (Birth (NodeClient0 := bridge_client ex_no_error map_to_list map_to_list) ex_no_error map_to_list 1700 ex_dead))) ∧
    sTopic m = "spBv1.0/G/DBIRTH/E/dev" ∧ DecodePayload (sData m) = Ok p ∧
    received (valueToMetric true ex_var (vValue ex_var) 1700) ∈ plMetrics p.
Proof.
  destruct (births_cover_variables ex_no_error map_to_list map_to_list (λ _, reflexivity _) (λ _, reflexivity _) (λ _, eq_refl)
    1700 ex_dead) as (nb & ms & Hs & _ & Hv); [exact (proj1 ex_dead_good)|exact (proj2 ex_dead_good)|
    vm_compute; reflexivity|vm_compute; reflexivity|left; vm_compute; reflexivity|].
  destruct (Hv ex_key ex_var) as (m & p & Hin & Ht & Hd & HM); [vm_compute; reflexivity|].
  exists m, p. split.
  { rewrite Hs, drop_app_length. by apply list_elem_of_further. }
  split; [rewrite Ht; vm_compute; reflexivity|]. split; [exact Hd|exact HM].
Defined.

(** Two updates of a new variable within the timer's half second. *)
Lemma data_before_birth_witness : ∃ br' m,
  ex_run ex_br [BrData 1600 (Some (ex_msg "new" 1 1600)); BrData 1700 (Some (ex_msg "new" 2 1700))] = Ok br' ∧
  sent (node br') = sent (node ex_br) ++ [m] ∧ sTopic m = "spBv1.0/G/DDATA/E/dev" ∧ rebirthTimer br' = true.
Proof.
  destruct (data_before_birth ex_no_error map_to_list map_to_list map_to_list (λ _, eq_refl)
    1600 1700 (ex_msg "new" 1 1600) (ex_msg "new" 2 1700) ex_br (f64_of_Z 1) (f64_of_Z 2))
    as (br' & m & H1 & H2 & H3 & H4 & _);
    [exact (proj1 ex_br_good)|vm_compute; reflexivity|vm_compute; discriminate|reflexivity|reflexivity|reflexivity|
     vm_compute; reflexivity|reflexivity|reflexivity|reflexivity|reflexivity|reflexivity|reflexivity|vm_compute; reflexivity|
     vm_compute; reflexivity|vm_compute; reflexivity|vm_compute; discriminate|].
  exists br', m. split; [exact H1|]. split; [exact H2|]. split; [rewrite H3; vm_compute; reflexivity|exact H4].
Defined.

Lemma offline_start_never_connects_witness : ∃ br2,
  ex_run (NewBridge "mqtt" ex_cfg None 1000) [BrStart 1000 None (Some "connection refused") false None; BrData 1200 (Some (ex_msg "temp" 20 1200));
    BrTimer 1700; BrReconnect 2000 None None true None] = Ok br2 ∧ client (node br2) = false ∧ reconnectLoops br2 = 0%nat.
Proof.
  destruct (offline_start_never_connects ex_no_error map_to_list map_to_list map_to_list "mqtt" ex_cfg None
    1000 1200 1700 2000 "connection refused" false (ex_msg "temp" 20 1200) (f64_of_Z 20) None)
    as (br1 & br2 & H1 & _ & _ & H2 & Hl & Hc & _); [discriminate|reflexivity|reflexivity|].
  exists br2. split; [|split; [exact Hc|exact Hl]].
  cbn [br_run] in H1 |- *. destruct (br_step _ _ _ _ _ _) as [b0| |]; try discriminate. cbn [mbind outcome_bind] in H1 |- *.
  destruct (br_step _ _ _ _ b0 _) as [b1| |]; try discriminate. injection H1 as ->. exact H2.
Defined.

(** A node that lost its connection while a value changed: the buffered record, once the
    node is born again. *)
Definition ex_draining : Bridge :=
  match ex_run ex_br [BrLost; BrStateChange 2201 StateDead; BrData 2300 (Some (ex_msg "temp" 22 2300));
                      BrConnected 2400; BrStateChange 2401 StateBorn] with Ok br => br | _ => ex_br end.

Lemma ex_draining_good : bridge_ok ex_draining.
Proof.
  apply (run_good (ex_ops ++ [BrLost; BrStateChange 2201 StateDead; BrData 2300 (Some (ex_msg "temp" 22 2300));
                      BrConnected 2400; BrStateChange 2401 StateBorn])); [|vm_compute; reflexivity].
  repeat (apply Forall_cons_2; [first [exact I|apply ex_msg_ok]|]). apply Forall_nil_2.
Qed.

Lemma drain_tick_publishes_witness : ∃ br' m,
  drainTick ex_no_error 3000 ex_draining = Ok br' ∧ sent (node br') = sent (node ex_draining) ++ [m] ∧
  sTopic m = "spBv1.0/G/DDATA/E/dev" ∧
  (plMetrics <$> from_outcome (DecodePayload (sData m))) =
    Some [mkMetric "temp" 0 2300 TypeDouble true false false (Plain (VFloat64 (f64_of_Z 22)))].
Proof.
  destruct (drain_tick_publishes ex_no_error map_to_list map_to_list (λ _, reflexivity _) (λ _, reflexivity _) (λ _, eq_refl)
    3000 ex_draining (records (sf ex_draining))) as (br' & ms & Hd & Hs & Hf);
    [exact ex_draining_good|vm_compute; reflexivity..| |].
  { assert (records (sf ex_draining) = [mkRecord "dev" (Some 1%positive) 2300000000]) as -> by (vm_compute; reflexivity).
    apply Forall_cons_2; [|apply Forall_nil_2]. do 2 eexists. split; [reflexivity|]. vm_compute. reflexivity. }
  assert (records (sf ex_draining) = [mkRecord "dev" (Some 1%positive) 2300000000]) as Hr by (vm_compute; reflexivity).
  rewrite Hr in Hf. inversion Hf as [|r m rs ms' (p & xs & s & Hp & Hx & Ht & _ & _ & Hdec) Hnil]; subst. inversion Hnil; subst.
  injection Hp as <-. exists br', m. split; [exact Hd|]. split; [exact Hs|]. split; [rewrite Ht; vm_compute; reflexivity|].
  assert (Some [to_sf (mkMetric "temp" 0 2300 TypeDouble false false false (Plain (VFloat64 (f64_of_Z 22))))] = Some xs)
    as Hh by (rewrite <- Hx; vm_compute; reflexivity).
  injection Hh as <-. rewrite Hdec. vm_compute. reflexivity.
Defined.

Lemma negative_command_becomes_positive_witness :
  routeCommand map_to_list ex_br (received (mkMetric "temp" 0 0 TypeInt32 false false false (Plain (VInt KInt32 (-5))))) =
    [("gateway.command.temp", Plain (VInt KInt 4294967291))].
Proof.
  assert (variables ex_br = {[ ex_key := ex_var ]}) as Hv by (vm_compute; reflexivity).
  pose proof (negative_command_becomes_positive map_to_list (λ _, reflexivity _) ex_br ex_key ex_var TypeInt32 KInt32 (-5)) as H.
  assert (vID ex_var = "temp") as Hid by (vm_compute; reflexivity).
  assert (vModuleID ex_var = "gateway") as Hmod by (vm_compute; reflexivity).
  rewrite Hid, Hmod, Hv in H. apply H; [by rewrite lookup_singleton_eq| | |lia].
  - intros k' pv' Hk' _. apply lookup_singleton_Some in Hk' as [<- _]. reflexivity.
  - apply (bool_decide_unpack _). vm_compute. exact I.
Defined.
