(* ===== verification/GatewayDelivery.v ===== *)
(** The gateway between its neighbours: values of the scanners reach the Sparkplug host
    through the bridge ([MqttDelivery]), commands of the bridge reach the scanners. *)

From S2P Require Export Gateway GatewayRouting GatewayScanners.
From S2P Require Import Topics ChannelBus.
From S2P Require Sparkplug SparkplugNode MqttBridge MqttDelivery StoreForward.
From S2P Require Import Gateway.
Import Sparkplug (Protobuf, Metric, TemplatePtr, Plain).

#[local] Open Scope Z_scope.

Section Commands.
Context `{FloatText}.
Context (iter : ∀ A : Type, gmap string A → list (string * A)).
Context (iter_perm : ∀ A (m : gmap string A), iter A m ≡ₚ map_to_list m).
Context {raw : Type}.

Lemma cut_token a b : one_token a → cut_chars dot (chars (a +:+ "." +:+ b)) = Some (chars a, chars b).
Proof.
  unfold one_token. rewrite !chars_app. change (chars "." ++ chars b) with (dot :: chars b).
  induction (chars a) as [|c l IH]; intros Hn; [done|]. apply not_elem_of_cons in Hn as [Hc Hl]. cbn.
  destruct (Ascii.eqb_spec c dot) as [->|_]; [done|]. by rewrite IH.
Qed.

Lemma split_command gid name : one_token gid → GoText.split_n dot 3 (Command gid name) = [gid; "command"; name].
Proof.
  intros Hg. unfold Command, GoText.split_n.
  change (gid +:+ ".command." +:+ name) with (gid +:+ "." +:+ ("command" +:+ "." +:+ name)).
  cbn [split_chars_n]. rewrite cut_token by done. rewrite cut_token by by apply (bool_decide_unpack _).
  cbn [fmap list_fmap]. by rewrite !str_chars.
Qed.

(** No bidirectional variable has the tag. *)
Definition unknown_tag (g : Gateway) (name : string) : Prop :=
  map_Forall (λ _ tv, vcBidirectional (tvConfig tv) = true → SanitizeForSubject (vcTag (tvConfig tv)) ≠ name) (variables g).

Lemma command_variable_unique g id tv : variables g !! id = Some tv → vcBidirectional (tvConfig tv) = true →
  (∀ id' tv', variables g !! id' = Some tv' → vcBidirectional (tvConfig tv') = true →
     SanitizeForSubject (vcTag (tvConfig tv')) = SanitizeForSubject (vcTag (tvConfig tv)) → id' = id) →
  command_variable iter g (SanitizeForSubject (vcTag (tvConfig tv))) = Some tv.
Proof.
  intros Hid Hb Hu. unfold command_variable. destruct (find _ _) as [[id' tv']|] eqn:E.
  - apply List.find_some in E as [Hin Heq]. cbn in Heq. apply andb_prop in Heq as [Heq%String.eqb_eq Hb'].
    apply list_elem_of_In, (iter_lookup iter iter_perm) in Hin. assert (id' = id) as -> by by eapply Hu.
    cbn. congruence.
  - apply (iter_lookup iter iter_perm) in Hid. apply list_elem_of_In in Hid.
    pose proof (List.find_none _ _ E _ Hid) as Hn. cbn in Hn. by rewrite String.eqb_refl, Hb in Hn.
Qed.

Lemma command_variable_unknown g name : unknown_tag g name → command_variable iter g name = None.
Proof.
  intros Hu. unfold command_variable. destruct (find _ _) as [[id tv]|] eqn:E; [|done]. exfalso.
  apply List.find_some in E as [Hin Heq]. cbn in Heq. apply andb_prop in Heq as [Heq%String.eqb_eq Hb].
  apply list_elem_of_In, (iter_lookup iter iter_perm) in Hin. by apply (Hu id tv Hin Hb).
Qed.

(** Commands go by tag: a command whose name is the sanitized tag of one bidirectional
    variable is forwarded, as it came, to the scanner of the variable's device under the tag
    as it is configured; a command whose name is the tag of none, and does not name a
    member, is dropped. *)
Theorem commands_go_by_tag g id tv d (data : raw) name : gw_inv g → one_token (gatewayID g) → tracked g id tv d →
  vcBidirectional (tvConfig tv) = true →
  (∀ id' tv', variables g !! id' = Some tv' → vcBidirectional (tvConfig tv') = true →
     SanitizeForSubject (vcTag (tvConfig tv')) = SanitizeForSubject (vcTag (tvConfig tv)) → id' = id) →
  handleCommand iter (Command (gatewayID g) (SanitizeForSubject (vcTag (tvConfig tv)))) data g =
    Ok [ERaw (Command (dcProtocol d) (vcTag (tvConfig tv))) data] ∧
  (unknown_tag g name → GoText.cut "/" name = None → handleCommand iter (Command (gatewayID g) name) data g = Ok []).
Proof.
  intros Hi Hg (Hid & c & Hc & Hv & Hd) Hb Hu. unfold handleCommand. rewrite !split_command by done.
  rewrite (command_variable_unique g id tv) by done. rewrite Hc, Hd. split; [done|].
  intros Hun Hcut. by rewrite (command_variable_unknown g name Hun), Hcut.
Qed.

End Commands.

(** ** From the host's command to the scanner, and from the scanner's value to the host *)

Section Bridge.
Context `{Hconv : FloatConv} `{Htext : FloatText} `{Hnum : JsonNumber} `{Hunicode : UnicodeTables} `{Hproto : Protobuf}.
Context (marshal : value → option string).
Context (iter : ∀ A : Type, gmap string A → list (string * A)).
Context (iter_perm : ∀ A (m : gmap string A), iter A m ≡ₚ map_to_list m).
Context {raw : Type} (dec : decoder raw).

(** A variable whose name is not its tag cannot be written from the Sparkplug host: the
    bridge sends the command under the variable's name, and the gateway, which compares
    sanitized tags, drops it. *)
Theorem renamed_variable_not_writable br k pv m (g : Gateway) (data : raw) :
  MqttBridge.variables br !! k = Some pv →
  (∀ k' pv', MqttBridge.variables br !! k' = Some pv' → MqttBridge.vID pv' = MqttBridge.vID pv → k' = k) →
  Sparkplug.Name m = MqttBridge.vID pv → (∀ t, Sparkplug.Value m ≠ TemplatePtr t) →
  one_token (gatewayID g) → MqttBridge.vModuleID pv = gatewayID g →
  unknown_tag g (MqttBridge.vID pv) → GoText.cut "/" (MqttBridge.vID pv) = None →
  ∃ subject x, MqttBridge.routeCommand (iter _) br m = [(subject, x)] ∧
    matchSubject (CommandWildcard (gatewayID g)) subject = true ∧ handleCommand iter subject data g = Ok [].
Proof.
  intros Hk Hu Hn Hv Hg Hm Hun Hcut. rewrite (MqttDelivery.command_routed _ (iter_perm _) br k pv m Hk Hu Hn).
  exists (Command (gatewayID g) (MqttBridge.vID pv)), (MqttBridge.sparkplugValueToJSON (Sparkplug.Value m)).
  split; [rewrite Hm; destruct (Sparkplug.Value m) as [| |[t|]]; [done|done|by destruct (Hv (Some t))|by destruct (Hv None)]|]. split.
  - unfold matchSubject, CommandWildcard, Command.
    change (gatewayID g +:+ ".command.>") with (gatewayID g +:+ "." +:+ ("command" +:+ "." +:+ ">")).
    change (gatewayID g +:+ ".command." +:+ MqttBridge.vID pv) with (gatewayID g +:+ "." +:+ ("command" +:+ "." +:+ MqttBridge.vID pv)).
    rewrite !split_dot, (split_token (gatewayID g)) by done. cbn -[String.eqb GoText.split].
    pose proof (split_not_nil (MqttBridge.vID pv)) as Hnn. destruct (GoText.split dot (MqttBridge.vID pv)) as [|t ts]; [done|].
    rewrite String.eqb_refl, andb_false_r. by destruct (String.eqb (gatewayID g) ">").
  - unfold handleCommand. rewrite split_command by done. by rewrite (command_variable_unknown iter iter_perm g _ Hun), Hcut.
Qed.

Context (token_error : nat → option string) (delivered : ∀ i, token_error i = None).

(** C3: A field value goes all the way. The gateway runs a configuration whose subscriptions it
    holds one time or more (every configuration, and the watch's first delivery at the start,
    adds its own; none is given up). When a scanner publishes a scalar that JSON can carry under
    a tag that one variable of the configuration has, the device's name being its own up to
    sanitizing, and the value passes the gateway's exception check, the first of the
    subscriptions' handlers sends a message on a subject the MQTT bridge listens to, and each of
    the others sends it again exactly when the value passes the check against itself as just
    recorded: with exception reporting switched off. When the value passes the bridge's check
    too, for a variable that the bridge knows and that is not structured, with the session born,
    connected and delivering, and the buffer not offline, the Sparkplug host decodes from the
    first message one metric of the device with the variable's name, its Sparkplug type and the
    value. *)
Theorem scanner_value_reaches_host n now now' (g : Gateway) c id v d tv rawd m br pv :
  runs (λ _, false) iter "gateway" c (S n) g → plain_device "gateway" c (vcDeviceID v) d →
  only_user c id v d → decode_data dec rawd = Some m →
  is_Some (marshal (dmValue m)) → deadband_ok (resolve_deadband (vcDeadband v) d) = true → variables g !! id = Some tv →
  Internal.ShouldPublish (tvRbeState tv) (dmValue m) now (tvDeadband tv) (tvDisableRBE tv) = true →
  let again := Internal.ShouldPublish (Internal.RecordPublish (tvRbeState tv) (dmValue m) now) (dmValue m) now (tvDeadband tv) (tvDisableRBE tv) in
  let msg := data_message "gateway" (initial_variable v d) (dmValue m) (dmDatatype m) now in
  MqttBridge.bridge_ok br → MqttDelivery.takes_up br msg pv → MqttBridge.vID pv = vcID v →
  dmDatatype msg ≠ "udt" → MqttBridge.vDatatype pv ≠ "udt" → dmValue m ≠ VNil →
  SparkplugNode.state (MqttBridge.node br) = SparkplugNode.StateBorn → SparkplugNode.client (MqttBridge.node br) = true →
  StoreForward.state (MqttBridge.sf br) ≠ StoreForward.SFOffline →
  fst (MqttBridge.should_publish (MqttBridge.update_variable pv msg) (dmDatatype msg) (dmValue m) now') = true →
  ∃ g' subject br' out,
    deliver marshal iter dec now (scanner_subject (dcProtocol d) (vcDeviceID v) (vcTag v)) rawd false g
      = Ok (g', replicate (if again then S n else 1%nat) (EData subject msg)) ∧
    matchSubject MqttBridge.data_subject subject = true ∧
    MqttBridge.handleDataMessage token_error now' (Some msg) br = Ok br' ∧
    SparkplugNode.sent (MqttBridge.node br') = SparkplugNode.sent (MqttBridge.node br) ++ [out] ∧
    MqttDelivery.carries_metrics
      (SparkplugNode.deviceTopic (MqttBridge.br_config br) "DDATA" (MqttDelivery.message_device br msg)) (wrapu 64 now')
      ((SparkplugNode.seq (MqttBridge.node br) + 1) mod 256)
      [Sparkplug.mkMetric (vcID v) 0 (wrapu 64 now') (Sparkplug.NatsToSparkplugType (MqttBridge.vDatatype pv)) false false false
         (Plain (MqttBridge.coerceValue (dmValue m) (Sparkplug.NatsToSparkplugType (MqttBridge.vDatatype pv))))] out.
Proof.
  intros Hr Hpd Hu Hm Hx Hdb Htv Hpass again msg Hok Ht Hname Hd Hdv Hnil Hb Hcl Hsf Hpass'.
  pose proof Hr as ((Hid & _) & Hc & Hi & _).
  destruct (handlers_publish marshal iter dec n now g c id v d tv rawd m Hi Hc Hu) as (g' & Hh);
    [destruct Hpd as (_ & _ & Hp & Hdev & _); by apply (Hp _ _ Hdev)|done..|]. rewrite Hid in Hh. fold again msg in Hh.
  pose proof (MqttDelivery.known_value_sent token_error delivered now' msg br pv Hok Ht Hd Hdv Hnil Hb Hcl Hsf) as Hs.
  change (dmValue msg) with (dmValue m) in Hs. destruct (MqttBridge.should_publish _ _ _ _) as [b pv2]. cbn [fst] in Hpass'. subst b.
  destruct Hs as (out & Hbr & Hcar). rewrite Hname in Hcar.
  exists g', (data_subject "gateway" (initial_variable v d)). eexists _, out. split; [|split; [|split; [exact Hbr|split; [done|exact Hcar]]]].
  - rewrite (deliver_scanner marshal (λ _, false) iter iter_perm dec (S n) now g "gateway" c id v d rawd) by done. exact Hh.
  - unfold MqttBridge.data_subject, data_subject. unfold matchSubject.
    change (GoText.split dot (DataWildcard "gateway")) with ["gateway"; "data"; ">"].
    rewrite split_data by by apply (bool_decide_unpack _). cbn [app]. rewrite !match_plain by (by apply (bool_decide_unpack _) || apply data_plain).
    rewrite !bool_decide_eq_true_2 by done. cbn [andb].
    pose proof (split_not_nil (SanitizeForSubject (vcDeviceID (tvConfig (initial_variable v d))))) as Hn.
    by destruct (GoText.split dot (SanitizeForSubject (vcDeviceID (tvConfig (initial_variable v d))))).
Qed.

End Bridge.

(** ** A concrete gateway *)

#[local] Existing Instance conv_zero.
#[local] Existing Instance no_float_text.
#[local] Existing Instance number_zero.
#[local] Existing Instance ascii_tables.
#[local] Existing Instance Sparkplug.protobuf_id.

(** Bytes that are their own decoding. *)
Inductive ex_raw := RData (m : PlcDataMessage) | RConfig (c : GatewayConfigKV) | RText (s : string).
Definition ex_decoder : decoder ex_raw := {|
  decode_data r := match r with RData m => Some m | _ => None end;
  decode_batch _ := None;
  decode_config r := match r with RConfig c => Some c | _ => None end;
|}.

Notation ex_iter := (λ A : Type, @map_to_list string A (gmap string A) _).
Lemma ex_iter_perm : ∀ A (m : gmap string A), ex_iter A m ≡ₚ map_to_list m.
Proof. intros A m. reflexivity. Qed.

Definition ex_plc : GatewayDeviceConfig :=
  mkDevice "modbus" false "10.0.0.1" None None "" "" "" None None "ABCD" None None None ∅.
Definition ex_temp : GatewayVariableConfig :=
  mkVarConfig "temp" "" "number" VNil "dev" "db1.temp" "" true None false false None "float32" "" (Some 10).
Definition ex_speed : GatewayVariableConfig :=
  mkVarConfig "speed" "" "number" VNil "dev" "speed" "" true None true false None "uint16" "" (Some 20).
Definition ex_config : GatewayConfigKV :=
  mkConfig "gateway" {["dev" := ex_plc]} (<["temp" := ex_temp]> {["speed" := ex_speed]}) ∅ ∅ 0.

Definition ex_gateway : Gateway := fst (ApplyConfig (raw := ex_raw) (λ _, false) ex_iter (Some ex_config) (New "gateway")).

Lemma ex_gateway_inv : gw_inv ex_gateway.
Proof. apply (ApplyConfig_inv (λ _, false) ex_iter ex_iter_perm). Qed.

Lemma ex_only id v : cfVariables ex_config !! id = Some v →
  map_Forall (λ id' v', SanitizeForSubject (vcTag v') = SanitizeForSubject (vcTag v) → id' = id) (cfVariables ex_config) →
  vcDeviceID v = "dev" → map_Forall (λ _ v', vcDeviceID v' = "dev") (cfVariables ex_config) → only_user ex_config id v ex_plc.
Proof.
  intros Hv Htags Hdev Hdevs. split; [done|]. rewrite Hdev. split; [by vm_compute|].
  intros id' v' d' Hv' Hd' Hk. apply (Htags id' v' Hv'). unfold var_key, tag_key in Hk.
  rewrite (Hdevs _ _ Hv') in Hd'. assert (d' = ex_plc) as -> by (vm_compute in Hd'; by injection Hd' as <-).
  rewrite (Hdevs _ _ Hv'), Hdev in Hk.
  apply (f_equal chars) in Hk. rewrite !chars_app in Hk. by repeat apply app_inv_head in Hk; apply (f_equal str) in Hk; rewrite !str_chars in Hk.
Qed.

Lemma ex_only_temp : only_user ex_config "temp" ex_temp ex_plc.
Proof.
  apply ex_only; [vm_compute; reflexivity| |reflexivity|].
  - unfold ex_config. cbn [cfVariables]. apply map_Forall_insert_2; [done|]. apply map_Forall_singleton. vm_compute. discriminate.
  - apply map_Forall_insert_2; [done|]. by apply map_Forall_singleton.
Qed.

Lemma ex_only_speed : only_user ex_config "speed" ex_speed ex_plc.
Proof.
  apply ex_only; [vm_compute; reflexivity| |reflexivity|].
  - unfold ex_config. cbn [cfVariables]. apply map_Forall_insert_2; [vm_compute; discriminate|]. by apply map_Forall_singleton.
  - apply map_Forall_insert_2; [done|]. by apply map_Forall_singleton.
Qed.

Notation ex_gw_run := (gw_run ex_json (λ _, false) ex_iter ex_decoder).

(** A start, a configuration, data, a status report and a stop. *)
Definition ex_ops : list gwOp :=
  [OpStart 1000 (Some (Some ex_config)) false; OpConfig (Some (RConfig ex_config));
   OpMessage 1100 "modbus.data.dev.db1_temp" (RData (mkData "modbus" "dev" "db1.temp" (VFloat64 (f64_of_Z 20)) 1100 "number" "" None false false None None)) false;
   OpStatus 2000; OpTimer 2100 "none"].

Definition ex_final : Gateway := match ex_gw_run ex_ops (New "gateway") with Ok (g, _) => g | _ => New "" end.
Definition ex_effects : list (effect ex_raw) := match ex_gw_run ex_ops (New "gateway") with Ok (_, es) => es | _ => [] end.

Lemma ex_ran : ex_gw_run ex_ops (New "gateway") = Ok (ex_final, ex_effects).
Proof. vm_compute. reflexivity. Qed.

Lemma indices_follow_configuration_witness : gw_inv ex_final ∧ size (variables ex_final) = 2%nat.
Proof.
  split; [exact (indices_follow_configuration ex_json (λ _, false) ex_iter ex_iter_perm ex_decoder "gateway" ex_ops ex_final ex_effects ex_ran)|].
  vm_compute. reflexivity.
Defined.

Lemma requests_follow_configuration_witness :
  (∃ c, config ex_final = Some c ∧ ∃ r, wanted ex_iter (gatewayID ex_final) c ("scanner_config_modbus", "gateway-gateway.dev") (ModbusRequest r)) ∧
  buckets ∅ ex_effects !! ("scanner_config_snmp", "gateway-gateway.dev") = None.
Proof.
  pose proof (requests_follow_configuration ex_json (λ _, false) ex_iter ex_iter_perm ex_decoder "gateway" ex_ops ex_final ex_effects ex_ran) as H.
  split; [|vm_compute; reflexivity].
  assert (∃ r, buckets ∅ ex_effects !! ("scanner_config_modbus", "gateway-gateway.dev") = Some (ModbusRequest r)) as [r Hr]
    by (eexists; vm_compute; reflexivity).
  apply H in Hr as (c & Hc & Hw). exists c. split; [exact Hc|]. exists r. exact Hw.
Defined.

(** Two values within the exception check's tolerance of each other and one outside. *)
Definition ex_scanned (now : Z) (z : Z) : scanned := mkScanned now "modbus" "dev" "db1_temp" (VFloat64 (f64_of_Z z)) "number".
Definition ex_values : list scanned :=
  [ex_scanned 1000 20; mkScanned 1050 "modbus" "dev" "speed" (VFloat64 (f64_of_Z 3)) "number"; ex_scanned 1100 20; ex_scanned 1200 21].

Definition ex_tv : TrackedVariable := initial_variable ex_temp ex_plc.

Lemma publications_by_exception_witness :
  publications ex_tv (snd (route_all ex_json (raw := ex_raw) ex_values ex_gateway)) =
    [(VFloat64 (f64_of_Z 20), 1000); (VFloat64 (f64_of_Z 21), 1200)].
Proof.
  destruct (publications_by_exception ex_json (raw := ex_raw) ex_values ex_gateway "temp" ex_tv ex_plc ex_gateway_inv) as [H _].
  - split; [vm_compute; reflexivity|]. exists ex_config. split; [vm_compute; reflexivity|]. split; vm_compute; reflexivity.
  - intros id' tv' Hid'. vm_compute in Hid'. intros _ Hn.
    assert (map_Forall (λ id tv, vcID (tvConfig tv) = "temp" → id = "temp") (variables ex_gateway)) as Hall.
    { apply map_Forall_to_list. vm_compute. repeat constructor; discriminate. }
    exact (Hall id' tv' Hid' Hn).
  - reflexivity.
  - repeat constructor; eexists; reflexivity.
  - etransitivity; [exact H|]. vm_compute. reflexivity.
Defined.

Lemma ex_plain_device : plain_device "gateway" ex_config "dev" ex_plc.
Proof.
  split; [apply (bool_decide_unpack _); vm_compute; exact I|]. split; [vm_compute; discriminate|]. split.
  - apply map_Forall_singleton. apply (bool_decide_unpack _). vm_compute. exact I.
  - split; [vm_compute; reflexivity|]. intros dev' d' Hd' _ _. unfold ex_config in Hd'. cbn [cfDevices] in Hd'.
    by apply lookup_singleton_Some in Hd' as [<- _].
Qed.

(** After the start and two deliveries, one message is published three times. *)
Lemma repeated_configuration_duplicates_witness : ∃ g es g' subj msg,
  ex_gw_run [OpStart 1000 (Some (Some ex_config)) false; OpConfig (Some (RConfig ex_config)); OpConfig (Some (RConfig ex_config))]
    (New "gateway") = Ok (g, es) ∧
  deliver ex_json ex_iter ex_decoder 2000 (scanner_subject "modbus" "dev" "speed")
    (RData (mkData "modbus" "dev" "speed" (VFloat64 0) 2000 "number" "" None false false None None)) false g =
  Ok (g', [EData subj msg; EData subj msg; EData subj msg]).
Proof.
  destruct (repeated_configuration_duplicates ex_json (λ _, false) ex_iter ex_iter_perm ex_decoder 2 1000 2000 "gateway" ex_config "speed" ex_speed ex_plc
    (RConfig ex_config) (RData (mkData "modbus" "dev" "speed" (VFloat64 0) 2000 "number" "" None false false None None))
    (mkData "modbus" "dev" "speed" (VFloat64 0) 2000 "number" "" None false false None None))
    as (g & es & g' & H1 & H2); [reflexivity|exact ex_plain_device|exact ex_only_speed|reflexivity|reflexivity|reflexivity|eexists; reflexivity|reflexivity|].
  exists g, es, g'. do 2 eexists. split; [exact H1|exact H2].
Defined.

(** Commands: "speed" is the name and the tag of its variable; "temp" is only a name. *)
Lemma ex_unknown_temp : unknown_tag ex_gateway "temp".
Proof. apply map_Forall_to_list. vm_compute. repeat constructor; intros _; discriminate. Qed.

Lemma commands_go_by_tag_witness :
  handleCommand ex_iter (Command "gateway" "speed") (RText "42") ex_gateway = Ok [ERaw "modbus.command.speed" (RText "42")] ∧
  handleCommand ex_iter (Command "gateway" "temp") (RText "42") ex_gateway = Ok [].
Proof.
  destruct (commands_go_by_tag ex_iter ex_iter_perm ex_gateway "speed" (initial_variable ex_speed ex_plc) ex_plc (RText "42") "temp" ex_gateway_inv) as [H1 H2].
  - apply (bool_decide_unpack _). vm_compute. exact I.
  - split; [vm_compute; reflexivity|]. exists ex_config. split; [vm_compute; reflexivity|]. split; vm_compute; reflexivity.
  - reflexivity.
  - intros id' tv' Hid'. revert Hid'. assert (map_Forall (λ id tv, SanitizeForSubject (vcTag (tvConfig tv)) = "speed" → id = "speed") (variables ex_gateway)) as Hall.
    { apply map_Forall_to_list. vm_compute. repeat constructor; discriminate. }
    intros Hid' _ Hn. exact (Hall id' tv' Hid' Hn).
  - split; [exact H1|]. apply H2; [exact ex_unknown_temp|vm_compute; reflexivity].
Defined.

Notation ex_br := MqttDelivery.ex_br.
Notation ex_pv := MqttDelivery.ex_var.

Lemma renamed_variable_not_writable_witness : ∃ subject x,
  MqttBridge.routeCommand (ex_iter _) ex_br (Sparkplug.mkMetric "temp" 0 0 Sparkplug.TypeDouble false false false (Plain (VFloat64 0))) = [(subject, x)] ∧
  matchSubject (CommandWildcard "gateway") subject = true ∧ handleCommand ex_iter subject (RText "0") ex_gateway = Ok [].
Proof.
  destruct (renamed_variable_not_writable ex_iter ex_iter_perm ex_br MqttDelivery.ex_key ex_pv
    (Sparkplug.mkMetric "temp" 0 0 Sparkplug.TypeDouble false false false (Plain (VFloat64 0))) ex_gateway (RText "0"))
    as (subject & x & H1 & H2 & H3).
  - vm_compute. reflexivity.
  - assert (map_Forall (λ k _, k = MqttDelivery.ex_key) (MqttBridge.variables ex_br)) as Hall.
    { apply map_Forall_to_list. vm_compute. repeat constructor. }
    intros k' pv' Hk' _. exact (Hall k' pv' Hk').
  - vm_compute. reflexivity.
  - intros t. discriminate.
  - apply (bool_decide_unpack _). vm_compute. exact I.
  - vm_compute. reflexivity.
  - replace (MqttBridge.vID ex_pv) with "temp" by (vm_compute; reflexivity). exact ex_unknown_temp.
  - vm_compute. reflexivity.
  - exists subject, x. split; [exact H1|]. split; [exact H2|exact H3].
Defined.

(** The value 21 of the scanner, at the host. *)
Definition ex_scanner_msg : PlcDataMessage :=
  mkData "modbus" "dev" "db1.temp" (VFloat64 (f64_of_Z 21)) 1600 "number" "" None false false None None.

(** The gateway after its start, at which the configuration has been applied a second time. *)
Definition ex_running : Gateway := fst (ApplyConfig (raw := ex_raw) (λ _, false) ex_iter (Some ex_config) ex_gateway).

Lemma ex_runs : runs (λ _, false) ex_iter "gateway" ex_config 2 ex_running.
Proof.
  apply (runs_again (raw := ex_raw) (λ _, false) ex_iter ex_iter_perm "gateway" ex_config 1 ex_gateway).
  apply (runs_again (raw := ex_raw) (λ _, false) ex_iter ex_iter_perm "gateway" ex_config 0 (New "gateway")). by split.
Qed.

Lemma scanner_value_reaches_host_witness : ∃ g' subject msg br' out,
  deliver ex_json ex_iter ex_decoder 1600 (scanner_subject "modbus" "dev" "db1.temp") (RData ex_scanner_msg) false ex_running
    = Ok (g', [EData subject msg]) ∧
  MqttBridge.handleDataMessage MqttDelivery.ex_no_error 1601 (Some msg) ex_br = Ok br' ∧
  SparkplugNode.sent (MqttBridge.node br') = SparkplugNode.sent (MqttBridge.node ex_br) ++ [out] ∧
  Sparkplug.DecodePayload (SparkplugNode.sData out) = Ok (Sparkplug.mkPayload 1601 2 false
    [Sparkplug.mkMetric "temp" 0 1601 Sparkplug.TypeDouble false false false (Plain (VFloat64 (f64_of_Z 21)))]).
Proof.
  destruct (scanner_value_reaches_host ex_json ex_iter ex_iter_perm ex_decoder MqttDelivery.ex_no_error (λ _, eq_refl) 1 1600 1601 ex_running
    ex_config "temp" ex_temp ex_plc (initial_variable ex_temp ex_plc) (RData ex_scanner_msg) ex_scanner_msg ex_br ex_pv ex_runs)
    as (g' & subject & br' & out & H1 & _ & H3 & H4 & _ & _ & _ & H5);
    [exact ex_plain_device|exact ex_only_temp|
     reflexivity|eexists; reflexivity|reflexivity|vm_compute; reflexivity|vm_compute; reflexivity|exact (proj1 MqttDelivery.ex_br_good)|
     exact (MqttDelivery.ex_takes_up 21 1600)|vm_compute; reflexivity|discriminate|vm_compute; discriminate|discriminate|
     vm_compute; reflexivity|vm_compute; reflexivity|vm_compute; discriminate|vm_compute; reflexivity|].
  exists g', subject, (data_message "gateway" (initial_variable ex_temp ex_plc) (VFloat64 (f64_of_Z 21)) "number" 1600), br', out.
  split; [exact H1|]. split; [exact H3|]. split; [exact H4|]. rewrite H5. vm_compute. reflexivity.
Defined.
