(* ===== verification/Manifest.v ===== *)
(** Manifests: internal/manifest. The configuration of the whole system as a list of
    resources: what they are (types.go), when they are valid (validate.go), how they are
    written to the buckets and modules (apply.go), read from them (export.go) with secrets
    taken out (secrets.go), and compared with them (diff.go).

    The values of the buckets are the typed ones of the other components, [None] where the
    bytes do not parse; a bucket's operations are taken to succeed. The modules nftables and
    network are asked through the class [Peers]. Where the code ranges over a Go map, the
    order is an argument. *)

From stdpp Require Import sorting.
From S2P Require Export Orchestrator GatewayConfig PlcVariables.

#[local] Open Scope Z_scope.

(** ** Resources: types.go *)

Definition APIVersion : string := "tentacle.joyautomation.com/v1".
Definition KindGateway : string := "Gateway".
Definition KindService : string := "Service".
Definition KindModuleConfig : string := "ModuleConfig".
Definition KindNftables : string := "Nftables".
Definition KindNetwork : string := "Network".
Definition KindPlc : string := "Plc".

Definition AllKinds : list string := [KindGateway; KindService; KindModuleConfig; KindNftables; KindNetwork; KindPlc].

Definition KnownKind (kind : string) : bool := existsb (String.eqb kind) AllKinds.

Record ResourceHeader := mkHeader {
  rhAPIVersion : string;
  rhKind : string;
  rhName : string;
}.

Definition NewHeader (kind name : string) : ResourceHeader := mkHeader APIVersion kind name.

Record GatewaySpec := mkGatewaySpec {
  gsDevices : gmap string GatewayDeviceConfig;
  gsVariables : gmap string GatewayVariableConfig;
  gsUdtTemplates : gmap string GatewayUdtTemplateConfig;
  gsUdtVariables : gmap string GatewayUdtVariableConfig;
}.

Record ServiceSpec := mkServiceSpec {
  spVersion : string;
  spRunning : bool;
  spEnabled : option bool;
}.

(** internal/types/nftables.go *)
Record NatRule := mkNatRule {
  nrID : string;
  nrEnabled : bool;
  nrProtocol : string;
  nrConnectingDevices : string;
  nrIncomingInterface : string;
  nrOutgoingInterface : string;
  nrNatAddr : string;
  nrOriginalPort : string;
  nrTranslatedPort : string;
  nrDeviceAddr : string;
  nrDeviceName : string;
  nrDoubleNat : bool;
  nrDoubleNatAddr : string;
  nrComment : string;
}.

(** internal/types/network.go *)
Record NetworkInterfaceConfig := mkInterface {
  niInterfaceName : string;
  niDHCP4 : bool;
  niAddresses : list string;
  niGateway4 : string;
  niNameservers : list string;
  niMtu : Z;
}.

Record PlcProgramSpec := mkProgramSpec {
  pgLanguage : string;
  pgSource : string;
  pgStSource : string;
}.

(** [None] is a nil map, which validation tells from an empty one. *)
Record PlcSpec := mkPlcSpec {
  plDevices : gmap string PlcDeviceConfigKV;
  plVariables : gmap string PlcVariableConfigKV;
  plUdtTemplates : gmap string PlcUdtTemplateConfigKV;
  plTasks : gmap string PlcTaskConfigKV;
  plPrograms : option (gmap string PlcProgramSpec);
}.

Inductive Spec :=
| GatewayResource (s : GatewaySpec)
| ServiceResource (s : ServiceSpec)
| ModuleConfigResource (values : option (gmap string string))
| NftablesResource (natRules : list NatRule)
| NetworkResource (interfaces : list NetworkInterfaceConfig)
| PlcResource (s : PlcSpec).

Record Resource := mkResource {
  header : ResourceHeader;
  spec : Spec;
}.

Definition rName (r : Resource) : string := rhName (header r).

(** The kind that goes with the type of a resource. *)
Definition kind_of (s : Spec) : string :=
  match s with
  | GatewayResource _ => KindGateway
  | ServiceResource _ => KindService
  | ModuleConfigResource _ => KindModuleConfig
  | NftablesResource _ => KindNftables
  | NetworkResource _ => KindNetwork
  | PlcResource _ => KindPlc
  end.

(** ** validate.go *)

Section Validate.
Context `{UnicodeTables}.
Variable o : ranging.

Definition prefix_of (kind : string) (r : Resource) (idx : nat) : string :=
  kind +:+ " " +:+ quote (rName r) +:+ " (resource " +:+ itoa (Z.of_nat idx) +:+ ")".

Definition name_required (prefix : string) (r : Resource) : list string :=
  if String.eqb (rName r) "" then [prefix +:+ ": metadata.name is required"] else [].

Definition validProtocol (p : string) : bool := existsb (String.eqb p) ["ethernetip"; "opcua"; "snmp"; "modbus"].

Definition protocol_errors (prefix devID protocol : string) : list string :=
  if String.eqb protocol "" then [prefix +:+ ": device " +:+ quote devID +:+ " has no protocol"]
  else if negb (validProtocol protocol) then [prefix +:+ ": device " +:+ quote devID +:+ " has unknown protocol " +:+ quote protocol]
  else [].

(** A reference to a device or template that must be there. *)
Definition reference_errors (what field kind id : string) (known : bool) : list string :=
  if String.eqb id "" then [what +:+ " has no " +:+ field]
  else if negb known then [what +:+ " references unknown " +:+ kind +:+ " " +:+ quote id]
  else [].

Definition known {A} (m : gmap string A) (k : string) : bool := bool_decide (is_Some (m !! k)).

Definition validateGateway (r : Resource) (s : GatewaySpec) (idx : nat) : list string :=
  let prefix := prefix_of "Gateway" r idx in
  name_required prefix r
  ++ flat_map (λ kv, reference_errors (prefix +:+ ": variable " +:+ quote kv.1) "deviceId" "device" (vcDeviceID kv.2)
      (known (gsDevices s) (vcDeviceID kv.2))) (o _ (gsVariables s))
  ++ flat_map (λ kv, let what := prefix +:+ ": udtVariable " +:+ quote kv.1 in
      reference_errors what "deviceId" "device" (ucDeviceID kv.2) (known (gsDevices s) (ucDeviceID kv.2))
      ++ reference_errors what "templateName" "template" (ucTemplateName kv.2) (known (gsUdtTemplates s) (ucTemplateName kv.2)))
      (o _ (gsUdtVariables s))
  ++ flat_map (λ kv, protocol_errors prefix kv.1 (dcProtocol kv.2)) (o _ (gsDevices s)).

Definition validateService (r : Resource) (s : ServiceSpec) (idx : nat) : list string :=
  let prefix := prefix_of "Service" r idx in
  name_required prefix r ++ if String.eqb (spVersion s) "" then [prefix +:+ ": spec.version is required"] else [].

Definition validateModuleConfig (r : Resource) (values : option (gmap string string)) (idx : nat) : list string :=
  let prefix := prefix_of "ModuleConfig" r idx in
  name_required prefix r ++ match values with None => [prefix +:+ ": spec.values is required"] | Some _ => [] end.

(** The rules from index [i] on; [ids] are those seen, the empty one included. *)
Fixpoint rule_errors (prefix : string) (ids : list string) (i : nat) (rules : list NatRule) : list string :=
  match rules with
  | [] => []
  | rule :: rules =>
      (if String.eqb (nrID rule) "" then [prefix +:+ ": natRules[" +:+ itoa (Z.of_nat i) +:+ "] has no id"]
       else if existsb (String.eqb (nrID rule)) ids then [prefix +:+ ": duplicate rule id " +:+ quote (nrID rule)]
       else [])
      ++ rule_errors prefix (nrID rule :: ids) (S i) rules
  end.

Definition validateNftables (r : Resource) (rules : list NatRule) (idx : nat) : list string :=
  rule_errors (prefix_of "Nftables" r idx) [] 0 rules.

Fixpoint interface_errors (prefix : string) (i : nat) (l : list NetworkInterfaceConfig) : list string :=
  match l with
  | [] => []
  | iface :: l =>
      (if String.eqb (niInterfaceName iface) "" then [prefix +:+ ": interfaces[" +:+ itoa (Z.of_nat i) +:+ "] has no interfaceName"] else [])
      ++ interface_errors prefix (S i) l
  end.

Definition validateNetwork (r : Resource) (l : list NetworkInterfaceConfig) (idx : nat) : list string :=
  interface_errors (prefix_of "Network" r idx) 0 l.

Definition task_errors (prefix taskID : string) (programs : option (gmap string PlcProgramSpec)) (t : PlcTaskConfigKV) : list string :=
  let what := prefix +:+ ": task " +:+ quote taskID in
  reference_errors what "programRef" "program" (ptProgramRef t)
    (match programs with Some m => known m (ptProgramRef t) | None => true end)
  ++ if ptScanRateMs t <=? 0 then [what +:+ " has invalid scanRateMs " +:+ itoa (ptScanRateMs t)] else [].

Definition validatePlc (r : Resource) (s : PlcSpec) (idx : nat) : list string :=
  let prefix := prefix_of "Plc" r idx in
  name_required prefix r
  ++ flat_map (λ kv, match pvSource kv.2 with
      | Some src =>
          if negb (String.eqb (psDeviceID src) "") && negb (known (plDevices s) (psDeviceID src)) then
            [prefix +:+ ": variable " +:+ quote kv.1 +:+ " source references unknown device " +:+ quote (psDeviceID src)]
          else []
      | None => []
      end) (o _ (plVariables s))
  ++ flat_map (λ kv, task_errors prefix kv.1 (plPrograms s) kv.2) (o _ (plTasks s))
  ++ flat_map (λ kv, protocol_errors prefix kv.1 (pdProtocol kv.2)) (o _ (plDevices s)).

Definition validate_one (r : Resource) (idx : nat) : list string :=
  match spec r with
  | GatewayResource s => validateGateway r s idx
  | ServiceResource s => validateService r s idx
  | ModuleConfigResource v => validateModuleConfig r v idx
  | NftablesResource rules => validateNftables r rules idx
  | NetworkResource l => validateNetwork r l idx
  | PlcResource s => validatePlc r s idx
  end.

Fixpoint validate_from (idx : nat) (l : list Resource) : list string :=
  match l with [] => [] | r :: l => validate_one r idx ++ validate_from (S idx) l end.

(** The errors, none when every resource is valid. *)
Definition Validate (l : list Resource) : list string := validate_from 0 l.

Definition validation_text (errors : list string) : string := str_join "; " errors.

End Validate.

(** ** The buckets and the modules *)

(** types/common.go *)
Record ServiceEnabledKV := mkEnabled {
  seModuleID : string;
  seEnabled : bool;
  seUpdatedAt : Z;
}.

(** gateway_config, desired_services, service_enabled, tentacle_config, plc_config,
    plc_programs, the service types in heartbeats, and config_metadata. *)
Record KV := mkKV {
  kvGateway : gmap string (option GatewayConfigKV);
  kvDesired : gmap string (option DesiredServiceKV);
  kvEnabled : gmap string (option ServiceEnabledKV);
  kvConfig : gmap string string;
  kvPlc : gmap string (option PlcConfigKV);
  kvPrograms : gmap string (option PlcProgramKV);
  kvHeartbeats : gmap string (option string);
  kvMetadata : gmap string (string * Z);
}.

Definition with_gateway (k : KV) m := mkKV m (kvDesired k) (kvEnabled k) (kvConfig k) (kvPlc k) (kvPrograms k) (kvHeartbeats k) (kvMetadata k).
Definition with_desired (k : KV) m := mkKV (kvGateway k) m (kvEnabled k) (kvConfig k) (kvPlc k) (kvPrograms k) (kvHeartbeats k) (kvMetadata k).
Definition with_enabled (k : KV) m := mkKV (kvGateway k) (kvDesired k) m (kvConfig k) (kvPlc k) (kvPrograms k) (kvHeartbeats k) (kvMetadata k).
Definition with_config (k : KV) m := mkKV (kvGateway k) (kvDesired k) (kvEnabled k) m (kvPlc k) (kvPrograms k) (kvHeartbeats k) (kvMetadata k).
Definition with_plc (k : KV) m := mkKV (kvGateway k) (kvDesired k) (kvEnabled k) (kvConfig k) m (kvPrograms k) (kvHeartbeats k) (kvMetadata k).
Definition with_programs (k : KV) m := mkKV (kvGateway k) (kvDesired k) (kvEnabled k) (kvConfig k) (kvPlc k) m (kvHeartbeats k) (kvMetadata k).
Definition with_metadata (k : KV) m := mkKV (kvGateway k) (kvDesired k) (kvEnabled k) (kvConfig k) (kvPlc k) (kvPrograms k) (kvHeartbeats k) m.

(** What the modules nftables and network answer to get-config and apply-config, the left
    side being the error of the request or of the answer. *)
Class Peers (P : Type) := {
  nft_get : P → (string + list NatRule) * P;
  nft_apply : list NatRule → P → option string * P;
  net_get : P → (string + list NetworkInterfaceConfig) * P;
  net_apply : list NetworkInterfaceConfig → P → option string * P;
}.

Record Site (P : Type) := mkSite {
  kv : KV;
  peers : P;
}.
Arguments mkSite {_} _ _.
Arguments kv {_} _.
Arguments peers {_} _.

(** ** secrets.go *)

Definition SecretPlaceholder : string := "<secret>".
Definition IsSecretPlaceholder (v : string) : bool := String.eqb v SecretPlaceholder.
Definition secretEnvVarPatterns : list string := ["PASSWORD"; "_SECRET"; "_TOKEN"].

Definition isSecret `{UnicodeTables} (key : string) : bool := existsb (contains (to_upper key)) secretEnvVarPatterns.

Definition redact_values `{UnicodeTables} (m : gmap string string) : gmap string string :=
  map_imap (λ key val, Some (if negb (String.eqb val "") && isSecret key then SecretPlaceholder else val)) m.

Definition redact_auth (a : V3Auth) : V3Auth :=
  mkV3Auth (vaUsername a) (vaSecurityLevel a) (vaAuthProtocol a) "" (vaPrivProtocol a) "".

Definition redact_device (d : GatewayDeviceConfig) : GatewayDeviceConfig :=
  mkDevice (dcProtocol d) (dcAutoManaged d) (dcHost d) (dcPort d) (dcSlot d) (dcEndpointURL d) (dcVersion d) (dcCommunity d)
    (redact_auth <$> dcV3Auth d) (dcUnitID d) (dcByteOrder d) (dcScanRate d) (dcDeadband d) (dcDisableRBE d) (dcTemplateNameOverrides d).

Definition redact_spec `{UnicodeTables} (s : Spec) : Spec :=
  match s with
  | ModuleConfigResource v => ModuleConfigResource (redact_values <$> v)
  | GatewayResource s => GatewayResource (mkGatewaySpec (redact_device <$> gsDevices s) (gsVariables s) (gsUdtTemplates s) (gsUdtVariables s))
  | _ => s
  end.

Definition RedactSecrets `{UnicodeTables} (l : list Resource) : list Resource :=
  map (λ r, mkResource (header r) (redact_spec (spec r))) l.

Section Manifest.
Context {P : Type} `{Peers P} `{UnicodeTables}.
Variable o : ranging.
Variable now : Z.
Implicit Types s : Site P.

(** ** apply.go *)

Record ApplyResult := mkResult {
  Applied : list (string * string);
  Skipped : list (string * string * string);
}.

Definition writeSourceMetadata (bucket key source : string) (k : KV) : KV :=
  with_metadata k (<[bucket +:+ "." +:+ key := (source, now)]> (kvMetadata k)).

Definition applyGateway (name : string) (sp : GatewaySpec) (source : string) (k : KV) : KV :=
  let v := mkConfig name (gsDevices sp) (gsVariables sp) (gsUdtTemplates sp) (gsUdtVariables sp) now in
  writeSourceMetadata "gateway_config" name source (with_gateway k (<[name := Some v]> (kvGateway k))).

Definition applyService (name : string) (sp : ServiceSpec) (source : string) (k : KV) : KV :=
  let k := writeSourceMetadata "desired_services" name source
    (with_desired k (<[name := Some (mkDesired name (spVersion sp) (spRunning sp) now)]> (kvDesired k))) in
  match spEnabled sp with
  | None => k
  | Some e => writeSourceMetadata "service_enabled" name source (with_enabled k (<[name := Some (mkEnabled name e now)]> (kvEnabled k)))
  end.

(** One value; a placeholder keeps what is there. *)
Definition apply_value (name source : string) (sk : list (string * string * string) * KV) (ev : string * string)
    : list (string * string * string) * KV :=
  let key := name +:+ "." +:+ ev.1 in
  if IsSecretPlaceholder ev.2 then (sk.1 ++ [(KindModuleConfig, key, "secret placeholder preserved")], sk.2)
  else (sk.1, writeSourceMetadata "tentacle_config" key source (with_config sk.2 (<[key := ev.2]> (kvConfig sk.2)))).

Definition applyModuleConfig (name : string) (values : option (gmap string string)) (source : string) (k : KV)
    : list (string * string * string) * KV :=
  fold_left (apply_value name source) (match values with Some m => o _ m | None => [] end) ([], k).

Definition apply_program (source : string) (k : KV) (np : string * PlcProgramSpec) : KV :=
  let prog := mkProgram np.1 (pgLanguage np.2) (pgSource np.2) (pgStSource np.2) now source in
  writeSourceMetadata "plc_programs" np.1 source (with_programs k (<[np.1 := Some prog]> (kvPrograms k))).

Definition applyPlc (name : string) (sp : PlcSpec) (source : string) (k : KV) : KV :=
  let v := mkPlcConfig name (plDevices sp) (plVariables sp) (plUdtTemplates sp) (plTasks sp) now in
  let k := writeSourceMetadata "plc_config" name source (with_plc k (<[name := Some v]> (kvPlc k))) in
  fold_left (apply_program source) (match plPrograms sp with Some m => o _ m | None => [] end) k.

Definition applyNftables (rules : list NatRule) s : option string * Site P :=
  let '(e, p) := nft_apply rules (peers s) in (e, mkSite (kv s) p).

Definition applyNetwork (l : list NetworkInterfaceConfig) s : option string * Site P :=
  let '(e, p) := net_apply l (peers s) in (e, mkSite (kv s) p).

(** One resource: its error, what it skipped. *)
Definition apply_one (source : string) (r : Resource) s : option string * list (string * string * string) * Site P :=
  let name := rName r in
  match spec r with
  | GatewayResource sp => (None, [], mkSite (applyGateway name sp source (kv s)) (peers s))
  | ServiceResource sp => (None, [], mkSite (applyService name sp source (kv s)) (peers s))
  | ModuleConfigResource v => let '(sk, k) := applyModuleConfig name v source (kv s) in (None, sk, mkSite k (peers s))
  | NftablesResource rules => let '(e, s) := applyNftables rules s in (e, [], s)
  | NetworkResource l => let '(e, s) := applyNetwork l s in (e, [], s)
  | PlcResource sp => (None, [], mkSite (applyPlc name sp source (kv s)) (peers s))
  end.

(** The resources in order, up to the first error. *)
Fixpoint apply_all (source : string) (l : list Resource) (res : ApplyResult) s : ApplyResult * option string * Site P :=
  match l with
  | [] => (res, None, s)
  | r :: l =>
      match apply_one source r s with
      | (Some e, _, s) => (res, Some ("apply " +:+ kind_of (spec r) +:+ " " +:+ quote (rName r) +:+ ": " +:+ e), s)
      | (None, sk, s) => apply_all source l (mkResult (Applied res ++ [(kind_of (spec r), rName r)]) (Skipped res ++ sk)) s
      end
  end.

(** [None] when validation failed, and then nothing is written. *)
Definition Apply (l : list Resource) (source : string) s : option ApplyResult * option string * Site P :=
  match Validate o l with
  | [] => let '(res, e, s) := apply_all source l (mkResult [] []) s in (Some res, e, s)
  | errors => (None, Some ("validation failed: " +:+ validation_text errors), s)
  end.

(** ** export.go *)

Definition exportGateways (k : KV) : list Resource :=
  omap (λ kv : string * option GatewayConfigKV, c ← kv.2;
    Some (mkResource (NewHeader KindGateway kv.1)
      (GatewayResource (mkGatewaySpec (cfDevices c) (cfVariables c) (cfUdtTemplates c) (cfUdtVariables c))))) (o _ (kvGateway k)).

Definition exportServices (k : KV) : list Resource :=
  omap (λ kv : string * option DesiredServiceKV, d ← kv.2;
    Some (mkResource (NewHeader KindService kv.1)
      (ServiceResource (mkServiceSpec (dsVersion d) (dsRunning d) (seEnabled <$> mjoin (kvEnabled k !! kv.1)))))) (o _ (kvDesired k)).

(** [strings.SplitN(key, ".", 2)]. *)
Definition split_key (key : string) : option (string * string) :=
  match split_n2 "."%char key with [moduleID; envVar] => Some (moduleID, envVar) | _ => None end.

Definition group_config (modules : gmap string (gmap string string)) (kv : string * string) : gmap string (gmap string string) :=
  match split_key kv.1 with
  | Some (moduleID, envVar) => <[moduleID := <[envVar := kv.2]> (default ∅ (modules !! moduleID))]> modules
  | None => modules
  end.

Definition sortedMapKeys {A} (m : gmap string A) : list string := merge_sort String.le (o _ m).*1.

Definition exportModuleConfigs (k : KV) : list Resource :=
  let modules := fold_left group_config (o _ (kvConfig k)) ∅ in
  map (λ moduleID, mkResource (NewHeader KindModuleConfig moduleID) (ModuleConfigResource (Some (default ∅ (modules !! moduleID)))))
    (sortedMapKeys modules).

(** The programs that the tasks refer to, as far as they are there. *)
Definition export_programs (k : KV) (c : PlcConfigKV) : gmap string PlcProgramSpec :=
  let refs := List.filter (λ ref, negb (String.eqb ref "")) (map (λ kv, ptProgramRef kv.2) (o _ (pcTasks c))) in
  fold_left (λ m ref, match mjoin (kvPrograms k !! ref) with
    | Some p => <[ref := mkProgramSpec (ppLanguage p) (ppSource p) (ppStSource p)]> m
    | None => m
    end) refs ∅.

Definition exportPlcs (k : KV) : list Resource :=
  omap (λ kv : string * option PlcConfigKV, c ← kv.2;
    Some (mkResource (NewHeader KindPlc kv.1)
      (PlcResource (mkPlcSpec (pcDevices c) (pcVariables c) (pcUdtTemplates c) (pcTasks c) (Some (export_programs k c))))))
    (o _ (kvPlc k)).

Definition isServiceRunning (k : KV) (serviceType : string) : bool :=
  existsb (λ kv, match kv.2 with Some t => String.eqb t serviceType | None => false end) (o _ (kvHeartbeats k)).

(** An error or an empty configuration is no resource. *)
Definition exportNftables s : list Resource * Site P :=
  let '(res, p) := nft_get (peers s) in
  (match res with inr ((_ :: _) as rules) => [mkResource (NewHeader KindNftables "default") (NftablesResource rules)] | _ => [] end,
   mkSite (kv s) p).

Definition exportNetwork s : list Resource * Site P :=
  let '(res, p) := net_get (peers s) in
  (match res with inr ((_ :: _) as l) => [mkResource (NewHeader KindNetwork "default") (NetworkResource l)] | _ => [] end,
   mkSite (kv s) p).

(** The kinds asked for, all of them when none is given. *)
Definition Export (kinds : list string) s : list Resource * Site P :=
  let wants kind := bool_decide (kinds = []) || existsb (String.eqb kind) kinds in
  let when {A} (b : bool) (l : list A) := if b then l else [] in
  let '(nft, s) := if wants KindNftables && isServiceRunning (kv s) "nftables" then exportNftables s else ([], s) in
  let '(net, s) := if wants KindNetwork && isServiceRunning (kv s) "network" then exportNetwork s else ([], s) in
  (RedactSecrets (when (wants KindGateway) (exportGateways (kv s)) ++ when (wants KindService) (exportServices (kv s))
    ++ when (wants KindModuleConfig) (exportModuleConfigs (kv s)) ++ nft ++ when (wants KindPlc) (exportPlcs (kv s)) ++ net), s).

End Manifest.

(** ** diff.go *)

(** The JSON of a specification, and the fields of a JSON object with their texts. *)
Class SpecJson := {
  spec_json : Spec → string;
  json_fields : string → gmap string string;
}.

Definition resourceKey (r : Resource) : string :=
  if String.eqb (rhKind (header r)) "" || String.eqb (rName r) "" then "" else rhKind (header r) +:+ "/" +:+ rName r.

Record DiffChange := mkChange {
  chKind : string;
  chName : string;
  chAction : string;
  chDetail : string;
}.

Section Diff.
Context {P : Type} `{Peers P} `{UnicodeTables} `{SpecJson}.
Variable o : ranging.

Definition compareResources (current desired : Resource) : string :=
  let currJSON := spec_json (spec current) in
  let desJSON := spec_json (spec desired) in
  if String.eqb currJSON desJSON then ""
  else
    let currMap := json_fields currJSON in
    let desMap := json_fields desJSON in
    let diffs := omap (λ kv : string * (), match currMap !! kv.1, desMap !! kv.1 with
      | None, _ => Some ("+" +:+ kv.1)
      | _, None => Some ("-" +:+ kv.1)
      | Some c, Some d => if String.eqb c d then None else Some ("~" +:+ kv.1)
      end) (o _ ((λ _, ()) <$> (currMap ∪ desMap))) in
    match diffs with [] => "spec changed" | _ => str_join ", " diffs end.

Definition current_map (current : list Resource) : gmap string Resource :=
  fold_left (λ m r, if String.eqb (resourceKey r) "" then m else <[resourceKey r := r]> m) current ∅.

Definition diff_one (currentMap : gmap string Resource) (desired : Resource) : option DiffChange :=
  if String.eqb (resourceKey desired) "" then None
  else Some (match currentMap !! resourceKey desired with
  | None => mkChange (rhKind (header desired)) (rName desired) "create" ""
  | Some existing =>
      let detail := compareResources existing desired in
      mkChange (rhKind (header desired)) (rName desired) (if String.eqb detail "" then "unchanged" else "update") detail
  end).

Definition Diff (l : list Resource) (s : Site P) : list DiffChange * Site P :=
  let '(current, s) := Export o [] s in
  (omap (diff_one (current_map current)) l, s).

End Diff.
