(* ===== verification/ManifestRoundtrip.v ===== *)
(** What manifests keep: the configuration of the modules survives an export that is applied
    again, the passwords of SNMP devices do not; what validation promises the PLC; and a
    service's manifest followed to the module that runs. *)

From stdpp Require Import sorting.
From S2P Require Export Manifest OrchestratorSweep.

#[local] Open Scope Z_scope.

(** ** The configuration of the modules *)

Lemma cut_chars_Some sep l a b : cut_chars sep l = Some (a, b) → l = a ++ sep :: b.
Proof.
  revert a b. induction l as [|c l IH]; intros a b; cbn; [done|].
  destruct (Ascii.eqb_spec c sep) as [->|_]; [by intros [= <- <-]|].
  destruct (cut_chars sep l) as [[a' b']|]; [|done]. intros [= <- <-]. cbn. f_equal. by apply IH.
Qed.

Lemma split_key_Some key m e : split_key key = Some (m, e) → key = m +:+ "." +:+ e.
Proof.
  unfold split_key, split_n2. destruct (cut_chars "."%char (chars key)) as [[a b]|] eqn:E; [|done].
  intros [= <- <-]. apply cut_chars_Some in E. rewrite <- (str_chars key), E, str_app. f_equal.
Qed.

Section Exports.
Context {P : Type} `{Peers P} `{UnicodeTables}.
Variable o : ranging.
Variable now : Z.
Implicit Types s : Site P.

(** Every value of a grouped configuration is one of the bucket. *)
Definition drawn_from (k : KV) (m : string) (values : gmap string string) : Prop :=
  ∀ e v, values !! e = Some v → kvConfig k !! (m +:+ "." +:+ e) = Some v.

Lemma group_config_drawn k l M : (∀ key v, (key, v) ∈ l → kvConfig k !! key = Some v) →
  map_Forall (drawn_from k) M → map_Forall (drawn_from k) (fold_left group_config l M).
Proof.
  revert M. induction l as [|[key v] l IH]; intros M Hl HM; cbn; [done|].
  apply IH; [intros; apply Hl; by right|]. unfold group_config. cbn.
  destruct (split_key key) as [[m e]|] eqn:E; [|done]. apply split_key_Some in E as ->.
  apply map_Forall_insert_2; [|done]. intros e' v'. rewrite lookup_insert_Some. intros [[<- <-]|[_ Hd]].
  - apply Hl. by left.
  - destruct (M !! m) as [old|] eqn:Eo; cbn in Hd; [by apply (HM m old Eo)|by rewrite lookup_empty in Hd].
Qed.

Definition named (k : KV) : Prop := ∀ key v, kvConfig k !! key = Some v → ∀ e, split_key key ≠ Some ("", e).

Lemma group_config_named l M : (∀ key v, (key, v) ∈ l → ∀ e, split_key key ≠ Some ("", e)) → M !! "" = None →
  fold_left group_config l M !! "" = None.
Proof.
  revert M. induction l as [|[key v] l IH]; intros M Hl HM; cbn; [done|].
  apply IH; [intros ? ? ?; eapply Hl; by right|]. unfold group_config. cbn.
  destruct (split_key key) as [[m e]|] eqn:E; [|done]. rewrite lookup_insert_ne; [done|].
  intros ->. by eapply (Hl key v); [left|].
Qed.

Lemma redact_values_lookup m e v : redact_values m !! e = Some v → v = SecretPlaceholder ∨ m !! e = Some v.
Proof.
  unfold redact_values. rewrite map_lookup_imap. destruct (m !! e) as [w|]; [|done]. cbn.
  intros [= <-]. destruct (negb _ && _); auto.
Qed.

Lemma apply_values_same name src l sk k :
  (∀ e v, (e, v) ∈ l → v = SecretPlaceholder ∨ kvConfig k !! (name +:+ "." +:+ e) = Some v) →
  kvConfig (snd (fold_left (apply_value now name src) l (sk, k))) = kvConfig k.
Proof.
  revert sk k. induction l as [|[e v] l IH]; intros sk k Hl; [done|]. cbn [fold_left]. unfold apply_value at 2. cbn.
  destruct (Hl e v ltac:(by left)) as [->|Hv]; cbn.
  - apply IH. intros e' v' ?. apply Hl. by right.
  - case_if; [apply IH; intros e' v' ?; apply Hl; by right|].
    assert (Hsame : <[name +:+ "." +:+ e := v]> (kvConfig k) = kvConfig k) by by apply insert_id.
    rewrite IH; cbn; rewrite Hsame; [done|]. intros e' v' ?. apply Hl. by right.
Qed.

(** A resource of the export: of a module with a name, its values from the bucket. *)
Definition exported_config (k : KV) (r : Resource) : Prop :=
  rName r ≠ "" ∧ ∃ values, spec r = ModuleConfigResource (Some values)
    ∧ ∀ e v, values !! e = Some v → v = SecretPlaceholder ∨ kvConfig k !! (rName r +:+ "." +:+ e) = Some v.

Lemma exportModuleConfigs_spec k : named k → Forall (exported_config k) (RedactSecrets (exportModuleConfigs o k)).
Proof.
  intros Hn. unfold RedactSecrets, exportModuleConfigs.
  set (M := fold_left group_config (o _ (kvConfig k)) ∅).
  assert (HM : map_Forall (drawn_from k) M).
  { apply group_config_drawn; [|apply map_Forall_empty]. by intros key v ?%range_lookup. }
  assert (Hempty : M !! "" = None).
  { apply group_config_named; [|apply lookup_empty]. intros key v Hin%range_lookup. by apply (Hn key v). }
  rewrite map_map. apply Forall_forall. intros r (m & -> & Hm)%list_elem_of_fmap.
  unfold sortedMapKeys in Hm. rewrite merge_sort_Permutation in Hm.
  apply list_elem_of_fmap in Hm as ([m' values] & Em & Hm). cbn in Em. subst m'. apply range_lookup in Hm.
  split.
  - cbn. intros ->. by rewrite Hempty in Hm.
  - cbn. exists (redact_values values). rewrite Hm. split; [done|].
    intros e v [->|Hv]%redact_values_lookup; [by left|right]. by apply (HM m values Hm).
Qed.

Lemma validate_exported k l i : Forall (exported_config k) l → validate_from o i l = [].
Proof.
  intros Hl. revert i. induction Hl as [|r l (Hn & values & Hs & _) _ IH]; intros i; [done|]. cbn.
  unfold validate_one. rewrite Hs. unfold validateModuleConfig, name_required.
  by rewrite (proj2 (String.eqb_neq _ _) Hn), IH.
Qed.

Lemma apply_exported k l src res s : kvConfig (kv s) = kvConfig k → Forall (exported_config k) l →
  ∃ res' s', apply_all o now src l res s = (res', None, s') ∧ kvConfig (kv s') = kvConfig k ∧ peers s' = peers s.
Proof.
  intros Hk Hl. revert res s Hk. induction Hl as [|r l (Hn & values & Hs & Hv) _ IH]; intros res s Hk; cbn; [eauto|].
  unfold apply_one. rewrite Hs. unfold applyModuleConfig.
  destruct (fold_left (apply_value now (rName r) src) (o _ values) ([], kv s)) as [sk k'] eqn:E.
  destruct (IH (mkResult (Applied res ++ [(kind_of (spec r), rName r)]) (Skipped res ++ sk)) (mkSite k' (peers s)))
    as (res' & s' & He & Hk' & Hp).
  - cbn. change k' with (snd (sk, k')). rewrite <- E, <- Hk. apply apply_values_same. rewrite Hk.
    intros e v Hin%range_lookup. by apply Hv.
  - exists res', s'. rewrite Hs in He. by rewrite He.
Qed.

(** C15: The configuration of the modules survives its manifest. Exporting all of it, which
    replaces secrets by placeholders, and applying the result succeeds and leaves every
    value of the bucket as it was, secrets included, in whatever order maps are ranged over.
    (A key with nothing before its first dot would give a module without a name.) *)
Theorem config_survives_export src s : named (kv s) →
  let '(l, s1) := Export o [KindModuleConfig] s in
  ∃ res s', Apply o now l src s1 = (Some res, None, s') ∧ kvConfig (kv s') = kvConfig (kv s).
Proof.
  intros Hn. unfold Export. cbn -[RedactSecrets exportModuleConfigs Apply]. rewrite app_nil_r.
  pose proof (exportModuleConfigs_spec (kv s) Hn) as Hl.
  destruct (apply_exported (kv s) _ src (mkResult [] []) s eq_refl Hl) as (res & s' & He & Hk & _).
  exists res, s'. unfold Apply, Validate. rewrite (validate_exported (kv s)) by done. by rewrite He.
Qed.

(** ** Gateways *)

Definition gateway_resource (r : Resource) : option (string * GatewaySpec) :=
  match spec r with GatewayResource sp => Some (rName r, sp) | _ => None end.

Lemma apply_gateways src l gs res s : map gateway_resource l = map Some gs → NoDup gs.*1 →
  ∃ res' s', apply_all o now src l res s = (res', None, s')
    ∧ (∀ name, name ∉ gs.*1 → kvGateway (kv s') !! name = kvGateway (kv s) !! name)
    ∧ ∀ name sp, (name, sp) ∈ gs → kvGateway (kv s') !! name =
        Some (Some (mkConfig name (gsDevices sp) (gsVariables sp) (gsUdtTemplates sp) (gsUdtVariables sp) now)).
Proof.
  revert gs res s. induction l as [|r l IH]; intros [|[name sp] gs] res s Hl Hnd; try done.
  { exists res, s. split; [done|]. split; [done|]. by intros ? ? ?%elem_of_nil. }
  cbn in Hl. injection Hl as Hr Hl. apply NoDup_cons in Hnd as [Hn Hnd].
  unfold gateway_resource in Hr. cbn. unfold apply_one.
  destruct (spec r) as [sp'| | | | |] eqn:Es; try done. injection Hr as <- ->.
  destruct (IH gs (mkResult (Applied res ++ [(KindGateway, rName r)]) (Skipped res ++ []))
    (mkSite (applyGateway now (rName r) sp src (kv s)) (peers s)) Hl Hnd) as (res' & s' & He & Ho & Hg).
  exists res', s'. split; [exact He|]. split.
  - intros name [Hne Hin]%not_elem_of_cons. rewrite Ho by done. cbn. by rewrite lookup_insert_ne.
  - intros name sp' [[= -> ->]|Hin]%elem_of_cons; [|by apply Hg].
    rewrite Ho by done. cbn. by rewrite lookup_insert_eq.
Qed.

(** A gateway as its manifest has it. *)
Definition redacted (c : GatewayConfigKV) : GatewaySpec :=
  mkGatewaySpec (redact_device <$> cfDevices c) (cfVariables c) (cfUdtTemplates c) (cfUdtVariables c).

Definition gateways (k : KV) : list (string * GatewaySpec) :=
  omap (λ nc : string * option GatewayConfigKV, c ← nc.2; Some (nc.1, redacted c)) (o _ (kvGateway k)).

Lemma exportGateways_list k : map gateway_resource (RedactSecrets (exportGateways o k)) = map Some (gateways k).
Proof.
  unfold RedactSecrets, exportGateways, gateways. induction (o _ (kvGateway k)) as [|[name [c|]] l IH]; cbn; [done|..].
  - f_equal. exact IH.
  - exact IH.
Qed.

Lemma gateways_NoDup k : NoDup (gateways k).*1.
Proof.
  unfold gateways. eapply sublist_NoDup; [apply (range_NoDup o (kvGateway k))|].
  induction (o _ (kvGateway k)) as [|[name [c|]] l IH]; cbn; [constructor|by apply sublist_skip|by apply sublist_cons].
Qed.

(** A gateway survives its manifest but for the passwords of its SNMP devices: exporting
    the gateways and applying the result, once it passes validation, stores every gateway
    with the same devices, variables, templates and structured variables, and both passwords
    of each device's authentication empty; unlike those of module configurations they have
    no placeholder that keeps the value in place. *)
Theorem gateway_loses_passwords src s name c res s' : kvGateway (kv s) !! name = Some (Some c) →
  Apply o now (fst (Export o [KindGateway] s)) src (snd (Export o [KindGateway] s)) = (Some res, None, s') →
  kvGateway (kv s') !! name = Some (Some (mkConfig name (redact_device <$> cfDevices c) (cfVariables c) (cfUdtTemplates c) (cfUdtVariables c) now)).
Proof.
  intros Hc. unfold Export. cbn -[RedactSecrets exportGateways Apply]. rewrite app_nil_r.
  destruct (apply_gateways src (RedactSecrets (exportGateways o (kv s))) (gateways (kv s)) (mkResult [] []) s)
    as (res' & s2 & He & _ & Hg); [apply exportGateways_list|apply gateways_NoDup|].
  unfold Apply. destruct (Validate o (RedactSecrets (exportGateways o (kv s)))); [|done]. rewrite He.
  intros [= <- <-]. rewrite (Hg name (redacted c)); [done|].
  unfold gateways. apply list_elem_of_omap. exists (name, Some c). split; [by apply range_lookup|done].
Qed.

(** ** Validation *)

Lemma validate_from_nil l i : validate_from o i l = [] → ∀ r, r ∈ l → ∃ j, validate_one o r j = [].
Proof.
  revert i. induction l as [|r l IH]; intros i; [by intros _ ? ?%elem_of_nil|]. cbn.
  intros [H1 H2]%app_eq_nil r' [->|Hin]%elem_of_cons; [by eexists|by eapply IH].
Qed.

Lemma flat_map_nil {A B} (f : A → list B) l : flat_map f l = [] → ∀ x, x ∈ l → f x = [].
Proof.
  induction l as [|a l IH]; [by intros _ ? ?%elem_of_nil|]. cbn.
  intros [H1 H2]%app_eq_nil x [->|Hin]%elem_of_cons; auto.
Qed.

Lemma reference_errors_nil what field kind id b : reference_errors what field kind id b = [] → id ≠ "" ∧ b = true.
Proof. unfold reference_errors. destruct (String.eqb_spec id ""); [done|]. by destruct b. Qed.

Lemma protocol_errors_nil prefix dev p : protocol_errors prefix dev p = [] → validProtocol p = true.
Proof. unfold protocol_errors. destruct (String.eqb p ""); [done|]. by destruct (validProtocol p). Qed.

(** C17: What passes validation is safe to run. Every task of a PLC manifest that passes has a
    positive scan rate (one that is not positive brings the PLC down) and refers to a program of the
    manifest when it lists programs; every variable of a gateway belongs to one of its
    devices, every structured variable to a device and a template, and every device has a
    protocol that the gateway knows. *)
Theorem validated_is_closed l r : Validate o l = [] → r ∈ l →
  match spec r with
  | PlcResource sp => ∀ id t, plTasks sp !! id = Some t →
      0 < ptScanRateMs t ∧ ptProgramRef t ≠ "" ∧ ∀ m, plPrograms sp = Some m → is_Some (m !! ptProgramRef t)
  | GatewayResource sp =>
      (∀ id v, gsVariables sp !! id = Some v → is_Some (gsDevices sp !! vcDeviceID v))
      ∧ (∀ id u, gsUdtVariables sp !! id = Some u → is_Some (gsDevices sp !! ucDeviceID u) ∧ is_Some (gsUdtTemplates sp !! ucTemplateName u))
      ∧ (∀ id d, gsDevices sp !! id = Some d → ScannerBucket (dcProtocol d) ≠ "")
  | _ => True
  end.
Proof.
  intros Hv Hr. destruct (validate_from_nil l 0 Hv r Hr) as [j Hj]. unfold validate_one in Hj.
  destruct (spec r) as [sp| | | | |sp]; try done.
  - unfold validateGateway in Hj. apply app_eq_nil in Hj as [_ [H1 [H2 H3]%app_eq_nil]%app_eq_nil].
    split_and!.
    + intros id v Hin%(range_lookup o). apply (flat_map_nil _ _ H1), reference_errors_nil in Hin as [_ Hin].
      by apply bool_decide_eq_true in Hin.
    + intros id u Hin%(range_lookup o). apply (flat_map_nil _ _ H2), app_eq_nil in Hin as [Ha Hb].
      apply reference_errors_nil in Ha as [_ Ha], Hb as [_ Hb]. by apply bool_decide_eq_true in Ha, Hb.
    + intros id d Hin%(range_lookup o). apply (flat_map_nil _ _ H3), protocol_errors_nil in Hin.
      unfold validProtocol in Hin. apply existsb_exists in Hin as (p & Hin%list_elem_of_In & Ep%String.eqb_eq). cbn in Ep. rewrite Ep.
      assert (Hb : Forall (λ p, ScannerBucket p ≠ "") ["ethernetip"; "opcua"; "snmp"; "modbus"]) by by repeat constructor.
      exact (proj1 (Forall_forall _ _) Hb p Hin).
  - unfold validatePlc in Hj. apply app_eq_nil in Hj as [_ [_ [H2 _]%app_eq_nil]%app_eq_nil].
    intros id t Hin%(range_lookup o). apply (flat_map_nil _ _ H2) in Hin. unfold task_errors in Hin.
    apply app_eq_nil in Hin as [Ha Hb]. apply reference_errors_nil in Ha as [Hp Hk]. cbn in Hp, Hb. split; [destruct (ptScanRateMs t <=? 0) eqn:E; [done|bool_to_prop; lia]|].
    split; [done|]. intros m Em. cbn in Hk. rewrite Em in Hk. by apply bool_decide_eq_true in Hk.
Qed.

End Exports.

(** ** From a manifest to a running module *)

Section Service.
Context {P Sys : Type} `{Peers P} `{System Sys} `{UnicodeTables}.
Variables (registry : list ModuleRegistryEntry) (factories : gset string) (o : ranging) (now now' : Z).
Implicit Types (s : Site P) (w : World Sys).

(** The buckets as the orchestrator sees them. *)
Definition bus_of (k : KV) (statuses : gmap string ServiceStatusKV) : Bus := mkBus (kvDesired k) statuses (kvConfig k).

Lemma apply_service h sp src s res s' :
  Apply o now [mkResource h (ServiceResource sp)] src s = (Some res, None, s') →
  kvDesired (kv s') = <[rhName h := Some (mkDesired (rhName h) (spVersion sp) (spRunning sp) now)]> (kvDesired (kv s))
  ∧ kvConfig (kv s') = kvConfig (kv s).
Proof.
  unfold Apply. destruct (Validate o _); [|done]. cbn. intros [= <- <-]. cbn.
  unfold applyService. by destruct (spEnabled sp).
Qed.

(** C13: Applying the manifest of a service starts or stops its module. When the orchestrator
    sees the buckets that [Apply] left, and every running module is in its map, its next sweep
    makes the module run exactly if the manifest says so, and reports it, provided the module is
    known, compiled in and (to run) configured; every other module runs as its own entry of
    before asks, or as it did when it has none or is unknown, not compiled in or not configured.
    The packages and build tools that the modules to run depend on are there ([desired_ready]),
    the keys of the bucket are the modules' names, the registry's settings have names, and the
    stopped modules have ended. *)
Theorem service_manifest_runs_module h sp src s res s' w statuses e ps :
  Apply o now [mkResource h (ServiceResource sp)] src s = (Some res, None, s') →
  named_fields registry → quiet w → keyed (bus_of (kv s) statuses) →
  let w1 := with_bus w (bus_of (kv s') statuses) in
  desired_ready registry w1 →
  getRegistryEntry registry (rhName h) = Some e → rhName h ∈ factories →
  (spRunning sp = true → unconfigured (bus_of (kv s) statuses) e = []) →
  (∀ p i, instances (fullSweep registry factories o now' w1) !! p = Some i → inStopped i = true → inExited i = false → p ∈ ps) →
  let w2 := drain ps (fullSweep registry factories o now' w1) in
  quiet w2 ∧ isRunning (rhName h) w2 = spRunning sp
  ∧ bStatus (wBus w2) !! rhName h
    = Some (status_of e (embedded_opts (if spRunning sp then "active" else "inactive") "ok" "") now')
  ∧ ∀ id, id ≠ rhName h → isRunning id w2 = match desire (bus_of (kv s) statuses) id with
      | Some d => runs_after (judge registry factories (bus_of (kv s) statuses) d) d (isRunning id w)
      | None => isRunning id w
      end.
Proof.
  intros Ha Hf Hq Hk w1 Hr He Hin Hcfg Hps w2. destruct (apply_service _ _ _ _ _ _ Ha) as [Ed Ec].
  assert (Hq1 : quiet w1) by done.
  assert (Hk1 : keyed (wBus w1)).
  { intros k d. cbn. rewrite Ed, lookup_insert_Some. intros [[<- [= <-]]|[_ Hd]]; [done|]. by apply Hk. }
  destruct (sweep_facts registry factories o now' w1 Hf Hq1 Hk1 Hr) as (A1 & A2 & _ & _ & _ & A6 & A7 & _).
  destruct (drain_spec ps _ A1 A2) as (E1 & E2 & _).
  set (d := mkDesired (rhName h) (spVersion sp) (spRunning sp) now).
  assert (Hd : desire (wBus w1) (rhName h) = Some d) by (unfold desire; cbn; by rewrite Ed, lookup_insert_eq).
  assert (Hj : judge registry factories (wBus w1) d = VOk e).
  { unfold judge. cbn. rewrite He, bool_decide_true by done. cbn. destruct (spRunning sp); [|done].
    assert (Hu : unconfigured (bus_of (kv s') statuses) e = []) by (unfold unconfigured; cbn; rewrite Ec; by apply Hcfg).
    by rewrite Hu. }
  assert (Hrun : ∀ id, isRunning id w2 = isRunning id (fullSweep registry factories o now' w1)).
  { intros id. apply isRunning_eq. unfold w2. by rewrite E1. }
  split; [by apply drain_quiet|]. split; [by rewrite Hrun, A6, Hd, Hj|]. split; [unfold w2; by rewrite E2, A7, Hd, Hj|].
  intros id Hid. rewrite Hrun, A6. unfold desire. cbn. rewrite Ed, lookup_insert_ne by done.
  destruct (mjoin _) as [d'|]; [|done]. by rewrite (judge_config registry factories (bus_of (kv s) statuses) (wBus w1)) by done.
Qed.

End Service.
