(* ===== verification/Gitops.v ===== *)
(** GitOps: internal/gitops. The configuration is written as manifest files into a clone of
    a git repository and committed, and what is pulled from it is applied (sync.go, git.go,
    gitops.go, config.go); with the text of manifests, serialize.go and parse.go of
    internal/manifest.

    git is a command of [System]; the encoders of JSON and YAML are the class
    [ManifestCodec]. *)

From stdpp Require Import sorting.
From S2P Require Export GoBytes Manifest.

#[local] Open Scope Z_scope.

(** ** The text of a manifest *)

(** A decoded JSON value; numbers keep their text, and an object is its keys with their
    values, in no particular order. *)
Inductive json :=
| JNull
| JBool (b : bool)
| JNumber (text : string)
| JString (s : string)
| JArray (l : list json)
| JObject (l : list (string * json)).

(** A node of yaml.v3. *)
Inductive yaml_node :=
| Scalar (value tag : string)
| Sequence (l : list yaml_node)
| Mapping (l : list (string * yaml_node)).

(** [compareKeys] and [sortManifestKeys]: the well-known fields first, the others by name. *)
Definition key_priority (k : string) : Z :=
  if String.eqb k "apiVersion" then 0 else if String.eqb k "kind" then 1 else if String.eqb k "metadata" then 2
  else if String.eqb k "name" then 3 else if String.eqb k "spec" then 4 else 5.

Definition compareKeys (a b : string) : Z :=
  if negb (key_priority a =? key_priority b) then key_priority a - key_priority b
  else match String.compare a b with Lt => -1 | Gt => 1 | Eq => 0 end.

(** One round of the insertion sort: [sorted] is what lies before the key, from its end. *)
Fixpoint insert_key {A} (x : string * A) (sorted : list (string * A)) : list (string * A) :=
  match sorted with
  | [] => [x]
  | y :: rest => if compareKeys y.1 x.1 >? 0 then y :: insert_key x rest else x :: sorted
  end.

Definition sortManifestKeys {A} (l : list (string * A)) : list (string * A) :=
  rev (fold_left (λ sorted x, insert_key x sorted) l []).

(** [buildYAMLNode]: the fields of an object sorted by [sortedKeys]. *)
Fixpoint buildYAMLNode (v : json) : yaml_node :=
  match v with
  | JObject l => Mapping (sortManifestKeys ((fix fields l := match l with [] => [] | (k, v) :: l => (k, buildYAMLNode v) :: fields l end) l))
  | JArray l => Sequence ((fix items l := match l with [] => [] | v :: l => buildYAMLNode v :: items l end) l)
  | JNumber s => Scalar s (match atoi s with (_, NumOK) => "!!int" | _ => "!!float" end)
  | JString s => Scalar s "!!str"
  | JBool b => Scalar (if b then "true" else "false") "!!bool"
  | JNull => Scalar "null" "!!null"
  end.

(** The encoders: the JSON of a resource as an object; the resource that
    a JSON object decodes to, by kind, or the error's text; the text of a YAML document; and the
    documents of a text with their objects, [None] for an empty one. *)
Class ManifestCodec := {
  resource_json : Resource → list (string * json);
  json_resource : string → list (string * json) → string + Resource;
  yaml_encode : yaml_node → string;
  yaml_decode : string → string + list (option (list (string * json)));
}.

Section Text.
Context `{ManifestCodec} `{UnicodeTables}.

(** serialize.go *)
Definition toYAML (r : Resource) : string := yaml_encode (buildYAMLNode (JObject (resource_json r))).
Definition Serialize (l : list Resource) : string := str_join ("---" +:+ str ["010"%char]) (map toYAML l).

Definition string_field (raw : list (string * json)) (key : string) : string :=
  match find (λ kv, String.eqb kv.1 key) raw with Some (_, JString s) => s | _ => "" end.

(** parse.go *)
Definition decodeResource (raw : list (string * json)) : string + Resource :=
  let apiVersion := string_field raw "apiVersion" in
  if negb (String.eqb apiVersion APIVersion) then
    inl ("unsupported apiVersion: " +:+ quote apiVersion +:+ " (expected " +:+ quote APIVersion +:+ ")")
  else
    let kind := string_field raw "kind" in
    if negb (KnownKind kind) then inl ("unknown resource kind: " +:+ quote kind)
    else json_resource kind raw.

(** The documents up to the first error; empty ones are skipped. *)
Fixpoint decode_all (docs : list (option (list (string * json)))) : string + list Resource :=
  match docs with
  | [] => inr []
  | None :: docs => decode_all docs
  | Some raw :: docs =>
      match decodeResource raw with
      | inl e => inl e
      | inr r => match decode_all docs with inl e => inl e | inr l => inr (r :: l) end
      end
  end.

Definition ParseBytes (data : string) : string + list Resource :=
  match yaml_decode data with
  | inl e => inl ("decode YAML document: " +:+ e)
  | inr docs => decode_all docs
  end.

End Text.

(** ** Paths: path/filepath *)

Definition push_part (rooted : bool) (stack : list string) (part : string) : list string :=
  if String.eqb part "" || String.eqb part "." then stack
  else if String.eqb part ".." then
    match stack with
    | [] => if rooted then [] else [".."]
    | top :: below => if String.eqb top ".." then ".." :: stack else below
    end
  else part :: stack.

Definition Clean (path : string) : string :=
  let rooted := match path with String c _ => Ascii.eqb c slash | EmptyString => false end in
  let body := str_join "/" (rev (fold_left (push_part rooted) (GoText.split slash path) [])) in
  if rooted then "/" +:+ body else if String.eqb body "" then "." else body.

(** The elements from the first that is not empty on. *)
Fixpoint Join (l : list string) : string :=
  match l with
  | [] => ""
  | x :: l' => if String.eqb x "" then Join l' else Clean (str_join "/" l)
  end.

(** Of a clean path. *)
Definition DirOf (path : string) : string :=
  match rev (GoText.split slash path) with
  | _ :: (_ :: _) as front => Clean (str_join "/" (rev front) +:+ "/")
  | _ => "."
  end.
Definition BaseOf (path : string) : string := List.last (GoText.split slash path) "".

(** ** Files: sync.go *)

Definition kindDirs : gmap string string := list_to_map [
  (KindGateway, "gateways"); (KindService, "services"); (KindModuleConfig, "config");
  (KindNftables, "infrastructure"); (KindNetwork, "infrastructure"); (KindPlc, "plc")].

Section Files.
Context `{ManifestCodec} `{UnicodeTables}.
Variable o : ranging.

Fixpoint make_dirs (configPath : string) (dirs : list string) (f : fs) : option string * fs :=
  match dirs with
  | [] => (None, f)
  | d :: dirs =>
      let '(ok, f) := MkdirAll f (Join [configPath; d]) in
      if ok then make_dirs configPath dirs f else (Some ("create dir " +:+ d), f)
  end.

(** The file of a resource; a kind without a directory has none. *)
Definition manifest_path (configPath : string) (r : Resource) : option string :=
  d ← kindDirs !! rhKind (header r); Some (Join [configPath; d; rName r +:+ ".yaml"]).

Fixpoint write_files (configPath : string) (l : list Resource) (f : fs) : option string * fs :=
  match l with
  | [] => (None, f)
  | r :: l =>
      match manifest_path configPath r with
      | None => write_files configPath l f
      | Some path =>
          let '(ok, f) := WriteFile f path (Serialize [r]) in
          if ok then write_files configPath l f else (Some ("write " +:+ path), f)
      end
  end.

Definition writeManifestFiles (l : list Resource) (configPath : string) (f : fs) : option string * fs :=
  match make_dirs configPath (o _ kindDirs).*2 f with
  | (None, f) => write_files configPath l f
  | (Some e, f) => (Some e, f)
  end.

Definition is_yaml (path : string) : bool := has_suffix path ".yaml" || has_suffix path ".yml".

(** [filepath.Walk] visits what is below a directory by the names on the way. *)
Fixpoint parts_le (a b : list string) : bool :=
  match a, b with
  | [], _ => true
  | _ :: _, [] => false
  | x :: a, y :: b => match String.compare x y with Lt => true | Gt => false | Eq => parts_le a b end
  end.
Definition path_le (a b : string * node) : Prop := parts_le (GoText.split slash a.1) (GoText.split slash b.1) = true.
#[export] Instance path_le_dec a b : Decision (path_le a b).
Proof. unfold path_le. apply _. Defined.

Definition below (root : string) (f : fs) : list (string * node) :=
  merge_sort path_le (List.filter (λ kv, match Host.strip_prefix (root +:+ "/") kv.1 with Some _ => true | None => false end) (map_to_list f)).

Fixpoint read_files (f : fs) (l : list (string * node)) : string + list Resource :=
  match l with
  | [] => inr []
  | (path, n) :: l =>
      if bool_decide (n = Dir) || negb (is_yaml path) then read_files f l
      else match read_file f path with
      | None => inl ("read " +:+ path)
      | Some data =>
          match ParseBytes data with
          | inl e => inl ("parse " +:+ path +:+ ": " +:+ e)
          | inr rs => match read_files f l with inl e => inl e | inr l => inr (rs ++ l) end
          end
      end
  end.

Definition readManifestFiles (configPath : string) (f : fs) : string + list Resource :=
  match lstat f configPath with
  | None => inl ("lstat " +:+ configPath)
  | Some Dir => read_files f (below configPath f)
  | Some n => read_files f [(configPath, n)]
  end.

End Files.

(** ** git.go *)

Record gitRepo := mkRepo {
  grDir : string;
  grRemote : string;
  grBranch : string;
  grSshKeyPath : string;
}.

Section Git.
Context {Sys : Type} `{System Sys} `{UnicodeTables}.
Variable repo : gitRepo.

(** Standard output, or none after a failure. *)
Definition execGit (dir : string) (args : list string) (h : Host Sys) : option string * Host Sys :=
  let env := if String.eqb (grSshKeyPath repo) "" then []
    else ["GIT_SSH_COMMAND=ssh -i " +:+ grSshKeyPath repo +:+ " -o StrictHostKeyChecking=accept-new"] in
  let '(out, _, ok, h) := exec env dir "git" args h in
  (if ok then Some out else None, h).

Definition output (args : list string) (h : Host Sys) : option string * Host Sys := execGit (grDir repo) args h.
Definition run (args : list string) (h : Host Sys) : bool * Host Sys :=
  let '(out, h) := output args h in (bool_decide (is_Some out), h).

Definition origin_branch : string := "origin/" +:+ grBranch repo.

(** The error is [None]. *)
Definition HasRemoteChanges (h : Host Sys) : option bool * Host Sys :=
  let '(fetched, h) := run ["fetch"; "origin"] h in
  if negb fetched then (None, h)
  else
    let '(local, h) := output ["rev-parse"; "HEAD"] h in
    let '(remote, h) := output ["rev-parse"; origin_branch] h in
    (Some (match local, remote with
     | None, r => bool_decide (is_Some r)
     | Some _, None => false
     | Some l, Some r => negb (String.eqb (trim_space l) (trim_space r))
     end), h).

Definition Pull (h : Host Sys) : option bool * Host Sys :=
  let '(before, h) := output ["rev-parse"; "HEAD"] h in
  let '(ok, h) := run ["pull"; "--ff-only"; "origin"; grBranch repo] h in
  if negb ok then (None, h)
  else
    let '(after, h) := output ["rev-parse"; "HEAD"] h in
    (Some (negb (String.eqb (trim_space (default "" before)) (trim_space (default "" after)))), h).

Definition HasLocalChanges (h : Host Sys) : option bool * Host Sys :=
  let '(out, h) := output ["status"; "--porcelain"] h in
  (out ← out; Some (negb (String.eqb (trim_space out) "")), h).

(** A quiet diff of the index succeeds when there is nothing to commit. *)
Definition CommitAll (msg : string) (h : Host Sys) : bool * Host Sys :=
  let '(added, h) := run ["add"; "-A"] h in
  if negb added then (false, h)
  else
    let '(clean, h) := run ["diff"; "--cached"; "--quiet"] h in
    if (clean : bool) then (true, h) else run ["commit"; "-m"; msg] h.

Definition Push (h : Host Sys) : bool * Host Sys := run ["push"; "origin"; grBranch repo] h.
Definition ResetToRemote (h : Host Sys) : bool * Host Sys := run ["reset"; "--hard"; origin_branch] h.

Definition CurrentSHA (h : Host Sys) : string * Host Sys :=
  let '(out, h) := output ["rev-parse"; "HEAD"] h in (trim_space (default "" out), h).

(** A clone that is there is given the remote; a failed fetch does not matter. *)
Definition Init (h : Host Sys) : bool * Host Sys :=
  match stat (files h) (Join [grDir repo; ".git"]) with
  | Some _ =>
      let '(ok, h) := run ["remote"; "set-url"; "origin"; grRemote repo] h in
      if negb ok then (false, h) else (true, snd (run ["fetch"; "origin"] h))
  | None =>
      let '(made, f) := MkdirAll (files h) (DirOf (grDir repo)) in
      let h := with_files h f in
      if negb made then (false, h)
      else
        let '(out, h) := execGit (DirOf (grDir repo))
          ["clone"; "--branch"; grBranch repo; "--single-branch"; grRemote repo; BaseOf (grDir repo)] h in
        match out with
        | Some _ => (true, h)
        | None =>
            let '(out, h) := execGit (DirOf (grDir repo)) ["clone"; grRemote repo; BaseOf (grDir repo)] h in
            match out with
            | None => (false, h)
            | Some _ =>
                let '(current, h) := output ["symbolic-ref"; "--short"; "HEAD"] h in
                if String.eqb (trim_space (default "" current)) (grBranch repo) then (true, h)
                else (true, snd (run ["checkout"; "-b"; grBranch repo] h))
            end
        end
  end.

Definition EnsureIdentity (hostname : string) (h : Host Sys) : Host Sys :=
  let '(name, h) := output ["config"; "user.name"] h in
  if String.eqb (trim_space (default "" name)) "" then
    let '(_, h) := run ["config"; "user.name"; "tentacle"] h in
    snd (run ["config"; "user.email"; "tentacle@" +:+ hostname] h)
  else h.

End Git.

(** ** config.go *)

Record gitopsConfig := mkGitops {
  gcRepoURL : string;
  gcBranch : string;
  gcPath : string;
  gcSSHKeyPath : string;
  gcPollInterval : Z;
  gcAutoPush : bool;
  gcAutoPull : bool;
  gcDebounceS : Z;
}.

(** [strconv.ParseBool]. *)
Definition ParseBool (s : string) : option bool :=
  if existsb (String.eqb s) ["1"; "t"; "T"; "TRUE"; "true"; "True"] then Some true
  else if existsb (String.eqb s) ["0"; "f"; "F"; "FALSE"; "false"; "False"] then Some false
  else None.

(** The bucket tentacle_config, the environment, the default. *)
Definition get_setting (getenv : string → string) (k : KV) (envVar defaultVal : string) : string :=
  let stored := default "" (kvConfig k !! ("gitops." +:+ envVar)) in
  if negb (String.eqb stored "") then stored
  else if negb (String.eqb (getenv envVar) "") then getenv envVar else defaultVal.

Definition get_int (getenv : string → string) (k : KV) (envVar : string) (defaultVal : Z) : Z :=
  let s := get_setting getenv k envVar "" in
  if String.eqb s "" then defaultVal else match atoi s with (n, NumOK) => n | _ => defaultVal end.

Definition get_bool (getenv : string → string) (k : KV) (envVar : string) (defaultVal : bool) : bool :=
  let s := get_setting getenv k envVar "" in
  if String.eqb s "" then defaultVal else default defaultVal (ParseBool s).

Definition SSHKeyPath (dataDir : string) : string := Join [dataDir; ".ssh"; "id_ed25519"].

Definition loadConfig (getenv : string → string) (dataDir : string) (k : KV) : gitopsConfig :=
  mkGitops (get_setting getenv k "GITOPS_REPO_URL" "") (get_setting getenv k "GITOPS_BRANCH" "main")
    (get_setting getenv k "GITOPS_PATH" "config") (get_setting getenv k "GITOPS_SSH_KEY_PATH" (SSHKeyPath dataDir))
    (get_int getenv k "GITOPS_POLL_INTERVAL_S" 60) (get_bool getenv k "GITOPS_AUTO_PUSH" true)
    (get_bool getenv k "GITOPS_AUTO_PULL" true) (get_int getenv k "GITOPS_DEBOUNCE_S" 5).

(** ** The two directions: sync.go *)

Record Machine (P Sys : Type) := mkMachine {
  site : Site P;
  computer : Host Sys;
}.
Arguments mkMachine {_ _} _ _.
Arguments site {_ _} _.
Arguments computer {_ _} _.

Section Sync.
Context {Sys P : Type} `{System Sys} `{Peers P} `{ManifestCodec} `{UnicodeTables}.
Variable o : ranging.
Implicit Types (m : Machine P Sys) (now : Z).

(** [stamp] is the time in the message of the commit. *)
Definition syncToGit (repo : gitRepo) (configPath : string) (autoPush : bool) (stamp : string) m : Machine P Sys :=
  let '(resources, s) := Export o [] (site m) in
  let '(err, f) := writeManifestFiles o resources configPath (files (computer m)) in
  let h := with_files (computer m) f in
  match err with
  | Some _ => mkMachine s h
  | None =>
      match HasLocalChanges repo h with
      | (Some true, h) =>
          let '(committed, h) := CommitAll repo ("config: update via tentacle at " +:+ stamp) h in
          mkMachine s (if (committed : bool) && autoPush then snd (Push repo h) else h)
      | (_, h) => mkMachine s h
      end
  end.

(** Whether there is something new in the clone: a branch that cannot be fast-forwarded is
    reset to the remote one. *)
Definition fetch_changes (repo : gitRepo) (h : Host Sys) : bool * Host Sys :=
  match HasRemoteChanges repo h with
  | (Some true, h) =>
      match Pull repo h with
      | (Some pulled, h) => (pulled, h)
      | (None, h) => ResetToRemote repo h
      end
  | (_, h) => (false, h)
  end.

Definition syncFromGit (repo : gitRepo) (configPath : string) now m : Machine P Sys :=
  let '(pulled, h) := fetch_changes repo (computer m) in
  if (pulled : bool) then
    match readManifestFiles configPath (files h) with
    | inl _ => mkMachine (site m) h
    | inr resources => let '(_, _, s) := Apply o now resources "gitops" (site m) in mkMachine s h
    end
  else mkMachine (site m) h.

(** ** The loops. Times are in milliseconds, the debouncing timer's in nanoseconds. *)

Definition second : Z := 1000000000.

Record kvChange := mkKvChange {
  ccBucket : string;
  ccKey : string;
}.

Definition isGitOpsSource (k : KV) now (c : kvChange) : bool :=
  match kvMetadata k !! (ccBucket c +:+ "." +:+ ccKey c) with
  | Some (source, timestamp) => String.eqb source "gitops" && (now - timestamp <? 10000)
  | None => false
  end.

Definition watchBuckets : list string := ["gateway_config"; "desired_services"; "tentacle_config"].

(** The handler of the watches, up to the channel. *)
Definition watched (moduleID : string) (c : kvChange) : bool :=
  existsb (String.eqb (ccBucket c)) watchBuckets
  && negb (String.eqb (ccBucket c) "tentacle_config"
    && match Host.strip_prefix (moduleID +:+ ".") (ccKey c) with Some _ => true | None => false end).

(** The channel [changes]; the oldest change leaves a full one. *)
Definition enqueue (c : kvChange) (changes : list kvChange) : list kvChange :=
  (if (length changes <? 100)%nat then changes else List.tl changes) ++ [c].

Record loop := mkLoop {
  lPending : bool;
  lDeadline : option Z;
}.

Definition loop0 : loop := mkLoop false None.

Definition debounce (cfg : gitopsConfig) : Z := wraps 64 (gcDebounceS cfg * second).

(** A change of the channel, at a time in nanoseconds. *)
Definition loop_change (cfg : gitopsConfig) (k : KV) (t : Z) (c : kvChange) (st : loop) : loop :=
  if isGitOpsSource k (t / 1000000) c then st
  else mkLoop true (Some (t + Z.max 0 (debounce cfg))).

Definition config_path (repo : gitRepo) (cfg : gitopsConfig) : string := Join [grDir repo; gcPath cfg].

Definition loop_sync (repo : gitRepo) (cfg : gitopsConfig) (stamp : string) (st : loop) m : Machine P Sys :=
  if lPending st then syncToGit repo (config_path repo cfg) (gcAutoPush cfg) stamp m else m.

(** What the loop does next: it takes a change, its timer fires, or it ends. *)
Inductive loop_step (repo : gitRepo) (cfg : gitopsConfig) (t : Z) :
    list kvChange * loop * Machine P Sys → option (list kvChange * loop * Machine P Sys) * Machine P Sys → Prop :=
| LChange c changes st m :
    loop_step repo cfg t (c :: changes, st, m) (Some (changes, loop_change cfg (kv (site m)) t c st, m), m)
| LFire changes st m stamp d : lDeadline st = Some d → d ≤ t →
    loop_step repo cfg t (changes, st, m) (Some (changes, loop0, loop_sync repo cfg stamp st m), loop_sync repo cfg stamp st m)
| LDone changes st m stamp : loop_step repo cfg t (changes, st, m) (None, loop_sync repo cfg stamp st m).

(** A period that is not positive panics. *)
Definition pollLoop (cfg : gitopsConfig) : outcome Z :=
  let period := wraps 64 (gcPollInterval cfg * second) in
  if period <=? 0 then Panic else Ok period.

Definition poll_tick (repo : gitRepo) (cfg : gitopsConfig) now m : Machine P Sys :=
  if gcAutoPull cfg then syncFromGit repo (config_path repo cfg) now m else m.

(** *** [Module.Start]: without a repository nothing is started *)

Definition repo_of (cfg : gitopsConfig) (dataDir : string) : gitRepo :=
  mkRepo (Join [dataDir; "gitops"; "repo"]) (gcRepoURL cfg) (gcBranch cfg) (gcSSHKeyPath cfg).

Definition first_sync (repo : gitRepo) (cfg : gitopsConfig) (hostname stamp : string) now m : Machine P Sys :=
  let '(ok, h) := Init repo (computer m) in
  if negb ok then mkMachine (site m) h
  else
    let m := mkMachine (site m) (EnsureIdentity repo hostname h) in
    syncToGit repo (config_path repo cfg) (gcAutoPush cfg) stamp (syncFromGit repo (config_path repo cfg) now m).

Definition Start (getenv : string → string) (dataDir hostname stamp : string) now m
    : outcome (option (gitRepo * loop * Z) * Machine P Sys) :=
  let cfg := loadConfig getenv dataDir (kv (site m)) in
  if String.eqb (gcRepoURL cfg) "" then Ok (None, m)
  else
    let repo := repo_of cfg dataDir in
    let m := first_sync repo cfg hostname stamp now m in
    period ← pollLoop cfg; Ok (Some (repo, loop0, period), m).

End Sync.
