(* ===== verification/GitopsText.v ===== *)
(** The text of a manifest: it does not depend on the order of a Go map, and [ParseBytes]
    reads the resource that [Serialize] wrote, given what yaml.v3 and encoding/json promise:
    that they read back what they write. *)

From stdpp Require Import sorting.
From S2P Require Export Gitops.

#[local] Open Scope Z_scope.

(** ** The order of keys *)

Definition key_le {A} (a b : string * A) : Prop := compareKeys a.1 b.1 ≤ 0.

Lemma compareKeys_spec a b : compareKeys a b ≤ 0 ↔
  key_priority a < key_priority b ∨ key_priority a = key_priority b ∧ String.le a b.
Proof.
  unfold compareKeys, String.le, String.leb. destruct (Z.eqb_spec (key_priority a) (key_priority b)) as [E|]; cbn; [|lia].
  destruct (String.compare a b); cbn; split; try lia; auto; intros [|[_ []]]; lia.
Qed.

#[export] Instance key_le_trans {A} : Transitive (@key_le A).
Proof.
  intros a b c. unfold key_le. rewrite !compareKeys_spec. intros [|[Ea Ha]] [|[Eb Hb]]; try lia.
  right. split; [lia|]. by etrans.
Qed.

Lemma key_le_total {A} (a b : string * A) : key_le a b ∨ key_le b a.
Proof.
  unfold key_le. rewrite !compareKeys_spec.
  destruct (Z.lt_trichotomy (key_priority a.1) (key_priority b.1)) as [|[|]]; [lia| |lia].
  destruct (String.le_total a.1 b.1); naive_solver lia.
Qed.

Lemma key_le_antisym {A} (a b : string * A) : key_le a b → key_le b a → a.1 = b.1.
Proof.
  unfold key_le. rewrite !compareKeys_spec. intros [|[Ea Ha]] [|[Eb Hb]]; try lia. by apply (anti_symm String.le).
Qed.

Lemma insert_key_perm {A} (x : string * A) l : insert_key x l ≡ₚ x :: l.
Proof. induction l as [|y l IH]; cbn; [done|]. destruct (compareKeys y.1 x.1 >? 0); [|done]. rewrite IH. constructor. Qed.

(** The other way round than [key_le], since what is sorted lies in reverse. *)
Definition key_ge {A} : relation (string * A) := flip key_le.

Lemma insert_key_sorted {A} (x : string * A) l : StronglySorted key_ge l → StronglySorted key_ge (insert_key x l).
Proof.
  induction 1 as [|y l Hl IH Hy]; cbn; [by repeat constructor|].
  destruct (compareKeys y.1 x.1 >? 0) eqn:E.
  - constructor; [done|]. rewrite insert_key_perm. constructor; [|done].
    destruct (key_le_total y x) as [Hyx|]; [|done]. unfold key_le in Hyx. bool_to_prop. lia.
  - assert (Hyx : key_le y x) by (unfold key_le; bool_to_prop; lia).
    repeat constructor; [done|done|done|]. eapply Forall_impl; [exact Hy|]. intros z Hz. unfold key_ge, flip in *. by etrans.
Qed.

Lemma fold_insert_key {A} (l : list (string * A)) acc : StronglySorted key_ge acc →
  StronglySorted key_ge (fold_left (λ sorted x, insert_key x sorted) l acc)
  ∧ fold_left (λ sorted x, insert_key x sorted) l acc ≡ₚ l ++ acc.
Proof.
  revert acc. induction l as [|x l IH]; intros acc Hacc; cbn; [done|].
  destruct (IH (insert_key x acc)) as [H1 H2]; [by apply insert_key_sorted|]. split; [done|].
  rewrite H2, insert_key_perm. by rewrite Permutation_middle.
Qed.

Lemma sortManifestKeys_perm {A} (l : list (string * A)) : sortManifestKeys l ≡ₚ l.
Proof.
  unfold sortManifestKeys. destruct (fold_insert_key l [] ltac:(constructor)) as [_ H].
  by rewrite <- Permutation_rev, H, app_nil_r.
Qed.

(** The text of a manifest does not depend on the order in which Go ranges over its
    maps: the insertion sort of the keys puts the same fields, in whatever order they come,
    into one and the same order. *)
Theorem manifest_order_unique {A} (l l' : list (string * A)) : NoDup l.*1 → l ≡ₚ l' →
  sortManifestKeys l = sortManifestKeys l'.
Proof.
  intros Hnd Hp. unfold sortManifestKeys. f_equal.
  destruct (fold_insert_key l [] ltac:(constructor)) as [S1 P1], (fold_insert_key l' [] ltac:(constructor)) as [S2 P2].
  rewrite app_nil_r in P1, P2. apply (StronglySorted_unique_strong key_ge); [|done|done|by rewrite P1, P2].
  intros [k1 v1] [k2 v2] H1 H2 A1 A2. pose proof (key_le_antisym _ _ A2 A1) as E. cbn in E. subst k2. f_equal.
  rewrite P1 in H1. rewrite P2, <- Hp in H2. apply (elem_of_list_to_map_1 (M := gmap string)) in H1, H2; [|done..]. congruence.
Qed.

Lemma insert_key_Forall2 {A B} (R : string * A → string * B → Prop) x y l k :
  (∀ x y, R x y → x.1 = y.1) → R x y → Forall2 R l k → Forall2 R (insert_key x l) (insert_key y k).
Proof.
  intros HR Hxy. induction 1 as [|x' y' l k Hxy' Hlk IH]; cbn; [by repeat constructor|].
  rewrite (HR _ _ Hxy), (HR _ _ Hxy'). destruct (_ >? 0); [by constructor|].
  constructor; [done|by constructor].
Qed.

(** Sorting looks at the keys only. *)
Lemma sortManifestKeys_Forall2 {A B} (R : string * A → string * B → Prop) l k :
  (∀ x y, R x y → x.1 = y.1) → Forall2 R l k → Forall2 R (sortManifestKeys l) (sortManifestKeys k).
Proof.
  intros HR Hl. unfold sortManifestKeys. rewrite !rev_alt. apply (Forall2_reverse R).
  enough (∀ a b, Forall2 R a b → Forall2 R (fold_left (λ s x, insert_key x s) l a) (fold_left (λ s x, insert_key x s) k b)) by auto.
  induction Hl as [|x y l k Hxy _ IH]; intros a b Hab; cbn; [done|]. apply IH. by apply insert_key_Forall2.
Qed.

(** ** What the encoders promise *)

Section Values.
(** A number's text, as encoding/json writes the number that yaml.v3 reads, if it reads one. *)
Variable yaml_number : string → option string.

(** What yaml.v3 reads of the document it wrote for a tree: a scalar is what its tag says, and
    an object's keys must differ. *)
Fixpoint node_value (n : yaml_node) : option json :=
  match n with
  | Scalar s tag =>
      if String.eqb tag "!!str" then Some (JString s)
      else if String.eqb tag "!!bool" then
        (if String.eqb s "true" then Some (JBool true) else if String.eqb s "false" then Some (JBool false) else None)
      else if String.eqb tag "!!null" then (if String.eqb s "null" then Some JNull else None)
      else if String.eqb tag (match atoi s with (_, NumOK) => "!!int" | _ => "!!float" end) then JNumber <$> yaml_number s
      else None
  | Sequence l => JArray <$> mapM node_value l
  | Mapping l => if decide (NoDup l.*1) then JObject <$> mapM (λ kn, pair kn.1 <$> node_value kn.2) l else None
  end.

(** A value in the order of [sortManifestKeys] and with its numbers as they come back. *)
Fixpoint reread (v : json) : option json :=
  match v with
  | JObject l =>
      if decide (NoDup l.*1) then JObject ∘ sortManifestKeys <$> mapM (λ kv, pair kv.1 <$> reread kv.2) l else None
  | JArray l => JArray <$> mapM reread l
  | JNumber s => JNumber <$> yaml_number s
  | v => Some v
  end.

End Values.

(** yaml.v3 reads a document that it wrote. *)
Class YamlReads `{ManifestCodec} := {
  yaml_number : string → option string;
  yaml_reads l fields : node_value yaml_number (Mapping l) = Some (JObject fields) →
    yaml_decode (yaml_encode (Mapping l)) = inr [Some fields];
}.

Lemma json_ind' (P : json → Prop) :
  P JNull → (∀ b, P (JBool b)) → (∀ s, P (JNumber s)) → (∀ s, P (JString s)) →
  (∀ l, Forall P l → P (JArray l)) → (∀ l, Forall (λ kv, P kv.2) l → P (JObject l)) → ∀ v, P v.
Proof.
  intros Hn Hb Hd Hs Ha Ho. fix IH 1. intros [|b|d|s|l|l]; [done|auto..| |].
  - apply Ha. induction l as [|v l IHl]; constructor; [apply IH|exact IHl].
  - apply Ho. induction l as [|[k v] l IHl]; constructor; [apply IH|exact IHl].
Qed.

Lemma build_items l : (fix items l := match l with [] => [] | v :: l => buildYAMLNode v :: items l end) l = map buildYAMLNode l.
Proof. induction l as [|v l IH]; cbn; by rewrite ?IH. Qed.

Lemma build_fields l : (fix fields l := match l with [] => [] | (k, v) :: l => (k, buildYAMLNode v) :: fields l end) l
  = map (λ kv : string * json, (kv.1, buildYAMLNode kv.2)) l.
Proof. induction l as [|[k v] l IH]; cbn; by rewrite ?IH. Qed.

Section Reads.
Context `{Hcodec : ManifestCodec} `{Hyaml : !YamlReads} `{UnicodeTables}.

(** [buildYAMLNode] makes a tree that says what the value was. *)
Lemma build_value v v' : reread yaml_number v = Some v' → node_value yaml_number (buildYAMLNode v) = Some v'.
Proof.
  revert v'. induction v as [|b|s|s|l IH|l IH] using json_ind'; intros v' E; [exact E|by destruct b| |exact E| |].
  - cbn in *. by destruct (atoi s) as [? []].
  - cbn [reread buildYAMLNode] in *. rewrite build_items. cbn [node_value]. apply fmap_Some in E as (l' & E & ->).
    apply fmap_Some. exists l'. split; [|done]. apply mapM_Some in E. apply mapM_Some. rewrite Forall2_fmap_l.
    apply Forall2_same_length_lookup in E as [Hl E]. apply Forall2_same_length_lookup. split; [done|].
    intros i x y Hx Hy. apply (proj1 (Forall_forall _ _) IH); [by eapply list_elem_of_lookup_2|by eapply E].
  - cbn [reread buildYAMLNode] in *. rewrite build_fields. cbn [node_value].
    destruct (decide (NoDup l.*1)) as [Hnd|]; [|done]. apply fmap_Some in E as (l' & E & ->).
    assert (Hk : (sortManifestKeys (map (λ kv, (kv.1, buildYAMLNode kv.2)) l)).*1 ≡ₚ l.*1).
    { rewrite sortManifestKeys_perm. clear. induction l as [|x l IH]; cbn; [done|by rewrite IH]. }
    rewrite decide_True by by rewrite Hk. apply fmap_Some. exists (sortManifestKeys l'). split; [|done].
    apply mapM_Some. apply sortManifestKeys_Forall2.
    { intros x y (v & _ & ->)%fmap_Some. done. }
    apply mapM_Some in E. rewrite Forall2_fmap_l.
    apply Forall2_same_length_lookup in E as [Hl E]. apply Forall2_same_length_lookup. split; [done|].
    intros i x y Hx Hy. specialize (E i x y Hx Hy). apply fmap_Some in E as (v & Ev & ->). apply fmap_Some. exists v. split; [|done].
    cbn. by apply (proj1 (Forall_forall _ _) IH x); [eapply list_elem_of_lookup_2|].
Qed.

(** *** The header *)

Lemma string_field_lookup l key : NoDup l.*1 →
  string_field l key = match (list_to_map l : gmap string json) !! key with Some (JString s) => s | _ => "" end.
Proof.
  unfold string_field. induction l as [|[k v] l IH]; cbn; [done|]. intros [_ Hnd]%NoDup_cons.
  destruct (String.eqb_spec k key) as [->|]; [by rewrite lookup_insert_eq|]. rewrite lookup_insert_ne by done. by apply IH.
Qed.

Lemma reread_string v v' : reread yaml_number v = Some v' →
  match v' with JString s => s | _ => "" end = match v with JString s => s | _ => "" end.
Proof.
  destruct v; cbn; intros E; try (by injection E as <-); try (by apply fmap_Some in E as (? & _ & ->)).
  destruct (decide _); [|done]. by apply fmap_Some in E as (? & _ & ->).
Qed.

Lemma reread_field l fields key : reread yaml_number (JObject l) = Some (JObject fields) →
  string_field fields key = string_field l key.
Proof.
  cbn [reread]. destruct (decide (NoDup l.*1)) as [Hnd|]; [|done]. intros (l' & E & [= ->])%fmap_Some. apply mapM_Some in E.
  assert (Hk : l'.*1 = l.*1).
  { clear Hnd. induction E as [|x y l l' (v & _ & ->)%fmap_Some _ IH]; cbn; by rewrite ?IH. }
  assert (Hnd' : NoDup l'.*1) by by rewrite Hk.
  rewrite string_field_lookup by (by rewrite sortManifestKeys_perm).
  rewrite <- (list_to_map_proper l') by (done || by rewrite sortManifestKeys_perm).
  rewrite <- string_field_lookup by done. unfold string_field. clear Hnd Hnd' Hk.
  induction E as [|[k v] y l l' (v' & Ev & ->)%fmap_Some _ IH]; cbn; [done|].
  destruct (String.eqb k key); [|exact IH]. cbn in Ev. by apply reread_string.
Qed.

(** encoding/json on a resource: the object has the header's kind and version under the
    names of their tags, and what the object decodes to, its fields in another order and its
    numbers in another spelling, is the resource. *)
Definition encodable (r : Resource) : Prop :=
  string_field (resource_json r) "apiVersion" = rhAPIVersion (header r)
  ∧ string_field (resource_json r) "kind" = rhKind (header r)
  ∧ ∃ fields, reread yaml_number (JObject (resource_json r)) = Some (JObject fields)
      ∧ json_resource (rhKind (header r)) fields = inr r.

(** The text of the resource is read as the resource. *)
Definition carries (r : Resource) : Prop := ParseBytes (Serialize [r]) = inr [r].

(** A resource of the version and a kind that [decodeResource] knows is read back. *)
Theorem serialized_is_read r : rhAPIVersion (header r) = APIVersion → KnownKind (rhKind (header r)) = true →
  encodable r → carries r.
Proof.
  intros Hv Hk (Ev & Ek & fields & Hf & Hj). unfold carries, ParseBytes, Serialize. cbn [map str_join String.concat].
  unfold toYAML. pose proof (build_value _ _ Hf) as Hb. cbn [buildYAMLNode] in Hb |- *.
  rewrite (yaml_reads _ _ Hb). cbn [decode_all]. unfold decodeResource.
  rewrite !(reread_field _ _ _ Hf), Ev, Ek, Hv, Hk, Hj. by rewrite String.eqb_refl.
Qed.

End Reads.
