(* ===== verification/GitopsFiles.v ===== *)
(** The files of GitOps: what is written to the clone is read back, firewall rules are
    overwritten by the network configuration, and the files of resources that are gone stay. *)

From stdpp Require Import sorting.
From S2P Require Import OrchestratorVersions.
From S2P Require Export GitopsText.

#[local] Open Scope Z_scope.

(** ** Where the files lie *)

(** A rooted path as [filepath.Clean] leaves it, other than the root. *)
Definition clean_path (p : string) : Prop := Clean p = p ∧ ∃ rest, p = "/" +:+ rest ∧ rest ≠ "".

Definition plain_name (s : string) : Prop := has_slash s = false ∧ s ≠ "" ∧ s ≠ "." ∧ s ≠ "..".

Lemma push_plain rooted stack s : plain_name s → push_part rooted stack s = s :: stack.
Proof.
  intros (_ & H1 & H2 & H3). unfold push_part. by rewrite !(proj2 (String.eqb_neq _ _)) by done.
Qed.

Lemma str_join_snoc sep l x : l ≠ [] → str_join sep (l ++ [x]) = str_join sep l +:+ sep +:+ x.
Proof.
  unfold str_join. induction l as [|a [|b l] IH]; intros Hl; [done|done|].
  change (String.concat sep ((a :: b :: l) ++ [x])) with (a +:+ sep +:+ String.concat sep ((b :: l) ++ [x])).
  rewrite IH by done. change (String.concat sep (a :: b :: l)) with (a +:+ sep +:+ String.concat sep (b :: l)).
  by rewrite <- !string_app_assoc.
Qed.

Lemma Clean_rooted rest : Clean ("/" +:+ rest) =
  "/" +:+ str_join "/" (rev (fold_left (push_part true) (GoText.split slash ("/" +:+ rest)) [])).
Proof. reflexivity. Qed.

Lemma Clean_snoc p s : clean_path p → plain_name s → Clean (p +:+ "/" +:+ s) = p +:+ "/" +:+ s ∧ clean_path (p +:+ "/" +:+ s).
Proof.
  intros (Hc & rest & -> & Hne) Hs.
  assert (E : Clean (("/" +:+ rest) +:+ "/" +:+ s) = ("/" +:+ rest) +:+ "/" +:+ s); [|split; [done|]].
  - change (("/" +:+ rest) +:+ "/" +:+ s) with ("/" +:+ (rest +:+ "/" +:+ s)) at 1. rewrite Clean_rooted.
    change ("/" +:+ (rest +:+ "/" +:+ s)) with (("/" +:+ rest) +:+ "/" +:+ s).
    rewrite split_slash, (split_name s) by apply Hs. rewrite fold_left_app. cbn [fold_left]. rewrite push_plain by done.
    rewrite Clean_rooted in Hc. set (stack := fold_left (push_part true) _ []) in *. cbn [rev]. rewrite str_join_snoc.
    + rewrite !string_app_assoc. by rewrite Hc.
    + intros Hr. rewrite Hr in Hc. cbn in Hc. by injection Hc.
  - split; [done|]. exists (rest +:+ "/" +:+ s). split; [done|]. by destruct rest.
Qed.

Lemma Join_snoc p d s : clean_path p → plain_name d → plain_name s → Join [p; d; s] = p +:+ "/" +:+ d +:+ "/" +:+ s.
Proof.
  intros Hp Hd Hs. destruct (Clean_snoc p d Hp Hd) as [_ Hpd]. destruct (Clean_snoc _ s Hpd Hs) as [E _].
  unfold Join. rewrite (proj2 (String.eqb_neq p "")) by (by destruct Hp as (_ & ? & -> & _)).
  cbn [str_join String.concat]. rewrite <- !string_app_assoc in E. exact E.
Qed.

Lemma kindDirs_plain kind d : kindDirs !! kind = Some d → plain_name d.
Proof.
  unfold kindDirs. intros Hd%elem_of_list_to_map_2.
  repeat (apply elem_of_cons in Hd as [[= -> ->]|Hd]; [by repeat split|]). by apply elem_of_nil in Hd.
Qed.

Lemma yaml_plain name : has_slash name = false → plain_name (name +:+ ".yaml").
Proof.
  intros Hs. split; [|by destruct name as [|? [|? [|]]]].
  unfold has_slash in *. by rewrite chars_app, existsb_app, Hs.
Qed.

(** The directory and the name of the file of a resource. *)
Definition place (r : Resource) : option (string * string) := d ← kindDirs !! rhKind (header r); Some (d, rName r).

(** A resource with a file whose name is one. *)
Definition fileable (r : Resource) : Prop := is_Some (place r) ∧ has_slash (rName r) = false.

Section Files.
Context `{ManifestCodec} `{UnicodeTables}.
Variable o : ranging.
Variable configPath : string.
Hypothesis Hclean : clean_path configPath.

Lemma manifest_path_place r d name : has_slash (rName r) = false → place r = Some (d, name) →
  manifest_path configPath r = Some (configPath +:+ "/" +:+ d +:+ "/" +:+ (name +:+ ".yaml")).
Proof.
  unfold place, manifest_path. intros Hs. destruct (kindDirs !! rhKind (header r)) as [d'|] eqn:E; [|done].
  cbn. intros [= <- <-]. f_equal. apply Join_snoc; [done|by eapply kindDirs_plain|by apply yaml_plain].
Qed.

Lemma path_inj d d' n n' : has_slash d = false → has_slash d' = false → has_slash n = false → has_slash n' = false →
  configPath +:+ "/" +:+ d +:+ "/" +:+ (n +:+ ".yaml") = configPath +:+ "/" +:+ d' +:+ "/" +:+ (n' +:+ ".yaml") →
  d = d' ∧ n = n'.
Proof.
  intros Hd Hd' Hn Hn' E. apply (f_equal (Host.strip_prefix (configPath +:+ "/"))) in E.
  rewrite !(string_app_assoc configPath), !strip_prefix_app in E. injection E as E.
  apply (f_equal (GoText.split slash)) in E. rewrite !split_slash, !(split_name _ Hd), !(split_name _ Hd') in E.
  rewrite !split_name in E by (apply yaml_plain; done). injection E as -> E. split; [done|].
  apply (f_equal (λ s, trim_suffix s ".yaml")) in E. by rewrite !trim_suffix_app in E.
Qed.

(** ** What is below the directory *)

Definition is_manifest (path : string) (n : node) : Prop :=
  is_Some (Host.strip_prefix (configPath +:+ "/") path) ∧ is_yaml path = true ∧ n ≠ Dir.

#[local] Instance is_manifest_dec kv : Decision (is_manifest kv.1 kv.2).
Proof. unfold is_manifest. apply _. Defined.

(** The files below the directory that are read. *)
Definition manifests (f : fs) : fs := filter (λ kv, is_manifest kv.1 kv.2) f.

Lemma manifests_add f path n : is_manifest path n → manifests (<[path := n]> f) = <[path := n]> (manifests f).
Proof. intros Hm. unfold manifests. by rewrite map_filter_insert_True. Qed.

Lemma manifests_lookup f path n : f !! path = Some n → is_manifest path n → manifests f !! path = Some n.
Proof. intros. by apply map_lookup_filter_Some. Qed.

Lemma manifests_dir f path : f !! path = None → manifests (<[path := Dir]> f) = manifests f.
Proof.
  intros Hn. unfold manifests. rewrite map_filter_insert_False by (by intros (_ & _ & [])).
  by rewrite delete_id.
Qed.

#[local] Arguments stat : simpl never.
#[local] Arguments Serialize : simpl never.

(** Directories that are made neither replace a node nor are read. *)
Definition extends (f f' : fs) : Prop := manifests f' = manifests f ∧ ∀ path n, f !! path = Some n → f' !! path = Some n.

#[local] Instance extends_refl : Reflexive extends.
Proof. by split. Qed.

#[local] Instance extends_trans : Transitive extends.
Proof. intros f1 f2 f3 [A1 B1] [A2 B2]. split; [congruence|auto]. Qed.

Lemma extends_mkdir f path : extends f (mkdir f path).2.
Proof.
  unfold mkdir, lstat. destruct (f !! path) as [n|] eqn:E; cbn; [done|]. destruct (parent_ok f path); cbn; [|done].
  split; [by apply manifests_dir|]. intros p n Hp. rewrite lookup_insert_ne; [done|congruence].
Qed.

Lemma extends_mkdirAll f paths : extends f (mkdirAll_go f paths).2.
Proof.
  induction paths as [|path above IH]; cbn; [done|]. destruct (stat f path) as [[]|]; cbn; [done..|].
  destruct (mkdirAll_go f above) as [[] f1]; cbn in *; [|done]. etrans; [exact IH|apply extends_mkdir].
Qed.

Lemma extends_make_dirs dirs f : extends f (make_dirs configPath dirs f).2.
Proof.
  revert f. induction dirs as [|d dirs IH]; intros f; cbn; [done|].
  pose proof (extends_mkdirAll f (ancestors (Join [configPath; d]))) as H1. unfold MkdirAll.
  destruct (mkdirAll_go f _) as [[] f1]; cbn in *; [|done]. etrans; [exact H1|apply IH].
Qed.

(** ** Writing *)

Definition file_of (r : Resource) : option (string * node) :=
  path ← manifest_path configPath r; Some (path, File (Serialize [r])).

Lemma write_files_spec l f f' : write_files configPath l f = (None, f') →
  Forall (λ r, ∃ path, manifest_path configPath r = Some path ∧ is_manifest path (File (Serialize [r]))) l →
  NoDup (omap (manifest_path configPath) l) → (∀ path, path ∈ omap (manifest_path configPath) l → manifests f !! path = None) →
  manifests f' = list_to_map (omap file_of l) ∪ manifests f
  ∧ ∀ path, path ∉ omap (manifest_path configPath) l → f' !! path = f !! path.
Proof.
  revert f. induction l as [|r l IH]; intros f E Hl Hnd Hnew; cbn in *.
  { injection E as <-. by rewrite (left_id_L ∅ (∪)). }
  apply Forall_cons in Hl as [(path & Ep & Hm) Hl]. unfold file_of at 1. rewrite Ep in *. cbn in Hnd, Hnew |- *. lazy beta iota in E.
  apply NoDup_cons in Hnd as [Hni Hnd].
  destruct (WriteFile f path (Serialize [r])) as [[] f1] eqn:Ew; [|done].
  apply WriteFile_new in Ew as ->.
  2: { intros t Et. specialize (Hnew path ltac:(by left)). rewrite (manifests_lookup f path (Link t)) in Hnew; [done..|].
    destruct Hm as (? & ? & _). by repeat split. }
  destruct (IH _ E Hl Hnd) as [H1 H2].
  - intros p Hp. rewrite manifests_add by done. rewrite lookup_insert_ne by (by intros ->). apply Hnew. by right.
  - split.
    + rewrite H1, manifests_add by done. rewrite <- insert_union_l, insert_union_r; [done|].
      apply not_elem_of_list_to_map_1. intros ([p n] & Hp & Hin)%list_elem_of_fmap. cbn in Hp. subst p.
      apply list_elem_of_omap in Hin as (r' & Hr' & Hf). unfold file_of in Hf.
      destruct (manifest_path configPath r') as [p|] eqn:E'; [|done]. cbn in Hf. simplify_eq.
      apply Hni, list_elem_of_omap. eauto.
    + intros p [Hne Hp]%not_elem_of_cons. rewrite H2 by done. by rewrite lookup_insert_ne.
Qed.

(** ** Reading *)

Definition parse_node (n : node) : list Resource :=
  match n with File data => match ParseBytes data with inr rs => rs | inl _ => [] end | _ => [] end.

Definition parse_entry (kv : string * node) : list Resource :=
  if is_yaml kv.1 then parse_node kv.2 else [].

Lemma read_files_spec f l :
  (∀ path n, (path, n) ∈ l → f !! path = Some n ∧
    (n = Dir ∨ is_yaml path = false ∨ ∃ data rs, n = File data ∧ ParseBytes data = inr rs)) →
  read_files f l = inr (flat_map parse_entry l).
Proof.
  induction l as [|[path n] l IH]; intros Hl; cbn; [done|].
  rewrite IH by (intros; apply Hl; by right). unfold parse_entry. cbn.
  destruct (Hl path n ltac:(by left)) as [Hp [->|[->|(data & rs & -> & Er)]]]; cbn.
  - by destruct (is_yaml path).
  - by rewrite orb_true_r.
  - destruct (is_yaml path); cbn; [|done]. unfold read_file.
    by rewrite (stat_node f path _ Hp), Er.
Qed.

Lemma parse_below f : flat_map parse_entry (below configPath f) ≡ₚ flat_map parse_entry (map_to_list (manifests f)).
Proof.
  unfold below, manifests. rewrite merge_sort_Permutation, map_filter_alt, map_to_list_to_map.
  2: { eapply sublist_NoDup; [apply (NoDup_fst_map_to_list f)|]. apply fmap_sublist, sublist_filter. }
  induction (map_to_list f) as [|[path n] l IH]; [done|]. rewrite filter_cons. cbn [List.filter fst].
  destruct (Host.strip_prefix (configPath +:+ "/") path) eqn:Es; cbn.
  - destruct (decide (is_manifest path n)) as [|Hn]; cbn; [by rewrite IH|].
    assert (Ee : parse_entry (path, n) = []); [|by rewrite Ee].
    unfold parse_entry. cbn. destruct (is_yaml path) eqn:Ey; [|done].
    destruct n; [done| |]; destruct Hn; by repeat split.
  - rewrite decide_False; [done|]. cbn. intros ([? ?] & _). congruence.
Qed.


Lemma parse_files l : Forall fileable l → Forall carries l → flat_map parse_entry (omap file_of l) = l.
Proof.
  induction l as [|r l IH]; [done|]. intros [[[[d name] Hp] Hs] Hf]%Forall_cons_1 [Hc Hl]%Forall_cons_1. cbn. unfold file_of at 1. rewrite (manifest_path_place r d name) by done. cbn. rewrite IH by done.
  unfold parse_entry. cbn. rewrite Hc. assert (Ey : is_yaml (configPath +:+ "/" +:+ d +:+ "/" +:+ name +:+ ".yaml") = true).
  { unfold is_yaml. by rewrite !string_app_assoc, has_suffix_app. }
  by rewrite Ey.
Qed.

Lemma fileable_path r : fileable r → ∃ d name, place r = Some (d, name) ∧ has_slash d = false ∧ has_slash name = false
  ∧ manifest_path configPath r = Some (configPath +:+ "/" +:+ d +:+ "/" +:+ name +:+ ".yaml").
Proof.
  intros [[[d name] Hp] Hs]. exists d, name. pose proof Hp as Hp'. unfold place in Hp'.
  destruct (kindDirs !! _) as [d'|] eqn:Ed; [|done]. cbn in Hp'. simplify_eq. apply kindDirs_plain in Ed as [? _].
  split_and!; [done..|]. by apply manifest_path_place.
Qed.

Lemma fileable_manifest r : fileable r →
  ∃ path, manifest_path configPath r = Some path ∧ is_manifest path (File (Serialize [r])).
Proof.
  intros (d & name & _ & _ & _ & Hp)%fileable_path. eexists. split; [exact Hp|]. split_and!; [|by unfold is_yaml; rewrite !string_app_assoc, has_suffix_app|done].
  rewrite (string_app_assoc configPath), strip_prefix_app. by eexists.
Qed.

Lemma paths_NoDup l : Forall fileable l → NoDup (map place l) → NoDup (omap (manifest_path configPath) l).
Proof.
  induction l as [|r l IH]; intros Hf Hnd; [constructor|]. apply Forall_cons in Hf as [Hr Hf].
  cbn in Hnd |- *. apply NoDup_cons in Hnd as [Hni Hnd].
  destruct (fileable_path r Hr) as (d & name & Ep & Hd & Hn & ->). cbn. apply NoDup_cons. split; [|by apply IH].
  intros (r' & Hin & Hr')%list_elem_of_omap.
  destruct (fileable_path r') as (d' & name' & Ep' & Hd' & Hn' & E'); [by eapply (proj1 (Forall_forall _ _) Hf)|].
  rewrite E' in Hr'. injection Hr' as Hr'. apply path_inj in Hr' as [-> ->]; [|done..].
  apply Hni. rewrite Ep, <- Ep'. apply list_elem_of_fmap. eauto.
Qed.

Lemma write_files_paths l f f' : write_files configPath l f = (None, f') → Forall fileable l → NoDup (map place l) →
  manifests f = ∅ → manifests f' = list_to_map (omap file_of l) ∧ (f !! configPath = Some Dir → f' !! configPath = Some Dir).
Proof.
  intros E Hf Hnd Hm. destruct (write_files_spec l f f' E) as [H1 H2].
  - eapply Forall_impl; [exact Hf|]. exact fileable_manifest.
  - by apply paths_NoDup.
  - intros path _. by rewrite Hm, lookup_empty.
  - rewrite Hm, (right_id_L ∅ (∪)) in H1. split; [done|]. intros Hd. rewrite H2; [done|].
    intros (r & Hin & Hr)%list_elem_of_omap.
    destruct (fileable_manifest r) as (path & Hp & [s Hs] & _); [by eapply (proj1 (Forall_forall _ _) Hf)|].
    rewrite Hp in Hr. injection Hr as ->. apply strip_prefix_Some, (f_equal str_len) in Hs.
    rewrite <- !length_chars, !chars_app, !length_app in Hs. cbn in Hs. lia.
Qed.

(** Writing and reading, in the words of [files_roundtrip]. *)
Lemma read_written l f f' : f !! configPath = Some Dir → manifests f = ∅ →
  Forall fileable l → NoDup (map place l) → Forall carries l →
  writeManifestFiles o l configPath f = (None, f') →
  ∃ l', readManifestFiles configPath f' = inr l' ∧ l' ≡ₚ l.
Proof.
  intros Hd Hm Hf Hnd Hc. unfold writeManifestFiles. pose proof (extends_make_dirs (o _ kindDirs).*2 f) as [He1 He2].
  destruct (make_dirs configPath (o _ kindDirs).*2 f) as [[e|] f1]; [done|]. cbn in He1, He2. intros E.
  destruct (write_files_paths l f1 f' E Hf Hnd) as [Hm' Hd']; [by rewrite He1|].
  unfold readManifestFiles, lstat. rewrite Hd' by auto.
  assert (Hfile : ∀ path n, f' !! path = Some n → is_manifest path n → ∃ r, r ∈ l ∧ file_of r = Some (path, n)).
  { intros path n Hp Hi. pose proof (manifests_lookup _ _ _ Hp Hi) as Hl. rewrite Hm' in Hl.
    apply elem_of_list_to_map_2, list_elem_of_omap in Hl as (r & Hr & Hfr). eauto. }
  eexists. split.
  - apply read_files_spec. intros path n Hin. unfold below in Hin. rewrite merge_sort_Permutation in Hin.
    apply list_elem_of_In, filter_In in Hin as [Hin%list_elem_of_In%elem_of_map_to_list Hs]. cbn in Hs.
    split; [done|]. destruct (decide (n = Dir)) as [|Hn]; [by left|right]. destruct (is_yaml path) eqn:Ey; [right|by left].
    destruct (Hfile path n Hin) as (r & Hr & Hfr).
    + repeat split; [|done..]. by destruct (Host.strip_prefix _ path).
    + unfold file_of in Hfr. destruct (manifest_path configPath r); [|done]. cbn in Hfr. injection Hfr as <- <-.
      do 2 eexists. split; [done|]. by apply (proj1 (Forall_forall _ _) Hc).
  - rewrite parse_below, Hm', map_to_list_to_map; [by rewrite parse_files|].
    assert (Hk : (omap file_of l).*1 = omap (manifest_path configPath) l).
    { clear. induction l as [|r l IH]; [done|]. cbn. unfold file_of at 1. destruct (manifest_path configPath r); cbn; by rewrite IH. }
    rewrite Hk. by apply paths_NoDup.
Qed.

(** What is written to the clone is read back. Into a directory without manifests, the
    resources are written to one file each; if that succeeds, reading the directory gives
    exactly the resources again, each once and in some order, when no two of them share
    directory and name and their names have no slash. *)
Theorem files_roundtrip l f f' : f !! configPath = Some Dir → manifests f = ∅ →
  Forall fileable l → NoDup (map place l) → Forall carries l →
  writeManifestFiles o l configPath f = (None, f') →
  ∃ l', readManifestFiles configPath f' = inr l' ∧ l' ≡ₚ l.
Proof. apply read_written. Qed.

(** ** Without assumptions on the names *)

Lemma make_dirs_no_links dirs f : no_new_links f (make_dirs configPath dirs f).2.
Proof.
  revert f. induction dirs as [|d dirs IH]; intros f; cbn; [by intros p t|].
  pose proof (mkdirAll_no_links f (ancestors (Join [configPath; d]))) as H1. unfold MkdirAll.
  destruct (mkdirAll_go f _) as [[] f1]; cbn in *; [|done]. etrans; [exact H1|apply IH].
Qed.

Lemma write_files_no_links l f : no_new_links f (write_files configPath l f).2.
Proof.
  revert f. induction l as [|r l IH]; intros f; cbn; [by intros ? ?|]. destruct (manifest_path configPath r) as [path|]; [|done].
  pose proof (WriteFile_no_links f path (Serialize [r])) as H1.
  destruct (WriteFile f path (Serialize [r])) as [[] f1]; cbn in *; [|done]. etrans; [exact H1|apply IH].
Qed.

Lemma write_files_app l1 l2 f f' : write_files configPath (l1 ++ l2) f = (None, f') →
  ∃ f1, write_files configPath l1 f = (None, f1) ∧ write_files configPath l2 f1 = (None, f').
Proof.
  revert f. induction l1 as [|r l1 IH]; intros f E; cbn in *; [by eexists|].
  destruct (manifest_path configPath r) as [path|]; [|by apply IH].
  destruct (WriteFile f path (Serialize [r])) as [[] f1]; [by apply IH|done].
Qed.

(** The resource written last is in its file. *)
Lemma written_last l r path f f' : writeManifestFiles o (l ++ [r]) configPath f = (None, f') →
  manifest_path configPath r = Some path → (∀ t, f !! path ≠ Some (Link t)) → f' !! path = Some (File (Serialize [r])).
Proof.
  unfold writeManifestFiles. intros E Hp Hl. pose proof (make_dirs_no_links (o _ kindDirs).*2 f) as H1.
  destruct (make_dirs configPath (o _ kindDirs).*2 f) as [[e|] f1]; [done|]. cbn in H1.
  apply write_files_app in E as (f2 & E2 & E). pose proof (write_files_no_links l f1) as H2. rewrite E2 in H2. cbn in H2, E.
  rewrite Hp in E. lazy beta iota in E. destruct (WriteFile f2 path (Serialize [r])) as [[] f3] eqn:Ew; [|done].
  injection E as <-. apply WriteFile_new in Ew as ->; [apply lookup_insert_eq|].
  intros t Ht. exact (Hl t (H1 _ _ (H2 _ _ Ht))).
Qed.

(** What no resource is written to stays. *)
Lemma unwritten_stays l path n f f' : writeManifestFiles o l configPath f = (None, f') →
  (∀ r p t, r ∈ l → manifest_path configPath r = Some p → f !! p ≠ Some (Link t)) →
  path ∉ omap (manifest_path configPath) l → f !! path = Some n → f' !! path = Some n.
Proof.
  unfold writeManifestFiles. intros E Hl Hni Hn. pose proof (make_dirs_no_links (o _ kindDirs).*2 f) as H1.
  pose proof (extends_make_dirs (o _ kindDirs).*2 f) as [_ H2].
  destruct (make_dirs configPath (o _ kindDirs).*2 f) as [[e|] f1]; [done|]. cbn in H1, H2. apply H2 in Hn. clear H2.
  assert (Hl1 : ∀ r p t, r ∈ l → manifest_path configPath r = Some p → f1 !! p ≠ Some (Link t)).
  { intros r p t Hr Hp Ht. by eapply Hl; [..|apply H1]. }
  clear H1 Hl f. revert f1 E Hl1 Hn. induction l as [|r l IH]; intros f E Hl Hn; cbn in E; [by injection E as <-|].
  cbn in Hni. destruct (manifest_path configPath r) as [p|] eqn:Ep; [|by eapply IH; [..|intros; eapply Hl; [by right|]|]].
  destruct (WriteFile f p (Serialize [r])) as [[] f2] eqn:Ew; [|done]. cbn in Hni. apply not_elem_of_cons in Hni as [Hne Hni].
  pose proof (WriteFile_no_links f p (Serialize [r])) as H3. rewrite Ew in H3. cbn in H3.
  eapply IH; [exact Hni|exact E| |].
  - intros r' p' t Hr' Hp' Ht. by eapply Hl; [right| |apply H3].
  - apply WriteFile_new in Ew as ->; [by rewrite lookup_insert_ne|]. intros t. by eapply Hl; [left|].
Qed.

(** What a file holds is read. *)
Lemma read_holds f path data rs0 rs : readManifestFiles configPath f = inr rs → f !! configPath = Some Dir →
  f !! path = Some (File data) → is_Some (Host.strip_prefix (configPath +:+ "/") path) → is_yaml path = true →
  ParseBytes data = inr rs0 → rs0 ⊆ rs.
Proof.
  unfold readManifestFiles, lstat. intros E Hd Hp Hs Hy Hr. rewrite Hd in E.
  assert (Hin : (path, File data) ∈ below configPath f).
  { unfold below. rewrite merge_sort_Permutation. apply list_elem_of_In, filter_In. split; [by apply list_elem_of_In, elem_of_map_to_list|].
    cbn. by destruct Hs as [? ->]. }
  revert rs E. induction (below configPath f) as [|[p n] l IH]; [by apply elem_of_nil in Hin|]. intros rs E. cbn in E.
  apply elem_of_cons in Hin as [[= <- <-]|Hin].
  - rewrite Hy in E. cbn in E. unfold read_file in E. rewrite (stat_node f path _ Hp), Hr in E by done.
    destruct (read_files f l) as [|rest]; [done|]. injection E as <-. set_solver.
  - destruct (_ || _); [by apply IH|]. destruct (read_file f p) as [d|]; [|done]. destruct (ParseBytes d) as [|rs1]; [done|].
    destruct (read_files f l) as [|rest]; [done|]. injection E as <-. specialize (IH Hin rest eq_refl). set_solver.
Qed.

End Files.
