(* ===== verification/GitopsSync.v ===== *)
(** GitOps as a whole: what one machine writes to git configures another, what the loop that
    watches the buckets skips and what it commits, and what never reaches git or comes back
    from it. *)

From S2P Require Export ManifestRoundtrip GitopsFiles.

#[local] Open Scope Z_scope.

(** ** What an export holds *)

Section Exports.
Context {P : Type} `{Peers P} `{UnicodeTables}.
Variable o : ranging.
Variable now : Z.
Implicit Types s : Site P.

(** A module's answer is one resource, or none. *)
Definition from_peers (kind : string) (l : list Resource) : Prop :=
  l = [] ∨ ∃ sp, kind_of sp = kind ∧ l = [mkResource (NewHeader kind "default") sp].

Lemma from_peers_in kind l r : from_peers kind l → r ∈ l → kind_of (spec r) = kind ∧ header r = NewHeader kind "default".
Proof. intros [->|(sp & Hsp & ->)]; [by intros ?%elem_of_nil|]. by intros ->%list_elem_of_singleton. Qed.

Lemma Export_all s : ∃ nft net, from_peers KindNftables nft ∧ from_peers KindNetwork net
  ∧ (Export o [] s).1 = RedactSecrets (exportGateways o (kv s) ++ exportServices o (kv s) ++ exportModuleConfigs o (kv s)
      ++ nft ++ exportPlcs o (kv s) ++ net).
Proof.
  unfold Export. cbn -[RedactSecrets exportGateways exportServices exportModuleConfigs exportPlcs isServiceRunning].
  set (n1 := if isServiceRunning o (kv s) "nftables" then exportNftables s else ([], s)).
  assert (H1 : from_peers KindNftables n1.1 ∧ kv n1.2 = kv s).
  { unfold n1, exportNftables. destruct (isServiceRunning o (kv s) "nftables"); [|by split; [left|]].
    destruct (nft_get (peers s)) as [[|[]] p]; cbn; (split; [|done]); [by left..|right; by eexists (NftablesResource _)]. }
  destruct n1 as [nft s1]. cbn in H1. destruct H1 as [Hn E1].
  set (n2 := if isServiceRunning o (kv s1) "network" then exportNetwork s1 else ([], s1)).
  assert (H2 : from_peers KindNetwork n2.1 ∧ kv n2.2 = kv s1).
  { unfold n2, exportNetwork. destruct (isServiceRunning o (kv s1) "network"); [|by split; [left|]].
    destruct (net_get (peers s1)) as [[|[]] p]; cbn; (split; [|done]); [by left..|right; by eexists (NetworkResource _)]. }
  destruct n2 as [net s2]. cbn in H2. destruct H2 as [Hm E2]. rewrite E2, E1. by exists nft, net.
Qed.

Lemma redacted_in l r : r ∈ RedactSecrets l ↔ ∃ r0, r0 ∈ l ∧ r = mkResource (header r0) (redact_spec (spec r0)).
Proof.
  unfold RedactSecrets. rewrite list_elem_of_fmap. naive_solver.
Qed.

Lemma kind_of_redact sp : kind_of (redact_spec sp) = kind_of sp.
Proof. by destruct sp. Qed.

Lemma gateway_kind k r : r ∈ exportGateways o k → kind_of (spec r) = KindGateway.
Proof. intros ([name [c|]] & _ & E)%list_elem_of_omap; [|done]. cbn in E. by simplify_eq. Qed.
Lemma service_kind k r : r ∈ exportServices o k → kind_of (spec r) = KindService.
Proof. intros ([name [c|]] & _ & E)%list_elem_of_omap; [|done]. cbn in E. by simplify_eq. Qed.
Lemma config_kind k r : r ∈ exportModuleConfigs o k → kind_of (spec r) = KindModuleConfig.
Proof. by intros (name & -> & _)%list_elem_of_fmap. Qed.
Lemma plc_kind k r : r ∈ exportPlcs o k → kind_of (spec r) = KindPlc.
Proof. intros ([name [c|]] & _ & E)%list_elem_of_omap; [|done]. cbn in E. by simplify_eq. Qed.

(** The part of an export that a resource's kind tells. *)
Lemma export_cases s r : r ∈ (Export o [] s).1 → ∃ r0, r = mkResource (header r0) (redact_spec (spec r0))
  ∧ match spec r with
    | ServiceResource _ => r0 ∈ exportServices o (kv s)
    | ModuleConfigResource _ => r0 ∈ exportModuleConfigs o (kv s)
    | _ => True
    end.
Proof.
  destruct (Export_all s) as (nft & net & Hn & Hm & ->). intros (r0 & Hin & ->)%redacted_in. exists r0. split; [done|].
  cbn. rewrite !elem_of_app in Hin. pose proof (kind_of_redact (spec r0)) as Hk.
  destruct Hin as [Hi|[Hi|[Hi|[Hi|[Hi|Hi]]]]].
  - apply gateway_kind in Hi. rewrite Hi in Hk. by destruct (redact_spec (spec r0)).
  - pose proof (service_kind _ _ Hi) as E. rewrite E in Hk. by destruct (redact_spec (spec r0)).
  - pose proof (config_kind _ _ Hi) as E. rewrite E in Hk. by destruct (redact_spec (spec r0)).
  - apply (from_peers_in _ _ _ Hn) in Hi as [Hi _]. rewrite Hi in Hk. by destruct (redact_spec (spec r0)).
  - apply plc_kind in Hi. rewrite Hi in Hk. by destruct (redact_spec (spec r0)).
  - apply (from_peers_in _ _ _ Hm) in Hi as [Hi _]. rewrite Hi in Hk. by destruct (redact_spec (spec r0)).
Qed.

(** The services of an export are the desired ones. *)
Lemma export_service s r sp : r ∈ (Export o [] s).1 → spec r = ServiceResource sp →
  ∃ d, kvDesired (kv s) !! rName r = Some (Some d) ∧ spVersion sp = dsVersion d ∧ spRunning sp = dsRunning d.
Proof.
  intros (r0 & -> & Hin)%export_cases Es. cbn in Es, Hin |- *. rewrite Es in Hin.
  apply list_elem_of_omap in Hin as ([name [d|]] & Hin%range_lookup & E); [|done]. cbn in E. simplify_eq. cbn in *.
  simplify_eq. eauto.
Qed.

Lemma export_service_in s name d : kvDesired (kv s) !! name = Some (Some d) →
  ∃ r sp, r ∈ (Export o [] s).1 ∧ spec r = ServiceResource sp ∧ rName r = name.
Proof.
  intros Hd. destruct (Export_all s) as (nft & net & _ & _ & ->).
  eexists (mkResource (NewHeader KindService name) (ServiceResource (mkServiceSpec (dsVersion d) (dsRunning d) (seEnabled <$> mjoin (kvEnabled (kv s) !! name))))), _.
  split; [|by split]. apply redacted_in. eexists. split; [|by instantiate (1 := mkResource _ (ServiceResource _))].
  rewrite !elem_of_app. right. left. apply list_elem_of_omap. exists (name, Some d). split; [by apply range_lookup|done].
Qed.

(** *** The files of an export *)

(** Resources of one kind, each with a name of its own. *)
Definition exports_as (kind : string) (l : list Resource) : Prop :=
  Forall (λ r, header r = NewHeader kind (rName r)) l ∧ NoDup (rName <$> l).

Lemma exports_as_omap {A} kind (f : string * A → option Resource) l : NoDup l.*1 →
  (∀ x r, f x = Some r → header r = NewHeader kind x.1) → exports_as kind (omap f l).
Proof.
  intros Hnd Hf. split.
  - apply Forall_forall. intros r (x & _ & E)%list_elem_of_omap. unfold rName. by rewrite (Hf x r E).
  - induction l as [|x l IH]; cbn in *; [constructor|]. apply NoDup_cons in Hnd as [Hx Hnd].
    destruct (f x) as [r|] eqn:E; [|by apply IH]. cbn. apply NoDup_cons. split; [|by apply IH].
    intros (r' & En & (y & Hy & Ey)%list_elem_of_omap)%list_elem_of_fmap. unfold rName in En.
    rewrite (Hf _ _ E), (Hf _ _ Ey) in En. cbn in En. rewrite En in Hx. apply Hx. by apply list_elem_of_fmap_2.
Qed.

Lemma exports_as_peers kind l : from_peers kind l → exports_as kind l.
Proof. intros [->|(sp & _ & ->)]; split; cbn; repeat constructor; set_solver. Qed.

Lemma exports_as_config k : exports_as KindModuleConfig (exportModuleConfigs o k).
Proof.
  unfold exportModuleConfigs. set (m := fold_left group_config _ _). split.
  - apply Forall_forall. by intros r (name & -> & _)%list_elem_of_fmap.
  - rewrite <- list_fmap_compose. change (rName ∘ _) with (@id string). rewrite list_fmap_id.
    unfold sortedMapKeys. rewrite merge_sort_Permutation. apply range_NoDup.
Qed.

Lemma exported_parts k : exports_as KindGateway (exportGateways o k) ∧ exports_as KindService (exportServices o k)
  ∧ exports_as KindModuleConfig (exportModuleConfigs o k) ∧ exports_as KindPlc (exportPlcs o k).
Proof.
  split_and!; [|..|apply exports_as_config|]; apply exports_as_omap; try apply range_NoDup;
    intros [name [c|]] r E; cbn in E; by simplify_eq.
Qed.

Lemma exports_in kind l r : exports_as kind l → r ∈ l → header r = NewHeader kind (rName r).
Proof. intros [Hl _] Hr. by apply (proj1 (Forall_forall _ _) Hl). Qed.

Lemma places_app kind d l k : exports_as kind l → kindDirs !! kind = Some d →
  Forall (λ r, kindDirs !! rhKind (header r) ≠ Some d) k → NoDup (place <$> k) → NoDup (place <$> l ++ k).
Proof.
  intros [Hl Hnd] Hd Hk Hndk. rewrite fmap_app. apply NoDup_app. rewrite Forall_forall in Hl, Hk.
  assert (Hp : ∀ r, r ∈ l → place r = Some (d, rName r)).
  { intros r Hr. unfold place. assert (Ek : rhKind (header r) = kind) by by rewrite (Hl r Hr). rewrite Ek, Hd. done. }
  split_and!; [|intros x (r & -> & Hr)%list_elem_of_fmap (r' & E & Hr')%list_elem_of_fmap|done].
  - clear Hl Hk. induction l as [|r l IH]; cbn in *; [constructor|]. apply NoDup_cons in Hnd as [Hr Hnd]. apply NoDup_cons.
    split; [|apply IH; [done|]; intros r' Hr'; apply Hp; by right].
    intros (r' & E & Hr')%list_elem_of_fmap. rewrite !Hp in E by (by left || by right). injection E as E.
    apply Hr. rewrite E. by apply list_elem_of_fmap_2.
  - rewrite Hp in E by done. specialize (Hk r' Hr'). unfold place in E.
    destruct (kindDirs !! rhKind (header r')) as [d'|]; cbn in E; [|done]. injection E as <- _. by apply Hk.
Qed.

Lemma other_dir kind d l : exports_as kind l → kindDirs !! kind ≠ Some d → Forall (λ r, kindDirs !! rhKind (header r) ≠ Some d) l.
Proof. intros [Hl _] Hd. eapply Forall_impl; [exact Hl|]. intros r Hr. cbn beta in Hr. by rewrite Hr. Qed.

(** Firewall rules and the configuration of the network, both named [default], have one file. *)
Definition one_default (l : list Resource) : Prop :=
  ∀ r r', r ∈ l → r' ∈ l → rhKind (header r) = KindNftables → rhKind (header r') ≠ KindNetwork.

Lemma place_redacted l : place <$> RedactSecrets l = place <$> l.
Proof. unfold RedactSecrets. induction l as [|r l IH]; [done|]. cbn in *. by rewrite IH. Qed.

Lemma export_places s : one_default (Export o [] s).1 → NoDup (place <$> (Export o [] s).1).
Proof.
  destruct (Export_all s) as (nft & net & Hn & Hm & ->). destruct (exported_parts (kv s)) as (Pg & Ps & Pc & Pp).
  intros Hone. rewrite place_redacted. pose proof (exports_as_peers _ _ Hn) as Pn. pose proof (exports_as_peers _ _ Hm) as Pm.
  assert (nft = [] ∨ net = []) as Hor.
  { destruct Hn as [|(sp & _ & ->)]; [by left|]. destruct Hm as [|(sp' & _ & ->)]; [by right|]. exfalso.
    apply (Hone (mkResource (NewHeader KindNftables "default") (redact_spec sp)) (mkResource (NewHeader KindNetwork "default") (redact_spec sp'))); [| |done|done]; apply redacted_in.
    - exists (mkResource (NewHeader KindNftables "default") sp). split; [|done]. rewrite !elem_of_app. do 3 right. left. by left.
    - exists (mkResource (NewHeader KindNetwork "default") sp'). split; [|done]. rewrite !elem_of_app. do 5 right. by left. }
  assert (Hlast : NoDup (place <$> nft ++ exportPlcs o (kv s) ++ net)).
  { assert (Hs : ∀ kind l, from_peers kind l → NoDup (place <$> l)) by (intros kind l [->|(sp & _ & ->)]; cbn; repeat constructor; set_solver).
    destruct Hor as [->| ->]; [|rewrite app_nil_r; eapply places_app; [exact Pn|done| |]].
    - cbn [app]. eapply places_app; [exact Pp|done|by eapply other_dir|by eapply Hs].
    - by eapply other_dir.
    - rewrite <- (app_nil_r (exportPlcs _ _)). by eapply places_app; [exact Pp|done|constructor|constructor]. }
  eapply places_app; [exact Pg|done| |]; [rewrite !Forall_app; split_and!; by eapply other_dir|].
  eapply places_app; [exact Ps|done| |]; [rewrite !Forall_app; split_and!; by eapply other_dir|].
  eapply places_app; [exact Pc|done| |done]. rewrite !Forall_app; split_and!; by eapply other_dir.
Qed.

Lemma export_headers s r : r ∈ (Export o [] s).1 →
  rhAPIVersion (header r) = APIVersion ∧ KnownKind (rhKind (header r)) = true ∧ is_Some (place r).
Proof.
  destruct (Export_all s) as (nft & net & Hn & Hm & ->). destruct (exported_parts (kv s)) as (Pg & Ps & Pc & Pp).
  pose proof (exports_as_peers _ _ Hn) as Pn. pose proof (exports_as_peers _ _ Hm) as Pm. intros (r0 & Hin & ->)%redacted_in. unfold place. cbn [header].
  assert (∃ kind, header r0 = NewHeader kind (rName r0) ∧ kind ∈ AllKinds) as (kind & -> & Hk).
  { rewrite !elem_of_app in Hin. destruct Hin as [Hi|[Hi|[Hi|[Hi|[Hi|Hi]]]]];
      [exists KindGateway|exists KindService|exists KindModuleConfig|exists KindNftables|exists KindPlc|exists KindNetwork];
      (split; [eapply exports_in; [|exact Hi]; done|]); apply (bool_decide_unpack _); by vm_compute. }
  split; [done|]. cbn. unfold AllKinds in Hk. set_unfold in Hk. destruct_or! Hk; subst kind; (split; [reflexivity|by eexists]).
Qed.

(** ** What [Apply] leaves of the desired services *)

Lemma apply_values_desired name src l sk k :
  kvDesired (fold_left (apply_value now name src) l (sk, k)).2 = kvDesired k.
Proof.
  revert sk k. induction l as [|[e v] l IH]; intros sk k; [done|]. cbn [fold_left]. unfold apply_value at 2. cbn.
  case_if; by rewrite IH.
Qed.

Lemma apply_programs_desired src l k : kvDesired (fold_left (apply_program now src) l k) = kvDesired k.
Proof. revert k. induction l as [|np l IH]; intros k; [done|]. cbn [fold_left]. by rewrite IH. Qed.

Definition service_of (r : Resource) : option (string * ServiceSpec) :=
  match spec r with ServiceResource sp => Some (rName r, sp) | _ => None end.

Lemma apply_one_desired src r s e sk s' : apply_one o now src r s = (e, sk, s') →
  kvDesired (kv s') = match service_of r with
    | Some (name, sp) => <[name := Some (mkDesired name (spVersion sp) (spRunning sp) now)]> (kvDesired (kv s))
    | None => kvDesired (kv s)
    end.
Proof.
  unfold apply_one, applyNftables, applyNetwork, service_of. destruct (spec r) as [sp|sp|v|rules|l|sp]; intros E.
  - by injection E as <- <- <-.
  - injection E as <- <- <-. cbn. unfold applyService. by destruct (spEnabled sp).
  - unfold applyModuleConfig in E. destruct (fold_left _ _ ([], kv s)) as [sk' k'] eqn:Ef. injection E as <- <- <-. cbn.
    change k' with (sk', k').2. rewrite <- Ef. apply apply_values_desired.
  - destruct (nft_apply rules (peers s)). by injection E as <- <- <-.
  - destruct (net_apply l (peers s)). by injection E as <- <- <-.
  - injection E as <- <- <-. cbn. unfold applyPlc. rewrite apply_programs_desired. done.
Qed.

(** A service on which all its resources agree. *)
Lemma apply_all_desired src name sp l res s res' s' : apply_all o now src l res s = (res', None, s') →
  (∀ r sp', r ∈ l → service_of r = Some (name, sp') → spVersion sp' = spVersion sp ∧ spRunning sp' = spRunning sp) →
  let d := Some (Some (mkDesired name (spVersion sp) (spRunning sp) now)) in
  (∃ r sp', r ∈ l ∧ service_of r = Some (name, sp')) ∨ kvDesired (kv s) !! name = d →
  kvDesired (kv s') !! name = d.
Proof.
  revert res s. induction l as [|r l IH]; intros res s E Hl d Hd; cbn in E.
  { injection E as <- <-. by destruct Hd as [(? & ? & Hin%elem_of_nil & _)|]. }
  destruct (apply_one o now src r s) as [[[e|] sk] s1] eqn:Eo; [done|]. apply apply_one_desired in Eo.
  eapply IH; [exact E|by intros r0 sp0 Hr0; apply Hl; right|]. destruct (service_of r) as [[n sp']|] eqn:Er.
  - destruct (decide (n = name)) as [->|Hne].
    + right. rewrite Eo, lookup_insert_eq. destruct (Hl r sp' ltac:(by left) Er) as [-> ->]. done.
    + destruct Hd as [(r' & sp2 & [->|Hin]%elem_of_cons & Hr')|Hd]; [congruence|left; eauto|].
      right. by rewrite Eo, lookup_insert_ne.
  - destruct Hd as [(r' & sp2 & [->|Hin]%elem_of_cons & Hr')|Hd]; [congruence|left; eauto|]. right. by rewrite Eo.
Qed.

(** ** And of the configuration *)

Lemma group_config_complete l M m e v : NoDup l.*1 →
  (∃ key, (key, v) ∈ l ∧ split_key key = Some (m, e)) ∨
    (∃ values, M !! m = Some values ∧ values !! e = Some v) ∧ (∀ key, key ∈ l.*1 → split_key key ≠ Some (m, e)) →
  ∃ values, fold_left group_config l M !! m = Some values ∧ values !! e = Some v.
Proof.
  revert M. induction l as [|[key w] l IH]; intros M Hnd Hin.
  { by destruct Hin as [(? & Hin%elem_of_nil & _)|[Hin _]]. }
  cbn in Hnd. apply NoDup_cons in Hnd as [Hni Hnd]. cbn [fold_left]. apply IH; [done|].
  unfold group_config. cbn. destruct Hin as [(key' & [[= <- <-]|Hin]%elem_of_cons & Hs)|[(values & Hm & He) Hno]].
  - right. rewrite Hs. split; [eexists; split; [apply lookup_insert_eq|apply lookup_insert_eq]|].
    intros key2 Hin Hs'. apply split_key_Some in Hs as ->, Hs' as ->. done.
  - left. eauto.
  - right. split; [|intros; apply Hno; by right]. destruct (split_key key) as [[m' e']|] eqn:Ek; [|eauto].
    destruct (decide (m' = m)) as [->|]; [|rewrite lookup_insert_ne by done; eauto].
    eexists. split; [apply lookup_insert_eq|]. rewrite Hm. cbn. rewrite lookup_insert_ne; [done|].
    intros ->. eapply Hno; [by left|exact Ek].
Qed.

Lemma redact_values_plain m e v : isSecret e = false → m !! e = Some v → redact_values m !! e = Some v.
Proof. intros Hs Hm. unfold redact_values. rewrite map_lookup_imap, Hm. cbn -[isSecret]. by rewrite Hs, andb_false_r. Qed.

Lemma export_config_in s key m e v : kvConfig (kv s) !! key = Some v → split_key key = Some (m, e) → isSecret e = false →
  ∃ r values, r ∈ (Export o [] s).1 ∧ spec r = ModuleConfigResource (Some values) ∧ rName r = m ∧ values !! e = Some v.
Proof.
  intros Hv Hs He. destruct (Export_all s) as (nft & net & _ & _ & ->).
  destruct (group_config_complete (o _ (kvConfig (kv s))) ∅ m e v) as (values & Hm & Hve); [apply range_NoDup|left; by exists key; rewrite range_lookup|].
  exists (mkResource (NewHeader KindModuleConfig m) (ModuleConfigResource (Some (redact_values values)))), (redact_values values).
  split; [|split; [done|split; [done|by apply redact_values_plain]]].
  apply redacted_in. exists (mkResource (NewHeader KindModuleConfig m) (ModuleConfigResource (Some values))). split; [|done].
  rewrite !elem_of_app. do 2 right. left. unfold exportModuleConfigs. apply list_elem_of_fmap. exists m. split; [by rewrite Hm|].
  unfold sortedMapKeys. rewrite merge_sort_Permutation. apply list_elem_of_fmap. exists (m, values). split; [done|by apply range_lookup].
Qed.

Lemma export_config_values s r v : named (kv s) → r ∈ (Export o [] s).1 → spec r = ModuleConfigResource v →
  ∃ values, v = Some values ∧ ∀ e x, values !! e = Some x → x = SecretPlaceholder ∨ kvConfig (kv s) !! (rName r +:+ "." +:+ e) = Some x.
Proof.
  intros Hn (r0 & -> & Hin)%export_cases Es. cbn in Es, Hin. rewrite Es in Hin.
  assert (Hr : exported_config (kv s) (mkResource (header r0) (redact_spec (spec r0)))).
  { apply (proj1 (Forall_forall _ _) (exportModuleConfigs_spec o (kv s) Hn)). apply redacted_in. eauto. }
  destruct Hr as (_ & values & E & Hv). cbn in E. rewrite Es in E. injection E as ->. eauto.
Qed.

Lemma apply_values_config name src key v l sk k :
  (∀ e x, (e, x) ∈ l → name +:+ "." +:+ e = key → x = SecretPlaceholder ∨ x = v) →
  (∃ e, (e, v) ∈ l ∧ v ≠ SecretPlaceholder ∧ name +:+ "." +:+ e = key) ∨ kvConfig k !! key = Some v →
  kvConfig (fold_left (apply_value now name src) l (sk, k)).2 !! key = Some v.
Proof.
  revert sk k. induction l as [|[e x] l IH]; intros sk k Hl Hv.
  { destruct Hv as [(? & Hin%elem_of_nil & _)|]; done. }
  cbn [fold_left]. unfold apply_value at 2. cbn.
  destruct (String.eqb_spec x SecretPlaceholder) as [Ex|Ex]; cbn.
  - apply IH; [by intros e' x' Hin; apply Hl; right|].
    destruct Hv as [(e' & [[= E1 E2]|Hin]%elem_of_cons & Hne & Ek)|Hv]; [congruence|left; eauto|by right].
  - apply IH; [by intros e' x' Hin; apply Hl; right|]. cbn.
    destruct (decide (name +:+ "." +:+ e = key)) as [Ek|Ek].
    + right. cbn. rewrite Ek, lookup_insert_eq. by destruct (Hl e x ltac:(by left) Ek) as [| ->].
    + destruct Hv as [(e' & [[= E1 E2]|Hin]%elem_of_cons & Hne & Ek')|Hv]; [congruence|left; eauto|].
      right. cbn. by rewrite lookup_insert_ne.
Qed.

Lemma apply_programs_config src l k : kvConfig (fold_left (apply_program now src) l k) = kvConfig k.
Proof. revert k. induction l as [|np l IH]; intros k; [done|]. cbn [fold_left]. by rewrite IH. Qed.

Definition config_of (r : Resource) : option (gmap string string) :=
  match spec r with ModuleConfigResource v => v | _ => None end.

(** Every value that a resource has for [key] is [v] or a placeholder. *)
Definition agrees (key v : string) (r : Resource) : Prop := ∀ values e x, config_of r = Some values → values !! e = Some x →
  rName r +:+ "." +:+ e = key → x = SecretPlaceholder ∨ x = v.

Definition provides (key v : string) (r : Resource) : Prop := v ≠ SecretPlaceholder ∧ ∃ values e, config_of r = Some values ∧
  values !! e = Some v ∧ rName r +:+ "." +:+ e = key.

Lemma apply_one_config src key v r s e sk s' : apply_one o now src r s = (e, sk, s') → agrees key v r →
  provides key v r ∨ kvConfig (kv s) !! key = Some v → kvConfig (kv s') !! key = Some v.
Proof.
  unfold apply_one, applyNftables, applyNetwork, agrees, provides, config_of. destruct (spec r) as [sp|sp|w|rules|l|sp]; intros E Ha Hp.
  3: { unfold applyModuleConfig in E. destruct (fold_left _ _ ([], kv s)) as [sk' k'] eqn:Ef. injection E as <- <- <-. cbn.
    change k' with (sk', k').2. rewrite <- Ef. apply apply_values_config.
    - intros e' x Hin. destruct w as [w|]; [|by apply elem_of_nil in Hin]. apply range_lookup in Hin. by eapply Ha.
    - destruct Hp as [(Hne & values & e' & -> & Hx & Ek)|Hp]; [left|by right]. exists e'. by rewrite range_lookup. }
  all: destruct Hp as [(_ & ? & ? & ? & _)|Hp]; [done|].
  - by injection E as <- <- <-.
  - injection E as <- <- <-. cbn. unfold applyService. by destruct (spEnabled sp).
  - destruct (nft_apply rules (peers s)). by injection E as <- <- <-.
  - destruct (net_apply l (peers s)). by injection E as <- <- <-.
  - injection E as <- <- <-. cbn. unfold applyPlc. by rewrite apply_programs_config.
Qed.

Lemma apply_all_config src key v l res s res' s' : apply_all o now src l res s = (res', None, s') →
  Forall (agrees key v) l → Exists (provides key v) l ∨ kvConfig (kv s) !! key = Some v → kvConfig (kv s') !! key = Some v.
Proof.
  revert res s. induction l as [|r l IH]; intros res s E Ha Hp; cbn in E.
  { injection E as <- <-. by destruct Hp as [Hp%Exists_nil|]. }
  destruct (apply_one o now src r s) as [[[e|] sk] s1] eqn:Eo; [done|]. apply Forall_cons in Ha as [Hr Ha].
  eapply IH; [exact E|done|]. destruct Hp as [[Hp|Hp]%Exists_cons|Hp]; [right|by left|right].
  all: eapply apply_one_config; [exact Eo|done|auto].
Qed.

End Exports.

(** ** From one machine to another *)

Section Machines.
Context {P : Type} `{Peers P} `{ManifestCodec} `{UnicodeTables}.
Implicit Types s : Site P.

(** C14: A machine that reads what another one wrote to git is configured like it. The files
    that the export of [sA] writes to a directory without manifests can be read, and once the
    other machine has applied them without an error, it wants every service that [sA] wants,
    in the same version and running or not as there, and has every value of a module's
    configuration that [sA] has, unless its name marks it as a secret. yaml.v3 is assumed to
    read the tree it wrote ([yaml_reads]), and encoding/json to decode a resource from its own
    encoding, whatever the order of the fields ([encodable]). No name of a resource has a
    slash, no key of the configuration starts with a dot ([named]), the files could be
    written, and [sA] does not export both firewall rules and a network ([one_default]): these
    two share a file, and the rules are lost. *)
Theorem git_replicates `{!YamlReads} oA oB now configPath sA sB f f' : clean_path configPath → named (kv sA) →
  let l := (Export oA [] sA).1 in
  f !! configPath = Some Dir → manifests configPath f = ∅ → Forall (λ r, has_slash (rName r) = false) l → one_default l →
  Forall encodable l → writeManifestFiles oA l configPath f = (None, f') →
  ∃ rs, readManifestFiles configPath f' = inr rs ∧ ∀ res sB', Apply oB now rs "gitops" sB = (Some res, None, sB') →
    (∀ name d, kvDesired (kv sA) !! name = Some (Some d) →
      kvDesired (kv sB') !! name = Some (Some (mkDesired name (dsVersion d) (dsRunning d) now)))
    ∧ (∀ key v m e, kvConfig (kv sA) !! key = Some v → split_key key = Some (m, e) → isSecret e = false → v ≠ SecretPlaceholder →
      kvConfig (kv sB') !! key = Some v).
Proof.
  intros Hc Hn l Hd Hm Hs1 Hone Hen E. pose proof (export_places oA sA Hone) as Hnd. fold l in Hnd.
  assert (Hca : Forall carries l) by (rewrite Forall_forall in Hen |- *; intros r Hr; destruct (export_headers oA sA r Hr) as (? & ? & _); by apply serialized_is_read, Hen).
  assert (Hf : Forall fileable l) by (rewrite Forall_forall in Hs1 |- *; intros r Hr; split; [by apply (export_headers oA sA)|by apply Hs1]).
  clear Hs1 Hen. destruct (read_written oA configPath Hc l f f') as (rs & Hr & Hp); [done..|].
  exists rs. split; [done|]. intros res sB' Ha. unfold Apply in Ha. destruct (Validate oB rs); [|done].
  destruct (apply_all oB now "gitops" rs (mkResult [] []) sB) as [[res' e] s'] eqn:Ea. injection Ha as <- -> <-. split.
  - intros name d Hd'. apply (apply_all_desired oB now "gitops" name (mkServiceSpec (dsVersion d) (dsRunning d) None) rs _ _ _ _ Ea).
    + intros r sp' Hin Hs. rewrite Hp in Hin. unfold service_of in Hs. destruct (spec r) eqn:Es; try done. injection Hs as Hs <-.
      destruct (export_service oA sA r _ Hin Es) as (d' & Hd2 & E1 & E2). rewrite Hs, Hd' in Hd2. injection Hd2 as <-. done.
    + left. destruct (export_service_in oA sA name d Hd') as (r & sp & Hin & Es & <-).
      exists r, sp. unfold service_of. rewrite Es, Hp. done.
  - intros key v m e Hv Hs He Hne. apply (apply_all_config oB now "gitops" key v rs _ _ _ _ Ea).
    + apply Forall_forall. intros r Hin values e' x Hco Hx Ek. rewrite Hp in Hin. unfold config_of in Hco.
      destruct (spec r) as [| |w| | |] eqn:Es; try done. subst w.
      destruct (export_config_values oA sA r _ Hn Hin Es) as (values' & [= <-] & Hvs).
      destruct (Hvs e' x Hx) as [->|Hx']; [by left|right]. rewrite Ek, Hv in Hx'. by injection Hx'.
    + left. destruct (export_config_in oA sA key m e v Hv Hs He) as (r & values & Hin & Es & Em & Hx).
      apply Exists_exists. exists r. split; [by rewrite Hp|]. split; [done|]. exists values, e. unfold config_of. rewrite Es, Em.
      split_and!; [done..|]. symmetry. by apply split_key_Some.
Qed.

(** A gateway with a device whose protocol validation does not know makes the whole export invalid. *)
Lemma unknown_protocol_refused o now src s name c id d : kvGateway (kv s) !! name = Some (Some c) →
  cfDevices c !! id = Some d → validProtocol (dcProtocol d) = false → ∀ s', ∃ e, Apply o now (Export o [] s).1 src s' = (None, Some e, s').
Proof.
  intros Hc Hd Hp s'. unfold Apply. destruct (Validate o (Export o [] s).1) as [|e errors] eqn:Ev; [exfalso|by eexists].
  destruct (Export_all o s) as (nft & net & _ & _ & El). rewrite El in Ev. clear El.
  set (sp := mkGatewaySpec (cfDevices c) (cfVariables c) (cfUdtTemplates c) (cfUdtVariables c)).
  destruct (validate_from_nil o _ 0 Ev (mkResource (NewHeader KindGateway name) (redact_spec (GatewayResource sp)))) as [j Hj].
  - apply redacted_in. exists (mkResource (NewHeader KindGateway name) (GatewayResource sp)). split; [|done].
    rewrite elem_of_app. left. apply list_elem_of_omap. exists (name, Some c). split; [by apply range_lookup|done].
  - unfold validate_one in Hj. cbn [redact_spec spec] in Hj. unfold validateGateway in Hj.
    apply app_eq_nil in Hj as [_ [_ [_ H3]%app_eq_nil]%app_eq_nil].
    assert (Hin : (id, redact_device d) ∈ o _ (redact_device <$> cfDevices c)) by (apply range_lookup; by rewrite lookup_fmap, Hd).
    apply (flat_map_nil _ _ H3), protocol_errors_nil in Hin. cbn [snd redact_device dcProtocol] in Hin. congruence.
Qed.

(** A machine whose gateway has a device that the gateway manages itself cannot be
    restored from its own manifests. The protocol of such a device is the name of a module,
    like [network], which validation does not know: the whole export is refused, and nothing of it is
    applied. *)
Theorem own_manifests_are_refused o now src s name c id d : kvGateway (kv s) !! name = Some (Some c) →
  cfDevices c !! id = Some d → validProtocol (dcProtocol d) = false → ∀ s', ∃ e, Apply o now (Export o [] s).1 src s' = (None, Some e, s').
Proof. apply unknown_protocol_refused. Qed.

(** The firewall rules never reach git. The rules and the network configuration of a
    machine have one and the same file: after an export with both has been written, the file
    holds the network configuration. *)
Theorem firewall_rules_overwritten o configPath s f f' rules interfaces p1 p2 :
  isServiceRunning o (kv s) "nftables" = true → isServiceRunning o (kv s) "network" = true →
  nft_get (peers s) = (inr rules, p1) → net_get p1 = (inr interfaces, p2) → rules ≠ [] → interfaces ≠ [] →
  let firewall := mkResource (NewHeader KindNftables "default") (NftablesResource rules) in
  let network := mkResource (NewHeader KindNetwork "default") (NetworkResource interfaces) in
  let path := Join [configPath; "infrastructure"; "default.yaml"] in
  (∀ t, f !! path ≠ Some (Link t)) → writeManifestFiles o (Export o [] s).1 configPath f = (None, f') →
  firewall ∈ (Export o [] s).1 ∧ manifest_path configPath firewall = Some path ∧ f' !! path = Some (File (Serialize [network])).
Proof.
  intros Hn Hm Gn Gm Nn Nm firewall network path Hl.
  assert (El : ∃ l, (Export o [] s).1 = l ++ [network] ∧ firewall ∈ l).
  { unfold Export. cbn -[RedactSecrets exportGateways exportServices exportModuleConfigs exportPlcs isServiceRunning].
    rewrite Hn. unfold exportNftables. rewrite Gn. cbn -[RedactSecrets exportGateways exportServices exportModuleConfigs exportPlcs isServiceRunning].
    rewrite Hm. unfold exportNetwork. cbn [peers]. rewrite Gm. destruct rules, interfaces; try done.
    cbn -[RedactSecrets exportGateways exportServices exportModuleConfigs exportPlcs isServiceRunning].
    exists (RedactSecrets (exportGateways o (kv s) ++ exportServices o (kv s) ++ exportModuleConfigs o (kv s) ++ [firewall] ++ exportPlcs o (kv s))).
    split; [change [network] with (RedactSecrets [network]); unfold RedactSecrets; rewrite <- map_app, <- !app_assoc; reflexivity|].
    apply redacted_in. exists firewall. split; [|done]. rewrite !elem_of_app. do 3 right. left. by left. }
  destruct El as (l & -> & Hf). intros E. split_and!; [rewrite elem_of_app; by left|done|].
  by eapply written_last.
Qed.

(** ** Files of resources that are gone *)

Lemma export_place o s r : r ∈ (Export o [] s).1 → place r = Some ("services", rName r) → ∃ sp, spec r = ServiceResource sp.
Proof.
  destruct (Export_all o s) as (nft & net & Hn & Hm & ->). intros (r0 & Hin & ->)%redacted_in.
  rewrite !elem_of_app in Hin. unfold place. cbn. destruct Hin as [Hi|[Hi|[Hi|[Hi|[Hi|Hi]]]]].
  - by apply list_elem_of_omap in Hi as ([name [c|]] & _ & E); cbn in E; simplify_eq.
  - apply list_elem_of_omap in Hi as ([name [c|]] & _ & E); cbn in E; simplify_eq. cbn. eauto.
  - by apply list_elem_of_fmap in Hi as (name & -> & _).
  - by apply (from_peers_in _ _ _ Hn) in Hi as [_ ->].
  - by apply list_elem_of_omap in Hi as ([name [c|]] & _ & E); cbn in E; simplify_eq.
  - by apply (from_peers_in _ _ _ Hm) in Hi as [_ ->].
Qed.

Lemma apply_all_desires o now src l res s res' s' r name sp : apply_all o now src l res s = (res', None, s') →
  r ∈ l ∧ service_of r = Some (name, sp) ∨ (∃ d, kvDesired (kv s) !! name = Some (Some d)) → ∃ d, kvDesired (kv s') !! name = Some (Some d).
Proof.
  revert res s. induction l as [|r' l IH]; intros res s E Hd; cbn in E.
  { injection E as <- <-. by destruct Hd as [[Hin%elem_of_nil _]|]. }
  destruct (apply_one o now src r' s) as [[[e|] sk] s1] eqn:Eo; [done|]. apply apply_one_desired in Eo.
  eapply IH; [exact E|]. destruct Hd as [[[->|Hin]%elem_of_cons Hs]|[d Hd]]; [right|by left|right].
  - rewrite Eo, Hs, lookup_insert_eq. eauto.
  - rewrite Eo. destruct (service_of r') as [[n sp']|]; [|eauto]. destruct (decide (n = name)) as [->|];
      [rewrite lookup_insert_eq|rewrite lookup_insert_ne by done]; eauto.
Qed.

(** A deleted service comes back. Nothing removes a file: when a machine on which a
    service is no longer wanted writes its configuration over the files of before, the
    service's file is still there, and whoever reads the directory and applies it wants the
    service again. *)
Theorem deleted_service_returns o o' now configPath s s0 s' f f' r sp path data rs res : clean_path configPath →
  f !! configPath = Some Dir → fileable r → rhKind (header r) = KindService → spec r = ServiceResource sp →
  manifest_path configPath r = Some path → f !! path = Some (File data) → ParseBytes data = inr [r] →
  kvDesired (kv s) !! rName r = None → Forall fileable (Export o [] s).1 →
  (∀ r' p t, r' ∈ (Export o [] s).1 → manifest_path configPath r' = Some p → f !! p ≠ Some (Link t)) →
  writeManifestFiles o (Export o [] s).1 configPath f = (None, f') → readManifestFiles configPath f' = inr rs →
  Apply o' now rs "gitops" s0 = (Some res, None, s') → ∃ d, kvDesired (kv s') !! rName r = Some (Some d).
Proof.
  intros Hc Hd Hf Hk Es Hp Hdata Hparse Hno Hfl Hl E Hr Ha.
  assert (Hin : [r] ⊆ rs).
  { destruct (fileable_manifest configPath Hc r Hf) as (path' & Hp' & Hs & Hy & _). rewrite Hp in Hp'. injection Hp' as <-.
    eapply (read_holds configPath Hc); [exact Hr| | |exact Hs|exact Hy|exact Hparse].
    - eapply unwritten_stays; [exact E|exact Hl| |exact Hd]. intros (r' & Hr' & Hp')%list_elem_of_omap.
      destruct (fileable_manifest configPath Hc r') as (path' & E' & [rest Hs'] & _); [by eapply (proj1 (Forall_forall _ _) Hfl)|].
      rewrite Hp' in E'. injection E' as <-. apply strip_prefix_Some, (f_equal str_len) in Hs'.
      rewrite <- !length_chars, !chars_app, !length_app in Hs'. cbn in Hs'. lia.
    - eapply unwritten_stays; [exact E|exact Hl| |exact Hdata]. intros (r' & Hr' & Hp')%list_elem_of_omap.
      destruct (fileable_path configPath Hc r Hf) as (d & n & Pl & Hd1 & Hn1 & E1).
      destruct (fileable_path configPath Hc r') as (d' & n' & Pl' & Hd2 & Hn2 & E2); [by eapply (proj1 (Forall_forall _ _) Hfl)|].
      rewrite E1 in Hp. rewrite E2, <- Hp in Hp'. injection Hp' as Hp'. apply path_inj in Hp' as [-> ->]; [|done..].
      assert (Ep : place r = Some ("services", rName r)) by (unfold place; by rewrite Hk).
      rewrite Ep in Pl. injection Pl as <- <-.
      destruct (export_place o s r' Hr') as [sp' Es'].
      + unfold place in Pl' |- *. destruct (kindDirs !! _); [|done]. cbn in *. by injection Pl' as ->.
      + destruct (export_service o s r' sp' Hr' Es') as (d0 & Hd0 & _).
        assert (En : rName r' = rName r) by (unfold place in Pl'; destruct (kindDirs !! _); [|done]; cbn in Pl'; by injection Pl').
        rewrite En, Hno in Hd0. done. }
  unfold Apply in Ha. destruct (Validate o' rs); [|done].
  destruct (apply_all o' now "gitops" rs (mkResult [] []) s0) as [[res' e] s1] eqn:Ea. injection Ha as <- -> <-.
  eapply apply_all_desires; [exact Ea|left]. split; [apply (Hin r); by left|]. unfold service_of. by rewrite Es.
Qed.

End Machines.

(** ** The loop that watches the buckets *)

Section Loop.
Context {P Sys : Type} `{Peers P} `{System Sys} `{ManifestCodec} `{UnicodeTables}.
Implicit Types (s : Site P) (m : Machine P Sys).

Definition unchanged (k k' : KV) (c : kvChange) : Prop :=
  (ccBucket c = "gateway_config" → kvGateway k' !! ccKey c = kvGateway k !! ccKey c)
  ∧ (ccBucket c = "desired_services" → kvDesired k' !! ccKey c = kvDesired k !! ccKey c)
  ∧ (ccBucket c = "tentacle_config" → kvConfig k' !! ccKey c = kvConfig k !! ccKey c).

Definition meta_key (c : kvChange) : string := ccBucket c +:+ "." +:+ ccKey c.

(** What was changed is recorded, and no record but that of the writer is new. *)
Definition recorded (src : string * Z) (k k' : KV) : Prop :=
  (∀ c, unchanged k k' c ∨ kvMetadata k' !! meta_key c = Some src)
  ∧ ∀ mk, kvMetadata k' !! mk = kvMetadata k !! mk ∨ kvMetadata k' !! mk = Some src.

#[local] Instance recorded_refl src : Reflexive (recorded src).
Proof. intros k. split; [by left|auto]. Qed.

#[local] Instance recorded_trans src : Transitive (recorded src).
Proof.
  intros k1 k2 k3 [A1 B1] [A2 B2]. split.
  - intros c. destruct (A2 c) as [(U1 & U2 & U3)|]; [|by right]. destruct (A1 c) as [(V1 & V2 & V3)|E].
    + left. unfold unchanged. split_and!; intros Eb; [rewrite U1, V1|rewrite U2, V2|rewrite U3, V3]; done.
    + right. destruct (B2 (meta_key c)) as [->|]; done.
  - intros mk. destruct (B2 mk) as [->|]; auto.
Qed.

(** A write to a bucket with its record. *)
Lemma recorded_write now bucket key src k k' :
  kvMetadata k' = kvMetadata k →
  (∀ c, c = mkKvChange bucket key ∨ unchanged k k' c) →
  recorded (src, now) k (writeSourceMetadata now bucket key src k').
Proof.
  intros Em Hu. split.
  - intros c. destruct (Hu c) as [->|U]; [right|left; exact U]. cbn. apply lookup_insert_eq.
  - intros mk. cbn. rewrite Em. destruct (decide (bucket +:+ "." +:+ key = mk)) as [<-|];
      [right; apply lookup_insert_eq|left; by apply lookup_insert_ne].
Qed.

Ltac by_write := apply recorded_write; [done|]; let b := fresh in let k := fresh in intros [b k]; unfold unchanged; cbn;
  first [by right|
    match goal with |- context [mkKvChange ?b0 ?key0] => destruct (decide (b = b0 ∧ k = key0)) as [[-> ->]|Hne]; [by left|right];
      split_and!; intros ->; try done; rewrite lookup_insert_ne; [done|naive_solver] end].

Lemma recorded_gateway now name sp src k : recorded (src, now) k (applyGateway now name sp src k).
Proof. unfold applyGateway. by_write. Qed.

Lemma recorded_service now name sp src k : recorded (src, now) k (applyService now name sp src k).
Proof.
  unfold applyService. etrans; [|destruct (spEnabled sp); [|reflexivity]]; by_write.
Qed.

Lemma recorded_values now name src l sk k : recorded (src, now) k (fold_left (apply_value now name src) l (sk, k)).2.
Proof.
  revert sk k. induction l as [|[e v] l IH]; intros sk k; [done|]. cbn [fold_left]. unfold apply_value at 2. cbn.
  case_if; [apply IH|]. etrans; [|apply IH]. by_write.
Qed.

Lemma recorded_programs now src l k : recorded (src, now) k (fold_left (apply_program now src) l k).
Proof.
  revert k. induction l as [|np l IH]; intros k; [done|]. cbn [fold_left]. etrans; [|apply IH]. unfold apply_program. by_write.
Qed.

Lemma recorded_plc o now name sp src k : recorded (src, now) k (applyPlc o now name sp src k).
Proof. unfold applyPlc. etrans; [|apply recorded_programs]. by_write. Qed.

Lemma recorded_apply o now src l res s res' e s' : apply_all o now src l res s = (res', e, s') →
  recorded (src, now) (kv s) (kv s').
Proof.
  revert res s. induction l as [|r l IH]; intros res s E; cbn in E; [by injection E as <- <- <-|].
  destruct (apply_one o now src r s) as [[e1 sk] s1] eqn:Eo.
  assert (Hone : recorded (src, now) (kv s) (kv s1)).
  { unfold apply_one, applyNftables, applyNetwork in Eo. destruct (spec r) as [sp|sp|v|rules|ifs|sp].
    - injection Eo as <- <- <-. apply recorded_gateway.
    - injection Eo as <- <- <-. apply recorded_service.
    - unfold applyModuleConfig in Eo. pose proof (recorded_values now (rName r) src (match v with Some m => o _ m | None => [] end) [] (kv s)) as Hv.
      destruct (fold_left _ _ ([], kv s)) as [sk' k']. by injection Eo as <- <- <-.
    - destruct (nft_apply rules (peers s)). by injection Eo as <- <- <-.
    - destruct (net_apply ifs (peers s)). by injection Eo as <- <- <-.
    - injection Eo as <- <- <-. apply recorded_plc. }
  destruct e1; [by injection E as <- <- <-|]. etrans; [exact Hone|]. by eapply IH.
Qed.

(** C16: The loop skips what came from git, where the record of it is there in time. After
    [Apply] for git, completed or broken off by an error, a change of any key that it changed in
    a watched bucket leaves the loop as it was, when the loop looks at it within ten seconds and
    finds the record that [Apply] left. The loop looks at the record of the key and not at its
    value, so a change of the same key made locally in these ten seconds is skipped as well.
    This is about the loop's timer only: the record is written after the value, so that a loop
    that looks in between starts its timer, and a commit for another change exports everything
    that is there. *)
Theorem changes_from_git_are_skipped o now l s res e s' cfg c k t st :
  Apply o now l "gitops" s = (res, e, s') → ¬ unchanged (kv s) (kv s') c →
  kvMetadata k = kvMetadata (kv s') → t / 1000000 < now + 10000 → loop_change cfg k t c st = st.
Proof.
  unfold Apply. intros Ha Hu Hk Ht. assert (Hr : recorded ("gitops", now) (kv s) (kv s')).
  { destruct (Validate o l); [|by injection Ha as <- <- <-].
    destruct (apply_all o now "gitops" l (mkResult [] []) s) as [[res' e'] s1] eqn:Ea. injection Ha as <- <- <-. by eapply recorded_apply. }
  destruct Hr as [Hr _]. destruct (Hr c) as [|Hm]; [done|]. unfold loop_change, isGitOpsSource. rewrite Hk. fold (meta_key c). rewrite Hm.
  cbn -[Z.div]. assert (Hlt : (t / 1000000 - now <? 10000) = true) by (apply Z.ltb_lt; lia). by rewrite Hlt.
Qed.

(** What the loop can come to, whatever happens to the machine and the buckets meanwhile. *)
Inductive reachable (o : ranging) (repo : gitRepo) (cfg : gitopsConfig) : Z → list kvChange * loop * Machine P Sys → Prop :=
| RStart t m : reachable o repo cfg t ([], loop0, m)
| RWatch t changes st m c : reachable o repo cfg t (changes, st, m) → reachable o repo cfg t (enqueue c changes, st, m)
| RElse t t' changes st m m' : reachable o repo cfg t (changes, st, m) → t ≤ t' → reachable o repo cfg t' (changes, st, m')
| RStep t x x' m' : reachable o repo cfg t x → loop_step o repo cfg t x (Some x', m') → reachable o repo cfg t x'.

Lemma reachable_timer o repo cfg t x : reachable o repo cfg t x → lPending x.1.2 = true →
  ∃ d, lDeadline x.1.2 = Some d ∧ d ≤ t + Z.max 0 (debounce cfg).
Proof.
  induction 1 as [t m|t changes st m c _ IH|t t' changes st m m' _ IH Ht|t x x' m' _ IH Hs]; cbn in *; [done|done| |].
  - intros Hp. destruct (IH Hp) as (d & ? & ?). exists d. split; [done|lia].
  - inversion Hs; subst; cbn in *; [|done]. unfold loop_change. case_if; [done|]. cbn. intros _. eexists. split; [done|lia].
Qed.

(** A change that waits is committed. Whenever the loop has a change to commit its timer
    is set, at most the debouncing time ahead; when it fires or the loop is ended, the
    configuration of that moment is exported to git, and nothing waits any more. *)
Theorem waiting_changes_are_committed o repo cfg t changes st m : reachable o repo cfg t (changes, st, m) → lPending st = true →
  (∃ d, lDeadline st = Some d ∧ d ≤ t + Z.max 0 (debounce cfg) ∧ ∀ t' stamp, d ≤ t' →
    let m' := syncToGit o repo (config_path repo cfg) (gcAutoPush cfg) stamp m in
    loop_step o repo cfg t' (changes, st, m) (Some (changes, loop0, m'), m'))
  ∧ ∀ t' m', loop_step o repo cfg t' (changes, st, m) (None, m') →
      ∃ stamp, m' = syncToGit o repo (config_path repo cfg) (gcAutoPush cfg) stamp m.
Proof.
  intros Hr Hp. destruct (reachable_timer _ _ _ _ _ Hr Hp) as (d & Hd & Hle). cbn in Hd. split.
  - exists d. split_and!; [done..|]. intros t' stamp Ht.
    assert (E : syncToGit o repo (config_path repo cfg) (gcAutoPush cfg) stamp m = loop_sync o repo cfg stamp st m)
      by (unfold loop_sync; by rewrite Hp).
    rewrite E. by apply (LFire o repo cfg t' changes st m stamp d).
  - intros t' m' Hs. inversion Hs; subst. unfold loop_sync. rewrite Hp. by eexists.
Qed.

(** ** What is taken from git *)

(** A repository with a mistake changes nothing. The buckets and modules are touched only
    when something new was fetched, every manifest in the clone could be read and every
    resource passed validation. *)
Theorem mistakes_change_nothing o repo configPath now m : site (syncFromGit o repo configPath now m) ≠ site m →
  ∃ h resources, fetch_changes repo (computer m) = (true, h) ∧ readManifestFiles configPath (files h) = inr resources
    ∧ Validate o resources = [].
Proof.
  unfold syncFromGit. destruct (fetch_changes repo (computer m)) as [[] h]; [|done].
  destruct (readManifestFiles configPath (files h)) as [|resources] eqn:Er; [done|]. unfold Apply.
  destruct (Validate o resources) eqn:Ev; [|done]. intros _. by exists h, resources.
Qed.

(** A polling interval that is not positive ends the process. *)
Lemma interval_must_be_positive o getenv dataDir hostname stamp now m v n :
  kvConfig (kv (site m)) !! "gitops.GITOPS_POLL_INTERVAL_S" = Some v → v ≠ "" → atoi v = (n, NumOK) → - 2 ^ 33 < n ≤ 0 →
  gcRepoURL (loadConfig getenv dataDir (kv (site m))) ≠ "" → Start o getenv dataDir hostname stamp now m = Panic.
Proof.
  intros Hv Hne Ha Hn Hu. unfold Start. rewrite (proj2 (String.eqb_neq _ _) Hu). unfold pollLoop.
  assert (E : gcPollInterval (loadConfig getenv dataDir (kv (site m))) = n).
  { change (get_int getenv (kv (site m)) "GITOPS_POLL_INTERVAL_S" 60 = n). unfold get_int, get_setting.
    change ("gitops." +:+ "GITOPS_POLL_INTERVAL_S") with "gitops.GITOPS_POLL_INTERVAL_S". rewrite Hv. cbn [default from_option id]. rewrite (proj2 (String.eqb_neq _ _) Hne). cbn [negb]. by rewrite (proj2 (String.eqb_neq _ _) Hne), Ha. }
  rewrite E, wraps_small; [|unfold in_s, second; lia|lia]. assert (Hle : (n * second <=? 0) = true) by (unfold second; lia).
  by rewrite Hle.
Qed.

End Loop.
