(* ===== verification/GitopsExamples.v ===== *)
(** Manifests and GitOps on concrete machines: a codec that reads what it writes, for services
    and the configuration of modules, answers of the modules nftables and network, and the theorems
    of ManifestRoundtrip and GitopsSync applied to them. *)

From S2P Require Export GitopsSync.

#[local] Open Scope Z_scope.
#[local] Existing Instances ascii_tables well_installed.

(** ** A codec *)

Definition spec_fields (s : Spec) : list (string * json) :=
  match s with
  | ServiceResource sp => [("running", JBool (spRunning sp)); ("version", JString (spVersion sp))]
  | ModuleConfigResource (Some m) => [("values", JObject (map (λ kv, (kv.1, JString kv.2)) (map_to_list m)))]
  | _ => []
  end.

Definition lf : ascii := "010"%char.

(** A string with its length before it, and a tree as the strings in it. *)
Definition put_str (s : string) : list ascii := replicate (length (chars s)) "1"%char ++ "0"%char :: chars s.

Fixpoint get_str (n : nat) (l : list ascii) : option (string * list ascii) :=
  match l with
  | c :: l => if Ascii.eqb c "1" then get_str (S n) l else Some (str (take n l), drop n l)
  | [] => None
  end.

Lemma get_put s rest : get_str 0 (put_str s ++ rest) = Some (s, rest).
Proof.
  assert (Hg : ∀ m n l, get_str n (replicate m "1"%char ++ "0"%char :: l) = Some (str (take (n + m) l), drop (n + m) l)).
  { induction m as [|m IH]; intros n l; cbn; [by rewrite Nat.add_0_r|]. rewrite IH. by rewrite Nat.add_succ_r. }
  unfold put_str. rewrite <- app_assoc. cbn [app]. rewrite Hg. cbn [Nat.add].
  by rewrite take_app_length, drop_app_length, str_chars.
Qed.

Lemma yaml_ind' (P : yaml_node → Prop) : (∀ v tag, P (Scalar v tag)) → (∀ l, Forall P l → P (Sequence l)) →
  (∀ l, Forall (λ kn, P kn.2) l → P (Mapping l)) → ∀ n, P n.
Proof.
  intros Hs Hl Hm. fix IH 1. intros [v tag|l|l]; [apply Hs| |].
  - apply Hl. induction l as [|n l IHl]; constructor; [apply IH|exact IHl].
  - apply Hm. induction l as [|[k n] l IHl]; constructor; [apply IH|exact IHl].
Qed.

(** Items with a sign before each, and a point behind them. *)
Definition put_items {A} (put : A → list ascii) : list A → list ascii :=
  fix go l := match l with [] => ["."%char] | x :: l => "+"%char :: put x ++ go l end.

Definition put_field {A} (put : A → list ascii) (kn : string * A) : list ascii := put_str kn.1 ++ put kn.2.

Fixpoint put_node (n : yaml_node) : list ascii :=
  match n with
  | Scalar v tag => "s"%char :: put_str v ++ put_str tag
  | Sequence l => "l"%char :: put_items put_node l
  | Mapping l => "m"%char :: put_items (put_field put_node) l
  end.

Fixpoint get_items {A} (get : list ascii → option (A * list ascii)) (fuel : nat) (l : list ascii) : option (list A * list ascii) :=
  match fuel, l with
  | S fuel, c :: l =>
      if Ascii.eqb c "." then Some ([], l)
      else '(x, l) ← get l; '(xs, l) ← get_items get fuel l; Some (x :: xs, l)
  | _, _ => None
  end.

Definition get_field {A} (get : list ascii → option (A * list ascii)) (l : list ascii) : option (string * A * list ascii) :=
  '(k, l) ← get_str 0 l; '(x, l) ← get l; Some ((k, x), l).

Fixpoint get_node (fuel : nat) (l : list ascii) : option (yaml_node * list ascii) :=
  match fuel, l with
  | S fuel, c :: l =>
      if Ascii.eqb c "s" then '(v, l) ← get_str 0 l; '(tag, l) ← get_str 0 l; Some (Scalar v tag, l)
      else if Ascii.eqb c "l" then '(ns, l) ← get_items (get_node fuel) fuel l; Some (Sequence ns, l)
      else '(kns, l) ← get_items (get_field (get_node fuel)) fuel l; Some (Mapping kns, l)
  | _, _ => None
  end.

Lemma get_put_items {A} (put : A → list ascii) get l fuel rest :
  (∀ x rest, x ∈ l → (length (put x) ≤ fuel)%nat → get (put x ++ rest) = Some (x, rest)) →
  (length (put_items put l) ≤ fuel)%nat → get_items get fuel (put_items put l ++ rest) = Some (l, rest).
Proof.
  intros Hget. enough (∀ k, (length (put_items put l) ≤ k)%nat → (length (put_items put l) ≤ fuel)%nat →
    get_items get k (put_items put l ++ rest) = Some (l, rest)) by auto.
  induction l as [|x l IH]; intros [|k] Hk Hf; cbn in *; try lia; [done|]. rewrite length_app in *.
  rewrite <- app_assoc, Hget by (by left || lia). cbn. rewrite IH by (lia || by intros; apply Hget; [right|]). done.
Qed.

Lemma get_put_node n fuel rest : (length (put_node n) ≤ fuel)%nat → get_node fuel (put_node n ++ rest) = Some (n, rest).
Proof.
  revert fuel rest. induction n as [v tag|l IH|l IH] using yaml_ind'; intros [|fuel] rest; cbn -[put_str get_str put_items]; try lia; intros Hf.
  - rewrite <- app_assoc, get_put. cbn -[put_str get_str]. by rewrite get_put.
  - rewrite get_put_items; [done| |lia]. intros x r Hx. by apply (proj1 (Forall_forall _ _) IH).
  - rewrite get_put_items; [done| |lia]. intros [k x] r Hx. unfold put_field, get_field. cbn [fst snd]. rewrite length_app, <- app_assoc, get_put.
    intros Hl. cbn -[put_str get_str]. by rewrite ((proj1 (Forall_forall _ _) IH) _ Hx) by (cbn; lia).
Qed.

Definition read_tree (s : string) : option yaml_node := fst <$> get_node (length (chars s)) (chars s).

Definition raw_values (raw : list (string * json)) : gmap string string :=
  match find (λ kv, String.eqb kv.1 "values") raw with
  | Some (_, JObject l) => list_to_map (omap (λ kv, match kv.2 with JString v => Some (kv.1, v) | _ => None end) l)
  | _ => ∅
  end.

Definition raw_running (raw : list (string * json)) : bool :=
  existsb (λ kv, match kv with ("running", JBool b) => b | _ => false end) raw.

#[export] Instance small_codec : ManifestCodec := {|
  resource_json r := ("apiVersion", JString (rhAPIVersion (header r))) :: ("kind", JString (rhKind (header r)))
    :: ("name", JString (rName r)) :: spec_fields (spec r);
  json_resource kind raw :=
    if String.eqb kind KindService then
      inr (mkResource (NewHeader kind (string_field raw "name"))
        (ServiceResource (mkServiceSpec (string_field raw "version") (raw_running raw) None)))
    else if String.eqb kind KindModuleConfig then
      inr (mkResource (NewHeader kind (string_field raw "name")) (ModuleConfigResource (Some (raw_values raw))))
    else inl ("decode " +:+ kind);
  yaml_encode n := str (put_node n);
  yaml_decode data :=
    match read_tree data with
    | Some n => match node_value Some n with Some (JObject fields) => inr [Some fields] | _ => inl "not a mapping" end
    | None => inl "not a document"
    end;
|}.

#[export] Instance small_codec_reads : YamlReads.
Proof.
  refine {| yaml_number := Some |}. intros l fields Hv. cbn [yaml_decode yaml_encode small_codec]. unfold read_tree.
  rewrite chars_str. pose proof (get_put_node (Mapping l) (length (put_node (Mapping l))) []) as Hg. rewrite app_nil_r in Hg.
  rewrite Hg by lia. cbn -[node_value]. by rewrite Hv.
Defined.

(** ** Machines *)

(** A machine's firewall rules and interfaces. *)
Definition Modules : Type := list NatRule * list NetworkInterfaceConfig.

#[export] Instance module_answers : Peers Modules := {|
  nft_get p := (inr p.1, p);
  nft_apply l p := (None, (l, p.2));
  net_get p := (inr p.2, p);
  net_apply l p := (None, (p.1, l));
|}.

Definition empty_kv : KV := mkKV ∅ ∅ ∅ ∅ ∅ ∅ ∅ ∅.

Definition empty_site : Site Modules := mkSite empty_kv ([], []).

Definition site_a : Site Modules := mkSite
  (with_config (with_desired empty_kv (<["mqtt" := Some (desired "mqtt" true)]> (<["snmp" := Some (desired "snmp" false)]> ∅)))
    (<["mqtt.MQTT_BROKER_URL" := "mqtt://broker"]> (<["mqtt.MQTT_PASSWORD" := "hunter2"]> ∅))) ([], []).

Definition site_b : Site Modules := mkSite
  (with_config (with_desired empty_kv (<["snmp" := Some (desired "snmp" true)]> ∅)) (<["mqtt.MQTT_PASSWORD" := "other"]> ∅)) ([], []).

Definition clone : fs := <["/repo" := Dir]> (<["/repo/config" := Dir]> ∅).

Definition written : fs := (writeManifestFiles map_order (Export map_order [] site_a).1 "/repo/config" clone).2.

(** The result of an action that succeeded, without its text. *)
Lemma succeeded_with {E A} (p : option E * A) : p.1 = None → p = (None, p.2).
Proof. destruct p. by intros [= ->]. Qed.

Lemma clone_clean : clean_path "/repo/config".
Proof. split; [by vm_compute|]. by exists "repo/config". Qed.

Lemma named_check k : forallb (λ kv, match split_key kv.1 with Some (m, _) => negb (String.eqb m "") | None => true end) (map_to_list (kvConfig k)) = true → named k.
Proof.
  rewrite forallb_forall. intros Hf key v Hv e He. specialize (Hf (key, v)). cbn in Hf. rewrite He in Hf.
  discriminate Hf. by apply list_elem_of_In, elem_of_map_to_list.
Qed.

Definition encodable_check (r : Resource) : bool :=
  String.eqb (string_field (resource_json r) "apiVersion") (rhAPIVersion (header r))
  && String.eqb (string_field (resource_json r) "kind") (rhKind (header r)).

Definition decoded (r : Resource) : string + Resource :=
  match reread Some (JObject (resource_json r)) with
  | Some (JObject fields) => json_resource (rhKind (header r)) fields
  | _ => inl ""
  end.

Lemma encodable_all l : forallb encodable_check l = true → map decoded l = map inr l → Forall encodable l.
Proof.
  induction l as [|r l IH]; [constructor|]. cbn [map forallb]. intros [[E1%String.eqb_eq E2%String.eqb_eq]%andb_prop Hl]%andb_prop Ej.
  constructor; [|by apply IH, (f_equal (@tl _) Ej)]. split; [exact E1|]. split; [exact E2|].
  change (@yaml_number small_codec small_codec_reads) with (@Some string).
  assert (Ej1 : decoded r = inr r) by exact (f_equal (hd (inl "")) Ej). unfold decoded in Ej1. revert Ej1.
  destruct (reread Some _) as [[| | | | |fields]|]; [done..| |done]. by exists fields.
Qed.

Lemma one_default_check l : existsb (λ r, String.eqb (rhKind (header r)) KindNftables) l = false → one_default l.
Proof.
  intros Hl r r' Hr _ Ek. exfalso. assert (Hx : existsb (λ r, String.eqb (rhKind (header r)) KindNftables) l = true); [|congruence].
  apply existsb_exists. exists r. split; [by apply list_elem_of_In|]. rewrite Ek. reflexivity.
Qed.

Lemma git_replicates_witness : ∃ rs, readManifestFiles "/repo/config" written = inr rs ∧ length rs = 3%nat
  ∧ ∀ res sB', Apply map_order 7 rs "gitops" site_b = (Some res, None, sB') →
    (∀ name d, kvDesired (kv site_a) !! name = Some (Some d) →
      kvDesired (kv sB') !! name = Some (Some (mkDesired name (dsVersion d) (dsRunning d) 7)))
    ∧ ∀ key v m e, kvConfig (kv site_a) !! key = Some v → split_key key = Some (m, e) → isSecret e = false → v ≠ SecretPlaceholder →
      kvConfig (kv sB') !! key = Some v.
Proof.
  destruct (git_replicates map_order map_order 7 "/repo/config" site_a site_b clone written clone_clean) as (rs & Hr & Ha).
  - apply named_check. vm_compute. reflexivity.
  - vm_compute. reflexivity.
  - vm_compute. reflexivity.
  - apply (bool_decide_unpack _). vm_compute. reflexivity.
  - apply one_default_check. vm_compute. reflexivity.
  - apply encodable_all; vm_compute; reflexivity.
  - apply succeeded_with. vm_compute. reflexivity.
  - exists rs. split; [exact Hr|]. split; [|exact Ha]. vm_compute in Hr. by injection Hr as <-.
Defined.

(** The order of the fields: [kind] comes before [version] however they come. *)
Lemma manifest_order_unique_witness : let l := [("version", 1); ("kind", 2); ("apiVersion", 3)] in
  NoDup l.*1 ∧ sortManifestKeys l = [("apiVersion", 3); ("kind", 2); ("version", 1)] ∧ sortManifestKeys l = sortManifestKeys (rev l).
Proof.
  intros l. assert (Hnd : NoDup l.*1) by (apply (bool_decide_unpack _); vm_compute; reflexivity).
  split; [exact Hnd|]. split; [vm_compute; reflexivity|]. apply manifest_order_unique; [exact Hnd|]. apply Permutation_rev.
Defined.

(** ** Rules that are overwritten *)

Definition rule : NatRule := mkNatRule "r1" true "tcp" "" "eth0" "eth1" "" "80" "8080" "10.0.0.5" "" false "" "".

Definition iface : NetworkInterfaceConfig := mkInterface "eth0" true [] "" [] 1500.

Definition site_c : Site Modules := mkSite
  (mkKV ∅ ∅ ∅ ∅ ∅ ∅ (<["n1" := Some "nftables"]> (<["n2" := Some "network"]> ∅)) ∅) ([rule], [iface]).

Definition written_c : fs := (writeManifestFiles map_order (Export map_order [] site_c).1 "/repo/config" clone).2.

Lemma firewall_rules_overwritten_witness :
  let firewall := mkResource (NewHeader KindNftables "default") (NftablesResource [rule]) in
  let network := mkResource (NewHeader KindNetwork "default") (NetworkResource [iface]) in
  firewall ∈ (Export map_order [] site_c).1
  ∧ manifest_path "/repo/config" firewall = Some "/repo/config/infrastructure/default.yaml"
  ∧ written_c !! "/repo/config/infrastructure/default.yaml" = Some (File (Serialize [network])).
Proof.
  apply (firewall_rules_overwritten map_order "/repo/config" site_c clone written_c [rule] [iface] ([rule], [iface]) ([rule], [iface]));
    try done; vm_compute; done.
Defined.

(** ** A service that comes back: deleted on [site_d], its file of before is still there. *)

Definition mqtt_resource : Resource := mkResource (NewHeader KindService "mqtt") (ServiceResource (mkServiceSpec "latest" true None)).

Definition site_d : Site Modules := mkSite (with_desired empty_kv (<["snmp" := Some (desired "snmp" false)]> ∅)) ([], []).

Definition written_d : fs := (writeManifestFiles map_order (Export map_order [] site_d).1 "/repo/config" written).2.

Definition read_d : list Resource := match readManifestFiles "/repo/config" written_d with inr rs => rs | inl _ => [] end.

Definition applied (l : list Resource) (s : Site Modules) : Site Modules := (Apply map_order 9 l "gitops" s).2.

Lemma deleted_service_returns_witness : kvDesired (kv site_d) !! "mqtt" = None
  ∧ ∃ d, kvDesired (kv (applied read_d site_d)) !! "mqtt" = Some (Some d).
Proof.
  split; [done|].
  apply (deleted_service_returns map_order map_order 9 "/repo/config" site_d site_d (applied read_d site_d) written written_d mqtt_resource
    (mkServiceSpec "latest" true None) "/repo/config/services/mqtt.yaml" (Serialize [mqtt_resource]) read_d
    (default (mkResult [] []) (Apply map_order 9 read_d "gitops" site_d).1.1) clone_clean).
  - vm_compute. reflexivity.
  - split; [by eexists|done].
  - reflexivity.
  - reflexivity.
  - vm_compute. reflexivity.
  - vm_compute. reflexivity.
  - vm_compute. reflexivity.
  - reflexivity.
  - vm_compute. repeat (constructor; [split; [by eexists|reflexivity]|]). constructor.
  - intros r p t Hr Hp Hf. revert Hr Hp. assert (El : (Export map_order [] site_d).1 = [mkResource (NewHeader KindService "snmp") (ServiceResource (mkServiceSpec "latest" false None))]) by (vm_compute; reflexivity).
    rewrite El. intros [->|Hr%elem_of_nil]%elem_of_cons Hp; [|done]. vm_compute in Hp. injection Hp as <-. vm_compute in Hf. discriminate Hf.
  - apply succeeded_with. vm_compute. reflexivity.
  - vm_compute. reflexivity.
  - vm_compute. reflexivity.
Defined.

(** ** What the loop skips *)

Definition no_settings : gitopsConfig := loadConfig (λ _, "") "/data" empty_kv.

(** The broker's address is applied at 9 ms, and changed by hand four seconds later. *)
Definition broker_change : kvChange := mkKvChange "tentacle_config" "mqtt.MQTT_BROKER_URL".

Definition by_hand : KV := let k := kv (applied (Export map_order [] site_a).1 site_b) in
  with_config k (<["mqtt.MQTT_BROKER_URL" := "mqtt://other"]> (kvConfig k)).

Lemma changes_from_git_are_skipped_witness : loop_change no_settings by_hand 4000000000 broker_change loop0 = loop0
  ∧ loop_change no_settings by_hand 11000000000 broker_change loop0 = mkLoop true (Some 16000000000).
Proof.
  split; [|vm_compute; reflexivity].
  apply (changes_from_git_are_skipped map_order 9 (Export map_order [] site_a).1 site_b
    (Apply map_order 9 (Export map_order [] site_a).1 "gitops" site_b).1.1 None (applied (Export map_order [] site_a).1 site_b)
    no_settings broker_change by_hand 4000000000 loop0).
  - vm_compute. reflexivity.
  - intros (_ & _ & Hc). specialize (Hc eq_refl). vm_compute in Hc. discriminate Hc.
  - unfold by_hand. generalize (kv (applied (Export map_order [] site_a).1 site_b)). reflexivity.
  - vm_compute. reflexivity.
Defined.

Definition idle : Machine Modules unit := mkMachine site_a empty_host.

(** A change is taken two seconds after the start and committed five seconds later. *)
Lemma waiting_changes_are_committed_witness :
  let repo := repo_of no_settings "/data" in
  let m' := syncToGit map_order repo "/data/gitops/repo/config" true "now" idle in
  loop_step map_order repo no_settings 7000000000 ([], mkLoop true (Some 7000000000), idle) (Some ([], loop0, m'), m').
Proof.
  intros repo m'. destruct (waiting_changes_are_committed map_order repo no_settings 2000000000 [] (mkLoop true (Some 7000000000)) idle) as [(d & Hd & _ & Hs) _].
  - apply (RStep _ _ _ 2000000000 ([broker_change], loop0, idle) _ idle).
    + apply (RWatch _ _ _ 2000000000 [] loop0 idle broker_change), RStart.
    + apply (LChange map_order repo no_settings 2000000000 broker_change [] loop0 idle).
  - reflexivity.
  - cbn in Hd. injection Hd as <-. apply Hs. done.
Defined.

(** ** Manifests *)

Lemma config_survives_export_witness : ∃ res s', Apply map_order 9 (Export map_order [KindModuleConfig] site_a).1 "cli" (Export map_order [KindModuleConfig] site_a).2
    = (Some res, None, s') ∧ kvConfig (kv s') = kvConfig (kv site_a).
Proof.
  apply (config_survives_export map_order 9 "cli" site_a). apply named_check. vm_compute. reflexivity.
Defined.

Definition snmp_device : GatewayDeviceConfig := mkDevice "snmp" false "10.0.0.9" (Some 161) None "" "3" ""
  (Some (mkV3Auth "admin" "authPriv" "SHA" "secret1" "AES" "secret2")) None "" None None None ∅.

Definition snmp_gateway : GatewayConfigKV := mkConfig "gateway" (<["d1" := snmp_device]> ∅) ∅ ∅ ∅ 0.

Definition site_e : Site Modules := mkSite (with_gateway empty_kv (<["gateway" := Some snmp_gateway]> ∅)) ([], []).

Definition site_e' : Site Modules := (Apply map_order 9 (Export map_order [KindGateway] site_e).1 "cli" site_e).2.

Lemma gateway_loses_passwords_witness : kvGateway (kv site_e') !! "gateway"
    = Some (Some (mkConfig "gateway" (redact_device <$> cfDevices snmp_gateway) ∅ ∅ ∅ 9))
  ∧ vaAuthPassword <$> dcV3Auth (redact_device snmp_device) = Some "".
Proof.
  split; [|done]. apply (gateway_loses_passwords map_order 9 "cli" site_e "gateway" snmp_gateway
    (default (mkResult [] []) (Apply map_order 9 (Export map_order [KindGateway] site_e).1 "cli" site_e).1.1) site_e').
  - reflexivity.
  - vm_compute. reflexivity.
Defined.

Definition plc_resource : Resource := mkResource (NewHeader KindPlc "plc")
  (PlcResource (mkPlcSpec ∅ ∅ ∅ (<["main" := mkTask "main" "" 100 "prog" true]> ∅) (Some (<["prog" := mkProgramSpec "st" "" ""]> ∅)))).

Lemma validated_is_closed_witness : Validate map_order [plc_resource] = []
  ∧ ∀ id t, (<["main" := mkTask "main" "" 100 "prog" true]> ∅ : gmap string PlcTaskConfigKV) !! id = Some t →
      0 < ptScanRateMs t ∧ ptProgramRef t ≠ "" ∧ ∀ m, Some (<["prog" := mkProgramSpec "st" "" ""]> ∅ : gmap string PlcProgramSpec) = Some m → is_Some (m !! ptProgramRef t).
Proof.
  assert (Hv : Validate map_order [plc_resource] = []) by (vm_compute; reflexivity).
  split; [exact Hv|]. apply (validated_is_closed map_order [plc_resource] plc_resource Hv). by left.
Defined.

(** The example's world with the buckets of a site in which [snmp] is not to run; its manifest says that it is. *)
Definition snmp_spec : ServiceSpec := mkServiceSpec "latest" true (Some true).

Definition site_f : Site Modules := mkSite (with_desired empty_kv (<["gateway" := Some (desired "gateway" true)]> (<["snmp" := Some (desired "snmp" false)]> ∅))) ([], []).

Definition site_f' : Site Modules := (Apply map_order 9 [mkResource (NewHeader KindService "snmp") (ServiceResource snmp_spec)] "cli" site_f).2.

Definition world_f : World unit := with_bus example_world (bus_of (kv site_f') ∅).

Lemma service_manifest_runs_module_witness :
  let w2 := drain (seq 0 5) (fullSweep (moduleRegistry true) all_factories map_order 11 world_f) in
  quiet w2 ∧ isRunning "snmp" w2 = true ∧ isRunning "gateway" w2 = true ∧ ssSystemdState <$> bStatus (wBus w2) !! "snmp" = Some "active".
Proof.
  intros w2.
  destruct (service_manifest_runs_module (moduleRegistry true) all_factories map_order 9 11 (NewHeader KindService "snmp") snmp_spec "cli" site_f
    (mkResult [(KindService, "snmp")] []) site_f' example_world ∅ (embedded false "snmp" "SNMP scanner & trap listener" [] []) (seq 0 5)) as (Hq & Hr & Hs & Ho).
  - vm_compute. reflexivity.
  - apply registry_fields.
  - apply quiet_check_sound. vm_compute. reflexivity.
  - apply keyed_check_sound. vm_compute. reflexivity.
  - intros id d _. apply well_installed_ready.
  - vm_compute. reflexivity.
  - apply (bool_decide_unpack _). vm_compute. reflexivity.
  - intros _. vm_compute. reflexivity.
  - intros p i Hp _ _. eapply first_cover; [|exact Hp]. vm_compute. lia.
  - split; [exact Hq|]. split; [exact Hr|]. split; [|exact (f_equal (fmap ssSystemdState) Hs)].
    unfold w2, world_f. rewrite (Ho "gateway"); [vm_compute; reflexivity|discriminate].
Defined.

(** The device that the API adds for the network module. *)
Definition network_device : GatewayDeviceConfig := mkDevice "network" true "" None None "" "" "" None None "" None None None ∅.

Definition site_g : Site Modules :=
  mkSite (with_gateway empty_kv (<["gateway" := Some (mkConfig "gateway" (<["network" := network_device]> ∅) ∅ ∅ ∅ 0)]> ∅)) ([], []).

Lemma own_manifests_are_refused_witness : ∃ e, Apply map_order 9 (Export map_order [] site_g).1 "cli" site_g = (None, Some e, site_g).
Proof.
  apply (own_manifests_are_refused map_order 9 "cli" site_g "gateway" (mkConfig "gateway" (<["network" := network_device]> ∅) ∅ ∅ ∅ 0) "network" network_device);
    reflexivity.
Defined.
