(* ===== verification/Network.v ===== *)
(** The network module: internal/network. Interfaces are read from sysfs and from the
    command ip (monitor.go) and published one property at a time (network.go); addresses and
    the netplan file are written on request (netplan.go).

    Its handlers are functions on the host. The YAML of netplan and the JSON of ip are the
    class [NetworkText]; where the code ranges over a Go map, the order is an argument. *)

From S2P Require Topics.
From S2P Require Export GoValue PlcTypes Host Manifest.

#[local] Open Scope Z_scope.

(** ** internal/types/network.go and types.go *)

Record NetworkAddress := mkAddress {
  naFamily : string;
  naAddress : string;
  naPrefixlen : Z;
  naScope : string;
  naBroadcast : string;
}.

Record NetworkInterfaceStats := mkStats {
  RxBytes : Z;
  TxBytes : Z;
  RxPackets : Z;
  TxPackets : Z;
  RxErrors : Z;
  TxErrors : Z;
  RxDropped : Z;
  TxDropped : Z;
}.

Record NetworkInterface := mkNetInterface {
  nfName : string;
  nfOperstate : string;
  nfCarrier : bool;
  nfSpeed : Z;
  nfDuplex : string;
  nfMac : string;
  nfMtu : Z;
  nfType : Z;
  nfFlags : list string;
  nfAddresses : list NetworkAddress;
  nfStatistics : option NetworkInterfaceStats;
}.

Record NetworkStateMessage := mkNetState {
  nsModuleID : string;
  nsTimestamp : Z;
  nsInterfaces : list NetworkInterface;
}.

Record NetworkCommandRequest := mkNetRequest {
  nqRequestID : string;
  nqAction : string;
  nqInterfaces : list NetworkInterfaceConfig;
  nqInterfaceName : string;
  nqAddress : string;
}.

Record NetworkCommandResponse := mkNetResponse {
  npRequestID : string;
  npSuccess : bool;
  npError : string;
  npConfig : list NetworkInterfaceConfig;
  npTimestamp : Z;
}.

Record ipAddrEntry := mkIpEntry {
  IfName : string;
  Flags : list string;
  AddrInfo : list NetworkAddress;
}.

(** A nil pointer is [None]; the list of name servers without one is a nil pointer. *)
Record netplanEthernet := mkEthernet {
  neDHCP4 : option bool;
  neAddresses : list string;
  neGateway4 : string;
  neNameservers : option (list string);
  neMTU : Z;
}.

Record netplanConfig := mkNetplan {
  nlVersion : Z;
  nlEthernets : gmap string netplanEthernet;
}.

(** YAML that does not parse is [None], and so is JSON. *)
Class NetworkText := {
  netplan_text : netplanConfig → string;
  netplan_parse : string → option netplanConfig;
  ip_parse : string → option (list ipAddrEntry);
}.

Section Network.
Context {Sys : Type} `{System Sys} `{NetworkText} `{UnicodeTables}.
Variable o : ranging.
Variable now : Z.
Implicit Types h : Host Sys.

(** ** monitor.go *)

Definition sysClassNet : string := "/sys/class/net".

Definition readSysfsString h (iface attr : string) : string :=
  trim_space (default "" (read_file (files h) (sysClassNet +:+ "/" +:+ iface +:+ "/" +:+ attr))).

Definition readSysfsInt h (iface attr : string) : Z :=
  match atoi (readSysfsString h iface attr) with (v, NumOK) => v | _ => 0 end.

Definition readSysfsBool h (iface attr : string) : bool := String.eqb (readSysfsString h iface attr) "1".

Definition readSysfsInt64 h (iface stat : string) : Z := readSysfsInt h iface ("statistics/" +:+ stat).

Definition readStats h (iface : string) : NetworkInterfaceStats :=
  mkStats (readSysfsInt64 h iface "rx_bytes") (readSysfsInt64 h iface "tx_bytes") (readSysfsInt64 h iface "rx_packets")
    (readSysfsInt64 h iface "tx_packets") (readSysfsInt64 h iface "rx_errors") (readSysfsInt64 h iface "tx_errors")
    (readSysfsInt64 h iface "rx_dropped") (readSysfsInt64 h iface "tx_dropped").

(** The addresses and the flags of each interface: later entries of one name add addresses and
    replace flags. *)
Definition ip_entries (entries : list ipAddrEntry) : gmap string (list NetworkAddress) * gmap string (list string) :=
  fold_left (λ '(addrs, flags) e,
    (match AddrInfo e with [] => addrs | l => <[IfName e := default [] (addrs !! IfName e) ++ l]> addrs end,
     <[IfName e := Flags e]> flags)) entries (∅, ∅).

Definition ipAddrMap h : gmap string (list NetworkAddress) * gmap string (list string) * Host Sys :=
  let '(out, _, ok, h) := exec [] "" "ip" ["-j"; "addr"; "show"] h in
  (if ok : bool then ip_entries (default [] (ip_parse out)) else (∅, ∅), h).

Definition read_interface (addrs : gmap string (list NetworkAddress)) (flags : gmap string (list string)) h (name : string) : NetworkInterface :=
  mkNetInterface name (readSysfsString h name "operstate") (readSysfsBool h name "carrier") (readSysfsInt h name "speed")
    (readSysfsString h name "duplex") (readSysfsString h name "address") (readSysfsInt h name "mtu") (readSysfsInt h name "type")
    (default [] (flags !! name)) (default [] (addrs !! name)) (Some (readStats h name)).

Definition readInterfaces h : (string + list NetworkInterface) * Host Sys :=
  match ReadDir (files h) sysClassNet with
  | None => (inl ("readdir " +:+ sysClassNet), h)
  | Some entries => let '(addrs, flags, h) := ipAddrMap h in (inr (map (λ kv, read_interface addrs flags h kv.1) entries), h)
  end.

(** ** netplan.go *)

Definition netplanDir : string := "/etc/netplan".
Definition tentacleCfg : string := "60-tentacle.yaml".

Definition yaml_name (name : string) : bool := has_suffix name ".yaml" || has_suffix name ".yml".

Definition interface_of (kv : string * netplanEthernet) : NetworkInterfaceConfig :=
  mkInterface kv.1 (default false (neDHCP4 kv.2)) (neAddresses kv.2) (neGateway4 kv.2) (default [] (neNameservers kv.2)) (neMTU kv.2).

(** The files by name; one that cannot be read or parsed is skipped. *)
Definition read_netplan h (kv : string * node) : list NetworkInterfaceConfig :=
  if bool_decide (kv.2 = Dir) || negb (yaml_name kv.1) then []
  else match data ← read_file (files h) (netplanDir +:+ "/" +:+ kv.1); netplan_parse data with
  | Some cfg => map interface_of (o _ (nlEthernets cfg))
  | None => []
  end.

Definition readConfig h : string + list NetworkInterfaceConfig :=
  match ReadDir (files h) netplanDir with
  | None => inl ("readdir " +:+ netplanDir)
  | Some entries => inr (flat_map (read_netplan h) entries)
  end.

Definition ethernet_of (ic : NetworkInterfaceConfig) : netplanEthernet :=
  mkEthernet (Some (niDHCP4 ic)) (niAddresses ic) (niGateway4 ic)
    (match niNameservers ic with [] => None | l => Some l end) (niMtu ic).

(** The last configuration of an interface counts. *)
Definition ethernets (l : list NetworkInterfaceConfig) : gmap string netplanEthernet :=
  fold_left (λ m ic, <[niInterfaceName ic := ethernet_of ic]> m) l ∅.

(** The output of a command with its errors, without the white space around it. *)
Definition combined (name : string) (args : list string) h : string * bool * Host Sys :=
  let '(out, err, ok, h) := exec [] "" name args h in (trim_space (out +:+ err), ok, h).

Definition applyConfig (l : list NetworkInterfaceConfig) h : option string * Host Sys :=
  let path := netplanDir +:+ "/" +:+ tentacleCfg in
  let '(ok, f) := WriteFile (files h) path (netplan_text (mkNetplan 2 (ethernets l))) in
  let h := with_files h f in
  if negb ok then (Some ("write " +:+ path), h)
  else let '(out, ok, h) := combined "netplan" ["apply"] h in
    (if ok : bool then None else Some ("netplan apply: " +:+ out), h).

Definition addAddress (interfaceName address : string) h : option string * Host Sys :=
  let '(out, ok, h) := combined "ip" ["addr"; "add"; address; "dev"; interfaceName] h in
  (if ok : bool then None else Some ("ip addr add " +:+ address +:+ " dev " +:+ interfaceName +:+ ": " +:+ out), h).

Definition removeAddress (interfaceName address : string) h : option string * Host Sys :=
  let '(out, ok, h) := combined "ip" ["addr"; "del"; address; "dev"; interfaceName] h in
  (if ok : bool then None else Some ("ip addr del " +:+ address +:+ " dev " +:+ interfaceName +:+ ": " +:+ out), h).

(** ** network.go *)

Definition respond (id : string) (res : option string) : NetworkCommandResponse :=
  match res with
  | None => mkNetResponse id true "" [] now
  | Some e => mkNetResponse id false e [] now
  end.

Definition address_command (f : string → string → Host Sys → option string * Host Sys) (req : NetworkCommandRequest) h
    : NetworkCommandResponse * Host Sys :=
  if String.eqb (nqInterfaceName req) "" || String.eqb (nqAddress req) "" then
    (respond (nqRequestID req) (Some "interfaceName and address are required"), h)
  else let '(res, h) := f (nqInterfaceName req) (nqAddress req) h in (respond (nqRequestID req) res, h).

(** The request as far as it was decoded, and the error if it was not. *)
Definition handleCommand (req : NetworkCommandRequest) (invalid : option string) h : NetworkCommandResponse * Host Sys :=
  let id := nqRequestID req in
  match invalid with
  | Some e => (respond id (Some ("invalid request: " +:+ e)), h)
  | None =>
      if String.eqb (nqAction req) "get-config" then
        (match readConfig h with
         | inl e => respond id (Some e)
         | inr configs => mkNetResponse id true "" configs now
         end, h)
      else if String.eqb (nqAction req) "apply-config" then
        let '(res, h) := applyConfig (nqInterfaces req) h in (respond id res, h)
      else if String.eqb (nqAction req) "add-address" then address_command addAddress req h
      else if String.eqb (nqAction req) "remove-address" then address_command removeAddress req h
      else (respond id (Some ("unknown action: " +:+ nqAction req)), h)
  end.

Variable moduleID : string.

Definition handleState h : NetworkStateMessage * Host Sys :=
  match readInterfaces h with
  | (inl _, h) => (mkNetState moduleID now [], h)
  | (inr l, h) => (mkNetState moduleID now l, h)
  end.

Definition stat_properties (s : NetworkInterfaceStats) : gmap string (value * string) := list_to_map [
  ("rxBytes", (VInt KInt64 (RxBytes s), "number")); ("txBytes", (VInt KInt64 (TxBytes s), "number"));
  ("rxPackets", (VInt KInt64 (RxPackets s), "number")); ("txPackets", (VInt KInt64 (TxPackets s), "number"));
  ("rxErrors", (VInt KInt64 (RxErrors s), "number")); ("txErrors", (VInt KInt64 (TxErrors s), "number"));
  ("rxDropped", (VInt KInt64 (RxDropped s), "number")); ("txDropped", (VInt KInt64 (TxDropped s), "number"))].

Definition properties (iface : NetworkInterface) : gmap string (value * string) :=
  list_to_map [("operstate", (VString (nfOperstate iface), "string")); ("carrier", (VBool (nfCarrier iface), "boolean"));
    ("speed", (VInt KInt (nfSpeed iface), "number")); ("mtu", (VInt KInt (nfMtu iface), "number"));
    ("mac", (VString (nfMac iface), "string"))]
  ∪ match nfStatistics iface with Some s => stat_properties s | None => ∅ end.

(** A message as it is given to [json.Marshal]. *)
Definition property_message (iface prop : string) (v : value * string) : string * PlcDataMessage :=
  let tag := Topics.SanitizeForSubject iface +:+ "_" +:+ prop in
  ("network.data.network." +:+ tag, mkData "network" "network" tag v.1 now v.2 "" None false false None None).

Definition publishInterfaceProperties (iface : NetworkInterface) : list (string * PlcDataMessage) :=
  map (λ kv, property_message (nfName iface) kv.1 kv.2) (o _ (properties iface)).

(** The message for the user interface, and those for the gateway; nothing when the
    interfaces cannot be read. *)
Definition publishInterfaces h : option NetworkStateMessage * list (string * PlcDataMessage) * Host Sys :=
  match readInterfaces h with
  | (inl _, h) => (None, [], h)
  | (inr l, h) => (Some (mkNetState moduleID now l), flat_map publishInterfaceProperties l, h)
  end.

(** The answer to network.browse without its progress: the members of the template, and the
    instances with the member of each tag. *)
Definition template_members : list (string * string) := [
  ("operstate", "string"); ("carrier", "boolean"); ("speed", "number"); ("mtu", "number"); ("mac", "string");
  ("rxBytes", "number"); ("txBytes", "number"); ("rxPackets", "number"); ("txPackets", "number");
  ("rxErrors", "number"); ("txErrors", "number"); ("rxDropped", "number"); ("txDropped", "number")].

Record udtInstance := mkUdtInstance {
  uiName : string;
  uiTemplateName : string;
  uiMemberTags : gmap string string;
}.

Definition instance_of (iface : NetworkInterface) : udtInstance :=
  mkUdtInstance (nfName iface) "NetworkInterface" (list_to_map (map (λ m, (m.1, m.1)) template_members)).

Definition handleBrowse h : (string + list udtInstance) * Host Sys :=
  match readInterfaces h with
  | (inl e, h) => (inl e, h)
  | (inr l, h) => (inr (map instance_of l), h)
  end.

End Network.
