(* ===== verification/Firewall.v ===== *)
(** The firewall module: internal/nftables. NAT rules become a script for nft (nftables.go),
    their addresses become aliases of interfaces (aliases.go), which the network module
    adds and removes, and forwarding is switched on (forwarding.go); manager.go answers the
    requests.

    The handlers are functions on the host. The network module is the class
    [NetworkService], which [Network] implements; the JSON of the two files is
    [FirewallText]. *)

From S2P Require Export Network.

#[local] Open Scope Z_scope.

(** An interface and an address on it. *)
Notation alias := (string * string)%type.

Class FirewallText := {
  rules_text : list NatRule → string;
  rules_parse : string → option (list NatRule);
  aliases_text : list alias → string;
  aliases_parse : string → option (list alias);
}.

(** A request to the network module, [None] when it is not answered. *)
Class NetworkService (Sys : Type) := {
  net_command : NetworkCommandRequest → Host Sys → option NetworkCommandResponse * Host Sys;
}.

(** The order of a Go map whose keys are aliases. *)
Record alias_order := {
  in_order :> gset alias → list alias;
  in_order_perm s : in_order s ≡ₚ elements s;
}.

Record NftablesCommandRequest := mkNftRequest {
  fqRequestID : string;
  fqAction : string;
  fqNatRules : list NatRule;
}.

Record NftablesCommandResponse := mkNftResponse {
  fpRequestID : string;
  fpSuccess : bool;
  fpError : string;
  fpConfig : option (list NatRule);
  fpTimestamp : Z;
}.

Record NftablesStateMessage := mkNftState {
  fsModuleID : string;
  fsTimestamp : Z;
  fsRawRuleset : string;
}.

(** ** The script *)

Definition newline : string := str ["010"%char].
Definition quoted (s : string) : string := str [dquote] +:+ s +:+ str [dquote].
Definition tableName : string := "tentacle_nat".

Section Script.
Context `{UnicodeTables}.

Definition to_lower_byte (b : Z) : Z := if in_range 65 90 b then b + 32 else b.

(** [strings.ToLower] of the protocols there are, which are ASCII. *)
Definition to_lower (s : string) : string := bytes_string (map to_lower_byte (string_bytes s)).

Definition when (b : bool) (part : string) : list string := if b then [part] else [].

(** The protocols with ports. *)
Definition has_ports (proto : string) : bool :=
  negb (String.eqb proto "") && negb (String.eqb proto "all") && negb (String.eqb proto "icmp").

Definition set_ (s : string) : bool := negb (String.eqb s "").

Definition preroutingLine (r : NatRule) : string :=
  let proto := to_lower (nrProtocol r) in
  str_join " " (when (set_ (nrIncomingInterface r)) ("iifname " +:+ quoted (nrIncomingInterface r))
    ++ when (set_ proto && negb (String.eqb proto "all")) proto
    ++ when (set_ (nrConnectingDevices r) && negb (String.eqb (nrConnectingDevices r) "any")) ("ip saddr " +:+ nrConnectingDevices r)
    ++ when (set_ (nrNatAddr r)) ("ip daddr " +:+ nrNatAddr r)
    ++ when (set_ (nrOriginalPort r) && has_ports proto) ("dport " +:+ nrOriginalPort r)
    ++ (if set_ (nrComment r) then ["comment " +:+ quoted (nrComment r)]
        else when (set_ (nrDeviceName r)) ("comment " +:+ quoted (nrDeviceName r)))
    ++ ["dnat to " +:+ if set_ (nrTranslatedPort r) && has_ports proto
        then nrDeviceAddr r +:+ ":" +:+ nrTranslatedPort r else nrDeviceAddr r]).

Definition postroutingLine (r : NatRule) : string :=
  str_join " " (when (set_ (nrOutgoingInterface r)) ("oifname " +:+ quoted (nrOutgoingInterface r))
    ++ ["ip daddr " +:+ nrDeviceAddr r]
    ++ ["snat to " +:+ if set_ (nrDoubleNatAddr r) then nrDoubleNatAddr r else nrNatAddr r]).

Definition rule_lines (line : NatRule → string) (rules : list NatRule) : string :=
  str_join "" (map (λ r, if set_ (line r) then "    " +:+ line r +:+ newline else "") rules).

Definition generateRules (rules : list NatRule) : string :=
  "#!/usr/sbin/nft -f" +:+ newline +:+ newline
  +:+ "# Auto-generated by tentacle nftables module" +:+ newline
  +:+ "# Rules: " +:+ itoa (Z.of_nat (length rules)) +:+ newline +:+ newline
  +:+ "table ip " +:+ tableName +:+ newline
  +:+ "delete table ip " +:+ tableName +:+ newline +:+ newline
  +:+ "table ip " +:+ tableName +:+ " {" +:+ newline
  +:+ "  chain prerouting {" +:+ newline
  +:+ "    type nat hook prerouting priority dstnat; policy accept;" +:+ newline
  +:+ rule_lines preroutingLine (List.filter nrEnabled rules)
  +:+ "  }" +:+ newline +:+ newline
  +:+ "  chain postrouting {" +:+ newline
  +:+ "    type nat hook postrouting priority srcnat; policy accept;" +:+ newline
  +:+ rule_lines postroutingLine (List.filter (λ r, nrEnabled r && nrDoubleNat r) rules)
  +:+ "  }" +:+ newline
  +:+ "}" +:+ newline.

End Script.

(** ** The module *)

Section Firewall.
Context {Sys : Type} `{System Sys} `{NetworkService Sys} `{FirewallText} `{UnicodeTables}.
Variable o : alias_order.
Variable now : Z.
Implicit Types h : Host Sys.

Definition configDir : string := "/etc/tentacle".
Definition configPath : string := configDir +:+ "/nftables.json".
Definition aliasesPath : string := configDir +:+ "/managed-aliases.json".
Definition rulesDir : string := "/etc/nftables.d".
Definition rulesPath : string := rulesDir +:+ "/60-tentacle-nat.conf".

(** A file that is not there is empty. *)
Definition load {A} (what path : string) (parse : string → option (list A)) h : string + list A :=
  match resolve (files h) path with
  | None => inl ("read " +:+ what)
  | Some p =>
      match files h !! p with
      | None => inr []
      | Some (File data) => match parse data with Some l => inr l | None => inl ("parse " +:+ what) end
      | Some _ => inl ("read " +:+ what)
      end
  end.

Definition loadConfig h : string + list NatRule := load "config" configPath rules_parse h.
Definition loadManagedAliases h : string + list alias := load "managed aliases" aliasesPath aliases_parse h.

(** A directory with a file in it: the step that failed. *)
Definition save (dir mkdir path what data : string) h : option string * Host Sys :=
  let '(made, f) := MkdirAll (files h) dir in
  let h := with_files h f in
  if negb made then (Some ("create " +:+ mkdir), h)
  else let '(ok, f) := WriteFile (files h) path data in (if ok : bool then None else Some ("write " +:+ what), with_files h f).

Definition saveConfig (rules : list NatRule) h : option string * Host Sys :=
  save configDir "config dir" configPath "config" (rules_text rules) h.
Definition writeRulesFile (content : string) h : option string * Host Sys :=
  save rulesDir "rules dir" rulesPath "rules file" content h.
Definition saveManagedAliases (l : list alias) h : option string * Host Sys :=
  save configDir "config dir" aliasesPath "managed aliases" (aliases_text l) h.

Definition applyRules h : option string * Host Sys :=
  let '(out, ok, h) := combined "nft" ["-f"; rulesPath] h in
  (if ok : bool then None else Some ("nft -f: " +:+ out), h).

Definition getRuleset h : option string * Host Sys :=
  let '(out, ok, h) := combined "nft" ["-j"; "list"; "ruleset"] h in (if ok : bool then Some out else None, h).

(** *** aliases.go *)

Definition requestNetworkCommand (action interfaceName address : string) h : option string * Host Sys :=
  let '(resp, h) := net_command (mkNetRequest "" action [] interfaceName address) h in
  (match resp with
   | None => Some "network command request"
   | Some resp => if npSuccess resp then None else Some ("network command failed: " +:+ npError resp)
   end, h).

Definition desired_alias (r : NatRule) : option alias :=
  if negb (nrEnabled r) || String.eqb (nrNatAddr r) "" || String.eqb (nrIncomingInterface r) "" then None
  else Some (nrIncomingInterface r, nrNatAddr r +:+ "/32").

Definition desired_aliases (rules : list NatRule) : gset alias := list_to_set (omap desired_alias rules).

(** A failed request is only logged. *)
Definition request_each (action : string) (l : list alias) h : Host Sys :=
  fold_left (λ h a, snd (requestNetworkCommand action a.1 a.2 h)) l h.

Definition syncAliases (rules : list NatRule) h : option string * Host Sys :=
  let current := match loadManagedAliases h with inr l => l | inl _ => [] end in
  let desired := desired_aliases rules in
  let h := request_each "remove-address" (List.filter (λ a, negb (bool_decide (a ∈ desired))) current) h in
  let h := request_each "add-address" (List.filter (λ a, negb (bool_decide (a ∈ current))) (o desired)) h in
  saveManagedAliases (o desired) h.

(** *** forwarding.go *)

Definition enableForwarding h : bool * Host Sys :=
  let '(_, ok, h) := combined "sysctl" ["-w"; "net.ipv4.ip_forward=1"] h in
  if negb ok then (false, h)
  else
    let '(err, h) := save "/etc/sysctl.d" "sysctl.d directory" "/etc/sysctl.d/60-tentacle.conf" "sysctl config"
      ("net.ipv4.ip_forward = 1" +:+ newline) h in
    (match err with None => true | Some _ => false end, h).

(** *** manager.go *)

Variable moduleID : string.

(** The message of [publishRules] and of the state handler. *)
Definition state_message h : NftablesStateMessage * Host Sys :=
  let '(raw, h) := getRuleset h in (mkNftState moduleID now (default "" raw), h).

(** Nothing is published when the configuration cannot be read. *)
Definition publishRules h : option NftablesStateMessage * Host Sys :=
  match loadConfig h with
  | inl _ => (None, h)
  | inr _ => let '(msg, h) := state_message h in (Some msg, h)
  end.

Definition fail (id error : string) : NftablesCommandResponse := mkNftResponse id false error None now.

Definition handleGetConfig (req : NftablesCommandRequest) h : NftablesCommandResponse :=
  match loadConfig h with
  | inl e => fail (fqRequestID req) ("failed to load config: " +:+ e)
  | inr rules => mkNftResponse (fqRequestID req) true "" (Some rules) now
  end.

(** The configuration is saved first. The errors of the aliases and of forwarding are only logged. *)
Definition handleApplyConfig (req : NftablesCommandRequest) h : NftablesCommandResponse * option NftablesStateMessage * Host Sys :=
  let id := fqRequestID req in
  let rules := fqNatRules req in
  match saveConfig rules h with
  | (Some e, h) => (fail id ("failed to save config: " +:+ e), None, h)
  | (None, h) =>
      match writeRulesFile (generateRules rules) h with
      | (Some e, h) => (fail id ("failed to write rules file: " +:+ e), None, h)
      | (None, h) =>
          match applyRules h with
          | (Some e, h) => (fail id ("failed to apply rules: " +:+ e), None, h)
          | (None, h) =>
              let '(_, h) := syncAliases rules h in
              let '(_, h) := enableForwarding h in
              let '(msg, h) := publishRules h in
              (mkNftResponse id true "" (Some rules) now, msg, h)
          end
      end
  end.

(** The request, or why it could not be decoded. *)
Definition handle_request (req : string + NftablesCommandRequest) h : NftablesCommandResponse * option NftablesStateMessage * Host Sys :=
  match req with
  | inl e => (fail "" ("invalid request: " +:+ e), None, h)
  | inr req =>
      if String.eqb (fqAction req) "get-config" then (handleGetConfig req h, None, h)
      else if String.eqb (fqAction req) "apply-config" then handleApplyConfig req h
      else (fail (fqRequestID req) ("unknown action: " +:+ fqAction req), None, h)
  end.

End Firewall.

(** ** The network module behind the interface *)

Section Service.
Context {Sys : Type} `{System Sys} `{NetworkText} `{UnicodeTables}.

(** What a request gets from the module when it runs. *)
Definition network_service (o : ranging) (now : Z) : NetworkService Sys := {|
  net_command req h := let '(resp, h) := Network.handleCommand o now req None h in (Some resp, h);
|}.

(** And when it does not. *)
Definition no_network : NetworkService Sys := {| net_command _ h := (None, h) |}.

(** The two modules as the peers of the manifests: the requests of apply.go and export.go. *)
Definition module_peers `{FirewallText} (o : ranging) (oa : alias_order) (now : Z) (moduleID : string) : Peers (Host Sys) :=
  let _ := network_service o now in {|
    nft_get h :=
      let resp := handleGetConfig now (mkNftRequest "" "get-config" []) h in
      (if fpSuccess resp then inr (default [] (fpConfig resp)) else inl ("nftables: " +:+ fpError resp), h);
    nft_apply rules h :=
      let '(resp, _, h) := handleApplyConfig oa now moduleID (mkNftRequest "" "apply-config" rules) h in
      (if fpSuccess resp then None else Some ("nftables: " +:+ fpError resp), h);
    net_get h :=
      let '(resp, h) := Network.handleCommand o now (mkNetRequest "" "get-config" [] "" "") None h in
      (if npSuccess resp then inr (npConfig resp) else inl ("network: " +:+ npError resp), h);
    net_apply l h :=
      let '(resp, h) := Network.handleCommand o now (mkNetRequest "" "apply-config" l "" "") None h in
      (if npSuccess resp then None else Some ("network: " +:+ npError resp), h);
  |}.

End Service.
