(* ===== verification/FirewallFacts.v ===== *)
(** What applying firewall rules does to the machine: the rules are those that are answered
    later and those of the script, the aliases follow the rules as far as the network module
    carries out what it is asked, an alias that could not be added is not tried again, and
    rules that nft refuses stay in the configuration. *)

From S2P Require Export Firewall.

#[local] Open Scope Z_scope.
#[local] Opaque ancestors.

(** ** Files *)

Section Saving.
Context {Sys : Type}.
Implicit Types h : Host Sys.

Lemma save_other dir mkdir path what data h p : (∀ t, files h !! path ≠ Some (Link t)) → p ≠ path → p ∉ ancestors dir →
  files (save dir mkdir path what data h).2 !! p = files h !! p.
Proof.
  intros Hl Hne Hp. unfold save. pose proof (mkdirAll_other (files h) (ancestors dir) p Hp) as H1.
  pose proof (mkdirAll_no_links (files h) (ancestors dir)) as H2. fold (MkdirAll (files h) dir) in *.
  destruct (MkdirAll (files h) dir) as [[] f]; cbn in *; [|done]. rewrite <- H1.
  destruct (WriteFile f path data) as [[] f1] eqn:E; cbn.
  - apply WriteFile_new in E as ->; [by rewrite lookup_insert_ne|]. intros t Ht. by apply (Hl t), H2.
  - unfold WriteFile in E. destruct (resolve f path); [|by simplify_eq]. destruct (f !! s) as [[]|]; try by simplify_eq.
    all: destruct (parent_ok f s); by simplify_eq.
Qed.

Lemma save_no_links dir mkdir path what data h : no_new_links (files h) (files (save dir mkdir path what data h).2).
Proof.
  unfold save. pose proof (mkdirAll_no_links (files h) (ancestors dir)) as H1. fold (MkdirAll (files h) dir) in *.
  destruct (MkdirAll (files h) dir) as [[] f]; cbn in *; [|done].
  pose proof (WriteFile_no_links f path data) as H2. destruct (WriteFile f path data) as [ok f1]; cbn in *. by etrans.
Qed.

Lemma save_rest dir mkdir path what data h : rest (save dir mkdir path what data h).2 = rest h.
Proof.
  unfold save. destruct (MkdirAll (files h) dir) as [[] f]; cbn; [|done]. by destruct (WriteFile f path data) as [[] f1].
Qed.

Lemma save_written dir mkdir path what data h h' : save dir mkdir path what data h = (None, h') →
  (∀ t, files h !! path ≠ Some (Link t)) → files h' !! path = Some (File data).
Proof.
  unfold save. pose proof (mkdirAll_no_links (files h) (ancestors dir)) as H1. fold (MkdirAll (files h) dir) in *.
  destruct (MkdirAll (files h) dir) as [[] f]; cbn in *; [|done].
  destruct (WriteFile f path data) as [[] f1] eqn:E; [|done]. intros [= <-] Hl. cbn.
  apply WriteFile_new in E as ->; [apply lookup_insert_eq|]. intros t Ht. by apply (Hl t), H1.
Qed.

Lemma load_file {A} what path (parse : string → option (list A)) h data l : files h !! path = Some (File data) →
  parse data = Some l → load what path parse h = inr l.
Proof. intros Hf Hp. unfold load, resolve. cbn. rewrite Hf. cbn. by rewrite Hf, Hp. Qed.

End Saving.

(** ** What the module relies on *)

Section Facts.
Context {Sys : Type} `{System Sys} `{FirewallText} `{UnicodeTables}.

(** The addresses that the interfaces have, as aliases. *)
Variable addresses : Sys → gset alias.

(** What a request changes when it is carried out. *)
Definition change_address (action : string) (a : alias) (s : gset alias) : gset alias :=
  if String.eqb action "add-address" then {[a]} ∪ s else s ∖ {[a]}.

(** A request that is answered with success makes the address present, or absent; one that
    fails (the interface or the address is unknown, the address is there already or not
    there, nobody answers) changes nothing; no file is touched. *)
Class AddressService (S : NetworkService Sys) := {
  request_law action i a (h : Host Sys) : action = "add-address" ∨ action = "remove-address" →
    let '(err, h') := requestNetworkCommand action i a h in
    files h' = files h ∧ addresses (rest h') = match err with None => change_address action (i, a) (addresses (rest h)) | Some _ => addresses (rest h) end;
}.

(** nft and sysctl change neither. *)
Class FirewallCommands := {
  nft_law args (h : Host Sys) : files (combined "nft" args h).2 = files h ∧ addresses (rest (combined "nft" args h).2) = addresses (rest h);
  sysctl_law args (h : Host Sys) : files (combined "sysctl" args h).2 = files h ∧ addresses (rest (combined "sysctl" args h).2) = addresses (rest h);
}.

(** The command ip, as the network module calls it: when it exits with success it has added or
    removed the address, and otherwise it has changed nothing. *)
Class AddressCommand := {
  ip_law (del : bool) i a (h : Host Sys) :
    let '(_, ok, h') := combined "ip" ["addr"; if del then "del" else "add"; a; "dev"; i] h in
    files h' = files h ∧ addresses (rest h') = if ok : bool then
      change_address (if del then "remove-address" else "add-address") (i, a) (addresses (rest h)) else addresses (rest h);
}.

(** The network module is such a service. *)
#[export] Instance network_serves `{NetworkText} `{AddressCommand} (o : ranging) (now : Z) : AddressService (network_service o now).
Proof.
  split. intros action i a h [-> | ->]; unfold requestNetworkCommand; cbn -[combined change_address]; unfold address_command; cbn -[combined change_address];
    (destruct (String.eqb i "" || String.eqb a ""); cbn -[combined change_address]; [done|]); unfold addAddress, removeAddress.
  - pose proof (ip_law false i a h) as L. cbn -[combined change_address] in L.
    by destruct (combined "ip" ["addr"; "add"; a; "dev"; i] h) as [[out []] h1].
  - pose proof (ip_law true i a h) as L. cbn -[combined change_address] in L.
    by destruct (combined "ip" ["addr"; "del"; a; "dev"; i] h) as [[out []] h1].
Qed.

(** So is one that never answers. *)
Lemma no_network_serves : AddressService no_network.
Proof. split. intros action i a h _. done. Qed.

(** ** Aliases *)

Section Service.
Context `{S : NetworkService Sys} `{!AddressService S}.
Variable o : alias_order.
Implicit Types h : Host Sys.

Lemma request_each_cons action a l h : request_each action (a :: l) h = request_each action l (requestNetworkCommand action a.1 a.2 h).2.
Proof. done. Qed.

Lemma request_each_files action l h : action = "add-address" ∨ action = "remove-address" → files (request_each action l h) = files h.
Proof.
  intros Ha. revert h. induction l as [|[i a] l IH]; intros h; [done|]. rewrite request_each_cons, IH. cbn [fst snd].
  pose proof (request_law action i a h Ha) as L. by destruct (requestNetworkCommand action i a h) as [err h1], L.
Qed.

(** The aliases whose request was answered with success, of a sequence of requests. *)
Fixpoint succeeded (action : string) (l : list alias) h : gset alias :=
  match l with
  | [] => ∅
  | a :: l' =>
      let '(err, h1) := requestNetworkCommand action a.1 a.2 h in
      match err with None => {[a]} | Some _ => ∅ end ∪ succeeded action l' h1
  end.

Lemma succeeded_asked action l : ∀ h, succeeded action l h ⊆ list_to_set l.
Proof.
  induction l as [|a l IH]; intros h; [done|]. cbn. destruct (requestNetworkCommand action a.1 a.2 h) as [[e|] h1]; specialize (IH h1); set_solver.
Qed.

Lemma add_each l : ∀ h, addresses (rest (request_each "add-address" l h)) = succeeded "add-address" l h ∪ addresses (rest h).
Proof.
  induction l as [|[i a] l IH]; intros h; [cbn; set_solver|]. rewrite request_each_cons. cbn [succeeded fst snd].
  pose proof (request_law "add-address" i a h ltac:(auto)) as L. destruct (requestNetworkCommand "add-address" i a h) as [[e|] h1];
    destruct L as [_ L]; cbn [snd]; rewrite IH, L; cbn; set_solver.
Qed.

Lemma remove_each l : ∀ h, addresses (rest (request_each "remove-address" l h)) = addresses (rest h) ∖ succeeded "remove-address" l h.
Proof.
  induction l as [|[i a] l IH]; intros h; [cbn; set_solver|]. rewrite request_each_cons. cbn [succeeded fst snd].
  pose proof (request_law "remove-address" i a h ltac:(auto)) as L. destruct (requestNetworkCommand "remove-address" i a h) as [[e|] h1];
    destruct L as [_ L]; cbn [snd]; rewrite IH, L; cbn; set_solver.
Qed.

Lemma order_set s : list_to_set (o s) = s.
Proof. apply set_eq. intros a. rewrite elem_of_list_to_set, (in_order_perm o), elem_of_elements. done. Qed.

Lemma filter_set (f : alias → bool) l a : a ∈ (list_to_set (List.filter f l) : gset alias) ↔ a ∈ l ∧ f a = true.
Proof. by rewrite elem_of_list_to_set, list_elem_of_In, filter_In, <- list_elem_of_In. Qed.

(** The aliases that the module had recorded. *)
Definition recorded_aliases h : list alias := match loadManagedAliases h with inr l => l | inl _ => [] end.

(** What [syncAliases] asks to remove, and to add. *)
Definition stale (rules : list NatRule) h : list alias := List.filter (λ a, negb (bool_decide (a ∈ desired_aliases rules))) (recorded_aliases h).
Definition missing (rules : list NatRule) h : list alias := List.filter (λ a, negb (bool_decide (a ∈ recorded_aliases h))) (o (desired_aliases rules)).

Definition removed_aliases (rules : list NatRule) h : gset alias := succeeded "remove-address" (stale rules h) h.
Definition added_aliases (rules : list NatRule) h : gset alias := succeeded "add-address" (missing rules h) (request_each "remove-address" (stale rules h) h).

Lemma sync_addresses (rules : list NatRule) h : addresses (rest (syncAliases o rules h).2) = (addresses (rest h) ∖ removed_aliases rules h) ∪ added_aliases rules h.
Proof.
  unfold syncAliases. fold (recorded_aliases h). unfold saveManagedAliases. rewrite save_rest. fold (stale rules h) (missing rules h).
  rewrite add_each, remove_each. unfold removed_aliases, added_aliases. set_solver.
Qed.

(** A rule in force that has an address of its own and an interface asks for the address on it. *)
Definition asked_for (rules : list NatRule) (a : alias) : Prop :=
  ∃ r, r ∈ rules ∧ nrEnabled r = true ∧ nrNatAddr r ≠ "" ∧ nrIncomingInterface r ≠ ""
    ∧ a = (nrIncomingInterface r, nrNatAddr r +:+ "/32").

Lemma desired_asked rules a : a ∈ desired_aliases rules ↔ asked_for rules a.
Proof.
  unfold desired_aliases. rewrite elem_of_list_to_set, list_elem_of_omap. unfold desired_alias, asked_for. split.
  - intros (r & Hr & E). exists r. destruct (nrEnabled r), (String.eqb_spec (nrNatAddr r) ""), (String.eqb_spec (nrIncomingInterface r) ""); try done.
    injection E as <-. by split_and!.
  - intros (r & Hr & He & Hn & Hi & ->). exists r. split; [done|]. by rewrite He, !(proj2 (String.eqb_neq _ _)) by done.
Qed.

Lemma stale_asked rules h a : a ∈ stale rules h ↔ a ∈ recorded_aliases h ∧ ¬ asked_for rules a.
Proof. unfold stale. by rewrite list_elem_of_In, filter_In, <- list_elem_of_In, negb_true_iff, bool_decide_eq_false, desired_asked. Qed.

Lemma missing_asked rules h a : a ∈ missing rules h ↔ asked_for rules a ∧ a ∉ recorded_aliases h.
Proof.
  unfold missing. by rewrite list_elem_of_In, filter_In, <- list_elem_of_In, negb_true_iff, bool_decide_eq_false, (in_order_perm o), elem_of_elements, desired_asked.
Qed.

Lemma removed_stale rules h : removed_aliases rules h ⊆ list_to_set (recorded_aliases h) ∖ desired_aliases rules.
Proof.
  intros a Ha%succeeded_asked. unfold stale in Ha. apply filter_set in Ha as [Hin Hd].
  rewrite elem_of_difference, elem_of_list_to_set. by apply negb_true_iff, bool_decide_eq_false in Hd.
Qed.

Lemma added_missing rules h : added_aliases rules h ⊆ desired_aliases rules ∖ list_to_set (recorded_aliases h).
Proof.
  intros a Ha%succeeded_asked. unfold missing in Ha. apply filter_set in Ha as [Hin Hd].
  rewrite (in_order_perm o), elem_of_elements in Hin. apply negb_true_iff, bool_decide_eq_false in Hd.
  by rewrite elem_of_difference, elem_of_list_to_set.
Qed.

(** The aliases follow the rules as far as the requests succeed. Applying rules asks to
    remove the aliases that the module had recorded and no enabled rule asks for, and to add
    those that a rule asks for and that were not recorded; the addresses change by exactly
    the requests that are answered with success, and what the rules ask for is recorded
    whether they are or not. *)
Theorem aliases_follow_rules rules h : (∀ t, files h !! aliasesPath ≠ Some (Link t)) →
  (∀ l, aliases_parse (aliases_text l) = Some l) →
  let '(err, h') := syncAliases o rules h in
  addresses (rest h') = (addresses (rest h) ∖ removed_aliases rules h) ∪ added_aliases rules h
  ∧ removed_aliases rules h ⊆ list_to_set (recorded_aliases h) ∖ desired_aliases rules
  ∧ added_aliases rules h ⊆ desired_aliases rules ∖ list_to_set (recorded_aliases h)
  ∧ (err = None → list_to_set (recorded_aliases h') = desired_aliases rules).
Proof.
  intros Hl Hp. pose proof (sync_addresses rules h) as Ha. pose proof (removed_stale rules h) as Hr. pose proof (added_missing rules h) as Hm.
  destruct (syncAliases o rules h) as [err h'] eqn:E. split_and!; [exact Ha|done..|]. intros ->.
  unfold syncAliases in E. apply save_written in E; [|by rewrite !request_each_files by auto].
  unfold recorded_aliases, loadManagedAliases. rewrite (load_file _ _ _ _ _ _ E (Hp _)). apply order_set.
Qed.

End Service.

(** ** The handlers *)

(** None of the module's files is a link. *)
Definition sysctlPath : string := "/etc/sysctl.d/60-tentacle.conf".

Definition no_links (h : Host Sys) : Prop := ∀ p t, p ∈ [configPath; rulesPath; aliasesPath; sysctlPath] → files h !! p ≠ Some (Link t).

Lemma save_plain dir mkdir path what data h : no_links h → no_links (save dir mkdir path what data h).2.
Proof. intros Hl p t Hp Ht. eapply Hl; [exact Hp|]. by apply save_no_links in Ht. Qed.

Lemma load_other {A} what path (parse : string → option (list A)) (h h' : Host Sys) : files h' !! path = files h !! path →
  (∀ t, files h !! path ≠ Some (Link t)) → load what path parse h' = load what path parse h.
Proof.
  intros E Hl. unfold load, resolve. cbn. rewrite E. destruct (files h !! path) as [[]|] eqn:E2; try by rewrite E, E2.
  by destruct (Hl target).
Qed.

(** The module's four files lie in none of the directories' places. *)
Lemma not_above p dir : p ∈ [configPath; rulesPath; aliasesPath; sysctlPath] → dir ∈ [configDir; rulesDir; "/etc/sysctl.d"] → p ∉ ancestors dir.
Proof.
  intros Hp Hd. apply (bool_decide_unpack (p ∉ ancestors dir)).
  assert (Hall : forallb (λ p, forallb (λ dir, bool_decide (p ∉ ancestors dir)) [configDir; rulesDir; "/etc/sysctl.d"])
    [configPath; rulesPath; aliasesPath; sysctlPath] = true) by (vm_compute; reflexivity).
  rewrite forallb_forall in Hall. specialize (Hall p). rewrite forallb_forall in Hall.
  rewrite (Hall (proj1 (list_elem_of_In _ _) Hp) dir (proj1 (list_elem_of_In _ _) Hd)). done.
Qed.



Definition module_files : list string := [configPath; rulesPath; aliasesPath; sysctlPath].

(** Of the module's files only [path] may be another one. *)
Definition frame (path : string) (h h' : Host Sys) : Prop :=
  (∀ p, p ∈ module_files → p ≠ path → files h' !! p = files h !! p) ∧ no_links h'.

Lemma save_frame dir mkdir path what data h : no_links h → path ∈ module_files → dir ∈ [configDir; rulesDir; "/etc/sysctl.d"] →
  frame path h (save dir mkdir path what data h).2.
Proof.
  intros Hl Hp Hd. split; [|by apply save_plain]. intros p Hin Hne. apply save_other; [|done|by apply not_above].
  intros t. by apply Hl.
Qed.

Lemma saved_file dir mkdir path what data h h' : save dir mkdir path what data h = (None, h') → no_links h → path ∈ module_files →
  dir ∈ [configDir; rulesDir; "/etc/sysctl.d"] → files h' !! path = Some (File data) ∧ frame path h h' ∧ rest h' = rest h.
Proof.
  intros E Hl Hp Hd. split; [|split].
  - eapply save_written; [exact E|]. intros t. by apply Hl.
  - pose proof (save_frame dir mkdir path what data h Hl Hp Hd) as Hf. by rewrite E in Hf.
  - pose proof (save_rest dir mkdir path what data h) as Hr. by rewrite E in Hr.
Qed.

Lemma same_files path (h h' : Host Sys) : no_links h → files h' = files h → frame path h h'.
Proof. intros Hl E. split; [by rewrite E|]. intros p t. rewrite E. apply Hl. Qed.

Lemma frame_trans path h1 h2 h3 : frame path h1 h2 → frame path h2 h3 → frame path h1 h3.
Proof. intros [A1 _] [A2 B2]. split; [|done]. intros p Hp Hne. by rewrite A2, A1. Qed.

Section Handlers.
Context `{S : NetworkService Sys} `{!AddressService S} `{!FirewallCommands}.
Variable o : alias_order.
Variable now : Z.
Variable moduleID : string.
Hypothesis Hrules : ∀ l, rules_parse (rules_text l) = Some l.

Lemma sync_frame rules (h : Host Sys) : no_links h → frame aliasesPath h (syncAliases o rules h).2.
Proof.
  intros Hl. unfold syncAliases, saveManagedAliases. eapply frame_trans; [|apply save_frame; [|set_solver|set_solver]].
  - apply same_files; [done|]. by rewrite !request_each_files by auto.
  - intros p t. rewrite !request_each_files by auto. apply Hl.
Qed.

Lemma forwarding_frame (h : Host Sys) : no_links h → frame sysctlPath h (enableForwarding h).2 ∧ addresses (rest (enableForwarding h).2) = addresses (rest h).
Proof.
  intros Hl. unfold enableForwarding. destruct (sysctl_law ["-w"; "net.ipv4.ip_forward=1"] h) as [Hf Ha].
  destruct (combined "sysctl" ["-w"; "net.ipv4.ip_forward=1"] h) as [[out ok] h1]. cbn in Hf, Ha.
  pose proof (same_files sysctlPath h h1 Hl Hf) as G1. destruct ok; cbn; [|by split].
  pose proof (save_frame "/etc/sysctl.d" "sysctl.d directory" sysctlPath "sysctl config" ("net.ipv4.ip_forward = 1" +:+ newline) h1 (proj2 G1)
    ltac:(set_solver) ltac:(set_solver)) as G2.
  pose proof (save_rest "/etc/sysctl.d" "sysctl.d directory" sysctlPath "sysctl config" ("net.ipv4.ip_forward = 1" +:+ newline) h1) as G3.
  fold sysctlPath. destruct (save _ _ sysctlPath _ _ h1) as [err h2]. cbn in *. split; [by eapply frame_trans|]. by rewrite G3.
Qed.

Lemma publish_rules_same (h : Host Sys) : files (publishRules now moduleID h).2 = files h ∧ addresses (rest (publishRules now moduleID h).2) = addresses (rest h).
Proof.
  unfold publishRules, state_message, getRuleset. destruct (loadConfig h); [done|].
  destruct (nft_law ["-j"; "list"; "ruleset"] h) as [Hf Ha]. by destruct (combined "nft" ["-j"; "list"; "ruleset"] h) as [[out []] h1].
Qed.

(** The answer of a later get-config. *)
Lemma get_saved req rules (h : Host Sys) : files h !! configPath = Some (File (rules_text rules)) →
  handleGetConfig now req h = mkNftResponse (fqRequestID req) true "" (Some rules) now.
Proof. intros Hf. unfold handleGetConfig, loadConfig. by rewrite (load_file _ _ _ _ _ _ Hf (Hrules rules)). Qed.

(** In the words of [applied_rules_in_force]. *)
Lemma apply_in_force req (h : Host Sys) resp msg h' : no_links h →
  handleApplyConfig o now moduleID req h = (resp, msg, h') → fpSuccess resp = true →
  (∀ get, handleGetConfig now get h' = mkNftResponse (fqRequestID get) true "" (Some (fqNatRules req)) now)
  ∧ read_file (files h') rulesPath = Some (generateRules (fqNatRules req))
  ∧ ∃ ha, addresses (rest ha) = addresses (rest h) ∧ recorded_aliases ha = recorded_aliases h
    ∧ addresses (rest h') = (addresses (rest h) ∖ removed_aliases (fqNatRules req) ha) ∪ added_aliases o (fqNatRules req) ha.
Proof.
  intros Hl. unfold handleApplyConfig, saveConfig, writeRulesFile.
  destruct (save configDir "config dir" configPath "config" _ h) as [[e|] h1] eqn:E1; [by intros [= <- _ _]|].
  apply saved_file in E1 as (F1 & [P1 L1] & R1); [|done|set_solver|set_solver].
  destruct (save rulesDir "rules dir" rulesPath "rules file" _ h1) as [[e|] h2] eqn:E2; [by intros [= <- _ _]|].
  apply saved_file in E2 as (F2 & [P2 L2] & R2); [|done|set_solver|set_solver].
  unfold applyRules. destruct (nft_law ["-f"; rulesPath] h2) as [F3 A3].
  destruct (combined "nft" ["-f"; rulesPath] h2) as [[out ok] h3]. cbn in F3, A3. destruct ok; [|by intros [= <- _ _]].
  assert (L3 : no_links h3) by (intros p t; rewrite F3; apply L2).
  assert (Er : recorded_aliases h3 = recorded_aliases h).
  { unfold recorded_aliases, loadManagedAliases. rewrite (load_other _ _ _ h h3); [done| |intros t; apply Hl; set_solver].
    rewrite F3, P2, P1; [done|set_solver..| |set_solver|]; vm_compute; discriminate. }
  pose proof (sync_frame (fqNatRules req) h3 L3) as [P4 L4].
  pose proof (sync_addresses o (fqNatRules req) h3) as A4.
  destruct (syncAliases o (fqNatRules req) h3) as [err h4]. cbn in P4, L4, A4.
  pose proof (forwarding_frame h4 L4) as [[P5 L5] A5]. destruct (enableForwarding h4) as [fw h5]. cbn in P5, L5, A5.
  pose proof (publish_rules_same h5) as [F6 A6]. destruct (publishRules now moduleID h5) as [m h6]. cbn in F6, A6.
  intros [= <- <- <-] _. assert (Hc : files h6 !! configPath = Some (File (rules_text (fqNatRules req)))).
  { rewrite F6, P5, P4, F3, P2, F1; [done|set_solver|by vm_compute|set_solver|by vm_compute|set_solver|by vm_compute]. }
  assert (Hs : files h6 !! rulesPath = Some (File (generateRules (fqNatRules req)))).
  { rewrite F6, P5, P4, F3, F2; [done|set_solver|by vm_compute|set_solver|by vm_compute]. }
  split; [intros get; by apply get_saved|]. split.
  - unfold read_file. by rewrite (stat_node _ _ _ Hs).
  - exists h3. split_and!; [by rewrite A3, R2, R1|exact Er|]. rewrite A6, A5, A4, A3, R2, R1. done.
Qed.

(** Rules that were applied are in force. When apply-config succeeds, get-config answers
    with exactly these rules, the script on disk, which nft has accepted, is the one generated from them, and the
    addresses have changed as [aliases_follow_rules] says, by the requests that succeeded on
    the machine [ha] that had accepted the script. *)
Theorem applied_rules_in_force req (h : Host Sys) resp msg h' : no_links h →
  handleApplyConfig o now moduleID req h = (resp, msg, h') → fpSuccess resp = true →
  (∀ get, handleGetConfig now get h' = mkNftResponse (fqRequestID get) true "" (Some (fqNatRules req)) now)
  ∧ read_file (files h') rulesPath = Some (generateRules (fqNatRules req))
  ∧ ∃ ha, addresses (rest ha) = addresses (rest h) ∧ recorded_aliases ha = recorded_aliases h
    ∧ addresses (rest h') = (addresses (rest h) ∖ removed_aliases (fqNatRules req) ha) ∪ added_aliases o (fqNatRules req) ha.
Proof. apply apply_in_force. Qed.

(** Rules that nft refuses stay. When nft does not accept the script, apply-config
    fails and neither aliases nor forwarding are touched; but the configuration was
    saved before, so get-config answers with the refused rules, and an export contains them. *)
Theorem refused_rules_stay req (h h1 : Host Sys) : no_links h →
  saveConfig (fqNatRules req) h = (None, h1) → (∀ h, (combined "nft" ["-f"; rulesPath] h).1.2 = false) →
  let '(resp, msg, h') := handleApplyConfig o now moduleID req h in
  fpSuccess resp = false ∧ msg = None ∧ addresses (rest h') = addresses (rest h)
  ∧ ∀ get, handleGetConfig now get h' = mkNftResponse (fqRequestID get) true "" (Some (fqNatRules req)) now.
Proof.
  intros Hl E Hn. unfold handleApplyConfig. rewrite E. unfold saveConfig in E.
  apply saved_file in E as (F1 & [P1 L1] & R1); [|done|set_solver|set_solver]. unfold writeRulesFile.
  pose proof (save_frame rulesDir "rules dir" rulesPath "rules file" (generateRules (fqNatRules req)) h1 L1 ltac:(set_solver) ltac:(set_solver)) as [P2 L2].
  pose proof (save_rest rulesDir "rules dir" rulesPath "rules file" (generateRules (fqNatRules req)) h1) as R2.
  destruct (save rulesDir "rules dir" rulesPath "rules file" (generateRules (fqNatRules req)) h1) as [[e|] h2]; cbn in P2, L2, R2.
  { split_and!; [done..| |]; [by rewrite R2, R1|]. intros get. apply get_saved. rewrite P2; [exact F1|set_solver|by vm_compute]. }
  unfold applyRules. destruct (nft_law ["-f"; rulesPath] h2) as [F3 A3]. specialize (Hn h2).
  destruct (combined "nft" ["-f"; rulesPath] h2) as [[out ok] h3]. cbn in F3, A3, Hn. subst ok. cbn.
  split_and!; [done..| |]; [by rewrite A3, R2, R1|]. intros get. apply get_saved. rewrite F3, P2; [exact F1|set_solver|by vm_compute].
Qed.

End Handlers.

Lemma list_filter_nothing {A} (f : A → bool) l : Forall (λ a, f a = false) l → List.filter f l = [].
Proof. induction 1 as [|a l Ha _ IH]; cbn; [done|]. by rewrite Ha. Qed.

(** C23: An alias that could not be added is not tried again. When rules are applied while
    the network module does not answer, their aliases are recorded as if they had been
    added; applying the same rules again when it does answer changes no address. *)
Theorem failed_alias_never_retried `{S : NetworkService Sys} `{!AddressService S} o rules h h1 :
  no_links h → (∀ l, aliases_parse (aliases_text l) = Some l) →
  @syncAliases Sys no_network _ o rules h = (None, h1) →
  addresses (rest (syncAliases o rules h1).2) = addresses (rest h).
Proof.
  intros Hl Hp E. unfold syncAliases in E.
  assert (Hno : ∀ action l (h : Host Sys), @request_each Sys no_network action l h = h).
  { intros action l. induction l as [|a l IH]; intros h0; [done|]. apply (IH h0). }
  rewrite !Hno in E. unfold saveManagedAliases in E.
  apply saved_file in E as (F & _ & R); [|done|set_solver|set_solver].
  assert (Er : recorded_aliases h1 = o (desired_aliases rules)).
  { unfold recorded_aliases, loadManagedAliases. by rewrite (load_file _ _ _ _ _ _ F (Hp _)). }
  assert (Hs : stale rules h1 = [] ∧ missing o rules h1 = []).
  { unfold stale, missing. rewrite Er. split; apply list_filter_nothing, Forall_forall; intros a Ha; apply negb_false_iff, bool_decide_eq_true; [|done].
    by rewrite (in_order_perm o), elem_of_elements in Ha. }
  rewrite sync_addresses. unfold removed_aliases, added_aliases. destruct Hs as [-> ->]. cbn. rewrite R. set_solver.
Qed.

(** C22: A firewall manifest comes into force. When the manifest of a machine's rules has been
    applied through the firewall module, with the network module behind it, an export gives the
    same rules again and the script that nft has accepted is generated from them. Of the
    interfaces' addresses exactly those change for which ip has carried out what it was asked:
    to remove aliases recorded before that no enabled rule asks for, and to add those that an
    enabled rule asks for ([asked_for]) and that were not recorded. (So an alias recorded before
    that is not there stays away, and so does one that ip refuses, although it is recorded from
    now on.) The manifest has a rule, the text of the rules can be read again, and none of the
    module's files is a link. *)
Theorem firewall_manifest_in_force `{NetworkText} `{AddressCommand} `{FirewallCommands} (o : ranging) oa now moduleID hd rules src
    (s s' : Site (Host Sys)) res :
  (∀ l, rules_parse (rules_text l) = Some l) → rules ≠ [] → no_links (peers s) →
  let _ := module_peers o oa now moduleID in
  Apply o now [mkResource hd (NftablesResource rules)] src s = (Some res, None, s') →
  let _ := network_service o now in
  exportNftables s' = ([mkResource (NewHeader KindNftables "default") (NftablesResource rules)], s')
  ∧ read_file (files (peers s')) rulesPath = Some (generateRules rules)
  ∧ ∃ ha, addresses (rest ha) = addresses (rest (peers s)) ∧ recorded_aliases ha = recorded_aliases (peers s)
    ∧ addresses (rest (peers s')) = (addresses (rest (peers s)) ∖ removed_aliases rules ha) ∪ added_aliases oa rules ha
    ∧ removed_aliases rules ha ⊆ list_to_set (recorded_aliases (peers s)) ∖ desired_aliases rules
    ∧ added_aliases oa rules ha ⊆ desired_aliases rules ∖ list_to_set (recorded_aliases (peers s))
    ∧ (∀ a, a ∈ stale rules ha ↔ a ∈ recorded_aliases (peers s) ∧ ¬ asked_for rules a)
    ∧ (∀ a, a ∈ missing oa rules ha ↔ asked_for rules a ∧ a ∉ recorded_aliases (peers s)).
Proof.
  intros Hrules Hne Hl M. unfold Apply. destruct (Validate o _); [|done]. cbn -[handleApplyConfig].
  unfold applyNftables. cbn -[handleApplyConfig].
  destruct (@handleApplyConfig Sys _ (network_service o now) _ oa now moduleID (mkNftRequest "" "apply-config" rules) (peers s)) as [[resp msg] h'] eqn:E.
  destruct (fpSuccess resp) eqn:Es; [|done]. intros [= <- <-]. cbn [peers].
  destruct (apply_in_force oa now moduleID Hrules _ _ _ _ _ Hl E Es) as (Hg & Hs & ha & A1 & A2 & A3). cbn [fqNatRules] in *. split; [|split; [done|]].
  - unfold exportNftables. cbn -[handleGetConfig]. rewrite Hg. cbn. by destruct rules.
  - exists ha. rewrite <- A2. split_and!; [done..|apply removed_stale|apply added_missing|intros a; apply stale_asked|intros a; apply missing_asked].
Qed.

End Facts.

(** ** The script *)

Definition lf : ascii := "010"%char.
Definition one_line (s : string) : Prop := lf ∉ chars s.

Lemma split_lines a b : GoText.split lf (a +:+ newline +:+ b) = GoText.split lf a ++ GoText.split lf b.
Proof.
  unfold GoText.split. rewrite chars_app. change (chars (newline +:+ b)) with (lf :: chars b).
  by rewrite Topics.split_chars_app, fmap_app.
Qed.

Lemma split_line s : one_line s → GoText.split lf s = [s].
Proof. intros Hs. unfold GoText.split. rewrite Topics.split_chars_none by done. cbn. by rewrite str_chars. Qed.

Lemma one_line_app a b : one_line (a +:+ b) ↔ one_line a ∧ one_line b.
Proof. unfold one_line. rewrite chars_app, not_elem_of_app. done. Qed.

Lemma one_line_join sep l : one_line sep → Forall one_line l → one_line (str_join sep l).
Proof.
  intros Hs Hl. unfold str_join. induction Hl as [|a [|b l] Ha Hl IH]; cbn; [by intros []%elem_of_nil|done|].
  rewrite !one_line_app. auto.
Qed.

(** The texts of a rule that reach the script. *)
Definition rule_texts (r : NatRule) : list string :=
  [nrProtocol r; nrConnectingDevices r; nrIncomingInterface r; nrOutgoingInterface r; nrNatAddr r; nrOriginalPort r;
   nrTranslatedPort r; nrDeviceAddr r; nrDeviceName r; nrDoubleNatAddr r; nrComment r].

Lemma lower_newline c : char_of (to_lower_byte (byte_of c)) = lf → c = lf.
Proof. destruct c as [[] [] [] [] [] [] [] []]; vm_compute; congruence. Qed.

Lemma one_line_lower s : one_line s → one_line (to_lower s).
Proof.
  unfold one_line, to_lower, bytes_string, string_bytes. rewrite chars_str. intros Hs Hin. apply Hs.
  apply list_elem_of_fmap in Hin as (b & E & (b' & -> & Hb)%list_elem_of_fmap).
  apply list_elem_of_fmap in Hb as (c & -> & Hc). symmetry in E. by apply lower_newline in E as <-.
Qed.

Lemma one_line_quoted s : one_line s → one_line (quoted s).
Proof. intros Hs. unfold quoted. rewrite !one_line_app. split_and!; [|done|]; by vm_compute; intros Hin; set_solver. Qed.

Lemma one_line_when b s : one_line s → Forall one_line (when b s).
Proof. destruct b; cbn; auto. Qed.

Ltac one_line_tac := repeat first
  [ assumption | apply one_line_lower | apply one_line_quoted | apply one_line_when | apply Forall_app_2 | apply Forall_cons_2 | apply Forall_nil_2
  | apply one_line_app; split | progress case_match | by vm_compute; intros Hin; set_solver ].

Lemma prerouting_one_line r : Forall one_line (rule_texts r) → one_line (preroutingLine r).
Proof.
  unfold rule_texts. intros Hr. repeat (apply Forall_cons in Hr as [? Hr]). unfold preroutingLine.
  apply one_line_join; [by vm_compute; intros Hin; set_solver|]. one_line_tac.
Qed.

Lemma postrouting_one_line r : Forall one_line (rule_texts r) → one_line (postroutingLine r).
Proof.
  unfold rule_texts. intros Hr. repeat (apply Forall_cons in Hr as [? Hr]). unfold postroutingLine.
  apply one_line_join; [by vm_compute; intros Hin; set_solver|]. one_line_tac.
Qed.

(** A line ends with its target, so it is never empty. *)
Lemma join_set l x : x ≠ "" → set_ (str_join " " (l ++ [x])) = true.
Proof.
  intros Hx. unfold set_. apply negb_true_iff, String.eqb_neq. intros E.
  apply (f_equal str_len) in E. unfold str_join in E. destruct l as [|a l]; [by destruct x|].
  assert (Hl : ∀ l, l ≠ [] → str_len (String.concat " " (l ++ [x])) = (str_len (String.concat " " l) + 1 + str_len x)%nat).
  { clear. induction l as [|a [|b l] IH]; intros Hl; [done| |].
    - cbn. rewrite <- !length_chars, !chars_app, !length_app. cbn. lia.
    - change (String.concat " " ((a :: b :: l) ++ [x])) with (a +:+ " " +:+ String.concat " " ((b :: l) ++ [x])).
      change (String.concat " " (a :: b :: l)) with (a +:+ " " +:+ String.concat " " (b :: l)).
      rewrite <- !length_chars, !chars_app, !length_app, !length_chars, IH by done. cbn. lia. }
  rewrite Hl in E by done. cbn in E. lia.
Qed.

Lemma prerouting_set r : set_ (preroutingLine r) = true.
Proof. unfold preroutingLine. rewrite !app_assoc. by apply join_set. Qed.

Lemma postrouting_set r : set_ (postroutingLine r) = true.
Proof. unfold postroutingLine. rewrite !app_assoc. by apply join_set. Qed.

(** Lines with their ends. *)
Fixpoint text_of (l : list string) : string := match l with [] => "" | s :: l => s +:+ newline +:+ text_of l end.

Lemma split_text l : Forall one_line l → GoText.split lf (text_of l) = l ++ [""].
Proof. induction 1 as [|s l Hs _ IH]; [done|]. cbn [text_of]. by rewrite split_lines, split_line, IH. Qed.

Lemma text_of_app l1 l2 : text_of (l1 ++ l2) = text_of l1 +:+ text_of l2.
Proof. induction l1 as [|s l1 IH]; cbn [text_of app]; [done|]. by rewrite IH, !string_app_assoc. Qed.

Lemma rule_lines_text line l : (∀ r, set_ (line r) = true) → rule_lines line l = text_of (map (λ r, "    " +:+ line r) l).
Proof.
  intros Hl. unfold rule_lines. induction l as [|r l IH]; [done|]. cbn [map text_of]. rewrite <- IH, Hl.
  generalize (map (λ r, if set_ (line r) then "    " +:+ line r +:+ newline else "") l). intros [|b L].
  - change (str_join "" ["    " +:+ line r +:+ newline]) with ("    " +:+ line r +:+ newline).
    change (newline +:+ str_join "" []) with newline. by rewrite string_app_assoc.
  - change (str_join "" (("    " +:+ line r +:+ newline) :: b :: L)) with (("    " +:+ line r +:+ newline) +:+ str_join "" (b :: L)).
    by rewrite <- !string_app_assoc.
Qed.

Lemma one_line_itoa n : one_line (itoa (Z.of_nat n)).
Proof.
  unfold one_line. intros Hin. destruct (itoa_digits (Z.of_nat n) ltac:(lia)) as [Hd _].
  apply (proj1 (Forall_forall _ _) Hd) in Hin. by vm_compute in Hin.
Qed.

Definition script_head (n : nat) : list string :=
  ["#!/usr/sbin/nft -f"; ""; "# Auto-generated by tentacle nftables module"; "# Rules: " +:+ itoa (Z.of_nat n); "";
   "table ip tentacle_nat"; "delete table ip tentacle_nat"; ""; "table ip tentacle_nat {"; "  chain prerouting {";
   "    type nat hook prerouting priority dstnat; policy accept;"].

Definition script_middle : list string :=
  ["  }"; ""; "  chain postrouting {"; "    type nat hook postrouting priority srcnat; policy accept;"].

(** The script has one line for each rule. When no text of a rule has a line break, the
    script's lines are its fixed frame, which replaces the table as a whole, with the
    destination line of every enabled rule, in order, in the chain prerouting, and the
    source line of every enabled rule with double NAT in the chain postrouting. *)
Theorem script_lines rules : Forall (λ r, Forall one_line (rule_texts r)) rules →
  GoText.split lf (generateRules rules) = script_head (length rules)
    ++ map (λ r, "    " +:+ preroutingLine r) (List.filter nrEnabled rules) ++ script_middle
    ++ map (λ r, "    " +:+ postroutingLine r) (List.filter (λ r, nrEnabled r && nrDoubleNat r) rules) ++ ["  }"; "}"; ""].
Proof.
  intros Hr. assert (Hf : ∀ f r, r ∈ List.filter f rules → Forall one_line (rule_texts r)).
  { intros f r [Hin _]%list_elem_of_In%filter_In. apply (proj1 (Forall_forall _ _) Hr). by apply list_elem_of_In. }
  assert (E : generateRules rules = text_of (script_head (length rules)) +:+ rule_lines preroutingLine (List.filter nrEnabled rules)
    +:+ text_of script_middle +:+ rule_lines postroutingLine (List.filter (λ r, nrEnabled r && nrDoubleNat r) rules) +:+ text_of ["  }"; "}"])
    by (unfold generateRules, script_head, script_middle; cbn [text_of]; by rewrite <- !string_app_assoc).
  rewrite E, !rule_lines_text by first [apply prerouting_set | apply postrouting_set].
  rewrite <- !text_of_app, split_text; [by rewrite <- !app_assoc|].
  assert (Hc : ∀ s, negb (existsb (Ascii.eqb lf) (chars s)) = true → one_line s).
  { intros s Hs Hin. apply negb_true_iff, not_true_iff_false in Hs. apply Hs, existsb_exists. exists lf.
    split; [by apply list_elem_of_In|apply Ascii.eqb_refl]. }
  rewrite !Forall_app, !Forall_fmap. split_and!.
  - repeat constructor; try (apply Hc; reflexivity). apply one_line_app. split; [by apply Hc|apply one_line_itoa].
  - apply Forall_forall. intros r Hin. apply one_line_app. split; [by apply Hc|]. by eapply prerouting_one_line, Hf.
  - repeat constructor; by apply Hc.
  - apply Forall_forall. intros r Hin. apply one_line_app. split; [by apply Hc|]. by eapply postrouting_one_line, Hf.
  - repeat constructor; by apply Hc.
Qed.
