(* ===== verification/FirewallExamples.v ===== *)
(** The firewall and network modules on a host whose command ip keeps a set of addresses: the
    theorems of FirewallFacts applied to concrete rules. *)

From S2P Require Export FirewallFacts.

#[local] Open Scope Z_scope.
#[local] Existing Instance ascii_tables.

(** ** A codec of rules and aliases *)

Fixpoint bits (p : positive) : string :=
  match p with xI p => String "1" (bits p) | xO p => String "0" (bits p) | xH => "" end.

Fixpoint of_bits (s : string) : positive :=
  match s with String c s => if Ascii.eqb c "1" then xI (of_bits s) else xO (of_bits s) | EmptyString => xH end.

Lemma of_bits_bits p : of_bits (bits p) = p.
Proof. induction p; cbn; congruence. Qed.

Definition of_bool (b : bool) : string := if b then "1" else "".

Definition fields_of (r : NatRule) : list string :=
  [nrID r; of_bool (nrEnabled r); nrProtocol r; nrConnectingDevices r; nrIncomingInterface r; nrOutgoingInterface r; nrNatAddr r;
   nrOriginalPort r; nrTranslatedPort r; nrDeviceAddr r; nrDeviceName r; of_bool (nrDoubleNat r); nrDoubleNatAddr r; nrComment r].

Definition rule_of (l : list string) : option NatRule :=
  match l with
  | [id; e; p; c; i; o; n; op; tp; d; dn; db; da; co] =>
      Some (mkNatRule id (String.eqb e "1") p c i o n op tp d dn (String.eqb db "1") da co)
  | _ => None
  end.

Lemma rule_of_fields r : rule_of (fields_of r) = Some r.
Proof. by destruct r as [? [] ? ? ? ? ? ? ? ? ? [] ? ?]. Qed.

#[export] Instance bit_text : FirewallText := {|
  rules_text l := bits (encode (map fields_of l));
  rules_parse s := l ← decode (of_bits s); mapM rule_of l;
  aliases_text l := bits (encode l);
  aliases_parse s := decode (of_bits s);
|}.

Lemma rules_law l : rules_parse (rules_text l) = Some l.
Proof.
  cbn. rewrite of_bits_bits, decode_encode. cbn. induction l as [|r l IH]; [done|].
  cbn [map mapM]. by rewrite rule_of_fields, IH.
Qed.

Lemma aliases_law l : aliases_parse (aliases_text l) = Some l.
Proof. cbn. by rewrite of_bits_bits, decode_encode. Qed.

#[export] Instance no_netplan : NetworkText := {| netplan_text _ := ""; netplan_parse _ := None; ip_parse _ := None |}.

(** ** A host *)

Definition addresses (s : gset alias) : gset alias := s.

Definition run_ip (args : list string) (s : gset alias) : bool * gset alias :=
  match args with
  | ["addr"; action; a; "dev"; i] =>
      if String.eqb action "add" then (negb (bool_decide ((i, a) ∈ s)), {[(i, a)]} ∪ s)
      else (bool_decide ((i, a) ∈ s), s ∖ {[(i, a)]})
  | _ => (false, s)
  end.

(** nft accepts every script or none. *)
Definition linux (accepting : bool) : System (gset alias) := {|
  exec _ _ name args h :=
    if String.eqb name "ip" then let '(ok, s) := run_ip args (rest h) in ("", "", ok, mkHost (files h) s)
    else if String.eqb name "nft" then ("", "", accepting, h)
    else ("", "", true, h);
  spawn _ _ h := (true, h);
  http _ _ r := (None, r);
|}.

Lemma linux_commands b : @FirewallCommands _ (linux b) addresses.
Proof. by split. Qed.

Lemma linux_ip b : @AddressCommand _ (linux b) addresses.
Proof.
  split. intros del i a h. cbn. assert (Hno : bool_decide ((i, a) ∈ rest h) = true → {[(i, a)]} ∪ rest h = rest h) by
    (intros Hin%bool_decide_eq_true; set_solver).
  destruct del; cbn; unfold addresses; destruct (bool_decide ((i, a) ∈ rest h)) eqn:E; cbn; split; try done.
  - apply bool_decide_eq_false in E. set_solver.
  - by apply Hno.
Qed.

Definition element_order : alias_order := {| in_order := λ s, elements s; in_order_perm := λ s, Permutation_refl _ |}.

(** A web server on the inside, reached at an address of its own. *)
Definition web : NatRule := mkNatRule "web" true "TCP" "any" "eth0" "eth1" "10.1.0.7" "80" "8080" "192.168.0.7" "server" true "" "".

Definition old : NatRule := mkNatRule "old" true "udp" "any" "eth0" "eth1" "10.1.0.9" "53" "" "192.168.0.9" "" false "" "".

Definition disk : fs := <["/etc" := Dir]> (<["/etc/tentacle" := Dir]> (<["/etc/nftables.d" := Dir]> (<["/etc/sysctl.d" := Dir]>
  (<["/etc/tentacle/managed-aliases.json" := File (aliases_text [("eth0", "10.1.0.9/32")])]> ∅)))).

Definition router : Host (gset alias) := mkHost disk {[("eth0", "10.1.0.9/32"); ("eth0", "10.1.0.1/24")]}.

Lemma disk_links : no_links router.
Proof.
  intros p t Hp E. assert (Hall : forallb (λ p, match files router !! p with Some (Link _) => false | _ => true end) module_files = true)
    by (vm_compute; reflexivity).
  rewrite forallb_forall in Hall. specialize (Hall p (proj1 (list_elem_of_In _ _) Hp)). by rewrite E in Hall.
Qed.

Definition applied_request : NftablesCommandRequest := mkNftRequest "1" "apply-config" [web].

Definition service (b : bool) : NetworkService (gset alias) := @network_service _ (linux b) _ map_order 5.

Definition apply_on (b : bool) (h : Host (gset alias)) : NftablesCommandResponse * option NftablesStateMessage * Host (gset alias) :=
  @handleApplyConfig _ (linux b) (service b) _ element_order 5 "nftables" applied_request h.

Lemma applied_rules_in_force_witness : let h' := (apply_on true router).2 in
  addresses (rest h') = {[("eth0", "10.1.0.7/32"); ("eth0", "10.1.0.1/24")]}
  ∧ handleGetConfig 5 (mkNftRequest "2" "get-config" []) h' = mkNftResponse "2" true "" (Some [web]) 5.
Proof.
  intros h'. pose proof (linux_commands true) as Hc. pose proof (linux_ip true) as Hi.
  destruct (@applied_rules_in_force _ (linux true) _ addresses (service true) (@network_serves _ (linux true) addresses _ Hi map_order 5) Hc element_order 5 "nftables" rules_law
    applied_request router (apply_on true router).1.1 (apply_on true router).1.2 h' disk_links) as (Hg & _ & _).
  - vm_compute. reflexivity.
  - vm_compute. reflexivity.
  - split; [|apply Hg]. apply (bool_decide_unpack _). vm_compute. exact I.
Defined.

(** The script of [web] and [old]: nft is given the ports and protocols as they come. *)
Lemma script_lines_witness : Forall (λ r, Forall one_line (rule_texts r)) [web; old]
  ∧ GoText.split lf (generateRules [web; old]) = script_head 2 ++ [
      "    iifname " +:+ quoted "eth0" +:+ " tcp ip daddr 10.1.0.7 dport 80 comment " +:+ quoted "server" +:+ " dnat to 192.168.0.7:8080";
      "    iifname " +:+ quoted "eth0" +:+ " udp ip daddr 10.1.0.9 dport 53 dnat to 192.168.0.9"]
    ++ script_middle ++ ["    oifname " +:+ quoted "eth1" +:+ " ip daddr 192.168.0.7 snat to 10.1.0.7"; "  }"; "}"; ""].
Proof.
  assert (Hl : Forall (λ r, Forall one_line (rule_texts r)) [web; old]).
  { assert (Hc : ∀ s, negb (existsb (Ascii.eqb lf) (chars s)) = true → one_line s).
    { intros s Hs Hin. apply negb_true_iff, not_true_iff_false in Hs. apply Hs, existsb_exists. exists lf.
      split; [by apply list_elem_of_In|apply Ascii.eqb_refl]. }
    repeat constructor; apply Hc; reflexivity. }
  split; [exact Hl|]. rewrite (script_lines [web; old] Hl). vm_compute. reflexivity.
Defined.

Lemma refused_rules_stay_witness : fpSuccess (apply_on false router).1.1 = false
  ∧ handleGetConfig 5 (mkNftRequest "2" "get-config" []) (apply_on false router).2 = mkNftResponse "2" true "" (Some [web]) 5.
Proof.
  pose proof (linux_commands false) as Hc. pose proof (linux_ip false) as Hi.
  pose proof (@refused_rules_stay _ (linux false) _ addresses (service false) (@network_serves _ (linux false) addresses _ Hi map_order 5) Hc
    element_order 5 "nftables" rules_law applied_request router (saveConfig [web] router).2 disk_links) as Hr.
  change (@handleApplyConfig _ _ _ _ element_order 5 "nftables" applied_request router) with (apply_on false router) in Hr.
  destruct (apply_on false router) as [[resp msg] h'] eqn:E. destruct Hr as (Hs & _ & _ & Hg).
  - vm_compute. reflexivity.
  - intros h. reflexivity.
  - split; [exact Hs|apply Hg].
Defined.

Definition unanswered : Host (gset alias) := (@syncAliases _ no_network _ element_order [web] router).2.

Lemma failed_alias_never_retried_witness :
  addresses (rest (@syncAliases _ (service true) _ element_order [web] unanswered).2) = addresses (rest router)
  ∧ ("eth0", "10.1.0.7/32") ∉ addresses (rest router).
Proof.
  pose proof (linux_ip true) as Hi. split.
  - apply (@failed_alias_never_retried _ _ addresses (service true) (@network_serves _ (linux true) addresses _ Hi map_order 5) element_order [web] router unanswered
      disk_links aliases_law). vm_compute. reflexivity.
  - apply (bool_decide_unpack _). vm_compute. exact I.
Defined.

Definition router_site : Site (Host (gset alias)) := mkSite (mkKV ∅ ∅ ∅ ∅ ∅ ∅ ∅ ∅) router.

Definition router_peers : Peers (Host (gset alias)) := @module_peers _ (linux true) _ _ map_order element_order 5 "nftables".

Definition router_after : Site (Host (gset alias)) :=
  (@Apply _ router_peers _ map_order 5 [mkResource (NewHeader KindNftables "default") (NftablesResource [web])] "gitops" router_site).2.

Lemma firewall_manifest_in_force_witness :
  @exportNftables _ router_peers router_after = ([mkResource (NewHeader KindNftables "default") (NftablesResource [web])], router_after)
  ∧ addresses (rest (peers router_after)) = {[("eth0", "10.1.0.7/32"); ("eth0", "10.1.0.1/24")]}.
Proof.
  destruct (@firewall_manifest_in_force _ (linux true) _ _ addresses _ (linux_ip true) (linux_commands true) map_order element_order 5 "nftables"
    (NewHeader KindNftables "default") [web] "gitops" router_site router_after
    (mkResult [(KindNftables, "default")] []) rules_law) as (He & _ & _).
  - discriminate.
  - exact disk_links.
  - vm_compute. reflexivity.
  - split; [exact He|]. apply (bool_decide_unpack _). vm_compute. exact I.
Defined.

(** A comment with a line break ends the rule and begins a line of its own choice. *)
Definition injected : NatRule := mkNatRule "x" true "" "" "" "" "" "" "" "10.0.0.1" "" false "" ("a" +:+ str [dquote] +:+ newline +:+ "drop #").

Example comment_breaks_out : GoText.split lf (preroutingLine injected)
  = ["comment " +:+ quoted "a"; "drop #" +:+ str [dquote] +:+ " dnat to 10.0.0.1"].
Proof. vm_compute. reflexivity. Qed.
