(* ===== verification/ApiGateway.v ===== *)
(** The gateway's configuration behind the HTTP API: internal/api, gateway.go with the
    synchronisation of network.go and modulestatus.go.

    A handler reads the configuration from its bucket, changes it and writes it back, and
    nothing keeps two requests apart; so a handler is a function of what it read, with the
    configuration to write or an error as its result, and [serve] runs one between two
    moments of the bucket. JSON is read and written outside: a body that is not valid is
    [None], like a stored configuration. What the modules answer is an argument; so is the
    order in which Go ranges over a map. *)

From S2P Require Export Network.

#[local] Open Scope Z_scope.

(** ** helpers.go *)

(** The status of an answer with its JSON, the text of an error or a value. *)
Definition answer (A : Type) : Type := Z * (string + A).

Definition writeJSON {A} (v : A) : answer A := (200, inr v).
Definition writeError {A} (status : Z) (message : string) : answer A := (status, inl message).

Definition isModuleRunning (k : KV) (serviceType : string) : bool :=
  existsb (λ kv : string * option string, bool_decide (kv.2 = Some serviceType)) (map_to_list (kvHeartbeats k)).

(** ** gateway.go *)

Section Config.
Context `{UnicodeTables}.
Variable now : Z.
(** Whether the bus refuses to write a key. *)
Variable refused : string → bool.
Implicit Types cfg : GatewayConfigKV.

Definition getGatewayConfig (k : KV) (gatewayID : string) : option GatewayConfigKV := mjoin (kvGateway k !! gatewayID).

Definition stamp cfg : GatewayConfigKV :=
  mkConfig (cfGatewayID cfg) (cfDevices cfg) (cfVariables cfg) (cfUdtTemplates cfg) (cfUdtVariables cfg) now.

(** The configuration as it is left, and the bucket when it was written: under the name in
    the configuration, which is not always the one it was read by. *)
Definition putGatewayConfig cfg (k : KV) : GatewayConfigKV * option KV :=
  let cfg := stamp cfg in
  (cfg, if refused (cfGatewayID cfg) then None else Some (with_gateway k (<[cfGatewayID cfg := Some cfg]> (kvGateway k)))).

Definition set_devices cfg m := mkConfig (cfGatewayID cfg) m (cfVariables cfg) (cfUdtTemplates cfg) (cfUdtVariables cfg) (cfUpdatedAt cfg).
Definition set_variables cfg m := mkConfig (cfGatewayID cfg) (cfDevices cfg) m (cfUdtTemplates cfg) (cfUdtVariables cfg) (cfUpdatedAt cfg).
Definition set_templates cfg m := mkConfig (cfGatewayID cfg) (cfDevices cfg) (cfVariables cfg) m (cfUdtVariables cfg) (cfUpdatedAt cfg).
Definition set_udts cfg m := mkConfig (cfGatewayID cfg) (cfDevices cfg) (cfVariables cfg) (cfUdtTemplates cfg) m (cfUpdatedAt cfg).

(** The loops that delete the entries of a map with a property. *)
Definition delete_where {A} (p : string → A → bool) (m : gmap string A) : gmap string A := filter (λ kv, p kv.1 kv.2 = false) m.

(** The loops that put a list into a map. *)
Definition insert_all {A} (key : A → string) (l : list A) (m : gmap string A) : gmap string A := fold_left (λ m a, <[key a := a]> m) l m.
Definition delete_all {A} (l : list string) (m : gmap string A) : gmap string A := fold_left (λ m k, delete k m) l m.

Definition template_used cfg (name : string) : bool :=
  existsb (λ kv, String.eqb (ucTemplateName kv.2) name) (map_to_list (cfUdtVariables cfg)).

Definition removeOrphanedTemplates cfg : GatewayConfigKV :=
  set_templates cfg (delete_where (λ name _, negb (template_used cfg name)) (cfUdtTemplates cfg)).

Definition remove_device_variables (deviceID : string) cfg : GatewayConfigKV :=
  set_udts (set_variables cfg (delete_where (λ _ v, String.eqb (vcDeviceID v) deviceID) (cfVariables cfg)))
    (delete_where (λ _ u, String.eqb (ucDeviceID u) deviceID) (cfUdtVariables cfg)).

(** What a handler does with the configuration it read. *)
Definition handler : Type := option GatewayConfigKV → answer GatewayConfigKV + GatewayConfigKV.

Definition not_found {B} (gatewayID : string) : answer GatewayConfigKV + B :=
  inl (writeError 404 ("gateway " +:+ quote gatewayID +:+ " not found")).

(** A handler that needs the configuration, and one that makes a new one. *)
Definition edit (gatewayID : string) (f : GatewayConfigKV → GatewayConfigKV) : handler :=
  λ found, match found with None => not_found gatewayID | Some cfg => inr (f cfg) end.

Definition new_config (gatewayID : string) : GatewayConfigKV := mkConfig gatewayID ∅ ∅ ∅ ∅ 0.

Definition edit_or_new (gatewayID : string) (f : GatewayConfigKV → GatewayConfigKV) : handler :=
  λ found, inr (f (default (new_config gatewayID) found)).

Definition with_body {B} (body : option B) (f : B → handler) : handler :=
  λ found, match body with None => inl (writeError 400 "invalid body") | Some b => f b found end.

Definition handleSetGatewayDevice (gatewayID : string) (body : option (string * GatewayDeviceConfig)) : handler :=
  with_body body (λ b found,
    if String.eqb b.1 "" then inl (writeError 400 "deviceId is required")
    else edit_or_new gatewayID (λ cfg, set_devices cfg (<[b.1 := b.2]> (cfDevices cfg))) found).

Definition handleDeleteGatewayDevice (gatewayID deviceID : string) : handler :=
  edit gatewayID (λ cfg, removeOrphanedTemplates (remove_device_variables deviceID (set_devices cfg (delete deviceID (cfDevices cfg))))).

Definition set_overrides (d : GatewayDeviceConfig) (overrides : gmap string string) : GatewayDeviceConfig :=
  mkDevice (dcProtocol d) (dcAutoManaged d) (dcHost d) (dcPort d) (dcSlot d) (dcEndpointURL d) (dcVersion d) (dcCommunity d) (dcV3Auth d)
    (dcUnitID d) (dcByteOrder d) (dcScanRate d) (dcDeadband d) (dcDisableRBE d) overrides.

Definition handleSetTemplateOverrides (gatewayID deviceID : string) (body : option (gmap string string)) : handler :=
  with_body body (λ overrides found,
    match found with
    | None => not_found gatewayID
    | Some cfg =>
        match cfDevices cfg !! deviceID with
        | None => inl (writeError 404 ("device " +:+ quote deviceID +:+ " not found"))
        | Some dev => inr (set_devices cfg (<[deviceID := set_overrides dev overrides]> (cfDevices cfg)))
        end
    end).

Definition named (id : string) (v : GatewayVariableConfig) : GatewayVariableConfig :=
  mkVarConfig id (vcDescription v) (vcDatatype v) (vcDefault v) (vcDeviceID v) (vcTag v) (vcCipType v) (vcBidirectional v) (vcDeadband v)
    (vcDisableRBE v) (vcHistoryEnabled v) (vcFunctionCode v) (vcModbusDatatype v) (vcByteOrder v) (vcAddress v).

Definition handleSetGatewayVariable (gatewayID variableID : string) (body : option GatewayVariableConfig) : handler :=
  with_body body (λ v, edit gatewayID (λ cfg, set_variables cfg (<[variableID := named variableID v]> (cfVariables cfg)))).

Definition handleSetGatewayVariables (gatewayID : string) (body : option (list GatewayVariableConfig)) : handler :=
  with_body body (λ vars, edit gatewayID (λ cfg, set_variables cfg (insert_all vcID vars (cfVariables cfg)))).

Definition handleDeleteGatewayVariable (gatewayID variableID : string) : handler :=
  edit gatewayID (λ cfg, set_variables cfg (delete variableID (cfVariables cfg))).

Definition handleDeleteGatewayVariables (gatewayID : string) (body : option (list string)) : handler :=
  with_body body (λ ids, edit gatewayID (λ cfg, set_variables cfg (delete_all ids (cfVariables cfg)))).

Definition handleDeleteGatewayUdtVariable (gatewayID udtVariableID : string) : handler :=
  edit gatewayID (λ cfg, removeOrphanedTemplates (set_udts cfg (delete udtVariableID (cfUdtVariables cfg)))).

Definition handleDeleteGatewayUdtVariables (gatewayID : string) (body : option (list string)) : handler :=
  with_body body (λ ids, edit gatewayID (λ cfg, removeOrphanedTemplates (set_udts cfg (delete_all ids (cfUdtVariables cfg))))).

(** The body of a synchronisation and of an import. *)
Record browsed := mkBrowsed {
  atomicVariables : list GatewayVariableConfig;
  udtTemplates : list GatewayUdtTemplateConfig;
  udtVariables : list GatewayUdtVariableConfig;
}.

Definition add_browsed (b : browsed) cfg : GatewayConfigKV :=
  set_udts (set_templates (set_variables cfg (insert_all vcID (atomicVariables b) (cfVariables cfg)))
    (insert_all tcName (udtTemplates b) (cfUdtTemplates cfg))) (insert_all ucID (udtVariables b) (cfUdtVariables cfg)).

Definition handleSyncGatewayDeviceVariables (gatewayID deviceID : string) (body : option browsed) : handler :=
  with_body body (λ b, edit_or_new gatewayID (λ cfg, removeOrphanedTemplates (add_browsed b (remove_device_variables deviceID cfg)))).

Definition handleImportGatewayBrowse (gatewayID : string) (body : option browsed) : handler :=
  with_body body (λ b, edit_or_new gatewayID (add_browsed b)).

Definition set_default (db : option Types.DeadBandConfig) (m : GatewayUdtTemplateMemberConfig) : GatewayUdtTemplateMemberConfig :=
  mkTemplateMember (tmName m) (tmDatatype m) (tmTemplateRef m) db (tmFunctionCode m) (tmModbusDatatype m).

(** The first member of the name; a later one of the same name keeps its default. *)
Fixpoint update_member (name : string) (db : option Types.DeadBandConfig) (l : list GatewayUdtTemplateMemberConfig)
    : list GatewayUdtTemplateMemberConfig :=
  match l with
  | [] => []
  | m :: l => if String.eqb (tmName m) name then set_default db m :: l else m :: update_member name db l
  end.

Definition set_member_deadbands (u : GatewayUdtVariableConfig) (m : gmap string Types.DeadBandOverride) : GatewayUdtVariableConfig :=
  mkUdtConfig (ucID u) (ucDeviceID u) (ucTag u) (ucTemplateName u) (ucMemberTags u) (ucMemberCipTypes u) m (ucDeadband u)
    (ucDisableRBE u) (ucHistoryEnabled u) (ucMemberAddresses u) (ucMemberByteOrders u).

Variable o : ranging.

Definition update_template (updates : gmap string (option Types.DeadBandConfig)) (t : GatewayUdtTemplateConfig) : GatewayUdtTemplateConfig :=
  mkTemplateConfig (tcName t) (tcVersion t) (fold_left (λ l kv, update_member kv.1 kv.2 l) (o _ updates) (tcMembers t)).

Definition update_instances (updates : gmap string (gmap string Types.DeadBandOverride)) (udts : gmap string GatewayUdtVariableConfig)
    : gmap string GatewayUdtVariableConfig :=
  fold_left (λ udts kv, match udts !! kv.1 with Some u => <[kv.1 := set_member_deadbands u kv.2]> udts | None => udts end)
    (o _ updates) udts.

Definition handleUpdateGatewayUdtConfig (gatewayID templateName : string)
    (body : option (gmap string (option Types.DeadBandConfig) * gmap string (gmap string Types.DeadBandOverride))) : handler :=
  with_body body (λ b, edit gatewayID (λ cfg,
    let cfg := match cfUdtTemplates cfg !! templateName with
      | Some t => set_templates cfg (<[templateName := update_template b.1 t]> (cfUdtTemplates cfg))
      | None => cfg
      end in
    set_udts cfg (update_instances b.2 (cfUdtVariables cfg)))).

(** The rest of a request: what the handler made of what it read is written to the bucket
    as it is by then. *)
Definition finish (r : answer GatewayConfigKV + GatewayConfigKV) (k : KV) : answer GatewayConfigKV * KV :=
  match r with
  | inl a => (a, k)
  | inr cfg =>
      match putGatewayConfig cfg k with
      | (_, None) => (writeError 500 "put gateway config", k)
      | (cfg, Some k) => (writeJSON cfg, k)
      end
  end.

Definition serve (gatewayID : string) (h : handler) (k : KV) : answer GatewayConfigKV * KV :=
  finish (h (getGatewayConfig k gatewayID)) k.

Definition handleListGateways (k : KV) : answer (list GatewayConfigKV) := writeJSON (omap snd (o _ (kvGateway k))).

(** ** network.go: the interfaces of the machine *)

Definition memberNames : list string := [
  "operstate"; "carrier"; "speed"; "mtu"; "mac"; "rxBytes"; "txBytes"; "rxPackets"; "txPackets";
  "rxErrors"; "txErrors"; "rxDropped"; "txDropped"].

Definition interface_template : GatewayUdtTemplateConfig :=
  mkTemplateConfig "NetworkInterface" "1.0" (map (λ m, mkTemplateMember m.1 m.2 "" None "" "") [
    ("operstate", "string"); ("carrier", "boolean"); ("speed", "number"); ("mtu", "number"); ("mac", "string");
    ("rxBytes", "number"); ("txBytes", "number"); ("rxPackets", "number"); ("txPackets", "number");
    ("rxErrors", "number"); ("txErrors", "number"); ("rxDropped", "number"); ("txDropped", "number")]).

Definition managed_device (protocol : string) : GatewayDeviceConfig :=
  mkDevice protocol true "" None None "" "" "" None None "" None None None ∅.

Definition set_managed (d : GatewayDeviceConfig) : GatewayDeviceConfig :=
  mkDevice (dcProtocol d) true (dcHost d) (dcPort d) (dcSlot d) (dcEndpointURL d) (dcVersion d) (dcCommunity d) (dcV3Auth d)
    (dcUnitID d) (dcByteOrder d) (dcScanRate d) (dcDeadband d) (dcDisableRBE d) (dcTemplateNameOverrides d).

(** The configuration with whether it has changed. *)
Definition synced : Type := GatewayConfigKV * bool.

Definition ensure_device (id : string) (s : synced) : synced :=
  let '(cfg, changed) := s in
  match cfDevices cfg !! id with
  | None => (set_devices cfg (<[id := managed_device id]> (cfDevices cfg)), true)
  | Some dev => if dcAutoManaged dev then s else (set_devices cfg (<[id := set_managed dev]> (cfDevices cfg)), true)
  end.

Definition any {A} (p : string → A → bool) (m : gmap string A) : bool := existsb (λ kv, p kv.1 kv.2) (map_to_list m).

Definition drop_devices (p : string → GatewayDeviceConfig → bool) (s : synced) : synced :=
  (set_devices s.1 (delete_where p (cfDevices s.1)), s.2 || any p (cfDevices s.1)).
Definition drop_variables (p : string → GatewayVariableConfig → bool) (s : synced) : synced :=
  (set_variables s.1 (delete_where p (cfVariables s.1)), s.2 || any p (cfVariables s.1)).
Definition drop_udts (p : string → GatewayUdtVariableConfig → bool) (s : synced) : synced :=
  (set_udts s.1 (delete_where p (cfUdtVariables s.1)), s.2 || any p (cfUdtVariables s.1)).

(** A device of the earlier format, one for each interface. *)
Definition old_device (id : string) (d : GatewayDeviceConfig) : bool :=
  String.eqb (dcProtocol d) "network" && negb (String.eqb id "network").

Definition ensure_template (s : synced) : synced :=
  let '(cfg, changed) := s in
  match cfUdtTemplates cfg !! "NetworkInterface" with
  | Some _ => s
  | None => (set_templates cfg (<["NetworkInterface" := interface_template]> (cfUdtTemplates cfg)), true)
  end.

Definition interface_udt (name : string) : GatewayUdtVariableConfig :=
  mkUdtConfig name "network" name "NetworkInterface" (list_to_map (map (λ m, (m, name +:+ "_" +:+ m)) memberNames)) ∅ ∅ None false false ∅ ∅.

Definition set_device (u : GatewayUdtVariableConfig) (deviceID : string) : GatewayUdtVariableConfig :=
  mkUdtConfig (ucID u) deviceID (ucTag u) (ucTemplateName u) (ucMemberTags u) (ucMemberCipTypes u) (ucMemberDeadbands u) (ucDeadband u)
    (ucDisableRBE u) (ucHistoryEnabled u) (ucMemberAddresses u) (ucMemberByteOrders u).

(** One interface of the last loop. *)
Definition add_interface (s : synced) (name : string) : synced :=
  let '(cfg, changed) := s in
  match cfUdtVariables cfg !! name with
  | Some u =>
      if String.eqb (ucDeviceID u) "network" then s
      else (set_udts cfg (<[name := set_device u "network"]> (cfUdtVariables cfg)), true)
  | None => (set_udts cfg (<[name := interface_udt name]> (cfUdtVariables cfg)), true)
  end.

Definition gone (discovered : list string) (id : string) (u : GatewayUdtVariableConfig) : bool :=
  String.eqb (ucDeviceID u) "network" && String.eqb (ucTemplateName u) "NetworkInterface" && negb (bool_decide (id ∈ discovered)).

Definition misplaced (id : string) (u : GatewayUdtVariableConfig) : bool :=
  String.eqb (ucTemplateName u) "NetworkInterface" && negb (String.eqb (ucDeviceID u) "network").

(** After the module has answered with at least one interface. *)
Definition sync_interfaces (names : list string) cfg : synced :=
  let s := drop_devices old_device (ensure_device "network" (cfg, false)) in
  let s := drop_udts misplaced (drop_udts (gone names) (ensure_template s)) in
  fold_left add_interface names s.

(** The answer of the module network, [None] when there is none or it cannot be read. *)
Definition syncNetworkInterfaces (k : KV) (answered : option (list string)) cfg : synced :=
  if negb (isModuleRunning k "network") then (cfg, false)
  else match answered with
       | None | Some [] => (cfg, false)
       | Some names => sync_interfaces names cfg
       end.

(** ** modulestatus.go: the status of a module *)

Record browseCacheItem := mkItem {
  biTag : string;
  biName : string;
  biDatatype : string;
  biValue : value;
  biProtocolType : string;
}.

(** What the user interface shows of a browse; its time is left out, and a status has no
    instances. *)
Record BrowseCache := mkBrowse {
  bcDeviceID : string;
  bcProtocol : string;
  bcItems : list browseCacheItem;
  bcUdts : list string;
  bcStructTags : gmap string string;
  bcInstances : option (list string);
}.

Definition status_cache (moduleType : string) (variables : list (string * string)) : BrowseCache :=
  mkBrowse moduleType moduleType (map (λ v, mkItem v.1 v.1 v.2 VNil "") variables) [] ∅ None.

Definition sync_status (moduleType : string) (variables : list (string * string)) cfg : synced :=
  drop_variables (λ _ v, String.eqb (vcDeviceID v) moduleType && negb (bool_decide (vcTag v ∈ variables.*1)))
    (ensure_device moduleType (cfg, false)).

(** The configuration, and what goes to the browse cache. *)
Definition syncModuleStatus (k : KV) (moduleType : string) (answered : option (list (string * string))) cfg
    : synced * option BrowseCache :=
  if negb (isModuleRunning k moduleType) then ((cfg, false), None)
  else match answered with
       | None | Some [] => ((cfg, false), None)
       | Some variables => (sync_status moduleType variables cfg, Some (status_cache moduleType variables))
       end.

(** ** Get Gateway *)

Record gatewayResponse := mkGatewayResponse {
  grGatewayID : string;
  grDevices : list (string * GatewayDeviceConfig);
  grVariables : list (string * GatewayVariableConfig);
  grUdtTemplates : list GatewayUdtTemplateConfig;
  grUdtVariables : list GatewayUdtVariableConfig;
  grAvailableProtocols : list string;
  grUpdatedAt : Z;
}.

Definition protocolTypes : list string := ["ethernetip"; "opcua"; "snmp"; "modbus"; "network"; "plc"].

Definition available (k : KV) : list string :=
  omap (λ kv : string * option string, t ← kv.2; if bool_decide (t ∈ protocolTypes) then Some t else None) (o _ (kvHeartbeats k)).

Definition gateway_response cfg (k : KV) : gatewayResponse :=
  mkGatewayResponse (cfGatewayID cfg) (o _ (cfDevices cfg)) (o _ (cfVariables cfg)) (o _ (cfUdtTemplates cfg)).*2
    (o _ (cfUdtVariables cfg)).*2 (available k) (cfUpdatedAt cfg).

(** What the three modules answer to the requests of one call. *)
Record answers := mkAnswers {
  interfaces : option (list string);
  statuses : string → option (list (string * string));
}.

Inductive source := Interfaces | Status (moduleType : string).

(** The goroutines of one call. They work on one configuration without a lock; each is taken
    as a whole here, in an order of its own. *)
Definition sources : list source := [Interfaces; Status "gateway"; Status "mqtt"].

Definition sync_source (k : KV) (a : answers) (cfg : GatewayConfigKV) (src : source) : synced :=
  match src with
  | Interfaces => syncNetworkInterfaces k (interfaces a) cfg
  | Status m => fst (syncModuleStatus k m (statuses a m) cfg)
  end.

Definition sync_sources (order : list source) (k : KV) (a : answers) cfg : synced :=
  fold_left (λ s src, let '(cfg, changed) := sync_source k a s.1 src in (cfg, s.2 || changed)) order (cfg, false).

(** What the goroutines put into the browse cache, in memory and in its bucket, under the name
    of the gateway in the request ([put_cache] of [ApiBrowse] is such a put). *)
Definition status_caches (order : list source) (k : KV) (a : answers) cfg : list (string * BrowseCache) :=
  omap (λ src, match src with
    | Interfaces => None
    | Status m => pair m <$> snd (syncModuleStatus k m (statuses a m) cfg)
    end) order.

(** The configuration that was read, synchronised; it is written when it has changed, and a
    failure only logged. With the answer come the puts to the browse cache. *)
Definition handleGetGateway (order : list source) (a : answers) (gatewayID : string) (found : option GatewayConfigKV) (k : KV)
    : answer gatewayResponse * list (string * BrowseCache) * KV :=
  match found with
  | None => (writeError 404 ("gateway " +:+ quote gatewayID +:+ " not found"), [], k)
  | Some cfg =>
      let puts := status_caches order k a cfg in
      let '(cfg, changed) := sync_sources order k a cfg in
      let '(cfg, k) := if (changed : bool) then prod_map id (default k) (putGatewayConfig cfg k) else (cfg, k) in
      (writeJSON (gateway_response cfg k), puts, k)
  end.

End Config.
