(* ===== verification/ApiGatewayFacts.v ===== *)
(** What the requests to the API leave in the gateway's configuration: the references in it,
    what looking at it settles to, where the values of the machine's interfaces go, and what
    two requests at a time lose. *)

From S2P Require Import GatewayRouting ManifestRoundtrip.
From S2P Require Export ApiGateway.

#[local] Open Scope Z_scope.

(** ** Maps *)

Lemma delete_where_Some {A} p (m : gmap string A) k a : delete_where p m !! k = Some a ↔ m !! k = Some a ∧ p k a = false.
Proof. apply map_lookup_filter_Some. Qed.

Lemma any_false {A} p (m : gmap string A) : any p m = false ↔ ∀ k a, m !! k = Some a → p k a = false.
Proof.
  unfold any. rewrite <- not_true_iff_false, existsb_exists. split.
  - intros Hn k a Hk. apply not_true_iff_false. intros Hp. apply Hn. exists (k, a).
    split; [by apply list_elem_of_In, elem_of_map_to_list|done].
  - intros Ha ([k a] & Hin%list_elem_of_In%elem_of_map_to_list & Hp). cbn in Hp. by rewrite (Ha k a) in Hp.
Qed.

Lemma any_dropped {A} p (m : gmap string A) : any p (delete_where p m) = false.
Proof. apply any_false. by intros k a [_ ?]%delete_where_Some. Qed.

Lemma delete_where_none {A} p (m : gmap string A) : any p m = false → delete_where p m = m.
Proof.
  intros Hp. apply map_eq. intros k. apply option_eq. intros a. rewrite delete_where_Some.
  split; [by intros []|]. intros Hk. split; [done|]. by eapply any_false.
Qed.

Lemma insert_all_is_Some {A} (key : A → string) l (m : gmap string A) k : is_Some (m !! k) → is_Some (insert_all key l m !! k).
Proof.
  unfold insert_all. revert m. induction l as [|a l IH]; intros m Hk; [done|]. cbn. apply IH. rewrite lookup_insert_is_Some'. auto.
Qed.

Lemma insert_all_Some {A} (key : A → string) l (m : gmap string A) k a : insert_all key l m !! k = Some a →
  (a ∈ l ∧ key a = k) ∨ m !! k = Some a.
Proof.
  unfold insert_all. revert m. induction l as [|b l IH]; intros m; cbn; [by right|]. intros [[]|Hk]%IH; [left; split; [by right|done]|].
  destruct (decide (key b = k)) as [<-|Hne]; [rewrite lookup_insert_eq in Hk; injection Hk as ->; left; split; [by left|done]|].
  rewrite lookup_insert_ne in Hk by done. by right.
Qed.

Lemma delete_all_Some {A} l (m : gmap string A) k a : delete_all l m !! k = Some a ↔ m !! k = Some a ∧ k ∉ l.
Proof.
  unfold delete_all. revert m. induction l as [|x l IH]; intros m; cbn; [set_solver|]. rewrite IH, lookup_delete_Some. set_solver.
Qed.

(** ** References *)

Section References.
Context `{UnicodeTables}.
Implicit Types cfg : GatewayConfigKV.

(** Every variable has its device, every structured variable its device and its template. *)
Record sound cfg : Prop := {
  sound_vars id v : cfVariables cfg !! id = Some v → is_Some (cfDevices cfg !! vcDeviceID v);
  sound_udts id u : cfUdtVariables cfg !! id = Some u →
    is_Some (cfDevices cfg !! ucDeviceID u) ∧ is_Some (cfUdtTemplates cfg !! ucTemplateName u);
}.

(** Every template is used. *)
Definition trimmed cfg : Prop := ∀ name t, cfUdtTemplates cfg !! name = Some t → ∃ id u, cfUdtVariables cfg !! id = Some u ∧ ucTemplateName u = name.

Lemma template_used_true cfg name : template_used cfg name = true ↔ ∃ id u, cfUdtVariables cfg !! id = Some u ∧ ucTemplateName u = name.
Proof.
  unfold template_used. rewrite existsb_exists. split.
  - intros ([id u] & Hin%list_elem_of_In%elem_of_map_to_list & E%String.eqb_eq). eauto.
  - intros (id & u & Hu & <-). exists (id, u). split; [by apply list_elem_of_In, elem_of_map_to_list|apply String.eqb_refl].
Qed.

Lemma orphans_trimmed cfg : trimmed (removeOrphanedTemplates cfg).
Proof. intros name t [_ Hu]%delete_where_Some. by apply negb_false_iff, template_used_true in Hu. Qed.

Lemma orphans_sound cfg : sound cfg → sound (removeOrphanedTemplates cfg).
Proof.
  intros [Hv Hu]. split; [exact Hv|]. intros id u Hid. cbn in Hid. destruct (Hu id u Hid) as [Hd [t Ht]]. split; [exact Hd|].
  exists t. apply delete_where_Some. split; [done|]. apply negb_false_iff, template_used_true. eauto.
Qed.

(** The requests of the API that change a configuration. *)
Inductive request :=
  | SetDevice (body : option (string * GatewayDeviceConfig))
  | DeleteDevice (deviceID : string)
  | SetOverrides (deviceID : string) (body : option (gmap string string))
  | SetVariable (variableID : string) (body : option GatewayVariableConfig)
  | SetVariables (body : option (list GatewayVariableConfig))
  | DeleteVariable (variableID : string)
  | DeleteVariables (body : option (list string))
  | DeleteUdt (udtVariableID : string)
  | DeleteUdts (body : option (list string))
  | SyncDevice (deviceID : string) (body : option browsed)
  | ImportBrowse (body : option browsed)
  | UpdateUdt (templateName : string)
      (body : option (gmap string (option Types.DeadBandConfig) * gmap string (gmap string Types.DeadBandOverride))).

Definition handle (o : ranging) (gatewayID : string) (r : request) : handler :=
  match r with
  | SetDevice b => handleSetGatewayDevice gatewayID b
  | DeleteDevice d => handleDeleteGatewayDevice gatewayID d
  | SetOverrides d b => handleSetTemplateOverrides gatewayID d b
  | SetVariable v b => handleSetGatewayVariable gatewayID v b
  | SetVariables b => handleSetGatewayVariables gatewayID b
  | DeleteVariable v => handleDeleteGatewayVariable gatewayID v
  | DeleteVariables b => handleDeleteGatewayVariables gatewayID b
  | DeleteUdt u => handleDeleteGatewayUdtVariable gatewayID u
  | DeleteUdts b => handleDeleteGatewayUdtVariables gatewayID b
  | SyncDevice d b => handleSyncGatewayDeviceVariables gatewayID d b
  | ImportBrowse b => handleImportGatewayBrowse gatewayID b
  | UpdateUdt t b => handleUpdateGatewayUdtConfig o gatewayID t b
  end.

(** The devices and templates that the body of a request names are there, or come with it. *)
Definition browsed_complete cfg (b : browsed) : Prop :=
  (∀ v, v ∈ atomicVariables b → is_Some (cfDevices cfg !! vcDeviceID v))
  ∧ ∀ u, u ∈ udtVariables b → is_Some (cfDevices cfg !! ucDeviceID u)
      ∧ is_Some (insert_all tcName (udtTemplates b) (cfUdtTemplates cfg) !! ucTemplateName u).

Definition complete cfg (r : request) : Prop :=
  match r with
  | SetVariable _ (Some v) => is_Some (cfDevices cfg !! vcDeviceID v)
  | SetVariables (Some l) => ∀ v, v ∈ l → is_Some (cfDevices cfg !! vcDeviceID v)
  | SyncDevice _ (Some b) | ImportBrowse (Some b) => browsed_complete cfg b
  | _ => True
  end.

Lemma removed_sound deviceID cfg : sound cfg → sound (remove_device_variables deviceID cfg).
Proof. intros [Hv Hu]. split; cbn; intros id x [Hx _]%delete_where_Some; eauto. Qed.

Lemma removed_device_sound deviceID cfg : sound cfg → sound (remove_device_variables deviceID (set_devices cfg (delete deviceID (cfDevices cfg)))).
Proof.
  intros [Hv Hu]. split; cbn; intros id x [Hx E%String.eqb_neq]%delete_where_Some; [|destruct (Hu id x Hx); split; [|done]];
    rewrite lookup_delete_ne by done; eauto.
Qed.

Lemma browsed_sound b cfg : sound cfg → browsed_complete cfg b → sound (add_browsed b cfg).
Proof.
  intros [Hv Hu] [Hb Hb']. split; cbn.
  - intros id v [[Hin _]|Hid]%insert_all_Some; eauto.
  - intros id u [[Hin _]|Hid]%insert_all_Some; [by apply Hb'|]. destruct (Hu id u Hid) as [? ?].
    split; [done|]. by apply insert_all_is_Some.
Qed.

Lemma update_instances_Some o updates udts id u : update_instances o updates udts !! id = Some u →
  ∃ u', udts !! id = Some u' ∧ ucDeviceID u = ucDeviceID u' ∧ ucTemplateName u = ucTemplateName u'.
Proof.
  unfold update_instances. generalize (o _ updates). intros l. revert udts. induction l as [|[i m] l IH]; intros udts; cbn [fold_left fst snd]; [eauto|].
  intros (u' & Hu' & E1 & E2)%IH. rewrite E1, E2. destruct (udts !! i) as [w|] eqn:Ew; [|eauto].
  destruct (decide (i = id)) as [->|Hne]; [|rewrite lookup_insert_ne in Hu' by done; eauto].
  rewrite lookup_insert_eq in Hu'. injection Hu' as <-. eauto.
Qed.

(** What a handler makes of a sound configuration. *)
Lemma handle_sound o gatewayID r cfg c : sound cfg → complete cfg r → handle o gatewayID r (Some cfg) = inr c → sound c.
Proof.
  intros Hs Hc. destruct r as [[[d dev]|]|d|d [m|]|i [v|]|[l|]|i|[l|]|i|[l|]|d [b|]|[b|]|t [[ms us]|]]; cbn; try discriminate.
  all: unfold handleSetGatewayDevice; cbn [with_body fst snd].
  - destruct (String.eqb d ""); [discriminate|]. intros [= <-]. destruct Hs as [Hv Hu]. split; cbn.
    + intros id v Hid. apply lookup_insert_is_Some'. right. eauto.
    + intros id u Hid. destruct (Hu id u Hid). split; [apply lookup_insert_is_Some'; by right|done].
  - intros [= <-]. by apply orphans_sound, removed_device_sound.
  - destruct (cfDevices cfg !! d) as [dev|] eqn:Ed; [|discriminate]. intros [= <-]. destruct Hs as [Hv Hu]. split; cbn.
    + intros id v Hid. apply lookup_insert_is_Some'. right. eauto.
    + intros id u Hid. destruct (Hu id u Hid). split; [apply lookup_insert_is_Some'; by right|done].
  - intros [= <-]. destruct Hs as [Hv Hu]. split; [|exact Hu]. cbn. intros id w [[<- <-]|[_ Hw]]%lookup_insert_Some; [exact Hc|]. by eapply Hv.
  - intros [= <-]. destruct Hs as [Hv Hu]. split; [|exact Hu]. cbn. intros id w [[Hin _]|Hw]%insert_all_Some; [by apply Hc|]. by eapply Hv.
  - intros [= <-]. destruct Hs as [Hv Hu]. split; [|exact Hu]. cbn. intros id w [_ Hw]%lookup_delete_Some. by eapply Hv.
  - intros [= <-]. destruct Hs as [Hv Hu]. split; [|exact Hu]. cbn. intros id w [Hw _]%delete_all_Some. by eapply Hv.
  - intros [= <-]. apply orphans_sound. destruct Hs as [Hv Hu]. split; [exact Hv|]. cbn. intros id w [_ Hw]%lookup_delete_Some. by eapply Hu.
  - intros [= <-]. apply orphans_sound. destruct Hs as [Hv Hu]. split; [exact Hv|]. cbn. intros id w [Hw _]%delete_all_Some. by eapply Hu.
  - intros [= <-]. apply orphans_sound. apply browsed_sound; [by apply removed_sound|exact Hc].
  - intros [= <-]. by apply browsed_sound.
  - intros [= <-]. destruct Hs as [Hv Hu]. split; cbn; [destruct (cfUdtTemplates cfg !! t); exact Hv|].
    intros id u (u' & Hu' & -> & ->)%update_instances_Some. destruct (cfUdtTemplates cfg !! t) as [tm|] eqn:Et; cbn in *; [|by apply Hu in Hu'].
    destruct (Hu _ _ Hu'). split; [done|]. apply lookup_insert_is_Some'. by right.
Qed.

Lemma handle_id o gatewayID r cfg c : cfGatewayID cfg = gatewayID → handle o gatewayID r (Some cfg) = inr c → cfGatewayID c = gatewayID.
Proof.
  intros Hg. destruct r as [[[d dev]|]|d|d [m|]|i [v|]|[l|]|i|[l|]|i|[l|]|d [b|]|[b|]|t [[ms us]|]]; cbn; try discriminate.
  all: unfold handleSetGatewayDevice; cbn [with_body fst snd].
  all: repeat case_match; try discriminate; by intros [= <-].
Qed.

(** The requests after which no template is left over. *)
Definition trims (r : request) : bool :=
  match r with DeleteDevice _ | DeleteUdt _ | DeleteUdts _ | SyncDevice _ _ => true | _ => false end.

Lemma handle_trims o gatewayID r cfg c : trims r = true → handle o gatewayID r (Some cfg) = inr c → trimmed c.
Proof.
  destruct r as [| |? ?| | | | |?|[?|]|? [?|]| |]; try discriminate; intros _ [= <-]; apply orphans_trimmed.
Qed.

Variable now : Z.
Variable refused : string → bool.
Notation serve := (serve now refused).

Lemma serve_stored o gatewayID r k cfg c k' : getGatewayConfig k gatewayID = Some cfg → cfGatewayID cfg = gatewayID →
  serve gatewayID (handle o gatewayID r) k = ((200, inr c), k') →
  ∃ c0, handle o gatewayID r (Some cfg) = inr c0 ∧ c = stamp now c0 ∧ k' = with_gateway k (<[gatewayID := Some c]> (kvGateway k)).
Proof.
  intros Hc Hg. unfold ApiGateway.serve. rewrite Hc. unfold finish. destruct (handle o gatewayID r (Some cfg)) as [a|c0] eqn:Eh.
  - intros [= -> ->]. exfalso. revert Eh. clear.
    destruct r as [[[d dev]|]|d|d [m|]|i [v|]|[l|]|i|[l|]|i|[l|]|d [b|]|[b|]|t [[ms us]|]]; cbn; try discriminate.
    all: unfold handleSetGatewayDevice; cbn [with_body fst snd]; repeat case_match; discriminate.
  - pose proof (handle_id o gatewayID r cfg c0 Hg Eh) as Hi. unfold putGatewayConfig. cbn. destruct (refused (cfGatewayID c0)); [discriminate|].
    intros [= <- <-]. exists c0. by rewrite Hi.
Qed.

(** C18: The requests of the API keep the references of a configuration. When every variable has
    its device, every structured variable its device and template, and what the body of a
    request names is there, the configuration that is answered is the one stored, has all
    references, no unused template after a request that deletes structured variables, and
    the other gateways are as they were. *)
Theorem requests_keep_references o gatewayID r k cfg c k' : getGatewayConfig k gatewayID = Some cfg → cfGatewayID cfg = gatewayID →
  sound cfg → complete cfg r → serve gatewayID (handle o gatewayID r) k = ((200, inr c), k') →
  getGatewayConfig k' gatewayID = Some c ∧ sound c ∧ (trims r = true → trimmed c)
  ∧ ∀ other, other ≠ gatewayID → kvGateway k' !! other = kvGateway k !! other.
Proof.
  intros Hc Hg Hs Hr E. destruct (serve_stored _ _ _ _ _ _ _ Hc Hg E) as (c0 & Eh & -> & ->). split_and!.
  - unfold getGatewayConfig. cbn. by rewrite lookup_insert_eq.
  - destruct (handle_sound _ _ _ _ _ Hs Hr Eh) as [Hv Hu]. by split.
  - intros Ht. exact (handle_trims _ _ _ _ _ Ht Eh).
  - intros other Ho. cbn. by rewrite lookup_insert_ne.
Qed.

(** A device goes with everything that is its own, and with nothing else: after it has
    been deleted the configuration has the other devices, the variables and structured variables of the
    others, and the templates these use. *)
Theorem device_goes_with_its_variables o gatewayID d k cfg c k' : getGatewayConfig k gatewayID = Some cfg → cfGatewayID cfg = gatewayID →
  serve gatewayID (handle o gatewayID (DeleteDevice d)) k = ((200, inr c), k') →
  (∀ id x, cfDevices c !! id = Some x ↔ cfDevices cfg !! id = Some x ∧ id ≠ d)
  ∧ (∀ id v, cfVariables c !! id = Some v ↔ cfVariables cfg !! id = Some v ∧ vcDeviceID v ≠ d)
  ∧ (∀ id u, cfUdtVariables c !! id = Some u ↔ cfUdtVariables cfg !! id = Some u ∧ ucDeviceID u ≠ d)
  ∧ ∀ name t, cfUdtTemplates c !! name = Some t ↔ cfUdtTemplates cfg !! name = Some t
      ∧ ∃ id u, cfUdtVariables cfg !! id = Some u ∧ ucDeviceID u ≠ d ∧ ucTemplateName u = name.
Proof.
  intros Hc Hg E. destruct (serve_stored _ _ _ _ _ _ _ Hc Hg E) as (c0 & [= <-] & -> & ->). cbn.
  assert (Hu : ∀ id u, delete_where (λ _ u, String.eqb (ucDeviceID u) d) (cfUdtVariables cfg) !! id = Some u
    ↔ cfUdtVariables cfg !! id = Some u ∧ ucDeviceID u ≠ d) by (intros; by rewrite delete_where_Some, String.eqb_neq).
  split_and!.
  - intros. rewrite lookup_delete_Some. naive_solver.
  - intros. by rewrite delete_where_Some, String.eqb_neq.
  - exact Hu.
  - intros name t. rewrite delete_where_Some, negb_false_iff, template_used_true. cbn. setoid_rewrite Hu. naive_solver.
Qed.

End References.

(** ** Two requests at a time *)

Section Overlap.
Context `{UnicodeTables}.
Variable now : Z.
Variable refused : string → bool.
Notation serve := (serve now refused).
Notation finish := (finish now refused).

(** Of two requests at a time one is lost. When both have read the configuration before
    either has written, both are answered with success, but the bucket is as if only the
    one that wrote last had been made. *)
Theorem overlapping_request_lost gatewayID (h1 h2 : handler) k a1 k1 a2 k2 c1 c2 :
  h1 (getGatewayConfig k gatewayID) = inr c1 → h2 (getGatewayConfig k gatewayID) = inr c2 → cfGatewayID c1 = cfGatewayID c2 →
  finish (h1 (getGatewayConfig k gatewayID)) k = (a1, k1) → finish (h2 (getGatewayConfig k gatewayID)) k1 = (a2, k2) →
  refused (cfGatewayID c1) = false →
  a1 = (200, inr (stamp now c1)) ∧ a2 = (200, inr (stamp now c2)) ∧ k2 = (serve gatewayID h2 k).2.
Proof.
  intros -> E2 Hi. unfold ApiGateway.serve. rewrite E2. unfold finish, putGatewayConfig. cbn. intros F1 F2 Hr.
  rewrite Hr in F1. injection F1 as <- <-. rewrite <- Hi, Hr in F2. injection F2 as <- <-. split_and!; [done..|].
  rewrite <- Hi, Hr. cbn. unfold with_gateway. cbn. by rewrite insert_insert_eq.
Qed.

End Overlap.

(** ** Looking at a gateway *)

Section Sync.
Context `{UnicodeTables}.
Implicit Types cfg : GatewayConfigKV.

(** A flag that was not set means that nothing was changed. *)
Definition faithful (s s' : synced) : Prop := s'.2 = false → s.2 = false ∧ s'.1 = s.1.

#[local] Instance faithful_preorder : PreOrder faithful.
Proof. split; [by intros s|]. intros s1 s2 s3 F G E. destruct (G E) as [E2 ->]. by apply F. Qed.

Lemma same_devices cfg : set_devices cfg (cfDevices cfg) = cfg. Proof. by destruct cfg. Qed.
Lemma same_variables cfg : set_variables cfg (cfVariables cfg) = cfg. Proof. by destruct cfg. Qed.
Lemma same_udts cfg : set_udts cfg (cfUdtVariables cfg) = cfg. Proof. by destruct cfg. Qed.

Lemma ensure_faithful id s : faithful s (ensure_device id s).
Proof. destruct s as [cfg ch]. unfold ensure_device. by repeat case_match. Qed.

Lemma template_faithful s : faithful s (ensure_template s).
Proof. destruct s as [cfg ch]. unfold ensure_template. by case_match. Qed.

Lemma drop_devices_faithful p s : faithful s (drop_devices p s).
Proof. destruct s as [cfg ch]. intros [-> Ha]%orb_false_iff. cbn in *. by rewrite delete_where_none, same_devices. Qed.

Lemma drop_variables_faithful p s : faithful s (drop_variables p s).
Proof. destruct s as [cfg ch]. intros [-> Ha]%orb_false_iff. cbn in *. by rewrite delete_where_none, same_variables. Qed.

Lemma drop_udts_faithful p s : faithful s (drop_udts p s).
Proof. destruct s as [cfg ch]. intros [-> Ha]%orb_false_iff. cbn in *. by rewrite delete_where_none, same_udts. Qed.

Lemma add_faithful s name : faithful s (add_interface s name).
Proof. destruct s as [cfg ch]. unfold add_interface. by repeat case_match. Qed.

Lemma adds_faithful names s : faithful s (fold_left add_interface names s).
Proof. revert s. induction names as [|n names IH]; intros s; [done|]. cbn. etrans; [apply add_faithful|apply IH]. Qed.

Lemma interfaces_faithful names cfg : faithful (cfg, false) (sync_interfaces names cfg).
Proof.
  unfold sync_interfaces. etrans; [|apply adds_faithful]. etrans; [|apply drop_udts_faithful]. etrans; [|apply drop_udts_faithful].
  etrans; [|apply template_faithful]. etrans; [|apply drop_devices_faithful]. apply ensure_faithful.
Qed.

Lemma status_faithful m vars cfg : faithful (cfg, false) (sync_status m vars cfg).
Proof. unfold sync_status. etrans; [|apply drop_variables_faithful]. apply ensure_faithful. Qed.

(** ** What a synchronisation achieves *)

Definition managed cfg (id : string) : Prop := ∃ d, cfDevices cfg !! id = Some d ∧ dcAutoManaged d = true.

#[local] Instance source_eq_dec : EqDecision source.
Proof. solve_decision. Defined.

Record interfaces_there (names : list string) cfg : Prop := {
  it_device : managed cfg "network";
  it_old id d : cfDevices cfg !! id = Some d → old_device id d = false;
  it_template : is_Some (cfUdtTemplates cfg !! "NetworkInterface");
  it_udts id u : cfUdtVariables cfg !! id = Some u → gone names id u = false ∧ misplaced id u = false;
  it_names id : id ∈ names → ∃ u, cfUdtVariables cfg !! id = Some u ∧ ucDeviceID u = "network";
}.

Record status_there (m : string) (vars : list (string * string)) cfg : Prop := {
  st_device : managed cfg m;
  st_vars id v : cfVariables cfg !! id = Some v → vcDeviceID v = m → vcTag v ∈ vars.*1;
}.

Lemma ensured cfg ch id : managed (ensure_device id (cfg, ch)).1 id.
Proof.
  unfold ensure_device, managed. destruct (cfDevices cfg !! id) as [d|] eqn:E; [destruct (dcAutoManaged d) eqn:Em|]; cbn;
    rewrite ?lookup_insert_eq; eauto.
Qed.

Lemma ensured_other cfg ch id id' : id' ≠ id → cfDevices (ensure_device id (cfg, ch)).1 !! id' = cfDevices cfg !! id'.
Proof. intros Hne. unfold ensure_device. repeat case_match; cbn; rewrite ?lookup_insert_ne by done; done. Qed.

(** The protocol of a device that is made or taken over. *)
Lemma ensured_protocol cfg ch id d : cfDevices (ensure_device id (cfg, ch)).1 !! id = Some d →
  match cfDevices cfg !! id with Some d0 => dcProtocol d = dcProtocol d0 | None => d = managed_device id end.
Proof.
  unfold ensure_device. destruct (cfDevices cfg !! id) as [d0|] eqn:E; [destruct (dcAutoManaged d0)|]; cbn; rewrite ?lookup_insert_eq;
    [rewrite E|..]; by intros [= <-].
Qed.

Lemma ensured_rest cfg ch id : let c := (ensure_device id (cfg, ch)).1 in
  cfVariables c = cfVariables cfg ∧ cfUdtTemplates c = cfUdtTemplates cfg ∧ cfUdtVariables c = cfUdtVariables cfg ∧ cfGatewayID c = cfGatewayID cfg.
Proof. unfold ensure_device. by repeat case_match. Qed.

Lemma ensure_again cfg id : managed cfg id → ensure_device id (cfg, false) = (cfg, false).
Proof. intros (d & E & Em). unfold ensure_device. by rewrite E, Em. Qed.

(** The devices, templates and structured variables after each step of [sync_interfaces]. *)
Lemma adds_spec names : ∀ cfg ch, let c := (fold_left add_interface names (cfg, ch)).1 in
  cfDevices c = cfDevices cfg ∧ cfVariables c = cfVariables cfg ∧ cfUdtTemplates c = cfUdtTemplates cfg ∧ cfGatewayID c = cfGatewayID cfg
  ∧ ∀ id, cfUdtVariables c !! id =
      if bool_decide (id ∈ names) then
        match cfUdtVariables cfg !! id with
        | Some u => Some (if String.eqb (ucDeviceID u) "network" then u else set_device u "network")
        | None => Some (interface_udt id)
        end
      else cfUdtVariables cfg !! id.
Proof.
  induction names as [|n names IH]; intros cfg ch; cbn [fold_left]; [cbn; split_and!; auto|].
  destruct (add_interface (cfg, ch) n) as [cfg1 ch1] eqn:E. specialize (IH cfg1 ch1). cbn in IH. destruct IH as (-> & -> & -> & -> & Hu).
  assert (Hc1 : cfDevices cfg1 = cfDevices cfg ∧ cfVariables cfg1 = cfVariables cfg ∧ cfUdtTemplates cfg1 = cfUdtTemplates cfg ∧ cfGatewayID cfg1 = cfGatewayID cfg
    ∧ ∀ id, cfUdtVariables cfg1 !! id = if bool_decide (id = n) then
        match cfUdtVariables cfg !! id with
        | Some u => Some (if String.eqb (ucDeviceID u) "network" then u else set_device u "network")
        | None => Some (interface_udt id)
        end
      else cfUdtVariables cfg !! id).
  { unfold add_interface in E. destruct (cfUdtVariables cfg !! n) as [u|] eqn:En; [destruct (String.eqb (ucDeviceID u) "network") eqn:Ed|];
      injection E as <- <-; split_and!; try done; intros id; destruct (decide (id = n)) as [->|Hne];
      rewrite ?bool_decide_eq_true_2, ?bool_decide_eq_false_2 by done; cbn; rewrite ?lookup_insert_eq, ?lookup_insert_ne, ?En, ?Ed by done; done. }
  destruct Hc1 as (-> & -> & -> & -> & Hn). split_and!; [done..|]. intros id. rewrite Hu, Hn.
  destruct (decide (id = n)) as [->|Hne].
  - rewrite (bool_decide_eq_true_2 (n = n)), (bool_decide_eq_true_2 (n ∈ n :: names)) by (done || set_solver).
    destruct (bool_decide (n ∈ names)); [|done]. destruct (cfUdtVariables cfg !! n) as [u|]; [|done].
    destruct (String.eqb (ucDeviceID u) "network") eqn:Ed; cbn; by rewrite ?Ed.
  - rewrite (bool_decide_eq_false_2 (id = n)) by done. rewrite (bool_decide_ext (id ∈ names) (id ∈ n :: names)) by set_solver. done.
Qed.

Lemma sync_interfaces_there names cfg : interfaces_there names (sync_interfaces names cfg).1.
Proof.
  unfold sync_interfaces.
  destruct (ensure_device "network" (cfg, false)) as [c1 b1] eqn:E1. pose proof (ensured cfg false "network") as M1. rewrite E1 in M1. cbn in M1.
  destruct (drop_devices old_device (c1, b1)) as [c2 b2] eqn:E2.
  destruct (ensure_template (c2, b2)) as [c3 b3] eqn:E3.
  assert (D3 : cfDevices c3 = delete_where old_device (cfDevices c1)).
  { unfold ensure_template in E3. injection E2 as <- <-. case_match; injection E3 as <- <-; done. }
  assert (T3 : is_Some (cfUdtTemplates c3 !! "NetworkInterface")).
  { unfold ensure_template in E3. destruct (cfUdtTemplates c2 !! "NetworkInterface") eqn:Et; injection E3 as <- <-; [by rewrite Et|]. cbn. by rewrite lookup_insert_eq. }
  set (c4 := set_udts c3 (delete_where misplaced (delete_where (gone names) (cfUdtVariables c3)))).
  assert (Hu4 : ∀ id u, cfUdtVariables c4 !! id = Some u → gone names id u = false ∧ misplaced id u = false)
    by (intros id u; unfold c4; cbn; rewrite !delete_where_Some; tauto).
  set (s5 := drop_udts misplaced (drop_udts (gone names) (c3, b3))). replace s5 with (c4, s5.2) by done.
  destruct (adds_spec names c4 s5.2) as (HD & HV & HT & _ & HU). split.
  - destruct M1 as (d & Hd & Hm). exists d. split; [|done]. rewrite HD. change (cfDevices c4) with (cfDevices c3). rewrite D3, delete_where_Some.
    split; [done|]. unfold old_device. by rewrite andb_false_r.
  - intros id d. rewrite HD. change (cfDevices c4) with (cfDevices c3). rewrite D3, delete_where_Some. tauto.
  - by rewrite HT.
  - intros id u. rewrite HU. case_bool_decide as Hin; [|apply Hu4].
    destruct (cfUdtVariables c4 !! id) as [w|] eqn:Ew.
    + destruct (Hu4 id w Ew) as [G1 G2]. destruct (String.eqb (ucDeviceID w) "network") eqn:Ed; intros [= <-]; [done|].
      unfold gone, misplaced. cbn. rewrite bool_decide_eq_true_2 by done. by rewrite !andb_false_r.
    + intros [= <-]. unfold gone, misplaced. cbn. rewrite bool_decide_eq_true_2 by done. done.
  - intros id Hin. rewrite HU, bool_decide_eq_true_2 by done. destruct (cfUdtVariables c4 !! id) as [w|]; [|by eexists].
    destruct (String.eqb (ucDeviceID w) "network") eqn:Ed; eexists; split; try done. by apply String.eqb_eq.
Qed.

Lemma sync_status_there m vars cfg : status_there m vars (sync_status m vars cfg).1.
Proof.
  unfold sync_status. pose proof (ensured cfg false m) as M. destruct (ensure_device m (cfg, false)) as [c1 b1]. split; [exact M|].
  intros id v. cbn. rewrite delete_where_Some. intros [_ Hp] Hd. rewrite <- Hd, String.eqb_refl in Hp.
  by apply negb_false_iff, bool_decide_eq_true in Hp.
Qed.

Lemma sync_interfaces_again names cfg : interfaces_there names cfg → sync_interfaces names cfg = (cfg, false).
Proof.
  intros [Hm Ho [t Ht] Hu Hn]. unfold sync_interfaces. rewrite (ensure_again _ _ Hm).
  assert (E1 : drop_devices old_device (cfg, false) = (cfg, false)).
  { assert (Ha : any old_device (cfDevices cfg) = false) by by apply any_false.
    unfold drop_devices. cbn. by rewrite Ha, delete_where_none, same_devices. }
  assert (E2 : ∀ p, (∀ id u, cfUdtVariables cfg !! id = Some u → p id u = false) → drop_udts p (cfg, false) = (cfg, false)).
  { intros p Hp. assert (Ha : any p (cfUdtVariables cfg) = false) by by apply any_false.
    unfold drop_udts. cbn. by rewrite Ha, delete_where_none, same_udts. }
  rewrite E1. unfold ensure_template. rewrite Ht, !E2 by (intros id u Hid; by destruct (Hu id u Hid)).
  induction names as [|n names IH]; [done|]. cbn. destruct (Hn n) as (u & -> & ->); [by left|]. cbn.
  clear -Hn. induction names as [|n' names IH]; [done|]. cbn. destruct (Hn n') as (u & -> & ->); [by right; left|]. cbn.
  apply IH. intros id Hid. apply Hn. set_solver.
Qed.

Lemma sync_status_again m vars cfg : status_there m vars cfg → sync_status m vars cfg = (cfg, false).
Proof.
  intros [Hm Hv]. unfold sync_status. rewrite (ensure_again _ _ Hm). unfold drop_variables. cbn [fst snd orb].
  match goal with |- context [any ?p _] => assert (Ha : any p (cfVariables cfg) = false) end.
  { apply any_false. intros id v Hid. destruct (String.eqb_spec (vcDeviceID v) m) as [E|]; [|done]. cbn.
    apply negb_false_iff, bool_decide_eq_true. eauto. }
  by rewrite Ha, delete_where_none, same_variables.
Qed.

Lemma status_keeps_interfaces m vars names cfg : m ≠ "network" → interfaces_there names cfg → interfaces_there names (sync_status m vars cfg).1.
Proof.
  intros Hm [M Ho Ht Hu Hn]. unfold sync_status. destruct (ensured_rest cfg false m) as (_ & Et & Eu & _).
  pose proof (ensured_other cfg false m) as D. pose proof (ensured_protocol cfg false m) as P.
  destruct (ensure_device m (cfg, false)) as [c1 b1]. cbn in *. split; cbn; rewrite ?Et, ?Eu; try done.
  - destruct M as (d & Hd & Ha). exists d. by rewrite D.
  - intros id d. destruct (decide (id = m)) as [->|Hne]; [|rewrite D by done; apply Ho]. intros Hd. specialize (P d Hd).
    destruct (cfDevices cfg !! m) as [d0|] eqn:E; [specialize (Ho m d0 E); unfold old_device in *; by rewrite P|].
    subst d. unfold old_device. cbn. by rewrite (proj2 (String.eqb_neq _ _) Hm).
Qed.

(** The protocol of a status device is not network, or the old devices take it along. *)
Definition proper cfg : Prop := ∀ m d, m ∈ ["gateway"; "mqtt"] → cfDevices cfg !! m = Some d → dcProtocol d ≠ "network".

Lemma interfaces_devices names cfg m : m ≠ "network" → (∀ d, cfDevices cfg !! m = Some d → dcProtocol d ≠ "network") →
  cfDevices (sync_interfaces names cfg).1 !! m = cfDevices cfg !! m ∧ cfVariables (sync_interfaces names cfg).1 = cfVariables cfg.
Proof.
  intros Hm Hp. unfold sync_interfaces. destruct (ensured_rest cfg false "network") as (Ev & _). pose proof (ensured_other cfg false "network" m Hm) as D.
  destruct (ensure_device "network" (cfg, false)) as [c1 b1]. cbn in Ev, D.
  destruct (ensure_template (drop_devices old_device (c1, b1))) as [c3 b3] eqn:E3.
  assert (H3 : cfDevices c3 = delete_where old_device (cfDevices c1) ∧ cfVariables c3 = cfVariables c1)
    by (unfold ensure_template, drop_devices in E3; case_match; injection E3 as <- <-; done).
  set (s5 := drop_udts misplaced (drop_udts (gone names) (c3, b3))). destruct (adds_spec names s5.1 s5.2) as (HD & HV & _).
  rewrite <- surjective_pairing in HD, HV. rewrite HD, HV. change (cfVariables s5.1) with (cfVariables c3). change (cfDevices s5.1) with (cfDevices c3).
  destruct H3 as [-> ->]. split; [|done]. rewrite <- D. apply option_eq. intros d. rewrite delete_where_Some. split; [tauto|]. intros Hd.
  split; [done|]. unfold old_device. rewrite D in Hd. by rewrite (proj2 (String.eqb_neq _ _) (Hp d Hd)).
Qed.

Lemma status_devices m vars cfg m' : m' ≠ m → cfDevices (sync_status m vars cfg).1 !! m' = cfDevices cfg !! m'.
Proof. intros Hne. pose proof (ensured_other cfg false m m' Hne). unfold sync_status. by destruct (ensure_device m (cfg, false)). Qed.

(** ** The three sources *)

(** What a source is after, when its module runs and answers. *)
Definition there (k : KV) (a : answers) (src : source) cfg : Prop :=
  match src with
  | Interfaces => match interfaces a with
      | Some ((_ :: _) as names) => isModuleRunning k "network" = true → interfaces_there names cfg
      | _ => True
      end
  | Status m => match statuses a m with
      | Some ((_ :: _) as vars) => isModuleRunning k m = true → status_there m vars cfg
      | _ => True
      end
  end.

Lemma source_there k a cfg src : there k a src (sync_source k a cfg src).1.
Proof.
  destruct src as [|m]; cbn; unfold syncNetworkInterfaces, syncModuleStatus; [destruct (interfaces a) as [[|n names]|]|destruct (statuses a m) as [[|v vars]|]]; try done.
  - intros ->. apply sync_interfaces_there.
  - intros ->. apply sync_status_there.
Qed.

Lemma source_again k a cfg src : there k a src cfg → sync_source k a cfg src = (cfg, false).
Proof.
  destruct src as [|m]; cbn; unfold syncNetworkInterfaces, syncModuleStatus.
  - destruct (isModuleRunning k "network"); [|done]. destruct (interfaces a) as [[|n names]|]; try done. intros Ht. by apply sync_interfaces_again, Ht.
  - destruct (isModuleRunning k m); [|done]. destruct (statuses a m) as [[|v vars]|]; try done. intros Ht. by apply sync_status_again, Ht.
Qed.

Lemma source_faithful k a cfg src : faithful (cfg, false) (sync_source k a cfg src).
Proof.
  destruct src as [|m]; cbn; unfold syncNetworkInterfaces, syncModuleStatus.
  - destruct (isModuleRunning k "network"); [|done]. destruct (interfaces a) as [[|n names]|]; try done. apply interfaces_faithful.
  - destruct (isModuleRunning k m); [|done]. destruct (statuses a m) as [[|v vars]|]; try done. apply status_faithful.
Qed.

Lemma in_sources src : src ∈ sources → src = Interfaces ∨ ∃ m, src = Status m ∧ m ∈ ["gateway"; "mqtt"].
Proof. unfold sources. rewrite !elem_of_cons, elem_of_nil. intros [->|[->|[->|[]]]]; [by left|right; eexists; split; [done|set_solver]..]. Qed.

Lemma not_network m : m ∈ ["gateway"; "mqtt"] → m ≠ "network".
Proof. rewrite !elem_of_cons, elem_of_nil. by intros [->|[->|[]]]. Qed.

Lemma source_proper k a cfg src : src ∈ sources → proper cfg → proper (sync_source k a cfg src).1.
Proof.
  intros Hin Hp m' d Hm'. destruct (in_sources src Hin) as [->|(m & -> & Hm)]; cbn; unfold syncNetworkInterfaces, syncModuleStatus.
  - destruct (isModuleRunning k "network"); [|by apply Hp]. destruct (interfaces a) as [[|n names]|]; [by apply Hp| |by apply Hp].
    cbn [negb]. destruct (interfaces_devices (n :: names) cfg m' (not_network _ Hm') (λ d, Hp m' d Hm')) as [-> _]. by apply Hp.
  - destruct (isModuleRunning k m); [|by apply Hp]. destruct (statuses a m) as [[|v vars]|]; [by apply Hp| |by apply Hp].
    cbn [negb fst]. destruct (decide (m' = m)) as [->|Hne]; [|rewrite status_devices by done; by apply Hp].
    unfold sync_status. pose proof (ensured_protocol cfg false m) as P. destruct (ensure_device m (cfg, false)) as [c1 b1]. cbn in *.
    intros Hd. specialize (P d Hd). destruct (cfDevices cfg !! m) as [d0|] eqn:E; [rewrite P; by eapply Hp|]. subst d. cbn. by apply not_network.
Qed.

(** One source leaves alone what another has achieved. *)
Lemma source_keeps k a cfg src src' : src ≠ src' → src ∈ sources → src' ∈ sources → proper cfg →
  there k a src' cfg → there k a src' (sync_source k a cfg src).1.
Proof.
  intros Hne Hs Hs' Hp. destruct (in_sources src Hs) as [->|(m & -> & Hm)], (in_sources src' Hs') as [->|(m' & -> & Hm')]; try done;
    cbn; unfold syncNetworkInterfaces, syncModuleStatus.
  - destruct (statuses a m') as [[|v vars]|]; try done. intros Ht Hr. specialize (Ht Hr).
    destruct (isModuleRunning k "network"); [|done]. destruct (interfaces a) as [[|n names]|]; try done. cbn [negb].
    destruct (interfaces_devices (n :: names) cfg m' (not_network _ Hm') (λ d, Hp m' d Hm')) as [Ed Ev].
    destruct Ht as [[d Hd] Hv]. split; [exists d; by rewrite Ed|by rewrite Ev].
  - destruct (interfaces a) as [[|n names]|]; try done. intros Ht Hr. specialize (Ht Hr).
    destruct (isModuleRunning k m); [|done]. destruct (statuses a m) as [[|v vars]|]; try done.
    apply status_keeps_interfaces; [by apply not_network|done].
  - destruct (statuses a m') as [[|v vars]|]; try done. intros Ht Hr. specialize (Ht Hr).
    destruct (isModuleRunning k m); [|done]. destruct (statuses a m) as [[|w ws]|]; try done. cbn [negb fst].
    destruct Ht as [[d Hd] Hv]. split; [exists d; rewrite status_devices by congruence; done|].
    unfold sync_status. destruct (ensured_rest cfg false m) as (Ev & _). destruct (ensure_device m (cfg, false)) as [c1 b1]. cbn in *.
    intros id x. rewrite delete_where_Some, Ev. intros [Hx _]. by eapply Hv.
Qed.

(** After the sources of a list have been taken in its order, all of them are there. *)
Lemma sources_there k a order cfg : order ⊆ sources → proper cfg →
  let s := sync_sources order k a cfg in proper s.1 ∧ (∀ src, src ∈ order → there k a src s.1) ∧ faithful (cfg, false) s.
Proof.
  unfold sync_sources. induction order as [|src order IH] using rev_ind; intros Hs Hp; [by split_and!; [|set_solver|]|].
  rewrite fold_left_app. destruct IH as (IP & IT & IF); [set_solver|done|].
  destruct (fold_left _ order (cfg, false)) as [c ch]. cbn in IP, IT. cbn [fold_left fst snd].
  assert (Hsrc : src ∈ sources) by set_solver.
  pose proof (source_proper k a c src Hsrc IP) as P. pose proof (source_there k a c src) as T. pose proof (source_faithful k a c src) as F.
  assert (K : ∀ src', src' ∈ order → src ≠ src' → there k a src' (sync_source k a c src).1)
    by (intros src' Hin Hne; apply source_keeps; [done..|set_solver|done|by apply IT]).
  destruct (sync_source k a c src) as [c' ch']. cbn in *. split_and!; [done| |].
  - intros src' [Hin| ->%list_elem_of_singleton]%elem_of_app; [|done]. destruct (decide (src = src')) as [->|]; [done|by apply K].
  - intros [-> ->]%orb_false_iff. cbn in *. destruct (F eq_refl) as [_ E]. cbn in E. subst c'. by apply IF.
Qed.

Lemma sources_again k a order cfg : (∀ src, src ∈ order → there k a src cfg) → sync_sources order k a cfg = (cfg, false).
Proof.
  unfold sync_sources. induction order as [|src order IH]; intros Ht; [done|]. cbn.
  rewrite (source_again k a cfg src) by (apply Ht; by left). cbn. apply IH. intros src' Hin. apply Ht. by right.
Qed.

Lemma there_stamp k a src now cfg : there k a src cfg → there k a src (stamp now cfg).
Proof.
  destruct src as [|m]; cbn; [destruct (interfaces a) as [[|n names]|]|destruct (statuses a m) as [[|v vars]|]]; try done.
  - intros Ht Hr. destruct (Ht Hr) as [? ? ? ? ?]. by split.
  - intros Ht Hr. destruct (Ht Hr) as [? ?]. by split.
Qed.

Variable o : ranging.
Variable refused : string → bool.
Variable a : answers.

Lemma sources_preserve k (P : GatewayConfigKV → Prop) order cfg : (∀ src c, src ∈ order → P c → P (sync_source k a c src).1) →
  P cfg → P (sync_sources order k a cfg).1.
Proof.
  unfold sync_sources. generalize false. revert cfg. induction order as [|src order IH]; intros cfg ch Hs Hp; [done|]. cbn.
  pose proof (Hs src cfg ltac:(by left) Hp) as Hp'. destruct (sync_source k a cfg src) as [c b]. apply IH; [|done].
  intros src' c' Hin. apply Hs. by right.
Qed.

Lemma source_id k cfg src : cfGatewayID (sync_source k a cfg src).1 = cfGatewayID cfg.
Proof.
  destruct src as [|m]; cbn; unfold syncNetworkInterfaces, syncModuleStatus.
  - destruct (isModuleRunning k "network"); [|done]. destruct (interfaces a) as [[|n names]|]; try done. cbn [negb]. unfold sync_interfaces.
    destruct (ensured_rest cfg false "network") as (_ & _ & _ & <-). destruct (ensure_device "network" (cfg, false)) as [c1 b1].
    set (s5 := drop_udts misplaced _). destruct (adds_spec (n :: names) s5.1 s5.2) as (_ & _ & _ & HI & _).
    rewrite <- surjective_pairing in HI. rewrite HI. unfold s5, ensure_template, drop_devices. cbn. by case_match.
  - destruct (isModuleRunning k m); [|done]. destruct (statuses a m) as [[|v vars]|]; try done. cbn. by repeat case_match.
Qed.

(** The variables of other devices than those of the modules' status stay. *)
Lemma source_variable k cfg src id v : src ∈ sources → vcDeviceID v ∉ ["gateway"; "mqtt"] → cfVariables cfg !! id = Some v →
  cfVariables (sync_source k a cfg src).1 !! id = Some v.
Proof.
  intros Hin Hd Hv. destruct (in_sources src Hin) as [->|(m & -> & Hm)]; cbn; unfold syncNetworkInterfaces, syncModuleStatus.
  - destruct (isModuleRunning k "network"); [|done]. destruct (interfaces a) as [[|n names]|]; try done. cbn [negb]. unfold sync_interfaces.
    destruct (ensured_rest cfg false "network") as (Ev & _). destruct (ensure_device "network" (cfg, false)) as [c1 b1].
    set (s5 := drop_udts misplaced _). destruct (adds_spec (n :: names) s5.1 s5.2) as (_ & HV & _).
    rewrite <- surjective_pairing in HV. rewrite HV. cbn in Ev. rewrite <- Ev in Hv. rewrite <- Hv. unfold s5, ensure_template, drop_devices. cbn. by case_match.
  - destruct (isModuleRunning k m); [|done]. destruct (statuses a m) as [[|w vars]|]; try done. cbn [negb fst]. unfold sync_status.
    destruct (ensured_rest cfg false m) as (Ev & _). destruct (ensure_device m (cfg, false)) as [c1 b1]. cbn in *.
    rewrite delete_where_Some, Ev. split; [done|]. apply andb_false_iff. left. apply String.eqb_neq. by intros <-.
Qed.

(** What a call reads, and what it leaves. *)
Lemma get_spec now order gatewayID cfg k : cfGatewayID cfg = gatewayID → refused gatewayID = false → order ⊆ sources → proper cfg →
  let c := (sync_sources order k a cfg).1 in
  ∃ c', handleGetGateway now refused o order a gatewayID (Some cfg) k =
      (writeJSON (gateway_response o c' k), status_caches order k a cfg, if (sync_sources order k a cfg).2 then with_gateway k (<[gatewayID := Some c']> (kvGateway k)) else k)
    ∧ c' = (if (sync_sources order k a cfg).2 then stamp now c else cfg)
    ∧ ∀ src, src ∈ order → there k a src c'.
Proof.
  intros Hg Hr Hs Hp. cbn. pose proof (sources_there k a order cfg Hs Hp) as (_ & T & F). unfold handleGetGateway.
  assert (Hid : cfGatewayID (sync_sources order k a cfg).1 = gatewayID).
  { apply (sources_preserve k (λ c, cfGatewayID c = gatewayID)); [|exact Hg]. intros src c _ Hc. by rewrite source_id. }
  destruct (sync_sources order k a cfg) as [c [|]]; cbn in *.
  - exists (stamp now c). unfold putGatewayConfig. cbn. rewrite Hid, Hr. cbn. split_and!; [done..|]. intros src Hin. by apply there_stamp, T.
  - destruct (F eq_refl) as [_ E]. cbn in E. subst c. exists cfg. by split_and!.
Qed.

(** What is put into the browse cache depends on the modules alone. *)
Lemma status_caches_again order k k' cfg cfg' : kvHeartbeats k' = kvHeartbeats k → status_caches order k' a cfg' = status_caches order k a cfg.
Proof.
  intros Hh. unfold status_caches. apply list_omap_ext, Forall_Forall2_diag, Forall_true. intros [|m]; [done|].
  unfold syncModuleStatus, isModuleRunning. rewrite Hh. case_match; [done|]. by destruct (statuses a m) as [[|]|].
Qed.

(** C19: Looking at a gateway settles. Whatever the order in which the network module's interfaces and the
    status of gateway and MQTT bridge are taken in, one at a time, a second call finds nothing to
    change in the configuration while the modules answer the same: it gives the same answer
    and leaves the gateway's configuration, its time included, as the first call left it. (Each
    call puts the status of the modules that answered into the browse cache; the second one
    puts the same again, but for the time in it.) The configuration is stored under the name it
    carries, its devices [gateway] and [mqtt] are not of the protocol network, and the bus
    accepts the write. *)
Theorem get_gateway_settles now now' order order' gatewayID k cfg r puts k' :
  order ≡ₚ sources → order' ≡ₚ sources → getGatewayConfig k gatewayID = Some cfg → cfGatewayID cfg = gatewayID → refused gatewayID = false →
  proper cfg → handleGetGateway now refused o order a gatewayID (getGatewayConfig k gatewayID) k = (r, puts, k') →
  ∃ puts', handleGetGateway now' refused o order' a gatewayID (getGatewayConfig k' gatewayID) k' = (r, puts', k') ∧ puts' ≡ₚ puts.
Proof.
  intros Ho Ho' Hc Hg Hr Hp E. rewrite Hc in E.
  destruct (get_spec now order gatewayID cfg k Hg Hr ltac:(intros src; by rewrite Ho) Hp) as (c' & E' & Ec & T).
  rewrite E' in E. injection E as <- <- <-.
  set (k' := if _ : bool then _ else _).
  assert (Hk : getGatewayConfig k' gatewayID = Some c' ∧ kvHeartbeats k' = kvHeartbeats k).
  { unfold k', getGatewayConfig. destruct (sync_sources order k a cfg).2; cbn; [by rewrite lookup_insert_eq|by rewrite Ec]. }
  destruct Hk as [-> Hh]. exists (status_caches order' k' a c'). split.
  - unfold handleGetGateway. rewrite sources_again.
    + unfold gateway_response, available. by rewrite Hh.
    + intros src Hin. rewrite Ho', <- Ho in Hin. specialize (T src Hin). clear -T Hh. unfold there, isModuleRunning in *. by rewrite Hh.
  - rewrite (status_caches_again order' k k' cfg c' Hh). unfold status_caches. by rewrite Ho, Ho'.
Qed.

(** C20: What is deleted while somebody looks comes back. A call that has read the
    configuration and waits for the modules writes what it read when they made a difference:
    a variable that was deleted meanwhile, and acknowledged as deleted, is in the bucket again. *)
Theorem deleted_variable_returns now now' order gatewayID k cfg id v ans k1 r puts k2 : order ≡ₚ sources →
  getGatewayConfig k gatewayID = Some cfg → cfGatewayID cfg = gatewayID → refused gatewayID = false → proper cfg →
  cfVariables cfg !! id = Some v → vcDeviceID v ∉ ["gateway"; "mqtt"] → (sync_sources order k a cfg).2 = true →
  serve now' refused gatewayID (handleDeleteGatewayVariable gatewayID id) k = (ans, k1) →
  handleGetGateway now refused o order a gatewayID (getGatewayConfig k gatewayID) k1 = (r, puts, k2) →
  ans.1 = 200 ∧ (∃ c1, getGatewayConfig k1 gatewayID = Some c1 ∧ cfVariables c1 !! id = None)
  ∧ ∃ c2, getGatewayConfig k2 gatewayID = Some c2 ∧ cfVariables c2 !! id = Some v.
Proof.
  intros Ho Hc Hg Hr Hp Hv Hd Hch Es Eg. unfold serve in Es. rewrite Hc in Es, Eg.
  unfold finish, handleDeleteGatewayVariable, putGatewayConfig in Es. cbn in Es. rewrite Hg, Hr in Es. injection Es as <- <-.
  split; [done|]. split; [eexists; split; [unfold getGatewayConfig; cbn; by rewrite lookup_insert_eq|]; cbn; by rewrite lookup_delete_eq|].
  revert Eg. set (k1 := with_gateway k _). intros Eg.
  assert (Hsame : sync_sources order k1 a cfg = sync_sources order k a cfg) by done.
  destruct (get_spec now order gatewayID cfg k1 Hg Hr ltac:(intros src; by rewrite Ho) Hp) as (c' & E' & Ec & _).
  rewrite E', Hsame, Hch in Eg. rewrite Hsame, Hch in Ec. injection Eg as <- <- <-. exists c'. unfold getGatewayConfig. cbn. rewrite lookup_insert_eq.
  split; [done|]. subst c'. cbn.
  apply (sources_preserve k (λ c, cfVariables c !! id = Some v)); [|done]. intros src c Hin Hc'. apply source_variable; [by rewrite <- Ho|done..].
Qed.

End Sync.
