(* ===== verification/ApiInterfaces.v ===== *)
(** From the machine's interfaces to the gateway: what the network module publishes, what a
    look at the gateway in the API makes of its configuration, and what the gateway that
    applies it does with the values. *)

From S2P Require Import GatewayRouting GatewayScanners GitopsSync.
From S2P Require Export ApiGatewayFacts.
Import Topics.

#[local] Open Scope Z_scope.

(** What the API reads of the network module's answer: the names of the instances. An error
    has none. *)
Definition network_answer {Sys} `{System Sys} `{NetworkText} `{UnicodeTables} (h : Host Sys) : option (list string) :=
  match (handleBrowse h).1 with inr l => Some (map uiName l) | inl _ => Some [] end.

Section Sync.
Context `{UnicodeTables}.
Variable a : answers.

(** The device of the interfaces has the protocol it was made with. *)
Definition own_device (cfg : GatewayConfigKV) : Prop := ∀ d, cfDevices cfg !! "network" = Some d → dcProtocol d = "network".

Lemma interfaces_own names cfg : own_device cfg → own_device (sync_interfaces names cfg).1.
Proof.
  intros Ho d. unfold sync_interfaces. pose proof (ensured_protocol cfg false "network") as P. destruct (ensure_device "network" (cfg, false)) as [c1 b1].
  destruct (ensure_template (drop_devices old_device (c1, b1))) as [c3 b3] eqn:E3.
  assert (H3 : cfDevices c3 = delete_where old_device (cfDevices c1)) by (unfold ensure_template, drop_devices in E3; case_match; injection E3 as <- <-; done).
  set (s5 := drop_udts misplaced (drop_udts (gone names) (c3, b3))). destruct (adds_spec names s5.1 s5.2) as (HD & _).
  rewrite <- surjective_pairing in HD. rewrite HD. change (cfDevices s5.1) with (cfDevices c3). rewrite H3, delete_where_Some. intros [Hn _].
  specialize (P d Hn). destruct (cfDevices cfg !! "network") as [d0|] eqn:E; rewrite P; [by apply Ho|done].
Qed.

Lemma status_own m vars cfg : m ≠ "network" → own_device cfg → own_device (sync_status m vars cfg).1.
Proof. intros Hm Ho d. rewrite status_devices by done. apply Ho. Qed.

Lemma source_own k cfg src : src ∈ sources → own_device cfg → own_device (sync_source k a cfg src).1.
Proof.
  intros Hin Hf. destruct (in_sources src Hin) as [->|(m & -> & Hm)]; cbn; unfold syncNetworkInterfaces, syncModuleStatus.
  - destruct (isModuleRunning k "network"); [|done]. destruct (interfaces a) as [[|n names]|]; try done. by apply interfaces_own.
  - destruct (isModuleRunning k m); [|done]. destruct (statuses a m) as [[|v vars]|]; try done. apply status_own; [by apply not_network|done].
Qed.

(** The interface is new, or as the API made it; so are the device and the template. *)
Definition fresh_interface (name : string) (cfg : GatewayConfigKV) : Prop :=
  (∀ u, cfUdtVariables cfg !! name = Some u → u = interface_udt name)
  ∧ own_device cfg
  ∧ ∀ t, cfUdtTemplates cfg !! "NetworkInterface" = Some t → t = interface_template.

Lemma interfaces_fresh name names cfg : fresh_interface name cfg → fresh_interface name (sync_interfaces names cfg).1.
Proof.
  intros (Hu & Hd & Ht). apply (interfaces_own names) in Hd. unfold sync_interfaces in *.
  destruct (ensured_rest cfg false "network") as (_ & Et & Eu & _).
  destruct (ensure_device "network" (cfg, false)) as [c1 b1]. cbn in Et, Eu.
  destruct (ensure_template (drop_devices old_device (c1, b1))) as [c3 b3] eqn:E3.
  assert (H3 : cfDevices c3 = delete_where old_device (cfDevices c1) ∧ cfUdtVariables c3 = cfUdtVariables c1
    ∧ ∀ t, cfUdtTemplates c3 !! "NetworkInterface" = Some t → t = interface_template).
  { unfold ensure_template, drop_devices in E3. cbn in E3. destruct (cfUdtTemplates c1 !! "NetworkInterface") as [t|] eqn:Ei; injection E3 as <- <-; cbn.
    - split_and!; [done..|]. rewrite Et. exact Ht.
    - split_and!; [done..|]. intros t. rewrite lookup_insert_eq. by intros [= <-]. }
  set (s5 := drop_udts misplaced (drop_udts (gone names) (c3, b3))). destruct (adds_spec names s5.1 s5.2) as (HD & _ & HT & _ & HU).
  rewrite <- surjective_pairing in HD, HT, HU. change (cfUdtTemplates s5.1) with (cfUdtTemplates c3) in HT.
  destruct H3 as (E1 & E2 & Ht3). unfold fresh_interface. rewrite HT, HU. split_and!; [|exact Hd|exact Ht3].
  assert (Hs : ∀ u, cfUdtVariables s5.1 !! name = Some u → u = interface_udt name).
  { intros u. unfold s5. cbn. rewrite !delete_where_Some, E2, Eu. intros [[Hn _] _]. by apply Hu. }
  intros u. destruct (cfUdtVariables s5.1 !! name) as [w|] eqn:Ew; [|case_bool_decide; [by intros [= <-]|done]].
  rewrite (Hs w eq_refl). cbn. by case_bool_decide; intros [= <-].
Qed.

Lemma status_fresh name m vars cfg : m ≠ "network" → fresh_interface name cfg → fresh_interface name (sync_status m vars cfg).1.
Proof.
  intros Hm (Hu & Hd & Ht). apply (status_own m vars) in Hd; [|done]. unfold sync_status in *. destruct (ensured_rest cfg false m) as (_ & Et & Eu & _).
  destruct (ensure_device m (cfg, false)) as [c1 b1]. cbn in *. unfold fresh_interface. cbn. by rewrite Et, Eu.
Qed.

Lemma source_fresh k name cfg src : src ∈ sources → fresh_interface name cfg → fresh_interface name (sync_source k a cfg src).1.
Proof.
  intros Hin Hf. destruct (in_sources src Hin) as [->|(m & -> & Hm)]; cbn; unfold syncNetworkInterfaces, syncModuleStatus.
  - destruct (isModuleRunning k "network"); [|done]. destruct (interfaces a) as [[|n names]|]; try done. by apply interfaces_fresh.
  - destruct (isModuleRunning k m); [|done]. destruct (statuses a m) as [[|v vars]|]; try done. apply status_fresh; [by apply not_network|done].
Qed.

(** The configuration that a call leaves has the interface, its device and its template. *)
Lemma synced_interface k order cfg name names : order ≡ₚ sources → proper cfg → fresh_interface name cfg →
  isModuleRunning k "network" = true → interfaces a = Some names → name ∈ names →
  let c := (sync_sources order k a cfg).1 in
  cfUdtVariables c !! name = Some (interface_udt name) ∧ (∃ d, cfDevices c !! "network" = Some d ∧ dcProtocol d = "network" ∧ dcAutoManaged d = true)
  ∧ cfUdtTemplates c !! "NetworkInterface" = Some interface_template.
Proof.
  intros Ho Hp Hf Hr Ha Hin c. destruct (sources_there k a order cfg ltac:(intros src; by rewrite Ho) Hp) as (_ & T & _). fold c in T.
  assert (F : fresh_interface name c).
  { apply (sources_preserve a k (fresh_interface name)); [|done]. intros src c' Hs. apply source_fresh. by rewrite <- Ho. }
  specialize (T Interfaces ltac:(rewrite Ho; by left)). cbn in T. rewrite Ha in T. destruct names as [|n names]; [by apply elem_of_nil in Hin|].
  destruct (T Hr) as [(d & Hd & Hm) _ [t Ht] _ Hn]. destruct (Hn name Hin) as (u & Hu & _). destruct F as (Fu & Fd & Ft). split_and!.
  - rewrite Hu. f_equal. by apply Fu.
  - exists d. split_and!; [done|by apply Fd|done].
  - rewrite Ht. f_equal. by apply Ft.
Qed.

(** C21: A look at the gateway makes the machine's manifests invalid. When the API has been asked for the gateway while the
    network module runs, what the machine exports is refused when it is applied, here or on
    another machine: the device of the interfaces has a protocol that validation does not know. *)
Theorem looking_prevents_restore {P} `{Peers P} o now refused order gatewayID cfg k r puts k' names n : order ≡ₚ sources →
  getGatewayConfig k gatewayID = Some cfg → cfGatewayID cfg = gatewayID → refused gatewayID = false → proper cfg → own_device cfg →
  isModuleRunning k "network" = true → interfaces a = Some (n :: names) →
  handleGetGateway now refused o order a gatewayID (getGatewayConfig k gatewayID) k = (r, puts, k') →
  ∀ o' now' src (p : P) (s' : Site P), ∃ e, Apply o' now' (Export o' [] (mkSite k' p)).1 src s' = (None, Some e, s').
Proof.
  intros Ho Hc Hg Hr Hp Hd Hrun Ha E o' now' src p s'. rewrite Hc in E. assert (Hs : order ⊆ sources) by (intros x; by rewrite Ho).
  destruct (get_spec o refused a now order gatewayID cfg k Hg Hr Hs Hp) as (c' & E' & Ec & T). rewrite E' in E. injection E as _ _ <-.
  specialize (T Interfaces ltac:(rewrite Ho; by left)). cbn in T. rewrite Ha in T. destruct (it_device _ _ (T Hrun)) as (d & Hdev & _).
  assert (Hown : own_device c').
  { assert (Hs' : own_device (sync_sources order k a cfg).1) by (apply (sources_preserve a k own_device); [|done]; intros x c'' Hx; apply source_own, Hs, Hx).
    rewrite Ec. by destruct (sync_sources order k a cfg).2. }
  apply (unknown_protocol_refused o' now' src _ gatewayID c' "network" d); [|done|by rewrite (Hown d Hdev)].
  cbn. destruct (sync_sources order k a cfg).2; cbn; [by rewrite lookup_insert_eq|].
  rewrite Ec. unfold getGatewayConfig in Hc. destruct (kvGateway k !! gatewayID) as [[x|]|]; cbn in Hc; congruence.
Qed.

End Sync.

(** ** The gateway *)

Section Values.
Context `{FloatText}.
Context (marshal : GoValue.value → option string) (refusedSub : string → bool).
Context (iter : ∀ A : Type, gmap string A → list (string * A)).
Context (iter_perm : ∀ A (m : gmap string A), iter A m ≡ₚ map_to_list m).

(** Every reference to a tag sets its member. *)
Lemma set_members_value now v refs ref : ∀ asms, is_Some (asms !! variableID ref) →
  (ref ∈ refs ∨ ∃ b, asms !! variableID ref = Some b ∧ aValues b !! memberName ref = Some v ∧ aDirty b = true ∧ aTimer b = Some (ns now + udtDebounceDuration)) →
  ∃ b, fold_left (set_member now v) refs asms !! variableID ref = Some b ∧ aValues b !! memberName ref = Some v
    ∧ aDirty b = true ∧ aTimer b = Some (ns now + udtDebounceDuration).
Proof.
  induction refs as [|r refs IH]; intros asms [b0 Hb0] Hr; cbn [fold_left].
  { destruct Hr as [?%elem_of_nil|?]; done. }
  apply IH; clear IH; unfold set_member.
  - destruct (asms !! variableID r) as [b|] eqn:Eb; [|by eexists]. apply lookup_insert_is_Some'. right. by eexists.
  - destruct Hr as [[<-|Hin]%elem_of_cons|(b & Eb & Hv & Hd & Ht)].
    + right. rewrite Hb0. eexists. rewrite lookup_insert_eq. split_and!; [done| |done..]. cbn. by rewrite lookup_insert_eq.
    + by left.
    + right. destruct (asms !! variableID r) as [w|] eqn:Ew; [|eauto].
      destruct (decide (variableID r = variableID ref)) as [E|Hne]; [|rewrite lookup_insert_ne by done; eauto].
      rewrite E, lookup_insert_eq. rewrite E, Eb in Ew. injection Ew as <-. eexists. split_and!; [done| |done..]. cbn.
      destruct (decide (memberName r = memberName ref)) as [->|Hm]; [by rewrite lookup_insert_eq|by rewrite lookup_insert_ne].
Qed.

(** The device of a structured variable is listened to. *)
Lemma udt_device_subscribed {raw} c (g0 : Gateway) id u d : (∀ s, refusedSub s = false) →
  cfUdtVariables c !! id = Some u → cfDevices c !! ucDeviceID u = Some d → dcProtocol d ≠ gatewayID g0 →
  mkGwSub (gatewaySubject (dcProtocol d) (ucDeviceID u)) (HData (dcProtocol d) (ucDeviceID u))
    ∈ subs (ApplyConfig (raw := raw) refusedSub iter (Some c) g0).1.
Proof.
  intros Hsub Hu Hd Hg. destruct (ApplyConfig_subs (raw := raw) refusedSub iter c g0) as (-> & _). apply elem_of_app. right.
  unfold scanner_subs. apply list_elem_of_In, in_concat.
  destruct (proj2 (device_groups_of refusedSub iter c) (ucDeviceID u)) as [_ Hex].
  destruct Hex as [grp Hgrp]; [split; [by eexists|]|].
  { unfold used_devices. apply elem_of_app. right. apply list_elem_of_In, in_map_iff. exists (id, u).
    split; [done|]. apply list_elem_of_In. by apply (iter_lookup iter iter_perm). }
  exists (group_subs refusedSub (gatewayID g0) (ucDeviceID u, grp)). split.
  - apply in_map, list_elem_of_In, (iter_lookup iter iter_perm). exact Hgrp.
  - apply (group_device refusedSub iter) in Hgrp. rewrite Hd in Hgrp. injection Hgrp as ->. unfold group_subs. cbn [fst snd].
    rewrite (proj2 (String.eqb_neq _ _)) by congruence. unfold Gateway.subscribe. rewrite !Hsub. left. done.
Qed.

(** A message of a device under the tag of a member sets that member. *)
Lemma member_value_set {raw} now c (g : Gateway) id u d t member tag (m : PlcDataMessage) : gw_inv g → config g = Some c →
  cfUdtVariables c !! id = Some u → cfDevices c !! ucDeviceID u = Some d → cfUdtTemplates c !! ucTemplateName u = Some t →
  ucMemberTags u !! member = Some tag → existsb (λ tm, String.eqb (tmName tm) member) (tcMembers t) = true → one_token (dcProtocol d) →
  let g' := (handleScannerData (raw := raw) marshal now (scanner_subject (dcProtocol d) (ucDeviceID u) tag) (Some m) (dcProtocol d) (ucDeviceID u) g).1 in
  ∃ asm, udtAssemblers g' !! id = Some asm ∧ assemble asm !! member = Some (dmValue m) ∧ aDirty asm = true
    ∧ aTimer asm = Some (ns now + udtDebounceDuration).
Proof.
  intros Hi Hc Hu Hd Ht Htag Hmem Hp. unfold handleScannerData.
  rewrite split_n_split by (rewrite ?split_scanner by done; cbn; lia). rewrite split_scanner by done.
  pose proof (routeValue_shape (raw := raw) marshal now (dcProtocol d) (ucDeviceID u) (SanitizeForSubject tag) (dmValue m) (dmDatatype m) g) as Hshape.
  pose proof (same_shape_inv _ _ Hshape Hi) as Hi'. destruct Hshape as (_ & Sc & _).
  set (g' := (routeValue _ _ _ _ _ _ _ _).1) in *. unfold gw_inv in Hi, Hi'. rewrite Sc in Hi'. rewrite Hc in Hi, Hi'.
  cbn [default] in Hi, Hi'. change (Datatypes.id c) with c in Hi, Hi'.
  assert (Hasm : is_Some (udtAssemblers g !! id)).
  { assert (is_Some ((static_asm <$> udtAssemblers g) !! id)) as Hs; [eexists; apply (fol_udts _ _ _ Hi); eauto 10|].
    rewrite lookup_fmap in Hs. by apply fmap_is_Some in Hs. }
  assert (Href : mkRef id member ∈ entry (udtMemberIndex g) (tag_key (dcProtocol d) (ucDeviceID u) (SanitizeForSubject tag)))
    by (apply (fol_members _ _ _ Hi); by exists u, d, t, tag).
  destruct (set_members_value now (dmValue m) _ (mkRef id member) (udtAssemblers g) Hasm (or_introl Href)) as (asm & Easm & Hv & Hdirty & Htimer).
  exists asm. assert (Eg : udtAssemblers g' !! id = Some asm).
  { unfold g', routeValue. match goal with |- context [let '(_, _) := ?e in _] => destruct e end. exact Easm. }
  split_and!; [exact Eg| |done..]. rewrite assemble_lookup.
  assert (Hs : (static_asm <$> udtAssemblers g') !! id = Some (static_asm asm)) by by rewrite lookup_fmap, Eg.
  apply (fol_udts _ _ _ Hi') in Hs as (u' & d' & t' & Hu' & _ & Ht' & Est). rewrite Hu in Hu'. injection Hu' as <-. rewrite Ht in Ht'. injection Ht' as <-.
  injection Est as _ -> _ _ _ _. by rewrite Hmem.
Qed.

Lemma interface_subject name prop : prop ∈ memberNames →
  "network.data.network." +:+ (SanitizeForSubject name +:+ "_" +:+ prop) = scanner_subject "network" "network" (name +:+ "_" +:+ prop).
Proof.
  intros Hp. unfold scanner_subject, Data. change (SanitizeForSubject "network") with "network".
  assert (E : SanitizeForSubject (name +:+ "_" +:+ prop) = SanitizeForSubject name +:+ "_" +:+ prop).
  { unfold SanitizeForSubject. rewrite !chars_app, !map_app, !str_app. f_equal.
    assert (Forall (λ p, str (map sanitize_char (chars p)) = p) memberNames) as Hall by by repeat constructor.
    change (str (map sanitize_char (chars "_"))) with "_". f_equal. exact (proj1 (Forall_forall _ _) Hall prop Hp). }
  rewrite E. reflexivity.
Qed.

Lemma property_member iface prop v : properties iface !! prop = Some v → prop ∈ memberNames.
Proof.
  assert (Hl : ∀ l : list (string * (GoValue.value * string)), Forall (λ p, p ∈ memberNames) l.*1 → (list_to_map l : gmap _ _) !! prop = Some v → prop ∈ memberNames).
  { intros l Hl Hin%elem_of_list_to_map_2. apply (proj1 (Forall_forall _ _) Hl). by apply (list_elem_of_fmap_2 fst l (prop, v)). }
  unfold properties. intros [E|[_ E]]%lookup_union_Some_raw; revert E.
  - apply Hl. cbn. repeat constructor; by apply (bool_decide_unpack _).
  - destruct (nfStatistics iface) as [st|]; [|by rewrite lookup_empty]. apply Hl. cbn. repeat constructor; by apply (bool_decide_unpack _).
Qed.

Lemma interface_tag name prop : prop ∈ memberNames → ucMemberTags (interface_udt name) !! prop = Some (name +:+ "_" +:+ prop).
Proof.
  intros Hp. cbn [ucMemberTags interface_udt]. apply elem_of_list_to_map_1.
  - change (NoDup memberNames). by apply (bool_decide_unpack _).
  - apply list_elem_of_In, in_map_iff. exists prop. split; [done|by apply list_elem_of_In].
Qed.

Lemma browse_names {Sys} `{System Sys} `{NetworkText} `{UnicodeTables} (h h' : Host Sys) l :
  readInterfaces h = (inr l, h') → network_answer h = Some (map nfName l).
Proof. intros E. unfold network_answer, handleBrowse. rewrite E. cbn. by rewrite map_map. Qed.

(** C4: The values of the machine's interfaces reach the gateway. When the API has been asked for the gateway
    while the network module runs, the gateway that applies the configuration listens to the
    module, and each property that the module publishes of an interface becomes the member of
    that name of the interface's structured variable, which is then due to be published. *)
Theorem interface_values_reach_gateway {Sys raw} `{System Sys} `{NetworkText} `{UnicodeTables} (h h' : Host Sys) l iface prop v
    (k : Manifest.KV) order a cfg (g0 : Gateway) (m : PlcDataMessage) now nowN :
  readInterfaces h = (inr l, h') → iface ∈ l → properties iface !! prop = Some v →
  isModuleRunning k "network" = true → interfaces a = network_answer h → order ≡ₚ sources → proper cfg →
  fresh_interface (nfName iface) cfg → gatewayID g0 ≠ "network" → (∀ s, refusedSub s = false) →
  let subject := (property_message nowN (nfName iface) prop v).1 in
  let g := (ApplyConfig (raw := raw) refusedSub iter (Some (sync_sources order k a cfg).1) g0).1 in
  mkGwSub (gatewaySubject "network" "network") (HData "network" "network") ∈ subs g
  ∧ matchSubject (gatewaySubject "network" "network") subject = true
  ∧ ∃ asm, udtAssemblers (handleScannerData (raw := raw) marshal now subject (Some m) "network" "network" g).1 !! nfName iface = Some asm
      ∧ assemble asm !! prop = Some (dmValue m) ∧ aDirty asm = true ∧ aTimer asm = Some (ns now + udtDebounceDuration).
Proof.
  intros Er Hin Hprop Hrun Ha Ho Hp Hf Hgid Hsub subject g. pose proof (property_member _ _ _ Hprop) as Hm.
  rewrite (browse_names _ _ _ Er) in Ha.
  destruct (synced_interface a k order cfg (nfName iface) _ Ho Hp Hf Hrun Ha) as (Hu & (d & Hd & Hdp & _) & Ht); [apply list_elem_of_In, in_map; by apply list_elem_of_In|].
  set (c := (sync_sources order k a cfg).1) in *.
  assert (Es : subject = scanner_subject "network" "network" (nfName iface +:+ "_" +:+ prop)) by by apply interface_subject.
  assert (Hplain : plain_token "network") by by apply (bool_decide_unpack _). rewrite Es. split_and!.
  - pose proof (udt_device_subscribed (raw := raw) c g0 (nfName iface) (interface_udt (nfName iface)) d) as Hs. rewrite Hdp in Hs. by apply Hs.
  - destruct (gateway_matches "network" "network" "network" "network" (nfName iface +:+ "_" +:+ prop) Hplain (proj1 Hplain)) as [-> _].
    by apply bool_decide_eq_true.
  - destruct (ApplyConfig_subs (raw := raw) refusedSub iter c g0) as (_ & _ & S3 & _).
    pose proof (member_value_set (raw := raw) now c g (nfName iface) (interface_udt (nfName iface)) d interface_template prop (nfName iface +:+ "_" +:+ prop) m) as Hs.
    rewrite Hdp in Hs. apply Hs; [by apply ApplyConfig_inv|done..|by apply interface_tag| |].
    + assert (Hex : Forall (λ p, existsb (λ tm, String.eqb (tmName tm) p) (tcMembers interface_template) = true) memberNames) by by repeat constructor.
      exact (proj1 (Forall_forall _ _) Hex prop Hm).
    + apply Hplain.
Qed.

End Values.
