(* ===== verification/ApiBrowse.v ===== *)
(** Browsing behind the HTTP API: internal/api/scanner.go, the cache and the states of
    gateway.go, and what modulestatus.go puts into the cache.

    A browse is started by a request, which subscribes to the scanner's results and its
    progress under the browse's name, and ends with a result, a failure or a cancellation. The
    functions that remove the subscriptions run on their own; so a start, the end of its
    request, messages, cancellations and removals are steps of one state. *)

From S2P Require Export ApiGateway.
From S2P Require ChannelBus.

#[local] Open Scope Z_scope.

(** ** The cache *)

(** One element of a scanner's result, [None] when it does not decode. *)
Record scannerVariable := mkSv {
  svVariableID : string;
  svDatatype : string;
  svValue : value;
  svCipType : string;
}.

Record scannerOID := mkSo {
  soOID : string;
  soName : string;
  soDatatype : string;
  soValue : value;
  soSnmpType : string;
}.

Record scannerResult := mkScanner {
  srVariables : list (option scannerVariable);
  srOIDs : list (option scannerOID);
  srUdts : gmap string string;
  srStructTags : gmap string string;
  srInstances : list string;
}.

(** The JSON of results, of the cache and of progress: the phase of a progress message. *)
Class BrowseText := {
  result_parse : string → option scannerResult;
  cache_text : BrowseCache → option string;
  phase_parse : string → option string;
}.

Section Transform.
Context `{BrowseText}.
Variable o : ranging.

Definition variable_item (v : scannerVariable) : browseCacheItem :=
  mkItem (svVariableID v) (svVariableID v) (svDatatype v) (svValue v) (svCipType v).

Definition oid_item (v : scannerOID) : browseCacheItem :=
  mkItem (soOID v) (if String.eqb (soName v) "" then soOID v else soName v) (soDatatype v) (soValue v) (soSnmpType v).

Definition browse_cache (r : scannerResult) (deviceID protocol : string) : BrowseCache :=
  mkBrowse deviceID protocol (omap (fmap variable_item) (srVariables r) ++ omap (fmap oid_item) (srOIDs r))
    (o _ (srUdts r)).*2 (srStructTags r) (Some (srInstances r)).

Definition transformBrowseResult (raw deviceID protocol : string) : string :=
  match result_parse raw with
  | None => raw
  | Some r => default raw (cache_text (browse_cache r deviceID protocol))
  end.

End Transform.

(** ** The state *)

Record BrowseState := mkBrowseState {
  bsBrowseID : string;
  bsGatewayID : string;
  bsDeviceID : string;
  bsProtocol : string;
  bsStatus : string;
  bsStartedAt : Z;
  bsResult : option string;
  bsCleanup : nat;
}.

Definition with_status (s : BrowseState) (status : string) (result : option string) : BrowseState :=
  mkBrowseState (bsBrowseID s) (bsGatewayID s) (bsDeviceID s) (bsProtocol s) status (bsStartedAt s) result (bsCleanup s).

(** What a call of [handleStartGatewayBrowse] captures; its number stands for its closure
    [cleanupBrowse]. *)
Record start := mkStart {
  stNumber : nat;
  stBrowseID : string;
  stGatewayID : string;
  stDeviceID : string;
  stProtocol : string;
}.

Inductive browseHandler := OnResult | OnProgress.

(** A subscription of a start. *)
Record browseSub := mkBrowseSub {
  buSubject : string;
  buHandler : browseHandler;
  buStart : start;
}.

Record Browses := mkBrowses {
  bwStates : gmap string BrowseState;
  bwCache : gmap string string;
  bwBucket : gmap string string;
  bwSubs : list browseSub;
  bwCleanups : list nat;
  bwStarts : nat;
}.

Definition set_states (b : Browses) m := mkBrowses m (bwCache b) (bwBucket b) (bwSubs b) (bwCleanups b) (bwStarts b).
Definition set_cache (b : Browses) m := mkBrowses (bwStates b) m (bwBucket b) (bwSubs b) (bwCleanups b) (bwStarts b).
Definition set_bucket (b : Browses) m := mkBrowses (bwStates b) (bwCache b) m (bwSubs b) (bwCleanups b) (bwStarts b).
Definition set_subs (b : Browses) l := mkBrowses (bwStates b) (bwCache b) (bwBucket b) l (bwCleanups b) (bwStarts b).
Definition set_cleanups (b : Browses) l := mkBrowses (bwStates b) (bwCache b) (bwBucket b) (bwSubs b) l (bwStarts b).

Definition cache_key (gatewayID deviceID : string) : string := gatewayID +:+ ":" +:+ deviceID.

(** What the status of a module puts into the cache, and into the bucket. *)
Definition put_cache `{BrowseText} (gatewayID : string) (c : string * BrowseCache) (b : Browses) : Browses :=
  match cache_text c.2 with
  | None => b
  | Some text =>
      let key := cache_key gatewayID c.1 in set_bucket (set_cache b (<[key := text]> (bwCache b))) (<[key := text]> (bwBucket b))
  end.

(** topics.go *)
Definition BrowseCancel (protocol browseID : string) : string := protocol +:+ ".browse.cancel." +:+ browseID.

(** ** The steps *)

Section Browse.
Context `{BrowseText}.
Variable o : ranging.

(** The body of a start: the parameters as far as they are strings. *)
Record startParams := mkParams {
  paProtocol : string;
  paDeviceID : string;
  paBrowseID : string;
}.

(** [cleanupBrowse] of a start. *)
Definition cleanup (n : nat) (b : Browses) : Browses := set_subs b (List.filter (λ s, negb (Nat.eqb (stNumber (buStart s)) n)) (bwSubs b)).

Definition start_subs (st : start) : list browseSub := [
  mkBrowseSub (stProtocol st +:+ ".browse.result." +:+ stBrowseID st) OnResult st;
  mkBrowseSub (stProtocol st +:+ ".browse.progress." +:+ stBrowseID st) OnProgress st].

(** A start up to its request to the scanner; [generated] is the random name. *)
Definition handleStartGatewayBrowse (now : Z) (generated gatewayID : string) (body : option startParams) (b : Browses)
    : (answer (string * string) + start) * Browses :=
  match body with
  | None => (inl (writeError 400 "invalid JSON body"), b)
  | Some p =>
      if String.eqb (paProtocol p) "" then (inl (writeError 400 "missing required field: protocol"), b)
      else
        let browseID := if String.eqb (paBrowseID p) "" then generated else paBrowseID p in
        let st := mkStart (bwStarts b) browseID gatewayID (paDeviceID p) (paProtocol p) in
        (inr st, mkBrowses
          (<[browseID := mkBrowseState browseID gatewayID (paDeviceID p) (paProtocol p) "browsing" now None (stNumber st)]> (bwStates b))
          (bwCache b) (bwBucket b) (bwSubs b ++ start_subs st) (bwCleanups b) (S (bwStarts b)))
  end.

(** The end of the request: whether the scanner has answered. *)
Definition finish_start (st : start) (answered : bool) (b : Browses) : answer (string * string) * Browses :=
  if answered then (writeJSON (stBrowseID st, stDeviceID st), b)
  else (writeError 500 "browse request failed", cleanup (stNumber st) b).

(** A result. *)
Definition on_result (st : start) (data : string) (b : Browses) : Browses :=
  let cacheJSON := transformBrowseResult o data (stDeviceID st) (stProtocol st) in
  match bwStates b !! stBrowseID st with
  | None => b
  | Some state =>
      if negb (String.eqb (bsStatus state) "browsing") then b
      else
        let key := cache_key (stGatewayID st) (stDeviceID st) in
        mkBrowses (<[stBrowseID st := with_status state "completed" (Some cacheJSON)]> (bwStates b))
          (<[key := cacheJSON]> (bwCache b)) (<[key := cacheJSON]> (bwBucket b)) (bwSubs b) (stNumber st :: bwCleanups b) (bwStarts b)
  end.

(** [finishBrowse]. *)
Definition finishBrowse (st : start) (status : string) (result : option string) (b : Browses) : Browses :=
  match bwStates b !! stBrowseID st with
  | None => b
  | Some state =>
      if negb (String.eqb (bsStatus state) "browsing") then b
      else set_cleanups (set_states b (<[stBrowseID st := with_status state status result]> (bwStates b))) (stNumber st :: bwCleanups b)
  end.

Definition on_progress (st : start) (data : string) (b : Browses) : Browses :=
  if bool_decide (phase_parse data = Some "failed") then finishBrowse st "failed" None b else b.

Definition on_message (data : string) (b : Browses) (s : browseSub) : Browses :=
  match buHandler s with OnResult => on_result (buStart s) data b | OnProgress => on_progress (buStart s) data b end.

(** A message on the bus reaches the subscriptions with its subject. *)
Definition message (subject data : string) (b : Browses) : Browses :=
  fold_left (on_message data) (List.filter (λ s, ChannelBus.matchSubject (buSubject s) subject) (bwSubs b)) b.

(** The subject of the cancellation, when one is published. *)
Definition handleCancelGatewayBrowse (browseID : string) (b : Browses) : answer string * option string * Browses :=
  match bwStates b !! browseID with
  | None => (writeError 404 "browse not found", None, b)
  | Some state =>
      if negb (String.eqb (bsStatus state) "browsing") then (writeJSON (bsStatus state), None, b)
      else (writeJSON "cancelled", Some (BrowseCancel (bsProtocol state) browseID),
        set_cleanups (set_states b (<[browseID := with_status state "cancelled" (bsResult state)]> (bwStates b))) (bsCleanup state :: bwCleanups b))
  end.

(** From memory, or from the bucket after a restart; [None] is JSON's null. *)
Definition handleGetGatewayBrowseCache (gatewayID deviceID : string) (b : Browses) : option string * Browses :=
  let key := cache_key gatewayID deviceID in
  match bwCache b !! key with
  | Some result => (Some result, b)
  | None =>
      match bwBucket b !! key with
      | Some data => if String.eqb data "" then (None, b) else (Some data, set_cache b (<[key := data]> (bwCache b)))
      | None => (None, b)
      end
  end.

Definition handleGetGatewayBrowseStates (b : Browses) : list BrowseState := (o _ (bwStates b)).*2.

(** The first state of the device in the order of the map. *)
Definition handleGetGatewayBrowseState (gatewayID deviceID : string) (b : Browses) : answer BrowseState :=
  match List.find (λ s, String.eqb (bsGatewayID s) gatewayID && String.eqb (bsDeviceID s) deviceID) (o _ (bwStates b)).*2 with
  | Some s => writeJSON s
  | None => writeError 404 "no browse state"
  end.

(** The process ends and a new one begins. *)
Definition restart (b : Browses) : Browses := mkBrowses ∅ ∅ (bwBucket b) [] [] 0.

Inductive browseStep :=
  | Begin (now : Z) (generated gatewayID : string) (body : option startParams)
  | Answered (st : start) (answered : bool)
  | Message (subject data : string)
  | Cancel (browseID : string)
  | Clean (n : nat)
  | Look (gatewayID deviceID : string)
  | PutStatus (gatewayID : string) (c : string * BrowseCache).

Definition browse_step (b : Browses) (step : browseStep) : Browses :=
  match step with
  | Begin now generated gatewayID body => snd (handleStartGatewayBrowse now generated gatewayID body b)
  | Answered st answered => snd (finish_start st answered b)
  | Message subject data => message subject data b
  | Cancel browseID => snd (handleCancelGatewayBrowse browseID b)
  | Clean n => if existsb (Nat.eqb n) (bwCleanups b) then cleanup n b else b
  | Look gatewayID deviceID => snd (handleGetGatewayBrowseCache gatewayID deviceID b)
  | PutStatus gatewayID c => put_cache gatewayID c b
  end.

Definition browse_run (b : Browses) (l : list browseStep) : Browses := fold_left browse_step l b.

End Browse.

(** ** How browses end *)

Section Facts.
Context `{BrowseText}.
Variable o : ranging.
Notation browse_step := (browse_step o).
Notation browse_run := (browse_run o).

(** The steps that start a browse of a name. *)
Definition begins (browseID : string) (step : browseStep) : bool :=
  match step with
  | Begin _ generated _ (Some p) => String.eqb (if String.eqb (paBrowseID p) "" then generated else paBrowseID p) browseID
  | _ => false
  end.

(** What a message does to the states: only a browse that is on changes. *)
Lemma on_message_state data b s id state : bwStates b !! id = Some state →
  bwStates (on_message o data b s) !! id =
    if String.eqb (bsStatus state) "browsing" && String.eqb (stBrowseID (buStart s)) id then
      match buHandler s with
      | OnResult => Some (with_status state "completed" (Some (transformBrowseResult o data (stDeviceID (buStart s)) (stProtocol (buStart s)))))
      | OnProgress => Some (if bool_decide (phase_parse data = Some "failed") then with_status state "failed" None else state)
      end
    else Some state.
Proof.
  intros E. unfold on_message, on_result, on_progress, finishBrowse. destruct (buHandler s).
  all: repeat case_bool_decide; try by rewrite E; destruct (_ && _).
  all: destruct (String.eqb_spec (stBrowseID (buStart s)) id) as [->|Hne]; rewrite ?E, ?andb_false_r, ?andb_true_r.
  all: try (destruct (String.eqb (bsStatus state) "browsing"); cbn; rewrite ?lookup_insert_eq; done).
  all: destruct (bwStates b !! stBrowseID (buStart s)) as [w|]; [destruct (String.eqb (bsStatus w) "browsing"); cbn; rewrite ?lookup_insert_ne by done|]; done.
Qed.

Lemma on_message_subs data b s : bwSubs (on_message o data b s) = bwSubs b.
Proof. unfold on_message, on_result, on_progress, finishBrowse. by repeat case_match. Qed.

Lemma messages_state data l : ∀ b id state, bwStates b !! id = Some state →
  (∀ s, s ∈ l → bsStatus state = "browsing" → stBrowseID (buStart s) ≠ id) → bwStates (fold_left (on_message o data) l b) !! id = Some state.
Proof.
  induction l as [|s l IH]; intros b id state E Hl; [done|]. cbn. apply IH; [|intros s' Hs'; apply Hl; by right].
  rewrite (on_message_state _ _ _ _ _ E). destruct (String.eqb_spec (bsStatus state) "browsing") as [Hb|]; [|done].
  rewrite (proj2 (String.eqb_neq _ _)); [done|]. apply Hl; [by left|done].
Qed.

Lemma step_state b step id state : bwStates b !! id = Some state → begins id step = false →
  (bsStatus state = "browsing" → step ≠ Cancel id ∧ ∀ s, s ∈ bwSubs b → stBrowseID (buStart s) ≠ id) →
  bwStates (browse_step b step) !! id = Some state.
Proof.
  intros E Hb Hq. destruct step as [now gen gid [p|]|st []|subject data|id'|n|gid dev|gid c]; cbn; try done.
  - unfold handleStartGatewayBrowse. destruct (String.eqb (paProtocol p) ""); [done|]. cbn in *. rewrite lookup_insert_ne; [done|].
    by apply String.eqb_neq.
  - unfold message. apply messages_state; [done|]. intros s [Hin _]%list_elem_of_In%filter_In Hs. by apply Hq, list_elem_of_In.
  - unfold handleCancelGatewayBrowse. destruct (bwStates b !! id') as [w|] eqn:Ew; [|done].
    destruct (String.eqb_spec (bsStatus w) "browsing") as [Hw|]; [|done]. cbn. rewrite lookup_insert_ne; [done|]. intros ->.
    rewrite E in Ew. injection Ew as <-. by destruct (Hq Hw).
  - by destruct (existsb _ _).
  - unfold handleGetGatewayBrowseCache. by repeat case_match.
  - unfold put_cache. by case_match.
Qed.

(** A browse ends once. When it has completed, failed or been cancelled, its state and result stay
    as they are whatever comes: late results, progress, cancellations, other browses. *)
Theorem ended_browse_is_final l b id state : bwStates b !! id = Some state → bsStatus state ≠ "browsing" →
  forallb (λ step, negb (begins id step)) l = true → bwStates (browse_run b l) !! id = Some state.
Proof.
  revert b. induction l as [|step l IH]; intros b E Hs Hl; [done|]. cbn in *. apply andb_true_iff in Hl as [Hb Hl].
  apply IH; [|done..]. apply step_state; [done|by apply negb_true_iff|]. done.
Qed.

(** The subscriptions to a browse of the name are gone. *)
Definition deaf (id : string) (b : Browses) : Prop := ∀ s, s ∈ bwSubs b → stBrowseID (buStart s) ≠ id.

Lemma messages_subs data l b : bwSubs (fold_left (on_message o data) l b) = bwSubs b.
Proof. revert b. induction l as [|s l IH]; intros b; [done|]. cbn. by rewrite IH, on_message_subs. Qed.

Lemma cleanup_deaf id n b : deaf id b → deaf id (cleanup n b).
Proof. intros Hd s. unfold cleanup. cbn. intros [Hin _]%list_elem_of_In%filter_In. by apply Hd, list_elem_of_In. Qed.

Lemma step_deaf b step id : deaf id b → begins id step = false → deaf id (browse_step b step).
Proof.
  intros Hd Hb. destruct step as [now gen gid [p|]|st []|subject data|id'|n|gid dev|gid c]; cbn; try done.
  - unfold handleStartGatewayBrowse. destruct (String.eqb (paProtocol p) ""); [done|]. cbn in *. apply String.eqb_neq in Hb. intros s. cbn.
    unfold start_subs. intros [?|[->|[->|?%elem_of_nil]%elem_of_cons]%elem_of_cons]%elem_of_app; [by apply Hd|done..].
  - by apply cleanup_deaf.
  - unfold message, deaf. by rewrite messages_subs.
  - unfold handleCancelGatewayBrowse. by repeat case_match.
  - case_match; [by apply cleanup_deaf|done].
  - unfold handleGetGatewayBrowseCache. by repeat case_match.
  - unfold put_cache. by case_match.
Qed.

(** A browse whose request was not answered goes on forever. The answer to the operator is
    an error and the subscriptions are removed, but the state stays browsing whatever the
    scanner sends later, until somebody cancels it or starts another one of its name. *)
Theorem unanswered_browse_never_ends l b st state : bwStates b !! stBrowseID st = Some state → bsStatus state = "browsing" →
  (∀ s, s ∈ bwSubs b → stBrowseID (buStart s) = stBrowseID st → stNumber (buStart s) = stNumber st) →
  forallb (λ step, negb (begins (stBrowseID st) step)) l = true → Cancel (stBrowseID st) ∉ l →
  let '(ans, b') := finish_start st false b in
  ans.1 = 500 ∧ bwStates (browse_run b' l) !! stBrowseID st = Some state.
Proof.
  intros E Hs Hn Hl Hc. cbn. split; [done|].
  assert (Hd : deaf (stBrowseID st) (cleanup (stNumber st) b)).
  { intros s. unfold cleanup. cbn. intros [Hin Hne]%list_elem_of_In%filter_In Heq. apply list_elem_of_In in Hin.
    apply negb_true_iff, Nat.eqb_neq in Hne. by apply Hne, Hn. }
  assert (E' : bwStates (cleanup (stNumber st) b) !! stBrowseID st = Some state) by done. revert E' Hd.
  generalize (cleanup (stNumber st) b). clear E Hn b. induction l as [|step l IH]; intros b E Hd; [done|]. cbn in *.
  apply andb_true_iff in Hl as [Hb%negb_true_iff Hl]. apply not_elem_of_cons in Hc as [Hc Hcl].
  apply IH; [done..| |by apply step_deaf]. apply step_state; [done..|]. intros _. split; [congruence|exact Hd].
Qed.

(** A result is kept. When the result of a browse that is on arrives at the subscriptions of
    its start, the browse is completed with the result in the form of the user interface;
    the cache of the device answers with it, also after the process has been restarted. *)
Theorem browse_result_is_kept b st subject data state : bwStates b !! stBrowseID st = Some state → bsStatus state = "browsing" →
  (∃ s, s ∈ bwSubs b ∧ ChannelBus.matchSubject (buSubject s) subject = true) →
  (∀ s, s ∈ bwSubs b → ChannelBus.matchSubject (buSubject s) subject = true → buStart s = st ∧ buHandler s = OnResult) →
  let text := transformBrowseResult o data (stDeviceID st) (stProtocol st) in
  let b' := message o subject data b in
  bwStates b' !! stBrowseID st = Some (with_status state "completed" (Some text))
  ∧ (handleGetGatewayBrowseCache (stGatewayID st) (stDeviceID st) b').1 = Some text
  ∧ (text ≠ "" → (handleGetGatewayBrowseCache (stGatewayID st) (stDeviceID st) (restart b')).1 = Some text).
Proof.
  intros E Hs (s0 & Hin0 & Hm0) Hall text b'.
  assert (Hb' : bwStates b' !! stBrowseID st = Some (with_status state "completed" (Some text))
    ∧ bwCache b' !! cache_key (stGatewayID st) (stDeviceID st) = Some text ∧ bwBucket b' !! cache_key (stGatewayID st) (stDeviceID st) = Some text).
  { unfold b', message. set (l := List.filter _ _).
    assert (Hl : ∀ s, s ∈ l → buStart s = st ∧ buHandler s = OnResult)
      by (intros s [Hin Hm]%list_elem_of_In%filter_In; apply Hall; [by apply list_elem_of_In|done]).
    assert (Hne : l ≠ []) by (intros El; assert (s0 ∈ l) as Hx by (apply list_elem_of_In, filter_In; split; [by apply list_elem_of_In|done]); rewrite El in Hx; by apply elem_of_nil in Hx).
    destruct l as [|s l]; [done|]. cbn [fold_left]. destruct (Hl s ltac:(by left)) as [Es Eh].
    assert (Hfirst : ∃ b1, on_message o data b s = b1 ∧ bwStates b1 !! stBrowseID st = Some (with_status state "completed" (Some text))
      ∧ bwCache b1 !! cache_key (stGatewayID st) (stDeviceID st) = Some text ∧ bwBucket b1 !! cache_key (stGatewayID st) (stDeviceID st) = Some text).
    { eexists. split; [done|]. unfold on_message. rewrite Eh, Es. unfold on_result. rewrite E, Hs. cbn. by rewrite !lookup_insert_eq. }
    destruct Hfirst as (b1 & -> & Hb1). assert (Hrest : ∀ s', s' ∈ l → buStart s' = st ∧ buHandler s' = OnResult) by (intros; apply Hl; by right).
    clear -Hb1 Hrest. induction l as [|s' l IH]; [done|]. cbn [fold_left]. destruct (Hrest s' ltac:(by left)) as [Es Eh].
    assert (on_message o data b1 s' = b1) as ->; [|apply IH; intros; apply Hrest; by right].
    destruct Hb1 as [E _]. unfold on_message. rewrite Eh, Es. unfold on_result. by rewrite E. }
  destruct Hb' as (H1 & H2 & H3). split_and!; [done|unfold handleGetGatewayBrowseCache; by rewrite H2|].
  intros Ht. unfold handleGetGatewayBrowseCache, restart. cbn. rewrite lookup_empty, H3. by rewrite (proj2 (String.eqb_neq _ _) Ht).
Qed.

End Facts.
