(* ===== verification/ApiExamples.v ===== *)
(** The theorems about the gateway's configuration applied to one with a Modbus device on a
    machine with an interface. *)

From S2P Require Import FirewallExamples GatewayRouting.
From S2P Require Export ApiInterfaces ApiBrowse.
Import Topics.

#[local] Open Scope Z_scope.
#[local] Existing Instance ascii_tables.
#[local] Existing Instance no_float_text.
#[local] Existing Instance router_peers.

Definition press : GatewayDeviceConfig := mkDevice "modbus" false "10.0.0.1" None None "" "" "" None None "ABCD" None None None ∅.
Definition pressure : GatewayVariableConfig :=
  mkVarConfig "pressure" "" "number" VNil "press" "db1.p" "" false None false false None "float32" "" (Some 10).
Definition plant : GatewayConfigKV := mkConfig "gw" {["press" := press]} {["pressure" := pressure]} ∅ ∅ 0.

(** The bucket with [plant], while the module network runs. *)
Definition store : Manifest.KV := mkKV {["gw" := Some plant]} ∅ ∅ ∅ ∅ ∅ {["network" := Some "network"]} ∅.

Definition accepted (_ : string) : bool := false.

Lemma plant_stored : getGatewayConfig store "gw" = Some plant. Proof. reflexivity. Qed.

Lemma plant_sound : sound plant.
Proof.
  split; cbn.
  - intros id v [<- <-]%lookup_singleton_Some. by eexists.
  - intros id u. by rewrite lookup_empty.
Qed.

Lemma plant_proper : proper plant.
Proof. intros m d _. cbn. intros [_ <-]%lookup_singleton_Some. discriminate. Qed.

(** A machine with one interface that is up. *)
Definition machine : Host (gset alias) :=
  mkHost (<["/sys" := Dir]> (<["/sys/class" := Dir]> (<["/sys/class/net" := Dir]> (<["/sys/class/net/eth0.7" := Dir]>
    (<["/sys/class/net/eth0.7/operstate" := File ("up" +:+ newline)]> ∅))))) ∅.

Definition vlan : NetworkInterface := mkNetInterface "eth0.7" "up" false 0 "" "" 0 0 [] [] (Some (mkStats 0 0 0 0 0 0 0 0)).

Lemma machine_interfaces : @readInterfaces _ (linux true) _ machine = (inr [vlan], machine).
Proof. vm_compute. reflexivity. Qed.

Definition module_answers : answers := mkAnswers (@network_answer _ (linux true) _ _ machine) (λ _, None).

Definition seen : GatewayConfigKV := (sync_sources sources store module_answers plant).1.

Lemma requests_keep_references_witness : ∃ c,
  serve 5 accepted "gw" (handle map_order "gw" (DeleteDevice "press")) store
    = (writeJSON c, with_gateway store {["gw" := Some c]}) ∧ sound c ∧ trimmed c ∧ cfVariables c = ∅.
Proof.
  destruct (serve 5 accepted "gw" (handle map_order "gw" (DeleteDevice "press")) store) as [[st [e|c]] k'] eqn:E;
    [exfalso; vm_compute in E; discriminate|].
  assert (Es : st = 200) by (vm_compute in E; congruence). subst st.
  destruct (requests_keep_references 5 accepted map_order "gw" (DeleteDevice "press") store plant c k' plant_stored eq_refl plant_sound I E)
    as (_ & Hs & Ht & _).
  exists c. split_and!; [|exact Hs|by apply Ht|]; unfold serve in E; vm_compute in E; injection E as <- <-; reflexivity.
Defined.

Lemma device_goes_with_its_variables_witness : ∃ c k',
  serve 5 accepted "gw" (handle map_order "gw" (DeleteDevice "press")) store = ((200, inr c), k')
  ∧ ∀ id v, cfVariables c !! id = Some v ↔ cfVariables plant !! id = Some v ∧ vcDeviceID v ≠ "press".
Proof.
  destruct (serve 5 accepted "gw" (handle map_order "gw" (DeleteDevice "press")) store) as [[st [e|c]] k'] eqn:E;
    [exfalso; vm_compute in E; discriminate|].
  assert (Es : st = 200) by (vm_compute in E; congruence). subst st. exists c, k'. split; [done|].
  apply (device_goes_with_its_variables 5 accepted map_order "gw" "press" store plant c k' plant_stored eq_refl E).
Defined.

Definition spare : GatewayVariableConfig :=
  mkVarConfig "spare" "" "number" VNil "press" "db1.s" "" false None false false None "float32" "" (Some 12).

(** Two operators at a time: the new variable is lost. *)
Lemma overlapping_request_lost_witness : ∃ c1 c2 k1 k2,
  finish 5 accepted (handleSetGatewayVariable "gw" "spare" (Some spare) (Some plant)) store = ((200, inr c1), k1)
  ∧ finish 5 accepted (handleDeleteGatewayVariable "gw" "other" (Some plant)) k1 = ((200, inr c2), k2)
  ∧ is_Some (cfVariables c1 !! "spare") ∧ (cfVariables <$> getGatewayConfig k2 "gw") = Some {["pressure" := pressure]}.
Proof.
  destruct (finish 5 accepted (handleSetGatewayVariable "gw" "spare" (Some spare) (Some plant)) store) as [a1 k1] eqn:E1.
  destruct (finish 5 accepted (handleDeleteGatewayVariable "gw" "other" (Some plant)) k1) as [a2 k2] eqn:E2.
  destruct (overlapping_request_lost 5 accepted "gw" (handleSetGatewayVariable "gw" "spare" (Some spare)) (handleDeleteGatewayVariable "gw" "other")
    store a1 k1 a2 k2 (set_variables plant (<["spare" := spare]> (cfVariables plant))) plant) as (Ha1 & Ha2 & Hk); try reflexivity; [exact E1|exact E2|].
  exists (stamp 5 (set_variables plant (<["spare" := spare]> (cfVariables plant)))), (stamp 5 plant), k1, k2. split_and!.
  - by rewrite Ha1.
  - by rewrite E2, Ha2.
  - by eexists.
  - rewrite Hk. vm_compute. reflexivity.
Defined.

Lemma get_gateway_settles_witness : ∃ r puts k', handleGetGateway 5 accepted map_order sources module_answers "gw" (Some plant) store = (r, puts, k')
  ∧ kvGateway k' ≠ kvGateway store
  ∧ ∃ puts', handleGetGateway 9 accepted map_order (reverse sources) module_answers "gw" (getGatewayConfig k' "gw") k' = (r, puts', k')
    ∧ puts' ≡ₚ puts.
Proof.
  destruct (handleGetGateway 5 accepted map_order sources module_answers "gw" (Some plant) store) as [[r puts] k'] eqn:E. exists r, puts, k'. split; [done|]. split.
  - vm_compute in E. injection E as _ _ <-. intros Hk. apply (f_equal (λ m, (option_map cfUpdatedAt) <$> m !! "gw")) in Hk. vm_compute in Hk. discriminate.
  - apply (get_gateway_settles map_order accepted module_answers 5 9 sources (reverse sources) "gw" store plant); [done|apply reverse_Permutation|reflexivity..|exact plant_proper|exact E].
Defined.

Lemma deleted_variable_returns_witness : ∃ k1 k2 r puts ans,
  serve 4 accepted "gw" (handleDeleteGatewayVariable "gw" "pressure") store = (ans, k1) ∧ ans.1 = 200
  ∧ handleGetGateway 5 accepted map_order sources module_answers "gw" (Some plant) k1 = (r, puts, k2)
  ∧ ∃ c2, getGatewayConfig k2 "gw" = Some c2 ∧ cfVariables c2 !! "pressure" = Some pressure.
Proof.
  destruct (serve 4 accepted "gw" (handleDeleteGatewayVariable "gw" "pressure") store) as [ans k1] eqn:E1.
  destruct (handleGetGateway 5 accepted map_order sources module_answers "gw" (Some plant) k1) as [[r puts] k2] eqn:E2.
  destruct (deleted_variable_returns map_order accepted module_answers 5 4 sources "gw" store plant "pressure" pressure ans k1 r puts k2) as (Ha & _ & Hc);
    try reflexivity; [exact plant_proper| |exact E1|exact E2|].
  - apply (bool_decide_unpack _). vm_compute. exact I.
  - exists k1, k2, r, puts, ans. auto.
Defined.

Lemma seen_fresh : fresh_interface "eth0.7" plant.
Proof.
  split_and!.
  - intros u. cbn. by rewrite lookup_empty.
  - intros d. cbn. intros [E _]%lookup_singleton_Some. discriminate.
  - intros t. cbn. by rewrite lookup_empty.
Qed.

Notation order_of := (λ A : Type, @map_to_list string A (gmap string A) _).

Definition seeing : Gateway := (ApplyConfig (raw := unit) (λ _, false) order_of (Some seen) (New "gateway")).1.

(** The state of a VLAN, whose name has a dot. *)
Lemma interface_values_reach_gateway_witness : ∃ asm,
  udtAssemblers (handleScannerData (raw := unit) (λ _, Some "") 100 "network.data.network.eth0_7_operstate"
    (Some (mkData "network" "network" "eth0_7_operstate" (VString "up") 99 "string" "" None false false None None)) "network" "network" seeing).1
    !! "eth0.7" = Some asm ∧ assemble asm !! "operstate" = Some (VString "up").
Proof.
  destruct (interface_values_reach_gateway (λ _, Some "") (λ _, false) order_of (λ _ _, Permutation_refl _) (Sys := gset alias) (raw := unit)
    (H0 := linux true) machine machine [vlan] vlan "operstate" (VString "up", "string") store sources module_answers plant (New "gateway")
    (mkData "network" "network" "eth0_7_operstate" (VString "up") 99 "string" "" None false false None None) 100 99
    machine_interfaces) as (_ & _ & asm & Ha & Hv & _).
  - by left.
  - vm_compute. reflexivity.
  - vm_compute. reflexivity.
  - reflexivity.
  - done.
  - exact plant_proper.
  - exact seen_fresh.
  - discriminate.
  - done.
  - exists asm. split; [exact Ha|exact Hv].
Defined.

Lemma looking_prevents_restore_witness : ∃ r puts k' e,
  handleGetGateway 5 accepted map_order sources module_answers "gw" (Some plant) store = (r, puts, k')
  ∧ Apply map_order 6 (Export map_order [] (mkSite k' router)).1 "gitops" router_site = (None, Some e, router_site).
Proof.
  destruct (handleGetGateway 5 accepted map_order sources module_answers "gw" (Some plant) store) as [[r puts] k'] eqn:E. exists r, puts, k'.
  destruct (looking_prevents_restore module_answers map_order 5 accepted sources "gw" plant store r puts k' [] "eth0.7") with map_order 6 "gitops" router router_site as [e He];
    [done|reflexivity..|exact plant_proper| |vm_compute; reflexivity|vm_compute; reflexivity|exact E|].
  - intros d. cbn. intros [Ed _]%lookup_singleton_Some. discriminate.
  - exists e. split; [done|exact He].
Defined.

(** ** Browsing *)

#[local] Instance plain_browse_text : BrowseText := {| result_parse _ := None; cache_text _ := None; phase_parse s := Some s |}.

Definition idle : Browses := mkBrowses ∅ ∅ ∅ [] [] 0.
Definition browse_press : start := mkStart 0 "b1" "gw" "press" "modbus".
Definition browsing : Browses := (handleStartGatewayBrowse 7 "b1" "gw" (Some (mkParams "modbus" "press" "")) idle).2.
Definition press_state : BrowseState := mkBrowseState "b1" "gw" "press" "modbus" "browsing" 7 None 0.

Lemma browsing_state : bwStates browsing !! "b1" = Some press_state. Proof. reflexivity. Qed.

Lemma browsing_subs (P : browseSub → Prop) : Forall P (start_subs browse_press) → ∀ s, s ∈ bwSubs browsing → P s.
Proof. intros HP. apply Forall_forall. exact HP. Qed.

Lemma browse_result_is_kept_witness : let b' := message map_order "modbus.browse.result.b1" "{}" browsing in
  bwStates b' !! "b1" = Some (with_status press_state "completed" (Some "{}"))
  ∧ (handleGetGatewayBrowseCache "gw" "press" (restart b')).1 = Some "{}".
Proof.
  intros b'. destruct (browse_result_is_kept map_order browsing browse_press "modbus.browse.result.b1" "{}" press_state browsing_state eq_refl) as (H1 & _ & H3).
  - exists (mkBrowseSub "modbus.browse.result.b1" OnResult browse_press). split; [by left|vm_compute; reflexivity].
  - apply (browsing_subs (λ s, ChannelBus.matchSubject (buSubject s) "modbus.browse.result.b1" = true → buStart s = browse_press ∧ buHandler s = OnResult)).
    apply Forall_cons. split; [done|]. apply Forall_cons. split; [|done]. intros E. vm_compute in E. discriminate.
  - split; [exact H1|apply H3; discriminate].
Defined.

Definition later_steps : list browseStep :=
  [Message "modbus.browse.result.b1" "{}"; Begin 9 "b2" "gw" (Some (mkParams "modbus" "press" "b2")); Message "modbus.browse.progress.b1" "failed"].

Lemma unanswered_browse_never_ends_witness : bwStates (browse_run map_order (finish_start browse_press false browsing).2 later_steps) !! "b1" = Some press_state.
Proof.
  refine (proj2 (unanswered_browse_never_ends map_order later_steps browsing browse_press press_state browsing_state eq_refl _ eq_refl _)).
  - apply (browsing_subs (λ s, stBrowseID (buStart s) = "b1" → stNumber (buStart s) = 0%nat)). by repeat constructor.
  - intros Hin. repeat (apply elem_of_cons in Hin as [?|Hin]; [discriminate|]). by apply elem_of_nil in Hin.
Defined.

Lemma ended_browse_is_final_witness : let b := (handleCancelGatewayBrowse "b1" browsing).2 in
  bwStates (browse_run map_order b later_steps) !! "b1" = Some (with_status press_state "cancelled" None).
Proof. intros b. apply (ended_browse_is_final map_order later_steps b "b1"); [reflexivity|discriminate|reflexivity]. Defined.
